(* ===== verification/_CoqProject ===== *)
-Q . S2P
Prelude.v
MachineInt.v
Float64.v
Buffers.v
FeeMetrics.v
Amounts.v
Types.v
Cache.v
GenericApi.v
Samples.v
Statig.v
VolumeAgent.v
VolumeAgentFacts.v
VolumeStrategy.v
VolumeStrategyFacts.v
SniperStrategy.v
SniperFacts.v
Sweeper.v
Ownership.v
BuildInstructions.v
BuildFacts.v
RpcPool.v
Executor.v
TxParser.v
ParsedTx.v
Providers.v
TxParserFacts.v
Collectors.v
CollectorFacts.v
Feeds.v
Aggregators.v
Manager.v
ManagerFacts.v
Engine.v
EngineSpec.v
Dialogue.v
DialogueHandlers.v
DialogueFacts.v
DialogueSpec.v
Storage.v
Pack.v
RefDB.v
RefDBFacts.v
RefDBSpec.v
AmmInstruction.v
VaultInstruction.v
Token.v
Pool.v
Farm.v
Vault.v
Fund.v
FundInstruction.v
RefDbInstruction.v
MainInstruction.v
CodecSpec.v
SdkAccount.v
Multisig.v
Cpi.v
Raydium.v
Orca.v
ProtocolFacts.v
Oracle.v
Pda.v
ClientNames.v
Client.v
ClientReads.v
ClientPool.v
ClientFarm.v
ClientVault.v
ClientFund.v
ClientRouter.v
ClientChecks.v
ClientPlans.v
ClientSend.v
ClientSamples.v
ClientSigners.v
ClientSendFacts.v
ClientCacheFacts.v
ClientDataFacts.v
SdkText.v
