(* ===== verification/Prelude.v ===== *)
(** * The foxfire-sniper trading bot: a verification library

    The repository is a Solana trading bot ([src/src]) and two library crates it
    is built with ([src/crates/solana_farm_sdk], [src/crates/solana_farm_client]).
    The bot watches the chain through a feed, turns transactions and account
    updates into events, gives the events to trading strategies, and executes the
    actions the strategies queue.  The SDK holds the data of on-chain farming
    programs: how instructions and accounts are packed into bytes, a small
    database kept in an account's data, quotes of liquidity pools, and the calls
    into other programs.

    The translation is a shallow embedding.  A pure Rust function is a function; a
    method with [&mut self] is a state transformer that may panic ([ST] below), and
    a fallible one returns a [result] in it; an [Arc<Mutex<_>>] that is shared is
    a reference into a heap; a spawned task is an element of a list of pending
    deliveries that a step relation picks from, so that the theorems hold for
    every interleaving of whole handlers: a handler runs from its event to its end,
    its awaits included, before another step of the same relation (the executor, which
    holds a lock over its awaits, is the exception and is modelled with the lock).  Integers are [Z] with their overflow written out
    ([MachineInt]); floats are the executable IEEE arithmetic of the Standard
    Library ([Float64]), or bit patterns where the code only stores them.  Code that is not
    in the repository is a type class ([Ext], [RpcClients], [Yata], [Runtime],
    [StatigDriver], ...), whose laws, where a theorem needs any, are those its
    documentation gives; [Samples] and the witnesses instantiate each of them.

    ** The bot

    - [utils]: [Buffers] (circular_buffer.rs, circular_buffer_w_rev.rs: the bounded
      maps behind the cache, refining a queue of pairs, and stopwatch.rs), [FeeMetrics] (fee_metrics.rs and its copies), [Amounts] (decimals.rs,
      math.rs of the bot and of the SDK).
    - [Types] (types, strategies/events.rs): actions, events, receipts, pools.
    - [Cache] (config/cache.rs): the operational cache and the [World], which is what
      the tasks share: cache, heap of actions, clock, uuids.  [GenericApi]
      (solana/generic_api.rs) reads balances through it.
    - Strategies.  [Statig] is the state machine driver the machines run in.
      [VolumeAgent] is one wallet of the volume strategy: its states, one
      definition per handler and entry action, retries and timeouts;
      [VolumeStrategy] has the shared list of agents with the tasks that deliver
      events to them and the strategy over it, and [VolumeAgentFacts] and
      [VolumeStrategyFacts] what is proved of them.  [SniperStrategy] and
      [SniperFacts], and [Sweeper], are the same for the two other strategies;
      [Ownership] has a logic for the handlers of strategies with a fleet of agents,
      what it shows of the volume strategy and the sweeper, and what a sniper orders;
      [Storage] has the deposit strategy and the logger.  [Manager] and
      [ManagerFacts] (solana_strategy_manager.rs) start and abort the strategies'
      tasks and keep their table in the database.
    - Execution.  [BuildInstructions] (executors/build_instructions.rs,
      raydium_sdk.rs) turns an action into instructions and [BuildFacts] accounts
      for what they spend; [RpcPool] (solana/rpc_pool.rs) falls back between
      providers and retries; [Executor] (the files of executors) locks an action, builds,
      simulates and sends it, and what is left of the action is proved there;
      [Providers] has the other services of the nodes (the rest of rpc_pool.rs,
      getters.rs, geyser_pool.rs, bloxroute.rs).
    - The feed.  [Feeds] (collectors/tx_stream) is the stream of every provider, how its
      subscription follows the accounts, and the merge without what was seen.  [TxParser] and [TxParserFacts] (solana/tx_parser.rs, pool.rs) read
      swaps and new pools out of transactions, and [ParsedTx] has the helpers that
      read instructions a node has parsed; [Collectors] and [CollectorFacts]
      (the files of collectors) turn updates into events; [Aggregators] (the files of aggregators)
      keeps candles and indicators of the swaps.

    - The engine.  [Engine] (engine.rs, types/engine.rs) states broadcast channels as a class with
      the laws of tokio's, and the engine as a step relation over them: collectors,
      aggregators, strategies and executors, with their cursors and histories.
      [EngineSpec] is what each task then gets.
    - The users.  [Dialogue] and [DialogueHandlers] (tg_bot) are what the bot knows of a
      chat and a handler per button, command and typed value; [DialogueFacts] and
      [DialogueSpec] follow a chat through any sequence of updates.
    - [Storage] (storage, serdealizers.rs, the keys, the settings, app_context.rs, main.rs) is
      the Redis cache, the columns of the tables, and what is started from the settings.

    An event goes from [Collectors] through the channels of [Engine] to a
    strategy, which updates its agents; their entry actions put an action in
    the heap and its reference in a queue; [Executor] takes the reference, and what
    it reports and the receipt the feed sees later are again events.

    ** The SDK

    - [Pack] (pack.rs, traits.rs, error.rs): buffers, the primitive fields, and the class
      [Packed] with its law [PackedLaw]: what is packed is unpacked again
      and fills the size it says.  [Token], [Pool], [Farm], [Vault], [Fund] (the files of the same
      names) and [AmmInstruction], [VaultInstruction], [FundInstruction],
      [RefDbInstruction], [MainInstruction] (the files of instruction) are its instances, each
      proved from the lemmas of [Pack]; a type that carries another uses it through the
      class.  [CodecSpec] states the round trips.
    - [RefDB] (refdb.rs): the database on the bytes of an account.  [RefDBFacts] relates each
      operation to a table of slots, [RefDBSpec] the table to a finite map from
      names to references.
    - [SdkAccount] (program/account.rs), [Oracle] (the price functions of the same
      file), [Pda] (program/pda.rs, with its theorems), [Multisig] (program/multisig.rs).
    - [Cpi] is invoking other programs and the instructions of Raydium and Orca;
      [Raydium], [Orca] (program/protocol) build what is invoked and
      compute the quotes; [ProtocolFacts] is about both.
    - [SdkText] (Display and FromStr, string.rs, the JSON fields of pack.rs,
      program/mod.rs): names of the enumerations, texts of keys, derived addresses, and
      an instruction's place in its transaction.

    ** The farm client

    The methods of [FarmClient] ([src/crates/solana_farm_client/src/client.rs] and the
    files of its client directory) are state transformers over the caches of the client.
    What it asks the RPC node is a function of the number of the question ([Rpc]),
    so that a theorem holds whatever the answers are and however they change; the
    other libraries are [ClientLibs], the order of a [HashMap] is [HashOrder], and
    [FarmEnv] is all of them.  A [RefCell] that an iteration borrows is marked as
    [lent], and a mutable borrow of it panics.

    - [ClientNames] (error.rs, the names of tokens and pools and their latest version),
      [Client] (cache.rs, and the lookups: the source writes them out for five kinds
      of record, the model has them once over a record [Kind] of what differs).
    - [ClientReads]: derived addresses, balances, prices, stake accounts, statistics;
      signing, sending and splitting into transactions.
    - [ClientPool] (with system_instructions.rs), [ClientFarm], [ClientVault], [ClientFund],
      [ClientRouter]: one [new_instruction_] function of the source each, with the
      helpers that list its accounts.  A helper's [unreachable!] is a panic.
    - [ClientChecks] ([check_]), [ClientPlans] ([all_instructions_]) and
      [ClientSend] (the operations, and what they change in the caches).
    - [ClientSigners] has a program logic for what such a method returns ([returns])
      and who signs; [ClientSendFacts] (sending and batches),
      [ClientCacheFacts] (names, lookups, changes and resets of the caches) and
      [ClientDataFacts] (what instructions carry) are what is proved with it, and
      [ClientSamples] is a client with filled caches that the witnesses run.

    ** What the theorems show

    - Ownership: whatever happens and however the tasks interleave, the actions of a
      volume strategy and of a sweep are signed by wallets of the strategy's fleet, paid by
      them or the user's wallet, trade its pool and send money into the fleet, and so do
      the instructions that are built for them ([BuildFacts]); those of a
      sniper are paid by its one wallet and trade pools that passed its filters, for
      the size it is configured for ([Ownership]).
    - Spending: the built instructions of an action stay within the tokens read
      before ([BuildFacts]), name the action's own wallet, and leave what the next fee needs.
    - Progress and bounds: attempts of agents and snipes are bounded by the retry
      constant, a command that gets no answer times out ([VolumeAgentFacts],
      [SniperFacts]).
    - Causes: an agent succeeds only on a receipt of an action of its own, a phase
      of a strategy ends only when its agents say so ([VolumeStrategyFacts]), a task
      runs exactly for the strategies that are to run ([ManagerFacts]), an
      event reported by a collector adds up to the balance seen ([CollectorFacts]).
    - Defects that hold on every run: an execution ends exactly as a specification
      without locks says, in which a sent action and a refused simulation stay locked for
      ever, because the executor asks for the mutex it holds; so [execute] never reports
      [Sent] ([Executor]); the poller never reports ([CollectorFacts]); a strategy
      started under a known id does not run ([ManagerFacts]); bars are emitted
      empty ([Aggregators]); the limit on simultaneous snipes does not bound them ([SniperFacts]).
    - Delivery: a strategy hears a contiguous run of the events from its start, an
      executor takes each action once and in order, and what is executed was given in
      answer to an event ([EngineSpec]); the stream of the chain carries no signature
      twice and catches up with the monitored accounts ([Feeds]).
    - Users: a chat's configuration only grows and keeps to its ranges, a strategy
      starts only as it was configured, a chat that is not listed and starts
      without a dialogue gets none and starts no strategy (typed values of a chat that was
      taken off the list are still stored) ([DialogueSpec]); a deposit into a user's wallet
      gives one transfer of the fee, signed by that wallet, and nothing else does ([Storage]).
    - Data: instructions and records are read back as they were written (names without
      a zero byte, vaults of the strategy that can be packed: [DynamicHedge] is refused), decoded
      data is what would have been encoded ([CodecSpec]); the database refines a map, with no
      change on failure, on accounts with fewer than 68 bytes behind the last slot
      ([RefDBSpec], which shows what goes wrong with more); the quotes round in favour of the pool,
      the calls are the instructions of a table of accounts and data, signed by the one
      account that authorizes them, and go to known programs ([ProtocolFacts]); checks of
      derived accounts mean what they say ([Pda]); enumerations are read from the
      names they are written with ([SdkText]).
    - The farm client: every instruction is signed by the wallet that asks for it, or by
      the fund's administrator, and by nobody else, synchronising wrapped SOL apart, which
      nobody signs ([ClientSigners]); what a fund sends is what the client builds for a
      wallet, in the same run, with the fund's accounts in front ([ClientDataFacts]); instructions are sent
      completely and in order, in at most twenty attempts each ([ClientSendFacts]);
      records come from the chain or were added by the client itself, names lead to the
      newest version, and additions and removals of full names are seen by the next
      lookup ([ClientCacheFacts]).  Defects: a reset
      forgets the names of farms, a deposit of all SOL is refused, an answer that a first
      attempt was processed already yields a signature of nothing.

    ** Bounds and fuel

    Loops over lists and buffers are structural.  The loops that search an account
    take the number of records its length allows as a measure, which is the bound of
    the source's [while]; [RpcPool] and [Executor] count down the retries of the
    source; the loop of [get_fee_parts] in [Amounts] counts the six rounds of the source.  The farm client sends a transaction at most twenty times, as the source
    does, and its loop over batches takes the number of instructions, since every
    batch has one at least.  No theorem assumes that fuel suffices.

    ** Not modelled

    Third-party clients (gRPC, websockets, HTTP, Telegram, Postgres, Redis) and the
    serializers they use are interfaces; their connections and the reading of the
    settings' file are left out, and so are the layouts and wordings of the
    dialogues, logging, and the table definitions that diesel generates
    (schema.rs).  Display, Debug and serde implementations are left out except where the
    program acts on the text, for the enumerations, and where the SDK writes them by
    hand.  Hashes (program-derived addresses, [hash_address]) and the floating-point
    library functions ([powi], [powf]) are parameters.  The integration tests of the
    client, and build.rs, which writes the ids of programs, are no part of the program.
    Of the farm client, reading keypairs from a terminal or a file and the
    connection of [RpcClient] are left out.*)

From Stdlib Require Import ZArith Lia List.
From stdpp Require Export numbers base tactics list gmap strings.

#[global] Set Default Proof Using "Type".

Declare Scope bot_scope.
Delimit Scope bot_scope with bot.

(** ** Hint databases and tactics *)

Create HintDb bot discriminated.
Create Rewrite HintDb bot_rw.

(** Case analysis on the innermost scrutinee of a goal or hypothesis. *)
Ltac destr_goal :=
  match goal with
  | |- context [match ?x with _ => _ end] =>
      lazymatch x with
      | context [match _ with _ => _ end] => fail
      | _ => let E := fresh "E" in destruct x eqn:E
      end
  end.

Ltac destr_in H :=
  match type of H with
  | context [match ?x with _ => _ end] =>
      lazymatch x with
      | context [match _ with _ => _ end] => fail
      | _ => let E := fresh "E" in destruct x eqn:E
      end
  end.

Ltac destr_all H := repeat (destr_in H; simplify_eq/=).

(** ** The panic-and-state monad

    A Rust method with [&mut self] is a state transformer that may panic.  The
    state is kept when it panics: a tokio task that unwinds drops its guards
    and leaves the shared state as the statements before the panic left it. *)

Definition ST (S A : Type) : Type := S -> option A * S.

Definition st_ret {S A} (a : A) : ST S A := fun s => (Some a, s).

Definition st_panic {S A} : ST S A := fun s => (None, s).

Definition st_bind {S A B} (m : ST S A) (k : A -> ST S B) : ST S B := fun s =>
  match m s with
  | (Some a, s') => k a s'
  | (None, s') => (None, s')
  end.

Definition st_get {S} : ST S S := fun s => (Some s, s).

Definition st_gets {S A} (f : S -> A) : ST S A := fun s => (Some (f s), s).

Definition st_modify {S} (f : S -> S) : ST S unit := fun s => (Some tt, f s).

(** [opt.unwrap()], an index, a checked arithmetic operation. *)
Definition st_unwrap {S A} (o : option A) : ST S A :=
  match o with Some a => st_ret a | None => st_panic end.

Notation "x <- m ;; k" := (st_bind m (fun x => k))
  (at level 20, m at level 99, k at level 200) : bot_scope.
Notation "' p <- m ;; k" := (st_bind m (fun x => match x with p => k end))
  (at level 20, p pattern, m at level 99, k at level 200) : bot_scope.
Notation "m ;;; k" := (st_bind m (fun _ => k))
  (at level 100, k at level 200) : bot_scope.

#[global] Open Scope bot_scope.

Fixpoint st_iter {S A} (f : A -> ST S unit) (l : list A) : ST S unit :=
  match l with
  | [] => st_ret tt
  | a :: l' => f a ;;; st_iter f l'
  end.

Fixpoint st_map {S A B} (f : A -> ST S B) (l : list A) : ST S (list B) :=
  match l with
  | [] => st_ret []
  | a :: l' => b <- f a ;; bs <- st_map f l' ;; st_ret (b :: bs)
  end.

(** Running a computation on a component of the state. *)
Definition st_zoom {S T A} (get : S -> T) (put : T -> S -> S) (m : ST T A) : ST S A :=
  fun s => let '(r, t) := m (get s) in (r, put t s).

Lemma st_bind_ret_l {S A B} (a : A) (k : A -> ST S B) s : st_bind (st_ret a) k s = k a s.
Proof. reflexivity. Qed.

Lemma st_bind_Some {S A B} (m : ST S A) (k : A -> ST S B) s a s' :
  m s = (Some a, s') -> st_bind m k s = k a s'.
Proof. intros H. unfold st_bind. now rewrite H. Qed.

Lemma st_bind_inv {S A B} (m : ST S A) (k : A -> ST S B) s b s'' :
  st_bind m k s = (Some b, s'') ->
  exists a s', m s = (Some a, s') /\ k a s' = (Some b, s'').
Proof.
  unfold st_bind. destruct (m s) as [[a|] s'] eqn:E; intros H; [|discriminate].
  eauto.
Qed.

Lemma st_iter_app {S A} (f : A -> ST S unit) l1 l2 s :
  st_iter f (l1 ++ l2) s = st_bind (st_iter f l1) (fun _ => st_iter f l2) s.
Proof.
  revert s. induction l1 as [|a l1 IH]; intros s; [reflexivity|].
  cbn [app st_iter]. unfold st_bind.
  destruct (f a s) as [[[]|] s']; [|reflexivity].
  rewrite IH. reflexivity.
Qed.

(** A predicate preserved by every element's action is preserved by the loop,
    whether or not the loop panics. *)
Lemma st_iter_preserves {S A} (P : S -> Prop) (f : A -> ST S unit) l :
  (forall a s, P s -> P (snd (f a s))) ->
  forall s, P s -> P (snd (st_iter f l s)).
Proof.
  intros Hf. induction l as [|a l IH]; intros s Hs; [exact Hs|].
  cbn [st_iter]. unfold st_bind. specialize (Hf a s Hs).
  destruct (f a s) as [[[]|] s']; cbn in *; auto.
Qed.

(** [runs R m]: [m] never panics and relates its states by [R], a frame
    condition.  The lemmas follow the structure of the computation. *)
Definition runs {S A} (R : S -> S -> Prop) (m : ST S A) : Prop :=
  forall s, exists a s', m s = (Some a, s') /\ R s s'.

Section Runs.
#[local] Set Default Proof Using "Type*".
Context {S : Type} (R : S -> S -> Prop) `{!PreOrder R}.

Lemma runs_ret {A} (a : A) : runs R (st_ret a).
Proof. intros s. exists a, s. split; reflexivity. Qed.

Lemma runs_bind {A B} (m : ST S A) (k : A -> ST S B) :
  runs R m -> (forall a, runs R (k a)) -> runs R (st_bind m k).
Proof.
  intros Hm Hk s. destruct (Hm s) as (a & s' & E & H1).
  destruct (Hk a s') as (b & s'' & E' & H2).
  exists b, s''. unfold st_bind. rewrite E. split; [done | by transitivity s'].
Qed.

Lemma runs_gets {A} (f : S -> A) : runs R (st_gets f).
Proof. intros s. exists (f s), s. split; reflexivity. Qed.

Lemma runs_modify (f : S -> S) : (forall s, R s (f s)) -> runs R (st_modify f).
Proof. intros Hf s. exists tt, (f s). split; [reflexivity | apply Hf]. Qed.

Lemma runs_iter {A} (f : A -> ST S unit) l : (forall a, runs R (f a)) -> runs R (st_iter f l).
Proof.
  intros Hf. induction l as [|a l IH]; [apply runs_ret|]. cbn [st_iter].
  apply runs_bind; [apply Hf | intros _; exact IH].
Qed.
End Runs.

(** Follow the structure of the computation; calls are closed by the hints. *)
Ltac runs_tac :=
  repeat first
    [ apply runs_ret; exact _
    | apply runs_gets; exact _
    | apply runs_modify; [exact _ | intros ?; solve [by repeat split]]
    | solve [eauto with bot nocore]
    | apply runs_bind; [exact _ | | intros ?]
    | apply runs_iter; [exact _ | intros ?]
    | case_match ].

(** ** Rust's [Result] *)

Inductive result (E A : Type) : Type :=
| Ok (a : A)
| Err (e : E).
Arguments Ok {E A} a.
Arguments Err {E A} e.

Definition result_bind {E A B} (r : result E A) (k : A -> result E B) : result E B :=
  match r with Ok a => k a | Err e => Err e end.

Definition result_to_option {E A} (r : result E A) : option A :=
  match r with Ok a => Some a | Err _ => None end.

(** The [?] operator. *)
Notation "x <-? m ;; k" := (result_bind m (fun x => k))
  (at level 20, m at level 99, k at level 200) : bot_scope.

(** A computation that may fail: [bail!] and [?] in a method that may panic. *)
Definition st_try {S E A B} (m : ST S (result E A)) (k : A -> ST S (result E B))
    : ST S (result E B) :=
  r <- m ;; match r with Ok a => k a | Err e => st_ret (Err e) end.

Definition st_ok {S E A} (a : A) : ST S (result E A) := st_ret (Ok a).

Definition st_bail {S E A} (e : E) : ST S (result E A) := st_ret (Err e).

(** A computation that only panics, among fallible ones. *)
Definition st_lift {S E A} (m : ST S A) : ST S (result E A) := a <- m ;; st_ret (Ok a).

Lemma st_try_inv {S E A B} (m : ST S (result E A)) (k : A -> ST S (result E B)) s b s'' :
  st_try m k s = (Some (Ok b), s'') ->
  exists a s', m s = (Some (Ok a), s') /\ k a s' = (Some (Ok b), s'').
Proof.
  unfold st_try, st_bind. destruct (m s) as [[[a|e]|] s']; [eauto | discriminate..].
Qed.

Lemma st_try_Ok {S E A B} (m : ST S (result E A)) (k : A -> ST S (result E B)) s a s' :
  m s = (Some (Ok a), s') -> st_try m k s = k a s'.
Proof. intros H. unfold st_try, st_bind. now rewrite H. Qed.

Lemma st_lift_inv {S E A} (m : ST S A) s (a : A) s' :
  @st_lift S E A m s = (Some (Ok a), s') -> m s = (Some a, s').
Proof. unfold st_lift, st_bind, st_ret. destruct (m s) as [[b|] t]; congruence. Qed.

Notation "x <-! m ;; k" := (st_try m (fun x => k))
  (at level 20, m at level 99, k at level 200) : bot_scope.
Notation "' p <-! m ;; k" := (st_try m (fun x => match x with p => k end))
  (at level 20, p pattern, m at level 99, k at level 200) : bot_scope.

(** ** Lists *)

Definition sum_list_Z (l : list Z) : Z := foldr Z.add 0%Z l.
Arguments sum_list_Z : simpl never.

(** [slice.chunks(n)] of Rust: consecutive chunks of [n] elements, the last one
    possibly shorter; [n = 0] panics in Rust and is never used. The fuel is the
    length of the slice, enough since every chunk is non-empty. *)
Fixpoint chunks_fuel {A} (fuel : nat) (n : nat) (l : list A) : list (list A) :=
  match fuel, l with
  | O, _ | _, [] => []
  | S fuel', _ => take n l :: chunks_fuel fuel' n (drop n l)
  end.

Definition chunks {A} (n : nat) (l : list A) : list (list A) := chunks_fuel (length l) n l.

Lemma sum_list_Z_cons x l : (sum_list_Z (x :: l) = x + sum_list_Z l)%Z.
Proof. reflexivity. Qed.

Lemma sum_list_Z_app l1 l2 : (sum_list_Z (l1 ++ l2) = sum_list_Z l1 + sum_list_Z l2)%Z.
Proof.
  induction l1 as [|x l1 IH]; [reflexivity|].
  rewrite <- app_comm_cons, !sum_list_Z_cons, IH. lia.
Qed.

Lemma sum_list_Z_replicate n x : (sum_list_Z (replicate n x) = Z.of_nat n * x)%Z.
Proof.
  induction n as [|n IH]; [reflexivity|].
  rewrite replicate_S, sum_list_Z_cons, IH. lia.
Qed.

Lemma chunks_fuel_concat {A} fuel n (l : list A) :
  0 < n -> length l <= fuel -> concat (chunks_fuel fuel n l) = l.
Proof.
  revert l. induction fuel as [|fuel IH]; intros l Hn Hl.
  - destruct l; [reflexivity | cbn in Hl; lia].
  - destruct l as [|a l]; [reflexivity|]. cbn [chunks_fuel concat].
    rewrite IH; [apply take_drop | done |].
    rewrite length_drop. cbn [length] in *. lia.
Qed.

Lemma chunks_concat {A} n (l : list A) : 0 < n -> concat (chunks n l) = l.
Proof. intros. now apply chunks_fuel_concat. Qed.

Lemma chunks_fuel_bound {A} fuel n (l : list A) c :
  c ∈ chunks_fuel fuel n l -> length c <= n.
Proof.
  revert l. induction fuel as [|fuel IH]; intros l; cbn; [set_solver|].
  destruct l as [|a l]; [set_solver|]. rewrite elem_of_cons.
  intros [->|H]; [rewrite length_take; lia | eauto].
Qed.

Lemma chunks_bound {A} n (l : list A) c : c ∈ chunks n l -> length c <= n.
Proof. apply chunks_fuel_bound. Qed.

Lemma chunks_fuel_nonempty {A} fuel n (l : list A) c :
  0 < n -> c ∈ chunks_fuel fuel n l -> 0 < length c.
Proof.
  intros Hn. revert l. induction fuel as [|fuel IH]; intros l; cbn; [set_solver|].
  destruct l as [|a l]; [set_solver|]. rewrite elem_of_cons.
  intros [->|H]; [rewrite length_take; cbn; lia | eauto].
Qed.

Lemma chunks_nonempty {A} n (l : list A) c : 0 < n -> c ∈ chunks n l -> 0 < length c.
Proof. apply chunks_fuel_nonempty. Qed.

#[export] Hint Resolve chunks_bound chunks_concat : bot.
#[export] Hint Rewrite sum_list_Z_cons sum_list_Z_app sum_list_Z_replicate : bot_rw.
