(* ===== verification/MachineInt.v ===== *)
(** * Machine integers

    Rust's [u64], [i64], [u32], [i32] and [usize] (64 bits on the target) as
    [Z], with the wrap-around written out.  Arithmetic on them either panics on
    overflow (a build with [overflow-checks], the default of [cargo build]) or
    wraps (the [--release] build of the README): [Profile] says which. *)

From Stdlib Require Import ZArith Lia.
From S2P Require Import Prelude.

Open Scope Z_scope.

(** [overflow_checks = true]: arithmetic overflow panics. *)
Class Profile := overflow_checks : bool.

Definition debug_build : Profile := true.
Definition release_build : Profile := false.

Definition u64_modulus : Z := 2 ^ 64.
Definition u64_max : Z := 2 ^ 64 - 1.
Definition i64_max : Z := 2 ^ 63 - 1.
Definition i64_min : Z := - 2 ^ 63.

Definition wrap_u64 (z : Z) : Z := z mod 2 ^ 64.
Definition wrap_u32 (z : Z) : Z := z mod 2 ^ 32.

(** Two's complement reinterpretation: [x as i64], [x as i32]. *)
Definition wrap_i64 (z : Z) : Z := (z + 2 ^ 63) mod 2 ^ 64 - 2 ^ 63.
Definition wrap_i32 (z : Z) : Z := (z + 2 ^ 31) mod 2 ^ 32 - 2 ^ 31.

Definition is_u64 (z : Z) : Prop := 0 <= z < 2 ^ 64.
Definition is_u32 (z : Z) : Prop := 0 <= z < 2 ^ 32.
Definition is_i64 (z : Z) : Prop := - 2 ^ 63 <= z < 2 ^ 63.

Definition u64b (z : Z) : bool := (0 <=? z) && (z <? 2 ^ 64).
Definition i64b (z : Z) : bool := (- 2 ^ 63 <=? z) && (z <? 2 ^ 63).

(** [z as u64] for a signed or wider [z]; sign extension then truncation. *)
Definition as_u64 (z : Z) : Z := wrap_u64 z.
Definition as_i64 (z : Z) : Z := wrap_i64 z.

Section Arith.
Context `{Profile}.

(** The result of an arithmetic operator on [u64]: [None] is a panic. *)
Definition arith_u64 (z : Z) : option Z :=
  if u64b z then Some z
  else if overflow_checks then None else Some (wrap_u64 z).

Definition arith_i64 (z : Z) : option Z :=
  if i64b z then Some z
  else if overflow_checks then None else Some (wrap_i64 z).

Definition add_u64 (a b : Z) : option Z := arith_u64 (a + b).
Definition sub_u64 (a b : Z) : option Z := arith_u64 (a - b).
Definition mul_u64 (a b : Z) : option Z := arith_u64 (a * b).
Definition sub_i64 (a b : Z) : option Z := arith_i64 (a - b).
Definition add_i64 (a b : Z) : option Z := arith_i64 (a + b).
(** [i64::abs] overflows on [i64::MIN] only. *)
Definition abs_i64 (a : Z) : option Z := arith_i64 (Z.abs a).
End Arith.

(** Division panics on a zero divisor in every build. *)
Definition div_u64 (a b : Z) : option Z := if b =? 0 then None else Some (a / b).

Definition wrapping_add (a b : Z) : Z := wrap_u64 (a + b).
Definition wrapping_sub (a b : Z) : Z := wrap_u64 (a - b).

(** ** Lemmas *)

Lemma wrap_u64_range z : is_u64 (wrap_u64 z).
Proof. unfold is_u64, wrap_u64. apply Z.mod_pos_bound. lia. Qed.

Lemma wrap_u64_id z : is_u64 z -> wrap_u64 z = z.
Proof. apply Z.mod_small. Qed.

Lemma wrap_u64_idemp z : wrap_u64 (wrap_u64 z) = wrap_u64 z.
Proof. apply wrap_u64_id, wrap_u64_range. Qed.

Lemma wrap_i64_range z : is_i64 (wrap_i64 z).
Proof.
  unfold is_i64, wrap_i64. pose proof (Z.mod_pos_bound (z + 2 ^ 63) (2 ^ 64)). lia.
Qed.

Lemma wrap_i64_id z : is_i64 z -> wrap_i64 z = z.
Proof. unfold is_i64, wrap_i64. intros. rewrite Z.mod_small; lia. Qed.

Lemma u64b_spec z : u64b z = true <-> is_u64 z.
Proof. unfold u64b, is_u64. lia. Qed.

Lemma i64b_spec z : i64b z = true <-> is_i64 z.
Proof. unfold i64b, is_i64. lia. Qed.

Lemma wrap_i64_mod z : wrap_i64 z mod 2 ^ 64 = z mod 2 ^ 64.
Proof.
  unfold wrap_i64. rewrite Zminus_mod_idemp_l. f_equal. lia.
Qed.

Lemma arith_u64_ok `{Profile} z : is_u64 z -> arith_u64 z = Some z.
Proof. intros Hz. unfold arith_u64. apply u64b_spec in Hz. now rewrite Hz. Qed.

Lemma arith_i64_ok `{Profile} z : is_i64 z -> arith_i64 z = Some z.
Proof. intros Hz. unfold arith_i64. apply i64b_spec in Hz. now rewrite Hz. Qed.

Lemma arith_u64_range `{Profile} z r : arith_u64 z = Some r -> is_u64 r.
Proof.
  unfold arith_u64. intros Hz. destr_all Hz.
  - now apply u64b_spec.
  - apply wrap_u64_range.
Qed.

(** Whatever the profile, a result agrees with the exact one modulo [2^64]. *)
Lemma arith_u64_mod `{Profile} z r : arith_u64 z = Some r -> r mod 2 ^ 64 = z mod 2 ^ 64.
Proof.
  unfold arith_u64. intros Hz. destr_all Hz; [done|].
  unfold wrap_u64. apply Z.mod_mod. lia.
Qed.

Lemma arith_i64_mod `{Profile} z r : arith_i64 z = Some r -> r mod 2 ^ 64 = z mod 2 ^ 64.
Proof.
  unfold arith_i64. intros Hz. destr_all Hz; [done|]. apply wrap_i64_mod.
Qed.

Lemma arith_u64_release z : @arith_u64 release_build z = Some (wrap_u64 z).
Proof.
  unfold arith_u64, release_build. destruct (u64b z) eqn:E; [|reflexivity].
  apply u64b_spec in E. now rewrite wrap_u64_id.
Qed.

Lemma arith_i64_release z : @arith_i64 release_build z = Some (wrap_i64 z).
Proof.
  unfold arith_i64, release_build. destruct (i64b z) eqn:E; [|reflexivity].
  apply i64b_spec in E. now rewrite wrap_i64_id.
Qed.

(** Under overflow checks a result is the exact one. *)
Lemma arith_u64_debug z r : @arith_u64 debug_build z = Some r -> r = z /\ is_u64 z.
Proof.
  unfold arith_u64, debug_build, overflow_checks. intros Hz. destr_all Hz.
  split; [done|]. now apply u64b_spec.
Qed.

(** Out of range: a panic under overflow checks, a wrap without. *)
Lemma arith_u64_overflow `{Profile} z :
  ~ is_u64 z -> overflow_checks = true -> arith_u64 z = None.
Proof.
  intros Hz Ho. unfold arith_u64. destruct (u64b z) eqn:E; [by apply u64b_spec in E|].
  destruct overflow_checks; [reflexivity | discriminate].
Qed.

Lemma arith_u64_unchecked `{Profile} z :
  overflow_checks = false -> arith_u64 z = Some (wrap_u64 z).
Proof.
  intros Ho. unfold arith_u64. destruct (u64b z) eqn:E.
  - apply u64b_spec in E. now rewrite wrap_u64_id.
  - destruct overflow_checks; [discriminate | reflexivity].
Qed.

#[export] Hint Resolve wrap_u64_range wrap_i64_range arith_u64_range : bot.
#[export] Hint Rewrite wrap_u64_idemp arith_u64_release arith_i64_release : bot_rw.
