(* ===== verification/Float64.v ===== *)
(** * IEEE 754 binary64 arithmetic, and numbers from text

    Rust's [f64] as the executable specification of the Standard Library
    ([SpecFloat], 53 bits of precision, exponent 1024): every operation is
    correctly rounded to nearest, ties to even, as Rust's is.  The casts
    between [f64] and [u64] are the saturating ones of the [as] operator and
    [f64_round] is [f64::round], half away from zero. *)

From Stdlib Require Import ZArith Lia.
From Stdlib Require Import Floats.SpecFloat.
From Stdlib Require Import Ascii Floats.SpecFloat.
From S2P Require Import Prelude MachineInt.

Abbreviation f64 := spec_float.

Definition f64_add : f64 -> f64 -> f64 := SFadd 53 1024.
Definition f64_sub : f64 -> f64 -> f64 := SFsub 53 1024.
Definition f64_mul : f64 -> f64 -> f64 := SFmul 53 1024.
Definition f64_div : f64 -> f64 -> f64 := SFdiv 53 1024.
Definition f64_neg : f64 -> f64 := SFopp.
Definition f64_lt : f64 -> f64 -> bool := SFltb.
Definition f64_gt (x y : f64) : bool := SFltb y x.
Definition f64_eq : f64 -> f64 -> bool := SFeqb.

(** [n as f64] for an integer [n]; also the literals that are integers. *)
Definition f64_of_Z (n : Z) : f64 := binary_normalize 53 1024 n 0 false.

Definition f64_zero : f64 := S754_zero false.

(** [x as u64]: NaN gives 0, out of range saturates, the rest truncates. *)
Definition f64_as_u64 (x : f64) : Z :=
  match x with
  | S754_nan | S754_zero _ => 0
  | S754_infinity s => if s then 0 else u64_max
  | S754_finite true _ _ => 0
  | S754_finite false m e => Z.min u64_max (Z.shiftl (Zpos m) e)
  end.

(** [f64::round]: to the nearest integer, half away from zero. *)
Definition f64_round (x : f64) : f64 :=
  match x with
  | S754_finite s m e =>
      if 0 <=? e then x
      else
        let r := (2 * Zpos m + 2 ^ (- e)) / 2 ^ (1 - e) in
        match r with
        | Zpos p => binary_round 53 1024 s p 0
        | _ => S754_zero s
        end
  | _ => x
  end.

Definition is_nan (x : f64) : bool :=
  match x with S754_nan => true | _ => false end.

(** ** Lemmas *)

Lemma f64_as_u64_range x : is_u64 (f64_as_u64 x).
Proof.
  unfold is_u64, f64_as_u64, u64_max. destruct x as [s|s| |s m e]; try (destruct s); try lia.
  assert (0 <= Z.shiftl (Zpos m) e) by (apply Z.shiftl_nonneg; lia). lia.
Qed.

Lemma f64_lt_nan_l x : f64_lt S754_nan x = false.
Proof. reflexivity. Qed.

Lemma f64_lt_nan_r x : f64_lt x S754_nan = false.
Proof. now destruct x. Qed.

Lemma f64_mul_nan_l x : f64_mul S754_nan x = S754_nan.
Proof. reflexivity. Qed.

Lemma f64_sub_nan_r x : f64_sub x S754_nan = S754_nan.
Proof. now destruct x. Qed.

Lemma f64_mul_nan_r x : f64_mul x S754_nan = S754_nan.
Proof. now destruct x. Qed.

Lemma f64_div_nan_l x : f64_div S754_nan x = S754_nan.
Proof. reflexivity. Qed.

#[export] Hint Resolve f64_as_u64_range : bot.
#[export] Hint Rewrite f64_lt_nan_l f64_lt_nan_r f64_mul_nan_l f64_sub_nan_r f64_mul_nan_r
  f64_div_nan_l : bot_rw.

(** * Numbers from text

    [str::parse] of the Standard Library of Rust for [i32], [i64] and [f64], as
    its documentation gives the grammars.  An [f64] is the nearest to the decimal
    number: the quotient of two integers is taken to more bits than the type has,
    with its remainder as a last sticky bit, and rounded once. *)

Definition digit (a : ascii) : option Z :=
  let n := Z.of_nat (nat_of_ascii a) in
  if (48 <=? n) && (n <=? 57) then Some (n - 48) else None.

Definition is_char (n : nat) (a : ascii) : bool := Nat.eqb (nat_of_ascii a) n.

(** ASCII letters without their case. *)
Definition lower (a : ascii) : ascii :=
  let n := nat_of_ascii a in
  if (65 <=? n)%nat && (n <=? 90)%nat then ascii_of_nat (n + 32) else a.

Fixpoint lowercase (s : string) : string :=
  match s with EmptyString => EmptyString | String a s' => String (lower a) (lowercase s') end.

(** An optional sign: whether it is a minus, and the rest. *)
Definition sign (s : string) : bool * string :=
  match s with
  | String a s' => if is_char 45 a then (true, s') else if is_char 43 a then (false, s') else (false, s)
  | EmptyString => (false, s)
  end.

(** A run of digits: its value from [acc] and how many there were, and the rest. *)
Fixpoint digits (acc : Z) (s : string) : Z * Z * string :=
  match s with
  | String a s' =>
      match digit a with
      | Some d => let '(v, n, r) := digits (10 * acc + d) s' in (v, n + 1, r)
      | None => (acc, 0, s)
      end
  | EmptyString => (acc, 0, s)
  end.

(** ** Integers *)

(** A number of the type with the range [min] to [max]: a sign, and at least one
    digit and nothing else. *)
Definition parse_int (min max : Z) (s : string) : option Z :=
  let '(neg, s1) := sign s in
  let '(v, n, r) := digits 0 s1 in
  let v := if neg : bool then - v else v in
  match r with
  | EmptyString => if (1 <=? n) && (min <=? v) && (v <=? max) then Some v else None
  | _ => None
  end.

Definition parse_i64 : string -> option Z := parse_int (- 2 ^ 63) (2 ^ 63 - 1).
Definition parse_i32 : string -> option Z := parse_int (- 2 ^ 31) (2 ^ 31 - 1).

(** ** Floating point *)

(** The [f64] nearest to [n * 10 ^ e] for a number [n] of [len] digits. *)
Definition decimal (neg : bool) (n e len : Z) : f64 :=
  let signed (x : f64) := if neg then f64_neg x else x in
  if n =? 0 then S754_zero neg
  else if 400 <? e + len then S754_infinity neg
  else if e + len <? -400 then S754_zero neg
  else if 0 <=? e then signed (binary_normalize 53 1024 (n * 10 ^ e) 0 false)
  else
    let den := 10 ^ (- e) in
    let s := Z.max 0 (70 + Z.log2 den - Z.log2 n) in
    let q := (n * 2 ^ s) / den in
    let sticky := if (n * 2 ^ s) mod den =? 0 then 0 else 1 in
    signed (binary_normalize 53 1024 (2 * q + sticky) (- s - 1) false).

(** The exponent: its value, or [None] when what is left is not one. *)
Definition exponent (s : string) : option Z :=
  match s with
  | EmptyString => Some 0
  | String a s' =>
      if is_char 69 a || is_char 101 a then
        let '(neg, s1) := sign s' in
        let '(v, n, r) := digits 0 s1 in
        match r with
        | EmptyString => if 1 <=? n then Some (if neg : bool then - v else v) else None
        | _ => None
        end
      else None
  end.

Definition parse_f64 (s : string) : option f64 :=
  let '(neg, s1) := sign s in
  let word := lowercase s1 in
  if String.eqb word "nan" then Some S754_nan
  else if String.eqb word "inf" || String.eqb word "infinity" then Some (S754_infinity neg)
  else
    let '(whole, n1, r1) := digits 0 s1 in
    let '(v, n2, r2) := match r1 with
      | String a r => if is_char 46 a then digits whole r else (whole, 0, r1)
      | EmptyString => (whole, 0, r1)
      end in
    if n1 + n2 =? 0 then None
    else e ← exponent r2; Some (decimal neg v (e - n2) (n1 + n2)).

Example parse_tenth : parse_f64 "0.1" = Some (S754_finite false 7205759403792794 (-56)).
Proof. reflexivity. Qed.
Example parse_exponent : parse_f64 "-2.5e1" = Some (f64_of_Z (-25)).
Proof. reflexivity. Qed.
Example parse_integer : parse_f64 "12" = Some (f64_of_Z 12) /\ parse_i64 "12" = Some 12 /\ parse_i64 "-7" = Some (-7).
Proof. by repeat split. Qed.
Example parse_bad : parse_f64 "." = None /\ parse_f64 "1,5" = None /\ parse_i64 "" = None /\
  parse_i64 "+" = None /\ parse_i32 "2147483648" = None /\ parse_i64 "1.5" = None.
Proof. by repeat split. Qed.

(** ** Range *)

Lemma parse_int_range min max s v : parse_int min max s = Some v -> min <= v <= max.
Proof.
  unfold parse_int. destruct (sign s) as [neg s1]. destruct (digits 0 s1) as [[w n] [|]]; [|done].
  destruct (_ && _) eqn:E; [|done]. intros [= <-]. rewrite !andb_true_iff, !Z.leb_le in E. lia.
Qed.
