(* ===== verification/Buffers.v ===== *)
(** * Bounded FIFO maps, and the heartbeat stopwatch

    [src/utils/circular_buffer.rs] and [src/utils/circular_buffer_w_rev.rs]:
    a hash map with a queue of its keys that evicts the oldest entry, and the
    variant that can also look a key up by its value.  The operational cache
    keeps the bot's actions and transaction signatures in them.

    The abstract contract of both is a queue of key/value pairs
    ([Fifo.insert]); the refinement theorems need the inserted key (and, for
    the second buffer, the value) not to be present, and the counterexamples
    at the end show what a repeated key does. *)

From Stdlib Require Import ZArith Lia.
From S2P Require Import Prelude MachineInt.
#[local] Open Scope nat_scope.

(** ** The contract: a bounded queue of pairs, oldest first *)
Module Fifo.
Section Spec.
Context {A : Type}.

Definition insert (capacity : nat) (l : list A) (x : A) : list A :=
  (if length l =? capacity then tail l else l) ++ [x].

Definition insert_all (capacity : nat) (l xs : list A) : list A :=
  fold_left (insert capacity) xs l.

Lemma insert_length capacity l x :
  0 < capacity -> length l <= capacity -> length (insert capacity l x) <= capacity.
Proof.
  unfold insert. intros Hc Hl. destruct (Nat.eqb_spec (length l) capacity);
    rewrite length_app; cbn; [|lia]. destruct l; cbn in *; lia.
Qed.

(** The queue holds the last [capacity] elements pushed. *)
Lemma insert_drop capacity l x :
  0 < capacity ->
  insert capacity (drop (length l - capacity) l) x
  = drop (length (l ++ [x]) - capacity) (l ++ [x]).
Proof.
  intros Hc. unfold insert. rewrite length_drop, length_app; cbn [length].
  destruct (Nat.eqb_spec (length l - (length l - capacity)) capacity) as [E|E].
  - rewrite drop_app_le by lia. f_equal.
    replace (length l + 1 - capacity) with (S (length l - capacity)) by lia.
    destruct (drop (length l - capacity) l) as [|a r] eqn:Hd.
    + apply (f_equal length) in Hd. rewrite length_drop in Hd. cbn in Hd. lia.
    + cbn [tail]. symmetry. rewrite <- Nat.add_1_r, <- drop_drop, Hd. reflexivity.
  - replace (length l + 1 - capacity) with 0 by lia.
    replace (length l - capacity) with 0 by lia. reflexivity.
Qed.

Lemma insert_all_drop capacity xs l :
  0 < capacity ->
  insert_all capacity (drop (length l - capacity) l) xs
  = drop (length (l ++ xs) - capacity) (l ++ xs).
Proof.
  intros Hc. revert l. induction xs as [|x xs IH]; intros l.
  - cbn. now rewrite app_nil_r.
  - cbn [insert_all fold_left]. rewrite insert_drop by done.
    fold (insert_all capacity). unfold insert_all in IH.
    rewrite IH. now rewrite <- app_assoc.
Qed.
End Spec.
End Fifo.

(** ** [CircularBuffer] *)
Module CircularBuffer.
Section Buffer.
Context {K V : Type} `{Countable K}.

Record t := mk {
  map : gmap K V;
  deque : list K;
  capacity : nat;
}.

Definition new (capacity : nat) : t := mk ∅ [] capacity.

(** If the buffer is full, the oldest key leaves the queue and the map. *)
Definition evict (b : t) : t :=
  if length b.(deque) =? b.(capacity) then
    match b.(deque) with
    | old_key :: rest => mk (delete old_key b.(map)) rest b.(capacity)
    | [] => b
    end
  else b.

Definition insert (key : K) (value : V) (b : t) : t :=
  let b := evict b in
  mk (<[key := value]> b.(map)) (b.(deque) ++ [key]) b.(capacity).

Definition contains_key (key : K) (b : t) : bool := bool_decide (is_Some (b.(map) !! key)).

Definition len (b : t) : nat := length b.(deque).

Definition is_empty (b : t) : bool :=
  match b.(deque) with [] => true | _ => false end.

Definition get_by_key (key : K) (b : t) : option V := b.(map) !! key.

Definition pop_front (b : t) : option (K * V) * t :=
  match b.(deque) with
  | [] => (None, b)
  | key :: rest =>
      match b.(map) !! key with
      | Some value => (Some (key, value), mk (delete key b.(map)) rest b.(capacity))
      | None => (None, mk (delete key b.(map)) rest b.(capacity))
      end
  end.

Definition get_all_values (b : t) : list V := omap (fun key => b.(map) !! key) b.(deque).

(** The entries in insertion order: the abstraction function. *)
Definition entries (b : t) : list (K * V) :=
  omap (fun key => pair key <$> b.(map) !! key) b.(deque).

(** The queue has the map's keys, each once, and fits the capacity. *)
Record wf (b : t) : Prop := {
  wf_capacity : 0 < b.(capacity);
  wf_nodup : NoDup b.(deque);
  wf_keys : forall k, k ∈ b.(deque) <-> is_Some (b.(map) !! k);
  wf_len : length b.(deque) <= b.(capacity);
}.

Lemma buf_new_wf n : 0 < n -> wf (new n).
Proof.
  intros Hn. split; cbn; [done | apply NoDup_nil_2 | | lia].
  intros k. rewrite lookup_empty, elem_of_nil. split; [done | intros [? [=]]].
Qed.

Lemma omap_entries_ext (m1 m2 : gmap K V) (l : list K) :
  (forall k, k ∈ l -> m1 !! k = m2 !! k) ->
  omap (fun k => pair k <$> m1 !! k) l = omap (fun k => pair k <$> m2 !! k) l.
Proof.
  intros Hm. induction l as [|a l IH]; [reflexivity|].
  cbn. rewrite (Hm a) by set_solver. rewrite IH by set_solver. reflexivity.
Qed.

Lemma buf_entries_length b : wf b -> length (entries b) = length b.(deque).
Proof.
  intros [_ _ Hk _]. unfold entries.
  assert (Hl : forall k, k ∈ deque b -> is_Some (map b !! k)) by (intros; now apply Hk).
  clear Hk. induction (deque b) as [|k l IH]; [reflexivity|].
  destruct (Hl k) as [v Hv]; [set_solver|]. cbn. rewrite Hv. cbn.
  f_equal. apply IH. set_solver.
Qed.

Lemma buf_wf_pop k rest b :
  wf b -> deque b = k :: rest -> wf (mk (delete k b.(map)) rest b.(capacity)).
Proof.
  intros [Hc Hn Hk Hl] Hd. rewrite Hd in Hn, Hk, Hl. apply list.NoDup_cons in Hn as [Hnk Hn].
  split; cbn in *; [done | done | | lia].
  intros k'. rewrite lookup_delete_is_Some. rewrite <- Hk. set_solver.
Qed.

Lemma entries_pop k rest b :
  wf b -> deque b = k :: rest ->
  exists v, map b !! k = Some v /\
    entries b = (k, v) :: entries (mk (delete k b.(map)) rest b.(capacity)).
Proof.
  intros [Hc Hn Hk Hl] Hd. rewrite Hd in Hn. apply list.NoDup_cons in Hn as [Hnk Hn].
  destruct (proj1 (Hk k)) as [v Hv]; [rewrite Hd; set_solver|].
  exists v. split; [done|]. unfold entries at 1. rewrite Hd. cbn. rewrite Hv. cbn. f_equal.
  unfold entries; cbn. apply omap_entries_ext.
  intros k' Hk'. rewrite lookup_delete_ne; [done | set_solver].
Qed.

Lemma buf_evict_wf b : wf b -> wf (evict b).
Proof.
  intros Hb. unfold evict. destruct (_ =? _); [|done].
  destruct (deque b) as [|k rest] eqn:Hd; [done|]. now apply buf_wf_pop.
Qed.

Lemma buf_evict_entries b :
  wf b -> entries (evict b)
          = (if length (entries b) =? b.(capacity) then tail (entries b) else entries b).
Proof.
  intros Hb. rewrite buf_entries_length by done. unfold evict.
  destruct (Nat.eqb_spec (length (deque b)) (capacity b)) as [E|E]; [|done].
  destruct (deque b) as [|k rest] eqn:Hd; cbn in E.
  - destruct Hb. lia.
  - destruct (entries_pop k rest b Hb Hd) as (v & _ & ->). reflexivity.
Qed.

Lemma buf_evict_capacity b : capacity (evict b) = capacity b.
Proof. unfold evict. destruct (_ =? _); [|done]. now destruct (deque b). Qed.

Lemma buf_evict_len b : wf b -> length (deque (evict b)) < capacity b.
Proof.
  intros [Hc _ _ Hl]. unfold evict.
  destruct (Nat.eqb_spec (length (deque b)) (capacity b)); [|lia].
  destruct (deque b); cbn in *; lia.
Qed.

Lemma buf_evict_fresh k b : map b !! k = None -> map (evict b) !! k = None.
Proof.
  unfold evict. destruct (_ =? _); [|done]. destruct (deque b); [done|].
  cbn. rewrite lookup_delete_None. auto.
Qed.

Lemma buf_insert_wf k v b : wf b -> map b !! k = None -> wf (insert k v b).
Proof.
  intros Hb Hf. pose proof (buf_evict_wf b Hb) as He. pose proof (buf_evict_len b Hb) as Hl.
  apply buf_evict_fresh in Hf. unfold insert. destruct He as [Hc Hn Hk _].
  rewrite buf_evict_capacity in Hc.
  split; cbn; rewrite ?buf_evict_capacity; [done | | | rewrite length_app; cbn; lia].
  - apply list.NoDup_app. split_and!; [done | | apply list.NoDup_singleton].
    intros x Hx. apply Hk in Hx. intros ->%list_elem_of_singleton.
    rewrite Hf in Hx. now destruct Hx.
  - intros x. rewrite elem_of_app, list_elem_of_singleton, lookup_insert_is_Some', Hk.
    naive_solver.
Qed.

Lemma buf_insert_entries k v b :
  wf b -> map b !! k = None ->
  entries (insert k v b) = Fifo.insert (capacity b) (entries b) (k, v).
Proof.
  intros Hb Hf. unfold Fifo.insert. rewrite <- buf_evict_entries by done.
  apply buf_evict_wf in Hb. apply buf_evict_fresh in Hf. unfold insert, entries. cbn.
  rewrite omap_app. cbn. rewrite lookup_insert_eq. cbn. f_equal.
  apply omap_entries_ext. intros k' Hk'%(wf_keys _ Hb).
  rewrite lookup_insert_ne; [done|]. intros ->. rewrite Hf in Hk'. now destruct Hk'.
Qed.

Lemma buf_insert_capacity k v b : capacity (insert k v b) = capacity b.
Proof. unfold insert. cbn. apply buf_evict_capacity. Qed.

(** What is looked up is what the queue of entries holds. *)
Lemma buf_get_by_key_entries k v b : wf b -> get_by_key k b = Some v <-> (k, v) ∈ entries b.
Proof.
  intros Hb. unfold get_by_key, entries. rewrite list_elem_of_omap. split.
  - intros Hk. exists k. split; [apply (wf_keys _ Hb); eauto | now rewrite Hk].
  - intros (k' & _ & E). destruct (map b !! k') eqn:E'; cbn in E; congruence.
Qed.

Lemma get_all_values_entries b : get_all_values b = (entries b).*2.
Proof.
  unfold get_all_values, entries. induction (deque b) as [|k l IH]; [reflexivity|].
  cbn. destruct (map b !! k); cbn; now rewrite IH.
Qed.

Definition insert_all (l : list (K * V)) (b : t) : t :=
  fold_left (fun b kv => insert kv.1 kv.2 b) l b.

Lemma buf_insert_all_refines l b :
  wf b -> NoDup l.*1 -> (forall k, k ∈ l.*1 -> map b !! k = None) ->
  wf (insert_all l b) /\
  entries (insert_all l b) = Fifo.insert_all (capacity b) (entries b) l.
Proof.
  revert b. induction l as [|[k v] l IH]; intros b Hb Hn Hf; [done|].
  rewrite fmap_cons in Hn, Hf. apply list.NoDup_cons in Hn as [Hk Hn].
  assert (Hkf : map b !! k = None) by (apply Hf; set_solver).
  unfold insert_all, Fifo.insert_all. cbn [fold_left fst snd].
  rewrite <- buf_insert_entries by done. rewrite <- (buf_insert_capacity k v).
  apply IH; [now apply buf_insert_wf | done |].
  intros k' Hk'. unfold insert. cbn. rewrite lookup_insert_ne by (intros ->; done).
  apply buf_evict_fresh, Hf. set_solver.
Qed.
End Buffer.
Arguments t K V {_ _}.
End CircularBuffer.

(** ** [CircularBufferWithLookupByValue] *)
Module CircularBufferWithLookupByValue.
Section Buffer.
Context {K V : Type} `{Countable K} `{Countable V}.

Record t := mk {
  map : gmap K V;
  reverse_map : gmap V K;
  deque : list K;
  reverse_deque : list V;
  capacity : nat;
}.

Definition new (capacity : nat) : t := mk ∅ ∅ [] [] capacity.

Definition evict (b : t) : t :=
  if length b.(deque) =? b.(capacity) then
    match b.(deque) with
    | old_key :: rest =>
        match b.(map) !! old_key with
        | Some old_value =>
            mk (delete old_key b.(map)) (delete old_value b.(reverse_map)) rest
              (tail b.(reverse_deque)) b.(capacity)
        | None =>
            mk (delete old_key b.(map)) b.(reverse_map) rest b.(reverse_deque) b.(capacity)
        end
    | [] => b
    end
  else b.

Definition insert (key : K) (value : V) (b : t) : t :=
  let b := evict b in
  mk (<[key := value]> b.(map)) (<[value := key]> b.(reverse_map))
    (b.(deque) ++ [key]) (b.(reverse_deque) ++ [value]) b.(capacity).

Definition contains_key (key : K) (b : t) : bool := bool_decide (is_Some (b.(map) !! key)).

Definition contains_value (value : V) (b : t) : bool :=
  bool_decide (is_Some (b.(reverse_map) !! value)).

Definition len (b : t) : nat := length b.(deque).

Definition is_empty (b : t) : bool :=
  match b.(deque) with [] => true | _ => false end.

Definition get_by_key (key : K) (b : t) : option V := b.(map) !! key.

Definition get_by_value (value : V) (b : t) : option K := b.(reverse_map) !! value.

Definition pop_front (b : t) : option (K * V) * t :=
  match b.(deque) with
  | [] => (None, b)
  | key :: rest =>
      match b.(map) !! key with
      | Some value =>
          (Some (key, value),
            mk (delete key b.(map)) (delete value b.(reverse_map)) rest
              (tail b.(reverse_deque)) b.(capacity))
      | None =>
          (None, mk (delete key b.(map)) b.(reverse_map) rest b.(reverse_deque) b.(capacity))
      end
  end.

(** The key leaves both maps; the front of the queue of values is dropped,
    whichever value it is, and the key stays in the queue of keys. *)
Definition remove (key : K) (b : t) : option V * t :=
  match b.(map) !! key with
  | Some value =>
      (Some value,
        mk (delete key b.(map)) (delete value b.(reverse_map)) b.(deque)
          (tail b.(reverse_deque)) b.(capacity))
  | None => (None, b)
  end.

Definition get_all_values (b : t) : list V := b.(reverse_deque).

(** The entries, oldest first. *)
Definition entries (b : t) : list (K * V) := zip b.(deque) b.(reverse_deque).

(** Both queues run in step, the map is the set of their pairs and the
    reverse map is its inverse. *)
Record wf (b : t) : Prop := {
  wf_capacity : 0 < b.(capacity);
  wf_nodup : NoDup b.(deque);
  wf_values : Forall2 (fun k v => b.(map) !! k = Some v) b.(deque) b.(reverse_deque);
  wf_keys : forall k, is_Some (b.(map) !! k) -> k ∈ b.(deque);
  wf_inverse : forall k v, b.(map) !! k = Some v <-> b.(reverse_map) !! v = Some k;
  wf_len : length b.(deque) <= b.(capacity);
}.

Lemma rev_new_wf n : 0 < n -> wf (new n).
Proof.
  intros Hn. split; cbn; [done | apply NoDup_nil_2 | constructor | | | lia].
  - intros k. rewrite lookup_empty. now intros [? [=]].
  - intros k v. now rewrite !lookup_empty.
Qed.

Lemma wf_fresh_value b v k :
  wf b -> reverse_map b !! v = None -> map b !! k <> Some v.
Proof. intros Hb Hv Hk%(wf_inverse _ Hb). congruence. Qed.

Lemma values_delete (m : gmap K V) k ks vs :
  k ∉ ks -> Forall2 (fun k v => m !! k = Some v) ks vs ->
  Forall2 (fun k' v => delete k m !! k' = Some v) ks vs.
Proof.
  intros Hk Hf. induction Hf as [|k' v' ks vs Hkv Hf IH]; [constructor|].
  constructor; [rewrite lookup_delete_ne; [done|] | apply IH]; set_solver.
Qed.

Lemma rev_wf_pop k rest b :
  wf b -> deque b = k :: rest ->
  exists v vs, map b !! k = Some v /\ reverse_deque b = v :: vs /\
    wf (mk (delete k b.(map)) (delete v b.(reverse_map)) rest vs b.(capacity)).
Proof.
  intros [Hc Hn Hv Hk Hi Hl] Hd. rewrite Hd in Hn, Hv, Hk, Hl.
  apply list.NoDup_cons in Hn as [Hnk Hn].
  inversion Hv as [|? v ? vs Hkv Hvs Hks Hrev]; subst.
  exists v, vs. split_and!; [done | done |].
  split; cbn in *; [done | done | | | | lia].
  - now apply values_delete.
  - intros k' [Hne Hs]%lookup_delete_is_Some. apply Hk in Hs. set_solver.
  - intros k' v'. rewrite !lookup_delete_Some, Hi. split; intros [Hne E]; split; try done.
    + intros ->. apply Hi in E. apply Hi in Hkv. apply Hi in E. congruence.
    + intros ->. apply Hi in E. congruence.
Qed.

Lemma rev_evict_wf b : wf b -> wf (evict b).
Proof.
  intros Hb. unfold evict. destruct (_ =? _); [|done].
  destruct (deque b) as [|k rest] eqn:Hd; [done|].
  destruct (rev_wf_pop k rest b Hb Hd) as (v & vs & Hkv & Hr & Hw).
  now rewrite Hkv, Hr.
Qed.

Lemma rev_entries_length b : wf b -> length (entries b) = length (deque b).
Proof.
  intros Hb. unfold entries. rewrite length_zip.
  pose proof (Forall2_length _ _ _ (wf_values _ Hb)). lia.
Qed.

Lemma rev_evict_entries b :
  wf b -> entries (evict b)
          = (if length (entries b) =? b.(capacity) then tail (entries b) else entries b).
Proof.
  intros Hb. rewrite rev_entries_length by done. unfold evict.
  destruct (Nat.eqb_spec (length (deque b)) (capacity b)) as [E|E]; [|done].
  destruct (deque b) as [|k rest] eqn:Hd; cbn in E.
  - destruct Hb. lia.
  - destruct (rev_wf_pop k rest b Hb Hd) as (v & vs & Hkv & Hr & _).
    unfold entries. rewrite Hkv, Hr, Hd. reflexivity.
Qed.

Lemma rev_evict_capacity b : capacity (evict b) = capacity b.
Proof.
  unfold evict. destruct (_ =? _); [|done]. destruct (deque b); [done|].
  now destruct (map b !! _).
Qed.

Lemma rev_evict_len b : wf b -> length (deque (evict b)) < capacity b.
Proof.
  intros [Hc _ _ _ _ Hl]. unfold evict.
  destruct (Nat.eqb_spec (length (deque b)) (capacity b)); [|lia].
  destruct (deque b) as [|k r]; cbn in *; [lia|]. destruct (map b !! k); cbn; lia.
Qed.

Lemma rev_evict_fresh k v b :
  map b !! k = None -> reverse_map b !! v = None ->
  map (evict b) !! k = None /\ reverse_map (evict b) !! v = None.
Proof.
  unfold evict. intros Hk Hv. destruct (_ =? _); [|done].
  destruct (deque b) as [|k' ?]; [done|].
  destruct (map b !! k'); cbn; rewrite !lookup_delete_None; auto.
Qed.

Lemma rev_insert_wf k v b :
  wf b -> map b !! k = None -> reverse_map b !! v = None -> wf (insert k v b).
Proof.
  intros Hb Hk Hv. pose proof (rev_evict_len b Hb) as Hlen.
  destruct (rev_evict_fresh k v b Hk Hv) as [Hfk Hfv].
  pose proof (rev_evict_capacity b) as Hcap.
  apply rev_evict_wf in Hb. unfold insert. destruct Hb as [Hc Hn Hvs Hks Hi _].
  assert (Hkd : k ∉ deque (evict b)).
  { intros Hin. apply list_elem_of_lookup in Hin as [i Hki].
    destruct (Forall2_lookup_l _ _ _ _ _ Hvs Hki) as (v' & _ & E). congruence. }
  split; cbn; rewrite ?Hcap in *; [done | | | | | rewrite length_app; cbn; lia].
  - apply list.NoDup_app. split_and!; [done | set_solver | apply list.NoDup_singleton].
  - apply Forall2_app; [|constructor; [apply lookup_insert_eq | constructor]].
    clear -Hvs Hkd. induction Hvs as [|k' v' ks vs E Hvs IH]; constructor.
    + rewrite lookup_insert_ne; [done | set_solver].
    + apply IH. set_solver.
  - intros k' Hs. apply lookup_insert_is_Some' in Hs as [->|Hs]; [set_solver|].
    apply Hks in Hs. set_solver.
  - intros k' v'. rewrite !lookup_insert_Some, Hi.
    assert (k = k' -> reverse_map (evict b) !! v' <> Some k') by
      (intros -> E; apply Hi in E; congruence).
    assert (v = v' -> reverse_map (evict b) !! v' <> Some k') by (intros ->; congruence).
    naive_solver.
Qed.

Lemma rev_insert_entries k v b :
  wf b -> entries (insert k v b) = Fifo.insert (capacity b) (entries b) (k, v).
Proof.
  intros Hb. unfold Fifo.insert. rewrite <- rev_evict_entries by done.
  apply rev_evict_wf in Hb. pose proof (Forall2_length _ _ _ (wf_values _ Hb)).
  unfold insert, entries. cbn. rewrite zip_with_app by done. reflexivity.
Qed.

Lemma rev_insert_capacity k v b : capacity (insert k v b) = capacity b.
Proof. unfold insert. cbn. apply rev_evict_capacity. Qed.

Lemma rev_get_by_key_entries k v b : wf b -> get_by_key k b = Some v <-> (k, v) ∈ entries b.
Proof.
  intros Hb. unfold get_by_key, entries. rewrite list_elem_of_lookup. split.
  - intros Hk. assert (k ∈ deque b) as [i Hi]%list_elem_of_lookup
      by (apply (wf_keys _ Hb); eauto).
    destruct (Forall2_lookup_l _ _ _ _ _ (wf_values _ Hb) Hi) as (v' & Hv' & E).
    exists i. rewrite lookup_zip_with, Hi, Hv'. cbn. congruence.
  - intros [i Hi]. rewrite lookup_zip_with_Some in Hi.
    destruct Hi as (k' & v' & [= -> ->] & Hk' & Hv').
    now apply (Forall2_lookup_lr _ _ _ _ _ _ (wf_values _ Hb) Hk').
Qed.

Lemma get_by_value_entries k v b : wf b -> get_by_value v b = Some k <-> (k, v) ∈ entries b.
Proof.
  intros Hb. rewrite <- rev_get_by_key_entries by done. symmetry. apply (wf_inverse _ Hb).
Qed.

Definition insert_all (l : list (K * V)) (b : t) : t :=
  fold_left (fun b kv => insert kv.1 kv.2 b) l b.

Lemma rev_insert_all_refines l b :
  wf b -> NoDup l.*1 -> NoDup l.*2 ->
  (forall k, k ∈ l.*1 -> map b !! k = None) ->
  (forall v, v ∈ l.*2 -> reverse_map b !! v = None) ->
  wf (insert_all l b) /\
  entries (insert_all l b) = Fifo.insert_all (capacity b) (entries b) l.
Proof.
  revert b. induction l as [|[k v] l IH]; intros b Hb Hnk Hnv Hfk Hfv; [done|].
  cbn in Hnk, Hnv, Hfk, Hfv.
  apply list.NoDup_cons in Hnk as [Hk Hnk]. apply list.NoDup_cons in Hnv as [Hv Hnv].
  assert (Hk0 : map b !! k = None) by (apply Hfk; set_solver).
  assert (Hv0 : reverse_map b !! v = None) by (apply Hfv; set_solver).
  unfold Fifo.insert_all. cbn [fold_left fst snd].
  rewrite <- rev_insert_entries by done. rewrite <- (rev_insert_capacity k v).
  apply IH; [now apply rev_insert_wf | done | done | |]; unfold insert; cbn.
  - intros k' Hk'. rewrite lookup_insert_ne by (intros ->; done).
    apply (rev_evict_fresh k' v b); [apply Hfk; set_solver | done].
  - intros v' Hv'. rewrite lookup_insert_ne by (intros ->; done).
    apply (rev_evict_fresh k v' b); [done | apply Hfv; set_solver].
Qed.
End Buffer.
Arguments t K V {_ _ _ _}.
End CircularBufferWithLookupByValue.

#[export] Hint Resolve CircularBuffer.buf_new_wf CircularBuffer.buf_insert_wf
  CircularBufferWithLookupByValue.rev_new_wf CircularBufferWithLookupByValue.rev_insert_wf : bot.

(** ** Properties of the buffers *)
Section BufferProperties.
Context {K V : Type} `{Countable K} `{Countable V}.

(** Filling a fresh [CircularBuffer] of positive capacity with pairs whose
    keys are distinct keeps exactly the most recent [capacity] of them, in
    insertion order: lookups, the value listing and the length all agree with
    that suffix, and the map never holds a key the queue lost. *)
Theorem circular_buffer_keeps_recent (capacity : nat) (l : list (K * V)) :
  0 < capacity -> NoDup l.*1 ->
  let b := CircularBuffer.insert_all l (CircularBuffer.new capacity) in
  let recent := drop (length l - capacity) l in
  CircularBuffer.wf b /\
  CircularBuffer.entries b = recent /\
  CircularBuffer.get_all_values b = recent.*2 /\
  CircularBuffer.len b = length recent /\
  (forall k v, CircularBuffer.get_by_key k b = Some v <-> (k, v) ∈ recent).
Proof.
  intros Hc Hn b recent.
  destruct (CircularBuffer.buf_insert_all_refines l (CircularBuffer.new capacity))
    as [Hw He]; [now apply CircularBuffer.buf_new_wf | done | done |].
  fold b in Hw, He. cbn in He.
  pose proof (Fifo.insert_all_drop capacity l [] Hc) as Hd. cbn in Hd. rewrite drop_nil in Hd.
  rewrite Hd in He. fold recent in He.
  split_and!; [done | done | | |].
  - now rewrite CircularBuffer.get_all_values_entries, He.
  - now rewrite <- He, CircularBuffer.buf_entries_length.
  - intros k v. now rewrite CircularBuffer.buf_get_by_key_entries, He.
Qed.

(** The buffer with lookup by value, filled with pairs of distinct keys
    and distinct values, holds the most recent [capacity] pairs and answers
    both lookups from them: key to value and value to key are inverse of each
    other on the live entries. *)
Theorem reverse_buffer_keeps_recent (capacity : nat) (l : list (K * V)) :
  0 < capacity -> NoDup l.*1 -> NoDup l.*2 ->
  let b := CircularBufferWithLookupByValue.insert_all l
             (CircularBufferWithLookupByValue.new capacity) in
  let recent := drop (length l - capacity) l in
  CircularBufferWithLookupByValue.wf b /\
  CircularBufferWithLookupByValue.entries b = recent /\
  (forall k v, CircularBufferWithLookupByValue.get_by_key k b = Some v <-> (k, v) ∈ recent) /\
  (forall k v, CircularBufferWithLookupByValue.get_by_value v b = Some k <-> (k, v) ∈ recent).
Proof.
  intros Hc Hnk Hnv b recent.
  destruct (CircularBufferWithLookupByValue.rev_insert_all_refines l
    (CircularBufferWithLookupByValue.new capacity)) as [Hw He];
    [now apply CircularBufferWithLookupByValue.rev_new_wf | done.. |].
  fold b in Hw, He. cbn in He.
  pose proof (Fifo.insert_all_drop capacity l [] Hc) as Hd. cbn in Hd. rewrite drop_nil in Hd.
  rewrite Hd in He. fold recent in He. rewrite <- He.
  split_and!; auto using CircularBufferWithLookupByValue.rev_get_by_key_entries,
    CircularBufferWithLookupByValue.get_by_value_entries.
Qed.

(** A repeated key corrupts the buffer: in a full buffer, inserting the
    second-oldest key again and then any other new key makes the lookup of
    the first, inserted one operation ago, fail, because the eviction of its
    old queue position deletes the live map entry. *)
Theorem duplicate_insert_loses_live_entry (b : CircularBuffer.t K V) k1 k2 rest x v v' :
  CircularBuffer.wf b ->
  CircularBuffer.len b = CircularBuffer.capacity b ->
  CircularBuffer.deque b = k1 :: k2 :: rest ->
  x <> k2 ->
  CircularBuffer.get_by_key k2 (CircularBuffer.insert x v' (CircularBuffer.insert k2 v b)) = None
  /\ k2 ∈ CircularBuffer.deque (CircularBuffer.insert x v' (CircularBuffer.insert k2 v b)).
Proof.
  intros _ Hlen Hd Hx. unfold CircularBuffer.len in Hlen.
  assert (E1 : CircularBuffer.evict b
    = CircularBuffer.mk (delete k1 (CircularBuffer.map b)) (k2 :: rest) (CircularBuffer.capacity b)).
  { unfold CircularBuffer.evict. now rewrite Hlen, Nat.eqb_refl, Hd. }
  set (b2 := CircularBuffer.insert k2 v b).
  assert (E2 : CircularBuffer.evict b2
    = CircularBuffer.mk (delete k2 (<[k2 := v]> (delete k1 (CircularBuffer.map b))))
        (rest ++ [k2]) (CircularBuffer.capacity b)).
  { unfold CircularBuffer.evict, b2, CircularBuffer.insert. rewrite E1.
    cbn [CircularBuffer.deque CircularBuffer.capacity CircularBuffer.map app].
    rewrite Hd in Hlen. cbn [length] in Hlen |- *. rewrite length_app. cbn [length].
    replace (S (length rest + 1) =? CircularBuffer.capacity b) with true
      by (symmetry; apply Nat.eqb_eq; lia). reflexivity. }
  unfold CircularBuffer.insert. rewrite E2. split.
  - unfold CircularBuffer.get_by_key. cbn. rewrite lookup_insert_ne by done.
    apply lookup_delete_eq.
  - cbn. rewrite !elem_of_app, list_elem_of_singleton. auto.
Qed.

(** [remove] takes the wrong value out of the listing: the key stops being
    found, but its queue position stays, and it is the oldest value of the
    buffer that leaves the listing, whichever key was removed. *)
Theorem remove_drops_oldest_value (b : CircularBufferWithLookupByValue.t K V) k v :
  CircularBufferWithLookupByValue.wf b ->
  CircularBufferWithLookupByValue.get_by_key k b = Some v ->
  let '(r, b') := CircularBufferWithLookupByValue.remove k b in
  r = Some v /\
  CircularBufferWithLookupByValue.get_by_key k b' = None /\
  CircularBufferWithLookupByValue.get_by_value v b' = None /\
  CircularBufferWithLookupByValue.len b' = CircularBufferWithLookupByValue.len b /\
  CircularBufferWithLookupByValue.get_all_values b'
    = tail (CircularBufferWithLookupByValue.get_all_values b) /\
  ~ CircularBufferWithLookupByValue.wf b'.
Proof.
  intros Hb Hk. unfold CircularBufferWithLookupByValue.remove.
  unfold CircularBufferWithLookupByValue.get_by_key in Hk. rewrite Hk.
  split_and!; [done | | | done | done |].
  - apply lookup_delete_eq.
  - apply lookup_delete_eq.
  - intros [_ _ Hv _ _ _]. cbn in Hv.
    pose proof (Forall2_length _ _ _ Hv) as L1.
    pose proof (Forall2_length _ _ _ (CircularBufferWithLookupByValue.wf_values _ Hb)) as L2.
    assert (k ∈ CircularBufferWithLookupByValue.deque b) as Hin
      by (apply (CircularBufferWithLookupByValue.wf_keys _ Hb); eauto).
    destruct (CircularBufferWithLookupByValue.deque b) as [|k' ks]; [by apply elem_of_nil in Hin|].
    destruct (CircularBufferWithLookupByValue.reverse_deque b); cbn in *; lia.
Qed.
End BufferProperties.

Lemma circular_buffer_keeps_recent_witness :
  CircularBuffer.get_by_key 3%Z
    (CircularBuffer.insert_all [(1, 10); (2, 20); (3, 30)]%Z (CircularBuffer.new 2)) = Some 30%Z.
Proof.
  apply (circular_buffer_keeps_recent 2 [(1, 10); (2, 20); (3, 30)]%Z).
  - lia.
  - vm_compute. repeat constructor; set_solver.
  - vm_compute. constructor 2. constructor 1.
Defined.

Lemma reverse_buffer_keeps_recent_witness :
  CircularBufferWithLookupByValue.get_by_value 30%Z
    (CircularBufferWithLookupByValue.insert_all [(1, 10); (2, 20); (3, 30)]%Z
      (CircularBufferWithLookupByValue.new 2)) = Some 3%Z.
Proof.
  apply (reverse_buffer_keeps_recent 2 [(1, 10); (2, 20); (3, 30)]%Z).
  - lia.
  - vm_compute. repeat constructor; set_solver.
  - vm_compute. repeat constructor; set_solver.
  - vm_compute. constructor 2. constructor 1.
Defined.

Definition full_buffer_example : CircularBuffer.t Z Z :=
  CircularBuffer.insert_all [(1, 10); (2, 20)]%Z (CircularBuffer.new 2).

Lemma full_buffer_example_wf : CircularBuffer.wf full_buffer_example.
Proof. repeat apply CircularBuffer.buf_insert_wf; try reflexivity. apply CircularBuffer.buf_new_wf. lia. Qed.

Lemma duplicate_insert_loses_live_entry_witness :
  CircularBuffer.get_by_key 2%Z
    (CircularBuffer.insert 3%Z 30%Z (CircularBuffer.insert 2%Z 21%Z full_buffer_example)) = None.
Proof.
  apply (duplicate_insert_loses_live_entry full_buffer_example 1%Z 2%Z []).
  - apply full_buffer_example_wf.
  - reflexivity.
  - reflexivity.
  - lia.
Defined.

Definition full_reverse_buffer_example : CircularBufferWithLookupByValue.t Z Z :=
  CircularBufferWithLookupByValue.insert_all [(1, 10); (2, 20)]%Z
    (CircularBufferWithLookupByValue.new 2).

Lemma full_reverse_buffer_example_wf :
  CircularBufferWithLookupByValue.wf full_reverse_buffer_example.
Proof.
  repeat apply CircularBufferWithLookupByValue.rev_insert_wf; try reflexivity.
  apply CircularBufferWithLookupByValue.rev_new_wf. lia.
Qed.

Lemma remove_drops_oldest_value_witness :
  CircularBufferWithLookupByValue.get_all_values
    (CircularBufferWithLookupByValue.remove 2%Z full_reverse_buffer_example).2 = [20%Z].
Proof.
  apply (remove_drops_oldest_value full_reverse_buffer_example 2%Z 20%Z).
  - apply full_reverse_buffer_example_wf.
  - reflexivity.
Defined.

(** * Heartbeat stopwatch

    [src/utils/stopwatch.rs].  An instant is the number of milliseconds of
    tokio's monotonic clock; every operation that reads the clock takes [now]. *)

#[local] Open Scope Z_scope.

Module Stopwatch.
Record t := mk {
  lap_ticks : Z;
  start_at : Z;
}.

Definition new (now lap_ticks : Z) : t := mk lap_ticks now.

Definition start (now lap_ticks : Z) (s : t) : t := mk lap_ticks now.

Definition turn_off (s : t) : t := mk 0 s.(start_at).

(** [Instant::elapsed] saturates at zero. *)
Definition elapsed (now : Z) (s : t) : Z := Z.max 0 (now - s.(start_at)).

(** The division panics on a zero tick size. *)
Definition ticks_elapsed (now tick_size_ms : Z) (s : t) : option Z :=
  div_u64 (as_u64 (elapsed now s)) tick_size_ms.

(** [&&] does not evaluate the division when the stopwatch is off. *)
Definition is_time_elapsed (now tick_size_ms : Z) (s : t) : option bool :=
  if 0 <? s.(lap_ticks) then
    (fun ticks => s.(lap_ticks) <=? ticks) <$> ticks_elapsed now tick_size_ms s
  else Some false.

Definition ticks_left `{Profile} (now tick_size_ms : Z) (s : t) : option Z :=
  ticks_elapsed now tick_size_ms s ≫= fun ticks =>
  sub_i64 (as_i64 s.(lap_ticks)) (as_i64 ticks).

(** A running stopwatch fires exactly when [lap_ticks] whole ticks have passed
    since it was started; a stopwatch turned off never fires. *)
Lemma is_time_elapsed_started now0 now lap tick s :
  0 < lap -> 0 < tick -> now0 <= now -> now - now0 < 2 ^ 64 ->
  is_time_elapsed now tick (start now0 lap s) = Some (lap * tick <=? now - now0).
Proof.
  intros Hl Ht Hn Hr. unfold is_time_elapsed, ticks_elapsed, elapsed, div_u64, as_u64. cbn.
  replace (0 <? lap) with true by lia. replace (tick =? 0) with false by lia.
  rewrite Z.max_r by lia. unfold wrap_u64. rewrite Z.mod_small by lia. cbn. f_equal.
  destruct (Z.leb_spec (lap * tick) (now - now0)) as [E|E].
  - apply Z.leb_le. apply Z.div_le_lower_bound; lia.
  - apply Z.leb_gt. apply Z.div_lt_upper_bound; lia.
Qed.

Lemma is_time_elapsed_off now tick s : is_time_elapsed now tick (turn_off s) = Some false.
Proof. reflexivity. Qed.
End Stopwatch.

#[export] Hint Rewrite Stopwatch.is_time_elapsed_off : bot_rw.

(** The retry timer: started with [lap] ticks at [now0], it fires at a
    heartbeat of size [tick] exactly when [lap * tick] milliseconds have passed,
    stays on until it is turned off, and never fires once turned off. *)
Theorem stopwatch_fires_on_time (now0 now lap tick : Z) (s : Stopwatch.t) :
  0 < lap -> 0 < tick -> now0 <= now -> now - now0 < 2 ^ 64 ->
  Stopwatch.is_time_elapsed now tick (Stopwatch.start now0 lap s)
    = Some (lap * tick <=? now - now0) /\
  Stopwatch.is_time_elapsed now tick (Stopwatch.turn_off (Stopwatch.start now0 lap s))
    = Some false /\
  Stopwatch.is_time_elapsed now 0 (Stopwatch.start now0 lap s) = None.
Proof.
  intros. split_and!; [now apply Stopwatch.is_time_elapsed_started | reflexivity |].
  unfold Stopwatch.is_time_elapsed. cbn. now replace (0 <? lap) with true by lia.
Qed.

Lemma stopwatch_fires_on_time_witness :
  Stopwatch.is_time_elapsed 80000 400 (Stopwatch.start 0 200 (Stopwatch.new 0 200)) = Some true.
Proof.
  destruct (stopwatch_fires_on_time 0 80000 200 400 (Stopwatch.new 0 200)) as [H _]; try lia.
  exact H.
Defined.
