(* ===== verification/FeeMetrics.v ===== *)
(** * Fee metrics

    [src/utils/fee_metrics.rs] (and its verbatim copies
    [src/utils/rolling_average.rs], [src/utils/percentile.rs]): a rolling
    average kept in a ring, and a bounded ordered set queried for a percentile.
    A [BTreeSet<u64>] is its ascending list of elements. *)

From Stdlib Require Import ZArith Lia Sorted.
From S2P Require Import Prelude MachineInt Float64.

Module RollingAverage.
Record t := mk {
  buffer : list Z;
  size : nat;
  index : nat;
  sum : Z;
}.

Definition new (size : nat) : t := mk (replicate size 0) size 0 0.

(** Indexing an empty buffer and the remainder by a zero size panic. *)
Definition add (value : Z) (r : t) : option t :=
  old ← r.(buffer) !! r.(index);
  let sum := wrapping_sub r.(sum) old in
  let buffer := <[r.(index) := value]> r.(buffer) in
  let sum := wrapping_add sum value in
  match r.(size) with
  | O => None
  | S _ => Some (mk buffer r.(size) ((r.(index) + 1) mod r.(size))%nat sum)
  end.

Definition get_average (r : t) : option Z := div_u64 r.(sum) (Z.of_nat r.(size)).

(** The values of the ring, oldest first. *)
Definition window (r : t) : list Z := drop r.(index) r.(buffer) ++ take r.(index) r.(buffer).

Record wf (r : t) : Prop := {
  wf_length : length r.(buffer) = r.(size);
  wf_index : (r.(index) < r.(size))%nat;
  wf_sum : r.(sum) = wrap_u64 (sum_list_Z r.(buffer));
}.

Lemma rolling_new_wf n : (0 < n)%nat -> wf (new n).
Proof.
  intros Hn. split; cbn; [apply length_replicate | done |].
  rewrite sum_list_Z_replicate. now rewrite Z.mul_0_r.
Qed.

Lemma sum_insert (l : list Z) i x old :
  l !! i = Some old -> sum_list_Z (<[i := x]> l) = sum_list_Z l - old + x.
Proof.
  revert i. induction l as [|a l IH]; intros [|i] Hi; try done; cbn in Hi; simplify_eq.
  - cbn. rewrite !sum_list_Z_cons. lia.
  - cbn. rewrite !sum_list_Z_cons, IH by done. lia.
Qed.

Lemma window_sum r : sum_list_Z (window r) = sum_list_Z r.(buffer).
Proof.
  unfold window. rewrite sum_list_Z_app, Z.add_comm, <- sum_list_Z_app. now rewrite take_drop.
Qed.

Lemma window_insert (l : list Z) i x :
  (i < length l)%nat ->
  let j := ((i + 1) mod length l)%nat in
  drop j (<[i := x]> l) ++ take j (<[i := x]> l)
  = tail (drop i l ++ take i l) ++ [x].
Proof.
  intros Hi j. destruct (lookup_lt_is_Some_2 l i Hi) as [y Hy].
  rewrite (drop_S l y i Hy). cbn [tail app].
  assert (Htake : take (S i) (<[i := x]> l) = take i l ++ [x]).
  { rewrite (take_S_r _ i x) by now apply list_lookup_insert_eq.
    now rewrite take_insert_ge by lia. }
  assert (Hdrop : drop (S i) (<[i := x]> l) = drop (S i) l) by (apply drop_insert_lt; lia).
  destruct (decide (S i = length l)) as [E|E].
  - assert (j = 0)%nat as -> by (unfold j; rewrite <- E, Nat.add_1_r; apply Nat.Div0.mod_same).
    rewrite drop_0, take_0, app_nil_r. rewrite drop_ge by lia. cbn. rewrite <- Htake.
    rewrite take_ge; [done|]. rewrite length_insert. lia.
  - assert (j = S i)%nat as -> by (unfold j; rewrite Nat.mod_small; lia).
    rewrite Hdrop, Htake. now rewrite app_assoc.
Qed.

(** One insertion slides the window; the running sum stays the sum of the
    ring modulo [2^64]. *)
Lemma add_window v r :
  wf r -> exists r', add v r = Some r' /\ wf r' /\ r'.(size) = r.(size) /\
                     window r' = tail (window r) ++ [v].
Proof.
  intros [Hl Hi Hs]. unfold add. rewrite <- Hl in Hi.
  destruct (lookup_lt_is_Some_2 _ _ Hi) as [old Ho]. rewrite Ho. cbn.
  destruct (size r) as [|n] eqn:En; [lia|].
  eexists; split_and!; [reflexivity | | done |].
  - split; cbn [buffer size index sum].
    + now rewrite length_insert.
    + apply Nat.mod_upper_bound. lia.
    + rewrite (sum_insert _ _ _ old) by done. rewrite Hs.
      unfold wrapping_add, wrapping_sub, wrap_u64.
      rewrite Zminus_mod_idemp_l, Zplus_mod_idemp_l. reflexivity.
  - unfold window. cbn [buffer index]. rewrite <- Hl. now apply window_insert.
Qed.

Definition add_all (l : list Z) (r : t) : option t :=
  fold_left (fun o v => o ≫= add v) l (Some r).

Lemma add_all_window l r :
  wf r -> exists r', add_all l r = Some r' /\ wf r' /\ r'.(size) = r.(size) /\
                     window r' = drop (length l) (window r ++ l).
Proof.
  revert r. induction l as [|v l IH]; intros r Hr.
  - exists r. cbn. now rewrite app_nil_r.
  - destruct (add_window v r Hr) as (r1 & E1 & H1 & S1 & W1).
    destruct (IH r1 H1) as (r2 & E2 & H2 & S2 & W2).
    exists r2. unfold add_all in *. cbn [fold_left]. cbn [mbind option_bind]. rewrite E1, E2.
    split_and!; [done | done | congruence |].
    rewrite W2, W1. cbn [length].
    assert (window r <> []) as Hne.
    { destruct Hr as [Hl Hi _]. intros E%(f_equal length). unfold window in E.
      rewrite length_app, length_drop, length_take in E. cbn in E. lia. }
    destruct (window r) as [|a w]; [done|]. cbn. now rewrite <- app_assoc.
Qed.
End RollingAverage.

Module Percentile.
Record t := mk {
  data : list Z;
  capacity : nat;
}.

Definition new (capacity : nat) : t := mk [] capacity.

(** [BTreeSet::insert] on the ascending list. *)
Fixpoint btree_insert (value : Z) (l : list Z) : list Z :=
  match l with
  | [] => [value]
  | x :: l' =>
      if value <? x then value :: l
      else if value =? x then l
      else x :: btree_insert value l'
  end.

(** When full, the smallest element is removed before the insertion. *)
Definition add (value : Z) (p : t) : t :=
  let data :=
    if (length p.(data) =? p.(capacity))%nat then tail p.(data) else p.(data) in
  mk (btree_insert value data) p.(capacity).

(** [((percentile / 100.0) * (len as f64 - 1.0)).round() as usize]. *)
Definition rank (percentile : f64) (len : nat) : nat :=
  Z.to_nat (f64_as_u64 (f64_round
    (f64_mul (f64_div percentile (f64_of_Z 100))
       (f64_sub (f64_of_Z (Z.of_nat len)) (f64_of_Z 1))))).

Definition get_percentile (percentile : f64) (p : t) : option Z :=
  match p.(data) with
  | [] => None
  | _ => p.(data) !! rank percentile (length p.(data))
  end.

Record wf (p : t) : Prop := {
  wf_capacity : (0 < p.(capacity))%nat;
  wf_sorted : StronglySorted Z.lt p.(data);
  wf_len : (length p.(data) <= p.(capacity))%nat;
}.

Lemma elem_of_btree_insert x v l : x ∈ btree_insert v l <-> x = v \/ x ∈ l.
Proof.
  induction l as [|a l IH]; cbn.
  - rewrite list_elem_of_singleton, elem_of_nil. naive_solver.
  - destruct (Z.ltb_spec v a); [rewrite !elem_of_cons; naive_solver|].
    destruct (Z.eqb_spec v a); rewrite !elem_of_cons; [naive_solver|].
    rewrite IH. naive_solver.
Qed.

Lemma btree_insert_sorted v l : StronglySorted Z.lt l -> StronglySorted Z.lt (btree_insert v l).
Proof.
  induction 1 as [|a l Hs IH Ha]; cbn; [repeat constructor|].
  destruct (Z.ltb_spec v a).
  - constructor; [now constructor|]. constructor; [done|].
    rewrite Forall_forall in Ha |- *. intros x Hx. specialize (Ha x Hx). lia.
  - destruct (Z.eqb_spec v a); constructor; auto.
    apply Forall_forall. intros x Hx%elem_of_btree_insert.
    rewrite Forall_forall in Ha. destruct Hx as [->|Hx]; [lia | now apply Ha].
Qed.

Lemma btree_insert_length v l :
  StronglySorted Z.lt l ->
  length (btree_insert v l) = (if decide (v ∈ l) then length l else S (length l)).
Proof.
  induction 1 as [|a l Hs IH Ha]; cbn; [by rewrite decide_False by apply not_elem_of_nil|].
  rewrite Forall_forall in Ha.
  destruct (Z.ltb_spec v a) as [E|E].
  - rewrite decide_False; [done|]. rewrite elem_of_cons.
    intros [->|Hv]; [lia|]. specialize (Ha _ Hv). lia.
  - destruct (Z.eqb_spec v a) as [->|E'].
    + rewrite decide_True by set_solver. done.
    + cbn. rewrite IH. repeat case_decide; set_solver.
Qed.

Lemma tail_sorted l : StronglySorted Z.lt l -> StronglySorted Z.lt (tail l).
Proof. now destruct 1; [constructor|]. Qed.

Lemma add_wf v p : wf p -> wf (add v p).
Proof.
  intros [Hc Hs Hl]. unfold add.
  destruct (Nat.eqb_spec (length (data p)) (capacity p)) as [E|E]; split; cbn; try done;
    auto using btree_insert_sorted, tail_sorted.
  - rewrite btree_insert_length by now apply tail_sorted.
    destruct (data p); cbn in *; [lia|]. case_decide; lia.
  - rewrite btree_insert_length by done. case_decide; lia.
Qed.
End Percentile.

Module FeeMetrics.
Record t := mk {
  rolling_average : RollingAverage.t;
  percentile : Percentile.t;
}.

Definition new (ra_size percentile_capacity : nat) : t :=
  mk (RollingAverage.new ra_size) (Percentile.new percentile_capacity).

Definition default : t := new 10 100.

Definition add_fee (fee : Z) (m : t) : option t :=
  ra ← RollingAverage.add fee m.(rolling_average);
  Some (mk ra (Percentile.add fee m.(percentile))).

Definition get_rolling_average (m : t) : option Z := RollingAverage.get_average m.(rolling_average).

Definition get_percentile (p : f64) (m : t) : option Z := Percentile.get_percentile p m.(percentile).

Definition wf (m : t) : Prop :=
  RollingAverage.wf m.(rolling_average) /\ Percentile.wf m.(percentile).

Lemma add_fee_wf fee m : wf m -> exists m', add_fee fee m = Some m' /\ wf m'.
Proof.
  intros [Hr Hp]. destruct (RollingAverage.add_window fee _ Hr) as (r' & E & Hr' & _).
  unfold add_fee. rewrite E. cbn. eexists; split; [done|]. split; cbn; auto using Percentile.add_wf.
Qed.
End FeeMetrics.

#[export] Hint Resolve RollingAverage.rolling_new_wf Percentile.add_wf : bot.

(** ** Properties *)

(** The rolling average over a ring of [size] slots never panics and, after
    any sequence of values, holds the last [size] of them (zeros before it is
    full); when they add up below [2^64] the average is their sum divided by
    [size], however often the intermediate sums wrapped around. *)
Theorem rolling_average_of_window (n : nat) (l : list Z) :
  (0 < n)%nat ->
  sum_list_Z (drop (length l) (replicate n 0 ++ l)) < 2 ^ 64 -> Forall is_u64 l ->
  exists r, RollingAverage.add_all l (RollingAverage.new n) = Some r /\
    RollingAverage.window r = drop (length l) (replicate n 0 ++ l) /\
    RollingAverage.get_average r
      = Some (sum_list_Z (drop (length l) (replicate n 0 ++ l)) / Z.of_nat n).
Proof.
  intros Hn Hs Hl.
  destruct (RollingAverage.add_all_window l _ (RollingAverage.rolling_new_wf n Hn))
    as (r & E & Hw & Hsz & W).
  assert (RollingAverage.window (RollingAverage.new n) = replicate n 0) as W0.
  { unfold RollingAverage.window. cbn. now rewrite app_nil_r. }
  rewrite W0 in W. exists r. split_and!; [done | done |].
  unfold RollingAverage.get_average, div_u64. rewrite Hsz. cbn [RollingAverage.size RollingAverage.new].
  replace (Z.of_nat n =? 0) with false by lia. do 2 f_equal.
  rewrite (RollingAverage.wf_sum _ Hw), <- RollingAverage.window_sum, W.
  apply wrap_u64_id. split; [|done].
  assert (Hpos : Forall (fun x => 0 <= x) (drop (length l) (replicate n 0 ++ l))).
  { apply Forall_drop, Forall_app. split; [now apply Forall_replicate|].
    eapply Forall_impl; [exact Hl|]. intros x Hx. apply Hx. }
  clear -Hpos. induction Hpos; [done|]. rewrite sum_list_Z_cons. lia.
Qed.

(** The percentile window is an ascending set of at most [capacity] values.
    Adding a value makes it present and forgets nothing but the smallest value
    of a full window; when the window is full and already holds the value
    above its minimum, the addition makes the window one element smaller. *)
Theorem percentile_add_spec (v : Z) (p : Percentile.t) :
  Percentile.wf p ->
  let p' := Percentile.add v p in
  let full := length p.(Percentile.data) = p.(Percentile.capacity) in
  Percentile.wf p' /\
  (forall x, x ∈ p'.(Percentile.data) <->
     x = v \/ (x ∈ p.(Percentile.data) /\ ~ (full /\ head p.(Percentile.data) = Some x))) /\
  (full -> v ∈ tail p.(Percentile.data) ->
   length p'.(Percentile.data) = (length p.(Percentile.data) - 1)%nat).
Proof.
  intros Hp p' full. split; [now apply Percentile.add_wf|].
  destruct Hp as [Hc Hs Hl]. unfold p', full, Percentile.add.
  destruct (Nat.eqb_spec (length (Percentile.data p)) (Percentile.capacity p)) as [E|E];
    cbn [Percentile.data]; split.
  - intros x. rewrite Percentile.elem_of_btree_insert.
    destruct (Percentile.data p) as [|a l]; cbn in E |- *; [lia|].
    inversion Hs as [|? ? _ Ha]; subst. rewrite Forall_forall in Ha. rewrite elem_of_cons.
    split; [|naive_solver].
    intros [->|Hx]; [auto|]. right. split; [auto|]. intros [_ [= ->]].
    specialize (Ha _ Hx). lia.
  - intros _ Hv. rewrite Percentile.btree_insert_length by now apply Percentile.tail_sorted.
    rewrite decide_True by done. destruct (Percentile.data p); cbn in *; lia.
  - intros x. rewrite Percentile.elem_of_btree_insert. naive_solver.
  - done.
Qed.

(** The rank of the 80th percentile in a window of [n] values, for every window
    the operational cache can hold, computed with the code's own floating-point
    expression. *)
Definition rank_80_checks (n : nat) : bool :=
  let k := Z.of_nat (Percentile.rank (f64_of_Z 80) n) in
  (k <? Z.of_nat n) && (Z.abs (10 * k - 8 * (Z.of_nat n - 1)) <=? 5).

Lemma rank_80_checks_all : forallb rank_80_checks (seq 1 2048) = true.
Proof. vm_compute. reflexivity. Qed.

Lemma rank_80 n :
  (1 <= n <= 2048)%nat ->
  (Percentile.rank (f64_of_Z 80) n < n)%nat /\
  Z.abs (10 * Z.of_nat (Percentile.rank (f64_of_Z 80) n) - 8 * (Z.of_nat n - 1)) <= 5.
Proof.
  intros Hn. pose proof rank_80_checks_all as H. rewrite forallb_forall in H.
  specialize (H n). rewrite in_seq in H. specialize (H ltac:(lia)).
  unfold rank_80_checks in H. lia.
Qed.

(** The optimal fee is always defined once a fee was seen: in a window of 1
    to 2048 values, the 80th percentile is the element whose index is
    [0.8 * (n - 1)] rounded to the nearest integer; the [f64] computation never
    yields an index out of range. *)
Theorem percentile_80_defined (p : Percentile.t) :
  Percentile.wf p -> p.(Percentile.data) <> [] -> (p.(Percentile.capacity) <= 2048)%nat ->
  exists k fee,
    Percentile.get_percentile (f64_of_Z 80) p = Some fee /\
    p.(Percentile.data) !! k = Some fee /\
    Z.abs (10 * Z.of_nat k - 8 * (Z.of_nat (length p.(Percentile.data)) - 1)) <= 5.
Proof.
  intros [_ _ Hl] Hne Hc. set (n := length (Percentile.data p)) in *.
  assert (Hn : (1 <= n <= 2048)%nat).
  { unfold n. destruct (Percentile.data p); [done|]. cbn in *. lia. }
  destruct (rank_80 n Hn) as [Hr Hk].
  destruct (lookup_lt_is_Some_2 (Percentile.data p) (Percentile.rank (f64_of_Z 80) n))
    as [fee Hfee]; [exact Hr|].
  exists (Percentile.rank (f64_of_Z 80) n), fee. split_and!; [|done|done].
  unfold Percentile.get_percentile. fold n. rewrite Hfee. now destruct (Percentile.data p).
Qed.

Lemma rolling_average_of_window_witness :
  exists r, RollingAverage.add_all [10; 20; 30] (RollingAverage.new 2) = Some r /\
    RollingAverage.get_average r = Some 25.
Proof.
  destruct (rolling_average_of_window 2 [10; 20; 30]) as (r & E & _ & A).
  - lia.
  - vm_compute. reflexivity.
  - unfold is_u64. repeat (constructor; [lia|]). constructor.
  - exists r. split; [exact E | exact A].
Defined.

Definition percentile_example : Percentile.t := Percentile.mk [10; 20; 30] 3.

Lemma percentile_example_wf : Percentile.wf percentile_example.
Proof. split; cbn; [lia | repeat constructor | lia]. Qed.

Lemma percentile_add_spec_witness :
  length (Percentile.add 20 percentile_example).(Percentile.data) = 2%nat.
Proof.
  destruct (percentile_add_spec 20 percentile_example percentile_example_wf) as (_ & _ & H).
  apply H; [reflexivity | set_solver].
Defined.

Lemma percentile_80_defined_witness :
  exists fee, Percentile.get_percentile (f64_of_Z 80) percentile_example = Some fee.
Proof.
  destruct (percentile_80_defined percentile_example percentile_example_wf) as (k & fee & H & _).
  - discriminate.
  - cbn; lia.
  - exists fee. exact H.
Defined.
