(* ===== verification/Amounts.v ===== *)
(** * Amounts

    The arithmetic that turns balances into orders: the checked integer routines
    of [crates/solana_farm_sdk/src/math.rs], the conversions of
    [src/utils/decimals.rs] and the random split of a total among agents of
    [src/utils/math.rs].

    [num_traits::checked_pow] and the Dirichlet sample are third-party code: the
    first is the interface [CheckedPow] with its documented contract, the second
    an argument (the sampled proportions). *)

From Stdlib Require Import ZArith Lia.
From S2P Require Import Prelude MachineInt Float64.

(** [num_traits::checked_pow] at [u64]: the power, or nothing on overflow. *)
Class CheckedPow := {
  checked_pow_u64 : Z -> Z -> option Z;
  checked_pow_u64_spec : forall b e, is_u64 b -> 0 <= e ->
    checked_pow_u64 b e = if u64b (b ^ e) then Some (b ^ e) else None;
}.

Definition checked_pow_model : CheckedPow.
Proof.
  refine {| checked_pow_u64 := fun b e => if u64b (b ^ e) then Some (b ^ e) else None |}.
  reflexivity.
Defined.

(** ** [solana_farm_sdk::math] *)
Module SdkMath.
Inductive error := MathOverflow.

Section Checked.
(** [inrange]: the integer type of the operands. *)
Variable inrange : Z -> bool.

Definition checked (z : Z) : result error Z := if inrange z then Ok z else Err MathOverflow.
Definition checked_add (a b : Z) := checked (a + b).
Definition checked_sub (a b : Z) := checked (a - b).
Definition checked_mul (a b : Z) := checked (a * b).
Definition checked_div (a b : Z) : result error Z :=
  if b =? 0 then Err MathOverflow else checked (a / b).
End Checked.

Definition u128b (z : Z) : bool := (0 <=? z) && (z <? 2 ^ 128).

Definition checked_pow `{CheckedPow} (arg exp : Z) : result error Z :=
  match checked_pow_u64 arg exp with Some r => Ok r | None => Err MathOverflow end.

Definition checked_as_u64 (arg : Z) : result error Z :=
  if u64b arg then Ok arg else Err MathOverflow.

Definition get_no_fee_amount (amount fee_numerator fee_denominator : Z) : result error Z :=
  if amount =? 0 then Ok 0 else
  product <-? checked_mul u128b amount fee_numerator ;;
  quotient <-? checked_div u128b product fee_denominator ;;
  fee <-? checked_as_u64 quotient ;;
  checked_sub u64b amount (Z.max fee 1).

(** The [while] loop of [get_fee_parts], at most six iterations. *)
Fixpoint fee_parts_loop (fuel : nat) (numerator : f64) (denominator : Z) : f64 * Z :=
  match fuel with
  | O => (numerator, denominator)
  | S fuel' =>
      if f64_eq numerator (f64_of_Z (f64_as_u64 numerator)) then (numerator, denominator)
      else fee_parts_loop fuel' (f64_mul numerator (f64_of_Z 10)) (denominator * 10)
  end.

Definition get_fee_parts (fee : f64) : Z * Z :=
  if negb (f64_lt f64_zero fee) && negb (is_nan fee) || f64_gt fee (f64_of_Z 1) then (0, 1) else
  let '(numerator, denominator) := fee_parts_loop 6 fee 1 in
  if f64_as_u64 numerator =? denominator then (1, 1)
  else (f64_as_u64 numerator, denominator).
End SdkMath.

(** ** [utils::decimals] *)
Module Decimals.
(** [None]: the power overflows and [unwrap] panics. *)
Definition tokens_to_ui_amount_with_decimals_f64 `{CheckedPow} (amount decimals : Z) : option f64 :=
  if amount =? 0 then Some f64_zero else
  divisor ← result_to_option (SdkMath.checked_pow 10 decimals);
  Some (f64_div (f64_of_Z amount) (f64_of_Z divisor)).

Definition ui_amount_with_decimals_to_tokens `{CheckedPow} (amount : f64) (decimals : Z) : option Z :=
  if f64_eq amount f64_zero then Some 0 else
  multiplier ← result_to_option (SdkMath.checked_pow 10 decimals);
  Some (f64_as_u64 (f64_mul amount (f64_of_Z multiplier))).

Definition lamports_to_sol (lamports : Z) : f64 := f64_div (f64_of_Z lamports) (f64_of_Z 1000000000).

Definition sol_to_lamports (sol : f64) : Z := f64_as_u64 (f64_mul sol (f64_of_Z 1000000000)).

Lemma tokens_to_ui_total `{CheckedPow} amount decimals :
  0 <= decimals <= 19 ->
  exists x, tokens_to_ui_amount_with_decimals_f64 amount decimals = Some x.
Proof.
  intros Hd. unfold tokens_to_ui_amount_with_decimals_f64, SdkMath.checked_pow.
  destruct (amount =? 0); [eauto|].
  rewrite checked_pow_u64_spec by (unfold is_u64; lia).
  assert (u64b (10 ^ decimals) = true) as ->; [|cbn; eauto].
  apply u64b_spec. pose proof (Z.pow_pos_nonneg 10 decimals).
  assert (10 ^ decimals <= 10 ^ 19) by (apply Z.pow_le_mono_r; lia).
  unfold is_u64. lia.
Qed.
End Decimals.

(** ** [utils::math]: splitting a total *)
Module Dirichlet.
Section Split.
Context `{Profile}.

(** [iter().sum::<u64>()]. *)
Definition sum_step (acc : option Z) (x : Z) : option Z := a ← acc; add_u64 a x.

Definition sum_u64 (l : list Z) : option Z := fold_left sum_step l (Some 0).

(** The correction of the first element; indexing an empty vector panics. *)
Definition adjust_first (alpha : Z) (amounts : list Z) : option (list Z) :=
  total ← sum_u64 amounts;
  if total =? alpha then Some amounts else
  difference ← sub_i64 (as_i64 alpha) (as_i64 total);
  if 0 <? difference then
    first ← amounts !! 0%nat;
    first' ← add_u64 first (as_u64 difference);
    Some (<[0%nat := first']> amounts)
  else if difference <? 0 then
    first ← amounts !! 0%nat;
    magnitude ← abs_i64 difference;
    first' ← sub_u64 first (as_u64 magnitude);
    Some (<[0%nat := first']> amounts)
  else Some amounts.

Definition share (total : Z) (x : f64) : Z := f64_as_u64 (f64_round (f64_mul x (f64_of_Z total))).

(** [sample]: the proportions drawn when [n > 1]. *)
Definition get_dirichlet_distributed_amount (sample : list f64) (alpha : Z) (n : nat)
    : option (list Z) :=
  match n with
  | O => Some []
  | S _ =>
      let proportions := if (1 <? n)%nat then sample else [f64_of_Z 1] in
      adjust_first alpha (share alpha <$> proportions)
  end.

Definition get_dirichlet_distributed_with_min_amount
    (sample : list f64) (alpha : Z) (n : nat) (min_amount : Z) : option (list Z) :=
  match n with
  | O => Some []
  | S O => Some [alpha]
  | _ =>
      min_required_total ← mul_u64 (Z.of_nat n) min_amount;
      if alpha <? min_required_total then Some (replicate n min_amount) else
      remaining_alpha ← sub_u64 alpha min_required_total;
      amounts ← mapM (fun x => add_u64 (share remaining_alpha x) min_amount) sample;
      adjust_first alpha amounts
  end.

Lemma sum_u64_panicked l :
  fold_left sum_step l None = None.
Proof. induction l as [|x l IH]; [reflexivity | exact IH]. Qed.

Lemma sum_u64_range_acc l a r :
  is_u64 a -> fold_left sum_step l (Some a) = Some r ->
  is_u64 r.
Proof.
  revert a. induction l as [|x l IH]; intros a Ha Hr; cbn [fold_left] in Hr; [by simplify_eq|].
  unfold sum_step at 2 in Hr. cbn [mbind option_bind] in Hr.
  destruct (add_u64 a x) as [b|] eqn:E; [apply (IH b); [eapply arith_u64_range, E | done]|].
  now rewrite sum_u64_panicked in Hr.
Qed.

Lemma sum_u64_acc l a r :
  fold_left sum_step l (Some a) = Some r ->
  r mod 2 ^ 64 = (a + sum_list_Z l) mod 2 ^ 64.
Proof.
  revert a. induction l as [|x l IH]; intros a Hr; cbn [fold_left] in Hr.
  - simplify_eq. unfold sum_list_Z. cbn. now rewrite Z.add_0_r.
  - unfold sum_step at 2 in Hr. cbn [mbind option_bind] in Hr.
    destruct (add_u64 a x) as [b|] eqn:E.
    + apply IH in Hr. rewrite Hr, sum_list_Z_cons.
      rewrite <- Zplus_mod_idemp_l, (arith_u64_mod _ _ E), Zplus_mod_idemp_l. f_equal. lia.
    + now rewrite sum_u64_panicked in Hr.
Qed.

Lemma sum_u64_mod l r : sum_u64 l = Some r -> r mod 2 ^ 64 = sum_list_Z l mod 2 ^ 64.
Proof. apply sum_u64_acc. Qed.

Lemma sum_u64_exact_acc l a :
  Forall (fun x => 0 <= x) l -> 0 <= a -> a + sum_list_Z l < 2 ^ 64 ->
  fold_left sum_step l (Some a) = Some (a + sum_list_Z l).
Proof.
  intros Hl. revert a. induction Hl as [|x l Hx Hl IH]; intros a Ha Hs; cbn [fold_left].
  - unfold sum_list_Z. cbn. f_equal. lia.
  - rewrite sum_list_Z_cons in Hs |- *.
    assert (0 <= sum_list_Z l).
    { clear -Hl. induction Hl; [done|]. rewrite sum_list_Z_cons. lia. }
    unfold sum_step at 2. cbn [mbind option_bind].
    unfold add_u64. rewrite arith_u64_ok by (unfold is_u64; lia).
    rewrite IH by lia. f_equal. lia.
Qed.

Lemma sum_u64_exact l :
  Forall (fun x => 0 <= x) l -> sum_list_Z l < 2 ^ 64 -> sum_u64 l = Some (sum_list_Z l).
Proof. intros. unfold sum_u64. rewrite sum_u64_exact_acc by (done || lia). done. Qed.

Lemma sum_insert_0 l x y :
  l !! 0%nat = Some x -> sum_list_Z (<[0%nat := y]> l) = sum_list_Z l - x + y.
Proof. destruct l; [done|]. cbn. intros [= ->]. rewrite !sum_list_Z_cons. lia. Qed.

(** Whatever the profile, the adjusted amounts add up to [alpha] modulo [2^64]. *)
Lemma adjust_first_mod alpha amounts out :
  is_u64 alpha -> adjust_first alpha amounts = Some out ->
  sum_list_Z out mod 2 ^ 64 = alpha /\ length out = length amounts.
Proof.
  intros Ha. rewrite <- (Z.mod_small alpha (2 ^ 64)) by apply Ha. intros Hout.
  rewrite Z.mod_small in Hout by apply Ha. unfold adjust_first in Hout.
  destruct (sum_u64 amounts) as [total|] eqn:Et; [|done]. cbn in Hout.
  pose proof (sum_u64_mod _ _ Et) as Hm.
  destruct (Z.eqb_spec total alpha) as [->|Hne]; [simplify_eq; auto|].
  destruct (sub_i64 _ _) as [d|] eqn:Ed; [|done]. cbn in Hout.
  assert (Hd : d mod 2 ^ 64 = (alpha - total) mod 2 ^ 64).
  { rewrite (arith_i64_mod _ _ Ed), <- Zminus_mod_idemp_l, <- Zminus_mod_idemp_r.
    unfold as_i64. rewrite !wrap_i64_mod. now rewrite Zminus_mod_idemp_l, Zminus_mod_idemp_r. }
  assert (Hfin : forall first first',
    amounts !! 0%nat = Some first -> first' mod 2 ^ 64 = (first + d) mod 2 ^ 64 ->
    sum_list_Z (<[0%nat := first']> amounts) mod 2 ^ 64 = alpha mod 2 ^ 64).
  { intros first first' Hf Hf'. rewrite (sum_insert_0 _ _ _ Hf).
    rewrite <- Zplus_mod_idemp_r, Hf', Zplus_mod_idemp_r.
    replace (sum_list_Z amounts - first + (first + d)) with (sum_list_Z amounts + d) by lia.
    rewrite <- Zplus_mod_idemp_l, <- Hm, Zplus_mod_idemp_l, <- Zplus_mod_idemp_r, Hd,
      Zplus_mod_idemp_r. f_equal. lia. }
  destruct (0 <? d) eqn:Epos; [|destruct (d <? 0) eqn:Eneg].
  - destruct (amounts !! 0%nat) as [first|] eqn:Ef; [|done]. cbn in Hout.
    destruct (add_u64 _ _) as [f'|] eqn:Ea; [|done]. cbn in Hout. simplify_eq.
    split; [|apply length_insert]. apply (Hfin first); [done|].
    rewrite (arith_u64_mod _ _ Ea). unfold as_u64, wrap_u64.
    now rewrite Zplus_mod_idemp_r.
  - destruct (amounts !! 0%nat) as [first|] eqn:Ef; [|done]. cbn in Hout.
    destruct (abs_i64 d) as [m|] eqn:Em; [|done]. cbn in Hout.
    destruct (sub_u64 _ _) as [f'|] eqn:Es; [|done]. cbn in Hout. simplify_eq.
    split; [|apply length_insert]. apply (Hfin first); [done|].
    rewrite (arith_u64_mod _ _ Es). unfold as_u64, wrap_u64.
    rewrite Zminus_mod_idemp_r, <- Zminus_mod_idemp_r, (arith_i64_mod _ _ Em),
      Zminus_mod_idemp_r. f_equal. lia.
  - exfalso. assert (d = 0) as -> by lia. change (0 mod 2 ^ 64) with 0 in Hd.
    assert (alpha mod 2 ^ 64 = total mod 2 ^ 64) as Hat by (apply Z.cong_iff_0; auto).
    rewrite Z.mod_small in Hat by apply Ha.
    assert (Htot : is_u64 total).
    { eapply sum_u64_range_acc; [|exact Et]. unfold is_u64; lia. }
    rewrite Z.mod_small in Hat by apply Htot. congruence.
Qed.

(** In range, the adjustment succeeds in every profile, changes only the
    first element, and the total is exact. *)
Lemma adjust_first_exact alpha first rest :
  0 <= alpha < 2 ^ 63 -> Forall (fun x => 0 <= x) (first :: rest) ->
  sum_list_Z (first :: rest) < 2 ^ 63 -> sum_list_Z (first :: rest) - alpha <= first ->
  adjust_first alpha (first :: rest)
  = Some ((first + (alpha - sum_list_Z (first :: rest))) :: rest).
Proof.
  intros Ha Hpos Hs Hle. unfold adjust_first.
  rewrite sum_u64_exact by (done || lia). cbn [mbind option_bind].
  assert (0 <= sum_list_Z rest) as Hr.
  { apply Forall_cons in Hpos as [_ Hpos]. clear -Hpos.
    induction Hpos; [done|]. rewrite sum_list_Z_cons. lia. }
  apply Forall_cons in Hpos as [Hf _].
  pose proof (sum_list_Z_cons first rest) as Hcons.
  destruct (Z.eqb_spec (sum_list_Z (first :: rest)) alpha) as [E|E];
    [do 2 f_equal; lia|].
  unfold as_i64. rewrite !wrap_i64_id by (unfold is_i64; lia).
  unfold sub_i64. rewrite arith_i64_ok by (unfold is_i64; lia). cbn [mbind option_bind].
  destruct (Z.ltb_spec 0 (alpha - sum_list_Z (first :: rest))) as [Hd|Hd].
  - cbn. unfold as_u64, add_u64. rewrite wrap_u64_id by (unfold is_u64; lia).
    rewrite arith_u64_ok by (unfold is_u64; lia). reflexivity.
  - replace (alpha - sum_list_Z (first :: rest) <? 0) with true by lia.
    cbn [list_lookup lookup]. cbn [mbind option_bind].
    unfold abs_i64. rewrite arith_i64_ok by (unfold is_i64; lia). cbn [mbind option_bind].
    unfold as_u64, sub_u64. rewrite wrap_u64_id by (unfold is_u64; lia).
    rewrite arith_u64_ok by (unfold is_u64; lia). cbn. do 2 f_equal. lia.
Qed.
End Split.
End Dirichlet.

(** ** Properties *)

Section AmountProperties.
Context `{Profile}.

Abbreviation shares sample total := (Dirichlet.share total <$> sample).

Lemma shares_nonneg sample total : Forall (fun x => 0 <= x) (shares sample total).
Proof.
  apply Forall_fmap, Forall_forall. intros x _. cbn.
  pose proof (f64_as_u64_range (f64_round (f64_mul x (f64_of_Z total)))) as Hr.
  apply Hr.
Qed.

(** Splitting a total among agents loses nothing: whatever proportions
    were drawn and in either build profile, a returned split has one amount
    per agent and adds up to the total modulo [2^64]; and when the rounded
    shares stay below [2^63] and exceed the total by no more than the first
    of them, the split is returned, is exact, and only the first share is
    corrected. *)
Theorem dirichlet_preserves_total (sample : list f64) (alpha : Z) (n : nat) :
  is_u64 alpha -> (1 < n)%nat -> length sample = n ->
  (forall out, Dirichlet.get_dirichlet_distributed_amount sample alpha n = Some out ->
     sum_list_Z out mod 2 ^ 64 = alpha /\ length out = n) /\
  (forall first rest, shares sample alpha = first :: rest ->
     alpha < 2 ^ 63 -> sum_list_Z (first :: rest) < 2 ^ 63 ->
     sum_list_Z (first :: rest) - alpha <= first ->
     exists first', Dirichlet.get_dirichlet_distributed_amount sample alpha n
                    = Some (first' :: rest) /\
                    first' + sum_list_Z rest = alpha).
Proof.
  intros Ha Hn Hl. unfold Dirichlet.get_dirichlet_distributed_amount.
  destruct n as [|[|n]]; [lia..|]. replace (1 <? S (S n))%nat with true by done.
  split.
  - intros out Hout. apply Dirichlet.adjust_first_mod in Hout as [Hs Hlen]; [|done].
    split; [done|]. now rewrite Hlen, length_fmap.
  - intros first rest E Ha' Hs Hle. rewrite E.
    rewrite Dirichlet.adjust_first_exact; [|destruct Ha; lia| |done|done].
    + eexists. split; [done|]. rewrite sum_list_Z_cons. lia.
    + rewrite <- E. apply shares_nonneg.
Qed.

Lemma mapM_add_min (l : list f64) total min_amount :
  Forall (fun s => s + min_amount < 2 ^ 64) (shares l total) -> 0 <= min_amount ->
  mapM (fun x => add_u64 (Dirichlet.share total x) min_amount) l
  = Some ((fun s => s + min_amount) <$> shares l total).
Proof.
  intros Hl Hm. induction l as [|x l IH]; [reflexivity|].
  cbn in Hl. apply Forall_cons in Hl as [Hx Hl]. cbn.
  pose proof (shares_nonneg [x] total) as Hp. cbn in Hp. apply Forall_cons in Hp as [Hp _].
  assert (add_u64 (Dirichlet.share total x) min_amount
          = Some (Dirichlet.share total x + min_amount)) as ->
    by (apply arith_u64_ok; unfold is_u64; lia).
  cbn. rewrite IH by done. reflexivity.
Qed.

Lemma sum_add_min (l : list Z) m :
  sum_list_Z ((fun s => s + m) <$> l) = sum_list_Z l + Z.of_nat (length l) * m.
Proof.
  induction l as [|x l IH]; [reflexivity|]. cbn [fmap list_fmap length].
  rewrite !sum_list_Z_cons, IH. lia.
Qed.

(** The split with a minimum: if the total cannot give everyone the
    minimum, everyone still gets it (more than the total is handed out);
    otherwise everyone but the first gets at least the minimum, the total is
    exact, and the first falls below the minimum by no more than the rounding
    excess of the shares. *)
Theorem dirichlet_min_split (sample : list f64) (alpha : Z) (n : nat) (min_amount : Z) :
  0 <= alpha < 2 ^ 63 -> 0 <= min_amount -> (1 < n)%nat -> length sample = n ->
  Z.of_nat n * min_amount < 2 ^ 63 ->
  (alpha < Z.of_nat n * min_amount ->
   exists out, Dirichlet.get_dirichlet_distributed_with_min_amount sample alpha n min_amount
               = Some out /\
     Forall (eq min_amount) out /\ length out = n /\ alpha < sum_list_Z out) /\
  (forall first rest, Z.of_nat n * min_amount <= alpha ->
   shares sample (alpha - Z.of_nat n * min_amount) = first :: rest ->
   let excess := sum_list_Z (first :: rest) - (alpha - Z.of_nat n * min_amount) in
   sum_list_Z (first :: rest) + Z.of_nat n * min_amount < 2 ^ 63 ->
   excess <= first + min_amount ->
   exists out0 out,
     Dirichlet.get_dirichlet_distributed_with_min_amount sample alpha n min_amount
     = Some (out0 :: out) /\
     out0 + sum_list_Z out = alpha /\
     Forall (fun a => min_amount <= a) out /\
     min_amount - excess <= out0).
Proof.
  intros Ha Hm Hn Hlen Hnm.
  unfold Dirichlet.get_dirichlet_distributed_with_min_amount.
  destruct n as [|[|n]]; [lia..|]. cbv beta iota.
  remember (S (S n)) as N eqn:EN. unfold mul_u64. rewrite arith_u64_ok by (unfold is_u64; lia). cbn [mbind option_bind].
  split.
  - intros Hlt. replace (alpha <? Z.of_nat N * min_amount) with true by lia.
    eexists. split_and!; [reflexivity | by apply Forall_replicate | apply length_replicate |].
    rewrite sum_list_Z_replicate. lia.
  - intros first rest Hge E Hs Hx.
    replace (alpha <? Z.of_nat N * min_amount) with false by lia.
    unfold sub_u64. rewrite arith_u64_ok by (unfold is_u64; lia). cbn [mbind option_bind].
    pose proof (shares_nonneg sample (alpha - Z.of_nat N * min_amount)) as Hpos.
    rewrite E in Hpos. pose proof Hpos as [Hp0 Hpr]%Forall_cons.
    assert (Hrest : 0 <= sum_list_Z rest).
    { clear -Hpr. induction Hpr; [done|]. rewrite sum_list_Z_cons. lia. }
    rewrite sum_list_Z_cons in Hs, Hx |- *.
    assert (Hlenr : length rest = S n).
    { apply (f_equal length) in E. rewrite length_fmap, Hlen in E. cbn in E. lia. }
    assert (Hb : Forall (fun x => x <= first + sum_list_Z rest) (first :: rest)).
    { constructor; [lia|]. clear -Hpr Hp0. induction Hpr as [|y l Hy Hl IH]; [done|].
      rewrite sum_list_Z_cons. assert (0 <= sum_list_Z l).
      { clear -Hl. induction Hl; [done|]. rewrite sum_list_Z_cons. lia. }
      constructor; [lia|]. eapply Forall_impl; [exact IH|]. cbn. lia. }
    rewrite mapM_add_min; [|rewrite E; eapply Forall_impl; [exact Hb|]; cbn; nia | done].
    rewrite E. cbn [mbind option_bind fmap list_fmap].
    pose proof (sum_add_min rest min_amount) as Hsm. rewrite Hlenr in Hsm.
    assert (Hnn : Forall (fun x => 0 <= x) ((fun s => s + min_amount) <$> rest)).
    { apply Forall_fmap. eapply Forall_impl; [exact Hpr|]. cbn. lia. }
    rewrite Dirichlet.adjust_first_exact;
      [|lia | constructor; [lia | done] | rewrite sum_list_Z_cons, Hsm; lia
       | rewrite sum_list_Z_cons, Hsm; lia].
    eexists _, _. split_and!; [reflexivity | | |].
    + rewrite sum_list_Z_cons. lia.
    + apply Forall_fmap. eapply Forall_impl; [exact Hpr|]. cbn. lia.
    + rewrite sum_list_Z_cons, Hsm. lia.
Qed.
End AmountProperties.

(** A fee of at most the whole amount, and at least 1, is taken off. *)
Lemma no_fee_Ok (amount num den : Z) :
  is_u64 amount -> is_u64 num -> 0 < amount -> 0 < den -> num <= den ->
  exists rest, SdkMath.get_no_fee_amount amount num den = Ok rest /\
    rest = amount - Z.max (amount * num / den) 1 /\ 0 <= rest < amount.
Proof.
  unfold is_u64. intros Ha Hn H0 Hd0 Hle.
  assert (Hp : SdkMath.u128b (amount * num) = true) by (unfold SdkMath.u128b; nia).
  unfold SdkMath.get_no_fee_amount. replace (amount =? 0) with false by lia.
  assert (0 <= amount * num / den <= amount) as Hq.
  { split; [apply Z.div_pos; nia|]. apply Z.div_le_upper_bound; nia. }
  unfold SdkMath.checked_mul, SdkMath.checked. rewrite Hp. cbn [result_bind].
  unfold SdkMath.checked_div, SdkMath.checked. replace (den =? 0) with false by lia.
  replace (SdkMath.u128b (amount * num / den)) with true by (unfold SdkMath.u128b; lia).
  cbn [result_bind]. unfold SdkMath.checked_as_u64.
  replace (u64b (amount * num / den)) with true by (unfold u64b; lia). cbn [result_bind].
  unfold SdkMath.checked_sub, SdkMath.checked.
  replace (u64b (amount - Z.max (amount * num / den) 1)) with true by (unfold u64b; lia).
  eexists. split_and!; [reflexivity | reflexivity | lia..].
Qed.

(** A fee is always charged and never exceeds the amount: for [u64]
    operands with a fee of at most one, the amount without fee is the amount
    minus [max 1 (amount * numerator / denominator)], computed without overflow;
    a zero denominator is an error and a zero amount pays nothing. *)
Theorem get_no_fee_amount_spec (amount num den : Z) :
  is_u64 amount -> is_u64 num -> is_u64 den ->
  SdkMath.get_no_fee_amount 0 num den = Ok 0 /\
  (0 < amount -> den = 0 -> SdkMath.get_no_fee_amount amount num den = Err SdkMath.MathOverflow) /\
  (0 < amount -> 0 < den -> num <= den ->
   exists rest, SdkMath.get_no_fee_amount amount num den = Ok rest /\
     rest = amount - Z.max (amount * num / den) 1 /\ 0 <= rest < amount).
Proof.
  intros Ha Hn Hd. split; [reflexivity|]. split; intros H0.
  - unfold is_u64 in *. intros ->. unfold SdkMath.get_no_fee_amount. replace (amount =? 0) with false by lia.
    assert (Hp : SdkMath.u128b (amount * num) = true) by (unfold SdkMath.u128b; nia).
    unfold SdkMath.checked_mul, SdkMath.checked. now rewrite Hp.
  - intros Hd0 Hle. by apply no_fee_Ok.
Qed.

(** Two halves of 101: both round up to 51, and the first is corrected. *)
Definition halves : list f64 := [SpecFloat.S754_finite false 4503599627370496 (-53); SpecFloat.S754_finite false 4503599627370496 (-53)].

Lemma dirichlet_preserves_total_witness :
  @Dirichlet.get_dirichlet_distributed_amount release_build halves 101 2 = Some [50; 51] /\
  exists first', @Dirichlet.get_dirichlet_distributed_amount debug_build halves 101 2
    = Some [first'; 51] /\ first' + sum_list_Z [51] = 101.
Proof.
  split; [vm_compute; reflexivity|].
  destruct (@dirichlet_preserves_total debug_build halves 101 2) as [_ H];
    [unfold is_u64; lia | lia | reflexivity |].
  apply (H 51 [51]); vm_compute; done.
Defined.

Lemma dirichlet_min_split_witness :
  exists out0 out,
    @Dirichlet.get_dirichlet_distributed_with_min_amount release_build halves 121 2 10
    = Some (out0 :: out) /\ out0 + sum_list_Z out = 121.
Proof.
  destruct (@dirichlet_min_split release_build halves 121 2 10) as [_ H];
    [lia | lia | lia | reflexivity | lia |].
  destruct (H 51 [51]) as (out0 & out & E & S & _); [lia | vm_compute; reflexivity | vm_compute; done.. |].
  exists out0, out. split; [exact E | exact S].
Defined.

Lemma get_no_fee_amount_spec_witness :
  exists rest, SdkMath.get_no_fee_amount 10000 25 10000 = Ok rest /\ 0 <= rest < 10000.
Proof.
  destruct (get_no_fee_amount_spec 10000 25 10000) as (_ & _ & H); [unfold is_u64; lia.. |].
  destruct H as (rest & E & _ & R); [lia.. |]. exists rest. split; [exact E | exact R].
Defined.

(** A share drawn as zero and two rounded up: the first agent gets less than
    the minimum. *)
Example dirichlet_min_violated :
  @Dirichlet.get_dirichlet_distributed_with_min_amount release_build
    (f64_zero :: halves) 31 3 10 = Some [9; 11; 11].
Proof. vm_compute. reflexivity. Qed.
