(* ===== verification/Types.v ===== *)
(** * The data of the bot

    The types of [src/types] and [src/strategies/events.rs]: actions, events,
    pools, receipts.  A public key, a uuid and a signature are 256-bit, 128-bit
    and 512-bit strings kept as integers; a keypair is identified with its
    public key (the code only clones it and asks for [pubkey()]); a
    [TransactionError] of [solana_sdk], which the code only prints, is its
    [Debug] rendering.  Instants are milliseconds. *)

From S2P Require Import Prelude MachineInt Float64.

Abbreviation Pubkey := Z (only parsing).
Abbreviation Uuid := Z (only parsing).
Abbreviation Signature := Z (only parsing).
Abbreviation KeypairClonable := Z (only parsing).
Abbreviation TransactionError := string (only parsing).
Abbreviation StrategyId := Z (only parsing).

(** [Signature::default()]. *)
Definition default_signature : Signature := 0.

Definition pubkey (key : KeypairClonable) : Pubkey := key.

(** ** Constants ([config/constants.rs]) *)
Definition ACTION_EXPIRY_S : Z := 1000.
Definition MAX_TRANSFERS_IN_ONE_TX : nat := 12.
Definition CACHED_TX_SIGNATURES_BUFFER_CAPACITY : nat := 1024%nat.
Definition RT_FEE_ROLLING_AVERAGE_SIZE : nat := 2048%nat.
Definition RT_FEE_PERCENTILE_CAPACITY : nat := 2048%nat.
Definition RT_FEE_PERCENTILE : f64 := f64_of_Z 80.
Definition TIMEOUT_FOR_ACTION_EXECUTION_HBS : Z := 200.
Definition RETRIES_IF_ERROR_OR_TIMEOUT : Z := 2.
Definition BASE_TX_FEE_SOL : Z := 5000.
Definition TRANSFER_PRIORITY_FEE_SOL : Z := 10000.
Definition BALANCE_CHANGE_THRESHOLD_SOL : Z := 1000.
Definition RENT_EXEMPTION_THRESHOLD_SOL : Z := 2039280.
Definition NEW_ACCOUNT_THRESHOLD_SOL : Z := 890880.
Definition SIMULATION_RETRIES : nat := 1.

(** ** Pools ([types/pool.rs]) *)
Record RaydiumPool := {
  pool_id : Pubkey;
  base_mint : Pubkey;
  quote_mint : Pubkey;
  lp_mint : Pubkey;
  base_decimals : Z;
  quote_decimals : Z;
  lp_decimals : Z;
  version : Z;
  program_id : Pubkey;
  authority : Pubkey;
  open_orders : Pubkey;
  target_orders : Pubkey;
  base_vault : Pubkey;
  quote_vault : Pubkey;
  withdraw_queue : Pubkey;
  lp_vault : Pubkey;
  market_version : Z;
  market_program_id : Pubkey;
  market_id : Pubkey;
  lp_reserve : Z;
  open_time : Z;
  reverse_pool : bool;
  freeze_authority : option Pubkey;
}.

Record LiquidityPoolKeys := {
  lk_id : Pubkey;
  lk_base_mint : Pubkey;
  lk_quote_mint : Pubkey;
  lk_lp_mint : Pubkey;
  lk_base_decimals : Z;
  lk_quote_decimals : Z;
  lk_lp_decimals : Z;
  lk_version : Z;
  lk_program_id : Pubkey;
  lk_authority : Pubkey;
  lk_open_orders : Pubkey;
  lk_target_orders : Pubkey;
  lk_base_vault : Pubkey;
  lk_quote_vault : Pubkey;
  lk_withdraw_queue : Pubkey;
  lk_lp_vault : Pubkey;
  lk_market_version : Z;
  lk_market_program_id : Pubkey;
  lk_market_id : Pubkey;
  lk_market_authority : Pubkey;
  lk_market_base_vault : Pubkey;
  lk_market_quote_vault : Pubkey;
  lk_market_bids : Pubkey;
  lk_market_asks : Pubkey;
  lk_market_event_queue : Pubkey;
}.

#[export] Instance LiquidityPoolKeys_eq_dec : EqDecision LiquidityPoolKeys.
Proof. solve_decision. Defined.

(** The vaults are swapped for a reversed pool; the keys of the market stand
    for the pool's id until [add_market_state_layout] fills them in. *)
Definition to_liquidity_keys (self : RaydiumPool) : LiquidityPoolKeys := {|
  lk_id := self.(pool_id);
  lk_base_mint := self.(base_mint);
  lk_quote_mint := self.(quote_mint);
  lk_lp_mint := self.(lp_mint);
  lk_base_decimals := self.(base_decimals);
  lk_quote_decimals := self.(quote_decimals);
  lk_lp_decimals := self.(lp_decimals);
  lk_version := self.(version);
  lk_program_id := self.(program_id);
  lk_authority := self.(authority);
  lk_open_orders := self.(pool_id);
  lk_target_orders := self.(pool_id);
  lk_base_vault := if self.(reverse_pool) then self.(quote_vault) else self.(base_vault);
  lk_quote_vault := if self.(reverse_pool) then self.(base_vault) else self.(quote_vault);
  lk_withdraw_queue := self.(withdraw_queue);
  lk_lp_vault := self.(lp_vault);
  lk_market_version := self.(market_version);
  lk_market_program_id := self.(pool_id);
  lk_market_id := self.(pool_id);
  lk_market_authority := self.(pool_id);
  lk_market_base_vault := self.(pool_id);
  lk_market_quote_vault := self.(pool_id);
  lk_market_bids := self.(pool_id);
  lk_market_asks := self.(pool_id);
  lk_market_event_queue := self.(pool_id);
|}.

Record RaydiumPoolPriceUpdate := {
  pu_pool : Pubkey;
  pu_price : f64;
  pu_base_reserve : f64;
  pu_quote_reserve : f64;
  pu_created_at : Z;
}.

Inductive TradeDirection := TradeBuy | TradeSell.

Record RaydiumSwapEvent := {
  se_price_update : RaydiumPoolPriceUpdate;
  se_signature : Signature;
  se_pool : Pubkey;
  se_trade_direction : TradeDirection;
  se_base_amount : f64;
  se_quote_amount : f64;
  se_price : f64;
  se_volume : f64;
  se_created_at : Z;
}.

(** ** Accounts ([collectors/tx_stream/types.rs])

    The fields the program reads: [acc_token] is [token_unpacked_data], an SPL
    token account by its mint, owner and amount. *)
Record SplTokenAccount := {
  ta_mint : Pubkey;
  ta_owner : Pubkey;
  ta_amount : Z;
}.

Record AccountPretty := {
  acc_pubkey : Pubkey;
  acc_lamports : Z;
  acc_token : option SplTokenAccount;
  acc_txn_signature : string;
}.

(** ** Actions ([types/actions]) *)
Inductive SwapMethod := BuyTokensForExactSol | SellExactTokensForSol.

Inductive Amount :=
| Exact (n : Z)
| ExactWithFees (n : Z)
| MaxButLeaveForTransfer
| Max
| MaxAndClose.

Inductive Asset :=
| Sol
| Token (mint : Pubkey).

Record SolanaSwapActionPayload := {
  keys : LiquidityPoolKeys;
  swap_method : SwapMethod;
  amount_in : Amount;
  min_amount_out : Z;
}.

Record SolanaTransferActionPayload := {
  asset : Asset;
  receiver : Pubkey;
  amount : Amount;
}.

Inductive SolanaActionPayload :=
| SwapPayload (p : SolanaSwapActionPayload)
| TransferPayload (p : SolanaTransferActionPayload).

Inductive ActionExecutionStatus :=
| NotSent
| Pending
| Success
| TxError (error : string)
| Timeout.

#[export] Instance SwapMethod_eq_dec : EqDecision SwapMethod.
Proof. solve_decision. Defined.
#[export] Instance Amount_eq_dec : EqDecision Amount.
Proof. solve_decision. Defined.
#[export] Instance Asset_eq_dec : EqDecision Asset.
Proof. solve_decision. Defined.
#[export] Instance SolanaSwapActionPayload_eq_dec : EqDecision SolanaSwapActionPayload.
Proof. solve_decision. Defined.
#[export] Instance SolanaTransferActionPayload_eq_dec : EqDecision SolanaTransferActionPayload.
Proof. solve_decision. Defined.
#[export] Instance SolanaActionPayload_eq_dec : EqDecision SolanaActionPayload.
Proof. solve_decision. Defined.
#[export] Instance ActionExecutionStatus_eq_dec : EqDecision ActionExecutionStatus.
Proof. solve_decision. Defined.

Record Balance := {
  sol : Z;
  token : gmap Pubkey Z;
}.

Record SolanaAction := {
  uuid : Uuid;
  sniper : KeypairClonable;
  fee_payer : KeypairClonable;
  created_at : Z;
  action_payload : list SolanaActionPayload;
  status : ActionExecutionStatus;
  tx_hash : Signature;
  balance_before : option Balance;
  balance_after : option Balance;
  fee : Z;
  sent_at : option Z;
  confirmed_at : option Z;
}.

(** [MarketStateLayoutV3] of raydium_sdk.rs. *)
Record MarketStateLayoutV3 := {
  ms_padding : list Z;
  ms_own_address : Pubkey;
  ms_vault_signer_nonce : Z;
  ms_base_mint : Pubkey;
  ms_quote_mint : Pubkey;
  ms_base_vault : Pubkey;
  ms_base_deposits_total : Z;
  ms_base_fees_accrued : Z;
  ms_quote_vault : Pubkey;
  ms_quote_deposits_total : Z;
  ms_quote_fees_accrued : Z;
  ms_quote_dust_threshold : Z;
  ms_request_queue : Pubkey;
  ms_event_queue : Pubkey;
  ms_bids : Pubkey;
  ms_asks : Pubkey;
  ms_base_lot_size : Z;
  ms_quote_lot_size : Z;
  ms_fee_rate_bps : Z;
  ms_referrer_rebates_accrued : Z;
  ms_padding_end : list Z;
}.

(** The keys of the market, put in place of the pool's id. *)
Definition add_market_state_layout (market_info : MarketStateLayoutV3)
    (self : SolanaSwapActionPayload) : SolanaSwapActionPayload :=
  let k := self.(keys) in
  {| keys := {|
       lk_id := k.(lk_id);
       lk_base_mint := k.(lk_base_mint);
       lk_quote_mint := k.(lk_quote_mint);
       lk_lp_mint := k.(lk_lp_mint);
       lk_base_decimals := k.(lk_base_decimals);
       lk_quote_decimals := k.(lk_quote_decimals);
       lk_lp_decimals := k.(lk_lp_decimals);
       lk_version := k.(lk_version);
       lk_program_id := k.(lk_program_id);
       lk_authority := k.(lk_authority);
       lk_open_orders := k.(lk_open_orders);
       lk_target_orders := k.(lk_target_orders);
       lk_base_vault := k.(lk_base_vault);
       lk_quote_vault := k.(lk_quote_vault);
       lk_withdraw_queue := k.(lk_withdraw_queue);
       lk_lp_vault := k.(lk_lp_vault);
       lk_market_version := k.(lk_market_version);
       lk_market_program_id := k.(lk_market_program_id);
       lk_market_id := k.(lk_market_id);
       lk_market_authority := k.(lk_market_authority);
       lk_market_base_vault := market_info.(ms_base_vault);
       lk_market_quote_vault := market_info.(ms_quote_vault);
       lk_market_bids := market_info.(ms_bids);
       lk_market_asks := market_info.(ms_asks);
       lk_market_event_queue := market_info.(ms_event_queue) |};
     swap_method := self.(swap_method);
     amount_in := self.(amount_in);
     min_amount_out := self.(min_amount_out) |}.

(** [SolanaSwapActionPayload::new]. *)
Definition new_swap_payload (pool : RaydiumPool) (swap_method : SwapMethod)
    (amount_in : Amount) : SolanaSwapActionPayload :=
  {| keys := to_liquidity_keys pool; swap_method := swap_method;
     amount_in := amount_in; min_amount_out := 0 |}.

Definition new_with_feepayer (id : Uuid) (now : Z) (sniper fee_payer : KeypairClonable)
    (action_payload : list SolanaActionPayload) : SolanaAction := {|
  uuid := id;
  sniper := sniper;
  fee_payer := fee_payer;
  created_at := now;
  action_payload := action_payload;
  status := NotSent;
  tx_hash := default_signature;
  balance_before := None;
  balance_after := None;
  fee := 0;
  sent_at := None;
  confirmed_at := None;
|}.

(** [SolanaAction::new]: the sniper pays the fees. *)
Definition new_action (id : Uuid) (now : Z) (sniper : KeypairClonable)
    (action_payload : list SolanaActionPayload) : SolanaAction :=
  new_with_feepayer id now sniper sniper action_payload.

(** [num_seconds] truncates toward zero. *)
Definition is_expired (now : Z) (self : SolanaAction) : bool :=
  ACTION_EXPIRY_S <? Z.quot (now - self.(created_at)) 1000.

Definition sent (now : Z) (self : SolanaAction) (balance : Balance) (signature : Signature)
    (fee_ : Z) : SolanaAction := {|
  uuid := self.(uuid);
  sniper := self.(sniper);
  fee_payer := self.(fee_payer);
  created_at := self.(created_at);
  action_payload := self.(action_payload);
  status := Pending;
  tx_hash := signature;
  balance_before := Some balance;
  balance_after := None;
  fee := fee_;
  sent_at := Some now;
  confirmed_at := None;
|}.

(** ** Events ([types/events/events.rs], [strategies/events.rs]) *)
Inductive ExecutionError :=
| ActionTooOld
| NoInstructionsGenerated
| SeveralTokensInOneTx
| ZeroSolBalance
| NotEnoughSolBalance (required balance : Z)
| NotEnoughTokenBalance (required balance : Z)
| UnsupportedPool (base quote : string)
| SimulationFailed (msg : string)
| OtherError (msg : string).

#[export] Instance ExecutionError_eq_dec : EqDecision ExecutionError.
Proof. solve_decision. Defined.

Inductive ExecutionResult :=
| Sent
| ExecutionFailed (e : ExecutionError).

#[export] Instance ExecutionResult_eq_dec : EqDecision ExecutionResult.
Proof. solve_decision. Defined.

Record ExecutionReceipt := {
  action_uuid : Uuid;
  transaction_signature : Signature;
  err : option TransactionError;
  status_changed_at : Z;
}.

Inductive BlockchainEvent :=
| AccountUpdate (acc : AccountPretty)
| Deposit (signature : string) (acc : Pubkey) (amount : Z)
| Withdrawal (signature : string) (acc : Pubkey) (amount : Z)
| ExecutionReceiptEvent (receipt : ExecutionReceipt)
| RaydiumHeartbeatPriceUpdate (price : RaydiumPoolPriceUpdate)
| RaydiumSwap (swap : RaydiumSwapEvent)
| RaydiumNewPoolEvent (pool : RaydiumPool) (price : RaydiumPoolPriceUpdate)
| PumpFunCurveUpdate (swap : RaydiumSwapEvent)
| PumpFunSwapDetails (swap : RaydiumSwapEvent)
| LiquidityRemoved
| PumpFunTokenDeployedTo
| RaydiumLiquidityTokensBurnedOn.

(** The payloads of the derived events are those of [Aggregators]; strategies
    never look inside. *)
Inductive DerivedEvent :=
| TickIndicatorEvent (pool : Pubkey)
| TickBarEvent (pool : Pubkey).

Inductive SystemEvent :=
| DestroyStrategy (id : StrategyId)
| Stop.

(** The address of an [Arc<Mutex<SolanaAction>>]. *)
Abbreviation ActionRef := Z (only parsing).

Inductive BotEvent :=
| HeartBeat (tick_size_ms : Z)
| Blockchain (e : BlockchainEvent)
| Derived (e : DerivedEvent)
| ExecutionResultEvent (action_uuid : Uuid) (action : ActionRef) (result : ExecutionResult)
| System (e : SystemEvent).

Inductive AgentEvent :=
| Buy (amt : Amount)
| Sell (amt : Amount)
| Transfer (batch : list SolanaTransferActionPayload)
| Collect
| Deactivate.

Inductive SolanaStrategyEvent :=
| Original (e : BotEvent)
| ForAgent (e : AgentEvent).
