(* ===== verification/Cache.v ===== *)
(** * The operational cache and the shared world

    [config/cache.rs]: the bounded buffers that relate actions, transaction
    signatures and uuids, the monitored accounts and the fee statistics.  Every
    method holds one lock for its whole body, so each is one atomic step.

    The [World] is what the tasks of the bot share: the cache, the heap of
    [Arc<Mutex<SolanaAction>>] cells, the clock and the supply of uuids.  The
    code outside [src/] that the model needs is the class [Ext]. *)

From S2P Require Import Prelude MachineInt Float64 Buffers FeeMetrics Types.

(** ** Code outside the repository *)

(** Does [s] contain [sub]? ([str::contains]) *)
Fixpoint str_contains (sub s : string) : bool :=
  String.prefix sub s ||
  match s with
  | EmptyString => false
  | String _ s' => str_contains sub s'
  end.

(** [spl_associated_token_account], [Uuid::new_v4] and [Keypair::new] (the
    [n]-th draw), the proportions [rand_distr] draws, [Signature]'s text, the
    answers of the RPC node to the [n]-th query, whether the [n]-th database
    call succeeds, and the [Debug] rendering of the values the code formats. *)
Class Ext := {
  db_available : Z -> bool;
  privkey_string : KeypairClonable -> string;
  pubkey_string : Pubkey -> string;
  ata : Pubkey -> Pubkey -> Pubkey;
  uuid_v4 : Z -> Uuid;
  new_keypair : Z -> KeypairClonable;
  dirichlet_sample : Z -> nat -> list f64;
  keypair_of_privkey : string -> option KeypairClonable;
  sig_to_string : Signature -> string;
  rpc_get_account : Z -> Pubkey -> result string AccountPretty;
  debug_execution_error : ExecutionError -> string;
  debug_receipt_error : Pubkey -> TransactionError -> string;
}.

(** ** [OperationalCache] *)
Module OperationalCache.
Record t := mk {
  agent_tx_signatures : CircularBufferWithLookupByValue.t Uuid string;
  all_system_actions : CircularBuffer.t Uuid ActionRef;
  processed_signatures : CircularBufferWithLookupByValue.t Uuid string;
  optimal_fee : FeeMetrics.t;
  target_pools : gmap Pubkey RaydiumPool;
  target_pools_prices : gmap Pubkey RaydiumPoolPriceUpdate;
  accounts : gmap Pubkey (option AccountPretty);
}.

Definition new (target_pools : gmap Pubkey RaydiumPool)
    (target_pools_prices : gmap Pubkey RaydiumPoolPriceUpdate) : t := {|
  agent_tx_signatures := CircularBufferWithLookupByValue.new CACHED_TX_SIGNATURES_BUFFER_CAPACITY;
  all_system_actions := CircularBuffer.new CACHED_TX_SIGNATURES_BUFFER_CAPACITY;
  processed_signatures := CircularBufferWithLookupByValue.new CACHED_TX_SIGNATURES_BUFFER_CAPACITY;
  optimal_fee := FeeMetrics.new RT_FEE_ROLLING_AVERAGE_SIZE RT_FEE_PERCENTILE_CAPACITY;
  target_pools := target_pools;
  target_pools_prices := target_pools_prices;
  accounts := ∅;
|}.

Definition set_agent_tx_signatures v (c : t) : t :=
  mk v c.(all_system_actions) c.(processed_signatures) c.(optimal_fee) c.(target_pools)
    c.(target_pools_prices) c.(accounts).
Definition set_all_system_actions v (c : t) : t :=
  mk c.(agent_tx_signatures) v c.(processed_signatures) c.(optimal_fee) c.(target_pools)
    c.(target_pools_prices) c.(accounts).
Definition set_processed_signatures v (c : t) : t :=
  mk c.(agent_tx_signatures) c.(all_system_actions) v c.(optimal_fee) c.(target_pools)
    c.(target_pools_prices) c.(accounts).
Definition set_optimal_fee v (c : t) : t :=
  mk c.(agent_tx_signatures) c.(all_system_actions) c.(processed_signatures) v c.(target_pools)
    c.(target_pools_prices) c.(accounts).
Definition set_target_pools v (c : t) : t :=
  mk c.(agent_tx_signatures) c.(all_system_actions) c.(processed_signatures) c.(optimal_fee) v
    c.(target_pools_prices) c.(accounts).
Definition set_target_pools_prices v (c : t) : t :=
  mk c.(agent_tx_signatures) c.(all_system_actions) c.(processed_signatures) c.(optimal_fee)
    c.(target_pools) v c.(accounts).
Definition set_accounts v (c : t) : t :=
  mk c.(agent_tx_signatures) c.(all_system_actions) c.(processed_signatures) c.(optimal_fee)
    c.(target_pools) c.(target_pools_prices) v.

(** [cell] is the [Arc<Mutex<_>>] the action was moved into. *)
Definition register_action (id : Uuid) (cell : ActionRef) (c : t) : t :=
  set_all_system_actions (CircularBuffer.insert id cell c.(all_system_actions)) c.

Definition get_action_by_uuid (id : Uuid) (c : t) : option ActionRef :=
  CircularBuffer.get_by_key id c.(all_system_actions).

Definition add_agent_tx (id : Uuid) (signature : string) (c : t) : t :=
  set_agent_tx_signatures
    (CircularBufferWithLookupByValue.insert id signature c.(agent_tx_signatures)) c.

Definition get_uuid_by_signature (signature : string) (c : t) : option Uuid :=
  CircularBufferWithLookupByValue.get_by_value signature c.(agent_tx_signatures).

Definition get_signature_by_uuid (id : Uuid) (c : t) : option string :=
  CircularBufferWithLookupByValue.get_by_key id c.(agent_tx_signatures).

Definition pop_front (c : t) : option (Uuid * string) * t :=
  let '(r, b) := CircularBufferWithLookupByValue.pop_front c.(agent_tx_signatures) in
  (r, set_agent_tx_signatures b c).

Definition if_agent_signature (signature : string) (c : t) : bool :=
  CircularBufferWithLookupByValue.contains_value signature c.(agent_tx_signatures).

(** The code keeps the signatures that [processed_signatures] contains. *)
Definition get_all_unprocessed_tx_signatures (c : t) : list string :=
  base.filter
    (fun signature =>
       CircularBufferWithLookupByValue.contains_value signature c.(processed_signatures) = true)
    (CircularBufferWithLookupByValue.get_all_values c.(agent_tx_signatures)).

Definition mark_signature_as_processed (id : Uuid) (signature : string) (c : t) : t :=
  set_processed_signatures
    (CircularBufferWithLookupByValue.insert id signature c.(processed_signatures)) c.

Definition is_signature_processed (signature : string) (c : t) : bool :=
  CircularBufferWithLookupByValue.contains_value signature c.(processed_signatures).

(** [None] when [add_fee] panics (only for a rolling average of size 0). *)
Definition update_optimal_fee (fee : Z) (c : t) : option t :=
  m ← FeeMetrics.add_fee fee c.(optimal_fee);
  Some (set_optimal_fee m c).

Definition get_optimal_fee (c : t) : Z :=
  default 0 (FeeMetrics.get_percentile RT_FEE_PERCENTILE c.(optimal_fee)).

Definition get_account (acc : Pubkey) (c : t) : option (option AccountPretty) :=
  c.(accounts) !! acc.

Definition get_accounts_count (c : t) : nat := size c.(accounts).

Definition get_accounts (c : t) : list Pubkey := (map_to_list c.(accounts)).*1.

Definition monitor_with_geyser (acc : Pubkey) (c : t) : t :=
  set_accounts (<[acc := None]> c.(accounts)) c.

Definition update_account (acc : Pubkey) (account : option AccountPretty) (c : t) : t :=
  set_accounts (<[acc := account]> c.(accounts)) c.

Definition drop_account_monitoring (acc : Pubkey) (c : t) : t :=
  set_accounts (delete acc c.(accounts)) c.
End OperationalCache.

(** ** The shared world *)

(** A row of the table [traders] ([types/bot_user.rs]). *)
Record Trader := {
  trader_id : Z;
  strategy_instance_id : option StrategyId;
  wallet : Pubkey;
  private_key : string;
  is_active : bool;
}.

(** [Trader::default()]; the default public key and text are never used. *)
Definition default_trader : Trader := {|
  trader_id := 0; strategy_instance_id := None; wallet := 0; private_key := "";
  is_active := false
|}.

Record World := mk_world {
  cache : OperationalCache.t;
  heap : gmap ActionRef SolanaAction;
  next_ref : ActionRef;
  now : Z;
  uuid_draws : Z;
  key_draws : Z;
  rpc_calls : Z;
  db_calls : Z;
  rng_draws : Z;
  traders : gmap Pubkey Trader;
  geyser_notifications : nat;
}.

Definition set_cache v (w : World) : World :=
  mk_world v w.(heap) w.(next_ref) w.(now) w.(uuid_draws) w.(key_draws)
    w.(rpc_calls) w.(db_calls) w.(rng_draws) w.(traders) w.(geyser_notifications).
Definition set_heap v (w : World) : World :=
  mk_world w.(cache) v w.(next_ref) w.(now) w.(uuid_draws) w.(key_draws)
    w.(rpc_calls) w.(db_calls) w.(rng_draws) w.(traders) w.(geyser_notifications).
Definition set_next_ref v (w : World) : World :=
  mk_world w.(cache) w.(heap) v w.(now) w.(uuid_draws) w.(key_draws)
    w.(rpc_calls) w.(db_calls) w.(rng_draws) w.(traders) w.(geyser_notifications).
Definition set_now v (w : World) : World :=
  mk_world w.(cache) w.(heap) w.(next_ref) v w.(uuid_draws) w.(key_draws)
    w.(rpc_calls) w.(db_calls) w.(rng_draws) w.(traders) w.(geyser_notifications).
Definition set_uuid_draws v (w : World) : World :=
  mk_world w.(cache) w.(heap) w.(next_ref) w.(now) v w.(key_draws)
    w.(rpc_calls) w.(db_calls) w.(rng_draws) w.(traders) w.(geyser_notifications).
Definition set_key_draws v (w : World) : World :=
  mk_world w.(cache) w.(heap) w.(next_ref) w.(now) w.(uuid_draws) v
    w.(rpc_calls) w.(db_calls) w.(rng_draws) w.(traders) w.(geyser_notifications).
Definition set_rpc_calls v (w : World) : World :=
  mk_world w.(cache) w.(heap) w.(next_ref) w.(now) w.(uuid_draws) w.(key_draws)
    v w.(db_calls) w.(rng_draws) w.(traders) w.(geyser_notifications).
Definition set_db_calls v (w : World) : World :=
  mk_world w.(cache) w.(heap) w.(next_ref) w.(now) w.(uuid_draws) w.(key_draws)
    w.(rpc_calls) v w.(rng_draws) w.(traders) w.(geyser_notifications).
Definition set_rng_draws v (w : World) : World :=
  mk_world w.(cache) w.(heap) w.(next_ref) w.(now) w.(uuid_draws) w.(key_draws)
    w.(rpc_calls) w.(db_calls) v w.(traders) w.(geyser_notifications).
Definition set_traders v (w : World) : World :=
  mk_world w.(cache) w.(heap) w.(next_ref) w.(now) w.(uuid_draws) w.(key_draws)
    w.(rpc_calls) w.(db_calls) w.(rng_draws) v w.(geyser_notifications).
Definition set_geyser_notifications v (w : World) : World :=
  mk_world w.(cache) w.(heap) w.(next_ref) w.(now) w.(uuid_draws) w.(key_draws)
    w.(rpc_calls) w.(db_calls) w.(rng_draws) w.(traders) v.

Section WorldOps.
Context `{Ext}.

Definition uuid_new_v4 : ST World Uuid := fun w =>
  (Some (uuid_v4 w.(uuid_draws)), set_uuid_draws (w.(uuid_draws) + 1) w).

Definition keypair_new : ST World KeypairClonable := fun w =>
  (Some (new_keypair w.(key_draws)), set_key_draws (w.(key_draws) + 1) w).

Definition rpc_account (acc : Pubkey) : ST World (result string AccountPretty) := fun w =>
  (Some (rpc_get_account w.(rpc_calls) acc), set_rpc_calls (w.(rpc_calls) + 1) w).

(** [db_pool.get().await.is_ok()]. *)
Definition db_get : ST World bool := fun w =>
  (Some (db_available w.(db_calls)), set_db_calls (w.(db_calls) + 1) w).

(** The proportions of one Dirichlet draw. *)
Definition draw_dirichlet (n : nat) : ST World (list f64) := fun w =>
  (Some (dirichlet_sample w.(rng_draws) n), set_rng_draws (w.(rng_draws) + 1) w).

(** [geyser_resubscribe_account_tx_notify.send(())]. *)
Definition notify_geyser : ST World unit :=
  st_modify (fun w => set_geyser_notifications (S w.(geyser_notifications)) w).

(** [tokio::time::sleep]. *)
Definition sleep_ms (ms : Z) : ST World unit := st_modify (fun w => set_now (w.(now) + ms) w).

Definition with_cache (f : OperationalCache.t -> OperationalCache.t) : ST World unit :=
  st_modify (fun w => set_cache (f w.(cache)) w).

(** [Arc::new(Mutex::new(action))]. *)
Definition alloc_action (a : SolanaAction) : ST World ActionRef := fun w =>
  (Some w.(next_ref), set_next_ref (w.(next_ref) + 1) (set_heap (<[w.(next_ref) := a]> w.(heap)) w)).

(** [context.cache.register_action(action)]. *)
Definition register (a : SolanaAction) : ST World ActionRef :=
  cell <- alloc_action a ;;
  with_cache (OperationalCache.register_action a.(uuid) cell) ;;;
  st_ret cell.
End WorldOps.
