(* ===== verification/GenericApi.v ===== *)
(** * Balances ([solana/generic_api.rs])

    Balances are read through the cache: an account seen on chain is cached, an
    account that does not exist is monitored (cached as [None]) and asked for
    again on the next query. *)

From S2P Require Import Prelude MachineInt Types Cache.

Inductive AccountError :=
| AccountNotFound
| AccountOther (msg : string).

#[export] Instance AccountError_eq_dec : EqDecision AccountError.
Proof. solve_decision. Defined.

(** The text test that tells a missing account from another error. *)
Definition is_not_found (msg : string) : bool :=
  str_contains "AccountNotFound" msg || str_contains "Account not found" msg.

Section Api.
Context `{Ext}.

Definition start_monitoring_account (acc : Pubkey) : ST World unit :=
  with_cache (OperationalCache.monitor_with_geyser acc) ;;; notify_geyser.

Definition start_monitoring_token_account (sniper token_mint : Pubkey) : ST World unit :=
  start_monitoring_account (ata sniper token_mint).

Definition stop_monitoring_account (acc : Pubkey) : ST World unit :=
  with_cache (OperationalCache.drop_account_monitoring acc) ;;; notify_geyser.

Definition stop_monitoring_token_account (sniper token_mint : Pubkey) : ST World unit :=
  stop_monitoring_account (ata sniper token_mint).

(** The RPC answer updates the cache: [update_from_rpc] and [query_ata]. *)
Definition update_from_rpc (acc : Pubkey) : ST World (result AccountError AccountPretty) :=
  r <- rpc_account acc ;;
  match r with
  | Ok a =>
      with_cache (OperationalCache.update_account acc (Some a)) ;;;
      st_ret (Ok a)
  | Err msg =>
      if is_not_found msg then
        start_monitoring_account acc ;;;
        st_ret (Err AccountNotFound)
      else st_ret (Err (AccountOther msg))
  end.

Definition get_balance (acc : Pubkey) : ST World (result AccountError Z) :=
  cached <- st_gets (fun w => OperationalCache.get_account acc w.(cache)) ;;
  match cached with
  | Some (Some a) => st_ret (Ok a.(acc_lamports))
  | Some None | None =>
      r <- update_from_rpc acc ;;
      st_ret (a <-? r ;; Ok a.(acc_lamports))
  end.

(** The amount of an account's token data, 0 when it did not unpack. *)
Definition token_amount (a : AccountPretty) : Z :=
  match a.(acc_token) with Some t => t.(ta_amount) | None => 0 end.

Definition get_token_balance (sniper token_mint : Pubkey) : ST World (result AccountError Z) :=
  cached <- st_gets (fun w => OperationalCache.get_account (ata sniper token_mint) w.(cache)) ;;
  match cached with
  | Some (Some a) => st_ret (Ok (token_amount a))
  | Some None | None =>
      r <- update_from_rpc (ata sniper token_mint) ;;
      st_ret (a <-? r ;; Ok (token_amount a))
  end.

(** Only the cache is asked. *)
Definition is_account_exist (acc : Pubkey) : ST World bool :=
  cached <- st_gets (fun w => OperationalCache.get_account acc w.(cache)) ;;
  st_ret (match cached with Some (Some _) => true | _ => false end).

(** ** Frame lemmas *)

(** The part of the world balance queries never touch. *)
Definition same_actions (w w' : World) : Prop :=
  w'.(heap) = w.(heap) /\ w'.(next_ref) = w.(next_ref) /\ w'.(now) = w.(now) /\
  w'.(uuid_draws) = w.(uuid_draws) /\ w'.(key_draws) = w.(key_draws) /\
  w'.(cache).(OperationalCache.all_system_actions)
  = w.(cache).(OperationalCache.all_system_actions).

#[global] Instance same_actions_preorder : PreOrder same_actions.
Proof.
  split; [by repeat split|]. unfold same_actions. intros x y z. intros. destruct_and!.
  split_and!; congruence.
Qed.

Lemma rpc_account_runs acc : runs same_actions (rpc_account acc).
Proof. intros w. eexists _, _. split; [reflexivity | by repeat split]. Qed.

Lemma start_monitoring_account_runs acc : runs same_actions (start_monitoring_account acc).
Proof. intros w. eexists _, _. split; [reflexivity | by repeat split]. Qed.

Lemma stop_monitoring_account_runs acc : runs same_actions (stop_monitoring_account acc).
Proof. intros w. eexists _, _. split; [reflexivity | by repeat split]. Qed.

#[local] Hint Resolve rpc_account_runs start_monitoring_account_runs : bot.

Lemma update_from_rpc_runs acc : runs same_actions (update_from_rpc acc).
Proof. unfold update_from_rpc, with_cache. runs_tac. Qed.

#[local] Hint Resolve update_from_rpc_runs : bot.

Lemma get_balance_runs acc : runs same_actions (get_balance acc).
Proof. unfold get_balance. runs_tac. Qed.

Lemma get_token_balance_runs owner mint : runs same_actions (get_token_balance owner mint).
Proof. unfold get_token_balance. runs_tac. Qed.
End Api.

#[export] Hint Resolve rpc_account_runs start_monitoring_account_runs
  stop_monitoring_account_runs update_from_rpc_runs get_balance_runs
  get_token_balance_runs : bot.

(** ** Properties *)

(** The cached answer for an account, after a query. *)
Definition cached_balance (acc : Pubkey) (w : World) : option Z :=
  match OperationalCache.get_account acc w.(cache) with
  | Some (Some a) => Some a.(acc_lamports)
  | _ => None
  end.

(** A balance query is answered from the cache when the account is cached,
    without a query to the node and without a change; otherwise the node is
    asked once: an account that exists is cached with the balance returned, an
    account that does not exist becomes monitored, and every other error leaves
    the cache as it was. *)
Theorem get_balance_spec `{Ext} (acc : Pubkey) (w : World) :
  match OperationalCache.get_account acc w.(cache) with
  | Some (Some a) => get_balance acc w = (Some (Ok a.(acc_lamports)), w)
  | _ =>
      exists r w', get_balance acc w = (Some r, w') /\
        w'.(rpc_calls) = w.(rpc_calls) + 1 /\
        match rpc_get_account w.(rpc_calls) acc with
        | Ok a => r = Ok a.(acc_lamports) /\ cached_balance acc w' = Some a.(acc_lamports)
        | Err msg =>
            (is_not_found msg = true -> r = Err AccountNotFound /\
             OperationalCache.get_account acc w'.(cache) = Some None) /\
            (is_not_found msg = false -> r = Err (AccountOther msg) /\ w'.(cache) = w.(cache))
        end
  end.
Proof.
  unfold get_balance, st_bind, st_gets, cached_balance.
  destruct (OperationalCache.get_account acc (cache w)) as [[a|]|] eqn:E; [reflexivity|..];
    unfold update_from_rpc, rpc_account, st_bind;
    destruct (rpc_get_account (rpc_calls w) acc) as [a|msg] eqn:Er; cbn;
    try (destruct (is_not_found msg) eqn:En; cbn);
    eexists _, _; (split; [reflexivity|]); cbn; (split; [reflexivity|]);
    unfold OperationalCache.get_account; cbn; rewrite ?lookup_insert_eq; done.
Qed.
