(* ===== verification/Samples.v ===== *)
(** * Concrete instances

    A concrete environment outside the program and concrete values of its
    types, on which the theorems are instantiated. *)

From S2P Require Import Prelude MachineInt Float64 Buffers FeeMetrics Types Cache.

(** Keys and uuids count up from two bases; every RPC answer is an account of
    one SOL without token data, except at addresses above one million. *)
Definition sample_ext : Ext := {|
  db_available := fun _ => true;
  privkey_string := fun _ => "key";
  pubkey_string := fun _ => "9xQeWvG816bUx9EPj";
  ata := fun owner mint => 1000000 + 1000 * owner + mint;
  uuid_v4 := fun n => 100 + n;
  new_keypair := fun n => 500 + n;
  dirichlet_sample := fun _ n => replicate n (f64_div (f64_of_Z 1) (f64_of_Z (Z.of_nat n)));
  keypair_of_privkey := fun _ => Some 7;
  sig_to_string := fun _ => "sig";
  rpc_get_account := fun _ acc =>
    if 1000000 <=? acc then Err "AccountNotFound"
    else Ok {| acc_pubkey := acc; acc_lamports := 1000000000; acc_token := None;
               acc_txn_signature := "" |};
  debug_execution_error := fun _ => "execution error";
  debug_receipt_error := fun _ e => e;
|}.

Definition sample_pool : RaydiumPool := {|
  pool_id := 40; base_mint := 41; quote_mint := 42; lp_mint := 43;
  base_decimals := 6; quote_decimals := 9; lp_decimals := 9; version := 4;
  program_id := 44; authority := 45; open_orders := 46; target_orders := 47;
  base_vault := 48; quote_vault := 49; withdraw_queue := 50; lp_vault := 51;
  market_version := 3; market_program_id := 52; market_id := 53; lp_reserve := 0;
  open_time := 0; reverse_pool := false; freeze_authority := None
|}.

(** An empty cache with small buffers. *)
Definition sample_cache : OperationalCache.t := {|
  OperationalCache.agent_tx_signatures := CircularBufferWithLookupByValue.new 4;
  OperationalCache.all_system_actions := CircularBuffer.new 4;
  OperationalCache.processed_signatures := CircularBufferWithLookupByValue.new 4;
  OperationalCache.optimal_fee := FeeMetrics.new 4 4;
  OperationalCache.target_pools := ∅;
  OperationalCache.target_pools_prices := ∅;
  OperationalCache.accounts := ∅;
|}.

Definition sample_world : World := {|
  cache := sample_cache; heap := ∅; next_ref := 1; now := 1000; uuid_draws := 0;
  key_draws := 0; rpc_calls := 0; db_calls := 0; rng_draws := 0; traders := ∅; geyser_notifications := 0%nat
|}.

Definition sample_trader : Trader := {|
  trader_id := 1; strategy_instance_id := Some 3; wallet := 7; private_key := "key";
  is_active := true
|}.
