(* ===== verification/Statig.v ===== *)
(** * State machines of the [statig] crate

    The agents and the strategies are [#[state_machine]] implementations.  The
    macro and the driver are a third-party crate: the driver is the parameter
    [handle] of the class [StatigDriver], of which the development uses the
    behaviour its documentation describes ([documented_handle]): the first event
    runs the entry action of the initial state; an event is dispatched to the
    current state's handler and, when that answers [Super], to its superstate's;
    a transition runs the exit action of the source, makes the target current
    and runs its entry action, for a transition to the same state too.  The
    [on_transition] hooks of the program only log. *)

From S2P Require Import Prelude.

Inductive Response (State : Type) : Type :=
| Handled
| Super
| Transition (target : State).
Arguments Handled {State}.
Arguments Super {State}.
Arguments Transition {State} target.

(** What the macro gets from an [impl] block: [Shared] is the object the
    methods run on, with the shared state of the process they reach. *)
Record Machine (Shared State Event : Type) := {
  initial : State;
  on_dispatch : State -> Event -> ST Shared unit;
  handler : State -> Event -> ST Shared (Response State);
  superstate : State -> option (Event -> ST Shared (Response State));
  entry_action : State -> ST Shared unit;
  exit_action : State -> ST Shared unit;
}.
Arguments initial {Shared State Event} _.
Arguments on_dispatch {Shared State Event} _ _ _.
Arguments handler {Shared State Event} _ _ _.
Arguments superstate {Shared State Event} _ _.
Arguments entry_action {Shared State Event} _ _.
Arguments exit_action {Shared State Event} _ _.

(** [StateMachine]: the current state, and whether the first event came. *)
Record Sm (State : Type) := sm {
  current : State;
  initialized : bool;
}.
Arguments sm {State} _ _.
Arguments current {State} _.
Arguments initialized {State} _.

(** [.state_machine()]. *)
Definition state_machine {Sh St Ev} (m : Machine Sh St Ev) : Sm St := sm m.(initial) false.

Section Documented.
Context {Sh St Ev : Type} (m : Machine Sh St Ev).

Definition on_shared {A} (f : ST Sh A) : ST (Sm St * Sh) A :=
  st_zoom snd (fun sh '(s, _) => (s, sh)) f.

Definition set_sm (s : Sm St) : ST (Sm St * Sh) unit := st_modify (fun '(_, sh) => (s, sh)).

Definition take_transition (source target : St) : ST (Sm St * Sh) unit :=
  on_shared (m.(exit_action) source) ;;;
  set_sm (sm target true) ;;;
  on_shared (m.(entry_action) target).

Definition init : ST (Sm St * Sh) unit :=
  s <- st_gets fst ;;
  if s.(initialized) then st_ret tt else
    on_shared (m.(entry_action) s.(current)) ;;;
    set_sm (sm s.(current) true).

Definition dispatch (e : Ev) : ST (Sm St * Sh) unit :=
  s <- st_gets (fun p => (fst p).(current)) ;;
  on_shared (m.(on_dispatch) s e) ;;;
  r <- on_shared (m.(handler) s e) ;;
  match r with
  | Handled => st_ret tt
  | Transition target => take_transition s target
  | Super =>
      match m.(superstate) s with
      | None => st_ret tt
      | Some h =>
          r' <- on_shared (h e) ;;
          match r' with
          | Transition target => take_transition s target
          | Handled | Super => st_ret tt
          end
      end
  end.

Definition documented_handle (e : Ev) : ST (Sm St * Sh) unit := init ;;; dispatch e.
End Documented.

Class StatigDriver := {
  handle : forall {Sh St Ev : Type}, Machine Sh St Ev -> Ev -> ST (Sm St * Sh) unit;
  handle_documented : forall {Sh St Ev : Type} (m : Machine Sh St Ev) e s,
    handle m e s = documented_handle m e s;
}.

(** The documented behaviour itself is a driver. *)
Definition documented_driver : StatigDriver :=
  {| handle := @documented_handle; handle_documented := fun _ _ _ _ _ _ => eq_refl |}.

(** ** Stepping lemmas *)
Section Stepping.
Context {Sh St Ev : Type} (m : Machine Sh St Ev).

Lemma dispatch_transition e s sh sh1 sh2 t :
  m.(on_dispatch) s e sh = (Some tt, sh1) ->
  m.(handler) s e sh1 = (Some (Transition t), sh2) ->
  dispatch m e (sm s true, sh) = take_transition m s t (sm s true, sh2).
Proof.
  intros Hd Hh. unfold dispatch, st_bind, st_gets, on_shared, st_zoom. cbn.
  rewrite Hd. cbn. rewrite Hh. reflexivity.
Qed.

Lemma dispatch_stay e s sh sh1 sh2 r :
  m.(on_dispatch) s e sh = (Some tt, sh1) ->
  m.(handler) s e sh1 = (Some r, sh2) ->
  r = Handled \/ (r = Super /\ m.(superstate) s = None) ->
  dispatch m e (sm s true, sh) = (Some tt, (sm s true, sh2)).
Proof.
  intros Hd Hh Hr. unfold dispatch, st_bind, st_gets, on_shared, st_zoom. cbn.
  rewrite Hd. cbn. rewrite Hh. destruct Hr as [-> | [-> Hs]]; cbn; [reflexivity|].
  now rewrite Hs.
Qed.

Lemma dispatch_panics e s sh sh1 sh2 :
  m.(on_dispatch) s e sh = (Some tt, sh1) ->
  m.(handler) s e sh1 = (None, sh2) ->
  dispatch m e (sm s true, sh) = (None, (sm s true, sh2)).
Proof.
  intros Hd Hh. unfold dispatch, st_bind, st_gets, on_shared, st_zoom. cbn.
  rewrite Hd. cbn. rewrite Hh. reflexivity.
Qed.

Lemma dispatch_handled_above e s sh sh1 sh2 sh3 h :
  m.(on_dispatch) s e sh = (Some tt, sh1) ->
  m.(handler) s e sh1 = (Some Super, sh2) ->
  m.(superstate) s = Some h -> h e sh2 = (Some Handled, sh3) ->
  dispatch m e (sm s true, sh) = (Some tt, (sm s true, sh3)).
Proof.
  intros Hd Hh Hs Hr. unfold dispatch, st_bind, st_gets, on_shared, st_zoom. cbn.
  rewrite Hd. cbn. rewrite Hh. cbn. rewrite Hs. cbn. rewrite Hr. reflexivity.
Qed.

Lemma take_transition_ok s t sh sh1 sh2 :
  m.(exit_action) s sh = (Some tt, sh1) -> m.(entry_action) t sh1 = (Some tt, sh2) ->
  take_transition m s t (sm s true, sh) = (Some tt, (sm t true, sh2)).
Proof.
  intros Hx He. unfold take_transition, st_bind, on_shared, st_zoom, set_sm, st_modify. cbn.
  rewrite Hx. cbn. rewrite He. reflexivity.
Qed.

(** The state after a dispatch is the one before it, or a target a handler
    asked for. *)
Lemma dispatch_target e s sh m' sh' :
  snd (dispatch m e (sm s true, sh)) = (m', sh') ->
  current m' = s \/
  exists t sh1 sh2, current m' = t /\ m.(on_dispatch) s e sh = (Some tt, sh1) /\
    (m.(handler) s e sh1 = (Some (Transition t), sh2) \/
     exists h sh3, m.(handler) s e sh1 = (Some Super, sh3) /\ m.(superstate) s = Some h /\
       h e sh3 = (Some (Transition t), sh2)).
Proof.
  unfold dispatch, take_transition, st_bind, st_ret, st_gets, set_sm, on_shared, st_zoom, st_modify. cbn.
  destruct (m.(on_dispatch) s e sh) as [[[]|] sh1]; [|by intros [= <- <-]; left]. cbn.
  destruct (m.(handler) s e sh1) as [[[| |t]|] sh2] eqn:Eh; cbn; try (by intros [= <- <-]; left).
  - destruct (m.(superstate) s) as [h|] eqn:Es; [|by intros [= <- <-]; left]. cbn.
    destruct (h e sh2) as [[[| |t]|] sh3] eqn:Eh'; cbn; try (by intros [= <- <-]; left).
    destruct (m.(exit_action) s sh3) as [[[]|] sh4]; cbn;
      [|by intros [= <- <-]; left].
    destruct (m.(entry_action) t sh4) as [o sh5]. cbn. intros [= <- <-]. right.
    exists t, sh1, sh3. split_and!; [done..|]. right. eauto.
  - unfold st_bind. cbn. destruct (m.(exit_action) s sh2) as [[[]|] sh4]; cbn;
      [|by intros [= <- <-]; left].
    destruct (m.(entry_action) t sh4) as [o sh5]. cbn. intros [= <- <-]. right.
    exists t, sh1, sh2. split_and!; [done..|]. by left.
Qed.

Lemma handle_initialized `{StatigDriver} e s sh :
  handle m e (sm s true, sh) = dispatch m e (sm s true, sh).
Proof. rewrite handle_documented. reflexivity. Qed.

(** The machine's state before dispatch of the first event. *)
Lemma handle_first `{StatigDriver} e s sh sh1 :
  m.(entry_action) s sh = (Some tt, sh1) ->
  handle m e (sm s false, sh) = dispatch m e (sm s true, sh1).
Proof.
  intros He. rewrite handle_documented.
  unfold documented_handle, init, st_bind, st_gets, on_shared, st_zoom, set_sm, st_modify. cbn.
  now rewrite He.
Qed.
End Stepping.
