(* ===== verification/VolumeAgent.v ===== *)
(** * Trading agents ([strategies/volume_strategy/agent/agent_state_machine.rs])

    An agent is one wallet: it executes one command at a time (transfer, buy,
    sell, collect, deactivate) by queueing an action and waiting for the
    action's receipt, with a bounded number of retries.  The main wallet of a
    strategy is an agent without a strategy id.

    A handler runs with the agent's mutex held, so an event is one step; [Env]
    is the agent with what it shares: the [World] and the queue of actions of
    its strategy. *)

From S2P Require Import Prelude MachineInt Buffers Types Cache GenericApi Statig.

Module Agent.

Record AgentState := mk {
  pool : RaydiumPool;
  trader : Trader;
  agent_key : KeypairClonable;
  main_wallet : option KeypairClonable;
  actions_in_progress : list Uuid;
  strategy_id_opt : option StrategyId;
  retry_timer : Stopwatch.t;
  timeout_timer : Stopwatch.t;
}.

Inductive State :=
| Idle
| Transferring (batch : list SolanaTransferActionPayload) (retry : Z)
| Collecting (retry : Z)
| Buying (amt : Amount) (retry : Z)
| Selling (amt : Amount) (retry : Z)
| Success
| Error (msg : string)
| Deactivating (retry : Z)
| Deactivated.

#[global] Instance State_eq_dec : EqDecision State.
Proof. solve_decision. Defined.

Record Env := env {
  self : AgentState;
  world : World;
  queue : list ActionRef;
}.

Definition set_actions_in_progress v (a : AgentState) : AgentState :=
  mk a.(pool) a.(trader) a.(agent_key) a.(main_wallet) v a.(strategy_id_opt) a.(retry_timer)
    a.(timeout_timer).
Definition set_timeout_timer v (a : AgentState) : AgentState :=
  mk a.(pool) a.(trader) a.(agent_key) a.(main_wallet) a.(actions_in_progress)
    a.(strategy_id_opt) a.(retry_timer) v.
Definition set_trader v (a : AgentState) : AgentState :=
  mk a.(pool) v a.(agent_key) a.(main_wallet) a.(actions_in_progress) a.(strategy_id_opt)
    a.(retry_timer) a.(timeout_timer).

Definition modify_self (f : AgentState -> AgentState) : ST Env unit :=
  st_modify (fun e => env (f e.(self)) e.(world) e.(queue)).

Definition on_world {A} (m : ST World A) : ST Env A :=
  st_zoom world (fun w e => env e.(self) w e.(queue)) m.

Definition pubkey_of (a : AgentState) : Pubkey := pubkey a.(agent_key).

Definition is_main_wallet (a : AgentState) : bool :=
  match a.(strategy_id_opt) with None => true | Some _ => false end.

Definition get_main_wallet (a : AgentState) : KeypairClonable :=
  default a.(agent_key) a.(main_wallet).

Definition get_main_wallet_pubkey (a : AgentState) : Pubkey :=
  pubkey (default a.(agent_key) a.(main_wallet)).

Definition get_token_mint (a : AgentState) : Pubkey := a.(pool).(base_mint).

Section Handlers.
Context `{Ext}.

(** [unwrap_or(0)] of a balance query. *)
Definition or_zero (r : result AccountError Z) : Z := match r with Ok n => n | Err _ => 0 end.

Definition get_sol_balance : ST Env Z :=
  e <- st_get ;;
  r <- on_world (get_balance (pubkey_of e.(self))) ;;
  st_ret (or_zero r).

Definition get_token_balance : ST Env Z :=
  e <- st_get ;;
  r <- on_world (GenericApi.get_token_balance (pubkey_of e.(self)) (get_token_mint e.(self))) ;;
  st_ret (or_zero r).

(** ** Construction and removal *)

(** The row of the agent's wallet, created active if there is none.  [None]:
    the database cannot be reached. *)
Definition db_read_or_create (strategy_id : StrategyId) (key : KeypairClonable)
    : ST World (option Trader) :=
  ok <- db_get ;;
  if negb ok then st_ret None else
  w <- st_get ;;
  match w.(traders) !! pubkey key with
  | Some row => st_ret (Some row)
  | None =>
      let row := {| trader_id := Z.of_nat (size w.(traders)) + 1;
                    strategy_instance_id := Some strategy_id;
                    wallet := pubkey key;
                    private_key := privkey_string key;
                    is_active := true |} in
      st_modify (set_traders (<[pubkey key := row]> w.(traders))) ;;;
      st_ret (Some row)
  end.

Definition deactivate_row (acc : Pubkey) (rows : gmap Pubkey Trader) : gmap Pubkey Trader :=
  alter (fun r => {| trader_id := r.(trader_id);
                     strategy_instance_id := r.(strategy_instance_id);
                     wallet := r.(wallet);
                     private_key := r.(private_key);
                     is_active := false |}) acc rows.

(** The main wallet is never dropped. *)
Definition drop (a : AgentState) : ST World unit :=
  if is_main_wallet a then st_ret tt else
  ok <- db_get ;;
  (if ok then st_modify (fun w => set_traders (deactivate_row (pubkey_of a) w.(traders)) w)
   else st_ret tt) ;;;
  stop_monitoring_account (pubkey_of a) ;;;
  stop_monitoring_token_account (pubkey_of a) a.(pool).(base_mint).

Definition fresh (now : Z) (pool : RaydiumPool) (trader : Trader) (agent_key : KeypairClonable)
    (main_wallet : option KeypairClonable) (strategy_id_opt : option StrategyId) : AgentState :=
  mk pool trader agent_key main_wallet [] strategy_id_opt
    (Stopwatch.new now TIMEOUT_FOR_ACTION_EXECUTION_HBS)
    (Stopwatch.new now TIMEOUT_FOR_ACTION_EXECUTION_HBS).

(** [None]: the agent could not be created. *)
Definition new (pool : RaydiumPool) (agent_key : KeypairClonable)
    (strategy_id_opt : option StrategyId) (main_wallet : option KeypairClonable)
    : ST World (option AgentState) :=
  get_balance (pubkey agent_key) ;;;
  GenericApi.get_token_balance (pubkey agent_key) pool.(base_mint) ;;;
  t <- st_gets now ;;
  let agent := fresh t pool default_trader agent_key main_wallet strategy_id_opt in
  match strategy_id_opt with
  | None => st_ret (Some agent)
  | Some strategy_id =>
      row_opt <- db_read_or_create strategy_id agent_key ;;
      match row_opt with
      | None => st_ret None
      | Some row =>
          let agent := set_trader row agent in
          match row.(is_active), row.(strategy_instance_id) with
          | true, Some s =>
              if s =? strategy_id then st_ret (Some agent) else
              st_ret (Some (set_trader {| trader_id := row.(trader_id);
                                          strategy_instance_id := Some strategy_id;
                                          wallet := row.(wallet);
                                          private_key := row.(private_key);
                                          is_active := row.(is_active) |} agent))
          | _, _ => drop agent ;;; st_ret None
          end
      end
  end.

Definition new_from_trader (pool : RaydiumPool) (trader : Trader)
    (main_wallet : option KeypairClonable) : ST World (option AgentState) :=
  match keypair_of_privkey trader.(private_key) with
  | None => st_ret None
  | Some agent_key =>
      t <- st_gets now ;;
      let agent := fresh t pool trader agent_key main_wallet trader.(strategy_instance_id) in
      get_balance (pubkey_of agent) ;;;
      GenericApi.get_token_balance (pubkey_of agent) pool.(base_mint) ;;;
      st_ret (Some agent)
  end.

(** ** Actions *)

Definition queue_action (action : SolanaAction) : ST Env unit :=
  e <- st_get ;;
  let t := e.(world).(now) in
  modify_self (fun a =>
    set_timeout_timer (Stopwatch.start t TIMEOUT_FOR_ACTION_EXECUTION_HBS a.(timeout_timer))
      (set_actions_in_progress (a.(actions_in_progress) ++ [action.(uuid)]) a)) ;;;
  cell <- on_world (register action) ;;
  st_modify (fun e => env e.(self) e.(world) (e.(queue) ++ [cell])).

(** [SolanaAction::new_with_feepayer(..)] draws the uuid and reads the clock. *)
Definition new_action_here (sniper fee_payer : KeypairClonable)
    (payload : list SolanaActionPayload) : ST Env SolanaAction :=
  id <- on_world uuid_new_v4 ;;
  t <- on_world (st_gets now) ;;
  st_ret (new_with_feepayer id t sniper fee_payer payload).

Definition DELAY_BETWEEN_SIMULATION_RETRIES_MS : Z := 100.

Definition sleep_if_retry (retry : Z) : ST Env unit :=
  if 0 <? retry then on_world (sleep_ms DELAY_BETWEEN_SIMULATION_RETRIES_MS) else st_ret tt.

Definition is_close_sol (x : SolanaTransferActionPayload) : bool :=
  bool_decide (x.(amount) = MaxAndClose) && bool_decide (x.(asset) = Sol).

Definition transfer (batch : list SolanaTransferActionPayload) : ST Env unit :=
  e <- st_get ;;
  let fee_payer :=
    if existsb is_close_sol batch then get_main_wallet e.(self) else e.(self).(agent_key) in
  action <- new_action_here e.(self).(agent_key) fee_payer (TransferPayload <$> batch) ;;
  queue_action action.

(** The amount asked for is ignored: everything but the reserve is spent. *)
Definition buy_for_all (retry : Z) : ST Env unit :=
  sleep_if_retry retry ;;;
  e <- st_get ;;
  action <- new_action_here e.(self).(agent_key) e.(self).(agent_key)
    [SwapPayload (new_swap_payload e.(self).(pool) BuyTokensForExactSol MaxButLeaveForTransfer)] ;;
  queue_action action.

Definition sell (amt : Amount) (retry : Z) : ST Env unit :=
  sleep_if_retry retry ;;;
  e <- st_get ;;
  action <- new_action_here e.(self).(agent_key) e.(self).(agent_key)
    [SwapPayload (new_swap_payload e.(self).(pool) SellExactTokensForSol amt)] ;;
  queue_action action.

Definition collect (retry : Z) : ST Env unit :=
  sleep_if_retry retry ;;;
  token_balance <- get_token_balance ;;
  e <- st_get ;;
  token_transfers <-
    (if 0 <? token_balance then
       main <- st_unwrap e.(self).(main_wallet) ;;
       st_ret [TransferPayload {| asset := Token e.(self).(pool).(base_mint);
                                  receiver := pubkey main; amount := MaxAndClose |}]
     else st_ret []) ;;
  main <- st_unwrap e.(self).(main_wallet) ;;
  action <- new_action_here e.(self).(agent_key) main
    (token_transfers ++
     [TransferPayload {| asset := Sol; receiver := pubkey main; amount := Max |}]) ;;
  queue_action action.

(** ** Events *)

Definition retain_not (id : Uuid) (l : list Uuid) : list Uuid := base.filter (fun x => x <> id) l.

Inductive ReceiptOutcome :=
| ReceiptOk
| ReceiptNotMine
| ReceiptFailed (msg : string).

Definition process_execution_receipt (receipt : ExecutionReceipt) : ST Env ReceiptOutcome :=
  e <- st_get ;;
  if bool_decide (receipt.(action_uuid) ∈ e.(self).(actions_in_progress)) then
    modify_self (fun a =>
      set_actions_in_progress (retain_not receipt.(action_uuid) a.(actions_in_progress)) a) ;;;
    match receipt.(err) with
    | Some error =>
        modify_self (fun a => set_timeout_timer (Stopwatch.turn_off a.(timeout_timer)) a) ;;;
        st_ret (ReceiptFailed (debug_receipt_error (pubkey_of e.(self)) error))
    | None => st_ret ReceiptOk
    end
  else st_ret ReceiptNotMine.

Definition is_cooled_down_before_retry (tick_ms : Z) : ST Env bool :=
  e <- st_get ;;
  elapsed <- st_unwrap
    (Stopwatch.is_time_elapsed e.(world).(now) tick_ms e.(self).(timeout_timer)) ;;
  if elapsed then
    modify_self (fun a => set_timeout_timer (Stopwatch.turn_off a.(timeout_timer)) a) ;;;
    st_ret true
  else st_ret false.

Definition retry_or_error (retry : Z) (retry_action : State) (msg : string) : Response State :=
  if retry <=? RETRIES_IF_ERROR_OR_TIMEOUT then Transition retry_action
  else Transition (Error msg).

Definition transition_to_success_or_error (event : SolanaStrategyEvent) (retry_action : State)
    (retry : Z) : ST Env (Response State) :=
  match event with
  | ForAgent Deactivate =>
      e <- st_get ;;
      if get_main_wallet_pubkey e.(self) =? pubkey_of e.(self) then
        st_ret (Transition (Error "Attempt to deactivate main wallet"))
      else st_ret (Transition (Deactivating 0))
  | Original (ExecutionResultEvent id _ res) =>
      e <- st_get ;;
      if bool_decide (id ∈ e.(self).(actions_in_progress)) then
        modify_self (fun a =>
          set_actions_in_progress (retain_not id a.(actions_in_progress)) a) ;;;
        match res with
        | ExecutionFailed x =>
            st_ret (retry_or_error retry retry_action
                      ("Error executing action: " +:+ debug_execution_error x))
        | Sent => st_ret Super
        end
      else st_ret Super
  | Original (Blockchain (ExecutionReceiptEvent receipt)) =>
      outcome <- process_execution_receipt receipt ;;
      match outcome with
      | ReceiptOk => st_ret (Transition Success)
      | ReceiptNotMine => st_ret Super
      | ReceiptFailed x =>
          st_ret (retry_or_error retry retry_action
                    ("Error processing execution receipt: " +:+ x))
      end
  | Original (HeartBeat tick_ms) =>
      cooled <- is_cooled_down_before_retry tick_ms ;;
      if cooled then st_ret (retry_or_error retry retry_action "Transfer action timeout")
      else st_ret Super
  | _ => st_ret Super
  end.

(** [idle] and [success] have the same body. *)
Definition idle (event : SolanaStrategyEvent) : ST Env (Response State) :=
  e <- st_get ;;
  st_ret
    match event with
    | ForAgent Deactivate =>
        if is_main_wallet e.(self) then Handled else Transition Deactivated
    | ForAgent (Transfer batch) => Transition (Transferring batch 0)
    | ForAgent Collect => Transition (Collecting 0)
    | ForAgent (Buy amt) => Transition (Buying amt 0)
    | ForAgent (Sell amt) => Transition (Selling amt 0)
    | _ => Super
    end.

Definition success (event : SolanaStrategyEvent) : ST Env (Response State) := idle event.

Definition error (msg : string) (event : SolanaStrategyEvent) : ST Env (Response State) :=
  e <- st_get ;;
  st_ret (if is_main_wallet e.(self) then Transition Idle else Transition (Deactivating 0)).

Definition deactivating (retry : Z) (event : SolanaStrategyEvent) : ST Env (Response State) :=
  match event with
  | Original (Blockchain (ExecutionReceiptEvent receipt)) =>
      outcome <- process_execution_receipt receipt ;;
      match outcome with
      | ReceiptOk => st_ret (Transition Deactivated)
      | ReceiptNotMine => st_ret Super
      | ReceiptFailed x =>
          st_ret (retry_or_error retry (Deactivating (retry + 1))
                    ("Error processing execution receipt: " +:+ x))
      end
  | Original (HeartBeat tick_ms) =>
      cooled <- is_cooled_down_before_retry tick_ms ;;
      if cooled then
        st_ret (if retry <=? RETRIES_IF_ERROR_OR_TIMEOUT then Transition (Deactivating (retry + 1))
                else Transition Deactivated)
      else st_ret Super
  | _ => st_ret Super
  end.

Definition deactivated (event : SolanaStrategyEvent) : ST Env (Response State) := st_ret Handled.

Definition drop_action : ST Env unit :=
  e <- st_get ;;
  on_world (drop e.(self)).

Definition agent_handler (s : State) (event : SolanaStrategyEvent) : ST Env (Response State) :=
  match s with
  | Idle => idle event
  | Transferring batch retry =>
      transition_to_success_or_error event (Transferring batch (retry + 1)) retry
  | Collecting retry => transition_to_success_or_error event (Collecting (retry + 1)) retry
  | Buying amt retry => transition_to_success_or_error event (Buying amt (retry + 1)) retry
  | Selling amt retry => transition_to_success_or_error event (Selling amt (retry + 1)) retry
  | Success => success event
  | Error msg => error msg event
  | Deactivating retry => deactivating retry event
  | Deactivated => deactivated event
  end.

Definition agent_entry (s : State) : ST Env unit :=
  match s with
  | Transferring batch _ => transfer batch
  | Collecting retry | Deactivating retry => collect retry
  | Buying _ retry => buy_for_all retry
  | Selling amt retry => sell amt retry
  | Deactivated => drop_action
  | Idle | Success | Error _ => st_ret tt
  end.

Definition agent_machine : Machine Env State SolanaStrategyEvent := {|
  initial := Idle;
  on_dispatch := fun _ _ => st_ret tt;
  handler := agent_handler;
  superstate := fun _ => None;
  entry_action := agent_entry;
  exit_action := fun _ => st_ret tt;
|}.

Definition handle_event `{StatigDriver} (event : SolanaStrategyEvent) : ST (Sm State * Env) unit :=
  handle agent_machine event.
End Handlers.
End Agent.
