(* ===== verification/VolumeAgentFacts.v ===== *)
(** * What an agent does with an event

    The properties of [VolumeAgent]: attempts and retries are counted and
    bounded, a command ends, an agent succeeds only on a receipt of its own, it
    spends only its own wallet; and the events it loses. *)

From S2P Require Import Prelude MachineInt Buffers Types Cache GenericApi Samples Statig VolumeAgent.
Import Agent.

(** ** One event *)

Section Facts.
Context `{Ext} `{StatigDriver}.

(** A handler and, on a transition, the target's entry action. *)
Definition step_result (s : State) (ev : SolanaStrategyEvent) (e : Env)
    : option unit * (Sm State * Env) :=
  match agent_handler s ev e with
  | (Some (Transition t), e1) =>
      let '(r, e2) := agent_entry t e1 in (r, (sm t true, e2))
  | (Some _, e1) => (Some tt, (sm s true, e1))
  | (None, e1) => (None, (sm s true, e1))
  end.

Lemma handle_event_step s ev e :
  handle_event ev (sm s true, e) = step_result s ev e.
Proof.
  unfold handle_event. rewrite handle_initialized.
  unfold dispatch, step_result, st_bind, st_gets, on_shared, st_zoom, take_transition. cbn.
  destruct (agent_handler s ev e) as [[[| |t]|] e1]; cbn; try reflexivity.

Qed.

(** The initial state is idle and has no entry action. *)
Lemma handle_event_first ev e : handle_event ev (sm Idle false, e) = step_result Idle ev e.
Proof.
  rewrite <- handle_event_step. unfold handle_event.
  rewrite (handle_first agent_machine ev Idle e e) by reflexivity.
  now rewrite handle_initialized.
Qed.

(** [e'] is [e] after one action was registered and queued: the timeout runs
    and the agent waits for the action's receipt. *)
Record attempted (e e' : Env) (a : SolanaAction) : Prop := {
  at_self : self e' = set_timeout_timer
      (Stopwatch.new (now (world e')) TIMEOUT_FOR_ACTION_EXECUTION_HBS)
      (set_actions_in_progress (actions_in_progress (self e) ++ [uuid a]) (self e));
  at_queue : queue e' = queue e ++ [next_ref (world e)];
  at_heap : heap (world e') = <[next_ref (world e) := a]> (heap (world e));
  at_ref : next_ref (world e') = next_ref (world e) + 1;
  at_clock : now (world e) <= now (world e');
  at_uuid : uuid a = uuid_v4 (uuid_draws (world e));
  at_draws : uuid_draws (world e') = uuid_draws (world e) + 1;
  at_sniper : sniper a = agent_key (self e);
  at_status : status a = NotSent;
}.

(** The commands, with their retry count and their retry state. *)
Definition command (s : State) : option (Z * State) :=
  match s with
  | Transferring batch r => Some (r, Transferring batch (r + 1))
  | Collecting r => Some (r, Collecting (r + 1))
  | Buying amt r => Some (r, Buying amt (r + 1))
  | Selling amt r => Some (r, Selling amt (r + 1))
  | _ => None
  end.

(** What a state's entry action asks for, [mint] being the agent's token and
    [main] its main wallet; a collecting agent sends its tokens only when it
    has some. *)
Definition asks_for (s : State) (a : AgentState) (pl : list SolanaActionPayload) : Prop :=
  match s with
  | Transferring batch _ => pl = TransferPayload <$> batch
  | Buying _ _ =>
      pl = [SwapPayload (new_swap_payload (pool a) BuyTokensForExactSol MaxButLeaveForTransfer)]
  | Selling amt _ => pl = [SwapPayload (new_swap_payload (pool a) SellExactTokensForSol amt)]
  | Collecting _ | Deactivating _ =>
      exists main token_part, main_wallet a = Some main /\
        pl = token_part ++ [TransferPayload {| asset := Sol; receiver := pubkey main; amount := Max |}] /\
        (token_part = [] \/
         token_part = [TransferPayload {| asset := Token (base_mint (pool a));
                                          receiver := pubkey main; amount := MaxAndClose |}])
  | _ => False
  end.

(** The fee payer is the agent, or the main wallet when the agent is emptied. *)
Definition pays (s : State) (a : AgentState) (payer : KeypairClonable) : Prop :=
  match s with
  | Transferring batch _ =>
      payer = if existsb is_close_sol batch then get_main_wallet a else agent_key a
  | Collecting _ | Deactivating _ => main_wallet a = Some payer
  | _ => payer = agent_key a
  end.

Definition collects (s : State) : bool :=
  match s with Collecting _ | Deactivating _ => true | _ => false end.

Definition spends (s : State) : bool :=
  match s with
  | Transferring _ _ | Collecting _ | Buying _ _ | Selling _ _ | Deactivating _ => true
  | _ => false
  end.

(** The environments an action starts from differ by a delay and by what
    balance queries do. *)
Definition reads (e e' : Env) : Prop :=
  self e' = self e /\ queue e' = queue e /\
  heap (world e') = heap (world e) /\ next_ref (world e') = next_ref (world e) /\
  uuid_draws (world e') = uuid_draws (world e) /\ now (world e) <= now (world e').

#[export] Instance reads_preorder : PreOrder reads.
Proof.
  split; [by repeat split|]. unfold reads. intros x y z H1 H2. destruct_and!.
  split_and!; try congruence. lia.
Qed.

Lemma sleep_if_retry_runs r : runs reads (sleep_if_retry r).
Proof.
  unfold sleep_if_retry. destruct (0 <? r); [|apply runs_ret, _].
  intros e. eexists _, _. split; [reflexivity|]. repeat split; cbn; try done.
  unfold DELAY_BETWEEN_SIMULATION_RETRIES_MS. lia.
Qed.

Lemma on_world_runs {A} (m : ST World A) : runs same_actions m -> runs reads (on_world m).
Proof.
  intros Hm e. destruct (Hm (world e)) as (a & w' & E & Hs).
  exists a, (env (self e) w' (queue e)). unfold on_world, st_zoom. rewrite E.
  split; [reflexivity|]. unfold same_actions in Hs. destruct_and!.
  repeat split; cbn; try congruence. lia.
Qed.

Lemma get_token_balance_reads : runs reads get_token_balance.
Proof.
  intros e. unfold get_token_balance, st_bind at 1, st_get. cbn [fst snd].
  destruct (on_world_runs _ (get_token_balance_runs (pubkey_of (self e)) (get_token_mint (self e))) e)
    as (r & e' & E & Hr).
  exists (or_zero r), e'. unfold st_bind. rewrite E. split; [reflexivity | done].
Qed.

Lemma get_sol_balance_reads : runs reads get_sol_balance.
Proof.
  intros e. unfold get_sol_balance, st_bind at 1, st_get. cbn [fst snd].
  destruct (on_world_runs _ (get_balance_runs (pubkey_of (self e))) e) as (r & e' & E & Hr).
  exists (or_zero r), e'. unfold st_bind. rewrite E. split; [reflexivity | done].
Qed.

(** Registering and queueing after some reads. *)
Lemma attempt_after_reads e e0 payer pl :
  reads e e0 ->
  exists e' a,
    (st_bind (new_action_here (agent_key (self e0)) payer pl) queue_action) e0 = (Some tt, e') /\
    attempted e e' a /\ action_payload a = pl /\ fee_payer a = payer.
Proof.
  destruct e0 as [s0 w0 q0]. intros (Hself & Hq & Hh & Hr & Hd & Hn). cbn in *.
  eexists _, (new_with_feepayer (uuid_v4 (uuid_draws w0)) (now w0) (agent_key s0) payer pl).
  split; [cbv [new_action_here queue_action modify_self on_world st_zoom register alloc_action
               with_cache uuid_new_v4 st_bind st_get st_gets st_modify st_ret self world queue];
          reflexivity|].
  split; [|split; reflexivity].
  constructor; cbn; try congruence. by rewrite Hself.
Qed.

Lemma buy_attempt r e :
  exists e' a, buy_for_all r e = (Some tt, e') /\ attempted e e' a /\
    action_payload a = [SwapPayload (new_swap_payload (pool (self e)) BuyTokensForExactSol
                                       MaxButLeaveForTransfer)] /\
    fee_payer a = agent_key (self e).
Proof.
  unfold buy_for_all.
  destruct (sleep_if_retry_runs r e) as (u & e0 & E0 & Hr). rewrite (st_bind_Some _ _ _ _ _ E0).
  pose proof Hr as (Hself & _). rewrite <- Hself. apply attempt_after_reads. exact Hr.
Qed.

Lemma sell_attempt amt r e :
  exists e' a, sell amt r e = (Some tt, e') /\ attempted e e' a /\
    action_payload a = [SwapPayload (new_swap_payload (pool (self e)) SellExactTokensForSol amt)] /\
    fee_payer a = agent_key (self e).
Proof.
  unfold sell.
  destruct (sleep_if_retry_runs r e) as (u & e0 & E0 & Hr). rewrite (st_bind_Some _ _ _ _ _ E0).
  pose proof Hr as (Hself & _). rewrite <- Hself. apply attempt_after_reads. exact Hr.
Qed.

(** The reads of [collect]: the delay and the token balance. *)
Lemma collect_reads r e :
  exists b e0, reads e e0 /\
    forall A (k : Z -> ST Env A),
      st_bind (sleep_if_retry r) (fun _ => st_bind get_token_balance k) e = k b e0.
Proof.
  destruct (sleep_if_retry_runs r e) as (u & e0 & E0 & Hr).
  destruct (get_token_balance_reads e0) as (b & e1 & E1 & Hr').
  exists b, e1. split; [by etransitivity|]. intros A k.
  now rewrite (st_bind_Some _ _ _ _ _ E0), (st_bind_Some _ _ _ _ _ E1).
Qed.

Lemma collect_attempt r e main :
  main_wallet (self e) = Some main ->
  exists e' a, collect r e = (Some tt, e') /\ attempted e e' a /\
    asks_for (Collecting r) (self e) (action_payload a) /\ fee_payer a = main.
Proof.
  intros Hmain. unfold collect. destruct (collect_reads r e) as (b & e0 & Hr & Ek). rewrite Ek. clear Ek.
  pose proof Hr as (Hself & _). unfold st_bind at 1, st_get. cbn [fst snd].
  rewrite Hself, Hmain. cbn [st_unwrap asks_for].
  destruct (0 <? b);
    edestruct (attempt_after_reads e e0 main) as (e' & a & E & Ha & Hp & Hf); try exact Hr;
    exists e', a; rewrite Hself in E; (split; [exact E|]);
    rewrite Hp; split_and!; try done; eauto 10.
Qed.

(** Without a main wallet nothing is queued and the task panics. *)
Lemma collect_panics r e :
  main_wallet (self e) = None ->
  exists e', collect r e = (None, e') /\ reads e e'.
Proof.
  intros Hmain. unfold collect. destruct (collect_reads r e) as (b & e0 & Hr & Ek). rewrite Ek. clear Ek.
  pose proof Hr as (Hself & _). unfold st_bind at 1, st_get. cbn [fst snd].
  rewrite Hself, Hmain. exists e0. split; [|exact Hr]. destruct (0 <? b); reflexivity.
Qed.

(** Entering a spending state queues one action, the one the state asks for;
    only an agent that collects without a main wallet panics. *)
Lemma agent_entry_attempt s e :
  spends s = true -> (collects s = true -> is_Some (main_wallet (self e))) ->
  exists e' a, agent_entry s e = (Some tt, e') /\ attempted e e' a /\
    asks_for s (self e) (action_payload a) /\ pays s (self e) (fee_payer a).
Proof.
  intros Hs Hmain. destruct s as [|batch r|r|amt r|amt r| |msg|r|]; try discriminate;
    cbn [agent_entry asks_for pays collects] in *.
  - edestruct (attempt_after_reads e e) as (e' & a & E & Ha & Hp & Hf); [reflexivity|].
    exists e', a. split; [exact E|]. done.
  - destruct (Hmain eq_refl) as [main Em].
    destruct (collect_attempt r e main Em) as (e' & a & E & Ha & Hp & <-). eauto 10.
  - destruct (buy_attempt r e) as (e' & a & ?). destruct_and!. eauto 10.
  - destruct (sell_attempt amt r e) as (e' & a & ?). destruct_and!. eauto 10.
  - destruct (Hmain eq_refl) as [main Em].
    destruct (collect_attempt r e main Em) as (e' & a & E & Ha & Hp & <-). eauto 10.
Qed.

(** ** Handlers *)

Definition with_retry (s : State) (r : Z) : State :=
  match s with
  | Transferring batch _ => Transferring batch r
  | Collecting _ => Collecting r
  | Buying amt _ => Buying amt r
  | Selling amt _ => Selling amt r
  | _ => s
  end.

Lemma command_inv s r next :
  command s = Some (r, next) ->
  s = with_retry s r /\ next = with_retry s (r + 1) /\ spends s = true /\
  collects next = collects s /\
  (forall ev, agent_handler s ev = transition_to_success_or_error ev next r).
Proof. destruct s; intros [= <- <-]; done. Qed.

Lemma command_with_retry s r next r' :
  command s = Some (r, next) ->
  command (with_retry s r') = Some (r', with_retry s (r' + 1)).
Proof. destruct s; intros [= <- <-]; done. Qed.

(** A handler forgets receipts and stops the timer, nothing else. *)
Record handled (e e1 : Env) : Prop := {
  hd_world : world e1 = world e;
  hd_queue : queue e1 = queue e;
  hd_key : agent_key (self e1) = agent_key (self e);
  hd_main : main_wallet (self e1) = main_wallet (self e);
  hd_pool : pool (self e1) = pool (self e);
  hd_strategy : strategy_id_opt (self e1) = strategy_id_opt (self e);
  hd_progress : actions_in_progress (self e1) ⊆ actions_in_progress (self e);
}.

#[export] Instance handled_preorder : PreOrder handled.
Proof.
  split; [by constructor|]. intros x y z [] []. constructor; try congruence.
  by transitivity (actions_in_progress (self y)).
Qed.

Lemma retain_not_subseteq id l : retain_not id l ⊆ l.
Proof. intros x. unfold retain_not. rewrite list_elem_of_filter. tauto. Qed.

Lemma handled_retain id e :
  handled e (env (set_actions_in_progress (retain_not id (actions_in_progress (self e))) (self e))
               (world e) (queue e)).
Proof. constructor; try done. apply retain_not_subseteq. Qed.

Lemma handled_turn_off e :
  handled e (env (set_timeout_timer (Stopwatch.turn_off (timeout_timer (self e))) (self e))
               (world e) (queue e)).
Proof. by constructor. Qed.

Hint Resolve handled_retain handled_turn_off : bot.

Lemma process_execution_receipt_spec receipt e :
  exists o e1, process_execution_receipt receipt e = (Some o, e1) /\ handled e e1 /\
    (o = ReceiptNotMine <-> action_uuid receipt ∉ actions_in_progress (self e)) /\
    (o = ReceiptOk <-> action_uuid receipt ∈ actions_in_progress (self e) /\ err receipt = None) /\
    (o = ReceiptNotMine -> e1 = e).
Proof.
  unfold process_execution_receipt, st_bind, st_get. cbn. case_bool_decide as Hin; cbn.
  - unfold modify_self, st_modify. cbn. destruct (err receipt) as [x|]; cbn.
    + eexists _, _. split; [reflexivity|]. split; [|naive_solver].
      etransitivity; [apply (handled_retain (action_uuid receipt))|]. by constructor.
    + eexists _, _. split; [reflexivity|]. split; [apply handled_retain | naive_solver].
  - eexists _, _. split; [reflexivity|]. split; [reflexivity | naive_solver].
Qed.

Lemma is_cooled_down_spec tick e :
  match Stopwatch.is_time_elapsed (now (world e)) tick (timeout_timer (self e)) with
  | None => is_cooled_down_before_retry tick e = (None, e)
  | Some false => is_cooled_down_before_retry tick e = (Some false, e)
  | Some true =>
      is_cooled_down_before_retry tick e
      = (Some true, env (set_timeout_timer (Stopwatch.turn_off (timeout_timer (self e))) (self e))
                      (world e) (queue e))
  end.
Proof.
  unfold is_cooled_down_before_retry, st_bind, st_get. cbn.
  destruct (Stopwatch.is_time_elapsed _ _ _) as [[|]|]; reflexivity.
Qed.

Definition is_command_event (ev : SolanaStrategyEvent) : bool :=
  match ev with ForAgent _ => true | Original _ => false end.

(** The receipt of an action the agent waits for, without an error. *)
Definition good_receipt (ev : SolanaStrategyEvent) (a : AgentState) : Prop :=
  exists receipt, ev = Original (Blockchain (ExecutionReceiptEvent receipt)) /\
    action_uuid receipt ∈ actions_in_progress a /\ err receipt = None.

(** The answers of a command to an event that is not a command. *)
Lemma command_answers ev next r e :
  is_command_event ev = false ->
  exists o e1, transition_to_success_or_error ev next r e = (o, e1) /\ handled e e1 /\
    (o = None \/ o = Some Super \/ (o = Some (Transition Success) /\ good_receipt ev (self e)) \/
     exists msg, o = Some (retry_or_error r next msg)).
Proof.
  intros Hev. unfold transition_to_success_or_error, good_receipt.
  destruct ev as [[tick|[]| |id cell res|]|]; try discriminate;
    try (eexists _, _; split; [reflexivity|]; split; [reflexivity | by eauto]).
  - pose proof (is_cooled_down_spec tick e) as Hc. unfold st_bind.
    destruct (Stopwatch.is_time_elapsed _ _ _) as [[|]|]; rewrite Hc; cbn;
      eexists _, _; (split; [reflexivity|]); split; eauto with bot; reflexivity.
  - destruct (process_execution_receipt_spec receipt e) as (o & e1 & E & Hh & Hno & Hok & _).
    unfold st_bind. rewrite E. destruct o; cbn; eexists _, _; (split; [reflexivity|]);
      (split; [exact Hh|]); eauto 10. right; right; left. naive_solver.
  - unfold st_bind, st_get. cbn. case_bool_decide; cbn;
      [|eexists _, _; split; [reflexivity|]; split; [reflexivity | eauto]].
    destruct res; cbn; eexists _, _; (split; [reflexivity|]); (split; [apply handled_retain|]); eauto.
Qed.

(** ** Runs *)

Definition run (evs : list SolanaStrategyEvent) : ST (Sm State * Env) unit :=
  st_iter handle_event evs.

Lemma step_result_target s ev e (P : State -> Prop) :
  P s -> (forall t e1, agent_handler s ev e = (Some (Transition t), e1) -> P t) ->
  exists s' e', snd (step_result s ev e) = (sm s' true, e') /\ P s'.
Proof.
  intros Hs Ht. unfold step_result.
  destruct (agent_handler s ev e) as [[[| |t]|] e1] eqn:E; cbn; eauto.
  destruct (agent_entry t e1) as [o e2]. cbn. eauto.
Qed.

(** The states a command ends in, or that have nothing to do with one. *)
Definition settled (s : State) : bool :=
  match s with Idle | Error _ | Deactivating _ | Deactivated => true | _ => false end.

Lemma settled_target s ev e t e1 :
  settled s = true -> is_command_event ev = false ->
  agent_handler s ev e = (Some (Transition t), e1) -> settled t = true.
Proof.
  intros Hs Hev. destruct s as [| | | | | |msg|r|]; try discriminate; cbn [agent_handler].
  - destruct ev; discriminate.
  - unfold error, st_bind, st_get, st_ret. cbn. destruct (is_main_wallet _); intros; by simplify_eq.
  - unfold deactivating, retry_or_error. intros Hh.
    destruct ev as [[tick|[]| | |]|]; try discriminate; cbn in Hh.
    + apply st_bind_inv in Hh as (b & e2 & _ & Hh). unfold st_ret in Hh.
      destruct b; [destruct (r <=? _)|]; by simplify_eq.
    + apply st_bind_inv in Hh as (o & e2 & _ & Hh). unfold st_ret in Hh.
      destruct o; [| |destruct (r <=? _)]; by simplify_eq.
Qed.

(** The attempts of the command [s0], entered with retry count [r0] and
    [n0] actions queued. *)
Definition attempts_inv (s0 : State) (r0 : Z) (n0 : nat) (main : option KeypairClonable)
    (p : Sm State * Env) : Prop :=
  let '(m, e) := p in
  initialized m = true /\
  ((exists r next, command (current m) = Some (r, next) /\ current m = with_retry s0 r /\
      r0 <= r <= RETRIES_IF_ERROR_OR_TIMEOUT + 1 /\ main_wallet (self e) = main /\
      Z.of_nat (length (queue e)) = Z.of_nat n0 + (r - r0)) \/
   (current m = Success /\
      Z.of_nat (length (queue e)) <= Z.of_nat n0 + (RETRIES_IF_ERROR_OR_TIMEOUT + 1 - r0)) \/
   settled (current m) = true).

Lemma attempts_inv_step s0 r0 next0 n0 main ev p :
  command s0 = Some (r0, next0) -> (collects s0 = true -> is_Some main) ->
  is_command_event ev = false ->
  attempts_inv s0 r0 n0 main p -> attempts_inv s0 r0 n0 main (snd (handle_event ev p)).
Proof.
  intros Hc Hmain Hev. destruct p as [[s []] e]; [|by intros [[=] _]].
  rewrite handle_event_step. intros [_ [(r & next & Hs & Hsr & Hr & Hm & Hq) | [[Hs Hq] | Hs]]];
    cbn [current self] in *.
  - destruct (command_inv _ _ _ Hs) as (_ & Hnext & Hsp & Hcol & Hh).
    unfold step_result. rewrite Hh.
    destruct (command_answers ev next r e Hev) as (o & e1 & -> & Hd & Ho).
    assert (Hsame : attempts_inv s0 r0 n0 main (sm s true, e1)).
    { split; [done|]. left. exists r, next. destruct Hd. rewrite hd_queue0, hd_main0. done. }
    destruct Ho as [-> | [-> | [[-> _] | [msg ->]]]]; [exact Hsame | exact Hsame |..].
    + cbn. split; [done|]. right; left. split; [done|]. destruct Hd. cbn. rewrite hd_queue0. lia.
    + unfold retry_or_error. destruct (Z.leb_spec r RETRIES_IF_ERROR_OR_TIMEOUT) as [Hle|Hgt];
        [|cbn; split; [done|]; by right; right].
      assert (Hcol0 : collects next = true -> is_Some (main_wallet (self e1))).
      { destruct Hd. rewrite hd_main0, Hm. intros Hcn. apply Hmain. rewrite Hcol, Hsr in Hcn.
        by destruct s0. }
      destruct (command_inv _ _ _ Hc) as (_ & _ & _ & _ & _).
      assert (Hspn : spends next = true) by (rewrite Hnext; by destruct s).
      destruct (agent_entry_attempt next e1 Hspn Hcol0) as (e2 & a & -> & Hat & _).
      cbn. split; [done|]. left. exists (r + 1), (with_retry s (r + 1 + 1)).
      destruct Hat, Hd. rewrite at_self0, at_queue0, length_app, hd_queue0. cbn.
      rewrite Hnext. split_and!; try lia.
      * apply (command_with_retry _ _ _ _ Hs).
      * rewrite Hsr. by destruct s0.
      * by rewrite hd_main0.
  - rewrite Hs. unfold step_result. cbn. destruct ev; [|done]. cbn.
    split; [done|]. right; left. done.
  - destruct (step_result_target s ev e (fun s => settled s = true)) as (s' & e' & -> & Hs');
      [done | intros t e1; by apply settled_target |]. split; [done|]. by right; right.
Qed.

(** ** Timeouts *)

(** A heartbeat of [tick] milliseconds after [d] milliseconds of silence. *)
Definition wait_then_beat (b : Z * Z) : ST (Sm State * Env) unit := fun '(m, e) =>
  handle_event (Original (HeartBeat b.2))
    (m, env (self e) (set_now (now (world e) + b.1) (world e)) (queue e)).

(** Enough silence for the timeout, and a clock that does not wrap. *)
Definition late (b : Z * Z) : Prop :=
  0 < b.2 /\ TIMEOUT_FOR_ACTION_EXECUTION_HBS * b.2 <= b.1 < 2 ^ 62.

(** The timeout was started recently enough. *)
Definition timer_runs (e : Env) : Prop :=
  exists t0, timeout_timer (self e) = Stopwatch.new t0 TIMEOUT_FOR_ACTION_EXECUTION_HBS /\
             t0 <= now (world e) < t0 + 2 ^ 62.

Lemma attempted_timer e e' a : attempted e e' a -> timer_runs e'.
Proof.
  intros []. exists (now (world e')). rewrite at_self0. split; [done|].
  split; [lia|]. lia.
Qed.

Lemma late_answer b s r next e :
  command s = Some (r, next) -> late b -> timer_runs e ->
  exists e1, agent_handler s (Original (HeartBeat b.2))
      (env (self e) (set_now (now (world e) + b.1) (world e)) (queue e))
    = (Some (retry_or_error r next "Transfer action timeout"), e1) /\
    queue e1 = queue e /\ main_wallet (self e1) = main_wallet (self e).
Proof.
  intros Hs [Htick Hd] (t0 & Ht & Hn). destruct b as [d tick]. cbn [fst snd] in *.
  destruct (command_inv _ _ _ Hs) as (_ & _ & _ & _ & ->).
  cbn [transition_to_success_or_error]. unfold st_bind.
  pose proof (is_cooled_down_spec tick
    (env (self e) (set_now (now (world e) + d) (world e)) (queue e))) as Hc.
  cbn [self world now set_now] in Hc. rewrite Ht in Hc.
  change (Stopwatch.new t0 TIMEOUT_FOR_ACTION_EXECUTION_HBS) with
    (Stopwatch.start t0 TIMEOUT_FOR_ACTION_EXECUTION_HBS
       (Stopwatch.new t0 TIMEOUT_FOR_ACTION_EXECUTION_HBS)) in Hc.
  rewrite Stopwatch.is_time_elapsed_started in Hc
    by (unfold TIMEOUT_FOR_ACTION_EXECUTION_HBS in *; lia).
  replace (_ <=? _) with true in Hc by lia. rewrite Hc.
  eexists. split; [reflexivity|]. done.
Qed.

(** A timeout retries the command, or gives it up after the last retry. *)
Lemma late_step b s r next e :
  command s = Some (r, next) -> late b -> timer_runs e ->
  (collects s = true -> is_Some (main_wallet (self e))) ->
  exists e', wait_then_beat b (sm s true, e)
      = (Some tt, (sm (if r <=? RETRIES_IF_ERROR_OR_TIMEOUT then next
                       else Error "Transfer action timeout") true, e')) /\
    (r <= RETRIES_IF_ERROR_OR_TIMEOUT ->
       timer_runs e' /\ length (queue e') = S (length (queue e)) /\
       main_wallet (self e') = main_wallet (self e)) /\
    (RETRIES_IF_ERROR_OR_TIMEOUT < r -> queue e' = queue e).
Proof.
  intros Hs Hl Ht Hmain. unfold wait_then_beat. rewrite handle_event_step. unfold step_result.
  destruct (late_answer b s r next e Hs Hl Ht) as (e1 & -> & Hq & Hm).
  destruct (command_inv _ _ _ Hs) as (Hsr & Hnext & Hsp & Hcol & _).
  unfold retry_or_error. destruct (Z.leb_spec r RETRIES_IF_ERROR_OR_TIMEOUT) as [Hle|Hgt].
  - destruct (agent_entry_attempt next e1) as (e2 & a & -> & Hat & _).
    + rewrite Hnext. by destruct s.
    + rewrite Hcol, Hm. exact Hmain.
    + cbn. eexists. split; [reflexivity|]. split; [|lia]. intros _.
      split; [by eapply attempted_timer|]. destruct Hat.
      rewrite at_queue0, at_self0, length_app, Hq. cbn. split; [lia | done].
  - cbn. eexists. split; [reflexivity|]. split; [lia | done].
Qed.

(** ** Commands to a busy agent *)

Lemma busy_command s r next ev e :
  command s = Some (r, next) -> is_command_event ev = true -> ev <> ForAgent Deactivate ->
  handle_event ev (sm s true, e) = (Some tt, (sm s true, e)).
Proof.
  intros Hs Hev Hne. rewrite handle_event_step. unfold step_result.
  destruct (command_inv _ _ _ Hs) as (_ & _ & _ & _ & ->).
  destruct ev as [|[]]; done.
Qed.

(** ** What is queued *)

(** One event queues nothing, or the action its target state asks for. *)
Definition queues (s : State) (e e' : Env) : Prop :=
  (queue e' = queue e /\ heap (world e') = heap (world e)) \/
  exists a, queue e' = queue e ++ [next_ref (world e)] /\
    heap (world e') = <[next_ref (world e) := a]> (heap (world e)) /\
    sniper a = agent_key (self e) /\ status a = NotSent /\
    asks_for s (self e) (action_payload a) /\ pays s (self e) (fee_payer a).

Lemma handler_handled s ev e :
  exists o e1, agent_handler s ev e = (o, e1) /\ handled e e1.
Proof.
  assert (Hid : exists o e1, (@Some (Response State) Super, e) = (o, e1) /\ handled e e1)
    by (eexists _, _; split; reflexivity).
  destruct (command s) as [[r next]|] eqn:Hs.
  - destruct (command_inv _ _ _ Hs) as (_ & _ & _ & _ & ->).
    destruct (is_command_event ev) eqn:Hev.
    + destruct ev as [|[]]; try done. cbn. unfold st_bind, st_get. cbn.
      destruct (_ =? _); eexists _, _; split; reflexivity.
    + destruct (command_answers ev next r e Hev) as (o & e1 & E & Hh & _). eauto.
  - destruct s as [| | | | | |msg|r|]; try discriminate; cbn [agent_handler].
    + eexists _, _. split; reflexivity.
    + eexists _, _. split; reflexivity.
    + eexists _, _. split; reflexivity.
    + unfold deactivating. destruct ev as [[tick|[]| | |]|]; try exact Hid; unfold st_bind.
      * pose proof (is_cooled_down_spec tick e) as Hc.
        destruct (Stopwatch.is_time_elapsed _ _ _) as [[|]|]; rewrite Hc; cbn;
          eexists _, _; (split; [reflexivity|]); first [reflexivity | apply handled_turn_off].
      * destruct (process_execution_receipt_spec receipt e) as (o & e1 & -> & Hh & _).
        destruct o; cbn; eauto.
    + eexists _, _. split; reflexivity.
Qed.

Lemma drop_reads e : exists o e', drop_action e = (o, e') /\ reads e e'.
Proof.
  unfold drop_action, st_bind, st_get, on_world, st_zoom, drop. cbn.
  destruct (is_main_wallet (self e)); [by eexists _, _|]. unfold st_bind, db_get. cbn.
  destruct (db_available _); cbn; eexists _, _; (split; [reflexivity|]); by repeat split.
Qed.

(** An entry action only reads, or queues the action its state asks for. *)
Lemma entry_outcome t e :
  exists o e', agent_entry t e = (o, e') /\
    (reads e e' \/
     exists a, attempted e e' a /\ asks_for t (self e) (action_payload a) /\
       pays t (self e) (fee_payer a)).
Proof.
  destruct (spends t) eqn:Hsp.
  - destruct (collects t) eqn:Hc; [destruct (main_wallet (self e)) eqn:Hm|].
    2: { assert (exists r, agent_entry t = collect r) as [r ->] by (destruct t; eauto; done).
         destruct (collect_panics r e Hm) as (e' & -> & Hr). by eexists _, _; eauto. }
    all: destruct (agent_entry_attempt t e Hsp) as (e' & a & -> & Hat & Hp & Hf);
      [rewrite ?Hc, ?Hm; by eauto|]; eexists _, _; by eauto 10.
  - destruct t; try discriminate; cbn [agent_entry];
      try (eexists _, _; (split; [reflexivity|]); by left).
    destruct (drop_reads e) as (o & e' & -> & Hr). by eexists _, _; eauto.
Qed.

Lemma entry_queues t e :
  exists o e', agent_entry t e = (o, e') /\ queues t e e'.
Proof.
  destruct (entry_outcome t e) as (o & e' & -> & [Hr | (a & [] & Hp & Hf)]);
    eexists _, _; (split; [done|]).
  - left. unfold reads in Hr. by destruct_and!.
  - right. by exists a.
Qed.

(** ** Properties *)

(** C7. Attempts are counted and bounded: whatever receipts, results and
    heartbeats arrive, an agent that is still executing a command entered with
    retry count [r0] is executing that same command, with a retry count of at
    most 3 that is exactly the number of actions queued since; and an agent that
    succeeded has queued no more than the remaining retries. *)
Theorem agent_attempts_bounded (s0 : State) (r0 : Z) (next0 : State)
    (evs : list SolanaStrategyEvent) (e0 : Env) :
  command s0 = Some (r0, next0) -> 0 <= r0 <= RETRIES_IF_ERROR_OR_TIMEOUT + 1 ->
  (collects s0 = true -> is_Some (main_wallet (self e0))) ->
  Forall (fun ev => is_command_event ev = false) evs ->
  let '(_, (m, e)) := run evs (sm s0 true, e0) in
  let queued := Z.of_nat (length (queue e)) - Z.of_nat (length (queue e0)) in
  (forall r next, command (current m) = Some (r, next) ->
     current m = with_retry s0 r /\ r0 <= r <= RETRIES_IF_ERROR_OR_TIMEOUT + 1 /\
     queued = r - r0) /\
  (current m = Success -> queued <= RETRIES_IF_ERROR_OR_TIMEOUT + 1 - r0).
Proof.
  intros Hc Hr0 Hmain Hevs.
  assert (Hinv : attempts_inv s0 r0 (length (queue e0)) (main_wallet (self e0))
                   (snd (run evs (sm s0 true, e0)))).
  { revert Hevs. unfold run.
    assert (attempts_inv s0 r0 (length (queue e0)) (main_wallet (self e0)) (sm s0 true, e0)) as Hi.
    { split; [done|]. left. exists r0, next0. cbn.
      destruct (command_inv _ _ _ Hc) as (Hs & _). split_and!; try done; lia. }
    revert Hi. generalize (sm s0 true, e0). induction evs as [|ev evs IH]; intros p Hi Hevs; [done|].
    apply Forall_cons in Hevs as [Hev Hevs]. cbn [st_iter]. unfold st_bind.
    pose proof (attempts_inv_step _ _ _ _ _ ev p Hc Hmain Hev Hi) as Hi'.
    destruct (handle_event ev p) as [[[]|] p']; [|done]. by apply IH. }
  destruct (run evs (sm s0 true, e0)) as [o [m e]]. cbn in Hinv.
  destruct Hinv as [_ [(r & next & Hs & Hsr & Hr & _ & Hq) | [[Hs Hq] | Hs]]]; cbn zeta.
  - split; [|intros Hsu; by rewrite Hsu in Hs]. intros r' next' E. simplify_eq.
    rewrite <- Hsr. split_and!; try done; lia.
  - split; [intros r next E; by rewrite Hs in E | lia].
  - split; [intros r next E; by destruct (current m) | intros E; by rewrite E in Hs].
Qed.

(** C39. No command waits forever: if no receipt arrives, an agent executing a
    command with retry count [r0] gives up after exactly [4 - r0] timeouts, having
    repeated the command [3 - r0] times, and is in the error state. *)
Theorem agent_command_times_out (beats : list (Z * Z)) (s0 : State) (r0 : Z) (next0 : State)
    (e0 : Env) :
  command s0 = Some (r0, next0) -> 0 <= r0 <= RETRIES_IF_ERROR_OR_TIMEOUT + 1 ->
  timer_runs e0 -> (collects s0 = true -> is_Some (main_wallet (self e0))) ->
  Forall late beats -> Z.of_nat (length beats) = RETRIES_IF_ERROR_OR_TIMEOUT + 2 - r0 ->
  exists e, st_iter wait_then_beat beats (sm s0 true, e0)
            = (Some tt, (sm (Error "Transfer action timeout") true, e)) /\
    Z.of_nat (length (queue e)) - Z.of_nat (length (queue e0))
    = RETRIES_IF_ERROR_OR_TIMEOUT + 1 - r0.
Proof.
  intros Hc Hr Ht Hmain Hl. revert s0 r0 next0 e0 Hc Hr Ht Hmain.
  induction Hl as [|b beats Hb Hl IH]; intros s0 r0 next0 e0 Hc Hr Ht Hmain Hlen; [cbn in Hlen; lia|].
  destruct (late_step b s0 r0 next0 e0 Hc Hb Ht Hmain) as (e1 & E & Hle & Hgt).
  cbn [st_iter]. rewrite (st_bind_Some _ _ _ _ _ E). cbn [length] in Hlen.
  destruct (Z.leb_spec r0 RETRIES_IF_ERROR_OR_TIMEOUT) as [Hr0|Hr0].
  - destruct (Hle Hr0) as (Ht' & Hq & Hm).
    destruct (command_inv _ _ _ Hc) as (_ & Hnext & _ & Hcol & _).
    pose proof (command_with_retry _ _ _ (r0 + 1) Hc) as Hc'. rewrite <- Hnext in Hc'.
    destruct (IH next0 (r0 + 1) _ e1 Hc') as (e & -> & Hqe); [lia | done | | lia |].
    + rewrite Hcol, Hm. exact Hmain.
    + exists e. split; [done|]. lia.
  - assert (beats = []) as ->.
    { destruct beats; [done|]. unfold RETRIES_IF_ERROR_OR_TIMEOUT in *. cbn in Hlen. lia. }
    cbn [st_iter]. exists e1. split; [done|]. rewrite (Hgt Hr0).
    unfold RETRIES_IF_ERROR_OR_TIMEOUT in *. lia.
Qed.

Lemma step_result_success s ev e m e' :
  s <> Success -> snd (step_result s ev e) = (m, e') -> current m = Success ->
  agent_handler s ev e = (Some (Transition Success), e').
Proof.
  intros Hs. unfold step_result.
  destruct (agent_handler s ev e) as [[[| |t]|] e1]; cbn; try (by intros [= <- <-]).
  destruct (agent_entry t e1) as [o e2] eqn:E. intros [= <- <-]. cbn. intros ->.
  cbn in E. by injection E as _ <-.
Qed.

(** C8. An agent reports success only when it executes a command and receives
    the receipt, without an error, of an action it is waiting for. *)
Theorem agent_success_needs_receipt (ev : SolanaStrategyEvent) (s : State) (e : Env) (m : Sm State)
    (e' : Env) :
  s <> Success -> snd (handle_event ev (sm s true, e)) = (m, e') -> current m = Success ->
  is_Some (command s) /\ good_receipt ev (self e) /\ queue e' = queue e.
Proof.
  intros Hs. rewrite handle_event_step. intros Hm Hcur.
  pose proof (step_result_success _ _ _ _ _ Hs Hm Hcur) as Hh. clear Hm.
  destruct (command s) as [[r next]|] eqn:Hc.
  - destruct (command_inv _ _ _ Hc) as (_ & Hnext & _ & _ & Hh'). rewrite Hh' in Hh.
    destruct (is_command_event ev) eqn:Hev.
    + destruct ev as [|[]]; try done. cbn in Hh. unfold st_bind, st_get, st_ret in Hh. cbn in Hh.
      by destruct (_ =? _).
    + destruct (command_answers ev next r e Hev) as (o & e1 & E & Hd & Ho).
      rewrite E in Hh. injection Hh as -> ->. destruct Hd.
      destruct Ho as [Ho | [Ho | [[_ Hg] | [msg Ho]]]]; [done | done | by eauto |].
      unfold retry_or_error in Ho. rewrite Hnext in Ho. by destruct s, (r <=? _).
  - exfalso. destruct (is_command_event ev) eqn:Hev.
    + destruct s; try done; destruct ev as [|[]]; try done; cbn in Hh; simplify_eq;
        unfold error, st_bind, st_get, st_ret in Hh; cbn in Hh; repeat case_match; by simplify_eq.
    + assert (settled s = true) as Hset by (by destruct s).
      by pose proof (settled_target s ev e Success e' Hset Hev Hh).
Qed.

(** One event makes an agent queue nothing, or exactly one action: a fresh
    one, not sent yet, that spends the agent's own wallet, asks for what the
    state it enters stands for, and is paid by the agent or by its main wallet. *)
Theorem agent_queues_what_it_should (ev : SolanaStrategyEvent) (s : State) (e : Env) :
  exists o m e', handle_event ev (sm s true, e) = (o, (m, e')) /\ queues (current m) e e'.
Proof.
  rewrite handle_event_step. unfold step_result.
  destruct (handler_handled s ev e) as (o & e1 & -> & []).
  destruct o as [[| |t]|]; try (eexists _, _, _; (split; [done|]); left; by rewrite hd_queue0, hd_world0).
  destruct (entry_queues t e1) as (o & e2 & -> & Hq). eexists _, _, _. split; [done|].
  cbn. destruct Hq as [[Hq Hh] | (a & Hq & Hh & Hk & Hst & Ha & Hp)].
  - left. rewrite Hq, Hh, hd_queue0, hd_world0. done.
  - right. exists a. rewrite <- hd_queue0, <- hd_world0, <- hd_key0. split_and!; try done.
    + unfold asks_for in *. rewrite <- hd_main0, <- hd_pool0. done.
    + unfold pays in *. unfold get_main_wallet in *. rewrite <- hd_main0, <- hd_key0. done.
Qed.

(** An agent executing a command ignores every other command but
    [Deactivate]: a second batch of transfers sent to it is lost. *)
Theorem busy_agent_ignores_commands (s : State) (r : Z) (next : State) (ev : AgentEvent) (e : Env) :
  command s = Some (r, next) -> ev <> Deactivate ->
  handle_event (ForAgent ev) (sm s true, e) = (Some tt, (sm s true, e)).
Proof.
  intros Hc Hne. apply (busy_command s r next); [done | done |]. intros [= ->]. done.
Qed.
(** An agent that is told its action was sent forgets the action: the
    action's receipt, when it comes, changes nothing, and only a timeout gets
    the agent out of the command, by repeating it. *)
Theorem sent_result_loses_receipt (s : State) (r : Z) (next : State) (e : Env) (cell : ActionRef)
    (receipt : ExecutionReceipt) :
  command s = Some (r, next) ->
  exists e', run [Original (ExecutionResultEvent (action_uuid receipt) cell Sent);
                  Original (Blockchain (ExecutionReceiptEvent receipt))] (sm s true, e)
             = (Some tt, (sm s true, e')) /\
    queue e' = queue e /\ (action_uuid receipt ∉ actions_in_progress (self e')) /\
    timeout_timer (self e') = timeout_timer (self e).
Proof.
  intros Hc. unfold run. cbn [st_iter]. unfold st_bind.
  destruct (command_inv _ _ _ Hc) as (_ & _ & _ & _ & Hh).
  rewrite handle_event_step. unfold step_result. rewrite Hh. cbn.
  unfold st_bind at 1, st_get. cbn.
  set (e1 := env (set_actions_in_progress
    (retain_not (action_uuid receipt) (actions_in_progress (self e))) (self e)) (world e) (queue e)).
  assert (Hno : action_uuid receipt ∉ actions_in_progress (self e1)).
  { cbn. unfold retain_not. rewrite list_elem_of_filter. tauto. }
  assert (Hrec : forall e2, action_uuid receipt ∉ actions_in_progress (self e2) ->
    handle_event (Original (Blockchain (ExecutionReceiptEvent receipt))) (sm s true, e2)
    = (Some tt, (sm s true, e2))).
  { intros e2 He2. rewrite handle_event_step. unfold step_result. rewrite Hh.
    cbn [transition_to_success_or_error]. unfold st_bind.
    destruct (process_execution_receipt_spec receipt e2) as (o & e3 & -> & _ & Hno2 & _ & Heq).
    apply Hno2 in He2 as ->. now rewrite Heq. }
  case_bool_decide as Hin; cbn.
  - fold e1. rewrite (Hrec e1 Hno). exists e1. done.
  - rewrite (Hrec e Hin). exists e. done.
Qed.

Definition failed_receipt (x : TransactionError) (id : Uuid) : SolanaStrategyEvent :=
  Original (Blockchain (ExecutionReceiptEvent
    {| action_uuid := id; transaction_signature := default_signature; err := Some x;
       status_changed_at := 0 |})).

Definition worker (e : Env) : Prop :=
  is_main_wallet (self e) = false /\ is_Some (main_wallet (self e)).

Lemma worker_attempted e e' a : worker e -> attempted e e' a ->
  worker e' /\ uuid a ∈ actions_in_progress (self e') /\ length (queue e') = S (length (queue e)).
Proof.
  intros [Hm Hw] []. unfold worker. rewrite at_self0, at_queue0, length_app. cbn.
  split_and!; [done | done | set_solver | lia].
Qed.

Lemma deactivating_failed x id r e :
  worker e -> id ∈ actions_in_progress (self e) ->
  exists e', handle_event (failed_receipt x id) (sm (Deactivating r) true, e)
      = (Some tt, (sm (if r <=? RETRIES_IF_ERROR_OR_TIMEOUT then Deactivating (r + 1)
                       else Error (("Error processing execution receipt: ")
                                   +:+ debug_receipt_error (pubkey_of (self e)) x)) true, e')) /\
    worker e' /\
    (if r <=? RETRIES_IF_ERROR_OR_TIMEOUT then
       length (queue e') = S (length (queue e)) /\ exists id', id' ∈ actions_in_progress (self e')
     else queue e' = queue e).
Proof.
  intros [Hm Hw] Hin. rewrite handle_event_step. unfold step_result. cbn.
  unfold st_bind, process_execution_receipt. unfold st_bind, st_get. cbn.
  rewrite bool_decide_true by done. cbn. unfold modify_self, st_modify, retry_or_error, st_ret. cbn.
  destruct (r <=? RETRIES_IF_ERROR_OR_TIMEOUT).
  - cbv beta iota. match goal with |- context [agent_entry (Deactivating (r + 1)) ?e1] =>
      destruct (agent_entry_attempt (Deactivating (r + 1)) e1) as (e2 & a & E & Hat & _);
        [done | cbn; intros _; exact Hw |];
      assert (worker e1) as Hw1 by (split; [exact Hm | exact Hw])
    end.
    rewrite E. destruct (worker_attempted _ _ _ Hw1 Hat) as (? & ? & ?). eauto 10.
  - eexists. split; [reflexivity|]. done.
Qed.

Lemma error_restarts ev msg e :
  worker e -> exists e', handle_event ev (sm (Error msg) true, e)
      = (Some tt, (sm (Deactivating 0) true, e')) /\ worker e' /\
    length (queue e') = S (length (queue e)) /\ exists id', id' ∈ actions_in_progress (self e').
Proof.
  intros [Hm Hw]. rewrite handle_event_step. unfold step_result. cbn.
  unfold error, st_bind, st_get, st_ret. cbn. rewrite Hm.
  destruct (agent_entry_attempt (Deactivating 0) e) as (e2 & a & E & Hat & _); [done | done |].
  cbv beta iota. rewrite E.
  destruct (worker_attempted _ _ _ (conj Hm Hw) Hat) as (? & ? & ?). eauto 10.
Qed.

(** Deactivation has no bound on receipts with errors: after its last retry
    the agent goes through the error state back to deactivating with a retry
    count of 0, so for every [n] there is a sequence of failed receipts after
    which the agent is where it was and has queued [4 * n] more actions. *)
Theorem deactivation_never_gives_up (n : nat) (x : TransactionError) (id : Uuid) (e : Env) :
  worker e -> id ∈ actions_in_progress (self e) ->
  exists evs e', Forall (fun ev => exists i, ev = failed_receipt x i) evs /\
    length evs = (5 * n)%nat /\
    run evs (sm (Deactivating 0) true, e) = (Some tt, (sm (Deactivating 0) true, e')) /\
    length (queue e') = (length (queue e) + 4 * n)%nat.
Proof.
  intros Hw Hin. revert id e Hw Hin. induction n as [|n IH]; intros id e Hw Hin.
  { exists [], e. split_and!; [constructor | done | done | lia]. }
  destruct (deactivating_failed x id 0 e Hw Hin) as (e1 & E1 & Hw1 & Hq1 & id1 & Hin1).
  destruct (deactivating_failed x id1 1 e1 Hw1 Hin1) as (e2 & E2 & Hw2 & Hq2 & id2 & Hin2).
  destruct (deactivating_failed x id2 2 e2 Hw2 Hin2) as (e3 & E3 & Hw3 & Hq3 & id3 & Hin3).
  destruct (deactivating_failed x id3 3 e3 Hw3 Hin3) as (e4 & E4 & Hw4 & Hq4).
  cbn in E1, E2, E3, E4. apply (f_equal length) in Hq4.
  edestruct (error_restarts (failed_receipt x id3)) as (e5 & E5 & Hw5 & Hq5 & id5 & Hin5);
    [exact Hw4|].
  destruct (IH id5 e5 Hw5 Hin5) as (evs & e' & Hf & Hl & Hr & Hq).
  exists (failed_receipt x id :: failed_receipt x id1 :: failed_receipt x id2 ::
          failed_receipt x id3 :: failed_receipt x id3 :: evs), e'.
  split_and!; [by repeat (constructor; [by eauto|]) | cbn; lia | | lia].
  unfold run in *. cbn [st_iter].
  rewrite (st_bind_Some _ _ _ _ _ E1), (st_bind_Some _ _ _ _ _ E2), (st_bind_Some _ _ _ _ _ E3),
    (st_bind_Some _ _ _ _ _ E4), (st_bind_Some _ _ _ _ _ E5). exact Hr.
Qed.
End Facts.

(** ** The theorems at concrete agents *)

#[local] Existing Instance sample_ext.
#[local] Existing Instance documented_driver.

(** Agent 7 of strategy 3, whose main wallet is 9, waiting for action 100. *)
Definition sample_worker : Env := env
  (mk sample_pool sample_trader 7 (Some 9) [100] (Some 3)
     (Stopwatch.new 1000 TIMEOUT_FOR_ACTION_EXECUTION_HBS)
     (Stopwatch.new 1000 TIMEOUT_FOR_ACTION_EXECUTION_HBS))
  sample_world [].

Definition sample_receipt (x : option TransactionError) : ExecutionReceipt :=
  {| action_uuid := 100; transaction_signature := 1; err := x; status_changed_at := 2000 |}.

Lemma agent_attempts_bounded_witness :
  let '(_, (m, e)) := run [failed_receipt "error" 100; Original (System Stop)]
                        (sm (Collecting 0) true, sample_worker) in
  current m = Collecting 1 /\ Z.of_nat (length (queue e)) - 0 = 1.
Proof.
  assert (Hc : command (current (fst (snd (run [failed_receipt "error" 100; Original (System Stop)]
      (sm (Collecting 0) true, sample_worker))))) = Some (1, Collecting 2))
    by (vm_compute; reflexivity).
  pose proof (agent_attempts_bounded (Collecting 0) 0 (Collecting 1)
    [failed_receipt "error" 100; Original (System Stop)] sample_worker eq_refl
    ltac:(unfold RETRIES_IF_ERROR_OR_TIMEOUT; lia) (fun _ => ex_intro _ 9 eq_refl)
    ltac:(repeat constructor)) as Hb.
  destruct (run _ _) as [o [m e]]. destruct Hb as [Hb _].
  destruct (Hb 1 (Collecting 2) Hc) as (Hs & _ & Hq). split; [exact Hs | exact Hq].
Defined.

Lemma agent_command_times_out_witness :
  exists e, st_iter wait_then_beat [(80000, 400); (80000, 400); (80000, 400); (80000, 400)]
              (sm (Buying MaxButLeaveForTransfer 0) true, sample_worker)
            = (Some tt, (sm (Error "Transfer action timeout") true, e)).
Proof.
  destruct (agent_command_times_out [(80000, 400); (80000, 400); (80000, 400); (80000, 400)]
    (Buying MaxButLeaveForTransfer 0) 0 (Buying MaxButLeaveForTransfer 1) sample_worker)
    as (e & E & _).
  - reflexivity.
  - unfold RETRIES_IF_ERROR_OR_TIMEOUT. lia.
  - exists 1000. split; [reflexivity | cbn; lia].
  - discriminate.
  - repeat (constructor; [unfold late, TIMEOUT_FOR_ACTION_EXECUTION_HBS; cbn; lia|]). constructor.
  - reflexivity.
  - exists e. exact E.
Defined.

Lemma agent_success_needs_receipt_witness :
  good_receipt (Original (Blockchain (ExecutionReceiptEvent (sample_receipt None))))
    (self sample_worker).
Proof.
  set (ev := Original (Blockchain (ExecutionReceiptEvent (sample_receipt None)))).
  pose proof (agent_success_needs_receipt ev (Selling Max 0) sample_worker
    (fst (snd (handle_event ev (sm (Selling Max 0) true, sample_worker))))
    (snd (snd (handle_event ev (sm (Selling Max 0) true, sample_worker))))) as Hs.
  destruct Hs as (_ & Hg & _); [discriminate | apply surjective_pairing | vm_compute; reflexivity |].
  exact Hg.
Defined.

Lemma busy_agent_ignores_commands_witness :
  handle_event (ForAgent (Transfer [])) (sm (Transferring [] 0) true, sample_worker)
  = (Some tt, (sm (Transferring [] 0) true, sample_worker)).
Proof.
  apply (busy_agent_ignores_commands (Transferring [] 0) 0 (Transferring [] 1) (Transfer []));
    [reflexivity | discriminate].
Defined.

Lemma sent_result_loses_receipt_witness :
  exists e', run [Original (ExecutionResultEvent 100 1 Sent);
                  Original (Blockchain (ExecutionReceiptEvent (sample_receipt None)))]
               (sm (Selling Max 0) true, sample_worker) = (Some tt, (sm (Selling Max 0) true, e')).
Proof.
  destruct (sent_result_loses_receipt (Selling Max 0) 0 (Selling Max 1) sample_worker 1
    (sample_receipt None) eq_refl) as (e' & E & _).
  exists e'. exact E.
Defined.

Lemma deactivation_never_gives_up_witness :
  exists evs e', run evs (sm (Deactivating 0) true, sample_worker)
                 = (Some tt, (sm (Deactivating 0) true, e')) /\ length (queue e') = 40%nat.
Proof.
  destruct (deactivation_never_gives_up 10 "error" 100 sample_worker) as (evs & e' & _ & _ & E & Hq).
  - split; [reflexivity | by exists 9].
  - apply list_elem_of_singleton. reflexivity.
  - exists evs, e'. split; [exact E | exact Hq].
Defined.
