(* ===== verification/VolumeStrategy.v ===== *)
(** * The agents of a strategy, and the volume strategy over them

    The [Arc<Mutex<StateMachine<AgentState>>>] cells a strategy and the tasks it
    spawned share.  A task delivers one event to a list of agents captured when
    it was spawned, one agent after the other; its deliveries interleave with
    the strategy's own steps. *)

From S2P Require Import Prelude MachineInt Float64 Buffers Amounts Types Cache GenericApi Statig VolumeAgent.

Import Agent.

Abbreviation AgentId := Z (only parsing).

(** A spawned task: the event and the agents it still has to be sent to. *)
Record Delivery := {
  d_event : SolanaStrategyEvent;
  d_agents : list AgentId;
}.

Record Fleet := mk_fleet {
  cells : gmap AgentId (Sm State * AgentState);
  next_cell : AgentId;
  fleet_world : World;
  fleet_queue : list ActionRef;
  tasks : list Delivery;
}.

Definition set_tasks v (f : Fleet) : Fleet :=
  mk_fleet f.(cells) f.(next_cell) f.(fleet_world) f.(fleet_queue) v.
Definition set_fleet_queue v (f : Fleet) : Fleet :=
  mk_fleet f.(cells) f.(next_cell) f.(fleet_world) v f.(tasks).

Definition on_fleet_world {A} (m : ST World A) : ST Fleet A :=
  st_zoom fleet_world
    (fun w f => mk_fleet f.(cells) f.(next_cell) w f.(fleet_queue) f.(tasks)) m.

(** [Arc::new(Mutex::new(agent_state.state_machine()))]. *)
Definition new_agent_cell `{Ext} (a : AgentState) : ST Fleet AgentId := fun f =>
  (Some f.(next_cell),
   mk_fleet (<[f.(next_cell) := (state_machine agent_machine, a)]> f.(cells)) (f.(next_cell) + 1)
     f.(fleet_world) f.(fleet_queue) f.(tasks)).

(** The locked agent.  Every id comes from [new_agent_cell] and cells are never
    freed. *)
Definition lock_agent (id : AgentId) : ST Fleet (Sm State * AgentState) :=
  c <- st_gets (fun f => f.(cells) !! id) ;;
  st_unwrap c.

Definition agent_state (id : AgentId) : ST Fleet State :=
  c <- lock_agent id ;; st_ret (current (fst c)).

(** Running a method of the locked agent. *)
Definition with_agent {A} (id : AgentId) (m : ST (Sm State * Env) A) : ST Fleet A := fun f =>
  match f.(cells) !! id with
  | None => (None, f)
  | Some (s, a) =>
      let '(r, (s', e')) := m (s, env a f.(fleet_world) f.(fleet_queue)) in
      (r, mk_fleet (<[id := (s', e'.(self))]> f.(cells)) f.(next_cell) e'.(world) e'.(queue) f.(tasks))
  end.

Section Fleet.
Context `{Ext} `{StatigDriver}.

(** [agent.lock().await.handle(&event).await]. *)
Definition send (id : AgentId) (ev : SolanaStrategyEvent) : ST Fleet unit :=
  with_agent id (handle_event ev).

Definition token_balance_of (id : AgentId) : ST Fleet Z :=
  with_agent id (on_shared get_token_balance).

Definition sol_balance_of (id : AgentId) : ST Fleet Z :=
  with_agent id (on_shared get_sol_balance).

(** [tokio::spawn] of the delivery loop. *)
Definition spawn_delivery (ev : SolanaStrategyEvent) (ids : list AgentId) : ST Fleet unit :=
  st_modify (fun f => set_tasks (f.(tasks) ++ [{| d_event := ev; d_agents := ids |}]) f).

(** One step of the [i]-th task: its next delivery.  A task whose handler
    panics ends, with the rest of its deliveries. *)
Definition run_task (i : nat) (f : Fleet) : Fleet :=
  match f.(tasks) !! i with
  | None => f
  | Some t =>
      match t.(d_agents) with
      | [] => set_tasks (base.delete i f.(tasks)) f
      | id :: rest =>
          let '(r, f') := send id t.(d_event) f in
          match r with
          | Some _ => set_tasks (<[i := {| d_event := t.(d_event); d_agents := rest |}]> f.(tasks)) f'
          | None => set_tasks (base.delete i f.(tasks)) f'
          end
      end
  end.

(** [mem::replace(&mut *queue, Vec::new())]. *)
Definition take_queue : ST Fleet (list ActionRef) := fun f =>
  (Some f.(fleet_queue), set_fleet_queue [] f).

(** ** Effects on one agent *)

Lemma send_initialized id ev f s a o s' e' :
  f.(cells) !! id = Some (s, a) ->
  handle_event ev (s, env a f.(fleet_world) f.(fleet_queue)) = (o, (s', e')) ->
  send id ev f = (o, mk_fleet (<[id := (s', e'.(self))]> f.(cells)) f.(next_cell) e'.(world)
                       e'.(queue) f.(tasks)).
Proof. intros Hc Hh. unfold send, with_agent. rewrite Hc, Hh. reflexivity. Qed.

(** Sending to one agent leaves the others' cells alone. *)
Lemma send_other id ev f id' :
  id' <> id -> (snd (send id ev f)).(cells) !! id' = f.(cells) !! id'.
Proof.
  intros Hne. unfold send, with_agent. destruct (f.(cells) !! id) as [[s a]|]; [|done].
  destruct (handle_event ev _) as [r [s' e']]. cbn. now rewrite lookup_insert_ne.
Qed.

Lemma send_tasks id ev f : (snd (send id ev f)).(tasks) = f.(tasks).
Proof.
  unfold send, with_agent. destruct (f.(cells) !! id) as [[s a]|]; [|done].
  destruct (handle_event ev _) as [r [s' e']]. done.
Qed.
End Fleet.

(** * The volume strategy ([strategies/volume_strategy])

    A cycle of phases driven by events: sweep what stale agents hold, sell the
    inventory, fund fresh agents, buy, collect the tokens, hand them to fresh
    sellers, sell, collect the SOL, sleep.  Each phase's entry action sends
    commands to the agents; its handler looks at their states.  Every event is
    also delivered to the main wallet and the agents by a spawned task
    ([on_dispatch]). *)

Import Types Cache GenericApi.

Module Volume.

(** [types/volume_strategy.rs]. *)
Record VolumeStrategyInstance := {
  instance_id : StrategyId;
  user_id : Z;
  target_pool : Pubkey;
  completed_at : option Z;
  tranche_size_sol : f64;
  tranche_frequency_hbs : Z;
  agents_buying_in_tranche : Z;
  agents_selling_in_tranche : Z;
  agents_keep_tokens_lamports : Z;
}.

Inductive ExecutionStatus := StatusIdle | StatusError | StatusDone | StatusPending.

#[global] Instance ExecutionStatus_eq_dec : EqDecision ExecutionStatus.
Proof. solve_decision. Defined.

Inductive State :=
| Sweeping
| OffloadingInventory
| Fund
| Buying
| CollectingTokens
| TransferringTokenToSellers
| Selling
| CollectingSol
| Sleeping
| Idle
| Error (msg : string).

#[global] Instance State_eq_dec : EqDecision State.
Proof. solve_decision. Defined.

(** [VolumeStrategyStateMachine]: [main_wallet] and [agents] are shared cells
    of the fleet. *)
Record Env := env {
  instance : VolumeStrategyInstance;
  pool : RaydiumPool;
  main_wallet : AgentId;
  stopwatch : Stopwatch.t;
  agents : list AgentId;
  fleet : Fleet;
}.

Definition set_agents v (s : Env) : Env :=
  env s.(instance) s.(pool) s.(main_wallet) s.(stopwatch) v s.(fleet).
Definition set_stopwatch v (s : Env) : Env :=
  env s.(instance) s.(pool) s.(main_wallet) v s.(agents) s.(fleet).
Definition set_instance v (s : Env) : Env :=
  env v s.(pool) s.(main_wallet) s.(stopwatch) s.(agents) s.(fleet).

Definition on_fleet {A} (m : ST Fleet A) : ST Env A :=
  st_zoom fleet (fun f s => env s.(instance) s.(pool) s.(main_wallet) s.(stopwatch) s.(agents) f) m.

Definition on_world {A} (m : ST World A) : ST Env A := on_fleet (on_fleet_world m).

Section Strategy.
Context `{Profile} `{Ext} `{StatigDriver}.

(** [n as usize] used as a length: a negative number is larger than any
    allocation. *)
Definition as_length (n : Z) : ST Env nat := if n <? 0 then st_panic else st_ret (Z.to_nat n).

(** ** Status *)

(** The loop of [get_execution_status]: [None] is the early return. *)
Fixpoint count_agents (ids : list AgentId) (agents_with_error agents_with_success : nat)
    : ST Fleet (option (nat * nat)) :=
  match ids with
  | [] => st_ret (Some (agents_with_error, agents_with_success))
  | id :: rest =>
      st <- agent_state id ;;
      match st with
      | Agent.Success => count_agents rest agents_with_error (S agents_with_success)
      | Agent.Error _ | Agent.Deactivating _ | Agent.Deactivated =>
          count_agents rest (S agents_with_error) agents_with_success
      | _ => st_ret None
      end
  end.

Definition get_execution_status : ST Env ExecutionStatus :=
  s <- st_get ;;
  match s.(agents) with
  | [] => st_ret StatusError
  | _ =>
      counts <- on_fleet (count_agents s.(agents) 0 0) ;;
      st_ret match counts with
             | None => StatusPending
             | Some (_, agents_with_success) =>
                 if (agents_with_success =? length s.(agents))%nat then StatusDone else StatusError
             end
  end.

(** ** Entry and exit actions *)

Definition main_key : ST Env KeypairClonable :=
  s <- st_get ;;
  c <- on_fleet (lock_agent s.(main_wallet)) ;;
  st_ret (Agent.agent_key (snd c)).

(** A stale trader becomes an agent when it still holds something. *)
Definition agent_with_balance (main : KeypairClonable) (t : Trader)
    : ST Env (option AgentId) :=
  s <- st_get ;;
  sol <- on_world (get_balance t.(wallet)) ;;
  tokens <- on_world (get_token_balance t.(wallet) s.(pool).(base_mint)) ;;
  match sol with
  | Err _ => st_ret None
  | Ok trader_sol_balance =>
      if (trader_sol_balance <? NEW_ACCOUNT_THRESHOLD_SOL) &&
         (Agent.or_zero tokens <? as_u64 s.(instance).(agents_keep_tokens_lamports))
      then st_ret None
      else
        a <- on_world (Agent.new_from_trader s.(pool) t (Some main)) ;;
        match a with
        | None => st_ret None
        | Some a => id <- on_fleet (new_agent_cell a) ;; st_ret (Some id)
        end
  end.

Definition send_all (ev : SolanaStrategyEvent) (ids : list AgentId) : ST Env unit :=
  st_iter (fun id => on_fleet (send id ev)) ids.

(** The results of [buffer_unordered] are taken in the order of the rows. *)
Definition collect_everything_from_staled_agents : ST Env unit :=
  main <- main_key ;;
  ok <- on_world db_get ;;
  (if ok then st_ret tt else st_panic) ;;;
  loaded <- on_world db_get ;;
  (if loaded then
     rows <- on_world (st_gets (fun w => (map_to_list w.(traders)).*2)) ;;
     found <- st_map (agent_with_balance main)
                (base.filter (fun t => t.(wallet) <> pubkey main) rows) ;;
     st_modify (set_agents (omap id found))
   else st_ret tt) ;;;
  s <- st_get ;;
  send_all (ForAgent Collect) s.(agents).

Definition zero_agents : ST Env unit :=
  s <- st_get ;;
  st_iter (fun id =>
    c <- on_fleet (lock_agent id) ;;
    on_world (stop_monitoring_account (Agent.pubkey_of (snd c))) ;;;
    on_world (stop_monitoring_token_account (Agent.pubkey_of (snd c)) s.(pool).(base_mint)))
    s.(agents) ;;;
  st_modify (set_agents []).

Definition offload_inventory : ST Env unit :=
  s <- st_get ;;
  token_balance <- on_fleet (token_balance_of s.(main_wallet)) ;;
  sol_balance <- on_fleet (sol_balance_of s.(main_wallet)) ;;
  if (0 <? token_balance) && (BASE_TX_FEE_SOL + TRANSFER_PRIORITY_FEE_SOL <=? sol_balance) then
    on_fleet (send s.(main_wallet) (ForAgent (Sell Max)))
  else st_ret tt.

(** The least a funded agent needs: one more transaction and, when it keeps
    tokens, the rent of its token account. *)
Definition funding_min_amount (i : VolumeStrategyInstance) : Z :=
  if i.(agents_keep_tokens_lamports) =? 0 then
    NEW_ACCOUNT_THRESHOLD_SOL + 3 * (BASE_TX_FEE_SOL + TRANSFER_PRIORITY_FEE_SOL)
  else
    BASE_TX_FEE_SOL + TRANSFER_PRIORITY_FEE_SOL +
    (BASE_TX_FEE_SOL + TRANSFER_PRIORITY_FEE_SOL) +
    (RENT_EXEMPTION_THRESHOLD_SOL + TRANSFER_PRIORITY_FEE_SOL + BASE_TX_FEE_SOL).

(** Creating one agent of the strategy. *)
Definition create_agent : ST Env (option (AgentId * Pubkey)) :=
  s <- st_get ;;
  key <- on_world keypair_new ;;
  main <- main_key ;;
  a <- on_world (Agent.new s.(pool) key (Some s.(instance).(instance_id)) (Some main)) ;;
  match a with
  | None => st_ret None
  | Some a =>
      id <- on_fleet (new_agent_cell a) ;;
      st_ret (Some (id, Agent.pubkey_of a))
  end.

(** The transfer of one share to a new agent; nothing if it cannot be created. *)
Definition fund_agent (amount : Z) : ST Env (list SolanaTransferActionPayload) :=
  created <- create_agent ;;
  match created with
  | None => st_ret []
  | Some (id, pk) =>
      st_modify (fun s => set_agents (s.(agents) ++ [id]) s) ;;;
      st_ret [{| asset := Sol; receiver := pk; amount := ExactWithFees amount |}]
  end.

(** One [Transfer] command per batch, all sent to the main wallet at once. *)
Definition send_batches (transfers : list SolanaTransferActionPayload) : ST Env unit :=
  st_iter (fun batch =>
    s <- st_get ;;
    on_fleet (send s.(main_wallet) (ForAgent (Transfer batch))))
    (chunks MAX_TRANSFERS_IN_ONE_TX transfers).

Definition initialize_agents_with_sol : ST Env unit :=
  s <- st_get ;;
  n <- as_length s.(instance).(agents_buying_in_tranche) ;;
  sample <- on_world (draw_dirichlet n) ;;
  amounts <- st_unwrap (Dirichlet.get_dirichlet_distributed_with_min_amount sample
    (Decimals.sol_to_lamports s.(instance).(tranche_size_sol)) n (funding_min_amount s.(instance))) ;;
  transfers <- st_map fund_agent amounts ;;
  send_batches (concat transfers).

Definition buy : ST Env unit :=
  s <- st_get ;;
  send_all (ForAgent (Buy MaxButLeaveForTransfer)) s.(agents).

Definition collect_token_from_agent (main_wallet_pubkey : Pubkey) (tokens_to_keep : Z)
    (minimum_sol : Z) (id : AgentId) : ST Env unit :=
  agent_token_balance <- on_fleet (token_balance_of id) ;;
  sol_balance <- on_fleet (sol_balance_of id) ;;
  if (tokens_to_keep <? agent_token_balance) && (minimum_sol <=? sol_balance) then
    transfer_amount <- st_unwrap (sub_u64 agent_token_balance tokens_to_keep) ;;
    c <- on_fleet (lock_agent id) ;;
    if tokens_to_keep =? 0 then on_fleet (send id (ForAgent Collect))
    else on_fleet (send id (ForAgent (Transfer
           [{| asset := Token (Agent.get_token_mint (snd c));
               receiver := main_wallet_pubkey;
               amount := Exact transfer_amount |}])))
  else st_ret tt.

Definition collect_token_from_agents : ST Env unit :=
  s <- st_get ;;
  main <- main_key ;;
  let tokens_to_keep := as_u64 s.(instance).(agents_keep_tokens_lamports) in
  let minimum_sol :=
    if tokens_to_keep =? 0 then BASE_TX_FEE_SOL + TRANSFER_PRIORITY_FEE_SOL
    else RENT_EXEMPTION_THRESHOLD_SOL + BASE_TX_FEE_SOL + TRANSFER_PRIORITY_FEE_SOL in
  st_iter (collect_token_from_agent (pubkey main) tokens_to_keep minimum_sol) s.(agents).

Definition create_agents (number_of_agents : Z) : ST Env unit :=
  created <- st_map (fun _ => create_agent) (replicate (Z.to_nat number_of_agents) tt) ;;
  st_modify (set_agents (fst <$> omap id created)).

(** The transfers to the [i]-th seller; indexing past the agents panics. *)
Definition seller_transfers (i : nat) (share : Z) : ST Env (list SolanaTransferActionPayload) :=
  s <- st_get ;;
  id <- st_unwrap (s.(agents) !! i) ;;
  c <- on_fleet (lock_agent id) ;;
  match current (fst c) with
  | Agent.Error _ | Agent.Deactivated => st_ret []
  | _ =>
      let pk := Agent.pubkey_of (snd c) in
      st_ret [{| asset := Sol; receiver := pk;
                 amount := Exact (BASE_TX_FEE_SOL + TRANSFER_PRIORITY_FEE_SOL +
                                  RENT_EXEMPTION_THRESHOLD_SOL) |};
              {| asset := Token s.(pool).(base_mint); receiver := pk; amount := Exact share |}]
  end.

Definition transfer_token_to_sellers : ST Env unit :=
  s <- st_get ;;
  token_balance <- on_fleet (token_balance_of s.(main_wallet)) ;;
  create_agents s.(instance).(agents_selling_in_tranche) ;;;
  n <- as_length s.(instance).(agents_selling_in_tranche) ;;
  sample <- on_world (draw_dirichlet n) ;;
  amounts <- st_unwrap (Dirichlet.get_dirichlet_distributed_amount sample token_balance n) ;;
  transfers <- st_map (fun p => seller_transfers (fst p) (snd p)) (imap pair amounts) ;;
  send_batches (concat transfers).

(** [keep] is subtracted without looking at the balance. *)
Definition sell_agent (keep : Z) (id : AgentId) : ST Env unit :=
  if keep =? 0 then
    token_balance <- on_fleet (token_balance_of id) ;;
    if 0 <? token_balance then on_fleet (send id (ForAgent Collect)) else st_ret tt
  else
    token_balance <- on_fleet (token_balance_of id) ;;
    sol_balance <- on_fleet (sol_balance_of id) ;;
    if BASE_TX_FEE_SOL + TRANSFER_PRIORITY_FEE_SOL <=? sol_balance then
      balance_to_sell <- st_unwrap (sub_u64 token_balance (as_u64 keep)) ;;
      on_fleet (send id (ForAgent (Sell (Exact balance_to_sell))))
    else st_ret tt.

Definition sell : ST Env unit :=
  s <- st_get ;;
  st_iter (sell_agent s.(instance).(agents_keep_tokens_lamports)) s.(agents).

Definition collect_sol_from_agents : ST Env unit :=
  s <- st_get ;;
  send_all (ForAgent Collect) s.(agents).

Definition set_sleep_timer_before_selling : ST Env unit :=
  s <- st_get ;;
  t <- on_world (st_gets now) ;;
  st_modify (set_stopwatch
    (Stopwatch.start t (as_u64 s.(instance).(tranche_frequency_hbs)) s.(stopwatch))).

(** [drop]: [cleanup] is its only caller. *)
Definition drop : ST Env unit :=
  s <- st_get ;;
  st_iter (fun id => on_fleet (send id (ForAgent Deactivate))) s.(agents) ;;;
  st_modify (set_agents []).

(** [self.drop()] is an [async fn] whose future is never awaited: it has no
    effect.  The user is notified by a message. *)
Definition cleanup : ST Env unit :=
  t <- on_world (st_gets now) ;;
  st_modify (fun s => set_instance
    {| instance_id := s.(instance).(instance_id); user_id := s.(instance).(user_id);
       target_pool := s.(instance).(target_pool); completed_at := Some t;
       tranche_size_sol := s.(instance).(tranche_size_sol);
       tranche_frequency_hbs := s.(instance).(tranche_frequency_hbs);
       agents_buying_in_tranche := s.(instance).(agents_buying_in_tranche);
       agents_selling_in_tranche := s.(instance).(agents_selling_in_tranche);
       agents_keep_tokens_lamports := s.(instance).(agents_keep_tokens_lamports) |} s) ;;;
  ok <- on_world db_get ;;
  if ok then st_ret tt else st_panic.

(** ** States *)

Definition main_state : ST Env Agent.State :=
  s <- st_get ;;
  on_fleet (agent_state s.(main_wallet)).

Definition sweeping : ST Env (Response State) :=
  st <- get_execution_status ;;
  st_ret match st with
         | StatusDone | StatusError => Transition OffloadingInventory
         | _ => Super
         end.

Definition offloading_inventory : ST Env (Response State) :=
  st <- main_state ;;
  st_ret match st with
         | Agent.Success | Agent.Error _ | Agent.Deactivated | Agent.Idle => Transition Fund
         | _ => Super
         end.

Definition fund : ST Env (Response State) :=
  st <- main_state ;;
  st_ret match st with
         | Agent.Success => Transition Buying
         | Agent.Error _ => Transition Sweeping
         | _ => Super
         end.

Definition buying : ST Env (Response State) :=
  st <- get_execution_status ;;
  st_ret match st with
         | StatusDone => Transition CollectingTokens
         | StatusError | StatusIdle => Transition Sweeping
         | StatusPending => Super
         end.

Definition collecting_tokens : ST Env (Response State) :=
  st <- get_execution_status ;;
  st_ret match st with
         | StatusDone => Transition TransferringTokenToSellers
         | StatusError => Transition Sweeping
         | _ => Super
         end.

Definition transferring_token_to_sellers : ST Env (Response State) :=
  st <- main_state ;;
  st_ret match st with
         | Agent.Success | Agent.Idle => Transition Selling
         | Agent.Error _ | Agent.Deactivated => Transition OffloadingInventory
         | _ => Super
         end.

Definition selling : ST Env (Response State) :=
  st <- get_execution_status ;;
  st_ret match st with
         | StatusDone => Transition CollectingSol
         | StatusError => Transition Sweeping
         | _ => Super
         end.

Definition collecting_sol : ST Env (Response State) :=
  st <- get_execution_status ;;
  st_ret match st with
         | StatusDone => Transition Sleeping
         | StatusError => Transition Sweeping
         | _ => Super
         end.

Definition sleeping (event : SolanaStrategyEvent) : ST Env (Response State) :=
  match event with
  | Original (HeartBeat tick_ms) =>
      s <- st_get ;;
      t <- on_world (st_gets now) ;;
      elapsed <- st_unwrap (Stopwatch.is_time_elapsed t tick_ms s.(stopwatch)) ;;
      if elapsed then
        st_modify (set_stopwatch (Stopwatch.turn_off s.(stopwatch))) ;;;
        st_ret (Transition Fund)
      else st_ret Super
  | _ => st_ret Super
  end.

Definition running (event : SolanaStrategyEvent) : ST Env (Response State) := st_ret Handled.

Definition strategy_handler (st : State) (event : SolanaStrategyEvent) : ST Env (Response State) :=
  match st with
  | Sweeping => sweeping
  | OffloadingInventory => offloading_inventory
  | Fund => fund
  | Buying => buying
  | CollectingTokens => collecting_tokens
  | TransferringTokenToSellers => transferring_token_to_sellers
  | Selling => selling
  | CollectingSol => collecting_sol
  | Sleeping => sleeping event
  | Idle | Error _ => st_ret Handled
  end.

Definition strategy_entry (st : State) : ST Env unit :=
  match st with
  | Sweeping => collect_everything_from_staled_agents
  | OffloadingInventory => offload_inventory
  | Fund => initialize_agents_with_sol
  | Buying => buy
  | CollectingTokens => collect_token_from_agents
  | TransferringTokenToSellers => transfer_token_to_sellers
  | Selling => sell
  | CollectingSol => collect_sol_from_agents
  | Sleeping => set_sleep_timer_before_selling
  | Idle => st_ret tt
  | Error _ => cleanup
  end.

Definition strategy_exit (st : State) : ST Env unit :=
  match st with
  | Sweeping | CollectingTokens | CollectingSol => zero_agents
  | _ => st_ret tt
  end.

(** The event goes to the main wallet and to the agents there are now. *)
Definition on_dispatch (st : State) (event : SolanaStrategyEvent) : ST Env unit :=
  s <- st_get ;;
  on_fleet (spawn_delivery event (s.(main_wallet) :: s.(agents))).

Definition strategy_machine : Machine Env State SolanaStrategyEvent := {|
  Statig.initial := Sweeping;
  Statig.on_dispatch := on_dispatch;
  Statig.handler := strategy_handler;
  Statig.superstate := fun st =>
    match st with Idle | Error _ => None | _ => Some running end;
  Statig.entry_action := strategy_entry;
  Statig.exit_action := strategy_exit;
|}.

(** [None]: the pool, the database or the user is missing.  [pool] is the answer
    of the node about the target pool, [user_key] the user's row by its private
    key, which must parse. *)
Definition new (pool : option RaydiumPool) (user_key : option (option KeypairClonable))
    (i : VolumeStrategyInstance) : ST Fleet (option (Sm State * Env)) :=
  match pool with
  | None => st_ret None
  | Some p =>
      t <- on_fleet_world (st_gets now) ;;
      ok <- on_fleet_world db_get ;;
      match ok, user_key with
      | true, Some key =>
          key <- st_unwrap key ;;
          a <- on_fleet_world (Agent.new p key None None) ;;
          match a with
          | None => st_ret None
          | Some a =>
              id <- new_agent_cell a ;;
              f <- st_get ;;
              st_ret (Some (state_machine strategy_machine,
                env i p id (Stopwatch.new t (as_u64 i.(tranche_frequency_hbs))) [] f))
          end
      | _, _ => st_ret None
      end
  end.

(** [VolumeStrategy::process_event]: derived and system events are dropped, the
    queue of actions is emptied and returned.  One step of the interleavings: what other
    tasks do while the handler waits happens before or after it. *)
Definition process_event (event : BotEvent) : ST (Sm State * Env) (list ActionRef) :=
  (match event with
   | ExecutionResultEvent _ _ _ | HeartBeat _ | Blockchain _ =>
       handle strategy_machine (Original event)
   | _ => st_ret tt
   end) ;;;
  on_shared (on_fleet take_queue).

(** ** Interleavings

    The strategy's steps and the deliveries of the tasks it spawned, in any
    order; time passes between them. *)
Inductive step : (Sm State * Env) -> (Sm State * Env) -> Prop :=
| step_event event p : step p (snd (process_event event p))
| step_delivery i m s :
    step (m, s) (m, env s.(instance) s.(pool) s.(main_wallet) s.(stopwatch) s.(agents)
                      (run_task i s.(fleet)))
| step_time d m s : 0 <= d ->
    step (m, s) (m, snd (on_world (sleep_ms d) s)).

Definition reachable (p q : Sm State * Env) : Prop := rtc step p q.
End Strategy.
End Volume.
