(* ===== verification/VolumeStrategyFacts.v ===== *)
(** * How the volume strategy moves

    What the phases wait for, what happens to the batches of transfers, and
    where a tranche can stall. *)

From S2P Require Import Prelude MachineInt Float64 Buffers Amounts Types Cache GenericApi Samples Statig VolumeAgent VolumeAgentFacts VolumeStrategy.
Import Volume.

Section Facts.
Context `{Profile} `{Ext} `{StatigDriver}.

(** ** Status *)

(** The agent is still working on its command, or never got one. *)
Definition undecided (st : Agent.State) : bool :=
  match st with
  | Agent.Success | Agent.Error _ | Agent.Deactivating _ | Agent.Deactivated => false
  | _ => true
  end.

(** The states of the agents [ids] in the fleet. *)
Definition states_of (f : Fleet) (ids : list AgentId) (sts : list Agent.State) : Prop :=
  Forall2 (fun id st => exists a i, f.(cells) !! id = Some (sm st i, a)) ids sts.

(** The status as a function of the agents' states. *)
Definition status_of (sts : list Agent.State) : ExecutionStatus :=
  match sts with
  | [] => StatusError
  | _ =>
      if existsb undecided sts then StatusPending
      else if forallb (fun st => bool_decide (st = Agent.Success)) sts then StatusDone
      else StatusError
  end.

Lemma agent_state_ok id f st i a :
  f.(cells) !! id = Some (sm st i, a) -> agent_state id f = (Some st, f).
Proof.
  intros Hc. unfold agent_state, lock_agent, st_bind, st_gets. rewrite Hc. reflexivity.
Qed.

Lemma count_agents_spec f ids sts e n :
  states_of f ids sts ->
  count_agents ids e n f
  = (Some (if existsb undecided sts then None
           else Some (e + length (base.filter (fun st => st <> Agent.Success) sts),
                      n + length (base.filter (fun st => st = Agent.Success) sts)))%nat, f).
Proof.
  intros Hs. revert e n. induction Hs as [|id st ids sts (a & i & Hc) Hs IH]; intros e n.
  - cbn. rewrite !Nat.add_0_r. reflexivity.
  - cbn [count_agents]. rewrite (st_bind_Some _ _ _ _ _ (agent_state_ok _ _ _ _ _ Hc)).
    destruct st; try reflexivity; rewrite IH; cbn; destruct (existsb undecided sts);
      try reflexivity; repeat case_decide; try done; cbn [length];
      rewrite ?Nat.add_succ_r; reflexivity.
Qed.

Lemma filter_success_length sts :
  (length (base.filter (fun st => st = Agent.Success) sts) =? length sts)%nat
  = forallb (fun st => bool_decide (st = Agent.Success)) sts.
Proof.
  induction sts as [|st sts IH]; [reflexivity|]. cbn [forallb length].
  destruct (decide (st = Agent.Success)) as [->|Hne].
  - rewrite filter_cons_True by done. cbn. exact IH.
  - rewrite filter_cons_False by done. rewrite bool_decide_false by done. cbn.
    apply Nat.eqb_neq. pose proof (length_filter (fun st => st = Agent.Success) sts). lia.
Qed.

Lemma get_execution_status_states s sts :
  states_of (fleet s) (agents s) sts -> get_execution_status s = (Some (status_of sts), s).
Proof.
  intros Hs. unfold get_execution_status, st_bind, st_get. cbn.
  pose proof (Forall2_length _ _ _ Hs) as Hlen.
  destruct (agents s) as [|id ids] eqn:Ea; [destruct sts; [reflexivity | discriminate]|].
  unfold on_fleet, st_zoom. rewrite (count_agents_spec _ _ _ _ _ Hs).
  destruct sts as [|st sts]; [discriminate|]. unfold status_of. destruct s. cbn [fleet agents] in *.
  destruct (existsb undecided (st :: sts)); [reflexivity|].
  rewrite <- filter_success_length, Hlen. reflexivity.
Qed.
(** ** Batches of transfers *)

Lemma send_same id ev f m a :
  f.(cells) !! id = Some (m, a) ->
  Agent.handle_event ev (m, Agent.env a f.(fleet_world) f.(fleet_queue))
  = (Some tt, (m, Agent.env a f.(fleet_world) f.(fleet_queue))) ->
  send id ev f = (Some tt, f).
Proof.
  intros Hc Hh. erewrite send_initialized; [|exact Hc | exact Hh]. cbn.
  rewrite insert_id by done. by destruct f.
Qed.

Lemma send_busy id st r next ev f a :
  f.(cells) !! id = Some (sm st true, a) -> command st = Some (r, next) ->
  is_command_event ev = true -> ev <> ForAgent Deactivate ->
  send id ev f = (Some tt, f).
Proof. intros. eapply send_same; [done|]. by eapply busy_command. Qed.

Lemma free_transfer st batch e :
  st = Agent.Idle \/ st = Agent.Success ->
  exists e' a, Agent.handle_event (ForAgent (Transfer batch)) (sm st true, e)
      = (Some tt, (sm (Agent.Transferring batch 0) true, e')) /\
    attempted e e' a /\ action_payload a = TransferPayload <$> batch.
Proof.
  intros Hst. rewrite handle_event_step. unfold step_result.
  destruct (agent_entry_attempt (Agent.Transferring batch 0) e) as (e' & a & E & Hat & Hp & _);
    [done | discriminate |].
  exists e', a. split; [|done]. destruct Hst as [-> | ->]; cbn -[Agent.transfer];
    cbn [Agent.agent_entry] in E; now rewrite E.
Qed.

Definition on_fleet_env (f : Fleet) (s : Env) : Env :=
  env s.(instance) s.(pool) s.(main_wallet) s.(stopwatch) s.(agents) f.

Lemma send_batches_unfold l s :
  send_batches l s
  = st_iter (fun batch s => let '(r, f) := send s.(main_wallet) (ForAgent (Transfer batch)) s.(fleet)
                            in (r, on_fleet_env f s)) (chunks MAX_TRANSFERS_IN_ONE_TX l) s.
Proof. reflexivity. Qed.

Lemma send_batches_busy st r next bs s a :
  s.(fleet).(cells) !! s.(main_wallet) = Some (sm st true, a) -> command st = Some (r, next) ->
  st_iter (fun batch s => let '(r, f) := send s.(main_wallet) (ForAgent (Transfer batch)) s.(fleet)
                          in (r, on_fleet_env f s)) bs s = (Some tt, s).
Proof.
  intros Hc Hs. induction bs as [|b bs IH]; [reflexivity|]. cbn [st_iter]. unfold st_bind at 1.
  erewrite send_busy; [|exact Hc | exact Hs | done | discriminate].
  replace (on_fleet_env (fleet s) s) with s by (by destruct s). exact IH.
Qed.

Lemma chunks_first {A} (l : list A) : l <> [] ->
  exists rest, chunks MAX_TRANSFERS_IN_ONE_TX l = take 12 l :: rest /\
               ((length l <= 12)%nat -> rest = []).
Proof.
  intros Hl. destruct l as [|x l]; [done|]. unfold chunks. cbn [length chunks_fuel].
  eexists. split; [reflexivity|]. intros Hlen. change MAX_TRANSFERS_IN_ONE_TX with 12%nat.
  rewrite drop_ge by exact Hlen. by destruct (length l).
Qed.

(** ** What a phase waits for *)

(** The states of the main wallet and of the agents. *)
Definition observes (s : Env) (main : Agent.State) (sts : list Agent.State) : Prop :=
  states_of (fleet s) (agents s) sts /\
  exists i a, s.(fleet).(cells) !! s.(main_wallet) = Some (sm main i, a).

(** The reason to move from a phase to another. *)
Inductive justified (main : Agent.State) (sts : list Agent.State) : State -> State -> Prop :=
| swept : status_of sts <> StatusPending ->
    justified main sts Sweeping OffloadingInventory
| offloaded : undecided main = false \/ main = Agent.Idle ->
    (forall r, main <> Agent.Deactivating r) ->
    justified main sts OffloadingInventory Fund
| funded : main = Agent.Success -> justified main sts Fund Buying
| not_funded msg : main = Agent.Error msg -> justified main sts Fund Sweeping
| bought : sts <> [] -> Forall (eq Agent.Success) sts -> justified main sts Buying CollectingTokens
| collected : sts <> [] -> Forall (eq Agent.Success) sts ->
    justified main sts CollectingTokens TransferringTokenToSellers
| transferred : main = Agent.Success \/ main = Agent.Idle ->
    justified main sts TransferringTokenToSellers Selling
| not_transferred : main = Agent.Deactivated \/ (exists msg, main = Agent.Error msg) ->
    justified main sts TransferringTokenToSellers OffloadingInventory
| sold : sts <> [] -> Forall (eq Agent.Success) sts -> justified main sts Selling CollectingSol
| sol_collected : sts <> [] -> Forall (eq Agent.Success) sts ->
    justified main sts CollectingSol Sleeping
| failed_phase from : from = Buying \/ from = CollectingTokens \/ from = Selling \/ from = CollectingSol ->
    Forall (fun st => undecided st = false) sts -> (exists st, st ∈ sts /\ st <> Agent.Success) \/ sts = [] ->
    justified main sts from Sweeping
| woke_up : justified main sts Sleeping Fund.

Lemma status_done sts : status_of sts = StatusDone -> sts <> [] /\ Forall (eq Agent.Success) sts.
Proof.
  unfold status_of. destruct sts as [|st sts]; [done|]. destruct (existsb _ _); [done|].
  destruct (forallb _ _) eqn:E; [|done]. intros _. split; [done|].
  rewrite forallb_forall in E. apply Forall_forall. intros x Hx. apply list_elem_of_In in Hx.
  symmetry. apply E in Hx. by apply bool_decide_eq_true in Hx.
Qed.

Lemma status_error sts : status_of sts = StatusError ->
  Forall (fun st => undecided st = false) sts /\ ((exists st, st ∈ sts /\ st <> Agent.Success) \/ sts = []).
Proof.
  unfold status_of. destruct sts as [|st sts]; [by auto|]. destruct (existsb _ _) eqn:Eu; [done|].
  destruct (forallb _ _) eqn:E; [done|]. intros _. split.
  - apply Forall_forall. intros x Hx. destruct (undecided x) eqn:Ex; [|done].
    assert (existsb undecided (st :: sts) = true) as Ht; [|by rewrite Ht in Eu].
    apply existsb_exists. exists x. by rewrite <- list_elem_of_In.
  - left. apply not_true_iff_false in E. rewrite forallb_forall in E.
    destruct (decide (Exists (fun st => st <> Agent.Success) (st :: sts))) as [Hx|Hx].
    + by apply Exists_exists in Hx.
    + exfalso. apply E. intros x Hin. apply list_elem_of_In in Hin.
      apply bool_decide_eq_true_2. apply not_Exists_Forall in Hx; [|intros ?; apply _].
      rewrite Forall_forall in Hx. specialize (Hx x Hin). by apply dec_stable in Hx.
Qed.
Lemma main_state_ok s main i a :
  s.(fleet).(cells) !! s.(main_wallet) = Some (sm main i, a) -> main_state s = (Some main, s).
Proof.
  intros Hc. unfold main_state, on_fleet, st_zoom, st_bind, st_get. cbn [fst snd].
  rewrite (agent_state_ok _ _ _ _ _ Hc). by destruct s.
Qed.

Lemma handler_justified st ev s main sts t s' :
  observes s main sts -> strategy_handler st ev s = (Some (Transition t), s') ->
  justified main sts st t.
Proof.
  intros (Hsts & i & a & Hmain) Hh.
  pose proof (get_execution_status_states _ _ Hsts) as Hstatus.
  pose proof (main_state_ok _ _ _ _ Hmain) as Hm.
  destruct st; cbn [strategy_handler] in Hh; try done;
    unfold sweeping, offloading_inventory, fund, buying, collecting_tokens,
      transferring_token_to_sellers, selling, collecting_sol in Hh;
    try (rewrite (st_bind_Some _ _ _ _ _ Hstatus) in Hh);
    try (rewrite (st_bind_Some _ _ _ _ _ Hm) in Hh); unfold st_ret in Hh.
  - destruct (status_of sts) eqn:Es; try done; injection Hh as <- _; constructor; congruence.
  - destruct main; try done; injection Hh as <- _; constructor; by eauto.
  - destruct main; try done; injection Hh as <- _; econstructor; by eauto.
  - destruct (status_of sts) eqn:Es; try done; injection Hh as <- _;
      first [by constructor; apply status_done | apply failed_phase; [by auto | by apply status_error..] | idtac].
    unfold status_of in Es. repeat case_match; done.
  - destruct (status_of sts) eqn:Es; try done; injection Hh as <- _;
      first [by constructor; apply status_done | apply failed_phase; [by auto | by apply status_error..]].
  - destruct main; try done; injection Hh as <- _; constructor; by eauto.
  - destruct (status_of sts) eqn:Es; try done; injection Hh as <- _;
      first [by constructor; apply status_done | apply failed_phase; [by auto | by apply status_error..]].
  - destruct (status_of sts) eqn:Es; try done; injection Hh as <- _;
      first [by constructor; apply status_done | apply failed_phase; [by auto 6 | by apply status_error..]].
  - unfold sleeping in Hh. destruct ev as [[]|]; try done.
    apply st_bind_inv in Hh as (? & ? & _ & Hh). apply st_bind_inv in Hh as (? & ? & _ & Hh).
    apply st_bind_inv in Hh as (el & ? & _ & Hh). destruct el; [|done].
    apply st_bind_inv in Hh as (? & ? & _ & Hh). injection Hh as <- _. constructor.
Qed.

(** ** Properties *)

(** The status of a tranche is that of its agents, whatever their order:
    pending while one of them has not decided, done when all succeeded, an error
    when one failed and none is working, and an error when there is none. *)
Theorem execution_status_spec (s : Env) (sts : list Agent.State) :
  states_of (fleet s) (agents s) sts ->
  exists st, get_execution_status s = (Some st, s) /\
    (st = StatusPending <-> Exists (fun x => undecided x = true) sts) /\
    (st = StatusDone <-> sts <> [] /\ Forall (eq Agent.Success) sts) /\
    (st = StatusError <-> Forall (fun x => undecided x = false) sts /\
       ((exists x, x ∈ sts /\ x <> Agent.Success) \/ sts = [])).
Proof.
  intros Hs. exists (status_of sts). split; [by apply get_execution_status_states|].
  assert (Hpend : status_of sts = StatusPending <-> Exists (fun x => undecided x = true) sts).
  { unfold status_of. destruct sts as [|st sts]; [split; [done | by intros ?%Exists_nil]|].
    rewrite Exists_exists. destruct (existsb undecided (st :: sts)) eqn:E.
    - split; [intros _|done]. apply existsb_exists in E as (x & Hin & Hx).
      exists x. by rewrite list_elem_of_In.
    - split; [by destruct (forallb _ _)|]. intros (x & Hin & Hx). exfalso.
      apply not_true_iff_false in E. apply E, existsb_exists. exists x.
      by rewrite <- list_elem_of_In. }
  split; [exact Hpend|]. split; split; [apply status_done | | apply status_error |].
  - intros [Hne Hall]. unfold status_of. destruct sts as [|st sts]; [done|].
    replace (existsb undecided (st :: sts)) with false.
    2: { symmetry. apply not_true_iff_false. intros (x & Hin & Hx)%existsb_exists.
         rewrite Forall_forall in Hall. apply list_elem_of_In, Hall in Hin. by subst. }
    replace (forallb _ _) with true; [done|]. symmetry. apply forallb_forall.
    intros x Hin. rewrite Forall_forall in Hall. apply list_elem_of_In, Hall in Hin. by subst.
  - intros [Hall Hsome]. destruct (status_of sts) eqn:E; [|done|..].
    + unfold status_of in E. repeat case_match; done.
    + apply status_done in E as [Hne Hok]. destruct Hsome as [(x & Hin & Hx) | ->]; [|done].
      rewrite Forall_forall in Hok. by apply Hok in Hin.
    + assert (Exists (fun x => undecided x = true) sts) as (x & Hin & Hx)%Exists_exists
        by (by apply Hpend).
      rewrite Forall_forall in Hall. apply Hall in Hin. congruence.
Qed.

(** C9. The strategy changes phase only for a reason: it buys only once the main
    wallet reports that the agents are funded, collects only when every agent
    succeeded, sells only when the main wallet is done transferring, and gives a
    phase up only when no agent is working and one failed (or there is none). *)
Theorem phase_change_justified (event : BotEvent) (st : State) (s : Env) (main : Agent.State)
    (sts : list Agent.State) (m' : Sm State) (s' : Env) :
  observes s main sts ->
  snd (handle strategy_machine (Original event) (sm st true, s)) = (m', s') ->
  current m' = st \/ justified main sts st (current m').
Proof.
  intros Hobs. rewrite handle_initialized. intros Hd.
  apply dispatch_target in Hd as [Hd | (t & s1 & s2 & -> & Hdis & Hh)]; [by left|]. right.
  assert (Hobs1 : observes s1 main sts) by (injection Hdis as <-; exact Hobs).
  destruct Hh as [Hh | (h & s3 & _ & Hsup & Hh)]; [by eapply handler_justified|].
  cbn in Hsup. destruct st; simplify_eq; done.
Qed.

(** Only the first batch of transfers is made.  The batches are sent to the
    main wallet one after the other without waiting: the first makes it busy,
    and it ignores the rest, so of a list of transfers only the first twelve are
    queued, in one action, and the others are lost. *)
Theorem only_first_batch_is_sent (transfers : list SolanaTransferActionPayload) (s : Env)
    (st : Agent.State) (a : Agent.AgentState) :
  s.(fleet).(cells) !! s.(main_wallet) = Some (sm st true, a) ->
  st = Agent.Idle \/ st = Agent.Success -> transfers <> [] ->
  exists s' act a', send_batches transfers s = (Some tt, s') /\
    s'.(fleet).(cells) !! s.(main_wallet)
      = Some (sm (Agent.Transferring (take 12 transfers) 0) true, a') /\
    s'.(fleet).(fleet_queue) = s.(fleet).(fleet_queue) ++ [s.(fleet).(fleet_world).(next_ref)] /\
    s'.(fleet).(fleet_world).(heap) !! s.(fleet).(fleet_world).(next_ref) = Some act /\
    action_payload act = TransferPayload <$> take 12 transfers.
Proof.
  intros Hc Hst Hne. destruct (chunks_first transfers Hne) as (rest & Hch & _).
  destruct (free_transfer st (take 12 transfers)
    (Agent.env a s.(fleet).(fleet_world) s.(fleet).(fleet_queue)) Hst)
    as (e' & act & Hh & [] & Hp).
  pose proof (send_initialized _ _ _ _ _ _ _ _ Hc Hh) as Hsend.
  set (f1 := mk_fleet _ _ _ _ _) in Hsend.
  exists (on_fleet_env f1 s), act, (Agent.self e').
  assert (Hc1 : cells f1 !! main_wallet s
    = Some (sm (Agent.Transferring (take 12 transfers) 0) true, Agent.self e'))
    by apply lookup_insert_eq.
  split; [|split_and!; [exact Hc1 | exact at_queue | | done]].
  - rewrite send_batches_unfold, Hch. cbn [st_iter]. unfold st_bind at 1. rewrite Hsend.
    by eapply send_batches_busy.
  - cbn. rewrite at_heap. apply lookup_insert_eq.
Qed.
(** ** A stalled tranche *)

(** Funding, with the main wallet idle and only events from outside under way. *)
Definition stalled (p : Sm State * Env) : Prop :=
  let '(m, s) := p in
  m = sm Fund true /\
  (exists i a, s.(fleet).(cells) !! s.(main_wallet) = Some (sm Agent.Idle i, a)) /\
  Forall (fun d => is_command_event d.(d_event) = false) s.(fleet).(tasks).

Lemma idle_ignores_originals ev i e :
  is_command_event ev = false ->
  Agent.handle_event ev (sm Agent.Idle i, e) = (Some tt, (sm Agent.Idle true, e)).
Proof.
  intros Hev. assert (Hstep : step_result Agent.Idle ev e = (Some tt, (sm Agent.Idle true, e)))
    by (by destruct ev).
  destruct i; [now rewrite handle_event_step | now rewrite handle_event_first].
Qed.

Lemma send_keeps_idle main id ev f :
  is_command_event ev = false ->
  (exists i a, f.(cells) !! main = Some (sm Agent.Idle i, a)) ->
  exists i a, (snd (send id ev f)).(cells) !! main = Some (sm Agent.Idle i, a).
Proof.
  intros Hev (i & a & Hc). destruct (decide (main = id)) as [->|Hne].
  - rewrite (send_initialized _ _ _ _ _ _ _ _ Hc (idle_ignores_originals ev i _ Hev)). cbn.
    exists true, a. apply lookup_insert_eq.
  - rewrite send_other by done. eauto.
Qed.

Lemma run_task_keeps_idle main i f :
  Forall (fun d => is_command_event d.(d_event) = false) f.(tasks) ->
  (exists i a, f.(cells) !! main = Some (sm Agent.Idle i, a)) ->
  (exists i' a, (run_task i f).(cells) !! main = Some (sm Agent.Idle i', a)) /\
  Forall (fun d => is_command_event d.(d_event) = false) (run_task i f).(tasks).
Proof.
  intros Ht Hc. unfold run_task. destruct (tasks f !! i) as [t|] eqn:Et; [|done].
  pose proof (Forall_lookup_1 _ _ _ _ Ht Et) as Hev. cbn in Hev.
  destruct (d_agents t) as [|id rest]; [split; [exact Hc | by apply Forall_delete]|].
  pose proof (send_keeps_idle main id (d_event t) f Hev Hc) as Hc'.
  destruct (send id (d_event t) f) as [[[]|] f']; cbn in *; (split; [exact Hc'|]).
  - by apply Forall_insert.
  - by apply Forall_delete.
Qed.

Lemma stalled_event event s :
  stalled (sm Fund true, s) -> stalled (snd (process_event event (sm Fund true, s))).
Proof.
  intros (_ & (i & a & Hc) & Ht).
  assert (Hdrop : snd (on_shared (on_fleet take_queue) (sm Fund true, s))
    = (sm Fund true, on_fleet_env (set_fleet_queue [] (fleet s)) s)) by reflexivity.
  assert (Hrun : snd ((handle strategy_machine (Original event) ;;;
                       on_shared (on_fleet take_queue)) (sm Fund true, s))
    = (sm Fund true, on_fleet_env (set_fleet_queue [] (set_tasks (tasks (fleet s) ++
        [{| d_event := Original event; d_agents := main_wallet s :: agents s |}]) (fleet s))) s)).
  { unfold st_bind. rewrite handle_initialized.
    set (s1 := on_fleet_env (set_tasks (tasks (fleet s) ++
      [{| d_event := Original event; d_agents := main_wallet s :: agents s |}]) (fleet s)) s).
    assert (Hd : on_dispatch Fund (Original event) s = (Some tt, s1)) by reflexivity.
    assert (Hf : strategy_handler Fund (Original event) s1 = (Some Super, s1)).
    { cbn [strategy_handler]. unfold fund.
      by rewrite (st_bind_Some _ _ _ _ _ (main_state_ok s1 _ _ _ Hc)). }
    rewrite (dispatch_handled_above strategy_machine (Original event) Fund s s1 s1 s1 running
      Hd Hf eq_refl eq_refl). reflexivity. }
  unfold process_event.
  assert (Hs1 : stalled (sm Fund true, on_fleet_env (set_fleet_queue [] (fleet s)) s)).
  { split; [done|]. split; [by exists i, a | done]. }
  assert (Hs2 : stalled (sm Fund true, on_fleet_env (set_fleet_queue [] (set_tasks (tasks (fleet s) ++
        [{| d_event := Original event; d_agents := main_wallet s :: agents s |}]) (fleet s))) s)).
  { split; [done|]. split; [by exists i, a|]. cbn. apply Forall_app. split; [done|].
    by repeat constructor. }
  destruct event; try (by rewrite Hrun); exact Hs1.
Qed.

(** Funding can stall for ever.  If the main wallet is in its error state
    when funding starts, its error handler consumes the transfers: nothing is
    queued and the wallet is idle; and from there, whatever events arrive and
    however deliveries interleave, the strategy stays in the funding phase. *)
Theorem funding_stalls_after_error :
  (forall transfers s msg a,
     s.(fleet).(cells) !! s.(main_wallet) = Some (sm (Agent.Error msg) true, a) ->
     Agent.is_main_wallet a = true -> transfers <> [] -> (length transfers <= 12)%nat ->
     exists s', send_batches transfers s = (Some tt, s') /\
       s'.(fleet).(cells) !! s.(main_wallet) = Some (sm Agent.Idle true, a) /\
       s'.(fleet).(fleet_queue) = s.(fleet).(fleet_queue)) /\
  (forall p q, stalled p -> reachable p q -> stalled q).
Proof.
  split.
  - intros transfers s msg a Hc Hmain Hne Hlen.
    destruct (chunks_first transfers Hne) as (rest & Hch & Hrest). rewrite (Hrest Hlen) in Hch.
    assert (Hh : Agent.handle_event (ForAgent (Transfer (take 12 transfers)))
        (sm (Agent.Error msg) true, Agent.env a s.(fleet).(fleet_world) s.(fleet).(fleet_queue))
      = (Some tt, (sm Agent.Idle true,
                   Agent.env a s.(fleet).(fleet_world) s.(fleet).(fleet_queue)))).
    { rewrite handle_event_step. unfold step_result. cbn. unfold Agent.error, st_bind, st_get. cbn.
      rewrite Hmain. reflexivity. }
    pose proof (send_initialized _ _ _ _ _ _ _ _ Hc Hh) as Hsend.
    rewrite send_batches_unfold, Hch. cbn [st_iter]. unfold st_bind. rewrite Hsend.
    eexists. split; [reflexivity|]. split; [apply lookup_insert_eq | reflexivity].
  - intros p q Hp Hq. induction Hq as [|p q r Hstep _ IH]; [done|]. apply IH. clear IH.
    destruct Hstep as [event [m s] | i m s | d m s Hd].
    + pose proof Hp as (-> & _). by apply stalled_event.
    + destruct Hp as (-> & Hc & Ht). split; [done|]. by apply run_task_keeps_idle.
    + destruct Hp as (-> & Hc & Ht). split; [done|]. done.
Qed.

(** ** Selling *)

(** A cached account is read without a change. *)
Lemma cached_balance_of (m : ST Agent.Env Z) id f st i a r :
  f.(cells) !! id = Some (sm st i, a) ->
  m (Agent.env a f.(fleet_world) f.(fleet_queue))
  = (Some r, Agent.env a f.(fleet_world) f.(fleet_queue)) ->
  with_agent id (on_shared m) f = (Some r, f).
Proof.
  intros Hc Hm. unfold with_agent. rewrite Hc. unfold on_shared, st_zoom. cbn [snd fst].
  rewrite Hm. cbn. rewrite insert_id by done. by destruct f.
Qed.

(** The agent's cached balances. *)
Definition cached_tokens (f : Fleet) (a : Agent.AgentState) (b : Z) : Prop :=
  exists acc, OperationalCache.get_account (ata (Agent.pubkey_of a) (Agent.get_token_mint a))
                f.(fleet_world).(cache) = Some (Some acc) /\ token_amount acc = b.

Definition cached_sol (f : Fleet) (a : Agent.AgentState) (b : Z) : Prop :=
  exists acc, OperationalCache.get_account (Agent.pubkey_of a) f.(fleet_world).(cache)
              = Some (Some acc) /\ acc_lamports acc = b.

Lemma token_balance_cached id f st i a b :
  f.(cells) !! id = Some (sm st i, a) -> cached_tokens f a b ->
  token_balance_of id f = (Some b, f).
Proof.
  intros Hc (acc & Hacc & <-). eapply cached_balance_of; [exact Hc|].
  unfold Agent.get_token_balance, st_bind, st_get, Agent.on_world, st_zoom. cbn [fst snd Agent.self Agent.world].
  unfold GenericApi.get_token_balance, st_bind, st_gets. rewrite Hacc. reflexivity.
Qed.

Lemma sol_balance_cached id f st i a b :
  f.(cells) !! id = Some (sm st i, a) -> cached_sol f a b ->
  sol_balance_of id f = (Some b, f).
Proof.
  intros Hc (acc & Hacc & <-). eapply cached_balance_of; [exact Hc|].
  unfold Agent.get_sol_balance, st_bind, st_get, Agent.on_world, st_zoom. cbn [fst snd Agent.self Agent.world].
  unfold get_balance, st_bind, st_gets. rewrite Hacc. reflexivity.
Qed.
Lemma free_sell st amt e :
  st = Agent.Idle \/ st = Agent.Success ->
  exists e', Agent.handle_event (ForAgent (Sell amt)) (sm st true, e)
      = (Some tt, (sm (Agent.Selling amt 0) true, e')).
Proof.
  intros Hst. rewrite handle_event_step. unfold step_result.
  destruct (agent_entry_attempt (Agent.Selling amt 0) e) as (e' & a & E & _); [done | done |].
  exists e'. destruct Hst as [-> | ->]; cbn -[Agent.sell]; cbn [Agent.agent_entry] in E; now rewrite E.
Qed.

Lemma sell_agent_sends keep id s st a b g :
  s.(fleet).(cells) !! id = Some (sm st true, a) -> cached_tokens s.(fleet) a b ->
  cached_sol s.(fleet) a g -> BASE_TX_FEE_SOL + TRANSFER_PRIORITY_FEE_SOL <= g -> keep <> 0 ->
  sell_agent keep id s
  = match sub_u64 b (as_u64 keep) with
    | Some n => on_fleet (send id (ForAgent (Sell (Exact n)))) s
    | None => (None, s)
    end.
Proof.
  intros Hc Ht Hg Hfee Hk. unfold sell_agent. replace (keep =? 0) with false by lia.
  unfold on_fleet at 1 2, st_zoom, st_bind.
  rewrite (token_balance_cached _ _ _ _ _ _ Hc Ht). cbn [fleet].
  rewrite (sol_balance_cached _ _ _ _ _ _ Hc Hg).
  replace (_ <=? g) with true by lia. destruct s. cbn.
  destruct (sub_u64 b (as_u64 keep)); reflexivity.
Qed.

(** A seller that keeps [keep] tokens sells what it has above them.  But
    nothing checks that it has as many: with fewer, the subtraction panics in a
    debug build, and in a release build the agent is told to sell an amount
    close to [2^64]. *)
Theorem sell_agent_spec (keep : Z) (id : AgentId) (s : Env) (st : Agent.State)
    (a : Agent.AgentState) (b g : Z) :
  s.(fleet).(cells) !! id = Some (sm st true, a) -> st = Agent.Idle \/ st = Agent.Success ->
  cached_tokens s.(fleet) a b -> cached_sol s.(fleet) a g ->
  BASE_TX_FEE_SOL + TRANSFER_PRIORITY_FEE_SOL <= g -> 0 < keep < 2 ^ 63 -> 0 <= b < 2 ^ 64 ->
  let sells n := exists s' a', sell_agent keep id s = (Some tt, s') /\
    s'.(fleet).(cells) !! id = Some (sm (Agent.Selling (Exact n) 0) true, a') in
  (keep <= b -> sells (b - keep)) /\
  (b < keep -> overflow_checks = true -> sell_agent keep id s = (None, s)) /\
  (b < keep -> overflow_checks = false -> sells (2 ^ 64 - (keep - b))).
Proof.
  intros Hc Hst Ht Hg Hfee Hk Hb sells.
  assert (Hkeep : as_u64 keep = keep) by (apply wrap_u64_id; unfold is_u64; lia).
  pose proof (sell_agent_sends keep id s st a b g Hc Ht Hg Hfee ltac:(lia)) as Hsell.
  assert (Hsends : forall n, sub_u64 b (as_u64 keep) = Some n -> sells n).
  { intros n Hn. rewrite Hn in Hsell.
    destruct (free_sell st (Exact n) (Agent.env a s.(fleet).(fleet_world) s.(fleet).(fleet_queue)) Hst)
      as (e' & Hh).
    pose proof (send_initialized _ _ _ _ _ _ _ _ Hc Hh) as Hsend.
    eexists _, (Agent.self e'). rewrite Hsell. unfold on_fleet, st_zoom. rewrite Hsend.
    split; [reflexivity | apply lookup_insert_eq]. }
  split_and!.
  - intros Hle. apply Hsends. rewrite Hkeep. apply arith_u64_ok. unfold is_u64. lia.
  - intros Hlt Hdebug. rewrite Hsell. unfold sub_u64. rewrite arith_u64_overflow; [done | | done].
    unfold is_u64. lia.
  - intros Hlt Hrel. apply Hsends. unfold sub_u64. rewrite arith_u64_unchecked by done.
    f_equal. rewrite Hkeep. unfold wrap_u64.
    rewrite <- (Z.mod_small (2 ^ 64 - (keep - b)) (2 ^ 64)) by lia.
    replace (b - keep) with (2 ^ 64 - (keep - b) + (-1) * 2 ^ 64) by lia. apply Z_mod_plus_full.
Qed.
End Facts.

(** ** The theorems at concrete strategies *)

#[local] Existing Instance sample_ext.
#[local] Existing Instance documented_driver.

Definition sample_instance : VolumeStrategyInstance := {|
  instance_id := 3; user_id := 1; target_pool := 40; completed_at := None;
  tranche_size_sol := f64_of_Z 1; tranche_frequency_hbs := 50;
  agents_buying_in_tranche := 2; agents_selling_in_tranche := 2;
  agents_keep_tokens_lamports := 10
|}.

(** The main wallet 9 and the agent 7 of a strategy, in given states. *)
Definition sample_agent (key : Z) (strategy : option StrategyId) (main : option Z)
    : Agent.AgentState :=
  Agent.mk sample_pool sample_trader key main [] strategy
    (Stopwatch.new 1000 200) (Stopwatch.new 1000 200).

Definition sample_fleet (main agent : Agent.State) : Fleet := {|
  cells := <[1 := (sm main true, sample_agent 9 None None)]>
             (<[2 := (sm agent true, sample_agent 7 (Some 3) (Some 9))]> ∅);
  next_cell := 3; fleet_world := sample_world; fleet_queue := []; tasks := []
|}.

Definition sample_env (main agent : Agent.State) : Env :=
  env sample_instance sample_pool 1 (Stopwatch.new 1000 50) [2] (sample_fleet main agent).

Lemma execution_status_spec_witness :
  exists st, fst (get_execution_status (sample_env Agent.Idle Agent.Success)) = Some st /\
    st = StatusDone.
Proof.
  destruct (execution_status_spec (sample_env Agent.Idle Agent.Success) [Agent.Success])
    as (st & E & _ & Hd & _).
  - constructor; [by eexists _, _ | constructor].
  - exists st. rewrite E. split; [reflexivity|]. apply Hd. split; [done | by repeat constructor].
Defined.

Lemma phase_change_justified_witness :
  justified Agent.Idle [Agent.Success] Buying CollectingTokens.
Proof.
  set (p := handle (@strategy_machine debug_build _ _)
              (Original (HeartBeat 400)) (sm Buying true, sample_env Agent.Idle Agent.Success)).
  assert (Hp : current (fst (snd p)) = CollectingTokens) by (vm_compute; reflexivity).
  destruct (@phase_change_justified debug_build _ _ (HeartBeat 400) Buying
    (sample_env Agent.Idle Agent.Success) Agent.Idle [Agent.Success] (fst (snd p)) (snd (snd p)))
    as [Hx | Hx].
  - split; [constructor; [by eexists _, _ | constructor] | by eexists _, _].
  - apply surjective_pairing.
  - rewrite Hp in Hx. discriminate.
  - rewrite Hp in Hx. exact Hx.
Defined.

(** Thirteen transfers. *)
Definition thirteen_transfers : list SolanaTransferActionPayload :=
  (fun n => {| asset := Sol; receiver := n; amount := ExactWithFees 1000000 |})
  <$> [1; 2; 3; 4; 5; 6; 7; 8; 9; 10; 11; 12; 13].

Lemma only_first_batch_is_sent_witness :
  exists s' act, send_batches thirteen_transfers (sample_env Agent.Idle Agent.Idle)
                 = (Some tt, s') /\
    length s'.(fleet).(fleet_queue) = 1%nat /\ length (action_payload act) = 12%nat.
Proof.
  destruct (only_first_batch_is_sent thirteen_transfers (sample_env Agent.Idle Agent.Idle)
    Agent.Idle (sample_agent 9 None None) eq_refl (or_introl eq_refl) ltac:(discriminate))
    as (s' & act & a' & E & _ & Hq & _ & Hp).
  exists s', act. split; [exact E|]. rewrite Hq, Hp. split; reflexivity.
Defined.

(** One heartbeat takes a strategy whose main wallet failed to sell from
    offloading its inventory to a stalled funding phase. *)
Lemma funding_stalls_after_error_witness :
  exists q, @reachable debug_build _ _
      (sm OffloadingInventory true, sample_env (Agent.Error "failed") Agent.Success) q /\
    stalled q /\ forall r, @reachable debug_build _ _ q r -> stalled r.
Proof.
  set (p := (sm OffloadingInventory true, sample_env (Agent.Error "failed") Agent.Success)).
  set (q := snd (@process_event debug_build _ _ (HeartBeat 400) p)).
  assert (Hm : fst q = sm Fund true) by (vm_compute; reflexivity).
  assert (Hc : fst <$> (cells (fleet (snd q)) !! main_wallet (snd q)) = Some (sm Agent.Idle true))
    by (vm_compute; reflexivity).
  assert (Ht : forallb (fun d => negb (is_command_event (d_event d))) (tasks (fleet (snd q))) = true)
    by (vm_compute; reflexivity).
  exists q. split; [apply rtc_once, step_event|].
  assert (Hq : stalled q).
  { destruct q as [m s]. cbn in Hm, Hc, Ht. split; [exact Hm|]. split.
    - destruct (cells (fleet s) !! main_wallet s) as [[m' a]|] eqn:E; [|discriminate].
      cbn in Hc. injection Hc as ->. by exists true, a.
    - rewrite forallb_forall in Ht. apply Forall_forall. intros d Hd.
      apply list_elem_of_In, Ht in Hd. by apply negb_true_iff in Hd. }
  split; [exact Hq|]. intros r Hr.
  exact (proj2 (@funding_stalls_after_error debug_build _ _) q r Hq Hr).
Defined.

(** Agent 7 with one SOL and two tokens, of which it should keep ten. *)
Definition poor_seller_fleet : Fleet :=
  let acc lamports tokens :=
    {| acc_pubkey := 0; acc_lamports := lamports;
       acc_token := Some {| ta_mint := 41; ta_owner := 7; ta_amount := tokens |};
       acc_txn_signature := "" |} in
  let w := set_cache (OperationalCache.set_accounts
             (<[7 := Some (acc 1000000000 0)]> (<[1007041 := Some (acc 0 2)]> ∅))
             sample_cache) sample_world in
  mk_fleet (<[2 := (sm Agent.Idle true, sample_agent 7 (Some 3) (Some 9))]> ∅) 3 w [] [].

Lemma sell_agent_spec_witness :
  let s := env sample_instance sample_pool 1 (Stopwatch.new 1000 50) [2] poor_seller_fleet in
  @sell_agent debug_build _ _ 10 2 s = (None, s) /\
  exists s' a', @sell_agent release_build _ _ 10 2 s = (Some tt, s') /\
    s'.(fleet).(cells) !! 2 = Some (sm (Agent.Selling (Exact (2 ^ 64 - 8)) 0) true, a').
Proof.
  intros s. set (a := sample_agent 7 (Some 3) (Some 9)).
  assert (Hc : cells (fleet s) !! 2 = Some (sm Agent.Idle true, a)) by reflexivity.
  assert (Ht : cached_tokens (fleet s) a 2) by (eexists; split; vm_compute; reflexivity).
  assert (Hg : cached_sol (fleet s) a 1000000000) by (eexists; split; vm_compute; reflexivity).
  destruct (@sell_agent_spec debug_build _ _ 10 2 s Agent.Idle a 2 1000000000 Hc
    (or_introl eq_refl) Ht Hg) as (_ & Hd & _); [discriminate | lia | lia |].
  destruct (@sell_agent_spec release_build _ _ 10 2 s Agent.Idle a 2 1000000000 Hc
    (or_introl eq_refl) Ht Hg) as (_ & _ & Hr); [discriminate | lia | lia |].
  split; [apply Hd; [lia | reflexivity] | apply Hr; [lia | reflexivity]].
Defined.
