(* ===== verification/SniperStrategy.v ===== *)
(** * Sniping one pool, and the strategy that snipes many ([strategies/sniper_strategy/agent/agent_state_machine.rs])

    A snipe waits out a delay, buys the new pool's token, and sells it at a stop
    loss, a take profit or when its horizon has passed. *)

From S2P Require Import Prelude MachineInt Float64 Buffers Amounts Types Cache GenericApi Statig.

(** What a sniper asks an RPC node: the [n]-th query for a pool's details, for
    its price, and for the data of a mint account, with the spl-token [Mint]
    that unpacks from it. *)
Record Mint := {
  mint_authority : option Pubkey;
  mint_freeze_authority : option Pubkey;
}.

Class SniperRpc := {
  rpc_pool_details : Z -> Pubkey -> option RaydiumPool;
  rpc_pool_price : Z -> Pubkey -> option RaydiumPoolPriceUpdate;
  rpc_mint_account : Z -> Pubkey -> option (option Mint);
}.

(** [types/sniping_strategy.rs]. *)
Record SnipingStrategyInstance := {
  snipe_id : StrategyId;
  snipe_user_id : Z;
  sniper_private_key : string;
  size_sol : f64;
  stop_loss_percent_move_down : f64;
  take_profit_percent_move_up : f64;
  force_exit_horizon_s : Z;
  max_simultaneous_snipes : Z;
  min_pool_liquidity_sol : f64;
  skip_pump_fun : bool;
  skip_mintable : bool;
  buy_delay_ms : Z;
  skip_if_price_drops_percent : f64;
}.

Module Sniper.

Record AgentState := mk {
  pool : RaydiumPool;
  agent_key : KeypairClonable;
  instance : SnipingStrategyInstance;
  actions_in_progress : list Uuid;
  retry_timer : Stopwatch.t;
  buy_delay_timer : Z;
  timeout_timer : Stopwatch.t;
  when_bought_timer : Z;
  deploy_price : RaydiumPoolPriceUpdate;
  buy_price : RaydiumPoolPriceUpdate;
  last_time : Z;
}.

Inductive State :=
| WaitingToBuy
| Buying (amt : Amount) (retry : Z)
| WaitingToSell
| Selling (amt : Amount) (retry : Z)
| Done
| Error (msg : string).

#[global] Instance State_eq_dec : EqDecision State.
Proof. solve_decision. Defined.

Record Env := env {
  self : AgentState;
  world : World;
  queue : list ActionRef;
}.

(** [RaydiumPoolPriceUpdate::default()]. *)
Definition default_price : RaydiumPoolPriceUpdate := {|
  pu_pool := 0; pu_price := f64_zero; pu_base_reserve := f64_zero;
  pu_quote_reserve := f64_zero; pu_created_at := 0
|}.

Definition set_actions_in_progress v (a : AgentState) : AgentState :=
  mk a.(pool) a.(agent_key) a.(instance) v a.(retry_timer) a.(buy_delay_timer)
    a.(timeout_timer) a.(when_bought_timer) a.(deploy_price) a.(buy_price) a.(last_time).
Definition set_timeout_timer v (a : AgentState) : AgentState :=
  mk a.(pool) a.(agent_key) a.(instance) a.(actions_in_progress) a.(retry_timer)
    a.(buy_delay_timer) v a.(when_bought_timer) a.(deploy_price) a.(buy_price) a.(last_time).
Definition set_buy_delay_timer_to v (a : AgentState) : AgentState :=
  mk a.(pool) a.(agent_key) a.(instance) a.(actions_in_progress) a.(retry_timer) v
    a.(timeout_timer) a.(when_bought_timer) a.(deploy_price) a.(buy_price) a.(last_time).
Definition set_when_bought v (a : AgentState) : AgentState :=
  mk a.(pool) a.(agent_key) a.(instance) a.(actions_in_progress) a.(retry_timer)
    a.(buy_delay_timer) a.(timeout_timer) v a.(deploy_price) a.(buy_price) a.(last_time).
Definition set_buy_price v (a : AgentState) : AgentState :=
  mk a.(pool) a.(agent_key) a.(instance) a.(actions_in_progress) a.(retry_timer)
    a.(buy_delay_timer) a.(timeout_timer) a.(when_bought_timer) a.(deploy_price) v a.(last_time).
Definition set_last_time v (a : AgentState) : AgentState :=
  mk a.(pool) a.(agent_key) a.(instance) a.(actions_in_progress) a.(retry_timer)
    a.(buy_delay_timer) a.(timeout_timer) a.(when_bought_timer) a.(deploy_price)
    a.(buy_price) v.

Definition modify_self (f : AgentState -> AgentState) : ST Env unit :=
  st_modify (fun e => env (f e.(self)) e.(world) e.(queue)).

Definition on_world {A} (m : ST World A) : ST Env A :=
  st_zoom world (fun w e => env e.(self) w e.(queue)) m.

Definition pubkey_of (a : AgentState) : Pubkey := pubkey a.(agent_key).
Definition get_token_mint (a : AgentState) : Pubkey := a.(pool).(base_mint).

(** [Instant::elapsed] in milliseconds. *)
Definition elapsed_ms (now t : Z) : Z := Z.max 0 (now - t).

Section Handlers.
Context `{Profile} `{Ext} `{SniperRpc}.

(** Creation asks for both balances, ignoring the answers. *)
Definition new (pool : RaydiumPool) (agent_key : KeypairClonable)
    (instance : SnipingStrategyInstance) (deploy_price : RaydiumPoolPriceUpdate)
    : ST World AgentState :=
  get_balance (pubkey agent_key) ;;;
  GenericApi.get_token_balance (pubkey agent_key) pool.(base_mint) ;;;
  t <- st_gets now ;;
  st_ret (mk pool agent_key instance []
    (Stopwatch.new t TIMEOUT_FOR_ACTION_EXECUTION_HBS) t
    (Stopwatch.new t TIMEOUT_FOR_ACTION_EXECUTION_HBS) t deploy_price default_price 0).

Definition queue_action (action : SolanaAction) : ST Env unit :=
  e <- st_get ;;
  let t := e.(world).(now) in
  modify_self (fun a =>
    set_timeout_timer (Stopwatch.start t TIMEOUT_FOR_ACTION_EXECUTION_HBS a.(timeout_timer))
      (set_actions_in_progress (a.(actions_in_progress) ++ [action.(uuid)]) a)) ;;;
  cell <- on_world (register action) ;;
  st_modify (fun e => env e.(self) e.(world) (e.(queue) ++ [cell])).

Definition retain_not (id : Uuid) (l : list Uuid) : list Uuid := base.filter (fun x => x <> id) l.

(** [None]: not a receipt the snipe waits for; [Some None]: success;
    [Some (Some msg)]: the transaction failed. *)
Definition process_execution_receipt (receipt : ExecutionReceipt)
    : ST Env (option (option string)) :=
  e <- st_get ;;
  if bool_decide (receipt.(action_uuid) ∈ e.(self).(actions_in_progress)) then
    modify_self (fun a =>
      set_actions_in_progress (retain_not receipt.(action_uuid) a.(actions_in_progress)) a) ;;;
    match receipt.(err) with
    | Some error =>
        modify_self (fun a => set_timeout_timer (Stopwatch.turn_off a.(timeout_timer)) a) ;;;
        st_ret (Some (Some (debug_receipt_error e.(self).(pool).(base_mint) error)))
    | None => st_ret (Some None)
    end
  else st_ret None.

Definition is_cooled_down_before_retry (tick_ms : Z) : ST Env bool :=
  e <- st_get ;;
  elapsed <- st_unwrap
    (Stopwatch.is_time_elapsed e.(world).(now) tick_ms e.(self).(timeout_timer)) ;;
  if elapsed then
    modify_self (fun a => set_timeout_timer (Stopwatch.turn_off a.(timeout_timer)) a) ;;;
    st_ret true
  else st_ret false.

Definition get_sol_balance : ST Env Z :=
  e <- st_get ;;
  r <- on_world (get_balance (pubkey_of e.(self))) ;;
  st_ret (match r with Ok n => n | Err _ => 0 end).

Definition get_token_balance : ST Env Z :=
  e <- st_get ;;
  r <- on_world (GenericApi.get_token_balance (pubkey_of e.(self)) (get_token_mint e.(self))) ;;
  st_ret (match r with Ok n => n | Err _ => 0 end).

(** ** Transitions *)

Definition retry_or_error (retry : Z) (retry_action : State) (msg : string) : Response State :=
  if retry <=? RETRIES_IF_ERROR_OR_TIMEOUT then Transition retry_action
  else Transition (Error msg).

Definition conditional_transition (event : SolanaStrategyEvent) (retry_action : State)
    (transition_on_success : State) (retry : Z) : ST Env (Response State) :=
  match event with
  | Original (ExecutionResultEvent id _ res) =>
      e <- st_get ;;
      if bool_decide (id ∈ e.(self).(actions_in_progress)) then
        modify_self (fun a =>
          set_actions_in_progress (retain_not id a.(actions_in_progress)) a) ;;;
        match res with
        | ExecutionFailed x =>
            st_ret (retry_or_error retry retry_action
                      ("Error executing action: " +:+ debug_execution_error x))
        | Sent => st_ret Super
        end
      else st_ret Super
  | Original (Blockchain (ExecutionReceiptEvent receipt)) =>
      outcome <- process_execution_receipt receipt ;;
      match outcome with
      | Some None => st_ret (Transition transition_on_success)
      | None => st_ret Super
      | Some (Some x) =>
          st_ret (retry_or_error retry retry_action
                    ("Error processing execution receipt: " +:+ x))
      end
  | Original (HeartBeat tick_ms) =>
      cooled <- is_cooled_down_before_retry tick_ms ;;
      if cooled then st_ret (retry_or_error retry retry_action "Transfer action timeout")
      else st_ret Super
  | _ => st_ret Super
  end.

(** The price of an event, if it has one. *)
Definition price_of (event : SolanaStrategyEvent) : option RaydiumPoolPriceUpdate :=
  match event with
  | Original (Blockchain (RaydiumHeartbeatPriceUpdate p)) => Some p
  | Original (Blockchain (RaydiumSwap s)) => Some s.(se_price_update)
  | _ => None
  end.

Definition set_buy_delay_timer : ST Env unit :=
  t <- on_world (st_gets now) ;;
  modify_self (set_buy_delay_timer_to t).

(** The drop of the price since deployment, in per cent. *)
Definition price_drop (deploy price : f64) : f64 :=
  f64_div (f64_mul (f64_of_Z 100) (f64_sub deploy price)) deploy.

Definition waiting_to_buy (event : SolanaStrategyEvent) : ST Env (Response State) :=
  e <- st_get ;;
  let a := e.(self) in
  let elapsed := elapsed_ms e.(world).(now) a.(buy_delay_timer) in
  if (a.(instance).(buy_delay_ms) =? 0) || (a.(instance).(buy_delay_ms) mod 2 ^ 128 <? elapsed) then
    st_ret (Transition (Buying (Exact (Decimals.sol_to_lamports a.(instance).(size_sol))) 0))
  else
    match price_of event with
    | Some p =>
        if (p.(pu_pool) =? a.(pool).(pool_id)) &&
           f64_gt (price_drop a.(deploy_price).(pu_price) p.(pu_price))
             a.(instance).(skip_if_price_drops_percent)
        then st_ret (Transition Done)
        else st_ret Super
    | None => st_ret Super
    end.

Definition DELAY_BETWEEN_SIMULATION_RETRIES_MS : Z := 100.

Definition swap (method : SwapMethod) (amt : Amount) (retry : Z) : ST Env unit :=
  (if 0 <? retry then on_world (sleep_ms DELAY_BETWEEN_SIMULATION_RETRIES_MS) else st_ret tt) ;;;
  e <- st_get ;;
  id <- on_world uuid_new_v4 ;;
  t <- on_world (st_gets now) ;;
  queue_action (new_action id t e.(self).(agent_key)
    [SwapPayload (new_swap_payload e.(self).(pool) method amt)]).

Definition buy (amt : Amount) (retry : Z) : ST Env unit := swap BuyTokensForExactSol amt retry.

Definition buying (amt : Amount) (retry : Z) (event : SolanaStrategyEvent) : ST Env (Response State) :=
  conditional_transition event (Buying amt (retry + 1)) WaitingToSell retry.

(** The pool and its price are refreshed from the chain if it answers; the
    price must be known by then. *)
Definition set_when_bought_timer : ST Env unit :=
  e <- st_get ;;
  let id := e.(self).(pool).(pool_id) in
  details <- on_world (fun w => (Some (rpc_pool_details w.(rpc_calls) id),
                                 set_rpc_calls (w.(rpc_calls) + 1) w)) ;;
  (match details with
   | Some pool_info => on_world (with_cache (fun c =>
       OperationalCache.set_target_pools (<[id := pool_info]> c.(OperationalCache.target_pools)) c))
   | None => st_ret tt
   end) ;;;
  price <- on_world (fun w => (Some (rpc_pool_price w.(rpc_calls) id),
                               set_rpc_calls (w.(rpc_calls) + 1) w)) ;;
  (match price with
   | Some pool_price => on_world (with_cache (fun c =>
       OperationalCache.set_target_pools_prices
         (<[id := pool_price]> c.(OperationalCache.target_pools_prices)) c))
   | None => st_ret tt
   end) ;;;
  t <- on_world (st_gets now) ;;
  modify_self (set_when_bought t) ;;;
  known <- on_world (st_gets (fun w => w.(cache).(OperationalCache.target_pools_prices) !! id)) ;;
  p <- st_unwrap known ;;
  modify_self (set_buy_price p).

Definition waiting_to_sell (event : SolanaStrategyEvent) : ST Env (Response State) :=
  e <- st_get ;;
  let a := e.(self) in
  let elapsed := as_u64 (elapsed_ms e.(world).(now) a.(when_bought_timer) / 1000) in
  if as_u64 a.(instance).(force_exit_horizon_s) <? elapsed then
    st_ret (Transition (Selling MaxAndClose 0))
  else
    let price_answer :=
      match price_of event with
      | Some p =>
          if p.(pu_pool) =? a.(pool).(pool_id) then
            if f64_lt p.(pu_price)
                 (f64_mul a.(buy_price).(pu_price) a.(instance).(stop_loss_percent_move_down))
            then Some (Transition (Selling Max 0))
            else if f64_gt p.(pu_price)
                 (f64_mul a.(buy_price).(pu_price) a.(instance).(take_profit_percent_move_up))
            then Some (Transition (Selling Max 0))
            else None
          else None
      | None => None
      end in
    match price_answer with
    | Some r => st_ret r
    | None =>
        waited <- st_unwrap (sub_u64 elapsed a.(last_time)) ;;
        (if 1 <? waited then modify_self (set_last_time elapsed) else st_ret tt) ;;;
        st_ret Super
    end.

Definition sell (amt : Amount) (retry : Z) : ST Env unit := swap SellExactTokensForSol amt retry.

(** A retry sells [Max] and counts for two. *)
Definition selling (amt : Amount) (retry : Z) (event : SolanaStrategyEvent) : ST Env (Response State) :=
  conditional_transition event (Selling Max (retry + 1)) Done (retry + 1).

Definition stop_monitoring : ST Env unit :=
  e <- st_get ;;
  on_world (with_cache (fun c => OperationalCache.set_target_pools
    (delete e.(self).(pool).(pool_id) c.(OperationalCache.target_pools)) c)) ;;;
  on_world (stop_monitoring_account (pubkey_of e.(self))) ;;;
  on_world (stop_monitoring_token_account (pubkey_of e.(self)) e.(self).(pool).(base_mint)).

Definition sniper_handler (s : State) (event : SolanaStrategyEvent) : ST Env (Response State) :=
  match s with
  | WaitingToBuy => waiting_to_buy event
  | Buying amt retry => buying amt retry event
  | WaitingToSell => waiting_to_sell event
  | Selling amt retry => selling amt retry event
  | Done | Error _ => st_ret Handled
  end.

Definition sniper_entry (s : State) : ST Env unit :=
  match s with
  | WaitingToBuy => set_buy_delay_timer
  | Buying amt retry => buy amt retry
  | WaitingToSell => set_when_bought_timer
  | Selling amt retry => sell amt retry
  | Done => stop_monitoring
  | Error _ => st_ret tt
  end.

Definition sniper_machine : Machine Env State SolanaStrategyEvent := {|
  initial := WaitingToBuy;
  on_dispatch := fun _ _ => st_ret tt;
  handler := sniper_handler;
  superstate := fun _ => None;
  entry_action := sniper_entry;
  exit_action := fun _ => st_ret tt;
|}.

Definition handle_event `{StatigDriver} (event : SolanaStrategyEvent) : ST (Sm State * Env) unit :=
  handle sniper_machine event.
End Handlers.
End Sniper.

(** * The sniper strategy ([strategies/sniper_strategy])

    Every new pool that passes the filters gets a snipe, inserted by a spawned
    task; every event is dispatched by a spawned task to all snipes there are,
    one child task per snipe, after which finished snipes are removed. *)

Module SniperStrat.

Abbreviation SnipeId := Z (only parsing).

Inductive State := Running | Done.

#[global] Instance State_eq_dec : EqDecision State.
Proof. solve_decision. Defined.

(** A spawned task, by what it still has to do. *)
Inductive Task :=
| InsertSnipe (pool : RaydiumPool) (price : RaydiumPoolPriceUpdate)
| Dispatch (event : SolanaStrategyEvent)
| Joining (event : SolanaStrategyEvent) (children : list SnipeId)
| Removing (pools : list Pubkey).

(** [pool_snipes] maps a pool to the cell of its snipe. *)
Record Env := env {
  instance : SnipingStrategyInstance;
  sniper_wallet : KeypairClonable;
  pool_snipes : gmap Pubkey SnipeId;
  cells : gmap SnipeId (Sm Sniper.State * Sniper.AgentState);
  next_cell : SnipeId;
  world : World;
  actions : list ActionRef;
  tasks : list Task;
}.

Definition set_pool_snipes v (s : Env) : Env :=
  env s.(instance) s.(sniper_wallet) v s.(cells) s.(next_cell) s.(world) s.(actions) s.(tasks).
Definition set_world v (s : Env) : Env :=
  env s.(instance) s.(sniper_wallet) s.(pool_snipes) s.(cells) s.(next_cell) v s.(actions) s.(tasks).
Definition set_actions v (s : Env) : Env :=
  env s.(instance) s.(sniper_wallet) s.(pool_snipes) s.(cells) s.(next_cell) s.(world) v s.(tasks).
Definition set_tasks v (s : Env) : Env :=
  env s.(instance) s.(sniper_wallet) s.(pool_snipes) s.(cells) s.(next_cell) s.(world) s.(actions) v.

Definition on_world {A} (m : ST World A) : ST Env A := st_zoom world set_world m.

Definition spawn (t : Task) : ST Env unit := st_modify (fun s => set_tasks (s.(tasks) ++ [t]) s).

Section Strategy.
Context `{Profile} `{Ext} `{SniperRpc} `{StatigDriver}.

(** [RpcClientPool::is_freezable_by_account_data], [is_mintable_by_account_data]:
    an authority that is the default key is none. *)
Definition has_authority (authority : option Pubkey) : bool :=
  match authority with Some a => negb (a =? 0) | None => false end.

Definition is_freezable (m : Mint) : bool := has_authority m.(mint_freeze_authority).
Definition is_mintable (m : Mint) : bool := has_authority m.(mint_authority).

(** Why a new pool is not sniped. *)
Inductive Verdict :=
| AlreadyCaptured
| PumpFun
| Freezable
| Mintable
| InsufficientLiquidity
| TooManySnipes
| StartSnipe.

(** The guards of [running], in order; the mint account must exist and unpack. *)
Definition judge (pool : RaydiumPool) (price : RaydiumPoolPriceUpdate) : ST Env Verdict :=
  s <- st_get ;;
  if bool_decide (is_Some (s.(pool_snipes) !! pool.(pool_id))) then st_ret AlreadyCaptured else
  if s.(instance).(skip_pump_fun) && str_contains "pump" (pubkey_string pool.(pool_id))
  then st_ret PumpFun else
  account <- on_world (fun w => (Some (rpc_mint_account w.(rpc_calls) pool.(base_mint)),
                                 set_rpc_calls (w.(rpc_calls) + 1) w)) ;;
  data <- st_unwrap account ;;
  mint <- st_unwrap data ;;
  if is_freezable mint then st_ret Freezable else
  if s.(instance).(skip_mintable) && is_mintable mint then st_ret Mintable else
  if f64_lt price.(pu_quote_reserve) s.(instance).(min_pool_liquidity_sol)
  then st_ret InsufficientLiquidity else
  if as_u64 s.(instance).(max_simultaneous_snipes) <=? Z.of_nat (size s.(pool_snipes))
  then st_ret TooManySnipes else st_ret StartSnipe.

Definition running (event : SolanaStrategyEvent) : ST Env (Response State) :=
  match event with
  | Original (Blockchain (RaydiumNewPoolEvent new_pool price)) =>
      v <- judge new_pool price ;;
      match v with
      | StartSnipe => spawn (InsertSnipe new_pool price) ;;; st_ret Super
      | _ => st_ret Handled
      end
  | _ => st_ret Super
  end.

Definition on_dispatch (st : State) (event : SolanaStrategyEvent) : ST Env unit :=
  spawn (Dispatch event).

Definition strategy_machine : Machine Env State SolanaStrategyEvent := {|
  Statig.initial := Running;
  Statig.on_dispatch := on_dispatch;
  Statig.handler := fun st event =>
    match st with Running => running event | Done => st_ret Handled end;
  Statig.superstate := fun _ => None;
  Statig.entry_action := fun _ => st_ret tt;
  Statig.exit_action := fun _ => st_ret tt;
|}.

(** ** Tasks *)

(** The insertion of a snipe: the map is locked while the snipe is created. *)
Definition insert_snipe (pool : RaydiumPool) (price : RaydiumPoolPriceUpdate) : ST Env unit :=
  s <- st_get ;;
  a <- on_world (Sniper.new pool s.(sniper_wallet) s.(instance) price) ;;
  st_modify (fun s =>
    env s.(instance) s.(sniper_wallet) (<[pool.(pool_id) := s.(next_cell)]> s.(pool_snipes))
      (<[s.(next_cell) := (state_machine Sniper.sniper_machine, a)]> s.(cells))
      (s.(next_cell) + 1) s.(world) s.(actions) s.(tasks)).

(** One event handled by one snipe; a panic ends the child task only. *)
Definition deliver (id : SnipeId) (event : SolanaStrategyEvent) : Env -> Env := fun s =>
  match s.(cells) !! id with
  | None => s
  | Some (m, a) =>
      let '(_, (m', e')) := Sniper.handle_event event (m, Sniper.env a s.(world) s.(actions)) in
      env s.(instance) s.(sniper_wallet) s.(pool_snipes)
        (<[id := (m', e'.(Sniper.self))]> s.(cells)) s.(next_cell) e'.(Sniper.world)
        e'.(Sniper.queue) s.(tasks)
  end.

Definition finished (s : Env) (id : SnipeId) : bool :=
  match s.(cells) !! id with
  | Some (m, _) =>
      match current m with Sniper.Done | Sniper.Error _ => true | _ => false end
  | None => false
  end.

(** The pools whose snipe is done or in error. *)
Definition finished_pools (s : Env) : list Pubkey :=
  (base.filter (fun kv => finished s kv.2 = true) (map_to_list s.(pool_snipes))).*1.

(** The [i]-th task makes a step; [j] is the child that runs when a dispatch has
    children left. *)
Definition run_task (i j : nat) (s : Env) : Env :=
  match s.(tasks) !! i with
  | None => s
  | Some (InsertSnipe pool price) =>
      let s' := set_tasks (base.delete i s.(tasks)) s in
      snd (insert_snipe pool price s')
  | Some (Dispatch event) =>
      set_tasks (<[i := Joining event (map_to_list s.(pool_snipes)).*2]> s.(tasks)) s
  | Some (Joining event children) =>
      match children !! j with
      | Some id =>
          deliver id event (set_tasks (<[i := Joining event (base.delete j children)]> s.(tasks)) s)
      | None =>
          match children with
          | [] => set_tasks (<[i := Removing (finished_pools s)]> s.(tasks)) s
          | _ => s
          end
      end
  | Some (Removing pools) =>
      match pools with
      | [] => set_tasks (base.delete i s.(tasks)) s
      | p :: rest =>
          set_pool_snipes (base.delete p s.(pool_snipes))
            (set_tasks (<[i := Removing rest]> s.(tasks)) s)
      end
  end.

(** ** [SniperStrategy] *)

Definition new (i : SnipingStrategyInstance) (f : World) : option (Sm State * Env) :=
  key ← keypair_of_privkey i.(sniper_private_key);
  Some (state_machine strategy_machine, env i key ∅ ∅ 0 f [] []).

Definition take_actions : ST Env (list ActionRef) := fun s => (Some s.(actions), set_actions [] s).

Definition clear_actions : ST Env unit := st_modify (set_actions []).

(** Only heartbeats and blockchain events are handled. *)
Definition process_event (event : BotEvent) : ST (Sm State * Env) (list ActionRef) :=
  (match event with
   | HeartBeat _ | Blockchain _ => handle strategy_machine (Original event)
   | _ => st_ret tt
   end) ;;;
  on_shared take_actions.

Inductive step : (Sm State * Env) -> (Sm State * Env) -> Prop :=
| step_event event p : step p (snd (process_event event p))
| step_task i j m s : step (m, s) (m, run_task i j s)
| step_time d m s : 0 <= d -> step (m, s) (m, snd (on_world (sleep_ms d) s)).

Definition reachable (p q : Sm State * Env) : Prop := rtc step p q.
End Strategy.
End SniperStrat.
