(* ===== verification/SniperFacts.v ===== *)
(** * Sniping: orders, prices and the limit on simultaneous snipes *)

From S2P Require Import Prelude MachineInt Float64 Buffers Types Cache GenericApi Samples Statig SniperStrategy.

(** ** One snipe *)

Section Snipe.
Import Sniper.
Context `{Profile} `{Ext} `{SniperRpc} `{StatigDriver}.

Definition snipe_step (s : State) (ev : SolanaStrategyEvent) (e : Env)
    : option unit * (Sm State * Env) :=
  match sniper_handler s ev e with
  | (Some (Transition t), e1) =>
      let '(r, e2) := sniper_entry t e1 in (r, (sm t true, e2))
  | (Some _, e1) => (Some tt, (sm s true, e1))
  | (None, e1) => (None, (sm s true, e1))
  end.

Lemma snipe_handle_step s ev e : handle_event ev (sm s true, e) = snipe_step s ev e.
Proof.
  unfold handle_event. rewrite handle_initialized.
  unfold dispatch, take_transition, snipe_step, st_bind, st_gets, on_shared, st_zoom. cbn.
  destruct (sniper_handler s ev e) as [[[| |t]|] e1]; cbn; try reflexivity.
Qed.

(** The orders a snipe can still place. *)
Definition orders_left (s : State) : Z :=
  match s with
  | WaitingToBuy => 7
  | Buying _ r => 6 - r
  | WaitingToSell => 3
  | Selling _ r => 2 - r
  | Done | Error _ => 0
  end.

Definition retry_in_range (s : State) : Prop :=
  match s with
  | Buying _ r => 0 <= r <= 3
  | Selling _ r => 0 <= r <= 2
  | _ => True
  end.

(** Entering a state queues at most one order, and only buying and selling do. *)
Definition places_order (s : State) : Z :=
  match s with Buying _ _ | Selling _ _ => 1 | _ => 0 end.

Lemma swap_queue method amt r e :
  exists e', swap method amt r e = (Some tt, e') /\ length (queue e') = S (length (queue e)).
Proof.
  cbv [swap queue_action modify_self on_world st_zoom register alloc_action with_cache
       uuid_new_v4 sleep_ms st_bind st_get st_gets st_modify st_ret self world queue].
  destruct (0 <? r); eexists; (split; [reflexivity|]); cbn; rewrite length_app; cbn; lia.
Qed.

Lemma sniper_entry_queue s e :
  Z.of_nat (length (queue (snd (sniper_entry s e))))
  = Z.of_nat (length (queue e)) + places_order s.
Proof.
  destruct s as [|amt r| |amt r| |msg]; cbn [sniper_entry places_order]; try (cbn; lia).
  - destruct (swap_queue BuyTokensForExactSol amt r e) as (e' & E & Hq). unfold buy. rewrite E. cbn. lia.
  - unfold set_when_bought_timer, st_bind, st_get, on_world, st_zoom. cbn.
    destruct (rpc_pool_details _ _); cbn; destruct (rpc_pool_price _ _); cbn;
      match goal with |- context [st_unwrap ?o] => destruct o end; cbn; lia.
  - destruct (swap_queue SellExactTokensForSol amt r e) as (e' & E & Hq). unfold sell. rewrite E. cbn. lia.
Qed.

(** The answers of a state that waits for its order. *)
Lemma conditional_answers ev next ok r e :
  exists o e1, conditional_transition ev next ok r e = (o, e1) /\ queue e1 = queue e /\
    (o = None \/ o = Some Super \/ o = Some (Transition ok) \/
     exists msg, o = Some (retry_or_error r next msg)).
Proof.
  unfold conditional_transition.
  destruct ev as [[tick|[]| |id cell res|]|];
    try (eexists _, _; split; [reflexivity|]; split; [reflexivity | by eauto]).
  - unfold is_cooled_down_before_retry, st_bind, st_get. cbn.
    destruct (Stopwatch.is_time_elapsed _ _ _) as [[|]|]; cbn; eexists _, _; (split; [reflexivity|]);
      (split; [reflexivity|]); eauto.
  - unfold process_execution_receipt, st_bind, st_get. cbn. case_bool_decide; cbn.
    + destruct (err receipt); cbn; eexists _, _; (split; [reflexivity|]); (split; [reflexivity|]); eauto.
    + eexists _, _. split; [reflexivity|]. split; [reflexivity | by eauto].
  - unfold st_bind, st_get. cbn. case_bool_decide; cbn;
      [|eexists _, _; split; [reflexivity|]; split; [reflexivity | by eauto]].
    destruct res; cbn; eexists _, _; (split; [reflexivity|]); (split; [reflexivity|]); eauto.
Qed.
Lemma waiting_to_buy_answers ev e :
  exists r, waiting_to_buy ev e = (Some r, e) /\
    (r = Super \/ r = Transition Done \/ exists amt, r = Transition (Buying amt 0)).
Proof.
  unfold waiting_to_buy, st_bind, st_get. cbn.
  destruct (_ || _); [eexists; split; [reflexivity | by eauto]|].
  destruct (price_of ev) as [p|]; [|eexists; split; [reflexivity | by eauto]].
  destruct (_ && _); eexists; (split; [reflexivity | by eauto]).
Qed.

Lemma waiting_to_sell_answers ev e :
  exists o e1, waiting_to_sell ev e = (o, e1) /\ queue e1 = queue e /\
    (o = None \/ o = Some Super \/ exists amt, o = Some (Transition (Selling amt 0))).
Proof.
  unfold waiting_to_sell, st_bind, st_get. cbn.
  destruct (_ <? _); [eexists _, _; split; [reflexivity | by eauto]|].
  match goal with |- context [match ?x with Some r => st_ret r | None => _ end] =>
    assert (Hp : x = None \/ x = Some (Transition (Selling Max 0)))
      by (destruct (price_of ev) as [p|]; [|by left]; destruct (_ =? _); [|by left];
          destruct (f64_lt _ _); [by right|]; destruct (f64_gt _ _); [by right | by left]);
    destruct Hp as [-> | ->]
  end; [|eexists _, _; split; [reflexivity | by eauto]].
  destruct (sub_u64 _ _) as [waited|]; cbn; [|eexists _, _; split; [reflexivity | by eauto]].
  destruct (1 <? waited); cbn; eexists _, _; (split; [reflexivity | by eauto]).
Qed.

(** Orders placed and orders left stay below the budget. *)
Definition within_budget (budget : Z) (p : Sm State * Env) : Prop :=
  let '(m, e) := p in
  initialized m = true /\ retry_in_range (current m) /\
  Z.of_nat (length (queue e)) + orders_left (current m) <= budget.

Lemma enter_within_budget budget t e :
  retry_in_range t ->
  Z.of_nat (length (queue e)) + places_order t + orders_left t <= budget ->
  within_budget budget (sm t true, snd (sniper_entry t e)).
Proof. intros Hr Hb. split; [done|]. split; [done|]. rewrite sniper_entry_queue. cbn. lia. Qed.

Lemma snipe_step_budget budget ev s e :
  within_budget budget (sm s true, e) -> within_budget budget (snd (snipe_step s ev e)).
Proof.
  intros (_ & Hr & Hb). cbn [current] in Hr, Hb. unfold snipe_step.
  assert (Hstay : forall e1, queue e1 = queue e -> within_budget budget (sm s true, e1)).
  { intros e1 Hq. split; [done|]. split; [done|]. cbn. by rewrite Hq. }
  assert (Hmove : forall t e1, queue e1 = queue e -> retry_in_range t ->
      places_order t + orders_left t <= orders_left s ->
      within_budget budget (snd (let '(r, e2) := sniper_entry t e1 in (r, (sm t true, e2))))).
  { intros t e1 Hq Ht Hl. pose proof (enter_within_budget budget t e1 Ht) as He.
    destruct (sniper_entry t e1) as [r e2]. apply He. rewrite Hq. lia. }
  destruct s as [|amt r| |amt r| |msg]; cbn [sniper_handler].
  - destruct (waiting_to_buy_answers ev e) as (x & -> & [-> | [-> | [amt ->]]]); [by apply Hstay|..];
      (apply Hmove; [done | cbn; lia | cbn; lia]).
  - unfold buying. destruct (conditional_answers ev (Buying amt (r + 1)) WaitingToSell r e)
      as (o & e1 & -> & Hq & [-> | [-> | [-> | [msg ->]]]]); [by apply Hstay | by apply Hstay | |].
    + cbn in Hr. apply Hmove; [done | done | cbn; lia].
    + unfold retry_or_error, RETRIES_IF_ERROR_OR_TIMEOUT. cbn in Hr.
      destruct (Z.leb_spec r 2); (apply Hmove; [done | cbn; lia | cbn; lia]).
  - destruct (waiting_to_sell_answers ev e) as (o & e1 & -> & Hq & [-> | [-> | [amt ->]]]);
      [by apply Hstay | by apply Hstay |]. apply Hmove; [done | cbn; lia | cbn; lia].
  - unfold selling. destruct (conditional_answers ev (Selling Max (r + 1)) Done (r + 1) e)
      as (o & e1 & -> & Hq & [-> | [-> | [-> | [msg ->]]]]); [by apply Hstay | by apply Hstay | |].
    + cbn in Hr. apply Hmove; [done | done | cbn; lia].
    + unfold retry_or_error, RETRIES_IF_ERROR_OR_TIMEOUT. cbn in Hr.
      destruct (Z.leb_spec (r + 1) 2); (apply Hmove; [done | cbn; lia | cbn; lia]).
  - by apply Hstay.
  - by apply Hstay.
Qed.

Lemma snipe_first_step ev e :
  exists e1, queue e1 = queue e /\
    handle_event ev (state_machine sniper_machine, e) = snipe_step WaitingToBuy ev e1.
Proof.
  eexists. split; [|rewrite <- snipe_handle_step; unfold handle_event, state_machine;
    rewrite (handle_first sniper_machine ev WaitingToBuy e _ eq_refl);
    now rewrite handle_initialized]. reflexivity.
Qed.

(** C22. A snipe places at most seven orders in its life, whatever events it
    gets: at most four attempts to buy before it holds the token, and at most
    three attempts to sell it afterwards. *)
Theorem snipe_orders_bounded (evs : list SolanaStrategyEvent) (e0 : Env) :
  let '(_, (m, e)) := st_iter handle_event evs (state_machine sniper_machine, e0) in
  let placed := Z.of_nat (length (queue e)) - Z.of_nat (length (queue e0)) in
  placed <= 7 /\
  match current m with
  | WaitingToBuy => placed <= 0
  | Buying _ r => 0 <= r <= 3 /\ placed <= r + 1
  | WaitingToSell => placed <= 4
  | Selling _ r => 0 <= r <= 2 /\ placed <= 4 + (r + 1)
  | Done | Error _ => True
  end.
Proof.
  set (budget := Z.of_nat (length (queue e0)) + 7).
  assert (Hb : forall p, within_budget budget p ->
      within_budget budget (snd (st_iter handle_event evs p))).
  { intros p. apply st_iter_preserves. intros ev [[s []] e] Hp; [|by destruct Hp as [[=] _]].
    rewrite snipe_handle_step. by apply snipe_step_budget. }
  assert (Hrun : st_iter handle_event evs (state_machine sniper_machine, e0)
      = (Some tt, (state_machine sniper_machine, e0)) \/
      within_budget budget (snd (st_iter handle_event evs (state_machine sniper_machine, e0)))).
  { destruct evs as [|ev evs']; [by left|]. right. cbn [st_iter]. unfold st_bind.
    destruct (snipe_first_step ev e0) as (e1 & Hq & ->).
    assert (Hs1 : within_budget budget (snd (snipe_step WaitingToBuy ev e1))).
    { apply snipe_step_budget. split; [done|]. split; [done|]. unfold budget. cbn. rewrite Hq. lia. }
    destruct (snipe_step WaitingToBuy ev e1) as [[[]|] p']; cbn in Hs1 |- *; [|done].
    revert Hs1. generalize p'. intros q. apply st_iter_preserves. intros ev' [[s []] e] Hp;
      [|by destruct Hp as [[=] _]]. rewrite snipe_handle_step. by apply snipe_step_budget. }
  destruct Hrun as [-> | Hw]; [cbn; split; lia|].
  destruct (st_iter _ _ _) as [o [m e]]. cbn in Hw. destruct Hw as (_ & Hr & Hq).
  unfold budget in Hq. cbn zeta. destruct (current m); cbn in Hr, Hq |- *; split; lia || done.
Qed.

(** ** Prices *)

(** The price the snipe compares with: a stop loss or a take profit. *)
Definition leaves_band (a : AgentState) (p : f64) : bool :=
  f64_lt p (f64_mul a.(buy_price).(pu_price) a.(instance).(stop_loss_percent_move_down)) ||
  f64_gt p (f64_mul a.(buy_price).(pu_price) a.(instance).(take_profit_percent_move_up)).

Lemma waiting_to_sell_answer ev e :
  let a := self e in
  let held := as_u64 (elapsed_ms (now (world e)) (when_bought_timer a) / 1000) in
  let other := (fun _ => Super) <$> sub_u64 held (last_time a) in
  fst (waiting_to_sell ev e)
  = if as_u64 (force_exit_horizon_s (instance a)) <? held
    then Some (Transition (Selling MaxAndClose 0))
    else match price_of ev with
         | Some p =>
             if (pu_pool p =? pool_id (pool a)) && leaves_band a (pu_price p)
             then Some (Transition (Selling Max 0)) else other
         | None => other
         end.
Proof.
  cbn zeta. unfold waiting_to_sell, leaves_band. unfold st_bind at 1, st_get. cbn [fst snd].
  destruct (_ <? _); [reflexivity|].
  assert (Hother : forall held waited,
    fst (st_bind (st_unwrap waited) (fun w => (if 1 <? w then modify_self (set_last_time held)
           else st_ret tt) ;;; st_ret Super) e) = (fun _ => @Super State) <$> waited).
  { intros held [w|]; [|reflexivity]. cbn. unfold st_bind. by destruct (1 <? w). }
  destruct (price_of ev) as [p|]; [|apply Hother].
  destruct (_ =? _); [|apply Hother]. cbn [andb].
  destruct (f64_lt _ _); [reflexivity|]. destruct (f64_gt _ _); [reflexivity | apply Hother].
Qed.

(** A snipe that holds a token sells it, and only then, when its horizon has
    passed (closing the account), or when a price of its own pool leaves the
    band between its stop loss and its take profit; a price that is not a number
    never makes it sell. *)
Theorem waiting_to_sell_spec (ev : SolanaStrategyEvent) (e : Env) :
  let a := self e in
  let held := as_u64 (elapsed_ms (now (world e)) (when_bought_timer a) / 1000) in
  let expired := as_u64 (force_exit_horizon_s (instance a)) <? held in
  let answer := fst (waiting_to_sell ev e) in
  (answer = Some (Transition (Selling MaxAndClose 0)) <-> expired = true) /\
  (answer = Some (Transition (Selling Max 0)) <->
     expired = false /\ exists p, price_of ev = Some p /\ pu_pool p = pool_id (pool a) /\
       leaves_band a (pu_price p) = true) /\
  (forall p, price_of ev = Some p -> is_nan (pu_price p) = true ->
     answer <> Some (Transition (Selling Max 0))).
Proof.
  intros a held expired answer.
  assert (Hband : forall p, is_nan p = true -> leaves_band a p = false).
  { intros p Hp. unfold leaves_band, f64_lt, f64_gt. destruct p; try discriminate.
    apply orb_false_iff. split; [reflexivity|]. unfold SpecFloat.SFltb.
    by destruct (f64_mul _ _). }
  assert (Hans : answer = _) by apply waiting_to_sell_answer. cbn zeta in Hans.
  fold a held expired in Hans.
  assert (Hother : (fun _ => @Super State) <$> sub_u64 held (last_time a)
            <> Some (Transition (Selling Max 0)) /\
          (fun _ => @Super State) <$> sub_u64 held (last_time a)
            <> Some (Transition (Selling MaxAndClose 0)))
    by (by destruct (sub_u64 _ _)).
  destruct Hother as [Ho1 Ho2]. revert Hans.
  destruct expired; [intros ->; split_and!; [done | | done]; split; [done | by intros [? _]]|].
  destruct (price_of ev) as [p|]; [|intros ->; split_and!; [by split | | done];
    split; [done | by intros (_ & ? & [=] & _)]].
  destruct (Z.eqb_spec (pu_pool p) (pool_id (pool a))) as [Hp|Hp]; cbn [andb].
  2: { intros ->. split_and!; [by split | split; [done|] | done]. by intros (_ & ? & [= <-] & ? & _). }
  destruct (leaves_band a (pu_price p)) eqn:Eb; intros ->.
  - split_and!; [done | split; [|done]; intros _; split; [done|]; by exists p |].
    intros p' [= <-] Hn. by rewrite (Hband _ Hn) in Eb.
  - split_and!; [by split | split; [done|] | done]. intros (_ & ? & [= <-] & _ & Hb). congruence.
Qed.
End Snipe.

(** ** The strategy *)

Section Strategy.
Import SniperStrat.
Context `{Profile} `{Ext} `{SniperRpc} `{StatigDriver}.

(** ** Results of executions *)

Definition is_execution_result (ev : SolanaStrategyEvent) : bool :=
  match ev with Original (ExecutionResultEvent _ _ _) => true | _ => false end.

Definition carries_result (t : Task) : bool :=
  match t with
  | Dispatch ev | Joining ev _ => is_execution_result ev
  | InsertSnipe _ _ | Removing _ => false
  end.

Definition no_results (p : Sm State * Env) : Prop :=
  Forall (fun t => carries_result t = false) (tasks (snd p)).

Lemma judge_frame pool price s :
  exists o s', judge pool price s = (o, s') /\ tasks s' = tasks s /\
    pool_snipes s' = pool_snipes s /\ cells s' = cells s /\ next_cell s' = next_cell s /\
    instance s' = instance s /\ sniper_wallet s' = sniper_wallet s.
Proof.
  unfold judge, st_bind, st_get. cbn.
  case_bool_decide; [by eexists _, _|]. destruct (_ && _); [by eexists _, _|].
  cbn. destruct (rpc_mint_account _ _) as [[mint|]|]; cbn; try by eexists _, _.
  unfold st_ret. repeat case_match; by eexists _, _.
Qed.

Lemma running_tasks ev s :
  exists o s' new, running ev s = (o, s') /\ tasks s' = tasks s ++ new /\
    Forall (fun t => exists pool price, t = InsertSnipe pool price) new /\
    pool_snipes s' = pool_snipes s /\ (forall t, o <> Some (Transition t)).
Proof.
  unfold running.
  assert (Hid : exists o s' new, (@Some (Response State) Super, s) = (o, s') /\ tasks s' = tasks s ++ new /\
    Forall (fun t => exists pool price, t = InsertSnipe pool price) new /\
    pool_snipes s' = pool_snipes s /\ (forall t, o <> Some (Transition t)))
    by (eexists _, _, []; rewrite app_nil_r; split_and!; [done..|]; discriminate).
  destruct ev as [[tick|[]| | |]|]; try exact Hid.
  unfold st_bind at 1. destruct (judge_frame pool price s) as (o & s' & -> & Ht & Hp & _).
  destruct o as [[]|]; cbn;
    try (eexists _, _, []; rewrite app_nil_r; split_and!; [done..|discriminate]).
  eexists _, _, [_]. cbn. split_and!; [done | by rewrite Ht | by repeat econstructor | done | discriminate].
Qed.

(** One event: the dispatch task, then at most an insertion. *)
Lemma process_event_tasks event m s :
  initialized m = true ->
  exists o m' s' new, process_event event (m, s) = (o, (m', s')) /\ initialized m' = true /\
    tasks s' = tasks s ++ new /\ pool_snipes s' = pool_snipes s /\
    Forall (fun t => t = Dispatch (Original event) /\
                     (exists b, event = Blockchain b \/ exists n, event = HeartBeat n) \/
                     exists pool price, t = InsertSnipe pool price) new.
Proof.
  intros Hi. destruct m as [st i]. cbn in Hi. subst i.
  assert (Hskip : exists o m' s' new,
      on_shared take_actions (sm st true, s) = (o, (m', s')) /\ initialized m' = true /\
      tasks s' = tasks s ++ new /\ pool_snipes s' = pool_snipes s /\
      Forall (fun t => t = Dispatch (Original event) /\
        (exists b, event = Blockchain b \/ exists n, event = HeartBeat n) \/
        exists pool price, t = InsertSnipe pool price) new).
  { eexists _, _, _, []. rewrite app_nil_r. by split_and!. }
  assert (Hhandle : (exists b, event = Blockchain b \/ exists n, event = HeartBeat n) ->
    exists o m' s' new,
      (handle strategy_machine (Original event) ;;; on_shared take_actions) (sm st true, s)
      = (o, (m', s')) /\ initialized m' = true /\
      tasks s' = tasks s ++ new /\ pool_snipes s' = pool_snipes s /\
      Forall (fun t => t = Dispatch (Original event) /\
        (exists b, event = Blockchain b \/ exists n, event = HeartBeat n) \/
        exists pool price, t = InsertSnipe pool price) new).
  { intros Hev. unfold st_bind at 1. rewrite handle_initialized.
    set (s1 := set_tasks (tasks s ++ [Dispatch (Original event)]) s).
    assert (Hd : Statig.on_dispatch strategy_machine st (Original event) s = (Some tt, s1))
      by reflexivity.
    destruct st.
    - destruct (running_tasks (Original event) s1) as (o & s2 & new & E & Ht & Hn & Hp & Hno).
      assert (Hnew : tasks s2 = tasks s ++ Dispatch (Original event) :: new)
        by (rewrite Ht; cbn; by rewrite <- app_assoc).
      assert (Hall : Forall (fun t => t = Dispatch (Original event) /\
          (exists b, event = Blockchain b \/ exists n, event = HeartBeat n) \/
          exists pool price, t = InsertSnipe pool price) (Dispatch (Original event) :: new))
        by (constructor; [by left | eapply Forall_impl; [exact Hn|]; by right]).
      destruct o as [r|].
      + rewrite (dispatch_stay strategy_machine _ _ _ _ _ _ Hd E).
        2: { destruct r as [| |t]; [by left | by right | by destruct (Hno t)]. }
        by eexists _, _, _, (Dispatch (Original event) :: new).
      + rewrite (dispatch_panics strategy_machine _ _ _ _ _ Hd E).
        by eexists _, _, _, (Dispatch (Original event) :: new).
    - rewrite (dispatch_stay strategy_machine _ _ _ _ _ Handled Hd eq_refl); [|by left].
      eexists _, _, _, [Dispatch (Original event)]. split_and!; [done..|].
      constructor; [by left | constructor]. }
  unfold process_event. destruct event; try exact Hskip; apply Hhandle;
    first [by eexists LiquidityRemoved; right; eauto | by eexists; left].
Qed.

Lemma run_task_no_results i j m s : no_results (m, s) -> no_results (m, run_task i j s).
Proof.
  unfold no_results. cbn. intros Ht. unfold run_task.
  destruct (tasks s !! i) as [t|] eqn:Et; [|done].
  pose proof (Forall_lookup_1 _ _ _ _ Ht Et) as Hc. destruct t as [pool price|ev|ev children|pools].
  - unfold insert_snipe, st_bind, st_get. cbn.
    unfold on_world, st_zoom. destruct (Sniper.new _ _ _ _ _) as [[a|] w]; cbn; by apply Forall_delete.
  - cbn. by apply Forall_insert.
  - destruct (children !! j) as [id|].
    + unfold deliver. cbn. destruct (cells s !! id) as [[m' a]|]; cbn; [|by apply Forall_insert].
      destruct (Sniper.handle_event _ _) as [o [m'' e]]. cbn. by apply Forall_insert.
    + destruct children; cbn; [by apply Forall_insert | done].
  - destruct pools; cbn; [by apply Forall_delete | by apply Forall_insert].
Qed.

(** A snipe is never told what became of its order's execution: in every
    reachable state no task carries an execution result, so an order that could
    not be executed is only noticed when it times out. *)
Theorem snipes_get_no_results (p q : Sm State * Env) :
  initialized (fst p) = true -> no_results p -> reachable p q -> no_results q.
Proof.
  intros Hi Hp Hq. revert Hi Hp. induction Hq as [|p q r Hstep _ IH]; [done|]. intros Hi Hp.
  destruct Hstep as [event [m s] | i j m s | d m s Hd].
  - destruct (process_event_tasks event m s Hi) as (o & m' & s' & new & E & Hi' & Ht & _ & Hn).
    apply IH; [by rewrite E | rewrite E; unfold no_results; cbn; rewrite Ht].
    apply Forall_app. split; [exact Hp|]. eapply Forall_impl; [exact Hn|]. cbn.
    intros t [[-> (b & [-> | [n ->]])] | (pool & price & ->)]; reflexivity.
  - apply IH; [exact Hi | by apply run_task_no_results].
  - apply IH; [exact Hi | exact Hp].
Qed.

(** ** The limit on simultaneous snipes *)

(** A pool that passes the filters whatever the RPC node has been asked before,
    as long as the snipes inserted are those of [s]. *)
Definition passes_filters (s : Env) (np : RaydiumPool * RaydiumPoolPriceUpdate) : Prop :=
  forall s', instance s' = instance s -> pool_snipes s' = pool_snipes s ->
    fst (judge np.1 np.2 s') = Some StartSnipe.

Definition new_pool_event (np : RaydiumPool * RaydiumPoolPriceUpdate) : BotEvent :=
  Blockchain (RaydiumNewPoolEvent np.1 np.2).

(** The tasks one accepted pool leaves behind. *)
Definition pool_tasks (np : RaydiumPool * RaydiumPoolPriceUpdate) : list Task :=
  [Dispatch (Original (new_pool_event np)); InsertSnipe np.1 np.2].

Lemma accepted_pool_event np s s0 :
  passes_filters s0 np -> instance s = instance s0 -> pool_snipes s = pool_snipes s0 ->
  exists o s', process_event (new_pool_event np) (sm Running true, s) = (o, (sm Running true, s')) /\
    instance s' = instance s0 /\ pool_snipes s' = pool_snipes s0 /\
    tasks s' = tasks s ++ pool_tasks np.
Proof.
  intros Hf Hi Hp. unfold process_event, new_pool_event. unfold st_bind at 1.
  rewrite handle_initialized. fold (new_pool_event np).
  set (s1 := set_tasks (tasks s ++ [Dispatch (Original (new_pool_event np))]) s).
  destruct (judge_frame np.1 np.2 s1) as (o & s2 & Ej & Ht & Hps & _ & _ & Hin & _).
  pose proof (Hf s1 Hi Hp) as Hv. rewrite Ej in Hv. cbn in Hv. subst o.
  assert (Hh : running (Original (new_pool_event np)) s1
    = (Some Super, set_tasks (tasks s2 ++ [InsertSnipe np.1 np.2]) s2)).
  { unfold running, new_pool_event. unfold st_bind at 1. by rewrite Ej. }
  rewrite (dispatch_stay strategy_machine _ Running s s1 _ Super eq_refl Hh) by (by right).
  eexists _, _. split; [reflexivity|]. cbn. rewrite Hin, Hps, Ht. cbn.
  by rewrite <- app_assoc.
Qed.

Lemma accepted_pool_events nps s s0 :
  Forall (passes_filters s0) nps -> instance s = instance s0 -> pool_snipes s = pool_snipes s0 ->
  exists s', reachable (sm Running true, s) (sm Running true, s') /\
    pool_snipes s' = pool_snipes s0 /\ tasks s' = tasks s ++ concat (map pool_tasks nps).
Proof.
  intros Hf. revert s. induction Hf as [|np nps Hnp _ IH]; intros s Hi Hp.
  { exists s. cbn. rewrite app_nil_r. by split; [apply rtc_refl|]. }
  destruct (accepted_pool_event np s s0 Hnp Hi Hp) as (o & s1 & E & Hi1 & Hp1 & Ht1).
  destruct (IH s1 Hi1 Hp1) as (s2 & Hr & Hp2 & Ht2). exists s2.
  split; [|split; [done | rewrite Ht2, Ht1; cbn; by rewrite <- app_assoc]].
  eapply rtc_l; [|exact Hr].
  pose proof (step_event (new_pool_event np) (sm Running true, s)) as Hs. by rewrite E in Hs.
Qed.

Lemma insert_snipe_inserts pool price s :
  exists id, pool_snipes (snd (insert_snipe pool price s)) = <[pool_id pool := id]> (pool_snipes s) /\
    tasks (snd (insert_snipe pool price s)) = tasks s.
Proof.
  unfold insert_snipe. unfold st_bind at 1, st_get. unfold st_bind, on_world, st_zoom.
  assert (Hn : exists a w, Sniper.new pool (sniper_wallet s) (instance s) price (world s) = (Some a, w)).
  { unfold Sniper.new.
    destruct (get_balance_runs (pubkey (sniper_wallet s)) (world s)) as (r & w & E & _).
    rewrite (st_bind_Some _ _ _ _ _ E).
    destruct (get_token_balance_runs (pubkey (sniper_wallet s)) (base_mint pool) w) as (r' & w' & E' & _).
    rewrite (st_bind_Some _ _ _ _ _ E'). by eexists _, _. }
  destruct Hn as (a & w & ->). by eexists.
Qed.

Lemma pending_insertions m nps done s :
  tasks s = done ++ concat (map pool_tasks nps) ->
  NoDup (map (fun np => pool_id np.1) nps) ->
  (forall np, np ∈ nps -> pool_snipes s !! pool_id np.1 = None) ->
  exists s', reachable (m, s) (m, s') /\
    size (pool_snipes s') = (size (pool_snipes s) + length nps)%nat.
Proof.
  revert done s. induction nps as [|np nps IH]; intros done s Ht Hd Hn.
  { exists s. split; [apply rtc_refl | cbn; lia]. }
  cbn in Ht, Hd. apply NoDup_cons in Hd as [Hnp Hd].
  set (d := Dispatch (Original (new_pool_event np))) in *.
  set (i := length (done ++ [d])).
  assert (Hs : tasks s = (done ++ [d]) ++ InsertSnipe np.1 np.2 :: concat (map pool_tasks nps))
    by (rewrite Ht; by rewrite <- app_assoc).
  assert (Hi : tasks s !! i = Some (InsertSnipe np.1 np.2)) by (rewrite Hs; by apply list_lookup_middle).
  assert (Hdel : base.delete i (tasks s) = (done ++ [d]) ++ concat (map pool_tasks nps))
    by (rewrite Hs; apply delete_middle).
  destruct (insert_snipe_inserts np.1 np.2 (set_tasks (base.delete i (tasks s)) s)) as (id & Hp & Ht').
  assert (Hrun : run_task i 0 s = snd (insert_snipe np.1 np.2 (set_tasks (base.delete i (tasks s)) s)))
    by (unfold run_task; by rewrite Hi).
  rewrite <- Hrun in Hp, Ht'. cbn in Hp, Ht'.
  destruct (IH (done ++ [d]) (run_task i 0 s)) as (s' & Hr & Hs'); [by rewrite Ht' | done | |].
  - intros np' Hin. rewrite Hp, lookup_insert_ne; [by apply Hn; right|].
    intros Heq. apply Hnp. rewrite Heq. by apply (list_elem_of_fmap_2 (fun np => pool_id np.1)).
  - exists s'. split; [eapply rtc_l; [apply (step_task i 0) | exact Hr]|].
    rewrite Hs', Hp, map_size_insert_None by (apply Hn; left). cbn. lia.
Qed.

(** [max_simultaneous_snipes] does not bound the snipes: the limit is
    compared with the snipes already inserted, and insertion is left to a task.
    Any number of new pools that pass the filters, announced before the first
    insertion runs, are all sniped at once. *)
Theorem simultaneous_snipes_unbounded (nps : list (RaydiumPool * RaydiumPoolPriceUpdate)) (s : Env) :
  tasks s = [] -> Forall (passes_filters s) nps ->
  NoDup (map (fun np => pool_id np.1) nps) ->
  exists s', reachable (sm Running true, s) (sm Running true, s') /\
    size (pool_snipes s') = (size (pool_snipes s) + length nps)%nat.
Proof.
  intros Ht Hf Hd.
  destruct (accepted_pool_events nps s s Hf eq_refl eq_refl) as (s1 & Hr1 & Hp1 & Ht1).
  rewrite Ht in Ht1. cbn in Ht1.
  destruct (pending_insertions (sm Running true) nps [] s1 Ht1 Hd) as (s2 & Hr2 & Hs2).
  { intros np Hin. rewrite Hp1. rewrite Forall_forall in Hf.
    specialize (Hf np Hin s eq_refl eq_refl). revert Hf. unfold judge, st_bind at 1, st_get. cbn.
    case_bool_decide as Hc; [discriminate|]. intros _. by apply eq_None_not_Some. }
  exists s2. split; [by eapply (transitivity (R := rtc step)) | by rewrite Hs2, Hp1].
Qed.
End Strategy.

(** ** Concrete instances *)

Definition sample_price (p : Pubkey) : RaydiumPoolPriceUpdate := {|
  pu_pool := p; pu_price := f64_of_Z 2; pu_base_reserve := f64_of_Z 100;
  pu_quote_reserve := f64_of_Z 50; pu_created_at := 0
|}.

(** A node that knows every pool, at price 2, and mints without authorities. *)
Definition sample_sniper_rpc : SniperRpc := {|
  rpc_pool_details := fun _ _ => Some sample_pool;
  rpc_pool_price := fun _ p => Some (sample_price p);
  rpc_mint_account := fun _ _ => Some (Some {| mint_authority := None; mint_freeze_authority := None |})
|}.

Definition sample_snipe : SnipingStrategyInstance := {|
  snipe_id := 5; snipe_user_id := 1; sniper_private_key := "key"; size_sol := f64_of_Z 1;
  stop_loss_percent_move_down := f64_div (f64_of_Z 1) (f64_of_Z 2);
  take_profit_percent_move_up := f64_of_Z 3; force_exit_horizon_s := 60;
  max_simultaneous_snipes := 1; min_pool_liquidity_sol := f64_of_Z 10;
  skip_pump_fun := true; skip_mintable := true; buy_delay_ms := 0;
  skip_if_price_drops_percent := f64_of_Z 50
|}.

Definition sample_sniper_strategy : SniperStrat.Env :=
  SniperStrat.env sample_snipe 7 ∅ ∅ 0 sample_world [] [].

Definition other_pool (id : Pubkey) : RaydiumPool := {|
  pool_id := id; base_mint := 41; quote_mint := 42; lp_mint := 43;
  base_decimals := 6; quote_decimals := 9; lp_decimals := 9; version := 4;
  program_id := 44; authority := 45; open_orders := 46; target_orders := 47;
  base_vault := 48; quote_vault := 49; withdraw_queue := 50; lp_vault := 51;
  market_version := 3; market_program_id := 52; market_id := 53; lp_reserve := 0;
  open_time := 0; reverse_pool := false; freeze_authority := None
|}.

#[local] Existing Instance debug_build.
#[local] Existing Instance sample_ext.
#[local] Existing Instance sample_sniper_rpc.
#[local] Existing Instance documented_driver.

Lemma snipes_get_no_results_witness :
  let p := (sm SniperStrat.Running true, sample_sniper_strategy) in
  let q := snd (SniperStrat.process_event
                  (HeartBeat 100) p) in
  no_results q.
Proof.
  intros p q.
  apply (snipes_get_no_results p q).
  - reflexivity.
  - apply Forall_nil_2.
  - apply rtc_once, SniperStrat.step_event.
Defined.

(** Two pools sniped under a limit of one. *)
Lemma simultaneous_snipes_unbounded_witness :
  exists s', SniperStrat.reachable
               (sm SniperStrat.Running true, sample_sniper_strategy) (sm SniperStrat.Running true, s') /\
    size (SniperStrat.pool_snipes s') = 2%nat.
Proof.
  apply (simultaneous_snipes_unbounded
    [(other_pool 60, sample_price 60); (other_pool 61, sample_price 61)] sample_sniper_strategy).
  - reflexivity.
  - repeat constructor; intros s' Hi Hp; unfold SniperStrat.judge, st_bind, st_get;
      rewrite Hi, Hp; vm_compute; reflexivity.
  - apply (bool_decide_unpack _). vm_compute. exact I.
Defined.
