(* ===== verification/Sweeper.v ===== *)
(** * The sweeper strategy ([strategies/sweeper_strategy])

    One pass: find the traders that still hold something, send everything they
    hold to the user's main wallet, sell its tokens, done.  It shares the agents
    of the volume strategy ([VolumeAgent], [VolumeStrategy]). *)

From S2P Require Import Prelude MachineInt Float64 Buffers Types Cache GenericApi Samples Statig VolumeAgent VolumeAgentFacts VolumeStrategy VolumeStrategyFacts.

Module Sweeper.

Inductive ExecutionStatus := StatusIdle | StatusError | StatusDone | StatusPending.

#[global] Instance ExecutionStatus_eq_dec : EqDecision ExecutionStatus.
Proof. solve_decision. Defined.

Inductive State := Listing | Sweeping | SellingTokenMainW | Done.

#[global] Instance State_eq_dec : EqDecision State.
Proof. solve_decision. Defined.

(** [SweeperStrategyStateMachine]; its [amount] is never used. *)
Record Env := env {
  instance : Volume.VolumeStrategyInstance;
  pool : RaydiumPool;
  main_wallet : AgentId;
  agents : list AgentId;
  stopwatch : Stopwatch.t;
  fleet : Fleet;
}.

Definition set_agents v (s : Env) : Env :=
  env s.(instance) s.(pool) s.(main_wallet) v s.(stopwatch) s.(fleet).

Definition set_fleet v (s : Env) : Env :=
  env s.(instance) s.(pool) s.(main_wallet) s.(agents) s.(stopwatch) v.

Definition on_fleet {A} (m : ST Fleet A) : ST Env A := st_zoom fleet set_fleet m.

Definition on_world {A} (m : ST World A) : ST Env A := on_fleet (on_fleet_world m).

Section Strategy.
Context `{Ext} `{StatigDriver}.

(** ** Status *)

(** The loop of [get_execution_status]: [None] is the early return; unlike in
    the volume strategy, a deactivating agent is pending. *)
Fixpoint count_agents (ids : list AgentId) (agents_with_error agents_with_success : nat)
    : ST Fleet (option (nat * nat)) :=
  match ids with
  | [] => st_ret (Some (agents_with_error, agents_with_success))
  | id :: rest =>
      st <- agent_state id ;;
      match st with
      | Agent.Success => count_agents rest agents_with_error (S agents_with_success)
      | Agent.Error _ | Agent.Deactivated => count_agents rest (S agents_with_error) agents_with_success
      | _ => st_ret None
      end
  end.

Definition get_execution_status : ST Env ExecutionStatus :=
  s <- st_get ;;
  match s.(agents) with
  | [] => st_ret StatusIdle
  | _ =>
      counts <- on_fleet (count_agents s.(agents) 0 0) ;;
      st_ret match counts with
             | None => StatusPending
             | Some (_, agents_with_success) =>
                 if (0 <? agents_with_success)%nat then StatusDone else StatusError
             end
  end.

(** ** Entry actions *)

(** A trader becomes an agent when it still holds something; its main wallet is
    the [main_wallet] field of the strategy's main agent. *)
Definition agent_with_balance (t : Trader) : ST Env (option AgentId) :=
  s <- st_get ;;
  trader_sol_balance_res <- on_world (get_balance t.(wallet)) ;;
  trader_token_balance <- on_world (get_token_balance t.(wallet) s.(pool).(base_mint)) ;;
  match trader_sol_balance_res with
  | Err _ => st_ret None
  | Ok trader_sol_balance =>
      if (trader_sol_balance <? NEW_ACCOUNT_THRESHOLD_SOL) &&
         (Agent.or_zero trader_token_balance <?
            as_u64 s.(instance).(Volume.agents_keep_tokens_lamports))
      then st_ret None
      else
        main <- on_fleet (lock_agent s.(main_wallet)) ;;
        a <- on_world (Agent.new_from_trader s.(pool) t (Agent.main_wallet (snd main))) ;;
        match a with
        | None => st_ret None
        | Some a => id <- on_fleet (new_agent_cell a) ;; st_ret (Some id)
        end
  end.

(** The rows are selected by their own id, compared with the instance's. *)
Definition selected (i : Volume.VolumeStrategyInstance) (main : Pubkey) (t : Trader) : bool :=
  (t.(trader_id) =? i.(Volume.instance_id)) && negb (t.(wallet) =? main).

(** The results of [buffer_unordered] are taken in the order of the rows. *)
Definition get_agents_with_balance : ST Env unit :=
  ok <- on_world db_get ;;
  (if ok then st_ret tt else st_panic) ;;;
  s <- st_get ;;
  main <- on_fleet (lock_agent s.(main_wallet)) ;;
  loaded <- on_world db_get ;;
  if loaded then
    rows <- on_world (st_gets (fun w => (map_to_list w.(traders)).*2)) ;;
    found <- st_map agent_with_balance
      (base.filter (fun t => selected s.(instance) (Agent.pubkey_of (snd main)) t = true) rows) ;;
    st_modify (set_agents (omap id found))
  else st_ret tt.

(** What an agent is told to send to the main wallet. *)
Definition sweep_transfers (base_mint receiver : Pubkey) (token_balance : Z)
    : list SolanaTransferActionPayload :=
  if 0 <? token_balance then
    [{| asset := Token base_mint; receiver := receiver; amount := MaxAndClose |};
     {| asset := Sol; receiver := receiver; amount := Max |}]
  else [{| asset := Sol; receiver := receiver; amount := Max |}].

Definition sweep_agent (receiver : Pubkey) (id : AgentId) : ST Env unit :=
  s <- st_get ;;
  token_balance <- on_fleet (token_balance_of id) ;;
  on_fleet (send id (ForAgent (Transfer
    (sweep_transfers s.(pool).(base_mint) receiver token_balance)))).

Definition sweep : ST Env unit :=
  s <- st_get ;;
  main <- on_fleet (lock_agent s.(main_wallet)) ;;
  st_iter (sweep_agent (Agent.pubkey_of (snd main))) s.(agents).

Definition sell_token : ST Env unit :=
  s <- st_get ;;
  on_fleet (send s.(main_wallet) (ForAgent (Sell Max))).

(** [drop]: nothing calls it. *)
Definition drop : ST Env unit :=
  s <- st_get ;;
  st_iter (fun id => on_fleet (send id (ForAgent Deactivate))) s.(agents) ;;;
  st_modify (set_agents []).

(** ** States *)

Definition sweeping : ST Env (Response State) :=
  st <- get_execution_status ;;
  st_ret match st with
         | StatusDone => Transition SellingTokenMainW
         | _ => Super
         end.

Definition strategy_handler (st : State) (event : SolanaStrategyEvent) : ST Env (Response State) :=
  match st with
  | Listing => st_ret (Transition Sweeping)
  | Sweeping => sweeping
  | SellingTokenMainW => st_ret (Transition Done)
  | Done => st_ret Handled
  end.

Definition strategy_entry (st : State) : ST Env unit :=
  match st with
  | Listing => get_agents_with_balance
  | Sweeping => sweep
  | SellingTokenMainW => sell_token
  | Done => st_ret tt
  end.

Definition on_dispatch (st : State) (event : SolanaStrategyEvent) : ST Env unit :=
  s <- st_get ;;
  on_fleet (spawn_delivery event (s.(main_wallet) :: s.(agents))).

Definition strategy_machine : Machine Env State SolanaStrategyEvent := {|
  Statig.initial := Listing;
  Statig.on_dispatch := on_dispatch;
  Statig.handler := strategy_handler;
  Statig.superstate := fun _ => None;
  Statig.entry_action := strategy_entry;
  Statig.exit_action := fun _ => st_ret tt;
|}.

(** [None]: the pool, the database or the user is missing. *)
Definition new (pool : option RaydiumPool) (user_key : option (option KeypairClonable))
    (i : Volume.VolumeStrategyInstance) : ST Fleet (option (Sm State * Env)) :=
  match pool with
  | None => st_ret None
  | Some p =>
      t <- on_fleet_world (st_gets now) ;;
      ok <- on_fleet_world db_get ;;
      match ok, user_key with
      | true, Some key =>
          key <- st_unwrap key ;;
          a <- on_fleet_world (Agent.new p key None None) ;;
          match a with
          | None => st_ret None
          | Some a =>
              id <- new_agent_cell a ;;
              f <- st_get ;;
              st_ret (Some (state_machine strategy_machine,
                env i p id [] (Stopwatch.new t (as_u64 i.(Volume.tranche_frequency_hbs))) f))
          end
      | _, _ => st_ret None
      end
  end.

(** [SweeperStrategy::process_event]: only heartbeats and blockchain events are
    handled; the queue of actions is emptied and returned. *)
Definition process_event (event : BotEvent) : ST (Sm State * Env) (list ActionRef) :=
  (match event with
   | HeartBeat _ | Blockchain _ => handle strategy_machine (Original event)
   | _ => st_ret tt
   end) ;;;
  on_shared (on_fleet take_queue).

Inductive step : (Sm State * Env) -> (Sm State * Env) -> Prop :=
| step_event event p : step p (snd (process_event event p))
| step_delivery i m s : step (m, s) (m, set_fleet (run_task i s.(fleet)) s)
| step_time d m s : 0 <= d -> step (m, s) (m, snd (on_world (sleep_ms d) s)).

Definition reachable (p q : Sm State * Env) : Prop := rtc step p q.
End Strategy.
End Sweeper.

(** * What the sweeper sweeps, and when it stops *)

Import Sweeper.

Section Facts.
Context `{Ext} `{StatigDriver}.

(** ** Listing *)

(** [s'] is [s] after more agents were created: old cells are kept. *)
Definition grown (s s' : Env) : Prop :=
  instance s' = instance s /\ pool s' = pool s /\ main_wallet s' = main_wallet s /\
  agents s' = agents s /\ next_cell (fleet s) <= next_cell (fleet s') /\
  forall id, id < next_cell (fleet s) -> cells (fleet s') !! id = cells (fleet s) !! id.

#[local] Instance grown_preorder : PreOrder grown.
Proof.
  split; [intros s; repeat split; reflexivity|].
  intros x y z (? & ? & ? & ? & ? & Hc) (? & ? & ? & ? & ? & Hc').
  split_and!; try congruence; [lia|]. intros id Hid. rewrite Hc' by lia. by apply Hc.
Qed.

(** The cell [id] runs an agent of row [t]. *)
Definition agent_of (t : Trader) (f : Fleet) (id : AgentId) : Prop :=
  exists m a, cells f !! id = Some (m, a) /\ Agent.trader a = t.

Lemma on_world_grown {A} (m : ST World A) s : grown s (snd (on_world m s)).
Proof. unfold on_world, on_fleet, on_fleet_world, st_zoom. destruct (m _). by repeat split. Qed.

Lemma new_from_trader_row p t mw w o w' :
  Agent.new_from_trader p t mw w = (o, w') ->
  forall a, o = Some (Some a) -> Agent.trader a = t.
Proof.
  unfold Agent.new_from_trader. destruct (keypair_of_privkey _); [|by intros [= <- _]].
  unfold st_bind at 1. cbn.
  intros E a ->. apply st_bind_inv in E as (? & ? & _ & E). apply st_bind_inv in E as (? & ? & _ & E).
  by injection E as <- _.
Qed.

Lemma agent_with_balance_creates t s o s' :
  agent_with_balance t s = (o, s') ->
  grown s s' /\
  forall id, o = Some (Some id) -> agent_of t (fleet s') id /\ id < next_cell (fleet s').
Proof.
  unfold agent_with_balance. unfold st_bind at 1, st_get.
  unfold st_bind at 1. pose proof (on_world_grown (get_balance (wallet t)) s) as G1.
  destruct (on_world (get_balance (wallet t)) s) as [[sol|] s1]; cbn in G1; [|by intros [= <- <-]].
  unfold st_bind at 1.
  pose proof (on_world_grown (get_token_balance (wallet t) (base_mint (pool s))) s1) as G2.
  destruct (on_world (get_token_balance _ _) s1) as [[tok|] s2]; cbn in G2;
    [|intros [= <- <-]; split; [by transitivity s1 | done]].
  assert (G : grown s s2) by (by transitivity s1). clear G1 G2.
  destruct sol as [b|]; [|by intros [= <- <-]]. destruct (_ && _); [by intros [= <- <-]|].
  unfold st_bind at 1. unfold lock_agent, on_fleet, st_zoom, st_bind, st_gets.
  destruct (cells (fleet s2) !! main_wallet s) as [main|]; cbn; [|by intros [= <- <-]].
  unfold on_world, on_fleet, on_fleet_world, st_zoom. cbn.
  destruct (Agent.new_from_trader _ _ _ _) as [[[a|]|] w] eqn:En; cbn.
  - pose proof (new_from_trader_row _ _ _ _ _ _ En a eq_refl) as Ht. intros [= <- <-]. split.
    + destruct G as (? & ? & ? & ? & ? & Hc). split_and!; cbn; try done; [lia|].
      intros id Hid. rewrite lookup_insert_ne by lia. by apply Hc.
    + intros id [= <-]. split; [|cbn; lia]. eexists _, a. split; [apply lookup_insert_eq | done].
  - by intros [= <- <-].
  - by intros [= <- <-].
Qed.

Lemma agents_with_balance_created rows s o s' :
  st_map agent_with_balance rows s = (o, s') ->
  grown s s' /\
  forall found, o = Some found ->
    length found = length rows /\
    Forall (fun id => (exists t, t ∈ rows /\ agent_of t (fleet s') id) /\ id < next_cell (fleet s'))
      (omap id found).
Proof.
  revert s o s'. induction rows as [|t rows IH]; intros s o s'.
  { intros [= <- <-]. split; [reflexivity|]. intros ? [= <-]. by split. }
  cbn [st_map]. unfold st_bind at 1.
  destruct (agent_with_balance t s) as [[x|] s1] eqn:E1;
    destruct (agent_with_balance_creates t s _ _ E1) as [G1 H1]; [|by intros [= <- <-]].
  unfold st_bind. destruct (st_map agent_with_balance rows s1) as [[xs|] s2] eqn:E2;
    destruct (IH _ _ _ E2) as [G2 H2]; intros [= <- <-]; (split; [by transitivity s1|]); [|done].
  intros ? [= <-]. destruct (H2 xs eq_refl) as [Hl Hf]. split; [cbn; by rewrite Hl|].
  assert (Hf' : Forall (fun id => (exists t', t' ∈ t :: rows /\ agent_of t' (fleet s2) id) /\
      id < next_cell (fleet s2)) (omap id xs)).
  { eapply Forall_impl; [exact Hf|]. intros id [(t' & Hin & Ha) Hlt]. split; [|done].
    exists t'. split; [by right | done]. }
  destruct x as [id0|]; cbn; [|done]. constructor; [|done].
  destruct (H1 id0 eq_refl) as [(m & a & Hc & Ht) Hlt]. destruct G2 as (_ & _ & _ & _ & Hn & Hc2).
  split; [|lia]. exists t. split; [left|]. exists m, a. rewrite Hc2 by done. done.
Qed.

Lemma omap_id_length {A} (l : list (option A)) : (length (omap id l) <= length l)%nat.
Proof. induction l as [|[a|] l IH]; cbn; lia. Qed.

(** The rows the sweeper's query selects from a table. *)
Definition selected_rows (i : Volume.VolumeStrategyInstance) (main : Pubkey) (w : World)
    : list Trader :=
  base.filter (fun t => selected i main t = true) (map_to_list (traders w)).*2.

Lemma get_agents_with_balance_created s s' m a :
  cells (fleet s) !! main_wallet s = Some (m, a) ->
  get_agents_with_balance s = (Some tt, s') -> agents s' <> agents s ->
  (length (agents s') <= length (selected_rows (instance s) (Agent.pubkey_of a) (fleet_world (fleet s))))%nat /\
  Forall (fun id => exists t, t ∈ selected_rows (instance s) (Agent.pubkey_of a) (fleet_world (fleet s)) /\
                              agent_of t (fleet s') id) (agents s').
Proof.
  intros Hc. unfold get_agents_with_balance. unfold st_bind at 1, on_world, on_fleet, on_fleet_world, st_zoom, db_get at 1.
  cbn. destruct (db_available _); cbn; [|done]. unfold st_bind at 1, st_ret at 1. unfold st_bind at 1, st_get.
  unfold st_bind at 1, lock_agent. unfold st_bind at 1, st_gets. cbn. rewrite Hc. cbn.
  destruct (db_available _); cbn; [|by intros [= <-]].
  match goal with |- context [st_map ?f ?rows ?s1] =>
    destruct (st_map f rows s1) as [[found|] s2] eqn:E2 end; [|done].
  intros [= <-] _. cbn [agents set_agents fleet].
  destruct (agents_with_balance_created _ _ _ _ E2) as [_ Hf]. destruct (Hf found eq_refl) as [Hl Ha].
  split.
  - etransitivity; [apply omap_id_length|]. rewrite Hl. reflexivity.
  - eapply Forall_impl; [exact Ha|]. by intros id [Ht _].
Qed.

(** The sweeper looks for its traders by the wrong key.  It selects the rows
    whose own id is the instance's id, so every agent it sweeps is of such a row
    whichever strategy that row belongs to, a trader of the strategy with
    another id is never swept, and, row ids being unique, there is at most one
    agent. *)
Theorem swept_by_row_id (s s' : Env) (m : Sm Agent.State) (a : Agent.AgentState) :
  cells (fleet s) !! main_wallet s = Some (m, a) -> agents s = [] ->
  (forall k k' t t', traders (fleet_world (fleet s)) !! k = Some t ->
     traders (fleet_world (fleet s)) !! k' = Some t' -> trader_id t = trader_id t' -> k = k') ->
  get_agents_with_balance s = (Some tt, s') ->
  (length (agents s') <= 1)%nat /\
  forall id, id ∈ agents s' -> exists t k, agent_of t (fleet s') id /\
    traders (fleet_world (fleet s)) !! k = Some t /\
    trader_id t = Volume.instance_id (instance s).
Proof.
  intros Hc Hnil Huniq E. destruct (decide (agents s' = [])) as [-> | Hne].
  { split; [cbn; lia|]. intros id Hid. by apply elem_of_nil in Hid. }
  destruct (get_agents_with_balance_created s s' m a Hc E) as [Hl Ha]; [congruence|].
  split.
  - etransitivity; [exact Hl|]. unfold selected_rows. set (sel := selected _ _).
    set (tbl := traders (fleet_world (fleet s))) in *.
    assert (Hone : forall l : list (Pubkey * Trader), NoDup l.*1 ->
      (forall k t, (k, t) ∈ l -> tbl !! k = Some t) ->
      (length (base.filter (fun t => sel t = true) l.*2) <= 1)%nat).
    { induction l as [|[k t] l IH]; intros Hd Hin; [cbn; lia|]. cbn in Hd |- *.
      apply NoDup_cons in Hd as [Hk Hd]. specialize (IH Hd (fun k t H => Hin k t (list_elem_of_further _ _ _ H))).
      case_decide as Ht; [|done]. cbn.
      destruct (base.filter _ l.*2) as [|t' r] eqn:Ef; [cbn; lia|]. exfalso.
      assert (Ht' : t' ∈ base.filter (fun t => sel t = true) l.*2) by (rewrite Ef; left).
      apply list_elem_of_filter in Ht' as [Hs' Hin'].
      apply list_elem_of_fmap in Hin' as ([k' t''] & -> & Hkt). cbn in Hs'.
      apply Hk. apply list_elem_of_fmap. exists (k', t''). split; [|done]. cbn.
      apply (Huniq k k' t t''); [by apply Hin; left | by apply Hin; right |].
      unfold sel, selected in Ht, Hs'. lia. }
    apply Hone; [apply NoDup_fst_map_to_list | by intros k t; rewrite elem_of_map_to_list].
  - intros id Hid. rewrite Forall_forall in Ha. destruct (Ha id Hid) as (t & Ht & Hag).
    apply list_elem_of_filter in Ht as [Hs Hin]. apply list_elem_of_fmap in Hin as ([k t'] & -> & Hin).
    apply elem_of_map_to_list in Hin. exists t', k. split_and!; [done | done |].
    unfold selected in Hs. cbn in Hs. lia.
Qed.

(** ** A sweep that never ends *)

(** An agent without a main wallet that waits for nothing. *)
Definition dead_agent (s : Env) (id : AgentId) : Prop :=
  exists r a, cells (fleet s) !! id = Some (sm (Agent.Deactivating r) true, a) /\
    Agent.actions_in_progress a = [] /\ Stopwatch.lap_ticks (Agent.timeout_timer a) = 0.

(** Sweeping, with no agent at all or with a dead one, and only events from
    outside under way. *)
Definition hopeless (p : Sm State * Env) : Prop :=
  let '(m, s) := p in
  m = sm Sweeping true /\ (agents s = [] \/ exists id, id ∈ agents s /\ dead_agent s id) /\
  Forall (fun d => is_command_event d.(d_event) = false) s.(fleet).(tasks).

Lemma dead_ignores ev r a w q :
  is_command_event ev = false -> Agent.actions_in_progress a = [] ->
  Stopwatch.lap_ticks (Agent.timeout_timer a) = 0 ->
  Agent.handle_event ev (sm (Agent.Deactivating r) true, Agent.env a w q)
  = (Some tt, (sm (Agent.Deactivating r) true, Agent.env a w q)).
Proof.
  intros Hev Ha Ht. rewrite handle_event_step. unfold step_result. cbn [Agent.agent_handler].
  unfold Agent.deactivating.
  destruct ev as [[tick|[]| | |]|]; try done.
  - unfold Agent.is_cooled_down_before_retry, Stopwatch.is_time_elapsed, st_bind, st_get. cbn.
    by rewrite Ht.
  - unfold Agent.process_execution_receipt, st_bind, st_get. cbn. rewrite Ha.
    by rewrite bool_decide_false by apply not_elem_of_nil.
Qed.

Lemma send_keeps_dead ev id id' s :
  is_command_event ev = false -> dead_agent s id ->
  dead_agent (set_fleet (snd (send id' ev (fleet s))) s) id.
Proof.
  intros Hev (r & a & Hc & Ha & Ht). destruct (decide (id = id')) as [<-|Hne].
  - exists r, a. split; [|done]. cbn.
    rewrite (send_initialized _ _ _ _ _ _ _ _ Hc (dead_ignores ev r a _ _ Hev Ha Ht)).
    apply lookup_insert_eq.
  - exists r, a. cbn. by rewrite send_other.
Qed.

Lemma run_task_keeps_hopeless i s :
  hopeless (sm Sweeping true, s) -> hopeless (sm Sweeping true, set_fleet (run_task i (fleet s)) s).
Proof.
  intros (_ & Hd & Ht). split; [done|]. cbn [agents set_fleet].
  unfold run_task. cbn [fleet]. destruct (tasks (fleet s) !! i) as [t|] eqn:Et; [|done].
  pose proof (Forall_lookup_1 _ _ _ _ Ht Et) as Hev. cbn in Hev.
  destruct (d_agents t) as [|id' rest]; [split; [exact Hd | by apply Forall_delete]|].
  pose proof (fun id => send_keeps_dead (d_event t) id id' s Hev) as Hk.
  destruct (send id' (d_event t) (fleet s)) as [[[]|] f']; cbn in Hk; (split; [|cbn]);
    try (destruct Hd as [Hd | (id & Hid & Hdead)]; [by left | right; exists id; split; [done|]];
         exact (Hk id Hdead)); [by apply Forall_insert | by apply Forall_delete].
Qed.

(** The loop over the agents stops, or panics, at the dead one at the latest. *)
Lemma count_agents_dead s id ids e n :
  dead_agent s id -> id ∈ ids ->
  exists o, count_agents ids e n (fleet s) = (o, fleet s) /\ (o = None \/ o = Some None).
Proof.
  intros (r & a & Hc & _). revert e n. induction ids as [|id' ids IH]; intros e n Hid;
    [by apply elem_of_nil in Hid|].
  cbn [count_agents]. unfold agent_state, lock_agent, st_bind, st_gets.
  destruct (cells (fleet s) !! id') as [[[st i] a']|] eqn:Ec; cbn; [|by eauto].
  apply elem_of_cons in Hid as [<- | Hid]; [rewrite Hc in Ec; injection Ec as <- <- <-; by eauto|].
  destruct st; try (by eauto); by apply IH.
Qed.

Lemma sweeping_hopeless m s :
  hopeless (m, s) -> exists o, sweeping s = (o, s) /\ (o = None \/ o = Some Super).
Proof.
  intros (_ & Hd & _). unfold sweeping, get_execution_status. unfold st_bind at 2, st_get.
  unfold st_bind at 1.
  destruct (agents s) as [|id0 ids] eqn:Eag; [by eauto|].
  destruct Hd as [Hd | (id & Hid & Hdead)]; [done|].
  destruct (count_agents_dead s id (id0 :: ids) 0 0 Hdead Hid) as (o & E & Ho).
  unfold st_bind, on_fleet, st_zoom. rewrite E.
  assert (Hs : set_fleet (fleet s) s = s) by (by destruct s). rewrite Hs.
  destruct Ho as [-> | ->]; cbn; eauto.
Qed.

Lemma hopeless_event event s :
  hopeless (sm Sweeping true, s) -> hopeless (snd (process_event event (sm Sweeping true, s))).
Proof.
  intros Hs. unfold process_event.
  assert (Hskip : hopeless (snd (on_shared (on_fleet take_queue) (sm Sweeping true, s))))
    by exact Hs.
  assert (Hh : hopeless (snd ((handle strategy_machine (Original event) ;;;
                               on_shared (on_fleet take_queue)) (sm Sweeping true, s)))).
  { set (s1 := set_fleet (set_tasks (tasks (fleet s) ++
      [{| d_event := Original event; d_agents := main_wallet s :: agents s |}]) (fleet s)) s).
    assert (H1 : hopeless (sm Sweeping true, s1)).
    { destruct Hs as (_ & Hd & Ht). split; [done|]. split; [exact Hd|]. cbn.
      apply Forall_app. split; [done | by repeat constructor]. }
    assert (Hdis : Statig.on_dispatch strategy_machine Sweeping (Original event) s = (Some tt, s1))
      by reflexivity.
    destruct (sweeping_hopeless _ s1 H1) as (o & E & [-> | ->]);
      unfold st_bind at 1; rewrite handle_initialized.
    - rewrite (dispatch_panics strategy_machine _ Sweeping s s1 s1 Hdis E). exact H1.
    - rewrite (dispatch_stay strategy_machine _ Sweeping s s1 s1 _ Hdis E) by (by right).
      exact H1. }
  destruct event; assumption.
Qed.

(** A sweep can wait for ever.  The agents of a sweeper have no main wallet,
    so one whose transfers failed panics in the entry action of its deactivation
    without placing an order; and from a state with such an agent, or with no
    agents at all, the sweeper never sells what it swept, whatever events arrive
    and however deliveries interleave. *)
Theorem sweep_never_ends :
  (forall ev msg a w q,
     Agent.is_main_wallet a = false -> Agent.main_wallet a = None ->
     exists w', Agent.handle_event ev (sm (Agent.Error msg) true, Agent.env a w q)
       = (None, (sm (Agent.Deactivating 0) true, Agent.env a w' q))) /\
  (forall p q, hopeless p -> reachable p q -> hopeless q).
Proof.
  split.
  - intros ev msg a w q Hm Hn. rewrite handle_event_step. unfold step_result.
    cbn [Agent.agent_handler].
    assert (Herr : Agent.error msg ev (Agent.env a w q)
      = (Some (Transition (Agent.Deactivating 0)), Agent.env a w q))
      by (unfold Agent.error, st_bind, st_get; cbn; by rewrite Hm).
    rewrite Herr. cbn [Agent.agent_entry].
    destruct (collect_panics 0 (Agent.env a w q) Hn) as (e' & -> & Hself & Hq & _).
    destruct e' as [a' w' q']. cbn in Hself, Hq. subst. by exists w'.
  - intros p q Hp Hq. induction Hq as [|p q r Hstep _ IH]; [done|]. apply IH. clear IH.
    destruct Hstep as [event [m s] | i m s | d m s Hd].
    + pose proof Hp as (-> & _). by apply hopeless_event.
    + pose proof Hp as (-> & _). by apply run_task_keeps_hopeless.
    + exact Hp.
Qed.
End Facts.

(** ** The theorems at concrete sweepers *)

#[local] Existing Instance sample_ext.
#[local] Existing Instance documented_driver.

(** Two traders: the first is strategy 3's, the second strategy 5's with row id 3. *)
Definition sweeper_world : World :=
  set_traders
    (<[7 := {| trader_id := 1; strategy_instance_id := Some 3; wallet := 7;
               private_key := "key"; is_active := true |}]>
      (<[8 := {| trader_id := 3; strategy_instance_id := Some 5; wallet := 8;
                 private_key := "key"; is_active := true |}]> ∅)) sample_world.

Definition sample_sweeper (agents_ : list AgentId) (agent : Agent.State) : Env :=
  env sample_instance sample_pool 1 agents_ (Stopwatch.new 1000 50) {|
    cells := <[1 := (sm Agent.Idle true, sample_agent 9 None None)]>
               (<[2 := (sm agent true, sample_agent 7 (Some 3) None)]> ∅);
    next_cell := 3; fleet_world := sweeper_world; fleet_queue := []; tasks := [] |}.

(** The trader of strategy 5 is the one the sweeper of strategy 3 sweeps. *)
Lemma swept_by_row_id_witness :
  exists s', get_agents_with_balance (sample_sweeper [] Agent.Idle) = (Some tt, s') /\
    agents s' = [3] /\ (length (agents s') <= 1)%nat.
Proof.
  set (s := sample_sweeper [] Agent.Idle).
  assert (E : exists s', get_agents_with_balance s = (Some tt, s') /\ agents s' = [3]).
  { assert (E1 : fst (get_agents_with_balance s) = Some tt) by (vm_compute; reflexivity).
    assert (E2 : agents (snd (get_agents_with_balance s)) = [3]) by (vm_compute; reflexivity).
    revert E1 E2. destruct (get_agents_with_balance s) as [o s']. cbn. intros -> E2. by exists s'. }
  destruct E as (s' & E & Ha). exists s'. split; [exact E|]. split; [exact Ha|].
  apply (swept_by_row_id s s' (sm Agent.Idle true) (sample_agent 9 None None)).
  - reflexivity.
  - reflexivity.
  - intros k k' t t' Hk Hk'. apply elem_of_map_to_list in Hk, Hk'. revert Hk Hk'.
    set (l := map_to_list _). vm_compute in l. subst l.
    rewrite !elem_of_cons, !elem_of_nil. intros [[= -> ->]|[[= -> ->]|[]]] [[= -> ->]|[[= -> ->]|[]]];
      cbn; congruence.
  - exact E.
Defined.

(** One heartbeat delivered to an agent whose transfer failed ends the sweep's
    hopes. *)
Lemma sweep_never_ends_witness :
  exists w', Agent.handle_event (Original (HeartBeat 400))
      (sm (Agent.Error "failed") true, Agent.env (sample_agent 7 (Some 3) None) sweeper_world [])
    = (None, (sm (Agent.Deactivating 0) true, Agent.env (sample_agent 7 (Some 3) None) w' [])) /\
  forall q, reachable (sm Sweeping true, sample_sweeper [] Agent.Idle) q -> hopeless q.
Proof.
  destruct (proj1 sweep_never_ends (Original (HeartBeat 400)) "failed"
    (sample_agent 7 (Some 3) None) sweeper_world [] eq_refl eq_refl) as [w' E].
  exists w'. split; [exact E|]. intros q.
  apply (proj2 sweep_never_ends). split; [reflexivity|]. split; [by left | constructor].
Defined.
