(* ===== verification/Ownership.v ===== *)
(** * Whose money the strategies move

    A volume strategy creates wallets, funds them, trades with them and empties
    them again, from several tasks at once.  Whatever happens, the actions it
    hands to the executors are signed by wallets of its own fleet, paid by them
    or by its main wallet, trade the pool the strategy was started for, and send
    money to wallets of the fleet only; so are those of a sweep.  A sniper trades
    with one wallet, on pools it has let through. *)

From S2P Require Import Prelude MachineInt Float64 Buffers Amounts Types Cache GenericApi Samples Statig VolumeAgent VolumeAgentFacts VolumeStrategy VolumeStrategyFacts SniperStrategy SniperFacts Sweeper.
Import Volume.

(** An invariant of what the handlers of a machine share, and of its states, is one of
    the machine, whether or not a handler panics. *)
Section Invariant.
Context `{StatigDriver} {Sh St Ev : Type} (m : Statig.Machine Sh St Ev) (ev : Ev).
Variables (P : St -> Prop) (I : Sh -> Prop).

(** [f] keeps the invariant, and only asks for states in it. *)
Definition stays (f : ST Sh (Response St)) : Prop :=
  forall sh, I sh -> I (snd (f sh)) /\ forall t, fst (f sh) = Some (Transition t) -> P t.

Lemma handle_state_invariant :
  (forall st sh, P st -> I sh -> I (snd (m.(Statig.on_dispatch) st ev sh))) ->
  (forall st, P st -> stays (m.(Statig.handler) st ev)) ->
  (forall st h, m.(Statig.superstate) st = Some h -> P st -> stays (h ev)) ->
  (forall st sh, P st -> I sh -> I (snd (m.(Statig.entry_action) st sh))) ->
  (forall st sh, P st -> I sh -> I (snd (m.(Statig.exit_action) st sh))) ->
  forall p, P (current (fst p)) -> I (snd p) ->
    P (current (fst (snd (handle m ev p)))) /\ I (snd (snd (handle m ev p))).
Proof.
  intros Hd Hh Hs He Hx. set (inv := fun p : Statig.Sm St * Sh => P (current (fst p)) /\ I (snd p)).
  assert (Ht : forall a b p, P a -> P b -> inv p -> inv (snd (take_transition m a b p))).
  { intros a b [s sh] Ha Hb [Hc Hi]. unfold take_transition, st_bind, on_shared, st_zoom, set_sm, st_modify.
    cbn in *. specialize (Hx a sh Ha Hi). destruct (Statig.exit_action m a sh) as [[[]|] sh1]; [|done].
    cbn in *. specialize (He b sh1 Hb Hx). by destruct (Statig.entry_action m b sh1). }
  assert (Hdisp : forall p, inv p -> inv (snd (dispatch m ev p))).
  { intros [s sh] [Hc Hi]. unfold dispatch, st_bind, st_gets, on_shared, st_zoom. cbn in *.
    specialize (Hd (current s) sh Hc Hi). destruct (Statig.on_dispatch m _ ev sh) as [[[]|] sh1]; [|done].
    cbn in *. destruct (Hh (current s) Hc sh1 Hd) as [Hi2 Hp2].
    destruct (Statig.handler m _ ev sh1) as [[[| |t]|] sh2]; cbn in *; try done; [|by apply Ht; auto].
    destruct (Statig.superstate m (current s)) as [h|] eqn:Eh; [|done]. cbn.
    destruct (Hs _ h Eh Hc sh2 Hi2) as [Hi3 Hp3].
    destruct (h ev sh2) as [[[| |t]|] sh3]; cbn in *; try done. by apply Ht; auto. }
  intros [s sh] Hc Hi. rewrite handle_documented.
  unfold documented_handle, init, st_bind, st_gets, st_ret. cbn in *.
  destruct (initialized s); [by apply Hdisp|].
  unfold on_shared, st_zoom, set_sm, st_modify. cbn.
  specialize (He (current s) sh Hc Hi). destruct (Statig.entry_action m _ sh) as [[[]|] sh1]; [|done].
  by apply Hdisp.
Qed.
End Invariant.

Lemma handle_invariant `{StatigDriver} {Sh St Ev} (m : Statig.Machine Sh St Ev) (ev : Ev)
    (I : Sh -> Prop) :
  (forall st sh, I sh -> I (snd (m.(Statig.on_dispatch) st ev sh))) ->
  (forall st sh, I sh -> I (snd (m.(Statig.handler) st ev sh))) ->
  (forall st h sh, m.(Statig.superstate) st = Some h -> I sh -> I (snd (h ev sh))) ->
  (forall st sh, I sh -> I (snd (m.(Statig.entry_action) st sh))) ->
  (forall st sh, I sh -> I (snd (m.(Statig.exit_action) st sh))) ->
  forall p, I (snd p) -> I (snd (snd (handle m ev p))).
Proof.
  intros Hd Hh Hs He Hx p Hp.
  refine (proj2 (handle_state_invariant m ev (fun _ => True) I _ _ _ _ _ p Logic.I Hp)); auto.
  - intros st _ sh Hi. auto.
  - intros st h Eh _ sh Hi. split; [by eapply Hs | done].
Qed.

(** What a strategy that trades through a fleet of agents has: the pool it was
    started for, its main agent, and the fleet. *)
Class FleetStrategy (S : Type) := {
  pool_of : S -> RaydiumPool;
  main_of : S -> AgentId;
  fleet_of : S -> Fleet;
  put_fleet : Fleet -> S -> S;
  pool_put : forall f s, pool_of (put_fleet f s) = pool_of s;
  main_put : forall f s, main_of (put_fleet f s) = main_of s;
  fleet_put : forall f s, fleet_of (put_fleet f s) = f;
  put_same : forall s, put_fleet (fleet_of s) s = s;
}.

(** ** Actions that stay in a set of wallets *)

Definition receivers (batch : list SolanaTransferActionPayload) : list Pubkey := receiver <$> batch.

(** The keys a command, an agent's state, names. *)
Definition event_keys (ev : SolanaStrategyEvent) : list Pubkey :=
  match ev with ForAgent (Transfer batch) => receivers batch | _ => [] end.

Definition state_keys (st : Agent.State) : list Pubkey :=
  match st with Agent.Transferring batch _ => receivers batch | _ => [] end.

Section Ownership.
#[local] Set Default Proof Using "Type*".
Context `{Profile} `{Ext} `{StatigDriver}.
Variables (target : RaydiumPool) (main_id : AgentId) (main : KeypairClonable).

(** A swap on the strategy's pool, a transfer inside [W]. *)
Definition stays_in (W : Pubkey -> Prop) (pl : SolanaActionPayload) : Prop :=
  match pl with
  | SwapPayload p => p.(keys) = to_liquidity_keys target
  | TransferPayload t => W t.(receiver)
  end.

Record owned (W : Pubkey -> Prop) (a : SolanaAction) : Prop := {
  ow_sniper : W a.(sniper);
  ow_payer : a.(fee_payer) = a.(sniper) \/ a.(fee_payer) = main;
  ow_payload : Forall (stays_in W) a.(action_payload);
  ow_status : a.(status) = NotSent;
}.

Lemma owned_mono (W W' : Pubkey -> Prop) a : (forall k, W k -> W' k) -> owned W a -> owned W' a.
Proof.
  intros HW []. constructor; auto. eapply Forall_impl; [done|]. intros []; cbn; auto.
Qed.

(** The actions of a queue, in the heap. *)
Definition queue_owned (W : Pubkey -> Prop) (w : World) (q : list ActionRef) : Prop :=
  Forall (fun r => r < w.(next_ref) /\ exists a, w.(heap) !! r = Some a /\ owned W a) q.

Lemma queue_owned_mono (W W' : Pubkey -> Prop) w w' q :
  (forall k, W k -> W' k) -> w'.(heap) = w.(heap) -> w'.(next_ref) = w.(next_ref) ->
  queue_owned W w q -> queue_owned W' w' q.
Proof.
  intros HW Hh Hn. unfold queue_owned. rewrite Hh, Hn. intros Hq. eapply Forall_impl; [exact Hq|].
  intros r (Hr & a & Ha & Ho). eauto using owned_mono.
Qed.

(** ** One agent *)

(** The agent trades the strategy's pool for the strategy's main wallet. *)
Record enlisted (a : Agent.AgentState) : Prop := {
  en_pool : Agent.pool a = target;
  en_main : Agent.main_wallet a = None \/ Agent.main_wallet a = Some main;
}.

(** An agent that transfers does so inside [W]; before its first event it is
    idle. *)
Record settled_in (W : Pubkey -> Prop) (m : Statig.Sm Agent.State) : Prop := {
  se_keys : Forall W (state_keys (current m));
  se_idle : initialized m = false -> current m = Agent.Idle;
}.

Record agent_ok (W : Pubkey -> Prop) (p : Statig.Sm Agent.State * Agent.Env) : Prop := {
  ag_enlisted : enlisted (Agent.self (snd p));
  ag_settled : settled_in W (fst p);
  ag_queue : queue_owned W (Agent.world (snd p)) (Agent.queue (snd p));
}.

(** Running [m] on an agent keeps it so, with its key. *)
Definition agent_keeps {A} (W : Pubkey -> Prop) (m : ST (Statig.Sm Agent.State * Agent.Env) A) : Prop :=
  forall p, agent_ok W p -> W main -> W (Agent.agent_key (Agent.self (snd p))) ->
    agent_ok W (snd (m p)) /\
    Agent.agent_key (Agent.self (snd (snd (m p)))) = Agent.agent_key (Agent.self (snd p)).

Lemma reads_keep {A} W (m : ST Agent.Env A) : runs reads m -> agent_keeps W (on_shared m).
Proof.
  intros Hm [st e] [[Hp Hmw] Hs Hq] _ _. cbn in *. unfold on_shared, st_zoom. cbn.
  destruct (Hm e) as (x & e' & -> & (Hself & Hqu & Hh & Hn & _)). cbn. rewrite Hself.
  split; [|done]. constructor; cbn; rewrite ?Hself; [done..|]. rewrite Hqu.
  by apply (queue_owned_mono W W (Agent.world e)).
Qed.

(** Entering a state inside [W] queues actions inside [W]. *)
Lemma asks_for_inside W t a pl :
  enlisted a -> Forall W (state_keys t) -> W main ->
  asks_for t a pl -> Forall (stays_in W) pl.
Proof.
  intros [Hp Hm] Ht HW. destruct t as [|batch r|r|amt r|amt r| |msg|r|]; cbn; try done.
  - intros ->. rewrite Forall_fmap. cbn in Ht. unfold receivers in Ht.
    by rewrite Forall_fmap in Ht.
  - intros (k & tp & Hk & -> & Htp). assert (k = main) as -> by (destruct Hm; congruence).
    apply Forall_app. split; [destruct Htp as [->| ->]|]; by repeat constructor.
  - intros ->. repeat constructor. cbn. by rewrite Hp.
  - intros ->. repeat constructor. cbn. by rewrite Hp.
  - intros (k & tp & Hk & -> & Htp). assert (k = main) as -> by (destruct Hm; congruence).
    apply Forall_app. split; [destruct Htp as [->| ->]|]; by repeat constructor.
Qed.

Lemma pays_inside t a payer : enlisted a ->
  pays t a payer -> payer = Agent.agent_key a \/ payer = main.
Proof.
  intros [_ Hm]. unfold pays, Agent.get_main_wallet.
  destruct t as [|batch r|r|amt r|amt r| |msg|r|]; auto;
    [destruct (existsb _ _); [|by left] | |]; destruct Hm as [-> | ->]; cbn;
    intros; simplify_eq; auto.
Qed.

Lemma attempted_keeps W t e e' a :
  enlisted (Agent.self e) -> Forall W (state_keys t) -> W main ->
  W (Agent.agent_key (Agent.self e)) ->
  queue_owned W (Agent.world e) (Agent.queue e) ->
  attempted e e' a -> asks_for t (Agent.self e) (action_payload a) ->
  pays t (Agent.self e) (fee_payer a) ->
  enlisted (Agent.self e') /\ queue_owned W (Agent.world e') (Agent.queue e').
Proof.
  intros He Ht HW Hk Hq [] Hp Hf. split; [by rewrite at_self; destruct He|].
  unfold queue_owned. rewrite at_queue, at_heap, at_ref. apply Forall_app. split.
  - eapply Forall_impl; [exact Hq|]. intros r (Hr & x & Hx & Ho). split; [lia|].
    exists x. split; [|done]. rewrite lookup_insert_ne by lia. done.
  - repeat constructor; [lia|]. exists a. split; [apply lookup_insert_eq|].
    constructor; [by rewrite at_sniper | | by eapply asks_for_inside | done].
    rewrite at_sniper. eapply pays_inside; eauto.
Qed.

(** A target's keys come from the state or from the event. *)
Lemma handler_target W s ev e t e1 :
  Agent.agent_handler s ev e = (Some (Transition t), e1) ->
  Forall W (state_keys s) -> Forall W (event_keys ev) -> Forall W (state_keys t).
Proof.
  intros Hh Hs Hev. destruct (command s) as [[r next]|] eqn:Hc.
  - destruct (command_inv _ _ _ Hc) as (_ & Hn & _ & _ & Hx). rewrite Hx in Hh.
    assert (Hk : Forall W (state_keys next)) by (rewrite Hn; by destruct s).
    destruct (is_command_event ev) eqn:Hce.
    + destruct ev as [|[]]; try done. revert Hh. cbn. unfold st_bind, st_get. cbn.
      destruct (_ =? _); intros [= <- _]; constructor.
    + destruct (command_answers ev next r e Hce) as (o & e2 & E & _ & Ho). rewrite E in Hh.
      injection Hh as -> _. unfold Agent.retry_or_error in Ho.
      destruct Ho as [|[|[[Ho _]|(msg & Ho)]]]; simplify_eq; [constructor|].
      destruct (r <=? _); simplify_eq; [done | constructor].
  - destruct s as [| | | | | |msg|r|]; try discriminate; cbn [Agent.agent_handler] in Hh.
    1,2: unfold Agent.success, Agent.idle, st_bind, st_get, st_ret in Hh; cbn in Hh;
      destruct ev as [|[]]; cbn in Hh, Hev |- *; simplify_eq; try done; try constructor;
      destruct (Agent.is_main_wallet _); simplify_eq; constructor.
    + unfold Agent.error, st_bind, st_get, st_ret in Hh. cbn in Hh.
      destruct (Agent.is_main_wallet _); simplify_eq; constructor.
    + assert (Hr : forall m, Forall W (state_keys (Agent.Deactivating m))) by (intros; constructor).
      revert Hh. unfold Agent.deactivating, Agent.retry_or_error, st_bind, st_ret.
      repeat case_match; intros; simplify_eq; auto; constructor.
Qed.

Lemma step_keeps W s ev e :
  agent_ok W (sm s true, e) -> W main -> W (Agent.agent_key (Agent.self e)) ->
  Forall W (event_keys ev) ->
  agent_ok W (snd (step_result s ev e)) /\
  Agent.agent_key (Agent.self (snd (snd (step_result s ev e)))) = Agent.agent_key (Agent.self e).
Proof.
  intros [He [Hs _] Hq] HW Hk Hev. cbn in *. unfold step_result.
  destruct (handler_handled s ev e) as (o & e1 & E & []). rewrite E.
  assert (He1 : enlisted (Agent.self e1)) by (destruct He; constructor; congruence).
  assert (Hq1 : queue_owned W (Agent.world e1) (Agent.queue e1)) by congruence.
  assert (Hstay : agent_ok W (sm s true, e1) /\
    Agent.agent_key (Agent.self e1) = Agent.agent_key (Agent.self e))
    by (split; [constructor; [done | by constructor | done] | done]).
  destruct o as [[| |t]|]; try exact Hstay.
  pose proof (handler_target W s ev e t e1 E Hs Hev) as Ht.
  destruct (entry_outcome t e1) as (r & e2 & -> & [Hr | (a & Ha & Hp & Hf)]); cbn.
  - destruct Hr as (Hself & Hqu & Hh & Hn & _). rewrite Hself. split; [|done].
    constructor; cbn; rewrite ?Hself, ?Hqu; [done | by constructor |].
    by apply (queue_owned_mono W W (Agent.world e1)).
  - edestruct (attempted_keeps W t e1 e2 a) as [He2 Hq2]; eauto; [congruence|].
    split; [constructor; [done | by constructor | done]|]. destruct Ha. by rewrite at_self.
Qed.

Lemma handle_event_keeps W ev : Forall W (event_keys ev) -> agent_keeps W (Agent.handle_event ev).
Proof.
  intros Hev [[s i] e] Hp HW Hk. destruct i.
  - rewrite handle_event_step. by apply step_keeps.
  - pose proof Hp as [_ [_ Hi] _]. cbn in Hi. rewrite (Hi eq_refl) in *.
    rewrite handle_event_first. apply step_keeps; try done.
    destruct Hp as [? [? _] ?]. constructor; [done | by constructor | done].
Qed.

(** ** The fleet *)

Definition owns (f : Fleet) (k : Pubkey) : Prop :=
  exists id c, f.(cells) !! id = Some c /\ Agent.agent_key (snd c) = k.

Record fleet_ok (f : Fleet) : Prop := {
  fl_main : exists c, f.(cells) !! main_id = Some c /\ Agent.agent_key (snd c) = main;
  fl_ids : forall id c, f.(cells) !! id = Some c -> id < f.(next_cell);
  fl_cells : forall id c, f.(cells) !! id = Some c ->
    enlisted (snd c) /\ settled_in (owns f) (fst c);
  fl_queue : queue_owned (owns f) f.(fleet_world) f.(fleet_queue);
  fl_tasks : Forall (fun d => event_keys d.(d_event) = []) f.(tasks);
}.

Definition grows (f f' : Fleet) : Prop := forall k, owns f k -> owns f' k.

Lemma fleet_ok_owns_main f : fleet_ok f -> owns f main.
Proof. intros [(c & Hc & Hk) _ _ _ _]. by exists main_id, c. Qed.

(** Replacing a cell by one with the same key. *)
Lemma owns_insert f id c c' w q k :
  f.(cells) !! id = Some c -> Agent.agent_key (snd c') = Agent.agent_key (snd c) ->
  owns (mk_fleet (<[id := c']> f.(cells)) f.(next_cell) w q f.(tasks)) k <-> owns f k.
Proof.
  intros Hc Hk. unfold owns. cbn. split.
  - intros (id' & x & Hx & Hkx). destruct (decide (id' = id)) as [->|Hne].
    + rewrite lookup_insert_eq in Hx. simplify_eq. exists id, c. by rewrite <- Hk.
    + rewrite lookup_insert_ne in Hx by done. by exists id', x.
  - intros (id' & x & Hx & Hkx). destruct (decide (id' = id)) as [->|Hne].
    + exists id, c'. rewrite lookup_insert_eq. simplify_eq. by rewrite Hk.
    + exists id', x. by rewrite lookup_insert_ne.
Qed.

(** What keeps an agent keeps the fleet. *)
Lemma with_agent_keeps {A} id (m : ST (Statig.Sm Agent.State * Agent.Env) A) f :
  (forall W, (forall k, owns f k -> W k) -> agent_keeps W m) -> fleet_ok f ->
  fleet_ok (snd (with_agent id m f)) /\ grows f (snd (with_agent id m f)).
Proof.
  intros Hm Hf. unfold with_agent. destruct (cells f !! id) as [[s a]|] eqn:Hc; [|split; [done | by intros k]].
  pose proof Hf as [(c0 & Hc0 & Hk0) Hids Hcells Hq Ht].
  destruct (Hcells _ _ Hc) as [He Hs].
  destruct (Hm (owns f) (fun _ x => x) (s, Agent.env a (fleet_world f) (fleet_queue f))) as [Hok Hk];
    [by constructor | by apply fleet_ok_owns_main | by exists id, (s, a) |].
  destruct (m _) as [r [s' e']]. cbn in *. destruct Hok as [He' Hs' Hq']. cbn in *.
  pose proof (fun k => owns_insert f id (s, a) (s', Agent.self e') (Agent.world e')
    (Agent.queue e') k Hc Hk) as Hio.
  assert (Hgr := fun k => proj2 (Hio k)). split; [|exact Hgr].
  constructor; cbn; [| | |by eapply (queue_owned_mono (owns f)); [exact Hgr | done..] | done].
  - destruct (decide (main_id = id)) as [->|Hne].
    + eexists. split; [apply lookup_insert_eq|]. cbn. rewrite Hk. by simplify_eq.
    + exists c0. by rewrite lookup_insert_ne.
  - intros id' c' Hl. destruct (decide (id' = id)) as [->|Hne]; [by eapply Hids|].
    rewrite lookup_insert_ne in Hl by done. by eapply Hids.
  - intros id' c' Hl. destruct (decide (id' = id)) as [->|Hne].
    + rewrite lookup_insert_eq in Hl. simplify_eq. cbn. split; [done|]. destruct Hs'.
      constructor; [|done]. eapply Forall_impl; [done | exact Hgr].
    + rewrite lookup_insert_ne in Hl by done. destruct (Hcells _ _ Hl) as [? []].
      split; [done|]. constructor; [|done]. eapply Forall_impl; [done | exact Hgr].
Qed.

Lemma send_keeps id ev f :
  Forall (owns f) (event_keys ev) -> fleet_ok f ->
  fleet_ok (snd (send id ev f)) /\ grows f (snd (send id ev f)).
Proof.
  intros Hev. apply with_agent_keeps. intros W HW. apply handle_event_keeps.
  eapply Forall_impl; [exact Hev | exact HW].
Qed.

Lemma run_task_keeps i f : fleet_ok f -> fleet_ok (run_task i f).
Proof.
  intros Hf. assert (Hset : forall ts f', fleet_ok f' ->
    Forall (fun d => event_keys d.(d_event) = []) ts -> fleet_ok (set_tasks ts f'))
    by (intros ts f' []; by constructor).
  unfold run_task. destruct (tasks f !! i) as [t|] eqn:Et; [|done].
  pose proof (fl_tasks f Hf) as Ht. pose proof (Forall_lookup_1 _ _ _ _ Ht Et) as Hev. cbn in Hev.
  destruct (d_agents t) as [|id rest]; [by apply Hset, Forall_delete|].
  destruct (send_keeps id (d_event t) f) as [Hok _]; [by rewrite Hev | done |].
  destruct (send id (d_event t) f) as [[[]|] f']; cbn in *; apply Hset; try done.
  - by apply Forall_insert.
  - by apply Forall_delete.
Qed.

(** A new cell is a new wallet of the fleet. *)
Lemma new_agent_cell_keeps a f : fleet_ok f -> enlisted a ->
  let f' := snd (new_agent_cell a f) in
  fleet_ok f' /\ grows f f' /\ owns f' (Agent.agent_key a).
Proof.
  intros [(c0 & Hc0 & Hk0) Hids Hcells Hq Ht] He f'.
  assert (Hfresh : cells f !! next_cell f = None).
  { destruct (cells f !! next_cell f) eqn:E; [|done]. apply Hids in E. lia. }
  assert (Hg : grows f f').
  { intros k (id & c & Hc & Hk). exists id, c. split; [|done]. cbn.
    rewrite lookup_insert_ne; [done|]. intros <-. by rewrite Hfresh in Hc. }
  split; [|split; [exact Hg|]].
  2: { eexists _, _. split; [apply lookup_insert_eq | done]. }
  constructor; cbn; [| | |by eapply (queue_owned_mono (owns f)); [exact Hg | done..] | done].
  - exists c0. rewrite lookup_insert_ne; [done|]. intros <-. by rewrite Hfresh in Hc0.
  - intros id c. rewrite lookup_insert_Some. intros [[<- _] | [_ Hc]]; [lia|].
    apply Hids in Hc. lia.
  - intros id c. rewrite lookup_insert_Some. intros [[_ <-] | [_ Hc]]; cbn.
    + split; [done|]. by constructor.
    + destruct (Hcells _ _ Hc) as [? []]. split; [done|]. constructor; [|done].
      eapply Forall_impl; [done | exact Hg].
Qed.

(** ** The world, as a strategy uses it *)

(** No action is registered. *)
Definition quiet (w w' : World) : Prop :=
  w'.(heap) = w.(heap) /\ w'.(next_ref) = w.(next_ref).

#[local] Instance quiet_preorder : PreOrder quiet.
Proof. split; [done|]. unfold quiet. intros x y z [] []. split; congruence. Qed.

(** [m] registers no action, and its result, if any, satisfies [Q]. *)
Definition quietly {A} (m : ST World A) (Q : A -> Prop) : Prop :=
  forall w, quiet w (snd (m w)) /\ forall a, fst (m w) = Some a -> Q a.

Lemma quietly_bind {A B} (m : ST World A) (k : A -> ST World B) P Q :
  quietly m P -> (forall a, P a -> quietly (k a) Q) -> quietly (st_bind m k) Q.
Proof.
  intros Hm Hk w. unfold st_bind. destruct (Hm w) as [Hw Hr].
  destruct (m w) as [[a|] w1]; cbn in *; [|done].
  destruct (Hk a (Hr a eq_refl) w1) as [Hw1 Hr1]. split; [by transitivity w1 | done].
Qed.

Lemma quietly_ret {A} (a : A) (Q : A -> Prop) : Q a -> quietly (st_ret a) Q.
Proof. intros Hq w. split; [done|]. by intros ? [= <-]. Qed.

Lemma quietly_prim {A} (m : ST World A) : (forall w, quiet w (snd (m w))) -> quietly m (fun _ => True).
Proof. by intros Hm w. Qed.

Lemma quietly_runs {A} (m : ST World A) : runs same_actions m -> quietly m (fun _ => True).
Proof.
  intros Hm. apply quietly_prim. intros w. destruct (Hm w) as (a & w' & -> & Hs).
  unfold same_actions in Hs. by destruct_and!.
Qed.

Lemma drop_quiet a : quietly (Agent.drop a) (fun _ => True).
Proof.
  apply quietly_prim. intros w. unfold Agent.drop. case_match; [done|].
  unfold st_bind, db_get. cbn. by destruct (db_available _).
Qed.

Lemma read_or_create_quiet sid key : quietly (Agent.db_read_or_create sid key) (fun _ => True).
Proof.
  apply quietly_prim. intros w. unfold Agent.db_read_or_create, st_bind, db_get. cbn.
  destruct (db_available _); cbn; [|done]. unfold st_get. cbn. by destruct (traders w !! _).
Qed.

Hint Resolve quietly_runs get_balance_runs get_token_balance_runs drop_quiet
  read_or_create_quiet : bot.

(** An agent is created for the pool, the key and the main wallet asked for. *)
Lemma new_quiet pl key sid mw :
  quietly (Agent.new pl key sid mw) (fun o => forall a, o = Some a ->
    Agent.pool a = pl /\ Agent.agent_key a = key /\ Agent.main_wallet a = mw).
Proof.
  unfold Agent.new.
  eapply quietly_bind; [by auto with bot | intros _ _].
  eapply quietly_bind; [by auto with bot | intros _ _].
  eapply (quietly_bind _ _ (fun _ => True)); [by apply quietly_prim | intros t _].
  destruct sid as [sid|]; [|apply quietly_ret; by intros a [= <-]].
  eapply quietly_bind; [by auto with bot | intros row _].
  destruct row as [row|]; [|by apply quietly_ret].
  destruct (is_active row), (strategy_instance_id row) as [s|];
    try (eapply quietly_bind; [by auto with bot | intros _ _; by apply quietly_ret]).
  destruct (s =? sid); apply quietly_ret; by intros a [= <-].
Qed.

Lemma new_from_trader_quiet pl row mw :
  quietly (Agent.new_from_trader pl row mw) (fun o => forall a, o = Some a ->
    Agent.pool a = pl /\ Agent.main_wallet a = mw).
Proof.
  unfold Agent.new_from_trader. destruct (keypair_of_privkey _) as [key|]; [|by apply quietly_ret].
  eapply (quietly_bind _ _ (fun _ => True)); [by apply quietly_prim | intros t _].
  eapply quietly_bind; [by auto with bot | intros _ _].
  eapply quietly_bind; [by auto with bot | intros _ _].
  apply quietly_ret. by intros a [= <-].
Qed.

(** ** A logic for the handlers of strategies

    [hold K0 m K]: in a strategy that is in order and whose fleet owns the
    wallets [K0], [m] leaves the strategy in order, its fleet only grows, and it
    owns the wallets [K] of [m]'s result.  Nothing is said of termination: a
    handler that panics leaves the strategy in order too. *)

Section Logic.
Context {S : Type} `{!FleetStrategy S}.

Record strategy_ok (s : S) : Prop := {
  st_pool : pool_of s = target;
  st_main : main_of s = main_id;
  st_fleet : fleet_ok (fleet_of s);
}.

Lemma put_ok f s : strategy_ok s -> fleet_ok f -> strategy_ok (put_fleet f s).
Proof.
  intros [Hp Hm _] Hf. constructor; [by rewrite pool_put | by rewrite main_put | by rewrite fleet_put].
Qed.

(** The fleet's operations and the world's, as the strategy's. *)
Definition on_its_fleet {A} (m : ST Fleet A) : ST S A := st_zoom fleet_of put_fleet m.

Definition in_its_world {A} (m : ST World A) : ST S A := on_its_fleet (on_fleet_world m).

Definition hold {A} (K0 : list Pubkey) (m : ST S A) (K : A -> list Pubkey) : Prop :=
  forall s, strategy_ok s -> Forall (owns (fleet_of s)) K0 ->
    strategy_ok (snd (m s)) /\ grows (fleet_of s) (fleet_of (snd (m s))) /\
    forall a, fst (m s) = Some a -> Forall (owns (fleet_of (snd (m s)))) (K a).

(** No wallet is known of the result. *)
Definition nothing {A} : A -> list Pubkey := fun _ => [].

Lemma hold_bind_keys {A B} K0 (m : ST S A) (k : A -> ST S B) K1 K :
  hold K0 m K1 -> (forall a, hold (K0 ++ K1 a) (k a) K) -> hold K0 (st_bind m k) K.
Proof.
  intros Hm Hk s Hs Hown. unfold st_bind. destruct (Hm s Hs Hown) as (Hs1 & Hg1 & Hr1).
  destruct (m s) as [[a|] s1]; cbn in *; [|done].
  destruct (Hk a s1 Hs1) as (Hs2 & Hg2 & Hr2).
  { apply Forall_app. split; [|by apply Hr1]. eapply Forall_impl; [exact Hown | exact Hg1]. }
  split; [done|]. split; [|done]. intros w Hw. by apply Hg2, Hg1.
Qed.

Lemma hold_bind {A B} K0 (m : ST S A) (k : A -> ST S B) K :
  hold K0 m nothing -> (forall a, hold K0 (k a) K) -> hold K0 (st_bind m k) K.
Proof.
  intros Hm Hk. eapply hold_bind_keys; [exact Hm|]. intros a. rewrite app_nil_r. apply Hk.
Qed.

Lemma hold_ret {A} K0 (a : A) K : K a ⊆ K0 -> hold K0 (st_ret a) K.
Proof.
  intros HK s Hs Hown. split; [done|]. split; [by intros w|]. intros ? [= <-]. cbn.
  rewrite Forall_forall in Hown |- *. auto.
Qed.

Lemma hold_panic {A} K0 (K : A -> list Pubkey) : hold K0 st_panic K.
Proof. intros s Hs _. split; [done|]. split; [by intros w | done]. Qed.

Lemma hold_unwrap {A} K0 (o : option A) : hold K0 (st_unwrap o) nothing.
Proof. destruct o; [apply hold_ret, list_subseteq_nil | apply hold_panic]. Qed.

Lemma hold_get {A} K0 (k : S -> ST S A) K :
  (forall s, pool_of s = target -> main_of s = main_id -> hold K0 (k s) K) ->
  hold K0 (st_bind st_get k) K.
Proof. intros Hk s Hs Hown. apply Hk; [apply Hs | apply Hs | done | done]. Qed.

(** An assignment to a field that is the strategy's own. *)
Lemma hold_modify K0 (f : S -> S) :
  (forall s, pool_of (f s) = pool_of s /\ main_of (f s) = main_of s /\ fleet_of (f s) = fleet_of s) ->
  hold K0 (st_modify f) nothing.
Proof.
  intros Hf s [Hp Hm Hfl] Hown. cbn. destruct (Hf s) as (E1 & E2 & E3).
  split; [constructor; congruence|]. rewrite E3. split; [by intros w | constructor].
Qed.

Lemma hold_iter {A} K0 (f : A -> ST S unit) l :
  (forall a, a ∈ l -> hold K0 (f a) nothing) -> hold K0 (st_iter f l) nothing.
Proof.
  induction l as [|a l IH]; intros Hf; [apply hold_ret, list_subseteq_nil|]. cbn [st_iter].
  apply hold_bind; [apply Hf; left | intros _; apply IH; intros b Hb; apply Hf; by right].
Qed.

Lemma hold_map {A B} K0 (f : A -> ST S B) K l :
  (forall a, hold K0 (f a) K) -> hold K0 (st_map f l) (fun bs => concat (K <$> bs)).
Proof.
  intros Hf. revert K0 Hf. induction l as [|a l IH]; intros K0 Hf; cbn [st_map].
  { apply hold_ret, list_subseteq_nil. }
  eapply hold_bind_keys; [apply Hf|]. intros b.
  eapply hold_bind_keys.
  { apply IH. intros c s Hs Hown. apply (Hf c s Hs). by apply Forall_app in Hown as [Hown _]. }
  intros bs. apply hold_ret. intros x. cbn. rewrite !elem_of_app. tauto.
Qed.

Lemma hold_weaken {A} K0 K1 (m : ST S A) K : K1 ⊆ K0 -> hold K1 m K -> hold K0 m K.
Proof.
  intros HK Hm s Hs Hown. apply Hm; [done|]. rewrite Forall_forall in Hown |- *. auto.
Qed.

(** The operations of the fleet. *)
Lemma hold_on_fleet {A} K0 (m : ST Fleet A) K :
  (forall f, fleet_ok f -> Forall (owns f) K0 ->
    fleet_ok (snd (m f)) /\ grows f (snd (m f)) /\
    forall a, fst (m f) = Some a -> Forall (owns (snd (m f))) (K a)) ->
  hold K0 (on_its_fleet m) K.
Proof.
  intros Hm s Hs Hown. unfold on_its_fleet, st_zoom.
  destruct (Hm (fleet_of s) (st_fleet s Hs) Hown) as (Hf1 & Hg & Hr).
  destruct (m (fleet_of s)) as [o f1]. cbn in *. rewrite fleet_put. split; [by apply put_ok | done].
Qed.

Lemma hold_read {A} K0 (m : ST Fleet A) : (forall f, snd (m f) = f) -> hold K0 (on_its_fleet m) nothing.
Proof.
  intros Hm. apply hold_on_fleet. intros f Hf _. rewrite Hm. split; [done|].
  split; [by intros w | constructor].
Qed.

Lemma quiet_keeps w f : fleet_ok f -> quiet (fleet_world f) w ->
  fleet_ok (mk_fleet f.(cells) f.(next_cell) w f.(fleet_queue) f.(tasks)).
Proof.
  intros [] [Hh Hn]. constructor; cbn; try done.
  by apply (queue_owned_mono (owns f) _ (fleet_world f)).
Qed.

Lemma hold_quietly {A B} K0 (m : ST World A) (k : A -> ST S B) Q K :
  quietly m Q -> (forall a, Q a -> hold K0 (k a) K) -> hold K0 (st_bind (in_its_world m) k) K.
Proof.
  intros Hm Hk s Hs Hown. unfold st_bind, in_its_world, on_its_fleet, on_fleet_world, st_zoom.
  destruct (Hm (fleet_world (fleet_of s))) as [Hq Hr].
  destruct (m _) as [o w]. cbn in *. set (f := mk_fleet _ _ w _ _).
  assert (Hs1 : strategy_ok (put_fleet f s)) by (apply put_ok, quiet_keeps; [done | apply Hs | done]).
  assert (Hg : grows (fleet_of s) (fleet_of (put_fleet f s))) by (rewrite fleet_put; by intros key).
  destruct o as [a|]; [|by split].
  destruct (Hk a (Hr a eq_refl) (put_fleet f s) Hs1) as (Hs2 & Hg2 & Hr2);
    [eapply Forall_impl; [exact Hown | exact Hg]|].
  split; [done|]. split; [|done]. intros key Hkey. by apply Hg2, Hg.
Qed.

Lemma hold_world {A} K0 (m : ST World A) : quietly m (fun _ => True) -> hold K0 (in_its_world m) nothing.
Proof.
  intros Hm s Hs Hown.
  destruct (hold_quietly K0 m st_ret (fun _ => True) nothing Hm) with (s := s) as (H2 & H3 & H4); try done.
  { intros a _. apply hold_ret, list_subseteq_nil. }
  revert H2 H3 H4. unfold st_bind. destruct (in_its_world m s) as [[a|] s1]; cbn; auto.
Qed.

Lemma hold_send K0 id ev : event_keys ev ⊆ K0 -> hold K0 (on_its_fleet (send id ev)) nothing.
Proof.
  intros HK. apply hold_on_fleet. intros f Hf Hown.
  destruct (send_keeps id ev f) as [Hok Hg]; [|done|].
  { rewrite Forall_forall in Hown |- *. auto. }
  split; [done|]. split; [done | constructor].
Qed.

Lemma hold_balance K0 id (m : ST Agent.Env Z) : runs reads m ->
  hold K0 (on_its_fleet (with_agent id (on_shared m))) nothing.
Proof.
  intros Hm. apply hold_on_fleet. intros f Hf _.
  destruct (with_agent_keeps id (on_shared m) f) as [Hok Hg]; [|done|].
  { intros W _. by apply reads_keep. }
  split; [done|]. split; [done | constructor].
Qed.

(** The locked agent is one of the fleet. *)
Lemma hold_lock_agent {B} K0 id (k : Statig.Sm Agent.State * Agent.AgentState -> ST S B) K :
  (forall c, enlisted (snd c) -> hold (Agent.pubkey_of (snd c) :: K0) (k c) K) ->
  hold K0 (st_bind (on_its_fleet (lock_agent id)) k) K.
Proof.
  intros Hk s Hs Hown. destruct (cells (fleet_of s) !! id) as [c|] eqn:Hc.
  - assert (E : on_its_fleet (lock_agent id) s = (Some c, s)).
    { unfold on_its_fleet, lock_agent, st_zoom, st_bind, st_gets. rewrite Hc. cbn. by rewrite put_same. }
    rewrite (st_bind_Some _ _ _ _ _ E). apply Hk; [|done|].
    + by apply (fl_cells _ (st_fleet s Hs) id c).
    + constructor; [by exists id, c | done].
  - unfold on_its_fleet, lock_agent, st_zoom, st_bind, st_gets. rewrite Hc. cbn. rewrite put_same.
    split; [done|]. split; [by intros key | done].
Qed.

Lemma new_cell_holds K0 a : enlisted a ->
  hold K0 (on_its_fleet (new_agent_cell a)) (fun _ => [Agent.pubkey_of a]).
Proof.
  intros He. apply hold_on_fleet. intros f Hf _.
  destruct (new_agent_cell_keeps a f Hf He) as (Hok & Hg & Hk).
  split; [done|]. split; [done|]. intros id _. by apply Forall_singleton.
Qed.

Lemma map_holds {A B} K0 (f : A -> ST S B) K l :
  (forall a, hold K0 (f a) K) -> hold K0 (st_map f l) nothing.
Proof.
  intros Hf s Hs Hown. destruct (hold_map K0 f K l Hf s Hs Hown) as (? & ? & _).
  split; [done|]. split; [done | constructor].
Qed.

Lemma hold_ok {A} (m : ST S A) K s : hold [] m K -> strategy_ok s -> strategy_ok (snd (m s)).
Proof. intros Hm Hs. by apply Hm. Qed.

(** Emptying the queue hands out what is in it. *)
Lemma emptied_ok {St} (m : ST (Statig.Sm St * S) unit) p :
  strategy_ok (snd (snd (m p))) ->
  let r := (m ;;; on_shared (on_its_fleet take_queue)) p in
  let f := fleet_of (snd (snd r)) in
  strategy_ok (snd (snd r)) /\
  forall refs, fst r = Some refs -> queue_owned (owns f) (fleet_world f) refs.
Proof.
  intros Hm. unfold st_bind. destruct (m p) as [[[]|] [s sh]]; cbn [fst snd] in *; [|by split].
  unfold on_shared, on_its_fleet, st_zoom, take_queue. cbn. rewrite fleet_put.
  split; [|intros refs [= <-]; apply (fl_queue _ (st_fleet _ Hm))].
  apply put_ok; [done|]. destruct (st_fleet _ Hm). constructor; cbn; try done. constructor.
Qed.

(** The event is from outside the strategy. *)
Lemma hold_spawn K0 event ids : hold K0 (on_its_fleet (spawn_delivery (Original event) ids)) nothing.
Proof.
  apply hold_on_fleet. intros f [] _. cbn.
  split; [|split; [by intros k | constructor]]. constructor; cbn; try done.
  apply Forall_app. split; [done | by repeat constructor].
Qed.
End Logic.

(** ** The volume strategy *)

#[global] Instance volume_fleet : FleetStrategy Env := {
  pool_of := pool; main_of := main_wallet; fleet_of := fleet;
  put_fleet := fun f s => env s.(instance) s.(pool) s.(main_wallet) s.(stopwatch) s.(agents) f;
  pool_put := fun _ _ => eq_refl; main_put := fun _ _ => eq_refl;
  fleet_put := fun _ _ => eq_refl;
  put_same := fun s => match s with env _ _ _ _ _ _ => eq_refl end;
}.

#[global] Instance sweeper_fleet : FleetStrategy Sweeper.Env := {
  pool_of := Sweeper.pool; main_of := Sweeper.main_wallet; fleet_of := Sweeper.fleet;
  put_fleet := Sweeper.set_fleet;
  pool_put := fun _ _ => eq_refl; main_put := fun _ _ => eq_refl;
  fleet_put := fun _ _ => eq_refl;
  put_same := fun s => match s with Sweeper.env _ _ _ _ _ _ => eq_refl end;
}.

(** The main wallet's key is [main]. *)
Lemma hold_main_key {A} K0 (k : KeypairClonable -> ST Env A) K :
  hold (main :: K0) (k main) K -> hold K0 (st_bind main_key k) K.
Proof.
  intros Hk s Hs Hown. pose proof Hs as [_ Hm Hf]. cbn in Hm, Hf.
  destruct (fl_main _ Hf) as (c & Hc & Hkc).
  assert (E : main_key s = (Some main, s)).
  { unfold main_key, on_fleet, lock_agent, st_zoom, st_bind, st_get, st_gets, st_unwrap, st_ret.
    cbn. rewrite Hm, Hc. cbn. rewrite Hkc. rewrite <- Hm. by destruct s. }
  rewrite (st_bind_Some _ _ _ _ _ E). apply Hk; [done|].
  constructor; [by apply fleet_ok_owns_main | done].
Qed.

Lemma prim_quiet :
  quietly db_get (fun _ => True) /\ quietly keypair_new (fun _ => True) /\
  quietly (st_gets now) (fun _ => True) /\ (forall n, quietly (draw_dirichlet n) (fun _ => True)) /\
  (forall ms, quietly (sleep_ms ms) (fun _ => True)) /\
  (forall A (f : World -> A), quietly (st_gets f) (fun _ => True)).
Proof. split_and!; intros; by apply quietly_prim. Qed.

Lemma monitoring_quiet acc mint :
  quietly (stop_monitoring_account acc) (fun _ => True) /\
  quietly (stop_monitoring_token_account acc mint) (fun _ => True).
Proof. split; apply quietly_runs, stop_monitoring_account_runs. Qed.

Lemma count_agents_reads ids e n f : snd (count_agents ids e n f) = f.
Proof.
  revert e n. induction ids as [|id ids IH]; intros e n; [done|]. cbn [count_agents].
  unfold agent_state, lock_agent, st_bind, st_gets, st_unwrap, st_ret, st_panic. cbn.
  destruct (cells f !! id) as [[[st i] a]|]; cbn; [|done]. destruct st; cbn; done || apply IH.
Qed.

Lemma sweeper_count_reads ids e n f : snd (Sweeper.count_agents ids e n f) = f.
Proof.
  revert e n. induction ids as [|id ids IH]; intros e n; [done|]. cbn [Sweeper.count_agents].
  unfold agent_state, lock_agent, st_bind, st_gets, st_unwrap, st_ret, st_panic. cbn.
  destruct (cells f !! id) as [[[st i] a]|]; cbn; [|done]. destruct st; cbn; done || apply IH.
Qed.

Lemma agent_state_reads id f : snd (agent_state id f) = f.
Proof.
  unfold agent_state, lock_agent, st_bind, st_gets, st_unwrap. by destruct (cells f !! id).
Qed.

(** The strategies' own [on_fleet] and [on_world], as the logic's. *)
Ltac to_fleet :=
  lazymatch goal with
  | |- hold _ (on_fleet ?m) _ => change (on_fleet m) with (on_its_fleet (S := Env) m)
  | |- hold _ (st_bind (on_fleet ?m) _) _ =>
      change (on_fleet m) with (on_its_fleet (S := Env) m)
  | |- hold _ (on_world ?m) _ => change (on_world m) with (in_its_world (S := Env) m)
  | |- hold _ (st_bind (on_world ?m) _) _ =>
      change (on_world m) with (in_its_world (S := Env) m)
  | |- hold _ (Sweeper.on_fleet ?m) _ =>
      change (Sweeper.on_fleet m) with (on_its_fleet (S := Sweeper.Env) m)
  | |- hold _ (st_bind (Sweeper.on_fleet ?m) _) _ =>
      change (Sweeper.on_fleet m) with (on_its_fleet (S := Sweeper.Env) m)
  | |- hold _ (Sweeper.on_world ?m) _ =>
      change (Sweeper.on_world m) with (in_its_world (S := Sweeper.Env) m)
  | |- hold _ (st_bind (Sweeper.on_world ?m) _) _ =>
      change (Sweeper.on_world m) with (in_its_world (S := Sweeper.Env) m)
  | |- _ => idtac
  end.

Ltac hold_step :=
  to_fleet;
  lazymatch goal with
  | |- hold _ (st_ret _) _ => apply hold_ret, list_subseteq_nil
  | |- hold _ st_panic _ => apply hold_panic
  | |- hold _ (st_unwrap _) _ => apply hold_unwrap
  | |- hold _ (st_modify _) _ => apply hold_modify; by intros
  | |- hold _ (on_its_fleet (send _ _)) _ =>
      apply hold_send; cbn; first [apply list_subseteq_nil | set_solver]
  | |- hold _ (on_its_fleet (token_balance_of _)) _ =>
      apply hold_balance, get_token_balance_reads
  | |- hold _ (on_its_fleet (sol_balance_of _)) _ => apply hold_balance, get_sol_balance_reads
  | |- hold _ (on_its_fleet (agent_state _)) _ => apply hold_read, agent_state_reads
  | |- hold _ (on_its_fleet (spawn_delivery _ _)) _ => apply hold_spawn
  | |- hold _ (in_its_world _) _ =>
      apply hold_world; first [apply prim_quiet | apply monitoring_quiet | solve [auto with bot]]
  | |- hold _ (st_bind st_get _) _ => apply hold_get; intros ? ? ?
  | |- hold _ (st_bind main_key _) _ => apply hold_main_key
  | |- hold _ (st_bind (on_its_fleet (lock_agent _)) _) _ => apply hold_lock_agent; intros ? ?
  | |- hold _ (st_bind _ _) _ => apply hold_bind; [| intros ?]
  | |- hold _ (st_iter _ _) _ => apply hold_iter; intros ? ?
  | |- hold _ (match ?x with _ => _ end) _ => destruct x eqn:?
  | |- hold _ _ _ => solve [auto with bot]
  end.

Lemma execution_status_holds K0 : hold K0 get_execution_status nothing.
Proof.
  unfold get_execution_status. hold_step. destruct (agents s); [hold_step|].
  hold_step; [to_fleet; apply hold_read; intros; apply count_agents_reads|]. repeat hold_step.
Qed.

Lemma main_state_holds K0 : hold K0 main_state nothing.
Proof. unfold main_state. repeat hold_step. Qed.

Hint Resolve execution_status_holds main_state_holds : bot.

Lemma strategy_handler_holds st ev : hold [] (strategy_handler st ev) nothing.
Proof using All.
  destruct st; cbn [strategy_handler];
    unfold sweeping, offloading_inventory, fund, buying, collecting_tokens,
      transferring_token_to_sellers, selling, collecting_sol, sleeping; repeat hold_step.
Qed.

(** A created agent belongs to the fleet. *)
Definition created_key (o : option (AgentId * Pubkey)) : list Pubkey :=
  match o with Some (_, pk) => [pk] | None => [] end.

Lemma create_agent_holds K0 : hold K0 create_agent created_key.
Proof.
  unfold create_agent. apply hold_get. intros s Hp _. cbn in Hp.
  to_fleet; eapply hold_quietly; [apply prim_quiet | intros key _]. apply hold_main_key.
  to_fleet; eapply hold_quietly; [apply new_quiet | intros o Ho].
  destruct o as [a|]; [|apply hold_ret, list_subseteq_nil].
  destruct (Ho a eq_refl) as (Hpa & _ & Hma).
  to_fleet; eapply hold_bind_keys; [apply new_cell_holds; split; [congruence | by right] | intros id].
  apply hold_ret. cbn. set_solver.
Qed.

Lemma agent_with_balance_holds K0 row : hold K0 (agent_with_balance main row) nothing.
Proof.
  unfold agent_with_balance. apply hold_get. intros s Hp _. cbn in Hp.
  hold_step; [hold_step|]. hold_step; [hold_step|]. hold_step; [|hold_step].
  hold_step; [hold_step|].
  to_fleet; eapply hold_quietly; [apply new_from_trader_quiet | intros o Ho].
  destruct o as [agent|]; [|hold_step]. destruct (Ho agent eq_refl) as (Hpa & Hma).
  to_fleet; eapply hold_bind_keys; [apply new_cell_holds; split; [congruence | by right] | intros id].
  hold_step.
Qed.

(** ** The entry actions *)

Lemma send_all_holds K0 ev ids : event_keys ev ⊆ K0 -> hold K0 (send_all ev ids) nothing.
Proof. intros HK. unfold send_all. hold_step. to_fleet. by apply hold_send. Qed.

Lemma receivers_concat l : receivers (concat l) = concat (receivers <$> l).
Proof.
  induction l as [|a l IH]; [done|]. cbn. unfold receivers in *. by rewrite fmap_app, IH.
Qed.

Lemma send_batches_holds K0 transfers :
  receivers transfers ⊆ K0 -> hold K0 (send_batches transfers) nothing.
Proof.
  intros HK. unfold send_batches. apply hold_iter. intros batch Hb. hold_step. to_fleet. apply hold_send. cbn.
  transitivity (receivers transfers); [|done].
  rewrite <- (chunks_concat MAX_TRANSFERS_IN_ONE_TX transfers) by (unfold MAX_TRANSFERS_IN_ONE_TX; lia).
  rewrite receivers_concat. intros k Hk. apply list_elem_of_In, in_concat.
  exists (receivers batch). split; apply list_elem_of_In; [|done].
  by apply list_elem_of_fmap_2.
Qed.

(** Transfers made one after another, then sent in batches. *)
Lemma made_and_sent {A} (f : A -> ST Env (list SolanaTransferActionPayload)) l :
  (forall a, hold [] (f a) receivers) ->
  hold [] (st_bind (st_map f l) (fun transfers => send_batches (concat transfers))) nothing.
Proof.
  intros Hf. eapply hold_bind_keys; [by apply hold_map|]. intros transfers.
  apply send_batches_holds. by rewrite receivers_concat.
Qed.

Lemma fund_agent_holds amount : hold [] (fund_agent amount) receivers.
Proof.
  unfold fund_agent. eapply hold_bind_keys; [apply create_agent_holds|]. intros [[id pk]|].
  - apply hold_bind; [hold_step | intros _]. by apply hold_ret.
  - by apply hold_ret.
Qed.

Lemma seller_transfers_holds i share : hold [] (seller_transfers i share) receivers.
Proof.
  unfold seller_transfers. hold_step. hold_step; [hold_step|]. hold_step.
  destruct (current _); apply hold_ret; unfold receivers; cbn; intros k;
    rewrite ?elem_of_cons; tauto.
Qed.

Hint Resolve create_agent_holds agent_with_balance_holds fund_agent_holds
  seller_transfers_holds : bot.

Ltac entry_step :=
  lazymatch goal with
  | |- hold _ (st_bind (st_map _ _) (fun t => send_batches (concat t))) _ =>
      apply made_and_sent; intros ?
  | |- hold _ (st_map _ _) _ => eapply map_holds; intros ?
  | |- hold _ (send_all _ _) _ => apply send_all_holds, list_subseteq_nil
  | |- hold _ (seller_transfers _ _) _ => apply seller_transfers_holds
  | |- hold _ create_agent _ => apply create_agent_holds
  | |- hold _ (agent_with_balance _ _) _ => apply agent_with_balance_holds
  | |- _ => hold_step
  end.

Lemma strategy_entry_holds st : hold [] (strategy_entry st) nothing.
Proof.
  destruct st; cbn [strategy_entry];
    unfold collect_everything_from_staled_agents, offload_inventory, initialize_agents_with_sol,
      buy, collect_token_from_agents, collect_token_from_agent, transfer_token_to_sellers,
      create_agents, as_length, sell, sell_agent, collect_sol_from_agents,
      set_sleep_timer_before_selling, cleanup;
    repeat entry_step.
Qed.

Lemma strategy_exit_holds st : hold [] (strategy_exit st) nothing.
Proof. destruct st; cbn [strategy_exit]; unfold zero_agents; repeat hold_step. Qed.

(** ** The strategy *)

Lemma on_dispatch_holds st event : hold [] (on_dispatch st (Original event)) nothing.
Proof. unfold on_dispatch. repeat hold_step. Qed.

Lemma handle_ok event (p : Statig.Sm State * Env) : strategy_ok (snd p) ->
  strategy_ok (snd (snd (handle strategy_machine (Original event) p))).
Proof.
  apply (handle_invariant strategy_machine (Original event) strategy_ok).
  - intros st s. apply hold_ok with nothing, on_dispatch_holds.
  - intros st s. apply hold_ok with nothing, strategy_handler_holds.
  - intros st h s Hh. assert (h = running) as -> by (destruct st; cbn in Hh; congruence). by intros.
  - intros st s. apply hold_ok with nothing, strategy_entry_holds.
  - intros st s. apply hold_ok with nothing, strategy_exit_holds.
Qed.

Lemma process_event_ok event (p : Statig.Sm State * Env) : strategy_ok (snd p) ->
  strategy_ok (snd (snd (process_event event p))) /\
  forall refs, fst (process_event event p) = Some refs ->
    let f := fleet (snd (snd (process_event event p))) in
    queue_owned (owns f) (fleet_world f) refs.
Proof.
  intros Hp. unfold process_event.
  change (on_fleet take_queue) with (on_its_fleet (S := Env) take_queue).
  refine (emptied_ok _ p _). destruct event; try exact Hp; by apply handle_ok.
Qed.

Lemma reachable_ok (p q : Statig.Sm State * Env) : strategy_ok (snd p) -> reachable p q -> strategy_ok (snd q).
Proof.
  intros Hp Hr. induction Hr as [|p q r Hstep _ IH]; [done|]. apply IH. clear IH.
  destruct Hstep as [event [m s] | i m s | d m s Hd].
  - by apply process_event_ok.
  - destruct Hp as [? ? ?]. constructor; [done..|]. by apply run_task_keeps.
  - apply hold_ok with nothing; [|exact Hp]. to_fleet. apply hold_world, prim_quiet.
Qed.

(** ** The sweeper *)

Lemma sweeper_status_holds K0 : hold K0 Sweeper.get_execution_status nothing.
Proof.
  unfold Sweeper.get_execution_status. hold_step. destruct (Sweeper.agents s); [hold_step|].
  hold_step; [to_fleet; apply hold_read; intros; apply sweeper_count_reads|]. repeat hold_step.
Qed.

Lemma sweeper_agent_holds K0 row : hold K0 (Sweeper.agent_with_balance row) nothing.
Proof.
  unfold Sweeper.agent_with_balance. apply hold_get. intros s Hp _. cbn in Hp.
  hold_step; [hold_step|]. hold_step; [hold_step|]. hold_step; [|hold_step].
  hold_step; [hold_step|]. to_fleet. apply hold_lock_agent. intros c [_ Hmc].
  to_fleet. eapply hold_quietly; [apply new_from_trader_quiet | intros o Ho].
  destruct o as [agent|]; [|hold_step]. destruct (Ho agent eq_refl) as (Hpa & Hma).
  to_fleet. eapply hold_bind_keys; [apply new_cell_holds; split; congruence | intros id].
  hold_step.
Qed.

Lemma sweeper_handle_ok event (p : Statig.Sm Sweeper.State * Sweeper.Env) :
  strategy_ok (snd p) ->
  strategy_ok (snd (snd (handle Sweeper.strategy_machine (Original event) p))).
Proof.
  apply (handle_invariant Sweeper.strategy_machine (Original event) strategy_ok).
  - intros st s. apply hold_ok with nothing. cbn. unfold Sweeper.on_dispatch. repeat hold_step.
  - intros st s. apply hold_ok with nothing.
    destruct st; cbn; unfold Sweeper.sweeping; repeat hold_step. apply sweeper_status_holds.
  - intros st h s [=].
  - intros st s. apply hold_ok with nothing. destruct st; cbn; [| | |hold_step].
    + unfold Sweeper.get_agents_with_balance. repeat hold_step.
      eapply map_holds. intros row. apply sweeper_agent_holds.
    + unfold Sweeper.sweep, Sweeper.sweep_agent. repeat hold_step. to_fleet. apply hold_send.
      unfold Sweeper.sweep_transfers. case_match; cbn; set_solver.
    + unfold Sweeper.sell_token. repeat hold_step.
  - by intros.
Qed.

Lemma sweeper_event_ok event (p : Statig.Sm Sweeper.State * Sweeper.Env) : strategy_ok (snd p) ->
  strategy_ok (snd (snd (Sweeper.process_event event p))) /\
  forall refs, fst (Sweeper.process_event event p) = Some refs ->
    let f := Sweeper.fleet (snd (snd (Sweeper.process_event event p))) in
    queue_owned (owns f) (fleet_world f) refs.
Proof.
  intros Hp. unfold Sweeper.process_event.
  change (Sweeper.on_fleet take_queue) with (on_its_fleet (S := Sweeper.Env) take_queue).
  refine (emptied_ok _ p _). destruct event; try exact Hp; by apply sweeper_handle_ok.
Qed.

Lemma sweeper_reachable_ok (p q : Statig.Sm Sweeper.State * Sweeper.Env) :
  strategy_ok (snd p) -> Sweeper.reachable p q -> strategy_ok (snd q).
Proof.
  intros Hp Hr. induction Hr as [|p q r Hstep _ IH]; [done|]. apply IH. clear IH.
  destruct Hstep as [event [m s] | i m s | d m s Hd].
  - by apply sweeper_event_ok.
  - destruct Hp as [? ? ?]. constructor; [done..|]. by apply run_task_keeps.
  - apply hold_ok with nothing; [|exact Hp]. to_fleet. apply hold_world, prim_quiet.
Qed.
End Ownership.

Section Started.
Context `{Profile} `{Ext} `{StatigDriver}.

(** A fleet of one wallet, the main one. *)
Lemma first_cell_ok pool a n w key :
  Agent.pool a = pool -> Agent.agent_key a = key -> Agent.main_wallet a = None ->
  fleet_ok pool n key (mk_fleet (<[n := (state_machine Agent.agent_machine, a)]> ∅) (n + 1) w [] []).
Proof.
  intros Hpa Hka Hma.
  assert (Hl : forall id c, (<[n := (state_machine Agent.agent_machine, a)]> ∅ : gmap AgentId _) !! id = Some c ->
    id = n /\ c = (state_machine Agent.agent_machine, a)).
  { intros id c. rewrite lookup_insert_Some, lookup_empty. naive_solver. }
  constructor; cbn; [| | |constructor..].
  - eexists. split; [apply lookup_insert_eq | done].
  - intros id c Hid. apply Hl in Hid as [-> _]. lia.
  - intros id c Hid. apply Hl in Hid as [-> ->]. cbn.
    split; [split; [done | by left] | by repeat constructor].
Qed.

(** A strategy starts with one. *)
Lemma new_strategy_ok pool user_key i f0 p f1 :
  f0.(cells) = ∅ -> f0.(fleet_queue) = [] -> f0.(tasks) = [] ->
  new (Some pool) (Some (Some user_key)) i f0 = (Some (Some p), f1) ->
  strategy_ok pool f0.(next_cell) user_key (snd p).
Proof.
  intros Hc Hq Ht. unfold new, on_fleet_world, st_zoom, st_bind, st_gets, db_get, st_get, st_unwrap, st_ret.
  cbn. destruct (db_available _); cbn; [|discriminate].
  set (w := set_db_calls _ _).
  destruct (new_quiet pool user_key None None w) as [Hw Hr].
  destruct (Agent.new pool user_key None None w) as [[[a|]|] w1]; cbn; try discriminate.
  intros [= <- _]. destruct (Hr _ eq_refl a eq_refl) as (Hpa & Hka & Hma).
  rewrite Hc, Hq, Ht. constructor; cbn; [done..|]. by apply first_cell_ok.
Qed.
(** C3. A volume strategy moves its own money only.  Take a strategy started
    for a pool and a user's key, and let it run: events arrive, the deliveries of
    its tasks interleave, time passes.  Every action a call of [process_event]
    then hands to the executors is a new one, signed by a wallet of the
    strategy's fleet, whose fees are paid by that wallet or by the user's; it
    swaps on the strategy's pool, and transfers to wallets of the fleet. *)
Theorem strategy_moves_its_own_money (pool : RaydiumPool) (user_key : KeypairClonable)
    (i : VolumeStrategyInstance) (f0 f1 : Fleet) (p q q' : Statig.Sm State * Env)
    (event : BotEvent) (refs : list ActionRef) :
  f0.(cells) = ∅ -> f0.(fleet_queue) = [] -> f0.(tasks) = [] ->
  new (Some pool) (Some (Some user_key)) i f0 = (Some (Some p), f1) ->
  reachable p q -> process_event event q = (Some refs, q') ->
  Forall (fun r => exists a, (fleet_world (fleet (snd q'))).(heap) !! r = Some a /\
    owned pool user_key (owns (fleet (snd q'))) a) refs.
Proof.
  intros Hc Hq Ht Hnew Hr He.
  pose proof (new_strategy_ok _ _ _ _ _ _ Hc Hq Ht Hnew) as Hp.
  pose proof (reachable_ok _ _ _ _ _ Hp Hr) as Hok.
  destruct (process_event_ok _ _ _ event q Hok) as [_ Ho].
  rewrite He in Ho. specialize (Ho refs eq_refl). cbn in Ho.
  eapply Forall_impl; [exact Ho|]. by intros r (_ & Hx).
Qed.

Lemma new_sweeper_ok pool user_key i f0 p f1 :
  f0.(cells) = ∅ -> f0.(fleet_queue) = [] -> f0.(tasks) = [] ->
  Sweeper.new (Some pool) (Some (Some user_key)) i f0 = (Some (Some p), f1) ->
  strategy_ok pool f0.(next_cell) user_key (snd p).
Proof.
  intros Hc Hq Ht. unfold Sweeper.new, on_fleet_world, st_zoom, st_bind, st_gets, db_get, st_get, st_unwrap, st_ret.
  cbn. destruct (db_available _); cbn; [|discriminate].
  set (w := set_db_calls _ _).
  destruct (new_quiet pool user_key None None w) as [Hw Hr].
  destruct (Agent.new pool user_key None None w) as [[[a|]|] w1]; cbn; try discriminate.
  intros [= <- _]. destruct (Hr _ eq_refl a eq_refl) as (Hpa & Hka & Hma).
  rewrite Hc, Hq, Ht. constructor; cbn; [done..|]. by apply first_cell_ok.
Qed.

(** C4. A sweep moves the swept wallets' money to wallets of the fleet: every
    action the sweeper hands to the executors, whatever has happened since it was
    started, is a new one, signed by a wallet of its fleet, paid by that wallet
    or the user's, swaps on its pool and transfers to wallets of the fleet. *)
Theorem sweeper_moves_its_own_money (pool : RaydiumPool) (user_key : KeypairClonable)
    (i : VolumeStrategyInstance) (f0 f1 : Fleet) (p q q' : Statig.Sm Sweeper.State * Sweeper.Env)
    (event : BotEvent) (refs : list ActionRef) :
  f0.(cells) = ∅ -> f0.(fleet_queue) = [] -> f0.(tasks) = [] ->
  Sweeper.new (Some pool) (Some (Some user_key)) i f0 = (Some (Some p), f1) ->
  Sweeper.reachable p q -> Sweeper.process_event event q = (Some refs, q') ->
  Forall (fun r => exists a, (fleet_world (Sweeper.fleet (snd q'))).(heap) !! r = Some a /\
    owned pool user_key (owns (Sweeper.fleet (snd q'))) a) refs.
Proof.
  intros Hc Hq Ht Hnew Hr He.
  pose proof (new_sweeper_ok _ _ _ _ _ _ Hc Hq Ht Hnew) as Hp.
  pose proof (sweeper_reachable_ok _ _ _ _ _ Hp Hr) as Hok.
  destruct (sweeper_event_ok _ _ _ event q Hok) as [_ Ho].
  rewrite He in Ho. specialize (Ho refs eq_refl). cbn in Ho.
  eapply Forall_impl; [exact Ho|]. by intros r (_ & Hx).
Qed.
End Started.

(** * What a sniper orders

    The sniper has one wallet.  It buys and sells the tokens of pools that passed
    its filters when they were announced, and every purchase is of the size it is
    configured for. *)

Section Snipes.
#[local] Set Default Proof Using "Type*".
Context `{Profile} `{Ext} `{SniperRpc} `{StatigDriver}.
Variables (i : SnipingStrategyInstance) (key : KeypairClonable).

(** The filters a pool must pass: the mint account was there and nobody can freeze
    it, nor mint more if that matters, the name and the liquidity are as asked. *)
Definition vetted (p : RaydiumPool) (price : RaydiumPoolPriceUpdate) : Prop :=
  (exists n mint, rpc_mint_account n p.(base_mint) = Some (Some mint) /\
     SniperStrat.is_freezable mint = false /\
     (i.(skip_mintable) = true -> SniperStrat.is_mintable mint = false)) /\
  (i.(skip_pump_fun) = true -> str_contains "pump" (pubkey_string p.(pool_id)) = false) /\
  f64_lt price.(pu_quote_reserve) i.(min_pool_liquidity_sol) = false.

(** The size of a purchase. *)
Definition order_size : Amount := Exact (Decimals.sol_to_lamports i.(size_sol)).

(** A swap of the sniper's on one of the pools [W], announced at a price. *)
Record snipe_order (W : RaydiumPool -> RaydiumPoolPriceUpdate -> Prop) (a : SolanaAction) : Prop := {
  so_sniper : a.(sniper) = key;
  so_payer : a.(fee_payer) = key;
  so_status : a.(status) = NotSent;
  so_swap : exists p price method amt, W p price /\
    a.(action_payload) = [SwapPayload (new_swap_payload p method amt)] /\
    (method = BuyTokensForExactSol -> amt = order_size);
}.

Definition orders_in (W : RaydiumPool -> RaydiumPoolPriceUpdate -> Prop) (w : World) (q : list ActionRef) : Prop :=
  Forall (fun r => r < w.(next_ref) /\ exists a, w.(heap) !! r = Some a /\ snipe_order W a) q.

Lemma orders_in_mono (W W' : RaydiumPool -> RaydiumPoolPriceUpdate -> Prop) w w' q :
  (forall p pr, W p pr -> W' p pr) -> quiet w w' -> orders_in W w q -> orders_in W' w' q.
Proof.
  intros HW [Hh Hn] Hq. unfold orders_in. rewrite Hh, Hn. eapply Forall_impl; [exact Hq|].
  intros r (Hr & a & Ha & []). split; [done|]. exists a. split; [done|]. constructor; try done.
  destruct so_swap0 as (p & pr & m & amt & Hp & ?). exists p, pr, m, amt. auto.
Qed.

(** ** One snipe *)

Section One.
Variables (W : RaydiumPool -> RaydiumPoolPriceUpdate -> Prop) (p0 : RaydiumPool) (pr0 : RaydiumPoolPriceUpdate).

Record snipe_in (e : Sniper.Env) : Prop := {
  sn_key : Sniper.agent_key (Sniper.self e) = key;
  sn_instance : Sniper.instance (Sniper.self e) = i;
  sn_pool : Sniper.pool (Sniper.self e) = p0;
  sn_price : Sniper.deploy_price (Sniper.self e) = pr0;
  sn_queue : orders_in W (Sniper.world e) (Sniper.queue e);
}.

(** A snipe that buys buys for its size. *)
Definition sized (st : Sniper.State) : Prop :=
  match st with Sniper.Buying amt _ => amt = order_size | _ => True end.

(** [m] keeps the snipe, and its result satisfies [Q]. *)
Definition keeps {A} (m : ST Sniper.Env A) (Q : A -> Prop) : Prop :=
  forall e, snipe_in e -> snipe_in (snd (m e)) /\ forall a, fst (m e) = Some a -> Q a.

Lemma keeps_seq {A B} (m : ST Sniper.Env A) (k : A -> ST Sniper.Env B) P Q :
  keeps m P -> (forall a, P a -> keeps (k a) Q) -> keeps (st_bind m k) Q.
Proof.
  intros Hm Hk e He. unfold st_bind. destruct (Hm e He) as [H1' Hr].
  destruct (m e) as [[a|] e1]; [|done]. apply (Hk a (Hr a eq_refl)), H1'.
Qed.

Lemma keeps_ret {A} (a : A) (Q : A -> Prop) : Q a -> keeps (st_ret a) Q.
Proof. intros Hq e He. split; [done|]. by intros ? [= <-]. Qed.

Lemma keeps_unwrap {A} (o : option A) : keeps (st_unwrap o) (fun _ => True).
Proof. destruct o; [by apply keeps_ret | by intros e He]. Qed.

Lemma keeps_get {A} (k : Sniper.Env -> ST Sniper.Env A) Q :
  (forall e, snipe_in e -> keeps (k e) Q) -> keeps (st_bind st_get k) Q.
Proof. intros Hk e He. by apply Hk. Qed.

Lemma keeps_world {A} (m : ST World A) Q : quietly m Q -> keeps (Sniper.on_world m) Q.
Proof.
  intros Hm e [Hk Hi Hp Hpr Hq]. unfold Sniper.on_world, st_zoom.
  destruct (Hm (Sniper.world e)) as [Hw Hr]. destruct (m _) as [o w]. cbn in *.
  split; [|done]. constructor; cbn; try done. by eapply orders_in_mono; [|exact Hw|].
Qed.

Lemma keeps_modify (f : Sniper.AgentState -> Sniper.AgentState) :
  (forall a, Sniper.agent_key (f a) = Sniper.agent_key a /\ Sniper.instance (f a) = Sniper.instance a /\
     Sniper.pool (f a) = Sniper.pool a /\ Sniper.deploy_price (f a) = Sniper.deploy_price a) ->
  keeps (Sniper.modify_self f) (fun _ => True).
Proof.
  intros Hf e []. split; [|done]. destruct (Hf (Sniper.self e)) as (? & ? & ? & ?).
  constructor; cbn; congruence.
Qed.

Lemma keeps_swap method amt r : W p0 pr0 ->
  (method = BuyTokensForExactSol -> amt = order_size) -> keeps (Sniper.swap method amt r) (fun _ => True).
Proof.
  intros HW Ha. unfold Sniper.swap. eapply keeps_seq; [|intros _ _].
  { case_match; [apply keeps_world, quietly_prim; by intros w | by apply keeps_ret]. }
  apply keeps_get. intros e [Hk _ Hp _ _]. rewrite Hk, Hp.
  eapply keeps_seq; [by apply keeps_world, quietly_prim | intros id _].
  eapply keeps_seq; [by apply keeps_world, quietly_prim | intros t _].
  intros [a1 w1 q1] []. split; [|done]. cbn in *.
  cbv [Sniper.queue_action Sniper.modify_self Sniper.on_world st_zoom register alloc_action
    with_cache st_bind st_get st_modify st_ret Sniper.self Sniper.world Sniper.queue].
  constructor; cbn; try done. unfold orders_in. cbn. apply Forall_app. split.
  - eapply Forall_impl; [exact sn_queue0|]. intros x (Hx & a & Hl & Ho). split; [lia|].
    exists a. split; [|done]. rewrite lookup_insert_ne by lia. done.
  - repeat constructor; [lia|]. eexists. split; [apply lookup_insert_eq|]. constructor; try done.
    by exists p0, pr0, method, amt.
Qed.

Ltac keeps_step :=
  lazymatch goal with
  | |- keeps (st_ret _) _ => apply keeps_ret; try done
  | |- keeps (st_bind st_get _) _ => apply keeps_get; intros ? ?
  | |- keeps (st_bind _ _) _ => eapply (keeps_seq _ _ (fun _ => True)); [|intros ? _]
  | |- keeps (Sniper.on_world _) _ => apply keeps_world, quietly_prim; try done
  | |- keeps (Sniper.modify_self _) _ => by apply keeps_modify
  | |- keeps (st_unwrap _) _ => apply keeps_unwrap
  | |- keeps (match ?x with _ => _ end) _ => destruct x eqn:?
  end.

Lemma entry_keeps st : W p0 pr0 -> sized st -> keeps (Sniper.sniper_entry st) (fun _ => True).
Proof.
  intros HW Hs. destruct st as [|amt r| |amt r| |msg]; cbn [Sniper.sniper_entry].
  - unfold Sniper.set_buy_delay_timer. repeat keeps_step.
  - by apply keeps_swap.
  - unfold Sniper.set_when_bought_timer. repeat keeps_step.
  - by apply keeps_swap.
  - unfold Sniper.stop_monitoring. repeat keeps_step.
  - by apply keeps_ret.
Qed.

Lemma keeps_impl {A} (m : ST Sniper.Env A) (P Q : A -> Prop) :
  keeps m P -> (forall a, P a -> Q a) -> keeps m Q.
Proof. intros Hm HPQ e He. destruct (Hm e He). auto. Qed.

(** A handler only asks for sized states. *)
Definition asks_sized (r : Response Sniper.State) : Prop := forall t, r = Transition t -> sized t.

Lemma retry_sized r next msg : sized next -> asks_sized (Sniper.retry_or_error r next msg).
Proof. intros Hn t. unfold Sniper.retry_or_error. by case_match; intros [= <-]. Qed.

Lemma conditional_keeps ev next ok r : sized next -> sized ok ->
  keeps (Sniper.conditional_transition ev next ok r) asks_sized.
Proof.
  intros Hn Ho. unfold Sniper.conditional_transition, Sniper.process_execution_receipt,
    Sniper.is_cooled_down_before_retry.
  repeat keeps_step; first [by apply retry_sized | by intros ? [= <-]].
Qed.

Lemma handler_keeps st ev : sized st -> keeps (Sniper.sniper_handler st ev) asks_sized.
Proof.
  intros Hs. destruct st as [|amt r| |amt r| |msg]; cbn [Sniper.sniper_handler].
  - unfold Sniper.waiting_to_buy. apply keeps_get. intros e [_ Hi _ _ _]. rewrite Hi.
    repeat keeps_step; by intros ? [= <-].
  - by apply conditional_keeps.
  - unfold Sniper.waiting_to_sell. apply keeps_get. intros e _. keeps_step; [by apply keeps_ret; intros ? [= <-]|].
    match goal with |- keeps (match ?x with _ => _ end) _ =>
      assert (Hx : forall y, x = Some y -> asks_sized y)
    end.
    { intros y Hy t ->. repeat case_match; by simplify_eq. }
    keeps_step; [by apply keeps_ret, Hx|]. clear Hx. repeat keeps_step; by intros ? [= <-].
  - by apply conditional_keeps.
  - by apply keeps_ret.
  - by apply keeps_ret.
Qed.

(** One event. *)
Lemma snipe_event_keeps ev m e : W p0 pr0 -> sized (current m) -> snipe_in e ->
  let p := snd (Sniper.handle_event ev (m, e)) in sized (current (fst p)) /\ snipe_in (snd p).
Proof.
  intros HW Hs He. refine (handle_state_invariant Sniper.sniper_machine ev sized snipe_in _ _ _ _ _ (m, e) Hs He).
  - by intros.
  - intros st Hst sh Hsh. destruct (handler_keeps st ev Hst sh Hsh) as [H1' H2']. split; [done|].
    intros t Ht. by eapply H2'.
  - intros st h [=].
  - intros st sh Hst Hsh. by apply (entry_keeps st HW Hst).
  - by intros.
Qed.
End One.

(** ** The strategy *)

(** The pools that are or were sniped, with their prices at the time. *)
Definition sniped (s : SniperStrat.Env) (p : RaydiumPool) (pr : RaydiumPoolPriceUpdate) : Prop :=
  exists id m a, s.(SniperStrat.cells) !! id = Some (m, a) /\ Sniper.pool a = p /\
    Sniper.deploy_price a = pr.

(** A snipe on a vetted pool. *)
Definition snipe_cell (c : Statig.Sm Sniper.State * Sniper.AgentState) : Prop :=
  sized (current (fst c)) /\ Sniper.agent_key (snd c) = key /\ Sniper.instance (snd c) = i /\
  vetted (Sniper.pool (snd c)) (Sniper.deploy_price (snd c)).

Record sniper_ok (s : SniperStrat.Env) : Prop := {
  sk_instance : SniperStrat.instance s = i;
  sk_wallet : SniperStrat.sniper_wallet s = key;
  sk_cells : forall id c, SniperStrat.cells s !! id = Some c -> id < SniperStrat.next_cell s /\ snipe_cell c;
  sk_tasks : Forall (fun t => match t with SniperStrat.InsertSnipe p pr => vetted p pr | _ => True end)
               (SniperStrat.tasks s);
  sk_queue : orders_in (sniped s) (SniperStrat.world s) (SniperStrat.actions s);
}.

Lemma set_tasks_ok ts s : sniper_ok s ->
  Forall (fun t => match t with SniperStrat.InsertSnipe p pr => vetted p pr | _ => True end) ts ->
  sniper_ok (SniperStrat.set_tasks ts s).
Proof. intros [] Ht. by constructor. Qed.

Lemma set_world_ok w s : sniper_ok s -> quiet (SniperStrat.world s) w -> sniper_ok (SniperStrat.set_world w s).
Proof. intros [] Hw. constructor; try done. by eapply orders_in_mono; [|exact Hw|]. Qed.

Lemma deliver_ok id ev s : sniper_ok s -> sniper_ok (SniperStrat.deliver id ev s).
Proof.
  intros Hs. unfold SniperStrat.deliver.
  destruct (SniperStrat.cells s !! id) as [[m a]|] eqn:Hc; [|done].
  destruct Hs as [Hi Hk Hcells Ht Hq]. destruct (Hcells id _ Hc) as [Hlt (Hs & Hak & Hai & Hv)]. cbn in *.
  pose proof (snipe_event_keeps (sniped s) (Sniper.pool a) (Sniper.deploy_price a) ev m
    (Sniper.env a (SniperStrat.world s) (SniperStrat.actions s))) as Hkeep.
  destruct Hkeep as [Hs' []]; [by exists id, m, a | done | by constructor |].
  destruct (Sniper.handle_event _ _) as [o [m' e']]. cbn in *.
  assert (Hg : forall p pr, sniped s p pr -> sniped (SniperStrat.env (SniperStrat.instance s)
    (SniperStrat.sniper_wallet s) (SniperStrat.pool_snipes s) (<[id := (m', Sniper.self e')]> (SniperStrat.cells s))
    (SniperStrat.next_cell s) (Sniper.world e') (Sniper.queue e') (SniperStrat.tasks s)) p pr).
  { intros p pr (id' & x & b & Hb & <- & <-). destruct (decide (id' = id)) as [->|Hne].
    - exists id, m', (Sniper.self e'). cbn. rewrite lookup_insert_eq. simplify_eq. done.
    - exists id', x, b. cbn. by rewrite lookup_insert_ne. }
  constructor; cbn; try done; [|by eapply orders_in_mono; [exact Hg | split|]].
  intros id' c. rewrite lookup_insert_Some. intros [[<- <-] | [_ Hl]]; [|by apply Hcells].
  split; [done|]. split; [done|]. cbn. split_and!; [done..|]. by rewrite sn_pool0, sn_price0.
Qed.

Lemma insert_snipe_ok p pr s : sniper_ok s -> vetted p pr -> sniper_ok (snd (SniperStrat.insert_snipe p pr s)).
Proof.
  intros Hs Hv. unfold SniperStrat.insert_snipe, SniperStrat.on_world, st_zoom.
  unfold st_bind, st_get. cbn.
  assert (Hn : quietly (Sniper.new p (SniperStrat.sniper_wallet s) (SniperStrat.instance s) pr)
    (fun a => Sniper.pool a = p /\ Sniper.agent_key a = SniperStrat.sniper_wallet s /\
       Sniper.instance a = SniperStrat.instance s /\ Sniper.deploy_price a = pr)).
  { unfold Sniper.new.
    eapply quietly_bind; [by apply quietly_runs; auto with bot | intros _ _].
    eapply quietly_bind; [by apply quietly_runs; auto with bot | intros _ _].
    eapply (quietly_bind _ _ (fun _ => True)); [by apply quietly_prim | intros t _].
    by apply quietly_ret. }
  destruct (Hn (SniperStrat.world s)) as [Hw Hr].
  destruct (Sniper.new _ _ _ _ _) as [[a|] w]; cbn in *; [|by apply set_world_ok].
  destruct (Hr a eq_refl) as (Hp & Hk & Hi & Hd). destruct Hs as [Hsi Hsk Hcells Ht Hq].
  assert (Hfresh : SniperStrat.cells s !! SniperStrat.next_cell s = None).
  { destruct (SniperStrat.cells s !! _) eqn:E; [|done]. apply Hcells in E as [E _]. lia. }
  constructor; cbn; try done.
  - intros id c. rewrite lookup_insert_Some. intros [[<- <-] | [_ Hl]].
    + split; [lia|]. split; [done|]. cbn. split_and!; [congruence..|]. by rewrite Hp, Hd.
    + apply Hcells in Hl as [? ?]. split; [lia | done].
  - eapply orders_in_mono; [|exact Hw | exact Hq]. intros p' pr' (id & m & b & Hb & ?).
    exists id, m, b. cbn. split; [|done]. rewrite lookup_insert_ne; [done|].
    intros <-. by rewrite Hfresh in Hb.
Qed.

Lemma run_task_ok k j s : sniper_ok s -> sniper_ok (SniperStrat.run_task k j s).
Proof.
  intros Hs. pose proof (sk_tasks s Hs) as Ht. unfold SniperStrat.run_task.
  destruct (SniperStrat.tasks s !! k) as [t|] eqn:Et; [|done].
  pose proof (Forall_lookup_1 _ _ _ _ Ht Et) as Hc. destruct t as [p pr|ev|ev children|pools].
  - apply insert_snipe_ok; [|done]. by apply set_tasks_ok, Forall_delete.
  - by apply set_tasks_ok, Forall_insert.
  - destruct (children !! j); [by apply deliver_ok, set_tasks_ok, Forall_insert|].
    destruct children; [by apply set_tasks_ok, Forall_insert | done].
  - destruct pools as [|p rest]; [by apply set_tasks_ok, Forall_delete|].
    assert (Hs' := set_tasks_ok (<[k := SniperStrat.Removing rest]> (SniperStrat.tasks s)) s Hs).
    destruct Hs' as []; [by apply Forall_insert|]. by constructor.
Qed.

(** A pool that is to be sniped passed the filters. *)
Lemma judge_spec p pr s : SniperStrat.instance s = i ->
  exists o w, SniperStrat.judge p pr s = (o, SniperStrat.set_world w s) /\
    quiet (SniperStrat.world s) w /\ (o = Some SniperStrat.StartSnipe -> vetted p pr).
Proof.
  intros Hi. unfold SniperStrat.judge, st_bind, st_get. cbn. rewrite Hi.
  assert (Hid : s = SniperStrat.set_world (SniperStrat.world s) s) by (by destruct s).
  case_bool_decide; [by eexists _, (SniperStrat.world s); rewrite <- Hid|].
  destruct (skip_pump_fun i && _) eqn:Hpf; [by eexists _, (SniperStrat.world s); rewrite <- Hid|].
  cbn. destruct (rpc_mint_account _ _) as [[mint|]|] eqn:Em; cbn; try by eexists _, _.
  unfold st_ret. destruct (SniperStrat.is_freezable mint) eqn:Ef; [by eexists _, _|].
  destruct (skip_mintable i && _) eqn:Esm; [by eexists _, _|].
  destruct (f64_lt _ _) eqn:El; [by eexists _, _|].
  destruct (_ <=? _); eexists _, _; (split; [reflexivity|]); (split; [done|]); [done|].
  intros _. split; [|split; [|done]].
  - eexists _, mint. split; [exact Em|]. split; [done|]. intros Hm. by rewrite Hm in Esm.
  - intros Hm. by rewrite Hm in Hpf.
Qed.

Lemma spawn_ok t s : sniper_ok s ->
  match t with SniperStrat.InsertSnipe p pr => vetted p pr | _ => True end ->
  sniper_ok (snd (SniperStrat.spawn t s)).
Proof.
  intros Hs Ht. apply set_tasks_ok; [done|]. apply Forall_app. split; [apply Hs | by repeat constructor].
Qed.

Lemma running_ok ev s : sniper_ok s -> sniper_ok (snd (SniperStrat.running ev s)).
Proof.
  intros Hs. destruct ev as [[tick|[| | | | | |p price| | | | |]| | |]|]; try exact Hs.
  cbn [SniperStrat.running]. unfold st_bind at 1.
  destruct (judge_spec p price s (sk_instance s Hs)) as (o & w & -> & Hw & Hv).
  pose proof (set_world_ok w s Hs Hw) as Hs'.
  destruct o as [[]|]; try exact Hs'. by apply (spawn_ok (SniperStrat.InsertSnipe p price)); auto.
Qed.

Lemma sniper_event_ok event (p : Statig.Sm SniperStrat.State * SniperStrat.Env) : sniper_ok (snd p) ->
  let r := SniperStrat.process_event event p in
  sniper_ok (snd (snd r)) /\
  forall refs, fst r = Some refs ->
    orders_in (sniped (snd (snd r))) (SniperStrat.world (snd (snd r))) refs.
Proof.
  intros Hp. unfold SniperStrat.process_event.
  set (m := match event with HeartBeat _ | Blockchain _ => _ | _ => _ end).
  assert (Hm : sniper_ok (snd (snd (m p)))).
  { assert (Hh : sniper_ok (snd (snd (handle SniperStrat.strategy_machine (Original event) p)))).
    { apply (handle_invariant SniperStrat.strategy_machine (Original event) sniper_ok); try done.
      - intros st s Hs. by apply (spawn_ok (SniperStrat.Dispatch (Original event))).
      - intros [] s Hs; [by apply running_ok | done]. }
    subst m. by destruct event. }
  unfold st_bind. destruct (m p) as [[[]|] [st s]]; cbn [fst snd] in *; [|by split].
  unfold on_shared, st_zoom. cbn. split; [destruct Hm; constructor; try done; constructor|].
  intros refs [= <-]. apply Hm.
Qed.

Lemma sniper_reachable_ok (p q : Statig.Sm SniperStrat.State * SniperStrat.Env) :
  sniper_ok (snd p) -> SniperStrat.reachable p q -> sniper_ok (snd q).
Proof.
  intros Hp Hr. induction Hr as [|p q r Hstep _ IH]; [done|]. apply IH. clear IH.
  destruct Hstep as [event [m s] | k j m s | d m s Hd].
  - by apply sniper_event_ok.
  - by apply run_task_ok.
  - by apply set_world_ok.
Qed.

(** C5. A sniper orders what it was configured for.  Every action it hands to the
    executors, in every interleaving of events, of the tasks that insert snipes and
    deliver to them, and of time since it was started, is a new one, signed and paid
    by the wallet of its configured key; it is one swap on the pool of one of its
    snipes, which with the price it was announced at passed the filters (nobody can
    freeze the token, nor mint more of it if that is asked for, the name and the
    liquidity are as asked for), and a purchase is of exactly the configured size. *)
Theorem sniper_orders_as_configured (w : World) (p q q' : Statig.Sm SniperStrat.State * SniperStrat.Env)
    (event : BotEvent) (refs : list ActionRef) :
  keypair_of_privkey i.(sniper_private_key) = Some key -> SniperStrat.new i w = Some p ->
  SniperStrat.reachable p q -> SniperStrat.process_event event q = (Some refs, q') ->
  Forall (fun r => exists a, (SniperStrat.world (snd q')).(heap) !! r = Some a /\
    snipe_order (fun pl price => sniped (snd q') pl price /\ vetted pl price) a) refs.
Proof.
  intros Hk Hnew Hr He.
  assert (Hp : sniper_ok (snd p)).
  { revert Hnew. unfold SniperStrat.new. rewrite Hk. cbn. intros [= <-].
    by constructor; cbn; try done; constructor. }
  pose proof (sniper_reachable_ok _ _ Hp Hr) as Hok.
  destruct (sniper_event_ok event q Hok) as [Hok' Ho]. rewrite He in Ho, Hok'. cbn in Ho, Hok'.
  eapply Forall_impl; [exact (Ho refs eq_refl)|]. intros r (_ & a & Ha & Hs). exists a. split; [done|].
  destruct Hs as [? ? ? (pl & pr & method & amt & Hpl & ?)]. constructor; try done.
  destruct Hpl as (id & m & b & Hb & <- & <-). eexists _, _, method, amt. split; [|done].
  split; [by exists id, m, b | apply (sk_cells _ Hok' id (m, b) Hb)].
Qed.
End Snipes.

(** ** The theorems at concrete strategies *)

#[local] Existing Instance sample_ext.
#[local] Existing Instance documented_driver.

Definition empty_fleet : Fleet := mk_fleet ∅ 1 sample_world [] [].

(** Started by the user of key 9, and after the first of two heartbeats. *)
Definition sample_started : option (option (Statig.Sm State * Env)) * Fleet :=
  @new debug_build _ _ (Some sample_pool) (Some (Some 9)) sample_instance empty_fleet.

Definition after_heartbeat (p : Statig.Sm State * Env) : option (list ActionRef) * (Statig.Sm State * Env) :=
  @process_event debug_build _ _ (HeartBeat 400) p.

(** The second heartbeat funds the two first agents: one action is queued. *)
Lemma strategy_moves_its_own_money_witness :
  exists p q' a, fst sample_started = Some (Some p) /\
    after_heartbeat (snd (after_heartbeat p)) = (Some [1], q') /\
    (fleet_world (fleet (snd q'))).(heap) !! 1 = Some a /\
    owned sample_pool 9 (owns (fleet (snd q'))) a.
Proof.
  destruct (fst sample_started) as [[p|]|] eqn:E; [| vm_compute in E; discriminate ..].
  set (q := snd (after_heartbeat p)).
  assert (Hr : fst (after_heartbeat q) = Some [1]).
  { revert q. vm_compute in E. injection E as <-. intros q. vm_compute. reflexivity. }
  pose proof (@strategy_moves_its_own_money debug_build _ _ sample_pool 9 sample_instance
    empty_fleet (snd sample_started) p q (snd (after_heartbeat q)) (HeartBeat 400) [1]) as Ht.
  specialize (Ht eq_refl eq_refl eq_refl).
  assert (Hn : sample_started = (Some (Some p), snd sample_started))
    by (rewrite <- E; apply surjective_pairing).
  specialize (Ht Hn (rtc_once _ _ (step_event _ _))).
  assert (He : after_heartbeat q = (Some [1], snd (after_heartbeat q)))
    by (rewrite <- Hr; apply surjective_pairing).
  apply Forall_inv in Ht; [|exact He]. destruct Ht as (a & Ha & Ho).
  exists p, (snd (after_heartbeat q)), a. by split_and!.
Defined.

(** A world with one row of a wallet, selected because its id is that of
    the instance: the first heartbeat lists it and tells it to send its
    money to the main wallet. *)
Definition world_with_trader : World :=
  set_traders {[ 7 := {| trader_id := 3; strategy_instance_id := Some 3; wallet := 7;
                         private_key := "key"; is_active := true |} ]} sample_world.

Definition sweeper_started : option (option (Statig.Sm Sweeper.State * Sweeper.Env)) * Fleet :=
  Sweeper.new (Some sample_pool) (Some (Some 9)) sample_instance
    (mk_fleet ∅ 1 world_with_trader [] []).

Lemma sweeper_moves_its_own_money_witness :
  exists p q' a, fst sweeper_started = Some (Some p) /\
    Sweeper.process_event (HeartBeat 400) p = (Some [1], q') /\
    (fleet_world (Sweeper.fleet (snd q'))).(heap) !! 1 = Some a /\
    owned sample_pool 9 (owns (Sweeper.fleet (snd q'))) a.
Proof.
  destruct (fst sweeper_started) as [[p|]|] eqn:E; [| vm_compute in E; discriminate ..].
  assert (Hr : fst (Sweeper.process_event (HeartBeat 400) p) = Some [1])
    by (vm_compute in E; injection E as <-; vm_compute; reflexivity).
  set (q' := snd (Sweeper.process_event (HeartBeat 400) p)).
  assert (He : Sweeper.process_event (HeartBeat 400) p = (Some [1], q'))
    by (rewrite <- Hr; apply surjective_pairing).
  assert (Hn : sweeper_started = (Some (Some p), snd sweeper_started))
    by (rewrite <- E; apply surjective_pairing).
  pose proof (sweeper_moves_its_own_money sample_pool 9 sample_instance
    (mk_fleet ∅ 1 world_with_trader [] []) (snd sweeper_started) p p q' (HeartBeat 400) [1]
    eq_refl eq_refl eq_refl Hn (rtc_refl _ _) He) as Ht.
  apply Forall_inv in Ht. destruct Ht as (a & Ha & Ho).
  exists p, q', a. by split_and!.
Defined.

(** A pool is announced and sniped; the next heartbeat reaches the snipe, which
    buys, and the one after hands out its order. *)
Section SampleSniper.
#[local] Existing Instance debug_build.
#[local] Existing Instance sample_sniper_rpc.

Definition sniper_start : option (Statig.Sm SniperStrat.State * SniperStrat.Env) :=
  SniperStrat.new sample_snipe sample_world.

Definition sniper_hears (event : BotEvent) (p : Statig.Sm SniperStrat.State * SniperStrat.Env) :=
  snd (SniperStrat.process_event event p).

Definition second_task (p : Statig.Sm SniperStrat.State * SniperStrat.Env) :=
  (fst p, SniperStrat.run_task 1 0 (snd p)).

Definition sniped_once (p : Statig.Sm SniperStrat.State * SniperStrat.Env) :=
  second_task (second_task (sniper_hears (HeartBeat 400)
    (second_task (sniper_hears (Blockchain (RaydiumNewPoolEvent sample_pool (sample_price 40))) p)))).

Lemma sniped_once_reachable p : SniperStrat.reachable p (sniped_once p).
Proof.
  unfold sniped_once.
  assert (Ht : forall q, SniperStrat.step q (second_task q))
    by (intros [m s]; apply SniperStrat.step_task).
  repeat first [eapply rtc_r; [|apply Ht] | eapply rtc_r; [|apply SniperStrat.step_event]].
  apply rtc_refl.
Qed.

Lemma sniper_orders_as_configured_witness :
  exists p q' a, sniper_start = Some p /\
    SniperStrat.process_event (HeartBeat 400) (sniped_once p) = (Some [1], q') /\
    (SniperStrat.world (snd q')).(heap) !! 1 = Some a /\
    snipe_order sample_snipe 7
      (fun pl price => sniped (snd q') pl price /\ vetted sample_snipe pl price) a.
Proof.
  destruct sniper_start as [p|] eqn:E; [|vm_compute in E; discriminate].
  set (q := sniped_once p).
  assert (Hr : fst (SniperStrat.process_event (HeartBeat 400) q) = Some [1])
    by (subst q; vm_compute in E; injection E as <-; vm_compute; reflexivity).
  set (q' := snd (SniperStrat.process_event (HeartBeat 400) q)).
  assert (He : SniperStrat.process_event (HeartBeat 400) q = (Some [1], q'))
    by (rewrite <- Hr; apply surjective_pairing).
  pose proof (sniper_orders_as_configured sample_snipe 7 sample_world p q q' (HeartBeat 400) [1]
    eq_refl E (sniped_once_reachable p) He) as Ht.
  apply Forall_inv in Ht. destruct Ht as (a & Ha & Ho). exists p, q', a. by split_and!.
Defined.
End SampleSniper.
