(* ===== verification/BuildInstructions.v ===== *)
(** * From an action to instructions

    [executors/build_instructions.rs] with the Raydium swap instruction of
    [crates/solana_farm_client/src/raydium_sdk.rs]. *)

From S2P Require Import Prelude MachineInt Types Cache GenericApi.

(** ** Instructions

    What the constructors of [solana_sdk], [spl_token] and
    [spl_associated_token_account] are called with; the swap is built from
    account metas, its data kept as the structure that is serialised.  The
    [spl_token] constructors fail on a wrong program id only, and are called with
    the right one. *)
Record AccountMeta := meta {
  meta_pubkey : Pubkey;
  is_signer : bool;
  is_writable : bool;
}.

Record SwapInstructionData := {
  instruction : Z;
  data_amount_in : Z;
  data_min_amount_out : Z;
}.

Inductive Instruction :=
| SystemTransfer (from to lamports : Z)
| CreateAssociatedTokenAccount (funder wallet mint : Pubkey)
| SplTransfer (source destination owner : Pubkey) (amount : Z)
| SplCloseAccount (account destination owner : Pubkey)
| SplSyncNative (account : Pubkey)
| SwapInstruction (program : Pubkey) (accounts : list AccountMeta) (data : SwapInstructionData)
| SetComputeUnitLimit (units : Z)
| SetComputeUnitPrice (micro_lamports : Z).

#[export] Instance AccountMeta_eq_dec : EqDecision AccountMeta.
Proof. solve_decision. Defined.
#[export] Instance SwapInstructionData_eq_dec : EqDecision SwapInstructionData.
Proof. solve_decision. Defined.
#[export] Instance Instruction_eq_dec : EqDecision Instruction.
Proof. solve_decision. Defined.

(** The addresses of the constants, decoded. *)
Definition WSOL_MINT_PUBKEY : Pubkey :=
  0x69b8857feab8184fb687f634618c035dac439dc1aeb3b5598a0f00000000001.
Definition TOKEN_PROGRAM_ID : Pubkey :=
  0x6ddf6e1d765a193d9cbe146ceeb79ac1cb485ed5f5b37913a8cf5857eff00a9.
Definition MODEL_DATA_PUBKEY : Pubkey :=
  0xa6a0bfecb36557823b9c2bec5dfde9fa885093d36b0096f628016952a10827d6.

(** ** The Raydium swap *)
Record UserKeys := user_keys {
  token_account_in : Pubkey;
  token_account_out : Pubkey;
  owner : Pubkey;
}.

Record LiquiditySwapFixedInInstructionParamsV4 := swap_params {
  pool_keys : LiquidityPoolKeys;
  params_user_keys : UserKeys;
  params_amount_in : Z;
  params_min_amount_out : Z;
}.

Definition account_meta (pk : Pubkey) (signer : bool) : AccountMeta := meta pk signer true.
Definition account_meta_readonly (pk : Pubkey) (signer : bool) : AccountMeta := meta pk signer false.

Definition make_swap_fixed_in_instruction (params : LiquiditySwapFixedInInstructionParamsV4)
    (version : Z) : Instruction :=
  let k := params.(pool_keys) in
  let u := params.(params_user_keys) in
  let data := {| instruction := 9; data_amount_in := params.(params_amount_in);
                 data_min_amount_out := params.(params_min_amount_out) |} in
  let keys :=
    [account_meta_readonly TOKEN_PROGRAM_ID false;
     account_meta k.(lk_id) false;
     account_meta_readonly k.(lk_authority) false;
     account_meta k.(lk_open_orders) false] ++
    (if version =? 4 then [account_meta k.(lk_target_orders) false] else []) ++
    [account_meta k.(lk_base_vault) false;
     account_meta k.(lk_quote_vault) false] ++
    (if version =? 5 then [account_meta MODEL_DATA_PUBKEY false] else []) ++
    [account_meta_readonly k.(lk_market_program_id) false;
     account_meta k.(lk_market_id) false;
     account_meta k.(lk_market_bids) false;
     account_meta k.(lk_market_asks) false;
     account_meta k.(lk_market_event_queue) false;
     account_meta k.(lk_market_base_vault) false;
     account_meta k.(lk_market_quote_vault) false;
     account_meta_readonly k.(lk_market_authority) false;
     account_meta u.(token_account_in) false;
     account_meta u.(token_account_out) false;
     account_meta_readonly u.(owner) true] in
  SwapInstruction k.(lk_program_id) keys data.

(** ** Building *)

(** What the loop over the payload reads. *)
Record Build := mk_build {
  sniper_pubkey : Pubkey;
  fee_payer_pubkey : Pubkey;
  token_mint : Pubkey;
  sniper_token_ata : Pubkey;
  sniper_wsol_ata : Pubkey;
  sol_balance : Z;
  token_balance : Z;
  tx_fee : Z;
}.

(** Its mutable variables. *)
Record Pointers := mk_pointers {
  action_ixs : list Instruction;
  sol_balance_pointer : Z;
  tx_fee_pointer : Z;
  token_balance_pointer : Z;
  min_sol_to_keep_after_pointer : Z;
}.

(** The instructions of a step with its cost in lamports and tokens and what it
    asks to keep; [None]: a step of amount zero. *)
Record Step := mk_step {
  step_ixs : list Instruction;
  sol_cost : Z;
  token_cost : Z;
  min_sol_to_keep_after : Z;
}.

Definition token_of (s : SolanaActionPayload) : option Pubkey :=
  match s with
  | TransferPayload t => match t.(asset) with Token m => Some m | Sol => None end
  | SwapPayload w =>
      Some (if negb (w.(keys).(lk_base_mint) =? WSOL_MINT_PUBKEY) then w.(keys).(lk_base_mint)
            else w.(keys).(lk_quote_mint))
  end.

Definition get_tokens_used_in_tx (payload : list SolanaActionPayload) : gset Pubkey :=
  list_to_set (omap token_of payload).

(** The sum on [u32], wrapped as in a release build; a debug build would panic, for
    which a payload would need some 37000 entries. *)
Definition estimate_cu_per_tx (payload : list SolanaActionPayload) : Z :=
  wrap_u32 (sum_list_Z ((fun s =>
    match s with
    | TransferPayload t => match t.(asset) with Sol => 150 | Token _ => 35000 end
    | SwapPayload w =>
        match w.(swap_method) with
        | BuyTokensForExactSol => 80000 + 35000
        | SellExactTokensForSol => 80000
        end
    end) <$> payload) + 300).

Section Steps.
Context `{Profile} `{Ext}.

Abbreviation Fallible A := (ST World (result ExecutionError A)) (only parsing).

Definition u64 (r : option Z) : Fallible Z := st_lift (st_unwrap r).

Definition exists_account (acc : Pubkey) : Fallible bool := st_lift (is_account_exist acc).

Definition sol_transfer (b : Build) (p : Pointers) (transfer : SolanaTransferActionPayload)
    : Fallible (option Step) :=
  let ix lamports := [SystemTransfer b.(sniper_pubkey) transfer.(receiver) lamports] in
  match transfer.(amount) with
  | Exact amount =>
      if 0 <? amount then
        cost <-! u64 (add_u64 amount p.(tx_fee_pointer)) ;;
        st_ok (Some (mk_step (ix amount) cost 0 0))
      else st_ok None
  | ExactWithFees amount =>
      if 0 <? amount then
        amt_to_transfer <-! u64 (sub_u64 amount p.(tx_fee_pointer)) ;;
        cost <-! u64 (add_u64 amt_to_transfer p.(tx_fee_pointer)) ;;
        st_ok (Some (mk_step (ix amt_to_transfer) cost 0 0))
      else st_ok None
  | Max | MaxAndClose =>
      cost <-! u64 (sub_u64 p.(sol_balance_pointer) p.(tx_fee_pointer)) ;;
      st_ok (Some (mk_step (ix b.(sol_balance)) cost 0 0))
  | MaxButLeaveForTransfer =>
      fees <-! u64 (add_u64 b.(tx_fee) p.(tx_fee_pointer)) ;;
      if fees <? p.(sol_balance_pointer) then
        rest <-! u64 (sub_u64 p.(sol_balance_pointer) b.(tx_fee)) ;;
        amt_to_transfer <-! u64 (sub_u64 rest p.(tx_fee_pointer)) ;;
        cost <-! u64 (add_u64 amt_to_transfer p.(tx_fee_pointer)) ;;
        st_ok (Some (mk_step (ix amt_to_transfer) cost 0 b.(tx_fee)))
      else st_ok None
  end.

Definition token_transfer (b : Build) (p : Pointers) (transfer : SolanaTransferActionPayload)
    (token_pubkey : Pubkey) : Fallible (option Step) :=
  let receiver_ata := ata transfer.(receiver) b.(token_mint) in
  let token_amt :=
    match transfer.(amount) with
    | Exact amount | ExactWithFees amount => amount
    | MaxButLeaveForTransfer | Max | MaxAndClose => p.(token_balance_pointer)
    end in
  if 0 <? token_amt then
    receiver_exists <-! exists_account receiver_ata ;;
    let '(create, sol_to_budget) :=
      if negb receiver_exists
      then ([CreateAssociatedTokenAccount b.(fee_payer_pubkey) transfer.(receiver) token_pubkey],
            RENT_EXEMPTION_THRESHOLD_SOL)
      else ([], 0) in
    let close :=
      if bool_decide (transfer.(amount) = MaxAndClose)
      then [SplCloseAccount b.(sniper_token_ata) b.(fee_payer_pubkey) b.(sniper_pubkey)] else [] in
    st_ok (Some (mk_step
      (create ++ [SplTransfer b.(sniper_token_ata) receiver_ata b.(sniper_pubkey) token_amt] ++ close)
      sol_to_budget token_amt 0))
  else st_ok None.

(** The account of the sniper the swap takes from, and the one it pays into. *)
Definition swap_user_keys (b : Build) (swap : SolanaSwapActionPayload) : UserKeys :=
  let reversed := swap.(keys).(lk_base_mint) =? WSOL_MINT_PUBKEY in
  match swap.(swap_method) with
  | BuyTokensForExactSol =>
      if reversed then user_keys b.(sniper_token_ata) b.(sniper_wsol_ata) b.(sniper_pubkey)
      else user_keys b.(sniper_wsol_ata) b.(sniper_token_ata) b.(sniper_pubkey)
  | SellExactTokensForSol =>
      if reversed then user_keys b.(sniper_wsol_ata) b.(sniper_token_ata) b.(sniper_pubkey)
      else user_keys b.(sniper_token_ata) b.(sniper_wsol_ata) b.(sniper_pubkey)
  end.

(** The lamports a purchase swaps. *)
Definition buy_amount_in (b : Build) (p : Pointers) (amount_in : Amount)
    (ata_creation_fee wsol_ata_creation_fee_reimbursed : Z) : Fallible Z :=
  match amount_in with
  | Exact amount => st_ok amount
  | ExactWithFees amount =>
      x <-! u64 (add_u64 p.(tx_fee_pointer) ata_creation_fee) ;;
      fees <-! u64 (add_u64 x wsol_ata_creation_fee_reimbursed) ;;
      if p.(sol_balance_pointer) <? amount
      then st_bail (NotEnoughSolBalance amount p.(sol_balance_pointer))
      else u64 (sub_u64 amount fees)
  | Max =>
      x <-! u64 (add_u64 p.(tx_fee_pointer) ata_creation_fee) ;;
      amt_needed <-! u64 (add_u64 x wsol_ata_creation_fee_reimbursed) ;;
      if p.(sol_balance_pointer) <? amt_needed
      then st_bail (NotEnoughSolBalance amt_needed p.(sol_balance_pointer))
      else u64 (sub_u64 p.(sol_balance_pointer) amt_needed)
  | MaxButLeaveForTransfer =>
      x <-! u64 (add_u64 p.(tx_fee_pointer) b.(tx_fee)) ;;
      y <-! u64 (add_u64 x ata_creation_fee) ;;
      amt_needed <-! u64 (add_u64 y wsol_ata_creation_fee_reimbursed) ;;
      if p.(sol_balance_pointer) <? amt_needed
      then st_bail (NotEnoughSolBalance amt_needed p.(sol_balance_pointer))
      else u64 (sub_u64 p.(sol_balance_pointer) amt_needed)
  | MaxAndClose => st_ok p.(sol_balance_pointer)
  end.

Definition buy_step (b : Build) (p : Pointers) (swap : SolanaSwapActionPayload)
    : Fallible (option Step) :=
  has_token_ata <-! exists_account b.(sniper_token_ata) ;;
  let ata_creation_fee := if negb has_token_ata then RENT_EXEMPTION_THRESHOLD_SOL else 0 in
  has_wsol_ata <-! exists_account b.(sniper_wsol_ata) ;;
  let wsol_ata_creation_fee_reimbursed :=
    if negb has_wsol_ata then RENT_EXEMPTION_THRESHOLD_SOL else 0 in
  swap_sol_amount_in <-! buy_amount_in b p swap.(amount_in) ata_creation_fee
                           wsol_ata_creation_fee_reimbursed ;;
  if 0 <? swap_sol_amount_in then
    has_token_ata <-! exists_account b.(sniper_token_ata) ;;
    let '(create, sol_to_budget) :=
      if negb has_token_ata
      then ([CreateAssociatedTokenAccount b.(fee_payer_pubkey) b.(sniper_pubkey) b.(token_mint)],
            RENT_EXEMPTION_THRESHOLD_SOL)
      else ([], 0) in
    has_wsol_ata <-! exists_account b.(sniper_wsol_ata) ;;
    let create_wsol :=
      if negb has_wsol_ata
      then [CreateAssociatedTokenAccount b.(fee_payer_pubkey) b.(sniper_pubkey) WSOL_MINT_PUBKEY]
      else [] in
    cost <-! u64 (add_u64 swap_sol_amount_in sol_to_budget) ;;
    st_ok (Some (mk_step
      (create ++ create_wsol ++
       [SystemTransfer b.(sniper_pubkey) b.(sniper_wsol_ata) swap_sol_amount_in;
        SplSyncNative b.(sniper_wsol_ata);
        make_swap_fixed_in_instruction
          (swap_params swap.(keys) (swap_user_keys b swap) swap_sol_amount_in 0)
          swap.(keys).(lk_version);
        SplCloseAccount b.(sniper_wsol_ata) b.(fee_payer_pubkey) b.(sniper_pubkey)])
      cost 0 RENT_EXEMPTION_THRESHOLD_SOL))
  else st_ok None.

Definition sell_step (b : Build) (p : Pointers) (swap : SolanaSwapActionPayload)
    : Fallible (option Step) :=
  let amount_in :=
    match swap.(amount_in) with
    | Exact amount | ExactWithFees amount => amount
    | Max | MaxButLeaveForTransfer | MaxAndClose => p.(token_balance_pointer)
    end in
  if 0 <? amount_in then
    has_wsol_ata <-! exists_account b.(sniper_wsol_ata) ;;
    let create_wsol :=
      if negb has_wsol_ata
      then [CreateAssociatedTokenAccount b.(fee_payer_pubkey) b.(sniper_pubkey) WSOL_MINT_PUBKEY]
      else [] in
    st_ok (Some (mk_step
      (create_wsol ++
       [SplSyncNative b.(sniper_wsol_ata);
        make_swap_fixed_in_instruction
          (swap_params swap.(keys) (swap_user_keys b swap) amount_in swap.(min_amount_out))
          swap.(keys).(lk_version);
        SplCloseAccount b.(sniper_wsol_ata) b.(fee_payer_pubkey) b.(sniper_pubkey)])
      0 amount_in 0))
  else st_ok None.

Definition build_step (b : Build) (p : Pointers) (step : SolanaActionPayload)
    : Fallible (option Step) :=
  match step with
  | TransferPayload transfer =>
      match transfer.(asset) with
      | Sol => sol_transfer b p transfer
      | Token token_pubkey => token_transfer b p transfer token_pubkey
      end
  | SwapPayload swap =>
      if negb (negb (swap.(keys).(lk_base_mint) =? WSOL_MINT_PUBKEY) &&
               (swap.(keys).(lk_quote_mint) =? WSOL_MINT_PUBKEY))
      then st_bail (UnsupportedPool (pubkey_string swap.(keys).(lk_base_mint))
                                    (pubkey_string swap.(keys).(lk_quote_mint)))
      else
        match swap.(swap_method) with
        | BuyTokensForExactSol => buy_step b p swap
        | SellExactTokensForSol => sell_step b p swap
        end
  end.

(** The end of the loop's body: tokens are checked, lamports are not. *)
Definition account_step (b : Build) (p : Pointers) (s : Step) : Fallible Pointers :=
  if p.(token_balance_pointer) <? s.(token_cost) then
    x <-! u64 (add_u64 s.(token_cost) p.(token_balance_pointer)) ;;
    st_bail (NotEnoughTokenBalance x b.(token_balance))
  else
    paid <-! (if 0 <? p.(tx_fee_pointer)
              then u64 (sub_u64 p.(sol_balance_pointer) b.(tx_fee))
              else st_ok p.(sol_balance_pointer)) ;;
    sol <-! (if s.(sol_cost) <? paid then u64 (sub_u64 paid s.(sol_cost)) else st_ok 0) ;;
    tokens <-! u64 (sub_u64 p.(token_balance_pointer) s.(token_cost)) ;;
    keep <-! u64 (add_u64 p.(min_sol_to_keep_after_pointer) s.(min_sol_to_keep_after)) ;;
    st_ok (mk_pointers (p.(action_ixs) ++ s.(step_ixs)) sol 0 tokens keep).

Fixpoint build_steps (b : Build) (p : Pointers) (payload : list SolanaActionPayload)
    : Fallible Pointers :=
  match payload with
  | [] => st_ok p
  | step :: rest =>
      s <-! build_step b p step ;;
      match s with
      | None => build_steps b p rest
      | Some s => p' <-! account_step b p s ;; build_steps b p' rest
      end
  end.

Definition or_zero (r : result AccountError Z) : Z := match r with Ok n => n | Err _ => 0 end.

Definition compute_tx_fee (price_per_cu_microlamports compute_units_per_tx : Z) : Fallible Z :=
  x <-! u64 (mul_u64 price_per_cu_microlamports compute_units_per_tx) ;;
  y <-! u64 (add_u64 BASE_TX_FEE_SOL (x / 1000000)) ;;
  u64 (add_u64 y 1).

Definition build_instructions (action : SolanaAction)
    (price_per_cu_microlamports compute_units_per_tx : Z)
    : Fallible (Balance * list Instruction) :=
  let sniper_pk := pubkey action.(sniper) in
  sol <-! st_lift (get_balance sniper_pk) ;;
  let sol_bal := or_zero sol in
  if sol_bal =? 0 then st_bail ZeroSolBalance else
  let tokens := get_tokens_used_in_tx action.(action_payload) in
  if (1 <? size tokens)%nat then st_bail SeveralTokensInOneTx else
  let mint := default 0 (head (elements tokens)) in
  tok <-! st_lift (get_token_balance sniper_pk mint) ;;
  let token_bal := or_zero tok in
  fee <-! compute_tx_fee price_per_cu_microlamports compute_units_per_tx ;;
  if sol_bal <? fee then st_bail (NotEnoughSolBalance fee sol_bal) else
  let balance_before := {| sol := sol_bal; token := gset_to_gmap token_bal tokens |} in
  let b := mk_build sniper_pk (pubkey action.(fee_payer)) mint (ata sniper_pk mint)
             (ata sniper_pk WSOL_MINT_PUBKEY) sol_bal token_bal fee in
  p <-! build_steps b (mk_pointers [] sol_bal fee token_bal 0) action.(action_payload) ;;
  st_ok (balance_before, p.(action_ixs)).
End Steps.
