(* ===== verification/BuildFacts.v ===== *)
(** * What the built instructions spend, and where it goes *)

From S2P Require Import Prelude MachineInt Float64 Types Cache GenericApi Samples Statig VolumeAgent VolumeAgentFacts VolumeStrategy VolumeStrategyFacts Sweeper Ownership BuildInstructions.

Section Facts.
Context `{Profile} `{Ext}.

(** ** Inversion of the fallible steps *)

Lemma u64_inv r w z w' : u64 r w = (Some (Ok z), w') -> r = Some z /\ w' = w.
Proof. unfold u64. intros E. apply st_lift_inv in E. destruct r; [by injection E as <- <- | discriminate]. Qed.

Lemma exists_account_inv acc w x w' : exists_account acc w = (Some (Ok x), w') -> w' = w.
Proof. unfold exists_account. intros E. apply st_lift_inv in E. by injection E. Qed.

Lemma st_ok_inv {E A} (a b : A) (w w' : World) :
  @st_ok World E A a w = (Some (Ok b), w') -> b = a /\ w' = w.
Proof. by intros [= <- <-]. Qed.

(** One layer of a successful computation. *)
Ltac try_step :=
  match goal with
  | E : st_try _ _ _ = (Some (Ok _), _) |- _ =>
      apply st_try_inv in E as (? & ? & ? & E)
  | E : u64 _ _ = (Some (Ok _), _) |- _ => apply u64_inv in E as [? ->]
  | E : exists_account _ _ = (Some (Ok _), _) |- _ => apply exists_account_inv in E as ->
  | E : st_ok _ _ = (Some (Ok _), _) |- _ => apply st_ok_inv in E as [E ->]; try subst
  | E : st_bail _ _ = (Some (Ok _), _) |- _ => discriminate E
  | E : (if ?c then _ else _) _ = (Some (Ok _), _) |- _ => destruct c eqn:?
  | E : (let '(_, _) := ?c in _) _ = (Some (Ok _), _) |- _ => destruct c as [? ?] eqn:?
  end.

Ltac try_all := repeat try_step.

(** ** The shape of a step *)

Ltac step_result := match goal with E : _ = Some _ |- _ => injection E as <- | E : Some _ = _ |- _ => injection E as -> end.

Lemma sol_transfer_shape b p t w s w' :
  sol_transfer b p t w = (Some (Ok (Some s)), w') ->
  exists n, s.(step_ixs) = [SystemTransfer b.(sniper_pubkey) t.(receiver) n] /\ s.(token_cost) = 0.
Proof.
  unfold sol_transfer. intros E. destruct (amount t); try_all; try discriminate;
    step_result; by eexists.
Qed.

Definition optional {A} (x : A) (l : list A) : Prop := l = [] \/ l = [x].

Lemma optional_if {A} (c : bool) (x : A) : optional x (if c then [x] else []).
Proof. destruct c; [by right | by left]. Qed.

Lemma token_transfer_shape b p t mint w s w' :
  token_transfer b p t mint w = (Some (Ok (Some s)), w') ->
  exists create close, 0 < s.(token_cost) /\
    s.(step_ixs) = create ++ [SplTransfer b.(sniper_token_ata) (ata t.(receiver) b.(token_mint))
                                b.(sniper_pubkey) s.(token_cost)] ++ close /\
    optional (CreateAssociatedTokenAccount b.(fee_payer_pubkey) t.(receiver) mint) create /\
    optional (SplCloseAccount b.(sniper_token_ata) b.(fee_payer_pubkey) b.(sniper_pubkey)) close.
Proof.
  unfold token_transfer. intros E. cbn zeta in E.
  match type of E with context [0 <? ?n] => destruct (0 <? n) eqn:Hn; [|discriminate] end.
  try_step. try_step. destruct (negb _); cbv beta iota in E; try_all; step_result; cbn [step_ixs token_cost];
    [eexists [_], _ | eexists [], _]; (split; [lia|]); (split; [reflexivity|]);
    (split; [first [by right | by left] | case_bool_decide; [by right | by left]]).
Qed.

Lemma buy_step_shape b p swap w s w' :
  buy_step b p swap w = (Some (Ok (Some s)), w') ->
  exists create n, 0 < n /\ s.(token_cost) = 0 /\
    s.(step_ixs) = create ++
      [SystemTransfer b.(sniper_pubkey) b.(sniper_wsol_ata) n;
       SplSyncNative b.(sniper_wsol_ata);
       make_swap_fixed_in_instruction (swap_params swap.(keys) (swap_user_keys b swap) n 0)
         swap.(keys).(lk_version);
       SplCloseAccount b.(sniper_wsol_ata) b.(fee_payer_pubkey) b.(sniper_pubkey)] /\
    Forall (fun ix => exists m, ix = CreateAssociatedTokenAccount b.(fee_payer_pubkey)
                                       b.(sniper_pubkey) m) create.
Proof.
  unfold buy_step. intros E.
  apply st_try_inv in E as (x1 & w1 & E1 & E). apply exists_account_inv in E1 as ->.
  apply st_try_inv in E as (x2 & w2 & E2 & E). apply exists_account_inv in E2 as ->.
  apply st_try_inv in E as (n & w3 & _ & E). destruct (0 <? n) eqn:Hn; [|discriminate].
  apply st_try_inv in E as (x3 & w4 & E3 & E). apply exists_account_inv in E3 as ->.
  destruct (negb x3); cbv beta iota in E; apply st_try_inv in E as (x4 & w5 & E4 & E);
    apply st_try_inv in E as (cost & w6 & _ & E); apply st_ok_inv in E as [E _];
    injection E as ->; destruct (negb x4);
    [eexists [_; _], n | eexists [_], n | eexists [_], n | eexists [], n];
    (split; [lia|]); (split; [done|]); (split; [reflexivity|]); repeat constructor; by eexists.
Qed.

Lemma sell_step_shape b p swap w s w' :
  sell_step b p swap w = (Some (Ok (Some s)), w') ->
  exists create, 0 < s.(token_cost) /\
    s.(step_ixs) = create ++
      [SplSyncNative b.(sniper_wsol_ata);
       make_swap_fixed_in_instruction
         (swap_params swap.(keys) (swap_user_keys b swap) s.(token_cost) swap.(min_amount_out))
         swap.(keys).(lk_version);
       SplCloseAccount b.(sniper_wsol_ata) b.(fee_payer_pubkey) b.(sniper_pubkey)] /\
    Forall (fun ix => exists m, ix = CreateAssociatedTokenAccount b.(fee_payer_pubkey)
                                       b.(sniper_pubkey) m) create.
Proof.
  unfold sell_step. intros E. cbn zeta in E.
  match type of E with context [0 <? ?n] => destruct (0 <? n) eqn:Hn; [|discriminate] end.
  try_step. try_step. try_all. step_result. cbn [step_ixs token_cost]. match goal with |- context [negb ?x] => destruct (negb x) end;
    [exists [CreateAssociatedTokenAccount (fee_payer_pubkey b) (sniper_pubkey b) WSOL_MINT_PUBKEY]
    | exists []]; (split; [lia|]); (split; [reflexivity|]); repeat constructor; by eexists.
Qed.

(** The four kinds of step. *)
Inductive step_kind (b : Build) (p : Pointers) (s : Step) (w w' : World)
    : SolanaActionPayload -> Prop :=
| kind_sol t : asset t = Sol -> sol_transfer b p t w = (Some (Ok (Some s)), w') ->
    step_kind b p s w w' (TransferPayload t)
| kind_token t m : asset t = Token m -> token_transfer b p t m w = (Some (Ok (Some s)), w') ->
    step_kind b p s w w' (TransferPayload t)
| kind_buy swap : swap_method swap = BuyTokensForExactSol ->
    lk_base_mint (keys swap) <> WSOL_MINT_PUBKEY -> lk_quote_mint (keys swap) = WSOL_MINT_PUBKEY ->
    buy_step b p swap w = (Some (Ok (Some s)), w') -> step_kind b p s w w' (SwapPayload swap)
| kind_sell swap : swap_method swap = SellExactTokensForSol ->
    lk_base_mint (keys swap) <> WSOL_MINT_PUBKEY -> lk_quote_mint (keys swap) = WSOL_MINT_PUBKEY ->
    sell_step b p swap w = (Some (Ok (Some s)), w') -> step_kind b p s w w' (SwapPayload swap).

Lemma build_step_kind b p step w s w' :
  build_step b p step w = (Some (Ok (Some s)), w') -> step_kind b p s w w' step.
Proof.
  unfold build_step. destruct step as [swap|t].
  - destruct (Z.eqb_spec (lk_base_mint (keys swap)) WSOL_MINT_PUBKEY); cbn; [discriminate|].
    destruct (Z.eqb_spec (lk_quote_mint (keys swap)) WSOL_MINT_PUBKEY); cbn; [|discriminate].
    destruct (swap_method swap) eqn:Em; intros E; [by apply kind_buy | by apply kind_sell].
  - destruct (asset t) eqn:Ea; intros E; [by apply kind_sol | by eapply kind_token].
Qed.

(** ** Who pays *)

(** Every instruction spends the sniper's lamports and tokens, or is paid by the
    fee payer; what closing an account frees goes to the fee payer. *)
Definition authorised (b : Build) (ix : Instruction) : Prop :=
  match ix with
  | SystemTransfer from _ _ => from = b.(sniper_pubkey)
  | CreateAssociatedTokenAccount funder _ _ => funder = b.(fee_payer_pubkey)
  | SplTransfer source _ o _ => source = b.(sniper_token_ata) /\ o = b.(sniper_pubkey)
  | SplCloseAccount account dest o =>
      (account = b.(sniper_token_ata) \/ account = b.(sniper_wsol_ata)) /\
      dest = b.(fee_payer_pubkey) /\ o = b.(sniper_pubkey)
  | SplSyncNative account => account = b.(sniper_wsol_ata)
  | SwapInstruction _ accounts _ =>
      (meta_pubkey <$> base.filter (fun m => is_signer m = true) accounts) = [b.(sniper_pubkey)]
  | SetComputeUnitLimit _ | SetComputeUnitPrice _ => False
  end.

Lemma swap_authorised b keys u n m v :
  owner u = sniper_pubkey b ->
  authorised b (make_swap_fixed_in_instruction (swap_params keys u n m) v).
Proof. intros Hu. unfold make_swap_fixed_in_instruction, authorised. rewrite <- Hu. clear Hu.
  destruct (v =? 4), (v =? 5); reflexivity. Qed.

Lemma swap_user_keys_owner b swap : owner (swap_user_keys b swap) = sniper_pubkey b.
Proof. unfold swap_user_keys. by destruct (swap_method swap), (_ =? _). Qed.

Lemma swap_and_close_authorised b swap n m v :
  Forall (authorised b)
    [make_swap_fixed_in_instruction (swap_params swap.(keys) (swap_user_keys b swap) n m) v;
     SplCloseAccount b.(sniper_wsol_ata) b.(fee_payer_pubkey) b.(sniper_pubkey)].
Proof.
  apply Forall_cons; split; [apply swap_authorised, swap_user_keys_owner|].
  apply Forall_singleton. split; [by right | done].
Qed.

Lemma optional_authorised b x l : authorised b x -> optional x l -> Forall (authorised b) l.
Proof. by intros Hx [-> | ->]; repeat constructor. Qed.

Lemma creates_authorised b l :
  Forall (fun ix => exists m, ix = CreateAssociatedTokenAccount b.(fee_payer_pubkey)
                                       b.(sniper_pubkey) m) l -> Forall (authorised b) l.
Proof. intros Hl. eapply Forall_impl; [exact Hl|]. by intros ? [m ->]. Qed.

Lemma build_step_authorised b p step w s w' :
  step_kind b p s w w' step -> Forall (authorised b) s.(step_ixs).
Proof.
  intros E. destruct E as [t _ Ek|t m _ Ek|swap _ _ _ Ek|swap _ _ _ Ek].
  - apply sol_transfer_shape in Ek as (n & -> & _). by repeat constructor.
  - apply token_transfer_shape in Ek as (create & close & _ & -> & Hc & Hd).
    repeat (apply Forall_app; split); [by eapply optional_authorised; [|exact Hc] | by repeat constructor |].
    eapply optional_authorised; [|exact Hd]. cbn [authorised].
    split; [by left|]. by split.
  - apply buy_step_shape in Ek as (create & n & _ & _ & -> & Hc).
    apply Forall_app; split; [by apply creates_authorised|].
    apply Forall_cons; split; [done|]. apply Forall_cons; split; [done|].
    by apply swap_and_close_authorised.
  - apply sell_step_shape in Ek as (create & _ & -> & Hc).
    apply Forall_app; split; [by apply creates_authorised|].
    apply Forall_cons; split; [done|]. by apply swap_and_close_authorised.
Qed.

(** ** The whole action *)

Lemma account_step_inv b p s w p' w' :
  account_step b p s w = (Some (Ok p'), w') ->
  p'.(action_ixs) = p.(action_ixs) ++ s.(step_ixs) /\
  s.(token_cost) <= p.(token_balance_pointer) /\
  sub_u64 p.(token_balance_pointer) s.(token_cost) = Some p'.(token_balance_pointer) /\
  p'.(tx_fee_pointer) = 0.
Proof.
  unfold account_step. intros E. destruct (_ <? _) eqn:Hc; [by try_all|].
  apply st_try_inv in E as (paid & w1 & _ & E). apply st_try_inv in E as (sol & w2 & _ & E).
  apply st_try_inv in E as (tokens & w3 & Et & E). apply u64_inv in Et as [Et ->].
  apply st_try_inv in E as (keep & w4 & _ & E). apply st_ok_inv in E as [-> _]. cbn.
  split_and!; [done | lia | done | done].
Qed.

(** Induction over the loop: [P] relates the pointers before and after a step. *)
Lemma build_steps_ind (P : Pointers -> Prop) b payload :
  (forall p step s p' w w' w'', step ∈ payload -> P p ->
     step_kind b p s w w' step -> account_step b p s w' = (Some (Ok p'), w'') -> P p') ->
  forall p w p' w', P p -> build_steps b p payload w = (Some (Ok p'), w') -> P p'.
Proof.
  induction payload as [|step payload IH]; intros Hstep p w p' w' Hp E.
  { by apply st_ok_inv in E as [-> _]. }
  cbn [build_steps] in E. apply st_try_inv in E as (so & w1 & E1 & E).
  assert (Hrest : forall p step s p' w w' w'', step ∈ payload -> P p ->
     step_kind b p s w w' step -> account_step b p s w' = (Some (Ok p'), w'') -> P p')
    by (intros; eapply Hstep; [by right | done..]).
  destruct so as [s|]; [|by eapply IH].
  apply st_try_inv in E as (p1 & w2 & E2 & E). eapply IH; [exact Hrest | | exact E].
  eapply Hstep; [by left | exact Hp | by apply build_step_kind | exact E2].
Qed.

Lemma build_instructions_inv action price cu w bal ixs w' :
  build_instructions action price cu w = (Some (Ok (bal, ixs)), w') ->
  let tokens := get_tokens_used_in_tx action.(action_payload) in
  exists b p w1,
    build_steps b (mk_pointers [] (sol_balance b) (tx_fee b) (token_balance b) 0)
      action.(action_payload) w1 = (Some (Ok p), w') /\ ixs = p.(action_ixs) /\
    sniper_pubkey b = pubkey action.(sniper) /\ fee_payer_pubkey b = pubkey action.(fee_payer) /\
    sniper_token_ata b = ata (pubkey action.(sniper)) (default 0 (head (elements tokens))) /\
    sniper_wsol_ata b = ata (pubkey action.(sniper)) WSOL_MINT_PUBKEY /\
    sol bal = sol_balance b /\ Types.token bal = gset_to_gmap (token_balance b) tokens /\
    (size tokens <= 1)%nat /\ (exists w2 w3, compute_tx_fee price cu w2 = (Some (Ok (tx_fee b)), w3)) /\
    tx_fee b <= sol_balance b.
Proof.
  unfold build_instructions. intros E. cbn zeta in E |- *.
  apply st_try_inv in E as (solr & w1 & _ & E). destruct (_ =? 0) eqn:Hz; [discriminate|].
  destruct (1 <? size _)%nat eqn:Hs; [discriminate|]. apply Nat.ltb_ge in Hs.
  apply st_try_inv in E as (tokr & w2 & _ & E).
  apply st_try_inv in E as (fee & w3 & Ef & E). destruct (_ <? fee) eqn:Hf; [discriminate|].
  apply st_try_inv in E as (p & w4 & Eb & E). apply st_ok_inv in E as [E ->]. injection E as -> ->.
  eexists _, p, w3. split; [exact Eb|]. cbn. split_and!; try done; [by eauto | lia].
Qed.

(** An action only spends its own wallet.  Every instruction built moves
    lamports or tokens of the action's sniper with the sniper's signature, or
    creates an account at the fee payer's expense; the accounts closed are the
    sniper's and what they free goes to the fee payer. *)
Theorem action_spends_own_wallet action price cu w bal ixs w' :
  build_instructions action price cu w = (Some (Ok (bal, ixs)), w') ->
  exists b m, sniper_pubkey b = pubkey action.(sniper) /\
    fee_payer_pubkey b = pubkey action.(fee_payer) /\
    sniper_token_ata b = ata (pubkey action.(sniper)) m /\
    sniper_wsol_ata b = ata (pubkey action.(sniper)) WSOL_MINT_PUBKEY /\
    Forall (authorised b) ixs.
Proof.
  intros E. destruct (build_instructions_inv _ _ _ _ _ _ _ E)
    as (b & p & w1 & Eb & -> & Hs & Hf & Ht & Hw & _). exists b. eexists. split_and!; [done..|].
  eapply (build_steps_ind (fun p => Forall (authorised b) p.(action_ixs))); [| |exact Eb]; [|constructor].
  intros p0 step s p1 wa wb wc _ Hp Hk Ha. destruct (account_step_inv _ _ _ _ _ _ Ha) as [-> _].
  apply Forall_app. split; [done|]. by eapply build_step_authorised.
Qed.

(** ** Where the money goes *)

(** A wallet of [W], or an associated token account of one. *)
Definition account_in (W : Pubkey -> Prop) (acc : Pubkey) : Prop :=
  W acc \/ exists wallet mint, W wallet /\ acc = ata wallet mint.

(** The instruction moves money between accounts of [W], or swaps on the pool from
    an account of [W] into another. *)
Definition keeps_funds (pool : RaydiumPool) (W : Pubkey -> Prop) (ix : Instruction) : Prop :=
  match ix with
  | SystemTransfer from to _ => W from /\ account_in W to
  | CreateAssociatedTokenAccount funder wallet _ => W funder /\ W wallet
  | SplTransfer source destination owner _ =>
      account_in W source /\ account_in W destination /\ W owner
  | SplCloseAccount account destination owner => account_in W account /\ W destination /\ W owner
  | SplSyncNative account => account_in W account
  | SwapInstruction _ _ _ =>
      exists u n m, ix = make_swap_fixed_in_instruction (swap_params (to_liquidity_keys pool) u n m)
                           pool.(version) /\
        account_in W u.(token_account_in) /\ account_in W u.(token_account_out) /\ W u.(owner)
  | SetComputeUnitLimit _ | SetComputeUnitPrice _ => False
  end.

(** The wallets and accounts an action is built with. *)
Record built_in (W : Pubkey -> Prop) (b : Build) : Prop := {
  bi_sniper : W b.(sniper_pubkey);
  bi_payer : W b.(fee_payer_pubkey);
  bi_token : account_in W b.(sniper_token_ata);
  bi_wsol : account_in W b.(sniper_wsol_ata);
}.

Lemma swap_keeps_funds pool W b swap n m :
  built_in W b -> swap.(keys) = to_liquidity_keys pool ->
  keeps_funds pool W (make_swap_fixed_in_instruction
    (swap_params swap.(keys) (swap_user_keys b swap) n m) swap.(keys).(lk_version)).
Proof.
  intros [] Hk. rewrite Hk. exists (swap_user_keys b swap), n, m. split; [reflexivity|].
  unfold swap_user_keys. by destruct (swap_method swap), (_ =? _).
Qed.

Lemma optional_Forall {A} (P : A -> Prop) x l : P x -> optional x l -> Forall P l.
Proof. by intros Hx [-> | ->]; repeat constructor. Qed.

Lemma build_step_keeps_funds pool W b p step w s w' :
  built_in W b -> stays_in pool W step -> step_kind b p s w w' step ->
  Forall (keeps_funds pool W) s.(step_ixs).
Proof.
  intros Hb Hs E. pose proof Hb as [].
  assert (Hclose : keeps_funds pool W (SplCloseAccount b.(sniper_wsol_ata) b.(fee_payer_pubkey) b.(sniper_pubkey)))
    by done.
  destruct E as [t _ Ek|t m _ Ek|swap _ _ _ Ek|swap _ _ _ Ek]; cbn in Hs.
  - apply sol_transfer_shape in Ek as (n & -> & _). apply Forall_singleton. split; [done | by left].
  - apply token_transfer_shape in Ek as (create & close & _ & -> & Hc & Hd).
    repeat (apply Forall_app; split); [by eapply optional_Forall; [|exact Hc] | |
      by eapply optional_Forall; [|exact Hd]].
    apply Forall_singleton. split; [done|]. split; [right; eexists _, _; split; [exact Hs | reflexivity] | done].
  - apply buy_step_shape in Ek as (create & n & _ & _ & -> & Hc). apply Forall_app. split.
    { eapply Forall_impl; [exact Hc|]. by intros ? [m ->]. }
    do 2 (apply Forall_cons; split; [done|]).
    apply Forall_cons; split; [by apply swap_keeps_funds | by apply Forall_singleton].
  - apply sell_step_shape in Ek as (create & _ & -> & Hc). apply Forall_app. split.
    { eapply Forall_impl; [exact Hc|]. by intros ? [m ->]. }
    apply Forall_cons; split; [done|].
    apply Forall_cons; split; [by apply swap_keeps_funds | by apply Forall_singleton].
Qed.

(** What is built from an action of the fleet keeps the money in the fleet. *)
Lemma owned_keeps_funds pool main W action price cu w bal ixs w' :
  owned pool main W action -> W main ->
  build_instructions action price cu w = (Some (Ok (bal, ixs)), w') ->
  Forall (keeps_funds pool W) ixs.
Proof.
  intros [Hs Hf Hp _] Hm E. destruct (build_instructions_inv _ _ _ _ _ _ _ E)
    as (b & p & w1 & Eb & -> & Hbs & Hbf & Hbt & Hbw & _).
  assert (Hb : built_in W b).
  { constructor; rewrite ?Hbs, ?Hbf, ?Hbt, ?Hbw; [exact Hs | by destruct Hf as [-> | ->] | |];
      right; eexists _, _; (split; [exact Hs | reflexivity]). }
  eapply (build_steps_ind (fun p => Forall (keeps_funds pool W) p.(action_ixs))); [| |exact Eb]; [|constructor].
  intros p0 step s p1 wa wb wc Hin Hp0 Hk Ha. destruct (account_step_inv _ _ _ _ _ _ Ha) as [-> _].
  apply Forall_app. split; [done|]. eapply build_step_keeps_funds; [done | | exact Hk].
  rewrite Forall_forall in Hp. by apply Hp.
Qed.

(** C1. The funds of a volume strategy stay in its fleet.  Whatever instructions the
    executors build for an action that a started strategy hands out, at whatever
    prices and balances, they move lamports and tokens between wallets of the
    strategy's fleet and their token accounts, the user's wallet being one of them,
    or swap, from one account of the fleet into another, on the strategy's pool. *)
Theorem strategy_funds_stay_in_fleet `{StatigDriver} (pool : RaydiumPool) (user_key : KeypairClonable)
    (i : Volume.VolumeStrategyInstance) (f0 f1 : Fleet) (p q q' : Statig.Sm Volume.State * Volume.Env)
    (event : BotEvent) (refs : list ActionRef) :
  f0.(cells) = ∅ -> f0.(fleet_queue) = [] -> f0.(tasks) = [] ->
  Volume.new (Some pool) (Some (Some user_key)) i f0 = (Some (Some p), f1) ->
  Volume.reachable p q -> Volume.process_event event q = (Some refs, q') ->
  let W := owns (Volume.fleet (snd q')) in
  W user_key /\
  Forall (fun r => exists a, (fleet_world (Volume.fleet (snd q'))).(heap) !! r = Some a /\
    forall price cu w bal ixs w',
      build_instructions a price cu w = (Some (Ok (bal, ixs)), w') ->
      Forall (keeps_funds pool W) ixs) refs.
Proof.
  intros Hc Hq Ht Hnew Hr He W.
  pose proof (new_strategy_ok _ _ _ _ _ _ Hc Hq Ht Hnew) as Hp.
  pose proof (reachable_ok _ _ _ _ _ Hp Hr) as Hok.
  destruct (process_event_ok _ _ _ event q Hok) as [Hok' Ho].
  rewrite He in Ho, Hok'. specialize (Ho refs eq_refl). cbn in Ho, Hok'.
  assert (Hu : W user_key) by (eapply fleet_ok_owns_main, (st_fleet _ _ _ _ Hok')).
  split; [exact Hu|]. eapply Forall_impl; [exact Ho|]. intros r (_ & a & Ha & Hown).
  exists a. split; [exact Ha|]. intros *. by eapply owned_keeps_funds.
Qed.

(** ** Tokens *)

(** The account a swap takes tokens from. *)
Definition swap_source (accounts : list AccountMeta) : option Pubkey :=
  meta_pubkey <$> (accounts !! (length accounts - 3)%nat).

(** The tokens an instruction takes out of the account [acc]. *)
Definition tokens_out (acc : Pubkey) (ix : Instruction) : Z :=
  match ix with
  | SplTransfer source _ _ n => if source =? acc then n else 0
  | SwapInstruction _ accounts data =>
      if bool_decide (swap_source accounts = Some acc) then data.(data_amount_in) else 0
  | _ => 0
  end.

Definition total_out (acc : Pubkey) (ixs : list Instruction) : Z := sum_list_Z (tokens_out acc <$> ixs).

Lemma total_out_app acc l1 l2 : total_out acc (l1 ++ l2) = total_out acc l1 + total_out acc l2.
Proof. unfold total_out. by rewrite fmap_app, sum_list_Z_app. Qed.

Lemma swap_tokens_out acc b swap n m v :
  tokens_out acc (make_swap_fixed_in_instruction (swap_params swap.(keys) (swap_user_keys b swap) n m) v)
  = if token_account_in (swap_user_keys b swap) =? acc then n else 0.
Proof.
  unfold make_swap_fixed_in_instruction, tokens_out.
  assert (Hsrc : forall l1 l2 l3 l4 l5 x y z, swap_source (l1 ++ l2 ++ l3 ++ l4 ++ l5 ++ [x; y; z])
    = Some (meta_pubkey x)).
  { intros. unfold swap_source. rewrite !app_assoc, length_app. cbn.
    rewrite Nat.add_sub, list_lookup_middle by done. done. }
  match goal with |- context [swap_source (?a ++ ?v4 ++ ?c ++ ?v5 ++ ?e)] =>
    change e with (take 8 e ++ drop 8 e) end.
  cbn [take drop]. rewrite Hsrc. cbn. by destruct (Z.eqb_spec (token_account_in (swap_user_keys b swap)) acc) as [->|];
    [rewrite bool_decide_true | rewrite bool_decide_false by congruence].
Qed.

Lemma optional_out acc x l : tokens_out acc x = 0 -> optional x l -> total_out acc l = 0.
Proof. intros Hx [-> | ->]; unfold total_out; cbn; [done|]. rewrite Hx. done. Qed.

Lemma creates_out acc b l :
  Forall (fun ix => exists m, ix = CreateAssociatedTokenAccount b.(fee_payer_pubkey)
                                       b.(sniper_pubkey) m) l -> total_out acc l = 0.
Proof.
  intros Hl. induction Hl as [|ix l [m ->] _ IH]; [done|]. unfold total_out in *.
  rewrite fmap_cons, sum_list_Z_cons, IH. done.
Qed.

Lemma swap_account_in b swap :
  lk_base_mint (keys swap) <> WSOL_MINT_PUBKEY ->
  token_account_in (swap_user_keys b swap) =
  match swap_method swap with
  | BuyTokensForExactSol => sniper_wsol_ata b
  | SellExactTokensForSol => sniper_token_ata b
  end.
Proof.
  intros Hb. unfold swap_user_keys.
  destruct (Z.eqb_spec (lk_base_mint (keys swap)) WSOL_MINT_PUBKEY); [done|].
  by destruct (swap_method swap).
Qed.

(** What a step takes out of the sniper's token account is its token cost. *)
Lemma step_tokens_out b p s w w' step :
  step_kind b p s w w' step ->
  (forall swap, step = SwapPayload swap -> lk_base_mint (keys swap) <> WSOL_MINT_PUBKEY ->
     sniper_token_ata b <> sniper_wsol_ata b) ->
  total_out (sniper_token_ata b) s.(step_ixs) = s.(token_cost).
Proof.
  intros [t _ Ek|t m _ Ek|swap Hm Hb _ Ek|swap Hm Hb _ Ek] Hne.
  - apply sol_transfer_shape in Ek as (n & -> & ->). done.
  - apply token_transfer_shape in Ek as (create & close & _ & -> & Hc & Hd).
    rewrite !total_out_app, (fun H => optional_out _ _ _ H Hc), (fun H => optional_out _ _ _ H Hd) by done.
    unfold total_out. cbn. rewrite Z.eqb_refl. unfold sum_list_Z. cbn. lia.
  - apply buy_step_shape in Ek as (create & n & _ & -> & -> & Hc).
    rewrite total_out_app, (creates_out _ _ _ Hc). unfold total_out.
    rewrite !fmap_cons, !sum_list_Z_cons, swap_tokens_out, (swap_account_in _ _ Hb), Hm.
    replace (sniper_wsol_ata b =? sniper_token_ata b) with false; [done|].
    symmetry. apply Z.eqb_neq. intros Heq. by apply (Hne swap).
  - apply sell_step_shape in Ek as (create & _ & -> & Hc).
    rewrite total_out_app, (creates_out _ _ _ Hc). unfold total_out.
    rewrite !fmap_cons, !sum_list_Z_cons, swap_tokens_out, (swap_account_in _ _ Hb), Hm, Z.eqb_refl.
    unfold sum_list_Z. cbn. lia.
Qed.

Lemma step_cost_nonneg b p s w w' step : step_kind b p s w w' step -> 0 <= s.(token_cost).
Proof.
  intros [t _ Ek|t m _ Ek|swap _ _ _ Ek|swap _ _ _ Ek].
  - apply sol_transfer_shape in Ek as (n & _ & ->). done.
  - apply token_transfer_shape in Ek as (? & ? & ? & _). lia.
  - apply buy_step_shape in Ek as (? & ? & _ & -> & _). done.
  - apply sell_step_shape in Ek as (? & ? & _). lia.
Qed.

Lemma singleton_tokens (X : gset Pubkey) m :
  m ∈ X -> (size X <= 1)%nat -> default 0 (head (elements X)) = m.
Proof.
  intros Hm Hs. destruct (elements X) as [|x l] eqn:E.
  - exfalso. apply elem_of_elements in Hm. rewrite E in Hm. by apply elem_of_nil in Hm.
  - unfold size, set_size in Hs. cbn in Hs. rewrite E in Hs. destruct l; [|cbn in Hs; lia].
    apply elem_of_elements in Hm. rewrite E in Hm. apply list_elem_of_singleton in Hm. by subst.
Qed.

(** C2. No action spends more tokens than its wallet has.  When the instructions
    of an action are built, the transfers and sales among them take at most the
    balance recorded before the action out of the sniper's account of the
    action's token, whatever amounts the payload asks for. *)
Theorem tokens_never_overspent action price cu w bal ixs w' m n :
  build_instructions action price cu w = (Some (Ok (bal, ixs)), w') ->
  Types.token bal !! m = Some n -> is_u64 n ->
  (m <> WSOL_MINT_PUBKEY ->
     ata (pubkey action.(sniper)) m <> ata (pubkey action.(sniper)) WSOL_MINT_PUBKEY) ->
  total_out (ata (pubkey action.(sniper)) m) ixs <= n.
Proof.
  intros E Hn Hu Hata. destruct (build_instructions_inv _ _ _ _ _ _ _ E)
    as (b & p & w1 & Eb & -> & Hs & Hf & Ht & Hw & _ & Htok & Hsz & _).
  rewrite Htok, lookup_gset_to_gmap_Some in Hn. destruct Hn as [Hm <-].
  rewrite (singleton_tokens _ m Hm Hsz) in Ht. rewrite <- Ht.
  enough (Hinv : total_out (sniper_token_ata b) (action_ixs p) + token_balance_pointer p = token_balance b
                 /\ is_u64 (token_balance_pointer p)) by (unfold is_u64 in *; lia).
  eapply (build_steps_ind (fun p =>
    total_out (sniper_token_ata b) (action_ixs p) + token_balance_pointer p = token_balance b /\
    is_u64 (token_balance_pointer p))); [| |exact Eb].
  - intros p0 step s p1 wa wb wc Hin [Hp Hpu] Hk Ha.
    destruct (account_step_inv _ _ _ _ _ _ Ha) as (-> & Hle & Hsub & _).
    pose proof (step_cost_nonneg _ _ _ _ _ _ Hk) as Hc.
    unfold sub_u64 in Hsub. rewrite arith_u64_ok in Hsub by (unfold is_u64 in *; lia).
    injection Hsub as <-. rewrite total_out_app, (step_tokens_out _ _ _ _ _ _ Hk); [unfold is_u64 in *; lia|].
    intros swap -> Hb. rewrite Ht, Hw.
    assert (Hbm : lk_base_mint (keys swap) = m).
    { assert (Hbt : lk_base_mint (keys swap) ∈ get_tokens_used_in_tx (action_payload action)).
      { unfold get_tokens_used_in_tx. apply elem_of_list_to_set, list_elem_of_omap.
        eexists; split; [exact Hin|]. cbn. by destruct (Z.eqb_spec (lk_base_mint (keys swap)) WSOL_MINT_PUBKEY). }
      rewrite <- (singleton_tokens _ _ Hbt Hsz). by apply singleton_tokens. }
    apply Hata. congruence.
  - cbn. unfold total_out. cbn. done.
Qed.

(** ** Lamports *)

Definition exact_transfers (l : list (Pubkey * Z)) : list SolanaActionPayload :=
  (fun rn => TransferPayload {| asset := Sol; receiver := rn.1; amount := Exact rn.2 |}) <$> l.

Lemma u64_ok r z w : r = Some z -> u64 r w = (Some (Ok z), w).
Proof. by intros ->. Qed.

(** The fee, when nothing overflows. *)
Lemma compute_tx_fee_pure price cu w w' fee :
  compute_tx_fee price cu w = (Some (Ok fee), w') ->
  w' = w /\ forall v, compute_tx_fee price cu v = (Some (Ok fee), v).
Proof.
  unfold compute_tx_fee. intros E. apply st_try_inv in E as (x & w1 & E1 & E).
  apply u64_inv in E1 as [E1 ->]. apply st_try_inv in E as (y & w2 & E2 & E).
  apply u64_inv in E2 as [E2 ->]. apply u64_inv in E as [E ->]. split; [done|]. intros v.
  rewrite (st_try_Ok _ _ _ _ _ (u64_ok _ _ v E1)), (st_try_Ok _ _ _ _ _ (u64_ok _ _ v E2)).
  by apply u64_ok.
Qed.

(** An exact transfer is built and accounted for whatever is left. *)
Lemma exact_transfer_step b p r n w :
  0 < n -> n + tx_fee_pointer p < 2 ^ 64 -> 0 <= tx_fee_pointer p ->
  is_u64 (sol_balance_pointer p) -> is_u64 (token_balance_pointer p) ->
  is_u64 (min_sol_to_keep_after_pointer p) ->
  (0 < tx_fee_pointer p -> 0 <= tx_fee b <= sol_balance_pointer p) ->
  exists p', (s <-! build_step b p (TransferPayload {| asset := Sol; receiver := r; amount := Exact n |}) ;;
              match s with None => st_ok p | Some s => account_step b p s end) w = (Some (Ok p'), w) /\
    action_ixs p' = action_ixs p ++ [SystemTransfer (sniper_pubkey b) r n] /\
    tx_fee_pointer p' = 0 /\ is_u64 (sol_balance_pointer p') /\ is_u64 (token_balance_pointer p') /\
    is_u64 (min_sol_to_keep_after_pointer p').
Proof.
  intros Hn Hf Hf0 Hs Ht Hk Hfee. unfold build_step, sol_transfer. cbn [asset amount receiver].
  replace (0 <? n) with true by lia. unfold add_u64. unfold st_try at 1, st_bind.
  rewrite (st_try_Ok _ _ _ _ _ (u64_ok _ _ w (arith_u64_ok (n + tx_fee_pointer p) ltac:(unfold is_u64; lia)))).
  cbn [st_ok st_ret]. unfold account_step. cbn [token_cost sol_cost min_sol_to_keep_after step_ixs].
  unfold is_u64 in *. replace (token_balance_pointer p <? 0) with false by lia.
  assert (Hpaid : exists paid, (if 0 <? tx_fee_pointer p
      then u64 (sub_u64 (sol_balance_pointer p) (tx_fee b)) else st_ok (sol_balance_pointer p)) w
      = (Some (Ok paid), w) /\ 0 <= paid < 2 ^ 64).
  { destruct (Z.ltb_spec 0 (tx_fee_pointer p)) as [Hlt|].
    - specialize (Hfee Hlt). unfold sub_u64. eexists. split;
        [apply u64_ok, arith_u64_ok; unfold is_u64; lia | lia].
    - by eexists. }
  destruct Hpaid as (paid & Ep & Hpaid). rewrite (st_try_Ok _ _ _ _ _ Ep).
  assert (Hsol : exists sol, (if n + tx_fee_pointer p <? paid
      then u64 (sub_u64 paid (n + tx_fee_pointer p)) else st_ok 0) w = (Some (Ok sol), w) /\
      0 <= sol < 2 ^ 64).
  { destruct (Z.ltb_spec (n + tx_fee_pointer p) paid).
    - unfold sub_u64. eexists. split; [apply u64_ok, arith_u64_ok; unfold is_u64; lia | lia].
    - eexists. split; [reflexivity | lia]. }
  destruct Hsol as (sol & Es & Hsol). rewrite (st_try_Ok _ _ _ _ _ Es).
  unfold sub_u64, add_u64.
  rewrite (st_try_Ok _ _ _ _ _ (u64_ok _ _ w (arith_u64_ok (token_balance_pointer p - 0) ltac:(unfold is_u64; lia)))).
  rewrite (st_try_Ok _ _ _ _ _ (u64_ok _ _ w (arith_u64_ok (min_sol_to_keep_after_pointer p + 0) ltac:(unfold is_u64; lia)))).
  eexists. split; [reflexivity|]. cbn. split_and!; try done; lia.
Qed.

Lemma build_steps_cons b p step rest w p' w' :
  (s <-! build_step b p step ;;
   match s with None => st_ok p | Some s => account_step b p s end) w = (Some (Ok p'), w') ->
  build_steps b p (step :: rest) w = build_steps b p' rest w'.
Proof.
  intros E. apply st_try_inv in E as (so & w1 & E1 & E). cbn [build_steps].
  rewrite (st_try_Ok _ _ _ _ _ E1). destruct so as [s|]; [by rewrite (st_try_Ok _ _ _ _ _ E)|].
  by apply st_ok_inv in E as [-> ->].
Qed.

Lemma exact_transfers_built b l p w :
  Forall (fun rn => 0 < rn.2 /\ rn.2 + tx_fee b < 2 ^ 64) l ->
  (tx_fee_pointer p = 0 \/ tx_fee_pointer p = tx_fee b /\ tx_fee b <= sol_balance_pointer p) ->
  0 <= tx_fee b ->
  is_u64 (sol_balance_pointer p) -> is_u64 (token_balance_pointer p) ->
  is_u64 (min_sol_to_keep_after_pointer p) ->
  exists p', build_steps b p (exact_transfers l) w = (Some (Ok p'), w) /\
    action_ixs p' = action_ixs p ++ ((fun rn => SystemTransfer (sniper_pubkey b) rn.1 rn.2) <$> l).
Proof.
  intros Hl. revert p. induction Hl as [|[r n] l [Hn Hf] _ IH]; intros p Hfp Hb Hs Ht Hk.
  { exists p. cbn. by rewrite app_nil_r. }
  cbn [fst snd] in Hn, Hf.
  destruct (exact_transfer_step b p r n w) as (p1 & E1 & Hix & Hz & Hs1 & Ht1 & Hk1);
    [done | lia | lia | done.. | lia |].
  destruct (IH p1) as (p' & E & Hix'); [by left | done..|].
  exists p'. unfold exact_transfers. rewrite fmap_cons. rewrite (build_steps_cons _ _ _ _ _ _ _ E1).
  split; [exact E|]. rewrite Hix', Hix. by rewrite <- app_assoc.
Qed.

(** Lamports are not checked.  A list of exact SOL transfers is built as
    asked, every one in order, as soon as the wallet's balance covers the fee of
    the transaction, however much more than the balance their sum is. *)
Theorem sol_transfers_unchecked action price cu w l n fee w1 tok w2 :
  action.(action_payload) = exact_transfers l ->
  get_balance (pubkey action.(sniper)) w = (Some (Ok n), w1) -> is_u64 n ->
  compute_tx_fee price cu w = (Some (Ok fee), w) -> 0 < fee <= n ->
  Forall (fun rn => 0 < rn.2 /\ rn.2 + fee < 2 ^ 64) l ->
  get_token_balance (pubkey action.(sniper)) 0 w1 = (Some tok, w2) -> is_u64 (or_zero tok) ->
  exists bal w', build_instructions action price cu w
    = (Some (Ok (bal, (fun rn => SystemTransfer (pubkey action.(sniper)) rn.1 rn.2) <$> l)), w') /\
    sol bal = n.
Proof.
  intros Hp Hbal Hn Hfee Hle Hl Htok Hu. unfold build_instructions.
  assert (Htokens : get_tokens_used_in_tx (action_payload action) = ∅).
  { rewrite Hp. clear. unfold get_tokens_used_in_tx, exact_transfers.
    induction l as [|rn l IH]; [done|]. exact IH. }
  rewrite Htokens. cbn zeta.
  assert (E1 : @st_lift World ExecutionError _ (get_balance (pubkey (sniper action))) w = (Some (Ok (Ok n)), w1))
    by (unfold st_lift, st_bind; by rewrite Hbal).
  rewrite (st_try_Ok _ _ _ _ _ E1). cbn [or_zero].
  replace (n =? 0) with false by lia. rewrite size_empty, elements_empty. cbn [Nat.ltb Nat.leb head default].
  assert (E2 : @st_lift World ExecutionError _ (get_token_balance (pubkey (sniper action)) 0) w1 = (Some (Ok tok), w2))
    by (unfold st_lift, st_bind; by rewrite Htok).
  rewrite (st_try_Ok _ _ _ _ _ E2).
  destruct (compute_tx_fee_pure _ _ _ _ _ Hfee) as [_ Hfee'].
  rewrite (st_try_Ok _ _ _ _ _ (Hfee' w2)). replace (n <? fee) with false by lia.
  match goal with |- context [build_steps ?b ?p _] => set (b0 := b); set (p0 := p) end.
  destruct (exact_transfers_built b0 l p0 w2) as (p' & E & Hix);
    [done | right; cbn; split; [done | lia] | cbn; lia | done | done | unfold is_u64; cbn; lia |].
  rewrite Hp. rewrite (st_try_Ok _ _ _ _ _ E). rewrite Hix. by eexists _, _.
Qed.

(** A transfer of all lamports is always among the instructions, and sends the
    whole balance. *)
Lemma max_transfer_built b payload r p w p' w' :
  TransferPayload {| asset := Sol; receiver := r; amount := Max |} ∈ payload ->
  build_steps b p payload w = (Some (Ok p'), w') ->
  SystemTransfer (sniper_pubkey b) r (sol_balance b) ∈ action_ixs p'.
Proof.
  assert (Hkeep : forall ix rest q v q' v', ix ∈ action_ixs q ->
      build_steps b q rest v = (Some (Ok q'), v') -> ix ∈ action_ixs q').
  { intros ix rest q v q' v' Hin. apply (build_steps_ind (fun q => ix ∈ action_ixs q)); [|done].
    intros q0 step s q1 wa wb wc _ Hq _ Ha. destruct (account_step_inv _ _ _ _ _ _ Ha) as [-> _].
    apply elem_of_app. by left. }
  revert p w. induction payload as [|step payload IH]; intros p w Hin E; [by apply elem_of_nil in Hin|].
  cbn [build_steps] in E. apply st_try_inv in E as (so & w1 & E1 & E).
  apply elem_of_cons in Hin as [<- | Hin].
  - unfold build_step, sol_transfer in E1. cbn [asset amount receiver] in E1.
    apply st_try_inv in E1 as (cost & w2 & _ & E1). apply st_ok_inv in E1 as [-> ->].
    apply st_try_inv in E as (p1 & w3 & Ea & E). eapply Hkeep; [|exact E].
    destruct (account_step_inv _ _ _ _ _ _ Ea) as [-> _]. apply elem_of_app. right. by left.
  - destruct so as [s|]; [|by eapply IH]. apply st_try_inv in E as (p1 & w2 & _ & E). by eapply IH.
Qed.

(** An order of the sweeper cannot be executed.  What an agent is told to
    send to the main wallet becomes an action the agent pays for itself, and
    whenever its instructions are built they transfer the agent's whole balance,
    leaving nothing for the fee of the transaction. *)
Theorem sweep_order_overspends (mint receiver_ tokens : Z) (e : Agent.Env) price cu :
  exists e' act, Agent.transfer (Sweeper.sweep_transfers mint receiver_ tokens) e = (Some tt, e') /\
    attempted e e' act /\ fee_payer act = sniper act /\
    forall w bal ixs w', build_instructions act price cu w = (Some (Ok (bal, ixs)), w') ->
      SystemTransfer (pubkey act.(sniper)) receiver_ (sol bal) ∈ ixs.
Proof.
  destruct (agent_entry_attempt (Agent.Transferring (Sweeper.sweep_transfers mint receiver_ tokens) 0) e)
    as (e' & act & E & Hat & Hp & Hf); [done | done |].
  cbn [asks_for pays] in Hp, Hf. exists e', act. split; [exact E|]. split; [done|].
  assert (Hnc : existsb Agent.is_close_sol (Sweeper.sweep_transfers mint receiver_ tokens) = false)
    by (unfold Sweeper.sweep_transfers; by destruct (0 <? tokens)).
  rewrite Hnc in Hf. destruct Hat. split; [congruence|].
  intros w bal ixs w' Eb. destruct (build_instructions_inv _ _ _ _ _ _ _ Eb)
    as (b & p & w1 & Es & -> & Hs & _ & _ & _ & Hsol & _).
  rewrite Hsol, <- Hs. eapply max_transfer_built; [|exact Es]. rewrite Hp.
  unfold Sweeper.sweep_transfers. destruct (0 <? tokens); cbn; set_solver.
Qed.

(** ** Purchases *)

(** The lamports a purchase puts into the wrapped account, with the rents of the
    accounts it has to create. *)
Lemma leave_amount b p t c w n w' :
  buy_amount_in b p MaxButLeaveForTransfer t c w = (Some (Ok n), w') ->
  is_u64 (sol_balance_pointer p) -> 0 <= tx_fee_pointer p -> 0 <= tx_fee b -> 0 <= t -> 0 <= c ->
  tx_fee_pointer p + tx_fee b + t + c < 2 ^ 64 ->
  n + tx_fee_pointer p + tx_fee b + t + c = sol_balance_pointer p.
Proof.
  intros E Hs Hp Hb Ht Hc Hlt. unfold buy_amount_in, add_u64, sub_u64, is_u64 in *.
  rewrite (st_try_Ok _ _ _ _ _ (u64_ok _ _ w (arith_u64_ok (tx_fee_pointer p + tx_fee b) ltac:(unfold is_u64; lia)))) in E.
  rewrite (st_try_Ok _ _ _ _ _ (u64_ok _ _ w (arith_u64_ok (tx_fee_pointer p + tx_fee b + t) ltac:(unfold is_u64; lia)))) in E.
  rewrite (st_try_Ok _ _ _ _ _ (u64_ok _ _ w (arith_u64_ok (tx_fee_pointer p + tx_fee b + t + c) ltac:(unfold is_u64; lia)))) in E.
  destruct (Z.ltb_spec (sol_balance_pointer p) (tx_fee_pointer p + tx_fee b + t + c)); [discriminate|].
  apply u64_inv in E as [E _]. rewrite arith_u64_ok in E by (unfold is_u64; lia). injection E as <-. lia.
Qed.

(** A purchase leaves the fee of one more transaction.  When the agents'
    order to buy is built, nothing is left to buy with, or the lamports swapped,
    this transaction's fee, the next one's and the rents of the accounts to
    create add up to the wallet's balance. *)
Theorem buy_leaves_next_fee action price cu w swap bal ixs w' fee :
  action.(action_payload) = [SwapPayload swap] ->
  swap.(swap_method) = BuyTokensForExactSol -> swap.(amount_in) = MaxButLeaveForTransfer ->
  build_instructions action price cu w = (Some (Ok (bal, ixs)), w') ->
  compute_tx_fee price cu w = (Some (Ok fee), w) ->
  is_u64 (sol bal) -> 0 <= fee -> 2 * fee + 2 * RENT_EXEMPTION_THRESHOLD_SOL < 2 ^ 64 ->
  ixs = [] \/
  exists n rent_token rent_wsol,
    SystemTransfer (pubkey action.(sniper)) (ata (pubkey action.(sniper)) WSOL_MINT_PUBKEY) n ∈ ixs /\
    rent_token ∈ [0; RENT_EXEMPTION_THRESHOLD_SOL] /\ rent_wsol ∈ [0; RENT_EXEMPTION_THRESHOLD_SOL] /\
    n + fee + fee + rent_token + rent_wsol = sol bal.
Proof.
  intros Hp Hm Ha Eb Hfee Hu Hf0 Hsmall. destruct (build_instructions_inv _ _ _ _ _ _ _ Eb)
    as (b & p & w1 & Es & -> & Hs & _ & _ & Hw & Hsol & _ & _ & (w2 & w3 & Ef) & _).
  destruct (compute_tx_fee_pure _ _ _ _ _ Hfee) as [_ Hpure].
  assert (Hb : tx_fee b = fee) by (rewrite (Hpure w2) in Ef; congruence). clear Hpure Ef Hfee.
  rewrite Hsol in Hu |- *. rewrite Hp in Es. cbn [build_steps] in Es.
  apply st_try_inv in Es as (so & w4 & Est & Es). destruct so as [s|].
  2: { apply st_ok_inv in Es as [-> _]. by left. }
  right. apply st_try_inv in Es as (p1 & w5 & Eac & Es). apply st_ok_inv in Es as [-> ->].
  destruct (account_step_inv _ _ _ _ _ _ Eac) as [-> _]. cbn [action_ixs app].
  unfold build_step in Est. destruct (negb _); [discriminate|]. rewrite Hm in Est.
  unfold buy_step in Est. rewrite Ha in Est.
  apply st_try_inv in Est as (x1 & w6 & E1 & E). apply exists_account_inv in E1 as ->.
  apply st_try_inv in E as (x2 & w7 & E2 & E). apply exists_account_inv in E2 as ->.
  apply st_try_inv in E as (n & w8 & En & E).
  unfold RENT_EXEMPTION_THRESHOLD_SOL in *.
  apply leave_amount in En; cbn [tx_fee_pointer sol_balance_pointer] in *;
    [|exact Hu | try (destruct (negb x1), (negb x2)); lia ..].
  destruct (0 <? n) eqn:Hn; [|discriminate].
  apply st_try_inv in E as (x3 & w9 & E3 & E). apply exists_account_inv in E3 as ->.
  exists n, (if negb x1 then 2039280 else 0), (if negb x2 then 2039280 else 0).
  split_and!; [|destruct (negb x1); set_solver | destruct (negb x2); set_solver
    | lia].
  destruct (negb x3); cbv beta iota in E; apply st_try_inv in E as (x4 & w10 & E4 & E);
    apply st_try_inv in E as (cost & w11 & _ & E); apply st_ok_inv in E as [E _];
    injection E as ->; rewrite <- Hw, <- Hs; destruct (negb x4); set_solver.
Qed.

(** ** Funding *)

(** A transfer that should include the fee but is below it underflows: under
    overflow checks the executor's task panics, without them an order for almost
    2^64 lamports is built. *)
Theorem transfer_below_fee_underflows b p transfer n w :
  transfer.(amount) = ExactWithFees n -> 0 < n < tx_fee_pointer p -> is_u64 (tx_fee_pointer p) ->
  (overflow_checks = true -> sol_transfer b p transfer w = (None, w)) /\
  (overflow_checks = false ->
   exists s, sol_transfer b p transfer w = (Some (Ok (Some s)), w) /\
     step_ixs s = [SystemTransfer (sniper_pubkey b) transfer.(receiver)
                     (2 ^ 64 - (tx_fee_pointer p - n))]).
Proof.
  intros Ha Hn Hf. unfold sol_transfer. rewrite Ha. replace (0 <? n) with true by lia.
  unfold is_u64 in Hf. split; intros Ho.
  - unfold sub_u64. unfold st_try at 1, st_bind, u64, st_lift, st_bind at 1.
    rewrite arith_u64_overflow; [reflexivity | unfold is_u64; lia | done].
  - unfold sub_u64, add_u64.
    assert (Hw : arith_u64 (n - tx_fee_pointer p) = Some (2 ^ 64 - (tx_fee_pointer p - n))).
    { rewrite arith_u64_unchecked by done. f_equal. unfold wrap_u64.
      replace (n - tx_fee_pointer p) with (2 ^ 64 - (tx_fee_pointer p - n) + (-1) * 2 ^ 64) by lia.
      rewrite Z_mod_plus_full. apply Z.mod_small. lia. }
    rewrite (st_try_Ok _ _ _ _ _ (u64_ok _ _ w Hw)).
    rewrite (st_try_Ok _ _ _ _ _ (u64_ok _ _ w (arith_u64_unchecked _ Ho))). by eexists.
Qed.
End Facts.

(** ** The theorems at concrete actions *)

#[local] Existing Instance sample_ext.
#[local] Existing Instance debug_build.

(** Wallet 7 with one SOL and five tokens of mint 41. *)
Definition rich_world : World :=
  let acc lamports tokens :=
    {| acc_pubkey := 0; acc_lamports := lamports;
       acc_token := Some {| ta_mint := 41; ta_owner := 7; ta_amount := tokens |};
       acc_txn_signature := "" |} in
  set_cache (OperationalCache.set_accounts
    (<[7 := Some (acc 1000000000 0)]> (<[1007041 := Some (acc 0 5)]> ∅)) sample_cache) sample_world.

Definition order (payload : list SolanaActionPayload) : SolanaAction := new_action 1 1000 7 payload.

Definition token_order : SolanaAction := order
  [TransferPayload {| asset := Token 41; receiver := 9; amount := Exact 3 |};
   TransferPayload {| asset := Token 41; receiver := 9; amount := Exact 2 |}].

Definition wsol_pool : RaydiumPool := {|
  pool_id := 40; base_mint := 41; quote_mint := WSOL_MINT_PUBKEY; lp_mint := 43;
  base_decimals := 6; quote_decimals := 9; lp_decimals := 9; version := 4;
  program_id := 44; authority := 45; open_orders := 46; target_orders := 47;
  base_vault := 48; quote_vault := 49; withdraw_queue := 50; lp_vault := 51;
  market_version := 3; market_program_id := 52; market_id := 53; lp_reserve := 0;
  open_time := 0; reverse_pool := false; freeze_authority := None
|}.

Definition buy_order : SolanaAction :=
  order [SwapPayload (new_swap_payload wsol_pool BuyTokensForExactSol MaxButLeaveForTransfer)].

Lemma action_spends_own_wallet_witness :
  exists bal ixs w' b m, build_instructions token_order 3052504 70300 rich_world = (Some (Ok (bal, ixs)), w') /\
    length ixs = 4%nat /\ sniper_pubkey b = 7 /\ sniper_token_ata b = ata 7 m /\ Forall (authorised b) ixs.
Proof.
  destruct (build_instructions token_order 3052504 70300 rich_world) as [o w'] eqn:E.
  assert (Ho : match o with Some (Ok (_, ixs)) => length ixs = 4%nat | _ => False end).
  { replace o with (fst (build_instructions token_order 3052504 70300 rich_world)) by now rewrite E.
    vm_compute. reflexivity. }
  destruct o as [[[bal ixs]|]|]; try contradiction.
  destruct (action_spends_own_wallet _ _ _ _ _ _ _ E) as (b & m & Hs & _ & Ht & _ & Hf).
  exists bal, ixs, w', b, m. split_and!; [reflexivity | exact Ho | exact Hs | exact Ht | exact Hf].
Defined.

(** The first order of a started strategy: two transfers to fresh agents. *)
Lemma strategy_funds_stay_in_fleet_witness :
  exists (q' : Statig.Sm Volume.State * Volume.Env) a ixs,
    (fleet_world (Volume.fleet (snd q'))).(heap) !! 1 = Some a /\
    (exists bal w', build_instructions a 1000 750 rich_world = (Some (Ok (bal, ixs)), w')) /\
    length ixs = 2%nat /\ Forall (keeps_funds sample_pool (owns (Volume.fleet (snd q')))) ixs.
Proof.
  destruct (fst sample_started) as [[p|]|] eqn:E; [| vm_compute in E; discriminate ..].
  set (q := snd (after_heartbeat p)). set (q' := snd (after_heartbeat q)).
  assert (Hx : fst (after_heartbeat q) = Some [1] /\
    exists ixs, length ixs = 2%nat /\ exists bal w',
      (a ← (fleet_world (Volume.fleet (snd q'))).(heap) !! 1;
       Some (build_instructions a 1000 750 rich_world)) = Some (Some (Ok (bal, ixs)), w')).
  { subst q' q. vm_compute in E. injection E as <-. split; [vm_compute; reflexivity|].
    vm_compute. eexists. split; [|eexists _, _; reflexivity]. reflexivity. }
  destruct Hx as (Hr & ixs & Hl & bal & w' & Hb).
  assert (He : after_heartbeat q = (Some [1], q')) by (rewrite <- Hr; apply surjective_pairing).
  assert (Hn : sample_started = (Some (Some p), snd sample_started))
    by (rewrite <- E; apply surjective_pairing).
  destruct (@strategy_funds_stay_in_fleet debug_build _ _ sample_pool 9 VolumeStrategyFacts.sample_instance
    empty_fleet (snd sample_started) p q q' (HeartBeat 400) [1] eq_refl eq_refl eq_refl Hn
    (rtc_once _ _ (Volume.step_event _ _)) He) as [_ Hf].
  apply Forall_inv in Hf. destruct Hf as (a & Ha & Hk). rewrite Ha in Hb. cbn in Hb. injection Hb as Hb.
  exists q', a, ixs. split; [exact Ha|]. split; [by exists bal, w'|]. split; [exact Hl|].
  by eapply Hk.
Defined.

Lemma tokens_never_overspent_witness :
  exists bal ixs w', build_instructions token_order 3052504 70300 rich_world = (Some (Ok (bal, ixs)), w') /\
    total_out (ata 7 41) ixs = 5 /\ total_out (ata 7 41) ixs <= 5.
Proof.
  destruct (build_instructions token_order 3052504 70300 rich_world) as [o w'] eqn:E.
  assert (Ho : match o with
               | Some (Ok (bal, ixs)) => total_out (ata 7 41) ixs = 5 /\ Types.token bal !! 41 = Some 5
               | _ => False end).
  { replace o with (fst (build_instructions token_order 3052504 70300 rich_world)) by now rewrite E.
    vm_compute. split; reflexivity. }
  destruct o as [[[bal ixs]|]|]; try contradiction. destruct Ho as [Ho Hb].
  exists bal, ixs, w'. split; [reflexivity|]. split; [exact Ho|].
  apply (tokens_never_overspent token_order 3052504 70300 rich_world bal ixs w' 41 5 E Hb).
  - unfold is_u64. lia.
  - intros _. vm_compute. discriminate.
Defined.

(** Three transfers of one SOL each from a wallet with one SOL. *)
Lemma sol_transfers_unchecked_witness :
  exists bal w', build_instructions (order (exact_transfers [(8, 1000000000); (9, 1000000000); (10, 1000000000)]))
      3052504 750 rich_world
    = (Some (Ok (bal, [SystemTransfer 7 8 1000000000; SystemTransfer 7 9 1000000000;
                       SystemTransfer 7 10 1000000000])), w') /\ sol bal = 1000000000.
Proof.
  set (l := [(8, 1000000000); (9, 1000000000); (10, 1000000000)]).
  destruct (get_token_balance 7 0 rich_world) as [tok w2] eqn:Et.
  assert (Ht : tok = Some (Err AccountNotFound)).
  { replace tok with (fst (get_token_balance 7 0 rich_world)) by now rewrite Et.
    vm_compute. reflexivity. }
  subst tok.
  destruct (sol_transfers_unchecked (order (exact_transfers l)) 3052504 750 rich_world l 1000000000 7290
    rich_world (Err AccountNotFound) w2) as (bal & w' & E & Hb);
    [reflexivity | vm_compute; reflexivity | unfold is_u64; lia | vm_compute; reflexivity | lia
    | repeat constructor; cbn; lia | exact Et | cbn; unfold is_u64; lia |].
  exists bal, w'. split; [exact E | exact Hb].
Defined.

(** The sweeper's order of the agent 7: one SOL is sent, and the agent pays. *)
Example sweep_order_example :
  exists bal ixs w',
    build_instructions (order (TransferPayload <$> Sweeper.sweep_transfers 41 9 0)) 3052504 750 rich_world
      = (Some (Ok (bal, ixs)), w') /\ ixs = [SystemTransfer 7 9 (sol bal)].
Proof.
  destruct (build_instructions (order (TransferPayload <$> Sweeper.sweep_transfers 41 9 0)) 3052504 750
    rich_world) as [o w'] eqn:E.
  assert (Ho : match o with
               | Some (Ok (bal, ixs)) => ixs = [SystemTransfer 7 9 (sol bal)]
               | _ => False end).
  { replace o with (fst (build_instructions (order (TransferPayload <$> Sweeper.sweep_transfers 41 9 0))
      3052504 750 rich_world)) by now rewrite E. vm_compute. reflexivity. }
  destruct o as [[[bal ixs]|]|]; try contradiction. by exists bal, ixs, w'.
Defined.

Lemma buy_leaves_next_fee_witness :
  exists bal ixs w', build_instructions buy_order 3052504 115300 rich_world = (Some (Ok (bal, ixs)), w') /\
    sol bal = 1000000000 /\
    exists n rent_token rent_wsol, SystemTransfer 7 (ata 7 WSOL_MINT_PUBKEY) n ∈ ixs /\
      n + 356954 + 356954 + rent_token + rent_wsol = 1000000000.
Proof.
  destruct (build_instructions buy_order 3052504 115300 rich_world) as [o w'] eqn:E.
  assert (Ho : match o with
               | Some (Ok (bal, ixs)) => sol bal = 1000000000 /\ ixs <> []
               | _ => False end).
  { replace o with (fst (build_instructions buy_order 3052504 115300 rich_world)) by now rewrite E.
    vm_compute. split; [reflexivity | discriminate]. }
  destruct o as [[[bal ixs]|]|]; try contradiction. destruct Ho as [Hb Hne].
  exists bal, ixs, w'. split; [reflexivity|]. split; [exact Hb|].
  destruct (buy_leaves_next_fee buy_order 3052504 115300 rich_world
    (new_swap_payload wsol_pool BuyTokensForExactSol MaxButLeaveForTransfer) bal ixs w' 356954)
    as [Hn | (n & t & c & Hin & _ & _ & Hs)];
    [reflexivity | reflexivity | reflexivity | exact E | vm_compute; reflexivity
    | rewrite Hb; unfold is_u64; lia | lia | unfold RENT_EXEMPTION_THRESHOLD_SOL; lia | contradiction |].
  exists n, t, c. split; [exact Hin|]. rewrite <- Hb. exact Hs.
Defined.

Lemma transfer_below_fee_underflows_witness :
  exists b p t, sol_transfer b p t rich_world = (None, rich_world) /\ amount t = ExactWithFees 100.
Proof.
  set (b := mk_build 7 7 0 1007000 1007001 1000000000 0 7290).
  set (p := mk_pointers [] 1000000000 7290 0 0).
  set (t := {| asset := Sol; receiver := 9; amount := ExactWithFees 100 |}).
  exists b, p, t. split; [|reflexivity].
  refine (proj1 (transfer_below_fee_underflows b p t 100 rich_world eq_refl _ _) eq_refl);
    [cbn; lia | unfold is_u64; cbn; lia].
Defined.
