(* ===== verification/RpcPool.v ===== *)
(** * The pool of RPC clients ([solana/rpc_pool.rs])

    Every query goes to the providers one after the other until one answers; a
    transaction is sent to all of them at once, with retries.  A provider's
    answers are the parameter [RpcClients]; the state is the number of queries
    made so far. *)

From S2P Require Import Prelude MachineInt Float64 Amounts Types GenericApi BuildInstructions.

Abbreviation ProviderName := string (only parsing).

(** Why a pool query fails: the account does not exist, or no provider answered.
    Errors of parsing on the way are [PoolOther]. *)
Inductive PoolError :=
| PoolAccountNotFound
| PoolAllProvidersFailed
| PoolOther (msg : string).

#[export] Instance PoolError_eq_dec : EqDecision PoolError.
Proof. solve_decision. Defined.

(** [LiquidityStateV4]. *)
Record LiquidityStateV4 := {
  ls_status : Z;
  ls_nonce : Z;
  ls_max_order : Z;
  ls_depth : Z;
  ls_base_decimal : Z;
  ls_quote_decimal : Z;
  ls_state : Z;
  ls_reset_flag : Z;
  ls_min_size : Z;
  ls_vol_max_cut_ratio : Z;
  ls_amount_wave_ratio : Z;
  ls_base_lot_size : Z;
  ls_quote_lot_size : Z;
  ls_min_price_multiplier : Z;
  ls_max_price_multiplier : Z;
  ls_system_decimal_value : Z;
  ls_min_separate_numerator : Z;
  ls_min_separate_denominator : Z;
  ls_trade_fee_numerator : Z;
  ls_trade_fee_denominator : Z;
  ls_pnl_numerator : Z;
  ls_pnl_denominator : Z;
  ls_swap_fee_numerator : Z;
  ls_swap_fee_denominator : Z;
  ls_base_need_take_pnl : Z;
  ls_quote_need_take_pnl : Z;
  ls_quote_total_pnl : Z;
  ls_base_total_pnl : Z;
  ls_pool_open_time : Z;
  ls_punish_pc_amount : Z;
  ls_punish_coin_amount : Z;
  ls_orderbook_to_init_time : Z;
  ls_swap_base_in_amount : Z;
  ls_swap_quote_out_amount : Z;
  ls_swap_base2quote_fee : Z;
  ls_swap_quote_in_amount : Z;
  ls_swap_base_out_amount : Z;
  ls_swap_quote2base_fee : Z;
  ls_base_vault : Pubkey;
  ls_quote_vault : Pubkey;
  ls_base_mint : Pubkey;
  ls_quote_mint : Pubkey;
  ls_lp_mint : Pubkey;
  ls_open_orders : Pubkey;
  ls_market_id : Pubkey;
  ls_market_program_id : Pubkey;
  ls_target_orders : Pubkey;
  ls_withdraw_queue : Pubkey;
  ls_lp_vault : Pubkey;
  ls_owner : Pubkey;
  ls_lp_reserve : Z;
  ls_padding : list Z;
}.

(** [solana_sdk::account::Account]: its owner and its data. *)
Record RawAccount := {
  raw_owner : Pubkey;
  raw_data : list Byte.byte;
}.

(** The answers of a provider to the [n]-th query: an account, the amount of a
    token account ([None]: a text that is no [u64]), whether it accepts the
    [k]-th attempt to send a transaction; and the borsh parser. *)
Class RpcClients := {
  answer_account : Z -> ProviderName -> Pubkey -> result string RawAccount;
  answer_token_balance : Z -> ProviderName -> Pubkey -> result string (option Z);
  answer_fees : Z -> ProviderName -> result string (list (Z * Z));
  accepts_tx : ProviderName -> nat -> bool;
  parse_liquidity_state : list Byte.byte -> option LiquidityStateV4;
}.

Definition RAYDIUM_V4_PROGRAM_ID : Pubkey :=
  0x4bd949c43602c33f207790ed16a3524ca1b9975cf121a2a90cffec7df8b68acd.
Definition RAYDIUM_V4_AUTHORITY : Pubkey :=
  0x4157b0580f31c5fce44a62582dbcf9d78ee75943a084a393b350368d22899308.

Module RpcClientPool.

(** [clients], in the order of the map. *)
Record t := mk { clients : list ProviderName }.

Section Pool.
Context `{RpcClients} `{CheckedPow}.

Abbreviation Query A := (ST Z (result PoolError A)) (only parsing).

(** One call of a client. *)
Definition call {T} (answer : Z -> ProviderName -> result string T) (p : ProviderName)
    : ST Z (result string T) := fun n => (Some (answer n p), n + 1).

Fixpoint try_providers {T} (method : ProviderName -> ST Z (result string T))
    (providers : list ProviderName) : Query T :=
  match providers with
  | [] => st_bail PoolAllProvidersFailed
  | client :: rest =>
      r <- method client ;;
      match r with
      | Ok result => st_ok result
      | Err e => if is_not_found e then st_bail PoolAccountNotFound else try_providers method rest
      end
  end.

Definition execute_rpc_method_consequently_till_first_success {T}
    (self : t) (method : ProviderName -> ST Z (result string T)) : Query T :=
  try_providers method self.(clients).

(** [select_ok] over the handles of the spawned tasks: a handle that completes is
    [Ok] whatever its task returned, so the first completion decides.
    [completions]: the results in the order they come. *)
Definition execute_rpc_method_simultaneously_till_first_success {T}
    (completions : list (result string T)) : result PoolError T :=
  match completions with
  | Ok result :: _ => Ok result
  | Err e :: _ => Err (PoolOther e)
  | [] => Err PoolAllProvidersFailed
  end.

Definition get_account (self : t) (pk : Pubkey) : Query RawAccount :=
  execute_rpc_method_consequently_till_first_success self
    (call (fun n p => answer_account n p pk)).

Definition get_account_data (self : t) (pk : Pubkey) : Query (list Byte.byte) :=
  account <-! get_account self pk ;; st_ok account.(raw_data).

Definition get_token_account_balance_ui (self : t) (pk : Pubkey) : Query (option Z) :=
  execute_rpc_method_consequently_till_first_success self
    (call (fun n p => answer_token_balance n p pk)).

(** ** Sending *)

Definition MAX_RETRIES : nat := 3.

(** The loop of one provider's task; the fuel is the number of attempts left. *)
Fixpoint send_attempts (p : ProviderName) (attempts fuel : nat) : bool :=
  match fuel with
  | O => false
  | S fuel' =>
      if accepts_tx p attempts then true
      else if (MAX_RETRIES <=? S attempts)%nat then false
      else send_attempts p (S attempts) fuel'
  end.

Definition send_tx_to_all_providers (self : t) : result PoolError unit :=
  if existsb (fun p => send_attempts p 0 MAX_RETRIES) self.(clients) then Ok tt
  else Err PoolAllProvidersFailed.

(** ** Pools *)

(** [as u8]. *)
Definition as_u8 (z : Z) : Z := z mod 256.

Definition get_pool_reserves_f64 (self : t) (pool_lp : Pubkey) : Query (f64 * f64) :=
  account <-! get_account self pool_lp ;;
  market <-! st_lift (st_unwrap (parse_liquidity_state account.(raw_data))) ;;
  let '(quote_vault, quote_decimal, base_vault, base_decimal) :=
    if market.(ls_base_mint) =? WSOL_MINT_PUBKEY then
      (market.(ls_base_vault), as_u8 market.(ls_base_decimal),
       market.(ls_quote_vault), as_u8 market.(ls_quote_decimal))
    else
      (market.(ls_quote_vault), as_u8 market.(ls_quote_decimal),
       market.(ls_base_vault), as_u8 market.(ls_base_decimal)) in
  a <-! get_token_account_balance_ui self base_vault ;;
  token_a_balance <-! st_lift (st_unwrap a) ;;
  b <-! get_token_account_balance_ui self quote_vault ;;
  token_b_balance <-! st_lift (st_unwrap b) ;;
  x <-! st_lift (st_unwrap (Decimals.tokens_to_ui_amount_with_decimals_f64 token_a_balance base_decimal)) ;;
  y <-! st_lift (st_unwrap (Decimals.tokens_to_ui_amount_with_decimals_f64 token_b_balance quote_decimal)) ;;
  st_ok (x, y).

Definition get_pool_price (now : Z) (self : t) (pool_lp : Pubkey) : Query RaydiumPoolPriceUpdate :=
  reserves <-! get_pool_reserves_f64 self pool_lp ;;
  let '(reserve_base, reserve_quote) := reserves in
  st_ok {| pu_pool := pool_lp;
           pu_price := f64_div reserve_quote reserve_base;
           pu_base_reserve := reserve_base;
           pu_quote_reserve := reserve_quote;
           pu_created_at := now |}.

Definition get_pool_details (self : t) (pool_pubkey : Pubkey) : Query RaydiumPool :=
  account_data <-! get_account_data self pool_pubkey ;;
  amm_info_data <-! st_lift (st_unwrap (parse_liquidity_state account_data)) ;;
  st_ok {|
    pool_id := pool_pubkey;
    base_mint := amm_info_data.(ls_base_mint);
    quote_mint := amm_info_data.(ls_quote_mint);
    lp_mint := amm_info_data.(ls_lp_mint);
    base_decimals := as_u8 amm_info_data.(ls_base_decimal);
    quote_decimals := as_u8 amm_info_data.(ls_quote_decimal);
    lp_decimals := 0;
    version := 3;
    program_id := RAYDIUM_V4_PROGRAM_ID;
    authority := RAYDIUM_V4_AUTHORITY;
    open_orders := amm_info_data.(ls_open_orders);
    target_orders := amm_info_data.(ls_target_orders);
    base_vault := amm_info_data.(ls_base_vault);
    quote_vault := amm_info_data.(ls_quote_vault);
    withdraw_queue := amm_info_data.(ls_withdraw_queue);
    lp_vault := amm_info_data.(ls_lp_vault);
    market_version := 3;
    market_program_id := amm_info_data.(ls_market_program_id);
    market_id := amm_info_data.(ls_market_id);
    lp_reserve := 0;
    open_time := 0;
    reverse_pool := false;
    freeze_authority := None |}.

(** Two queries that may differ: the reserves must come ([unwrap]) when the
    details came. *)
Definition is_valid_raydium_pool (self : t) (pk : Pubkey) : ST Z bool :=
  r <- get_account self pk ;;
  match r with
  | Err _ => st_ret false
  | Ok account =>
      if negb (account.(raw_owner) =? RAYDIUM_V4_PROGRAM_ID) then st_ret false else
      d <- get_pool_details self pk ;;
      match d with
      | Err _ => st_ret false
      | Ok pool =>
          x <- get_pool_reserves_f64 self pk ;;
          reserves <- st_unwrap (result_to_option x) ;;
          let '(reserve_base, reserve_quote) := reserves in
          st_ret (f64_gt reserve_base f64_zero && f64_gt reserve_quote f64_zero &&
                  ((pool.(base_mint) =? WSOL_MINT_PUBKEY) || (pool.(quote_mint) =? WSOL_MINT_PUBKEY)))
      end
  end.
End Pool.
End RpcClientPool.

(** ** Properties *)

Section Facts.
Import RpcClientPool.
Context `{RpcClients} `{CheckedPow}.

(** The providers [before], asked from the [n]-th query on, all fail with an
    error other than a missing account. *)
Fixpoint all_fail {T} (answer : Z -> ProviderName -> result string T) (n : Z)
    (before : list ProviderName) : Prop :=
  match before with
  | [] => True
  | p :: rest =>
      (exists e, answer n p = Err e /\ is_not_found e = false) /\ all_fail answer (n + 1) rest
  end.

(** A query falls back from provider to provider.  After providers that fail,
    the next one's answer is returned; an account it does not have ends the
    query, without asking the others; and when no provider is left the query
    fails.  Each provider is asked at most once. *)
Theorem provider_fallback {T} (answer : Z -> ProviderName -> result string T) n before rest :
  all_fail answer n before ->
  execute_rpc_method_consequently_till_first_success (mk (before ++ rest)) (call answer) n
  = match rest with
    | [] => (Some (Err PoolAllProvidersFailed), n + Z.of_nat (length before))
    | p :: rest' =>
        let n' := n + Z.of_nat (length before) in
        match answer n' p with
        | Ok v => (Some (Ok v), n' + 1)
        | Err e =>
            if is_not_found e then (Some (Err PoolAccountNotFound), n' + 1)
            else execute_rpc_method_consequently_till_first_success (mk rest') (call answer) (n' + 1)
        end
    end.
Proof.
  unfold execute_rpc_method_consequently_till_first_success. cbn [clients].
  revert n. induction before as [|q before IH]; intros n Hf.
  - cbn [app length]. rewrite Z.add_0_r. destruct rest as [|p rest]; [reflexivity|].
    cbn [try_providers]. unfold st_bind, call.
    destruct (answer n p) as [v|e]; [reflexivity|]. by destruct (is_not_found e).
  - destruct Hf as [(e & He & Hn) Hf]. cbn [app try_providers]. unfold st_bind, call at 1.
    rewrite He, Hn, IH by done. cbn [length].
    replace (n + 1 + Z.of_nat (length before)) with (n + Z.of_nat (S (length before))) by lia.
    reflexivity.
Qed.

Lemma send_attempts_spec p k fuel :
  (k + fuel = MAX_RETRIES)%nat ->
  send_attempts p k fuel = true <-> exists i, (k <= i < MAX_RETRIES)%nat /\ accepts_tx p i = true.
Proof.
  revert k. induction fuel as [|fuel IH]; intros k Hk; cbn [send_attempts].
  { split; [discriminate|]. intros (i & Hi & _). lia. }
  destruct (accepts_tx p k) eqn:Ek.
  { split; [|done]. intros _. exists k. split; [lia | done]. }
  destruct (Nat.leb_spec MAX_RETRIES (S k)).
  - split; [discriminate|]. intros (i & Hi & Ha). assert (i = k) by lia. congruence.
  - rewrite IH by lia. split; intros (i & Hi & Ha); exists i; (split; [|done]); [lia|].
    destruct (decide (i = k)) as [->|]; [congruence | lia].
Qed.

(** A transaction counts as sent exactly when some provider accepts one of
    its first three attempts; with no provider it never is. *)
Theorem sent_iff_some_provider_accepts (self : t) :
  (send_tx_to_all_providers self = Ok tt <->
   exists p k, p ∈ clients self /\ (k < 3)%nat /\ accepts_tx p k = true) /\
  (send_tx_to_all_providers self = Ok tt \/
   send_tx_to_all_providers self = Err PoolAllProvidersFailed).
Proof.
  unfold send_tx_to_all_providers. split; [|by destruct (existsb _ _); auto].
  destruct (existsb _ _) eqn:E.
  - split; [intros _|done]. apply existsb_exists in E as (p & Hp & Ha).
    apply send_attempts_spec in Ha as (k & Hk & Ha); [|done].
    exists p, k. split_and!; [by apply list_elem_of_In | unfold MAX_RETRIES in Hk; lia | done].
  - split; [discriminate|]. intros (p & k & Hp & Hk & Ha).
    assert (existsb (fun p => send_attempts p 0 MAX_RETRIES) (clients self) = true); [|congruence].
    apply existsb_exists. exists p. split; [by apply list_elem_of_In|].
    apply send_attempts_spec; [done|]. exists k. unfold MAX_RETRIES. split; [lia | done].
Qed.

(** The vault and decimals of the SOL side, and those of the token side. *)
Definition sol_side (m : LiquidityStateV4) : Pubkey * Z :=
  if m.(ls_base_mint) =? WSOL_MINT_PUBKEY then (m.(ls_base_vault), as_u8 m.(ls_base_decimal))
  else (m.(ls_quote_vault), as_u8 m.(ls_quote_decimal)).

Definition token_side (m : LiquidityStateV4) : Pubkey * Z :=
  if m.(ls_base_mint) =? WSOL_MINT_PUBKEY then (m.(ls_quote_vault), as_u8 m.(ls_quote_decimal))
  else (m.(ls_base_vault), as_u8 m.(ls_base_decimal)).

(** The price of a pool is in SOL per token whichever side of the pool SOL is
    on: it is the reserve of the SOL vault over that of the token vault, each
    scaled by its own decimals. *)
Theorem price_is_sol_per_token now self lp n u n' :
  get_pool_price now self lp n = (Some (Ok u), n') ->
  exists account market tokens sols n1 n2 n3,
    get_account self lp n = (Some (Ok account), n1) /\
    parse_liquidity_state account.(raw_data) = Some market /\
    get_token_account_balance_ui self (fst (token_side market)) n1 = (Some (Ok (Some tokens)), n2) /\
    get_token_account_balance_ui self (fst (sol_side market)) n2 = (Some (Ok (Some sols)), n3) /\
    Decimals.tokens_to_ui_amount_with_decimals_f64 tokens (snd (token_side market)) = Some (pu_base_reserve u) /\
    Decimals.tokens_to_ui_amount_with_decimals_f64 sols (snd (sol_side market)) = Some (pu_quote_reserve u) /\
    pu_price u = f64_div (pu_quote_reserve u) (pu_base_reserve u) /\ pu_pool u = lp.
Proof.
  unfold get_pool_price. intros E. apply st_try_inv in E as ([x y] & m1 & Er & E).
  injection E as <- <-. cbn. unfold get_pool_reserves_f64 in Er.
  apply st_try_inv in Er as (account & n1 & Ea & Er).
  apply st_try_inv in Er as (market & m2 & Em & Er). apply st_lift_inv in Em.
  destruct (parse_liquidity_state (raw_data account)) as [mk|] eqn:Ep; [|discriminate].
  injection Em as -> <-. unfold sol_side, token_side.
  destruct (ls_base_mint market =? WSOL_MINT_PUBKEY) eqn:Eb; cbv beta iota in Er;
    apply st_try_inv in Er as (a & n2 & E2 & Er); apply st_try_inv in Er as (ta & n2' & E2' & Er);
    apply st_lift_inv in E2'; (destruct a as [a|]; [|discriminate]); injection E2' as -> <-;
    apply st_try_inv in Er as (b & n3 & E3 & Er); apply st_try_inv in Er as (tb & n3' & E3' & Er);
    apply st_lift_inv in E3'; (destruct b as [b|]; [|discriminate]); injection E3' as -> <-;
    apply st_try_inv in Er as (x' & n4 & E4 & Er); apply st_lift_inv in E4;
    apply st_try_inv in Er as (y' & n5 & E5 & Er); apply st_lift_inv in E5;
    (destruct (Decimals.tokens_to_ui_amount_with_decimals_f64 ta _) eqn:Ex; [|discriminate]);
    (destruct (Decimals.tokens_to_ui_amount_with_decimals_f64 tb _) eqn:Ey; [|discriminate]);
    injection E4 as -> <-; injection E5 as -> <-; injection Er as -> -> <-;
    exists account, market, ta, tb, n1, n2, n3; rewrite Eb; by split_and!.
Qed.
End Facts.

(** ** The theorems at a concrete pool of clients *)

(** The first provider is down; the second knows a pool with SOL as its base,
    10 SOL and 2000 tokens. *)
Definition sample_market : LiquidityStateV4 := {|
  ls_status := 6; ls_nonce := 0; ls_max_order := 0; ls_depth := 0; ls_base_decimal := 9;
  ls_quote_decimal := 6; ls_state := 0; ls_reset_flag := 0; ls_min_size := 0;
  ls_vol_max_cut_ratio := 0; ls_amount_wave_ratio := 0; ls_base_lot_size := 0;
  ls_quote_lot_size := 0; ls_min_price_multiplier := 0; ls_max_price_multiplier := 0;
  ls_system_decimal_value := 0; ls_min_separate_numerator := 0; ls_min_separate_denominator := 0;
  ls_trade_fee_numerator := 0; ls_trade_fee_denominator := 0; ls_pnl_numerator := 0;
  ls_pnl_denominator := 0; ls_swap_fee_numerator := 0; ls_swap_fee_denominator := 0;
  ls_base_need_take_pnl := 0; ls_quote_need_take_pnl := 0; ls_quote_total_pnl := 0;
  ls_base_total_pnl := 0; ls_pool_open_time := 0; ls_punish_pc_amount := 0;
  ls_punish_coin_amount := 0; ls_orderbook_to_init_time := 0; ls_swap_base_in_amount := 0;
  ls_swap_quote_out_amount := 0; ls_swap_base2quote_fee := 0; ls_swap_quote_in_amount := 0;
  ls_swap_base_out_amount := 0; ls_swap_quote2base_fee := 0; ls_base_vault := 48;
  ls_quote_vault := 49; ls_base_mint := WSOL_MINT_PUBKEY; ls_quote_mint := 41; ls_lp_mint := 43;
  ls_open_orders := 46; ls_market_id := 53; ls_market_program_id := 52; ls_target_orders := 47;
  ls_withdraw_queue := 50; ls_lp_vault := 51; ls_owner := 54; ls_lp_reserve := 0; ls_padding := []
|}.

Definition sample_clients : RpcClients := {|
  answer_account := fun _ p _ =>
    if String.eqb p "down" then Err "connection refused"
    else Ok {| raw_owner := RAYDIUM_V4_PROGRAM_ID; raw_data := [] |};
  answer_token_balance := fun _ p acc =>
    if String.eqb p "down" then Err "connection refused"
    else Ok (Some (if acc =? 48 then 10000000000 else 2000000000));
  answer_fees := fun _ _ => Ok [];
  accepts_tx := fun p k => String.eqb p "up" && (k =? 2)%nat;
  parse_liquidity_state := fun _ => Some sample_market;
|}.

Lemma provider_fallback_witness :
  @RpcClientPool.execute_rpc_method_consequently_till_first_success RawAccount
      (RpcClientPool.mk (["down"] ++ ["up"]))
      (RpcClientPool.call (fun n p => @answer_account sample_clients n p 40)) 0
  = (Some (Ok {| raw_owner := RAYDIUM_V4_PROGRAM_ID; raw_data := [] |}), 2).
Proof.
  rewrite (provider_fallback (fun n p => @answer_account sample_clients n p 40) 0 ["down"] ["up"]).
  - reflexivity.
  - split; [by exists "connection refused" | exact I].
Defined.

Lemma price_is_sol_per_token_witness :
  exists u n', @RpcClientPool.get_pool_price sample_clients checked_pow_model 0
      (RpcClientPool.mk ["down"; "up"]) 40 0 = (Some (Ok u), n') /\
    pu_price u = f64_div (pu_quote_reserve u) (pu_base_reserve u) /\
    pu_quote_reserve u = f64_of_Z 10.
Proof.
  destruct (@RpcClientPool.get_pool_price sample_clients checked_pow_model 0
      (RpcClientPool.mk ["down"; "up"]) 40 0) as [o n'] eqn:E.
  assert (Ho : match o with Some (Ok u) => pu_quote_reserve u = f64_of_Z 10 | _ => False end).
  { replace o with (fst (@RpcClientPool.get_pool_price sample_clients checked_pow_model 0
      (RpcClientPool.mk ["down"; "up"]) 40 0)) by now rewrite E. vm_compute. reflexivity. }
  destruct o as [[u|]|]; try contradiction. exists u, n'. split; [reflexivity|].
  destruct (@price_is_sol_per_token sample_clients checked_pow_model _ _ _ _ _ _ E)
    as (? & ? & ? & ? & ? & ? & ? & _ & _ & _ & _ & _ & _ & Hp & _).
  split; [exact Hp | exact Ho].
Defined.
