(* ===== verification/Executor.v ===== *)
(** * Execution of actions ([executors])

    [solana_executor.rs], [execute_tx.rs] and [paper_executor.rs].  An action is
    a shared cell behind a [tokio::sync::Mutex], which is not reentrant: a task
    that asks for a guard while it holds one waits for ever. *)

From S2P Require Import Prelude MachineInt Amounts Types Cache GenericApi Samples BuildInstructions BuildFacts RpcPool.

Abbreviation Hash := Z (only parsing).

(** The network as the executor sees it: the latest blockhash (the query and the
    parsing), a provider's answer to a simulation (the transport's error, or the
    error of the transaction), the BloxRoute API, which way of sending answers
    first, the signature of a signed transaction, and the texts of a uuid and of
    an error. *)
Class ExecutorExt := {
  latest_blockhash : Z -> option Hash;
  answer_simulation : Z -> ProviderName -> list Instruction -> Pubkey -> Hash ->
    result string (option string);
  bloxroute_send : Z -> list Instruction -> bool;
  first_ready : Z -> nat;
  tx_signature : list Instruction -> list KeypairClonable -> Hash -> Signature;
  uuid_string : Uuid -> string;
  pool_error_string : PoolError -> string;
}.

(** The settings the executor reads. *)
Record ExecutorConfig := {
  simulate_execution : bool;
  use_bloxroute_trader_api : bool;
}.

(** [held]: this task holds the guard of the action it executes.  [broadcast]:
    for every transaction that was sent, the signature the executor keeps of it,
    which is that of the transaction without the tip BloxRoute is given. *)
Record Env := env {
  world : World;
  held : bool;
  network_calls : Z;
  broadcast : list Signature;
}.

Definition set_world v (e : Env) : Env := env v e.(held) e.(network_calls) e.(broadcast).
Definition set_held v (e : Env) : Env := env e.(world) v e.(network_calls) e.(broadcast).
Definition set_network_calls v (e : Env) : Env := env e.(world) e.(held) v e.(broadcast).
Definition set_broadcast v (e : Env) : Env := env e.(world) e.(held) e.(network_calls) v.

(** A task returns, returns an error ([?], [bail!]), panics, or waits for ever. *)
Inductive Outcome (A : Type) :=
| Returned (a : A)
| Failed (msg : string)
| Panicked
| Stuck.
Arguments Returned {A} a.
Arguments Failed {A} msg.
Arguments Panicked {A}.
Arguments Stuck {A}.

Definition Exec (A : Type) : Type := Env -> Outcome A * Env.

Definition ex_ret {A} (a : A) : Exec A := fun e => (Returned a, e).
Definition ex_fail {A} (msg : string) : Exec A := fun e => (Failed msg, e).

Definition ex_bind {A B} (m : Exec A) (k : A -> Exec B) : Exec B := fun e =>
  match m e with
  | (Returned a, e') => k a e'
  | (Failed msg, e') => (Failed msg, e')
  | (Panicked, e') => (Panicked, e')
  | (Stuck, e') => (Stuck, e')
  end.

Declare Scope exec_scope.
Delimit Scope exec_scope with exec.
Notation "x <- m ;; k" := (ex_bind m (fun x => k))
  (at level 20, m at level 99, k at level 200) : exec_scope.
Notation "m ;;; k" := (ex_bind m (fun _ => k))
  (at level 100, k at level 200) : exec_scope.

Section Executor.
Context `{Profile} `{Ext} `{RpcClients} `{CheckedPow} `{ExecutorExt}.
#[local] Open Scope exec_scope.

Definition ex_gets {A} (f : Env -> A) : Exec A := fun e => (Returned (f e), e).

Definition ex_modify (f : Env -> Env) : Exec unit := fun e => (Returned tt, f e).

(** A computation on the shared world; a panic unwinds and drops the guard. *)
Definition on_world {A} (m : ST World A) : Exec A := fun e =>
  match m e.(world) with
  | (Some a, w) => (Returned a, set_world w e)
  | (None, w) => (Panicked, set_held false (set_world w e))
  end.

(** [action.lock().await]: taking the guard while holding it never returns. *)
Definition lock : Exec unit := fun e =>
  if e.(held) then (Stuck, e) else (Returned tt, set_held true e).

Definition unlock : Exec unit := ex_modify (set_held false).

(** The action behind the cell.  Every reference comes from [alloc_action]. *)
Definition read_action (action : ActionRef) : Exec SolanaAction := fun e =>
  match e.(world).(heap) !! action with
  | Some a => (Returned a, e)
  | None => (Panicked, e)
  end.

(** A guard that lives for one expression: [action.lock().await.f()]. *)
Definition with_lock {A} (action : ActionRef) (f : SolanaAction -> Exec A) : Exec A :=
  lock ;;;
  a <- read_action action ;;
  r <- f a ;;
  unlock ;;;
  ex_ret r.

(** Returning with an error drops the guard. *)
Definition fail_unlocked {A} (msg : string) : Exec A := unlock ;;; ex_fail msg.

(** One network call. *)
Definition network {A} (f : Z -> A) : Exec A := fun e =>
  (Returned (f e.(network_calls)), set_network_calls (e.(network_calls) + 1) e).

(** ** Sending *)

(** The ways of sending that are still awaited, in the order of the vector. *)
Inductive SendingWay := ViaBloxroute | ViaRpc.

(** [select_all] until a way succeeds: the first to complete is taken out.  The
    fuel is the number of ways. *)
Fixpoint await_first_success (fuel : nat) (ways : list SendingWay) (clients : RpcClientPool.t)
    (ixs : list Instruction) : Exec bool :=
  match fuel, ways with
  | S fuel', _ :: _ =>
      i <- network (fun n => (first_ready n mod length ways)%nat) ;;
      match ways !! i with
      | None => ex_ret false
      | Some way =>
          ok <- match way with
                | ViaBloxroute => network (fun n => bloxroute_send n ixs)
                | ViaRpc => ex_ret match RpcClientPool.send_tx_to_all_providers clients with
                                   | Ok _ => true | Err _ => false end
                end ;;
          if ok : bool then ex_ret true
          else await_first_success fuel' (base.delete i ways) clients ixs
      end
  | _, _ => ex_ret false
  end.

Definition execute_tx (config : ExecutorConfig) (clients : RpcClientPool.t) (recent_blockhash : Hash)
    (sender payer : KeypairClonable) (ixs : list Instruction) : Exec (option Signature) :=
  let senders := if negb (pubkey sender =? pubkey payer) then [sender; payer] else [sender] in
  let signature := tx_signature ixs senders recent_blockhash in
  let handles := (if config.(use_bloxroute_trader_api) then [ViaBloxroute] else []) ++ [ViaRpc] in
  ok <- await_first_success (length handles) handles clients ixs ;;
  if ok : bool then
    ex_modify (fun e => set_broadcast (e.(broadcast) ++ [signature]) e) ;;;
    ex_ret (Some signature)
  else ex_ret None.

(** ** Simulation *)

(** [simulate_tx]: the first provider that answers decides. *)
Definition simulate_tx (clients : RpcClientPool.t) (ixs : list Instruction) (payer : Pubkey)
    (blockhash : Hash) : Exec (option string) := fun e =>
  match RpcClientPool.execute_rpc_method_consequently_till_first_success clients
          (RpcClientPool.call (fun n p => answer_simulation n p ixs payer blockhash))
          e.(network_calls) with
  | (Some (Ok err), n) => (Returned err, set_network_calls n e)
  | (Some (Err x), n) => (Returned (Some (pool_error_string x)), set_network_calls n e)
  | (None, n) => (Panicked, set_network_calls n e)
  end.

Definition the_result (action : ActionRef) (id : Uuid) (r : ExecutionResult) : BotEvent :=
  ExecutionResultEvent id action r.

(** The loop of simulations: [None] when one passes, the result to return
    otherwise.  Its uuid is read under a second lock. *)
Fixpoint simulation_loop (fuel retries : nat) (action : ActionRef) (clients : RpcClientPool.t)
    (ixs : list Instruction) (payer : Pubkey) (blockhash : Hash) : Exec (option BotEvent) :=
  match fuel with
  | O => ex_ret None
  | S fuel' =>
      r <- simulate_tx clients ixs payer blockhash ;;
      match r with
      | None => ex_ret None
      | Some err =>
          let retries := (retries - 1)%nat in
          if (retries =? 0)%nat then
            id <- with_lock action (fun a => ex_ret a.(uuid)) ;;
            ex_ret (Some (the_result action id (ExecutionFailed (SimulationFailed err))))
          else
            on_world (sleep_ms 1000) ;;;
            simulation_loop fuel' retries action clients ixs payer blockhash
      end
  end.

(** ** [SolanaExecutor::execute] *)

Definition price_per_cu_priority : Z := 3052504.

(** From the instructions on, the guard is held. *)
Definition send_built (config : ExecutorConfig) (clients : RpcClientPool.t) (action : ActionRef)
    (balance_before : Balance) (cu : Z) (action_itx : list Instruction) : Exec BotEvent :=
  let ixs := [SetComputeUnitLimit cu; SetComputeUnitPrice price_per_cu_priority] ++ action_itx in
  lock ;;;
  a <- read_action action ;;
  blockhash <- network latest_blockhash ;;
  match blockhash with
  | None => fail_unlocked "blockhash"
  | Some recent_blockhash =>
      simulated <-
        (if config.(simulate_execution) then
           simulation_loop SIMULATION_RETRIES SIMULATION_RETRIES action clients ixs
             (pubkey a.(fee_payer)) recent_blockhash
         else ex_ret None) ;;
      match simulated with
      | Some ev => unlock ;;; ex_ret ev
      | None =>
          sig <- execute_tx config clients recent_blockhash a.(sniper) a.(fee_payer) ixs ;;
          match sig with
          | None => fail_unlocked "All ways to send the tx failed"
          | Some signature =>
              on_world (with_cache (OperationalCache.add_agent_tx a.(uuid) (sig_to_string signature))) ;;;
              with_lock action (fun a =>
                t <- on_world (st_gets now) ;;
                on_world (st_modify (fun w => set_heap
                  (<[action := sent t a balance_before signature
                                 (BASE_TX_FEE_SOL + price_per_cu_priority * cu)]> w.(heap)) w))) ;;;
              id <- with_lock action (fun a => ex_ret a.(uuid)) ;;
              unlock ;;;
              ex_ret (the_result action id Sent)
          end
      end
  end.

Definition execute (config : ExecutorConfig) (clients : RpcClientPool.t) (action : ActionRef)
    : Exec BotEvent :=
  t <- on_world (st_gets now) ;;
  expired <- with_lock action (fun a => ex_ret (is_expired t a)) ;;
  if expired : bool then
    id <- with_lock action (fun a => ex_ret a.(uuid)) ;;
    ex_ret (the_result action id (ExecutionFailed ActionTooOld))
  else
    cu <- with_lock action (fun a => ex_ret (estimate_cu_per_tx a.(action_payload))) ;;
    built <- with_lock action (fun a => on_world (build_instructions a price_per_cu_priority cu)) ;;
    match built with
    | Ok (balance_before, action_itx) =>
        match action_itx with
        | [] =>
            id <- with_lock action (fun a => ex_ret a.(uuid)) ;;
            ex_ret (the_result action id (ExecutionFailed NoInstructionsGenerated))
        | _ => send_built config clients action balance_before cu action_itx
        end
    | Err (OtherError error_text) =>
        id <- with_lock action (fun a => ex_ret a.(uuid)) ;;
        ex_ret (the_result action id (ExecutionFailed (OtherError error_text)))
    | Err e => ex_fail (debug_execution_error e)
    end.

(** ** [PaperExecutor::execute] *)
Definition paper_execute (action : ActionRef) : Exec BotEvent :=
  id <- with_lock action (fun a =>
          on_world (with_cache (OperationalCache.add_agent_tx a.(uuid)
            ("<Paper trading> signature " +:+ uuid_string a.(uuid)))) ;;;
          ex_ret a.(uuid)) ;;
  on_world (sleep_ms 100) ;;;
  ex_ret (the_result action id Sent).
End Executor.

(** * What becomes of an executed action *)

(** ** Building reads only, and its errors are never [OtherError] *)

Definition is_other (e : ExecutionError) : bool :=
  match e with OtherError _ => true | _ => false end.

Definition tame {A} (m : ST World (result ExecutionError A)) : Prop :=
  forall w, heap (snd (m w)) = heap w /\ now (snd (m w)) = now w /\
    match fst (m w) with Some (Err e) => is_other e = false | _ => True end.

Lemma tame_ok {A} (a : A) : tame (st_ok a).
Proof. intros w. done. Qed.

Lemma tame_bail {A} e : is_other e = false -> tame (@st_bail World ExecutionError A e).
Proof. intros He w. done. Qed.

Lemma tame_try {A B} (m : ST World (result ExecutionError A)) (k : A -> ST World (result ExecutionError B)) :
  tame m -> (forall a, tame (k a)) -> tame (st_try m k).
Proof.
  intros Hm Hk w. unfold st_try, st_bind. destruct (Hm w) as (Hh & Hn & He).
  destruct (m w) as [[[a|e]|] w']; cbn in *; try done.
  destruct (Hk a w') as (Hh' & Hn' & He'). split_and!; [congruence | congruence | done].
Qed.

Lemma tame_lift {A} (m : ST World A) :
  (forall w, heap (snd (m w)) = heap w /\ now (snd (m w)) = now w) -> tame (st_lift m).
Proof.
  intros Hm w. destruct (Hm w) as (Hh & Hn). unfold st_lift, st_bind.
  destruct (m w) as [[a|] w']; cbn in *; done.
Qed.

Lemma tame_runs {A} (m : ST World A) : runs same_actions m -> tame (st_lift m).
Proof.
  intros Hm. apply tame_lift. intros w. destruct (Hm w) as (a & w' & -> & (Hh & _ & Hn & _)). done.
Qed.

Lemma tame_u64 `{Profile} r : tame (u64 r).
Proof. apply tame_lift. intros w. by destruct r. Qed.

Lemma tame_exists `{Ext} acc : tame (exists_account acc).
Proof. apply tame_lift. intros w. done. Qed.

Ltac tame_tac :=
  repeat first
    [ apply tame_ok | apply tame_u64 | apply tame_exists
    | apply tame_bail; reflexivity
    | apply tame_try; [| intros ?]
    | apply tame_runs; solve [eauto with bot]
    | case_match ].

Section Facts.
Context `{Profile} `{Ext} `{RpcClients} `{CheckedPow} `{ExecutorExt}.

Lemma buy_amount_tame b p a t c : tame (buy_amount_in b p a t c).
Proof. unfold buy_amount_in. tame_tac. Qed.

Lemma build_step_tame b p s : tame (build_step b p s).
Proof.
  unfold build_step, sol_transfer, token_transfer, buy_step, sell_step. cbv zeta.
  destruct s; [|destruct (asset p0)]; tame_tac; apply buy_amount_tame.
Qed.

Lemma account_step_tame b p s : tame (account_step b p s).
Proof. unfold account_step. tame_tac. Qed.

Lemma build_steps_tame b p payload : tame (build_steps b p payload).
Proof.
  revert p. induction payload as [|s payload IH]; intros p; cbn [build_steps]; [apply tame_ok|].
  apply tame_try; [apply build_step_tame|]. intros [s'|]; [|apply IH].
  apply tame_try; [apply account_step_tame | apply IH].
Qed.

Lemma build_instructions_tame a price cu : tame (build_instructions a price cu).
Proof.
  unfold build_instructions, compute_tx_fee. cbv zeta. tame_tac. apply build_steps_tame.
Qed.

(** ** Frames of the executor's steps *)

Definition same_cells (e e' : Env) : Prop :=
  heap (world e') = heap (world e) /\ held e' = held e /\ broadcast e' = broadcast e.

Lemma await_first_success_frame fuel ways clients ixs e :
  exists ok e', await_first_success fuel ways clients ixs e = (Returned ok, e') /\ same_cells e e'.
Proof.
  revert ways e. induction fuel as [|fuel IH]; intros ways e; [by eexists _, _|].
  destruct ways as [|w0 ways]; [by eexists _, _|]. cbn [await_first_success].
  unfold ex_bind at 1, network at 1.
  destruct ((w0 :: ways) !! _) as [way|]; [|by eexists _, _].
  unfold ex_bind.
  destruct way; cbn.
  - destruct (bloxroute_send _ _); [by eexists _, _|].
    match goal with |- context [await_first_success fuel ?ws clients ixs ?e1] =>
      destruct (IH ws e1) as (ok & e' & -> & Hs) end. by exists ok, e'.
  - destruct (RpcClientPool.send_tx_to_all_providers clients); [by eexists _, _|].
    match goal with |- context [await_first_success fuel ?ws clients ixs ?e1] =>
      destruct (IH ws e1) as (ok & e' & -> & Hs) end. by exists ok, e'.
Qed.

Lemma simulate_tx_frame clients ixs payer hash e :
  exists r e', simulate_tx clients ixs payer hash e = (Returned r, e') /\ same_cells e e'.
Proof.
  unfold simulate_tx, RpcClientPool.execute_rpc_method_consequently_till_first_success.
  assert (Hq : forall providers n, exists r n', RpcClientPool.try_providers
    (RpcClientPool.call (fun n p => answer_simulation n p ixs payer hash)) providers n = (Some r, n')).
  { induction providers as [|p providers IH]; intros n; [by eexists _, _|].
    cbn [RpcClientPool.try_providers]. unfold st_bind, RpcClientPool.call at 1.
    destruct (answer_simulation _ _ _ _ _) as [v|x]; [by eexists _, _|].
    destruct (is_not_found x); [by eexists _, _ | apply IH]. }
  destruct (Hq (RpcClientPool.clients clients) (network_calls e)) as ([r|x] & n' & ->); by eexists _, _.
Qed.

Lemma with_lock_held {A} action (f : SolanaAction -> Exec A) e :
  held e = true -> with_lock action f e = (Stuck, e).
Proof. intros Hh. unfold with_lock, lock. unfold ex_bind at 1. by rewrite Hh. Qed.

Lemma with_lock_ret {A} action (f : SolanaAction -> A) e a :
  held e = false -> heap (world e) !! action = Some a ->
  with_lock action (fun a => ex_ret (f a)) e = (Returned (f a), e).
Proof.
  intros Hh Ha. unfold with_lock, ex_bind, lock, read_action, unlock, ex_modify, ex_ret. rewrite Hh.
  cbn. rewrite Ha. by destruct e; cbn in *; subst.
Qed.

Lemma with_lock_world {A} action (m : SolanaAction -> ST World A) e a :
  held e = false -> heap (world e) !! action = Some a ->
  with_lock action (fun a => on_world (m a)) e
  = match m a (world e) with
    | (Some r, w) => (Returned r, set_world w e)
    | (None, w) => (Panicked, set_world w e)
    end.
Proof.
  intros Hh Ha. unfold with_lock. unfold ex_bind at 1, lock. rewrite Hh.
  unfold ex_bind at 1, read_action. cbn [world set_held]. rewrite Ha.
  unfold ex_bind at 1, on_world. cbn [world set_held].
  destruct (m a (world e)) as [[r|] w]; destruct e; cbn in *; by subst.
Qed.

(** ** What becomes of an action *)

(** The error of a simulation asked for at the [n]-th network call: of the first
    provider that answers.  [None] when it passes. *)
Definition simulation_error (clients : RpcClientPool.t) (ixs : list Instruction) (payer : Pubkey)
    (hash : Hash) (n : Z) : option string * Z :=
  match RpcClientPool.execute_rpc_method_consequently_till_first_success clients
          (RpcClientPool.call (fun n p => answer_simulation n p ixs payer hash)) n with
  | (Some (Ok err), n') => (err, n')
  | (Some (Err x), n') => (Some (pool_error_string x), n')
  | (None, n') => (None, n')
  end.

(** A transaction is taken by a provider in one of its attempts or, when that way
    is on, by BloxRoute, which answers before or after the providers. *)
Definition accepted (config : ExecutorConfig) (clients : RpcClientPool.t) (ixs : list Instruction)
    (n : Z) : bool :=
  existsb (fun p => RpcClientPool.send_attempts p 0 RpcClientPool.MAX_RETRIES) clients.(RpcClientPool.clients) ||
  config.(use_bloxroute_trader_api) && bloxroute_send (if Nat.even (first_ready n) then n + 1 else n + 2) ixs.

(** How the task ends, what it has sent, and whether it keeps the action's lock. *)
Record Fate := { ends : Outcome BotEvent; sends : list Signature; keeps_lock : bool }.

Definition over (o : Outcome BotEvent) : Fate := {| ends := o; sends := []; keeps_lock := false |}.

Definition blocked (sent : list Signature) : Fate := {| ends := Stuck; sends := sent; keeps_lock := true |}.

(** From the instructions on, when the blockhash is the [n]-th network call. *)
Definition fate_of_built (config : ExecutorConfig) (clients : RpcClientPool.t) (a : SolanaAction)
    (ixs : list Instruction) (n : Z) : Fate :=
  match latest_blockhash n with
  | None => over (Failed "blockhash")
  | Some hash =>
      let '(refusal, n') :=
        if config.(simulate_execution) then simulation_error clients ixs (pubkey a.(fee_payer)) hash (n + 1)
        else (None, n + 1) in
      match refusal with
      | Some _ => blocked []
      | None =>
          if accepted config clients ixs n' then
            blocked [tx_signature ixs (if pubkey (sniper a) =? pubkey (fee_payer a) then [sniper a]
                                       else [sniper a; fee_payer a]) hash]
          else over (Failed "All ways to send the tx failed")
      end
  end.


Lemma simulate_tx_spec clients ixs payer hash e :
  simulate_tx clients ixs payer hash e
  = (Returned (fst (simulation_error clients ixs payer hash (network_calls e))),
     set_network_calls (snd (simulation_error clients ixs payer hash (network_calls e))) e).
Proof.
  destruct (simulate_tx_frame clients ixs payer hash e) as (r & e' & E & _). revert E.
  unfold simulate_tx, simulation_error.
  by destruct (RpcClientPool.execute_rpc_method_consequently_till_first_success _ _ _) as [[[v|x]|] n].
Qed.

Lemma awaited_ways config clients ixs e :
  let ways := (if use_bloxroute_trader_api config then [ViaBloxroute] else []) ++ [ViaRpc] in
  exists e', await_first_success (length ways) ways clients ixs e
    = (Returned (accepted config clients ixs (network_calls e)), e') /\ same_cells e e'.
Proof.
  intros ways. destruct (await_first_success_frame (length ways) ways clients ixs e) as (ok & e' & E & Hs).
  exists e'. split; [|done]. rewrite E. f_equal. f_equal. revert E. subst ways.
  unfold accepted, RpcClientPool.send_tx_to_all_providers.
  destruct (use_bloxroute_trader_api config); cbn [app length await_first_success andb];
    unfold ex_bind, network, ex_ret; cbn [network_calls set_network_calls]; unfold RpcClientPool.send_tx_to_all_providers.
  - pose proof (Nat.mod_upper_bound (first_ready (network_calls e)) 2 ltac:(done)) as Hm.
    pose proof (Nat.div_mod_eq (first_ready (network_calls e)) 2) as Hd.
    destruct (first_ready (network_calls e) mod 2)%nat as [|[|]] eqn:Em; [| |lia].
    + assert (Nat.even (first_ready (network_calls e)) = true) as ->
        by (rewrite Nat.even_spec; exists (first_ready (network_calls e) / 2)%nat; lia).
      cbn. destruct (bloxroute_send _ _); [intros [= <- _]; by rewrite orb_true_r|].
      rewrite orb_false_r, ?Nat.sub_0_l. cbn. by destruct (existsb _ _); intros [= <- _].
    + assert (Nat.even (first_ready (network_calls e)) = false) as ->.
      { apply not_true_is_false. rewrite Nat.even_spec. intros [k Hk]. lia. }
      cbn. destruct (existsb _ _); [by intros [= <- _]|]. rewrite ?Nat.sub_0_l. cbn.
      replace (network_calls e + 1 + 1) with (network_calls e + 2) by lia.
      by destruct (bloxroute_send _ _); intros [= <- _].
  - rewrite Nat.mod_1_r. cbn. rewrite orb_false_r. by destruct (existsb _ _); intros [= <- _].
Qed.

(** The execution [r] from [e] has the fate [f] and never changes the action. *)
Definition meets (f : Fate) (e : Env) (r : Outcome BotEvent * Env) : Prop :=
  fst r = ends f /\ broadcast (snd r) = broadcast e ++ sends f /\ held (snd r) = keeps_lock f /\
  heap (world (snd r)) = heap (world e).

Lemma meets_over e o e' :
  held e = false -> same_cells e e' -> meets (over o) e (o, e').
Proof. intros Hh (Hp & Hl & Hb). unfold meets, over. cbn. rewrite app_nil_r. split_and!; congruence. Qed.

Lemma send_built_fate config clients action a bal cu ixs e :
  heap (world e) !! action = Some a -> held e = false ->
  meets (fate_of_built config clients a
           ([SetComputeUnitLimit cu; SetComputeUnitPrice price_per_cu_priority] ++ ixs) (network_calls e))
    e (send_built config clients action bal cu ixs e).
Proof.
  intros Ha Hh. unfold send_built, fate_of_built.
  set (all := [SetComputeUnitLimit cu; SetComputeUnitPrice price_per_cu_priority] ++ ixs).
  unfold ex_bind at 1, lock. rewrite Hh. unfold ex_bind at 1, read_action. cbn [world set_held]. rewrite Ha.
  unfold ex_bind at 1, network at 1. cbn [network_calls set_held].
  destruct (latest_blockhash _) as [hash|]; [|by apply (meets_over e)].
  set (e1 := set_network_calls _ _). unfold ex_bind at 1.
  assert (Hsim : (if simulate_execution config
      then simulation_loop SIMULATION_RETRIES SIMULATION_RETRIES action clients all (pubkey (fee_payer a)) hash
      else ex_ret None) e1
    = let '(refusal, n) := if simulate_execution config
        then simulation_error clients all (pubkey (fee_payer a)) hash (network_calls e + 1)
        else (None, network_calls e + 1) in
      (match refusal with Some _ => Stuck | None => Returned None end, set_network_calls n e1)).
  { destruct (simulate_execution config); [|done].
    cbn [simulation_loop SIMULATION_RETRIES]. unfold ex_bind at 1. rewrite simulate_tx_spec.
    change (network_calls e1) with (network_calls e + 1).
    destruct (simulation_error _ _ _ _ _) as [[err|] n]; cbn [fst snd]; [|done].
    change (SIMULATION_RETRIES - 1 =? 0)%nat with true. cbv iota. unfold ex_bind at 1.
    by rewrite with_lock_held. }
  rewrite Hsim. clear Hsim.
  destruct (if simulate_execution config then _ else _) as [[err|] n].
  { unfold meets, blocked. cbn. by rewrite app_nil_r. }
  unfold ex_bind at 1, execute_tx. unfold ex_bind at 1.
  destruct (awaited_ways config clients all (set_network_calls n e1)) as (e2 & E & (Hp & Hl & Hb)).
  cbv zeta in E. rewrite E. clear E. change (network_calls (set_network_calls n e1)) with n.
  cbn in Hp, Hl, Hb. destruct (accepted config clients all n).
  - unfold ex_bind, ex_modify, ex_ret. cbn [fst snd].
    unfold on_world, with_cache, st_modify. cbn [world set_broadcast].
    rewrite with_lock_held by (cbn; congruence). unfold meets, blocked. cbn.
    rewrite Hb. split_and!; [done| |congruence|congruence]. by destruct (_ =? _).
  - unfold meets, over, ex_ret. cbn. rewrite app_nil_r. split_and!; congruence.
Qed.

(** ** The theorems *)

(** What can come out of an execution from [e], the guard free. *)
Definition outcome_ok (action : ActionRef) (a : SolanaAction) (e : Env) (r : Outcome BotEvent * Env)
    : Prop :=
  let '(o, e') := r in
  heap (world e') = heap (world e) /\
  match o with
  | Returned ev =>
      broadcast e' = broadcast e /\ held e' = false /\
      (ev = the_result action (uuid a) (ExecutionFailed ActionTooOld) /\
         is_expired (now (world e)) a = true \/
       ev = the_result action (uuid a) (ExecutionFailed NoInstructionsGenerated) /\
         is_expired (now (world e)) a = false)
  | Failed _ | Panicked => broadcast e' = broadcast e /\ held e' = false
  | Stuck => held e' = true
  end.

Lemma send_built_outcome config clients action a bal cu ixs e :
  heap (world e) !! action = Some a -> held e = false ->
  exists o e', send_built config clients action bal cu ixs e = (o, e') /\
    heap (world e') = heap (world e) /\
    match o with
    | Failed _ => broadcast e' = broadcast e /\ held e' = false
    | Stuck => held e' = true
    | Returned _ | Panicked => False
    end.
Proof.
  intros Ha Hh. destruct (send_built_fate config clients action a bal cu ixs e Ha Hh) as (Hend & Hsent & Hlock & Hp).
  destruct (send_built _ _ _ _ _ _ _) as [o e']. cbn in *. exists o, e'. split; [done|]. split; [done|].
  unfold fate_of_built in *. destruct (latest_blockhash _); [destruct (if simulate_execution config then _ else _) as [[err|] n];
    [|destruct (accepted _ _ _ _)]|]; cbn in *; subst o; try done; rewrite app_nil_r in Hsent; done.
Qed.

(** C14. An execution never reports that an action was sent, nor any error of
    building it: the only results it returns say that the action was too old or
    that it has no instructions, and in those no transaction was sent.  The
    action itself is never updated.  Whenever a transaction is sent the task is
    stuck, holding the action's lock for ever. *)
Theorem execute_never_reports_sent config clients action a e :
  heap (world e) !! action = Some a -> held e = false ->
  outcome_ok action a e (execute config clients action e) /\
  (broadcast (snd (execute config clients action e)) <> broadcast e ->
   fst (execute config clients action e) = Stuck).
Proof.
  intros Ha Hh. assert (Hok : outcome_ok action a e (execute config clients action e)).
  { unfold execute. unfold ex_bind at 1, on_world at 1, st_gets at 1. cbn [fst snd].
    assert (Hw : set_world (world e) e = e) by (by destruct e). rewrite Hw.
    unfold ex_bind at 1. rewrite (with_lock_ret action (is_expired (now (world e))) e a Hh Ha).
    destruct (is_expired (now (world e)) a) eqn:Ex.
    { unfold ex_bind. rewrite (with_lock_ret action uuid e a Hh Ha). cbn. auto 10. }
    unfold ex_bind at 1.
    rewrite (with_lock_ret action (fun a => estimate_cu_per_tx (action_payload a)) e a Hh Ha).
    unfold ex_bind at 1. rewrite (with_lock_world action _ e a Hh Ha).
    destruct (build_instructions_tame a price_per_cu_priority (estimate_cu_per_tx (action_payload a))
      (world e)) as (Hheap & Hnow & He).
    destruct (build_instructions _ _ _ (world e)) as [[[[bal ixs]|x]|] w]; cbn in Hheap, Hnow, He.
    - set (e1 := set_world w e).
      assert (Ha1 : heap (world e1) !! action = Some a) by (cbn; congruence).
      destruct ixs as [|ix ixs].
      + unfold ex_bind. rewrite (with_lock_ret action uuid e1 a Hh Ha1). cbn. auto 10.
      + destruct (send_built_outcome config clients action a bal
          (estimate_cu_per_tx (action_payload a)) (ix :: ixs) e1 Ha1 Hh) as (o & e2 & -> & Hheap2 & Ho).
        cbn in Hheap2. split; [congruence|]. by destruct o.
    - destruct x; try discriminate; cbn; auto.
    - cbn. auto. }
  split; [exact Hok|]. revert Hok. destruct (execute config clients action e) as [[]  e']; cbn;
    intros (_ & Ho); try done; destruct Ho as [Ho _]; by intros [].
Qed.

End Facts.

(** ** The theorems at a concrete execution *)

Definition sample_network : ExecutorExt := {|
  latest_blockhash := fun _ => Some 77;
  answer_simulation := fun _ _ _ _ _ => Ok None;
  bloxroute_send := fun _ _ => true;
  first_ready := fun n => Z.to_nat n;
  tx_signature := fun _ _ _ => 99;
  uuid_string := fun _ => "uuid";
  pool_error_string := fun _ => "rpc error"
|}.

#[local] Existing Instance sample_ext.
#[local] Existing Instance debug_build.
#[local] Existing Instance sample_clients.
#[local] Existing Instance checked_pow_model.
#[local] Existing Instance sample_network.

(** Cell 5 holds an order for a small transfer. *)
Definition small_order : SolanaAction := order (exact_transfers [(8, 1000)]).

Definition sample_execution : Env :=
  env (set_heap (<[5 := small_order]> ∅) rich_world) false 0 [].

Definition plain_config : ExecutorConfig :=
  {| simulate_execution := false; use_bloxroute_trader_api := false |}.

Lemma execute_never_reports_sent_witness :
  outcome_ok 5 small_order sample_execution
    (execute plain_config (RpcClientPool.mk ["up"]) 5 sample_execution).
Proof.
  apply (execute_never_reports_sent plain_config (RpcClientPool.mk ["up"]) 5 small_order sample_execution);
    reflexivity.
Defined.


