(* ===== verification/TxParser.v ===== *)
(** * Transactions of the feed ([solana/tx_parser.rs], [solana/pool.rs])

    What the bot reads out of a transaction: the Raydium swaps and the pool that
    an [initialize2] instruction opens.  The types of [solana_transaction_status]
    are kept with the fields the code reads; decoding, base58 and the regular
    expression engine are the class [TxCodec]. *)

From S2P Require Import Prelude MachineInt Float64 Amounts Types Cache.

(** ** The transaction as the feed gives it *)

(** [serde_json::Value]; the keys of an object are distinct. *)
#[warnings="-register-all"]
Inductive Value :=
| VNull
| VBool (b : bool)
| VNumber (x : f64)
| VString (s : string)
| VArray (l : list Value)
| VObject (fields : list (string * Value)).

(** An instruction the node has parsed: the program's name and address, and what it
    says. *)
Record ParsedInstruction := {
  ix_program : string;
  ix_program_id : string;
  ix_parsed : Value;
}.

Record UiPartiallyDecodedInstruction := {
  pd_program_id : string;
  pd_accounts : list string;
  pd_data : string;
}.

Inductive UiParsedInstruction :=
| ParsedIx (ix : ParsedInstruction)
| PartiallyDecoded (ix : UiPartiallyDecodedInstruction).

Record UiCompiledInstruction := {
  ci_program_id_index : nat;
  ci_accounts : list nat;
  ci_data : string;
}.

Inductive UiInstruction :=
| CompiledUi (c : UiCompiledInstruction)
| ParsedUi (p : UiParsedInstruction).

Record UiParsedMessage := {
  account_keys : list string;
  instructions : list UiInstruction;
}.

Inductive UiMessage :=
| MessageParsed (m : UiParsedMessage)
| MessageRaw (ixs : list UiCompiledInstruction).

(** A transaction is given in JSON or as encoded bytes. *)
Inductive EncodedTransaction :=
| Json (message : UiMessage)
| Encoded (blob : string).

(** A message of the chain stays in its serialized form. *)
Inductive VersionedMessage :=
| Legacy (message : string)
| V0 (message : string).

Record VersionedTransaction := {
  vt_signatures : list Signature;
  vt_message : VersionedMessage;
}.

Record UiTransactionTokenBalance := {
  tb_mint : string;
  tb_decimals : Z;
}.

(** [UiInnerInstructions]: the instructions only. *)
Record UiTransactionStatusMeta := {
  meta_err : option TransactionError;
  meta_status_ok : bool;
  meta_fee : Z;
  inner_instructions : option (list (list UiInstruction));
  log_messages : option (list string);
  pre_token_balances : option (list UiTransactionTokenBalance);
  compute_units_consumed : option Z;
}.

(** [TransactionPretty] of [collectors/tx_stream/types.rs]. *)
Record TransactionPretty := {
  signature : Signature;
  is_vote : bool;
  tx_transaction : EncodedTransaction;
  tx_meta : option UiTransactionStatusMeta;
}.

Definition is_successful (tx : TransactionPretty) : bool :=
  match tx.(tx_meta) with Some m => m.(meta_status_ok) | None => false end.

Inductive TokenInstruction :=
| TokenTransfer (amount : Z)
| TokenOther.

(** [decode_transaction]: [EncodedTransaction::decode]; [encode_message]: a
    legacy message as parsed JSON; [encode_json]: a decoded transaction encoded
    again as parsed JSON, with the metadata of its update;
    [initialize2_captures]: the four groups of the code's regular expression. *)
Class TxCodec := {
  decode_transaction : EncodedTransaction -> option VersionedTransaction;
  encode_message : string -> UiMessage;
  encode_json : EncodedTransaction -> option EncodedTransaction;
  pubkey_from_str : string -> option Pubkey;
  bs58_decode : string -> option (list Z);
  unpack_token_instruction : list Z -> option TokenInstruction;
  initialize2_captures : string -> option (string * string * string * string);
}.

(** ** Constants ([solana/constants.rs]) *)
Definition TOKEN_PROGRAM_ID : string := "TokenkegQfeZyiNwAJbNbGKPFXCWuBvf9Ss623VQ5DA".
Definition WSOL_MINT_ADDRESS : string := "So11111111111111111111111111111111111111112".
Definition RAYDIUM_V4_PROGRAM_ID : string := "675kPX9MHTjS2zt1qfr1NYHuzeLXfQM9H24wFSUt1Mp8".
Definition RAYDIUM_V4_AUTHORITY : string := "5Q544fKrFoe6tsEbD7S8EmxGTJYAKtTVhAW5Q5pge4j1".

Record Swap := {
  swap_signature : Signature;
  swap_pool_id : Pubkey;
  swap_quote_amount : Z;
  swap_base_amount : Z;
  swap_direction : TradeDirection;
}.

(** A parser that may give up with [None] ([Err tt]) or panic. *)
Abbreviation Parser S A := (ST S (result unit A)) (only parsing).

Section Parser.
Context `{Ext} `{TxCodec} `{CheckedPow} {S : Type}.

(** [opt?]. *)
Definition opt {A} (o : option A) : Parser S A :=
  match o with Some a => st_ok a | None => st_bail tt end.

(** [opt.unwrap()], an index. *)
Definition must {A} (o : option A) : Parser S A := st_lift (st_unwrap o).

(** ** Instructions *)

Definition parse_ui_compiled_instruction (c : UiCompiledInstruction) (account_keys : list string)
    : Parser S UiPartiallyDecodedInstruction :=
  program <-! must (account_keys !! c.(ci_program_id_index)) ;;
  accounts <-! must (mapM (fun i => account_keys !! i) c.(ci_accounts)) ;;
  st_ok {| pd_program_id := program; pd_accounts := accounts; pd_data := c.(ci_data) |}.

Definition parse_ui_instruction (ui_instruction : UiInstruction) (account_keys : list string)
    : Parser S UiParsedInstruction :=
  match ui_instruction with
  | CompiledUi c =>
      pd <-! parse_ui_compiled_instruction c account_keys ;; st_ok (PartiallyDecoded pd)
  | ParsedUi (PartiallyDecoded pd) => st_ok (PartiallyDecoded pd)
  | ParsedUi (ParsedIx _) => st_panic
  end.

(** ** Swaps *)

(** The locals of the loop over a swap's inner instructions. *)
Record Scan := {
  quote_amount : Z;
  base_amount : Z;
  trade_direction : TradeDirection;
}.

(** The first loop over two inner instructions: the last one decides the
    direction. *)
Fixpoint decode_inner (sol_ata : string) (tx_accounts : list string) (ixs : list UiInstruction)
    (direction : TradeDirection)
    : Parser S (TradeDirection * list UiPartiallyDecodedInstruction) :=
  match ixs with
  | [] => st_ok (direction, [])
  | ui_i :: ixs' =>
      parsed <-! parse_ui_instruction ui_i tx_accounts ;;
      match parsed with
      | PartiallyDecoded pd =>
          destination <-! must (pd.(pd_accounts) !! 1%nat) ;;
          rest <-! decode_inner sol_ata tx_accounts ixs'
                     (if String.eqb destination sol_ata then TradeSell else TradeBuy) ;;
          st_ok (fst rest, pd :: snd rest)
      | ParsedIx _ => decode_inner sol_ata tx_accounts ixs' direction
      end
  end.

Definition is_transfer (pd : UiPartiallyDecodedInstruction) (data : list Z) : bool :=
  String.eqb pd.(pd_program_id) TOKEN_PROGRAM_ID &&
  match data with b :: _ => b =? 3 | [] => false end.

(** The transfer of [amount] under [authority_account]. *)
Definition record_transfer (raydium : bool) (amount : Z) (s : Scan) : Scan :=
  match raydium, s.(trade_direction) with
  | true, TradeBuy | false, TradeSell =>
      {| quote_amount := s.(quote_amount); base_amount := amount;
         trade_direction := s.(trade_direction) |}
  | true, TradeSell | false, TradeBuy =>
      {| quote_amount := amount; base_amount := s.(base_amount);
         trade_direction := s.(trade_direction) |}
  end.

(** The second loop: the amounts of the transfers. *)
Fixpoint read_transfers (pds : list UiPartiallyDecodedInstruction) (s : Scan) : Parser S Scan :=
  match pds with
  | [] => st_ok s
  | pd :: pds' =>
      data <-! opt (bs58_decode pd.(pd_data)) ;;
      if is_transfer pd data then
        ti <-! opt (unpack_token_instruction data) ;;
        match ti with
        | TokenOther => st_bail tt
        | TokenTransfer amount =>
            source_account <-! must (pd.(pd_accounts) !! 0%nat) ;;
            destination_account <-! must (pd.(pd_accounts) !! 1%nat) ;;
            authority_account <-! must (pd.(pd_accounts) !! 2%nat) ;;
            read_transfers pds'
              (record_transfer (String.eqb authority_account RAYDIUM_V4_AUTHORITY) amount s)
        end
      else read_transfers pds' s
  end.

(** The loop over the inner instructions of the whole transaction. *)
Fixpoint scan_inner (sol_ata : string) (tx_accounts : list string)
    (all_inner_ixs : list (list UiInstruction)) (s : Scan) : Parser S Scan :=
  match all_inner_ixs with
  | [] => st_ok s
  | inner_ixs :: rest =>
      if (length inner_ixs =? 2)%nat then
        d <-! decode_inner sol_ata tx_accounts inner_ixs s.(trade_direction) ;;
        s' <-! read_transfers (snd d)
                 {| quote_amount := s.(quote_amount); base_amount := s.(base_amount);
                    trade_direction := fst d |} ;;
        scan_inner sol_ata tx_accounts rest s'
      else scan_inner sol_ata tx_accounts rest s
  end.

Definition no_scan : Scan :=
  {| quote_amount := 0; base_amount := 0; trade_direction := TradeBuy |}.

(** The amounts of a swap whose last account is [authority]. *)
Definition scan_swap (meta : option UiTransactionStatusMeta) (tx_accounts : list string)
    (authority : string) : Parser S Scan :=
  owner <-! must (pubkey_from_str authority) ;;
  wsol <-! must (pubkey_from_str WSOL_MINT_ADDRESS) ;;
  let sol_ata := pubkey_string (ata owner wsol) in
  match meta with
  | Some m =>
      if bool_decide (is_Some m.(meta_err)) then st_bail tt else
      all_inner_ixs <-! opt m.(inner_instructions) ;;
      scan_inner sol_ata tx_accounts all_inner_ixs no_scan
  | None => st_ok no_scan
  end.

Fixpoint parse_swap_instructions (sig : Signature) (meta : option UiTransactionStatusMeta)
    (tx_accounts : list string) (ixs : list UiInstruction) (swaps : list Swap)
    : Parser S (list Swap) :=
  match ixs with
  | [] => st_ok swaps
  | ParsedUi (PartiallyDecoded ix) :: ixs' =>
      let instruction_accounts := ix.(pd_accounts) in
      if String.eqb ix.(pd_program_id) RAYDIUM_V4_PROGRAM_ID then
        authority <-! must (last instruction_accounts) ;;
        s <-! scan_swap meta tx_accounts authority ;;
        pool_str <-! must (instruction_accounts !! 1%nat) ;;
        pool <-! must (pubkey_from_str pool_str) ;;
        parse_swap_instructions sig meta tx_accounts ixs'
          (swaps ++ [{| swap_signature := sig; swap_pool_id := pool;
                        swap_quote_amount := s.(quote_amount);
                        swap_base_amount := s.(base_amount);
                        swap_direction := s.(trade_direction) |}])
      else parse_swap_instructions sig meta tx_accounts ixs' swaps
  | _ :: _ => st_bail tt
  end.

Definition parse_tx_for_swaps (tx : TransactionPretty) : Parser S (list Swap) :=
  versioned_tx <-! must (decode_transaction tx.(tx_transaction)) ;;
  sig <-! must (head versioned_tx.(vt_signatures)) ;;
  match versioned_tx.(vt_message) with
  | V0 _ => st_bail tt
  | Legacy message =>
      match encode_message message with
      | MessageRaw _ => st_bail tt
      | MessageParsed m =>
          parse_swap_instructions sig tx.(tx_meta) m.(account_keys) m.(instructions) []
      end
  end.

(** ** New pools *)

Definition digit_of (a : Ascii.ascii) : option Z :=
  let n := Z.of_N (Ascii.N_of_ascii a) in
  if (48 <=? n) && (n <=? 57) then Some (n - 48) else None.

(** [str::parse] of a run of digits, at an integer type of maximum [max]. *)
Fixpoint parse_digits (max acc : Z) (s : string) : option Z :=
  match s with
  | EmptyString => Some acc
  | String a s' =>
      d ← digit_of a;
      let acc' := 10 * acc + d in
      if acc' <=? max then parse_digits max acc' s' else None
  end.

Definition parse_uint (max : Z) (s : string) : option Z :=
  match s with EmptyString => None | _ => parse_digits max 0 s end.

Record InitializeLog := {
  nonce : Z;
  log_open_time : Z;
  init_pc_amount : Z;
  init_coin_amount : Z;
}.

(** The block that reads the log of the program. *)
Definition read_initialize_log (meta : UiTransactionStatusMeta) : Parser S InitializeLog :=
  messages <-! opt meta.(log_messages) ;;
  log_message <-! opt (List.find (str_contains "initialize2") messages) ;;
  captures <-! opt (initialize2_captures log_message) ;;
  let '(c1, c2, c3, c4) := captures in
  n <-! opt (parse_uint 255 c1) ;;
  o <-! opt (parse_uint u64_max c2) ;;
  pc <-! opt (parse_uint u64_max c3) ;;
  coin <-! opt (parse_uint u64_max c4) ;;
  st_ok {| nonce := n; log_open_time := o; init_pc_amount := pc; init_coin_amount := coin |}.

Definition is_raydium_instruction (i : UiInstruction) : bool :=
  match i with
  | ParsedUi (PartiallyDecoded ix) => String.eqb ix.(pd_program_id) RAYDIUM_V4_PROGRAM_ID
  | _ => false
  end.

Definition extract_token_balance_from_pre_or_post_token_balances
    (token_balances : option (list UiTransactionTokenBalance)) (token_mint_address : string)
    : option UiTransactionTokenBalance :=
  balances ← token_balances;
  List.find (fun b => String.eqb b.(tb_mint) token_mint_address) balances.

(** [Pubkey::from_str(&accounts[i]).unwrap()]. *)
Definition account_key (accounts : list string) (i : nat) : Parser S Pubkey :=
  a <-! must (accounts !! i) ;; must (pubkey_from_str a).

Definition message_instructions (t : EncodedTransaction) : Parser S (list UiInstruction) :=
  json <-! match t with
           | Json _ => st_ok t
           | Encoded _ => opt (encode_json t)
           end ;;
  match json with
  | Json (MessageParsed m) => st_ok m.(instructions)
  | _ => st_bail tt
  end.

(** [time]: the clock at the call. *)
Definition extract_pool_from_init_tx (time : Z) (tx : TransactionPretty)
    : Parser S (RaydiumPool * RaydiumPoolPriceUpdate) :=
  meta <-! opt tx.(tx_meta) ;;
  initialize_log <-! read_initialize_log meta ;;
  ixs <-! message_instructions tx.(tx_transaction) ;;
  initialize_tx <-! opt (List.find is_raydium_instruction ixs) ;;
  accounts <-! match initialize_tx with
               | ParsedUi (PartiallyDecoded ix) => st_ok ix.(pd_accounts)
               | _ => st_bail tt
               end ;;
  mint8 <-! account_key accounts 8 ;;
  vault10 <-! account_key accounts 10 ;;
  mint9 <-! account_key accounts 9 ;;
  vault11 <-! account_key accounts 11 ;;
  let reversed_pool := String.eqb (pubkey_string mint8) WSOL_MINT_ADDRESS in
  let '(base, quote) := if reversed_pool then (mint9, mint8) else (mint8, mint9) in
  let '(bvault, qvault) := if reversed_pool then (vault11, vault10) else (vault10, vault11) in
  lp_mint_ <-! account_key accounts 7 ;;
  let '(sol_reserve, token_reserve) :=
    if reversed_pool then (initialize_log.(init_coin_amount), initialize_log.(init_pc_amount))
    else (initialize_log.(init_pc_amount), initialize_log.(init_coin_amount)) in
  pre_token_balance <-! opt (extract_token_balance_from_pre_or_post_token_balances
                               meta.(pre_token_balances) (pubkey_string base)) ;;
  base_reserve <-! must (Decimals.tokens_to_ui_amount_with_decimals_f64 token_reserve
                           pre_token_balance.(tb_decimals)) ;;
  let quote_reserve := Decimals.lamports_to_sol sol_reserve in
  id <-! account_key accounts 4 ;;
  program <-! must (pubkey_from_str RAYDIUM_V4_PROGRAM_ID) ;;
  auth <-! account_key accounts 5 ;;
  open <-! account_key accounts 6 ;;
  target <-! account_key accounts 13 ;;
  withdraw <-! must (pubkey_from_str "11111111111111111111111111111111") ;;
  lpv <-! account_key accounts 12 ;;
  market_program <-! account_key accounts 15 ;;
  market <-! account_key accounts 16 ;;
  st_ok ({| pool_id := id; base_mint := base; quote_mint := quote; lp_mint := lp_mint_;
            base_decimals := pre_token_balance.(tb_decimals); quote_decimals := 9;
            lp_decimals := 0; version := 4; program_id := program; authority := auth;
            open_orders := open; target_orders := target; base_vault := bvault;
            quote_vault := qvault; withdraw_queue := withdraw; lp_vault := lpv;
            market_version := 3; market_program_id := market_program; market_id := market;
            lp_reserve := 0; open_time := 0; reverse_pool := reversed_pool;
            freeze_authority := None |},
         {| pu_pool := id; pu_price := f64_div quote_reserve base_reserve;
            pu_base_reserve := base_reserve; pu_quote_reserve := quote_reserve;
            pu_created_at := time |}).
End Parser.
