(* ===== verification/ParsedTx.v ===== *)
(** * Reading parsed instructions ([solana/tx_parser.rs], [solana/pool.rs])

    The helpers that look into instructions an RPC node has parsed to JSON: the
    mint of a transaction, whether it is a transfer, the amount moved to an
    account.  A helper that returns [Err] or [None] is [st_bail tt]; a failed
    [unwrap] is a panic. *)

From S2P Require Import Prelude MachineInt Float64 Amounts Types Cache TxParser.

(** ** JSON values *)

(** [value.get(key)]. *)
Definition get (key : string) (v : Value) : option Value :=
  match v with
  | VObject fields => snd <$> List.find (fun kv => String.eqb kv.1 key) fields
  | _ => None
  end.

(** [value[key]]. *)
Definition index (v : Value) (key : string) : Value := default VNull (get key v).

Definition as_str (v : Value) : option string := match v with VString s => Some s | _ => None end.

Definition is_null (v : Value) : bool := match v with VNull => true | _ => false end.

(** [value == "text"]. *)
Definition eq_str (v : Value) (s : string) : bool :=
  match v with VString s' => String.eqb s' s | _ => false end.

Definition extract_type_field (data : Value) : option string := get "type" data ≫= as_str.

Fixpoint extract_field {T} (data : Value) (fields : list string) (extract_fn : Value -> option T) : option T :=
  match fields with
  | [] => extract_fn data
  | field :: rest =>
      value ← get field data;
      if is_null value then None else extract_field value rest extract_fn
  end.

(** [u64::from_str]. *)
Definition parse_u64 : string -> option Z := parse_int 0 (2 ^ 64 - 1).

Section Parsed.
Context {S : Type}.

(** ** Instructions of a transaction *)

(** [base58]: a compiled instruction's data, which is a text already, encoded again. *)
Definition compiled_again (base58 : string -> string) (ix : UiCompiledInstruction) : UiInstruction :=
  CompiledUi {| ci_program_id_index := ci_program_id_index ix; ci_accounts := ci_accounts ix;
                ci_data := base58 (ci_data ix) |}.

Definition parse_ui_message (base58 : string -> string) (ui_msg : UiMessage) : list UiInstruction :=
  match ui_msg with
  | MessageParsed msg => instructions msg
  | MessageRaw ixs => map (compiled_again base58) ixs
  end.

Definition parse_instructions (base58 : string -> string) (tx : EncodedTransaction) :
    Parser S (list UiInstruction) :=
  match tx with
  | Json msg => st_ok (parse_ui_message base58 msg)
  | Encoded _ => st_bail tt
  end.

(** The parsed instructions among others, in order. *)
Definition parsed_of (ixs : list UiInstruction) : list ParsedInstruction :=
  omap (fun i => match i with ParsedUi (ParsedIx ix) => Some ix | _ => None end) ixs.

(** The loop shared by [parse_mint] and [parse_accounts], whose bodies are the same. *)
Fixpoint find_mint (ixs : list UiInstruction) : Parser S string :=
  match ixs with
  | [] => st_bail tt
  | ParsedUi (ParsedIx ix) :: ixs' =>
      if String.eqb (ix_program ix) "spl-associated-token-account" then
        must (as_str (index (index (ix_parsed ix) "info") "mint"))
      else find_mint ixs'
  | _ :: ixs' => find_mint ixs'
  end.

Definition parse_mint (base58 : string -> string) (tx : EncodedTransaction) : Parser S string :=
  ixs <-! parse_instructions base58 tx ;; find_mint ixs.

Definition parse_accounts (base58 : string -> string) (tx : EncodedTransaction) : Parser S string :=
  ixs <-! parse_instructions base58 tx ;; find_mint ixs.

(** [(a as f64 - b as f64) as u64]. *)
Definition notional_difference (a b : Z) : Z := f64_as_u64 (f64_sub (f64_of_Z a) (f64_of_Z b)).

(** [zip], [map], [max().unwrap()]. *)
Definition parse_notional (meta : option (list Z * list Z)) : Parser S Z :=
  match meta with
  | Some (pre_balances, post_balances) =>
      match zip_with notional_difference pre_balances post_balances with
      | [] => st_lift st_panic
      | d :: ds => st_ok (foldl Z.max d ds)
      end
  | None => st_bail tt
  end.

(** [parse_instructions(tx).unwrap()] and a search. *)
Definition some_parsed (is_it : ParsedInstruction -> bool) (base58 : string -> string)
    (tx : EncodedTransaction) : ST S bool :=
  r <- parse_instructions base58 tx ;;
  match r with
  | Ok ixs => st_ret (existsb is_it (parsed_of ixs))
  | Err _ => st_panic
  end.

Definition SYSTEM_PROGRAM_ID : string := "11111111111111111111111111111111".

Definition is_tx_a_sol_transfer (base58 : string -> string) (tx : EncodedTransaction) : ST S bool :=
  some_parsed (fun ix => String.eqb (ix_program ix) SYSTEM_PROGRAM_ID &&
    eq_str (index (ix_parsed ix) "type") "transfer") base58 tx.

Definition is_tx_a_token_transfer (base58 : string -> string) (tx : EncodedTransaction) : ST S bool :=
  some_parsed (fun ix => String.eqb (ix_program ix) TOKEN_PROGRAM_ID &&
    eq_str (index (ix_parsed ix) "type") "transfer") base58 tx.

Definition COMPUTE_BUDGET : string := "ComputeBudget111111111111111111111111111111".

(** The first instruction of the compute budget decides, by its data alone: the price
    it sets is not read. *)
Fixpoint find_compute_unit_price (bs58_decode : string -> option (list Z)) (ixs : list UiInstruction) :
    Parser S Z :=
  match ixs with
  | [] => st_bail tt
  | ParsedUi (PartiallyDecoded ix) :: ixs' =>
      if String.eqb (pd_program_id ix) COMPUTE_BUDGET then
        match bs58_decode (pd_data ix) with Some _ => st_ok 0 | None => st_bail tt end
      else find_compute_unit_price bs58_decode ixs'
  | _ :: ixs' => find_compute_unit_price bs58_decode ixs'
  end.

Definition parse_tx_for_set_compute_unit_price (base58 : string -> string)
    (bs58_decode : string -> option (list Z)) (tx : EncodedTransaction) : Parser S Z :=
  ixs <-! parse_instructions base58 tx ;; find_compute_unit_price bs58_decode ixs.

(** ** Inner instructions ([solana/pool.rs]) *)

Definition is_of_type (address type_field_value info_field : string) (ix : ParsedInstruction) : bool :=
  match extract_type_field (ix_parsed ix) with
  | Some t =>
      String.eqb t type_field_value &&
      match (get "info" (ix_parsed ix) ≫= get info_field) ≫= as_str with
      | Some info => String.eqb info address
      | None => false
      end
  | None => false
  end.

Definition get_inner_instruction_by_type_field (inner_instructions : list (list UiInstruction))
    (address type_field_value info_field : string) : option ParsedInstruction :=
  List.find (is_of_type address type_field_value info_field) (parsed_of (concat inner_instructions)).

(** The loop over all the inner instructions; both [unwrap]s may fail. *)
Fixpoint find_transfer_by_destination (destination_account : string) (ixs : list ParsedInstruction) :
    ST S (option ParsedInstruction) :=
  match ixs with
  | [] => st_ret None
  | ix :: ixs' =>
      t <- st_unwrap (extract_type_field (ix_parsed ix)) ;;
      found <- (if String.eqb t "transfer" then
                  d <- st_unwrap ((get "info" (ix_parsed ix) ≫= get "destination") ≫= as_str) ;;
                  st_ret (String.eqb d destination_account && String.eqb (ix_program_id ix) RAYDIUM_V4_PROGRAM_ID)
                else st_ret false) ;;
      if found : bool then st_ret (Some ix) else find_transfer_by_destination destination_account ixs'
  end.

Definition find_transfer_instruction_in_inner_instructions_by_destination
    (inner_instructions : list (list UiInstruction)) (destination_account : string) :
    ST S (option ParsedInstruction) :=
  find_transfer_by_destination destination_account (parsed_of (concat inner_instructions)).

Definition get_info_amount (base_instruction : option ParsedInstruction) : option Z :=
  ix ← base_instruction;
  ((get "info" (ix_parsed ix) ≫= get "amount") ≫= as_str) ≫= parse_u64.

(** Where a token transfer goes, if the instruction is one. *)
Definition transfer_destination (ix : ParsedInstruction) : option string :=
  if String.eqb (ix_program_id ix) TOKEN_PROGRAM_ID then
    t ← extract_type_field (ix_parsed ix);
    if String.eqb t "transfer" then extract_field (ix_parsed ix) ["info"; "destination"]%string as_str else None
  else None.

Definition transfer_amount (ix : ParsedInstruction) : option Z :=
  extract_field (ix_parsed ix) ["info"; "amount"]%string (fun v => as_str v ≫= parse_u64).

Fixpoint find_amount (vault_address : string) (ixs : list ParsedInstruction) : option Z :=
  match ixs with
  | [] => None
  | ix :: ixs' =>
      match transfer_destination ix with
      | Some destination =>
          if String.eqb destination vault_address then transfer_amount ix else find_amount vault_address ixs'
      | None => find_amount vault_address ixs'
      end
  end.

Definition find_transfer_amount (inner_instructions : list (list UiInstruction)) (vault_address : string) :
    option Z :=
  find_amount vault_address (parsed_of (concat inner_instructions)).
End Parsed.

(** ** What they find *)

(** The amount is that of the first transfer to the vault: an amount that is no [u64]
    there ends the search without one, even if a later transfer has one. *)
Lemma find_transfer_amount_spec inner vault n :
  find_transfer_amount inner vault = Some n <->
  exists before ix after, parsed_of (concat inner) = before ++ ix :: after /\
    transfer_destination ix = Some vault /\ transfer_amount ix = Some n /\
    Forall (fun ix' => transfer_destination ix' <> Some vault) before.
Proof.
  unfold find_transfer_amount. induction (parsed_of (concat inner)) as [|ix ixs IH]; cbn.
  - split; [done|]. intros (before & ix & after & E & _). by destruct before.
  - destruct (transfer_destination ix) as [d|] eqn:Hd; [destruct (String.eqb_spec d vault) as [->|Hne]|].
    + split.
      * intros Ha. exists [], ix, ixs. by split_and!.
      * intros (before & ix' & after & E & Hd' & Ha & Hb). destruct before as [|x before]; injection E as <- ->; [done|].
        by apply Forall_cons in Hb as [Hb _].
    + rewrite IH. split.
      * intros (before & ix' & after & -> & Hd' & Ha & Hb). exists (ix :: before), ix', after.
        split; [done|]. split; [done|]. split; [done|]. constructor; [congruence | done].
      * intros (before & ix' & after & E & Hd' & Ha & Hb). destruct before as [|x before]; injection E as <- E; [congruence|].
        apply Forall_cons in Hb as [_ Hb]. eauto 10.
    + rewrite IH. split.
      * intros (before & ix' & after & -> & Hd' & Ha & Hb). exists (ix :: before), ix', after.
        split; [done|]. split; [done|]. split; [done|]. constructor; [congruence | done].
      * intros (before & ix' & after & E & Hd' & Ha & Hb). destruct before as [|x before]; injection E as <- E; [congruence|].
        apply Forall_cons in Hb as [_ Hb]. eauto 10.
Qed.

Lemma find_transfer_amount_range inner vault n : find_transfer_amount inner vault = Some n -> is_u64 n.
Proof.
  intros (before & ix & after & _ & _ & Ha & _)%find_transfer_amount_spec. unfold transfer_amount in Ha. cbn in Ha.
  destruct (get "info" (ix_parsed ix)) as [v|]; [|done]. cbn in Ha. destruct (is_null v); [done|].
  destruct (get "amount" v) as [v'|]; [|done]. cbn in Ha. destruct (is_null v'); [done|].
  destruct (as_str v') as [t|]; [|done]. cbn in Ha. apply parse_int_range in Ha. unfold is_u64. lia.
Qed.

(** A transfer of the token program as a node shows it. *)
Definition sample_transfer (destination amount : string) : ParsedInstruction :=
  {| ix_program := "spl-token"; ix_program_id := TOKEN_PROGRAM_ID;
     ix_parsed := VObject [("type", VString "transfer");
       ("info", VObject [("destination", VString destination); ("amount", VString amount)])]%string |}.

Example finds_amount :
  find_transfer_amount [[ParsedUi (ParsedIx (sample_transfer "a" "5"))]; [ParsedUi (ParsedIx (sample_transfer "b" "7"))]] "b" = Some 7.
Proof. reflexivity. Qed.

(** [is_tx_a_token_transfer] compares the name of the program with its address, and
    [find_transfer_instruction_in_inner_instructions_by_destination] asks a transfer to be
    of Raydium's program: a transfer of the token program is neither. *)
Example token_transfer_not_seen {S} (s : S) base58 keys :
  let tx := Json (MessageParsed {| account_keys := keys; instructions := [ParsedUi (ParsedIx (sample_transfer "a" "5"))] |}) in
  is_tx_a_token_transfer base58 tx s = (Some false, s) /\
  find_transfer_instruction_in_inner_instructions_by_destination
    [[ParsedUi (ParsedIx (sample_transfer "a" "5"))]] "a" s = (Some None, s).
Proof. by split. Qed.
