(* ===== verification/Providers.v ===== *)
(** * The services around the nodes ([solana])

    The queries of [rpc_pool.rs] that the strategies' paths do not use, the
    balances of [getters.rs], the pool of geyser clients, and the BloxRoute client
    ([bloxroute.rs]): its fee stream and the transactions it sends.  The services
    answer as they like: their answers are arguments. *)

From stdpp Require Import sorting.
From S2P Require Import Prelude MachineInt Float64 Amounts Types GenericApi BuildInstructions RpcPool TxParser ParsedTx.

(** ** Queries of the RPC pool ([rpc_pool.rs]) *)

(** The answers of a provider that these queries read: a balance; the text of a token
    amount; whether an account is there, or else whether the error is
    [TransactionError::AccountNotFound] and its text. *)
Class RpcQueries := {
  answer_balance : Z -> ProviderName -> Pubkey -> result string Z;
  answer_token_amount : Z -> ProviderName -> Pubkey -> result string string;
  answer_present : Z -> ProviderName -> Pubkey -> result (bool * string) unit;
  (** [recent_prioritization_fees]: slots and fees *)
  answer_recent_fees : Z -> ProviderName -> result string (list (Z * Z));
  get_associated_token_address : Pubkey -> Pubkey -> Pubkey;
  (** [Mint::unpack]: the freeze authority *)
  unpack_mint : list Byte.byte -> option (option Pubkey);
}.

Section Queries.
Context `{RpcClients} `{CheckedPow} `{RpcQueries}.

Abbreviation Query A := (ST Z (result PoolError A)) (only parsing).

(** [Result]'s error of [parse] through [?]. *)
Definition ok_or_parse {A} (o : option A) : Query A :=
  match o with Some a => st_ok a | None => st_bail (PoolOther "ParseIntError") end.

Definition new_pool (rpc_client_uris : list (ProviderName * string)) : RpcClientPool.t :=
  RpcClientPool.mk rpc_client_uris.*1.

Definition get_a_client (self : RpcClientPool.t) : option ProviderName := head (RpcClientPool.clients self).

Definition get_balance (self : RpcClientPool.t) (pubkey : Pubkey) : Query Z :=
  RpcClientPool.execute_rpc_method_consequently_till_first_success self
    (RpcClientPool.call (fun n p => answer_balance n p pubkey)).

Definition get_balance_ui (self : RpcClientPool.t) (pubkey : Pubkey) : Query f64 :=
  balance <-! get_balance self pubkey ;; st_ok (Decimals.lamports_to_sol balance).

Definition get_token_balance (self : RpcClientPool.t) (sniper_pubkey token_mint : Pubkey) : Query Z :=
  amount <-! RpcClientPool.execute_rpc_method_consequently_till_first_success self
    (RpcClientPool.call (fun n p => answer_token_amount n p (get_associated_token_address sniper_pubkey token_mint))) ;;
  ok_or_parse (parse_u64 amount).

Definition account_exists (self : RpcClientPool.t) (pubkey : Pubkey) : Query bool :=
  RpcClientPool.execute_rpc_method_consequently_till_first_success self
    (RpcClientPool.call (fun n p =>
       match answer_present n p pubkey with
       | Ok _ => Ok true
       | Err (true, _) => Ok false
       | Err (false, e) => if is_not_found e then Ok false else Err e
       end)).

(** ** Fees: percentiles of the recent slots *)

Definition percentile_list : list Z := [10; 25; 50; 60; 70; 75; 80; 85; 90; 100].

(** [(p as f64 / 100.0 * len as f64).round() as usize]. *)
Definition percentile_index (p : Z) (len : nat) : nat :=
  Z.to_nat (f64_as_u64 (f64_round (f64_mul (f64_div (f64_of_Z p) (f64_of_Z 100)) (f64_of_Z (Z.of_nat len))))).

(** [None]: an index out of range panics. *)
Definition calculate_percentiles (fees : list Z) : option (list (Z * Z)) :=
  let sorted_fees := merge_sort Z.le fees in
  mapM (fun p => fee ← sorted_fees !! pred (percentile_index p (length sorted_fees)); Some (p, fee))
    percentile_list.

(** [sort_by(|a, b| b.slot.cmp(&a.slot))]: a stable sort, the newest slot first. *)
Definition newer_first : relation (Z * Z) := fun a b => b.1 <= a.1.

#[export] Instance newer_first_decision a b : Decision (newer_first a b).
Proof. unfold newer_first. apply _. Defined.

(** The percentiles of each chunk, of which the last are kept. *)
Fixpoint last_percentiles (cs : list (list (Z * Z))) (percentiles : list (Z * Z)) : ST Z (list (Z * Z)) :=
  match cs with
  | [] => st_ret percentiles
  | chunk :: cs' => percentiles <- st_unwrap (calculate_percentiles chunk.*2) ;; last_percentiles cs' percentiles
  end.

Definition get_median_recent_prioritization_fees (self : RpcClientPool.t) : Query Z :=
  recent <-! RpcClientPool.execute_rpc_method_consequently_till_first_success self
    (RpcClientPool.call answer_recent_fees) ;;
  let sorted_fees := merge_sort newer_first recent in
  percentiles <-! st_lift (last_percentiles (take 3 (chunks 150 sorted_fees)) []) ;;
  st_ok (default 0 (snd <$> List.find (fun kv => kv.1 =? 75) percentiles)).

Definition is_freezable (self : RpcClientPool.t) (token_mint : Pubkey) : Query bool :=
  account_data <-! RpcClientPool.get_account_data self token_mint ;;
  match unpack_mint account_data with
  | None => st_bail (PoolOther "Failed to unpack Mint data")
  | Some (Some authority) => st_ok (negb (authority =? 0))
  | Some None => st_ok false
  end.

(** ** Balances from one node ([getters.rs]) *)

Definition BALANCE_QUERY_RETRIES : nat := 10.

Definition get_account_sol_balance_f64 (node : ProviderName) (wallet_address : Pubkey) : Query f64 :=
  r <- RpcClientPool.call (fun n p => answer_balance n p wallet_address) node ;;
  match r with
  | Ok balance => amount <-! st_lift (st_unwrap (Decimals.tokens_to_ui_amount_with_decimals_f64 balance 9)) ;; st_ok amount
  | Err e => st_bail (PoolOther e)
  end.

(** The future of [sleep] is dropped: the queries follow each other at once. *)
Fixpoint query_token_balance (node : ProviderName) (ata : Pubkey) (tries : nat) : Query Z :=
  match tries with
  | O => st_ok 0
  | S tries' =>
      r <- RpcClientPool.call (fun n p => answer_token_amount n p ata) node ;;
      match r with
      | Ok amount => st_lift (st_unwrap (parse_u64 amount))
      | Err _ => query_token_balance node ata tries'
      end
  end.

Definition get_token_balance_u64 (node : ProviderName) (sniper token_mint_address : Pubkey) : Query Z :=
  query_token_balance node (get_associated_token_address sniper token_mint_address) BALANCE_QUERY_RETRIES.
End Queries.

(** ** The fee taken *)

(** The groups have at most 150 slots, for which the indices are computed. *)
Lemma percentile_indices_computed :
  forallb (fun len => forallb (fun p => Nat.ltb (pred (percentile_index p len)) len) percentile_list &&
    Nat.eqb (percentile_index 75 len) ((3 * len + 2) / 4)) (seq 1 150) = true.
Proof. vm_compute. reflexivity. Qed.

Lemma percentile_index_bound p len :
  p ∈ percentile_list -> (1 <= len <= 150)%nat -> (pred (percentile_index p len) < len)%nat.
Proof.
  intros Hp Hlen. pose proof percentile_indices_computed as Hall. rewrite forallb_forall in Hall.
  specialize (Hall len). rewrite in_seq, andb_true_iff, forallb_forall in Hall.
  apply Nat.ltb_lt, Hall; [lia | by apply list_elem_of_In].
Qed.

Lemma percentile_index_75 len : (1 <= len <= 150)%nat -> percentile_index 75 len = ((3 * len + 2) / 4)%nat.
Proof.
  intros Hlen. pose proof percentile_indices_computed as Hall. rewrite forallb_forall in Hall.
  specialize (Hall len). rewrite in_seq, andb_true_iff in Hall. apply Nat.eqb_eq, Hall. lia.
Qed.

Lemma merge_sort_length {A} (R : relation A) `{forall x y, Decision (R x y)} l : length (merge_sort R l) = length l.
Proof. apply Permutation_length, merge_sort_Permutation. Qed.

Lemma find_mapM (g : Z -> option Z) q fee l : forall ps,
  mapM (fun p => fee ← g p; Some (p, fee)) l = Some ps -> q ∈ l -> g q = Some fee ->
  snd <$> List.find (fun kv => kv.1 =? q) ps = Some fee.
Proof.
  induction l as [|p l IH]; intros ps Hps Hq Hg; [by apply elem_of_nil in Hq|].
  cbn in Hps. destruct (g p) as [fee'|] eqn:Hp; [|done]. cbn in Hps.
  destruct (mapM _ l) as [ps'|] eqn:Hps'; [|done]. injection Hps as <-. cbn.
  destruct (Z.eqb_spec p q) as [->|Hne]; [cbn; congruence|].
  apply elem_of_cons in Hq as [->|Hq]; [done | by apply IH].
Qed.

Lemma calculate_percentiles_75 fees :
  (1 <= length fees <= 150)%nat ->
  exists ps fee, calculate_percentiles fees = Some ps /\
    snd <$> List.find (fun kv => kv.1 =? 75) ps = Some fee /\
    merge_sort Z.le fees !! pred ((3 * length fees + 2) / 4) = Some fee.
Proof.
  intros Hlen. unfold calculate_percentiles.
  assert (forall p, p ∈ percentile_list -> exists fee,
    merge_sort Z.le fees !! pred (percentile_index p (length (merge_sort Z.le fees))) = Some fee) as Hget.
  { intros p Hp. rewrite merge_sort_length. apply lookup_lt_is_Some_2. rewrite merge_sort_length.
    by apply percentile_index_bound. }
  destruct (mapM_is_Some_2 (fun p => fee ← merge_sort Z.le fees !!
      pred (percentile_index p (length (merge_sort Z.le fees))); Some (p, fee)) percentile_list) as [ps Hps].
  { apply list.Forall_forall. intros p Hp. unfold compose. destruct (Hget p Hp) as [fee E]. cbv beta. rewrite E. by eexists. }
  assert (75 ∈ percentile_list) as H75 by by apply (list_elem_of_lookup_2 _ 5).
  destruct (Hget 75 H75) as [fee E6]. exists ps, fee. split; [done|].
  split; [eapply find_mapM; [exact Hps | exact H75 | exact E6]|].
  by rewrite merge_sort_length, percentile_index_75 in E6.
Qed.

(** The oldest of the at most three chunks of slots that are looked at. *)
Definition oldest_chunk (recent : list (Z * Z)) : option (list (Z * Z)) :=
  last (take 3 (chunks 150 (merge_sort newer_first recent))).

Lemma last_percentiles_spec cs : forall ps n,
  Forall (fun c : list (Z * Z) => (1 <= length c <= 150)%nat) cs ->
  exists ps', last_percentiles cs ps n = (Some ps', n) /\
    match last cs with
    | Some c => exists fee, snd <$> List.find (fun kv => kv.1 =? 75) ps' = Some fee /\
        merge_sort Z.le c.*2 !! pred ((3 * length c + 2) / 4) = Some fee
    | None => ps' = ps
    end.
Proof.
  induction cs as [|c cs IH]; intros ps n Hcs; [by exists ps|].
  apply Forall_cons in Hcs as [Hc Hcs]. cbn [last_percentiles].
  destruct (calculate_percentiles_75 c.*2) as (ps1 & fee & E & Hf & Hs); [by rewrite length_fmap|].
  unfold st_bind, st_unwrap. rewrite E. cbn.
  destruct (IH ps1 n Hcs) as (ps' & -> & Hlast). exists ps'. split; [done|].
  rewrite length_fmap in Hs. rewrite last_cons. destruct (last cs) as [c'|]; [done|]. subst ps'. eauto.
Qed.

(** The priority fee asked from the nodes never fails on the answer of one: with no
    recent slots it is 0, and otherwise it is, among the slots of the oldest of the at
    most three groups of 150 that are looked at, the fee that three quarters of them
    (rounded) do not exceed; the newer groups have no influence. *)
Theorem median_fee_is_third_quartile `{RpcClients} `{RpcQueries} p ps n recent :
  answer_recent_fees n p = Ok recent ->
  exists fee, get_median_recent_prioritization_fees (RpcClientPool.mk (p :: ps)) n = (Some (Ok fee), n + 1) /\
    match oldest_chunk recent with
    | None => fee = 0
    | Some c => merge_sort Z.le c.*2 !! pred ((3 * length c + 2) / 4) = Some fee
    end.
Proof.
  intros Ha. unfold get_median_recent_prioritization_fees, RpcClientPool.execute_rpc_method_consequently_till_first_success.
  cbn [RpcClientPool.clients RpcClientPool.try_providers]. unfold st_try at 1, st_bind at 1 2, RpcClientPool.call at 1.
  rewrite Ha. cbn.
  set (cs := take 3 (chunks 150 (merge_sort newer_first recent))).
  destruct (last_percentiles_spec cs [] (n + 1)) as (ps' & E & Hlast).
  { apply list.Forall_forall. intros c Hc. apply subseteq_take in Hc.
    split; [eapply chunks_nonempty, Hc; lia | by eapply chunks_bound]. }
  unfold st_try, st_lift, st_bind. rewrite E. cbn. eexists. split; [reflexivity|].
  unfold oldest_chunk. fold cs. destruct (last cs) as [c|].
  - destruct Hlast as (fee & -> & Hs). done.
  - by subst ps'.
Qed.

(** ** The pool of geyser clients ([geyser_pool.rs]) *)

Section Geyser.
Context {T : Type} (answer : Z -> ProviderName -> result string T).

(** [GeyserClientPool::new]: every connection must succeed. *)
Definition connect_all (connect : ProviderName -> option unit) (uris : list ProviderName) :
    option (list ProviderName) := mapM (fun p => connect p ;; Some p)%stdpp uris.

(** Each turn takes a new iterator over the clients, so that the first one is asked
    again; [None]: out of fuel. *)
Fixpoint get_latest_blockhash (fuel : nat) (clients : list ProviderName) (n : Z) : option (result string T * Z) :=
  match fuel with
  | O => None
  | S fuel' =>
      match head clients with
      | Some client =>
          match answer n client with
          | Ok response => Some (Ok response, n + 1)
          | Err _ => get_latest_blockhash fuel' clients (n + 1)
          end
      | None => Some (Err "No Geyser clients available"%string, n)
      end
  end.

(** The latest block hash comes from the first geyser client alone: it is what that
    client answers the first time it does not fail, after as many calls; while it fails,
    no other client is asked, and if it always fails the loop never ends. *)
Theorem blockhash_from_first_client client others n :
  (forall k response, (forall i, 0 <= i < Z.of_nat k -> exists e, answer (n + i) client = Err e) ->
    answer (n + Z.of_nat k) client = Ok response ->
    forall fuel, (k < fuel)%nat ->
    get_latest_blockhash fuel (client :: others) n = Some (Ok response, n + Z.of_nat k + 1)) /\
  ((forall i, n <= i -> exists e, answer i client = Err e) ->
    forall fuel, get_latest_blockhash fuel (client :: others) n = None).
Proof.
  split.
  - intros k response. revert n. induction k as [|k IH]; intros n Hfail Hok fuel Hfuel; (destruct fuel as [|fuel]; [lia|]); cbn.
    + rewrite Z.add_0_r in *. by rewrite Hok.
    + destruct (Hfail 0) as [e He]; [lia|]. rewrite Z.add_0_r in He. rewrite He.
      rewrite (IH (n + 1)); [do 3 f_equal; lia | | by replace (n + 1 + Z.of_nat k) with (n + Z.of_nat (S k)) by lia | lia].
      intros i Hi. replace (n + 1 + i) with (n + (i + 1)) by lia. apply Hfail. lia.
  - intros Hfail fuel. revert n Hfail. induction fuel as [|fuel IH]; intros n Hfail; [done|]. cbn.
    destruct (Hfail n) as [e ->]; [lia|]. apply IH. intros i Hi. apply Hfail. lia.
Qed.
End Geyser.

(** ** BloxRoute ([bloxroute.rs]) *)

Record BloxRoute := {
  bloxroute_auth_header : string;
  tip : Z;
  priority_fee : Z;
  fee_percentile : Z;
  use_bloxroute_optimal_fee : bool;
  use_bloxroute_trader_api : bool;
}.

Definition new_bloxroute (auth_header : string) : BloxRoute :=
  {| bloxroute_auth_header := auth_header; tip := 0; priority_fee := 0; fee_percentile := 70;
     use_bloxroute_optimal_fee := false; use_bloxroute_trader_api := false |}.

Definition with_tip (v : Z) (b : BloxRoute) : BloxRoute :=
  {| bloxroute_auth_header := bloxroute_auth_header b; tip := v; priority_fee := priority_fee b;
     fee_percentile := fee_percentile b; use_bloxroute_optimal_fee := use_bloxroute_optimal_fee b;
     use_bloxroute_trader_api := use_bloxroute_trader_api b |}.
Definition with_bloxroute_optimal_fee (v : bool) (b : BloxRoute) : BloxRoute :=
  {| bloxroute_auth_header := bloxroute_auth_header b; tip := tip b; priority_fee := priority_fee b;
     fee_percentile := fee_percentile b; use_bloxroute_optimal_fee := v;
     use_bloxroute_trader_api := use_bloxroute_trader_api b |}.
Definition with_bloxroute_trader_api (v : bool) (b : BloxRoute) : BloxRoute :=
  {| bloxroute_auth_header := bloxroute_auth_header b; tip := tip b; priority_fee := priority_fee b;
     fee_percentile := fee_percentile b; use_bloxroute_optimal_fee := use_bloxroute_optimal_fee b;
     use_bloxroute_trader_api := v |}.
Definition with_fee_percentile (v : Z) (b : BloxRoute) : BloxRoute :=
  {| bloxroute_auth_header := bloxroute_auth_header b; tip := tip b; priority_fee := priority_fee b;
     fee_percentile := v; use_bloxroute_optimal_fee := use_bloxroute_optimal_fee b;
     use_bloxroute_trader_api := use_bloxroute_trader_api b |}.

(** *** The stream of fees *)

Record FeeStreamResult := { project : string; percentile : f64; fee_at_percentile : string }.
Record FeeStreamParams := { subscription : string; fee_result : FeeStreamResult }.
Record FeeStreamEvent := { method : string; params : FeeStreamParams; json_rpc : string }.

(** The derived deserialization of a struct: an object with each of the fields, other
    fields being ignored, or an array of exactly the fields in order. *)
Definition struct_fields (names : list string) (v : Value) : option (list Value) :=
  match v with
  | VObject _ => mapM (fun name => get name v) names
  | VArray l => if (length l =? length names)%nat then Some l else None
  | _ => None
  end.

Definition as_f64 (v : Value) : option f64 := match v with VNumber x => Some x | _ => None end.

Definition fee_stream_result (v : Value) : option FeeStreamResult :=
  vs ← struct_fields ["project"; "percentile"; "fee_at_percentile"]%string v;
  match vs with
  | [p; q; f] => p ← as_str p; q ← as_f64 q; f ← as_str f;
                 Some {| project := p; percentile := q; fee_at_percentile := f |}
  | _ => None
  end.

Definition fee_stream_params (v : Value) : option FeeStreamParams :=
  vs ← struct_fields ["subscription"; "result"]%string v;
  match vs with
  | [s; r] => s ← as_str s; r ← fee_stream_result r; Some {| subscription := s; fee_result := r |}
  | _ => None
  end.

Definition fee_stream_event (v : Value) : option FeeStreamEvent :=
  vs ← struct_fields ["method"; "params"; "json_rpc"]%string v;
  match vs with
  | [m; p; j] => m ← as_str m; p ← fee_stream_params p; j ← as_str j;
                 Some {| method := m; params := p; json_rpc := j |}
  | _ => None
  end.

(** A message of the websocket; a text is taken with the JSON value it parses to. *)
Inductive WsMessage :=
| Text (parsed : option Value)
| WsPing
| Close
| OtherWs.

(** The loop over the messages: the fee it leaves, up to a close. *)
Fixpoint fee_stream (msgs : list WsMessage) (fee : Z) : Z :=
  match msgs with
  | [] | Close :: _ => fee
  | Text parsed :: rest =>
      match parsed ≫= fee_stream_event with
      | Some event =>
          if String.eqb (method event) "subscribe"
          then fee_stream rest (default 0 (parse_u64 (fee_at_percentile (fee_result (params event)))))
          else fee_stream rest fee
      | None => fee_stream rest fee
      end
  | WsPing :: rest | OtherWs :: rest => fee_stream rest fee
  end.

Definition start_fee_ws_stream (msgs : list WsMessage) (b : BloxRoute) : result string BloxRoute :=
  if use_bloxroute_optimal_fee b then
    Ok {| bloxroute_auth_header := bloxroute_auth_header b; tip := tip b;
          priority_fee := fee_stream msgs (priority_fee b); fee_percentile := fee_percentile b;
          use_bloxroute_optimal_fee := use_bloxroute_optimal_fee b;
          use_bloxroute_trader_api := use_bloxroute_trader_api b |}
  else Err "Bloxroute optimal fee is disabled"%string.

Definition get_priority_fee (b : BloxRoute) : option Z :=
  if use_bloxroute_optimal_fee b then Some (priority_fee b) else None.

(** *** Sending with a tip *)

Inductive TipInstruction (I : Type) :=
| Given (i : I)
| TipTransfer (from to lamports : Z)
| Memo (signer : Pubkey) (text : string).
Arguments Given {I}. Arguments TipTransfer {I}. Arguments Memo {I}.

Record TipTransaction (I : Type) := {
  tx_instructions : list (TipInstruction I);
  tx_payer : Pubkey;
  tx_signers : list Pubkey;
  tx_blockhash : Z;
}.
Arguments tx_instructions {I}. Arguments tx_payer {I}. Arguments tx_signers {I}. Arguments tx_blockhash {I}.

(** What the endpoint answers: no answer; a status that is not a success; a body whose
    signature is missing, or is a text that may not parse. *)
Inductive HttpAnswer :=
| NoAnswer
| HttpError
| Answer (signature : option string).

Section Sending.
Context {I : Type} (bloxroute_tip_wallet : Pubkey) (signature_from_str : string -> option Signature).

Definition tip_transaction (b : BloxRoute) (recent_blockhash : Z) (sender fee_payer : Pubkey)
    (instructions : list I) : TipTransaction I := {|
  tx_instructions := map Given instructions ++
    [TipTransfer fee_payer bloxroute_tip_wallet (tip b); Memo fee_payer "Powered by bloXroute Trader Api"];
  tx_payer := fee_payer;
  tx_signers := if sender =? fee_payer then [sender] else [sender; fee_payer];
  tx_blockhash := recent_blockhash;
|}.

Definition accepted (a : HttpAnswer) : bool :=
  match a with Answer (Some s) => bool_decide (is_Some (signature_from_str s)) | _ => false end.

(** [select_ok]: the first success decides, or the last failure; [signs]: whether the
    keys given sign all that the transaction needs, or else signing panics. *)
Definition add_bx_tip_and_send_tx (b : BloxRoute) (recent_blockhash : Z) (sender fee_payer : Pubkey)
    (instructions : list I) (signs : TipTransaction I -> bool) (completions : list HttpAnswer) :
    option (result string unit) :=
  if signs (tip_transaction b recent_blockhash sender fee_payer instructions) then
    Some (if existsb accepted completions then Ok tt else Err "Failed to send transaction"%string)
  else None.
End Sending.

Lemma no_event_without_key v fields :
  v = VObject fields -> "json_rpc"%string ∉ fields.*1 -> fee_stream_event v = None.
Proof.
  intros -> Hk. unfold fee_stream_event, struct_fields.
  assert (get "json_rpc" (VObject fields) = None) as Hg.
  { unfold get. destruct (List.find _ fields) as [kv|] eqn:E; [|done]. exfalso.
    apply List.find_some in E as [Hin E]. apply String.eqb_eq in E. apply Hk. rewrite <- E.
    apply list_elem_of_fmap. exists kv. split; [done | by apply list_elem_of_In]. }
  cbn [mapM]. rewrite Hg. destruct (get "method" _), (get "params" _); reflexivity.
Qed.

(** The fee stream asks every event for a field [json_rpc]: whatever it is sent as
    JSON objects in the form of the protocol, whose field is called [jsonrpc], leaves the
    priority fee as it was. *)
Theorem fee_stream_ignores_jsonrpc msgs fee :
  (forall v, Text (Some v) ∈ msgs -> exists fields, v = VObject fields /\ "json_rpc"%string ∉ fields.*1) ->
  fee_stream msgs fee = fee.
Proof.
  induction msgs as [|m msgs IH]; intros Hm; [done|].
  assert (fee_stream msgs fee = fee) as Hrest by (apply IH; intros v Hv; apply Hm; by right).
  destruct m as [[v|]| | |]; cbn; try done.
  destruct (Hm v) as (fields & Hv & Hk); [by left|]. by rewrite (no_event_without_key v fields).
Qed.

(** ** Witnesses *)

Definition fee_event (version_key : string) : Value :=
  VObject [(version_key, VString "2.0"); ("method", VString "subscribe");
    ("params", VObject [("subscription", VString "s"); ("result", VObject [("project", VString "P_RAYDIUM");
      ("percentile", VNumber f64_zero); ("fee_at_percentile", VString "5000")])])]%string.

Example fee_with_the_field : fee_stream [Text (Some (fee_event "json_rpc"))] 0 = 5000.
Proof. reflexivity. Qed.

Lemma fee_stream_ignores_jsonrpc_witness : fee_stream [Text (Some (fee_event "jsonrpc")); WsPing; Text None] 7 = 7.
Proof.
  apply fee_stream_ignores_jsonrpc. intros v Hv.
  rewrite !elem_of_cons, elem_of_nil in Hv. destruct Hv as [[= ->]|[[=]|[[=]|[]]]].
  eexists. split; [reflexivity|]. cbn. rewrite !elem_of_cons, elem_of_nil.
  intros [[=]|[[=]|[[=]|[]]]].
Defined.

Definition sample_fees : list (Z * Z) := [(1, 40); (2, 10); (3, 30); (4, 20)].

Definition sample_queries : RpcQueries := {|
  answer_balance _ _ _ := Ok 0;
  answer_token_amount _ _ _ := Ok "0"%string;
  answer_present _ _ _ := Ok tt;
  answer_recent_fees _ _ := Ok sample_fees;
  get_associated_token_address a b := a + b;
  unpack_mint _ := None;
|}.

Lemma median_fee_is_third_quartile_witness :
  get_median_recent_prioritization_fees (H1 := sample_queries) (RpcClientPool.mk ["node"%string]) 0 = (Some (Ok 30), 1) /\
  exists fee, get_median_recent_prioritization_fees (H1 := sample_queries)
      (RpcClientPool.mk ["node"%string]) 0 = (Some (Ok fee), 1) /\
    match oldest_chunk sample_fees with
    | None => fee = 0
    | Some c => merge_sort Z.le c.*2 !! pred ((3 * length c + 2) / 4) = Some fee
    end.
Proof.
  split; [vm_compute; reflexivity|].
  apply (median_fee_is_third_quartile (H := sample_clients) (H0 := sample_queries) "node" [] 0 sample_fees). reflexivity.
Defined.
