(* ===== verification/TxParserFacts.v ===== *)
(** * What the parsers read out of a transaction *)

From S2P Require Import Prelude MachineInt Float64 Amounts Types Cache Samples TxParser.

(** ** The parsers never write *)

Section Pure.
Context {S : Type}.

Definition pure_parser {A} (m : ST S (result unit A)) : Prop := forall s, snd (m s) = s.

Lemma pure_ok {A} (a : A) : pure_parser (st_ok a).
Proof. done. Qed.

Lemma pure_bail {A} : pure_parser (@st_bail S unit A tt).
Proof. done. Qed.

Lemma pure_panic {A} : pure_parser (@st_panic S (result unit A)).
Proof. done. Qed.

Lemma pure_try {A B} (m : ST S (result unit A)) (k : A -> ST S (result unit B)) :
  pure_parser m -> (forall a, pure_parser (k a)) -> pure_parser (st_try m k).
Proof.
  intros Hm Hk s. unfold st_try, st_bind. specialize (Hm s).
  destruct (m s) as [[[a|[]]|] s1]; cbn in *; subst; auto. apply Hk.
Qed.

Lemma pure_opt {A} (o : option A) : pure_parser (opt o).
Proof. by destruct o. Qed.

Lemma pure_must {A} (o : option A) : pure_parser (must o).
Proof. by destruct o. Qed.

Lemma pure_result {A} (m : ST S (result unit A)) r s s' :
  pure_parser m -> m s = (r, s') -> s' = s.
Proof. intros Hm E. specialize (Hm s). by rewrite E in Hm. Qed.

Lemma opt_inv {A} (o : option A) s a s' :
  @opt S A o s = (Some (Ok a), s') -> o = Some a /\ s' = s.
Proof. unfold opt, st_ok, st_bail, st_ret. destruct o; intros H; by simplify_eq. Qed.

Lemma must_inv {A} (o : option A) s a s' :
  @must S A o s = (Some (Ok a), s') -> o = Some a /\ s' = s.
Proof.
  unfold must, st_lift, st_bind, st_unwrap, st_ret, st_panic.
  destruct o; intros H; by simplify_eq.
Qed.

Lemma ok_inv {A} (a b : A) (s s' : S) :
  @st_ok S unit A a s = (Some (Ok b), s') -> a = b /\ s' = s.
Proof. intros H. unfold st_ok, st_ret in H. by injection H. Qed.
End Pure.

Ltac pure_tac :=
  repeat first
    [ apply pure_ok | apply pure_bail | apply pure_panic | apply pure_opt | apply pure_must
    | solve [eauto with bot nocore]
    | apply pure_try; [| intros ?]
    | case_match ].

(** Invert a successful parser, one step. *)
Tactic Notation "try_inv" hyp(H) ident(a) :=
  let s := fresh "s" in let E := fresh "E" in
  apply st_try_inv in H as (a & s & E & H);
  first [ apply opt_inv in E as [E ->] | apply must_inv in E as [E ->]
        | apply ok_inv in E as [<- ->] | idtac ].

Section Facts.
Context `{Ext} `{TxCodec} `{CheckedPow} {S : Type}.

Lemma parse_ui_instruction_pure i keys : pure_parser (S := S) (parse_ui_instruction i keys).
Proof. unfold parse_ui_instruction, parse_ui_compiled_instruction. pure_tac. Qed.

#[local] Hint Resolve parse_ui_instruction_pure : bot.

Lemma decode_inner_pure sol_ata keys ixs d : pure_parser (S := S) (decode_inner sol_ata keys ixs d).
Proof. revert d. induction ixs as [|i ixs IH]; intros d; cbn [decode_inner]; pure_tac; apply IH. Qed.

Lemma read_transfers_pure pds sc : pure_parser (S := S) (read_transfers pds sc).
Proof. revert sc. induction pds as [|p pds IH]; intros sc; cbn [read_transfers]; pure_tac; apply IH. Qed.

#[local] Hint Resolve decode_inner_pure read_transfers_pure : bot.

Lemma scan_inner_pure sol_ata keys inner sc : pure_parser (S := S) (scan_inner sol_ata keys inner sc).
Proof. revert sc. induction inner as [|i inner IH]; intros sc; cbn [scan_inner]; pure_tac; apply IH. Qed.

#[local] Hint Resolve scan_inner_pure : bot.

Lemma scan_swap_pure meta keys a : pure_parser (S := S) (scan_swap meta keys a).
Proof. unfold scan_swap. cbv zeta. pure_tac. Qed.

#[local] Hint Resolve scan_swap_pure : bot.

Lemma parse_swap_instructions_pure sig meta keys ixs swaps :
  pure_parser (S := S) (parse_swap_instructions sig meta keys ixs swaps).
Proof.
  revert swaps. induction ixs as [|i ixs IH]; intros swaps; cbn [parse_swap_instructions];
    cbv zeta; pure_tac; apply IH.
Qed.

#[local] Hint Resolve parse_swap_instructions_pure : bot.

Lemma parse_tx_for_swaps_pure tx : pure_parser (S := S) (parse_tx_for_swaps tx).
Proof. unfold parse_tx_for_swaps. pure_tac. Qed.

Lemma extract_pool_pure t tx : pure_parser (S := S) (extract_pool_from_init_tx t tx).
Proof.
  unfold extract_pool_from_init_tx, read_initialize_log, message_instructions, account_key.
  cbv zeta. pure_tac.
Qed.

(** ** Swaps *)

(** The Raydium instructions of a message, decoded. *)
Definition raydium_instruction (i : UiInstruction) : option UiPartiallyDecodedInstruction :=
  match i with
  | ParsedUi (PartiallyDecoded ix) =>
      if String.eqb ix.(pd_program_id) RAYDIUM_V4_PROGRAM_ID then Some ix else None
  | _ => None
  end.

Definition is_partially_decoded (i : UiInstruction) : bool :=
  match i with ParsedUi (PartiallyDecoded _) => true | _ => false end.

(** The swap of an instruction, given the amounts of its authority. *)
Definition swap_of (sig : Signature) (f : string -> Scan) (ix : UiPartiallyDecodedInstruction)
    : option Swap :=
  authority ← last ix.(pd_accounts);
  pool_str ← ix.(pd_accounts) !! 1%nat;
  pool ← pubkey_from_str pool_str;
  Some {| swap_signature := sig; swap_pool_id := pool;
          swap_quote_amount := (f authority).(quote_amount);
          swap_base_amount := (f authority).(base_amount);
          swap_direction := (f authority).(trade_direction) |}.

(** The amounts of an authority. *)
Definition scanned (meta : option UiTransactionStatusMeta) (keys : list string) (s : S)
    (authority : string) : Scan :=
  match fst (scan_swap meta keys authority s) with Some (Ok sc) => sc | _ => no_scan end.

Lemma parse_swap_instructions_spec sig meta keys ixs swaps0 s swaps s' :
  parse_swap_instructions sig meta keys ixs swaps0 s = (Some (Ok swaps), s') ->
  Forall is_partially_decoded ixs /\
  exists new, swaps = swaps0 ++ new /\
    mapM (swap_of sig (scanned meta keys s)) (omap raydium_instruction ixs) = Some new.
Proof.
  revert swaps0. induction ixs as [|i ixs IH]; intros swaps0 Hp; cbn [parse_swap_instructions] in Hp.
  - apply ok_inv in Hp as [-> _]. split; [constructor|]. exists []. by rewrite app_nil_r.
  - destruct i as [c|[ix|ix]]; [discriminate..|]. cbv zeta in Hp.
    assert (omap raydium_instruction (ParsedUi (PartiallyDecoded ix) :: ixs) =
      (if String.eqb ix.(pd_program_id) RAYDIUM_V4_PROGRAM_ID then [ix] else [])
      ++ omap raydium_instruction ixs) as ->
      by (cbn; by destruct (String.eqb (pd_program_id ix) RAYDIUM_V4_PROGRAM_ID)).
    destruct (String.eqb (pd_program_id ix) RAYDIUM_V4_PROGRAM_ID).
    + try_inv Hp authority. try_inv Hp sc.
      pose proof (pure_result _ _ _ _ (scan_swap_pure meta keys authority) E0) as ->.
      try_inv Hp pool_str. try_inv Hp pool.
      apply IH in Hp as (Hall & new & -> & Hnew).
      split; [constructor; done|].
      eexists (_ :: new). rewrite <- app_assoc. split; [reflexivity|].
      assert (scanned meta keys s authority = sc) as Hsc by (unfold scanned; by rewrite E0).
      apply mapM_Some_2. constructor; [| by apply mapM_Some_1].
      unfold swap_of. rewrite E. cbn. rewrite E1. cbn. rewrite E2. cbn. by rewrite Hsc.
    + apply IH in Hp as (Hall & new & -> & Hnew). split; [by constructor | eauto].
Qed.

(** A failed transaction never gives amounts, so it gives no swap. *)
Lemma parse_swap_instructions_failed sig meta m keys ixs (s : S) swaps s' :
  meta = Some m -> is_Some m.(meta_err) ->
  parse_swap_instructions sig meta keys ixs [] s = (Some (Ok swaps), s') -> swaps = [].
Proof.
  intros -> Herr. induction ixs as [|i ixs IH]; intros Hp; cbn [parse_swap_instructions] in Hp.
  - by apply ok_inv in Hp as [-> _].
  - destruct i as [c|[ix|ix]]; [discriminate..|]. cbv zeta in Hp.
    destruct (String.eqb (pd_program_id ix) RAYDIUM_V4_PROGRAM_ID); [|by apply IH].
    exfalso. try_inv Hp authority. try_inv Hp sc. unfold scan_swap in E0.
    try_inv E0 owner. try_inv E0 wsol. by rewrite bool_decide_true in E0.
Qed.
End Facts.

(** A transaction's swaps follow its Raydium instructions one to one, and only a
    legacy transaction whose instructions are all of unknown programs has any.
    The amounts and the direction of a swap are a function of its authority
    alone: they are read from the inner instructions of the whole transaction,
    so the swaps of one user in several pools all carry the amounts of the last
    pair of transfers. *)
Theorem swaps_follow_authority `{Ext} `{TxCodec} {S : Type} (tx : TransactionPretty) (s s' : S)
    (swaps : list Swap)
    (Hparse : parse_tx_for_swaps tx s = (Some (Ok swaps), s')) :
  s' = s /\
  exists vt sig message m (amounts : string -> Scan),
    decode_transaction tx.(tx_transaction) = Some vt /\
    head vt.(vt_signatures) = Some sig /\ vt.(vt_message) = Legacy message /\
    encode_message message = MessageParsed m /\
    Forall is_partially_decoded m.(instructions) /\
    mapM (swap_of sig amounts) (omap raydium_instruction m.(instructions)) = Some swaps /\
    (forall meta, tx.(tx_meta) = Some meta -> is_Some meta.(meta_err) -> swaps = []).
Proof.
  pose proof (pure_result _ _ _ _ (parse_tx_for_swaps_pure tx) Hparse) as ->.
  split; [reflexivity|]. unfold parse_tx_for_swaps in Hparse.
  try_inv Hparse vt. try_inv Hparse sig.
  destruct (vt_message vt) as [message|] eqn:Em; [|discriminate].
  destruct (encode_message message) as [m|] eqn:Ee; [|discriminate].
  pose proof Hparse as Hspec.
  apply parse_swap_instructions_spec in Hspec as (Hall & new & Heq & Hnew).
  rewrite app_nil_l in Heq. subst new.
  exists vt, sig, message, m, (scanned (tx_meta tx) (account_keys m) s). split_and!; try done.
  intros meta Hmeta Herr. eapply parse_swap_instructions_failed; eauto.
Qed.

(** [pd] is a token transfer of [amount] from [source] to [destination] signed by
    [authority]. *)
Definition is_transfer_of `{TxCodec} (pd : UiPartiallyDecodedInstruction)
    (source destination authority : string) (amount : Z) : Prop :=
  pd.(pd_program_id) = TOKEN_PROGRAM_ID /\
  (exists others, pd.(pd_accounts) = source :: destination :: authority :: others) /\
  exists data, bs58_decode pd.(pd_data) = Some (3 :: data) /\
    unpack_token_instruction (3 :: data) = Some (TokenTransfer amount).

Section Amounts.
Context `{Ext} `{TxCodec} {S : Type}.

Lemma read_transfer pd source destination authority amount pds sc (s : S) :
  is_transfer_of pd source destination authority amount ->
  read_transfers (pd :: pds) sc s =
  read_transfers pds (record_transfer (String.eqb authority RAYDIUM_V4_AUTHORITY) amount sc) s.
Proof.
  intros (Hp & (others & Ha) & data & Hd & Hu). cbn [read_transfers].
  erewrite st_try_Ok by (rewrite Hd; reflexivity).
  unfold is_transfer. rewrite Hp, String.eqb_refl.
  replace (true && (3 =? 3)) with true by reflexivity.
  erewrite st_try_Ok by (rewrite Hu; reflexivity). rewrite Ha.
  by repeat (erewrite st_try_Ok by reflexivity).
Qed.

Lemma decode_inner_cons i pd source destination others sol_ata keys ixs d (s : S) r :
  parse_ui_instruction i keys s = (Some (Ok (PartiallyDecoded pd)), s) ->
  pd.(pd_accounts) = source :: destination :: others ->
  decode_inner sol_ata keys ixs
    (if String.eqb destination sol_ata then TradeSell else TradeBuy) s = (Some (Ok r), s) ->
  decode_inner sol_ata keys (i :: ixs) d s = (Some (Ok (fst r, pd :: snd r)), s).
Proof.
  intros Hi Ha Hr. cbn [decode_inner]. erewrite st_try_Ok by exact Hi. cbv beta iota.
  erewrite st_try_Ok by (rewrite Ha; reflexivity).
  erewrite st_try_Ok by exact Hr. reflexivity.
Qed.
End Amounts.

(** One swap with its two transfers, the user's to the pool and then the pool's
    to the user: it is a sale exactly when the pool pays into the user's own
    wrapped-SOL account, and the amounts are assigned accordingly.  A sale paid
    into another wrapped-SOL account is therefore read as a purchase, with the
    lamports for the base amount and the tokens for the quote amount. *)
Theorem two_transfers_swap `{Ext} `{TxCodec} {S : Type} (meta : UiTransactionStatusMeta)
    (keys : list string) (authority : string) (owner wsol : Pubkey) (s : S)
    (i1 i2 : UiInstruction) (p1 p2 : UiPartiallyDecodedInstruction)
    (source1 vault1 user vault2 destination : string) (paid received : Z)
    (Howner : pubkey_from_str authority = Some owner)
    (Hwsol : pubkey_from_str WSOL_MINT_ADDRESS = Some wsol)
    (Hok : meta.(meta_err) = None)
    (Hinner : meta.(inner_instructions) = Some [[i1; i2]])
    (H1 : parse_ui_instruction i1 keys s = (Some (Ok (PartiallyDecoded p1)), s))
    (H2 : parse_ui_instruction i2 keys s = (Some (Ok (PartiallyDecoded p2)), s))
    (Hpay : is_transfer_of p1 source1 vault1 user paid) (Huser : user <> RAYDIUM_V4_AUTHORITY)
    (Hget : is_transfer_of p2 vault2 destination RAYDIUM_V4_AUTHORITY received) :
  scan_swap (Some meta) keys authority s =
  (Some (Ok (if String.eqb destination (pubkey_string (ata owner wsol))
             then {| quote_amount := received; base_amount := paid; trade_direction := TradeSell |}
             else {| quote_amount := paid; base_amount := received; trade_direction := TradeBuy |})),
   s).
Proof.
  unfold scan_swap.
  erewrite st_try_Ok by (rewrite Howner; reflexivity). cbv beta.
  erewrite st_try_Ok by (rewrite Hwsol; reflexivity). cbv zeta.
  rewrite Hok, bool_decide_false by (by intros []).
  erewrite st_try_Ok by (rewrite Hinner; reflexivity). cbv beta.
  cbn [scan_inner length Nat.eqb].
  pose proof Hpay as (_ & (o1 & Ha1) & _). pose proof Hget as (_ & (o2 & Ha2) & _).
  erewrite st_try_Ok by
    (eapply decode_inner_cons; [exact H1 | exact Ha1 |];
     eapply decode_inner_cons; [exact H2 | exact Ha2 | reflexivity]).
  cbn [fst snd].
  erewrite st_try_Ok by
    (erewrite read_transfer by exact Hpay; erewrite read_transfer by exact Hget; reflexivity).
  apply String.eqb_neq in Huser. rewrite Huser, String.eqb_refl.
  by destruct (String.eqb destination (pubkey_string (ata owner wsol))).
Qed.

(** ** New pools *)

Lemma account_key_inv `{TxCodec} {S : Type} accounts i (s : S) k s' :
  account_key accounts i s = (Some (Ok k), s') ->
  accounts !! i ≫= pubkey_from_str = Some k /\ s' = s.
Proof.
  unfold account_key. intros Hk. try_inv Hk a. rewrite E. cbn. by apply must_inv in Hk.
Qed.

Ltac pool_inv H :=
  lazymatch type of H with
  | st_try (account_key _ _) _ _ = _ =>
      let k := fresh "k" in let s1 := fresh "s" in let E := fresh "Hkey" in
      apply st_try_inv in H as (k & s1 & E & H); apply account_key_inv in E as [E ->]
  | st_try _ _ _ = _ => let k := fresh "k" in try_inv H k
  end.

(** The pool announced for an [initialize2] transaction: the coin and pc sides
    of the instruction are the base and the quote, exchanged exactly when the
    coin mint is wrapped SOL, and mints, vaults and reserves are exchanged
    together.  That the other side is wrapped SOL is never checked, and neither
    is the outcome of the transaction. *)
Theorem new_pool_sides `{Ext} `{TxCodec} `{CheckedPow} {S : Type} (time : Z)
    (tx : TransactionPretty) (s s' : S) (pool : RaydiumPool) (price : RaydiumPoolPriceUpdate)
    (Hparse : extract_pool_from_init_tx time tx s = (Some (Ok (pool, price)), s')) :
  exists meta log (accounts : list string),
    tx.(tx_meta) = Some meta /\ read_initialize_log meta s = (Some (Ok log), s) /\
    let key i := accounts !! i ≫= pubkey_from_str in
    let '(pc, coin) := (log.(init_pc_amount), log.(init_coin_amount)) in
    key 4%nat = Some pool.(pool_id) /\ price.(pu_pool) = pool.(pool_id) /\
    price.(pu_price) = f64_div price.(pu_quote_reserve) price.(pu_base_reserve) /\
    (exists coin_mint, key 8%nat = Some coin_mint /\
       pool.(reverse_pool) = String.eqb (pubkey_string coin_mint) WSOL_MINT_ADDRESS) /\
    let '(b, q, bv, qv, base, quote) :=
      if pool.(reverse_pool) then (9, 8, 11, 10, pc, coin)%nat else (8, 9, 10, 11, coin, pc)%nat in
    key b = Some pool.(base_mint) /\ key q = Some pool.(quote_mint) /\
    key bv = Some pool.(base_vault) /\ key qv = Some pool.(quote_vault) /\
    Decimals.tokens_to_ui_amount_with_decimals_f64 base pool.(base_decimals)
      = Some price.(pu_base_reserve) /\
    price.(pu_quote_reserve) = Decimals.lamports_to_sol quote.
Proof.
  unfold extract_pool_from_init_tx in Hparse.
  try_inv Hparse meta. apply st_try_inv in Hparse as (log & s1 & Hlog & Hparse).
  assert (s1 = s) as -> by
    (eapply pure_result, Hlog; unfold read_initialize_log; pure_tac).
  apply st_try_inv in Hparse as (ixs & s1 & Hixs & Hparse).
  assert (s1 = s) as -> by
    (eapply pure_result, Hixs; unfold message_instructions; pure_tac).
  try_inv Hparse ix. apply st_try_inv in Hparse as (accounts & s1 & Hacc & Hparse).
  assert (s1 = s) as -> by (eapply pure_result, Hacc; pure_tac).
  exists meta, log, accounts. do 2 (split; [done|]). cbv zeta.
  do 4 pool_inv Hparse. cbv zeta in Hparse.
  match type of Hparse with context [String.eqb ?x ?y] => destruct (String.eqb x y) eqn:Er end;
    repeat pool_inv Hparse; apply ok_inv in Hparse as [Heq _]; injection Heq as <- <-;
    cbn [pool_id base_mint quote_mint base_vault quote_vault reverse_pool base_decimals
         pu_pool pu_price pu_base_reserve pu_quote_reserve]; split_and!; eauto.
Qed.

(** ** Instances for the properties *)

(** A public key is read as the length of its text, except the wrapped-SOL mint;
    a transfer's amount is the length of its data. *)
Definition sample_codec : TxCodec := {|
  decode_transaction := fun _ => Some {| vt_signatures := [77]; vt_message := Legacy "m" |};
  encode_message := fun _ => MessageParsed
    {| account_keys := ["raydium"];
       instructions :=
         [ParsedUi (PartiallyDecoded
            {| pd_program_id := RAYDIUM_V4_PROGRAM_ID; pd_accounts := ["p"; "kk"; "kkk"];
               pd_data := "swap" |});
          ParsedUi (PartiallyDecoded
            {| pd_program_id := RAYDIUM_V4_PROGRAM_ID; pd_accounts := ["p"; "kkkkk"; "kkk"];
               pd_data := "swap" |})] |};
  encode_json := fun _ => Some (Json (MessageParsed
    {| account_keys := [];
       instructions :=
         [ParsedUi (PartiallyDecoded
            {| pd_program_id := RAYDIUM_V4_PROGRAM_ID;
               pd_accounts := ["a"; "b"; "c"; "d"; "poolid"; "e"; "f"; "lp"; "token";
                               WSOL_MINT_ADDRESS; "vault"; "qvault"; "g"; "h"; "i"; "j"; "kk"];
               pd_data := "init" |})] |}));
  pubkey_from_str := fun s =>
    if String.eqb s WSOL_MINT_ADDRESS then Some 4 else Some (Z.of_nat (String.length s));
  bs58_decode := fun s => Some [3; Z.of_nat (String.length s)];
  unpack_token_instruction := fun data =>
    match data with [3; a] => Some (TokenTransfer a) | _ => None end;
  initialize2_captures := fun _ => Some ("1"%string, "0"%string, "5000"%string, "70"%string);
|}.

Definition sample_transfer (source destination authority data : string) : UiInstruction :=
  ParsedUi (PartiallyDecoded
    {| pd_program_id := TOKEN_PROGRAM_ID; pd_accounts := [source; destination; authority];
       pd_data := data |}).

Definition sample_meta : UiTransactionStatusMeta := {|
  meta_err := None; meta_status_ok := true; meta_fee := 5000;
  inner_instructions :=
    Some [[sample_transfer "a" "vault" "kkk" "aaaaaaa"; sample_transfer "v" "b" RAYDIUM_V4_AUTHORITY "aa"]];
  log_messages := Some ["Program log: initialize2: ..."%string];
  pre_token_balances := Some [{| tb_mint := "9xQeWvG816bUx9EPj"; tb_decimals := 1 |}];
  compute_units_consumed := Some 1000
|}.

Definition sample_tx : TransactionPretty := {|
  signature := 77; is_vote := false; tx_transaction := Encoded "bytes"; tx_meta := Some sample_meta
|}.

(** Two swaps by one user in two pools, one pair of transfers. *)
Definition sample_swaps : list Swap :=
  [{| swap_signature := 77; swap_pool_id := 2; swap_quote_amount := 7; swap_base_amount := 2;
      swap_direction := TradeBuy |};
   {| swap_signature := 77; swap_pool_id := 5; swap_quote_amount := 7; swap_base_amount := 2;
      swap_direction := TradeBuy |}].

#[local] Existing Instance sample_ext.
#[local] Existing Instance sample_codec.
#[local] Existing Instance checked_pow_model.

Lemma swaps_follow_authority_witness :
  parse_tx_for_swaps sample_tx tt = (Some (Ok sample_swaps), tt) /\
  exists sig (amounts : string -> Scan) m,
    mapM (swap_of sig amounts) (omap raydium_instruction m.(instructions)) = Some sample_swaps.
Proof.
  assert (E : parse_tx_for_swaps sample_tx tt = (Some (Ok sample_swaps), tt))
    by (vm_compute; reflexivity).
  split; [exact E|].
  destruct (swaps_follow_authority sample_tx tt tt sample_swaps E)
    as (_ & vt & sig & message & m & amounts & _ & _ & _ & _ & _ & Hm & _).
  by exists sig, amounts, m.
Defined.

Lemma two_transfers_swap_witness :
  scan_swap (Some sample_meta) [] "kkk" tt =
  (Some (Ok {| quote_amount := 7; base_amount := 2; trade_direction := TradeBuy |}), tt).
Proof.
  refine (two_transfers_swap sample_meta [] "kkk" 3 4 tt
    (sample_transfer "a" "vault" "kkk" "aaaaaaa") (sample_transfer "v" "b" RAYDIUM_V4_AUTHORITY "aa")
    _ _ "a" "vault" "kkk" "v" "b" 7 2 _ _ _ _ eq_refl eq_refl _ _ _); try reflexivity.
  - split; [reflexivity|]. split; [by eexists | exists [7]; by split].
  - discriminate.
  - split; [reflexivity|]. split; [by eexists | exists [2]; by split].
Defined.

Lemma new_pool_sides_witness :
  exists pool price,
    extract_pool_from_init_tx 9 sample_tx tt = (Some (Ok (pool, price)), tt) /\
    price.(pu_pool) = pool.(pool_id) /\ pool.(base_mint) = 5 /\ pool.(quote_mint) = 4 /\
    price.(pu_base_reserve) = f64_of_Z 7.
Proof.
  destruct (extract_pool_from_init_tx 9 sample_tx tt) as [r s'] eqn:E.
  assert (match r with
          | Some (Ok (pool, price)) =>
              (pool.(base_mint), pool.(quote_mint), price.(pu_base_reserve)) = (5, 4, f64_of_Z 7)
          | _ => False end) as Hr
    by (replace r with (fst (extract_pool_from_init_tx 9 sample_tx tt)) by (by rewrite E);
        vm_compute; reflexivity).
  destruct r as [[[pool price]|]|]; [|done..]. injection Hr as Hb Hq Hp.
  destruct s'. exists pool, price. split; [reflexivity|].
  destruct (new_pool_sides 9 sample_tx tt tt pool price E)
    as (meta & log & accounts & _ & _ & _ & Hpu & _ & _ & _). split_and!; done.
Defined.
