(* ===== verification/Collectors.v ===== *)
(** * Collectors: the feeds that make events ([collectors])

    [realtime_feed_events_collector.rs], [poll_tx_confirmation_collector.rs],
    [prices_heartbeat_streamer.rs] and [heartbeat_collector.rs].  A handler that
    returns [None] is [Err tt]; the events of a handler that gives up are lost.
    A handler takes the transaction or the account that a feed delivers; the feeds
    themselves are in [Feeds]. *)

From S2P Require Import Prelude MachineInt Float64 Amounts Buffers Types Cache GenericApi RpcPool TxParser.

Inductive Mode := Live | PaperTrading | BackTesting.

(** The [lru] crate's cache of the mints already announced. *)
Class LruCache := {
  lru : Type;
  lru_contains : Pubkey -> lru -> bool;
  lru_put : Pubkey -> Pubkey -> lru -> lru;
  lru_put_contains : forall k v c, lru_contains k (lru_put k v c) = true;
}.

(** The status of a signature at a provider, a signature's parser, and what the
    other tasks do to the shared world at the [n]-th wait of the poller. *)
Class StatusFeed := {
  answer_status : Z -> ProviderName -> Signature -> result string (option (result TransactionError unit));
  signature_from_str : string -> option Signature;
  meanwhile : Z -> World -> World;
}.

(** The shared world as the collectors see it, and the calls made so far. *)
Record FeedWorld `{LruCache} := feed {
  world : World;
  target_tokens : lru;
  calls : Z;
}.

Section Collectors.
Context `{Ext} `{TxCodec} `{CheckedPow} `{LruCache} `{RpcClients} `{StatusFeed}.

Definition set_world v (f : FeedWorld) : FeedWorld := feed _ v f.(target_tokens) f.(calls).
Definition set_target_tokens v (f : FeedWorld) : FeedWorld := feed _ f.(world) v f.(calls).
Definition set_calls v (f : FeedWorld) : FeedWorld := feed _ f.(world) f.(target_tokens) v.

Definition the_cache (f : FeedWorld) : OperationalCache.t := f.(world).(cache).

Definition update_cache (g : OperationalCache.t -> OperationalCache.t) : ST FeedWorld unit :=
  st_modify (fun f => set_world (set_cache (g (the_cache f)) f.(world)) f).

(** ** The real-time feed *)

Definition receipt (id : Uuid) (sig : Signature) (e : option TransactionError) (time : Z)
    : BotEvent :=
  Blockchain (ExecutionReceiptEvent
    {| action_uuid := id; transaction_signature := sig; err := e; status_changed_at := time |}).

Definition parse_cached_executions (mode : Mode) (tx : TransactionPretty)
    : ST FeedWorld (option BotEvent) :=
  match mode with
  | Live =>
      uuid_opt <- st_gets (fun f =>
        OperationalCache.get_uuid_by_signature (sig_to_string tx.(signature)) (the_cache f)) ;;
      match uuid_opt with
      | Some swap_uuid =>
          update_cache (OperationalCache.mark_signature_as_processed swap_uuid
                          (sig_to_string tx.(signature))) ;;;
          time <- st_gets (fun f => f.(world).(now)) ;;
          st_ret (Some (receipt swap_uuid tx.(signature)
                          (match tx.(tx_meta) with Some meta => meta.(meta_err) | None => None end)
                          time))
      | None => st_ret None
      end
  | PaperTrading =>
      popped <- st_gets (fun f => OperationalCache.pop_front (the_cache f)) ;;
      update_cache (fun _ => snd popped) ;;;
      match fst popped with
      | Some (swap_uuid, _) =>
          time <- st_gets (fun f => f.(world).(now)) ;;
          st_ret (Some (receipt swap_uuid default_signature None time))
      | None => st_ret None
      end
  | BackTesting => st_panic
  end.

(** A successful transaction's fee above the base fee, per compute unit. *)
Definition update_fees (tx : TransactionPretty) : ST FeedWorld unit :=
  match tx.(tx_meta) with
  | Some meta =>
      match is_successful tx, meta.(compute_units_consumed) with
      | true, Some cu =>
          if (0 <? cu) && (BASE_TX_FEE_SOL <? meta.(meta_fee)) then
            c <- st_gets the_cache ;;
            c' <- st_unwrap (OperationalCache.update_optimal_fee
                               ((meta.(meta_fee) - BASE_TX_FEE_SOL) / cu) c) ;;
            update_cache (fun _ => c')
          else st_ret tt
      | _, _ => st_ret tt
      end
  | None => st_ret tt
  end.

(** The reserves after a swap. *)
Definition reserves_after (direction : TradeDirection) (base quote : f64)
    (before : RaydiumPoolPriceUpdate) : f64 * f64 :=
  match direction with
  | TradeBuy => (f64_sub before.(pu_base_reserve) base, f64_add before.(pu_quote_reserve) quote)
  | TradeSell => (f64_add before.(pu_base_reserve) base, f64_sub before.(pu_quote_reserve) quote)
  end.

(** [pre_swap_pool_state]: only the reserves are written back. *)
Definition set_reserves (base quote : f64) (p : RaydiumPoolPriceUpdate) : RaydiumPoolPriceUpdate := {|
  pu_pool := p.(pu_pool); pu_price := p.(pu_price); pu_base_reserve := base;
  pu_quote_reserve := quote; pu_created_at := p.(pu_created_at)
|}.

(** A swap of a monitored pool. *)
Definition swap_event (sig : Signature) (client_pool : RaydiumPool) (parsed_swap : Swap)
    : Parser FeedWorld BotEvent :=
  c <- st_gets the_cache ;;
  before <-! opt (c.(OperationalCache.target_pools_prices) !! parsed_swap.(swap_pool_id)) ;;
  base_amount_ui <-! must (Decimals.tokens_to_ui_amount_with_decimals_f64
                             parsed_swap.(swap_base_amount) client_pool.(base_decimals)) ;;
  quote_amount_ui <-! must (Decimals.tokens_to_ui_amount_with_decimals_f64
                              parsed_swap.(swap_quote_amount) client_pool.(quote_decimals)) ;;
  let '(updated_base, updated_quote) :=
    reserves_after parsed_swap.(swap_direction) base_amount_ui quote_amount_ui before in
  time <- st_gets (fun f => f.(world).(now)) ;;
  let price_update := {|
    pu_pool := client_pool.(pool_id); pu_price := f64_div updated_quote updated_base;
    pu_base_reserve := updated_base; pu_quote_reserve := updated_quote; pu_created_at := time |} in
  update_cache (fun c => OperationalCache.set_target_pools_prices
    (<[parsed_swap.(swap_pool_id) := set_reserves updated_base updated_quote before]>
       c.(OperationalCache.target_pools_prices)) c) ;;;
  if f64_lt updated_base f64_zero then st_bail tt else
  if f64_lt updated_quote f64_zero then st_bail tt else
  st_ok (Blockchain (RaydiumSwap {|
    se_price_update := price_update; se_signature := sig; se_pool := client_pool.(pool_id);
    se_trade_direction := parsed_swap.(swap_direction); se_base_amount := base_amount_ui;
    se_quote_amount := quote_amount_ui; se_price := f64_div quote_amount_ui base_amount_ui;
    se_volume := quote_amount_ui; se_created_at := time |})).

Fixpoint parse_swaps (sig : Signature) (parsed_swaps : list Swap) (events : list BotEvent)
    : Parser FeedWorld (list BotEvent) :=
  match parsed_swaps with
  | [] => st_ok events
  | parsed_swap :: rest =>
      c <- st_gets the_cache ;;
      match c.(OperationalCache.target_pools) !! parsed_swap.(swap_pool_id) with
      | Some client_pool =>
          ev <-! swap_event sig client_pool parsed_swap ;;
          parse_swaps sig rest (events ++ [ev])
      | None => parse_swaps sig rest events
      end
  end.

(** [if let Some(x) = m]: a parser's [None] is not the caller's. *)
Definition attempt {A} (m : Parser FeedWorld A) : ST FeedWorld (option A) :=
  r <- m ;; st_ret (result_to_option r).

Definition new_pool_events (tx : TransactionPretty) : ST FeedWorld (list BotEvent) :=
  time <- st_gets (fun f => f.(world).(now)) ;;
  extracted <- attempt (extract_pool_from_init_tx time tx) ;;
  match extracted with
  | Some (new_pool, price_update) =>
      tokens <- st_gets target_tokens ;;
      if negb (lru_contains new_pool.(base_mint) tokens) then
        st_modify (set_target_tokens (lru_put new_pool.(base_mint) new_pool.(pool_id) tokens)) ;;;
        st_ret [Blockchain (RaydiumNewPoolEvent new_pool price_update)]
      else st_ret []
  | None => st_ret []
  end.

Definition parse_transaction (mode : Mode) (tx : TransactionPretty)
    : Parser FeedWorld (list BotEvent) :=
  if tx.(is_vote) then st_bail tt else
  confirmation <- parse_cached_executions mode tx ;;
  let events := match confirmation with Some e => [e] | None => [] end in
  update_fees tx ;;;
  parsed <- attempt (parse_tx_for_swaps tx) ;;
  events <-! match parsed with
             | Some parsed_swaps => parse_swaps tx.(signature) parsed_swaps events
             | None => st_ok events
             end ;;
  new_events <- new_pool_events tx ;;
  let events := events ++ new_events in
  if bool_decide (events = []) then st_bail tt else st_ok events.

(** The balance known for an account before an update, 0 for none. *)
Definition previous_balance (acc : Pubkey) (c : OperationalCache.t) : Z :=
  match OperationalCache.get_account acc c with Some (Some a) => a.(acc_lamports) | _ => 0 end.

Definition balance_events (acc : AccountPretty) (prev_balance : Z) : list BlockchainEvent :=
  if (prev_balance <? acc.(acc_lamports)) &&
     (BALANCE_CHANGE_THRESHOLD_SOL <? acc.(acc_lamports) - prev_balance) then
    [Deposit acc.(acc_txn_signature) acc.(acc_pubkey) (acc.(acc_lamports) - prev_balance)]
  else if (acc.(acc_lamports) <? prev_balance) &&
          (BALANCE_CHANGE_THRESHOLD_SOL <? prev_balance - acc.(acc_lamports)) then
    [Withdrawal acc.(acc_txn_signature) acc.(acc_pubkey) (prev_balance - acc.(acc_lamports))]
  else [].

Definition parse_account (acc : AccountPretty) : ST FeedWorld (list BlockchainEvent) :=
  prev_balance <- st_gets (fun f => previous_balance acc.(acc_pubkey) (the_cache f)) ;;
  update_cache (OperationalCache.update_account acc.(acc_pubkey) (Some acc)) ;;;
  agent <- st_gets (fun f =>
    OperationalCache.if_agent_signature acc.(acc_txn_signature) (the_cache f)) ;;
  st_ret (AccountUpdate acc :: if agent : bool then [] else balance_events acc prev_balance).

(** [filter_map] and [flat_map] over the stream. *)
Inductive GeyserFeedEvent :=
| Transaction (tx_update : TransactionPretty)
| TxStatusUpdate
| Account (acc : AccountPretty).

Definition handle_feed_event (mode : Mode) (e : GeyserFeedEvent) : ST FeedWorld (list BotEvent) :=
  match e with
  | Transaction tx => o <- attempt (parse_transaction mode tx) ;; st_ret (default [] o)
  | Account acc => evs <- parse_account acc ;; st_ret (map Blockchain evs)
  | TxStatusUpdate => st_ret []
  end.

(** ** Polling for confirmations *)

(** A wait of the poller: other tasks run. *)
Definition wait_point : ST FeedWorld unit :=
  st_modify (fun f => set_calls (f.(calls) + 1) (set_world (meanwhile f.(calls) f.(world)) f)).

Definition get_signature_status (clients : RpcClientPool.t) (sig : Signature)
    : ST FeedWorld (result PoolError (option (result TransactionError unit))) := fun f =>
  let '(r, n) := RpcClientPool.execute_rpc_method_consequently_till_first_success clients
                   (RpcClientPool.call (fun n p => answer_status n p sig)) f.(calls) in
  (r, set_calls n f).

Definition poll_signature (clients : RpcClientPool.t) (signature_str : string)
    : ST FeedWorld (list BotEvent) :=
  sig <- st_unwrap (signature_from_str signature_str) ;;
  status <- get_signature_status clients sig ;;
  wait_point ;;;
  match status with
  | Ok (Some s) =>
      uuid_opt <- st_gets (fun f =>
        OperationalCache.get_uuid_by_signature (sig_to_string sig) (the_cache f)) ;;
      id <- st_unwrap uuid_opt ;;
      wait_point ;;;
      processed <- st_gets (fun f =>
        OperationalCache.is_signature_processed signature_str (the_cache f)) ;;
      if negb processed then
        update_cache (OperationalCache.mark_signature_as_processed id signature_str) ;;;
        time <- st_gets (fun f => f.(world).(now)) ;;
        st_ret [receipt id sig (match s with Ok _ => None | Err e => Some e end) time]
      else st_ret []
  | _ => st_ret []
  end.

Fixpoint poll_signatures (clients : RpcClientPool.t) (signatures : list string)
    : ST FeedWorld (list BotEvent) :=
  match signatures with
  | [] => st_ret []
  | s :: rest =>
      evs <- poll_signature clients s ;;
      evs' <- poll_signatures clients rest ;;
      st_ret (evs ++ evs')
  end.

(** One tick of the loop: the events it sends. *)
Definition poll_round (clients : RpcClientPool.t) : ST FeedWorld (list BotEvent) :=
  signatures_to_poll <- st_gets (fun f =>
    OperationalCache.get_all_unprocessed_tx_signatures (the_cache f)) ;;
  wait_point ;;;
  poll_signatures clients signatures_to_poll.

(** ** Prices and heartbeats *)

Definition price_event (clients : RpcClientPool.t) (pool : Pubkey)
    : ST FeedWorld (list BotEvent) := fun f =>
  match RpcClientPool.get_pool_price f.(world).(now) clients pool f.(calls) with
  | (Some (Ok u), n) =>
      (Some [Blockchain (RaydiumHeartbeatPriceUpdate u)],
       set_calls n (set_world (set_cache (OperationalCache.set_target_pools_prices
         (<[u.(pu_pool) := u]> (the_cache f).(OperationalCache.target_pools_prices))
         (the_cache f)) f.(world)) f))
  | (Some (Err _), n) => (Some [], set_calls n f)
  | (None, n) => (None, set_calls n f)
  end.

(** One tick of [start_prices_stream]. *)
Definition prices_round (clients : RpcClientPool.t) : ST FeedWorld (list BotEvent) :=
  trading_pairs <- st_gets (fun f =>
    map (fun p => p.2.(pool_id)) (map_to_list (the_cache f).(OperationalCache.target_pools))) ;;
  evs <- st_map (price_event clients) trading_pairs ;;
  st_ret (concat evs).

(** What [HeartbeatCollector] sends at each tick of its interval. *)
Definition heartbeat_round (delay_ms : Z) : list BotEvent := [HeartBeat delay_ms].
End Collectors.
