(* ===== verification/CollectorFacts.v ===== *)
(** * What the collectors report *)

From S2P Require Import Prelude MachineInt Float64 Amounts Buffers FeeMetrics Types Cache GenericApi RpcPool Samples TxParser TxParserFacts Collectors.

Section Facts.
Context `{Ext} `{TxCodec} `{CheckedPow} `{LruCache} `{RpcClients} `{StatusFeed}.

(** ** Polling *)

(** Other tasks never make a processed signature unprocessed.  (The buffer of
    processed signatures is bounded; this excludes an eviction while the poller
    waits.) *)
Definition keeps_processed : Prop := forall n w sig,
  OperationalCache.is_signature_processed sig w.(cache) = true ->
  OperationalCache.is_signature_processed sig (meanwhile n w).(cache) = true.

Definition processed (sig : string) (f : FeedWorld) : Prop :=
  OperationalCache.is_signature_processed sig (the_cache f) = true.

Lemma to_poll_processed sig c :
  sig ∈ OperationalCache.get_all_unprocessed_tx_signatures c ->
  OperationalCache.is_signature_processed sig c = true.
Proof. unfold OperationalCache.get_all_unprocessed_tx_signatures. rewrite list_elem_of_filter. tauto. Qed.

Lemma poll_signature_silent clients sig f r f' :
  keeps_processed -> processed sig f ->
  poll_signature clients sig f = (r, f') ->
  (forall evs, r = Some evs -> evs = []) /\ (forall sig', processed sig' f -> processed sig' f').
Proof.
  intros Hk Hp. unfold poll_signature, st_bind, st_unwrap, wait_point, st_modify, st_gets.
  destruct (signature_from_str sig) as [s|]; [|by intros [= <- <-]]. cbn [st_ret].
  unfold get_signature_status at 1.
  destruct (RpcClientPool.execute_rpc_method_consequently_till_first_success _ _ _) as [o n].
  unfold st_ret. destruct o as [[[st|]|e]|]; cbv beta iota.
  2-4: intros [= <- <-]; split; [congruence | intros s'; try apply Hk; done].
  destruct (OperationalCache.get_uuid_by_signature _ _) as [id|]; cbn [st_panic].
  2: { intros [= <- <-]. split; [congruence | intros s'; apply Hk]. }
  match goal with |- context [negb ?b] => replace b with true end.
  - cbn [negb]. intros [= <- <-]. split; [congruence |].
    intros s' Hs. by apply (Hk (n + 1)), (Hk n).
  - symmetry. by apply (Hk (n + 1)), (Hk n).
Qed.

Lemma poll_signatures_silent clients sigs f r f' :
  keeps_processed -> (forall sig, sig ∈ sigs -> processed sig f) ->
  poll_signatures clients sigs f = (r, f') -> forall evs, r = Some evs -> evs = [].
Proof.
  intros Hk. revert f r f'. induction sigs as [|sig sigs IH]; intros f r f' Hp; cbn [poll_signatures].
  - by intros [= <- _] evs [= <-].
  - unfold st_bind. destruct (poll_signature clients sig f) as [[evs1|] f1] eqn:E; [|by intros [= <- _]].
    eapply poll_signature_silent in E as [He Hp1]; [|done | apply Hp; set_solver].
    rewrite (He evs1 eq_refl).
    destruct (poll_signatures clients sigs f1) as [[evs2|] f2] eqn:E2; [|by intros [= <- _]].
    rewrite (IH f1 _ f2 (fun s' Hs => Hp1 s' (Hp s' (list_elem_of_further _ _ _ Hs))) E2 evs2 eq_refl).
    by intros [= <- _] evs [= <-].
Qed.

(** ** Accounts *)

(** What a deposit or a withdrawal adds to a balance. *)
Definition net (e : BlockchainEvent) : Z :=
  match e with Deposit _ _ n => n | Withdrawal _ _ n => - n | _ => 0 end.

Definition net_change (evs : list BlockchainEvent) : Z := sum_list_Z (map net evs).

Lemma balance_events_net acc prev :
  Z.abs (acc.(acc_lamports) - prev - net_change (balance_events acc prev))
  <= BALANCE_CHANGE_THRESHOLD_SOL.
Proof.
  unfold balance_events, net_change, BALANCE_CHANGE_THRESHOLD_SOL.
  destruct (prev <? acc_lamports acc) eqn:E1, (1000 <? acc_lamports acc - prev) eqn:E2,
    (acc_lamports acc <? prev) eqn:E3, (1000 <? prev - acc_lamports acc) eqn:E4;
    cbn; unfold sum_list_Z; cbn; lia.
Qed.

(** The account is no trading wallet's and the update is not by the bot. *)
Definition foreign_update (pk : Pubkey) (f : FeedWorld) (acc : AccountPretty) : Prop :=
  acc.(acc_pubkey) = pk /\
  OperationalCache.if_agent_signature acc.(acc_txn_signature) (the_cache f) = false.

Lemma parse_account_eq acc f :
  parse_account acc f =
  (Some (AccountUpdate acc ::
     if OperationalCache.if_agent_signature acc.(acc_txn_signature) (the_cache f) then []
     else balance_events acc (previous_balance acc.(acc_pubkey) (the_cache f))),
   set_world (set_cache (OperationalCache.update_account acc.(acc_pubkey) (Some acc) (the_cache f))
                f.(world)) f).
Proof. reflexivity. Qed.

Lemma parse_account_foreign pk f acc :
  foreign_update pk f acc ->
  exists evs f', parse_account acc f = (Some evs, f') /\
    Z.abs (acc.(acc_lamports) - previous_balance pk (the_cache f) - net_change evs)
      <= BALANCE_CHANGE_THRESHOLD_SOL /\
    previous_balance pk (the_cache f') = acc.(acc_lamports) /\
    (forall a, foreign_update pk f a -> foreign_update pk f' a).
Proof.
  intros [Hpk Ha]. eexists _, _. split; [apply parse_account_eq|]. rewrite Ha.
  split_and!.
  - unfold net_change. cbn [map]. rewrite sum_list_Z_cons, Hpk. apply balance_events_net.
  - unfold previous_balance, OperationalCache.get_account. cbn. by rewrite Hpk, lookup_insert_eq.
  - intros a Hf. exact Hf.
Qed.
End Facts.

(** The poller of transaction statuses never reports a confirmation: it asks the
    node about the signatures that are already processed, and drops the answer
    because they are. A transaction the feed missed is never confirmed. *)
Theorem poller_never_reports `{Ext} `{LruCache} `{RpcClients} `{StatusFeed}
    (clients : RpcClientPool.t) (f f' : FeedWorld) (evs : list BotEvent)
    (Hkeep : keeps_processed)
    (Hround : poll_round clients f = (Some evs, f')) :
  evs = [].
Proof.
  unfold poll_round, st_bind, st_gets, wait_point, st_modify in Hround.
  refine (poll_signatures_silent _ _ _ _ _ Hkeep _ Hround _ eq_refl).
  intros sig Hs. by apply (Hkeep (calls f)), to_poll_processed.
Qed.

(** C20. The deposits and withdrawals reported for an account follow its balance: over
    any sequence of updates that are not the bot's own, their sum is the change
    of the balance up to the threshold per update, counting from zero when the
    account was not known. *)
Theorem deposits_track_balance `{Ext} `{LruCache} (pk : Pubkey) (accs : list AccountPretty)
    (f : FeedWorld) (Hforeign : Forall (foreign_update pk f) accs) :
  exists evs f', st_map parse_account accs f = (Some evs, f') /\
    Z.abs (previous_balance pk (the_cache f') - previous_balance pk (the_cache f)
           - net_change (concat evs)) <= BALANCE_CHANGE_THRESHOLD_SOL * Z.of_nat (length accs) /\
    (forall acc, last accs = Some acc -> previous_balance pk (the_cache f') = acc.(acc_lamports)).
Proof.
  revert f Hforeign. induction accs as [|acc accs IH]; intros f Hforeign.
  { exists [], f. split; [reflexivity|]. split; [|discriminate].
    change (net_change (concat [])) with 0. cbn [length]. lia. }
  apply Forall_cons in Hforeign as [Hf Hrest].
  destruct (parse_account_foreign pk f acc Hf) as (ev & f1 & E1 & Hev & Hb1 & Hkeep).
  destruct (IH f1) as (evs & f2 & E2 & Hevs & Hlast); [eapply Forall_impl; eauto|].
  exists (ev :: evs), f2. cbn [st_map]. erewrite st_bind_Some by exact E1.
  erewrite st_bind_Some by exact E2. split; [reflexivity|]. split.
  - cbn [concat length]. unfold net_change in *. rewrite map_app, sum_list_Z_app.
    unfold BALANCE_CHANGE_THRESHOLD_SOL in *. lia.
  - intros a Ha. destruct accs as [|acc' accs]; [|by apply Hlast].
    injection Ha as <-. by injection E2 as _ <-.
Qed.

Section Transactions.
Context `{Ext} `{TxCodec} `{CheckedPow} `{LruCache}.

(** The error of a transaction, as its metadata gives it. *)
Definition tx_error (tx : TransactionPretty) : option TransactionError :=
  match tx.(tx_meta) with Some meta => meta.(meta_err) | None => None end.

Definition uuid_of (tx : TransactionPretty) (f : FeedWorld) : option Uuid :=
  OperationalCache.get_uuid_by_signature (sig_to_string tx.(signature)) (the_cache f).

(** The state after a transaction of the bot was seen. *)
Definition mark_seen (id : Uuid) (tx : TransactionPretty) (f : FeedWorld) : FeedWorld :=
  set_world (set_cache (OperationalCache.mark_signature_as_processed id
    (sig_to_string tx.(signature)) (the_cache f)) f.(world)) f.

Lemma live_known tx f id :
  uuid_of tx f = Some id ->
  parse_cached_executions Live tx f =
  (Some (Some (receipt id tx.(signature) (tx_error tx) f.(world).(now))), mark_seen id tx f).
Proof. intros Hu. unfold parse_cached_executions, st_bind, st_gets. unfold uuid_of in Hu. by rewrite Hu. Qed.

Lemma live_unknown tx f : uuid_of tx f = None -> parse_cached_executions Live tx f = (Some None, f).
Proof. intros Hu. unfold parse_cached_executions, st_bind, st_gets. unfold uuid_of in Hu. by rewrite Hu. Qed.

Lemma mark_seen_processed id tx f :
  OperationalCache.is_signature_processed (sig_to_string tx.(signature)) (the_cache (mark_seen id tx f)) = true.
Proof.
  unfold OperationalCache.is_signature_processed, CircularBufferWithLookupByValue.contains_value.
  apply bool_decide_true. cbn. rewrite lookup_insert_eq. by eexists.
Qed.

(** Only the fee statistics of the cache change, and stay well formed. *)
Definition same_but_fees (f f' : FeedWorld) : Prop :=
  exists m, FeeMetrics.wf m /\ f' = set_world (set_cache (OperationalCache.set_optimal_fee m (the_cache f)) f.(world)) f.

Lemma same_but_fees_refl f :
  FeeMetrics.wf (OperationalCache.optimal_fee (the_cache f)) -> same_but_fees f f.
Proof. intros Hwf. exists (OperationalCache.optimal_fee (the_cache f)). split; [done|]. by destruct f as [[[]] ? ?]. Qed.

Lemma update_fees_total tx f :
  FeeMetrics.wf (OperationalCache.optimal_fee (the_cache f)) ->
  exists f', update_fees tx f = (Some tt, f') /\ same_but_fees f f'.
Proof.
  intros Hwf. unfold update_fees.
  assert (exists f', st_ret tt f = (Some tt, f') /\ same_but_fees f f') as Hsame
    by (eexists; split; [reflexivity | by apply same_but_fees_refl]).
  destruct (tx_meta tx) as [meta|]; [|done]. destruct (is_successful tx); [|done].
  destruct (compute_units_consumed meta) as [cu|]; [|done].
  destruct ((0 <? cu) && (BASE_TX_FEE_SOL <? meta_fee meta)); [|done].
  unfold st_bind, st_gets. unfold OperationalCache.update_optimal_fee.
  destruct (FeeMetrics.add_fee_wf ((meta_fee meta - BASE_TX_FEE_SOL) / cu) _ Hwf) as (m & Em & Hm).
  rewrite Em. cbn. eexists. split; [reflexivity | by exists m].
Qed.

Lemma attempt_eq {A} (m : ST FeedWorld (result unit A)) f r f' :
  m f = (Some r, f') -> attempt m f = (Some (result_to_option r), f').
Proof. intros E. unfold attempt, st_bind. by rewrite E. Qed.

Lemma new_pool_events_eq tx g pool price :
  extract_pool_from_init_tx g.(world).(now) tx g = (Some (Ok (pool, price)), g) ->
  new_pool_events tx g =
  if lru_contains pool.(base_mint) g.(target_tokens) then (Some [], g)
  else (Some [Blockchain (RaydiumNewPoolEvent pool price)],
        set_target_tokens (lru_put pool.(base_mint) pool.(pool_id) g.(target_tokens)) g).
Proof.
  intros E. unfold new_pool_events. unfold st_bind at 1, st_gets at 1.
  erewrite st_bind_Some by (apply attempt_eq, E). cbn [result_to_option].
  unfold st_bind at 1, st_gets. by destruct (lru_contains _ _).
Qed.
End Transactions.

(** Every delivery of a transaction of the bot gives a receipt for its action,
    with the transaction's own error: the mark that the signature is processed
    is written, never read. *)
Theorem every_delivery_reported `{Ext} `{LruCache} (tx : TransactionPretty) (f : FeedWorld)
    (id : Uuid) (Hid : uuid_of tx f = Some id) :
  exists f1 f2,
    let r := receipt id tx.(signature) (tx_error tx) f.(world).(now) in
    parse_cached_executions Live tx f = (Some (Some r), f1) /\
    OperationalCache.is_signature_processed (sig_to_string tx.(signature)) (the_cache f1) = true /\
    parse_cached_executions Live tx f1 = (Some (Some r), f2).
Proof.
  exists (mark_seen id tx f), (mark_seen id tx (mark_seen id tx f)). cbv zeta.
  split; [by apply live_known|]. split; [apply mark_seen_processed|].
  by apply (live_known tx (mark_seen id tx f)).
Qed.

(** A confirmed transaction of the bot that swaps in a monitored pool without a
    known price is not reported: its signature is marked as processed and then
    the handler gives up with the receipt in hand. *)
Theorem receipt_lost_with_swap `{Ext} `{TxCodec} `{CheckedPow} `{LruCache} (tx : TransactionPretty)
    (f : FeedWorld) (id : Uuid) (sw : Swap) (rest : list Swap) (pool : RaydiumPool)
    (Hvote : tx.(is_vote) = false) (Hid : uuid_of tx f = Some id)
    (Hwf : FeeMetrics.wf (OperationalCache.optimal_fee (the_cache f)))
    (Hswaps : forall g : FeedWorld, parse_tx_for_swaps tx g = (Some (Ok (sw :: rest)), g))
    (Hpool : OperationalCache.target_pools (the_cache f) !! sw.(swap_pool_id) = Some pool)
    (Hprice : OperationalCache.target_pools_prices (the_cache f) !! sw.(swap_pool_id) = None) :
  exists f', parse_transaction Live tx f = (Some (Err tt), f') /\
    OperationalCache.is_signature_processed (sig_to_string tx.(signature)) (the_cache f') = true.
Proof.
  unfold parse_transaction. rewrite Hvote.
  erewrite st_bind_Some by (by apply live_known). cbv zeta.
  destruct (update_fees_total tx (mark_seen id tx f) Hwf) as (f1 & E1 & m & _ & ->).
  erewrite st_bind_Some by exact E1.
  erewrite st_bind_Some by (apply attempt_eq, Hswaps). cbn [result_to_option].
  eexists. split.
  - unfold st_try at 1. unfold st_bind at 1. cbn [parse_swaps]. unfold st_bind at 1, st_gets at 1.
    cbn. rewrite Hpool. unfold swap_event, st_try at 1, st_bind, st_gets at 1. cbn.
    rewrite Hprice. reflexivity.
  - apply mark_seen_processed.
Qed.

(** The pool of a failed [initialize2] transaction is announced like any other,
    and a mint is announced once: the next transaction that opens a pool of the
    same mint is silent. *)
Theorem failed_initialization_announced `{Ext} `{TxCodec} `{CheckedPow} `{LruCache}
    (tx : TransactionPretty) (f : FeedWorld) (error : TransactionError)
    (pool : RaydiumPool) (price : RaydiumPoolPriceUpdate)
    (Hvote : tx.(is_vote) = false) (Hfailed : tx_error tx = Some error)
    (Hid : uuid_of tx f = None)
    (Hwf : FeeMetrics.wf (OperationalCache.optimal_fee (the_cache f)))
    (Hnone : forall g : FeedWorld, parse_tx_for_swaps tx g = (Some (Err tt), g))
    (Hpool : forall g : FeedWorld, g.(world).(now) = f.(world).(now) ->
       extract_pool_from_init_tx g.(world).(now) tx g = (Some (Ok (pool, price)), g))
    (Hnew : lru_contains pool.(base_mint) f.(target_tokens) = false) :
  exists f' f'',
    parse_transaction Live tx f =
      (Some (Ok [Blockchain (RaydiumNewPoolEvent pool price)]), f') /\
    parse_transaction Live tx f' = (Some (Err tt), f'').
Proof.
  assert (forall g, uuid_of tx g = None -> FeeMetrics.wf (OperationalCache.optimal_fee (the_cache g)) ->
    g.(world).(now) = f.(world).(now) ->
    exists g1, same_but_fees g g1 /\
      parse_transaction Live tx g =
      st_bind (new_pool_events tx) (fun new_events =>
        if bool_decide (new_events = []) then st_bail tt else st_ok new_events) g1) as Hstep.
  { intros g Hu Hw Hn. unfold parse_transaction. rewrite Hvote.
    erewrite st_bind_Some by (by apply live_unknown). cbv zeta.
    destruct (update_fees_total tx g Hw) as (g1 & E1 & Hs).
    erewrite st_bind_Some by exact E1.
    erewrite st_bind_Some by (apply attempt_eq, Hnone). cbn [result_to_option].
    exists g1. split; [done|]. reflexivity. }
  destruct (Hstep f Hid Hwf eq_refl) as (f1 & (m1 & Hm1 & ->) & ->).
  erewrite st_bind_Some by (erewrite new_pool_events_eq by (by apply Hpool); cbn; by rewrite Hnew).
  rewrite bool_decide_false by done.
  match goal with |- context [st_ok _ ?g] => set (f2 := g) end. exists f2.
  destruct (Hstep f2 Hid Hm1 eq_refl) as (g1 & (m2 & _ & ->) & Eg).
  rewrite Eg. eexists. split; [reflexivity|].
  erewrite st_bind_Some by
    (erewrite new_pool_events_eq by (by apply Hpool); cbn; by rewrite lru_put_contains).
  by rewrite bool_decide_true.
Qed.

(** A reported swap of a monitored pool moves its two reserves by the amounts
    traded, in opposite directions, leaves both non-negative and is priced by
    their ratio; but the pool's cached price stays the one before the swap. *)
Theorem swap_updates_reserves `{Ext} `{CheckedPow} `{LruCache} (sig : Signature)
    (pool : RaydiumPool) (sw : Swap) (f f' : FeedWorld) (ev : BotEvent)
    (Hswap : swap_event sig pool sw f = (Some (Ok ev), f')) :
  let prices g := OperationalCache.target_pools_prices (the_cache g) in
  exists before after swap b q,
    prices f !! sw.(swap_pool_id) = Some before /\ ev = Blockchain (RaydiumSwap swap) /\
    Decimals.tokens_to_ui_amount_with_decimals_f64 sw.(swap_base_amount) pool.(base_decimals) = Some b /\
    Decimals.tokens_to_ui_amount_with_decimals_f64 sw.(swap_quote_amount) pool.(quote_decimals) = Some q /\
    prices f' = <[sw.(swap_pool_id) := after]> (prices f) /\
    (after.(pu_base_reserve), after.(pu_quote_reserve)) = reserves_after sw.(swap_direction) b q before /\
    f64_lt after.(pu_base_reserve) f64_zero = false /\
    f64_lt after.(pu_quote_reserve) f64_zero = false /\
    swap.(se_price_update).(pu_base_reserve) = after.(pu_base_reserve) /\
    swap.(se_price_update).(pu_quote_reserve) = after.(pu_quote_reserve) /\
    swap.(se_price_update).(pu_price) = f64_div after.(pu_quote_reserve) after.(pu_base_reserve) /\
    after.(pu_price) = before.(pu_price).
Proof.
  cbv zeta. unfold swap_event in Hswap. unfold st_bind at 1, st_gets at 1 in Hswap.
  try_inv Hswap before. try_inv Hswap b. try_inv Hswap q.
  destruct (reserves_after _ _ _ _) as [nb nq] eqn:Er.
  unfold st_bind, st_gets, update_cache, st_modify in Hswap.
  destruct (f64_lt nb f64_zero) eqn:Eb; [discriminate|].
  destruct (f64_lt nq f64_zero) eqn:Eq; [discriminate|].
  apply ok_inv in Hswap as [<- ->].
  exists before, (set_reserves nb nq before). eexists _, b, q. split_and!; try reflexivity; done.
Qed.

(** ** Instances for the properties *)
#[local] Existing Instance sample_ext.
#[local] Existing Instance sample_codec.
#[local] Existing Instance checked_pow_model.
#[local] Existing Instance sample_clients.

Definition sample_lru : LruCache.
Proof.
  refine {| lru := list Pubkey; lru_contains k c := bool_decide (k ∈ c); lru_put k _ c := k :: c |}.
  intros. apply bool_decide_true, list_elem_of_here.
Defined.

#[local] Existing Instance sample_lru.

Definition sample_status : StatusFeed := {|
  answer_status := fun _ _ _ => Ok (Some (Ok tt));
  signature_from_str := fun _ => Some 77;
  meanwhile := fun _ w => w;
|}.

#[local] Existing Instance sample_status.

(** The transaction 77 is the bot's action 5, and is processed. *)
Definition feed_cache : OperationalCache.t :=
  OperationalCache.mark_signature_as_processed 5 "sig"
    (OperationalCache.add_agent_tx 5 "sig" sample_cache).

Definition feed_of (c : OperationalCache.t) : FeedWorld :=
  feed _ (set_cache c sample_world) ([] : list Pubkey) 0.

Lemma poller_never_reports_witness :
  exists evs f', poll_round {| RpcClientPool.clients := ["node"%string] |} (feed_of feed_cache)
    = (Some evs, f') /\ calls f' = 4 /\ evs = [].
Proof.
  destruct (poll_round {| RpcClientPool.clients := ["node"%string] |} (feed_of feed_cache))
    as [o f'] eqn:E.
  assert (match o with Some _ => calls f' = 4 | None => False end) as Ho
    by (replace o with (fst (poll_round {| RpcClientPool.clients := ["node"%string] |} (feed_of feed_cache)))
          by (by rewrite E);
        replace f' with (snd (poll_round {| RpcClientPool.clients := ["node"%string] |} (feed_of feed_cache)))
          by (by rewrite E); vm_compute; reflexivity).
  destruct o as [evs|]; [|done]. exists evs, f'. split_and!; [done..|].
  refine (poller_never_reports _ _ f' evs _ E). intros n w sig Hs. exact Hs.
Defined.

Definition sample_account (lamports : Z) : AccountPretty := {|
  acc_pubkey := 9; acc_lamports := lamports; acc_token := None; acc_txn_signature := "other"
|}.

Lemma deposits_track_balance_witness :
  exists evs f', st_map parse_account [sample_account 5000; sample_account 100] (feed_of feed_cache)
    = (Some evs, f') /\ previous_balance 9 (the_cache f') = 100 /\
    Z.abs (100 - net_change (concat evs)) <= 2000.
Proof.
  destruct (deposits_track_balance 9 [sample_account 5000; sample_account 100] (feed_of feed_cache))
    as (evs & f' & E & Hb & Hl).
  - repeat constructor.
  - exists evs, f'. specialize (Hl _ eq_refl). rewrite Hl in Hb. split_and!; [done..|].
    change (previous_balance 9 (the_cache (feed_of feed_cache))) with 0 in Hb.
    cbn [length acc_lamports sample_account] in Hb. unfold BALANCE_CHANGE_THRESHOLD_SOL in Hb. lia.
Defined.

Lemma every_delivery_reported_witness :
  exists f1, parse_cached_executions Live sample_tx (feed_of feed_cache) =
    (Some (Some (receipt 5 77 None 1000)), f1).
Proof.
  assert (Hid : uuid_of sample_tx (feed_of feed_cache) = Some 5) by (vm_compute; reflexivity).
  destruct (every_delivery_reported sample_tx (feed_of feed_cache) 5 Hid)
    as (f1 & f2 & E & _ & _).
  by exists f1.
Defined.

Lemma sample_fees_wf : FeeMetrics.wf (FeeMetrics.new 4 4).
Proof.
  split; [apply RollingAverage.rolling_new_wf; lia |]. split; cbn; [lia | constructor | lia].
Qed.

(** Pool 2 is monitored, without a price. *)
Definition priceless_cache : OperationalCache.t :=
  OperationalCache.set_target_pools {[ 2 := sample_pool ]} feed_cache.

Lemma receipt_lost_with_swap_witness :
  exists f', parse_transaction Live sample_tx (feed_of priceless_cache) = (Some (Err tt), f').
Proof.
  destruct (receipt_lost_with_swap sample_tx (feed_of priceless_cache) 5
    {| swap_signature := 77; swap_pool_id := 2; swap_quote_amount := 7; swap_base_amount := 2;
       swap_direction := TradeBuy |} (tail sample_swaps) sample_pool)
    as (f' & E & _); try (intros; vm_compute; reflexivity).
  - apply sample_fees_wf.
  - by exists f'.
Defined.

(** A failed transaction that is not the bot's, with one unknown instruction. *)
Definition failed_tx : TransactionPretty := {|
  signature := 78; is_vote := false; tx_transaction := Encoded "failed";
  tx_meta := Some {| meta_err := Some "SlippageExceeded"; meta_status_ok := false; meta_fee := 5000;
    inner_instructions := None; log_messages := log_messages sample_meta;
    pre_token_balances := pre_token_balances sample_meta; compute_units_consumed := None |}
|}.

Definition failed_pool : option (RaydiumPool * RaydiumPoolPriceUpdate) :=
  match fst (extract_pool_from_init_tx 1000 failed_tx tt) with
  | Some r => result_to_option r
  | None => None
  end.

Lemma failed_initialization_announced_witness :
  exists pool price f', failed_pool = Some (pool, price) /\ pool.(base_mint) = 5 /\
    parse_transaction Live failed_tx (feed_of sample_cache) =
    (Some (Ok [Blockchain (RaydiumNewPoolEvent pool price)]), f').
Proof.
  let x := eval vm_compute in failed_pool in
  match x with Some (?p, ?q) => exists p, q end.
  match goal with |- exists f', failed_pool = Some (?p, ?q) /\ _ =>
    destruct (failed_initialization_announced failed_tx (feed_of sample_cache)
      "SlippageExceeded" p q) as (f' & f'' & E & _); [reflexivity..| | | | reflexivity |] end.
  - apply sample_fees_wf.
  - intros g. vm_compute. reflexivity.
  - intros g Hn. rewrite Hn. vm_compute. reflexivity.
  - exists f'. split; [vm_compute; reflexivity|]. split; [reflexivity | exact E].
Defined.

(** Pool 2 is monitored at 10 against 100. *)
Definition priced_cache : OperationalCache.t :=
  OperationalCache.set_target_pools_prices
    {[ 2 := {| pu_pool := 2; pu_price := f64_of_Z 10; pu_base_reserve := f64_of_Z 10;
               pu_quote_reserve := f64_of_Z 100; pu_created_at := 0 |} ]} priceless_cache.

Definition sample_swap : Swap := {|
  swap_signature := 77; swap_pool_id := 2; swap_quote_amount := 25000000000;
  swap_base_amount := 2000000; swap_direction := TradeBuy
|}.

Definition reserves_of (f : FeedWorld) : option (f64 * f64) :=
  fmap (fun p => (p.(pu_base_reserve), p.(pu_quote_reserve)))
    (OperationalCache.target_pools_prices (the_cache f) !! 2).

Lemma swap_updates_reserves_witness :
  exists ev f' after before,
    swap_event 77 sample_pool sample_swap (feed_of priced_cache) = (Some (Ok ev), f') /\
    OperationalCache.target_pools_prices (the_cache f') !! 2 = Some after /\
    after.(pu_price) = before.(pu_price) /\
    reserves_of f' = Some (f64_of_Z 8, f64_of_Z 125).
Proof.
  destruct (swap_event 77 sample_pool sample_swap (feed_of priced_cache)) as [r f'] eqn:E.
  assert (match r with Some (Ok _) => True | _ => False end) as Hr
    by (replace r with (fst (swap_event 77 sample_pool sample_swap (feed_of priced_cache)))
          by (by rewrite E); vm_compute; exact I).
  assert (reserves_of f' = Some (f64_of_Z 8, f64_of_Z 125)) as Hp
    by (replace f' with (snd (swap_event 77 sample_pool sample_swap (feed_of priced_cache)))
          by (by rewrite E); vm_compute; reflexivity).
  destruct r as [[ev|]|]; [|destruct Hr..].
  destruct (swap_updates_reserves 77 sample_pool sample_swap _ f' ev E)
    as (before & after & swap & x & y & _ & _ & _ & _ & Hf & _ & _ & _ & _ & _ & _ & Hprice).
  exists ev, f', after, before. split; [reflexivity|]. split; [|split; [exact Hprice | exact Hp]].
  rewrite Hf. apply lookup_insert_eq.
Defined.
