(* ===== verification/Feeds.v ===== *)
(** * Streams of the chain ([collectors/tx_stream])

    [geyser_feed.rs] turns the messages of a gRPC stream into events and keeps the
    stream's subscription on the accounts the cache monitors; [tx_stream.rs] merges
    the feeds of all providers and drops what a signature was already seen for;
    [types.rs] converts what they carry; [ws_feed.rs] is a feed nothing starts.  The
    gRPC and websocket clients, base58 and the transaction encoder are the class
    [FeedCodec]. *)

From stdpp Require Import sorting.
From S2P Require Import Prelude MachineInt Float64 Buffers Amounts Types Cache TxParser Collectors.

Definition GEYSER_TX_FEED_BUFFER_CAPACITY : nat := Z.to_nat 65536.

(** ** What the providers send *)

(** [SubscribeUpdateTransactionInfo]; [raw_payload] stands for the transaction and
    its metadata, which only the encoder reads. *)
Record TransactionInfo := {
  raw_signature : list Z;
  raw_is_vote : bool;
  raw_payload : string;
}.

Record AccountInfo := {
  raw_pubkey : list Z;
  raw_lamports : Z;
  raw_owner : list Z;
  raw_data : list Z;
  raw_txn_signature : option (list Z);
}.

(** [update_oneof] of a message. *)
Inductive UpdateOneof :=
| Block (block_time : option Z)
| AccountMsg (account : option AccountInfo)
| TransactionMsg (transaction : option TransactionInfo) (slot : Z)
| TransactionStatusMsg (signature : list Z)
| Ping
| OtherMsg.

(** [Signature::try_from] on bytes; [Pubkey::try_from]; [bs58::encode];
    [SplTokenAccount::unpack]; [create_tx_with_meta] followed by [encode]. *)
Class FeedCodec := {
  signature_from_bytes : list Z -> option Signature;
  pubkey_from_bytes : list Z -> option Pubkey;
  base58 : list Z -> string;
  unpack_token_account : list Z -> option SplTokenAccount;
  encode_payload : string -> option (EncodedTransaction * option UiTransactionStatusMeta);
}.

(** [GeyserFeedEvent]. *)
Inductive FeedEvent :=
| FeedTransaction (transaction : option TransactionInfo) (slot : Z)
| FeedStatus (signature : list Z)
| FeedAccount (account : AccountPretty).

Abbreviation SeenBuffer := (CircularBufferWithLookupByValue.t Signature Z).

Section Feeds.
Context `{FeedCodec}.

(** ** Conversions ([types.rs]); [None]: an [expect] fails *)

Definition account_pretty (account : option AccountInfo) : option AccountPretty :=
  a ← account;
  pubkey ← pubkey_from_bytes (raw_pubkey a);
  _ ← pubkey_from_bytes (raw_owner a);
  Some {| acc_pubkey := pubkey; acc_lamports := raw_lamports a;
          acc_token := unpack_token_account (raw_data a);
          acc_txn_signature := base58 (default [] (raw_txn_signature a)) |}.

Definition transaction_pretty (transaction : option TransactionInfo) : option TransactionPretty :=
  t ← transaction;
  sig ← signature_from_bytes (raw_signature t);
  '(tx, meta) ← encode_payload (raw_payload t);
  Some {| signature := sig; is_vote := raw_is_vote t; tx_transaction := tx; tx_meta := meta |}.

(** From a confirmed transaction of an RPC node, which must be JSON with a signature
    that parses; it counts as a vote whenever it has metadata. *)
Definition confirmed_pretty (parse : string -> option Signature) (signatures : list string)
    (tx : EncodedTransaction) (meta : option UiTransactionStatusMeta) : option TransactionPretty :=
  match tx with
  | Json _ =>
      s ← signatures !! 0%nat;
      sig ← parse s;
      Some {| signature := sig; is_vote := bool_decide (is_Some meta); tx_transaction := tx; tx_meta := meta |}
  | Encoded _ => None
  end.

(** From an account an RPC node gives: its address is not in it. *)
Definition rpc_account_pretty (lamports : Z) (data : list Z) : AccountPretty :=
  {| acc_pubkey := 0; acc_lamports := lamports; acc_token := unpack_token_account data;
     acc_txn_signature := EmptyString |}.

(** [ws_feed]: the signature of each log is queried, and what cannot be had is skipped;
    a signature that does not parse, or a transaction that is not as expected, ends the
    task. *)
Fixpoint ws_feed (parse : string -> option Signature)
    (query : Signature -> option (list string * EncodedTransaction * option UiTransactionStatusMeta))
    (logs : list string) : list TransactionPretty :=
  match logs with
  | [] => []
  | signature_str :: rest =>
      match parse signature_str with
      | None => []
      | Some sig =>
          match query sig with
          | None => ws_feed parse query rest
          | Some (signatures, tx, meta) =>
              match confirmed_pretty parse signatures tx meta with
              | Some t => t :: ws_feed parse query rest
              | None => []
              end
          end
      end
  end.

(** ** One provider's stream ([geyser_feed]) *)

(** What the task does: an event for the others, or a ping to the provider. *)
Inductive FeedOut := Transmit (e : FeedEvent) | PingBack.

(** The delays of blocks it measures. *)
Record FeedTask := { average_delay : f64; number_of_blocks : Z }.

Definition feed_start : FeedTask := {| average_delay := f64_zero; number_of_blocks := 0 |}.

Definition on_block (current_time timestamp : Z) (f : FeedTask) : FeedTask :=
  let n := wrap_i32 (number_of_blocks f + 1) in
  let delay_ms := wrap_i64 (current_time - wrap_i64 (timestamp * 1000)) in
  {| average_delay := f64_div (f64_add (f64_mul (average_delay f) (f64_of_Z (wrap_i32 (n - 1))))
                                 (f64_of_Z delay_ms)) (f64_of_Z n);
     number_of_blocks := n |}.

(** One message; [None]: the task panics. *)
Definition on_message (current_time : Z) (m : option UpdateOneof) (f : FeedTask) :
    option (FeedTask * list FeedOut) :=
  match m with
  | Some (Block block_time) => timestamp ← block_time; Some (on_block current_time timestamp f, [])
  | Some (AccountMsg account) => acc ← account_pretty account; Some (f, [Transmit (FeedAccount acc)])
  | Some (TransactionMsg tx slot) => Some (f, [Transmit (FeedTransaction tx slot)])
  | Some (TransactionStatusMsg sig) => Some (f, [Transmit (FeedStatus sig)])
  | Some Ping => Some (f, [PingBack])
  | Some OtherMsg | None => Some (f, [])
  end.

(** The loop over the stream: messages with the times they come at; an error ends it. *)
Fixpoint geyser_loop (ms : list (Z * result string (option UpdateOneof))) (f : FeedTask) : list FeedOut :=
  match ms with
  | (t, Ok m) :: ms' =>
      match on_message t m f with
      | Some (f', out) => out ++ geyser_loop ms' f'
      | None => []
      end
  | _ => []
  end.

(** What a task hands to the channel all feeds share. *)
Definition transmitted (out : list FeedOut) : list FeedEvent :=
  omap (fun o => match o with Transmit e => Some e | PingBack => None end) out.

(** ** The merged stream ([blockchain_stream]) *)

Definition new_seen : SeenBuffer :=
  CircularBufferWithLookupByValue.new GEYSER_TX_FEED_BUFFER_CAPACITY.

(** What the closure finds for the signature of an event: an [expect] that fails, an
    event dropped by [?], nothing to check, or the signature. *)
Inductive SeenKey := BadSignature | NoSignature | Unchecked | SeenBy (sig : Signature).

Definition seen_key (e : FeedEvent) : SeenKey :=
  match e with
  | FeedTransaction tx _ =>
      match t ← tx; signature_from_bytes (raw_signature t) with Some s => SeenBy s | None => NoSignature end
  | FeedStatus sig =>
      match signature_from_bytes sig with Some s => SeenBy s | None => BadSignature end
  | FeedAccount _ => Unchecked
  end.

(** The closure of [filter_map] on an event at a time; [None]: it panics. *)
Definition drop_seen (now : Z) (e : FeedEvent) (tx_buffer : SeenBuffer) : option (option FeedEvent * SeenBuffer) :=
  match seen_key e with
  | BadSignature => None
  | NoSignature => Some (None, tx_buffer)
  | Unchecked => Some (Some e, tx_buffer)
  | SeenBy s =>
      if CircularBufferWithLookupByValue.contains_key s tx_buffer then Some (None, tx_buffer)
      else Some (Some e, CircularBufferWithLookupByValue.insert s now tx_buffer)
  end.

(** The stream after the filter, up to a panic. *)
Fixpoint without_duplicates (arrivals : list (Z * FeedEvent)) (tx_buffer : SeenBuffer) : list FeedEvent :=
  match arrivals with
  | [] => []
  | (now, e) :: rest =>
      match drop_seen now e tx_buffer with
      | Some (o, b) => option_list o ++ without_duplicates rest b
      | None => []
      end
  end.

(** What the feeds transmitted, in the order the channel took it. *)
Inductive merged {A} : list (list A) -> list A -> Prop :=
| merged_done feeds : Forall (eq []) feeds -> merged feeds []
| merged_next l1 a feed l2 rest :
    merged (l1 ++ feed :: l2) rest -> merged (l1 ++ (a :: feed) :: l2) (a :: rest).

(** The stream the collector gets from the feeds of all the providers. *)
Definition blockchain_stream (feeds : list (list FeedEvent)) (stream : list FeedEvent) : Prop :=
  exists arrivals, merged feeds arrivals.*2 /\ stream = without_duplicates arrivals new_seen.

(** As the collector's handler takes an event. *)
Definition for_collector (e : FeedEvent) : option GeyserFeedEvent :=
  match e with
  | FeedTransaction tx _ => Transaction <$> transaction_pretty tx
  | FeedStatus _ => Some TxStatusUpdate
  | FeedAccount a => Some (Account a)
  end.
End Feeds.

(** ** Each signature once *)

(** A list in which no [cap + 1] neighbours repeat. *)
Definition apart {A} (cap : nat) (l : list A) : Prop :=
  forall pre w post, l = pre ++ w ++ post -> (length w <= S cap)%nat -> NoDup w.

Lemma apart_nil {A} cap : apart (A := A) cap [].
Proof. intros pre w post E _. symmetry in E. apply app_eq_nil in E as [_ E]. apply app_eq_nil in E as [-> _]. constructor. Qed.

Lemma suffix_drop {A} (pre w : list A) n : (length w <= n)%nat -> w ⊆ drop (length (pre ++ w) - n) (pre ++ w).
Proof.
  intros Hn x Hx. rewrite length_app, drop_app_le by lia. apply elem_of_app. by right.
Qed.

Lemma apart_snoc {A} cap (l : list A) x :
  apart cap l -> x ∉ drop (length l - cap) l -> apart cap (l ++ [x]).
Proof.
  intros Hl Hx pre w post E Hw. destruct post as [|y post _] using rev_ind.
  - rewrite app_nil_r in E. destruct w as [|y w _] using rev_ind; [constructor|].
    rewrite (assoc_L (++)) in E. apply app_inj_tail in E as [-> <-].
    rewrite length_app in Hw. cbn in Hw. apply list.NoDup_app. split.
    + apply (Hl pre w []); [by rewrite app_nil_r | lia].
    + split; [|apply list.NoDup_singleton]. intros z Hz ->%list_elem_of_singleton.
      apply Hx. eapply suffix_drop; [|done]. lia.
  - rewrite !(assoc_L (++)) in E. apply app_inj_tail in E as [-> _].
    apply (Hl pre w post); [by rewrite (assoc_L (++)) | done].
Qed.

(** What the buffer's answers depend on, whatever the values. *)
Record keys_wf (b : SeenBuffer) : Prop := {
  kw_capacity : (0 < CircularBufferWithLookupByValue.capacity b)%nat;
  kw_nodup : NoDup (CircularBufferWithLookupByValue.deque b);
  kw_keys : forall k, is_Some (CircularBufferWithLookupByValue.map b !! k) <-> k ∈ CircularBufferWithLookupByValue.deque b;
}.

Lemma contains_key_deque b s :
  keys_wf b -> CircularBufferWithLookupByValue.contains_key s b = bool_decide (s ∈ CircularBufferWithLookupByValue.deque b).
Proof. intros [_ _ Hk]. apply bool_decide_ext, Hk. Qed.

Lemma evict_keys b :
  keys_wf b -> keys_wf (CircularBufferWithLookupByValue.evict b) /\
  CircularBufferWithLookupByValue.deque (CircularBufferWithLookupByValue.evict b) =
    (if (length (CircularBufferWithLookupByValue.deque b) =? CircularBufferWithLookupByValue.capacity b)%nat
     then tail (CircularBufferWithLookupByValue.deque b) else CircularBufferWithLookupByValue.deque b) /\
  CircularBufferWithLookupByValue.capacity (CircularBufferWithLookupByValue.evict b) =
    CircularBufferWithLookupByValue.capacity b.
Proof.
  intros Hb. unfold CircularBufferWithLookupByValue.evict.
  destruct (Nat.eqb_spec (length (CircularBufferWithLookupByValue.deque b)) (CircularBufferWithLookupByValue.capacity b));
    [|done].
  destruct (CircularBufferWithLookupByValue.deque b) as [|k rest] eqn:Hd; [done|].
  destruct Hb as [Hc Hn Hk]. rewrite Hd in Hn, Hk. apply list.NoDup_cons in Hn as [Hnk Hn].
  assert (forall k', is_Some (delete k (CircularBufferWithLookupByValue.map b) !! k') <-> k' ∈ rest) as Hrest.
  { intros k'. rewrite lookup_delete_is_Some, Hk, elem_of_cons. naive_solver. }
  destruct (CircularBufferWithLookupByValue.map b !! k); done.
Qed.

Lemma insert_keys b s t :
  keys_wf b -> s ∉ CircularBufferWithLookupByValue.deque b ->
  keys_wf (CircularBufferWithLookupByValue.insert s t b) /\
  CircularBufferWithLookupByValue.deque (CircularBufferWithLookupByValue.insert s t b) =
    Fifo.insert (CircularBufferWithLookupByValue.capacity b) (CircularBufferWithLookupByValue.deque b) s /\
  CircularBufferWithLookupByValue.capacity (CircularBufferWithLookupByValue.insert s t b) =
    CircularBufferWithLookupByValue.capacity b.
Proof.
  intros Hb Hs. destruct (evict_keys b Hb) as ([Hc Hn Hk] & Hd & Hcap).
  unfold CircularBufferWithLookupByValue.insert, Fifo.insert. cbn. rewrite Hd, Hcap.
  assert (s ∉ CircularBufferWithLookupByValue.deque (CircularBufferWithLookupByValue.evict b)) as Hs'.
  { rewrite Hd. destruct (_ =? _)%nat; [|done]. intros Hin. apply Hs.
    destruct (CircularBufferWithLookupByValue.deque b); [done | by right]. }
  split; [|done]. split; cbn.
  - lia.
  - rewrite <- Hd. apply list.NoDup_app. split; [done|]. split; [|apply list.NoDup_singleton].
    by intros x Hx ->%list_elem_of_singleton.
  - intros k. rewrite <- Hd, lookup_insert_is_Some', Hk, elem_of_app, list_elem_of_singleton. naive_solver.
Qed.

Section Once.
Context `{FeedCodec}.

Definition signature_seen (e : FeedEvent) : option Signature :=
  match seen_key e with SeenBy s => Some s | _ => None end.

Definition signatures_of (l : list FeedEvent) : list Signature := omap signature_seen l.

Definition accounts_of (l : list FeedEvent) : list AccountPretty :=
  omap (fun e => match e with FeedAccount a => Some a | _ => None end) l.

(** No feed delivers a status with bytes that are not a signature. *)
Definition well_signed (l : list FeedEvent) : Prop := forall e, e ∈ l -> seen_key e <> BadSignature.

Lemma signatures_cons e l : signatures_of (e :: l) = option_list (signature_seen e) ++ signatures_of l.
Proof. unfold signatures_of. cbn. by destruct (signature_seen e). Qed.

(** The buffer holds the last signatures of the history [h]. *)
Definition remembers (b : SeenBuffer) (h : list Signature) : Prop :=
  keys_wf b /\ apart (CircularBufferWithLookupByValue.capacity b) h /\
  CircularBufferWithLookupByValue.deque b = drop (length h - CircularBufferWithLookupByValue.capacity b) h.

Lemma drop_seen_remembers now e b h o b' :
  remembers b h -> drop_seen now e b = Some (o, b') ->
  let h' := h ++ signatures_of (option_list o) in
  remembers b' h' /\ CircularBufferWithLookupByValue.capacity b' = CircularBufferWithLookupByValue.capacity b /\
  (o = None \/ o = Some e) /\ (forall s, signature_seen e = Some s -> s ∈ h') /\
  (signature_seen e = None -> seen_key e = Unchecked -> o = Some e).
Proof.
  intros (Hb & Ha & Hd). unfold drop_seen, signature_seen. destruct (seen_key e) as [| | |s] eqn:Hk; intros E; [done | | |].
  - injection E as <- <-. rewrite app_nil_r. split_and!; try done. by left.
  - injection E as <- <-. cbv zeta. change (option_list (Some e)) with [e]. rewrite signatures_cons.
    unfold signature_seen. rewrite Hk. cbn. rewrite app_nil_r. split_and!; try done. by right.
  - rewrite contains_key_deque in E by done. case_bool_decide as Hs; injection E as <- <-; cbv zeta.
    + rewrite app_nil_r. split_and!; try done; [by left|]. intros s' [= <-]. rewrite Hd in Hs.
      by apply subseteq_drop in Hs.
    + change (option_list (Some e)) with [e]. rewrite signatures_cons. unfold signature_seen.
      rewrite Hk. cbn.
      destruct (insert_keys b s now Hb Hs) as (Hb' & Hd' & Hc'). split_and!; try done; [|by right|].
      * split; [done|]. rewrite Hc', Hd', Hd. split; [apply apart_snoc; [done | by rewrite <- Hd]|].
        apply Fifo.insert_drop. by destruct Hb.
      * intros s' [= <-]. apply elem_of_app. right. by apply list_elem_of_singleton.
Qed.

Lemma without_duplicates_spec arrivals : forall b h,
  remembers b h ->
  let out := without_duplicates arrivals b in
  apart (CircularBufferWithLookupByValue.capacity b) (h ++ signatures_of out) /\
  out `sublist_of` arrivals.*2 /\
  (well_signed arrivals.*2 ->
    (forall e s, e ∈ arrivals.*2 -> signature_seen e = Some s -> s ∈ h ++ signatures_of out) /\
    accounts_of out = accounts_of arrivals.*2).
Proof.
  induction arrivals as [|[now e] rest IH]; intros b h Hr; cbv zeta; cbn [without_duplicates].
  - cbn. rewrite app_nil_r. split_and!; [apply Hr | done |]. intros _. split; [|done]. intros e s He. by apply elem_of_nil in He.
  - change (((now, e) :: rest).*2) with (e :: rest.*2).
    destruct (drop_seen now e b) as [[o b']|] eqn:E.
    + destruct (drop_seen_remembers now e b h o b' Hr E) as (Hr' & Hc & Ho & Hs & Hu).
      specialize (IH b' _ Hr'). cbv zeta in IH. rewrite Hc in IH. destruct IH as (Ha & Hsub & Hall).
      assert (signatures_of (option_list o ++ without_duplicates rest b') =
        signatures_of (option_list o) ++ signatures_of (without_duplicates rest b')) as -> by apply omap_app.
      rewrite (assoc_L (++)). split; [done|]. split.
      { destruct Ho as [->| ->]; cbn; [by apply sublist_cons | by apply sublist_skip]. }
      intros Hw. destruct Hall as [Hsig Hacc]; [intros e' He'; apply Hw; by right|]. split.
      * intros e' s [->|He']%elem_of_cons Es; [|by eapply Hsig]. apply elem_of_app. left. by apply Hs.
      * unfold accounts_of in *. rewrite omap_app, Hacc. destruct Ho as [->| ->]; [|by destruct e].
        destruct e; [done | done |]. by rewrite Hu in *.
    + split_and!; [rewrite app_nil_r; apply Hr | apply sublist_nil_l |]. intros Hw. exfalso.
      apply (Hw e); [by left|]. unfold drop_seen in E. destruct (seen_key e); try done. by case_match.
Qed.

Lemma new_seen_remembers : remembers new_seen [].
Proof.
  split; [|split; [apply apart_nil | done]]. split; cbn; [unfold GEYSER_TX_FEED_BUFFER_CAPACITY; lia | constructor |].
  intros k. rewrite lookup_empty, elem_of_nil. by split; [intros []|].
Qed.

Lemma merged_elem {A} (feeds : list (list A)) l x : merged feeds l -> x ∈ l <-> x ∈ concat feeds.
Proof.
  induction 1 as [feeds Hf | l1 a feed l2 rest _ IH].
  - assert (concat feeds = []) as ->; [|done]. induction Hf as [|? ? <- ? IH]; [done | exact IH].
  - rewrite elem_of_cons, IH, !concat_app. cbn. set_solver.
Qed.

(** C23. However the feeds of the providers interleave, the collector's stream carries no
    signature twice within 65537 signatures, neither a transaction again nor its status
    after it nor the transaction after its status; it is made of what the feeds sent;
    and, unless a status comes with a malformed signature, no signature that any feed
    sent is missing. *)
Theorem stream_carries_signatures_once feeds stream :
  blockchain_stream feeds stream ->
  (forall pre w post, signatures_of stream = pre ++ w ++ post ->
    (length w <= S GEYSER_TX_FEED_BUFFER_CAPACITY)%nat -> NoDup w) /\
  (forall e, e ∈ stream -> e ∈ concat feeds) /\
  (well_signed (concat feeds) -> forall s,
    s ∈ signatures_of stream <-> s ∈ signatures_of (concat feeds)).
Proof.
  intros (arrivals & Hm & ->).
  destruct (without_duplicates_spec arrivals new_seen [] new_seen_remembers) as (Ha & Hsub & Hall).
  split_and!.
  - intros pre w post E Hw. exact (Ha pre w post E Hw).
  - intros e He. apply (merged_elem _ _ _ Hm). by eapply elem_of_sublist.
  - intros Hw s. destruct Hall as [Hsig _]; [intros e He; by apply Hw, (merged_elem _ _ _ Hm)|].
    unfold signatures_of. rewrite !list_elem_of_omap. split.
    + intros (e & He & Es). exists e. split; [|done]. apply (merged_elem _ _ _ Hm). by eapply elem_of_sublist.
    + intros (e & He & Es). apply (merged_elem _ _ _ Hm) in He. specialize (Hsig e s He Es).
      apply list_elem_of_omap in Hsig. done.
Qed.
End Once.

(** ** Two providers *)

(** A signature is a single byte here. *)
Definition sample_feed_codec : FeedCodec := {|
  signature_from_bytes l := match l with [x] => Some x | _ => None end;
  pubkey_from_bytes l := head l;
  base58 _ := EmptyString;
  unpack_token_account _ := None;
  encode_payload p := Some (Encoded p, None);
|}.

Definition sent_tx (sig : Z) : FeedEvent :=
  FeedTransaction (Some {| raw_signature := [sig]; raw_is_vote := false; raw_payload := "tx" |}) 1.

(** Both providers send transaction 7 and its status; the second sends 8 too. *)
Definition two_feeds : list (list FeedEvent) :=
  [[sent_tx 7; FeedStatus [7]]; [FeedStatus [7]; sent_tx 7; sent_tx 8]].

Definition two_arrivals : list (Z * FeedEvent) :=
  [(0, FeedStatus [7]); (0, sent_tx 7); (1, sent_tx 7); (1, FeedStatus [7]); (1, sent_tx 8)].

Lemma two_feeds_merge : merged two_feeds two_arrivals.*2.
Proof.
  apply (merged_next [[sent_tx 7; FeedStatus [7]]] _ _ []).
  apply (merged_next [[sent_tx 7; FeedStatus [7]]] _ _ []). apply (merged_next [] _ [FeedStatus [7]] [[sent_tx 8]]).
  apply (merged_next [] _ [] [[sent_tx 8]]). apply (merged_next [[]] _ [] []).
  apply merged_done. by repeat constructor.
Qed.

(** The status that comes first is all the collector hears of transaction 7. *)
Definition two_feeds_stream : list FeedEvent := without_duplicates (H := sample_feed_codec) two_arrivals new_seen.

Example status_hides_transaction : two_feeds_stream = [FeedStatus [7]; sent_tx 8].
Proof. vm_compute. reflexivity. Qed.

Lemma stream_carries_signatures_once_witness :
  blockchain_stream (H := sample_feed_codec) two_feeds two_feeds_stream /\
  (forall s, s ∈ signatures_of (H := sample_feed_codec) two_feeds_stream <->
    s ∈ signatures_of (H := sample_feed_codec) (concat two_feeds)).
Proof.
  assert (blockchain_stream (H := sample_feed_codec) two_feeds two_feeds_stream) as Hs.
  { exists two_arrivals. split; [apply two_feeds_merge | reflexivity]. }
  split; [exact Hs|].
  apply (stream_carries_signatures_once (H := sample_feed_codec) two_feeds two_feeds_stream Hs).
  intros e He. repeat (apply elem_of_cons in He as [->|He]; [discriminate|]). by apply elem_of_nil in He.
Defined.

(** ** The subscription of a feed

    The accounts a provider watches for the bot follow the cache: whoever changes the
    cache's accounts then notifies, and a task of the feed compares the accounts with
    those it has seen and sends a new request.  Each read of the cache is a step of
    its own, so that the accounts may change in between. *)

Definition get_accounts (accounts : gset Pubkey) : list Pubkey := elements accounts.

(** [accs.sort()]. *)
Definition sorted (accounts : gset Pubkey) : list Pubkey := merge_sort Z.le (get_accounts accounts).

Inductive WatcherPhase :=
| Starting      (** the channel is subscribed to *)
| Connecting    (** the accounts of the first request are read *)
| Comparing     (** notified *)
| Requesting    (** the accounts have changed *)
| Waiting.

Record Subscription := {
  accounts : gset Pubkey;          (** the cache's *)
  unnotified : bool;               (** changed, and not yet notified *)
  version : Z;                     (** of the watch channel *)
  phase : WatcherPhase;
  seen_version : Z;
  subscribed : list Pubkey;        (** the accounts of the last request *)
  cached_accounts : list Pubkey;
}.

Definition feed_starts (accs : gset Pubkey) (version : Z) : Subscription :=
  {| accounts := accs; unnotified := false; version := version; phase := Starting;
     seen_version := version; subscribed := []; cached_accounts := [] |}.

Inductive WatchStep := CacheChanges (accs : gset Pubkey) | Notified | Watcher.

Definition watcher_step (s : Subscription) : Subscription :=
  match phase s with
  | Starting =>
      {| accounts := accounts s; unnotified := unnotified s; version := version s; phase := Connecting;
         seen_version := seen_version s; subscribed := get_accounts (accounts s);
         cached_accounts := cached_accounts s |}
  | Connecting =>
      {| accounts := accounts s; unnotified := unnotified s; version := version s; phase := Waiting;
         seen_version := seen_version s; subscribed := subscribed s; cached_accounts := sorted (accounts s) |}
  | Waiting =>
      if version s =? seen_version s then s
      else {| accounts := accounts s; unnotified := unnotified s; version := version s; phase := Comparing;
              seen_version := version s; subscribed := subscribed s; cached_accounts := cached_accounts s |}
  | Comparing =>
      let accs := sorted (accounts s) in
      if bool_decide (accs = cached_accounts s) then
        {| accounts := accounts s; unnotified := unnotified s; version := version s; phase := Waiting;
           seen_version := seen_version s; subscribed := subscribed s; cached_accounts := cached_accounts s |}
      else
        {| accounts := accounts s; unnotified := unnotified s; version := version s; phase := Requesting;
           seen_version := seen_version s; subscribed := subscribed s; cached_accounts := accs |}
  | Requesting =>
      {| accounts := accounts s; unnotified := unnotified s; version := version s; phase := Waiting;
         seen_version := seen_version s; subscribed := get_accounts (accounts s);
         cached_accounts := cached_accounts s |}
  end.

Definition watch_step (l : WatchStep) (s : Subscription) : Subscription :=
  match l with
  | CacheChanges accs =>
      {| accounts := accs; unnotified := true; version := version s; phase := phase s;
         seen_version := seen_version s; subscribed := subscribed s; cached_accounts := cached_accounts s |}
  | Notified =>
      {| accounts := accounts s; unnotified := false; version := version s + 1; phase := phase s;
         seen_version := seen_version s; subscribed := subscribed s; cached_accounts := cached_accounts s |}
  | Watcher => watcher_step s
  end.

Definition watch (ls : list WatchStep) (s : Subscription) : Subscription :=
  foldl (fun s l => watch_step l s) s ls.

(** Nothing is left to do: the watcher waits, and knows of every change. *)
Definition settled (s : Subscription) : Prop :=
  phase s = Waiting /\ unnotified s = false /\ seen_version s = version s.

Lemma sorted_perm accs : sorted accs ≡ₚ elements accs.
Proof. apply merge_sort_Permutation. Qed.

Lemma elem_of_sorted accs x : x ∈ sorted accs <-> x ∈ accs.
Proof. by rewrite sorted_perm, elem_of_elements. Qed.

Lemma sorted_inj accs accs' : sorted accs = sorted accs' -> accs = accs'.
Proof. intros E. apply set_eq. intros x. by rewrite <- !elem_of_sorted, E. Qed.

(** Nothing but additions: the accounts of the cache only grow. *)
Fixpoint growing (accs : gset Pubkey) (ls : list WatchStep) : Prop :=
  match ls with
  | [] => True
  | CacheChanges accs' :: ls' => accs ⊆ accs' /\ growing accs' ls'
  | _ :: ls' => growing accs ls'
  end.

(** A feed that is connected: what it is subscribed to lies between what it has seen
    and what there is, and it is to be woken if it has not seen everything. *)
Record following (s : Subscription) : Prop := {
  fo_running : phase s <> Starting /\ phase s <> Connecting;
  fo_seen : exists accs, cached_accounts s = sorted accs /\ accs ⊆ accounts s;
  fo_subscribed : forall x, x ∈ subscribed s -> x ∈ accounts s;
  fo_cached : phase s <> Requesting -> forall x, x ∈ cached_accounts s -> x ∈ subscribed s;
  fo_version : seen_version s <= version s;
  fo_pending : phase s <> Comparing -> cached_accounts s <> sorted (accounts s) ->
    unnotified s = true \/ seen_version s < version s;
}.

Lemma following_change s accs :
  following s -> accounts s ⊆ accs -> following (watch_step (CacheChanges accs) s).
Proof.
  intros [Hr (a & Ha & Hsub) Hs Hc Hv Hp] Hin. split; cbn; auto.
  exists a. split; [done | set_solver].
Qed.

Lemma following_notified s : following s -> following (watch_step Notified s).
Proof. intros [Hr Ha Hs Hc Hv Hp]. split; cbn; auto; [lia|]. intros _ _. right. lia. Qed.

Lemma following_watcher s : following s -> following (watcher_step s).
Proof.
  intros [Hr (a & Ha & Hsub) Hs Hc Hv Hp]. unfold watcher_step. destruct (phase s) eqn:Hph.
  - by destruct Hr.
  - by destruct Hr.
  - case_bool_decide as E.
    + split; cbn; [done | eauto | auto | intros _; by apply Hc | done | intros _ []; congruence].
    + split; cbn; [done | eauto | auto | done | done | by intros _ []].
  - split; cbn; [done | eauto | | | done | intros _; by apply Hp].
    + intros x. apply elem_of_elements.
    + intros _ x Hx. apply elem_of_elements. rewrite Ha in Hx. apply elem_of_sorted in Hx. set_solver.
  - destruct (Z.eqb_spec (version s) (seen_version s)); [split; rewrite ?Hph; eauto|].
    split; cbn; [done | eauto | auto | intros _; by apply Hc | lia | done].
Qed.

Lemma watcher_accounts s : accounts (watcher_step s) = accounts s.
Proof. unfold watcher_step. by destruct (phase s); [| |case_bool_decide| |destruct (_ =? _)]. Qed.

Lemma following_watch ls : forall s, following s -> growing (accounts s) ls -> following (watch ls s).
Proof.
  induction ls as [|l ls IH]; intros s Hs Hg; [done|]. cbn. destruct l as [accs| |]; cbn in Hg.
  - destruct Hg as [Hin Hg]. apply IH; [by apply following_change | done].
  - apply IH; [by apply following_notified | done].
  - apply IH; [by apply following_watcher|]. cbn. by rewrite watcher_accounts.
Qed.

Lemma connected_follows accs v : following (watch [Watcher; Watcher] (feed_starts accs v)).
Proof.
  split; cbn; [done | by exists accs | | | done | by intros _ []].
  - intros x. apply elem_of_elements.
  - intros _ x Hx. by apply elem_of_elements, elem_of_sorted.
Qed.

(** How far the watcher is from being settled when nothing else happens. *)
Definition steps_left (s : Subscription) : nat :=
  (match phase s with Waiting => 0 | Requesting => 1 | Comparing => 2 | _ => 6 end +
   if (version s =? seen_version s)%Z then 0 else 3)%nat.

Lemma steps_left_decrease s :
  phase s <> Starting /\ phase s <> Connecting ->
  (steps_left (watcher_step s) <= pred (steps_left s))%nat /\
  phase (watcher_step s) <> Starting /\ phase (watcher_step s) <> Connecting /\
  unnotified (watcher_step s) = unnotified s.
Proof.
  unfold watcher_step, steps_left. intros [? ?]. destruct (phase s) eqn:Hph; try done.
  - case_bool_decide; cbn; destruct (version s =? seen_version s)%Z; (split; [cbn; lia | done]).
  - destruct (Z.eqb_spec (version s) (seen_version s)) as [E|E].
    + rewrite Hph, (proj2 (Z.eqb_eq _ _) E). split; [cbn; lia | done].
    + cbn. rewrite Z.eqb_refl. split; [lia | done].
Qed.

Lemma watcher_settles n : forall s, phase s <> Starting /\ phase s <> Connecting -> unnotified s = false ->
  (steps_left s <= n)%nat -> settled (watch (replicate n Watcher) s).
Proof.
  induction n as [|n IH]; intros s Hr Hu Hn.
  - unfold steps_left in Hn. split; [|split; [done|]]; cbn.
    { destruct Hr. destruct (phase s); first [done | lia]. }
    destruct (Z.eqb_spec (version s) (seen_version s)); [done | lia].
  - destruct (steps_left_decrease s Hr) as (Hl & Hs & Hc & Hu'). apply (IH (watcher_step s)); [done | congruence | lia].
Qed.

Lemma steps_left_bound s : phase s <> Starting /\ phase s <> Connecting -> (steps_left s <= 5)%nat.
Proof. unfold steps_left. intros [? ?]. destruct (phase s); try done; case_match; lia. Qed.

Lemma settled_subscribed s :
  following s -> settled s -> forall x, x ∈ subscribed s <-> x ∈ accounts s.
Proof.
  intros [Hr _ Hs Hc _ Hp] (Hph & Hu & Hv) x. split; [apply Hs|]. intros Hx.
  destruct (decide (cached_accounts s = sorted (accounts s))) as [E|E].
  - apply Hc; [by rewrite Hph|]. rewrite E. by apply elem_of_sorted.
  - destruct Hp as [?|?]; [by rewrite Hph | done | congruence | lia].
Qed.

Lemma watch_app ls ls' s : watch (ls ++ ls') s = watch ls' (watch ls s).
Proof. apply foldl_app. Qed.

(** C24. As long as accounts are only added to the cache, and none between the two reads
    a feed makes when it connects, its subscription catches up: whenever every change
    has been notified, five steps of the watcher later it waits, subscribed to exactly
    the accounts of the cache.  Neither notifications that come while it works nor
    several that it takes for one make it miss an account. *)
Theorem subscription_catches_up accs v ls :
  growing accs ls ->
  let s := watch ([Watcher; Watcher] ++ ls) (feed_starts accs v) in
  unnotified s = false ->
  let s' := watch (replicate 5 Watcher) s in
  settled s' /\ forall x, x ∈ subscribed s' <-> x ∈ accounts s'.
Proof.
  intros Hg s Hu s'.
  assert (following s) as Hs by (unfold s; rewrite watch_app; by apply following_watch, Hg; apply connected_follows).
  assert (settled s') as Hset by (apply watcher_settles, steps_left_bound; try done; apply Hs).
  split; [done|]. apply settled_subscribed; [|done]. by apply following_watch.
Qed.

Lemma subscription_catches_up_witness :
  let s := watch ([Watcher; Watcher] ++ [CacheChanges {[1; 2]}; Notified; Watcher; CacheChanges {[1; 2; 3]}; Notified])
             (feed_starts {[1]} 0) in
  accounts s = {[1; 2; 3]} /\ forall x, x ∈ subscribed (watch (replicate 5 Watcher) s) <-> x ∈ accounts (watch (replicate 5 Watcher) s).
Proof.
  split; [reflexivity|].
  apply (subscription_catches_up {[1]} 0 [CacheChanges {[1; 2]}; Notified; Watcher; CacheChanges {[1; 2; 3]}; Notified]).
  - cbn. split; [set_solver|]. by split; [set_solver|].
  - reflexivity.
Defined.

(** An account added between the two reads of the start is never subscribed to: the
    notification finds it among those already seen. *)
Example added_while_connecting :
  let s := watch ([Watcher; CacheChanges {[1; 2]}; Notified; Watcher] ++ replicate 100 Watcher) (feed_starts {[1]} 0) in
  settled s /\ accounts s = {[1; 2]} /\ subscribed s = [1].
Proof. vm_compute. by repeat split. Qed.

(** Nor is one that is gone while the request is made and back when the watcher looks. *)
Example removed_while_requesting :
  let s := watch ([Watcher; Watcher; CacheChanges {[1; 2]}; Notified; Watcher; Watcher; CacheChanges {[1]}; Notified; Watcher;
    CacheChanges {[1; 2]}; Notified] ++ replicate 100 Watcher) (feed_starts {[1]} 0) in
  settled s /\ accounts s = {[1; 2]} /\ subscribed s = [1].
Proof. vm_compute. by repeat split. Qed.
