(* ===== verification/Aggregators.v ===== *)
(** * Indicators over swaps ([aggregators])

    [tick_indicators_aggregator.rs], [indicators_data.rs],
    [every_tick_indicators.rs], [period_indicators.rs] and [tick_bar.rs].  The
    indicators and the candles are those of the [yata] crate, the class [Yata];
    a [PeriodType] is a [u32]. *)

From S2P Require Import Prelude MachineInt Float64 Types.

(** [None] of an initializer: the parameters are refused and [unwrap] panics. *)
Class Yata := {
  Candle : Type;
  default_candle : Candle;
  candle_add : Candle -> f64 -> f64 -> Candle;
  TEMA : Type;
  EMA : Type;
  RSI : Type;
  Bollinger : Type;
  IndicatorResult : Type;
  tema_new : Z -> f64 -> option TEMA;
  tema_next : f64 -> TEMA -> f64 * TEMA;
  ema_new : Z -> f64 -> option EMA;
  ema_next : f64 -> EMA -> f64 * EMA;
  rsi_init : Z -> f64 -> f64 -> option RSI;
  rsi_next : f64 -> f64 -> RSI -> IndicatorResult * RSI;
  bollinger_init : Z -> f64 -> f64 -> option Bollinger;
  bollinger_next : f64 -> f64 -> Bollinger -> IndicatorResult * Bollinger;
}.

(** The aggregator's settings. *)
Record AggregatorConfig := {
  indicator_periods_in_ticks : list Z;
  tick_bar_sizes : list Z;
}.

Section Aggregators.
Context `{Profile} `{Yata}.

(** [u32] addition. *)
Definition add_u32 (a b : Z) : option Z :=
  if a + b <? 2 ^ 32 then Some (a + b) else if overflow_checks then None else Some (wrap_u32 (a + b)).

(** ** Tick bars ([tick_bar.rs]) *)

Record TickBar := tick_bar {
  candle : Candle;
  tick_count : Z;
  forming_period : Z;
}.

(** The first price and volume are not used. *)
Definition new_tick_bar (period : Z) (price volume : f64) : TickBar :=
  {| candle := default_candle; tick_count := 0; forming_period := period |}.

(** [self.candle.add(..)] returns the merged candle, which is dropped. *)
Definition update_with_tick (price volume : f64) (self : TickBar) : option TickBar :=
  let _merged := candle_add self.(candle) price volume in
  n ← add_u32 self.(tick_count) 1;
  Some (tick_bar self.(candle) n self.(forming_period)).

Definition is_complete (self : TickBar) : bool := self.(forming_period) <=? self.(tick_count).

Definition reset (period : Z) : TickBar :=
  {| candle := default_candle; tick_count := 0; forming_period := period |}.

Definition tick_bar_next (price volume : f64) (self : TickBar) : option (option Candle * TickBar) :=
  self' ← update_with_tick price volume self;
  if is_complete self' then Some (Some self'.(candle), reset self'.(forming_period))
  else Some (None, self').

(** ** Bars of several sizes ([period_indicators.rs]) *)

Record TickBarValue := {
  period : Z;
  t_bar : Candle;
}.

Record TickBarsCache := {
  bar_sizes : list Z;
  tick_bars : gmap Z TickBar;
}.

(** One round of the loop of [next]: the candle of a completed bar is read after
    the bar was reset. *)
Definition next_bar (price volume : f64) (p : Z) : ST (gmap Z TickBar) (list TickBarValue) := fun bars =>
  match bars !! p with
  | None => (Some [], <[p := new_tick_bar p price volume]> bars)
  | Some bar =>
      match tick_bar_next price volume bar with
      | None => (None, bars)
      | Some (completed, bar') =>
          (Some (match completed with
                 | Some _ => [{| period := p; t_bar := bar'.(candle) |}]
                 | None => []
                 end), <[p := bar']> bars)
      end
  end.

Definition bars_next (price volume : f64) (self : TickBarsCache)
    : option (list TickBarValue) * TickBarsCache :=
  let '(evs, bars) := st_map (next_bar price volume) self.(bar_sizes) self.(tick_bars) in
  (fmap (M := option) (@concat _) evs, {| bar_sizes := self.(bar_sizes); tick_bars := bars |}).

(** ** Indicators at every tick ([every_tick_indicators.rs]) *)

Record EveryTickIndicators := {
  t_tema : TEMA;
  t_ema : EMA;
  t_rsi : RSI;
  t_bollinger : Bollinger;
}.

Record EveryTickIndicatorsValue := {
  v_tema : f64;
  v_ema : f64;
  v_rsi : IndicatorResult;
  v_bollinger : IndicatorResult;
}.

Definition new_every_tick (length : Z) (price volume : f64) : option EveryTickIndicators :=
  a ← tema_new length price;
  b ← ema_new length price;
  c ← rsi_init length price volume;
  d ← bollinger_init length price volume;
  Some {| t_tema := a; t_ema := b; t_rsi := c; t_bollinger := d |}.

Definition every_tick_next (price volume : f64) (self : EveryTickIndicators)
    : EveryTickIndicatorsValue * EveryTickIndicators :=
  let '(va, a) := tema_next price self.(t_tema) in
  let '(vb, b) := ema_next price self.(t_ema) in
  let '(vc, c) := rsi_next price volume self.(t_rsi) in
  let '(vd, d) := bollinger_next price volume self.(t_bollinger) in
  ({| v_tema := va; v_ema := vb; v_rsi := vc; v_bollinger := vd |},
   {| t_tema := a; t_ema := b; t_rsi := c; t_bollinger := d |}).

Record EveryTickIndicatorsCache := {
  lengths : list Z;
  every_tick_indicators : gmap Z EveryTickIndicators;
}.

Definition next_length (price volume : f64) (length : Z)
    : ST (gmap Z EveryTickIndicators) (list EveryTickIndicatorsValue) := fun m =>
  match m !! length with
  | None =>
      match new_every_tick length price volume with
      | Some i => (Some [], <[length := i]> m)
      | None => (None, m)
      end
  | Some i => let '(v, i') := every_tick_next price volume i in (Some [v], <[length := i']> m)
  end.

Definition ticks_next (price volume : f64) (self : EveryTickIndicatorsCache)
    : option (list EveryTickIndicatorsValue) * EveryTickIndicatorsCache :=
  let '(vs, m) := st_map (next_length price volume) self.(lengths) self.(every_tick_indicators) in
  (fmap (M := option) (@concat _) vs, {| lengths := self.(lengths); every_tick_indicators := m |}).

(** ** A pool's data ([indicators_data.rs]) *)

Record IndicatorsData := {
  d_every_tick : EveryTickIndicatorsCache;
  d_tick_bars : TickBarsCache;
}.

Definition new_indicators_data (bar_sizes lengths : list Z) : IndicatorsData := {|
  d_every_tick := {| lengths := lengths; every_tick_indicators := ∅ |};
  d_tick_bars := {| bar_sizes := bar_sizes; tick_bars := ∅ |}
|}.

Definition next_tick (price volume : f64) : ST IndicatorsData (list EveryTickIndicatorsValue) :=
  fun d => let '(vs, c) := ticks_next price volume d.(d_every_tick) in
           (vs, {| d_every_tick := c; d_tick_bars := d.(d_tick_bars) |}).

Definition next_bars (price volume : f64) : ST IndicatorsData (list TickBarValue) :=
  fun d => let '(vs, c) := bars_next price volume d.(d_tick_bars) in
           (vs, {| d_every_tick := d.(d_every_tick); d_tick_bars := c |}).

(** ** The aggregator ([tick_indicators_aggregator.rs]) *)

(** The derived events with their payloads. *)
Inductive AggregatorEvent :=
| TickIndicator (pool : Pubkey) (v : EveryTickIndicatorsValue)
| TickBarOf (pool : Pubkey) (v : TickBarValue).

(** The event the strategies receive. *)
Definition to_bot_event (e : AggregatorEvent) : BotEvent :=
  match e with
  | TickIndicator pool _ => Derived (TickIndicatorEvent pool)
  | TickBarOf pool _ => Derived (TickBarEvent pool)
  end.

Record TickIndicatorsAggregator := {
  config : AggregatorConfig;
  indicators : gmap Pubkey IndicatorsData;
}.

Definition new_aggregator (config : AggregatorConfig) : TickIndicatorsAggregator :=
  {| config := config; indicators := ∅ |}.

(** A swap of a known pool. *)
Definition pool_events (swap_event : RaydiumSwapEvent) : ST IndicatorsData (list AggregatorEvent) :=
  ticks <- next_tick swap_event.(se_price) swap_event.(se_volume) ;;
  bars <- next_bars swap_event.(se_price) swap_event.(se_volume) ;;
  st_ret (map (TickIndicator swap_event.(se_pool)) ticks ++ map (TickBarOf swap_event.(se_pool)) bars).

Definition aggregate_event (event : BotEvent) : ST TickIndicatorsAggregator (list AggregatorEvent) :=
  fun self =>
  match event with
  | Blockchain (RaydiumSwap swap_event) =>
      match self.(indicators) !! swap_event.(se_pool) with
      | Some indicators_data =>
          let '(evs, d) := pool_events swap_event indicators_data in
          (evs, {| config := self.(config);
                   indicators := <[swap_event.(se_pool) := d]> self.(indicators) |})
      | None =>
          let indicators_data := new_indicators_data
            self.(config).(indicator_periods_in_ticks) self.(config).(tick_bar_sizes) in
          (Some [], {| config := self.(config);
             indicators := <[swap_event.(se_pool) := indicators_data]> self.(indicators) |})
      end
  | _ => (Some [], self)
  end.

(** The aggregator over a run of events. *)
Definition run_aggregator (events : list BotEvent) (a : TickIndicatorsAggregator)
    : option (list AggregatorEvent) * TickIndicatorsAggregator :=
  let '(evs, a') := st_map aggregate_event events a in (fmap (M := option) (@concat _) evs, a').

(** ** Properties *)

(** Every bar that is forming holds the default candle, for a size of the list. *)
Definition wf_bars (sizes : list Z) (bars : gmap Z TickBar) : Prop :=
  map_Forall (fun p bar => bar.(candle) = default_candle /\ bar.(forming_period) = p /\ p ∈ sizes) bars.

Definition is_empty_bar (sizes : list Z) (v : TickBarValue) : Prop :=
  v.(t_bar) = default_candle /\ v.(period) ∈ sizes.

Lemma tick_bar_next_candle price volume bar c bar' :
  tick_bar_next price volume bar = Some (c, bar') -> bar.(candle) = default_candle ->
  bar'.(candle) = default_candle /\ bar'.(forming_period) = bar.(forming_period).
Proof.
  unfold tick_bar_next, update_with_tick. destruct (add_u32 _ _) as [n|]; cbn; [|discriminate].
  unfold is_complete. cbn. destruct (forming_period bar <=? n); intros [= <- <-]; done.
Qed.

Lemma next_bar_wf price volume sizes p bars :
  p ∈ sizes -> wf_bars sizes bars ->
  wf_bars sizes (snd (next_bar price volume p bars)) /\
  Forall (is_empty_bar sizes) (default [] (fst (next_bar price volume p bars))).
Proof.
  intros Hp Hwf. unfold next_bar. destruct (bars !! p) as [bar|] eqn:E.
  - destruct (Hwf _ _ E) as (Hc & Hf & _).
    destruct (tick_bar_next price volume bar) as [[c bar']|] eqn:En; [|by split].
    apply tick_bar_next_candle in En as [Hc' Hf']; [|done]. cbn.
    split; [by apply map_Forall_insert_2; [rewrite Hf' |]|].
    destruct c; constructor; [by split | constructor].
  - split; [by apply map_Forall_insert_2 | constructor].
Qed.

Lemma bars_map_wf price volume sizes ps bars :
  (forall p, p ∈ ps -> p ∈ sizes) -> wf_bars sizes bars ->
  wf_bars sizes (snd (st_map (next_bar price volume) ps bars)) /\
  Forall (Forall (is_empty_bar sizes)) (default [] (fst (st_map (next_bar price volume) ps bars))).
Proof.
  revert bars. induction ps as [|p ps IH]; intros bars Hps Hwf; [split; [done | constructor]|].
  cbn [st_map]. unfold st_bind.
  destruct (next_bar_wf price volume sizes p bars) as [Hwf1 He]; [apply Hps; set_solver | done |].
  destruct (next_bar price volume p bars) as [[evs|] bars1]; cbn in *; [|split; [done | constructor]].
  destruct (IH bars1) as [Hwf2 He2]; [set_solver | done |].
  destruct (st_map (next_bar price volume) ps bars1) as [[evs2|] bars2]; cbn in *;
    split; try done; by constructor.
Qed.

(** A pool's bars are of the sizes given to the aggregator as indicator periods. *)
Definition wf_data (cfg : AggregatorConfig) (d : IndicatorsData) : Prop :=
  d.(d_tick_bars).(bar_sizes) = cfg.(indicator_periods_in_ticks) /\
  wf_bars cfg.(indicator_periods_in_ticks) d.(d_tick_bars).(tick_bars).

Definition wf_aggregator (a : TickIndicatorsAggregator) : Prop :=
  map_Forall (fun _ d => wf_data a.(config) d) a.(indicators).

Definition empty_bar_event (cfg : AggregatorConfig) (e : AggregatorEvent) : Prop :=
  match e with
  | TickIndicator _ _ => True
  | TickBarOf _ v => is_empty_bar cfg.(indicator_periods_in_ticks) v
  end.

Lemma pool_events_wf cfg sw d :
  wf_data cfg d ->
  wf_data cfg (snd (pool_events sw d)) /\
  Forall (empty_bar_event cfg) (default [] (fst (pool_events sw d))).
Proof.
  intros [Hs Hwf]. unfold pool_events, st_bind, next_tick.
  destruct (ticks_next _ _ _) as [[ticks|] c]; cbn; [|by split].
  unfold next_bars, bars_next. cbn.
  destruct (bars_map_wf (se_price sw) (se_volume sw) _ (bar_sizes (d_tick_bars d)) _
    (fun p Hp => eq_ind _ (fun l => p ∈ l) Hp _ Hs) Hwf) as [Hwf1 He].
  destruct (st_map _ _ _) as [[bars|] bs]; cbn in *; (split; [by split|]); [|constructor].
  apply Forall_app. split; apply Forall_map, Forall_forall; intros v Hv; cbn; [done|].
  apply Forall_concat in He. rewrite Forall_forall in He. by apply He.
Qed.

Lemma aggregate_event_wf e a :
  wf_aggregator a ->
  config (snd (aggregate_event e a)) = a.(config) /\ wf_aggregator (snd (aggregate_event e a)) /\
  Forall (empty_bar_event a.(config)) (default [] (fst (aggregate_event e a))).
Proof.
  intros Hwf. unfold aggregate_event.
  destruct e as [| [ | | | | | sw | | | | | | ] | | |]; try done.
  destruct (indicators a !! se_pool sw) as [d|] eqn:E.
  - destruct (pool_events_wf (config a) sw d) as [Hd He]; [by apply (Hwf _ _ E)|].
    destruct (pool_events sw d) as [o d']. cbn in *. split; [done|]. split; [|done].
    by apply map_Forall_insert_2.
  - cbn. split; [done|]. split; [|constructor]. apply map_Forall_insert_2; [|done].
    split; [done | apply map_Forall_empty].
Qed.

(** ** Completion of bars *)

(** A bar of size [p] with [n] ticks so far. *)
Definition forming (p n : Z) (bars : gmap Z TickBar) : Prop :=
  exists bar, bars !! p = Some bar /\ bar.(tick_count) = n /\ bar.(forming_period) = p.

Lemma next_bar_forming price volume p n bars :
  0 <= n < p -> p < 2 ^ 32 -> forming p n bars ->
  exists vs bars', next_bar price volume p bars = (Some vs, bars') /\
    if n + 1 =? p then length vs = 1%nat /\ forming p 0 bars'
    else vs = [] /\ forming p (n + 1) bars'.
Proof.
  intros Hn Hp (bar & Eb & Hc & Hf). unfold next_bar, tick_bar_next, update_with_tick, add_u32.
  rewrite Eb, Hc. destruct (n + 1 <? 2 ^ 32) eqn:E; [|lia]. cbn [mbind option_bind].
  unfold is_complete. cbn [forming_period tick_count]. rewrite Hf.
  destruct (p <=? n + 1) eqn:Ep; destruct (n + 1 =? p) eqn:Eq; try lia;
    eexists _, _; (split; [reflexivity|]); (split; [reflexivity|]); unfold forming;
    rewrite lookup_insert_eq; eexists; by split_and!.
Qed.

Definition run_bar (p : Z) (ticks : list (f64 * f64)) : ST (gmap Z TickBar) (list (list TickBarValue)) :=
  st_map (fun t => next_bar t.1 t.2 p) ticks.

Lemma run_bar_forming p ticks n bars :
  0 <= n < p -> p < 2 ^ 32 -> forming p n bars ->
  exists vs bars', run_bar p ticks bars = (Some vs, bars') /\
    Z.of_nat (length (concat vs)) = (n + Z.of_nat (length ticks)) / p.
Proof.
  intros Hn Hp. revert n bars Hn. induction ticks as [|t ticks IH]; intros n bars Hn Hb.
  { exists [], bars. split; [reflexivity|]. cbn. rewrite Z.add_0_r, Z.div_small; lia. }
  destruct (next_bar_forming t.1 t.2 p n bars Hn Hp Hb) as (vs & b1 & E1 & Hv).
  unfold run_bar in *. cbn [st_map]. rewrite (st_bind_Some _ _ _ _ _ E1).
  destruct (n + 1 =? p) eqn:Eq; destruct Hv as [Hv Hb1].
  - destruct (IH 0 b1) as (vss & b2 & E2 & Hl); [lia | done |].
    rewrite (st_bind_Some _ _ _ _ _ E2). eexists _, _. split; [reflexivity|].
    cbn [concat]. rewrite length_app, Hv.
    replace (n + Z.of_nat (length (t :: ticks))) with (1 * p + (0 + Z.of_nat (length ticks)))
      by (cbn [length]; lia).
    rewrite Z.div_add_l by lia. lia.
  - subst vs. destruct (IH (n + 1) b1) as (vss & b2 & E2 & Hl); [lia | done |].
    rewrite (st_bind_Some _ _ _ _ _ E2). eexists _, _. split; [reflexivity|].
    cbn [concat app]. rewrite Hl. f_equal. cbn [length]. lia.
Qed.
End Aggregators.

(** Whatever the swaps, every bar the aggregator emits holds the default candle,
    without a price or a volume, and its size is one of the indicator periods of
    the settings and not one of the bar sizes: the merged candle is dropped at
    every tick, a bar is read after its reset, and the two lists are passed in
    the other order. *)
Theorem bars_are_empty `{Profile} `{Yata} (cfg : AggregatorConfig) (events : list BotEvent) :
  Forall (empty_bar_event cfg) (default [] (fst (run_aggregator events (new_aggregator cfg)))).
Proof.
  unfold run_aggregator.
  assert (forall a, wf_aggregator a -> a.(config) = cfg ->
    Forall (Forall (empty_bar_event cfg)) (default [] (fst (st_map aggregate_event events a)))) as Hrun.
  { induction events as [|e events IH]; intros a Hwf Hc; [constructor|].
    cbn [st_map]. unfold st_bind. destruct (aggregate_event_wf e a Hwf) as (Hc1 & Hwf1 & He).
    destruct (aggregate_event e a) as [[evs|] a1]; [|constructor]. cbn in *.
    specialize (IH a1 Hwf1 ltac:(congruence)).
    destruct (st_map aggregate_event events a1) as [[evss|] a2]; [|constructor].
    constructor; [by rewrite <- Hc | done]. }
  specialize (Hrun (new_aggregator cfg) (map_Forall_empty _) eq_refl).
  destruct (st_map aggregate_event events (new_aggregator cfg)) as [[evs|] a]; cbn in *; [|constructor].
  by apply Forall_concat.
Qed.

(** A bar of [p] ticks is completed every [p] ticks after the first one, which
    only creates it: after [n + 1] ticks there are exactly [n / p] bars. *)
Theorem bars_on_time `{Profile} `{Yata} (p : Z) (first : f64 * f64) (ticks : list (f64 * f64))
    (Hp : 1 <= p < 2 ^ 32) :
  exists vs bars, run_bar p (first :: ticks) ∅ = (Some vs, bars) /\
    Z.of_nat (length (concat vs)) = Z.of_nat (length ticks) / p.
Proof.
  destruct (run_bar_forming p ticks 0 (<[p := new_tick_bar p first.1 first.2]> ∅))
    as (vs & bars & E & Hl); [lia | lia | |].
  - eexists. by rewrite lookup_insert_eq.
  - exists ([] :: vs), bars. unfold run_bar in *. cbn [st_map].
    assert (next_bar first.1 first.2 p ∅
      = (Some [], <[p := new_tick_bar p first.1 first.2]> ∅)) as E1
      by (unfold next_bar; by rewrite lookup_empty).
    rewrite (st_bind_Some _ _ _ _ _ E1), (st_bind_Some _ _ _ _ _ E). by split.
Qed.

(** ** The theorems at concrete values *)

(** A candle is its last price; indicators remember nothing. *)
Definition sample_yata : Yata := {|
  Candle := Z; default_candle := 0; candle_add := fun _ price _ => f64_as_u64 price;
  TEMA := unit; EMA := unit; RSI := unit; Bollinger := unit; IndicatorResult := unit;
  tema_new := fun _ _ => Some tt; tema_next := fun p _ => (p, tt);
  ema_new := fun _ _ => Some tt; ema_next := fun p _ => (p, tt);
  rsi_init := fun _ _ _ => Some tt; rsi_next := fun _ _ _ => (tt, tt);
  bollinger_init := fun _ _ _ => Some tt; bollinger_next := fun _ _ _ => (tt, tt);
|}.

Lemma bars_on_time_witness :
  exists vs bars,
    @run_bar debug_build sample_yata 3 (replicate 8 (f64_of_Z 5, f64_of_Z 1)) ∅ = (Some vs, bars) /\
    Z.of_nat (length (concat vs)) = 2.
Proof.
  destruct (@bars_on_time debug_build sample_yata 3 (f64_of_Z 5, f64_of_Z 1)
    (replicate 7 (f64_of_Z 5, f64_of_Z 1)) ltac:(lia)) as (vs & bars & E & Hl).
  by exists vs, bars.
Defined.
