(* ===== verification/Manager.v ===== *)
(** * The strategy manager ([strategies/solana_strategy_manager.rs])

    The manager keeps the strategies by id and a task per running strategy.  A
    strategy is behind an [Arc<Mutex<_>>], here a reference into [objects]; a
    task owns a clone of the reference, so a task goes on with the strategy it
    was started with when the map forgets it. *)

From stdpp Require Import sorting.
From S2P Require Import Prelude MachineInt Types.

Abbreviation StrategyRef := Z (only parsing).
Abbreviation TaskId := Z (only parsing).

Inductive StrategyStatus := StatusRunning | StatusStopped.

(** The trait [Strategy] as the manager uses it; [completed]: it is a
    [VolumeStrategy] whose instance has a [completed_at]. *)
Class StrategyObject := {
  object : Type;
  completed : object -> bool;
  get_status : object -> StrategyStatus;
  handle_event : BotEvent -> object -> object;
}.

(** [DefaultHasher] of the standard library, and [rand::random]. *)
Class Hashing := {
  default_hash : Z -> Z;
  random_i32 : Z -> Z;
}.

(** [hash_i32_to_i32] of [utils/crypto.rs]; [i32::abs] overflows on the minimum. *)
Definition hash_i32_to_i32 `{Profile} `{Hashing} (value : Z) : option Z :=
  let h := wrap_i32 (default_hash value) in
  if Z.abs h <? 2 ^ 31 then Some (Z.abs h)
  else if overflow_checks then None else Some (wrap_i32 (Z.abs h)).

(** [alive]: not aborted.  (A task whose [sync_state] fails ends by itself, which
    the manager does not notice.) *)
Record Task := {
  task_strategy : StrategyRef;
  task_id : StrategyId;
  alive : bool;
}.

(** The manager with the locals of [run_strategy_manager]: the handles of the
    running strategies and the ids of the last round. *)
Record SolanaStrategyManager `{StrategyObject} := manager {
  strategies : gmap StrategyId StrategyRef;
  objects : gmap StrategyRef object;
  next_object : StrategyRef;
  running_strategies : gmap StrategyId TaskId;
  cached_strategies_ids : list StrategyId;
  tasks : gmap TaskId Task;
  next_task : TaskId;
  notified : bool;
  draws : Z;
}.

(** The strategy handed to [start_strategy]: what its instance is rebuilt into
    ([None]: its constructor fails), and for a volume strategy whether the pool
    has a connection and the id the database gives its row ([None]: the
    insertion fails). *)
Inductive NewStrategy `{StrategyObject} :=
| NewVolume (connected : bool) (row_id : option StrategyId) (rebuilt : option object)
| NewSweeper (instance_id : StrategyId) (rebuilt : option object)
| NewSniper (instance_id : StrategyId) (rebuilt : option object)
| NewOther (strategy : object).

Inductive ManagerError := DatabaseError | ConstructionError | StrategyNotFound (id : StrategyId).

Section Manager.
Context `{Profile} `{StrategyObject} `{Hashing}.

Definition set_strategies v (m : SolanaStrategyManager) : SolanaStrategyManager :=
  manager _ v m.(objects) m.(next_object) m.(running_strategies) m.(cached_strategies_ids)
    m.(tasks) m.(next_task) m.(notified) m.(draws).
Definition set_objects v (m : SolanaStrategyManager) : SolanaStrategyManager :=
  manager _ m.(strategies) v m.(next_object) m.(running_strategies) m.(cached_strategies_ids)
    m.(tasks) m.(next_task) m.(notified) m.(draws).
Definition set_next_object v (m : SolanaStrategyManager) : SolanaStrategyManager :=
  manager _ m.(strategies) m.(objects) v m.(running_strategies) m.(cached_strategies_ids)
    m.(tasks) m.(next_task) m.(notified) m.(draws).
Definition set_running v (m : SolanaStrategyManager) : SolanaStrategyManager :=
  manager _ m.(strategies) m.(objects) m.(next_object) v m.(cached_strategies_ids)
    m.(tasks) m.(next_task) m.(notified) m.(draws).
Definition set_cached_ids v (m : SolanaStrategyManager) : SolanaStrategyManager :=
  manager _ m.(strategies) m.(objects) m.(next_object) m.(running_strategies) v
    m.(tasks) m.(next_task) m.(notified) m.(draws).
Definition set_tasks v (m : SolanaStrategyManager) : SolanaStrategyManager :=
  manager _ m.(strategies) m.(objects) m.(next_object) m.(running_strategies)
    m.(cached_strategies_ids) v m.(next_task) m.(notified) m.(draws).
Definition set_next_task v (m : SolanaStrategyManager) : SolanaStrategyManager :=
  manager _ m.(strategies) m.(objects) m.(next_object) m.(running_strategies)
    m.(cached_strategies_ids) m.(tasks) v m.(notified) m.(draws).
Definition set_notified v (m : SolanaStrategyManager) : SolanaStrategyManager :=
  manager _ m.(strategies) m.(objects) m.(next_object) m.(running_strategies)
    m.(cached_strategies_ids) m.(tasks) m.(next_task) v m.(draws).
Definition set_draws v (m : SolanaStrategyManager) : SolanaStrategyManager :=
  manager _ m.(strategies) m.(objects) m.(next_object) m.(running_strategies)
    m.(cached_strategies_ids) m.(tasks) m.(next_task) m.(notified) v.

Definition new_manager : SolanaStrategyManager := {|
  strategies := ∅; objects := ∅; next_object := 1; running_strategies := ∅;
  cached_strategies_ids := []; tasks := ∅; next_task := 1; notified := false; draws := 0
|}.

(** ** Starting and dropping *)

(** [strategies.insert(id, Arc::new(Mutex::new(strategy)))]. *)
Definition insert_strategy (id : StrategyId) (o : object) : ST SolanaStrategyManager unit :=
  st_modify (fun m => set_strategies (<[id := m.(next_object)]> m.(strategies))
    (set_objects (<[m.(next_object) := o]> m.(objects)) (set_next_object (m.(next_object) + 1) m))).

(** [strategy_notify.send(())]. *)
Definition notify : ST SolanaStrategyManager unit := st_modify (set_notified true).

Definition or_fail {A} (e : ManagerError) (o : option A)
    : ST SolanaStrategyManager (result ManagerError A) :=
  match o with Some a => st_ok a | None => st_bail e end.

Definition start_strategy (strategy : NewStrategy)
    : ST SolanaStrategyManager (result ManagerError StrategyId) :=
  id <-! match strategy with
         | NewVolume connected row_id rebuilt =>
             conn <-! st_lift (st_unwrap (if connected : bool then Some tt else None)) ;;
             strat_id <-! or_fail DatabaseError row_id ;;
             o <-! or_fail ConstructionError rebuilt ;;
             st_lift (insert_strategy strat_id o ;;; st_ret strat_id)
         | NewSweeper instance_id rebuilt =>
             o <-! or_fail ConstructionError rebuilt ;;
             strat_id <-! st_lift (st_unwrap (hash_i32_to_i32 instance_id)) ;;
             st_lift (insert_strategy strat_id o ;;; st_ret strat_id)
         | NewSniper instance_id rebuilt =>
             o <-! or_fail ConstructionError rebuilt ;;
             st_lift (insert_strategy instance_id o ;;; st_ret instance_id)
         | NewOther o =>
             st_lift (r <- st_gets (fun m => random_i32 m.(draws)) ;;
                      st_modify (fun m => set_draws (m.(draws) + 1) m) ;;;
                      strat_id <- st_unwrap (hash_i32_to_i32 r) ;;
                      insert_strategy strat_id o ;;; st_ret strat_id)
         end ;;
  st_lift (notify ;;; st_ret id).

Definition update_object (r : StrategyRef) (f : object -> object) : ST SolanaStrategyManager unit :=
  st_modify (fun m => set_objects (alter f r m.(objects)) m).

(** [db_ok]: the update of the table succeeds. *)
Definition drop_strategy (db_ok : bool) (strat_id : StrategyId)
    : ST SolanaStrategyManager (result ManagerError unit) :=
  found <- st_gets (fun m => m.(strategies) !! strat_id) ;;
  match found with
  | None => st_bail (StrategyNotFound strat_id)
  | Some r =>
      update_object r (handle_event (System (DestroyStrategy strat_id))) ;;;
      st_modify (fun m => set_strategies (delete strat_id m.(strategies)) m) ;;;
      if db_ok then st_ok tt else st_bail DatabaseError
  end.

(** [sync_state]: the rows of the volume strategies that are not completed, in
    the order of the query, each with what its constructor and its own
    [sync_state] make of it ([None]: the constructor fails).  [None]: no
    connection, or a query fails.  The balances of the users, which it has read
    into the cache first, are not part of the manager. *)
Fixpoint insert_instances (rows : list (StrategyId * option object))
    : ST SolanaStrategyManager (result ManagerError unit) :=
  match rows with
  | [] => st_ok tt
  | (strat_id, rebuilt) :: rows' =>
      o <-! or_fail ConstructionError rebuilt ;;
      _ <-! st_lift (insert_strategy strat_id o ;;; notify) ;;
      insert_instances rows'
  end.

Definition sync_state (active_strategies : option (list (StrategyId * option object)))
    : ST SolanaStrategyManager (result ManagerError unit) :=
  rows <-! or_fail DatabaseError active_strategies ;; insert_instances rows.

(** The other branch of the loop's [select!]: three seconds without a notification. *)
Definition tick : ST SolanaStrategyManager unit := notify.

(** ** The manager's loop *)

Definition is_active (m : SolanaStrategyManager) (r : StrategyRef) : bool :=
  match m.(objects) !! r with Some o => negb (completed o) | None => false end.

Definition get_active_strategies (m : SolanaStrategyManager) : gmap StrategyId StrategyRef :=
  base.filter (fun p => is_active m p.2 = true) m.(strategies).

Definition is_stopped (m : SolanaStrategyManager) (r : StrategyRef) : bool :=
  match get_status <$> m.(objects) !! r with Some StatusStopped => true | _ => false end.

(** [tokio::spawn]. *)
Definition spawn_strategy (id : StrategyId) (r : StrategyRef) : ST SolanaStrategyManager TaskId :=
  fun m => (Some m.(next_task),
    set_tasks (<[m.(next_task) := {| task_strategy := r; task_id := id; alive := true |}]> m.(tasks))
      (set_next_task (m.(next_task) + 1) m)).

(** [handle.abort()]. *)
Definition abort (t : TaskId) (ts : gmap TaskId Task) : gmap TaskId Task :=
  alter (fun task => {| task_strategy := task.(task_strategy); task_id := task.(task_id);
                        alive := false |}) t ts.

(** The body of the loop that starts new strategies. *)
Definition start_if_new (p : StrategyId * StrategyRef) : ST SolanaStrategyManager unit :=
  known <- st_gets (fun m => m.(running_strategies) !! p.1) ;;
  match known with
  | Some _ => st_ret tt
  | None =>
      t <- spawn_strategy p.1 p.2 ;;
      st_modify (fun m => set_running (<[p.1 := t]> m.(running_strategies)) m)
  end.

(** [running_strategies.retain(..)]: [keep] tells the ids that stay. *)
Definition retain (keep : StrategyId -> bool) (m : SolanaStrategyManager) : SolanaStrategyManager :=
  let dropped := base.filter (fun p => keep p.1 = false) m.(running_strategies) in
  set_running (base.filter (fun p => keep p.1 = true) m.(running_strategies))
    (set_tasks (foldr abort m.(tasks) (map_to_list dropped).*2) m).

(** What the loop does when it is notified. *)
Definition manager_round : ST SolanaStrategyManager unit :=
  st_modify (set_notified false) ;;;
  current <- st_gets get_active_strategies ;;
  let ids := merge_sort Z.le (map_to_list current).*1 in
  cached <- st_gets cached_strategies_ids ;;
  if bool_decide (ids = cached) then st_ret tt
  else
    st_modify (set_cached_ids ids) ;;;
    st_iter start_if_new (map_to_list current) ;;;
    st_modify (fun m => retain (fun id =>
      match current !! id with Some r => negb (is_stopped m r) | None => false end) m).

(** A step of the program: an operation of the manager, a round of its loop, or
    a strategy that changes state. *)
Inductive step : SolanaStrategyManager -> SolanaStrategyManager -> Prop :=
| step_start s m : step m (snd (start_strategy s m))
| step_drop db_ok id m : step m (snd (drop_strategy db_ok id m))
| step_round m : step m (snd (manager_round m))
| step_sync rows m : step m (snd (sync_state rows m))
| step_tick m : step m (snd (tick m))
| step_object r f m : step m (snd (update_object r f m)).
End Manager.
