(* ===== verification/ManagerFacts.v ===== *)
(** * Which strategies run *)

From stdpp Require Import sorting.
From S2P Require Import Prelude MachineInt Types Manager.

Section Facts.
Context `{Profile} `{StrategyObject} `{Hashing}.

(** The handles are the live tasks, one per id; references are allocated. *)
Record wf (m : SolanaStrategyManager) : Prop := {
  wf_alive : forall id t, m.(running_strategies) !! id = Some t ->
    exists r, m.(tasks) !! t = Some {| task_strategy := r; task_id := id; alive := true |};
  wf_running : forall t task, m.(tasks) !! t = Some task -> task.(alive) = true ->
    m.(running_strategies) !! task.(task_id) = Some t;
  wf_next_task : forall t, is_Some (m.(tasks) !! t) -> t < m.(next_task);
  wf_next_object : forall t task, m.(tasks) !! t = Some task -> task.(task_strategy) < m.(next_object);
  wf_strategies : forall id r, m.(strategies) !! id = Some r -> r < m.(next_object);
}.

Lemma new_manager_wf : wf new_manager.
Proof. split; cbn; intros; by simplify_map_eq. Qed.

(** The parts of the manager its loop never touches. *)
Definition same_strategies (m m' : SolanaStrategyManager) : Prop :=
  m'.(strategies) = m.(strategies) /\ m'.(objects) = m.(objects) /\
  m'.(next_object) = m.(next_object) /\ m'.(cached_strategies_ids) = m.(cached_strategies_ids).

#[global] Instance same_strategies_preorder : PreOrder same_strategies.
Proof.
  split; [by repeat split|]. unfold same_strategies. intros x y z. intros. destruct_and!.
  split_and!; congruence.
Qed.

Lemma start_if_new_spec p m :
  wf m -> p.2 < m.(next_object) ->
  exists m', start_if_new p m = (Some tt, m') /\ wf m' /\ same_strategies m m' /\
    forall id, is_Some (m'.(running_strategies) !! id) <->
               is_Some (m.(running_strategies) !! id) \/ id = p.1.
Proof.
  intros [W1 W2 W3 W4 W5] Hp. unfold start_if_new, st_bind, st_gets.
  destruct (running_strategies m !! p.1) as [t|] eqn:E.
  - exists m. split; [reflexivity|]. split; [done|]. split; [reflexivity|].
    intros id. split; [by left|]. intros [?| ->]; [done | by eexists].
  - assert (m.(tasks) !! m.(next_task) = None) as Hfresh
      by (apply eq_None_not_Some; intros Hs; specialize (W3 _ Hs); lia).
    eexists. split; [reflexivity|]. split; [split; cbn|].
    + intros id t. rewrite lookup_insert_Some. intros [[<- <-]|[Hne Ht]].
      * eexists. by rewrite lookup_insert_eq.
      * destruct (W1 _ _ Ht) as [r Hr]. exists r. rewrite lookup_insert_ne by congruence. done.
    + intros t task. rewrite lookup_insert_Some. intros [[<- <-]|[Hne Ht]] Ha.
      * cbn. apply lookup_insert_eq.
      * specialize (W2 _ _ Ht Ha). rewrite lookup_insert_ne by congruence. done.
    + intros t. rewrite lookup_insert_is_Some. intros [<-|[_ Ht]]; [lia|]. specialize (W3 _ Ht). lia.
    + intros t task. rewrite lookup_insert_Some. intros [[_ <-]|[_ Ht]]; [done | eauto].
    + done.
    + split; [done|]. intros id. cbn. rewrite lookup_insert_is_Some'. naive_solver.
Qed.

Lemma start_all_spec l m :
  wf m -> Forall (fun p => p.2 < m.(next_object)) l ->
  exists m', st_iter start_if_new l m = (Some tt, m') /\ wf m' /\ same_strategies m m' /\
    forall id, is_Some (m'.(running_strategies) !! id) <->
               is_Some (m.(running_strategies) !! id) \/ id ∈ l.*1.
Proof.
  revert m. induction l as [|p l IH]; intros m Hwf Hl.
  - exists m. split; [reflexivity|]. split; [done|]. split; [reflexivity|]. set_solver.
  - apply Forall_cons in Hl as [Hp Hl].
    destruct (start_if_new_spec p m Hwf Hp) as (m1 & E1 & Hwf1 & Hs1 & Hr1).
    destruct (IH m1 Hwf1) as (m2 & E2 & Hwf2 & Hs2 & Hr2).
    { destruct Hs1 as (_ & _ & -> & _). done. }
    exists m2. cbn [st_iter]. rewrite (st_bind_Some _ _ _ _ _ E1).
    split; [done|]. split; [done|]. split; [by transitivity m1|].
    intros id. rewrite Hr2, Hr1. cbn [fmap list_fmap]. rewrite elem_of_cons. tauto.
Qed.

Definition killed (task : Task) : Task :=
  {| task_strategy := task.(task_strategy); task_id := task.(task_id); alive := false |}.

Lemma abort_all_lookup l (ts : gmap TaskId Task) t :
  foldr abort ts l !! t = (if bool_decide (t ∈ l) then killed <$> ts !! t else ts !! t).
Proof.
  induction l as [|a l IH]; [done|]. cbn [foldr]. unfold abort at 1.
  destruct (decide (a = t)) as [->|Hne].
  - rewrite lookup_alter_eq, IH, (bool_decide_true (t ∈ t :: l)) by set_solver.
    destruct (bool_decide (t ∈ l)); by destruct (ts !! t).
  - rewrite lookup_alter_ne, IH by done.
    rewrite (bool_decide_ext (t ∈ a :: l) (t ∈ l)); [done|]. set_solver.
Qed.

Lemma dropped_handles keep (m : SolanaStrategyManager) t :
  t ∈ (map_to_list (base.filter (fun p => keep p.1 = false) m.(running_strategies))).*2 <->
  exists id, m.(running_strategies) !! id = Some t /\ keep id = false.
Proof.
  rewrite list_elem_of_fmap. split.
  - intros ([id t'] & -> & Hin). apply elem_of_map_to_list, map_lookup_filter_Some in Hin. eauto.
  - intros (id & Hr & Hk). exists (id, t). split; [done|].
    by apply elem_of_map_to_list, map_lookup_filter_Some.
Qed.

Lemma retain_spec keep m :
  wf m -> wf (retain keep m) /\ same_strategies m (retain keep m) /\
  forall id, is_Some ((retain keep m).(running_strategies) !! id) <->
             is_Some (m.(running_strategies) !! id) /\ keep id = true.
Proof.
  intros [W1 W2 W3 W4 W5]. split; [split; cbn|].
  - intros id t Ht. apply map_lookup_filter_Some in Ht as [Ht Hk]. cbn in Hk.
    destruct (W1 _ _ Ht) as [r Hr]. exists r. rewrite abort_all_lookup, bool_decide_false, Hr; [done|].
    rewrite dropped_handles. intros (id' & Ht' & Hk'). destruct (W1 _ _ Ht') as [r' Hr'].
    rewrite Hr in Hr'. simplify_eq. congruence.
  - intros t task. rewrite abort_all_lookup. case_bool_decide as Hd.
    + rewrite fmap_Some. intros (x & _ & ->). discriminate.
    + intros Ht Ha. apply map_lookup_filter_Some. split; [by apply W2|]. cbn.
      rewrite dropped_handles in Hd. destruct (keep (task_id task)) eqn:Ek; [done|].
      destruct Hd. exists (task_id task). split; [by apply W2 | done].
  - intros t. rewrite abort_all_lookup. case_bool_decide; [|apply W3].
    rewrite fmap_is_Some. apply W3.
  - intros t task. rewrite abort_all_lookup. case_bool_decide; [|apply W4].
    rewrite fmap_Some. intros (x & Hx & ->). cbn. eauto.
  - exact W5.
  - split; [done|]. intros id. cbn. unfold is_Some. setoid_rewrite map_lookup_filter_Some. cbn. naive_solver.
Qed.

(** ** Rounds *)

(** The sorted ids of the active strategies. *)
Definition active_ids (m : SolanaStrategyManager) : list StrategyId :=
  merge_sort Z.le (map_to_list (get_active_strategies m)).*1.

Lemma elem_of_active_ids id m :
  id ∈ active_ids m <-> is_Some (get_active_strategies m !! id).
Proof.
  unfold active_ids. rewrite (merge_sort_Permutation Z.le), list_elem_of_fmap. split.
  - intros ([id' r] & -> & Hin). apply elem_of_map_to_list in Hin. by exists r.
  - intros [r Hr]. exists (id, r). split; [done | by apply elem_of_map_to_list].
Qed.

(** What a strategy's removal from the running ones depends on. *)
Definition wanted (m : SolanaStrategyManager) (id : StrategyId) : bool :=
  match get_active_strategies m !! id with Some r => negb (is_stopped m r) | None => false end.

Lemma same_strategies_active m m' :
  same_strategies m m' -> get_active_strategies m' = get_active_strategies m.
Proof.
  intros (Hs & Ho & _ & _). unfold get_active_strategies. rewrite Hs.
  apply map_filter_ext. intros id r _. cbn. unfold is_active. by rewrite Ho.
Qed.

Lemma same_strategies_wanted m m' id : same_strategies m m' -> wanted m' id = wanted m id.
Proof.
  intros Hs. unfold wanted, is_stopped. rewrite (same_strategies_active _ _ Hs).
  by destruct Hs as (_ & -> & _ & _).
Qed.

Lemma active_allocated m :
  wf m -> Forall (fun p => p.2 < m.(next_object)) (map_to_list (get_active_strategies m)).
Proof.
  intros Hwf. apply Forall_forall. intros [id r] Hin.
  apply elem_of_map_to_list, map_lookup_filter_Some in Hin as [Hr _]. by eapply wf_strategies.
Qed.

Lemma set_notified_wf b m : wf m -> wf (set_notified b m).
Proof. by intros []. Qed.

Lemma set_cached_ids_wf ids m : wf m -> wf (set_cached_ids ids m).
Proof. by intros []. Qed.

(** A round whose ids are those of the last one does nothing. *)
Lemma round_same m :
  active_ids m = m.(cached_strategies_ids) ->
  manager_round m = (Some tt, set_notified false m).
Proof.
  intros Hids. unfold manager_round, st_bind, st_modify, st_gets. cbv zeta.
  rewrite bool_decide_true; [done|]. exact Hids.
Qed.

(** A round whose ids changed runs exactly the wanted strategies that are active
    or that were running. *)
Lemma round_changed m :
  wf m -> active_ids m <> m.(cached_strategies_ids) ->
  exists m', manager_round m = (Some tt, m') /\ wf m' /\
    m'.(strategies) = m.(strategies) /\ m'.(objects) = m.(objects) /\
    m'.(cached_strategies_ids) = active_ids m /\
    forall id, is_Some (m'.(running_strategies) !! id) <-> wanted m id = true.
Proof.
  intros Hwf Hids. unfold manager_round, st_bind at 1, st_modify at 1.
  unfold st_bind at 1, st_gets at 1. cbv zeta. unfold st_bind at 1, st_gets at 1.
  rewrite bool_decide_false by exact Hids.
  unfold st_bind at 1, st_modify at 1.
  set (m0 := set_cached_ids _ _).
  assert (wf m0) as Hwf0 by (by apply set_cached_ids_wf, set_notified_wf).
  destruct (start_all_spec (map_to_list (get_active_strategies m)) m0 Hwf0)
    as (m1 & E1 & Hwf1 & Hs1 & Hr1); [exact (active_allocated m Hwf)|].
  erewrite st_bind_Some by exact E1. unfold st_modify.
  match goal with |- context [retain ?k m1] => destruct (retain_spec k m1 Hwf1) as (Hwf2 & Hs2 & Hr2) end.
  eexists. split; [reflexivity|]. split; [done|].
  assert (same_strategies m0 (retain _ m1)) as (Hst & Hob & _ & Hc) by (etrans; [exact Hs1 | exact Hs2]).
  split; [by rewrite Hst|]. split; [by rewrite Hob|]. split; [by rewrite Hc|].
  intros id. rewrite Hr2, Hr1.
  change (get_active_strategies (set_notified false m)) with (get_active_strategies m).
  assert (match get_active_strategies m !! id with
          | Some r => negb (is_stopped m1 r) | None => false end = wanted m id) as ->.
  { unfold wanted, is_stopped. by destruct Hs1 as (_ & -> & _ & _). }
  split; [tauto|]. intros Hw. split; [|done]. right. unfold wanted in Hw.
  destruct (get_active_strategies m !! id) as [r|] eqn:Er; [|done].
  apply list_elem_of_fmap. exists (id, r). split; [done | by apply elem_of_map_to_list].
Qed.

(** ** Starting and dropping *)

(** An operation that only adds an object, or changes the map or an object. *)
Definition same_tasks (m m' : SolanaStrategyManager) : Prop :=
  m'.(tasks) = m.(tasks) /\ m'.(running_strategies) = m.(running_strategies) /\
  m'.(next_task) = m.(next_task) /\ m'.(cached_strategies_ids) = m.(cached_strategies_ids).

Definition grows (m m' : SolanaStrategyManager) : Prop :=
  same_tasks m m' /\ (wf m -> wf m').

#[global] Instance grows_preorder : PreOrder grows.
Proof.
  split; [intros m; split; [by repeat split | done]|]. intros x y z [(T1 & R1 & N1 & C1) W1] [(T2 & R2 & N2 & C2) W2].
  split; [unfold same_tasks; split_and!; congruence | auto].
Qed.

Lemma insert_strategy_grows id o : runs grows (insert_strategy id o).
Proof.
  apply runs_modify; [exact _|]. intros m. split; [by repeat split|]. intros [W1 W2 W3 W4 W5].
  split; cbn; [done..| |].
  - intros t task Ht. specialize (W4 _ _ Ht). lia.
  - intros i r. rewrite lookup_insert_Some. intros [[_ <-]|[_ Hr]]; [lia | specialize (W5 _ _ Hr); lia].
Qed.

Lemma notify_grows : runs grows notify.
Proof. apply runs_modify; [exact _|]. intros m. split; [by repeat split | by intros []]. Qed.

Lemma update_object_grows r f : runs grows (update_object r f).
Proof. apply runs_modify; [exact _|]. intros m. split; [by repeat split | by intros []]. Qed.

(** The state after a computation, whether or not it panicked. *)
Definition keeps {A} (m : ST SolanaStrategyManager A) : Prop := forall s, grows s (snd (m s)).

Lemma keeps_runs {A} (m : ST SolanaStrategyManager A) : runs grows m -> keeps m.
Proof. intros Hm s. by destruct (Hm s) as (a & s' & -> & Hg). Qed.

Lemma keeps_bind {A B} (m : ST SolanaStrategyManager A) (k : A -> ST SolanaStrategyManager B) :
  keeps m -> (forall a, keeps (k a)) -> keeps (st_bind m k).
Proof.
  intros Hm Hk s. specialize (Hm s). unfold st_bind. destruct (m s) as [[a|] s']; [|done].
  etrans; [exact Hm | apply Hk].
Qed.

Lemma keeps_try {E A B} (m : ST SolanaStrategyManager (result E A))
    (k : A -> ST SolanaStrategyManager (result E B)) :
  keeps m -> (forall a, keeps (k a)) -> keeps (st_try m k).
Proof. intros Hm Hk. apply keeps_bind; [done|]. intros [a|e]; [apply Hk | by intros s]. Qed.

Lemma keeps_lift {E A} (m : ST SolanaStrategyManager A) : keeps m -> keeps (@st_lift _ E A m).
Proof. intros Hm. apply keeps_bind; [done|]. by intros a s. Qed.

Lemma keeps_option {A} (o : option A) : keeps (st_unwrap o).
Proof. by destruct o. Qed.

Lemma keeps_or_fail {A} e (o : option A) : keeps (or_fail e o).
Proof. by destruct o. Qed.

Ltac keeps_tac :=
  repeat first
    [ apply keeps_try; [| intros ?] | apply keeps_lift | apply keeps_or_fail | apply keeps_option
    | apply keeps_runs, insert_strategy_grows | apply keeps_runs, notify_grows
    | apply keeps_runs, update_object_grows
    | apply keeps_bind; [| intros ?] | by (intros ?; split; [by repeat split | by intros []])
    | case_match ].

Lemma start_strategy_keeps s : keeps (start_strategy s).
Proof. unfold start_strategy. keeps_tac. Qed.

Lemma delete_strategy_keeps id :
  keeps (st_modify (fun m => set_strategies (delete id m.(strategies)) m)).
Proof.
  intros m. split; [by repeat split|]. intros [W1 W2 W3 W4 W5]. split; cbn; [done..|].
  intros i r. rewrite lookup_delete_Some. naive_solver.
Qed.

Lemma drop_strategy_keeps b id : keeps (drop_strategy b id).
Proof.
  unfold drop_strategy. apply keeps_bind; [by intros ?|]. intros [r|]; [|by intros ?].
  apply keeps_bind; [apply keeps_runs, update_object_grows|]. intros [].
  apply keeps_bind; [apply delete_strategy_keeps|]. intros []. by destruct b.
Qed.

Lemma sync_state_keeps rows : keeps (sync_state rows).
Proof.
  apply keeps_try; [apply keeps_or_fail|]. intros l. induction l as [|[id o] l IH]; [by intros ?|].
  cbn. keeps_tac. apply IH.
Qed.

Lemma step_wf m m' : wf m -> step m m' -> wf m'.
Proof.
  intros Hwf Hstep. destruct Hstep as [s m|b id m|m|rows m|m|r f m].
  - by apply (start_strategy_keeps s m).
  - by apply (drop_strategy_keeps b id m).
  - destruct (decide (active_ids m = cached_strategies_ids m)) as [He|Hne].
    + rewrite round_same by done. by apply set_notified_wf.
    + destruct (round_changed m Hwf Hne) as (m' & -> & Hwf' & _). done.
  - by apply (sync_state_keeps rows m).
  - by apply (keeps_runs _ notify_grows m).
  - by apply (keeps_runs _ (update_object_grows r f) m).
Qed.

Lemma reachable_wf m : rtc step new_manager m -> wf m.
Proof.
  intros Hr. remember new_manager as m0 eqn:E. revert E. intros ->.
  pose proof new_manager_wf as Hwf. revert Hwf. induction Hr; eauto using step_wf.
Qed.

(** Without a stopped strategy, the running ids are those of the last round. *)
Definition in_step (m : SolanaStrategyManager) : Prop :=
  forall id, is_Some (m.(running_strategies) !! id) <-> id ∈ m.(cached_strategies_ids).

Lemma wanted_active m id :
  (forall o, get_status o = StatusRunning) ->
  wanted m id = true <-> is_Some (get_active_strategies m !! id).
Proof.
  intros Hrun. unfold wanted, is_stopped.
  destruct (get_active_strategies m !! id) as [r|]; [|split; [done | by intros []]].
  split; [by eexists|]. intros _. destruct (objects m !! r) as [o|]; [|done].
  cbn. by rewrite Hrun.
Qed.

Lemma same_tasks_in_step m m' : same_tasks m m' -> in_step m -> in_step m'.
Proof. intros (_ & Hr & _ & Hc) Hi id. rewrite Hr, Hc. apply Hi. Qed.

Lemma step_in_step m m' :
  (forall o, get_status o = StatusRunning) -> wf m -> in_step m -> step m m' -> in_step m'.
Proof.
  intros Hrun Hwf Hi Hstep. destruct Hstep as [s m|b id m|m|rows m|m|r f m].
  - by eapply same_tasks_in_step, Hi; destruct (start_strategy_keeps s m).
  - by eapply same_tasks_in_step, Hi; destruct (drop_strategy_keeps b id m).
  - destruct (decide (active_ids m = cached_strategies_ids m)) as [He|Hne].
    + by rewrite round_same.
    + destruct (round_changed m Hwf Hne) as (m' & -> & _ & _ & _ & Hc & Hr).
      intros id. cbn [snd]. rewrite Hr, Hc, elem_of_active_ids. by apply wanted_active.
  - by eapply same_tasks_in_step, Hi; destruct (sync_state_keeps rows m).
  - by eapply same_tasks_in_step, Hi; destruct (keeps_runs _ notify_grows m).
  - by eapply same_tasks_in_step, Hi; destruct (keeps_runs _ (update_object_grows r f) m).
Qed.

Lemma reachable_in_step m :
  (forall o, get_status o = StatusRunning) -> rtc step new_manager m -> in_step m.
Proof.
  intros Hrun Hr. enough (wf m /\ in_step m) by tauto.
  assert (wf new_manager /\ in_step new_manager) as Hinit.
  { split; [apply new_manager_wf|]. intros id. cbn. rewrite lookup_empty. split; [by intros [] | set_solver]. }
  remember new_manager as m0. clear Heqm0. induction Hr as [|x y z Hxy _ IH]; [done|].
  destruct Hinit. apply IH. eauto using step_wf, step_in_step.
Qed.

(** ** Ids that are taken *)

(** The object a new strategy is rebuilt into. *)
Definition rebuilt_object (s : NewStrategy) : option object :=
  match s with
  | NewVolume _ _ o | NewSweeper _ o | NewSniper _ o => o
  | NewOther o => Some o
  end.

Lemma insert_strategy_eq id o m :
  insert_strategy id o m =
  (Some tt, set_strategies (<[id := m.(next_object)]> m.(strategies))
    (set_objects (<[m.(next_object) := o]> m.(objects)) (set_next_object (m.(next_object) + 1) m))).
Proof. reflexivity. Qed.

Lemma start_strategy_inv s o m id m1 :
  rebuilt_object s = Some o -> start_strategy s m = (Some (Ok id), m1) ->
  m1.(strategies) = <[id := m.(next_object)]> m.(strategies) /\
  m1.(objects) = <[m.(next_object) := o]> m.(objects) /\ same_tasks m m1.
Proof.
  intros Ho E. unfold start_strategy in E. apply st_try_inv in E as (id' & m2 & E & E2).
  apply st_lift_inv in E2. cbn in E2. injection E2 as -> <-.
  destruct s as [conn row ro|inst ro|inst ro|ob]; cbn in Ho; subst.
  - apply st_try_inv in E as ([] & mc & Ec & E). destruct conn; [|discriminate].
    injection Ec as <-. apply st_try_inv in E as (i & ma & Ei & E). destruct row as [row|]; [|discriminate].
    injection Ei as <- <-. cbn in E. injection E as <- <-. by repeat split.
  - cbn in E. destruct (hash_i32_to_i32 inst) as [h|]; [|discriminate].
    cbn in E. injection E as <- <-. by repeat split.
  - cbn in E. injection E as <- <-. by repeat split.
  - injection Ho as ->. apply st_lift_inv in E. cbn in E. unfold st_bind in E. cbn in E.
    destruct (hash_i32_to_i32 (random_i32 (draws m))) as [h|]; [|discriminate].
    cbn in E. injection E as <- <-. by repeat split.
Qed.

Lemma active_ids_ext m m' :
  (forall id, is_Some (get_active_strategies m !! id) <-> is_Some (get_active_strategies m' !! id)) ->
  active_ids m = active_ids m'.
Proof.
  intros Hiff. apply (Sorted_unique Z.le); try apply Sorted_merge_sort; try apply _.
  apply NoDup_Permutation.
  1-2: unfold active_ids; rewrite (merge_sort_Permutation Z.le); apply NoDup_fst_map_to_list.
  intros id. by rewrite !elem_of_active_ids.
Qed.

Lemma active_lookup m id r :
  get_active_strategies m !! id = Some r <->
  m.(strategies) !! id = Some r /\ exists o, m.(objects) !! r = Some o /\ completed o = false.
Proof.
  unfold get_active_strategies. rewrite map_lookup_filter_Some. cbn. unfold is_active.
  destruct (objects m !! r) as [o|]; [|naive_solver].
  destruct (completed o) eqn:Ec; naive_solver.
Qed.
End Facts.

(** C10. The tasks follow the strategies: whatever was started and dropped before,
    after a round of the manager there is a live task for an id exactly when an
    active strategy has that id.  (No strategy of the program ever reports that
    it is stopped.) *)
Theorem running_tasks_follow `{Profile} `{StrategyObject} `{Hashing} (m : SolanaStrategyManager)
    (Hrun : forall o, get_status o = StatusRunning) (Hreach : rtc step new_manager m) :
  exists m', manager_round m = (Some tt, m') /\
    forall id, (exists t task, m'.(tasks) !! t = Some task /\ task.(alive) = true /\ task.(task_id) = id)
               <-> is_Some (get_active_strategies m !! id).
Proof.
  pose proof (reachable_wf m Hreach) as Hwf.
  pose proof (reachable_in_step m Hrun Hreach) as Hi.
  assert (forall m', wf m' -> forall id,
    (exists t task, m'.(tasks) !! t = Some task /\ task.(alive) = true /\ task.(task_id) = id)
    <-> is_Some (m'.(running_strategies) !! id)) as Htasks.
  { intros m' Hw id. split.
    - intros (t & task & Ht & Ha & <-). exists t. by eapply wf_running.
    - intros [t Ht]. destruct (wf_alive _ Hw _ _ Ht) as [r Hr]. by eexists _, _. }
  destruct (decide (active_ids m = cached_strategies_ids m)) as [He|Hne].
  - exists (set_notified false m). split; [by apply round_same|]. intros id.
    rewrite Htasks by (by apply set_notified_wf). cbn. rewrite (Hi id), <- He. apply elem_of_active_ids.
  - destruct (round_changed m Hwf Hne) as (m' & E & Hwf' & _ & _ & _ & Hr).
    exists m'. split; [done|]. intros id. rewrite Htasks by done. rewrite Hr. by apply wanted_active.
Qed.

(** A strategy started under an id that is active never runs: it replaces the
    other in the map, the set of ids is the same, and the manager goes on with
    the task of the strategy that was replaced.  Ids of snipers, of sweepers
    (hashed) and of volume strategies (rows of a table) share one map. *)
Theorem same_id_never_starts `{Profile} `{StrategyObject} `{Hashing} (m m1 : SolanaStrategyManager)
    (s : NewStrategy) (o : object) (id : StrategyId)
    (Hreach : rtc step new_manager m)
    (Hsettled : active_ids m = m.(cached_strategies_ids))
    (Htaken : is_Some (get_active_strategies m !! id))
    (Hnew : rebuilt_object s = Some o) (Hactive : completed o = false)
    (Hstart : start_strategy s m = (Some (Ok id), m1)) :
  exists r m2, m1.(strategies) !! id = Some r /\ m1.(objects) !! r = Some o /\
    manager_round m1 = (Some tt, m2) /\ m2.(tasks) = m.(tasks) /\
    forall t task, m2.(tasks) !! t = Some task -> task.(task_strategy) <> r.
Proof.
  pose proof (reachable_wf m Hreach) as Hwf.
  destruct (start_strategy_inv s o m id m1 Hnew Hstart) as (Hs & Hob & Ht & Hr & Hn & Hc).
  assert (active_ids m1 = cached_strategies_ids m1) as Hsame.
  { rewrite Hc, <- Hsettled. apply active_ids_ext. intros i.
    destruct (decide (i = id)) as [->|Hne].
    - split; [done|]. intros _. eexists. apply active_lookup. rewrite Hs, Hob.
      split; [apply lookup_insert_eq|]. exists o. split; [apply lookup_insert_eq | done].
    - split; intros [r Hr']; exists r; apply active_lookup; apply active_lookup in Hr' as (Ha & x & Hx & Hd).
      + rewrite Hs, lookup_insert_ne in Ha by done. split; [done|].
        rewrite Hob, lookup_insert_ne in Hx by (pose proof (wf_strategies _ Hwf _ _ Ha); lia). eauto.
      + rewrite Hs, lookup_insert_ne by done. split; [done|].
        rewrite Hob, lookup_insert_ne by (pose proof (wf_strategies _ Hwf _ _ Ha); lia). eauto. }
  exists m.(next_object), (set_notified false m1).
  split; [by rewrite Hs, lookup_insert_eq|]. split; [by rewrite Hob, lookup_insert_eq|].
  split; [by apply round_same|]. split; [done|].
  intros t task. cbn. rewrite Ht. intros Hl. pose proof (wf_next_object _ Hwf _ _ Hl). lia.
Qed.

(** ** The theorems at concrete values *)

(** Strategies that ignore every event, completed when [true]. *)
Definition sample_object : StrategyObject := {|
  object := bool; completed := fun b => b; get_status := fun _ => StatusRunning;
  handle_event := fun _ b => b
|}.

Definition sample_hashing : Hashing := {| default_hash := fun z => z; random_i32 := fun n => n |}.

#[local] Existing Instance sample_object.
#[local] Existing Instance sample_hashing.
#[local] Existing Instance debug_build.

Definition fresh_object : object := false.

(** A sniper of id 3 runs. *)
Definition sniper_started : SolanaStrategyManager :=
  snd (start_strategy (NewSniper 3 (Some fresh_object)) new_manager).

Definition sniper_running : SolanaStrategyManager := snd (manager_round sniper_started).

Lemma sniper_running_reachable : rtc step new_manager sniper_running.
Proof. eapply rtc_l; [apply step_start|]. eapply rtc_l; [apply step_round | apply rtc_refl]. Qed.

Lemma running_tasks_follow_witness :
  exists m', manager_round sniper_running = (Some tt, m') /\
    exists t task, m'.(tasks) !! t = Some task /\ task.(alive) = true /\ task.(task_id) = 3.
Proof.
  destruct (running_tasks_follow sniper_running (fun _ => eq_refl) sniper_running_reachable)
    as (m' & E & Hiff).
  exists m'. split; [exact E|]. apply Hiff. vm_compute. by eexists.
Defined.

(** A volume strategy whose row gets the id 3. *)
Lemma same_id_never_starts_witness :
  exists m1 r m2, start_strategy (NewVolume true (Some 3) (Some fresh_object)) sniper_running = (Some (Ok 3), m1) /\
    m1.(strategies) !! 3 = Some r /\ manager_round m1 = (Some tt, m2) /\
    m2.(tasks) = sniper_running.(tasks) /\
    forall t task, m2.(tasks) !! t = Some task -> task.(task_strategy) <> r.
Proof.
  destruct (start_strategy (NewVolume true (Some 3) (Some fresh_object)) sniper_running) as [r0 m1] eqn:E.
  assert (r0 = Some (Ok 3)) as -> by
    (replace r0 with (fst (start_strategy (NewVolume true (Some 3) (Some fresh_object)) sniper_running))
       by (by rewrite E); vm_compute; reflexivity).
  destruct (same_id_never_starts sniper_running m1 (NewVolume true (Some 3) (Some fresh_object)) fresh_object 3
    sniper_running_reachable) as (r & m2 & Hr & _ & Hm & Ht & Hn).
  - vm_compute. reflexivity.
  - vm_compute. by eexists.
  - reflexivity.
  - reflexivity.
  - exact E.
  - exists m1, r, m2. by split_and!.
Defined.
