(* ===== verification/Engine.v ===== *)
(** * Broadcast channels, and the engine over them

    The interface of [tokio::sync::broadcast], over which the tasks of the engine
    talk, with what its documentation promises: a receiver sees the values sent
    after it was created, in order; one that falls behind by more than the
    channel keeps is told how many it lost and goes on with the oldest value
    kept; a value sent while there is no receiver is handed back.  [LogChannel]
    is a channel that does so, which the witnesses run. *)

From S2P Require Import Prelude MachineInt Types Manager.
#[local] Open Scope nat_scope.

(** [RecvError::Lagged]; a channel of the engine is never closed, since the tasks
    that send on it keep their senders. *)
Inductive RecvError := Lagged (lost : nat).

Class Broadcast (M : Type) := {
  channel : Type;
  receiver : Type;
  broadcast_channel : nat -> channel;
  subscribe : channel -> receiver * channel;
  (** the number of receivers, or [None]: the [SendError] *)
  send : M -> channel -> option nat * channel;
  (** [None]: the caller waits *)
  recv : receiver -> channel -> option (result RecvError M) * channel;
  (** the receiver is dropped *)
  unsubscribe : receiver -> channel -> channel;
}.
Arguments channel M {_}.
Arguments receiver M {_}.
Arguments broadcast_channel M {_}.

(** [sent]: everything ever accepted; [position]: how many of these values are no
    longer ahead of a receiver, [None] for one the channel does not know. *)
Class BroadcastLaws (M : Type) `{Broadcast M} := {
  sent : channel M -> list M;
  position : channel M -> receiver M -> option nat;
  kept : channel M -> nat;
  receiver_eq_dec :: EqDecision (receiver M);
  broadcast_channel_law n : sent (broadcast_channel M n) = [] /\ n <= kept (broadcast_channel M n) /\
    forall r, position (broadcast_channel M n) r = None;
  subscribe_law c r c' : subscribe c = (r, c') ->
    position c r = None /\ position c' r = Some (length (sent c)) /\
    sent c' = sent c /\ kept c' = kept c /\ forall r', r' <> r -> position c' r' = position c r';
  send_law m c n c' : send m c = (n, c') ->
    kept c' = kept c /\ (forall r, position c' r = position c r) /\
    (n = None <-> forall r, position c r = None) /\
    sent c' = match n with Some _ => sent c ++ [m] | None => sent c end;
  recv_law r c p o c' : position c r = Some p -> recv r c = (o, c') ->
    sent c' = sent c /\ kept c' = kept c /\ (forall r', r' <> r -> position c' r' = position c r') /\
    match o with
    | None => length (sent c) <= p /\ position c' r = Some p
    | Some (Ok m) => length (sent c) - p <= kept c /\ sent c !! p = Some m /\ position c' r = Some (S p)
    | Some (Err (Lagged lost)) =>
        kept c < length (sent c) - p /\ lost = length (sent c) - kept c - p /\
        position c' r = Some (p + lost)
    end;
  unsubscribe_law r c : sent (unsubscribe r c) = sent c /\ kept (unsubscribe r c) = kept c /\
    position (unsubscribe r c) r = None /\
    forall r', r' <> r -> position (unsubscribe r c) r' = position c r';
}.

(** A receiver for each of some tasks. *)
Fixpoint subscribe_each {M X} `{Broadcast M} (xs : list X) (c : channel M)
    : list (X * receiver M) * channel M :=
  match xs with
  | [] => ([], c)
  | x :: xs' =>
      let '(r, c1) := subscribe c in
      let '(ps, c2) := subscribe_each xs' c1 in
      ((x, r) :: ps, c2)
  end.

(** The receivers are new, each task's its own, and start at the end of what was sent. *)
Lemma subscribe_each_spec {M X} `{BroadcastLaws M} (xs : list X) (c c' : channel M) ps :
  subscribe_each xs c = (ps, c') ->
  sent c' = sent c /\
  (forall r, is_Some (position c r) -> position c' r = position c r) /\
  (forall i x r, ps !! i = Some (x, r) ->
     position c r = None /\ position c' r = Some (length (sent c)) /\ xs !! i = Some x) /\
  (forall i j x y r, ps !! i = Some (x, r) -> ps !! j = Some (y, r) -> i = j).
Proof.
  revert c ps c'. induction xs as [|x xs IH]; cbn; intros c ps c' Hs; [by simplify_eq|].
  destruct (subscribe c) as [r c1] eqn:E1. destruct (subscribe_each xs c1) as [ps1 c2] eqn:E2.
  simplify_eq. apply subscribe_law in E1 as (Hn & Hr & Hs & _ & Ho).
  destruct (IH _ _ _ E2) as (Hs2 & Ho2 & Ht2 & Hi2).
  assert (forall i y, ps1 !! i = Some (y, r) -> False) as Hfresh.
  { intros i y Hy. destruct (Ht2 _ _ _ Hy) as (Ha & _). congruence. }
  split; [congruence|]. split; [|split].
  - intros r' Hr'. destruct (decide (r' = r)) as [->|Hne]; [rewrite Hn in Hr'; by destruct Hr'|].
    rewrite <- (Ho r') by done. apply Ho2. by rewrite Ho.
  - intros [|i] y r' Hy; cbn in Hy; simplify_eq.
    + rewrite Ho2 by (rewrite Hr; eauto). done.
    + destruct (Ht2 _ _ _ Hy) as (Ha & Hb & Hc). rewrite Hs in Hb. split; [|done].
      rewrite <- (Ho r'); [done|]. intros He. congruence.
  - intros [|i] [|j] y z r' Hy Hz; [done|..|f_equal; eauto]; cbn in Hy, Hz; simplify_eq;
      by destruct (Hfresh _ _ ltac:(eassumption)).
Qed.

(** ** A channel that keeps a log *)

Module LogChannel.
Section LogChannel.
Context {M : Type}.

Record Chan := {
  log : list M;
  positions : gmap nat nat;
  size : nat;
}.

Definition new (n : nat) : Chan := {| log := []; positions := ∅; size := n |}.

Definition set_position (r p : nat) (c : Chan) : Chan :=
  {| log := log c; positions := <[r := p]> (positions c); size := size c |}.

Definition sub (c : Chan) : nat * Chan :=
  let r := fresh (dom (positions c)) in (r, set_position r (length (log c)) c).

Definition push (m : M) (c : Chan) : option nat * Chan :=
  if decide (positions c = ∅) then (None, c)
  else (Some (base.size (positions c)), {| log := log c ++ [m]; positions := positions c; size := size c |}).

Definition next (r : nat) (c : Chan) : option (result RecvError M) * Chan :=
  let p := default 0 (positions c !! r) in
  let behind := length (log c) - p in
  if decide (size c < behind) then
    (Some (Err (Lagged (behind - size c))), set_position r (p + (behind - size c)) c)
  else match log c !! p with
       | Some m => (Some (Ok m), set_position r (S p) c)
       | None => (None, c)
       end.

Definition unsub (r : nat) (c : Chan) : Chan :=
  {| log := log c; positions := delete r (positions c); size := size c |}.

#[global] Instance log_broadcast : Broadcast M := {|
  channel := Chan; receiver := nat; broadcast_channel := new; subscribe := sub; send := push;
  recv := next; unsubscribe := unsub;
|}.

#[global, program] Instance log_laws : BroadcastLaws M := {|
  sent := log; position c r := positions c !! r; kept := size;
|}.
Next Obligation. done. Qed.
Next Obligation.
  intros c r c' [= <- <-]. cbn. rewrite lookup_insert_eq. split; [|repeat split].
  - apply not_elem_of_dom, is_fresh.
  - intros r' Hr. by rewrite lookup_insert_ne.
Qed.
Next Obligation.
  intros m c n c'. cbn. unfold push. case_decide as Hp; intros [= <- <-]; cbn; (repeat split); try done.
  - intros _ r. by rewrite Hp, lookup_empty.
  - intros Hno. destruct Hp. by apply map_empty.
Qed.
Next Obligation.
  intros r c p o c' Hp. cbn in *. unfold next. rewrite Hp. cbn.
  case_decide as Hl; [|destruct (log c !! p) as [m|] eqn:Hm]; intros [= <- <-]; cbn;
    rewrite ?lookup_insert_eq; (repeat split); try done; try lia.
  all: try (intros r' Hr; by rewrite lookup_insert_ne).
  by apply lookup_ge_None.
Qed.
Next Obligation.
  intros r c. cbn. rewrite lookup_delete_eq. repeat split. intros r' Hr. by rewrite lookup_delete_ne.
Qed.
End LogChannel.
End LogChannel.

(** * The engine ([engine.rs], [strategies/solana_strategy_manager.rs])

    [Engine::run] joins the parts of the bot by two broadcast channels: tasks of
    the collectors put events on the one, tasks of the aggregators and of the
    strategies take them off; strategies put actions on the other, tasks of the
    executors take them off, and what an executor reports is an event again.
    [run_state] is what these tasks share, and [step] what one of them does
    between two points where another may run; the steps are labelled with what
    an observer would see.

    An executor, an aggregator, a collector and a strategy are objects of the
    traits of [types/engine.rs], here parameters. *)

Definition ENGINE_MESSAGE_CHANNEL_CAPACITY : nat := Z.to_nat 16384.

(** The traits.  The methods that wait for the network, the database or other
    tasks are relations between an argument and a result; no result is a panic. *)
Class Parts := {
  event : Type;
  action : Type;
  collector : Type;
  get_event_stream : collector -> bool -> Prop;
  stream_next : collector -> option event -> Prop;
  aggregator : Type;
  aggregate : event -> ST aggregator (list event);
  executor : Type;
  execute_error : Type;
  execute : executor -> action -> option (result execute_error event) -> Prop;
  strategy : Type;
  sync_state : strategy -> bool -> strategy -> Prop;
  process_event : event -> strategy -> option (list action) -> strategy -> Prop;
  (** what a task leaves that is aborted inside [process_event], or [sync_state] *)
  interrupted : option event -> strategy -> strategy -> Prop;
}.

Section Engine.
Context `{Parts} `{!Broadcast event} `{!Broadcast action}.

(** ** Putting an engine together *)

Record Engine := {
  collectors : list collector;
  aggregators : list aggregator;
  executors : list executor;
  event_channel_capacity : nat;
  action_channel_capacity : nat;
}.

Definition new_engine : Engine := {|
  collectors := []; aggregators := []; executors := [];
  event_channel_capacity := ENGINE_MESSAGE_CHANNEL_CAPACITY;
  action_channel_capacity := ENGINE_MESSAGE_CHANNEL_CAPACITY;
|}.

Definition with_event_channel_capacity (capacity : nat) (e : Engine) : Engine := {|
  collectors := collectors e; aggregators := aggregators e; executors := executors e;
  event_channel_capacity := capacity; action_channel_capacity := action_channel_capacity e;
|}.

Definition with_action_channel_capacity (capacity : nat) (e : Engine) : Engine := {|
  collectors := collectors e; aggregators := aggregators e; executors := executors e;
  event_channel_capacity := event_channel_capacity e; action_channel_capacity := capacity;
|}.

Definition add_collector (c : collector) (e : Engine) : Engine := {|
  collectors := collectors e ++ [c]; aggregators := aggregators e; executors := executors e;
  event_channel_capacity := event_channel_capacity e;
  action_channel_capacity := action_channel_capacity e;
|}.

Definition add_aggregator (a : aggregator) (e : Engine) : Engine := {|
  collectors := collectors e; aggregators := aggregators e ++ [a]; executors := executors e;
  event_channel_capacity := event_channel_capacity e;
  action_channel_capacity := action_channel_capacity e;
|}.

Definition add_executor (x : executor) (e : Engine) : Engine := {|
  collectors := collectors e; aggregators := aggregators e; executors := executors e ++ [x];
  event_channel_capacity := event_channel_capacity e;
  action_channel_capacity := action_channel_capacity e;
|}.

(** ** The tasks *)

Record ExecutorTask := {
  ex_executor : executor;
  ex_receiver : receiver action;
}.

(** A task an executor's loop spawned for an action. *)
Record Execution := {
  xn_index : nat;
  xn_executor : executor;
  xn_action : action;
}.

(** [Waiting]: at [recv]; [Sending]: the values the loop has still to send. *)
Inductive Phase (A : Type) :=
| Waiting
| Sending (left : list A)
| Ended.
#[global] Arguments Waiting {A}.
#[global] Arguments Sending {A} left.
#[global] Arguments Ended {A}.

Record AggregatorTask := {
  ag_aggregator : aggregator;
  ag_receiver : receiver event;
  ag_phase : Phase event;
}.

(** A collector's task first opens its stream. *)
Inductive CollectorPhase := Opening | Streaming | Closed.

Record CollectorTask := {
  co_collector : collector;
  co_phase : CollectorPhase;
}.

(** The task of [spawn_strategy]: it synchronises its strategy, then takes
    events; [Processing]: it has taken one and wants the strategy's lock. *)
Inductive StrategyPhase :=
| Syncing
| Processing (e : event)
| Serving (p : Phase action).

Record StrategyTask := {
  sg_strategy : StrategyRef;
  sg_receiver : receiver event;
  sg_phase : StrategyPhase;
}.

(** How far [run] is: it waits for the manager's [sync_state], has returned the
    set of tasks, or an error. *)
Inductive Boot := Booting (e : Engine) | Running | Failed.

Record RunState := run_state {
  boot : Boot;
  events : channel event;
  actions : channel action;
  executor_tasks : list ExecutorTask;
  executions : list Execution;
  aggregator_tasks : list AggregatorTask;
  collector_tasks : list CollectorTask;
  strategy_tasks : gmap TaskId StrategyTask;
  strategy_objects : gmap StrategyRef strategy;
}.

Definition set_boot v s := run_state v (events s) (actions s) (executor_tasks s) (executions s)
  (aggregator_tasks s) (collector_tasks s) (strategy_tasks s) (strategy_objects s).
Definition set_events v s := run_state (boot s) v (actions s) (executor_tasks s) (executions s)
  (aggregator_tasks s) (collector_tasks s) (strategy_tasks s) (strategy_objects s).
Definition set_actions v s := run_state (boot s) (events s) v (executor_tasks s) (executions s)
  (aggregator_tasks s) (collector_tasks s) (strategy_tasks s) (strategy_objects s).
Definition set_executor_tasks v s := run_state (boot s) (events s) (actions s) v (executions s)
  (aggregator_tasks s) (collector_tasks s) (strategy_tasks s) (strategy_objects s).
Definition set_executions v s := run_state (boot s) (events s) (actions s) (executor_tasks s) v
  (aggregator_tasks s) (collector_tasks s) (strategy_tasks s) (strategy_objects s).
Definition set_aggregator_tasks v s := run_state (boot s) (events s) (actions s) (executor_tasks s)
  (executions s) v (collector_tasks s) (strategy_tasks s) (strategy_objects s).
Definition set_collector_tasks v s := run_state (boot s) (events s) (actions s) (executor_tasks s)
  (executions s) (aggregator_tasks s) v (strategy_tasks s) (strategy_objects s).
Definition set_strategy_tasks v s := run_state (boot s) (events s) (actions s) (executor_tasks s)
  (executions s) (aggregator_tasks s) (collector_tasks s) v (strategy_objects s).
Definition set_strategy_objects v s := run_state (boot s) (events s) (actions s) (executor_tasks s)
  (executions s) (aggregator_tasks s) (collector_tasks s) (strategy_tasks s) v.

(** ** [run] *)

(** The executors' tasks, each with a receiver of its own. *)
Definition spawn_executors (xs : list executor) (c : channel action)
    : list ExecutorTask * channel action :=
  let '(ps, c') := subscribe_each xs c in
  ((fun p => {| ex_executor := p.1; ex_receiver := p.2 |}) <$> ps, c').

(** Up to the call of [sync_state]; the strategies of the manager are there
    already, their tasks are spawned by the manager. *)
Definition run (self : Engine) (objects : gmap StrategyRef strategy) : RunState :=
  let '(ts, c) := spawn_executors (executors self) (broadcast_channel action (action_channel_capacity self)) in
  {| boot := Booting self;
     events := broadcast_channel event (event_channel_capacity self);
     actions := c; executor_tasks := ts; executions := []; aggregator_tasks := [];
     collector_tasks := []; strategy_tasks := ∅; strategy_objects := objects |}.

Definition spawn_aggregators (gs : list aggregator) (c : channel event)
    : list AggregatorTask * channel event :=
  let '(ps, c') := subscribe_each gs c in
  ((fun p => {| ag_aggregator := p.1; ag_receiver := p.2; ag_phase := Waiting |}) <$> ps, c').

(** What follows [self.strategy_manager.sync_state().await?] when it succeeds. *)
Definition synced (self : Engine) (s : RunState) : RunState :=
  let '(ts, c) := spawn_aggregators (aggregators self) (events s) in
  set_boot Running (set_events c (set_aggregator_tasks ts (set_collector_tasks
    ((fun c => {| co_collector := c; co_phase := Opening |}) <$> collectors self) s))).

(** When it fails, the [JoinSet] is dropped, which aborts the executors' tasks;
    what they spawned goes on. *)
Definition sync_failed (s : RunState) : RunState :=
  set_boot Failed (set_executor_tasks []
    (set_actions (foldr unsubscribe (actions s) (ex_receiver <$> executor_tasks s)) s)).

(** ** Steps *)

(** What an observer sees: [AggregatorGot] and [Processed] carry what came out. *)
Inductive label :=
| Silent
| ExecutorGot (i : nat) (a : action)
| ExecutorLagged (i : nat) (lost : nat)
| Executed (i : nat) (a : action) (r : option (result execute_error event)) (accepted : bool)
| AggregatorGot (i : nat) (e : event) (derived : option (list event))
| AggregatorLagged (i : nat) (lost : nat)
| AggregatorSent (i : nat) (e : event) (accepted : bool)
| Collected (i : nat) (e : event) (accepted : bool)
| StrategySpawned (t : TaskId) (o : StrategyRef)
| StrategyGot (t : TaskId) (e : event)
| StrategyLagged (t : TaskId) (lost : nat)
| Processed (t : TaskId) (e : event) (out : option (list action))
| StrategySent (t : TaskId) (a : action) (accepted : bool).

Definition accepted (n : option nat) : bool := match n with Some _ => true | None => false end.

Definition with_ag_phase (p : Phase event) (t : AggregatorTask) : AggregatorTask := {|
  ag_aggregator := ag_aggregator t; ag_receiver := ag_receiver t; ag_phase := p |}.

Definition with_sg_phase (p : StrategyPhase) (t : StrategyTask) : StrategyTask := {|
  sg_strategy := sg_strategy t; sg_receiver := sg_receiver t; sg_phase := p |}.

Definition with_co_phase (p : CollectorPhase) (t : CollectorTask) : CollectorTask := {|
  co_collector := co_collector t; co_phase := p |}.

Definition update_aggregator (i : nat) (t : AggregatorTask) (s : RunState) : RunState :=
  set_aggregator_tasks (<[i := t]> (aggregator_tasks s)) s.

Definition update_collector (i : nat) (t : CollectorTask) (s : RunState) : RunState :=
  set_collector_tasks (<[i := t]> (collector_tasks s)) s.

Definition update_strategy (t : TaskId) (g : StrategyTask) (s : RunState) : RunState :=
  set_strategy_tasks (<[t := g]> (strategy_tasks s)) s.

(** A task that ends drops its receiver. *)
Definition end_strategy (t : TaskId) (g : StrategyTask) (s : RunState) : RunState :=
  set_events (unsubscribe (sg_receiver g) (events s)) (update_strategy t (with_sg_phase (Serving Ended) g) s).

Definition end_aggregator (i : nat) (t : AggregatorTask) (s : RunState) : RunState :=
  set_events (unsubscribe (ag_receiver t) (events s)) (update_aggregator i (with_ag_phase Ended t) s).

Definition after {A} (l : list A) : Phase A := match l with [] => Waiting | _ => Sending l end.

(** A task is aborted where it waits: not while it sends what an event gave. *)
Definition abortable (p : StrategyPhase) : bool :=
  match p with Serving (Sending _) | Serving Ended => false | _ => true end.

Definition busy_with (p : StrategyPhase) : option event :=
  match p with Processing e => Some e | _ => None end.

Inductive step (s : RunState) : label -> RunState -> Prop :=
| step_synced self :
    boot s = Booting self -> step s Silent (synced self s)
| step_sync_failed self :
    boot s = Booting self -> step s Silent (sync_failed s)
| step_executor_got i t a c :
    executor_tasks s !! i = Some t -> recv (ex_receiver t) (actions s) = (Some (Ok a), c) ->
    step s (ExecutorGot i a) (set_actions c (set_executions
      (executions s ++ [{| xn_index := i; xn_executor := ex_executor t; xn_action := a |}]) s))
| step_executor_lagged i t lost c :
    executor_tasks s !! i = Some t ->
    recv (ex_receiver t) (actions s) = (Some (Err (Lagged lost)), c) ->
    step s (ExecutorLagged i lost) (set_actions c s)
| step_executed k x r n c :
    executions s !! k = Some x -> execute (xn_executor x) (xn_action x) r ->
    match r with
    | Some (Ok e) => send e (events s) = (n, c)
    | _ => n = None /\ c = events s
    end ->
    step s (Executed (xn_index x) (xn_action x) r (accepted n))
      (set_events c (set_executions (base.delete k (executions s)) s))
| step_aggregator_got i t e c out g' :
    aggregator_tasks s !! i = Some t -> ag_phase t = Waiting ->
    recv (ag_receiver t) (events s) = (Some (Ok e), c) -> aggregate e (ag_aggregator t) = (out, g') ->
    step s (AggregatorGot i e out)
      (let t' := {| ag_aggregator := g'; ag_receiver := ag_receiver t;
                    ag_phase := after (default [] out) |} in
       match out with
       | Some _ => update_aggregator i t' (set_events c s)
       | None => end_aggregator i t' (set_events c s)
       end)
| step_aggregator_lagged i t lost c :
    aggregator_tasks s !! i = Some t -> ag_phase t = Waiting ->
    recv (ag_receiver t) (events s) = (Some (Err (Lagged lost)), c) ->
    step s (AggregatorLagged i lost) (set_events c s)
| step_aggregator_sent i t e l n c :
    aggregator_tasks s !! i = Some t -> ag_phase t = Sending (e :: l) ->
    send e (events s) = (n, c) ->
    step s (AggregatorSent i e (accepted n))
      (update_aggregator i (with_ag_phase (after l) t) (set_events c s))
| step_collector_opened i t ok :
    collector_tasks s !! i = Some t -> co_phase t = Opening -> get_event_stream (co_collector t) ok ->
    step s Silent
      (update_collector i (with_co_phase (if ok : bool then Streaming else Closed) t) s)
| step_collected i t e n c :
    collector_tasks s !! i = Some t -> co_phase t = Streaming ->
    stream_next (co_collector t) (Some e) -> send e (events s) = (n, c) ->
    step s (Collected i e (accepted n)) (set_events c s)
| step_collector_closed i t :
    collector_tasks s !! i = Some t -> co_phase t = Streaming -> stream_next (co_collector t) None ->
    step s Silent (update_collector i (with_co_phase Closed t) s)
| step_objects os :
    (* the manager inserts strategies, and hands one the event that destroys it *)
    step s Silent (set_strategy_objects os s)
| step_spawn_strategy t o r c :
    strategy_tasks s !! t = None -> subscribe (events s) = (r, c) ->
    step s (StrategySpawned t o)
      (set_events c (update_strategy t {| sg_strategy := o; sg_receiver := r; sg_phase := Syncing |} s))
| step_abort_strategy t g os :
    strategy_tasks s !! t = Some g -> abortable (sg_phase g) = true ->
    os = strategy_objects s \/
    (exists o o', strategy_objects s !! sg_strategy g = Some o /\
       interrupted (busy_with (sg_phase g)) o o' /\ os = <[sg_strategy g := o']> (strategy_objects s)) ->
    step s Silent (end_strategy t g (set_strategy_objects os s))
| step_strategy_synced t g o ok o' :
    strategy_tasks s !! t = Some g -> sg_phase g = Syncing ->
    strategy_objects s !! sg_strategy g = Some o -> sync_state o ok o' ->
    step s Silent
      (let s1 := set_strategy_objects (<[sg_strategy g := o']> (strategy_objects s)) s in
       if ok : bool then update_strategy t (with_sg_phase (Serving Waiting) g) s1
       else end_strategy t g s1)
| step_strategy_got t g e c :
    strategy_tasks s !! t = Some g -> sg_phase g = Serving Waiting ->
    recv (sg_receiver g) (events s) = (Some (Ok e), c) ->
    step s (StrategyGot t e) (update_strategy t (with_sg_phase (Processing e) g) (set_events c s))
| step_strategy_lagged t g lost c :
    strategy_tasks s !! t = Some g -> sg_phase g = Serving Waiting ->
    recv (sg_receiver g) (events s) = (Some (Err (Lagged lost)), c) ->
    step s (StrategyLagged t lost) (end_strategy t g (set_events c s))
| step_processed t g e o out o' :
    strategy_tasks s !! t = Some g -> sg_phase g = Processing e ->
    strategy_objects s !! sg_strategy g = Some o -> process_event e o out o' ->
    step s (Processed t e out)
      (let s1 := set_strategy_objects (<[sg_strategy g := o']> (strategy_objects s)) s in
       match out with
       | Some l => update_strategy t (with_sg_phase (Serving (after l)) g) s1
       | None => end_strategy t g s1
       end)
| step_strategy_sent t g a l n c :
    strategy_tasks s !! t = Some g -> sg_phase g = Serving (Sending (a :: l)) ->
    send a (actions s) = (n, c) ->
    step s (StrategySent t a (accepted n))
      (update_strategy t (with_sg_phase (Serving (after l)) g) (set_actions c s)).

(** The runs of an engine, with their labels in order. *)
Inductive runs_to (s0 : RunState) : list label -> RunState -> Prop :=
| runs_nil : runs_to s0 [] s0
| runs_snoc tr s l s' : runs_to s0 tr s -> step s l s' -> runs_to s0 (tr ++ [l]) s'.
End Engine.
