(* ===== verification/EngineSpec.v ===== *)
(** * What the engine's channels deliver

    Every task's history against what the channels carried: executors get the
    actions in order and each once, strategies a contiguous run of the events,
    and whatever is sent or executed comes from where it should. *)

From S2P Require Import Prelude MachineInt Types Aggregators Manager Engine Float64.

#[local] Open Scope nat_scope.

Lemma sublist_full {A} (l k : list A) : l `sublist_of` k -> length k <= length l -> l = k.
Proof.
  induction 1 as [| x l k Hl IH | x l k Hl IH]; cbn; intros Hn; [done | |].
  - f_equal. apply IH. lia.
  - apply sublist_length in Hl. lia.
Qed.

(** ** A receiver and what it has seen *)

Section Follows.
Context {M : Type} `{BroadcastLaws M}.
Implicit Types (c : channel M) (r : receiver M) (got : list M).

(** From the value with number [start], [r] has got [got] and lost [lost]. *)
Definition follows c r (start : nat) got (lost : nat) : Prop :=
  position c r = Some (start + length got + lost) /\
  start + length got + lost <= length (sent c) /\
  sublist got (take (length got + lost) (drop start (sent c))).

Lemma follows_subscribe c r c' : subscribe c = (r, c') -> follows c' r (length (sent c)) [] 0.
Proof.
  intros (_ & Hp & Hs & _)%subscribe_law. unfold follows. rewrite Hp, Hs.
  repeat split; [f_equal; cbn; lia | cbn; lia | constructor].
Qed.

Lemma follows_position c c' r start got lost :
  position c' r = position c r -> sent c' = sent c ->
  follows c r start got lost -> follows c' r start got lost.
Proof. intros Hp Hs. unfold follows. by rewrite Hp, Hs. Qed.

Lemma follows_subscribe_other c r r' c' start got lost :
  subscribe c = (r', c') -> follows c r start got lost -> follows c' r start got lost.
Proof.
  intros (Hn & _ & Hs & _ & Ho)%subscribe_law Hf. eapply follows_position; [|done..].
  apply Ho. intros ->. destruct Hf as [Hf _]. congruence.
Qed.

Lemma follows_recv_other c r r' o c' start got lost :
  r <> r' -> is_Some (position c r') -> recv r' c = (o, c') ->
  follows c r start got lost -> follows c' r start got lost.
Proof.
  intros Hr [p Hp] (Hs & _ & Ho & _)%(recv_law _ _ _ _ _ Hp). apply follows_position; auto.
Qed.

Lemma follows_unsubscribe_other c r r' start got lost :
  r <> r' -> follows c r start got lost -> follows (unsubscribe r' c) r start got lost.
Proof.
  intros Hr. destruct (unsubscribe_law r' c) as (Hs & _ & _ & Ho). apply follows_position; auto.
Qed.

Lemma follows_send c r m n c' start got lost :
  send m c = (n, c') -> follows c r start got lost -> follows c' r start got lost.
Proof.
  intros (_ & Hp & _ & Hs)%send_law (H1 & H2 & H3). unfold follows. rewrite Hp, Hs.
  destruct n; [|done]. split; [done|]. rewrite length_app, drop_app_le by lia.
  rewrite take_app_le by (rewrite length_drop; lia). split; [lia | done].
Qed.

Lemma follows_got c r m c' start got lost :
  recv r c = (Some (Ok m), c') ->
  follows c r start got lost -> follows c' r start (got ++ [m]) lost.
Proof.
  intros Hr (H1 & H2 & H3). destruct (recv_law _ _ _ _ _ H1 Hr) as (Hs & _ & _ & _ & Hm & Hp).
  pose proof (lookup_lt_Some _ _ _ Hm) as Hlt. unfold follows.
  rewrite Hp, Hs, length_app. cbn [length]. split; [f_equal; lia | split; [lia|]].
  replace (length got + 1 + lost) with (S (length got + lost)) by lia.
  rewrite (take_S_r _ _ m); [by apply sublist_app|].
  rewrite lookup_drop, <- Hm. f_equal. lia.
Qed.

Lemma follows_lagged c r n c' start got lost :
  recv r c = (Some (Err (Lagged n)), c') ->
  follows c r start got lost -> follows c' r start got (lost + n).
Proof.
  intros Hr (H1 & H2 & H3). destruct (recv_law _ _ _ _ _ H1 Hr) as (Hs & _ & _ & Hk & Hn & Hp).
  unfold follows. rewrite Hp, Hs. split; [f_equal; lia | split; [lia|]].
  rewrite Nat.add_assoc, <- take_take_drop. by apply sublist_inserts_r.
Qed.

Lemma follows_sublist c r start got lost :
  follows c r start got lost -> sublist got (drop start (sent c)).
Proof.
  intros (_ & _ & Hs). rewrite <- (take_drop (length got + lost) (drop start (sent c))).
  by apply sublist_inserts_r.
Qed.

(** Without a loss, what was got is the beginning of what was sent. *)
Lemma follows_prefix c r start got :
  follows c r start got 0 -> got `prefix_of` drop start (sent c).
Proof.
  intros (_ & Hl & Hs). rewrite Nat.add_0_r in Hs.
  assert (got = take (length got) (drop start (sent c))) as ->; [|apply prefix_take].
  apply sublist_full; [done|]. rewrite length_take, length_drop. lia.
Qed.

Lemma follows_known c r start got lost : follows c r start got lost -> is_Some (position c r).
Proof. intros [-> _]. eauto. Qed.
End Follows.

(** ** What a run shows *)

Section Observations.
Context `{Parts}.

(** A task that takes events: an aggregator's or a strategy's. *)
Inductive ReaderId := AgReader (i : nat) | SgReader (t : Z).

#[global] Instance ReaderId_eq_dec : EqDecision ReaderId.
Proof. solve_decision. Defined.

Definition heard_in (id : ReaderId) (l : label) : option event :=
  match l with
  | AggregatorGot i e _ => if decide (id = AgReader i) then Some e else None
  | StrategyGot t e => if decide (id = SgReader t) then Some e else None
  | _ => None
  end.

Definition lost_in (id : ReaderId) (l : label) : nat :=
  match l with
  | AggregatorLagged i n => if decide (id = AgReader i) then n else 0
  | StrategyLagged t n => if decide (id = SgReader t) then n else 0
  | _ => 0
  end.

Definition event_in (l : label) : option event :=
  match l with
  | Executed _ _ (Some (Ok e)) true | AggregatorSent _ e true | Collected _ e true => Some e
  | _ => None
  end.

Definition action_in (l : label) : option action :=
  match l with StrategySent _ a true => Some a | _ => None end.

Definition taken_in (i : nat) (l : label) : option action :=
  match l with ExecutorGot j a => if decide (i = j) then Some a else None | _ => None end.

Definition missed_in (i : nat) (l : label) : nat :=
  match l with ExecutorLagged j n => if decide (i = j) then n else 0 | _ => 0 end.

Definition executed_in (i : nat) (l : label) : option action :=
  match l with Executed j a _ _ => if decide (i = j) then Some a else None | _ => None end.

Definition processed_in (t : Z) (l : label) : list action :=
  match l with Processed u _ (Some out) => if decide (t = u) then out else [] | _ => [] end.

Definition handed_in (t : Z) (l : label) : option action :=
  match l with StrategySent u a _ => if decide (t = u) then Some a else None | _ => None end.

(** The events a task took, the values accepted by the channels, what an
    executor took and finished, what a strategy answered and its task sent. *)
Definition heard (id : ReaderId) (tr : list label) : list event := omap (heard_in id) tr.
Definition lost (id : ReaderId) (tr : list label) : nat := sum_list_with (lost_in id) tr.
Definition events_of (tr : list label) : list event := omap event_in tr.
Definition actions_of (tr : list label) : list action := omap action_in tr.
Definition taken (i : nat) (tr : list label) : list action := omap (taken_in i) tr.
Definition missed (i : nat) (tr : list label) : nat := sum_list_with (missed_in i) tr.
Definition executed (i : nat) (tr : list label) : list action := omap (executed_in i) tr.
Definition answered (t : Z) (tr : list label) : list action := tr ≫= processed_in t.
Definition handed (t : Z) (tr : list label) : list action := omap (handed_in t) tr.
End Observations.

Lemma omap_snoc {A B} (f : A -> option B) l x :
  omap f (l ++ [x]) = omap f l ++ option_list (f x).
Proof. rewrite omap_app. cbn. by destruct (f x). Qed.

Lemma sum_list_with_snoc {A} (f : A -> nat) l x :
  sum_list_with f (l ++ [x]) = sum_list_with f l + f x.
Proof. rewrite sum_list_with_app. cbn. lia. Qed.

(** ** The event channel and its readers *)

Section Readers.
Context `{Parts} `{!Broadcast event} `{!Broadcast action}.
Context `{!BroadcastLaws event} `{!BroadcastLaws action}.

(** The receiver of a task that has not ended. *)
Definition reads (s : RunState) (id : ReaderId) : option (receiver event) :=
  match id with
  | AgReader i =>
      t ← aggregator_tasks s !! i;
      match ag_phase t with Ended => None | _ => Some (ag_receiver t) end
  | SgReader t =>
      g ← strategy_tasks s !! t;
      match sg_phase g with Serving Ended => None | _ => Some (sg_receiver g) end
  end.

(** What a step does to the event channel and its readers. *)
Inductive moves (s : RunState) (l : label) (s' : RunState) : Prop :=
| moves_none :
    events s' = events s -> (forall id, reads s' id = reads s id) ->
    (forall id, heard_in id l = None /\ lost_in id l = 0) -> event_in l = None ->
    moves s l s'
| moves_send e n :
    send e (events s) = (n, events s') -> (forall id, reads s' id = reads s id) ->
    (forall id, heard_in id l = None /\ lost_in id l = 0) ->
    event_in l = (if accepted n then Some e else None) ->
    moves s l s'
| moves_recv id r o c :
    reads s id = Some r -> recv r (events s) = (Some o, c) ->
    (forall id', id' <> id -> reads s' id' = reads s id' /\ heard_in id' l = None /\ lost_in id' l = 0) ->
    heard_in id l = result_to_option o ->
    lost_in id l = match o with Err (Lagged n) => n | _ => 0 end ->
    (events s' = c /\ reads s' id = Some r \/ events s' = unsubscribe r c /\ reads s' id = None) ->
    event_in l = None ->
    moves s l s'
| moves_drop id r :
    reads s id = Some r -> events s' = unsubscribe r (events s) -> reads s' id = None ->
    (forall id', id' <> id -> reads s' id' = reads s id') ->
    (forall id', heard_in id' l = None /\ lost_in id' l = 0) -> event_in l = None ->
    moves s l s'
| moves_subscribe id r :
    reads s id = None -> subscribe (events s) = (r, events s') -> reads s' id = Some r ->
    (forall id', id' <> id -> reads s' id' = reads s id') ->
    (forall id', heard_in id' l = None /\ lost_in id' l = 0) -> event_in l = None ->
    moves s l s'
| moves_boot self :
    boot s = Booting self -> l = Silent -> s' = synced self s -> moves s l s'.

Lemma reads_update_aggregator i t t' s :
  aggregator_tasks s !! i = Some t -> forall id,
  reads (update_aggregator i t' s) id =
  if decide (id = AgReader i) then
    match ag_phase t' with Ended => None | _ => Some (ag_receiver t') end
  else reads s id.
Proof.
  intros Ht [j|u]; cbn; [|by rewrite decide_False]. destruct (decide (j = i)) as [->|Hn].
  - rewrite decide_True by done. rewrite list_lookup_insert_eq; [done | by eapply lookup_lt_Some].
  - rewrite decide_False by congruence. by rewrite list_lookup_insert_ne.
Qed.

Lemma reads_update_strategy t g s id :
  reads (update_strategy t g s) id =
  if decide (id = SgReader t) then
    match sg_phase g with Serving Ended => None | _ => Some (sg_receiver g) end
  else reads s id.
Proof.
  destruct id as [j|u]; cbn; [done|]. destruct (decide (u = t)) as [->|Hn].
  - by rewrite decide_True, lookup_insert_eq.
  - rewrite decide_False by congruence. by rewrite lookup_insert_ne.
Qed.

Lemma reads_end_aggregator i t t' s id :
  aggregator_tasks s !! i = Some t ->
  reads (end_aggregator i t' s) id = if decide (id = AgReader i) then None else reads s id.
Proof.
  intros Ht. transitivity (reads (update_aggregator i (with_ag_phase Ended t') s) id); [by destruct id|].
  by rewrite (reads_update_aggregator _ t).
Qed.

Lemma reads_end_strategy t g s id :
  reads (end_strategy t g s) id = if decide (id = SgReader t) then None else reads s id.
Proof.
  transitivity (reads (update_strategy t (with_sg_phase (Serving Ended) g) s) id); [by destruct id|].
  by rewrite reads_update_strategy.
Qed.

Lemma reads_set_events c s id : reads (set_events c s) id = reads s id.
Proof. by destruct id. Qed.

(** The state but for the readers' tasks and the event channel. *)
Definition same_readers (s s' : RunState) : Prop :=
  events s' = events s /\ aggregator_tasks s' = aggregator_tasks s /\
  strategy_tasks s' = strategy_tasks s.

Lemma same_readers_reads s s' id : same_readers s s' -> reads s' id = reads s id.
Proof. intros (_ & Ha & Hg). destruct id; cbn; by rewrite ?Ha, ?Hg. Qed.

(** A label that shows no event. *)
Definition quiet (l : label) : Prop :=
  (forall id, heard_in id l = None /\ lost_in id l = 0) /\ event_in l = None.

(** A strategy's task that goes on, or ends. *)
Lemma moves_strategy s s1 l t g g' :
  same_readers s s1 -> quiet l -> reads s (SgReader t) = Some (sg_receiver g) ->
  sg_receiver g' = sg_receiver g -> sg_phase g' <> Serving Ended ->
  moves s l (update_strategy t g' s1).
Proof.
  intros Hs [Hq He] Hr Hg Hp. apply moves_none; [apply Hs | | done..]. intros id.
  rewrite reads_update_strategy. case_decide as Hid; [|by apply same_readers_reads].
  rewrite Hid, Hr, <- Hg. by repeat case_match.
Qed.

Lemma moves_end_strategy s s1 l t g :
  same_readers s s1 -> quiet l -> reads s (SgReader t) = Some (sg_receiver g) ->
  moves s l (end_strategy t g s1).
Proof.
  intros Hs [Hq He] Hr. apply (moves_drop _ _ _ (SgReader t) (sg_receiver g)); [done | | | |done..].
  - cbn. f_equal. apply Hs.
  - rewrite reads_end_strategy. by rewrite decide_True.
  - intros id Hid. rewrite reads_end_strategy, decide_False by done. by apply same_readers_reads.
Qed.

Lemma reads_strategy s t g :
  strategy_tasks s !! t = Some g -> sg_phase g <> Serving Ended ->
  reads s (SgReader t) = Some (sg_receiver g).
Proof. intros Ht Hp. cbn. rewrite Ht. cbn. by repeat case_match. Qed.

Lemma reads_aggregator s i t :
  aggregator_tasks s !! i = Some t -> ag_phase t <> Ended ->
  reads s (AgReader i) = Some (ag_receiver t).
Proof. intros Ht Hp. cbn. rewrite Ht. cbn. by case_match. Qed.

(** Reading the observations of one label. *)
Ltac observe := cbn; repeat case_decide; simplify_eq; auto.

Lemma step_moves s l s' : step s l s' -> moves s l s'.
Proof.
  destruct 1 as [self Hb | self Hb | i t a c Ht Hc | i t n c Ht Hc | k x r n c Hx Hr Hc
    | i t e c out g' Ht Hp Hc Hg | i t n c Ht Hp Hc | i t e es n c Ht Hp Hc | i t ok Ht Hp Hc
    | i t e n c Ht Hp Hn Hc | i t Ht Hp Hc | os | t o r c Ht Hc | t g os Ht Hp Ho
    | t g o ok o' Ht Hp Ho Hs | t g e c Ht Hp Hc | t g n c Ht Hp Hc | t g e o out o' Ht Hp Ho Hs
    | t g a es n c Ht Hp Hc].
  all: try by apply moves_none; [done | intros [?|?] | intros ? | ].
  all: try pose proof (reads_strategy s t g Ht ltac:(intros E; rewrite E in Hp; discriminate)) as Hr.
  all: try pose proof (reads_aggregator s i t Ht ltac:(congruence)) as Hr.
  - by eapply moves_boot.
  - destruct r as [[e|e]|]; [by eapply (moves_send _ _ _ e n); [|intros [?|?] | |destruct n] | |];
      destruct Hc as [-> ->]; by apply moves_none; [| intros [?|?] | |].
  - (* an aggregator takes an event *)
    eapply (moves_recv _ _ _ (AgReader i) (ag_receiver t) (Ok e) c); [done..| | | | |]; [|observe..| |done].
    + intros id Hid. destruct out; (split; [|observe]).
      * rewrite (reads_update_aggregator _ t), decide_False by done. by destruct id.
      * rewrite (reads_end_aggregator _ t), decide_False by done. by destruct id.
    + destruct out as [out|]; [left | right]; (split; [done|]).
      * rewrite (reads_update_aggregator _ t), decide_True by done. by destruct out.
      * by rewrite (reads_end_aggregator _ t), decide_True by done.
  - eapply (moves_recv _ _ _ (AgReader i) (ag_receiver t) (Err (Lagged n)) c); [done..| | | | |];
      [|observe..| |done].
    + intros id Hid. split; [by destruct id | observe].
    + by left.
  - (* an aggregator sends one *)
    eapply (moves_send _ _ _ e n); [done | | done | by destruct n].
    intros id. rewrite (reads_update_aggregator _ t) by done. case_decide as Hid; [|by destruct id].
    rewrite Hid, Hr. by destruct es.
  - by eapply (moves_send _ _ _ e n); [done | intros [?|?] | | destruct n].
  - (* a strategy's task is spawned *)
    eapply (moves_subscribe _ _ _ (SgReader t) r); [| done | | |done..].
    + cbn. by rewrite Ht.
    + by rewrite reads_set_events, reads_update_strategy, decide_True.
    + intros id Hid. by rewrite reads_set_events, reads_update_strategy, decide_False.
  - by apply moves_end_strategy.
  - destruct ok; [by eapply moves_strategy | by apply moves_end_strategy].
  - eapply (moves_recv _ _ _ (SgReader t) (sg_receiver g) (Ok e) c); [done..| | | | |]; [|observe..| |done].
    + intros id Hid. rewrite reads_update_strategy, decide_False by done. split; [by destruct id | observe].
    + left. by rewrite reads_update_strategy, decide_True.
  - eapply (moves_recv _ _ _ (SgReader t) (sg_receiver g) (Err (Lagged n)) c); [done..| | | | |];
      [|observe..| |done].
    + intros id Hid. rewrite reads_end_strategy, decide_False by done. split; [by destruct id | observe].
    + right. by rewrite reads_end_strategy, decide_True.
  - destruct out; [eapply moves_strategy | apply moves_end_strategy]; try done. by destruct l.
  - eapply moves_strategy; try done. by destruct es.
Qed.

(** ** The receivers of the running tasks *)

Lemma spawn_aggregators_spec gs c ts c' :
  spawn_aggregators gs c = (ts, c') ->
  sent c' = sent c /\
  (forall r, is_Some (position c r) -> position c' r = position c r) /\
  (forall i t, ts !! i = Some t ->
     position c (ag_receiver t) = None /\ position c' (ag_receiver t) = Some (length (sent c)) /\
     ag_phase t = Waiting) /\
  (forall i j t u, ts !! i = Some t -> ts !! j = Some u -> ag_receiver t = ag_receiver u -> i = j).
Proof.
  unfold spawn_aggregators. destruct (subscribe_each _ c) as [ps c1] eqn:E. intros [= <- <-].
  destruct (subscribe_each_spec _ _ _ _ E) as (Hs & Ho & Ht & Hi).
  split; [done|]. split; [done|]. split.
  - intros i t Hit. apply list_lookup_fmap_Some in Hit as ([x r] & -> & Hit). cbn.
    by destruct (Ht _ _ _ Hit) as (? & ? & ?).
  - intros i j t u Hit Hju. apply list_lookup_fmap_Some in Hit as ([x r] & -> & Hit).
    apply list_lookup_fmap_Some in Hju as ([y r'] & -> & Hju). cbn. intros ->. eauto.
Qed.

Record readers_ok (s : RunState) : Prop := {
  readers_known id r : reads s id = Some r -> is_Some (position (events s) r);
  readers_apart id1 id2 r : reads s id1 = Some r -> reads s id2 = Some r -> id1 = id2;
  booting_bare self : boot s = Booting self -> aggregator_tasks s = [];
}.

Lemma step_bare s l s' :
  (forall self, boot s = Booting self -> aggregator_tasks s = []) -> step s l s' ->
  forall self, boot s' = Booting self -> aggregator_tasks s' = [].
Proof.
  intros Hb [] eng Hb'; cbn in *;
    try match goal with Hl : aggregator_tasks s !! _ = Some _ |- _ =>
      rewrite (Hb eng) in Hl; [discriminate | by try destruct out] end; eauto.
  - unfold synced in Hb'. by destruct (spawn_aggregators _ _).
  - destruct ok; eauto.
  - destruct out; eauto.
Qed.

Lemma synced_spec self s :
  aggregator_tasks s = [] ->
  sent (events (synced self s)) = sent (events s) /\
  (forall r, is_Some (position (events s) r) ->
     position (events (synced self s)) r = position (events s) r) /\
  (forall t, reads (synced self s) (SgReader t) = reads s (SgReader t)) /\
  (forall i r, reads (synced self s) (AgReader i) = Some r ->
     position (events s) r = None /\
     position (events (synced self s)) r = Some (length (sent (events s)))) /\
  (forall i j r, reads (synced self s) (AgReader i) = Some r ->
     reads (synced self s) (AgReader j) = Some r -> i = j).
Proof.
  intros Ha. unfold synced. destruct (spawn_aggregators _ _) as [ts c] eqn:E.
  destruct (spawn_aggregators_spec _ _ _ _ E) as (Hs & Ho & Ht & Hi). cbn.
  split; [done|]. split; [done|]. split; [done|]. split.
  - intros i r. destruct (ts !! i) as [t|] eqn:Hti; [cbn | done].
    destruct (Ht i t Hti) as (H1 & H2 & ->). by intros [= <-].
  - intros i j r. destruct (ts !! i) as [t|] eqn:Hti; [cbn | done].
    destruct (ts !! j) as [u|] eqn:Htj; [cbn | done].
    destruct (Ht i t Hti) as (_ & _ & ->). destruct (Ht j u Htj) as (_ & _ & ->).
    intros [= Hr1] [= Hr2]. apply (Hi i j t u); congruence.
Qed.

(** How a step moves the positions of the receivers it does not use. *)
Lemma recv_others (c c' : channel event) r o r' :
  is_Some (position c r) -> recv r c = (o, c') -> r' <> r -> position c' r' = position c r'.
Proof. intros [p Hp] Hr. by destruct (recv_law _ _ _ _ _ Hp Hr) as (_ & _ & Ho & _); auto. Qed.

Lemma recv_keeps (c c' : channel event) r o :
  is_Some (position c r) -> recv r c = (o, c') -> is_Some (position c' r).
Proof.
  intros [p Hp] Hr. destruct (recv_law _ _ _ _ _ Hp Hr) as (_ & _ & _ & Hc).
  destruct o as [[m|[n]]|]; [destruct Hc as (_ & _ & ->) | destruct Hc as (_ & _ & ->)
    | destruct Hc as [_ ->]]; eauto.
Qed.

Lemma moves_readers_ok s l s' : readers_ok s -> step s l s' -> readers_ok s'.
Proof.
  intros [Hk Ha Hb] Hstep. pose proof (step_bare s l s' Hb Hstep) as Hb'.
  destruct (step_moves _ _ _ Hstep) as [He Hr _ _ | e n Hs Hr _ _ | id r o c Hid Hc Hr _ _ He _
    | id r Hid He Hn Hr _ _ | id r Hid Hs Hn Hr _ _ | self Hboot _ ->].
  - split; [| |done]; intros *; rewrite !Hr, ?He; eauto.
  - apply send_law in Hs as (_ & Hp & _). split; [| |done]; intros *; rewrite !Hr, ?Hp; eauto.
  - assert (forall id2 r2, reads s' id2 = Some r2 -> reads s id2 = Some r2) as Hold.
    { intros id2 r2 H2. destruct (decide (id2 = id)) as [->|Hne]; [|by rewrite <- (proj1 (Hr id2 Hne))].
      by destruct He as [[_ Hn]|[_ Hn]]; rewrite Hn in H2; simplify_eq. }
    pose proof (Hk id r Hid) as Hkr. split; [| |done]; [intros id2 r2 H2 | eauto].
    destruct (decide (id2 = id)) as [->|Hne].
    { destruct He as [[-> Hn]|[_ Hn]]; rewrite Hn in H2; simplify_eq. by eapply recv_keeps. }
    assert (r2 <> r) as Hr2 by (intros ->; eauto).
    pose proof (recv_others _ _ _ _ r2 Hkr Hc Hr2) as Hp.
    destruct He as [[-> _]|[-> _]];
      [|destruct (unsubscribe_law r c) as (_ & _ & _ & ->); [|done]]; rewrite Hp; eauto.
  - assert (forall id2 r2, reads s' id2 = Some r2 -> reads s id2 = Some r2 /\ id2 <> id) as Hold.
    { intros id2 r2 H2. destruct (decide (id2 = id)) as [->|Hne]; [congruence|]. by rewrite <- Hr. }
    split; [| |done].
    + intros id2 r2 [H2 Hne]%Hold. rewrite He.
      assert (r2 <> r) by (intros ->; eauto).
      destruct (unsubscribe_law r (events s)) as (_ & _ & _ & Ho). rewrite Ho by done. eauto.
    + intros id1 id2 r2 [H1 _]%Hold [H2 _]%Hold. eauto.
  - apply subscribe_law in Hs as (Hnew & Hpos & _ & _ & Ho).
    assert (forall id2 r2, reads s' id2 = Some r2 -> id2 <> id -> reads s id2 = Some r2 /\ r2 <> r) as Hold.
    { intros id2 r2 H2 Hne. rewrite (Hr id2 Hne) in H2. split; [done|]. intros ->.
      destruct (Hk _ _ H2). congruence. }
    split; [| |done].
    + intros id2 r2 H2. destruct (decide (id2 = id)) as [->|Hne]; [rewrite Hn in H2; simplify_eq; eauto|].
      destruct (Hold _ _ H2 Hne). rewrite Ho by done. eauto.
    + intros id1 id2 r2 H1 H2. destruct (decide (id1 = id)) as [->|N1], (decide (id2 = id)) as [->|N2];
        [done | | |].
      * destruct (Hold _ _ H2 N2). congruence.
      * destruct (Hold _ _ H1 N1). congruence.
      * destruct (Hold _ _ H1 N1), (Hold _ _ H2 N2). eauto.
  - destruct (synced_spec self s (Hb _ Hboot)) as (_ & Hp & Hg & Hag & Hi). split; [| |done].
    + intros [i|t] r Hr; [destruct (Hag i r Hr) as [_ ->]; eauto|].
      rewrite Hg in Hr. rewrite Hp; eauto.
    + intros [i|t] [j|u] r H1 H2; try rewrite Hg in H1; try rewrite Hg in H2; [f_equal; eauto | | |eauto].
      * destruct (Hag _ _ H1) as [Hx _]. destruct (Hk _ _ H2). congruence.
      * destruct (Hag _ _ H2) as [Hx _]. destruct (Hk _ _ H1). congruence.
Qed.

Lemma recv_sent (c c' : channel event) r o :
  is_Some (position c r) -> recv r c = (o, c') -> sent c' = sent c.
Proof. intros [p Hp] Hr. by destruct (recv_law _ _ _ _ _ Hp Hr). Qed.

(** The event channel carries what the labels show. *)
Lemma step_events s l s' :
  readers_ok s -> step s l s' -> sent (events s') = sent (events s) ++ option_list (event_in l).
Proof.
  intros [Hk Ha Hb] Hstep.
  destruct (step_moves _ _ _ Hstep) as [He _ _ -> | e n Hs _ _ -> | id r o c Hid Hc _ _ _ He ->
    | id r Hid He _ _ _ -> | id r _ Hs _ _ _ -> | self Hboot -> ->]; cbn; rewrite ?app_nil_r.
  - by rewrite He.
  - apply send_law in Hs as (_ & _ & _ & ->). by destruct n; cbn; rewrite ?app_nil_r.
  - apply recv_sent in Hc; [|eauto].
    destruct He as [[-> _]|[-> _]]; [done|]. by destruct (unsubscribe_law r c) as [-> _].
  - rewrite He. by destruct (unsubscribe_law r (events s)) as [-> _].
  - by apply subscribe_law in Hs as (_ & _ & -> & _).
  - by destruct (synced_spec self s (Hb _ Hboot)).
Qed.

(** What a task has got when it ends. *)
Definition stopped (sent : list event) start (got : list event) (lost : nat) : Prop :=
  sublist got (drop start sent) /\ start <= length sent /\
  (lost = 0 -> got `prefix_of` drop start sent).

Lemma follows_stopped (c : channel event) r start got lost :
  follows c r start got lost -> stopped (sent c) start got lost.
Proof.
  intros Hf. split; [by eapply follows_sublist|].
  split; [destruct Hf as (_ & Hl & _); lia|]. intros ->. by eapply follows_prefix.
Qed.

Lemma stopped_grows sent1 sent2 start got lost :
  stopped sent1 start got lost -> stopped (sent1 ++ sent2) start got lost.
Proof.
  intros (Hs & Hl & Hp). unfold stopped. rewrite drop_app_le by done. split; [|split].
  - by apply sublist_inserts_r.
  - rewrite length_app. lia.
  - intros ->. by apply prefix_app_r, Hp.
Qed.

Lemma step_follows s l s' id r start got lost :
  readers_ok s -> step s l s' -> reads s id = Some r -> follows (events s) r start got lost ->
  let got' := got ++ option_list (heard_in id l) in
  reads s' id = Some r /\ follows (events s') r start got' (lost + lost_in id l) \/
  reads s' id = None /\ stopped (sent (events s')) start got' lost.
Proof.
  intros Hok Hstep Hid Hf. pose proof (step_events _ _ _ Hok Hstep) as Hsent.
  pose proof Hok as [Hk Ha Hb]. cbn.
  destruct (step_moves _ _ _ Hstep) as [He Hr Hq _ | e n Hs Hr Hq _ | id1 r1 o c Hid1 Hc Hr Hh Hlo He _
    | id1 r1 Hid1 He Hn Hr Hq _ | id1 r1 Hn1 Hs Hn Hr Hq _ | self Hboot -> ->].
  1, 2, 5, 6: left.
  - destruct (Hq id) as [-> ->]. cbn. rewrite app_nil_r, Nat.add_0_r, He, Hr. done.
  - destruct (Hq id) as [-> ->]. cbn. rewrite app_nil_r, Nat.add_0_r, Hr.
    split; [done|]. by eapply follows_send.
  - destruct (Hq id) as [-> ->]. cbn. rewrite app_nil_r, Nat.add_0_r.
    rewrite Hr by congruence. split; [done|]. by eapply follows_subscribe_other.
  - cbn. rewrite app_nil_r, Nat.add_0_r. destruct (synced_spec self s (Hb _ Hboot)) as (Hse & Hp & Hg & _).
    destruct id as [i|t]; [cbn in Hid; by rewrite (Hb _ Hboot) in Hid|]. rewrite Hg.
    split; [done|]. eapply follows_position; [apply Hp; eauto using follows_known | done..].
  - destruct (decide (id = id1)) as [->|Hne].
    + assert (r1 = r) as -> by congruence. rewrite Hh, Hlo.
      assert (follows c r start (got ++ option_list (result_to_option o))
        (lost + match o with Err (Lagged n) => n | _ => 0 end)) as Hf'.
      { destruct o as [m|[n]]; cbn; rewrite ?app_nil_r, ?Nat.add_0_r.
        - by eapply follows_got.
        - by eapply follows_lagged. }
      destruct He as [[-> ->]|[He ->]]; [by left | right].
      split; [done|]. rewrite He. destruct (unsubscribe_law r c) as [-> _].
      apply recv_sent in Hc as Hsc; [|eauto]. destruct o as [m|[n]]; cbn in *.
      * rewrite Nat.add_0_r in Hf'. by eapply follows_stopped.
      * rewrite app_nil_r in *. rewrite Hsc. by eapply follows_stopped.
    + left. destruct (Hr id Hne) as (-> & -> & ->). cbn. rewrite app_nil_r, Nat.add_0_r.
      split; [done|]. assert (r <> r1) as Hr1 by (intros ->; eauto).
      assert (follows c r start got lost) as Hf' by (eapply follows_recv_other; eauto).
      destruct He as [[-> _]|[-> _]]; [done | by apply follows_unsubscribe_other].
  - destruct (Hq id) as [-> ->]. cbn. rewrite app_nil_r, Nat.add_0_r.
    destruct (decide (id = id1)) as [->|Hne]; [right | left].
    + split; [done|]. assert (r1 = r) as -> by congruence. rewrite He.
      destruct (unsubscribe_law r (events s)) as [-> _]. by eapply follows_stopped.
    + rewrite Hr by done. split; [done|]. rewrite He. apply follows_unsubscribe_other; [|done].
      intros ->; eauto.
Qed.

(** ** Strategies *)

Lemma runs_readers_ok s tr s' : readers_ok s -> runs_to s tr s' -> readers_ok s'.
Proof. intros Hok. induction 1; eauto using moves_readers_ok. Qed.

Lemma runs_events s tr s' :
  readers_ok s -> runs_to s tr s' -> sent (events s') = sent (events s) ++ events_of tr.
Proof.
  intros Hok. induction 1 as [|tr s1 l s2 Hr IH Hs]; [by rewrite app_nil_r|].
  rewrite (step_events s1 l s2) by eauto using runs_readers_ok.
  unfold events_of. by rewrite IH, omap_snoc, (assoc_L (++)).
Qed.

Lemma run_spec self os :
  boot (run self os) = Booting self /\ events (run self os) = broadcast_channel event (event_channel_capacity self) /\
  executions (run self os) = [] /\ aggregator_tasks (run self os) = [] /\
  collector_tasks (run self os) = [] /\ strategy_tasks (run self os) = ∅ /\
  (executor_tasks (run self os), actions (run self os)) =
    spawn_executors (executors self) (broadcast_channel action (action_channel_capacity self)).
Proof. unfold run. destruct (spawn_executors _ _). by repeat split. Qed.

Lemma run_readers_ok self os : readers_ok (run self os).
Proof.
  destruct (run_spec self os) as (_ & _ & _ & Ha & _ & Hg & _).
  assert (forall id, reads (run self os) id = None) as Hn by (intros [i|t]; cbn; by rewrite ?Ha, ?Hg).
  split; [intros id r Hr | intros id id' r Hr | done]; by rewrite Hn in Hr.
Qed.

Definition gone (s : RunState) (t : Z) : Prop :=
  exists g, strategy_tasks s !! t = Some g /\ sg_phase g = Serving Ended.

(** A strategy's task is never forgotten; one that has ended stays so. *)
Lemma step_strategy_tasks s l s' t g :
  strategy_tasks s !! t = Some g -> step s l s' ->
  exists g', strategy_tasks s' !! t = Some g' /\
    (sg_phase g = Serving Ended -> g' = g /\ heard_in (SgReader t) l = None).
Proof.
  intros Ht []; cbn in *; unfold synced, end_aggregator, end_strategy in *; repeat case_match; cbn; eauto.
  all: try match goal with |- exists g', <[?u := _]> _ !! _ = _ /\ _ =>
    destruct (decide (t = u)) as [->|Hne];
      [rewrite lookup_insert_eq | rewrite lookup_insert_ne by done]; simplify_eq;
      eexists; (split; [eassumption || done|]); intros Hend; try (split; [done|]); try done;
      first [congruence | match goal with Ha : abortable _ = true |- _ => rewrite Hend in Ha end; done] end.
  all: exfalso; congruence.
Qed.

Lemma gone_step s l s' t : gone s t -> step s l s' -> gone s' t /\ heard_in (SgReader t) l = None.
Proof.
  intros (g & Ht & Hg) Hs. destruct (step_strategy_tasks _ _ _ _ _ Ht Hs) as (g' & Ht' & Hend).
  destruct (Hend Hg) as [-> Hl]. split; [by exists g | done].
Qed.

(** Before it is spawned a task hears nothing. *)
Lemma step_unspawned s l s' t :
  strategy_tasks s' !! t = None -> step s l s' ->
  strategy_tasks s !! t = None /\ heard_in (SgReader t) l = None.
Proof.
  intros Ht Hs. destruct (strategy_tasks s !! t) as [g|] eqn:E.
  { destruct (step_strategy_tasks _ _ _ _ _ E Hs) as (g' & Hg' & _). congruence. }
  split; [done|]. destruct (step_moves _ _ _ Hs) as [_ _ Hq _ | e n _ _ Hq _ | id r o c Hid _ Hr _ _ _ _
    | id r _ _ _ _ Hq _ | id r _ _ _ _ Hq _ | self _ -> _]; try by destruct (Hq (SgReader t)).
  2: done.
  destruct (decide (SgReader t = id)) as [<-|Hne]; [cbn in Hid; by rewrite E in Hid|].
  by destruct (Hr _ Hne) as (_ & -> & _).
Qed.

Lemma runs_unspawned s tr s' t :
  runs_to s tr s' -> strategy_tasks s' !! t = None -> heard (SgReader t) tr = [].
Proof.
  induction 1 as [|tr s1 l s2 Hr IH Hs]; intros Ht; [done|].
  destruct (step_unspawned _ _ _ _ Ht Hs) as [Ht1 Hl].
  unfold heard. rewrite omap_snoc, Hl, app_nil_r. by apply IH.
Qed.

(** A strategy's task that has got [got] since it was spawned. *)
Definition listening (start : nat) (got : list event) (t : Z) (s : RunState) : Prop :=
  (exists r, reads s (SgReader t) = Some r /\ follows (events s) r start got 0) \/
  gone s t /\ stopped (sent (events s)) start got 0.

Lemma lag_ends s l s' t :
  step s l s' -> 0 < lost_in (SgReader t) l -> reads s' (SgReader t) = None.
Proof.
  intros [] Hl; cbn in Hl; try lia; case_decide; simplify_eq; try lia.
  cbn. by rewrite lookup_insert_eq.
Qed.

Lemma reads_none_gone s t g : strategy_tasks s !! t = Some g -> reads s (SgReader t) = None -> gone s t.
Proof. intros Ht Hn. exists g. cbn in Hn. rewrite Ht in Hn. cbn in Hn. by repeat case_match. Qed.

Lemma step_listening s l s' t start got :
  readers_ok s -> step s l s' -> listening start got t s ->
  listening start (got ++ option_list (heard_in (SgReader t) l)) t s'.
Proof.
  intros Hok Hs [(r & Hr & Hf) | [Hg Hst]].
  - destruct (strategy_tasks s !! t) as [g|] eqn:Ht; [|cbn in Hr; by rewrite Ht in Hr].
    destruct (step_strategy_tasks _ _ _ _ _ Ht Hs) as (g' & Ht' & _).
    destruct (step_follows _ _ _ _ _ _ _ _ Hok Hs Hr Hf) as [[Hr' Hf'] | [Hn Hst]]; [left | right].
    + exists r. split; [done|]. destruct (lost_in (SgReader t) l) eqn:El; [done|].
      rewrite (lag_ends s l s' t) in Hr'; [done | done | lia].
    + split; [by eapply reads_none_gone | done].
  - right. destruct (gone_step _ _ _ _ Hg Hs) as [Hg' ->]. cbn. rewrite app_nil_r.
    split; [done|]. rewrite (step_events s l s') by done. by apply stopped_grows.
Qed.

Lemma runs_listening s tr s' t start got :
  readers_ok s -> runs_to s tr s' -> listening start got t s ->
  listening start (got ++ heard (SgReader t) tr) t s'.
Proof.
  intros Hok Hr Hl. induction Hr as [|tr s1 l s2 Hr IH Hs]; [by rewrite app_nil_r|].
  unfold heard. rewrite omap_snoc, (assoc_L (++)).
  apply (step_listening s1); [by eapply runs_readers_ok | done | exact IH].
Qed.

Lemma spawned_listening s t o s' :
  step s (StrategySpawned t o) s' -> strategy_tasks s !! t = None /\ listening (length (sent (events s))) [] t s'.
Proof.
  inversion 1 as [| | | | | | | | | | | |t' o' r c Ht Hc | | | | | |]; subst. split; [done|]. left. exists r.
  rewrite reads_set_events, reads_update_strategy, decide_True by done. split; [done|].
  by apply follows_subscribe.
Qed.

Lemma runs_app_inv s tr1 tr2 s' :
  runs_to s (tr1 ++ tr2) s' -> exists s1, runs_to s tr1 s1 /\ runs_to s1 tr2 s'.
Proof.
  revert s'. induction tr2 as [|l tr2 IH] using rev_ind; intros s'.
  - rewrite app_nil_r. intros Hr. exists s'. split; [done | constructor].
  - rewrite (assoc_L (++)). inversion 1 as [Heq|tr s1 l' s2 Hr Hs Heq]; [by destruct (tr1 ++ tr2)|].
    apply app_inj_tail in Heq as [-> ->]. destruct (IH _ Hr) as (s3 & Hr1 & Hr2).
    exists s3. split; [done|]. by eapply runs_snoc.
Qed.

Lemma runs_one s l s' : runs_to s [l] s' -> step s l s'.
Proof.
  inversion 1 as [|tr s1 l' s2 Hr Hs Heq]. apply (app_inj_tail _ []) in Heq as [-> ->].
  by inversion Hr as [|? ? ? ? ? ? Hn]; subst; [|by destruct tr].
Qed.

Lemma gone_runs s tr s' t : runs_to s tr s' -> gone s t -> gone s' t /\ heard (SgReader t) tr = [].
Proof.
  induction 1 as [|tr s1 l s2 Hr IH Hs]; intros Hg; [done|].
  destruct (IH Hg) as [Hg1 Hn]. destruct (gone_step _ _ _ _ Hg1 Hs) as [Hg2 Hl].
  split; [done|]. unfold heard in *. by rewrite omap_snoc, Hn, Hl.
Qed.

Lemma lagged_gone s t n s' : step s (StrategyLagged t n) s' -> gone s' t.
Proof. inversion 1; subst. eexists. cbn. by rewrite lookup_insert_eq. Qed.

(** ** Executors *)

Definition pending_in (i : nat) (x : Execution) : option action :=
  if decide (i = xn_index x) then Some (xn_action x) else None.

(** What the tasks an executor's loop spawned are still executing. *)
Definition pending (i : nat) (s : RunState) : list action := omap (pending_in i) (executions s).

Record executors_ok (tr : list label) (s : RunState) : Prop := {
  eo_sent : sent (actions s) = actions_of tr;
  eo_follow i t : executor_tasks s !! i = Some t ->
    follows (actions s) (ex_receiver t) 0 (taken i tr) (missed i tr);
  eo_apart i j t u : executor_tasks s !! i = Some t -> executor_tasks s !! j = Some u ->
    ex_receiver t = ex_receiver u -> i = j;
  eo_taken i : sublist (taken i tr) (actions_of tr);
  eo_prefix i : missed i tr = 0 -> taken i tr `prefix_of` actions_of tr;
  eo_done i : taken i tr ≡ₚ executed i tr ++ pending i s;
}.

(** A step that leaves the actions and their executors alone. *)
Definition idle_for_executors (s : RunState) (l : label) (s' : RunState) : Prop :=
  sent (actions s') = sent (actions s) /\ executions s' = executions s /\
  (actions s' = actions s /\ executor_tasks s' = executor_tasks s \/ executor_tasks s' = []) /\
  action_in l = None /\
  forall i, taken_in i l = None /\ missed_in i l = 0 /\ executed_in i l = None.

Lemma taken_snoc i tr l : taken i (tr ++ [l]) = taken i tr ++ option_list (taken_in i l).
Proof. apply omap_snoc. Qed.
Lemma executed_snoc i tr l : executed i (tr ++ [l]) = executed i tr ++ option_list (executed_in i l).
Proof. apply omap_snoc. Qed.
Lemma actions_of_snoc tr l : actions_of (tr ++ [l]) = actions_of tr ++ option_list (action_in l).
Proof. apply omap_snoc. Qed.
Lemma missed_snoc i tr l : missed i (tr ++ [l]) = missed i tr + missed_in i l.
Proof. apply sum_list_with_snoc. Qed.

Lemma idle_executors_ok tr s l s' :
  idle_for_executors s l s' -> executors_ok tr s -> executors_ok (tr ++ [l]) s'.
Proof.
  intros (Ha & Hx & Ht & Hl & Hi) [O1 O2 O3 O4 O5 O6]. split.
  - rewrite actions_of_snoc, Hl, Ha. by rewrite app_nil_r.
  - intros i t Hit. rewrite taken_snoc, missed_snoc. destruct (Hi i) as (-> & -> & _).
    rewrite app_nil_r, Nat.add_0_r. destruct Ht as [[-> Ht]|Ht]; rewrite Ht in Hit; [eauto | done].
  - intros i j t u. destruct Ht as [[_ ->] | ->]; [apply O3 | done].
  - intros i. rewrite taken_snoc, actions_of_snoc, Hl. destruct (Hi i) as (-> & _ & _).
    by rewrite !app_nil_r.
  - intros i. rewrite missed_snoc, taken_snoc, actions_of_snoc, Hl. destruct (Hi i) as (-> & -> & _).
    rewrite !app_nil_r, Nat.add_0_r. apply O5.
  - intros i. rewrite taken_snoc, executed_snoc. destruct (Hi i) as (-> & _ & ->).
    rewrite !app_nil_r. unfold pending. by rewrite Hx.
Qed.


Lemma unsubscribe_all_sent (rs : list (receiver action)) c : sent (foldr unsubscribe c rs) = sent c.
Proof.
  induction rs as [|r rs IH]; [done|]. cbn. by destruct (unsubscribe_law r (foldr unsubscribe c rs)) as [-> _].
Qed.

(** An executor's loop takes from its own receiver. *)
Lemma recv_executors_ok tr s i t o c l s' :
  executors_ok tr s -> executor_tasks s !! i = Some t ->
  recv (ex_receiver t) (actions s) = (Some o, c) -> actions s' = c ->
  executor_tasks s' = executor_tasks s -> action_in l = None ->
  (forall j, taken_in j l = (if decide (j = i) then result_to_option o else None) /\
     missed_in j l = (if decide (j = i) then match o with Err (Lagged n) => n | _ => 0 end else 0)) ->
  (forall j, option_list (taken_in j l) ++ executed j tr ++ pending j s ≡ₚ
     executed j (tr ++ [l]) ++ pending j s') ->
  executors_ok (tr ++ [l]) s'.
Proof.
  intros [O1 O2 O3 O4 O5 O6] Ht Hc Ha Hx Hl Hi Hp.
  assert (is_Some (position (actions s) (ex_receiver t))) as [p Hk] by (eapply follows_known; eauto).
  destruct (recv_law _ _ _ _ _ Hk Hc) as (Hs & _).
  assert (forall j u, executor_tasks s !! j = Some u ->
    follows c (ex_receiver u) 0 (taken j (tr ++ [l])) (missed j (tr ++ [l]))) as Hf.
  { intros j u Hj. rewrite taken_snoc, missed_snoc. destruct (Hi j) as [-> ->].
    case_decide as Hji; [subst j|].
    - assert (u = t) as -> by congruence. destruct o as [a|[n]]; cbn; rewrite ?app_nil_r, ?Nat.add_0_r.
      + eapply follows_got; eauto.
      + eapply follows_lagged; eauto.
    - cbn. rewrite app_nil_r, Nat.add_0_r. eapply follows_recv_other; [|by exists p|exact Hc|by apply O2].
      intros He. by apply Hji, (O3 j i u t). }
  assert (forall j, taken_in j l = None -> missed_in j l = 0 ->
    taken j (tr ++ [l]) = taken j tr /\ missed j (tr ++ [l]) = missed j tr) as Hsame.
  { intros j H1 H2. by rewrite taken_snoc, missed_snoc, H1, H2, app_nil_r, Nat.add_0_r. }
  assert (actions_of (tr ++ [l]) = actions_of tr) as Hao by by rewrite actions_of_snoc, Hl, app_nil_r.
  rewrite O1 in Hs. split; rewrite ?Hao, ?Ha, ?Hx; try done.
  - intros j. destruct (decide (j = i)) as [->|Hj].
    + rewrite <- Hs. exact (follows_sublist _ _ 0 _ _ (Hf _ _ Ht)).
    + destruct (Hi j) as [E1 E2]. rewrite decide_False in E1 by done; rewrite decide_False in E2 by done.
      by destruct (Hsame j E1 E2) as [-> _].
  - intros j Hm. destruct (decide (j = i)) as [->|Hj].
    + rewrite <- Hs. specialize (Hf _ _ Ht). rewrite Hm in Hf. exact (follows_prefix _ _ 0 _ Hf).
    + destruct (Hi j) as [E1 E2]. rewrite decide_False in E1 by done; rewrite decide_False in E2 by done.
      destruct (Hsame j E1 E2) as [E3 E4]. rewrite E3, E4 in *. auto.
  - intros j. rewrite taken_snoc, (O6 j), <- Hp. by rewrite (comm (++)).
Qed.

(** A strategy's action goes on the channel. *)
Lemma send_executors_ok tr s t a n c l s' :
  executors_ok tr s -> send a (actions s) = (n, c) -> actions s' = c ->
  executor_tasks s' = executor_tasks s -> executions s' = executions s ->
  l = StrategySent t a (accepted n) -> executors_ok (tr ++ [l]) s'.
Proof.
  intros [O1 O2 O3 O4 O5 O6] Hc <- Hx He ->. pose proof (send_law _ _ _ _ Hc) as (_ & _ & _ & Hs).
  assert (sent (actions s') = actions_of tr ++ option_list (if accepted n then Some a else None)) as Hs'.
  { rewrite Hs, O1. destruct n; cbn; by rewrite ?app_nil_r. }
  assert (forall i, taken i (tr ++ [StrategySent t a (accepted n)]) = taken i tr) as Htk
    by (intros i; by rewrite taken_snoc, app_nil_r).
  assert (forall i, missed i (tr ++ [StrategySent t a (accepted n)]) = missed i tr) as Hms
    by (intros i; by rewrite missed_snoc, Nat.add_0_r).
  assert (actions_of (tr ++ [StrategySent t a (accepted n)]) = sent (actions s')) as Hao
    by (rewrite actions_of_snoc, Hs'; by destruct n).
  split.
  - done.
  - intros i u. rewrite Hx, Htk, Hms. intros Hu. eapply follows_send; eauto.
  - intros i j u v. rewrite Hx. apply O3.
  - intros i. rewrite Htk, Hao, Hs'. apply sublist_inserts_r, O4.
  - intros i. rewrite Hms, Htk, Hao, Hs'. intros Hm. by apply prefix_app_r, O5.
  - intros i. rewrite Htk, executed_snoc, app_nil_r, O6. unfold pending. by rewrite He.
Qed.

(** A task that was spawned for an action is done with it. *)
Lemma executed_executors_ok tr s k x r b s' :
  executors_ok tr s -> executions s !! k = Some x -> executions s' = base.delete k (executions s) ->
  actions s' = actions s -> executor_tasks s' = executor_tasks s ->
  executors_ok (tr ++ [Executed (xn_index x) (xn_action x) r b]) s'.
Proof.
  intros [O1 O2 O3 O4 O5 O6] Hx Hd Ha Ht.
  assert (actions_of (tr ++ [Executed (xn_index x) (xn_action x) r b]) = actions_of tr) as Hao.
  { rewrite actions_of_snoc. by apply app_nil_r. }
  assert (forall i, taken i (tr ++ [Executed (xn_index x) (xn_action x) r b]) = taken i tr) as Htk.
  { intros i. rewrite taken_snoc. by apply app_nil_r. }
  assert (forall i, missed i (tr ++ [Executed (xn_index x) (xn_action x) r b]) = missed i tr) as Hms.
  { intros i. rewrite missed_snoc. by apply Nat.add_0_r. }
  split.
  - by rewrite Ha, Hao.
  - intros i t. rewrite Ht, Ha, Htk, Hms. apply O2.
  - intros i j t u. rewrite Ht. apply O3.
  - intros i. by rewrite Htk, Hao.
  - intros i. rewrite Hms, Htk, Hao. apply O5.
  - intros i. rewrite Htk, O6, executed_snoc. unfold pending. rewrite Hd.
    rewrite <- (assoc_L (++)). f_equiv. rewrite (delete_Permutation (executions s) k x Hx) at 1.
    cbn. unfold pending_in at 1. case_decide as Hi; by rewrite ?Hi.
Qed.

Lemma step_executors_ok tr s l s' :
  executors_ok tr s -> step s l s' -> executors_ok (tr ++ [l]) s'.
Proof.
  intros Hok Hs.
  destruct Hs as [self Hb | self Hb | i t a c Ht Hc | i t n c Ht Hc | k x r n c Hx Hr Hc
    | i t e c out g' Ht Hp Hc Hg | i t n c Ht Hp Hc | i t e es n c Ht Hp Hc | i t ok Ht Hp Hc
    | i t e n c Ht Hp Hn Hc | i t Ht Hp Hc | os | t o r c Ht Hc | t g os Ht Hp Ho
    | t g o ok o' Ht Hp Ho Hs | t g e c Ht Hp Hc | t g n c Ht Hp Hc | t g e o out o' Ht Hp Ho Hs
    | t g a es n c Ht Hp Hc].
  all: try by apply (idle_executors_ok _ s); [split; [done|]; split; [done|]; split; [left|]|].
  - apply (idle_executors_ok _ s); [|done]. unfold synced. destruct (spawn_aggregators _ _).
    by repeat split; left.
  - apply (idle_executors_ok _ s); [|done]. split; [apply unsubscribe_all_sent|].
    by repeat split; right.
  - apply (recv_executors_ok tr s i t (Ok a) c); try done; intros j; cbn.
    + by case_decide.
    + rewrite executed_snoc. cbn. rewrite app_nil_r. unfold pending. cbn. rewrite omap_snoc.
      unfold pending_in at 3. cbn. case_decide; cbn; rewrite ?app_nil_r; [|done].
      rewrite (assoc_L (++)). by rewrite <- Permutation_cons_append.
  - apply (recv_executors_ok tr s i t (Err (Lagged n)) c); try done; intros j; cbn.
    + by case_decide.
    + rewrite executed_snoc. cbn. by rewrite app_nil_r.
  - by eapply executed_executors_ok.
  - apply (idle_executors_ok _ s); [|done]. destruct out; by repeat split; left.
  - apply (idle_executors_ok _ s); [|done]. destruct ok; by repeat split; left.
  - apply (idle_executors_ok _ s); [|done]. destruct out; by repeat split; left.
  - by eapply send_executors_ok.
Qed.

Lemma spawn_executors_spec xs c ts c' :
  spawn_executors xs c = (ts, c') ->
  sent c' = sent c /\
  (forall r, is_Some (position c r) -> position c' r = position c r) /\
  (forall i t, ts !! i = Some t ->
     position c (ex_receiver t) = None /\ position c' (ex_receiver t) = Some (length (sent c)) /\
     xs !! i = Some (ex_executor t)) /\
  (forall i j t u, ts !! i = Some t -> ts !! j = Some u -> ex_receiver t = ex_receiver u -> i = j).
Proof.
  unfold spawn_executors. destruct (subscribe_each _ c) as [ps c1] eqn:E. intros [= <- <-].
  destruct (subscribe_each_spec _ _ _ _ E) as (Hs & Ho & Ht & Hi).
  split; [done|]. split; [done|]. split.
  - intros i t Hit. apply list_lookup_fmap_Some in Hit as ([x r] & -> & Hit). cbn.
    by destruct (Ht _ _ _ Hit) as (? & ? & ?).
  - intros i j t u Hit Hju. apply list_lookup_fmap_Some in Hit as ([x r] & -> & Hit).
    apply list_lookup_fmap_Some in Hju as ([y r'] & -> & Hju). cbn. intros ->. eauto.
Qed.

Lemma run_executors_ok self os : executors_ok [] (run self os).
Proof.
  destruct (run_spec self os) as (_ & _ & Hx & _ & _ & _ & Ht). symmetry in Ht.
  destruct (broadcast_channel_law (M := action) (action_channel_capacity self)) as (Hs & _).
  destruct (spawn_executors_spec _ _ _ _ Ht) as (Hs' & _ & Ht' & Hi). rewrite Hs in Hs', Ht'.
  split; try done.
  - intros i t Hit. destruct (Ht' i t Hit) as (_ & Hp & _). unfold follows. rewrite Hp, Hs'.
    by repeat split.
  - intros i. unfold pending. by rewrite Hx.
Qed.

Lemma runs_executors_ok self os tr s : runs_to (run self os) tr s -> executors_ok tr s.
Proof. induction 1; eauto using step_executors_ok, run_executors_ok. Qed.
End Readers.

(** * What the engine guarantees

    Delivery of events to strategies and of actions to executors, where an
    executed action comes from, and that the indicators' own events feed
    nothing. *)

#[local] Open Scope nat_scope.

Section Provenance.
Context `{Parts} `{!Broadcast event} `{!Broadcast action}.
Context `{!BroadcastLaws event} `{!BroadcastLaws action}.

(** The actions a strategy's task has still to send. *)
Definition unsent (s : RunState) (t : Z) : list action :=
  match strategy_tasks s !! t with
  | Some g => match sg_phase g with Serving (Sending l) => l | _ => [] end
  | None => []
  end.

(** Where actions come from: an answered event was heard, what was answered is
    sent or waits to be. *)
Record traced (tr : list label) (s : RunState) : Prop := {
  tr_busy t g e : strategy_tasks s !! t = Some g -> sg_phase g = Processing e -> e ∈ heard (SgReader t) tr;
  tr_processed t e out : Processed t e out ∈ tr -> e ∈ heard (SgReader t) tr;
  tr_answers t : answered t tr = handed t tr ++ unsent s t;
}.

Lemma heard_snoc id tr l : heard id (tr ++ [l]) = heard id tr ++ option_list (heard_in id l).
Proof. apply omap_snoc. Qed.
Lemma handed_snoc t tr l : handed t (tr ++ [l]) = handed t tr ++ option_list (handed_in t l).
Proof. apply omap_snoc. Qed.
Lemma answered_snoc t tr l : answered t (tr ++ [l]) = answered t tr ++ processed_in t l.
Proof. unfold answered. rewrite bind_app. cbn. by rewrite app_nil_r. Qed.

(** A step in which no strategy's task takes, answers or sends. *)
Lemma silent_traced tr s l s' :
  (forall t, unsent s' t = unsent s t) ->
  (forall t g' e, strategy_tasks s' !! t = Some g' -> sg_phase g' = Processing e ->
     exists g, strategy_tasks s !! t = Some g /\ sg_phase g = Processing e) ->
  (forall t, handed_in t l = None /\ processed_in t l = []) ->
  (forall t e out, l <> Processed t e out) ->
  traced tr s -> traced (tr ++ [l]) s'.
Proof.
  intros Hu Hb Hl Hp [T1 T2 T3]. split.
  - intros t g' e Hg He. rewrite heard_snoc. destruct (Hb _ _ _ Hg He) as (g & Hg' & He').
    apply elem_of_app. left. eauto.
  - intros t e out. rewrite elem_of_app, list_elem_of_singleton, heard_snoc. intros [Hin|Hl']; [|by destruct (Hp t e out)].
    apply elem_of_app. left. eauto.
  - intros t. rewrite answered_snoc, handed_snoc, T3, Hu. destruct (Hl t) as [-> ->].
    cbn. by rewrite !app_nil_r.
Qed.

Lemma unsent_update t g s u :
  unsent (update_strategy t g s) u =
  if decide (u = t) then match sg_phase g with Serving (Sending l) => l | _ => [] end else unsent s u.
Proof.
  unfold unsent. cbn. case_decide as Hu; [by rewrite Hu, lookup_insert_eq|].
  by rewrite lookup_insert_ne.
Qed.

(** A step of one strategy's task, which then is in [phase]. *)
Lemma task_traced tr s l s' t g p :
  strategy_tasks s !! t = Some g ->
  strategy_tasks s' = <[t := with_sg_phase p g]> (strategy_tasks s) ->
  (forall u, u <> t -> handed_in u l = None /\ processed_in u l = []) ->
  (forall e, p = Processing e -> heard_in (SgReader t) l = Some e) ->
  (forall u e out, l = Processed u e out -> sg_phase g = Processing e /\ u = t) ->
  unsent s t ++ processed_in t l =
    option_list (handed_in t l) ++ match p with Serving (Sending l') => l' | _ => [] end ->
  traced tr s -> traced (tr ++ [l]) s'.
Proof.
  intros Ht Hs Ho Hb Hp Hu [T1 T2 T3]. split.
  - intros u g' e. rewrite Hs, heard_snoc. destruct (decide (u = t)) as [->|Hne].
    + rewrite lookup_insert_eq. intros [= <-]. cbn. intros ->. rewrite (Hb e eq_refl).
      apply elem_of_app. right. by apply list_elem_of_singleton.
    + rewrite lookup_insert_ne by done. intros Hg He. apply elem_of_app. left. eauto.
  - intros u e out. rewrite elem_of_app, list_elem_of_singleton, heard_snoc. intros [Hin|Hl].
    + apply elem_of_app. left. eauto.
    + destruct (Hp u e out (eq_sym Hl)) as [He ->]. apply elem_of_app. left. eauto.
  - intros u. rewrite answered_snoc, handed_snoc, T3. unfold unsent at 2. rewrite Hs.
    destruct (decide (u = t)) as [->|Hne].
    + rewrite lookup_insert_eq. cbn. by rewrite <- !(assoc_L (++)), Hu.
    + rewrite lookup_insert_ne by done. destruct (Ho u Hne) as [-> ->]. cbn. by rewrite !app_nil_r.
Qed.

(** A step of a task of another kind. *)
Lemma other_traced tr s l s' :
  strategy_tasks s' = strategy_tasks s ->
  (forall t, handed_in t l = None /\ processed_in t l = []) -> (forall t e out, l <> Processed t e out) ->
  traced tr s -> traced (tr ++ [l]) s'.
Proof.
  intros Hs Hl Hp. apply silent_traced; [|intros t g' e; rewrite Hs; eauto | done..].
  intros t. unfold unsent. by rewrite Hs.
Qed.

Lemma step_traced tr s l s' : traced tr s -> step s l s' -> traced (tr ++ [l]) s'.
Proof.
  intros Htr Hs.
  destruct Hs as [self Hb | self Hb | i t a c Ht Hc | i t n c Ht Hc | k x r n c Hx Hr Hc
    | i t e c out g' Ht Hp Hc Hg | i t n c Ht Hp Hc | i t e es n c Ht Hp Hc | i t ok Ht Hp Hc
    | i t e n c Ht Hp Hn Hc | i t Ht Hp Hc | os | t o r c Ht Hc | t g os Ht Hp Ho
    | t g o ok o' Ht Hp Ho Hs | t g e c Ht Hp Hc | t g n c Ht Hp Hc | t g e o out o' Ht Hp Ho Hs
    | t g a es n c Ht Hp Hc].
  all: try by apply (other_traced _ s).

  - apply (other_traced _ s); [|done..]. unfold synced. by destruct (spawn_aggregators _ _).
  - apply (other_traced _ s); [|done..]. by destruct out.
  - apply (silent_traced _ s); [| |done..].
    + intros u. transitivity (unsent (update_strategy t {| sg_strategy := o; sg_receiver := r; sg_phase := Syncing |} s) u);
        [done|]. rewrite unsent_update. case_decide as Hut; [|done]. unfold unsent. by rewrite Hut, Ht.
    + intros u g' e. cbn. destruct (decide (u = t)) as [->|Hne]; [rewrite lookup_insert_eq; by intros [= <-]|].
      rewrite lookup_insert_ne by done. eauto.
  - (* aborted *)
    apply (task_traced _ s _ _ t g (Serving Ended)); try done. cbn. rewrite app_nil_r. unfold unsent.
    rewrite Ht. by destruct (sg_phase g) as [|?|[]].
  - apply (task_traced _ s _ _ t g (Serving (if ok then Waiting else Ended))); try done.
    1: by destruct ok. cbn. unfold unsent. rewrite Ht, Hp. by destruct ok.
  - apply (task_traced _ s _ _ t g (Processing e)); try done.
    + intros e' [= ->]. cbn. by rewrite decide_True.
    + cbn. unfold unsent. by rewrite Ht, Hp.
  - apply (task_traced _ s _ _ t g (Serving Ended)); try done. cbn. unfold unsent. by rewrite Ht, Hp.
  - apply (task_traced _ s _ _ t g (Serving (match out with Some l => after l | None => Ended end))); try done.
    + by destruct out.
    + intros u Hne. split; [done|]. cbn. destruct out; [by rewrite decide_False | done].
    + intros u e' out' [= -> -> ->]. done.
    + cbn. unfold unsent. rewrite Ht, Hp. destruct out as [[|b l]|]; cbn; by rewrite ?decide_True.
  - apply (task_traced _ s _ _ t g (Serving (after es))); try done.
    + intros u Hne. cbn. by rewrite decide_False.
    + cbn. unfold unsent. rewrite Ht, Hp, decide_True by done. cbn. rewrite app_nil_r. by destruct es.
Qed.

Lemma run_traced self os : traced [] (run self os).
Proof.
  destruct (run_spec self os) as (_ & _ & _ & _ & _ & Hg & _). split.
  - intros t g e. by rewrite Hg.
  - intros t e out Hin. by apply not_elem_of_nil in Hin.
  - intros t. unfold unsent. by rewrite Hg.
Qed.

Lemma runs_traced self os tr s : runs_to (run self os) tr s -> traced tr s.
Proof. induction 1; eauto using step_traced, run_traced. Qed.

(** A task hears only what the channel carried. *)
Lemma heard_sent self os tr s id e : runs_to (run self os) tr s -> e ∈ heard id tr -> e ∈ events_of tr.
Proof using Type*.
  intros Hr. pose proof (run_readers_ok self os) as Hok.
  induction Hr as [|tr s1 l s2 Hr IH Hs]; intros Hin; [by apply not_elem_of_nil in Hin|].
  unfold heard, events_of in *. rewrite omap_snoc, elem_of_app in *.
  destruct Hin as [Hin|Hin]; [by left; apply IH|].
  destruct (heard_in id l) as [e0|] eqn:Hin'; [|by apply not_elem_of_nil in Hin].
  apply list_elem_of_singleton in Hin as <-. rename Hin' into Hin. pose proof (runs_readers_ok _ _ _ Hok Hr) as [Hk _ _].
  pose proof (runs_events _ _ _ Hok Hr) as Hev.
  destruct (run_spec self os) as (_ & He & _). rewrite He in Hev.
  destruct (broadcast_channel_law (M := event) (event_channel_capacity self)) as [Hn _].
  rewrite Hn in Hev.
  destruct (step_moves _ _ _ Hs) as [_ _ Hq _ | e' n _ _ Hq _ | id' r o c Hid Hc Ho Hh _ _ _
    | id' r _ _ _ _ Hq _ | id' r _ _ _ _ Hq _ | eng _ -> _]; try (destruct (Hq id); congruence); [|done].
  left. destruct (decide (id = id')) as [->|Hne]; [|destruct (Ho id Hne) as (_ & Hno & _); congruence].
  destruct (Hk _ _ Hid) as [p Hp]. rewrite Hh in Hin. destruct o as [m|]; cbn in Hin; simplify_eq.
  destruct (recv_law _ _ _ _ _ Hp Hc) as (_ & _ & _ & _ & Hm & _). rewrite Hev in Hm.
  by eapply list_elem_of_lookup_2.
Qed.
End Provenance.

(** ** The guarantees *)

(** C11. A strategy hears a contiguous run of the events sent from the moment its task
    was spawned, in their order, and all of them when it has caught up without
    having ended; once it has fallen behind by more than the channel keeps, its
    task has ended for good. *)
Theorem strategies_hear_in_order `{Parts} `{!Broadcast event} `{!Broadcast action}
    `{!BroadcastLaws event} `{!BroadcastLaws action} (self : Engine) os tr1 s1 t o s2 tr2 s3
    (Hbefore : runs_to (run self os) tr1 s1) (Hspawn : step s1 (StrategySpawned t o) s2)
    (Hafter : runs_to s2 tr2 s3) :
  heard (SgReader t) tr1 = [] /\
  heard (SgReader t) tr2 `prefix_of` events_of tr2 /\
  (forall r c, reads s3 (SgReader t) = Some r -> recv r (events s3) = (None, c) ->
     heard (SgReader t) tr2 = events_of tr2) /\
  (forall tr3 n tr4, tr2 = tr3 ++ StrategyLagged t n :: tr4 ->
     gone s3 t /\ heard (SgReader t) tr4 = []).
Proof.
  pose proof (runs_readers_ok _ _ _ (run_readers_ok self os) Hbefore) as Hok1.
  pose proof (moves_readers_ok _ _ _ Hok1 Hspawn) as Hok2.
  destruct (spawned_listening _ _ _ _ Hspawn) as [Hnew Hl].
  pose proof (step_events _ _ _ Hok1 Hspawn) as Hs. cbn in Hs. rewrite app_nil_r in Hs.
  pose proof (runs_events _ _ _ Hok2 Hafter) as Hs3.
  assert (drop (length (sent (events s1))) (sent (events s3)) = events_of tr2) as Hd.
  { rewrite Hs3, Hs. apply drop_app_length. }
  pose proof (runs_listening _ _ _ _ _ _ Hok2 Hafter Hl) as Hl3. cbn in Hl3.
  split; [by eapply runs_unspawned|]. split; [|split].
  - destruct Hl3 as [(r & _ & Hf)|(_ & _ & _ & Hp)]; rewrite <- Hd; [by eapply follows_prefix | by apply Hp].
  - intros r c Hr Hc. destruct Hl3 as [(r' & Hr' & Hf)|[(g & Hg & He) _]].
    2: { cbn in Hr. rewrite Hg in Hr. cbn in Hr. by rewrite He in Hr. }
    assert (r' = r) as -> by congruence. pose proof (follows_prefix _ _ _ _ Hf) as [k Hk].
    rewrite Hd in Hk. destruct Hf as (Hp & Hle & _).
    destruct (recv_law _ _ _ _ _ Hp Hc) as (_ & _ & _ & Hlen & _).
    apply (f_equal length) in Hd as Hdl. rewrite length_drop in Hdl.
    apply (f_equal length) in Hk as Hkl. rewrite length_app in Hkl.
    destruct k; [by rewrite Hk, app_nil_r | cbn in Hkl; lia].
  - intros tr3 n tr4 ->. apply runs_app_inv in Hafter as (s4 & _ & Hr).
    apply (runs_app_inv _ [_]) in Hr as (s5 & Hone & Hr).
    by eapply (gone_runs _ _ _ _ Hr), lagged_gone, runs_one.
Qed.

(** C12. Each executor takes the actions in the order they were sent, each at most
    once and as long as it keeps up without a gap; every action it has taken it
    executes once. *)
Theorem executors_take_in_order `{Parts} `{!Broadcast event} `{!Broadcast action}
    `{!BroadcastLaws event} `{!BroadcastLaws action} (self : Engine) os tr s
    (Hrun : runs_to (run self os) tr s) (i : nat) :
  sublist (taken i tr) (actions_of tr) /\
  (missed i tr = 0 -> taken i tr `prefix_of` actions_of tr) /\
  taken i tr ≡ₚ executed i tr ++ pending i s /\
  executed i tr ⊆+ actions_of tr /\
  (forall t c, executor_tasks s !! i = Some t -> recv (ex_receiver t) (actions s) = (None, c) ->
     missed i tr = 0 -> taken i tr = actions_of tr).
Proof.
  destruct (runs_executors_ok _ _ _ _ Hrun) as [O1 O2 _ O4 O5 O6].
  split; [apply O4|]. split; [apply O5|]. split; [apply O6|]. split.
  - transitivity (taken i tr); [rewrite O6; by apply submseteq_inserts_r | by apply sublist_submseteq].
  - intros t c Ht Hc Hm. destruct (O5 i Hm) as [k Hk]. destruct (O2 i t Ht) as (Hp & Hle & _).
    destruct (recv_law _ _ _ _ _ Hp Hc) as (_ & _ & _ & Hlen & _).
    rewrite O1, Hk, length_app, Hm in Hlen. destruct k; [by rewrite Hk, app_nil_r | cbn in Hlen; lia].
Qed.

(** C21. An action is executed only if some strategy gave it in answer to an event
    that was sent before, and every answer is sent in order. *)
Theorem executed_actions_answer_events `{Parts} `{!Broadcast event} `{!Broadcast action}
    `{!BroadcastLaws event} `{!BroadcastLaws action} (self : Engine) os tr s
    (Hrun : runs_to (run self os) tr s) :
  (forall i a, a ∈ executed i tr ->
     exists t e out, Processed t e (Some out) ∈ tr /\ a ∈ out /\ e ∈ events_of tr) /\
  (forall t, handed t tr `prefix_of` answered t tr).
Proof.
  destruct (runs_executors_ok _ _ _ _ Hrun) as [_ _ _ O4 _ O6].
  pose proof (runs_traced _ _ _ _ Hrun) as [_ T2 T3]. split; [|intros t; rewrite T3; by apply prefix_app_r].
  intros i a Ha.
  assert (a ∈ actions_of tr) as Hsent.
  { eapply elem_of_sublist; [|apply (O4 i)]. rewrite O6. apply elem_of_app. by left. }
  apply list_elem_of_omap in Hsent as (l & Hl & Hla).
  destruct l as [| | | | | | | | | | | |t b []]; cbn in Hla; simplify_eq.
  assert (a ∈ answered t tr) as Hans.
  { rewrite T3. apply elem_of_app. left. apply list_elem_of_omap.
    exists (StrategySent t a true). split; [done|]. cbn. by rewrite decide_True. }
  apply list_elem_of_bind in Hans as (l & Hal & Hltr).
  destruct l as [| | | | | | | | | | |u e [out|]|]; cbn in Hal; try by apply not_elem_of_nil in Hal.
  case_decide as Hut; [subst u|by apply not_elem_of_nil in Hal].
  exists t, e, out. split; [done|]. split; [done|]. eapply heard_sent; eauto.
Qed.

(** ** The indicators in the engine ([main.rs]) *)

(** The parts of the bot other than its one aggregator. *)
Record OtherParts := {
  op_action : Type;
  op_collector : Type;
  op_stream : op_collector -> bool -> Prop;
  op_next : op_collector -> option BotEvent -> Prop;
  op_executor : Type;
  op_error : Type;
  op_execute : op_executor -> op_action -> option (result op_error BotEvent) -> Prop;
  op_strategy : Type;
  op_sync : op_strategy -> bool -> op_strategy -> Prop;
  op_process : BotEvent -> op_strategy -> option (list op_action) -> op_strategy -> Prop;
  op_interrupted : option BotEvent -> op_strategy -> op_strategy -> Prop;
}.

Definition bot_parts `{Profile} `{Yata} (o : OtherParts) : Parts := {|
  event := BotEvent; action := op_action o;
  collector := op_collector o; get_event_stream := op_stream o; stream_next := op_next o;
  aggregator := TickIndicatorsAggregator;
  aggregate e := evs <- aggregate_event e ;; st_ret (to_bot_event <$> evs);
  executor := op_executor o; execute_error := op_error o; execute := op_execute o;
  strategy := op_strategy o; sync_state := op_sync o; process_event := op_process o;
  interrupted := op_interrupted o;
|}.

Definition is_swap (e : BotEvent) : bool :=
  match e with Blockchain (RaydiumSwap _) => true | _ => false end.

Definition is_derived (e : BotEvent) : bool := match e with Derived _ => true | _ => false end.

(** How many events a swap of a known pool can give. *)
Definition indicators_of (cfg : AggregatorConfig) : nat :=
  length (indicator_periods_in_ticks cfg) + length (tick_bar_sizes cfg).

Section Indicators.
Context `{Profile} `{Yata}.

(** A pool's data is made from the lists of the configuration. *)
Definition sized (n : nat) (d : IndicatorsData) : Prop :=
  length (lengths (d_every_tick d)) + length (bar_sizes (d_tick_bars d)) = n.

Lemma st_map_concat_bound {S A B} (f : A -> ST S (list B)) l s o s' :
  (forall a s, length (default [] (fst (f a s))) <= 1) ->
  st_map f l s = (o, s') -> length (concat (default [] o)) <= length l.
Proof.
  intros Hf. revert s o s'. induction l as [|a l IH]; cbn; intros s o s' Hr; [injection Hr as <- <-; cbn; lia|].
  unfold st_bind, st_ret in Hr. specialize (Hf a s). destruct (f a s) as [[bs|] s1]; [|simplify_eq; cbn; lia].
  destruct (st_map f l s1) as [o2 s2] eqn:E. specialize (IH _ _ _ E).
  destruct o2 as [bss|]; cbn in Hr; simplify_eq; cbn in *; [rewrite length_app; lia | lia].
Qed.

Lemma pool_events_bound n sw d :
  sized n d -> sized n (snd (pool_events sw d)) /\ length (default [] (fst (pool_events sw d))) <= n.
Proof.
  intros Hn. unfold pool_events, st_bind, next_tick, ticks_next.
  destruct (st_map (next_length _ _) _ _) as [o m] eqn:E1.
  apply st_map_concat_bound in E1; [|intros a s; unfold next_length; repeat case_match; cbn; lia].
  destruct o as [ts|]; cbn in *; [|split; [done | lia]].
  unfold next_bars, bars_next. cbn. destruct (st_map (next_bar _ _) _ _) as [o b] eqn:E2.
  apply st_map_concat_bound in E2; [|intros a s; unfold next_bar; repeat case_match; cbn; lia].
  destruct o as [bs|]; cbn in *; (split; [done|]); [|lia].
  rewrite length_app, !length_map. unfold sized in Hn. lia.
Qed.

Definition sized_aggregator (cfg : AggregatorConfig) (a : TickIndicatorsAggregator) : Prop :=
  config a = cfg /\ map_Forall (fun _ d => sized (indicators_of cfg) d) (indicators a).

Lemma aggregate_event_bound cfg e a :
  sized_aggregator cfg a ->
  sized_aggregator cfg (snd (aggregate_event e a)) /\
  length (default [] (fst (aggregate_event e a))) <= (if is_swap e then indicators_of cfg else 0).
Proof.
  intros [Hc Ha]. unfold aggregate_event.
  destruct e as [| [ | | | | | sw | | | | | | ] | | |]; cbn; try (split; [done | lia]).
  destruct (indicators a !! se_pool sw) as [d|] eqn:E.
  - destruct (pool_events_bound _ sw d (Ha _ _ E)) as [Hd He]. destruct (pool_events sw d) as [o d'].
    cbn in *. split; [|done]. split; [done|]. by apply map_Forall_insert_2.
  - cbn. split; [|lia]. split; [done|]. apply map_Forall_insert_2; [|done].
    unfold sized, indicators_of. cbn. rewrite Hc. lia.
Qed.
End Indicators.

Section Feedback.
#[local] Set Default Proof Using "Type*".
Context `{Profile} `{Yata} (o : OtherParts).

#[local] Instance the_bot : Parts := bot_parts o.
Context `{!Broadcast BotEvent} `{!Broadcast (op_action o)}.
Context `{!BroadcastLaws BotEvent} `{!BroadcastLaws (op_action o)}.

Definition derived_in (i : nat) (l : label) : list BotEvent :=
  match l with AggregatorSent j e _ => if decide (i = j) then [e] else [] | _ => [] end.

(** What aggregator [i] sent, and has still to send. *)
Definition derived (i : nat) (tr : list label) : list BotEvent := tr ≫= derived_in i.

Definition underived (i : nat) (s : RunState) : list BotEvent :=
  match aggregator_tasks s !! i with
  | Some t => match ag_phase t with Sending l => l | _ => [] end
  | None => []
  end.

Definition swaps (es : list BotEvent) : nat := sum_list_with (fun e => if is_swap e then 1 else 0) es.

(** The aggregators of a run: each owes its events to swaps it has heard. *)
Record indicators_ok (cfg : AggregatorConfig) (tr : list label) (s : RunState) : Prop := {
  io_boot self : boot s = Booting self -> Forall (sized_aggregator cfg) (aggregators self);
  io_sized i t : aggregator_tasks s !! i = Some t -> sized_aggregator cfg (ag_aggregator t);
  io_derived i : Forall (fun e => is_derived e = true) (derived i tr ++ underived i s);
  io_bound i : length (derived i tr ++ underived i s) <= indicators_of cfg * swaps (heard (AgReader i) tr);
}.

Lemma derived_snoc i tr l : derived i (tr ++ [l]) = derived i tr ++ derived_in i l.
Proof. unfold derived. rewrite bind_app. cbn. by rewrite app_nil_r. Qed.

Lemma swaps_snoc id tr l :
  swaps (heard id (tr ++ [l])) = swaps (heard id tr) + swaps (option_list (heard_in id l)).
Proof. unfold swaps. by rewrite heard_snoc, sum_list_with_app. Qed.

(** A step that keeps the aggregators' tasks. *)
Lemma keep_indicators_ok cfg tr s l s' :
  (boot s' = boot s \/ forall self, boot s' <> Booting self) ->
  (aggregator_tasks s' = aggregator_tasks s \/
   forall i t', aggregator_tasks s' !! i = Some t' -> aggregator_tasks s = [] /\
     ag_phase t' = Waiting /\ sized_aggregator cfg (ag_aggregator t')) ->
  (forall i, derived_in i l = []) ->
  indicators_ok cfg tr s -> indicators_ok cfg (tr ++ [l]) s'.
Proof.
  intros Hb Ha Hd [I1 I2 I3 I4].
  assert (forall i, underived i s' = [] \/ underived i s' = underived i s) as Hu.
  { intros i. unfold underived. destruct Ha as [->|Ha]; [by right|]. left.
    destruct (aggregator_tasks s' !! i) as [t'|] eqn:E; [|done]. by destruct (Ha i t' E) as (_ & -> & _). }
  split.
  - intros self Hself. destruct Hb as [Hb|Hb]; [apply I1; congruence | by destruct (Hb self)].
  - intros i t' Ht'. destruct Ha as [Ha|Ha]; [rewrite Ha in Ht'; eauto | by destruct (Ha i t' Ht') as (_ & _ & ?)].
  - intros i. specialize (I3 i). rewrite derived_snoc, Hd, app_nil_r.
    destruct (Hu i) as [->| ->]; [|done]. rewrite app_nil_r. by apply Forall_app in I3 as [? _].
  - intros i. specialize (I4 i). rewrite derived_snoc, swaps_snoc, Hd, app_nil_r.
    rewrite length_app in *. destruct (Hu i) as [->| ->]; cbn; lia.
Qed.

(** A step of one aggregator's task. *)
Lemma own_indicators_ok cfg tr s l s' i t g p :
  boot s' = boot s -> aggregator_tasks s !! i = Some t ->
  aggregator_tasks s' = <[i := {| ag_aggregator := g; ag_receiver := ag_receiver t; ag_phase := p |}]> (aggregator_tasks s) ->
  sized_aggregator cfg g ->
  (forall j, j <> i -> derived_in j l = []) ->
  (let new := match p with Sending l' => l' | _ => [] end in
   exists out, derived_in i l ++ new = underived i s ++ out /\ Forall (fun e => is_derived e = true) out /\
     length out <= indicators_of cfg * swaps (option_list (heard_in (AgReader i) l))) ->
  indicators_ok cfg tr s -> indicators_ok cfg (tr ++ [l]) s'.
Proof.
  intros Hb Ht Ha Hg Hj (out & Hout & Hd & Hl) [I1 I2 I3 I4].
  assert (forall j, exists out', derived_in j l ++ underived j s' = underived j s ++ out' /\
    Forall (fun e => is_derived e = true) out' /\
    length out' <= indicators_of cfg * swaps (option_list (heard_in (AgReader j) l))) as Hall.
  { intros j. destruct (decide (j = i)) as [->|Hne].
    - exists out. split; [|done]. unfold underived at 1. rewrite Ha.
      rewrite list_lookup_insert_eq by (by eapply lookup_lt_Some). exact Hout.
    - exists []. rewrite app_nil_r, Hj by done. unfold underived. rewrite Ha.
      rewrite list_lookup_insert_ne by done. split; [done|]. split; [constructor | cbn; lia]. }
  split.
  - intros self. rewrite Hb. apply I1.
  - intros j u. rewrite Ha. destruct (decide (j = i)) as [->|Hne].
    + rewrite list_lookup_insert_eq by (by eapply lookup_lt_Some). by intros [= <-].
    + rewrite list_lookup_insert_ne by done. apply I2.
  - intros j. destruct (Hall j) as (out' & Ho & Hd' & _).
    rewrite derived_snoc, <- (assoc_L (++)), Ho, (assoc_L (++)). apply Forall_app. by split.
  - intros j. destruct (Hall j) as (out' & Ho & _ & Hl'). specialize (I4 j).
    rewrite derived_snoc, <- (assoc_L (++)), Ho, (assoc_L (++)), swaps_snoc.
    rewrite length_app. lia.
Qed.

Lemma to_bot_events_derived evs : Forall (fun e => is_derived e = true) (to_bot_event <$> evs).
Proof. apply Forall_fmap, Forall_true. by intros []. Qed.

Lemma aggregate_spec cfg (e : BotEvent) g out g' :
  sized_aggregator cfg g -> aggregate e g = (out, g') ->
  sized_aggregator cfg g' /\ Forall (fun e => is_derived e = true) (default [] out) /\
  length (default [] out) <= indicators_of cfg * swaps [e].
Proof.
  intros Hg. cbn. unfold st_bind. destruct (aggregate_event_bound cfg e g Hg) as [Hs Hl].
  destruct (aggregate_event e g) as [[evs|] g1]; cbn in *; intros [= <- <-]; (split; [done|]); cbn.
  - split; [apply to_bot_events_derived|]. rewrite length_fmap. unfold swaps. cbn. destruct (is_swap e); lia.
  - split; [constructor | lia].
Qed.

Lemma step_indicators_ok cfg tr s l s' :
  (forall self, boot s = Booting self -> aggregator_tasks s = []) ->
  indicators_ok cfg tr s -> step s l s' -> indicators_ok cfg (tr ++ [l]) s'.
Proof.
  intros Hbare Hok Hs. pose proof Hok as [I1 I2 I3 I4].
  destruct Hs as [self Hb | self Hb | i t a c Ht Hc | i t n c Ht Hc | k x r n c Hx Hr Hc
    | i t e c out g' Ht Hp Hc Hg | i t n c Ht Hp Hc | i t e es n c Ht Hp Hc | i t ok Ht Hp Hc
    | i t e n c Ht Hp Hn Hc | i t Ht Hp Hc | os | t o' r c Ht Hc | t g os Ht Hp Ho
    | t g obj ok o' Ht Hp Ho Hs | t g e c Ht Hp Hc | t g n c Ht Hp Hc | t g e obj out o' Ht Hp Ho Hs
    | t g a es n c Ht Hp Hc].
  all: try by apply (keep_indicators_ok _ _ s); [left | left | |].
  - apply (keep_indicators_ok _ _ s); [right | right | done..]; unfold synced;
      destruct (spawn_aggregators _ _) as [ts c] eqn:E; [done|]. cbn. intros i t' Ht'.
    unfold spawn_aggregators in E. destruct (subscribe_each _ _) as [ps c'] eqn:Es. injection E as <- <-.
    apply list_lookup_fmap_Some in Ht' as ([g r] & -> & Hg). cbn.
    split; [eauto|]. split; [done|]. specialize (I1 _ Hb). rewrite Forall_lookup in I1.
    destruct (subscribe_each_spec _ _ _ _ Es) as (_ & _ & Hx & _).
    destruct (Hx _ _ _ Hg) as (_ & _ & Hself). eauto.
  - by apply (keep_indicators_ok _ _ s); [right | left | |].
  - destruct (aggregate_spec cfg e _ _ _ (I2 _ _ Ht) Hg) as (Hg' & Hd & Hl).
    apply (own_indicators_ok cfg tr s _ _ i t g' (match out with Some l => after l | None => Ended end));
      try done; [by destruct out | by destruct out |].
    exists (default [] out). cbn. rewrite decide_True by done. unfold underived. rewrite Ht, Hp.
    split; [by destruct out as [[]|] | done].
  - apply (own_indicators_ok cfg tr s _ _ i t (ag_aggregator t) (after es)); try done; [eauto | |].
    + intros j Hj. cbn. by rewrite decide_False.
    + exists []. cbn. rewrite decide_True by done. unfold underived. rewrite Ht, Hp, app_nil_r.
      split; [by destruct es|]. split; [constructor | cbn; lia].
  - apply (keep_indicators_ok _ _ s); [left; by destruct ok | left; by destruct ok | done..].
  - apply (keep_indicators_ok _ _ s); [left; by destruct out | left; by destruct out | done..].
Qed.

Lemma runs_indicators_ok cfg self os tr s :
  Forall (sized_aggregator cfg) (aggregators self) -> runs_to (run self os) tr s -> indicators_ok cfg tr s.
Proof.
  intros Hg Hr. pose proof (run_readers_ok self os) as Hok.
  induction Hr as [|tr s1 l s2 Hr IH Hs].
  - destruct (run_spec self os) as (Hb & _ & _ & Ha & _). split.
    + intros self'. rewrite Hb. by intros [= <-].
    + intros i t. by rewrite Ha.
    + intros i. unfold underived. rewrite Ha. constructor.
    + intros i. unfold underived. rewrite Ha. apply Nat.le_0_l.
  - eapply step_indicators_ok; eauto. apply (runs_readers_ok _ _ _ Hok Hr).
Qed.
End Feedback.

(** C33. The indicators' events, which the engine hands back to the indicators, feed
    nothing: what an aggregator sends is derived events only, at most one for
    each configured indicator and bar and each swap it has heard, and none of
    its own events is a swap. *)
Theorem indicator_feedback_bounded `{Profile} `{Yata} (o : OtherParts)
    `{!Broadcast BotEvent} `{!Broadcast (op_action o)}
    `{!BroadcastLaws BotEvent} `{!BroadcastLaws (op_action o)}
    (cfg : AggregatorConfig) (self : Engine (H := bot_parts o)) os tr s
    (Hcfg : aggregators (H := bot_parts o) self = [new_aggregator cfg])
    (Hrun : runs_to (H := bot_parts o) (run (H := bot_parts o) self os) tr s) :
  Forall (fun e => is_derived e = true /\ is_swap e = false) (derived o 0 tr) /\
  length (derived o 0 tr) <= indicators_of cfg * swaps (heard (H := bot_parts o) (AgReader 0) tr).
Proof.
  assert (Forall (sized_aggregator cfg) (aggregators (H := bot_parts o) self)) as Hg
    by (rewrite Hcfg; apply Forall_singleton; split; [done | apply map_Forall_empty]).
  destruct (runs_indicators_ok o cfg self os tr s Hg Hrun) as [_ _ I3 I4].
  specialize (I3 0). specialize (I4 0). rewrite length_app in I4. apply Forall_app in I3 as [I3 _].
  split; [|by eapply Nat.le_trans; [apply Nat.le_add_r | exact I4]]. eapply Forall_impl; [exact I3|]. intros e He. split; [done|]. by destruct e.
Qed.

(** ** The theorems at concrete values *)

Lemma runs_cons `{Parts} `{!Broadcast event} `{!Broadcast action} s l s1 tr s2 :
  step s l s1 -> runs_to s1 tr s2 -> runs_to s (l :: tr) s2.
Proof.
  intros Hs. induction 1 as [|tr s2 l' s3 Hr IH Hs']; [by apply (runs_snoc _ [] s); [constructor|]|].
  rewrite app_comm_cons. by eapply runs_snoc.
Qed.

(** Events and actions are numbers: a strategy answers an event with its number,
    executing an action reports it plus a hundred. *)
Definition sample_parts : Parts := {|
  event := nat; action := nat;
  collector := unit; get_event_stream _ ok := ok = true; stream_next _ _ := True;
  aggregator := unit; aggregate _ := st_ret [];
  executor := unit; execute_error := unit; execute _ a r := r = Some (Ok (100 + a));
  strategy := unit; sync_state _ ok _ := ok = true;
  process_event e _ out _ := out = Some [e]; interrupted _ _ _ := True;
|}.

#[local] Existing Instance sample_parts.
#[local] Instance sample_events : Broadcast event := LogChannel.log_broadcast (M := nat).
#[local] Instance sample_actions : Broadcast action := LogChannel.log_broadcast (M := nat).
#[local] Instance sample_event_laws : BroadcastLaws event := LogChannel.log_laws (M := nat).
#[local] Instance sample_action_laws : BroadcastLaws action := LogChannel.log_laws (M := nat).

(** A collector, an executor and channels that keep two values. *)
Definition sample_engine : Engine :=
  add_executor tt (add_collector tt (with_event_channel_capacity 2
    (with_action_channel_capacity 2 new_engine))).

Definition boots : list label := [Silent; Silent].

(** The strategy answers 7, the executor reports 107; while the strategy sleeps
    two more events come and it falls behind. *)
Definition serves : list label :=
  [Silent; Collected 0 7 true; StrategyGot 5 7; Processed 5 7 (Some [7]); StrategySent 5 7 true;
   ExecutorGot 0 7; Executed 0 7 (Some (Ok 107)) true; Collected 0 8 true; Collected 0 9 true;
   StrategyLagged 5 1].

Tactic Notation "next_step" uconstr(c) :=
  eapply runs_cons; [eapply c; reflexivity || exact I|];
  match goal with |- runs_to ?s _ _ => let s' := eval vm_compute in s in change s with s' end.

Lemma sample_boot : exists s, runs_to (run sample_engine {[1%Z := tt]}) boots s /\
  exists s2, step s (StrategySpawned 5 1) s2 /\ exists s3, runs_to s2 serves s3.
Proof.
  eexists. split.
  { next_step (step_synced _ sample_engine). next_step (step_collector_opened _ 0 _ true). constructor. }
  eexists. split; [eapply step_spawn_strategy; reflexivity|].
  eexists. unfold serves.
  match goal with |- runs_to ?s _ _ => let s' := eval vm_compute in s in change s with s' end.
  next_step (step_strategy_synced (H := sample_parts) _ 5 _ tt true tt).
  next_step (step_collected (H := sample_parts) _ 0 _ 7 (Some 1)).
  next_step (step_strategy_got _ 5).
  next_step (step_processed (H := sample_parts) _ 5 _ 7 tt (Some [7]) tt).
  next_step (step_strategy_sent (H := sample_parts) _ 5 _ 7 [] (Some 1)).
  next_step (step_executor_got _ 0).
  next_step (step_executed (H := sample_parts) _ 0 (Build_Execution (H := sample_parts) 0 tt 7) (Some (Ok 107)) (Some 1)).
  next_step (step_collected (H := sample_parts) _ 0 _ 8 (Some 1)).
  next_step (step_collected (H := sample_parts) _ 0 _ 9 (Some 1)).
  next_step (step_strategy_lagged _ 5). constructor.
Qed.

Lemma runs_app `{Parts} `{!Broadcast event} `{!Broadcast action} s tr1 s1 tr2 s2 :
  runs_to s tr1 s1 -> runs_to s1 tr2 s2 -> runs_to s (tr1 ++ tr2) s2.
Proof.
  intros H1. induction 1 as [|tr2 s2 l s3 Hr IH Hs]; [by rewrite app_nil_r|].
  rewrite (assoc_L (++)). by eapply runs_snoc.
Qed.

Definition sample_trace : list label := boots ++ [StrategySpawned 5 1] ++ serves.

Lemma sample_run : exists s, runs_to (run sample_engine {[1%Z := tt]}) sample_trace s.
Proof.
  destruct sample_boot as (s1 & H1 & s2 & H2 & s3 & H3). exists s3.
  eapply runs_app; [exact H1|]. eapply runs_cons; [exact H2 | exact H3].
Qed.

Lemma strategies_hear_in_order_witness :
  [7] `prefix_of` [7; 107; 8; 9] /\ exists s, gone (H := sample_parts) s 5.
Proof.
  destruct sample_boot as (s1 & H1 & s2 & H2 & s3 & H3).
  destruct (strategies_hear_in_order sample_engine _ _ _ _ _ _ _ _ H1 H2 H3) as (_ & Hp & _ & Hl).
  split; [exact Hp|]. exists s3.
  exact (proj1 (Hl (take 9 serves) 1 [] eq_refl)).
Defined.

Lemma executors_take_in_order_witness : exists s,
  runs_to (run sample_engine {[1%Z := tt]}) sample_trace s /\ [7] `prefix_of` actions_of sample_trace.
Proof.
  destruct sample_run as (s & Hs). exists s. split; [exact Hs|].
  destruct (executors_take_in_order sample_engine _ _ _ Hs 0) as (_ & Hp & _). exact (Hp eq_refl).
Defined.

Lemma executed_actions_answer_events_witness :
  exists t e out, Processed t e (Some out) ∈ sample_trace /\ 7 ∈ out /\ e ∈ events_of sample_trace.
Proof.
  destruct sample_run as (s & Hs).
  destruct (executed_actions_answer_events sample_engine _ _ _ Hs) as [He _].
  apply (He 0 7). change (7 ∈ [7]). by left.
Defined.

(** The indicators with a collector of swaps. *)
Definition sample_others : OtherParts := {|
  op_action := unit; op_collector := unit; op_stream _ ok := ok = true; op_next _ _ := True;
  op_executor := unit; op_error := unit; op_execute _ _ _ := False;
  op_strategy := unit; op_sync _ _ _ := False; op_process _ _ _ _ := False;
  op_interrupted _ _ _ := False;
|}.

#[local] Existing Instance debug_build.
#[local] Existing Instance sample_yata.
Definition sample_bot : Parts := bot_parts sample_others.
#[local] Instance bot_events : Broadcast BotEvent := LogChannel.log_broadcast (M := BotEvent).
#[local] Instance bot_actions : Broadcast (op_action sample_others) := LogChannel.log_broadcast (M := unit).
#[local] Instance bot_event_laws : BroadcastLaws BotEvent := LogChannel.log_laws (M := BotEvent).
#[local] Instance bot_action_laws : BroadcastLaws (op_action sample_others) := LogChannel.log_laws (M := unit).

Definition sample_config : AggregatorConfig := {|
  indicator_periods_in_ticks := [2%Z]; tick_bar_sizes := [3%Z] |}.

Definition bot_engine : Engine (H := sample_bot) := {|
  collectors := [tt : collector (Parts := sample_bot)];
  aggregators := [new_aggregator sample_config : aggregator (Parts := sample_bot)];
  executors := []; event_channel_capacity := 8; action_channel_capacity := 8 |}.

Definition a_swap : BotEvent := Blockchain (RaydiumSwap {|
  se_price_update := {| pu_pool := 4%Z; pu_price := f64_of_Z 2; pu_base_reserve := f64_of_Z 2;
    pu_quote_reserve := f64_of_Z 1; pu_created_at := 0%Z |};
  se_signature := 9%Z; se_pool := 4%Z; se_trade_direction := TradeBuy; se_base_amount := f64_of_Z 2;
  se_quote_amount := f64_of_Z 1; se_price := f64_of_Z 2; se_volume := f64_of_Z 1; se_created_at := 0%Z |}).

(** The first swap of a pool makes its data, the second its indicators, the third
    gives one, which the aggregator then hears itself. *)
Definition an_indicator : BotEvent := Derived (TickIndicatorEvent 4).

Definition indicator_trace : list (label (H := sample_bot)) :=
  [Silent; Silent; Collected (H := sample_bot) 0 a_swap true;
   AggregatorGot (H := sample_bot) 0 a_swap (Some []); Collected (H := sample_bot) 0 a_swap true;
   AggregatorGot (H := sample_bot) 0 a_swap (Some []); Collected (H := sample_bot) 0 a_swap true;
   AggregatorGot (H := sample_bot) 0 a_swap (Some [an_indicator]);
   AggregatorSent (H := sample_bot) 0 an_indicator true;
   AggregatorGot (H := sample_bot) 0 an_indicator (Some [])].

Lemma indicator_run : exists s, runs_to (H := sample_bot) (run (H := sample_bot) bot_engine ∅) indicator_trace s.
Proof.
  eexists. unfold indicator_trace.
  next_step (step_synced (H := sample_bot) _ bot_engine).
  next_step (step_collector_opened (H := sample_bot) _ 0 _ true).
  next_step (step_collected (H := sample_bot) _ 0 _ a_swap (Some 1)).
  next_step (step_aggregator_got (H := sample_bot) _ 0).
  next_step (step_collected (H := sample_bot) _ 0 _ a_swap (Some 1)).
  next_step (step_aggregator_got (H := sample_bot) _ 0).
  next_step (step_collected (H := sample_bot) _ 0 _ a_swap (Some 1)).
  next_step (step_aggregator_got (H := sample_bot) _ 0).
  next_step (step_aggregator_sent (H := sample_bot) _ 0 _ an_indicator [] (Some 1)).
  next_step (step_aggregator_got (H := sample_bot) _ 0).
  constructor.
Qed.

Lemma indicator_feedback_bounded_witness :
  derived sample_others 0 indicator_trace = [an_indicator] /\
  length (derived sample_others 0 indicator_trace) <= indicators_of sample_config * 3.
Proof.
  split; [reflexivity|]. destruct indicator_run as (s & Hs).
  exact (proj2 (indicator_feedback_bounded sample_others sample_config bot_engine ∅ indicator_trace s eq_refl Hs)).
Defined.
