(* ===== verification/Dialogue.v ===== *)
(** * The dialogue with a user ([tg_bot])

    What the bot knows of a chat ([state.rs]), the strategy a user configures
    ([volume_strategy_config_args.rs]), the handlers of buttons and of typed
    values ([user_menu]), and the dispatcher that picks one for an update
    ([init.rs]).  Telegram, Redis, the database and the node are the class
    [Outside]: an answer may depend on the number of calls made before.  What the
    bot does to them is a list of effects; texts and layouts are left out. *)

From Stdlib Require Import Ascii.
From S2P Require Import Prelude MachineInt Float64 Types Amounts VolumeStrategy.

Abbreviation ChatId := Z (only parsing).
Abbreviation MessageId := Z (only parsing).
Abbreviation UserId := Z (only parsing).

(** ** The configured strategy *)

Record VolumeStrategyConfigArgs := args {
  user_id : option UserId;
  target_pool : option string;
  tranche_size_sol : option f64;
  tranche_frequency_hbs : option Z;
  tranche_length_hbs : option Z;
  agents_buying_in_tranche : option Z;
  agents_selling_in_tranche : option Z;
  agents_keep_tokens_lamports : option Z;
}.

Definition default_args : VolumeStrategyConfigArgs := args None None None None None None None None.

Definition is_some {A} (o : option A) : bool := match o with Some _ => true | None => false end.

Definition is_ready (c : VolumeStrategyConfigArgs) : bool :=
  is_some (tranche_size_sol c) && is_some (tranche_frequency_hbs c) && is_some (tranche_length_hbs c)
  && is_some (target_pool c) && is_some (agents_buying_in_tranche c)
  && is_some (agents_selling_in_tranche c).

Definition line (s : string) : string := (s +:+ String (ascii_of_nat 10) EmptyString)%string.

Definition missing_fields (c : VolumeStrategyConfigArgs) : list string :=
  (if is_some (tranche_size_sol c) then [] else [line "tranche size sol"])
  ++ (if is_some (tranche_frequency_hbs c) then [] else [line "tranche frequency hbs"])
  ++ (if is_some (tranche_length_hbs c) then [] else [line "tranche length hbs"])
  ++ (if is_some (target_pool c) then [] else [line "target pool"])
  ++ (if is_some (agents_buying_in_tranche c) then [] else [line "agents buying in tranche"])
  ++ (if is_some (agents_selling_in_tranche c) then [] else ["agents selling in tranche"%string]).

(** [if let Some(v) = new { self.field = Some(v) }]. *)
Definition override {A} (old new : option A) : option A :=
  match new with Some v => Some v | None => old end.

Definition update (new_config self : VolumeStrategyConfigArgs) : VolumeStrategyConfigArgs := {|
  user_id := override (user_id self) (user_id new_config);
  target_pool := override (target_pool self) (target_pool new_config);
  tranche_size_sol := override (tranche_size_sol self) (tranche_size_sol new_config);
  tranche_frequency_hbs := override (tranche_frequency_hbs self) (tranche_frequency_hbs new_config);
  tranche_length_hbs := override (tranche_length_hbs self) (tranche_length_hbs new_config);
  agents_buying_in_tranche :=
    override (agents_buying_in_tranche self) (agents_buying_in_tranche new_config);
  agents_selling_in_tranche :=
    override (agents_selling_in_tranche self) (agents_selling_in_tranche new_config);
  agents_keep_tokens_lamports :=
    override (agents_keep_tokens_lamports self) (agents_keep_tokens_lamports new_config);
|}.

(** [VolumeStrategyInstance::try_from]; [Pubkey::from_str] is an argument.  The
    length of a tranche must be there; the strategies' instance does not use it. *)
Definition instance_of (pubkey_from_str : string -> option Pubkey) (value : VolumeStrategyConfigArgs)
    : result string Volume.VolumeStrategyInstance :=
  let ok_or {A} (o : option A) (e : string) := match o with Some a => Ok a | None => Err e end in
  uid <-? ok_or (user_id value) "user_id is None"%string ;;
  pool_str <-? ok_or (target_pool value) "target_pool is None"%string ;;
  pool <-? ok_or (pubkey_from_str pool_str) "target_pool is not a valid Pubkey"%string ;;
  size <-? ok_or (tranche_size_sol value) "tranche_size_sol is None"%string ;;
  frequency <-? ok_or (tranche_frequency_hbs value) "tranche_frequency_hbs is None"%string ;;
  _ <-? ok_or (tranche_length_hbs value) "tranche_length_hbs is None"%string ;;
  buying <-? ok_or (agents_buying_in_tranche value) "agents_buying_in_tranche is None"%string ;;
  selling <-? ok_or (agents_selling_in_tranche value) "agents_selling_in_tranche is None"%string ;;
  keep <-? ok_or (agents_keep_tokens_lamports value) "agents_keep_tokens_lamports is None"%string ;;
  Ok {| Volume.instance_id := 0; Volume.user_id := uid; Volume.target_pool := pool;
        Volume.completed_at := None; Volume.tranche_size_sol := size;
        Volume.tranche_frequency_hbs := frequency; Volume.agents_buying_in_tranche := buying;
        Volume.agents_selling_in_tranche := selling; Volume.agents_keep_tokens_lamports := keep |}.

(** ** The state of a chat ([state.rs]) *)

Record DialogueMessages := {
  message_to_edit : MessageId;
  message_to_delete : MessageId;
}.

Inductive State :=
| Init
| ReceiveStrategy (strategy_in_progress : option VolumeStrategyConfigArgs)
| ReceiveTokenAddress (strategy_in_progress : option VolumeStrategyConfigArgs) (m : DialogueMessages)
| ReceiveTrancheSizeSol (strategy_in_progress : option VolumeStrategyConfigArgs) (m : DialogueMessages)
| ReceiveTrancheFrequencyHbs (strategy_in_progress : option VolumeStrategyConfigArgs) (m : DialogueMessages)
| ReceiveTrancheLengthHbs (strategy_in_progress : option VolumeStrategyConfigArgs) (m : DialogueMessages)
| ReceiveAgentsBuyingInTranche (strategy_in_progress : option VolumeStrategyConfigArgs) (m : DialogueMessages)
| ReceiveAgentsSellingInTranche (strategy_in_progress : option VolumeStrategyConfigArgs) (m : DialogueMessages)
| ReceiveButtonAgentsKeepTokensLamports (strategy_in_progress : option VolumeStrategyConfigArgs) (m : DialogueMessages)
| StrategySelected (strategy_in_progress : option VolumeStrategyConfigArgs) (selected_strategy_id : option StrategyId).

Definition get_strategy_in_progress_in_any (s : State) : option VolumeStrategyConfigArgs :=
  match s with
  | Init => None
  | ReceiveStrategy c | ReceiveTokenAddress c _ | ReceiveTrancheSizeSol c _
  | ReceiveTrancheFrequencyHbs c _ | ReceiveTrancheLengthHbs c _ | ReceiveAgentsBuyingInTranche c _
  | ReceiveAgentsSellingInTranche c _ | ReceiveButtonAgentsKeepTokensLamports c _
  | StrategySelected c _ => c
  end.

Definition to_main_menu (s : State) : State :=
  match get_strategy_in_progress_in_any s with
  | Some c => StrategySelected (Some c) None
  | None => Init
  end.

Definition back (s : State) : State := to_main_menu s.

Definition to_receive_token_address (m : DialogueMessages) (s : State) : State :=
  ReceiveTokenAddress (get_strategy_in_progress_in_any s) m.
Definition to_receive_tranche_size (m : DialogueMessages) (s : State) : State :=
  ReceiveTrancheSizeSol (get_strategy_in_progress_in_any s) m.
Definition to_receive_tranche_frequency_hbs (m : DialogueMessages) (s : State) : State :=
  ReceiveTrancheFrequencyHbs (get_strategy_in_progress_in_any s) m.
Definition to_receive_tranche_length_hbs (m : DialogueMessages) (s : State) : State :=
  ReceiveTrancheLengthHbs (get_strategy_in_progress_in_any s) m.
Definition to_receive_agents_buying_in_tranche (m : DialogueMessages) (s : State) : State :=
  ReceiveAgentsBuyingInTranche (get_strategy_in_progress_in_any s) m.
Definition to_receive_agents_selling_in_tranche (m : DialogueMessages) (s : State) : State :=
  ReceiveAgentsSellingInTranche (get_strategy_in_progress_in_any s) m.
Definition to_receive_button_agents_keep_tokens_lamports (m : DialogueMessages) (s : State) : State :=
  ReceiveButtonAgentsKeepTokensLamports (get_strategy_in_progress_in_any s) m.

Definition to_receive_strategy (s : State) : State :=
  ReceiveStrategy (get_strategy_in_progress_in_any s).

Definition to_selected_strategy (strategy_id : StrategyId) (s : State) : State :=
  StrategySelected (get_strategy_in_progress_in_any s) (Some strategy_id).

Definition reset (s : State) : State :=
  match get_strategy_in_progress_in_any s with
  | Some strat => StrategySelected (Some strat) None
  | None => Init
  end.

Definition to_strategies_list (s : State) : State :=
  ReceiveStrategy (get_strategy_in_progress_in_any s).

Definition get_strategy_in_progress (s : State) : VolumeStrategyConfigArgs :=
  default default_args (get_strategy_in_progress_in_any s).

Definition update_configured_strategy (strategy_update : VolumeStrategyConfigArgs) (s : State) : State :=
  let strategy := update strategy_update (get_strategy_in_progress s) in
  match s with
  | StrategySelected _ selected_strategy_id => StrategySelected (Some strategy) selected_strategy_id
  | _ => ReceiveStrategy (Some strategy)
  end.

Definition awaiting_text_input (s : State) : bool :=
  match s with
  | ReceiveTokenAddress _ _ | ReceiveTrancheSizeSol _ _ | ReceiveTrancheFrequencyHbs _ _
  | ReceiveTrancheLengthHbs _ _ | ReceiveAgentsBuyingInTranche _ _
  | ReceiveAgentsSellingInTranche _ _ | ReceiveButtonAgentsKeepTokensLamports _ _ => true
  | _ => false
  end.

Definition cancel_text_input (s : State) : State :=
  if awaiting_text_input s then
    match get_strategy_in_progress_in_any s with
    | Some strategy => ReceiveStrategy (Some strategy)
    | None => Init
    end
  else s.

Definition get_message_to_delete (s : State) : option MessageId :=
  match s with
  | ReceiveTokenAddress _ m | ReceiveTrancheSizeSol _ m | ReceiveTrancheFrequencyHbs _ m
  | ReceiveTrancheLengthHbs _ m | ReceiveAgentsBuyingInTranche _ m
  | ReceiveAgentsSellingInTranche _ m | ReceiveButtonAgentsKeepTokensLamports _ m =>
      Some (message_to_delete m)
  | _ => None
  end.

(** ** Typed values *)

(** [parse_number]: what is not less than or equal to zero, which a NaN is not. *)
Definition parse_number {T} (parse : string -> option T) (not_positive : T -> bool) (input : string)
    : result string T :=
  match parse input with
  | Some parsed =>
      if not_positive parsed then Err "The value must be greater than 0"%string else Ok parsed
  | None => Err "The input is not a valid number"%string
  end.

(** [x <= 0.0]. *)
Definition f64_not_positive (x : f64) : bool := f64_lt x f64_zero || f64_eq x f64_zero.

Definition parse_number_f64 : string -> result string f64 := parse_number parse_f64 f64_not_positive.
Definition parse_number_i64 : string -> result string Z := parse_number parse_i64 (fun n => n <=? 0).
Definition parse_number_i32 : string -> result string Z := parse_number parse_i32 (fun n => n <=? 0).

(** [lamports_to_sol(BASE_TX_FEE_SOL + TRANSFER_PRIORITY_FEE_SOL)]. *)
Definition swap_fee_sol : f64 := Decimals.lamports_to_sol (BASE_TX_FEE_SOL + TRANSFER_PRIORITY_FEE_SOL).

Definition parse_tranche_size (text : string) : result string f64 :=
  num <-? parse_number_f64 text ;;
  if f64_lt num swap_fee_sol then
    Err "The value must be greater than or equal to the swap fees per each trader"%string
  else Ok num.

Definition parse_keep_tokens (text : string) : result string Z :=
  match parse_i64 text with
  | Some parsed =>
      if parsed <? 0 then Err "The value must be greater or equal than 0"%string else Ok parsed
  | None => Err "The input is not a valid number"%string
  end.

(** The strategy a handler's [update_function] makes of a value. *)
Definition with_target_pool (v : string) := args None (Some v) None None None None None None.
Definition with_tranche_size (v : f64) := args None None (Some v) None None None None None.
Definition with_tranche_frequency (v : Z) := args None None None (Some v) None None None None.
Definition with_tranche_length (v : Z) := args None None None None (Some v) None None None.
Definition with_agents_buying (v : Z) := args None None None None None (Some v) None None.
Definition with_agents_selling (v : Z) := args None None None None None None (Some v) None.
Definition with_agents_keep (v : Z) := args None None None None None None None (Some v).

(** ** Buttons *)

Inductive Button :=
| BUTTON_INFO | BUTTON_TARGET_POOL | BUTTON_TRANCHE_SIZE_SOL | TRANCHE_FREQUENCY_HBS
| BUTTON_TRANCHE_DURATION | AGENTS_BUYING_IN_TRANCHE | AGENTS_SELLING_IN_TRANCHE
| AGENTS_KEEP_TOKENS_LAMPORTS | BUTTON_START_STRATEGY
| BUTTON_BACK_TO_THE_MAIN_MENU | BUTTON_CANCEL | BUTTON_STOP_STRATEGIES | BUTTON_CONFIGURE_STRATEGY
| OtherButton (data : string).

(** The buttons of [render_strategies_menu]. *)
Definition strategies_menu (current_state : State) : list Button :=
  [BUTTON_INFO; BUTTON_TARGET_POOL; BUTTON_TRANCHE_SIZE_SOL; TRANCHE_FREQUENCY_HBS;
   AGENTS_BUYING_IN_TRANCHE; AGENTS_SELLING_IN_TRANCHE]
  ++ (if is_ready (get_strategy_in_progress current_state) then [BUTTON_START_STRATEGY] else [])
  ++ [BUTTON_BACK_TO_THE_MAIN_MENU]
  ++ (if awaiting_text_input current_state then [BUTTON_CANCEL] else []).

(** The buttons of [get_menu_top] for a number of running strategies. *)
Definition menu_top (running_strategies : nat) : list Button :=
  [BUTTON_CONFIGURE_STRATEGY]
  ++ (if Nat.ltb 0 running_strategies then [BUTTON_STOP_STRATEGIES] else [])
  ++ [BUTTON_BACK_TO_THE_MAIN_MENU].
