(* ===== verification/DialogueHandlers.v ===== *)
(** * The handlers of the dialogue ([tg_bot/user_menu], [tg_bot/init.rs])

    A handler works for one update of one chat; the dispatcher lets a chat's
    updates through one at a time.  A call that fails ends the handler where the
    code has [?], and what it did before stays. *)

From S2P Require Import Prelude MachineInt Float64 Types Amounts VolumeStrategy Dialogue.

Inductive BCommand := Start | Collect.

(** A Telegram user, a message, a pressed button. *)
Record TelegramUser := {
  tg_id : Z;
  is_bot : bool;
  username : option string;
}.

Record Message := {
  m_chat : ChatId;
  m_id : MessageId;
  is_private : bool;
  from : option TelegramUser;
  text : option string;
}.

Record CallbackQuery := {
  q_chat : ChatId;
  q_message : MessageId;
  q_data : option Button;
}.

Inductive Update := MessageUpdate (m : Message) | CallbackUpdate (q : CallbackQuery).

(** [types/bot_user.rs]; the private key is identified with its public key. *)
Record BotUser := {
  bu_id : UserId;
  bu_chat_id : ChatId;
  wallet_address : Pubkey;
}.

Record TgBotConfig := {
  whitelisted_chat_ids : option (list ChatId);
  admin_chat_ids : option (list ChatId);
  minimum_deposit_sol : f64;
  volume_strategy_config : option VolumeStrategyConfigArgs;
}.

(** What the bot does outside: [Edited] is a menu drawn over a message, [Fading] a
    notice that deletes itself later. *)
Inductive Effect :=
| Sent (chat : ChatId)
| Fading (chat : ChatId)
| EditedMenu (chat : ChatId) (m : MessageId) (menu : list Button)
| Deleted (chat : ChatId) (m : MessageId)
| StrategyStarted (instance : Volume.VolumeStrategyInstance)
| SweeperStarted (instance : StrategyId)
| StrategyDropped (id : StrategyId)
| DialogueSaved (chat : ChatId)
| UserSaved (id : UserId)
| BalanceRead (wallet : Pubkey).

(** The world outside; the first argument is the number of calls made before. *)
Class Outside := {
  settings : TgBotConfig;
  parse_command : string -> option BCommand;
  pubkey_from_str : string -> option Pubkey;
  pubkey_to_string : Pubkey -> string;
  responds : Z -> bool;
  balance_of : Z -> Pubkey -> option Z;
  (** [rpc_pool.is_valid_raydium_pool], [None] when it panics *)
  valid_pool : Z -> Pubkey -> option bool;
  new_keypair : Z -> Pubkey;
  (** [VolumeStrategy::new], and what [start_strategy] of the manager answers *)
  strategy_made : Z -> Volume.VolumeStrategyInstance -> bool;
  start_result : Z -> Volume.VolumeStrategyInstance -> option StrategyId;
  (** the volume strategies of [get_active_strategies] with their users *)
  active_strategies : Z -> list (StrategyId * UserId);
  (** the strategies of a user in the database *)
  strategies_of : Z -> UserId -> option (list StrategyId);
}.

Record Bot := bot {
  dialogues : gmap ChatId State;
  users : list BotUser;
  effects : list Effect;
  calls : Z;
}.

Inductive HandlerError := CallFailed | NotWhitelisted | UserNotFound.

Section Handlers.
Context `{Outside}.

Definition Handler (A : Type) : Type := ST Bot (result HandlerError A).

(** ** Calls *)

Definition next_call : ST Bot Z :=
  n <- st_gets calls ;;
  st_modify (fun b => bot (dialogues b) (users b) (effects b) (n + 1)) ;;; st_ret n.

Definition log (e : Effect) : ST Bot unit :=
  st_modify (fun b => bot (dialogues b) (users b) (effects b ++ [e]) (calls b)).

Definition call (e : Effect) : Handler unit :=
  n <- next_call ;;
  if responds n then log e ;;; st_ok tt else st_bail CallFailed.

(** [let _ = ...]. *)
Definition ignore {A} (m : Handler A) : ST Bot unit := _ <- m ;; st_ret tt.

Definition send_message (chat : ChatId) : Handler MessageId :=
  n <- st_gets calls ;; call (Sent chat) ;;; st_ret (if responds n then Ok n else Err CallFailed).

Definition delete_message (chat : ChatId) (m : MessageId) : Handler unit := call (Deleted chat m).

Definition notify_user (chat : ChatId) : ST Bot unit := ignore (call (Sent chat)).

(** The state of a chat.  Where none is stored the library also stores the initial one; a
    stored initial state and none read the same, and [dialogues] does not tell them apart. *)
Definition get_or_default (chat : ChatId) : Handler State :=
  n <- next_call ;;
  if responds n then st_lift (st_gets (fun b => default Init (dialogues b !! chat)))
  else st_bail CallFailed.

Definition update_dialogue (chat : ChatId) (s : State) : Handler unit :=
  n <- next_call ;;
  if responds n then
    st_lift (st_modify (fun b => bot (<[chat := s]> (dialogues b)) (users b) (effects b) (calls b)) ;;;
             log (DialogueSaved chat))
  else st_bail CallFailed.

Definition rpc_get_balance (wallet : Pubkey) : Handler Z :=
  n <- next_call ;; match balance_of n wallet with Some v => st_ok v | None => st_bail CallFailed end.

(** ** Menus *)

Definition render_strategies_menu (chat : ChatId) (message : MessageId) (s : State) : Handler unit :=
  call (EditedMenu chat message (strategies_menu s)).

(** The menu of the user's chat; what Telegram answers is dropped. *)
Definition render_main_menu (user : BotUser) (message : option MessageId) (s : State) : Handler unit :=
  n <- next_call ;;
  let running := base.filter (fun p => p.2 = bu_id user) (active_strategies n) in
  _ <-! rpc_get_balance (wallet_address user) ;;
  st_lift (match message with
           | Some m => ignore (call (EditedMenu (bu_chat_id user) m (menu_top (length running))))
           | None => notify_user (bu_chat_id user)
           end).

(** ** Users ([helpers/username.rs], [storage/persistent.rs]) *)

Definition get_user_from_user_message (message : Message) : option TelegramUser :=
  match from message with
  | Some user =>
      if negb (is_bot user) && is_some (username user) then
        Some (if is_private message then user
              else {| tg_id := m_chat message mod 2 ^ 64; is_bot := false;
                      username := Some "GroupChat"%string |})
      else None
  | None => None
  end.

Definition find_user (chat : ChatId) (us : list BotUser) : option BotUser :=
  List.find (fun u => bu_chat_id u =? chat) us.

Definition get_user_from_button_press (chat : ChatId) : Handler BotUser :=
  n <- next_call ;;
  if negb (responds n) then st_bail CallFailed else
  found <- st_gets (fun b => find_user chat (users b)) ;;
  match found with
  | None => st_bail UserNotFound
  | Some user =>
      match whitelisted_chat_ids settings with
      | Some whitelisted =>
          if bool_decide (bu_chat_id user ∈ whitelisted) then st_ok user else st_bail NotWhitelisted
      | None => st_ok user
      end
  end.

(** [id.0 as i64]. *)
Definition chat_id_of (u : TelegramUser) : ChatId := wrap_i64 (tg_id u).

Definition draw_keypair : ST Bot Pubkey := n <- next_call ;; st_ret (new_keypair n).

(** [NewBotUser::new_from_tg_user] draws the keys of the user. *)
Definition load_or_create_user (user_data : TelegramUser) : Handler BotUser :=
  n <- next_call ;;
  if negb (responds n) then st_bail CallFailed else
  q <- next_call ;;  (* a query that fails counts as one that finds nothing *)
  found <- st_gets (fun b => if responds q then find_user (chat_id_of user_data) (users b) else None) ;;
  match found with
  | Some existing_user => _ <-! call (UserSaved (bu_id existing_user)) ;; st_ok existing_user
  | None =>
      keypair <- draw_keypair ;;
      wallet <- draw_keypair ;;
      taken <- st_gets (fun b => find_user (chat_id_of user_data) (users b)) ;;
      if is_some taken then st_bail CallFailed (* one user of a chat *) else
      id <- st_gets (fun b => Z.of_nat (length (users b))) ;;
      let user := {| bu_id := id; bu_chat_id := chat_id_of user_data; wallet_address := wallet |} in
      _ <-! call (UserSaved id) ;;
      st_lift (st_modify (fun b => bot (dialogues b) (users b ++ [user]) (effects b) (calls b)) ;;;
               ignore (call (BalanceRead keypair)) ;;; st_ret user)
  end.

(** ** The strategy menu ([user_menu/strategies/handler.rs]) *)

(** A button that asks for a value. *)
Definition ask (chat : ChatId) (message : MessageId) (state : State)
    (to : DialogueMessages -> State -> State) : Handler unit :=
  prompt <-! send_message chat ;;
  let updated_state := to {| message_to_edit := message; message_to_delete := prompt |} state in
  _ <-! update_dialogue chat updated_state ;;
  render_strategies_menu chat message updated_state.

(** [f64::max]. *)
Definition f64_max (x y : f64) : f64 :=
  if is_nan x then y else if is_nan y then x else if f64_lt x y then y else x.

Definition delete_prompt (chat : ChatId) (s : State) : Handler unit :=
  match get_message_to_delete s with Some m => delete_message chat m | None => st_ok tt end.

(** What a strategy must have for each of its agents. *)
Definition agents_of (c : VolumeStrategyConfigArgs) : Z :=
  Z.max (default 1 (agents_buying_in_tranche c)) (default 1 (agents_selling_in_tranche c)).

Definition minimum_sol_needed (c : VolumeStrategyConfigArgs) : f64 :=
  f64_mul swap_fee_sol (f64_of_Z (agents_of c)).

Definition min_deposit (c : VolumeStrategyConfigArgs) : f64 :=
  f64_max (minimum_deposit_sol settings) (default f64_zero (tranche_size_sol c)).

Definition press_start (chat : ChatId) (message : MessageId) (user : BotUser) (state : State)
    : Handler unit :=
  let c := get_strategy_in_progress state in
  balance <-! rpc_get_balance (wallet_address user) ;;
  if f64_lt (Decimals.lamports_to_sol balance) (min_deposit c) then st_lift (notify_user chat)
  else if f64_lt (default f64_zero (tranche_size_sol c)) (minimum_sol_needed c)
  then st_lift (notify_user chat)
  else match instance_of pubkey_from_str c with
       | Err _ => st_ok tt  (* the message that says so is never awaited, hence never sent *)
       | Ok volume_strategy =>
           n <- next_call ;;
           if negb (strategy_made n volume_strategy) then st_lift (notify_user chat) else
           m <- next_call ;;
           match start_result m volume_strategy with
           | Some strategy_id =>
               _ <-! st_lift (log (StrategyStarted volume_strategy) ;;; notify_user chat) ;;
               let updated_state := to_main_menu state in
               _ <-! update_dialogue chat updated_state ;;
               render_main_menu user (Some message) updated_state
           | None => st_lift (notify_user chat)
           end
       end.

Definition press_back (chat : ChatId) (message : MessageId) (user : BotUser) (state : State)
    : Handler unit :=
  _ <-! delete_prompt chat state ;;
  let updated_state := back state in
  _ <-! update_dialogue chat updated_state ;;
  render_main_menu user (Some message) updated_state.

Definition select_strategy_handler (q : CallbackQuery) : Handler unit :=
  let chat := q_chat q in
  let message := q_message q in
  found <- get_user_from_button_press chat ;;
  match found with
  | Err _ => st_ok tt
  | Ok user =>
      current_state <-! get_or_default chat ;;
      match q_data q with
      | Some BUTTON_INFO => st_lift (log (Fading chat))
      | Some BUTTON_TARGET_POOL => ask chat message current_state to_receive_token_address
      | Some BUTTON_TRANCHE_SIZE_SOL => ask chat message current_state to_receive_tranche_size
      | Some TRANCHE_FREQUENCY_HBS =>
          ask chat message current_state to_receive_tranche_frequency_hbs
      | Some BUTTON_TRANCHE_DURATION =>
          ask chat message current_state to_receive_tranche_length_hbs
      | Some AGENTS_BUYING_IN_TRANCHE =>
          ask chat message current_state to_receive_agents_buying_in_tranche
      | Some AGENTS_SELLING_IN_TRANCHE =>
          ask chat message current_state to_receive_agents_selling_in_tranche
      | Some AGENTS_KEEP_TOKENS_LAMPORTS =>
          ask chat message current_state to_receive_button_agents_keep_tokens_lamports
      | Some BUTTON_START_STRATEGY => press_start chat message user current_state
      | Some BUTTON_BACK_TO_THE_MAIN_MENU => press_back chat message user current_state
      | _ => st_ok tt
      end
  end.

(** ** Typed values *)

(** [parse_pubkey]. *)
Definition parse_pubkey (input : string) : ST Bot (result string string) :=
  match pubkey_from_str input with
  | Some pool =>
      n <- next_call ;;
      valid <- st_unwrap (valid_pool n pool) ;;
      st_ret (if valid : bool then Ok (pubkey_to_string pool)
              else Err "The address is not a valid Raydium SOL pool"%string)
  | None => st_ret (Err "The input is not a valid Solana address"%string)
  end.

Definition generic_handler {T} (m : DialogueMessages) (msg : Message)
    (parse_function : string -> ST Bot (result string T))
    (update_function : T -> VolumeStrategyConfigArgs) : Handler unit :=
  let chat := m_chat msg in
  current_state <-! get_or_default chat ;;
  match text msg with
  | Some t =>
      parsed <- parse_function t ;;
      match parsed with
      | Ok value =>
          let updated_state := update_configured_strategy (update_function value) current_state in
          _ <-! update_dialogue chat updated_state ;;
          _ <-! delete_message chat (message_to_delete m) ;;
          _ <-! delete_message chat (m_id msg) ;;
          render_strategies_menu chat (message_to_edit m) updated_state
      | Err e => _ <-! send_message chat ;; st_lift (log (Fading chat))
      end
  | None =>
      _ <-! delete_message chat (message_to_delete m) ;;
      _ <-! delete_message chat (m_id msg) ;;
      _ <-! send_message chat ;;
      _ <-! render_strategies_menu chat (message_to_edit m) current_state ;;
      st_lift (log (Fading chat))
  end.

Definition receive_token_address_handler m msg :=
  generic_handler m msg parse_pubkey with_target_pool.
Definition receive_tranche_size_sol_handler m msg :=
  generic_handler m msg (fun t => st_ret (parse_tranche_size t)) with_tranche_size.
Definition receive_tranche_frequency_hbs_handler m msg :=
  generic_handler m msg (fun t => st_ret (parse_number_i64 t)) with_tranche_frequency.
Definition receive_tranche_length_hbs_handler m msg :=
  generic_handler m msg (fun t => st_ret (parse_number_i64 t)) with_tranche_length.
Definition receive_agents_buying_in_tranche_handler m msg :=
  generic_handler m msg (fun t => st_ret (parse_number_i32 t)) with_agents_buying.
Definition receive_agents_selling_in_tranche_handler m msg :=
  generic_handler m msg (fun t => st_ret (parse_number_i32 t)) with_agents_selling.
Definition receive_button_agents_keep_tokens_lamports_handler m msg :=
  generic_handler m msg (fun t => st_ret (parse_keep_tokens t)) with_agents_keep.

(** ** The top menu ([user_menu/top/handler.rs]) *)

(** Dropping stops at the first strategy that is not found. *)
Fixpoint drop_strategies (ids : list StrategyId) : Handler unit :=
  match ids with
  | [] => st_ok tt
  | id :: ids' => _ <-! call (StrategyDropped id) ;; drop_strategies ids'
  end.

Definition press_stop (chat : ChatId) (message : MessageId) (user : BotUser) (state : State)
    : Handler unit :=
  n <- next_call ;;
  _ <-! drop_strategies (base.filter (fun p => p.2 = bu_id user) (active_strategies n)).*1 ;;
  _ <-! st_lift (notify_user chat) ;;
  render_main_menu user (Some message) state.

Definition press_configure (chat : ChatId) (message : MessageId) (user : BotUser) (current_state : State)
    : Handler unit :=
  let state := to_receive_strategy current_state in
  state <-! st_lift (match get_strategy_in_progress_in_any state with
                     | Some _ => st_ret state
                     | None =>
                         strategy <- st_unwrap (volume_strategy_config settings) ;;
                         let c := {| user_id := Some (bu_id user); target_pool := target_pool strategy;
                           tranche_size_sol := tranche_size_sol strategy;
                           tranche_frequency_hbs := tranche_frequency_hbs strategy;
                           tranche_length_hbs := tranche_length_hbs strategy;
                           agents_buying_in_tranche := agents_buying_in_tranche strategy;
                           agents_selling_in_tranche := agents_selling_in_tranche strategy;
                           agents_keep_tokens_lamports := agents_keep_tokens_lamports strategy |} in
                         st_ret (update_configured_strategy c state)
                     end) ;;
  _ <-! render_strategies_menu chat message state ;;
  update_dialogue chat state.

Definition press_cancel (chat : ChatId) (message : MessageId) (current_state : State) : Handler unit :=
  _ <-! delete_prompt chat current_state ;;
  let updated_state := cancel_text_input current_state in
  _ <-! update_dialogue chat updated_state ;;
  render_strategies_menu chat message updated_state.

Definition top_menu_callback_handler (q : CallbackQuery) : Handler unit :=
  let chat := q_chat q in
  let message := q_message q in
  found <- get_user_from_button_press chat ;;
  match found with
  | Err _ => st_lift (log (Fading chat))
  | Ok user =>
      _ <-! get_or_default chat ;;
      match q_data q with
      | None => st_ok tt
      | Some button =>
          current_state <-! get_or_default chat ;;
          match button with
          | BUTTON_CANCEL => press_cancel chat message current_state
          | BUTTON_BACK_TO_THE_MAIN_MENU => press_back chat message user current_state
          | BUTTON_STOP_STRATEGIES => press_stop chat message user current_state
          | BUTTON_CONFIGURE_STRATEGY => press_configure chat message user current_state
          | _ => st_ok tt
          end
      end
  end.

(** ** Commands ([user_menu/top/endpoints.rs]) *)

Definition start (message : Message) : Handler unit :=
  match get_user_from_user_message message with
  | Some user_tg_dto =>
      user <-! load_or_create_user user_tg_dto ;;
      state <-! get_or_default (m_chat message) ;;
      let current_state := to_main_menu state in
      _ <-! update_dialogue (m_chat message) current_state ;;
      render_main_menu user None current_state
  | None => _ <-! send_message (m_chat message) ;; st_ok tt
  end.

Fixpoint start_sweepers (ids : list StrategyId) : Handler unit :=
  match ids with
  | [] => st_ok tt
  | id :: ids' =>
      n <- next_call ;;
      if responds n then _ <-! st_lift (log (SweeperStarted id)) ;; start_sweepers ids'
      else st_bail CallFailed
  end.

Fixpoint collect_for (chat : ChatId) (all_users : list BotUser) : Handler unit :=
  match all_users with
  | [] => st_ok tt
  | user :: rest =>
      n <- next_call ;;
      match strategies_of n (bu_id user) with
      | None => st_bail CallFailed
      | Some strategies =>
          _ <-! start_sweepers strategies ;;
          _ <-! send_message chat ;;
          collect_for chat rest
      end
  end.

Definition collect (message : Message) : Handler unit :=
  match get_user_from_user_message message with
  | Some user_tg_dto =>
      _ <-! load_or_create_user user_tg_dto ;;
      all_users <-! st_lift (st_gets users) ;;
      collect_for (m_chat message) all_users
  | None => st_ok tt
  end.

(** ** The dispatcher ([init.rs]) *)

(** Who may give the commands. *)
Definition may_start (m : Message) : bool :=
  match whitelisted_chat_ids settings with
  | None => is_private m
  | Some whitelisted => bool_decide (m_chat m ∈ whitelisted)
  end.

Definition may_collect (m : Message) : bool :=
  match admin_chat_ids settings with
  | None => false
  | Some admins => bool_decide (m_chat m ∈ admins)
  end.

Definition message_by_state (s : State) (msg : Message) : Handler unit :=
  match s with
  | ReceiveTokenAddress _ m => receive_token_address_handler m msg
  | ReceiveTrancheSizeSol _ m => receive_tranche_size_sol_handler m msg
  | ReceiveTrancheFrequencyHbs _ m => receive_tranche_frequency_hbs_handler m msg
  | ReceiveTrancheLengthHbs _ m => receive_tranche_length_hbs_handler m msg
  | ReceiveAgentsBuyingInTranche _ m => receive_agents_buying_in_tranche_handler m msg
  | ReceiveAgentsSellingInTranche _ m => receive_agents_selling_in_tranche_handler m msg
  | ReceiveButtonAgentsKeepTokensLamports _ m =>
      receive_button_agents_keep_tokens_lamports_handler m msg
  | _ => st_ok tt  (* [invalid_state] *)
  end.

Definition message_handler (s : State) (msg : Message) : Handler unit :=
  match text msg ≫= parse_command with
  | Some Start => if may_start msg then start msg else message_by_state s msg
  | Some Collect => if may_collect msg then collect msg else message_by_state s msg
  | None => message_by_state s msg
  end.

Definition callback_query_handler (s : State) (q : CallbackQuery) : Handler unit :=
  match s with
  | ReceiveStrategy _ => select_strategy_handler q
  | _ => top_menu_callback_handler q
  end.

(** One update of the chat whose state the storage gives. *)
Definition dispatch (u : Update) : Handler unit :=
  let chat := match u with MessageUpdate m => m_chat m | CallbackUpdate q => q_chat q end in
  s <-! get_or_default chat ;;
  match u with
  | MessageUpdate m => message_handler s m
  | CallbackUpdate q => callback_query_handler s q
  end.

(** The updates the bot gets, one after another; a panic ends a handler. *)
Definition run_updates (us : list Update) (b : Bot) : Bot :=
  foldl (fun b u => snd (dispatch u b)) b us.
End Handlers.
