(* ===== verification/DialogueFacts.v ===== *)
(** * What a chat can do

    The configuration of a chat survives every update, a strategy is started only
    as configured and only when its checks pass, and a chat that is not listed
    stays outside. *)

From S2P Require Import Prelude MachineInt Float64 Types Amounts VolumeStrategy Dialogue DialogueHandlers.

(** ** Configurations *)

Lemma override_assoc {A} (o m n : option A) : override (override o m) n = override o (override m n).
Proof. by destruct n. Qed.

Lemma update_assoc a b c : update c (update b a) = update (update c b) a.
Proof. destruct a, b, c. unfold update. cbn. by rewrite !override_assoc. Qed.

Lemma override_is_some {A} (o n : option A) : is_some o = true -> is_some (override o n) = true.
Proof. by destruct n. Qed.

(** Every field that [c] has, [d] has. *)
Record extends (c d : VolumeStrategyConfigArgs) : Prop := {
  ex_user : is_some (user_id c) = true -> is_some (user_id d) = true;
  ex_pool : is_some (target_pool c) = true -> is_some (target_pool d) = true;
  ex_size : is_some (tranche_size_sol c) = true -> is_some (tranche_size_sol d) = true;
  ex_frequency : is_some (tranche_frequency_hbs c) = true -> is_some (tranche_frequency_hbs d) = true;
  ex_length : is_some (tranche_length_hbs c) = true -> is_some (tranche_length_hbs d) = true;
  ex_buying : is_some (agents_buying_in_tranche c) = true -> is_some (agents_buying_in_tranche d) = true;
  ex_selling : is_some (agents_selling_in_tranche c) = true -> is_some (agents_selling_in_tranche d) = true;
  ex_keep : is_some (agents_keep_tokens_lamports c) = true -> is_some (agents_keep_tokens_lamports d) = true;
}.

#[global] Instance extends_preorder : PreOrder extends.
Proof. split; [by split | intros x y z [] []; split; auto]. Qed.

Lemma update_extends n c : extends c (update n c).
Proof. split; apply override_is_some. Qed.

Lemma default_extends c : extends default_args c.
Proof. by split. Qed.

(** ** Computations of a handler *)

Section Handlers.
#[local] Set Default Proof Using "Type*".
Context `{Outside}.

Definition state_of (d : gmap ChatId State) (chat : ChatId) : State := default Init (d !! chat).

(** The effects from one state to another, which start only strategies of [Q]. *)
Definition starting (Q : Volume.VolumeStrategyInstance -> Prop) (b b' : Bot) : Prop :=
  exists es, effects b' = effects b ++ es /\ forall i, StrategyStarted i ∈ es -> Q i.

(** A computation that keeps the dialogues. *)
Definition calm Q {A} (m : ST Bot A) : Prop := forall b,
  dialogues (snd (m b)) = dialogues b /\ starting Q b (snd (m b)).

(** A computation that may give one chat a new state. *)
Definition turns Q (d : gmap ChatId State) (chat : ChatId) (T : State -> Prop) {A} (m : ST Bot A) : Prop :=
  forall b, dialogues b = d ->
  (dialogues (snd (m b)) = d \/ exists s', T s' /\ dialogues (snd (m b)) = <[chat := s']> d) /\
  starting Q b (snd (m b)).

Section Rules.
Context (Q : Volume.VolumeStrategyInstance -> Prop) (d : gmap ChatId State) (chat : ChatId) (T : State -> Prop).

Lemma starting_same b b' : effects b' = effects b -> starting Q b b'.
Proof.
  intros He. exists []. rewrite app_nil_r. split; [done|]. intros i Hi. by apply not_elem_of_nil in Hi.
Qed.

Lemma starting_trans b1 b2 b3 : starting Q b1 b2 -> starting Q b2 b3 -> starting Q b1 b3.
Proof.
  intros (e1 & E1 & Q1) (e2 & E2 & Q2). exists (e1 ++ e2). rewrite E2, E1, (assoc_L (++)). split; [done|].
  intros i [Hi|Hi]%elem_of_app; auto.
Qed.

Lemma calm_bind {A B} (m : ST Bot A) (k : A -> ST Bot B) :
  calm Q m -> (forall a, calm Q (k a)) -> calm Q (st_bind m k).
Proof.
  intros Hm Hk b. specialize (Hm b). unfold st_bind. destruct (m b) as [[a|] b1]; cbn in *; [|done].
  destruct Hm as [Hd Hs], (Hk a b1) as [Hd' Hs']. split; [congruence | by eapply starting_trans].
Qed.

Lemma calm_try {E A B} (m : ST Bot (result E A)) (k : A -> ST Bot (result E B)) :
  calm Q m -> (forall a, calm Q (k a)) -> calm Q (st_try m k).
Proof.
  intros Hm Hk. apply calm_bind; [done|]. intros [a|e]; [apply Hk|]. intros b. split; [done | by apply starting_same].
Qed.

Lemma calm_ret {A} (a : A) : calm Q (st_ret a).
Proof. intros b. split; [done | by apply starting_same]. Qed.

Lemma calm_gets {A} (f : Bot -> A) : calm Q (st_gets f).
Proof. intros b. split; [done | by apply starting_same]. Qed.

Lemma calm_unwrap {A} (o : option A) : calm Q (st_unwrap o).
Proof. intros b. destruct o; (split; [done | by apply starting_same]). Qed.

Lemma calm_lift {E A} (m : ST Bot A) : calm Q m -> calm Q (@st_lift _ E A m).
Proof. intros Hm. apply calm_bind; [done|]. intros a. apply calm_ret. Qed.

Lemma calm_next : calm Q next_call.
Proof. intros b. split; [done | by apply starting_same]. Qed.

Lemma calm_log e : (forall i, e = StrategyStarted i -> Q i) -> calm Q (log e).
Proof.
  intros He b. split; [done|]. exists [e]. split; [done|]. intros i Hi.
  apply list_elem_of_singleton in Hi. auto.
Qed.

Lemma turns_calm {A} (m : ST Bot A) : calm Q m -> turns Q d chat T m.
Proof. intros Hm b Hb. destruct (Hm b) as [-> Hs]. auto. Qed.

Lemma turns_bind {A B} (m : ST Bot A) (k : A -> ST Bot B) :
  calm Q m -> (forall a, turns Q d chat T (k a)) -> turns Q d chat T (st_bind m k).
Proof.
  intros Hm Hk b Hb. specialize (Hm b). unfold st_bind.
  destruct (m b) as [[a|] b1]; cbn in *; destruct Hm as [Hd Hs].
  - destruct (Hk a b1) as [Hd' Hs']; [congruence|]. split; [done | by eapply starting_trans].
  - split; [left; congruence | done].
Qed.

(** The rules with what the first computation's result tells. *)
Lemma turns_bind_result {A B} (m : ST Bot A) (k : A -> ST Bot B) :
  calm Q m -> (forall b a b', m b = (Some a, b') -> turns Q d chat T (k a)) ->
  turns Q d chat T (st_bind m k).
Proof.
  intros Hm Hk b Hb. specialize (Hm b). unfold st_bind.
  destruct (m b) as [[a|] b1] eqn:E; cbn in *; destruct Hm as [Hd Hs].
  - destruct (Hk b a b1 E b1) as [Hd' Hs']; [congruence|]. split; [done | by eapply starting_trans].
  - split; [left; congruence | done].
Qed.

Lemma turns_then {A B} (m : ST Bot A) (k : A -> ST Bot B) :
  turns Q d chat T m -> (forall a, calm Q (k a)) -> turns Q d chat T (st_bind m k).
Proof.
  intros Hm Hk b Hb. specialize (Hm b Hb). unfold st_bind.
  destruct (m b) as [[a|] b1]; cbn in *; [|done]. destruct Hm as [Hd Hs], (Hk a b1) as [-> Hs'].
  split; [done | by eapply starting_trans].
Qed.

Lemma turns_try {E A B} (m : ST Bot (result E A)) (k : A -> ST Bot (result E B)) :
  calm Q m -> (forall a, turns Q d chat T (k a)) -> turns Q d chat T (st_try m k).
Proof.
  intros Hm Hk. apply turns_bind; [done|]. intros [a|e]; [apply Hk | apply turns_calm, calm_ret].
Qed.

Lemma turns_update_then {B} s (k : unit -> Handler B) :
  T s -> (forall a, calm Q (k a)) -> turns Q d chat T (st_try (update_dialogue chat s) k).
Proof.
  intros Hs Hk. apply turns_then; [|intros [a|e]; [apply Hk | apply calm_ret]].
  intros b Hb. unfold update_dialogue. unfold st_bind at 1. cbn. destruct (responds (calls b)); cbn.
  - split; [right; exists s; by rewrite Hb|]. exists [DialogueSaved chat]. split; [done|].
    intros i Hi. apply list_elem_of_singleton in Hi. done.
  - split; [by left | by apply starting_same].
Qed.

Lemma turns_update s : T s -> turns Q d chat T (update_dialogue chat s).
Proof.
  intros Hs b Hb. unfold update_dialogue. unfold st_bind at 1. cbn. destruct (responds (calls b)); cbn.
  - split; [right; exists s; by rewrite Hb|]. exists [DialogueSaved chat]. split; [done|].
    intros i Hi. apply list_elem_of_singleton in Hi. done.
  - split; [by left | by apply starting_same].
Qed.

(** A handler reads the state its chat has. *)
Lemma turns_get {B} (k : State -> Handler B) :
  turns Q d chat T (k (state_of d chat)) -> turns Q d chat T (st_try (get_or_default chat) k).
Proof.
  intros Hk b <-. unfold st_try, st_bind, get_or_default, next_call. cbn.
  destruct (responds (calls b)); cbn; [|split; [by left | by apply starting_same]].
  exact (Hk (bot (dialogues b) (users b) (effects b) (calls b + 1)) eq_refl).
Qed.
End Rules.

(** ** The parts of the handlers *)

Create HintDb dialogue.

Ltac calm_tac :=
  repeat first
    [ apply calm_ret | apply calm_gets | apply calm_unwrap | apply calm_next
    | solve [eauto with dialogue nocore]
    | apply calm_try; [| intros ?] | apply calm_lift
    | apply calm_log; solve [intros ? [=] | done]
    | apply calm_bind; [| intros ?]
    | case_match ].

Section Calls.
Context (Q : Volume.VolumeStrategyInstance -> Prop).

Lemma calm_call e : (forall i, e <> StrategyStarted i) -> calm Q (call e).
Proof. intros He. unfold call. calm_tac; apply calm_log; intros i ->; by destruct (He i). Qed.

Lemma calm_ignore {A} (m : Handler A) : calm Q m -> calm Q (ignore m).
Proof. intros Hm. unfold ignore. by calm_tac. Qed.

Lemma calm_send chat : calm Q (send_message chat).
Proof.
  unfold send_message. apply calm_bind; [apply calm_gets|]. intros n.
  apply calm_bind; [by apply calm_call | intros a; apply calm_ret].
Qed.

Lemma calm_delete chat m : calm Q (delete_message chat m).
Proof. by apply calm_call. Qed.

Lemma calm_notify chat : calm Q (notify_user chat).
Proof. by apply calm_ignore, calm_call. Qed.

Lemma calm_get chat : calm Q (get_or_default chat).
Proof. unfold get_or_default. calm_tac. Qed.

Lemma calm_balance w : calm Q (rpc_get_balance w).
Proof. unfold rpc_get_balance. calm_tac. Qed.

Lemma calm_strategies_menu chat m s : calm Q (render_strategies_menu chat m s).
Proof. by apply calm_call. Qed.

Lemma calm_prompt chat s : calm Q (delete_prompt chat s).
Proof. unfold delete_prompt. case_match; [apply calm_delete | apply calm_ret]. Qed.
End Calls.

Hint Resolve calm_send calm_delete calm_notify calm_get calm_balance calm_strategies_menu
  calm_prompt : dialogue.

Section Parts.
Context (Q : Volume.VolumeStrategyInstance -> Prop).

Lemma calm_main_menu user m s : calm Q (render_main_menu user m s).
Proof. unfold render_main_menu. calm_tac. Qed.

Lemma calm_press_user chat : calm Q (get_user_from_button_press chat).
Proof. unfold get_user_from_button_press. calm_tac. Qed.

Lemma calm_load u : calm Q (load_or_create_user u).
Proof.
  unfold load_or_create_user, draw_keypair. calm_tac; try by apply calm_call.
Qed.

Lemma calm_parse_pubkey t : calm Q (parse_pubkey t).
Proof. unfold parse_pubkey. calm_tac. Qed.

Lemma calm_drop ids : calm Q (drop_strategies ids).
Proof. induction ids; cbn; calm_tac. Qed.

Lemma calm_sweepers ids : calm Q (start_sweepers ids).
Proof. induction ids; cbn; calm_tac. Qed.

Lemma calm_collect_for chat us : calm Q (collect_for chat us).
Proof. pose proof calm_sweepers. induction us; cbn; calm_tac; eauto. Qed.

Lemma calm_collect m : calm Q (collect m).
Proof. pose proof calm_load. pose proof calm_collect_for. unfold collect. calm_tac; eauto. Qed.
End Parts.

(** ** The handlers *)

Abbreviation cfg := get_strategy_in_progress_in_any.

(** The chat is one of those that may use the bot. *)
Definition listed (chat : ChatId) : Prop :=
  match whitelisted_chat_ids settings with Some l => chat ∈ l | None => True end.

(** What a start requires: the configuration of the chat gives the instance, and
    the balance asked for and the size of a tranche are not too small. *)
Definition startable (s : State) (chat : ChatId) (i : Volume.VolumeStrategyInstance) : Prop :=
  let c := get_strategy_in_progress s in
  instance_of pubkey_from_str c = Ok i /\ listed chat /\
  f64_lt (default f64_zero (tranche_size_sol c)) (minimum_sol_needed c) = false /\
  exists user n balance, bu_chat_id user = chat /\ balance_of n (wallet_address user) = Some balance /\
    f64_lt (Decimals.lamports_to_sol balance) (min_deposit c) = false.

(** A weaker condition on strategies and states. *)
Lemma turns_weaken {A} (Q Q' : Volume.VolumeStrategyInstance -> Prop) d chat (T T' : State -> Prop)
    (m : ST Bot A) :
  (forall i, Q i -> Q' i) -> (forall s, T s -> T' s) -> turns Q d chat T m -> turns Q' d chat T' m.
Proof.
  intros HQ HT Hm b Hb. destruct (Hm b Hb) as [Hd (es & He & Hs)]. split.
  - destruct Hd as [?|(s' & ? & ?)]; [by left | right; eauto].
  - exists es. split; [done|]. auto.
Qed.

Lemma press_user_listed chat b user b' :
  get_user_from_button_press chat b = (Some (Ok user), b') -> bu_chat_id user = chat /\ listed chat.
Proof.
  unfold get_user_from_button_press, st_bind, st_bail, st_ok, st_ret. cbn.
  destruct (negb _); [done|].
  destruct (find_user chat _) as [u|] eqn:E; [|done].
  apply List.find_some in E as [_ E]. apply Z.eqb_eq in E. unfold listed.
  destruct (whitelisted_chat_ids settings) as [l|]; [case_bool_decide as Hl|]; intros [= <- <-].
  - split; [done | congruence].
  - done.
Qed.

Lemma balance_result w b v b' :
  rpc_get_balance w b = (Some (Ok v), b') -> exists n, balance_of n w = Some v.
Proof.
  unfold rpc_get_balance, st_bind, st_bail, st_ok, st_ret. cbn. destruct (balance_of (calls b) w) as [x|] eqn:E; [|done].
  intros [= <- <-]. eauto.
Qed.

Lemma to_main_menu_cfg s : cfg (to_main_menu s) = cfg s.
Proof. unfold to_main_menu. by destruct (cfg s). Qed.

Lemma update_then_menu Q d chat T s user m :
  T s -> turns Q d chat T (_ <-! update_dialogue chat s ;; render_main_menu user m s).
Proof. intros Hs. apply turns_update_then; [done|]. intros _. apply calm_main_menu. Qed.

Lemma press_start_turns d chat message user :
  listed chat -> bu_chat_id user = chat ->
  turns (startable (state_of d chat) chat) d chat (fun s' => cfg s' = cfg (state_of d chat))
    (press_start chat message user (state_of d chat)).
Proof.
  intros Hl Huser. unfold press_start. set (s := state_of d chat).
  apply turns_bind_result; [apply calm_balance|]. intros b [balance|e] b' Hbal;
    [|apply turns_calm, calm_ret]. apply balance_result in Hbal as (n & Hbal).
  destruct (f64_lt (Decimals.lamports_to_sol balance) _) eqn:Hmin; [apply turns_calm; calm_tac|].
  destruct (f64_lt (default _ _) _) eqn:Hsize; [apply turns_calm; calm_tac|].
  destruct (instance_of _ _) as [i|e] eqn:Hi; [|apply turns_calm, calm_ret].
  apply turns_bind; [apply calm_next|]. intros k.
  destruct (negb _); [apply turns_calm; calm_tac|].
  apply turns_bind; [apply calm_next|]. intros k2.
  destruct (start_result k2 i) as [id|]; [|apply turns_calm; calm_tac].
  apply turns_try; [|intros []; apply update_then_menu, to_main_menu_cfg].
  apply calm_lift, calm_bind; [|intros ?; apply calm_notify].
  apply calm_log. intros j [= <-]. unfold startable. eauto 12.
Qed.

Lemma ask_turns Q d chat message (to : DialogueMessages -> State -> State) :
  (forall m, cfg (to m (state_of d chat)) = cfg (state_of d chat)) ->
  turns Q d chat (fun s' => cfg s' = cfg (state_of d chat)) (ask chat message (state_of d chat) to).
Proof.
  intros Hto. unfold ask. apply turns_try; [apply calm_send|]. intros prompt.
  apply turns_update_then; [apply Hto|]. intros _. apply calm_strategies_menu.
Qed.

Lemma press_back_turns Q d chat message user :
  turns Q d chat (fun s' => cfg s' = cfg (state_of d chat))
    (press_back chat message user (state_of d chat)).
Proof.
  unfold press_back. apply turns_try; [apply calm_prompt|]. intros _.
  apply update_then_menu, to_main_menu_cfg.
Qed.

Lemma select_turns d q :
  turns (fun i => q_data q = Some BUTTON_START_STRATEGY /\ startable (state_of d (q_chat q)) (q_chat q) i)
    d (q_chat q) (fun s' => cfg s' = cfg (state_of d (q_chat q))) (select_strategy_handler q).
Proof.
  unfold select_strategy_handler. apply turns_bind_result; [apply calm_press_user|].
  intros b [user|e] b' Hu; [|apply turns_calm, calm_ret].
  apply press_user_listed in Hu as [Huser Hl]. apply turns_get.
  destruct (q_data q) as [[]|]; try (by apply turns_calm, calm_ret); try (by apply ask_turns).
  - apply turns_calm. calm_tac.
  - eapply turns_weaken; [| |by apply press_start_turns]; done.
  - apply press_back_turns.
Qed.

(** Configuring starts from the settings, for the user of the chat. *)
Definition configured (s s' : State) : Prop :=
  cfg s' = cfg s \/
  cfg s = None /\ exists user c, volume_strategy_config settings = Some c /\
    cfg s' = Some (update (args (Some user) (target_pool c) (tranche_size_sol c)
      (tranche_frequency_hbs c) (tranche_length_hbs c) (agents_buying_in_tranche c)
      (agents_selling_in_tranche c) (agents_keep_tokens_lamports c)) default_args).

Lemma press_configure_turns Q d chat message user :
  turns Q d chat (configured (state_of d chat)) (press_configure chat message user (state_of d chat)).
Proof.
  unfold press_configure. set (s := state_of d chat).
  apply turns_bind_result; [calm_tac|]. intros b [s'|e] b' Hs; [|apply turns_calm, calm_ret].
  apply turns_try; [apply calm_strategies_menu|]. intros _. apply turns_update.
  apply st_lift_inv in Hs. cbn in Hs. destruct (cfg s) as [c|] eqn:Hc.
  - injection Hs as <- <-. left. cbn. congruence.
  - unfold st_bind in Hs. destruct (volume_strategy_config settings) as [c|] eqn:Hv; [|done].
    injection Hs as <- <-. right. split; [done|]. exists (bu_id user), c. split; [done|].
    done.
Qed.

Lemma press_cancel_turns Q d chat message :
  turns Q d chat (configured (state_of d chat)) (press_cancel chat message (state_of d chat)).
Proof.
  unfold press_cancel. apply turns_try; [apply calm_prompt|]. intros _. apply turns_update_then.
  - left. unfold cancel_text_input. destruct (awaiting_text_input _); [|done].
    by destruct (cfg (state_of d chat)) eqn:E; cbn; rewrite ?E.
  - intros _. apply calm_strategies_menu.
Qed.

Lemma top_turns Q d q :
  turns Q d (q_chat q) (configured (state_of d (q_chat q))) (top_menu_callback_handler q).
Proof.
  unfold top_menu_callback_handler. apply turns_bind; [apply calm_press_user|].
  intros [user|e]; [|apply turns_calm; calm_tac].
  apply turns_try; [apply calm_get|]. intros _.
  destruct (q_data q) as [button|]; [|apply turns_calm, calm_ret]. apply turns_get.
  destruct button; try by apply turns_calm, calm_ret.
  - eapply turns_weaken; [| |apply press_back_turns]; [done|]. intros s Hs. by left.
  - apply press_cancel_turns.
  - apply turns_calm, calm_bind; [apply calm_next|]. intros n. apply calm_try; [apply calm_drop|].
    intros _. apply calm_try; [apply calm_lift, calm_notify|]. intros _. apply calm_main_menu.
  - apply press_configure_turns.
Qed.

(** A value a text may give in a state, as the strategy that has only it. *)
Definition entered (s : State) (t : string) (v : VolumeStrategyConfigArgs) : Prop :=
  match s with
  | ReceiveTokenAddress _ _ => exists pool n, pubkey_from_str t = Some pool /\
      valid_pool n pool = Some true /\ v = with_target_pool (pubkey_to_string pool)
  | ReceiveTrancheSizeSol _ _ => exists x, parse_tranche_size t = Ok x /\ v = with_tranche_size x
  | ReceiveTrancheFrequencyHbs _ _ => exists x, parse_number_i64 t = Ok x /\ v = with_tranche_frequency x
  | ReceiveTrancheLengthHbs _ _ => exists x, parse_number_i64 t = Ok x /\ v = with_tranche_length x
  | ReceiveAgentsBuyingInTranche _ _ => exists x, parse_number_i32 t = Ok x /\ v = with_agents_buying x
  | ReceiveAgentsSellingInTranche _ _ => exists x, parse_number_i32 t = Ok x /\ v = with_agents_selling x
  | ReceiveButtonAgentsKeepTokensLamports _ _ => exists x, parse_keep_tokens t = Ok x /\ v = with_agents_keep x
  | _ => False
  end.

(** What a message does to the state of its chat. *)
Definition answered_with (s : State) (msg : Message) (s' : State) : Prop :=
  cfg s' = cfg s \/
  exists t v, text msg = Some t /\ entered s t v /\ s' = ReceiveStrategy (Some (update v (get_strategy_in_progress s))).

Lemma generic_turns {X} Q d (m : DialogueMessages) msg (parse : string -> ST Bot (result string X)) upd :
  (forall t, calm Q (parse t)) -> awaiting_text_input (state_of d (m_chat msg)) = true ->
  (forall t b x b', text msg = Some t -> parse t b = (Some (Ok x), b') -> entered (state_of d (m_chat msg)) t (upd x)) ->
  turns Q d (m_chat msg) (answered_with (state_of d (m_chat msg)) msg) (generic_handler m msg parse upd).
Proof.
  intros Hc Hw Hp. unfold generic_handler. apply turns_get.
  destruct (text msg) as [t|] eqn:Ht; [|apply turns_calm; calm_tac].
  apply turns_bind_result; [apply Hc|]. intros b [x|e] b' Hx; [|apply turns_calm; calm_tac].
  apply turns_update_then; [|intros _; calm_tac].
  right. exists t, (upd x). split; [done|]. split; [by eapply Hp|].
  unfold update_configured_strategy. by destruct (state_of d (m_chat msg)).
Qed.

Lemma message_turns Q d msg :
  turns Q d (m_chat msg) (answered_with (state_of d (m_chat msg)) msg)
    (message_by_state (state_of d (m_chat msg)) msg).
Proof.
  destruct (state_of d (m_chat msg)) as [|c|c m|c m|c m|c m|c m|c m|c m|c i] eqn:Hs;
    try (apply turns_calm, calm_ret); cbn; rewrite <- Hs;
    (apply generic_turns; [intros t; try apply calm_ret; apply calm_parse_pubkey | by rewrite Hs |]);
    intros t b x b' Ht; rewrite Hs; cbn.
  2-7: intros [= Hx _]; eauto.
  unfold parse_pubkey. destruct (pubkey_from_str t) as [pool|]; [|by intros [=]].
  unfold st_bind. cbn. destruct (valid_pool _ pool) as [[]|] eqn:Hv; cbn; intros [= <- _]; eauto.
Qed.

Lemma start_turns Q d msg :
  turns Q d (m_chat msg) (fun s' => cfg s' = cfg (state_of d (m_chat msg))) (start msg).
Proof.
  unfold start. destruct (get_user_from_user_message msg) as [u|]; [|apply turns_calm; calm_tac].
  apply turns_try; [apply calm_load|]. intros user. apply turns_get.
  apply update_then_menu, to_main_menu_cfg.
Qed.

(** ** Updates *)

Definition chat_of (u : Update) : ChatId :=
  match u with MessageUpdate m => m_chat m | CallbackUpdate q => q_chat q end.

(** What an update does to the state of its chat. *)
Definition turned (s : State) (u : Update) (s' : State) : Prop :=
  match u with
  | MessageUpdate m => answered_with s m s'
  | CallbackUpdate _ => configured s s'
  end.

Definition start_pressed (s : State) (u : Update) (i : Volume.VolumeStrategyInstance) : Prop :=
  match u with
  | MessageUpdate _ => False
  | CallbackUpdate q => (exists c, s = ReceiveStrategy c) /\ q_data q = Some BUTTON_START_STRATEGY /\
      startable s (q_chat q) i
  end.

Lemma dispatch_turns d u :
  turns (start_pressed (state_of d (chat_of u)) u) d (chat_of u) (turned (state_of d (chat_of u)) u) (dispatch u).
Proof.
  unfold dispatch. change (match u with MessageUpdate m => m_chat m | CallbackUpdate q => q_chat q end)
    with (chat_of u). apply turns_get. destruct u as [m|q]; cbn.
  - unfold message_handler. destruct (text m ≫= parse_command) as [[]|].
    + destruct (may_start m); [|apply message_turns].
      eapply turns_weaken, start_turns; [done|]. intros s Hs. by left.
    + destruct (may_collect m); [|apply message_turns]. apply turns_calm, calm_collect.
    + apply message_turns.
  - unfold callback_query_handler. destruct (state_of d (q_chat q)) as [|c| | | | | | | |] eqn:Hs;
      rewrite <- Hs; try apply top_turns.
    eapply turns_weaken, select_turns; cbn; [|intros s E; by left].
    intros i Hi. split; [by exists c | done].
Qed.
End Handlers.
