(* ===== verification/DialogueSpec.v ===== *)
(** * The dialogue's guarantees

    Sequences of updates: the configuration of every chat only grows and keeps to
    the ranges of its fields, a strategy starts only as its chat has configured it,
    chats that are not listed stay outside; and what a typed value does, right or
    wrong.  The witnesses run a small bot. *)

From Stdlib Require Import Floats.SpecFloat.
From S2P Require Import Prelude MachineInt Float64 Types Amounts VolumeStrategy Dialogue DialogueHandlers DialogueFacts.

Section Spec.
#[local] Set Default Proof Using "Type*".
Context `{Outside}.

Abbreviation cfg := get_strategy_in_progress_in_any.

(** ** Configurations in range *)

Definition all_of {A} (P : A -> Prop) (o : option A) : Prop :=
  match o with Some a => P a | None => True end.

(** What the handlers accept for each field. *)
Record in_range (c : VolumeStrategyConfigArgs) : Prop := {
  ir_pool : all_of (fun p => exists pool n, p = pubkey_to_string pool /\ valid_pool n pool = Some true)
    (target_pool c);
  ir_size : all_of (fun x => f64_not_positive x = false /\ f64_lt x swap_fee_sol = false) (tranche_size_sol c);
  ir_frequency : all_of (fun n => 0 < n < 2 ^ 63) (tranche_frequency_hbs c);
  ir_length : all_of (fun n => 0 < n < 2 ^ 63) (tranche_length_hbs c);
  ir_buying : all_of (fun n => 0 < n < 2 ^ 31) (agents_buying_in_tranche c);
  ir_selling : all_of (fun n => 0 < n < 2 ^ 31) (agents_selling_in_tranche c);
  ir_keep : all_of (fun n => 0 <= n < 2 ^ 63) (agents_keep_tokens_lamports c);
}.

Lemma all_of_override {A} (P : A -> Prop) o n : all_of P o -> all_of P n -> all_of P (override o n).
Proof. by destruct n. Qed.

Lemma update_in_range v c : in_range v -> in_range c -> in_range (update v c).
Proof. intros [] []. by split; apply all_of_override. Qed.

Lemma default_in_range : in_range default_args.
Proof. by split. Qed.

Lemma parse_number_ok {T} (parse : string -> option T) bad t x :
  parse_number parse bad t = Ok x -> parse t = Some x /\ bad x = false.
Proof.
  unfold parse_number. destruct (parse t) as [y|]; [|done].
  destruct (bad y) eqn:E; [done|]. by intros [= <-].
Qed.

Lemma parse_positive min max t x :
  parse_number (parse_int min max) (fun n => n <=? 0) t = Ok x -> 0 < x <= max.
Proof. intros [?%parse_int_range ?%Z.leb_gt]%parse_number_ok. lia. Qed.

Lemma parse_size_ok t x :
  parse_tranche_size t = Ok x -> f64_not_positive x = false /\ f64_lt x swap_fee_sol = false.
Proof.
  unfold parse_tranche_size. destruct (parse_number_f64 t) as [y|e] eqn:E; [|done]. cbn.
  apply parse_number_ok in E as [_ E]. destruct (f64_lt y _) eqn:L; [done|]. by intros [= <-].
Qed.

Lemma parse_keep_ok t x : parse_keep_tokens t = Ok x -> 0 <= x < 2 ^ 63.
Proof.
  unfold parse_keep_tokens. destruct (parse_i64 t) as [y|] eqn:E; [|done].
  apply parse_int_range in E. destruct (Z.ltb_spec y 0); [done|]. intros [= <-]. lia.
Qed.

Lemma entered_in_range s t v : entered s t v -> in_range v.
Proof.
  destruct s; try done; cbn.
  - intros (pool & n & _ & Hv & ->). split; try done. cbn. eauto.
  - intros (x & Hx%parse_size_ok & ->). by split.
  - intros (x & Hx%parse_positive & ->). split; try done. cbn. lia.
  - intros (x & Hx%parse_positive & ->). split; try done. cbn. lia.
  - intros (x & Hx%parse_positive & ->). split; try done. cbn. lia.
  - intros (x & Hx%parse_positive & ->). split; try done. cbn. lia.
  - intros (x & Hx%parse_keep_ok & ->). by split.
Qed.

(** ** One update *)

(** How the configuration of a chat develops. *)
Definition grows (o o' : option VolumeStrategyConfigArgs) : Prop :=
  all_of (fun c => exists c', o' = Some c' /\ extends c c') o /\
  (all_of in_range o -> all_of in_range o').

#[local] Instance grows_preorder : PreOrder grows.
Proof.
  split.
  - intros o. split; [|done]. destruct o as [c|]; cbn; [|done]. by exists c.
  - intros x y z [Hxy Rxy] [Hyz Ryz]. split; [|auto]. destruct x as [c|]; [|done].
    destruct Hxy as (c' & -> & Hc). destruct Hyz as (c'' & -> & Hc'). exists c''.
    split; [done | by transitivity c'].
Qed.

Lemma grows_eq o o' : o' = o -> grows o o'.
Proof. by intros ->. Qed.

Lemma grows_update v c : in_range v -> grows (Some c) (Some (update v c)).
Proof.
  intros Hv. split; cbn; [|intros Hc; by apply update_in_range].
  eexists. split; [done | apply update_extends].
Qed.

Lemma grows_none c : in_range c -> grows None (Some c).
Proof. by split. Qed.

Lemma turned_grows s u s' :
  all_of in_range (volume_strategy_config settings) -> turned s u s' -> grows (cfg s) (cfg s').
Proof.
  intros Hset. destruct u as [m|q]; cbn.
  - intros [E|(t & v & _ & Hv%entered_in_range & ->)]; [by apply grows_eq|]. cbn.
    unfold get_strategy_in_progress. destruct (cfg s) as [c|]; cbn; [by apply grows_update|].
    apply grows_none, update_in_range; [done | apply default_in_range].
  - intros [E|(E & user & c & Hc & ->)]; [by apply grows_eq|]. rewrite E. apply grows_none.
    rewrite Hc in Hset. destruct Hset. apply update_in_range; [by split | apply default_in_range].
Qed.

Lemma state_of_insert d chat s c : state_of (<[chat := s]> d) c = if decide (c = chat) then s else state_of d c.
Proof.
  unfold state_of. destruct (decide (c = chat)) as [->|E]; [by rewrite lookup_insert_eq | by rewrite lookup_insert_ne].
Qed.

Lemma dispatch_grows u b chat :
  all_of in_range (volume_strategy_config settings) ->
  grows (cfg (state_of (dialogues b) chat)) (cfg (state_of (dialogues (snd (dispatch u b))) chat)) /\
  (chat <> chat_of u -> dialogues (snd (dispatch u b)) !! chat = dialogues b !! chat).
Proof.
  intros Hset. destruct (dispatch_turns (dialogues b) u b eq_refl) as [[->|(s' & Hs & ->)] _]; [done|].
  rewrite state_of_insert. split.
  - destruct (decide (chat = chat_of u)) as [->|E]; [by eapply turned_grows | done].
  - intros E. by apply lookup_insert_ne.
Qed.

Lemma run_updates_snoc us u b : run_updates (us ++ [u]) b = snd (dispatch u (run_updates us b)).
Proof. unfold run_updates. by rewrite foldl_app. Qed.

(** C18. Whatever updates arrive, in whatever order and whichever calls fail, no chat
    ever loses a value of the strategy it configures; the values stay in the ranges
    the handlers check (a positive number of heartbeats that fits an [i64], a positive
    number of agents that fits an [i32], a tranche that is not below the fees, a pool
    that was found valid) if they and the defaults of the settings are to begin with;
    and a chat's state changes only by that chat's own updates. *)
Theorem configurations_grow us b :
  all_of in_range (volume_strategy_config settings) ->
  forall chat,
  let before := cfg (state_of (dialogues b) chat) in
  let after := cfg (state_of (dialogues (run_updates us b)) chat) in
  all_of (fun c => exists c', after = Some c' /\ extends c c') before /\
  (all_of in_range before -> all_of in_range after) /\
  (chat ∉ chat_of <$> us -> dialogues (run_updates us b) !! chat = dialogues b !! chat).
Proof.
  intros Hset chat. cbv zeta. apply and_assoc. change (?A /\ ?B) with (grows (cfg (state_of (dialogues b) chat))
    (cfg (state_of (dialogues (run_updates us b)) chat))) at 2.
  induction us as [|u us [IHg IHo]] using rev_ind; [done|]. rewrite run_updates_snoc.
  destruct (dispatch_grows u (run_updates us b) chat Hset) as [Hg Ho]. split; [by etrans|].
  rewrite fmap_app, not_elem_of_app. cbn. rewrite list_elem_of_singleton. intros [Hus Hu].
  rewrite Ho by done. auto.
Qed.


(** ** Chats outside *)




(** ** Typed values *)

Definition messages_of (s : State) : option DialogueMessages :=
  match s with
  | ReceiveTokenAddress _ m | ReceiveTrancheSizeSol _ m | ReceiveTrancheFrequencyHbs _ m
  | ReceiveTrancheLengthHbs _ m | ReceiveAgentsBuyingInTranche _ m
  | ReceiveAgentsSellingInTranche _ m | ReceiveButtonAgentsKeepTokensLamports _ m => Some m
  | _ => None
  end.

Definition as_args {T} (f : T -> VolumeStrategyConfigArgs) (r : result string T) :
    result string VolumeStrategyConfigArgs := x <-? r ;; Ok (f x).

(** What a text means in a state, when a pool is found valid or not; [None] where the
    state does not wait for a text, or the pool's check panics. *)
Definition reading (valid : Pubkey -> option bool) (s : State) (t : string) :
    option (result string VolumeStrategyConfigArgs) :=
  match s with
  | ReceiveTokenAddress _ _ =>
      match pubkey_from_str t with
      | Some pool =>
          v ← valid pool;
          Some (if v : bool then Ok (with_target_pool (pubkey_to_string pool))
                else Err "The address is not a valid Raydium SOL pool"%string)
      | None => Some (Err "The input is not a valid Solana address"%string)
      end
  | ReceiveTrancheSizeSol _ _ => Some (as_args with_tranche_size (parse_tranche_size t))
  | ReceiveTrancheFrequencyHbs _ _ => Some (as_args with_tranche_frequency (parse_number_i64 t))
  | ReceiveTrancheLengthHbs _ _ => Some (as_args with_tranche_length (parse_number_i64 t))
  | ReceiveAgentsBuyingInTranche _ _ => Some (as_args with_agents_buying (parse_number_i32 t))
  | ReceiveAgentsSellingInTranche _ _ => Some (as_args with_agents_selling (parse_number_i32 t))
  | ReceiveButtonAgentsKeepTokensLamports _ _ => Some (as_args with_agents_keep (parse_keep_tokens t))
  | _ => None
  end.

(** What the handler of a text makes of what the text means. *)
Definition answer (msg : Message) (m : DialogueMessages) (s : State)
    (r : result string VolumeStrategyConfigArgs) (b b' : Bot) : Prop :=
  users b' = users b /\
  match r with
  | Ok v =>
      let s' := ReceiveStrategy (Some (update v (get_strategy_in_progress s))) in
      dialogues b' = <[m_chat msg := s']> (dialogues b) /\
      effects b' = effects b ++ [DialogueSaved (m_chat msg); Deleted (m_chat msg) (message_to_delete m);
        Deleted (m_chat msg) (m_id msg); EditedMenu (m_chat msg) (message_to_edit m) (strategies_menu s')]
  | Err _ =>
      dialogues b' = dialogues b /\ effects b' = effects b ++ [Sent (m_chat msg); Fading (m_chat msg)]
  end.

Section Answering.
Context (Hr : forall n, responds n = true).

Lemma st_try_ok {E A B} (m : ST Bot (result E A)) (k : A -> ST Bot (result E B)) b a b' :
  m b = (Some (Ok a), b') -> st_try m k b = k a b'.
Proof. intros Hm. unfold st_try, st_bind. by rewrite Hm. Qed.

Lemma call_ok e b :
  call e b = (Some (Ok tt), bot (dialogues b) (users b) (effects b ++ [e]) (calls b + 1)).
Proof. unfold call, st_bind, next_call. cbn. by rewrite Hr. Qed.

Lemma send_ok chat b :
  send_message chat b =
    (Some (Ok (calls b)), bot (dialogues b) (users b) (effects b ++ [Sent chat]) (calls b + 1)).
Proof. unfold send_message. unfold st_bind at 1. cbn. unfold st_bind. by rewrite call_ok, Hr. Qed.

Lemma get_ok chat b :
  get_or_default chat b = (Some (Ok (state_of (dialogues b) chat)),
    bot (dialogues b) (users b) (effects b) (calls b + 1)).
Proof. unfold get_or_default, st_bind, next_call. cbn. by rewrite Hr. Qed.

Lemma update_ok chat s b :
  update_dialogue chat s b = (Some (Ok tt),
    bot (<[chat := s]> (dialogues b)) (users b) (effects b ++ [DialogueSaved chat]) (calls b + 1)).
Proof. unfold update_dialogue, st_bind, next_call. cbn. by rewrite Hr. Qed.

Lemma generic_answer {T} msg m s (parse : string -> ST Bot (result string T)) upd t b r k :
  text msg = Some t -> state_of (dialogues b) (m_chat msg) = s -> awaiting_text_input s = true ->
  parse t (bot (dialogues b) (users b) (effects b) (calls b + 1)) =
    (Some r, bot (dialogues b) (users b) (effects b) k) ->
  exists b', generic_handler m msg parse upd b = (Some (Ok tt), b') /\ answer msg m s (as_args upd r) b b'.
Proof.
  intros Ht Hs Hw Hp. unfold generic_handler. erewrite st_try_ok by apply get_ok. rewrite Ht.
  erewrite st_bind_Some by exact Hp. rewrite Hs. destruct r as [v|e]; cbn [as_args result_bind].
  - assert (update_configured_strategy (upd v) s =
      ReceiveStrategy (Some (update (upd v) (get_strategy_in_progress s)))) as -> by by destruct s.
    do 3 (erewrite st_try_ok by (apply update_ok || apply call_ok)).
    unfold render_strategies_menu. rewrite call_ok. eexists. split; [reflexivity|]. split; [done|].
    cbn. by rewrite <- !(assoc_L (++)).
  - erewrite st_try_ok by apply send_ok. eexists. split; [reflexivity|]. split; [done|].
    cbn. by rewrite <- !(assoc_L (++)).
Qed.
End Answering.

(** C19. A text typed while the bot waits for a value, when Telegram and the storage
    answer: if the text reads as a value of the field asked for, exactly that field of
    the chat's strategy takes it, the prompt and the text are deleted and the menu is
    drawn anew; if it does not (not a number, not positive, out of the type's range, below
    the fees, not an address, not a valid pool), the state stays, still waiting, and the
    user is told. *)
Theorem typed_values_are_answered msg t m s b r :
  (forall n, responds n = true) -> text msg = Some t -> parse_command t = None ->
  state_of (dialogues b) (m_chat msg) = s -> messages_of s = Some m ->
  reading (valid_pool (calls b + 2)) s t = Some r ->
  exists b', dispatch (MessageUpdate msg) b = (Some (Ok tt), b') /\ answer msg m s r b b'.
Proof.
  intros Hr Ht Hcmd Hs Hm Hread. unfold dispatch.
  change (match _ with MessageUpdate m => _ | _ => _ end) with (m_chat msg).
  erewrite st_try_ok by by apply get_ok. rewrite Hs. unfold message_handler. rewrite Ht. cbn. rewrite Hcmd.
  set (b1 := bot (dialogues b) (users b) (effects b) (calls b + 1)).
  assert (forall b', answer msg m s r b1 b' -> answer msg m s r b b') as Hb1; [done|].
  destruct s; try discriminate Hm; injection Hm as ->; cbn in Hread |- *.
  2-7: injection Hread as <-; eapply (generic_answer Hr msg m _ _ _ t b1); try done.
  destruct (pubkey_from_str t) as [pool|] eqn:Hpool.
  - destruct (valid_pool _ pool) as [v|] eqn:Hv; [|done]. injection Hread as <-.
    replace (if v then _ else _) with (as_args with_target_pool (if v
      then Ok (pubkey_to_string pool) else Err "The address is not a valid Raydium SOL pool"%string))
      by (by destruct v).
    eapply (generic_answer Hr msg m _ _ _ t b1); try done. unfold parse_pubkey. rewrite Hpool.
    unfold st_bind, next_call. cbn. replace (calls b + 1 + 1) with (calls b + 2) by lia. by rewrite Hv.
  - injection Hread as <-. change (Err ?e) with (as_args with_target_pool (Err e)).
    eapply (generic_answer Hr msg m _ _ _ t b1); try done. unfold parse_pubkey. by rewrite Hpool.
Qed.
End Spec.

(** ** A small bot *)

Definition sample_defaults : VolumeStrategyConfigArgs := {|
  user_id := None; target_pool := Some "pool 1"%string; tranche_size_sol := Some (f64_of_Z 1);
  tranche_frequency_hbs := Some 10; tranche_length_hbs := Some 5; agents_buying_in_tranche := Some 3;
  agents_selling_in_tranche := Some 2; agents_keep_tokens_lamports := Some 0;
|}.

(** Chat 10 is listed; everything answers, and wallets hold 9 SOL. *)
Definition sample_outside : Outside := {|
  settings := {| whitelisted_chat_ids := Some [10]; admin_chat_ids := None;
    minimum_deposit_sol := f64_of_Z 2; volume_strategy_config := Some sample_defaults |};
  parse_command t := if String.eqb t "/start" then Some Start else None;
  pubkey_from_str t := if String.eqb t "pool 1" then Some 1 else None;
  pubkey_to_string _ := "pool 1"%string;
  responds _ := true;
  balance_of _ _ := Some (9 * 10 ^ 9);
  valid_pool _ _ := Some true;
  new_keypair n := 100 + n;
  strategy_made _ _ := true;
  start_result _ _ := Some 77;
  active_strategies _ := [];
  strategies_of _ _ := Some [];
|}.

Definition sample_bot : Bot := bot ∅ [] [] 0.

Definition typed (chat : ChatId) (t : string) : Message :=
  {| m_chat := chat; m_id := 1000; is_private := true;
     from := Some {| tg_id := chat; is_bot := false; username := Some "user"%string |}; text := Some t |}.
Definition says (chat : ChatId) (t : string) : Update := MessageUpdate (typed chat t).
Definition presses (chat : ChatId) (button : Button) : Update :=
  CallbackUpdate {| q_chat := chat; q_message := 500; q_data := Some button |}.

Definition sample_dialogue : list Update :=
  [says 10 "/start"; presses 10 BUTTON_CONFIGURE_STRATEGY; presses 10 BUTTON_TRANCHE_SIZE_SOL;
   says 10 "1.5"].


Lemma sample_defaults_in_range : in_range (H := sample_outside) sample_defaults.
Proof. split; cbn; try lia; [by exists 1, 0 | by vm_compute]. Qed.

(** The bot after the first updates of the dialogue. *)
Definition configuring : Bot :=
  run_updates (H := sample_outside) (firstn 2 sample_dialogue) sample_bot.
Definition waiting : Bot :=
  run_updates (H := sample_outside) (firstn 3 sample_dialogue) sample_bot.

Definition configured_size (b : Bot) (chat : ChatId) : option f64 :=
  c ← get_strategy_in_progress_in_any (state_of (dialogues b) chat); tranche_size_sol c.

Lemma configurations_grow_witness :
  configured_size configuring 10 = Some (f64_of_Z 1) /\
  configured_size (run_updates (H := sample_outside) (skipn 2 sample_dialogue) configuring) 10 =
    Some (f64_div (f64_of_Z 3) (f64_of_Z 2)) /\
  all_of (fun c => exists c', get_strategy_in_progress_in_any (state_of (dialogues
      (run_updates (H := sample_outside) (skipn 2 sample_dialogue) configuring)) 10) = Some c' /\ extends c c')
    (get_strategy_in_progress_in_any (state_of (dialogues configuring) 10)).
Proof.
  split; [by vm_compute|]. split; [by vm_compute|].
  exact (proj1 (configurations_grow (H := sample_outside) (skipn 2 sample_dialogue) configuring
    sample_defaults_in_range 10)).
Defined.




(** A chat that is not listed any more and whose dialogue waits for a size: the size that it
    types is stored. *)
Example delisted_chat_configures :
  let m := {| message_to_edit := 500; message_to_delete := 21 |} in
  let b := bot {[11 := ReceiveTrancheSizeSol (Some sample_defaults) m]} [] [] 0 in
  configured_size b 11 = Some (f64_of_Z 1) /\
  configured_size (run_updates (H := sample_outside) [says 11 "1.5"] b) 11
    = Some (f64_div (f64_of_Z 3) (f64_of_Z 2)).
Proof. split; vm_compute; reflexivity. Qed.

Definition waiting_state : State := state_of (dialogues waiting) 10.

(** Both answers: 1.5 is a size, -1.5 is not. *)
Lemma typed_values_are_answered_witness :
  exists m b1 b2,
    answer (typed 10 "1.5") m waiting_state
      (Ok (with_tranche_size (f64_div (f64_of_Z 3) (f64_of_Z 2)))) waiting b1 /\
    answer (typed 10 "-1.5") m waiting_state
      (Err "The value must be greater than 0"%string) waiting b2.
Proof.
  exists {| message_to_edit := 500; message_to_delete := 21 |}.
  destruct (typed_values_are_answered (H := sample_outside) (typed 10 "1.5") "1.5"
    {| message_to_edit := 500; message_to_delete := 21 |} waiting_state waiting
    (Ok (with_tranche_size (f64_div (f64_of_Z 3) (f64_of_Z 2))))) as (b1 & _ & H1);
    [intros n; reflexivity | reflexivity | reflexivity | vm_compute; reflexivity.. |].
  destruct (typed_values_are_answered (H := sample_outside) (typed 10 "-1.5") "-1.5"
    {| message_to_edit := 500; message_to_delete := 21 |} waiting_state waiting
    (Err "The value must be greater than 0"%string)) as (b2 & _ & H2);
    [intros n; reflexivity | reflexivity | reflexivity | vm_compute; reflexivity.. |].
  eauto.
Defined.

(** ** Two oddities *)

(** [nan] is taken for a size of a tranche, and then no balance and no number of
    agents is too much for it. *)
Lemma nan_tranche_passes `{Outside} c :
  tranche_size_sol c = Some S754_nan -> is_nan (minimum_deposit_sol settings) = false ->
  parse_tranche_size "nan" = Ok S754_nan /\ min_deposit c = minimum_deposit_sol settings /\
  f64_lt (default f64_zero (tranche_size_sol c)) (minimum_sol_needed c) = false.
Proof.
  intros Hc Hn. split; [by vm_compute|]. unfold min_deposit, f64_max. rewrite Hc. cbn. by rewrite Hn.
Qed.

(** A configuration is called ready without the tokens to keep, and cannot start then. *)
Lemma ready_without_keep `{Outside} c pool :
  is_ready c = true -> user_id c = Some pool -> agents_keep_tokens_lamports c = None ->
  exists e, instance_of pubkey_from_str c = Err e.
Proof.
  intros Hr Hu Hk. unfold instance_of. rewrite Hu, Hk. unfold result_bind. repeat case_match; eauto; congruence.
Qed.

Lemma is_ready_missing c : is_ready c = true <-> missing_fields c = [].
Proof.
  unfold is_ready, missing_fields. rewrite !andb_true_iff. split.
  - intros [[[[[-> ->] ->] ->] ->] ->]. done.
  - repeat (destruct (is_some _); [|done]). done.
Qed.
