(* ===== verification/Storage.v ===== *)
(** * Storage, keys, settings, and the strategies that serve them

    The Redis cache ([storage/cache.rs]), the columns of the database
    ([utils/serdealizers.rs]), the keys ([types/keys.rs], [utils/keys.rs]), what the
    settings configure ([config/settings.rs], [tg_bot/sniping_strategy_config_args.rs]),
    the two strategies that take deposits and log events, and what is started and with
    which cache ([config/app_context.rs], [main.rs]).  Redis, the database, base58 and
    the curve are interfaces with the laws their documentation gives. *)

From Stdlib Require Import Ascii String.
From stdpp Require Import pretty.
From S2P Require Import Prelude MachineInt Float64 Types Cache Samples SniperStrategy Collectors Dialogue.

(** ** Redis *)

(** A database as its lists and texts; a command may fail ([None]). *)
Class Redis := {
  redis : Type;
  list_of : redis -> string -> list string;
  field_of : redis -> string -> string -> option string;
  text_of : redis -> string -> option string;
  get_conn : redis -> bool;
  lpush : string -> string -> redis -> option redis;
  lrem_all : string -> string -> redis -> option redis;
  hset : string -> string -> string -> redis -> option redis;
  hdel : string -> string -> redis -> option redis;
  set_ex : string -> string -> Z -> redis -> option redis;
  del : string -> redis -> option redis;
  (** whether a reading command is answered *)
  readable : redis -> bool;
}.

(** What a command that succeeds has done, and that it leaves the other keys. *)
Class RedisLaws `{Redis} := {
  lpush_list k v r r' : lpush k v r = Some r' ->
    list_of r' = fun k' => if String.eqb k' k then v :: list_of r k else list_of r k';
  lpush_text k v r r' : lpush k v r = Some r' -> text_of r' = text_of r;
  lrem_list k v r r' : lrem_all k v r = Some r' ->
    list_of r' = fun k' => if String.eqb k' k then filter (fun x => x <> v) (list_of r k) else list_of r k';
  del_list k r r' : del k r = Some r' -> list_of r' = fun k' => if String.eqb k' k then [] else list_of r k';
  del_text k r r' : del k r = Some r' -> text_of r' = fun k' => if String.eqb k' k then None else text_of r k';
  set_ex_text k v t r r' : set_ex k v t r = Some r' ->
    text_of r' = fun k' => if String.eqb k' k then Some v else text_of r k';
  hset_field k f v r r' : hset k f v r = Some r' ->
    field_of r' = (fun k' f' => if String.eqb k' k && String.eqb f' f then Some v else field_of r k' f') /\
    list_of r' = list_of r;
  hdel_field k f r r' : hdel k f r = Some r' ->
    field_of r' = (fun k' f' => if String.eqb k' k && String.eqb f' f then None else field_of r k' f') /\
    list_of r' = list_of r;
}.

Definition REDIS_POOLS_KEYS : string := "solana_pools_keys".
Definition REDIS_POOLS_DETAILS : string := "solana_pools_details".
Definition REDIS_LP_MINT_KEYS : string := "solana_lp_mint_keys".
Definition REDIS_USERS : string := "solana_bot_users".
Definition REDIS_SWAP_CACHE_PREFIX : string := "solana_action_swap_keys".
Definition REDIS_SWAP_CACHE_EXPIRES_S : Z := 600.

(** How keys, signatures and identifiers are written, and read back. *)
Class Texts := {
  key_text : Pubkey -> string;
  key_of_text : string -> option Pubkey;
  signature_text : Signature -> string;
  signature_of_text : string -> option Signature;
  uuid_text : Uuid -> string;
  uuid_of_text : string -> option Uuid;
}.

Class TextLaws `{Texts} := {
  key_reads k : key_of_text (key_text k) = Some k;
  signature_reads s : signature_of_text (signature_text s) = Some s;
  uuid_reads u : uuid_of_text (uuid_text u) = Some u;
  (** a signature's base58 has no hyphen, a hyphenated identifier has *)
  uuid_is_no_signature u s : uuid_text u <> signature_text s;
}.

Section Cache.
Context `{Redis} `{Texts}.

Abbreviation Stored A := (ST redis (result string A)) (only parsing).

(** [redis.get()?]. *)
Definition connected {A} (m : Stored A) : Stored A :=
  ok <- st_gets get_conn ;; if ok : bool then m else st_bail "connection"%string.

(** [let _: RedisResult<()> = ...]: a command that fails does nothing. *)
Definition ignoring (command : redis -> option redis) : ST redis unit :=
  st_modify (fun r => default r (command r)).

(** [command?]. *)
Definition trying (command : redis -> option redis) : Stored unit := fun r =>
  match command r with Some r' => (Some (Ok tt), r') | None => (Some (Err "command"%string), r) end.

Definition reading {A} (read : redis -> A) : Stored A := fun r =>
  (Some (if readable r then Ok (read r) else Err "command"%string), r).

(** [pair_text] is the pool as JSON, which may fail. *)
Definition cache_new_pool (pool_id : Pubkey) (pair_text : option string) : Stored unit :=
  connected (ignoring (lpush REDIS_POOLS_KEYS (key_text pool_id)) ;;;
    match pair_text with
    | Some t => ignoring (hset REDIS_POOLS_DETAILS (key_text pool_id) t) ;;; st_ok tt
    | None => st_bail "json"%string
    end).

Definition cache_pool_id (pair : Pubkey) : Stored unit :=
  connected (ignoring (lpush REDIS_POOLS_KEYS (key_text pair)) ;;; st_ok tt).

(** [Pubkey::from_str(pair).unwrap()] on each. *)
Definition get_cached_keys (k : string) : Stored (list Pubkey) :=
  connected (texts <-! reading (fun r => list_of r k) ;;
             st_lift (st_unwrap (mapM key_of_text texts))).

Definition get_cached_pool_ids : Stored (list Pubkey) := get_cached_keys REDIS_POOLS_KEYS.

Definition remove_pool_from_cache (pool_id : Pubkey) : Stored unit :=
  connected (ignoring (lrem_all REDIS_POOLS_KEYS (key_text pool_id)) ;;;
             ignoring (hdel REDIS_POOLS_DETAILS (key_text pool_id)) ;;; st_ok tt).

Definition cache_new_lp_mint_address (mint_address : Pubkey) : Stored unit :=
  connected (ignoring (lpush REDIS_LP_MINT_KEYS (key_text mint_address)) ;;; st_ok tt).

Definition get_cached_lp_mint_addresses : Stored (list Pubkey) := get_cached_keys REDIS_LP_MINT_KEYS.

Definition remove_lp_mint_address_from_cache (mint_address : Pubkey) : Stored unit :=
  connected (ignoring (lrem_all REDIS_LP_MINT_KEYS (key_text mint_address)) ;;; st_ok tt).

Definition swap_key (t : string) : string := (REDIS_SWAP_CACHE_PREFIX +:+ t)%string.

Definition cachenew_swap_execution (uuid : Uuid) (signature : Signature) : Stored unit :=
  connected (_ <-! trying (set_ex (swap_key (uuid_text uuid)) (signature_text signature) REDIS_SWAP_CACHE_EXPIRES_S) ;;
             _ <-! trying (set_ex (swap_key (signature_text signature)) (uuid_text uuid) REDIS_SWAP_CACHE_EXPIRES_S) ;;
             st_ok tt).

(** [transpose()?] of a text that must parse. *)
Definition parsed {A} (parse : string -> option A) (t : option string) : Stored (option A) :=
  match t with
  | None => st_ok None
  | Some t => match parse t with Some a => st_ok (Some a) | None => st_bail "parse"%string end
  end.

Definition get_swap_execution_signature (uuid : Uuid) : Stored (option Signature) :=
  connected (t <-! reading (fun r => text_of r (swap_key (uuid_text uuid))) ;; parsed signature_of_text t).

Definition get_swap_execution_uuid (signature : Signature) : Stored (option Uuid) :=
  connected (t <-! reading (fun r => text_of r (swap_key (signature_text signature))) ;; parsed uuid_of_text t).

Definition delete_swap_execution (uuid : Uuid) (signature : Signature) : Stored unit :=
  connected (_ <-! trying (del (swap_key (uuid_text uuid))) ;;
             _ <-! trying (del (swap_key (signature_text signature))) ;; st_ok tt).

Definition add_user (user_id : string) : Stored unit :=
  connected (ignoring (lpush REDIS_USERS user_id) ;;; st_ok tt).

Fixpoint push_users (user_ids : list string) : ST redis unit :=
  match user_ids with
  | [] => st_ret tt
  | user_id :: rest => ignoring (lpush REDIS_USERS user_id) ;;; push_users rest
  end.

Definition sync_users (user_ids : list string) : Stored unit :=
  connected (ignoring (del REDIS_USERS) ;;; push_users user_ids ;;; st_ok tt).

Definition get_users : Stored (list string) := connected (reading (fun r => list_of r REDIS_USERS)).

Definition user_exists (user_id : string) : Stored bool :=
  connected (users <-! reading (fun r => list_of r REDIS_USERS) ;; st_ok (bool_decide (user_id ∈ users))).

Definition get_users_count : Stored nat := connected (reading (fun r => length (list_of r REDIS_USERS))).

(** The count, and the user pushed last if there are more than before. *)
Definition monitor_users (previous_count : nat) : Stored (nat * option string) :=
  connected (current_count <-! reading (fun r => length (list_of r REDIS_USERS)) ;;
             if (previous_count <? current_count)%nat then
               new_user <-! reading (fun r => head (list_of r REDIS_USERS)) ;; st_ok (current_count, new_user)
             else st_ok (current_count, None)).
End Cache.

(** ** Columns of the database *)

(** [bs58::decode] of a text; [Pubkey] and [Signature] as their bytes. *)
Class Base58 := {
  encode58 : list Z -> string;
  decode58 : string -> option (list Z);
  decode_encode58 bs : decode58 (encode58 bs) = Some bs;
}.

Section Columns.
Context `{Base58}.

(** A column's text: the bytes in base58. *)
Definition to_sql (bytes : list Z) : string := encode58 bytes.

(** [from_sql]: the [unwrap]s panic on what is not base58 of [n] bytes; [utf8]: whether
    the column's bytes are UTF-8, or else an error. *)
Definition from_sql (n : nat) (utf8 : bool) (t : string) : option (result string (list Z)) :=
  if utf8 then
    bytes ← decode58 t;
    if (length bytes =? n)%nat then Some (Ok bytes) else None
  else Some (Err "Utf8Error"%string).

Definition pubkey_from_sql : bool -> string -> option (result string (list Z)) := from_sql 32.
Definition signature_from_sql : bool -> string -> option (result string (list Z)) := from_sql 64.

(** [Pubkey::from_str] of serde's functions: errors, not panics. *)
Definition deserialize_pubkey (from_str : string -> option Pubkey) (s : string) : result string Pubkey :=
  match from_str s with Some k => Ok k | None => Err "invalid key"%string end.

Definition deserialize_pubkey_opt (from_str : string -> option Pubkey) (s : option string) :
    result string (option Pubkey) :=
  match s with
  | Some s => match from_str s with Some k => Ok (Some k) | None => Err "invalid key"%string end
  | None => Ok None
  end.

Definition serialize_pubkey (to_string : Pubkey -> string) (key : Pubkey) : string := to_string key.
Definition serialize_pubkey_opt (to_string : Pubkey -> string) (key : option Pubkey) : option string :=
  to_string <$> key.

(** A JSON column: [JsonbWrapper] writes the version of the format first, [JsonbVec]
    does not. *)
Definition jsonb_wrapper_to_sql (json : option (list Z)) : result string (list Z) :=
  match json with Some j => Ok (1 :: j) | None => Err "json"%string end.
Definition jsonb_vec_to_sql (json : option (list Z)) : result string (list Z) :=
  match json with Some j => Ok j | None => Err "json"%string end.

(** ** Keys *)

(** [Keypair::from_bytes] and the public half of a secret. *)
Definition keypair_from_base58_string (from_bytes : list Z -> option KeypairClonable)
    (public_of : list Z -> option (list Z)) (privkey : string) : result string KeypairClonable :=
  match decode58 privkey with
  | None => Err "Failed to decode base58 string"%string
  | Some bytes =>
      let ok_or (o : option KeypairClonable) := match o with Some k => Ok k | None => Err "SignatureError"%string end in
      if (length bytes =? 64)%nat then ok_or (from_bytes bytes)
      else if (length bytes =? 32)%nat then ok_or (public ← public_of bytes; from_bytes (bytes ++ public))
      else Err "Invalid length for secret key"%string
  end.

Definition private_key_string_base58 (bytes : list Z) : string := encode58 bytes.
End Columns.

(** *** Keys in hexadecimal ([utils/keys.rs]) *)

Definition hex_digit (n : Z) : ascii :=
  ascii_of_nat (Z.to_nat (if n <? 10 then 48 + n else 87 + n)).

(** [format!("{:02x}", b)] of each byte. *)
Definition private_key_string_base16 (bytes : list Z) : string :=
  string_of_list_ascii (b ← bytes; [hex_digit (b / 16); hex_digit (b mod 16)]).

Definition hex_value (a : ascii) : option Z :=
  let n := Z.of_nat (nat_of_ascii a) in
  if (48 <=? n) && (n <=? 57) then Some (n - 48)
  else if (97 <=? n) && (n <=? 102) then Some (n - 87)
  else if (65 <=? n) && (n <=? 70) then Some (n - 55)
  else None.

(** [u8::from_str_radix(s, 16)] of two characters, the first of which may be a [+]. *)
Definition u8_from_hex (a b : ascii) : option Z :=
  if Nat.eqb (nat_of_ascii a) 43 then hex_value b
  else x ← hex_value a; y ← hex_value b; Some (16 * x + y).

(** The pairs of characters of an ASCII text; a last single one is out of range. *)
Fixpoint hex_bytes (s : list ascii) : option (list Z) :=
  match s with
  | [] => Some []
  | a :: b :: s' => x ← u8_from_hex a b; xs ← hex_bytes s'; Some (x :: xs)
  | [_] => None
  end.

Definition from_base16_str_private_key (from_bytes : list Z -> option KeypairClonable) (private_key : string) :
    option KeypairClonable := hex_bytes (list_ascii_of_string private_key) ≫= from_bytes.

(** ** What the settings configure *)

(** [tg_bot/sniping_strategy_config_args.rs]. *)
Module Sniping.
Record SnipingStrategyConfigArgs := args {
  user_id : option Z;
  sniper_privkey : option string;
  size_sol : option f64;
  stop_loss_percent_move_down : option f64;
  take_profit_percent_move_up : option f64;
  force_exit_horizon_s : option Z;
  max_simultaneous_snipes : option Z;
  min_pool_liquidity_sol : option f64;
  skip_pump_fun : option bool;
  skip_mintable : option bool;
  buy_delay_ms : option Z;
  skip_if_price_drops_percent : option f64;
}.

Definition is_ready (c : SnipingStrategyConfigArgs) : bool :=
  is_some (sniper_privkey c) && is_some (size_sol c) && is_some (stop_loss_percent_move_down c)
  && is_some (take_profit_percent_move_up c) && is_some (force_exit_horizon_s c)
  && is_some (max_simultaneous_snipes c) && is_some (min_pool_liquidity_sol c).

Definition missing_fields (c : SnipingStrategyConfigArgs) : list string :=
  (if is_some (size_sol c) then [] else [line "size sol"])
  ++ (if is_some (stop_loss_percent_move_down c) then [] else [line "stop loss percent move down"])
  ++ (if is_some (take_profit_percent_move_up c) then [] else [line "take profit percent move up"])
  ++ (if is_some (force_exit_horizon_s c) then [] else [line "force exit horizon s"]).

(** Only the first six fields are taken over. *)
Definition update (new_config self : SnipingStrategyConfigArgs) : SnipingStrategyConfigArgs := {|
  user_id := override (user_id self) (user_id new_config);
  sniper_privkey := override (sniper_privkey self) (sniper_privkey new_config);
  size_sol := override (size_sol self) (size_sol new_config);
  stop_loss_percent_move_down :=
    override (stop_loss_percent_move_down self) (stop_loss_percent_move_down new_config);
  take_profit_percent_move_up :=
    override (take_profit_percent_move_up self) (take_profit_percent_move_up new_config);
  force_exit_horizon_s := override (force_exit_horizon_s self) (force_exit_horizon_s new_config);
  max_simultaneous_snipes := max_simultaneous_snipes self;
  min_pool_liquidity_sol := min_pool_liquidity_sol self;
  skip_pump_fun := skip_pump_fun self;
  skip_mintable := skip_mintable self;
  buy_delay_ms := buy_delay_ms self;
  skip_if_price_drops_percent := skip_if_price_drops_percent self;
|}.

(** [NewSnipingStrategyInstance::try_from], as the instance without its number yet. *)
Definition instance_of (value : SnipingStrategyConfigArgs) : result string SnipingStrategyInstance :=
  let ok_or {A} (o : option A) (e : string) := match o with Some a => Ok a | None => Err e end in
  uid <-? ok_or (user_id value) "user_id is None"%string ;;
  key <-? ok_or (sniper_privkey value) "sniper_privkey is None"%string ;;
  size <-? ok_or (size_sol value) "size_sol is None"%string ;;
  down <-? ok_or (stop_loss_percent_move_down value) "stop_loss_percent_move_down is None"%string ;;
  up <-? ok_or (take_profit_percent_move_up value) "take_profit_percent_move_up is None"%string ;;
  horizon <-? ok_or (force_exit_horizon_s value) "force_exit_horizon_s is None"%string ;;
  liquidity <-? ok_or (min_pool_liquidity_sol value) "min_pool_liquidity_sol is None"%string ;;
  Ok {| SniperStrategy.snipe_id := 0; snipe_user_id := uid; sniper_private_key := key;
        SniperStrategy.size_sol := size; SniperStrategy.stop_loss_percent_move_down := down;
        SniperStrategy.take_profit_percent_move_up := up; SniperStrategy.force_exit_horizon_s := horizon;
        SniperStrategy.max_simultaneous_snipes := default 1 (max_simultaneous_snipes value);
        SniperStrategy.min_pool_liquidity_sol := liquidity;
        SniperStrategy.skip_pump_fun := default false (skip_pump_fun value);
        SniperStrategy.skip_mintable := default false (skip_mintable value);
        SniperStrategy.buy_delay_ms := default 0 (buy_delay_ms value);
        SniperStrategy.skip_if_price_drops_percent := default f64_zero (skip_if_price_drops_percent value) |}.
End Sniping.

Inductive StrategyConfig :=
| VolumeConfig (c : VolumeStrategyConfigArgs)
| SnipingConfig (c : Sniping.SnipingStrategyConfigArgs).

(** The settings' map of strategies. *)
Definition get_volume_strategy_config (strategies : gmap string StrategyConfig) : option VolumeStrategyConfigArgs :=
  match strategies !! "mm"%string with Some (VolumeConfig config) => Some config | _ => None end.

Definition get_sniping_strategy_config (strategies : gmap string StrategyConfig) :
    option Sniping.SnipingStrategyConfigArgs :=
  match strategies !! "trading"%string with Some (SnipingConfig config) => Some config | _ => None end.

(** ** Rows of the database ([storage/persistent.rs]) *)

(** A row inserted gets the number the database gives, if it takes it. *)
Definition save_new_sniping_strategy_to_db (insert : SnipingStrategyInstance -> option Z)
    (strategy : SnipingStrategyInstance) : result string SnipingStrategyInstance :=
  match insert strategy with
  | None => Err "database"%string
  | Some id => Ok {|
      snipe_id := id; snipe_user_id := snipe_user_id strategy;
      sniper_private_key := sniper_private_key strategy; size_sol := size_sol strategy;
      stop_loss_percent_move_down := stop_loss_percent_move_down strategy;
      take_profit_percent_move_up := take_profit_percent_move_up strategy;
      force_exit_horizon_s := force_exit_horizon_s strategy;
      max_simultaneous_snipes := max_simultaneous_snipes strategy;
      min_pool_liquidity_sol := min_pool_liquidity_sol strategy;
      skip_pump_fun := skip_pump_fun strategy; skip_mintable := skip_mintable strategy;
      buy_delay_ms := buy_delay_ms strategy;
      skip_if_price_drops_percent := skip_if_price_drops_percent strategy |}
  end.

(** What [BotEvent] is serialized as: its fields by name.  A heartbeat also carries the
    instant it was made at, written as the milliseconds since. *)
Inductive EventField :=
| Kind (name : string)
| TickSize (ms : Z)
| Elapsed (ms : Z)
| Content (event : BotEvent)
| ActionId (id : Uuid).

Definition serialize_bot_event (elapsed_ms : Z) (self : BotEvent) : list (string * EventField) :=
  match self with
  | HeartBeat tick_size_ms =>
      [("type", Kind "HeartBeat"); ("tick_size_ms", TickSize tick_size_ms);
       ("instant", Elapsed elapsed_ms)]
  | Blockchain _ => [("type", Kind "BlockchainEvent"); ("event", Content self)]
  | Derived _ => [("type", Kind "DerivedEvent"); ("event", Content self)]
  | ExecutionResultEvent action_uuid _ _ =>
      [("type", Kind "ExecutionResult"); ("action_uuid", ActionId action_uuid);
       ("result", Content self)]
  | System _ => [("type", Kind "SystemEvent"); ("event", Content self)]
  end%string.

(** The number of fields [serialize_struct] is told. *)
Definition declared_fields : nat := 2.

(** The tables the logger fills: prices, and events by the time they are saved at, which
    is the key of their table. *)
Record EventTables := {
  prices : list RaydiumPoolPriceUpdate;
  bot_events : list (Z * BotEvent);
}.

Definition save_price_to_db (up : bool) (price : RaydiumPoolPriceUpdate) (t : EventTables) :
    result string unit * EventTables :=
  if up then (Ok tt, {| prices := prices t ++ [price]; bot_events := bot_events t |})
  else (Err "database"%string, t).

Definition save_bot_event_to_db (up : bool) (now : Z) (event : BotEvent) (t : EventTables) :
    result string unit * EventTables :=
  if up && negb (bool_decide (now ∈ (bot_events t).*1)) then
    (Ok tt, {| prices := prices t; bot_events := bot_events t ++ [(now, event)] |})
  else (Err "database"%string, t).

(** ** The logger ([strategies/logger_interceptor]) *)

(** An event at a time; [up]: whether the database answers.  An error is only logged. *)
Definition log_event (up : bool) (now : Z) (event : BotEvent) (t : EventTables) : EventTables :=
  match event with
  | HeartBeat _ => t
  | Blockchain (RaydiumHeartbeatPriceUpdate price) => snd (save_price_to_db up price t)
  | Blockchain (RaydiumSwap swap) => snd (save_price_to_db up (se_price_update swap) t)
  | _ => snd (save_bot_event_to_db up now event t)
  end.

Definition log_events (events : list (bool * Z * BotEvent)) (t : EventTables) : EventTables :=
  foldl (fun t e => log_event e.1.1 e.1.2 e.2 t) t events.

(** ** Deposits ([strategies/deposit]) *)

(** The row of a user: the chat, the wallet and its private key. *)
Record DepositUser := {
  du_chat : Z;
  du_wallet : string;
  du_private_key : string;
}.

Record EngineConfig := {
  bot_wallet : option string;
  bot_fee : option f64;
}.

(** What the strategy needs: the texts of keys, the keys of texts, and the database's
    users, [None] when it is not reached. *)
Class DepositWorld := {
  key_to_string : Pubkey -> string;
  wallet_of_string : string -> option Pubkey;
  keypair_of_string : string -> option KeypairClonable;
  db_users : option (list DepositUser);
  (** whether a bot to notify with is configured *)
  has_tg_bot : bool;
}.

(** [(amount as f64 * bot_fee) as u64]. *)
Definition deposit_fee (amount : Z) (bot_fee : f64) : Z := f64_as_u64 (f64_mul (f64_of_Z amount) bot_fee).

(** The actions for an event, with the chats notified; [None]: the strategy panics. *)
Definition process_deposit `{DepositWorld} (config : EngineConfig) (event : BotEvent) (id : Uuid) (now : Z) :
    option (list SolanaAction * list Z) :=
  match event with
  | Blockchain (Deposit _ user_wallet amount) =>
      match bot_wallet config with
      | None => Some ([], [])
      | Some bot_wallet_str =>
          let fee := default f64_zero (bot_fee config) in
          us ← db_users;
          match List.find (fun u => String.eqb (du_wallet u) (key_to_string user_wallet)) us with
          | None => Some ([], [])
          | Some user =>
              if has_tg_bot then
                main_wallet ← keypair_of_string (du_private_key user);
                receiver ← wallet_of_string bot_wallet_str;
                Some ([new_action id now main_wallet [TransferPayload
                  {| asset := Sol; receiver := receiver; amount := Exact (deposit_fee amount fee) |}]],
                  [du_chat user])
              else None
          end
      end
  | _ => Some ([], [])
  end.

(** ** Properties *)

Section Laws.
#[local] Set Default Proof Using "Type*".
Context `{RedisLaws} `{TextLaws}.

Lemma swap_key_inj a b : swap_key a = swap_key b -> a = b.
Proof. unfold swap_key. intros E. by injection E. Qed.

Lemma connected_ok {A} (m : ST redis (result string A)) r :
  get_conn r = true -> connected m r = m r.
Proof. intros Hc. unfold connected, st_bind. cbn. by rewrite Hc. Qed.

(** A swap's signature is found by its identifier and its identifier by its
    signature once the pair is cached, and neither after it is deleted, while the other
    pairs stay: whatever else the cache holds, if the commands are answered. *)
Theorem swap_execution_roundtrip u s r r1 r2 :
  cachenew_swap_execution u s r = (Some (Ok tt), r1) ->
  delete_swap_execution u s r1 = (Some (Ok tt), r2) ->
  (forall r, get_conn r = true) -> (forall r, readable r = true) ->
  get_swap_execution_signature u r1 = (Some (Ok (Some s)), r1) /\
  get_swap_execution_uuid s r1 = (Some (Ok (Some u)), r1) /\
  get_swap_execution_signature u r2 = (Some (Ok None), r2) /\
  get_swap_execution_uuid s r2 = (Some (Ok None), r2) /\
  (forall u', u' <> u -> fst (get_swap_execution_signature u' r2) = fst (get_swap_execution_signature u' r)).
Proof.
  intros Hc Hd Hconn Hread. unfold cachenew_swap_execution in Hc. rewrite connected_ok in Hc by done.
  unfold delete_swap_execution in Hd. rewrite connected_ok in Hd by done.
  unfold st_try, st_bind, trying in Hc, Hd.
  destruct (set_ex (swap_key (uuid_text u)) _ _ r) as [ra|] eqn:Ea; cbn in Hc; [|done].
  destruct (set_ex (swap_key (signature_text s)) _ _ ra) as [rb|] eqn:Eb; cbn in Hc; [|done].
  injection Hc as <-.
  destruct (del (swap_key (uuid_text u)) rb) as [rc|] eqn:Ec; cbn in Hd; [|done].
  destruct (del (swap_key (signature_text s)) rc) as [rd|] eqn:Ed; cbn in Hd; [|done].
  injection Hd as <-. apply set_ex_text in Ea, Eb. apply del_text in Ec, Ed.
  assert (forall a b, String.eqb (swap_key a) (swap_key b) = bool_decide (a = b)) as Hkey.
  { intros a b. case_bool_decide as E; [subst; apply String.eqb_refl|].
    apply String.eqb_neq. by intros ?%swap_key_inj. }
  pose proof (uuid_is_no_signature u s) as Hne.
  assert (forall m r0, get_swap_execution_signature m r0 = parsed signature_of_text (text_of r0 (swap_key (uuid_text m))) r0) as Hsig.
  { intros m r0. unfold get_swap_execution_signature. rewrite connected_ok by done.
    unfold st_try, st_bind, reading. by rewrite Hread. }
  assert (forall m r0, get_swap_execution_uuid m r0 = parsed uuid_of_text (text_of r0 (swap_key (signature_text m))) r0) as Huuid.
  { intros m r0. unfold get_swap_execution_uuid. rewrite connected_ok by done.
    unfold st_try, st_bind, reading. by rewrite Hread. }
  rewrite !Hsig, !Huuid, Ed, Ec, Eb, Ea. rewrite !Hkey.
  assert (bool_decide (uuid_text u = signature_text s) = false) as E1 by by apply bool_decide_eq_false_2.
  assert (bool_decide (signature_text s = uuid_text u) = false) as E2 by (apply bool_decide_eq_false_2; congruence).
  assert (forall t : string, bool_decide (t = t) = true) as E3 by (intros t; by apply bool_decide_eq_true_2).
  split_and!.
  - rewrite E1, E3. unfold parsed. by rewrite signature_reads.
  - rewrite E3. unfold parsed. by rewrite uuid_reads.
  - by rewrite E1, E3.
  - by rewrite E3.
  - intros u' Hu'. rewrite !Hsig, Ed, Ec, Eb, Ea, !Hkey.
    rewrite !(bool_decide_eq_false_2 (uuid_text u' = signature_text s)) by apply uuid_is_no_signature.
    rewrite !(bool_decide_eq_false_2 (uuid_text u' = uuid_text u)); [unfold parsed; by repeat case_match|].
    intros E. apply Hu'. pose proof (uuid_reads u') as Hu. rewrite E, uuid_reads in Hu. congruence.
Qed.

Lemma push_users_list us : forall r r',
  push_users us r = (Some tt, r') -> (forall k v r, is_Some (lpush k v r)) ->
  list_of r' REDIS_USERS = rev us ++ list_of r REDIS_USERS.
Proof.
  induction us as [|u us IH]; intros r r' E Hup; cbn in E; [by injection E as <-|].
  unfold ignoring, st_bind, st_modify in E. destruct (Hup REDIS_USERS u r) as [r1 Hr1]. rewrite Hr1 in E. cbn in E.
  rewrite (IH r1 r' E Hup), (lpush_list _ _ _ _ Hr1), String.eqb_refl. cbn [rev]. by rewrite <- (assoc_L (++)).
Qed.

(** The users after they are synchronized, the last first, when no command fails. *)
Lemma users_after_sync ids r r' :
  sync_users ids r = (Some (Ok tt), r') ->
  (forall r, get_conn r = true) -> (forall r, readable r = true) ->
  (forall k v r, is_Some (lpush k v r)) -> (forall k r, is_Some (del k r)) ->
  get_users r' = (Some (Ok (rev ids)), r') /\
  forall u, user_exists u r' = (Some (Ok (bool_decide (u ∈ ids))), r').
Proof.
  intros E Hconn Hread Hpush Hdel. unfold sync_users in E. rewrite connected_ok in E by done.
  unfold st_bind, ignoring, st_modify in E. cbn in E. destruct (Hdel REDIS_USERS r) as [r0 Hr0]. rewrite Hr0 in E. cbn in E.
  destruct (push_users ids r0) as [[[]|] r1] eqn:Ep; [|done]. injection E as <-.
  pose proof (push_users_list ids r0 r1 Ep Hpush) as Hl.
  rewrite (del_list _ _ _ Hr0), String.eqb_refl, app_nil_r in Hl.
  unfold get_users, user_exists. split.
  - rewrite connected_ok by done. unfold reading. by rewrite Hread, Hl.
  - intros u. rewrite connected_ok by done. unfold st_try, st_bind, reading. rewrite Hread, Hl. cbn. unfold st_ok, st_ret.
    do 3 f_equal. apply bool_decide_ext. rewrite <- Permutation_rev. done.
Qed.
End Laws.

(** ** Columns and keys *)

Lemma sql_roundtrip `{Base58} n bytes : length bytes = n -> from_sql n true (to_sql bytes) = Some (Ok bytes).
Proof. intros <-. unfold from_sql, to_sql. rewrite decode_encode58. cbn. by rewrite Nat.eqb_refl. Qed.

Definition is_byte (b : Z) : Prop := 0 <= b < 256.

Lemma hex_digits_computed :
  forallb (fun b => match u8_from_hex (hex_digit (Z.of_nat b / 16)) (hex_digit (Z.of_nat b mod 16)) with
                    | Some b' => b' =? Z.of_nat b | None => false end) (seq 0 256) = true.
Proof. vm_compute. reflexivity. Qed.

Lemma hex_byte b : is_byte b -> u8_from_hex (hex_digit (b / 16)) (hex_digit (b mod 16)) = Some b.
Proof.
  intros Hb. pose proof hex_digits_computed as Hall. rewrite forallb_forall in Hall.
  specialize (Hall (Z.to_nat b)). rewrite in_seq, Z2Nat.id in Hall by (unfold is_byte in Hb; lia).
  unfold is_byte in Hb. destruct (u8_from_hex _ _) as [b'|]; [|discriminate Hall; lia].
  by rewrite (proj1 (Z.eqb_eq _ _) (Hall ltac:(lia))).
Qed.

(** A private key written in hexadecimal is read back, whatever its bytes. *)
Theorem base16_key_roundtrip (from_bytes : list Z -> option KeypairClonable) bytes :
  Forall is_byte bytes ->
  from_base16_str_private_key from_bytes (private_key_string_base16 bytes) = from_bytes bytes.
Proof.
  intros Hb. unfold from_base16_str_private_key, private_key_string_base16.
  rewrite list_ascii_of_string_of_list_ascii.
  assert (hex_bytes (b ← bytes; [hex_digit (b / 16); hex_digit (b mod 16)]) = Some bytes) as ->; [|done].
  induction Hb as [|b bytes Hb _ IH]; [done|]. cbn [mbind list_bind app hex_bytes].
  rewrite hex_byte by done. cbn. by rewrite IH.
Qed.

(** ** Deposits *)

(** A serialized event starts with its type and no name occurs twice; a heartbeat and
    the result of an execution have one field more than is declared. *)
Lemma bot_event_fields elapsed_ms e :
  (exists kind rest, serialize_bot_event elapsed_ms e = ("type"%string, Kind kind) :: rest) /\
  NoDup (serialize_bot_event elapsed_ms e).*1 /\
  (length (serialize_bot_event elapsed_ms e) = declared_fields <->
   match e with HeartBeat _ | ExecutionResultEvent _ _ _ => False | _ => True end).
Proof.
  destruct e; (split; [by eexists _, _|]); (split; [by apply (bool_decide_unpack _); vm_compute|]); done.
Qed.

(** The strategy is set up: the bot has a wallet and a Telegram bot, the database is
    reached, and the key stored for a user is that of the user's wallet; the text of a key
    determines it. *)
Record deposits_set_up `{DepositWorld} (config : EngineConfig) (receiver : Pubkey)
    (users : list DepositUser) : Prop := {
  set_up_wallet : bot_wallet config ≫= wallet_of_string = Some receiver;
  set_up_users : db_users = Some users;
  set_up_bot : has_tg_bot = true;
  set_up_keys u : u ∈ users ->
    exists key, keypair_of_string (du_private_key u) = Some key /\ key_to_string key = du_wallet u;
  set_up_texts a b : key_to_string a = key_to_string b -> a = b;
}.

(** C25. When the strategy is set up, a deposit into a wallet that belongs to one of the
    users is answered with exactly one action and one notification of that user: the
    action is signed by the deposited wallet itself and is one transfer of SOL to the
    bot's wallet, of the deposited lamports times the fee, truncated and kept in the range
    of a [u64].  A deposit into any other wallet, and every other event, is answered with
    nothing. *)
Theorem deposit_pays_fee `{DepositWorld} config receiver users event id now :
  deposits_set_up config receiver users ->
  match event with
  | Blockchain (Deposit _ wallet amount) =>
      ((exists u, u ∈ users /\ du_wallet u = key_to_string wallet) ->
       exists user, user ∈ users /\ du_wallet user = key_to_string wallet /\
         process_deposit config event id now =
           Some ([new_action id now wallet [TransferPayload {| asset := Sol; receiver := receiver;
                    amount := Exact (f64_as_u64 (f64_mul (f64_of_Z amount)
                                                         (default f64_zero (bot_fee config)))) |}]],
                 [du_chat user])) /\
      ((forall u, u ∈ users -> du_wallet u <> key_to_string wallet) ->
       process_deposit config event id now = Some ([], []))
  | _ => process_deposit config event id now = Some ([], [])
  end.
Proof.
  intros [Hw Hus Hbot Hkeys Htexts]. unfold process_deposit. destruct event as [|[]| | |]; try done.
  destruct (bot_wallet config) as [w|]; [|done]. cbn in Hw. rewrite Hus, Hbot. cbn.
  destruct (List.find _ users) as [user|] eqn:Ef.
  - apply List.find_some in Ef as [Hin%list_elem_of_In Ew%String.eqb_eq].
    destruct (Hkeys user Hin) as (key & Ek & Et). split; [|intros Hno; by destruct (Hno user Hin)].
    intros _. exists user. rewrite Ek, Hw. cbn. rewrite (Htexts key acc) by congruence. done.
  - split; [|done]. intros (u & Hu%list_elem_of_In & Ew).
    pose proof (List.find_none _ _ Ef u Hu) as Hno. cbn in Hno.
    by rewrite Ew, String.eqb_refl in Hno.
Qed.

(** A key's text is its number. *)
Definition sample_deposits : DepositWorld := {|
  key_to_string k := pretty k;
  wallet_of_string s := if String.eqb s "bot" then Some 9%Z else None;
  keypair_of_string s := if String.eqb s "secret" then Some 5%Z else None;
  db_users := Some [{| du_chat := 10%Z; du_wallet := "5"; du_private_key := "secret" |}];
  has_tg_bot := true;
|}%string.

Definition half_percent : EngineConfig :=
  {| bot_wallet := Some "bot"%string; bot_fee := Some (f64_div (f64_of_Z 1) (f64_of_Z 200)) |}.

(** Half a percent of 1 SOL. *)
Definition sample_fee_action : SolanaAction :=
  new_action 1 0 5 [TransferPayload {| asset := Sol; receiver := 9; amount := Exact 5000000 |}].

Lemma sample_set_up :
  deposits_set_up (H := sample_deposits) half_percent 9
    [{| du_chat := 10; du_wallet := "5"%string; du_private_key := "secret"%string |}].
Proof.
  split; try done.
  - intros u ->%list_elem_of_singleton. by exists 5.
  - intros a b. apply (inj pretty).
Qed.

Lemma deposit_pays_fee_witness :
  process_deposit (H := sample_deposits) half_percent (Blockchain (Deposit "sig" 5 1000000000)) 1 0
    = Some ([sample_fee_action], [10])
  /\ process_deposit (H := sample_deposits) half_percent (Blockchain (Deposit "sig" 6 1000000000)) 1 0
    = Some ([], []).
Proof.
  pose proof (fun event => deposit_pays_fee (H := sample_deposits) half_percent 9 _ event 1 0 sample_set_up) as Hd.
  split.
  - destruct (Hd (Blockchain (Deposit "sig" 5 1000000000))) as [Hpays _].
    destruct Hpays as (user & ->%list_elem_of_singleton & _ & ->).
    { eexists. split; [by apply list_elem_of_singleton | reflexivity]. }
    vm_compute. reflexivity.
  - destruct (Hd (Blockchain (Deposit "sig" 6 1000000000))) as [_ Hnone].
    apply Hnone. intros u ->%list_elem_of_singleton. vm_compute. discriminate.
Defined.

(** ** Starting ([config/app_context.rs], [main.rs]) *)

Module Startup.
(** What [main] reads of the [Settings]. *)
Record Settings := {
  mode : Mode;
  strategies : gmap string StrategyConfig;
  poll_node_for_tx_confirmations_ms : option Z;
  telegram_token : option string;
}.

(** A row of the table of the volume strategies' instances. *)
Record VolumeRow := {
  row_completed_at : option Z;
  row_target_pool : Pubkey;
}.

(** What the start asks of the database, the nodes and the strategies. *)
Class StartWorld := {
  volume_rows : option (list VolumeRow);
  pool_details : Pubkey -> result string RaydiumPool;
  pool_price : Pubkey -> result string RaydiumPoolPriceUpdate;
  insert_sniping : SnipingStrategyInstance -> option Z;
  new_sniper : SnipingStrategyInstance -> result string unit;
}.

Section Start.
Context `{StartWorld}.

(** The pools of the strategies that are not completed. *)
Definition pools_of (rows : list VolumeRow) : list Pubkey :=
  map row_target_pool (filter (fun r => row_completed_at r = None) rows).

(** One future of [join_all]: the details, and then the price. *)
Definition pool_future (pool : Pubkey) : result string (Pubkey * RaydiumPool * RaydiumPoolPriceUpdate) :=
  details <-? pool_details pool ;;
  price <-? pool_price pool ;;
  Ok (pool, details, price).

Abbreviation Pools := (gmap Pubkey RaydiumPool * gmap Pubkey RaydiumPoolPriceUpdate)%type (only parsing).

(** The loop over the results, which panics at the first error. *)
Fixpoint insert_results (results : list (result string (Pubkey * RaydiumPool * RaydiumPoolPriceUpdate)))
    (m : Pools) : option Pools :=
  match results with
  | [] => Some m
  | Ok (pubkey, pool, price) :: results' => insert_results results' (<[pubkey := pool]> m.1, <[pubkey := price]> m.2)
  | Err _ :: _ => None
  end.

(** The cache of [AppContext::new]; [None] is a panic. *)
Definition new_context_cache : option OperationalCache.t :=
  rows ← volume_rows;
  m ← insert_results (map pool_future (pools_of rows)) (∅, ∅);
  Some (OperationalCache.new m.1 m.2).

Inductive CollectorName := RaydiumPrices | RealtimeFeed | Heartbeats | PollTxConfirmations.
Inductive ExecutorName := OnChain | OnPaper.
Inductive StartedStrategy := Sniper (i : SnipingStrategyInstance) | LoggerInterceptor.

(** The parts of the engine, whether the bot talks to Telegram, and what has been
    started, in the order of [main]. *)
Record Wiring := {
  collectors : list CollectorName;
  executors : list ExecutorName;
  telegram : bool;
  started : list StartedStrategy;
}.

(** The configured sniping strategy: the panic of [unwrap], and the errors that end
    [main]. *)
Definition start_sniping (config : Sniping.SnipingStrategyConfigArgs) : option (result string StartedStrategy) :=
  match Sniping.instance_of config with
  | Err _ => None
  | Ok new_instance =>
      Some (instance <-? save_new_sniping_strategy_to_db insert_sniping new_instance ;;
            _ <-? new_sniper instance ;;
            Ok (Sniper instance))
  end.

Definition main_wiring (settings : Settings) : option (result string Wiring) :=
  let wiring s := {|
    collectors := [RaydiumPrices; RealtimeFeed; Heartbeats] ++
      match poll_node_for_tx_confirmations_ms settings with Some _ => [PollTxConfirmations] | None => [] end;
    executors := match mode settings with Live => [OnChain] | PaperTrading => [OnPaper] | BackTesting => [] end;
    telegram := bool_decide (is_Some (telegram_token settings));
    started := s ++ [LoggerInterceptor] |} in
  match get_sniping_strategy_config (strategies settings) with
  | None => Some (Ok (wiring []))
  | Some config => r ← start_sniping config; Some (s <-? r ;; Ok (wiring [s]))
  end.

Lemma insert_results_some pools m : insert_results (map pool_future pools) m = None <->
  exists p, p ∈ pools /\ forall x, pool_future p <> Ok x.
Proof.
  revert m. induction pools as [|p pools IH]; intros m; simpl.
  - split; [done|]. intros (p & Hp & _). by apply not_elem_of_nil in Hp.
  - destruct (pool_future p) as [[[q d] pr]|e] eqn:E; [rewrite IH; split|split; [|done]].
    + intros (p' & Hp & Hn). exists p'. split; [by right|done].
    + intros (p' & Hp & Hn). apply elem_of_cons in Hp as [->|Hp]; [by destruct (Hn _ E)|]. by exists p'.
    + intros _. exists p. split; [by left|]. by rewrite E.
Qed.

Lemma pool_future_ok p q d pr : pool_future p = Ok (q, d, pr) ->
  q = p /\ pool_details p = Ok d /\ pool_price p = Ok pr.
Proof.
  unfold pool_future. destruct (pool_details p); simpl; [|done].
  destruct (pool_price p); simpl; [|done]. by intros [= <- <- <-].
Qed.

Lemma pool_future_fails p :
  (forall x, pool_future p <> Ok x) <-> forall d x, pool_details p = Ok d -> pool_price p <> Ok x.
Proof.
  unfold pool_future. destruct (pool_details p) as [d|]; simpl; [|naive_solver].
  destruct (pool_price p) as [x|]; simpl; [|naive_solver].
  split; intros Hn; [by destruct (Hn (p, d, x)) | by destruct (Hn d x)].
Qed.

Lemma insert_results_lookup pools m m' p : insert_results (map pool_future pools) m = Some m' ->
  (p ∈ pools -> exists d pr, pool_details p = Ok d /\ pool_price p = Ok pr /\ m'.1 !! p = Some d /\ m'.2 !! p = Some pr) /\
  (p ∉ pools -> m'.1 !! p = m.1 !! p /\ m'.2 !! p = m.2 !! p).
Proof.
  revert m. induction pools as [|q pools IH]; intros m; simpl.
  - intros [= <-]. split; [intros Hp; by apply not_elem_of_nil in Hp | done].
  - destruct (pool_future q) as [[[q' d] pr]|e] eqn:E; [|done].
    apply pool_future_ok in E as (-> & Hd & Hpr). intros Hr.
    destruct (IH _ Hr) as [Hin Hout]. split.
    + intros Hp. destruct (decide (p ∈ pools)) as [Hp'|Hp']; [by apply Hin|].
      apply elem_of_cons in Hp as [->|Hp]; [|done].
      destruct (Hout Hp') as [H1 H2]. simpl in *. rewrite lookup_insert_eq in H1. rewrite lookup_insert_eq in H2.
      by exists d, pr.
    + intros [Hne Hp]%not_elem_of_cons. destruct (Hout Hp) as [H1 H2]. simpl in *.
      rewrite lookup_insert_ne in H1 by done. by rewrite lookup_insert_ne in H2.
Qed.

Lemma pools_of_unfinished rows p :
  p ∈ pools_of rows <-> exists r, r ∈ rows /\ row_completed_at r = None /\ row_target_pool r = p.
Proof.
  unfold pools_of. rewrite list_elem_of_fmap. setoid_rewrite list_elem_of_filter. naive_solver.
Qed.

(** The bot starts with the details and the price of exactly the pools of the
    strategies that are not completed; it panics when a single one of these queries
    fails. *)
Theorem cache_holds_unfinished_pools (rows : list VolumeRow) (Hrows : volume_rows = Some rows) :
  let unfinished p := exists r, r ∈ rows /\ row_completed_at r = None /\ row_target_pool r = p in
  (new_context_cache = None <->
   exists p, unfinished p /\ forall d x, pool_details p = Ok d -> pool_price p <> Ok x) /\
  forall c, new_context_cache = Some c ->
    (forall p d, OperationalCache.target_pools c !! p = Some d <-> unfinished p /\ pool_details p = Ok d) /\
    (forall p x, OperationalCache.target_pools_prices c !! p = Some x <-> unfinished p /\ pool_price p = Ok x).
Proof.
  cbv zeta. setoid_rewrite <- pools_of_unfinished.
  unfold new_context_cache. rewrite Hrows. simpl. split.
  - setoid_rewrite <- pool_future_fails. rewrite <- (insert_results_some _ (∅, ∅)).
    by destruct (insert_results _ _).
  - destruct (insert_results _ _) as [m|] eqn:E; [|done]. simpl. intros c [= <-].
    split; intros p x; destruct (insert_results_lookup _ _ _ p E) as [Hin Hout]; simpl in *;
      (destruct (decide (p ∈ pools_of rows)) as [Hp|Hp];
       [destruct (Hin Hp) as (d & pr & Hd & Hpr & H1 & H2); rewrite ?H1, ?H2; naive_solver congruence
       |destruct (Hout Hp) as [H1 H2]; rewrite ?H1, ?H2, lookup_empty; naive_solver]).
Qed.

(** Transactions are sent only in live mode. *)
Lemma only_live_is_on_chain settings w :
  main_wiring settings = Some (Ok w) -> OnChain ∈ executors w <-> mode settings = Live.
Proof.
  unfold main_wiring. intros Hw.
  assert (executors w = match mode settings with Live => [OnChain] | PaperTrading => [OnPaper] | BackTesting => [] end) as ->.
  { destruct (get_sniping_strategy_config _) as [config|]; [|by injection Hw as <-].
    destruct (start_sniping config) as [[s|e]|]; by inversion Hw. }
  destruct (mode settings); set_solver.
Qed.

(** The volume configuration is never started at startup. *)
Lemma started_at_startup settings w s : main_wiring settings = Some (Ok w) -> s ∈ started w ->
  s = LoggerInterceptor \/ exists i, s = Sniper i /\ new_sniper i = Ok tt.
Proof.
  unfold main_wiring, start_sniping. destruct (get_sniping_strategy_config _) as [config|].
  - destruct (Sniping.instance_of config) as [i|]; [|done]. simpl.
    destruct (save_new_sniping_strategy_to_db _ i) as [i'|]; simpl; [|done].
    destruct (new_sniper i') as [[]|] eqn:En; simpl; [|done]. intros [= <-]. simpl. set_solver.
  - intros [= <-]. simpl. set_solver.
Qed.
End Start.

Definition start_price : RaydiumPoolPriceUpdate :=
  {| pu_pool := 2; pu_price := f64_zero; pu_base_reserve := f64_zero; pu_quote_reserve := f64_zero;
     pu_created_at := 0 |}.

(** The strategy for pool 3, which no node answers for, is completed. *)
Definition sample_start : StartWorld := {|
  volume_rows := Some [{| row_completed_at := None; row_target_pool := 2 |};
                       {| row_completed_at := Some 5; row_target_pool := 3 |}];
  pool_details p := if (p =? 2)%Z then Ok sample_pool else Err "no pool"%string;
  pool_price p := if (p =? 2)%Z then Ok start_price else Err "no pool"%string;
  insert_sniping _ := Some 1;
  new_sniper _ := Ok tt;
|}.

Lemma cache_holds_unfinished_pools_witness :
  exists rows c, @volume_rows sample_start = Some rows /\ @new_context_cache sample_start = Some c /\
    OperationalCache.target_pools c !! 2 = Some sample_pool /\
    OperationalCache.target_pools_prices c !! 2 = Some start_price.
Proof.
  eexists _, _. split; [reflexivity|]. split; [reflexivity|].
  destruct (@cache_holds_unfinished_pools sample_start _ eq_refl) as [_ H].
  destruct (H _ eq_refl) as [Hd Hp]. split.
  - apply Hd. split; [|reflexivity]. eexists. split; [by left | done].
  - apply Hp. split; [|reflexivity]. eexists. split; [by left | done].
Defined.
End Startup.
