(* ===== verification/Pack.v ===== *)
(** * Packing ([crates/solana_farm_sdk/src/pack.rs], [traits.rs])

    Byte buffers and the fields laid out in them.  A buffer is its list of bytes,
    a byte a number from 0 to 255; a float is its bit pattern and a public key the
    number its 32 bytes spell.  [ArrayString64] is its bytes, and whether bytes are
    UTF-8, which [try_from_utf8] checks, is the class [Utf8]. *)

From S2P Require Import Prelude MachineInt.

Abbreviation ArrayString64 := (list Z) (only parsing).

Class Utf8 := {
  utf8_valid : list Z -> bool;
  utf8_valid_nil : utf8_valid [] = true;
}.

(** [solana_program::program_error::ProgramError] and [FarmError], the variants
    the modelled parts of the SDK return. *)
Inductive ProgramError :=
| AccountDataTooSmall
| InvalidAccountData
| InvalidArgument
| UninitializedAccount
| AccountAlreadyInitialized
| RefdbTooLarge
| RefdbRecordCounterMismatch
| RefdbRecordNameMismatch
| RefdbRecordTypeMismatch
| RefdbRecordNotFound
| InvalidInstructionData
| MissingRequiredSignature
| IncorrectAccountAddress
| AccountNotAuthorized
| UnsupportedSysvar
| MathOverflow
| UnexpectedBalanceDecrease
| UnexpectedBalanceIncrease
| ProgramOverspent
| ProgramInsufficientTransfer
| EmptyPool
| IllegalOwner
| InsufficientFunds
| IncorrectProgramId
| NotEnoughAccountKeys
| InvalidSeeds
| OracleInvalidAccount
| OracleInvalidState
| OracleStalePrice
| OracleInvalidPrice.

#[export] Instance ProgramError_eq_dec : EqDecision ProgramError.
Proof. solve_decision. Defined.

(** ** Bytes *)

(** [to_le_bytes] and [from_le_bytes] at [n] bytes. *)
Fixpoint to_le_bytes (n : nat) (z : Z) : list Z :=
  match n with O => [] | S n' => z mod 256 :: to_le_bytes n' (z / 256) end.

Fixpoint from_le_bytes (bytes : list Z) : Z :=
  match bytes with [] => 0 | b :: bytes' => b + 256 * from_le_bytes bytes' end.

(** [&data[offset..offset + len]] of a slice known to be long enough. *)
Definition slice (offset len : nat) (data : list Z) : list Z := take len (drop offset data).

(** The same range overwritten. *)
Definition splice (offset : nat) (bytes data : list Z) : list Z :=
  take offset data ++ bytes ++ drop (offset + length bytes) data.

Definition check_data_len (data : list Z) (min_len : nat) : result ProgramError unit :=
  if (length data <? min_len)%nat then Err AccountDataTooSmall else Ok tt.

(** The bytes of the string over those of the array: what is behind the string
    stays. *)
Definition pack_array_string64 (input : ArrayString64) (output : list Z) : list Z :=
  match input with
  | [] => splice 0 [0] output
  | _ => splice 0 input output
  end.

Fixpoint until_zero (bytes : list Z) : list Z :=
  match bytes with
  | [] => []
  | b :: bytes' => if b =? 0 then [] else b :: until_zero bytes'
  end.

Definition unpack_array_string64 `{Utf8} (input : list Z) : result ProgramError ArrayString64 :=
  if utf8_valid (until_zero input) then Ok (until_zero input) else Err InvalidAccountData.

Definition bool_byte (b : bool) : Z := if b then 1 else 0.

Definition pack_bool (input : bool) (output : list Z) : list Z := splice 0 [bool_byte input] output.

Definition unpack_bool (byte : Z) : result ProgramError bool :=
  if byte =? 0 then Ok false else if byte =? 1 then Ok true else Err InvalidAccountData.

(** [None] writes the tag alone. *)
Definition pack_option_key (input : option Z) (output : list Z) : list Z :=
  match input with
  | Some key => splice 0 (1 :: to_le_bytes 32 key) output
  | None => splice 0 [0] output
  end.

Definition unpack_option_key (input : list Z) : result ProgramError (option Z) :=
  if nth 0 input 0 =? 0 then Ok None
  else if nth 0 input 0 =? 1 then Ok (Some (from_le_bytes (slice 1 32 input)))
  else Err InvalidAccountData.

Definition pack_option_u32 (input : option Z) (output : list Z) : list Z :=
  match input with
  | Some val => splice 0 (1 :: to_le_bytes 4 val) output
  | None => splice 0 [0] output
  end.

Definition unpack_option_u32 (input : list Z) : result ProgramError (option Z) :=
  if nth 0 input 0 =? 0 then Ok None
  else if nth 0 input 0 =? 1 then Ok (Some (from_le_bytes (slice 1 4 input)))
  else Err InvalidAccountData.

(** ** Fields

    [mut_array_refs![output, w1, w2, ..]] and what is then done to each part: a
    width, and the new bytes of a part from its old ones. *)

Abbreviation Field := (nat * (list Z -> list Z))%type (only parsing).

Definition put_bytes (bytes : list Z) : Field := (length bytes, fun _ => bytes).
Definition put_u8 (z : Z) : Field := (1%nat, fun _ => [z]).
Definition put_u16 (z : Z) : Field := (2%nat, fun _ => to_le_bytes 2 z).
Definition put_u32 (z : Z) : Field := (4%nat, fun _ => to_le_bytes 4 z).
Definition put_u64 (z : Z) : Field := (8%nat, fun _ => to_le_bytes 8 z).
Definition put_i64 (z : Z) : Field := put_u64 z.
Definition put_key (z : Z) : Field := (32%nat, fun _ => to_le_bytes 32 z).
Definition put_bool (b : bool) : Field := (1%nat, pack_bool b).
Definition put_option_u32 (o : option Z) : Field := (5%nat, pack_option_u32 o).
Definition put_option_key (o : option Z) : Field := (33%nat, pack_option_key o).
Definition put_name (name : ArrayString64) : Field := (64%nat, pack_array_string64 name).

Fixpoint fill (fields : list Field) (output : list Z) : list Z :=
  match fields with
  | [] => output
  | (w, f) :: fields' => f (take w output) ++ fill fields' (drop w output)
  end.

(** [array_ref![input, offset, n]] and its reading. *)
Definition u8_at (offset : nat) (input : list Z) : Z := nth offset input 0.
Definition u16_at (offset : nat) (input : list Z) : Z := from_le_bytes (slice offset 2 input).
Definition u32_at (offset : nat) (input : list Z) : Z := from_le_bytes (slice offset 4 input).
Definition u64_at (offset : nat) (input : list Z) : Z := from_le_bytes (slice offset 8 input).
Definition key_at (offset : nat) (input : list Z) : Z := from_le_bytes (slice offset 32 input).

(** [array_refs![input, w1, w2, ..]] read part by part: a reader takes its bytes
    off the front of an input that was checked to be long enough. *)
Definition Get A := list Z -> result ProgramError (A * list Z).

Definition get_ret {A} (a : A) : Get A := fun input => Ok (a, input).

Definition get_bind {A B} (g : Get A) (k : A -> Get B) : Get B := fun input =>
  match g input with Ok (a, rest) => k a rest | Err e => Err e end.

Notation "x <-g m ;; k" := (get_bind m (fun x => k))
  (at level 20, m at level 99, k at level 200) : bot_scope.

Definition run_get {A} (g : Get A) (input : list Z) : result ProgramError A :=
  match g input with Ok (a, _) => Ok a | Err e => Err e end.

Definition get_number (w : nat) : Get Z := fun input =>
  Ok (from_le_bytes (take w input), drop w input).
Definition get_u8 : Get Z := fun input => Ok (nth 0 input 0, drop 1 input).
Definition get_u16 : Get Z := get_number 2.
Definition get_u32 : Get Z := get_number 4.
Definition get_u64 : Get Z := get_number 8.
Definition get_key : Get Z := get_number 32.
Definition get_i64 : Get Z := fun input => Ok (wrap_i64 (from_le_bytes (take 8 input)), drop 8 input).

Definition get_with {A} (w : nat) (f : list Z -> result ProgramError A) : Get A := fun input =>
  a <-? f (take w input) ;; Ok (a, drop w input).
Definition get_bool : Get bool := get_with 1 (fun bytes => unpack_bool (nth 0 bytes 0)).
Definition get_option_u32 : Get (option Z) := get_with 5 unpack_option_u32.
Definition get_option_key : Get (option Z) := get_with 33 unpack_option_key.
Definition get_name `{Utf8} : Get ArrayString64 := get_with 64 unpack_array_string64.

(** [#[repr(u8)] #[derive(TryFromPrimitive)]]: the variants in the order they are
    declared, [as u8] and [try_from_primitive]. *)
Class Primitive (T : Type) := {
  #[global] primitive_eq_dec :: EqDecision T;
  variants : list T;
  variants_complete : forall t, t ∈ variants;
}.

Definition as_u8 `{Primitive T} (t : T) : Z :=
  Z.of_nat (default 0%nat (fst <$> list_find (eq t) variants)).

Definition of_u8 `{Primitive T} (b : Z) : option T :=
  if b <? 0 then None else variants !! Z.to_nat b.

Definition get_enum `{Primitive T} (error : ProgramError) : Get T :=
  get_with 1 (fun bytes => match of_u8 (nth 0 bytes 0) with Some t => Ok t | None => Err error end).

(** A method on the account's data. *)
Abbreviation Db A := (ST (list Z) (result ProgramError A)) (only parsing).

Definition reads {A} (f : list Z -> result ProgramError A) : Db A := fun data => (Some (f data), data).

(** [&data[offset..]] panics behind the end. *)
Definition tail_from {A} (offset : nat) (f : list Z -> result ProgramError A) : Db A := fun data =>
  if (length data <? offset)%nat then (None, data) else (Some (f (drop offset data)), data).

(** [f(&mut data[offset..])]. *)
Definition modify_from (offset : nat) (f : list Z -> result ProgramError (list Z)) : Db unit := fun data =>
  if (length data <? offset)%nat then (None, data) else
  match f (drop offset data) with
  | Ok bytes => (Some (Ok tt), take offset data ++ bytes)
  | Err e => (Some (Err e), data)
  end.

(** [check_data_len(output, len)?; ..]. *)
Definition check_output (len : nat) (body : Db nat) : Db nat :=
  _ <-! reads (fun output => check_data_len output len) ;; body.

(** The fields written over the front of [output], and [Ok(len)]. *)
Definition write_fields (len : nat) (fields : list Field) : Db nat :=
  st_modify (fill fields) ;;; st_ok len.

(** [f(&mut output[offset..])], which panics when the buffer is shorter. *)
Definition on_tail {A} (offset : nat) (f : Db A) : Db A := fun output =>
  if (length output <? offset)%nat then (None, output) else
  let '(r, tail) := f (drop offset output) in (r, take offset output ++ tail).

(** An instruction that carries another: its tag, and the other behind it. *)
Definition put_tag (tag : Z) : ST (list Z) unit := st_modify (fill [put_u8 tag]).

Definition pack_tag_first (tag : Z) (inner : Db nat) : Db nat :=
  check_output 1 (put_tag tag ;;; n <-! on_tail 1 inner ;; st_ok (n + 1)%nat).

Definition pack_tag_last (tag : Z) (inner : Db nat) : Db nat :=
  n <-! on_tail 1 inner ;; put_tag tag ;;; st_ok (n + 1)%nat.

(** [to_vec]: a zeroed buffer of the largest size, cut to the packed length. *)
Definition to_vec_with (max_len : nat) (error : ProgramError) (pack : Db nat)
    : option (result ProgramError (list Z)) :=
  match pack (replicate max_len 0) with
  | (Some (Ok len), output) => Some (Ok (take len output))
  | (Some (Err _), _) => Some (Err error)
  | (None, _) => None
  end.

(** ** Lemmas on bytes *)

Lemma to_le_bytes_length n z : length (to_le_bytes n z) = n.
Proof. revert z. induction n as [|n IH]; intros z; cbn; [done | by rewrite IH]. Qed.

Lemma from_to_le_bytes n z : from_le_bytes (to_le_bytes n z) = z mod 256 ^ Z.of_nat n.
Proof.
  revert z. induction n as [|n IH]; intros z; [cbn; by rewrite Z.mod_1_r|].
  cbn [to_le_bytes from_le_bytes]. rewrite IH, Nat2Z.inj_succ, Z.pow_succ_r by lia.
  rewrite Z.rem_mul_r by lia. reflexivity.
Qed.

Lemma from_to_le_small n z : 0 <= z < 256 ^ Z.of_nat n -> from_le_bytes (to_le_bytes n z) = z.
Proof. intros Hz. rewrite from_to_le_bytes. by apply Z.mod_small. Qed.

Lemma slice_app (a b c : list Z) offset len :
  offset = length a -> len = length b -> slice offset len (a ++ b ++ c) = b.
Proof. intros -> ->. unfold slice. by rewrite drop_app_length, take_app_length. Qed.

Lemma slice_front (b c : list Z) len : len = length b -> slice 0 len (b ++ c) = b.
Proof. apply (slice_app [] b c 0). reflexivity. Qed.

Lemma splice_front (b b' c : list Z) : length b' = length b -> splice 0 b' (b ++ c) = b' ++ c.
Proof. intros Hl. unfold splice. cbn [take app Nat.add]. by rewrite Hl, drop_app_length. Qed.

Lemma splice_app (a b b' c : list Z) offset :
  offset = length a -> length b' = length b -> splice offset b' (a ++ b ++ c) = a ++ b' ++ c.
Proof.
  intros -> Hl. unfold splice. rewrite take_app_length. f_equal. f_equal.
  by rewrite Hl, drop_app_add', drop_app_length.
Qed.

Lemma until_zero_padded name n :
  Forall (fun b => 0 < b) name -> until_zero (name ++ replicate n 0) = name.
Proof.
  induction 1 as [|b name Hb _ IH]; [by destruct n|]. cbn.
  destruct (b =? 0) eqn:E; [lia | by rewrite IH].
Qed.

(** ** Layout

    Reading at an offset of a concatenation: past a part, or the part. *)

Lemma slice_here (a b : list Z) n : length a = n -> slice 0 n (a ++ b) = a.
Proof. intros <-. unfold slice. by rewrite drop_0, take_app_length. Qed.

Lemma slice_all (a : list Z) n : length a = n -> slice 0 n a = a.
Proof. intros <-. unfold slice. by rewrite drop_0, firstn_all. Qed.

Lemma slice_skip (a b : list Z) n off len :
  length a = n -> (n <= off)%nat -> slice off len (a ++ b) = slice (off - n) len b.
Proof. intros <- Hle. unfold slice. by rewrite drop_app_ge. Qed.

Lemma nth_skip (a b : list Z) n off :
  length a = n -> (n <= off)%nat -> nth off (a ++ b) 0 = nth (off - n) b 0.
Proof. intros <- Hle. by rewrite app_nth2. Qed.

Lemma splice_nil_l (bytes data : list Z) :
  (length bytes <= length data)%nat -> length (splice 0 bytes data) = length data.
Proof. intros Hl. unfold splice. rewrite !length_app, length_drop, firstn_O. cbn [length Nat.add]. lia. Qed.

Definition byte_list (l : list Z) : Prop := Forall (fun b => 0 <= b < 256) l.

Lemma to_from_le_bytes l : byte_list l -> to_le_bytes (length l) (from_le_bytes l) = l.
Proof.
  induction 1 as [|b l Hb _ IH]; [done|]. cbn [length to_le_bytes from_le_bytes].
  rewrite Z.mul_comm, Z.mod_add, Z.mod_small, Z.div_add, Z.div_small, Z.add_0_l by lia.
  by rewrite IH.
Qed.

Lemma from_le_bytes_bounds l : byte_list l -> 0 <= from_le_bytes l < 256 ^ Z.of_nat (length l).
Proof.
  induction 1 as [|b l Hb _ IH]; [done|]. cbn [length from_le_bytes].
  rewrite Nat2Z.inj_succ, Z.pow_succ_r by lia. lia.
Qed.

(** ** Names *)

Definition padded (name : list Z) : list Z := name ++ replicate (64 - length name) 0.

Section Names.
Context `{Utf8}.

Definition valid_name (name : list Z) : Prop :=
  (length name <= 64)%nat /\ Forall (fun b => 0 < b) name /\ utf8_valid name = true.

Lemma padded_length name : (length name <= 64)%nat -> length (padded name) = 64%nat.
Proof. intros Hn. unfold padded. rewrite length_app, length_replicate. lia. Qed.

Lemma unpack_padded name : valid_name name -> unpack_array_string64 (padded name) = Ok name.
Proof.
  intros (_ & Hz & Hu). unfold unpack_array_string64, padded.
  by rewrite until_zero_padded, Hu.
Qed.

Lemma pack_padded name old :
  (length name <= 64)%nat -> old = name \/ old = [] ->
  pack_array_string64 name (padded old) = padded name.
Proof.
  intros Hn Hold. destruct name as [|b name].
  - destruct Hold as [-> | ->]; reflexivity.
  - change (pack_array_string64 (b :: name) (padded old)) with (splice 0 (b :: name) (padded old)).
    destruct Hold as [-> | ->]; unfold padded, splice; cbn [take app Nat.add].
    + f_equal. rewrite app_comm_cons. by rewrite drop_app_length.
    + f_equal. f_equal. cbn [length]. rewrite drop_replicate. reflexivity.
Qed.


Lemma pack_name_zeros name :
  (length name <= 64)%nat -> pack_array_string64 name (replicate 64 0) = padded name.
Proof. intros Hn. apply (pack_padded name []); auto. Qed.
End Names.

(** ** What a packed type promises

    [Packed] is the trait's [pack] and [unpack]; [PackedLaw] says that a buffer
    that is too small is an error, not a panic, and that what is packed into a
    zeroed buffer is what is unpacked from the bytes, whatever follows them. *)

Class Packed (T : Type) := {
  packed_size : T -> nat;
  pack : T -> Db nat;
  unpack : list Z -> result ProgramError T;
}.

Definition packs_to `{Packed T} (x : T) (bytes : list Z) : Prop :=
  length bytes = packed_size x /\
  (forall n, (packed_size x <= n)%nat ->
     pack x (replicate n 0) = (Some (Ok (packed_size x)), bytes ++ replicate (n - packed_size x) 0)) /\
  (forall rest, unpack (bytes ++ rest) = Ok x).

Class PackedLaw (T : Type) `{Packed T} (valid : T -> Prop) : Prop := {
  pack_short : forall x output, valid x -> (length output < packed_size x)%nat ->
    fst (pack x output) = Some (Err AccountDataTooSmall);
  pack_roundtrip : forall x, valid x -> exists bytes, packs_to x bytes;
}.

Lemma to_vec_roundtrip `{PackedLaw T valid} max_len error x :
  valid x -> (packed_size x <= max_len)%nat ->
  exists bytes, to_vec_with max_len error (pack x) = Some (Ok bytes) /\
    length bytes = packed_size x /\ unpack bytes = Ok x.
Proof.
  intros Hx Hmax. destruct (pack_roundtrip x Hx) as (bytes & Hlen & Hpack & Hun).
  exists bytes. unfold to_vec_with. rewrite Hpack by done. rewrite <- Hlen, take_app_length.
  split; [done|]. split; [done|]. specialize (Hun []). by rewrite app_nil_r in Hun.
Qed.

Definition width (fields : list Field) : nat := sum_list (map fst fields).

Definition zero_filled (fields : list Field) : list Z :=
  concat (map (fun f : Field => snd f (replicate (fst f) 0)) fields).

Lemma fill_zeros fields n :
  (width fields <= n)%nat ->
  fill fields (replicate n 0) = zero_filled fields ++ replicate (n - width fields) 0.
Proof.
  unfold width, zero_filled. revert n. induction fields as [|[w f] fields IH]; intros n Hn.
  - cbn. by rewrite Nat.sub_0_r.
  - cbn [fill map concat fst snd sum_list sum_list_with] in *. cbn in Hn.
    rewrite take_replicate, drop_replicate, Nat.min_l, IH by lia.
    rewrite <- app_assoc. do 3 f_equal. cbn. lia.
Qed.

Lemma check_output_zeros len (body : Db nat) n :
  (len <= n)%nat -> check_output len body (replicate n 0) = body (replicate n 0).
Proof.
  intros Hn. unfold check_output, st_try, st_bind, reads, check_data_len.
  rewrite length_replicate. by destruct (_ <? _)%nat eqn:E; [apply Nat.ltb_lt in E; lia|].
Qed.

Lemma write_fields_zeros len fields n :
  width fields = len -> (len <= n)%nat ->
  write_fields len fields (replicate n 0)
  = (Some (Ok len), zero_filled fields ++ replicate (n - len) 0).
Proof.
  intros <- Hn. unfold write_fields, st_bind, st_modify, st_ok, st_ret. by rewrite fill_zeros.
Qed.

Lemma check_output_short len body output :
  (length output < len)%nat -> check_output len body output = (Some (Err AccountDataTooSmall), output).
Proof.
  intros Hl. unfold check_output, st_try, st_bind, reads, check_data_len.
  by destruct (_ <? _)%nat eqn:E; [|apply Nat.ltb_ge in E; lia].
Qed.

Lemma check_len_ok data n : (n <= length data)%nat -> check_data_len data n = Ok tt.
Proof. intros Hl. unfold check_data_len. by destruct (_ <? _)%nat eqn:E; [apply Nat.ltb_lt in E; lia|]. Qed.

Definition option_u32_bytes (o : option Z) : list Z :=
  match o with Some v => 1 :: to_le_bytes 4 v | None => replicate 5 0 end.
Definition option_key_bytes (o : option Z) : list Z :=
  match o with Some v => 1 :: to_le_bytes 32 v | None => replicate 33 0 end.

Lemma pack_option_u32_zeros o : pack_option_u32 o (replicate 5 0) = option_u32_bytes o.
Proof. by destruct o. Qed.
Lemma pack_option_key_zeros o : pack_option_key o (replicate 33 0) = option_key_bytes o.
Proof. by destruct o. Qed.
Lemma pack_bool_zeros b : pack_bool b (replicate 1 0) = [bool_byte b].
Proof. done. Qed.

Lemma option_u32_length o : length (option_u32_bytes o) = 5%nat.
Proof. by destruct o. Qed.
Lemma option_key_length o : length (option_key_bytes o) = 33%nat.
Proof. by destruct o. Qed.

Definition is_key (z : Z) : Prop := 0 <= z < 2 ^ 256.
Definition is_u16 (z : Z) : Prop := 0 <= z < 2 ^ 16.
Definition is_u8 (z : Z) : Prop := 0 <= z < 2 ^ 8.
Definition option_all (P : Z -> Prop) (o : option Z) : Prop :=
  match o with Some z => P z | None => True end.

Lemma unpack_option_u32_bytes o : option_all is_u32 o -> unpack_option_u32 (option_u32_bytes o) = Ok o.
Proof.
  destruct o as [v|]; [|done]. intros Hv. unfold unpack_option_u32, option_u32_bytes.
  cbn [nth Z.eqb Pos.eqb]. do 2 f_equal. change (slice 1 4 (1 :: ?l)) with (take 4 l).
  rewrite take_ge by (by rewrite to_le_bytes_length). by apply from_to_le_small.
Qed.

Lemma unpack_option_key_bytes o : option_all is_key o -> unpack_option_key (option_key_bytes o) = Ok o.
Proof.
  destruct o as [v|]; [|done]. intros Hv. unfold unpack_option_key, option_key_bytes.
  cbn [nth Z.eqb Pos.eqb]. do 2 f_equal. change (slice 1 32 (1 :: ?l)) with (take 32 l).
  rewrite take_ge by (by rewrite to_le_bytes_length). by apply from_to_le_small.
Qed.

Lemma unpack_bool_byte b : unpack_bool (bool_byte b) = Ok b.
Proof. by destruct b. Qed.
Lemma from_le_u16 z : is_u16 z -> from_le_bytes (to_le_bytes 2 z) = z.
Proof. intros Hz. by apply from_to_le_small. Qed.
Lemma from_le_u32 z : is_u32 z -> from_le_bytes (to_le_bytes 4 z) = z.
Proof. intros Hz. by apply from_to_le_small. Qed.
Lemma from_le_u64 z : is_u64 z -> from_le_bytes (to_le_bytes 8 z) = z.
Proof. intros Hz. by apply from_to_le_small. Qed.
Lemma from_le_key z : is_key z -> from_le_bytes (to_le_bytes 32 z) = z.
Proof. intros Hz. by apply from_to_le_small. Qed.

(** ** Round trips of fields

    A type whose [pack] writes fields into zeros, and whose [unpack] reads the
    value back from any input that begins with those fields. *)

Lemma packs_fields `{Packed T} (x : T) fields :
  (forall n, (packed_size x <= n)%nat ->
     pack x (replicate n 0) = write_fields (packed_size x) fields (replicate n 0)) ->
  width fields = packed_size x -> length (zero_filled fields) = packed_size x ->
  (forall input rest, (forall k, (k <=? packed_size x)%nat = true -> check_data_len input k = Ok tt) ->
     input = zero_filled fields ++ rest -> unpack input = Ok x) ->
  exists bytes, packs_to x bytes.
Proof.
  intros Hpack Hw Hl Hun. exists (zero_filled fields). split; [done|]. split.
  - intros n Hn. rewrite Hpack by done. by apply write_fields_zeros.
  - intros rest. eapply Hun; [|done]. intros k Hk. apply check_len_ok.
    rewrite length_app, Hl. apply Nat.leb_le in Hk. lia.
Qed.

Lemma on_tail_cons {A} (inner : Db A) b output :
  on_tail 1 inner (b :: output) = let '(r, tail) := inner output in (r, b :: tail).
Proof. reflexivity. Qed.

Lemma on_tail_zeros (inner : Db nat) bytes m b n :
  (forall k, (m <= k)%nat -> inner (replicate k 0) = (Some (Ok m), bytes ++ replicate (k - m) 0)) ->
  (m <= n)%nat ->
  on_tail 1 inner (b :: replicate n 0) = (Some (Ok m), b :: bytes ++ replicate (n - m) 0).
Proof. intros Hi Hn. rewrite on_tail_cons. by rewrite Hi. Qed.

Lemma pack_tag_first_zeros tag inner bytes m n :
  (forall k, (m <= k)%nat -> inner (replicate k 0) = (Some (Ok m), bytes ++ replicate (k - m) 0)) ->
  (m + 1 <= n)%nat ->
  pack_tag_first tag inner (replicate n 0)
  = (Some (Ok (m + 1)%nat), (tag :: bytes) ++ replicate (n - (m + 1)) 0).
Proof.
  intros Hi Hn. unfold pack_tag_first. rewrite check_output_zeros by lia.
  destruct n as [|n]; [lia|]. unfold put_tag. rewrite (st_bind_Some _ _ _ tt (tag :: replicate n 0)) by done.
  erewrite st_try_Ok by (apply (on_tail_zeros _ bytes m); [done | lia]).
  unfold st_ok, st_ret. cbn [app]. by replace (S n - (m + 1))%nat with (n - m)%nat by lia.
Qed.

Lemma pack_tag_last_zeros tag inner bytes m n :
  (forall k, (m <= k)%nat -> inner (replicate k 0) = (Some (Ok m), bytes ++ replicate (k - m) 0)) ->
  (m + 1 <= n)%nat ->
  check_output 1 (pack_tag_last tag inner) (replicate n 0)
  = (Some (Ok (m + 1)%nat), (tag :: bytes) ++ replicate (n - (m + 1)) 0).
Proof.
  intros Hi Hn. rewrite check_output_zeros by lia. unfold pack_tag_last. destruct n as [|n]; [lia|].
  change (replicate (S n) 0) with (0 :: replicate n 0).
  erewrite st_try_Ok by (apply (on_tail_zeros _ bytes m); [done | lia]).
  unfold put_tag, st_bind, st_modify, st_ok, st_ret. cbn [fill put_u8 take drop app].
  by replace (S n - (m + 1))%nat with (n - m)%nat by lia.
Qed.

Lemma on_tail_short (inner : Db nat) b output :
  fst (inner output) = Some (Err AccountDataTooSmall) ->
  fst (on_tail 1 inner (b :: output)) = Some (Err AccountDataTooSmall).
Proof. rewrite on_tail_cons. by destruct (inner output). Qed.

Lemma st_try_Err {A B} (m : Db A) (k : A -> Db B) s e :
  fst (m s) = Some (Err e) -> fst (st_try m k s) = Some (Err e).
Proof. unfold st_try, st_bind. destruct (m s) as [[[a|e']|] s']; cbn; congruence. Qed.

(** The size check of the instruction that is carried is the one that fails. *)
Lemma pack_tag_first_short tag (inner : Db nat) m output :
  (forall output, (length output < m)%nat -> fst (inner output) = Some (Err AccountDataTooSmall)) ->
  (length output < m + 1)%nat ->
  fst (pack_tag_first tag inner output) = Some (Err AccountDataTooSmall).
Proof.
  intros Hi Hl. unfold pack_tag_first. destruct output as [|b output]; [done|]. cbn [length] in Hl.
  unfold check_output. erewrite st_try_Ok by reflexivity.
  rewrite (st_bind_Some _ _ _ tt (tag :: output)) by reflexivity.
  apply st_try_Err, on_tail_short, Hi. lia.
Qed.

Lemma pack_tag_last_short tag (inner : Db nat) m output :
  (forall output, (length output < m)%nat -> fst (inner output) = Some (Err AccountDataTooSmall)) ->
  (length output < m + 1)%nat ->
  fst (check_output 1 (pack_tag_last tag inner) output) = Some (Err AccountDataTooSmall).
Proof.
  intros Hi Hl. unfold pack_tag_last. destruct output as [|b output]; [done|]. cbn [length] in Hl.
  unfold check_output. erewrite st_try_Ok by reflexivity.
  apply st_try_Err, on_tail_short, Hi. lia.
Qed.

Lemma u8_here z (b : list Z) : nth 0 ([z] ++ b) 0 = z.
Proof. done. Qed.

Lemma of_as_u8 `{Primitive T} (t : T) : of_u8 (as_u8 t) = Some t.
Proof.
  unfold of_u8, as_u8. destruct (list_find (eq t) variants) as [[i t']|] eqn:E.
  - apply list_find_Some in E as (Hi & <- & _). change (default 0%nat (fst <$> Some (i, t))) with i.
    assert ((Z.of_nat i <? 0) = false) as -> by (apply Z.ltb_ge; lia). by rewrite Nat2Z.id.
  - apply list_find_None in E. exfalso. rewrite Forall_forall in E.
    apply (E t (variants_complete t)). done.
Qed.

(** ** Readers undo writers *)

Lemma get_bind_Ok {A B} (g : Get A) (k : A -> Get B) input a rest :
  g input = Ok (a, rest) -> get_bind g k input = k a rest.
Proof. intros E. unfold get_bind. by rewrite E. Qed.

Lemma get_number_eq w z rest :
  0 <= z < 256 ^ Z.of_nat w -> get_number w (to_le_bytes w z ++ rest) = Ok (z, rest).
Proof.
  intros Hz. unfold get_number.
  rewrite take_app_length' by (by rewrite to_le_bytes_length).
  rewrite drop_app_length' by (by rewrite to_le_bytes_length). by rewrite from_to_le_small.
Qed.

Lemma get_u8_eq z rest : get_u8 ([z] ++ rest) = Ok (z, rest).
Proof. done. Qed.
Lemma get_u16_eq z rest : is_u16 z -> get_u16 (to_le_bytes 2 z ++ rest) = Ok (z, rest).
Proof. intros Hz. by apply get_number_eq. Qed.
Lemma get_u32_eq z rest : is_u32 z -> get_u32 (to_le_bytes 4 z ++ rest) = Ok (z, rest).
Proof. intros Hz. by apply get_number_eq. Qed.
Lemma get_u64_eq z rest : is_u64 z -> get_u64 (to_le_bytes 8 z ++ rest) = Ok (z, rest).
Proof. intros Hz. by apply get_number_eq. Qed.
Lemma get_key_eq z rest : is_key z -> get_key (to_le_bytes 32 z ++ rest) = Ok (z, rest).
Proof. intros Hz. by apply get_number_eq. Qed.

Lemma get_i64_eq z rest : is_i64 z -> get_i64 (to_le_bytes 8 z ++ rest) = Ok (z, rest).
Proof.
  intros Hz. unfold get_i64.
  rewrite take_app_length' by (by rewrite to_le_bytes_length).
  rewrite drop_app_length' by (by rewrite to_le_bytes_length).
  rewrite from_to_le_bytes. change (256 ^ Z.of_nat 8) with (2 ^ 64). do 2 f_equal.
  rewrite <- (wrap_i64_id z Hz) at 2. unfold wrap_i64. by rewrite Zplus_mod_idemp_l.
Qed.

Lemma get_with_eq {A} w (f : list Z -> result ProgramError A) bytes a rest :
  length bytes = w -> f bytes = Ok a -> get_with w f (bytes ++ rest) = Ok (a, rest).
Proof.
  intros Hl Hf. unfold get_with. by rewrite take_app_length', drop_app_length', Hf by done.
Qed.

Lemma get_bool_eq b rest : get_bool ([bool_byte b] ++ rest) = Ok (b, rest).
Proof. by apply get_with_eq; [|destruct b]. Qed.
Lemma get_option_u32_eq o rest :
  option_all is_u32 o -> get_option_u32 (option_u32_bytes o ++ rest) = Ok (o, rest).
Proof. intros Ho. apply get_with_eq; [apply option_u32_length | by apply unpack_option_u32_bytes]. Qed.
Lemma get_option_key_eq o rest :
  option_all is_key o -> get_option_key (option_key_bytes o ++ rest) = Ok (o, rest).
Proof. intros Ho. apply get_with_eq; [apply option_key_length | by apply unpack_option_key_bytes]. Qed.
Lemma get_name_eq `{Utf8} name rest :
  valid_name name -> get_name (padded name ++ rest) = Ok (name, rest).
Proof. intros Hn. apply get_with_eq; [by apply padded_length, Hn | by apply unpack_padded]. Qed.
Lemma get_enum_eq `{Primitive T} (t : T) error rest :
  get_enum error ([as_u8 t] ++ rest) = Ok (t, rest).
Proof. apply get_with_eq; [done|]. cbn [nth]. by rewrite of_as_u8. Qed.

Lemma len_one (z : Z) : length [z] = 1%nat.
Proof. done. Qed.

Ltac solve_length :=
  first
    [ apply len_one | apply to_le_bytes_length | apply option_u32_length | apply option_key_length
    | apply padded_length; match goal with Hn : valid_name ?n |- _ => exact (proj1 Hn) end
    | apply length_replicate ].

(** The bytes of the fields, as a concatenation. *)
Ltac lay_out :=
  unfold zero_filled;
  cbn [map concat fst snd put_u8 put_u16 put_u32 put_u64 put_i64 put_key put_bool put_option_u32 put_option_key
       put_name];
  rewrite ?pack_bool_zeros, ?pack_option_u32_zeros, ?pack_option_key_zeros;
  rewrite ?pack_name_zeros by (match goal with Hn : valid_name ?n |- _ => exact (proj1 Hn) end).

Ltac take_field :=
  match goal with
  | |- context [slice 0 ?n (?a ++ ?b)] => rewrite (slice_here a b n) by solve_length
  | |- context [nth 0 ([?z] ++ ?b) 0] => rewrite (u8_here z b)
  | |- context [slice ?off ?n (?a ++ ?b)] =>
      let Hn := fresh in
      eassert (length a = _) as Hn by solve_length;
      rewrite (slice_skip a b _ off n Hn) by lia; clear Hn; cbn [Nat.sub]
  | |- context [nth ?off (?a ++ ?b) 0] =>
      let Hn := fresh in
      eassert (length a = _) as Hn by solve_length;
      rewrite (nth_skip a b _ off Hn) by lia; clear Hn; cbn [Nat.sub]
  end.

Create Rewrite HintDb fields.
#[export] Hint Rewrite @unpack_padded @from_le_u16 @from_le_u32 @from_le_u64 @from_le_key
  @unpack_option_u32_bytes @unpack_option_key_bytes unpack_bool_byte using assumption : fields.

(** The tag an input begins with. *)
Ltac read_tag E :=
  match type of E with
  | ?input = zero_filled (put_u8 ?z :: _) ++ _ =>
      let Ht := fresh in assert (u8_at 0 input = z) as Ht by (rewrite E; reflexivity); rewrite Ht; clear Ht
  end.

(** Reads the fields of [input], which [E] says it begins with. *)
Ltac read_back E :=
  try rewrite E; unfold u8_at, u16_at, u32_at, u64_at, key_at; lay_out; rewrite <- ?app_assoc;
  repeat take_field; autorewrite with fields.

Ltac total_length :=
  lay_out; rewrite ?length_app, ?to_le_bytes_length, ?option_u32_length, ?option_key_length;
  repeat match goal with Hn : valid_name ?n |- context [length (padded ?n)] =>
    rewrite (padded_length n (proj1 Hn)) end;
  reflexivity.

Create HintDb get.
#[export] Hint Resolve get_u8_eq get_u16_eq get_u32_eq get_u64_eq get_i64_eq get_key_eq get_bool_eq
  get_option_u32_eq get_option_key_eq get_name_eq get_enum_eq : get.

(** One field taken off the front. *)
Ltac get_step := erewrite get_bind_Ok by (eauto 2 with get nocore).

(** A type whose [unpack] is a check of the length and a reader of the fields. *)
Ltac get_back E :=
  rewrite E; lay_out; rewrite <- ?app_assoc;
  repeat change (drop 1 ([?z] ++ ?l)) with l;
  unfold run_get; repeat get_step; unfold get_ret.

(** The [unpack_*] of a variant, once its tag is known. *)
Ltac decode Hlen E := rewrite Hlen by done; cbn [result_bind]; first [by get_back E | by read_back E].

(** ** A concrete [Utf8]: ASCII, of the bytes that are UTF-8 *)

Definition ascii_utf8 : Utf8 := {|
  utf8_valid := forallb (fun b => b <? 128); utf8_valid_nil := eq_refl |}.

Definition ascii_name (name : list Z) : bool :=
  (length name <=? 64)%nat && forallb (fun b => (0 <? b) && (b <? 128)) name.

Lemma ascii_name_valid name : ascii_name name = true -> @valid_name ascii_utf8 name.
Proof.
  unfold ascii_name, valid_name. cbn [utf8_valid ascii_utf8].
  rewrite andb_true_iff, !forallb_forall, Nat.leb_le, Forall_forall.
  intros [Hl Hb]. split; [done|]. split.
  - intros b Hin. apply list_elem_of_In, Hb in Hin. lia.
  - intros b Hin. apply Hb in Hin. lia.
Qed.
