(* ===== verification/RefDB.v ===== *)
(** * The reference database ([crates/solana_farm_sdk/src/refdb.rs], [pack.rs])

    Homogeneous records in one account's data: a header of 73 bytes and then
    records of a fixed size, each a counter (0 for a free slot), a tag, a name of
    at most 64 bytes and a reference.  The account is its list of bytes, a byte a
    number from 0 to 255; an [f64] is its bit pattern and a public key the number
    its 32 bytes spell.  [ArrayString64] is its bytes, and whether bytes are
    UTF-8, which [try_from_utf8] checks, is the class [Utf8]. *)

From S2P Require Import Prelude MachineInt Pack.

(** ** References *)

Inductive ReferenceType := RtPubkey | RtU8 | RtU16 | RtU32 | RtU64 | RtF64 | RtEmpty.

#[export] Instance ReferenceType_eq_dec : EqDecision ReferenceType.
Proof. solve_decision. Defined.

Inductive Reference :=
| RefPubkey (data : Z)
| RefU8 (data : Z)
| RefU16 (data : Z)
| RefU32 (data : Z)
| RefU64 (data : Z)
| RefF64 (bits : Z)
| RefEmpty.

Definition get_type (r : Reference) : ReferenceType :=
  match r with
  | RefPubkey _ => RtPubkey | RefU8 _ => RtU8 | RefU16 _ => RtU16 | RefU32 _ => RtU32
  | RefU64 _ => RtU64 | RefF64 _ => RtF64 | RefEmpty => RtEmpty
  end.

(** [ReferenceType::get_size]. *)
Definition ref_size (t : ReferenceType) : nat :=
  match t with
  | RtPubkey => 32 | RtU8 => 1 | RtU16 => 2 | RtU32 => 4 | RtU64 => 8 | RtF64 => 8 | RtEmpty => 0
  end.

Definition type_to_u8 (t : ReferenceType) : Z :=
  match t with
  | RtPubkey => 0 | RtU8 => 1 | RtU16 => 2 | RtU32 => 3 | RtU64 => 4 | RtF64 => 5 | RtEmpty => 6
  end.

Definition try_from_primitive (b : Z) : result ProgramError ReferenceType :=
  if b =? 0 then Ok RtPubkey else if b =? 1 then Ok RtU8 else if b =? 2 then Ok RtU16
  else if b =? 3 then Ok RtU32 else if b =? 4 then Ok RtU64 else if b =? 5 then Ok RtF64
  else if b =? 6 then Ok RtEmpty else Err InvalidAccountData.

(** The bytes [pack_with_*] writes for a reference and [unpack_with_*] reads. *)
Definition reference_bytes (r : Reference) : list Z :=
  match r with
  | RefPubkey z | RefU8 z | RefU16 z | RefU32 z | RefU64 z | RefF64 z =>
      to_le_bytes (ref_size (get_type r)) z
  | RefEmpty => []
  end.

Definition reference_of_bytes (t : ReferenceType) (bytes : list Z) : Reference :=
  match t with
  | RtPubkey => RefPubkey (from_le_bytes bytes)
  | RtU8 => RefU8 (from_le_bytes bytes)
  | RtU16 => RefU16 (from_le_bytes bytes)
  | RtU32 => RefU32 (from_le_bytes bytes)
  | RtU64 => RefU64 (from_le_bytes bytes)
  | RtF64 => RefF64 (from_le_bytes bytes)
  | RtEmpty => RefEmpty
  end.

(** ** Header *)

Record Header := {
  h_counter : Z;
  h_active_records : Z;
  h_reference_type : ReferenceType;
  h_name : ArrayString64;
}.

Definition HEADER_LEN : nat := 73.

(** [Header::pack] over the front of [output]. *)
Definition pack_header (h : Header) (output : list Z) : result ProgramError (list Z) :=
  _ <-? check_data_len output HEADER_LEN ;;
  Ok (splice 0 (to_le_bytes 4 h.(h_counter) ++ to_le_bytes 4 h.(h_active_records)
                ++ [type_to_u8 h.(h_reference_type)]
                ++ pack_array_string64 h.(h_name) (slice 9 64 output)) output).

Definition unpack_header `{Utf8} (input : list Z) : result ProgramError Header :=
  _ <-? check_data_len input HEADER_LEN ;;
  reference_type <-? try_from_primitive (nth 8 input 0) ;;
  name <-? unpack_array_string64 (slice 9 64 input) ;;
  Ok {| h_counter := from_le_bytes (slice 0 4 input);
        h_active_records := from_le_bytes (slice 4 4 input);
        h_reference_type := reference_type; h_name := name |}.

(** ** Records *)

Record Record_ := {
  r_index : option Z;
  r_counter : Z;
  r_tag : Z;
  r_name : ArrayString64;
  r_reference : Reference;
}.

Definition NO_REF_LEN : nat := 68.

Definition get_size (r : Record_) : nat := NO_REF_LEN + ref_size (get_type r.(r_reference)).

(** [Record::pack], all seven [pack_with_*], over the front of [output]. *)
Definition pack_record (r : Record_) (output : list Z) : result ProgramError (list Z) :=
  _ <-? check_data_len output (get_size r) ;;
  Ok (splice 0 (to_le_bytes 2 r.(r_counter) ++ to_le_bytes 2 r.(r_tag)
                ++ pack_array_string64 r.(r_name) (slice 4 64 output)
                ++ reference_bytes r.(r_reference)) output).

Definition header_to_vec (h : Header) : result ProgramError (list Z) :=
  match pack_header h (replicate HEADER_LEN 0) with
  | Ok output => Ok (take HEADER_LEN output)
  | Err _ => Err InvalidAccountData
  end.

Definition unpack_record `{Utf8} (input : list Z) (t : ReferenceType) (index : option Z)
    : result ProgramError Record_ :=
  _ <-? check_data_len input (NO_REF_LEN + ref_size t) ;;
  name <-? unpack_array_string64 (slice 4 64 input) ;;
  Ok {| r_index := index; r_counter := from_le_bytes (slice 0 2 input);
        r_tag := from_le_bytes (slice 2 2 input); r_name := name;
        r_reference := reference_of_bytes t (slice 68 (ref_size t) input) |}.

Definition unpack_counter (input : list Z) : result ProgramError Z :=
  _ <-? check_data_len input NO_REF_LEN ;; Ok (from_le_bytes (slice 0 2 input)).

Definition unpack_counter_and_name `{Utf8} (input : list Z) : result ProgramError (Z * ArrayString64) :=
  _ <-? check_data_len input NO_REF_LEN ;;
  name <-? unpack_array_string64 (slice 4 64 input) ;;
  Ok (from_le_bytes (slice 0 2 input), name).

(** ** Storage sizes *)

Inductive StorageType := StProgram | StVault | StPool | StFarm | StToken | StFund | StOther.

Definition get_default_size (storage_type : StorageType) : Z :=
  match storage_type with
  | StProgram => 25000
  | StFund => 10000
  | StVault | StPool | StFarm => 50000
  | StToken => 500000
  | StOther => 0
  end.

Definition get_default_max_records `{Profile} (storage_type : StorageType) (reference_type : ReferenceType)
    : option Z :=
  space ← sub_u64 (get_default_size storage_type) (Z.of_nat HEADER_LEN);
  Some (space / Z.of_nat (NO_REF_LEN + ref_size reference_type)).

Definition get_storage_size_for_records `{Profile} (reference_type : ReferenceType) (records_num : Z)
    : option Z :=
  if 2 ^ 32 - 1 <? records_num then Some 0 else
  records ← mul_u64 records_num (Z.of_nat (NO_REF_LEN + ref_size reference_type));
  add_u64 records (Z.of_nat HEADER_LEN).

Definition get_storage_size_for_max_records `{Profile} (storage_type : StorageType)
    (reference_type : ReferenceType) : option Z :=
  max_records ← get_default_max_records storage_type reference_type;
  get_storage_size_for_records reference_type max_records.

(** ** [RefDB] *)

Section RefDB.
Context `{Profile} `{Utf8}.

Definition get_storage_header : Db Header := reads unpack_header.

Definition get_reference_type : Db ReferenceType := reads (fun data =>
  _ <-? check_data_len data HEADER_LEN ;; try_from_primitive (nth 8 data 0)).

Definition get_record_size : Db nat :=
  t <-! get_reference_type ;; st_ok (NO_REF_LEN + ref_size t)%nat.

Definition get_storage_counter : Db Z := reads (fun data =>
  _ <-? check_data_len data HEADER_LEN ;;
  let counter := from_le_bytes (slice 0 4 data) in
  if 0 <? counter then Ok counter else Err UninitializedAccount).

Definition set_storage_counter (counter : Z) : Db Z :=
  if counter =? 0 then st_bail InvalidArgument else
  _ <-! reads (fun data => check_data_len data HEADER_LEN) ;;
  st_modify (splice 0 (to_le_bytes 4 counter)) ;;;
  st_ok counter.

Definition get_active_records : Db Z := reads (fun data =>
  _ <-? check_data_len data HEADER_LEN ;; Ok (from_le_bytes (slice 4 4 data))).

Definition set_active_records (records : Z) : Db Z :=
  _ <-! reads (fun data => check_data_len data HEADER_LEN) ;;
  st_modify (splice 4 (to_le_bytes 4 records)) ;;;
  st_ok records.

(** The subtraction is evaluated before the header is checked. *)
Definition get_total_records : Db nat :=
  len <- st_gets length ;;
  space <-! st_lift (st_unwrap (sub_u64 (Z.of_nat len) (Z.of_nat HEADER_LEN))) ;;
  rec_size <-! get_record_size ;;
  st_ok (Z.to_nat (space / Z.of_nat rec_size)).

Definition get_free_records : Db Z :=
  rec_size <-! get_record_size ;;
  active <-! get_active_records ;;
  len <- st_gets length ;;
  used <-! st_lift (st_unwrap (mul_u64 active (Z.of_nat rec_size))) ;;
  rest <-! st_lift (st_unwrap (sub_u64 (Z.of_nat len) used)) ;;
  rest' <-! st_lift (st_unwrap (sub_u64 rest (Z.of_nat HEADER_LEN))) ;;
  st_ok (rest' / Z.of_nat rec_size).

Definition is_empty : Db bool := n <-! get_active_records ;; st_ok (n =? 0).
Definition is_full : Db bool := n <-! get_free_records ;; st_ok (n =? 0).
Definition is_updated (last_counter : Z) : Db bool :=
  c <-! get_storage_counter ;; st_ok (last_counter <? c).
Definition get_name : Db ArrayString64 := reads (fun data =>
  _ <-? check_data_len data HEADER_LEN ;; unpack_array_string64 (slice 9 64 data)).

Definition is_initialized (data : list Z) : bool :=
  match unpack_header data with
  | Ok header =>
      (0 <? header.(h_counter)) &&
      (header.(h_active_records) <=?
         Z.of_nat (length data - HEADER_LEN) /
         Z.of_nat (NO_REF_LEN + ref_size header.(h_reference_type)))
  | Err _ => false
  end.

Definition init (name : ArrayString64) (reference_type : ReferenceType) : Db unit := fun data =>
  if is_initialized data then (Some (Err AccountAlreadyInitialized), data) else
  match (_ <-? check_data_len data (HEADER_LEN + (NO_REF_LEN + ref_size reference_type)) ;;
         pack_header {| h_counter := 1; h_active_records := 0;
                        h_reference_type := reference_type; h_name := name |} data) with
  | Ok data' => (Some (Ok tt), data')
  | Err e => (Some (Err e), data)
  end.

(** [RefDB::drop]. *)
Definition drop_db : Db nat := fun data =>
  match check_data_len data HEADER_LEN with
  | Err e => (Some (Err e), data)
  | Ok _ => if (2000 <? length data)%nat then (Some (Err RefdbTooLarge), data)
            else (Some (Ok (length data)), replicate (length data) 0)
  end.

(** ** Finding records *)

Definition get_offset (index : nat) : Db nat :=
  rec_size <-! get_record_size ;;
  let offset := (HEADER_LEN + index * rec_size)%nat in
  _ <-! reads (fun data => check_data_len data offset) ;;
  st_ok offset.

Definition get_record_counter (offset : nat) : Db Z := tail_from offset unpack_counter.

Definition get_record_counter_and_name (offset : nat) : Db (Z * ArrayString64) :=
  tail_from offset unpack_counter_and_name.

Definition set_record_counter (offset : nat) (counter : Z) : ST (list Z) unit :=
  if counter =? 0 then st_ret tt else
  fun data => if (length data <? offset + 2)%nat then (None, data)
              else (Some tt, splice offset (to_le_bytes 2 counter) data).

(** The loops over the records: [remaining] of them, [checked] active ones so
    far. *)
Fixpoint find_index_loop (remaining index offset rec_size : nat) (checked rec_active : Z)
    (name : ArrayString64) : Db (option nat) :=
  match remaining with
  | O => st_ok None
  | S remaining' =>
      cn <-! get_record_counter_and_name offset ;;
      if 0 <? fst cn then
        if bool_decide (snd cn = name) then st_ok (Some index)
        else if checked + 1 =? rec_active then st_ok None
        else find_index_loop remaining' (S index) (offset + rec_size) rec_size (checked + 1) rec_active name
      else find_index_loop remaining' (S index) (offset + rec_size) rec_size checked rec_active name
  end.

Definition find_index (name : ArrayString64) : Db (option nat) :=
  rec_active <-! get_active_records ;;
  if rec_active =? 0 then st_ok None else
  rec_num <-! get_total_records ;;
  rec_size <-! get_record_size ;;
  find_index_loop rec_num 0 HEADER_LEN rec_size 0 rec_active name.

Fixpoint find_last_loop (remaining index offset rec_size : nat) (checked rec_active : Z) : Db nat :=
  match remaining with
  | O => st_bail InvalidAccountData
  | S remaining' =>
      counter <-! get_record_counter offset ;;
      if 0 <? counter then
        if checked + 1 =? rec_active then st_ok (S index)
        else find_last_loop remaining' (S index) (offset + rec_size) rec_size (checked + 1) rec_active
      else find_last_loop remaining' (S index) (offset + rec_size) rec_size checked rec_active
  end.

Definition find_last_index : Db nat :=
  rec_active <-! get_active_records ;;
  if rec_active =? 0 then st_ok 0%nat else
  rec_num <-! get_total_records ;;
  rec_size <-! get_record_size ;;
  find_last_loop rec_num 0 HEADER_LEN rec_size 0 rec_active.

Fixpoint find_next_loop (remaining index offset rec_size : nat) (checked rec_active : Z) : Db nat :=
  match remaining with
  | O => st_bail InvalidAccountData
  | S remaining' =>
      counter <-! get_record_counter offset ;;
      if counter =? 0 then st_ok index
      else if checked + 1 =? rec_active then st_ok (S index)
      else find_next_loop remaining' (S index) (offset + rec_size) rec_size (checked + 1) rec_active
  end.

Definition find_next_index : Db nat :=
  rec_active <-! get_active_records ;;
  if rec_active =? 0 then st_ok 0%nat else
  rec_num <-! get_total_records ;;
  rec_size <-! get_record_size ;;
  find_next_loop rec_num 0 HEADER_LEN rec_size 0 rec_active.

(** [free_slot] is 0 until a free slot is met. *)
Fixpoint find_write_loop (remaining offset rec_size : nat) (checked rec_active : Z) (free_slot : nat)
    (name : ArrayString64) : Db nat :=
  let finish offset := st_ok (if (0 <? free_slot)%nat then free_slot else offset) in
  match remaining with
  | O => finish offset
  | S remaining' =>
      cn <-! get_record_counter_and_name offset ;;
      if 0 <? fst cn then
        if bool_decide (snd cn = name) then st_ok offset
        else if checked + 1 =? rec_active then finish (offset + rec_size)%nat
        else find_write_loop remaining' (offset + rec_size) rec_size (checked + 1) rec_active free_slot name
      else find_write_loop remaining' (offset + rec_size) rec_size checked rec_active
             (if (free_slot =? 0)%nat then offset else free_slot) name
  end.

Definition find_write_offset (name : ArrayString64) : Db nat :=
  rec_active <-! get_active_records ;;
  if rec_active =? 0 then st_ok HEADER_LEN else
  rec_num <-! get_total_records ;;
  rec_size <-! get_record_size ;;
  find_write_loop rec_num HEADER_LEN rec_size 0 rec_active 0 name.

(** ** Reading *)

Definition read_at (index : nat) : Db (option Record_) :=
  offset <-! get_offset index ;;
  ref_type <-! get_reference_type ;;
  record <-! tail_from offset (fun d => unpack_record d ref_type (Some (wrap_u32 (Z.of_nat index)))) ;;
  st_ok (if 0 <? record.(r_counter) then Some record else None).

Definition read (name : ArrayString64) : Db (option Record_) :=
  i <-! find_index name ;;
  match i with Some index => read_at index | None => st_ok None end.

Definition read_at_if_changed (index : nat) (last_counter : Z) : Db (option Record_) :=
  offset <-! get_offset index ;;
  counter <-! get_record_counter offset ;;
  if last_counter <? counter then read_at index else st_ok None.

Definition read_if_changed (name : ArrayString64) (last_counter : Z) : Db (option Record_) :=
  i <-! find_index name ;;
  match i with Some index => read_at_if_changed index last_counter | None => st_ok None end.

Fixpoint read_all_loop (remaining index : nat) (active_rec : Z) (vec : list Record_)
    : Db (list Record_) :=
  match remaining with
  | O => st_bail InvalidAccountData
  | S remaining' =>
      rec <-! read_at index ;;
      match rec with
      | Some r =>
          if Z.of_nat (length (vec ++ [r])) =? active_rec then st_ok (vec ++ [r])
          else read_all_loop remaining' (S index) active_rec (vec ++ [r])
      | None => read_all_loop remaining' (S index) active_rec vec
      end
  end.

Definition read_all : Db (list Record_) :=
  rec_num <-! get_total_records ;;
  active_rec <-! get_active_records ;;
  if active_rec =? 0 then st_ok [] else read_all_loop rec_num 0 active_rec [].

Definition read_all_if_changed (last_counter : Z) : Db (list Record_) :=
  c <-! get_storage_counter ;; if last_counter <? c then read_all else st_ok [].

(** ** Writing *)

Definition bump_storage_counter : Db unit :=
  storage_counter <-! get_storage_counter ;;
  _ <-! (if storage_counter <? 2 ^ 32 - 1 then set_storage_counter (storage_counter + 1)
         else set_storage_counter 1) ;;
  st_ok tt.

Definition record_offset (record : Record_) : Db nat :=
  match record.(r_index) with
  | Some idx => get_offset (Z.to_nat idx)
  | None => find_write_offset record.(r_name)
  end.

(** The result of [pack] is returned after the counter was set. *)
Definition write (record : Record_) : Db nat :=
  offset <-! record_offset record ;;
  cn <-! get_record_counter_and_name offset ;;
  let '(cur_counter, cur_name) := cn in
  if (0 <? cur_counter) && (0 <? record.(r_counter)) && negb (cur_counter =? record.(r_counter))
  then st_bail RefdbRecordCounterMismatch else
  if (0 <? cur_counter) && bool_decide (is_Some record.(r_index))
     && negb (bool_decide (record.(r_name) = cur_name))
  then st_bail RefdbRecordNameMismatch else
  t <-! get_reference_type ;;
  if negb (bool_decide (t = get_type record.(r_reference))) then st_bail RefdbRecordTypeMismatch else
  _ <-! bump_storage_counter ;;
  _ <-! (if cur_counter =? 0 then
           active_records <-! get_active_records ;;
           if active_records <? 2 ^ 32 - 1 then
             _ <-! set_active_records (active_records + 1) ;; st_ok tt
           else st_ok tt
         else st_ok tt) ;;
  res <- modify_from offset (pack_record record) ;;
  set_record_counter offset (if cur_counter <? 2 ^ 16 - 1 then cur_counter + 1 else 1) ;;;
  match res with Ok _ => st_ok (get_size record) | Err e => st_bail e end.

Definition update_at (index : nat) (reference : Reference) : Db nat :=
  offset <-! get_offset index ;;
  cur_record <-! tail_from offset (fun d => unpack_record d (get_type reference) None) ;;
  _ <-! bump_storage_counter ;;
  if cur_record.(r_counter) =? 0 then st_bail UninitializedAccount else
  let record := {| r_index := cur_record.(r_index);
                   r_counter := if cur_record.(r_counter) <? 2 ^ 16 - 1
                                then cur_record.(r_counter) + 1 else 1;
                   r_tag := cur_record.(r_tag); r_name := cur_record.(r_name);
                   r_reference := reference |} in
  _ <-! modify_from offset (pack_record record) ;;
  st_ok (get_size record).

Definition update (name : ArrayString64) (reference : Reference) : Db nat :=
  i <-! find_index name ;;
  match i with Some index => update_at index reference | None => st_bail RefdbRecordNotFound end.

(** The bytes cleared are those of the record given, whatever the type of the
    storage. *)
Definition delete (record : Record_) : Db nat :=
  offset <-! record_offset record ;;
  let data_end := (offset + get_size record)%nat in
  _ <-! reads (fun data => check_data_len data data_end) ;;
  cn <-! get_record_counter_and_name offset ;;
  let '(stored_counter, stored_name) := cn in
  if stored_counter =? 0 then st_ok 0%nat else
  if (0 <? record.(r_counter)) && negb (stored_counter =? record.(r_counter))
  then st_bail RefdbRecordCounterMismatch else
  if negb (bool_decide (record.(r_name) = stored_name)) then st_bail RefdbRecordNameMismatch else
  _ <-! bump_storage_counter ;;
  active_records <-! get_active_records ;;
  _ <-! (if 0 <? active_records then set_active_records (active_records - 1) else st_ok 0) ;;
  st_modify (splice offset (replicate (get_size record) 0)) ;;;
  st_ok (get_size record).

Definition delete_with_name (name : ArrayString64) (index : option Z) : Db nat :=
  delete {| r_index := index; r_counter := 0; r_tag := 0; r_name := name; r_reference := RefEmpty |}.
End RefDB.
