(* ===== verification/RefDBFacts.v ===== *)
(** * The reference database refines a table of records

    [encode] lays out an abstract database, a list of slots that are free or hold
    a record, as the bytes of an account; the operations of [RefDB] on those
    bytes are related to operations on the table. *)

From S2P Require Import Prelude MachineInt Pack RefDB.

(** ** The table *)

(** A free slot keeps the bytes of the reference that was there. *)
Inductive Slot :=
| Free (junk : list Z)
| Used (counter tag : Z) (name : list Z) (reference : Reference).

Record Table := {
  t_counter : Z;
  t_type : ReferenceType;
  t_name : list Z;
  t_slots : list Slot;
  t_slack : list Z;
}.

Definition slot_bytes (s : Slot) : list Z :=
  match s with
  | Free junk => replicate 68 0 ++ junk
  | Used c tag name r => to_le_bytes 2 c ++ to_le_bytes 2 tag ++ padded name ++ reference_bytes r
  end.

Definition used (s : Slot) : bool := match s with Used _ _ _ _ => true | Free _ => false end.

Definition active (slots : list Slot) : Z := Z.of_nat (length (base.filter (fun s => used s = true) slots)).

Definition header_bytes (t : Table) : list Z :=
  to_le_bytes 4 t.(t_counter) ++ to_le_bytes 4 (active t.(t_slots))
  ++ [type_to_u8 t.(t_type)] ++ padded t.(t_name).

Definition encode (t : Table) : list Z :=
  header_bytes t ++ concat (map slot_bytes t.(t_slots)) ++ t.(t_slack).

Section Facts.
Context `{Profile} `{Utf8}.

Definition value_of (r : Reference) : Z :=
  match r with
  | RefPubkey z | RefU8 z | RefU16 z | RefU32 z | RefU64 z | RefF64 z => z
  | RefEmpty => 0
  end.

Definition valid_reference (t : ReferenceType) (r : Reference) : Prop :=
  get_type r = t /\ 0 <= value_of r < 256 ^ Z.of_nat (ref_size t).

Definition valid_slot (t : ReferenceType) (s : Slot) : Prop :=
  match s with
  | Free junk => length junk = ref_size t
  | Used c tag name r =>
      0 < c < 2 ^ 16 /\ 0 <= tag < 2 ^ 16 /\ valid_name name /\ valid_reference t r
  end.

Definition rec_size (t : Table) : nat := NO_REF_LEN + ref_size t.(t_type).

Record wf (t : Table) : Prop := {
  wf_counter : 0 < t.(t_counter) < 2 ^ 32;
  wf_name : valid_name t.(t_name);
  wf_slots : Forall (valid_slot t.(t_type)) t.(t_slots);
  wf_some : (0 < length t.(t_slots))%nat;
  wf_few : Z.of_nat (length t.(t_slots)) < 2 ^ 32;
  wf_slack : (length t.(t_slack) < rec_size t)%nat;
}.

(** ** Layout *)

Lemma reference_bytes_length r : length (reference_bytes r) = ref_size (get_type r).
Proof. destruct r; [apply to_le_bytes_length..|reflexivity]. Qed.

Lemma reference_roundtrip t r :
  valid_reference t r -> reference_of_bytes t (reference_bytes r) = r.
Proof.
  intros [<- Hr]. destruct r; cbn [get_type reference_of_bytes reference_bytes value_of] in *;
    try reflexivity; by rewrite from_to_le_small.
Qed.

Lemma slot_bytes_length t s : valid_slot t s -> length (slot_bytes s) = (NO_REF_LEN + ref_size t)%nat.
Proof.
  destruct s as [junk|c tag name r]; cbn [valid_slot slot_bytes].
  - intros Hj. by rewrite length_app, length_replicate, Hj.
  - intros (_ & _ & (Hn & _ & _) & Hr & _).
    rewrite !length_app, !to_le_bytes_length, padded_length, reference_bytes_length, Hr by done.
    reflexivity.
Qed.

Lemma slots_length t slots :
  Forall (valid_slot t) slots ->
  length (concat (map slot_bytes slots)) = (length slots * (NO_REF_LEN + ref_size t))%nat.
Proof.
  induction 1 as [|s slots Hs _ IH]; [done|].
  cbn [map concat length]. rewrite length_app, (slot_bytes_length t) by done. rewrite IH. lia.
Qed.

Lemma header_length t : valid_name t.(t_name) -> length (header_bytes t) = HEADER_LEN.
Proof.
  intros (Hn & _). unfold header_bytes. rewrite !length_app, !to_le_bytes_length, padded_length by done.
  reflexivity.
Qed.

Lemma encode_length t :
  wf t -> length (encode t)
  = (HEADER_LEN + length t.(t_slots) * rec_size t + length t.(t_slack))%nat.
Proof.
  intros [_ Hn Hs _ _ _]. unfold encode. rewrite !length_app, header_length, (slots_length _ _ Hs) by done.
  unfold rec_size. lia.
Qed.

(** The byte position of a slot. *)
Definition offset_of (t : Table) (i : nat) : nat := HEADER_LEN + i * rec_size t.

(** The bytes around the slots before and after a position. *)
Lemma encode_split t pre post :
  wf t -> t.(t_slots) = pre ++ post ->
  encode t = (header_bytes t ++ concat (map slot_bytes pre))
             ++ concat (map slot_bytes post) ++ t.(t_slack) /\
  length (header_bytes t ++ concat (map slot_bytes pre)) = offset_of t (length pre).
Proof.
  intros [_ Hn Hs _ _ _] E. split.
  - unfold encode. rewrite E, map_app, concat_app, <- !app_assoc. reflexivity.
  - rewrite E in Hs. apply Forall_app in Hs as [Hs _].
    by rewrite length_app, header_length, (slots_length _ _ Hs).
Qed.

Lemma drop_encode t pre post :
  wf t -> t.(t_slots) = pre ++ post ->
  drop (offset_of t (length pre)) (encode t) = concat (map slot_bytes post) ++ t.(t_slack).
Proof.
  intros Hwf E. destruct (encode_split t pre post Hwf E) as [-> <-]. apply drop_app_length.
Qed.

Lemma offset_le t pre post :
  wf t -> t.(t_slots) = pre ++ post -> (offset_of t (length pre) <= length (encode t))%nat.
Proof.
  intros Hwf E. destruct (encode_split t pre post Hwf E) as [-> <-]. rewrite !length_app. lia.
Qed.

(** ** Header fields *)

Lemma active_bounds slots : 0 <= active slots <= Z.of_nat (length slots).
Proof. unfold active. pose proof (length_filter (fun s => used s = true) slots). lia. Qed.

Lemma long_enough t : wf t -> check_data_len (encode t) HEADER_LEN = Ok tt.
Proof.
  intros Hwf. unfold check_data_len. rewrite encode_length by done.
  destruct (_ <? _)%nat eqn:E; [|done]. apply Nat.ltb_lt in E. lia.
Qed.

Lemma counter_field t : wf t -> from_le_bytes (slice 0 4 (encode t)) = t.(t_counter).
Proof.
  intros Hwf. unfold encode, header_bytes. rewrite <- !app_assoc.
  rewrite slice_front by (by rewrite to_le_bytes_length).
  apply from_to_le_small. change (256 ^ Z.of_nat 4) with (2 ^ 32). destruct (wf_counter t Hwf). lia.
Qed.

Lemma active_field t : wf t -> from_le_bytes (slice 4 4 (encode t)) = active t.(t_slots).
Proof.
  intros Hwf. unfold encode, header_bytes. rewrite <- !app_assoc.
  rewrite slice_app by (by rewrite ?to_le_bytes_length).
  apply from_to_le_small. pose proof (active_bounds (t_slots t)). pose proof (wf_few t Hwf). cbn. lia.
Qed.

Lemma type_field t : wf t -> try_from_primitive (nth 8 (encode t) 0) = Ok t.(t_type).
Proof.
  intros Hwf. unfold encode, header_bytes. rewrite <- !app_assoc, (app_assoc (to_le_bytes 4 _)).
  rewrite app_nth2 by (rewrite length_app, !to_le_bytes_length; lia).
  rewrite length_app, !to_le_bytes_length. cbn. by destruct (t_type t).
Qed.

Lemma get_reference_type_eq t : wf t -> get_reference_type (encode t) = (Some (Ok t.(t_type)), encode t).
Proof. intros Hwf. unfold get_reference_type, reads. rewrite long_enough by done. cbn [result_bind].
  by rewrite type_field.
Qed.

Lemma get_record_size_eq t : wf t -> get_record_size (encode t) = (Some (Ok (rec_size t)), encode t).
Proof.
  intros Hwf. unfold get_record_size. erewrite st_try_Ok by (by apply get_reference_type_eq). reflexivity.
Qed.

Lemma get_storage_counter_eq t :
  wf t -> get_storage_counter (encode t) = (Some (Ok t.(t_counter)), encode t).
Proof.
  intros Hwf. unfold get_storage_counter, reads. rewrite long_enough by done. cbn [result_bind].
  rewrite counter_field by done. destruct (0 <? t_counter t) eqn:E; [done|].
  destruct (wf_counter t Hwf). lia.
Qed.

Lemma get_active_records_eq t :
  wf t -> get_active_records (encode t) = (Some (Ok (active t.(t_slots))), encode t).
Proof.
  intros Hwf. unfold get_active_records, reads. rewrite long_enough by done. cbn [result_bind].
  by rewrite active_field.
Qed.

Lemma get_total_records_eq t :
  wf t -> Z.of_nat (length (encode t)) < 2 ^ 64 ->
  get_total_records (encode t) = (Some (Ok (length t.(t_slots))), encode t).
Proof.
  intros Hwf Hlen. unfold get_total_records. unfold st_bind at 1, st_gets at 1.
  unfold sub_u64, arith_u64. rewrite encode_length in * by done.
  set (l := (HEADER_LEN + _ + _)%nat) in *.
  assert (u64b (Z.of_nat l - Z.of_nat HEADER_LEN) = true) as ->
    by (apply u64b_spec; unfold is_u64, l; lia).
  erewrite st_try_Ok by reflexivity. erewrite st_try_Ok by (by apply get_record_size_eq).
  unfold st_ok, st_ret. do 3 f_equal. pose proof (wf_slack t Hwf).
  assert (0 < rec_size t)%nat by (unfold rec_size, NO_REF_LEN; lia).
  rewrite <- (Nat2Z.id (length (t_slots t))). f_equal. symmetry.
  apply Z.div_unique_pos with (r := Z.of_nat (length (t_slack t))); unfold l; lia.
Qed.

(** ** Reading a slot *)

Definition slot_counter (s : Slot) : Z := match s with Free _ => 0 | Used c _ _ _ => c end.
Definition slot_name (s : Slot) : list Z := match s with Free _ => [] | Used _ _ n _ => n end.

Lemma slot_front t s rest :
  valid_slot t s ->
  from_le_bytes (slice 0 2 (slot_bytes s ++ rest)) = slot_counter s /\
  unpack_array_string64 (slice 4 64 (slot_bytes s ++ rest)) = Ok (slot_name s).
Proof.
  destruct s as [junk|c tag name r]; cbn [valid_slot slot_bytes slot_counter slot_name].
  - intros _. split; [reflexivity|]. unfold unpack_array_string64.
    change (slice 4 64 ((replicate 68 0 ++ junk) ++ rest)) with (replicate 64 0).
    cbn [until_zero replicate Z.eqb]. by rewrite utf8_valid_nil.
  - intros (Hc & Ht & Hn & Hr). rewrite <- !app_assoc. split.
    + rewrite slice_front by (by rewrite to_le_bytes_length).
      apply from_to_le_small. change (256 ^ Z.of_nat 2) with (2 ^ 16). lia.
    + rewrite (app_assoc (to_le_bytes 2 c)).
      rewrite slice_app by (rewrite ?length_app, ?to_le_bytes_length, ?padded_length by apply Hn; reflexivity).
      by apply unpack_padded.
Qed.

Lemma slot_long t s rest n :
  valid_slot t s -> (n <= NO_REF_LEN + ref_size t)%nat ->
  check_data_len (slot_bytes s ++ rest) n = Ok tt.
Proof.
  intros Hs Hn. unfold check_data_len. rewrite length_app, (slot_bytes_length t) by done.
  destruct (_ <? _)%nat eqn:E; [|done]. apply Nat.ltb_lt in E. lia.
Qed.

Lemma tail_from_eq {A} t pre post (f : list Z -> result ProgramError A) :
  wf t -> t.(t_slots) = pre ++ post ->
  tail_from (offset_of t (length pre)) f (encode t)
  = (Some (f (concat (map slot_bytes post) ++ t.(t_slack))), encode t).
Proof.
  intros Hwf E. unfold tail_from. pose proof (offset_le t pre post Hwf E).
  destruct (_ <? _)%nat eqn:El; [apply Nat.ltb_lt in El; lia|].
  by rewrite (drop_encode t pre post).
Qed.

Lemma valid_middle t pre s post :
  wf t -> t.(t_slots) = pre ++ s :: post -> valid_slot t.(t_type) s.
Proof. intros Hwf E. pose proof (wf_slots t Hwf) as Hs. rewrite E in Hs. decompose_Forall. done. Qed.

Lemma counter_and_name_eq t pre s post :
  wf t -> t.(t_slots) = pre ++ s :: post ->
  get_record_counter_and_name (offset_of t (length pre)) (encode t)
  = (Some (Ok (slot_counter s, slot_name s)), encode t).
Proof.
  intros Hwf E. unfold get_record_counter_and_name. rewrite (tail_from_eq t pre (s :: post)) by done.
  pose proof (valid_middle t pre s post Hwf E) as Hs. cbn [map concat]. rewrite <- app_assoc.
  unfold unpack_counter_and_name. rewrite (slot_long (t_type t)) by (done || lia). cbn [result_bind].
  destruct (slot_front _ _ (concat (map slot_bytes post) ++ t_slack t) Hs) as [-> ->]. reflexivity.
Qed.

Lemma get_offset_eq t i :
  wf t -> (i <= length t.(t_slots))%nat ->
  get_offset i (encode t) = (Some (Ok (offset_of t i)), encode t).
Proof.
  intros Hwf Hi. unfold get_offset. erewrite st_try_Ok by (by apply get_record_size_eq). cbv zeta.
  unfold st_try, st_bind, reads, check_data_len. rewrite encode_length by done.
  destruct (_ <? _)%nat eqn:E; [apply Nat.ltb_lt in E; nia | reflexivity].
Qed.

(** The record of a slot. *)
Definition slot_record (index : option Z) (s : Slot) : option Record_ :=
  match s with
  | Free _ => None
  | Used c tag name r =>
      Some {| r_index := index; r_counter := c; r_tag := tag; r_name := name; r_reference := r |}
  end.

Lemma unpack_used t c tag name r rest index :
  valid_slot t (Used c tag name r) ->
  unpack_record (slot_bytes (Used c tag name r) ++ rest) t index
  = Ok {| r_index := index; r_counter := c; r_tag := tag; r_name := name; r_reference := r |}.
Proof.
  intros Hs. unfold unpack_record. rewrite (slot_long t) by (done || lia). cbn [result_bind].
  destruct (slot_front t _ rest Hs) as [-> ->]. cbn [result_bind slot_counter slot_name].
  destruct Hs as (_ & Ht & Hn & Hr). cbn [slot_bytes]. rewrite <- !app_assoc. do 2 f_equal.
  - rewrite slice_app by (by rewrite to_le_bytes_length).
    apply from_to_le_small. change (256 ^ Z.of_nat 2) with (2 ^ 16). lia.
  - rewrite (app_assoc (to_le_bytes 2 tag)), (app_assoc (to_le_bytes 2 c)).
    rewrite slice_app.
    + by apply reference_roundtrip.
    + by rewrite !length_app, !to_le_bytes_length, padded_length by apply Hn.
    + destruct Hr as [<- _]. by rewrite reference_bytes_length.
Qed.

Lemma read_at_eq t i s :
  wf t -> t.(t_slots) !! i = Some s ->
  read_at i (encode t) = (Some (Ok (slot_record (Some (Z.of_nat i)) s)), encode t).
Proof.
  intros Hwf Hi. pose proof (lookup_lt_Some _ _ _ Hi) as Hlt.
  destruct (list_elem_of_split_length _ _ _ Hi) as (pre & post & E & ->).
  unfold read_at. erewrite st_try_Ok by (apply get_offset_eq; [done | lia]).
  erewrite st_try_Ok by (by apply get_reference_type_eq).
  pose proof (valid_middle t pre s post Hwf E) as Hs.
  assert (wrap_u32 (Z.of_nat (length pre)) = Z.of_nat (length pre)) as Hw
    by (unfold wrap_u32; pose proof (wf_few t Hwf); apply Z.mod_small; lia).
  unfold st_try, st_bind. rewrite (tail_from_eq t pre (s :: post)) by done.
  cbn [map concat]. rewrite <- app_assoc, Hw. destruct s as [junk|c tag name r].
  - unfold unpack_record. rewrite (slot_long (t_type t)) by (done || lia). cbn [result_bind].
    destruct (slot_front _ _ (concat (map slot_bytes post) ++ t_slack t) Hs) as [-> ->]. reflexivity.
  - rewrite unpack_used by done. destruct Hs as ((Hc & _) & _). cbn [r_counter].
    unfold st_ok, st_ret. destruct (0 <? c) eqn:Ec; [reflexivity | lia].
Qed.

(** ** Finding *)

Definition is_named (name : list Z) (s : Slot) : bool :=
  used s && bool_decide (slot_name s = name).

(** The first slot that holds the name, and the first free one. *)
Fixpoint index_of (name : list Z) (slots : list Slot) : option nat :=
  match slots with
  | [] => None
  | s :: slots' => if is_named name s then Some 0%nat else S <$> index_of name slots'
  end.

Fixpoint first_free (slots : list Slot) : nat :=
  match slots with [] => 0 | s :: slots' => if used s then S (first_free slots') else 0 end.

Lemma active_cons s slots : active (s :: slots) = (if used s then 1 else 0) + active slots.
Proof.
  unfold active. rewrite filter_cons. destruct (used s); cbn; [|done].
  destruct (decide _); [cbn; lia | done].
Qed.

Lemma active_zero slots name :
  active slots = 0 -> index_of name slots = None /\ first_free slots = 0%nat.
Proof.
  induction slots as [|s slots IH]; [done|]. rewrite active_cons.
  pose proof (active_bounds slots). intros Ha. cbn [index_of first_free]. unfold is_named.
  destruct (used s); [lia|]. cbn [andb]. destruct IH as [-> _]; [lia | done].
Qed.

Lemma slot_counter_used t s : valid_slot t s -> (0 <? slot_counter s) = used s.
Proof. destruct s; cbn; [done|]. intros ((Hc & _) & _). destruct (0 <? counter) eqn:E; lia. Qed.

(** The two loops, from a position on: [active post] records are left. *)
Lemma find_index_loop_eq t pre post checked name :
  wf t -> t.(t_slots) = pre ++ post -> 0 <= checked -> 0 < active post ->
  find_index_loop (length post) (length pre) (offset_of t (length pre)) (rec_size t) checked
    (checked + active post) name (encode t)
  = (Some (Ok (Nat.add (length pre) <$> index_of name post)), encode t).
Proof.
  intros Hwf. revert pre checked. induction post as [|s post IH]; intros pre checked E Hc Ha; [done|].
  cbn [length find_index_loop index_of]. erewrite st_try_Ok by (by eapply counter_and_name_eq).
  cbn [fst snd]. rewrite (slot_counter_used (t_type t)) by (by eapply valid_middle).
  rewrite active_cons in *. unfold is_named.
  assert (forall c, 0 <= c -> 0 < active post ->
    find_index_loop (length post) (S (length pre)) (offset_of t (length pre) + rec_size t) (rec_size t) c
      (c + active post) name (encode t)
    = (Some (Ok (Nat.add (length pre) <$> (S <$> index_of name post))), encode t)) as IH'.
  { intros c Hc' Hp. specialize (IH (pre ++ [s]) c).
    rewrite length_app, Nat.add_1_r in IH. unfold offset_of in *. cbn [Nat.mul] in IH.
    rewrite <- Nat.add_assoc, (Nat.add_comm (length pre * rec_size t)).
    rewrite IH by (rewrite <- ?app_assoc; done). do 3 f_equal.
    destruct (index_of name post); cbn; [f_equal; lia | done]. }
  destruct (used s); cbn [andb].
  - destruct (bool_decide (slot_name s = name)).
    + cbn. by rewrite Nat.add_0_r.
    + destruct (checked + 1 =? checked + (1 + active post)) eqn:Eq.
      * apply Z.eqb_eq in Eq. by destruct (active_zero post name) as [-> _]; [lia|].
      * pose proof (active_bounds post). apply Z.eqb_neq in Eq. rewrite Z.add_assoc.
        apply IH'; lia.
  - rewrite Z.add_0_l in *. by apply IH'.
Qed.

Lemma find_write_loop_eq t pre post checked free name :
  wf t -> t.(t_slots) = pre ++ post -> 0 <= checked -> 0 < active post ->
  find_write_loop (length post) (offset_of t (length pre)) (rec_size t) checked
    (checked + active post) free name (encode t)
  = (Some (Ok (match index_of name post with
               | Some i => offset_of t (length pre + i)
               | None => if (0 <? free)%nat then free else offset_of t (length pre + first_free post)
               end)), encode t).
Proof.
  intros Hwf. revert pre checked free. induction post as [|s post IH]; intros pre checked free E Hc Ha; [done|].
  cbn [length find_write_loop index_of first_free]. erewrite st_try_Ok by (by eapply counter_and_name_eq).
  cbn [fst snd]. rewrite (slot_counter_used (t_type t)) by (by eapply valid_middle).
  rewrite active_cons in *. unfold is_named.
  assert (Hnext : (offset_of t (length pre) + rec_size t)%nat = offset_of t (length (pre ++ [s])))
    by (rewrite length_app; unfold offset_of; cbn [length]; lia).
  assert (Hlen : forall i, (length (pre ++ [s]) + i)%nat = (length pre + S i)%nat)
    by (intros i; rewrite length_app; cbn [length]; lia).
  assert (E' : t_slots t = (pre ++ [s]) ++ post) by (by rewrite <- app_assoc).
  destruct (used s); cbn [andb].
  - destruct (bool_decide (slot_name s = name)).
    + by rewrite Nat.add_0_r.
    + destruct (checked + 1 =? checked + (1 + active post)) eqn:Eq.
      * apply Z.eqb_eq in Eq. destruct (active_zero post name) as [-> ->]; [lia|]. cbn [fmap option_fmap option_map].
        rewrite Hnext, <- Hlen, Nat.add_0_r. by destruct (0 <? free)%nat.
      * pose proof (active_bounds post). apply Z.eqb_neq in Eq. rewrite Z.add_assoc, Hnext.
        rewrite IH by (done || lia). rewrite Hlen.
        destruct (index_of name post); cbn; [by rewrite Hlen | done].
  - rewrite Z.add_0_l in *. rewrite Hnext, IH by done.
    rewrite Nat.add_0_r. destruct (index_of name post); cbn [fmap option_fmap option_map]; [by rewrite Hlen|].
    destruct (free =? 0)%nat eqn:Ef; [|by destruct free].
    apply Nat.eqb_eq in Ef as ->. cbn. unfold offset_of, HEADER_LEN. reflexivity.
Qed.

(** The account is not longer than a [usize] counts. *)
Definition addressable (t : Table) : Prop := Z.of_nat (length (encode t)) < 2 ^ 64.

Lemma find_index_eq t name :
  wf t -> addressable t ->
  find_index name (encode t) = (Some (Ok (index_of name t.(t_slots))), encode t).
Proof.
  intros Hwf Hlen. unfold find_index. erewrite st_try_Ok by (by apply get_active_records_eq).
  destruct (active (t_slots t) =? 0) eqn:Ea.
  - apply Z.eqb_eq in Ea. by destruct (active_zero (t_slots t) name) as [-> _].
  - apply Z.eqb_neq in Ea. pose proof (active_bounds (t_slots t)).
    erewrite st_try_Ok by (by apply get_total_records_eq).
    erewrite st_try_Ok by (by apply get_record_size_eq).
    pose proof (find_index_loop_eq t [] (t_slots t) 0 name Hwf eq_refl) as Hf.
    unfold offset_of in Hf. cbn [length Nat.mul Nat.add] in Hf. rewrite Nat.add_0_r, Z.add_0_l in Hf.
    rewrite Hf by lia. do 3 f_equal. by destruct (index_of name (t_slots t)).
Qed.

Lemma find_write_offset_eq t name :
  wf t -> addressable t ->
  find_write_offset name (encode t) =
  (Some (Ok (offset_of t (default (first_free t.(t_slots)) (index_of name t.(t_slots))))), encode t).
Proof.
  intros Hwf Hlen. unfold find_write_offset. erewrite st_try_Ok by (by apply get_active_records_eq).
  destruct (active (t_slots t) =? 0) eqn:Ea.
  - apply Z.eqb_eq in Ea. destruct (active_zero (t_slots t) name) as [-> ->]; [done|].
    unfold offset_of. cbn. reflexivity.
  - apply Z.eqb_neq in Ea. pose proof (active_bounds (t_slots t)).
    erewrite st_try_Ok by (by apply get_total_records_eq).
    erewrite st_try_Ok by (by apply get_record_size_eq).
    pose proof (find_write_loop_eq t [] (t_slots t) 0 0 name Hwf eq_refl) as Hf.
    unfold offset_of in Hf. cbn [length Nat.mul Nat.add] in Hf. rewrite Nat.add_0_r, Z.add_0_l in Hf.
    rewrite Hf by lia. by destruct (index_of name (t_slots t)).
Qed.

(** ** Writing over the bytes *)

(** The bytes of a slot after a record was packed over it. *)
Lemma pack_over t s r rest :
  valid_slot t s -> slot_name s = r.(r_name) \/ slot_name s = [] ->
  valid_name r.(r_name) -> get_type r.(r_reference) = t ->
  pack_record r (slot_bytes s ++ rest)
  = Ok (slot_bytes (Used r.(r_counter) r.(r_tag) r.(r_name) r.(r_reference)) ++ rest).
Proof.
  intros Hs Hold Hn Ht. unfold pack_record, get_size. rewrite Ht.
  rewrite (slot_long t) by (done || lia). cbn [result_bind]. f_equal.
  assert (slice 4 64 (slot_bytes s ++ rest) = padded (slot_name s)) as ->.
  { destruct s as [junk|c tag name ref]; cbn [slot_bytes slot_name]; [reflexivity|].
    destruct Hs as (_ & _ & Hn' & _). rewrite <- !app_assoc, (app_assoc (to_le_bytes 2 c)).
    rewrite slice_app by (rewrite ?length_app, ?to_le_bytes_length, ?padded_length by apply Hn'; reflexivity).
    reflexivity. }
  rewrite pack_padded by (apply Hn || (destruct Hold; auto)).
  rewrite splice_front; [reflexivity|].
  rewrite (slot_bytes_length t) by done.
  rewrite !length_app, !to_le_bytes_length, padded_length, reference_bytes_length, Ht by apply Hn.
  reflexivity.
Qed.

Lemma modify_at front bytes new rest f :
  f (bytes ++ rest) = Ok (new ++ rest) ->
  modify_from (length front) f (front ++ bytes ++ rest)
  = (Some (Ok tt), front ++ new ++ rest).
Proof.
  intros Hf. unfold modify_from. rewrite length_app.
  destruct (_ <? _)%nat eqn:E; [apply Nat.ltb_lt in E; lia|].
  by rewrite drop_app_length, Hf, take_app_length.
Qed.

Lemma set_record_counter_at front c0 c rest :
  0 < c ->
  set_record_counter (length front) c (front ++ to_le_bytes 2 c0 ++ rest)
  = (Some tt, front ++ to_le_bytes 2 c ++ rest).
Proof.
  intros Hc. unfold set_record_counter. destruct (c =? 0) eqn:E; [lia|].
  rewrite !length_app, to_le_bytes_length.
  destruct (_ <? _)%nat eqn:El; [apply Nat.ltb_lt in El; lia|].
  by rewrite splice_app by (by rewrite ?to_le_bytes_length).
Qed.

(** The next value of a counter of [w] bits, which is never 0. *)
Definition next_counter (w c : Z) : Z := if c <? 2 ^ w - 1 then c + 1 else 1.

Lemma next_counter_bounds w c : 1 < w -> 0 <= c < 2 ^ w -> 0 < next_counter w c < 2 ^ w.
Proof.
  intros Hw Hc. unfold next_counter. destruct (_ <? _) eqn:E; [lia|].
  assert (2 ^ 1 < 2 ^ w) by (apply Z.pow_lt_mono_r; lia). lia.
Qed.

Definition bumped (t : Table) : Table := {|
  t_counter := next_counter 32 t.(t_counter); t_type := t.(t_type); t_name := t.(t_name);
  t_slots := t.(t_slots); t_slack := t.(t_slack) |}.

Lemma bumped_wf t : wf t -> wf (bumped t).
Proof.
  intros [Hc Hn Hs Ho Hf Hl]. split; cbn; try done. apply next_counter_bounds; lia.
Qed.

Lemma bump_storage_counter_eq t :
  wf t -> bump_storage_counter (encode t) = (Some (Ok tt), encode (bumped t)).
Proof.
  intros Hwf. unfold bump_storage_counter. erewrite st_try_Ok by (by apply get_storage_counter_eq).
  assert (forall c, 0 < c -> set_storage_counter c (encode t) = (Some (Ok c),
    encode {| t_counter := c; t_type := t.(t_type); t_name := t.(t_name);
              t_slots := t.(t_slots); t_slack := t.(t_slack) |})) as Hset.
  { intros c Hc. unfold set_storage_counter. destruct (c =? 0) eqn:E; [lia|].
    unfold reads. unfold st_try, st_bind. rewrite long_enough by done.
    reflexivity. }
  unfold bumped, next_counter. destruct (wf_counter t Hwf).
  destruct (t_counter t <? 2 ^ 32 - 1); (erewrite st_try_Ok by (apply Hset; lia)); reflexivity.
Qed.

(** The header with another number of active records. *)
Definition header_with (a : Z) (t : Table) : list Z :=
  to_le_bytes 4 t.(t_counter) ++ to_le_bytes 4 a ++ [type_to_u8 t.(t_type)] ++ padded t.(t_name).

Lemma set_active_records_eq a t :
  wf t -> set_active_records a (encode t)
  = (Some (Ok a), header_with a t ++ concat (map slot_bytes t.(t_slots)) ++ t.(t_slack)).
Proof.
  intros Hwf. unfold set_active_records, reads. unfold st_try, st_bind. rewrite long_enough by done.
  reflexivity.
Qed.

(** ** The operations on the table *)

Definition set_slot (i : nat) (s : Slot) (t : Table) : Table := {|
  t_counter := t.(t_counter); t_type := t.(t_type); t_name := t.(t_name);
  t_slots := <[i := s]> t.(t_slots); t_slack := t.(t_slack) |}.

Definition position (r : Record_) (t : Table) : nat :=
  match r.(r_index) with
  | Some idx => Z.to_nat idx
  | None => default (first_free t.(t_slots)) (index_of r.(r_name) t.(t_slots))
  end.

Definition table_write (r : Record_) (t : Table) : result ProgramError Table :=
  match t.(t_slots) !! position r t with
  | None => Err AccountDataTooSmall
  | Some s =>
      if used s && (0 <? r.(r_counter)) && negb (slot_counter s =? r.(r_counter))
      then Err RefdbRecordCounterMismatch
      else if used s && bool_decide (is_Some r.(r_index)) && negb (bool_decide (r.(r_name) = slot_name s))
      then Err RefdbRecordNameMismatch
      else if negb (bool_decide (t.(t_type) = get_type r.(r_reference))) then Err RefdbRecordTypeMismatch
      else Ok (set_slot (position r t)
                 (Used (next_counter 16 (slot_counter s)) r.(r_tag) r.(r_name) r.(r_reference)) (bumped t))
  end.

Definition table_delete (name : list Z) (index : option Z) (t : Table) : result ProgramError Table :=
  let r := {| r_index := index; r_counter := 0; r_tag := 0; r_name := name; r_reference := RefEmpty |} in
  match t.(t_slots) !! position r t with
  | None => Err AccountDataTooSmall
  | Some (Free _) => Ok t
  | Some (Used _ _ stored reference) =>
      if negb (bool_decide (name = stored)) then Err RefdbRecordNameMismatch
      else Ok (set_slot (position r t) (Free (reference_bytes reference)) (bumped t))
  end.

Definition table_read (name : list Z) (t : Table) : option Record_ :=
  i ← index_of name t.(t_slots);
  s ← t.(t_slots) !! i;
  slot_record (Some (Z.of_nat i)) s.

(** A record the code can be called with. *)
Definition valid_record (r : Record_) : Prop :=
  0 <= r.(r_counter) < 2 ^ 16 /\ 0 <= r.(r_tag) < 2 ^ 16 /\ valid_name r.(r_name) /\
  valid_reference (get_type r.(r_reference)) r.(r_reference) /\
  match r.(r_index) with Some idx => 0 <= idx | None => True end.

Lemma index_of_lookup name slots i :
  index_of name slots = Some i -> exists s, slots !! i = Some s /\ used s = true /\ slot_name s = name.
Proof.
  revert i. induction slots as [|s slots IH]; intros i; [done|]. cbn [index_of].
  destruct (is_named name s) eqn:E.
  - intros [= <-]. unfold is_named in E. apply andb_true_iff in E as [Hu Hn].
    apply bool_decide_eq_true in Hn. by exists s.
  - intros Hi. apply fmap_Some in Hi as (j & Hj & ->). by apply IH.
Qed.

Lemma first_free_lookup slots s : slots !! first_free slots = Some s -> used s = false.
Proof.
  induction slots as [|s0 slots IH]; [done|]. cbn [first_free]. destruct (used s0) eqn:E; [done|].
  by intros [= <-].
Qed.

Lemma first_free_le slots : (first_free slots <= length slots)%nat.
Proof. induction slots as [|s slots IH]; cbn; [lia|]. destruct (used s); lia. Qed.

Lemma record_offset_eq r t :
  wf t -> addressable t -> (position r t <= length t.(t_slots))%nat ->
  record_offset r (encode t) = (Some (Ok (offset_of t (position r t))), encode t).
Proof.
  intros Hwf Hlen. unfold record_offset, position. destruct (r_index r) as [idx|]; intros Hp.
  - by apply get_offset_eq.
  - by apply find_write_offset_eq.
Qed.

Lemma position_none_le r t : r.(r_index) = None -> (position r t <= length t.(t_slots))%nat.
Proof.
  unfold position. intros ->. destruct (index_of _ _) as [i|] eqn:E; cbn; [|apply first_free_le].
  apply index_of_lookup in E as (s & Hs & _). apply lookup_lt_Some in Hs. lia.
Qed.

(** Behind the last slot there is no room for a record. *)
Lemma too_far r t {A} (k : nat -> ST (list Z) (result ProgramError A)) :
  wf t -> addressable t -> t.(t_slots) !! position r t = None ->
  k (offset_of t (length t.(t_slots))) (encode t) = (Some (Err AccountDataTooSmall), encode t) ->
  st_try (record_offset r) k (encode t) = (Some (Err AccountDataTooSmall), encode t).
Proof.
  intros Hwf Hlen Hnone Hk. apply lookup_ge_None in Hnone.
  destruct (decide (position r t = length (t_slots t))) as [Heq|Hne].
  - erewrite st_try_Ok by (apply record_offset_eq; [done..|lia]). by rewrite Heq.
  - destruct (r_index r) as [idx|] eqn:Ei; [|pose proof (position_none_le r t Ei); lia].
    unfold record_offset. rewrite Ei. unfold position in *. rewrite Ei in *.
    unfold get_offset. unfold st_try at 1. unfold st_bind at 1.
    erewrite st_try_Ok by (by apply get_record_size_eq). cbv zeta.
    unfold st_try, st_bind, reads, check_data_len. rewrite encode_length by done.
    pose proof (wf_slack t Hwf). destruct (_ <? _)%nat eqn:E; [reflexivity|].
    apply Nat.ltb_ge in E. nia.
Qed.

Lemma counter_and_name_end t :
  wf t -> (length t.(t_slack) < NO_REF_LEN)%nat ->
  get_record_counter_and_name (offset_of t (length t.(t_slots))) (encode t)
  = (Some (Err AccountDataTooSmall), encode t).
Proof.
  intros Hwf Hs. unfold get_record_counter_and_name.
  rewrite (tail_from_eq t (t_slots t) []) by (done || by rewrite app_nil_r).
  cbn [map concat app]. unfold unpack_counter_and_name, check_data_len.
  destruct (_ <? _)%nat eqn:E; [done|]. apply Nat.ltb_ge in E. lia.
Qed.

(** Packing a record over the slot behind [pre], and setting its counter. *)
Lemma pack_at t r c hd pre s post slack :
  valid_slot t s -> slot_name s = r.(r_name) \/ slot_name s = [] ->
  valid_name r.(r_name) -> get_type r.(r_reference) = t -> 0 < c ->
  let front := hd ++ concat (map slot_bytes pre) in
  st_bind (modify_from (length front) (pack_record r)) (fun res =>
    set_record_counter (length front) c ;;;
    match res with Ok _ => st_ok (get_size r) | Err e => st_bail e end)
    (hd ++ concat (map slot_bytes (pre ++ s :: post)) ++ slack)
  = (Some (Ok (get_size r)),
     hd ++ concat (map slot_bytes (pre ++ Used c r.(r_tag) r.(r_name) r.(r_reference) :: post)) ++ slack).
Proof.
  intros Hs Hold Hn Ht Hc front.
  assert (forall x, hd ++ concat (map slot_bytes (pre ++ x :: post)) ++ slack
    = front ++ slot_bytes x ++ concat (map slot_bytes post) ++ slack) as Hsplit
    by (intros x; unfold front; rewrite map_app, concat_app; cbn [map concat]; by rewrite <- !app_assoc).
  rewrite !Hsplit.
  erewrite st_bind_Some by (apply modify_at, (pack_over t); done). cbn [slot_bytes].
  rewrite <- app_assoc. erewrite st_bind_Some by (by apply set_record_counter_at).
  unfold st_ok, st_ret. by rewrite <- !app_assoc.
Qed.

Lemma active_middle pre s s' post :
  active (pre ++ s' :: post)
  = active (pre ++ s :: post) + (if used s' then 1 else 0) - (if used s then 1 else 0).
Proof.
  induction pre as [|x pre IH]; cbn [app]; rewrite !active_cons; [lia|]. rewrite IH. lia.
Qed.

Lemma encode_slots t pre s post :
  t.(t_slots) = pre ++ s :: post ->
  encode t = header_with (active t.(t_slots)) t ++ concat (map slot_bytes (pre ++ s :: post)) ++ t.(t_slack).
Proof. intros E. unfold encode. by rewrite E at 1. Qed.

Lemma set_slot_slots t pre s s' post :
  t.(t_slots) = pre ++ s :: post -> (set_slot (length pre) s' t).(t_slots) = pre ++ s' :: post.
Proof. intros E. cbn. rewrite E. by rewrite insert_app_r_alt, Nat.sub_diag by lia. Qed.

Lemma set_slot_wf t pre s s' post :
  wf t -> t.(t_slots) = pre ++ s :: post -> valid_slot t.(t_type) s' -> wf (set_slot (length pre) s' t).
Proof.
  intros [Hc Hn Hs Ho Hf Hl] E Hs'. split; try done; rewrite ?(set_slot_slots t pre s s' post E).
  - rewrite E in Hs. apply Forall_app in Hs as [Hpre Hpost]. apply Forall_cons in Hpost as [_ Hpost].
    apply Forall_app. split; [done | by constructor].
  - rewrite length_app. cbn. lia.
  - rewrite E, length_app in Hf. rewrite length_app. exact Hf.
Qed.

Lemma header_with_front t a pre post :
  wf t -> t.(t_slots) = pre ++ post ->
  length (header_with a t ++ concat (map slot_bytes pre)) = offset_of t (length pre).
Proof.
  intros Hwf E. pose proof (wf_slots t Hwf) as Hs. rewrite E in Hs. apply Forall_app in Hs as [Hs _].
  rewrite length_app, (slots_length _ _ Hs). unfold header_with.
  rewrite !length_app, !to_le_bytes_length, padded_length by apply (wf_name t Hwf). reflexivity.
Qed.

(** The slot a record may be written to is free or holds its name. *)
Lemma written_slot_name r t s :
  t.(t_slots) !! position r t = Some s ->
  used s && bool_decide (is_Some r.(r_index)) && negb (bool_decide (r.(r_name) = slot_name s)) = false ->
  slot_name s = r.(r_name) \/ slot_name s = [].
Proof.
  intros Es En. destruct s as [junk|c tag name ref]; [by right|]. left. cbn [used andb slot_name] in *.
  unfold position in *. destruct (r_index r) as [idx|] eqn:Ei.
  - rewrite bool_decide_true in En by (by eexists). cbn in En.
    apply negb_false_iff, bool_decide_eq_true in En. done.
  - destruct (index_of (r_name r) (t_slots t)) as [j|] eqn:Ej; cbn [default] in *.
    + apply index_of_lookup in Ej as (s & Hj & _ & <-). cbn in *. by rewrite Es in Hj; injection Hj as <-.
    + by apply first_free_lookup in Es.
Qed.

Lemma active_lt_free pre s post :
  used s = false -> active (pre ++ s :: post) < Z.of_nat (length (pre ++ s :: post)).
Proof.
  intros Hu. induction pre as [|x pre IH]; cbn [app length]; rewrite active_cons.
  - rewrite Hu. pose proof (active_bounds post). lia.
  - destruct (used x); lia.
Qed.

(** [write] on the bytes is [table_write] on the table. *)
Lemma write_eq r t :
  wf t -> addressable t -> (length t.(t_slack) < NO_REF_LEN)%nat -> valid_record r ->
  match table_write r t with
  | Ok t' => write r (encode t) = (Some (Ok (get_size r)), encode t') /\ wf t'
  | Err e => write r (encode t) = (Some (Err e), encode t)
  end.
Proof.
  intros Hwf Hlen Hroom (Hrc & Htag & Hname & Href & _). unfold table_write.
  destruct (t_slots t !! position r t) as [s|] eqn:Es.
  2: { unfold write. apply too_far; [done..|]. unfold st_try, st_bind. by rewrite counter_and_name_end. }
  pose proof (lookup_lt_Some _ _ _ Es) as Hlt.
  destruct (list_elem_of_split_length _ _ _ Es) as (pre & post & E & Hpos).
  pose proof (valid_middle t pre s post Hwf E) as Hs.
  unfold write. erewrite st_try_Ok by (apply record_offset_eq; [done..|lia]).
  rewrite Hpos. erewrite st_try_Ok by (by eapply counter_and_name_eq). cbv beta iota.
  rewrite (slot_counter_used _ _ Hs).
  destruct (used s && (0 <? r_counter r) && negb (slot_counter s =? r_counter r)); [done|].
  destruct (used s && bool_decide (is_Some (r_index r)) && negb (bool_decide (r_name r = slot_name s))) eqn:En; [done|].
  erewrite st_try_Ok by (by apply get_reference_type_eq).
  destruct (bool_decide (t_type t = get_type (r_reference r))) eqn:Et; cbn [negb]; [|done].
  apply bool_decide_eq_true in Et.
  erewrite st_try_Ok by (by apply bump_storage_counter_eq).
  set (t1 := bumped t). assert (wf t1) as Hwf1 by (by apply bumped_wf).
  assert (E1 : t_slots t1 = pre ++ s :: post) by exact E.
  set (c := next_counter 16 (slot_counter s)).
  assert (0 <= slot_counter s < 2 ^ 16) as Hcs by (destruct s; cbn in *; lia).
  assert (0 < c < 2 ^ 16) as Hc by (by apply next_counter_bounds).
  pose proof (written_slot_name r t s Es En) as Hold.
  set (new := Used c (r_tag r) (r_name r) (r_reference r)).
  assert (forall a, 0 <= a -> st_bind (modify_from (offset_of t (length pre)) (pack_record r)) (fun res =>
      set_record_counter (offset_of t (length pre)) c ;;;
      match res with Ok _ => st_ok (get_size r) | Err e => st_bail e end)
      (header_with a t1 ++ concat (map slot_bytes (t_slots t1)) ++ t_slack t1)
    = (Some (Ok (get_size r)), header_with a t1 ++ concat (map slot_bytes (pre ++ new :: post)) ++ t_slack t1))
    as Hpack.
  { intros a _. rewrite E1. change (offset_of t (length pre)) with (offset_of t1 (length pre)).
    rewrite <- (header_with_front t1 a pre (s :: post) Hwf1 E1).
    apply (pack_at (t_type t)); try done; lia. }
  rewrite (encode_slots (set_slot (length pre) new t1) pre new post (set_slot_slots t1 pre s new post E1)).
  split; [|apply (set_slot_wf t1 pre s _ post); [done..|]; split; [done|]; split; [done|];
    split; [done|]; unfold t1; cbn [t_type bumped]; rewrite Et; exact Href].
  rewrite (set_slot_slots t1 pre s new post E1), (active_middle pre s new post).
  destruct (slot_counter s =? 0) eqn:E0.
  - assert (used s = false) as Hu by (rewrite <- (slot_counter_used _ _ Hs); lia). rewrite Hu. cbn [used new].
    pose proof (active_bounds (t_slots t)) as Hb. pose proof (wf_few t Hwf).
    erewrite st_try_Ok.
    2: { erewrite st_try_Ok by (by apply get_active_records_eq).
         change (t_slots t1) with (t_slots t).
         pose proof (active_lt_free pre s post Hu). rewrite <- E in *.
         destruct (_ <? _) eqn:El; [|lia].
         erewrite st_try_Ok by (by apply set_active_records_eq). reflexivity. }
    rewrite Hpack by lia. rewrite E, Z.sub_0_r. reflexivity.
  - assert (used s = true) as Hu by (rewrite <- (slot_counter_used _ _ Hs); lia). rewrite Hu. cbn [used new].
    erewrite st_try_Ok by reflexivity.
    rewrite (encode_slots t1 pre s post E1), <- E1, Hpack by apply active_bounds.
    rewrite E1. replace (active (pre ++ s :: post) + 1 - 1) with (active (pre ++ s :: post)) by lia.
    reflexivity.
Qed.

(** ** Deleting *)

(** Clearing the first 68 bytes of a slot frees it. *)
Lemma set_slot_cleared t pre c tag name ref post :
  wf t -> t.(t_slots) = pre ++ Used c tag name ref :: post ->
  let t' := set_slot (length pre) (Free (reference_bytes ref)) t in
  splice (offset_of t (length pre)) (replicate NO_REF_LEN 0)
    (header_with (active t'.(t_slots)) t ++ concat (map slot_bytes (pre ++ Used c tag name ref :: post))
     ++ t.(t_slack)) = encode t' /\ wf t'.
Proof.
  intros Hwf E t'. pose proof (valid_middle t pre _ post Hwf E) as (_ & _ & Hn & Hr).
  split.
  - rewrite (encode_slots t' pre (Free (reference_bytes ref)) post) by (by eapply set_slot_slots).
    rewrite <- (header_with_front t (active t'.(t_slots)) pre _ Hwf E).
    rewrite !map_app, !concat_app. cbn [map concat slot_bytes]. rewrite <- !app_assoc.
    rewrite (app_assoc (header_with _ t)).
    rewrite (app_assoc (to_le_bytes 2 tag)), (app_assoc (to_le_bytes 2 c)).
    rewrite splice_app; [by rewrite <- app_assoc | done |].
    by rewrite length_replicate, !length_app, !to_le_bytes_length, padded_length by apply Hn.
  - eapply set_slot_wf; [done..|]. cbn. destruct Hr as [<- _]. apply reference_bytes_length.
Qed.

Lemma delete_eq name index t :
  wf t -> addressable t -> (length t.(t_slack) < NO_REF_LEN)%nat ->
  match index with Some idx => 0 <= idx | None => True end ->
  match table_delete name index t with
  | Ok t' => exists n, delete_with_name name index (encode t) = (Some (Ok n), encode t') /\ wf t'
  | Err e => delete_with_name name index (encode t) = (Some (Err e), encode t)
  end.
Proof.
  intros Hwf Hlen Hroom _. unfold table_delete, delete_with_name.
  set (r := {| r_index := index; r_counter := 0; r_tag := 0; r_name := name; r_reference := RefEmpty |}).
  unfold delete. destruct (t_slots t !! position r t) as [s|] eqn:Es.
  2: { apply too_far; [done..|]. cbv zeta. unfold st_try at 1. unfold st_bind at 1, reads, check_data_len.
       rewrite encode_length by done. change (get_size r) with 68%nat. unfold offset_of, NO_REF_LEN in *.
       destruct (_ <? _)%nat eqn:E; [done|]. apply Nat.ltb_ge in E. lia. }
  pose proof (lookup_lt_Some _ _ _ Es) as Hlt.
  destruct (list_elem_of_split_length _ _ _ Es) as (pre & post & E & Hpos).
  pose proof (valid_middle t pre s post Hwf E) as Hs.
  erewrite st_try_Ok by (apply record_offset_eq; [done..|lia]). rewrite Hpos. cbv zeta.
  assert (reads (fun data => check_data_len data (offset_of t (length pre) + get_size r)) (encode t)
    = (Some (Ok tt), encode t)) as Hend.
  { unfold reads, check_data_len. rewrite encode_length, E, length_app by done. cbn [length].
    change (get_size r) with NO_REF_LEN. unfold offset_of, rec_size.
    destruct (_ <? _)%nat eqn:El; [apply Nat.ltb_lt in El; nia | done]. }
  erewrite st_try_Ok by exact Hend. erewrite st_try_Ok by (by eapply counter_and_name_eq). cbv beta iota.
  destruct s as [junk|c tag stored ref]; [by exists 0%nat|].
  assert (0 < c) as Hc by (destruct Hs; lia). cbn [slot_counter slot_name].
  destruct (c =? 0) eqn:E0; [lia|]. change (0 <? r_counter r) with false. cbn [andb].
  change (r_name r) with name. destruct (negb (bool_decide (name = stored))) eqn:En; [done|].
  erewrite st_try_Ok by (by apply bump_storage_counter_eq).
  set (t1 := bumped t). assert (wf t1) as Hwf1 by (by apply bumped_wf).
  assert (E1 : t_slots t1 = pre ++ Used c tag stored ref :: post) by exact E.
  erewrite st_try_Ok by (by apply get_active_records_eq). rewrite E1.
  assert (active (pre ++ Used c tag stored ref :: post) - 1
    = active (pre ++ Free (reference_bytes ref) :: post)) as Ha
    by (rewrite (active_middle pre (Used c tag stored ref) (Free (reference_bytes ref)) post); cbn; lia).
  pose proof (active_bounds (pre ++ Free (reference_bytes ref) :: post)).
  destruct (0 <? active (pre ++ Used c tag stored ref :: post)) eqn:Ep; [|lia].
  erewrite st_try_Ok by (by apply set_active_records_eq).
  destruct (set_slot_cleared t1 pre c tag stored ref post Hwf1 E1) as [Hclear Hwf2].
  exists (get_size r). split; [|exact Hwf2]. rewrite Ha, E1.
  change (offset_of t (length pre)) with (offset_of t1 (length pre)).
  unfold st_bind, st_modify, st_ok, st_ret. f_equal. rewrite (set_slot_slots t1 pre _ (Free (reference_bytes ref)) post E1) in Hclear. exact Hclear.
Qed.
End Facts.
