(* ===== verification/RefDBSpec.v ===== *)
(** * What the reference database promises

    Reading, writing and deleting on the bytes of an account, through the table
    the bytes stand for: a record written is the record read, other names keep
    theirs, and a fresh account is an empty table. *)

From S2P Require Import Prelude MachineInt Pack RefDB RefDBFacts.

Section Spec.
Context `{Profile} `{Utf8}.

(** The sizes the operations are proved for: the account's length is a [usize], and fewer
    bytes are left behind the last slot than the 68 of a record without its reference.
    Fewer bytes than a record are left behind in any case ([wf]); with 68 or more of them
    [write] and [delete] take the rest for one more slot ([write_past_last_slot]). *)
Definition fits (t : Table) : Prop :=
  wf t /\ addressable t /\ (length t.(t_slack) < NO_REF_LEN)%nat.

Definition same_shape (t t' : Table) : Prop :=
  t'.(t_type) = t.(t_type) /\ length t'.(t_slots) = length t.(t_slots) /\ t'.(t_slack) = t.(t_slack).

Lemma fits_same_shape t t' : fits t -> wf t' -> same_shape t t' -> fits t'.
Proof.
  intros (Hwf & Ha & Hs) Hwf' (Et & Es & Ek). split; [done|]. split; [|by rewrite Ek].
  unfold addressable in *. rewrite encode_length in * by done. unfold rec_size in *.
  by rewrite Et, Es, Ek.
Qed.

Lemma set_slot_shape i s t : same_shape t (set_slot i s (bumped t)).
Proof. split; [done|]. split; [|done]. cbn. apply length_insert. Qed.


Lemma table_delete_shape name index t t' : table_delete name index t = Ok t' -> same_shape t t'.
Proof.
  unfold table_delete. intros Ht. repeat destr_in Ht; try discriminate; injection Ht as <-.
  - done.
  - apply set_slot_shape.
Qed.

(** ** Reading *)

Lemma read_eq t name :
  fits t -> read name (encode t) = (Some (Ok (table_read name t)), encode t).
Proof.
  intros (Hwf & Ha & _). unfold read, table_read. erewrite st_try_Ok by (by apply find_index_eq).
  destruct (index_of name (t_slots t)) as [i|] eqn:Ei; [|reflexivity].
  apply index_of_lookup in Ei as (s & Hs & _). rewrite (read_at_eq t i s) by done.
  cbn [mbind option_bind]. by rewrite Hs.
Qed.

(** ** The map an account stands for *)

Abbreviation Entry := (list Z * (Z * Reference))%type (only parsing).

Definition entry (s : Slot) : option Entry :=
  match s with Free _ => None | Used _ tag name r => Some (name, (tag, r)) end.

Definition entries (slots : list Slot) : list Entry := omap entry slots.

Definition record_entry (r : Record_) : Z * Reference := (r.(r_tag), r.(r_reference)).

(** An account of [cap] slots for references of type [ty] holds the map [m]. *)
Definition represents (ty : ReferenceType) (cap : nat) (data : list Z)
    (m : gmap (list Z) (Z * Reference)) : Prop :=
  exists t, data = encode t /\ fits t /\ t.(t_type) = ty /\ length t.(t_slots) = cap /\
    NoDup (entries t.(t_slots)).*1 /\ m = list_to_map (entries t.(t_slots)).

Lemma entries_middle pre s post :
  entries (pre ++ s :: post) ≡ₚ option_list (entry s) ++ entries pre ++ entries post.
Proof.
  unfold entries. rewrite omap_app. cbn [omap list_omap]. destruct (entry s); cbn [option_list app].
  - by rewrite <- Permutation_middle.
  - done.
Qed.

Lemma entries_length slots : Z.of_nat (length (entries slots)) = active slots.
Proof.
  induction slots as [|s slots IH]; [done|]. rewrite active_cons, <- IH.
  unfold entries. cbn [omap list_omap]. destruct s; cbn [entry used length]; lia.
Qed.

Lemma index_of_None name slots : index_of name slots = None <-> name ∉ (entries slots).*1.
Proof.
  induction slots as [|s slots IH]; cbn; [set_solver|]. unfold is_named.
  destruct s as [junk|c tag n r]; cbn [used andb slot_name entry].
  - rewrite fmap_None. apply IH.
  - case_bool_decide as Hn; [subst; set_solver|]. rewrite fmap_None, IH. cbn. set_solver.
Qed.

(** The entry of the slot found under a name. *)
Lemma index_of_entry name slots i :
  index_of name slots = Some i ->
  exists pre c tag r post, slots = pre ++ Used c tag name r :: post /\ i = length pre.
Proof.
  intros Hi. apply index_of_lookup in Hi as (s & Hs & Hu & Hn).
  destruct (list_elem_of_split_length _ _ _ Hs) as (pre & post & -> & ->).
  destruct s as [|c tag n r]; [done|]. cbn in Hn. subst n. by exists pre, c, tag, r, post.
Qed.

Lemma list_to_map_middle pre c tag name r post :
  NoDup (entries (pre ++ Used c tag name r :: post)).*1 ->
  NoDup (entries pre ++ entries post).*1 /\ (name ∉ (entries pre ++ entries post).*1) /\
  (list_to_map (entries (pre ++ Used c tag name r :: post)) : gmap (list Z) (Z * Reference))
  = <[name := (tag, r)]> (list_to_map (entries pre ++ entries post)).
Proof.
  intros Hnd. pose proof (entries_middle pre (Used c tag name r) post) as Hp. cbn in Hp.
  rewrite (list_to_map_proper _ _ Hnd Hp). rewrite Hp in Hnd. cbn in Hnd.
  apply NoDup_cons in Hnd as [Hnot Hnd]. done.
Qed.


Lemma table_read_lookup name t :
  NoDup (entries t.(t_slots)).*1 ->
  record_entry <$> table_read name t
  = (list_to_map (entries t.(t_slots)) : gmap (list Z) (Z * Reference)) !! name.
Proof.
  intros Hnd. unfold table_read. destruct (index_of name (t_slots t)) as [i|] eqn:Ei.
  - apply index_of_entry in Ei as (pre & c & tag & r & post & E & ->).
    rewrite E in *. destruct (list_to_map_middle _ _ _ _ _ _ Hnd) as (_ & _ & ->).
    rewrite lookup_insert_eq. cbn [mbind option_bind].
    by rewrite lookup_app_r, Nat.sub_diag by lia.
  - apply index_of_None in Ei. cbn. symmetry. by apply not_elem_of_list_to_map_1.
Qed.

Lemma active_full slots :
  (length slots <= first_free slots)%nat -> active slots = Z.of_nat (length slots).
Proof.
  induction slots as [|s slots IH]; [done|]. cbn [first_free length]. rewrite active_cons.
  destruct (used s); [|lia]. intros Hl. rewrite IH by lia. lia.
Qed.

(** ** The operations on the map *)


Lemma no_position name slots :
  (length slots <= default (first_free slots) (index_of name slots))%nat ->
  index_of name slots = None /\ (length slots <= first_free slots)%nat.
Proof.
  destruct (index_of name slots) as [i|] eqn:Ei; [|done].
  apply index_of_lookup in Ei as (s & Hs & _). apply lookup_lt_Some in Hs.
  change (default (first_free slots) (Some i)) with i. lia.
Qed.


Lemma free_slot_entries t i c tag name r junk :
  NoDup (entries t.(t_slots)).*1 -> t.(t_slots) !! i = Some (Used c tag name r) ->
  NoDup (entries (set_slot i (Free junk) (bumped t)).(t_slots)).*1 /\
  (list_to_map (entries (set_slot i (Free junk) (bumped t)).(t_slots)) : gmap (list Z) (Z * Reference))
  = base.delete name (list_to_map (entries t.(t_slots))).
Proof.
  intros Hnd Hi. destruct (list_elem_of_split_length _ _ _ Hi) as (pre & post & E & ->).
  assert (t_slots (bumped t) = pre ++ Used c tag name r :: post) as Eb by exact E.
  erewrite set_slot_slots by exact Eb. rewrite E in *.
  destruct (list_to_map_middle _ _ _ _ _ _ Hnd) as (Hnd' & Hnot & ->).
  assert (entries (pre ++ Free junk :: post) = entries pre ++ entries post) as ->
    by (unfold entries; by rewrite omap_app).
  split; [done|]. rewrite delete_insert_id; [done|]. by apply not_elem_of_list_to_map_1.
Qed.

Lemma table_delete_entries name t t' :
  NoDup (entries t.(t_slots)).*1 -> table_delete name None t = Ok t' ->
  NoDup (entries t'.(t_slots)).*1 /\
  (list_to_map (entries t'.(t_slots)) : gmap (list Z) (Z * Reference))
  = base.delete name (list_to_map (entries t.(t_slots))).
Proof.
  intros Hnd Hd. unfold table_delete, position in Hd. cbn [r_index r_name] in Hd.
  destruct (t_slots t !! _) as [s|] eqn:Es; [|done].
  destruct (index_of name (t_slots t)) as [i|] eqn:Ei; cbn [default] in *.
  - apply index_of_lookup in Ei as (s' & Hs' & Hu & Hn). change (id i) with i in *. rewrite Es in Hs'.
    injection Hs' as <-. destruct s as [|c tag stored r]; [done|]. cbn in Hn. subst stored.
    rewrite bool_decide_true in Hd by done. injection Hd as <-. by eapply free_slot_entries.
  - apply first_free_lookup in Es. destruct s; [|done]. injection Hd as <-. split; [done|].
    rewrite delete_id; [done|]. apply not_elem_of_list_to_map_1. by apply index_of_None.
Qed.

(** [read] looks a name up in the map the account stands for and leaves the
    account as it is. *)
Theorem read_refines_lookup ty cap data m name :
  represents ty cap data m ->
  exists found, read name data = (Some (Ok found), data) /\ record_entry <$> found = m !! name.
Proof.
  intros (t & -> & Hf & _ & _ & Hnd & ->). exists (table_read name t).
  split; [by apply read_eq | by apply table_read_lookup].
Qed.



(** Deleting from a table that a representing account stands for. *)
Lemma delete_represents ty cap m name index t t' :
  fits t -> t.(t_type) = ty -> length t.(t_slots) = cap ->
  match index with Some idx => 0 <= idx | None => True end ->
  table_delete name index t = Ok t' ->
  NoDup (entries t'.(t_slots)).*1 -> list_to_map (entries t'.(t_slots)) = m ->
  exists n data', delete_with_name name index (encode t) = (Some (Ok n), data') /\ represents ty cap data' m.
Proof.
  intros Hf Ety Ecap Hidx Et Hnd Hm. pose proof Hf as (Hwf & Ha & Hs).
  pose proof (delete_eq name index t Hwf Ha Hs Hidx) as Hd. rewrite Et in Hd.
  destruct Hd as (n & Hd & Hwf'). pose proof (table_delete_shape _ _ _ _ Et) as Hsh.
  exists n, (encode t'). split; [exact Hd|]. exists t'. split; [done|].
  split; [by eapply fits_same_shape|]. destruct Hsh as (-> & -> & _). done.
Qed.

(** C27. On an account with fewer than 68 bytes behind its last slot, [delete_with_name]
    never panics.  Without an index it removes the name from the map the account stands
    for; it only fails, and leaves the account as it was, when the name is not there and no
    slot is free.  With an index it looks at that slot alone, wherever the name is stored:
    it removes the name when it is the slot's, succeeds without a change when the slot is
    free, and otherwise fails and leaves the account as it was. *)
Theorem delete_refines_delete ty cap data m name index :
  represents ty cap data m -> match index with Some idx => 0 <= idx | None => True end ->
  match index with
  | None =>
      match delete_with_name name None data with
      | (Some (Ok _), data') => represents ty cap data' (base.delete name m)
      | (Some (Err e), data') => data' = data /\ m !! name = None /\ size m = cap
      | (None, _) => False
      end
  | Some idx =>
      if (cap <=? Z.to_nat idx)%nat
      then delete_with_name name index data = (Some (Err AccountDataTooSmall), data)
      else exists found, read_at (Z.to_nat idx) data = (Some (Ok found), data) /\
        match found with
        | None => exists n, delete_with_name name index data = (Some (Ok n), data)
        | Some r =>
            if bool_decide (r.(r_name) = name)
            then exists n data', delete_with_name name index data = (Some (Ok n), data')
                   /\ represents ty cap data' (base.delete name m)
            else delete_with_name name index data = (Some (Err RefdbRecordNameMismatch), data)
        end
  end.
Proof.
  intros (t & -> & Hf & Ety & Ecap & Hnd & ->) Hidx. pose proof Hf as (Hwf & Ha & Hs). destruct index as [idx|].
  - pose proof (delete_eq name (Some idx) t Hwf Ha Hs Hidx) as Hd.
    destruct (Nat.leb_spec cap (Z.to_nat idx)) as [Hle|Hlt].
    + assert (table_delete name (Some idx) t = Err AccountDataTooSmall) as Et
        by (unfold table_delete, position; cbn; by rewrite lookup_ge_None_2 by lia).
      by rewrite Et in Hd.
    + destruct (lookup_lt_is_Some_2 t.(t_slots) (Z.to_nat idx)) as [s Hi]; [lia|].
      eexists. split; [by apply read_at_eq|]. destruct s as [junk|c tag stored r]; cbn [slot_record].
      * assert (table_delete name (Some idx) t = Ok t) as Et
          by (unfold table_delete, position; cbn; by rewrite Hi).
        rewrite Et in Hd. destruct Hd as (n & Hd & _). by exists n.
      * cbn [r_name]. destruct (bool_decide (stored = name)) eqn:Eb.
        -- apply bool_decide_eq_true in Eb as ->.
           destruct (free_slot_entries t _ c tag name r (reference_bytes r) Hnd Hi) as [Hnd' Hm].
           eapply delete_represents; [done..| | exact Hnd' | exact Hm].
           unfold table_delete, position; cbn. rewrite Hi. by rewrite bool_decide_true by done.
        -- apply bool_decide_eq_false in Eb.
           assert (table_delete name (Some idx) t = Err RefdbRecordNameMismatch) as Et
             by (unfold table_delete, position; cbn; rewrite Hi; by rewrite bool_decide_false by congruence).
           by rewrite Et in Hd.
  - pose proof (delete_eq name None t Hwf Ha Hs I) as Hd. destruct (table_delete name None t) as [t'|e] eqn:Et.
    + destruct (table_delete_entries _ _ _ Hnd Et) as [Hnd' Hm].
      destruct (delete_represents ty cap _ name None t t' Hf Ety Ecap I Et Hnd' Hm) as (n & data' & -> & Hrep).
      exact Hrep.
    + rewrite Hd. split; [done|]. unfold table_delete, position in Et. cbn [r_index r_name] in Et.
      destruct (t_slots t !! _) as [s|] eqn:Es.
      * exfalso. destruct s as [|c tag n r]; [done|].
        destruct (index_of name (t_slots t)) as [i|] eqn:Ei; cbn [default] in Es; [|by apply first_free_lookup in Es].
        apply index_of_lookup in Ei as (s & Hls & _ & Hn). change (id i) with i in Es. rewrite Es in Hls.
        injection Hls as <-. cbn in Hn. subst n. by rewrite bool_decide_true in Et.
      * apply lookup_ge_None in Es. destruct (no_position _ _ Es) as [Ei Hfull].
        split; [by apply not_elem_of_list_to_map_1, index_of_None|].
        rewrite map_size_list_to_map by done. rewrite <- Ecap. apply Nat2Z.inj.
        rewrite entries_length. pose proof (active_full (t_slots t) Hfull). lia.
Qed.

(** ** A fresh account *)

(** The header is read back as it was written. *)
Lemma unpack_encoded t :
  wf t -> unpack_header (encode t)
  = Ok {| h_counter := t.(t_counter); h_active_records := active t.(t_slots);
          h_reference_type := t.(t_type); h_name := t.(t_name) |}.
Proof.
  intros Hwf. unfold unpack_header. rewrite long_enough by done. cbn [result_bind].
  rewrite type_field, counter_field, active_field by done. cbn [result_bind].
  unfold encode, header_bytes. rewrite <- !app_assoc.
  rewrite (app_assoc (to_le_bytes 4 (t_counter t))), (app_assoc (_ ++ to_le_bytes 4 _) [_]).
  rewrite slice_app; [by rewrite unpack_padded by apply (wf_name t Hwf)|..].
  - by rewrite !length_app, !to_le_bytes_length.
  - by rewrite padded_length by apply (wf_name t Hwf).
Qed.

Lemma slice_replicate offset len n :
  (offset + len <= n)%nat -> slice offset len (replicate n 0) = replicate len 0.
Proof. intros Hn. unfold slice. rewrite drop_replicate, take_replicate. f_equal. lia. Qed.

Lemma zeros_not_initialized n : is_initialized (replicate n 0) = false.
Proof.
  unfold is_initialized, unpack_header, check_data_len. rewrite length_replicate.
  destruct (_ <? _)%nat eqn:E; [done|]. apply Nat.ltb_ge in E. unfold HEADER_LEN in *. cbn [result_bind].
  assert (nth 8 (replicate n 0) 0 = 0) as ->
    by (replace n with (9 + (n - 9))%nat by lia; reflexivity).
  rewrite !slice_replicate by lia. cbn -[replicate unpack_array_string64].
  destruct (unpack_array_string64 (replicate 64 0)) as [name|e]; reflexivity.
Qed.

Lemma free_slots_bytes cap len :
  concat (map slot_bytes (replicate cap (Free (replicate len 0)))) = replicate (cap * (68 + len)) 0.
Proof.
  induction cap as [|cap IH]; [done|].
  change (replicate (S cap) ?s) with (s :: replicate cap s). rewrite map_cons, concat_cons, IH.
  unfold slot_bytes. by rewrite <- !replicate_add.
Qed.

Definition fresh_table (name : list Z) (ty : ReferenceType) (cap slack : nat) : Table := {|
  t_counter := 1; t_type := ty; t_name := name;
  t_slots := replicate cap (Free (replicate (ref_size ty) 0)); t_slack := replicate slack 0 |}.

Lemma fresh_wf name ty cap slack :
  valid_name name -> (0 < cap)%nat -> Z.of_nat cap < 2 ^ 32 -> (slack < NO_REF_LEN + ref_size ty)%nat ->
  wf (fresh_table name ty cap slack).
Proof.
  intros Hn Hc Hm Hs. split; cbn [fresh_table t_counter t_type t_name t_slots t_slack];
    rewrite ?length_replicate; try done.
  apply Forall_replicate. cbn. apply length_replicate.
Qed.

Lemma fresh_entries ty cap : entries (replicate cap (Free (replicate (ref_size ty) 0))) = [].
Proof. induction cap as [|cap IH]; [done|]. exact IH. Qed.

(** [init] on an account of zeros, of a header, [cap] records and fewer bytes
    than a record more, makes it the empty map of capacity [cap]; on the account
    it returns, a second [init] is refused. *)
Theorem init_makes_empty_map name ty cap slack :
  valid_name name -> (0 < cap)%nat -> Z.of_nat cap < 2 ^ 32 -> (slack < NO_REF_LEN)%nat ->
  let size := (HEADER_LEN + cap * (NO_REF_LEN + ref_size ty) + slack)%nat in
  Z.of_nat size < 2 ^ 64 ->
  exists data, init name ty (replicate size 0) = (Some (Ok tt), data) /\
    represents ty cap data ∅ /\
    (forall name' ty', init name' ty' data = (Some (Err AccountAlreadyInitialized), data)).
Proof.
  intros Hn Hc Hm Hs size Hsize.
  set (t := fresh_table name ty cap slack).
  assert (wf t) as Hwf by (apply fresh_wf; (done || lia)).
  assert (length (encode t) = size) as Hlen.
  { rewrite encode_length by done. unfold t, fresh_table, rec_size, size. cbn. by rewrite !length_replicate. }
  exists (encode t). split; [|split].
  - unfold init. rewrite zeros_not_initialized. unfold check_data_len. rewrite length_replicate.
    destruct (size <? _)%nat eqn:E; [apply Nat.ltb_lt in E; unfold size in E; nia|]. cbn [result_bind].
    unfold pack_header, check_data_len. rewrite length_replicate. cbn [result_bind].
    destruct (size <? HEADER_LEN)%nat eqn:E'; [apply Nat.ltb_lt in E'; unfold size in E'; lia|].
    cbn [result_bind h_counter h_active_records h_reference_type h_name]. do 2 f_equal.
    assert (slice 9 64 (replicate size 0) = padded []) as ->
      by (rewrite slice_replicate by (unfold size, HEADER_LEN; lia); reflexivity).
    rewrite pack_padded by (apply Hn || by right).
    assert (replicate size 0 = replicate HEADER_LEN 0 ++ replicate (cap * (68 + ref_size ty)) 0 ++ replicate slack 0)
      as -> by (rewrite <- !replicate_add; f_equal; unfold size, NO_REF_LEN; lia).
    rewrite splice_front.
    + unfold encode, header_bytes, t, fresh_table. cbn [t_counter t_type t_name t_slots t_slack].
      rewrite free_slots_bytes. do 4 f_equal.
      rewrite <- entries_length, fresh_entries. reflexivity.
    + rewrite !length_app, !to_le_bytes_length, padded_length, length_replicate by apply Hn. reflexivity.
  - exists t. split; [done|]. split; [split; [done|]; split|].
    + unfold addressable. by rewrite Hlen.
    + cbn. by rewrite length_replicate.
    + split; [done|]. unfold t, fresh_table. cbn [t_slots].
      rewrite length_replicate, fresh_entries. split; [done|]. split; [constructor | done].
  - intros name' ty'. unfold init.
    assert (is_initialized (encode t) = true) as ->; [|done].
    unfold is_initialized. rewrite (unpack_encoded t) by done. cbn.
    rewrite <- entries_length, fresh_entries. cbn. apply Z.leb_le, Z.div_pos; lia.
Qed.
End Spec.

(** * Updating and listing the reference database

    [update] against [write] and [read_all] against the map of
    [RefDBSpec.represents]; and the theorems of that file at a small account. *)

Section Update.
Context `{Profile} `{Utf8}.

(** ** [update] *)

Lemma update_at_eq t i c tag name old reference :
  wf t -> t.(t_slots) !! i = Some (Used c tag name old) -> valid_reference t.(t_type) reference ->
  update_at i reference (encode t)
  = (Some (Ok (rec_size t)),
     encode (set_slot i (Used (next_counter 16 c) tag name reference) (bumped t))).
Proof.
  intros Hwf Hi Hr. pose proof (lookup_lt_Some _ _ _ Hi) as Hlt.
  destruct (list_elem_of_split_length _ _ _ Hi) as (pre & post & E & ->).
  pose proof (valid_middle t pre _ post Hwf E) as Hs. pose proof Hr as [Ht _].
  unfold update_at. erewrite st_try_Ok by (apply get_offset_eq; [done | lia]).
  set (cur := {| r_index := None; r_counter := c; r_tag := tag; r_name := name; r_reference := old |}).
  assert (tail_from (offset_of t (length pre)) (fun d => unpack_record d (get_type reference) None) (encode t)
    = (Some (Ok cur), encode t)) as Hread.
  { rewrite (tail_from_eq t pre (Used c tag name old :: post)) by done. cbn [map concat].
    by rewrite <- app_assoc, Ht, (unpack_used (t_type t)). }
  erewrite st_try_Ok by exact Hread.
  erewrite st_try_Ok by (by apply bump_storage_counter_eq).
  set (t1 := bumped t). assert (wf t1) as Hwf1 by (by apply bumped_wf).
  assert (t_slots t1 = pre ++ Used c tag name old :: post) as E1 by exact E.
  pose proof Hs as (Hc & _ & Hname & _). unfold cur at 1. cbn [r_counter].
  destruct (c =? 0) eqn:E0; [lia|]. cbv zeta. unfold cur. cbn [r_index r_counter r_tag r_name].
  change (if c <? 2 ^ 16 - 1 then c + 1 else 1) with (next_counter 16 c).
  set (new := Used (next_counter 16 c) tag name reference).
  rewrite (encode_slots t1 pre _ post E1).
  rewrite (encode_slots (set_slot (length pre) new t1) pre new post (set_slot_slots t1 pre _ new post E1)).
  rewrite (set_slot_slots t1 pre _ new post E1), E1, (active_middle pre (Used c tag name old) new post).
  cbn [used new]. rewrite Z.add_simpl_r. cbn [set_slot t_slack].
  rewrite !map_app, !concat_app. cbn [map concat]. rewrite <- !app_assoc, !(app_assoc (header_with _ _)).
  change (offset_of t (length pre)) with (offset_of t1 (length pre)).
  rewrite <- (header_with_front t1 (active (pre ++ Used c tag name old :: post)) pre _ Hwf1 E1).
  erewrite st_try_Ok; [|apply modify_at; apply (pack_over (t_type t)) with (s := Used c tag name old);
    [exact Hs | by left | exact Hname | exact Ht]].
  unfold st_ok, st_ret, RefDB.get_size, rec_size. cbn [r_reference]. by rewrite Ht.
Qed.

Definition record_of (name : list Z) (tag : Z) (reference : Reference) : Record_ := {|
  r_index := None; r_counter := 0; r_tag := tag; r_name := name; r_reference := reference |}.

Lemma table_write_used t i c tag tag' name old reference :
  index_of name t.(t_slots) = Some i -> t.(t_slots) !! i = Some (Used c tag name old) ->
  get_type reference = t.(t_type) ->
  table_write (record_of name tag' reference) t
  = Ok (set_slot i (Used (next_counter 16 c) tag' name reference) (bumped t)).
Proof.
  intros Hi Hs Ht. unfold table_write, position, record_of.
  cbn [r_index r_counter r_tag r_name r_reference]. rewrite Hi.
  change (default (first_free (t_slots t)) (Some i)) with i. rewrite Hs. cbn [used andb].
  rewrite (bool_decide_false (is_Some None)) by (by intros [? ?]). cbn [andb].
  by rewrite (bool_decide_true (t_type t = get_type reference)).
Qed.

(** [update] of a name that is there, with a reference of the account's type,
    leaves the account as [write] of a record with the stored tag does, byte for
    byte; of a name that is not there it fails and changes nothing. *)
Theorem update_is_write ty cap data m name reference :
  represents ty cap data m -> valid_reference ty reference ->
  match m !! name with
  | Some (tag, _) => update name reference data = write (record_of name tag reference) data
  | None => update name reference data = (Some (Err RefdbRecordNotFound), data)
  end.
Proof.
  intros (t & -> & Hf & <- & _ & Hnd & ->) Hr. pose proof Hf as (Hwf & Ha & Hs).
  rewrite <- table_read_lookup by done. unfold update, table_read.
  erewrite st_try_Ok by (by apply find_index_eq).
  destruct (index_of name (t_slots t)) as [i|] eqn:Ei; [|done]. cbn [mbind option_bind].
  pose proof Ei as Ei'. apply index_of_lookup in Ei' as (s & Hi & Hu & Hn).
  destruct s as [|c tag stored old]; [done|]. cbn in Hn. subst stored. rewrite Hi.
  change (update_at i reference (encode t) = write (record_of name tag reference) (encode t)).
  rewrite (update_at_eq t i c tag name old) by done.
  pose proof (proj1 (Forall_lookup _ _) (wf_slots t Hwf) i _ Hi) as (_ & Htag & Hname & _). pose proof Hr as [Ht _].
  assert (valid_record (record_of name tag reference)) as Hv.
  { split; [done|]. split; [done|]. split; [done|]. split; [|done]. cbn. by rewrite Ht. }
  pose proof (write_eq _ t Hwf Ha Hs Hv) as Hw.
  rewrite (table_write_used t i c tag tag name old) in Hw by done.
  destruct Hw as [-> _]. unfold RefDB.get_size, rec_size, record_of. cbn [r_reference]. by rewrite Ht.
Qed.

(** ** [read_all] *)

Fixpoint records_from (index : nat) (slots : list Slot) : list Record_ :=
  match slots with
  | [] => []
  | s :: slots' => option_list (slot_record (Some (Z.of_nat index)) s) ++ records_from (S index) slots'
  end.

Lemma records_from_length index slots : Z.of_nat (length (records_from index slots)) = active slots.
Proof.
  revert index. induction slots as [|s slots IH]; intros index; [done|]. cbn [records_from].
  rewrite active_cons, length_app, Nat2Z.inj_add, IH. by destruct s.
Qed.

Lemma records_from_none index slots : active slots = 0 -> records_from index slots = [].
Proof. intros Ha. apply length_zero_iff_nil. pose proof (records_from_length index slots). lia. Qed.

Lemma records_from_entries index slots :
  map (fun r => (r.(r_name), record_entry r)) (records_from index slots) = entries slots.
Proof.
  revert index. induction slots as [|s slots IH]; intros index; [done|]. cbn [records_from].
  rewrite map_app, IH. unfold entries. cbn [omap list_omap]. by destruct s.
Qed.

Lemma read_all_loop_eq t pre post vec :
  wf t -> t.(t_slots) = pre ++ post -> Z.of_nat (length vec) = active pre -> 0 < active post ->
  read_all_loop (length post) (length pre) (active t.(t_slots)) vec (encode t)
  = (Some (Ok (vec ++ records_from (length pre) post)), encode t).
Proof.
  intros Hwf. revert pre vec. induction post as [|s post IH]; intros pre vec E Hvec Hact; [done|].
  cbn [length read_all_loop records_from]. erewrite st_try_Ok.
  2: { apply read_at_eq; [done|]. by rewrite E, lookup_app_r, Nat.sub_diag. }
  assert (t_slots t = (pre ++ [s]) ++ post) as E' by (by rewrite <- app_assoc).
  assert (length (pre ++ [s]) = S (length pre)) as Hl by (rewrite length_app; cbn; lia).
  assert (active (pre ++ [s]) = active pre + if used s then 1 else 0) as Hpre.
  { rewrite <- !(records_from_length 0). clear. generalize 0%nat.
    induction pre as [|x pre IH]; intros i; cbn [app records_from].
    - by destruct s.
    - rewrite !length_app, !Nat2Z.inj_add, IH. lia. }
  assert (active (t_slots t) = active pre + active (s :: post)) as Hall.
  { rewrite E. clear. induction pre as [|x pre IH]; [done|]. cbn [app]. rewrite !(active_cons x), IH. lia. }
  rewrite active_cons in Hall, Hact.
  destruct s as [junk|c tag name r]; cbn [used slot_record option_list app] in *.
  - rewrite <- Hl. apply IH; [done | lia | lia].
  - rewrite length_app. cbn [length]. set (rec := Build_Record_ _ _ _ _ _).
    pose proof (active_bounds post). destruct (_ =? _) eqn:Ee.
    + apply Z.eqb_eq in Ee. rewrite records_from_none by lia. reflexivity.
    + apply Z.eqb_neq in Ee. rewrite <- Hl, IH; [by rewrite <- app_assoc | done | |lia].
      rewrite length_app. cbn [length]. lia.
Qed.

(** [read_all] lists the map, a record per name, and leaves the account as it
    is. *)
Theorem read_all_lists_map ty cap data m :
  represents ty cap data m ->
  exists records, read_all data = (Some (Ok records), data) /\
    NoDup (map r_name records) /\ length records = size m /\
    list_to_map (map (fun r => (r.(r_name), record_entry r)) records) = m.
Proof.
  intros (t & -> & (Hwf & Ha & _) & _ & _ & Hnd & ->). exists (records_from 0 t.(t_slots)).
  rewrite records_from_entries. split; [|split; [|split; [|done]]].
  - unfold read_all. erewrite st_try_Ok by (by apply get_total_records_eq).
    erewrite st_try_Ok by (by apply get_active_records_eq).
    pose proof (active_bounds (t_slots t)). destruct (_ =? 0) eqn:E.
    + apply Z.eqb_eq in E. by rewrite records_from_none.
    + apply Z.eqb_neq in E. apply (read_all_loop_eq t [] (t_slots t) []); try done. lia.
  - rewrite <- (records_from_entries 0) in Hnd. by rewrite map_map in Hnd.
  - rewrite map_size_list_to_map by done. apply Nat2Z.inj. by rewrite records_from_length, entries_length.
Qed.
End Update.

(** ** Storage sizes *)

Definition tight_size `{Profile} storage_type reference_type : bool :=
  let rec_size := Z.of_nat (NO_REF_LEN + ref_size reference_type) in
  match get_storage_size_for_max_records storage_type reference_type,
        get_default_max_records storage_type reference_type with
  | Some size, Some cap =>
      (0 <? cap) && (cap <? 2 ^ 32) && (size =? Z.of_nat HEADER_LEN + cap * rec_size) &&
      (size <=? get_default_size storage_type) && (get_default_size storage_type <? size + rec_size)
  | _, _ => false
  end.

Lemma tight_sizes (p : Profile) storage_type reference_type :
  storage_type <> StOther -> tight_size storage_type reference_type = true.
Proof. intros Hne. by destruct p, storage_type, reference_type; vm_compute. Qed.

(** The size for the most records of a storage type is within its default
    size, and one more record would not be: an account of that size is
    initialized with that capacity.  For the type without a default size the
    subtraction overflows: a panic where overflow is checked. *)
Theorem storage_size_is_tight `{p : Profile} storage_type reference_type :
  let rec_size := Z.of_nat (NO_REF_LEN + ref_size reference_type) in
  (storage_type = StOther /\
   (overflow_checks = true -> get_storage_size_for_max_records storage_type reference_type = None)) \/
  exists size cap,
    get_storage_size_for_max_records storage_type reference_type = Some size /\
    get_default_max_records storage_type reference_type = Some cap /\
    0 < cap < 2 ^ 32 /\ size = Z.of_nat HEADER_LEN + cap * rec_size /\
    size <= get_default_size storage_type < size + rec_size.
Proof.
  cbv zeta. assert (storage_type = StOther \/ storage_type <> StOther) as [->|Hne]
    by (destruct storage_type; (by left) || by right).
  - left. split; [done|]. intros Hp. destruct p; [|done]. reflexivity.
  - right. pose proof (tight_sizes p _ reference_type Hne) as Ht. unfold tight_size in Ht. cbv zeta in Ht.
    set (rec_size := Z.of_nat (NO_REF_LEN + ref_size reference_type)) in *. clearbody rec_size.
    destruct (get_storage_size_for_max_records _ _) as [size|] eqn:Es; [|done].
    destruct (get_default_max_records _ _) as [cap|] eqn:Ec; [|done].
    exists size, cap. rewrite !andb_true_iff in Ht. split; [done|]. split; [done|]. lia.
Qed.

(** ** A small account *)

#[local] Existing Instance ascii_utf8.
#[local] Existing Instance debug_build.

(** Three slots of [u64] references under the name "db"; "ab" is in the second. *)
Definition sample_table : Table := {|
  t_counter := 5; t_type := RtU64; t_name := [100; 98];
  t_slots := [Free (replicate 8 0); Used 1 3 [97; 98] (RefU64 7); Free (replicate 8 9)];
  t_slack := [1; 2; 3] |}.

Definition sample_record : Record_ := record_of [99] 2 (RefU64 (2 ^ 40)).

Lemma sample_represents :
  represents RtU64 3 (encode sample_table) {[ [97; 98] := (3, RefU64 7) ]}.
Proof.
  exists sample_table. split; [done|]. split; [|split; [done|]; split; [done|]; split; [|done]].
  - split; [|split; [done | cbn; unfold NO_REF_LEN; lia]].
    split; cbn; try (unfold NO_REF_LEN; lia); [by apply ascii_name_valid|].
    apply Forall_cons; split; [done|]. apply Forall_cons; split; [|apply Forall_cons; split; [done | apply Forall_nil_2]].
    split; [lia|]. split; [lia|]. split; [by apply ascii_name_valid | done].
  - apply NoDup_singleton.
Qed.


Lemma read_refines_lookup_witness :
  exists found, read [97; 98] (encode sample_table) = (Some (Ok found), encode sample_table) /\
    record_entry <$> found = Some (3, RefU64 7).
Proof. exact (read_refines_lookup _ _ _ _ [97; 98] sample_represents). Defined.


(** "ab" is in the second slot: it is removed without an index and with 1, and with 0, the
    index of a free slot, it is not. *)
Lemma delete_refines_delete_witness :
  match delete_with_name [97; 98] None (encode sample_table) with
  | (Some (Ok _), data') => represents RtU64 3 data' (base.delete [97; 98] {[ [97; 98] := (3, RefU64 7) ]})
  | _ => False
  end
  /\ (exists n data', delete_with_name [97; 98] (Some 1) (encode sample_table) = (Some (Ok n), data')
        /\ represents RtU64 3 data' (base.delete [97; 98] {[ [97; 98] := (3, RefU64 7) ]}))
  /\ (exists n, delete_with_name [97; 98] (Some 0) (encode sample_table) = (Some (Ok n), encode sample_table))
  /\ delete_with_name [99] (Some 1) (encode sample_table)
     = (Some (Err RefdbRecordNameMismatch), encode sample_table).
Proof.
  pose proof (delete_refines_delete _ _ _ _ [97; 98] None sample_represents I) as Hd.
  assert (0 <= 0) as Z0 by lia. assert (0 <= 1) as Z1 by lia.
  destruct (delete_refines_delete _ _ _ _ [97; 98] (Some 1) sample_represents Z1) as (f1 & E1 & H1).
  destruct (delete_refines_delete _ _ _ _ [97; 98] (Some 0) sample_represents Z0) as (f0 & E0 & H0).
  destruct (delete_refines_delete _ _ _ _ [99] (Some 1) sample_represents Z1) as (f2 & E2 & H2).
  split; [|split; [|split]].
  - destruct (delete_with_name [97; 98] None (encode sample_table)) as [o data'] eqn:E.
    assert (match o with Some (Ok _) => True | _ => False end) as Hok
      by (replace o with (fst (delete_with_name [97; 98] None (encode sample_table))) by (by rewrite E);
          vm_compute; exact I).
    destruct o as [[n|e]|]; [exact Hd | destruct Hok | destruct Hok].
  - apply (f_equal fst) in E1. vm_compute in E1. injection E1 as <-. exact H1.
  - apply (f_equal fst) in E0. vm_compute in E0. injection E0 as <-. exact H0.
  - apply (f_equal fst) in E2. vm_compute in E2. injection E2 as <-. exact H2.
Defined.

Lemma init_makes_empty_map_witness :
  exists data, init [100; 98] RtU64 (replicate 304 0) = (Some (Ok tt), data) /\ represents RtU64 3 data ∅ /\
    (forall name' ty', init name' ty' data = (Some (Err AccountAlreadyInitialized), data)).
Proof.
  apply (init_makes_empty_map [100; 98] RtU64 3 3);
    [by apply ascii_name_valid | lia | lia | unfold NO_REF_LEN; lia | done].
Defined.

Lemma update_is_write_witness :
  update [97; 98] (RefU64 9) (encode sample_table)
  = write (record_of [97; 98] 3 (RefU64 9)) (encode sample_table).
Proof.
  assert (valid_reference RtU64 (RefU64 9)) as Hr by (split; [done | cbn; lia]).
  exact (update_is_write _ _ _ _ [97; 98] (RefU64 9) sample_represents Hr).
Defined.

Lemma read_all_lists_map_witness :
  exists records, read_all (encode sample_table) = (Some (Ok records), encode sample_table) /\
    NoDup (map r_name records) /\ length records = 1%nat /\
    list_to_map (map (fun r => (r.(r_name), record_entry r)) records)
    = ({[ [97; 98] := (3, RefU64 7) ]} : gmap (list Z) (Z * Reference)).
Proof. exact (read_all_lists_map _ _ _ _ sample_represents). Defined.

(** ** Records of another type

    The account holds [u64] references; [update] and [delete] take the type from
    the record they are given. *)

(** An [update] with a byte writes one byte of the eight and succeeds. *)
Example update_ignores_type :
  fst (update [97; 98] (RefU8 1) (encode sample_table)) = Some (Ok 69%nat) /\
  fst (write (record_of [97; 98] 3 (RefU8 1)) (encode sample_table)) = Some (Err RefdbRecordTypeMismatch).
Proof. vm_compute. done. Qed.

(** A full account with 68 or more bytes behind its last slot: [write] takes them for a
    free slot and counts the record before it finds that it does not fit.  It fails, and
    the account it leaves counts two records, of which no list can be read. *)
Example write_past_last_slot :
  let t := {| t_counter := 5; t_type := RtU64; t_name := [100; 98];
              t_slots := [Used 1 3 [97; 98] (RefU64 7)]; t_slack := replicate 70 0 |} in
  let '(o, data') := write sample_record (encode t) in
  wf t /\ o = Some (Err AccountDataTooSmall) /\ data' <> encode t /\
  fst (get_active_records data') = Some (Ok 2) /\
  fst (read_all (encode t)) <> fst (read_all data') /\ fst (read_all data') = Some (Err InvalidAccountData).
Proof.
  split; [split; cbn; try (unfold NO_REF_LEN; lia); [by apply ascii_name_valid|]|].
  - apply Forall_singleton. split; [lia|]. split; [lia|]. split; [by apply ascii_name_valid | done].
  - split_and!; vm_compute; (reflexivity || discriminate).
Qed.

(** A [delete] with a record that carries a public key clears the front of the
    next slot as well: its record is lost while the header still counts it. *)
Example delete_ignores_type :
  let t := {| t_counter := 5; t_type := RtU64; t_name := [100; 98];
              t_slots := [Used 1 3 [97; 98] (RefU64 7); Used 1 4 [99] (RefU64 8); Free (replicate 8 0)];
              t_slack := [] |} in
  let '(o, data') := delete (record_of [97; 98] 3 (RefPubkey 1)) (encode t) in
  o = Some (Ok 100%nat) /\ fst (read [99] (encode t)) <> fst (read [99] data') /\
  fst (read [99] data') = Some (Ok None) /\ fst (get_active_records data') = Some (Ok 1) /\
  fst (read_all data') = Some (Err InvalidAccountData).
Proof. vm_compute. done. Qed.
