(* ===== verification/AmmInstruction.v ===== *)
(** * AMM router instructions ([crates/solana_farm_sdk/src/instruction/amm.rs])

    One tag byte and the amounts of the variant, little-endian. *)

From S2P Require Import Prelude MachineInt Pack.

Inductive AmmInstruction :=
| UserInit
| AddLiquidity (max_token_a_amount max_token_b_amount : Z)
| RemoveLiquidity (amount : Z)
| Swap (token_a_amount_in token_b_amount_in min_token_amount_out : Z)
| Stake (amount : Z)
| Unstake (amount : Z)
| Harvest
| WrapToken (amount : Z)
| UnwrapToken (amount : Z).

#[export] Instance AmmInstruction_eq_dec : EqDecision AmmInstruction.
Proof. solve_decision. Defined.

Inductive AmmInstructionType :=
| TUserInit | TAddLiquidity | TRemoveLiquidity | TSwap | TStake | TUnstake | THarvest
| TWrapToken | TUnwrapToken.

#[export] Instance AmmInstructionType_primitive : Primitive AmmInstructionType.
Proof.
  refine {| variants := [TUserInit; TAddLiquidity; TRemoveLiquidity; TSwap; TStake; TUnstake; THarvest;
                         TWrapToken; TUnwrapToken] |}.
  - solve_decision.
  - intros []; set_solver.
Defined.

Definition MAX_LEN : nat := 25.
Definition USER_INIT_LEN : nat := 1.
Definition ADD_LIQUIDITY_LEN : nat := 17.
Definition REMOVE_LIQUIDITY_LEN : nat := 9.
Definition SWAP_LEN : nat := 25.
Definition STAKE_LEN : nat := 9.
Definition UNSTAKE_LEN : nat := 9.
Definition HARVEST_LEN : nat := 1.
Definition WRAP_TOKEN_LEN : nat := 9.
Definition UNWRAP_TOKEN_LEN : nat := 9.

Definition get_size (i : AmmInstruction) : nat :=
  match i with
  | UserInit => USER_INIT_LEN
  | AddLiquidity _ _ => ADD_LIQUIDITY_LEN
  | RemoveLiquidity _ => REMOVE_LIQUIDITY_LEN
  | Swap _ _ _ => SWAP_LEN
  | Stake _ => STAKE_LEN
  | Unstake _ => UNSTAKE_LEN
  | Harvest => HARVEST_LEN
  | WrapToken _ => WRAP_TOKEN_LEN
  | UnwrapToken _ => UNWRAP_TOKEN_LEN
  end.

(** ** Packing

    Each [pack_*] checks the buffer first and then that it was called for its own
    variant. *)

Definition pack_user_init (i : AmmInstruction) : Db nat :=
  check_output USER_INIT_LEN
    match i with
    | UserInit => write_fields USER_INIT_LEN [put_u8 (as_u8 TUserInit)]
    | _ => st_bail InvalidInstructionData
    end.

Definition pack_add_liquidity (i : AmmInstruction) : Db nat :=
  check_output ADD_LIQUIDITY_LEN
    match i with
    | AddLiquidity max_token_a_amount max_token_b_amount =>
        write_fields ADD_LIQUIDITY_LEN
          [put_u8 (as_u8 TAddLiquidity); put_u64 max_token_a_amount; put_u64 max_token_b_amount]
    | _ => st_bail InvalidInstructionData
    end.

Definition pack_remove_liquidity (i : AmmInstruction) : Db nat :=
  check_output REMOVE_LIQUIDITY_LEN
    match i with
    | RemoveLiquidity amount =>
        write_fields REMOVE_LIQUIDITY_LEN [put_u8 (as_u8 TRemoveLiquidity); put_u64 amount]
    | _ => st_bail InvalidInstructionData
    end.

Definition pack_swap (i : AmmInstruction) : Db nat :=
  check_output SWAP_LEN
    match i with
    | Swap token_a_amount_in token_b_amount_in min_token_amount_out =>
        write_fields SWAP_LEN
          [put_u8 (as_u8 TSwap); put_u64 token_a_amount_in; put_u64 token_b_amount_in;
           put_u64 min_token_amount_out]
    | _ => st_bail InvalidInstructionData
    end.

Definition pack_stake (i : AmmInstruction) : Db nat :=
  check_output STAKE_LEN
    match i with
    | Stake amount => write_fields STAKE_LEN [put_u8 (as_u8 TStake); put_u64 amount]
    | _ => st_bail InvalidInstructionData
    end.

Definition pack_unstake (i : AmmInstruction) : Db nat :=
  check_output UNSTAKE_LEN
    match i with
    | Unstake amount => write_fields UNSTAKE_LEN [put_u8 (as_u8 TUnstake); put_u64 amount]
    | _ => st_bail InvalidInstructionData
    end.

Definition pack_harvest (i : AmmInstruction) : Db nat :=
  check_output HARVEST_LEN
    match i with
    | Harvest => write_fields HARVEST_LEN [put_u8 (as_u8 THarvest)]
    | _ => st_bail InvalidInstructionData
    end.

Definition pack_wrap_token (i : AmmInstruction) : Db nat :=
  check_output WRAP_TOKEN_LEN
    match i with
    | WrapToken amount => write_fields WRAP_TOKEN_LEN [put_u8 (as_u8 TWrapToken); put_u64 amount]
    | _ => st_bail InvalidInstructionData
    end.

Definition pack_unwrap_token (i : AmmInstruction) : Db nat :=
  check_output UNWRAP_TOKEN_LEN
    match i with
    | UnwrapToken amount => write_fields UNWRAP_TOKEN_LEN [put_u8 (as_u8 TUnwrapToken); put_u64 amount]
    | _ => st_bail InvalidInstructionData
    end.

Definition pack_amm (i : AmmInstruction) : Db nat :=
  match i with
  | UserInit => pack_user_init i
  | AddLiquidity _ _ => pack_add_liquidity i
  | RemoveLiquidity _ => pack_remove_liquidity i
  | Swap _ _ _ => pack_swap i
  | Stake _ => pack_stake i
  | Unstake _ => pack_unstake i
  | Harvest => pack_harvest i
  | WrapToken _ => pack_wrap_token i
  | UnwrapToken _ => pack_unwrap_token i
  end.

Definition to_vec (i : AmmInstruction) : option (result ProgramError (list Z)) :=
  to_vec_with MAX_LEN InvalidInstructionData (pack_amm i).

(** ** Unpacking *)

Definition unpack_user_init (input : list Z) : result ProgramError AmmInstruction :=
  _ <-? check_data_len input USER_INIT_LEN ;; Ok UserInit.

Definition unpack_add_liquidity (input : list Z) : result ProgramError AmmInstruction :=
  _ <-? check_data_len input ADD_LIQUIDITY_LEN ;;
  Ok (AddLiquidity (u64_at 1 input) (u64_at 9 input)).

Definition unpack_remove_liquidity (input : list Z) : result ProgramError AmmInstruction :=
  _ <-? check_data_len input REMOVE_LIQUIDITY_LEN ;; Ok (RemoveLiquidity (u64_at 1 input)).

Definition unpack_swap (input : list Z) : result ProgramError AmmInstruction :=
  _ <-? check_data_len input SWAP_LEN ;;
  Ok (Swap (u64_at 1 input) (u64_at 9 input) (u64_at 17 input)).

Definition unpack_stake (input : list Z) : result ProgramError AmmInstruction :=
  _ <-? check_data_len input STAKE_LEN ;; Ok (Stake (u64_at 1 input)).

Definition unpack_unstake (input : list Z) : result ProgramError AmmInstruction :=
  _ <-? check_data_len input UNSTAKE_LEN ;; Ok (Unstake (u64_at 1 input)).

Definition unpack_harvest (input : list Z) : result ProgramError AmmInstruction :=
  _ <-? check_data_len input HARVEST_LEN ;; Ok Harvest.

Definition unpack_wrap_token (input : list Z) : result ProgramError AmmInstruction :=
  _ <-? check_data_len input WRAP_TOKEN_LEN ;; Ok (WrapToken (u64_at 1 input)).

Definition unpack_unwrap_token (input : list Z) : result ProgramError AmmInstruction :=
  _ <-? check_data_len input UNWRAP_TOKEN_LEN ;; Ok (UnwrapToken (u64_at 1 input)).

Definition unpack_amm (input : list Z) : result ProgramError AmmInstruction :=
  _ <-? check_data_len input 1 ;;
  match (of_u8 (u8_at 0 input) : option AmmInstructionType) with
  | None => Err InvalidInstructionData
  | Some TUserInit => unpack_user_init input
  | Some TAddLiquidity => unpack_add_liquidity input
  | Some TRemoveLiquidity => unpack_remove_liquidity input
  | Some TSwap => unpack_swap input
  | Some TStake => unpack_stake input
  | Some TUnstake => unpack_unstake input
  | Some THarvest => unpack_harvest input
  | Some TWrapToken => unpack_wrap_token input
  | Some TUnwrapToken => unpack_unwrap_token input
  end.

#[export] Instance Packed_amm : Packed AmmInstruction := {
  packed_size := get_size; pack := pack_amm; unpack := unpack_amm }.

(** ** Facts *)

(** Amounts are [u64]. *)
Definition valid_amm (i : AmmInstruction) : Prop :=
  match i with
  | UserInit | Harvest => True
  | AddLiquidity a b => is_u64 a /\ is_u64 b
  | Swap a b m => is_u64 a /\ is_u64 b /\ is_u64 m
  | RemoveLiquidity a | Stake a | Unstake a | WrapToken a | UnwrapToken a => is_u64 a
  end.

Create HintDb amm.
#[export] Hint Unfold unpack_user_init unpack_add_liquidity unpack_remove_liquidity unpack_swap unpack_stake
  unpack_unstake unpack_harvest unpack_wrap_token unpack_unwrap_token : amm.

#[export] Instance PackedLaw_amm : PackedLaw AmmInstruction valid_amm.
Proof.
  split.
  - intros i output _ Hl. by destruct i; (eapply eq_trans; [apply (f_equal fst), check_output_short|]).
  - intros i Hi. destruct i; cbn [valid_amm] in Hi; destruct_and?;
      (eapply packs_fields; [intros n Hn; by apply check_output_zeros | reflexivity | total_length |]);
      intros input rest Hlen E; cbn [unpack Packed_amm]; unfold unpack_amm; rewrite Hlen by done;
      cbn [result_bind]; read_tag E; rewrite of_as_u8;
      autounfold with amm; decode Hlen E.
Qed.
