(* ===== verification/VaultInstruction.v ===== *)
(** * Vault instructions ([crates/solana_farm_sdk/src/instruction/vault.rs])

    A tag byte and the variant's fields, little-endian; the fees are [f32], here
    their bit patterns. *)

From S2P Require Import Prelude MachineInt Pack.

Inductive VaultInstruction :=
| UserInit
| AddLiquidity (max_token_a_amount : Z) (max_token_b_amount : Z)
| LockLiquidity (amount : Z)
| UnlockLiquidity (amount : Z)
| RemoveLiquidity (amount : Z)
| SetAdminSigners (min_signatures : Z)
| RemoveMultisig
| SetMinCrankInterval (min_crank_interval : Z)
| SetFee (fee : Z)
| SetExternalFee (external_fee : Z)
| DisableDeposits
| EnableDeposits
| DisableWithdrawals
| EnableWithdrawals
| Crank (step : Z)
| Init (step : Z)
| Shutdown
| WithdrawFees (amount : Z).

Inductive VaultInstructionType :=
| TUserInit | TAddLiquidity | TLockLiquidity | TUnlockLiquidity | TRemoveLiquidity
  | TSetAdminSigners | TRemoveMultisig | TSetMinCrankInterval | TSetFee | TSetExternalFee
  | TDisableDeposits | TEnableDeposits | TDisableWithdrawals | TEnableWithdrawals | TCrank | TInit
  | TShutdown | TWithdrawFees.

#[export] Instance VaultInstructionType_primitive : Primitive VaultInstructionType.
Proof.
  refine {| variants := [TUserInit; TAddLiquidity; TLockLiquidity; TUnlockLiquidity;
                         TRemoveLiquidity; TSetAdminSigners; TRemoveMultisig; TSetMinCrankInterval;
                         TSetFee; TSetExternalFee; TDisableDeposits; TEnableDeposits;
                         TDisableWithdrawals; TEnableWithdrawals; TCrank; TInit; TShutdown;
                         TWithdrawFees] |}.
  - solve_decision.
  - intros []; set_solver.
Defined.

Definition MAX_LEN : nat := 17.
Definition USER_INIT_LEN : nat := 1.
Definition ADD_LIQUIDITY_LEN : nat := 17.
Definition LOCK_LIQUIDITY_LEN : nat := 9.
Definition UNLOCK_LIQUIDITY_LEN : nat := 9.
Definition REMOVE_LIQUIDITY_LEN : nat := 9.
Definition SET_ADMIN_SIGNERS_LEN : nat := 2.
Definition REMOVE_MULTISIG_LEN : nat := 1.
Definition SET_MIN_CRANK_INTERVAL_LEN : nat := 5.
Definition SET_FEE_LEN : nat := 5.
Definition SET_EXTERNAL_FEE_LEN : nat := 5.
Definition DISABLE_DEPOSITS_LEN : nat := 1.
Definition ENABLE_DEPOSITS_LEN : nat := 1.
Definition DISABLE_WITHDRAWALS_LEN : nat := 1.
Definition ENABLE_WITHDRAWALS_LEN : nat := 1.
Definition CRANK_LEN : nat := 9.
Definition INIT_LEN : nat := 9.
Definition SHUTDOWN_LEN : nat := 1.
Definition WITHDRAW_FEES_LEN : nat := 9.

(** ** Packing *)

Definition pack_user_init (i : VaultInstruction) : Db nat :=
  check_output USER_INIT_LEN
    match i with
    | UserInit => write_fields USER_INIT_LEN [put_u8 (as_u8 TUserInit)]
    | _ => st_bail InvalidInstructionData
    end.

Definition pack_add_liquidity (i : VaultInstruction) : Db nat :=
  check_output ADD_LIQUIDITY_LEN
    match i with
    | AddLiquidity max_token_a_amount max_token_b_amount =>
        write_fields ADD_LIQUIDITY_LEN
          [put_u8 (as_u8 TAddLiquidity); put_u64 max_token_a_amount; put_u64 max_token_b_amount]
    | _ => st_bail InvalidInstructionData
    end.

Definition pack_lock_liquidity (i : VaultInstruction) : Db nat :=
  check_output LOCK_LIQUIDITY_LEN
    match i with
    | LockLiquidity amount =>
        write_fields LOCK_LIQUIDITY_LEN
          [put_u8 (as_u8 TLockLiquidity); put_u64 amount]
    | _ => st_bail InvalidInstructionData
    end.

Definition pack_unlock_liquidity (i : VaultInstruction) : Db nat :=
  check_output UNLOCK_LIQUIDITY_LEN
    match i with
    | UnlockLiquidity amount =>
        write_fields UNLOCK_LIQUIDITY_LEN
          [put_u8 (as_u8 TUnlockLiquidity); put_u64 amount]
    | _ => st_bail InvalidInstructionData
    end.

Definition pack_remove_liquidity (i : VaultInstruction) : Db nat :=
  check_output REMOVE_LIQUIDITY_LEN
    match i with
    | RemoveLiquidity amount =>
        write_fields REMOVE_LIQUIDITY_LEN
          [put_u8 (as_u8 TRemoveLiquidity); put_u64 amount]
    | _ => st_bail InvalidInstructionData
    end.

Definition pack_set_admin_signers (i : VaultInstruction) : Db nat :=
  check_output SET_ADMIN_SIGNERS_LEN
    match i with
    | SetAdminSigners min_signatures =>
        write_fields SET_ADMIN_SIGNERS_LEN
          [put_u8 (as_u8 TSetAdminSigners); put_u8 min_signatures]
    | _ => st_bail InvalidInstructionData
    end.

Definition pack_remove_multisig (i : VaultInstruction) : Db nat :=
  check_output REMOVE_MULTISIG_LEN
    match i with
    | RemoveMultisig => write_fields REMOVE_MULTISIG_LEN [put_u8 (as_u8 TRemoveMultisig)]
    | _ => st_bail InvalidInstructionData
    end.

Definition pack_set_min_crank_interval (i : VaultInstruction) : Db nat :=
  check_output SET_MIN_CRANK_INTERVAL_LEN
    match i with
    | SetMinCrankInterval min_crank_interval =>
        write_fields SET_MIN_CRANK_INTERVAL_LEN
          [put_u8 (as_u8 TSetMinCrankInterval); put_u32 min_crank_interval]
    | _ => st_bail InvalidInstructionData
    end.

Definition pack_set_fee (i : VaultInstruction) : Db nat :=
  check_output SET_FEE_LEN
    match i with
    | SetFee fee => write_fields SET_FEE_LEN [put_u8 (as_u8 TSetFee); put_u32 fee]
    | _ => st_bail InvalidInstructionData
    end.

Definition pack_set_external_fee (i : VaultInstruction) : Db nat :=
  check_output SET_EXTERNAL_FEE_LEN
    match i with
    | SetExternalFee external_fee =>
        write_fields SET_EXTERNAL_FEE_LEN
          [put_u8 (as_u8 TSetExternalFee); put_u32 external_fee]
    | _ => st_bail InvalidInstructionData
    end.

Definition pack_disable_deposits (i : VaultInstruction) : Db nat :=
  check_output DISABLE_DEPOSITS_LEN
    match i with
    | DisableDeposits => write_fields DISABLE_DEPOSITS_LEN [put_u8 (as_u8 TDisableDeposits)]
    | _ => st_bail InvalidInstructionData
    end.

Definition pack_enable_deposits (i : VaultInstruction) : Db nat :=
  check_output ENABLE_DEPOSITS_LEN
    match i with
    | EnableDeposits => write_fields ENABLE_DEPOSITS_LEN [put_u8 (as_u8 TEnableDeposits)]
    | _ => st_bail InvalidInstructionData
    end.

Definition pack_disable_withdrawals (i : VaultInstruction) : Db nat :=
  check_output DISABLE_WITHDRAWALS_LEN
    match i with
    | DisableWithdrawals =>
        write_fields DISABLE_WITHDRAWALS_LEN
          [put_u8 (as_u8 TDisableWithdrawals)]
    | _ => st_bail InvalidInstructionData
    end.

Definition pack_enable_withdrawals (i : VaultInstruction) : Db nat :=
  check_output ENABLE_WITHDRAWALS_LEN
    match i with
    | EnableWithdrawals => write_fields ENABLE_WITHDRAWALS_LEN [put_u8 (as_u8 TEnableWithdrawals)]
    | _ => st_bail InvalidInstructionData
    end.

Definition pack_crank (i : VaultInstruction) : Db nat :=
  check_output CRANK_LEN
    match i with
    | Crank step => write_fields CRANK_LEN [put_u8 (as_u8 TCrank); put_u64 step]
    | _ => st_bail InvalidInstructionData
    end.

Definition pack_init (i : VaultInstruction) : Db nat :=
  check_output INIT_LEN
    match i with
    | Init step => write_fields INIT_LEN [put_u8 (as_u8 TInit); put_u64 step]
    | _ => st_bail InvalidInstructionData
    end.

Definition pack_shutdown (i : VaultInstruction) : Db nat :=
  check_output SHUTDOWN_LEN
    match i with
    | Shutdown => write_fields SHUTDOWN_LEN [put_u8 (as_u8 TShutdown)]
    | _ => st_bail InvalidInstructionData
    end.

Definition pack_withdraw_fees (i : VaultInstruction) : Db nat :=
  check_output WITHDRAW_FEES_LEN
    match i with
    | WithdrawFees amount =>
        write_fields WITHDRAW_FEES_LEN
          [put_u8 (as_u8 TWithdrawFees); put_u64 amount]
    | _ => st_bail InvalidInstructionData
    end.

Definition pack_vault (i : VaultInstruction) : Db nat :=
  match i with
  | UserInit => pack_user_init i
  | AddLiquidity _ _ => pack_add_liquidity i
  | LockLiquidity _ => pack_lock_liquidity i
  | UnlockLiquidity _ => pack_unlock_liquidity i
  | RemoveLiquidity _ => pack_remove_liquidity i
  | SetAdminSigners _ => pack_set_admin_signers i
  | RemoveMultisig => pack_remove_multisig i
  | SetMinCrankInterval _ => pack_set_min_crank_interval i
  | SetFee _ => pack_set_fee i
  | SetExternalFee _ => pack_set_external_fee i
  | DisableDeposits => pack_disable_deposits i
  | EnableDeposits => pack_enable_deposits i
  | DisableWithdrawals => pack_disable_withdrawals i
  | EnableWithdrawals => pack_enable_withdrawals i
  | Crank _ => pack_crank i
  | Init _ => pack_init i
  | Shutdown => pack_shutdown i
  | WithdrawFees _ => pack_withdraw_fees i
  end.

Definition to_vec (i : VaultInstruction) : option (result ProgramError (list Z)) :=
  to_vec_with MAX_LEN InvalidInstructionData (pack_vault i).

(** ** Unpacking *)

Definition unpack_user_init (input : list Z) : result ProgramError VaultInstruction :=
  _ <-? check_data_len input USER_INIT_LEN ;; Ok UserInit.

Definition unpack_add_liquidity (input : list Z) : result ProgramError VaultInstruction :=
  _ <-? check_data_len input ADD_LIQUIDITY_LEN ;;
  run_get (max_token_a_amount <-g get_u64 ;; max_token_b_amount <-g get_u64 ;;
           get_ret (AddLiquidity max_token_a_amount max_token_b_amount)) (drop 1 input).

Definition unpack_lock_liquidity (input : list Z) : result ProgramError VaultInstruction :=
  _ <-? check_data_len input LOCK_LIQUIDITY_LEN ;; Ok (LockLiquidity (u64_at 1 input)).

Definition unpack_unlock_liquidity (input : list Z) : result ProgramError VaultInstruction :=
  _ <-? check_data_len input UNLOCK_LIQUIDITY_LEN ;; Ok (UnlockLiquidity (u64_at 1 input)).

Definition unpack_remove_liquidity (input : list Z) : result ProgramError VaultInstruction :=
  _ <-? check_data_len input REMOVE_LIQUIDITY_LEN ;; Ok (RemoveLiquidity (u64_at 1 input)).

Definition unpack_set_admin_signers (input : list Z) : result ProgramError VaultInstruction :=
  _ <-? check_data_len input SET_ADMIN_SIGNERS_LEN ;; Ok (SetAdminSigners (u8_at 1 input)).

Definition unpack_remove_multisig (input : list Z) : result ProgramError VaultInstruction :=
  _ <-? check_data_len input REMOVE_MULTISIG_LEN ;; Ok RemoveMultisig.

Definition unpack_set_min_crank_interval (input : list Z) : result ProgramError VaultInstruction :=
  _ <-? check_data_len input SET_MIN_CRANK_INTERVAL_LEN ;; Ok (SetMinCrankInterval (u32_at 1 input)).

Definition unpack_set_fee (input : list Z) : result ProgramError VaultInstruction :=
  _ <-? check_data_len input SET_FEE_LEN ;; Ok (SetFee (u32_at 1 input)).

Definition unpack_set_external_fee (input : list Z) : result ProgramError VaultInstruction :=
  _ <-? check_data_len input SET_EXTERNAL_FEE_LEN ;; Ok (SetExternalFee (u32_at 1 input)).

Definition unpack_disable_deposits (input : list Z) : result ProgramError VaultInstruction :=
  _ <-? check_data_len input DISABLE_DEPOSITS_LEN ;; Ok DisableDeposits.

Definition unpack_enable_deposits (input : list Z) : result ProgramError VaultInstruction :=
  _ <-? check_data_len input ENABLE_DEPOSITS_LEN ;; Ok EnableDeposits.

Definition unpack_disable_withdrawals (input : list Z) : result ProgramError VaultInstruction :=
  _ <-? check_data_len input DISABLE_WITHDRAWALS_LEN ;; Ok DisableWithdrawals.

Definition unpack_enable_withdrawals (input : list Z) : result ProgramError VaultInstruction :=
  _ <-? check_data_len input ENABLE_WITHDRAWALS_LEN ;; Ok EnableWithdrawals.

Definition unpack_crank (input : list Z) : result ProgramError VaultInstruction :=
  _ <-? check_data_len input CRANK_LEN ;; Ok (Crank (u64_at 1 input)).

Definition unpack_init (input : list Z) : result ProgramError VaultInstruction :=
  _ <-? check_data_len input INIT_LEN ;; Ok (Init (u64_at 1 input)).

Definition unpack_shutdown (input : list Z) : result ProgramError VaultInstruction :=
  _ <-? check_data_len input SHUTDOWN_LEN ;; Ok Shutdown.

Definition unpack_withdraw_fees (input : list Z) : result ProgramError VaultInstruction :=
  _ <-? check_data_len input WITHDRAW_FEES_LEN ;; Ok (WithdrawFees (u64_at 1 input)).

Definition unpack_vault (input : list Z) : result ProgramError VaultInstruction :=
  _ <-? check_data_len input 1 ;;
  match (of_u8 (u8_at 0 input) : option VaultInstructionType) with
  | None => Err InvalidInstructionData
  | Some TUserInit => unpack_user_init input
  | Some TAddLiquidity => unpack_add_liquidity input
  | Some TLockLiquidity => unpack_lock_liquidity input
  | Some TUnlockLiquidity => unpack_unlock_liquidity input
  | Some TRemoveLiquidity => unpack_remove_liquidity input
  | Some TSetAdminSigners => unpack_set_admin_signers input
  | Some TRemoveMultisig => unpack_remove_multisig input
  | Some TSetMinCrankInterval => unpack_set_min_crank_interval input
  | Some TSetFee => unpack_set_fee input
  | Some TSetExternalFee => unpack_set_external_fee input
  | Some TDisableDeposits => unpack_disable_deposits input
  | Some TEnableDeposits => unpack_enable_deposits input
  | Some TDisableWithdrawals => unpack_disable_withdrawals input
  | Some TEnableWithdrawals => unpack_enable_withdrawals input
  | Some TCrank => unpack_crank input
  | Some TInit => unpack_init input
  | Some TShutdown => unpack_shutdown input
  | Some TWithdrawFees => unpack_withdraw_fees input
  end.

(** The source has no [get_size] here: the length each [pack_*] returns. *)
Definition vault_size (i : VaultInstruction) : nat :=
  match i with
  | UserInit => USER_INIT_LEN
  | AddLiquidity _ _ => ADD_LIQUIDITY_LEN
  | LockLiquidity _ => LOCK_LIQUIDITY_LEN
  | UnlockLiquidity _ => UNLOCK_LIQUIDITY_LEN
  | RemoveLiquidity _ => REMOVE_LIQUIDITY_LEN
  | SetAdminSigners _ => SET_ADMIN_SIGNERS_LEN
  | RemoveMultisig => REMOVE_MULTISIG_LEN
  | SetMinCrankInterval _ => SET_MIN_CRANK_INTERVAL_LEN
  | SetFee _ => SET_FEE_LEN
  | SetExternalFee _ => SET_EXTERNAL_FEE_LEN
  | DisableDeposits => DISABLE_DEPOSITS_LEN
  | EnableDeposits => ENABLE_DEPOSITS_LEN
  | DisableWithdrawals => DISABLE_WITHDRAWALS_LEN
  | EnableWithdrawals => ENABLE_WITHDRAWALS_LEN
  | Crank _ => CRANK_LEN
  | Init _ => INIT_LEN
  | Shutdown => SHUTDOWN_LEN
  | WithdrawFees _ => WITHDRAW_FEES_LEN
  end.

#[export] Instance Packed_vault_instruction : Packed VaultInstruction := {
  packed_size := vault_size; pack := pack_vault; unpack := unpack_vault }.

(** ** Facts *)

(** The arguments fit their integer types. *)
Definition valid_vault_instruction (i : VaultInstruction) : Prop :=
  match i with
  | AddLiquidity a b => is_u64 a /\ is_u64 b
  | LockLiquidity z | UnlockLiquidity z | RemoveLiquidity z | Crank z | Init z | WithdrawFees z => is_u64 z
  | SetMinCrankInterval z | SetFee z | SetExternalFee z => is_u32 z
  | SetAdminSigners z => is_u8 z
  | _ => True
  end.

Create HintDb vault_instruction.
#[export] Hint Unfold unpack_user_init unpack_add_liquidity unpack_lock_liquidity
  unpack_unlock_liquidity unpack_remove_liquidity unpack_set_admin_signers unpack_remove_multisig
  unpack_set_min_crank_interval unpack_set_fee unpack_set_external_fee unpack_disable_deposits
  unpack_enable_deposits unpack_disable_withdrawals unpack_enable_withdrawals unpack_crank
  unpack_init unpack_shutdown unpack_withdraw_fees : vault_instruction.

#[export] Instance PackedLaw_vault_instruction : PackedLaw VaultInstruction valid_vault_instruction.
Proof.
  split.
  - intros i output _ Hl. by destruct i; (eapply eq_trans; [apply (f_equal fst), check_output_short|]).
  - intros i Hi. destruct i; cbn [valid_vault_instruction] in Hi; destruct_and?;
      (eapply packs_fields; [intros n Hn; by apply check_output_zeros | reflexivity | total_length |]);
      intros input rest Hlen E; cbn [unpack Packed_vault_instruction]; unfold unpack_vault; rewrite Hlen by done;
      cbn [result_bind]; read_tag E; rewrite of_as_u8;
      autounfold with vault_instruction; decode Hlen E.
Qed.
