(* ===== verification/Token.v ===== *)
(** * Token metadata ([crates/solana_farm_sdk/src/token.rs]) *)

From S2P Require Import Prelude MachineInt Pack.

Inductive TokenType := NativeSol | WrappedSol | WrappedSollet | WrappedWarmhole | SplToken | LpToken | VtToken | FundToken.

#[export] Instance TokenType_primitive : Primitive TokenType.
Proof.
  refine {| variants := [NativeSol; WrappedSol; WrappedSollet; WrappedWarmhole; SplToken; LpToken; VtToken; FundToken] |}.
  - solve_decision.
  - intros []; set_solver.
Defined.

Inductive OracleType := Pyth | Chainlink | Unsupported.

#[export] Instance OracleType_primitive : Primitive OracleType.
Proof.
  refine {| variants := [Pyth; Chainlink; Unsupported] |}.
  - solve_decision.
  - intros []; set_solver.
Defined.

Record Token := {
  name : ArrayString64;
  description : ArrayString64;
  token_type : TokenType;
  refdb_index : option Z;
  refdb_counter : Z;
  decimals : Z;
  chain_id : Z;
  mint : Z;
  oracle_type : OracleType;
  oracle_account : option Z;
  description_account : Z;
}.

Section Token.
Context `{Utf8}.

Definition LEN : nat := 237.

Definition pack_token (x : Token) : Db nat :=
  check_output LEN
    (write_fields LEN
      [put_name x.(name); put_name x.(description); put_u8 (as_u8 x.(token_type));
       put_option_u32 x.(refdb_index); put_u16 x.(refdb_counter); put_u8 x.(decimals);
       put_u16 x.(chain_id); put_key x.(mint); put_u8 (as_u8 x.(oracle_type));
       put_option_key x.(oracle_account); put_key x.(description_account)]).

Definition unpack_token (input : list Z) : result ProgramError Token :=
  _ <-? check_data_len input LEN ;;
  run_get (name_ <-g get_name ;; description_ <-g get_name ;;
           token_type_ <-g get_enum InvalidAccountData ;; refdb_index_ <-g get_option_u32 ;;
           refdb_counter_ <-g get_u16 ;; decimals_ <-g get_u8 ;; chain_id_ <-g get_u16 ;;
           mint_ <-g get_key ;; oracle_type_ <-g get_enum InvalidAccountData ;;
           oracle_account_ <-g get_option_key ;; description_account_ <-g get_key ;;
           get_ret {| name := name_; description := description_; token_type := token_type_;
                    refdb_index := refdb_index_; refdb_counter := refdb_counter_;
                    decimals := decimals_; chain_id := chain_id_; mint := mint_;
                    oracle_type := oracle_type_; oracle_account := oracle_account_;
                    description_account := description_account_ |}) input.

#[export] Instance Packed_token : Packed Token := {
  packed_size := fun _ => LEN; pack := pack_token; unpack := unpack_token }.

Definition to_vec (x : Token) : option (result ProgramError (list Z)) :=
  to_vec_with LEN InvalidAccountData (pack_token x).

Definition valid_token (x : Token) : Prop :=
  valid_name x.(name) /\
  valid_name x.(description) /\
  option_all is_u32 x.(refdb_index) /\
  is_u16 x.(refdb_counter) /\
  is_u8 x.(decimals) /\
  is_u16 x.(chain_id) /\
  is_key x.(mint) /\
  option_all is_key x.(oracle_account) /\
  is_key x.(description_account).

#[export] Instance PackedLaw_token : PackedLaw Token valid_token.
Proof.
  split.
  - intros x output _ Hl. eapply eq_trans; [by apply (f_equal fst), check_output_short | done].
  - intros x Hx. unfold valid_token in Hx. destruct_and?.
    eapply packs_fields; [intros n Hn; by apply check_output_zeros | reflexivity | total_length |].
    intros input rest Hlen E. cbn [unpack Packed_token]. unfold unpack_token.
    rewrite Hlen by done. cbn [result_bind]. get_back E. by destruct x.
Qed.
End Token.
