(* ===== verification/Pool.v ===== *)
(** * Pool metadata ([crates/solana_farm_sdk/src/pool.rs]) *)

From S2P Require Import Prelude MachineInt Pack.

Inductive PoolType := Amm | AmmStable.

#[global] Instance PoolType_primitive : Primitive PoolType.
Proof.
  refine {| variants := [Amm; AmmStable] |}.
  - solve_decision.
  - intros []; set_solver.
Defined.

Inductive PoolRoute :=
| Raydium (amm_id amm_authority amm_open_orders amm_target pool_withdraw_queue pool_temp_lp_token_account serum_program_id serum_market serum_coin_vault_account serum_pc_vault_account serum_vault_signer : Z) (serum_bids serum_asks serum_event_queue : option Z)
| Orca (amm_id amm_authority fees_account : Z).

Inductive PoolRouteType := TRaydium | TOrca.

#[global] Instance PoolRouteType_primitive : Primitive PoolRouteType.
Proof.
  refine {| variants := [TRaydium; TOrca] |}.
  - solve_decision.
  - intros []; set_solver.
Defined.

Record Pool := {
  name : ArrayString64;
  version : Z;
  pool_type : PoolType;
  official : bool;
  refdb_index : option Z;
  refdb_counter : Z;
  token_a_ref : option Z;
  token_b_ref : option Z;
  lp_token_ref : option Z;
  token_a_account : option Z;
  token_b_account : option Z;
  router_program_id : Z;
  pool_program_id : Z;
  route : PoolRoute;
}.

Definition MAX_LEN : nat := 756.
Definition RAYDIUM_POOL_LEN : nat := 756.
Definition ORCA_POOL_LEN : nat := 401.

Section Pool.
Context `{Utf8}.

Definition pack_raydium (x : Pool) : Db nat :=
  check_output RAYDIUM_POOL_LEN
    match x.(route) with
    | Raydium amm_id amm_authority amm_open_orders amm_target pool_withdraw_queue
        pool_temp_lp_token_account serum_program_id serum_market serum_coin_vault_account
        serum_pc_vault_account serum_vault_signer serum_bids serum_asks serum_event_queue =>
        write_fields RAYDIUM_POOL_LEN
          [put_u8 (as_u8 TRaydium); put_name x.(name); put_u16 x.(version);
           put_u8 (as_u8 x.(pool_type)); put_bool x.(official); put_option_u32 x.(refdb_index);
           put_u16 x.(refdb_counter); put_option_key x.(token_a_ref);
           put_option_key x.(token_b_ref); put_option_key x.(lp_token_ref);
           put_option_key x.(token_a_account); put_option_key x.(token_b_account);
           put_key x.(router_program_id); put_key x.(pool_program_id); put_key amm_id;
           put_key amm_authority; put_key amm_open_orders; put_key amm_target;
           put_key pool_withdraw_queue; put_key pool_temp_lp_token_account;
           put_key serum_program_id; put_key serum_market; put_key serum_coin_vault_account;
           put_key serum_pc_vault_account; put_key serum_vault_signer; put_option_key serum_bids;
           put_option_key serum_asks; put_option_key serum_event_queue]
    | _ => st_bail InvalidAccountData
    end.

Definition pack_orca (x : Pool) : Db nat :=
  check_output ORCA_POOL_LEN
    match x.(route) with
    | Orca amm_id amm_authority fees_account =>
        write_fields ORCA_POOL_LEN
          [put_u8 (as_u8 TOrca); put_name x.(name); put_u16 x.(version);
           put_u8 (as_u8 x.(pool_type)); put_bool x.(official); put_option_u32 x.(refdb_index);
           put_u16 x.(refdb_counter); put_option_key x.(token_a_ref);
           put_option_key x.(token_b_ref); put_option_key x.(lp_token_ref);
           put_option_key x.(token_a_account); put_option_key x.(token_b_account);
           put_key x.(router_program_id); put_key x.(pool_program_id); put_key amm_id;
           put_key amm_authority; put_key fees_account]
    | _ => st_bail InvalidAccountData
    end.

Definition unpack_raydium (input : list Z) : result ProgramError Pool :=
  _ <-? check_data_len input RAYDIUM_POOL_LEN ;;
  run_get (name_ <-g get_name ;; version_ <-g get_u16 ;;
           pool_type_ <-g get_enum InvalidAccountData ;; official_ <-g get_bool ;;
           refdb_index_ <-g get_option_u32 ;; refdb_counter_ <-g get_u16 ;;
           token_a_ref_ <-g get_option_key ;; token_b_ref_ <-g get_option_key ;;
           lp_token_ref_ <-g get_option_key ;; token_a_account_ <-g get_option_key ;;
           token_b_account_ <-g get_option_key ;; router_program_id_ <-g get_key ;;
           pool_program_id_ <-g get_key ;; amm_id_ <-g get_key ;; amm_authority_ <-g get_key ;;
           amm_open_orders_ <-g get_key ;; amm_target_ <-g get_key ;;
           pool_withdraw_queue_ <-g get_key ;; pool_temp_lp_token_account_ <-g get_key ;;
           serum_program_id_ <-g get_key ;; serum_market_ <-g get_key ;;
           serum_coin_vault_account_ <-g get_key ;; serum_pc_vault_account_ <-g get_key ;;
           serum_vault_signer_ <-g get_key ;; serum_bids_ <-g get_option_key ;;
           serum_asks_ <-g get_option_key ;; serum_event_queue_ <-g get_option_key ;;
           get_ret {| name := name_; version := version_; pool_type := pool_type_;
                    official := official_; refdb_index := refdb_index_;
                    refdb_counter := refdb_counter_; token_a_ref := token_a_ref_;
                    token_b_ref := token_b_ref_; lp_token_ref := lp_token_ref_;
                    token_a_account := token_a_account_; token_b_account := token_b_account_;
                    router_program_id := router_program_id_; pool_program_id := pool_program_id_;
                    route := Raydium amm_id_ amm_authority_ amm_open_orders_ amm_target_
                      pool_withdraw_queue_ pool_temp_lp_token_account_ serum_program_id_
                      serum_market_ serum_coin_vault_account_ serum_pc_vault_account_
                      serum_vault_signer_ serum_bids_ serum_asks_ serum_event_queue_ |}) (drop 1 input).

Definition unpack_orca (input : list Z) : result ProgramError Pool :=
  _ <-? check_data_len input ORCA_POOL_LEN ;;
  run_get (name_ <-g get_name ;; version_ <-g get_u16 ;;
           pool_type_ <-g get_enum InvalidAccountData ;; official_ <-g get_bool ;;
           refdb_index_ <-g get_option_u32 ;; refdb_counter_ <-g get_u16 ;;
           token_a_ref_ <-g get_option_key ;; token_b_ref_ <-g get_option_key ;;
           lp_token_ref_ <-g get_option_key ;; token_a_account_ <-g get_option_key ;;
           token_b_account_ <-g get_option_key ;; router_program_id_ <-g get_key ;;
           pool_program_id_ <-g get_key ;; amm_id_ <-g get_key ;; amm_authority_ <-g get_key ;;
           fees_account_ <-g get_key ;;
           get_ret {| name := name_; version := version_; pool_type := pool_type_;
                    official := official_; refdb_index := refdb_index_;
                    refdb_counter := refdb_counter_; token_a_ref := token_a_ref_;
                    token_b_ref := token_b_ref_; lp_token_ref := lp_token_ref_;
                    token_a_account := token_a_account_; token_b_account := token_b_account_;
                    router_program_id := router_program_id_; pool_program_id := pool_program_id_;
                    route := Orca amm_id_ amm_authority_ fees_account_ |}) (drop 1 input).

Definition get_size (x : Pool) : nat :=
  match x.(route) with
  | Raydium _ _ _ _ _ _ _ _ _ _ _ _ _ _ => RAYDIUM_POOL_LEN
  | Orca _ _ _ => ORCA_POOL_LEN
  end.

Definition pack_pool (x : Pool) : Db nat :=
  match x.(route) with
  | Raydium _ _ _ _ _ _ _ _ _ _ _ _ _ _ => pack_raydium x
  | Orca _ _ _ => pack_orca x
  end.

Definition to_vec (x : Pool) : option (result ProgramError (list Z)) :=
  to_vec_with MAX_LEN InvalidAccountData (pack_pool x).

Definition unpack_pool (input : list Z) : result ProgramError Pool :=
  _ <-? check_data_len input 1 ;;
  match (of_u8 (u8_at 0 input) : option PoolRouteType) with
  | None => Err InvalidAccountData
  | Some TRaydium => unpack_raydium input
  | Some TOrca => unpack_orca input
  end.

#[export] Instance Packed_pool : Packed Pool := {
  packed_size := get_size; pack := pack_pool; unpack := unpack_pool }.

Definition valid_pool (x : Pool) : Prop :=
  valid_name x.(name) /\
  is_u16 x.(version) /\
  option_all is_u32 x.(refdb_index) /\
  is_u16 x.(refdb_counter) /\
  option_all is_key x.(token_a_ref) /\
  option_all is_key x.(token_b_ref) /\
  option_all is_key x.(lp_token_ref) /\
  option_all is_key x.(token_a_account) /\
  option_all is_key x.(token_b_account) /\
  is_key x.(router_program_id) /\
  is_key x.(pool_program_id) /\
  match x.(route) with
  | Raydium amm_id amm_authority amm_open_orders amm_target pool_withdraw_queue
      pool_temp_lp_token_account serum_program_id serum_market serum_coin_vault_account
      serum_pc_vault_account serum_vault_signer serum_bids serum_asks serum_event_queue =>
      is_key amm_id /\
      is_key amm_authority /\
      is_key amm_open_orders /\
      is_key amm_target /\
      is_key pool_withdraw_queue /\
      is_key pool_temp_lp_token_account /\
      is_key serum_program_id /\
      is_key serum_market /\
      is_key serum_coin_vault_account /\
      is_key serum_pc_vault_account /\
      is_key serum_vault_signer /\
      option_all is_key serum_bids /\
      option_all is_key serum_asks /\
      option_all is_key serum_event_queue
  | Orca amm_id amm_authority fees_account =>
      is_key amm_id /\
      is_key amm_authority /\
      is_key fees_account
  end.

#[export] Instance PackedLaw_pool : PackedLaw Pool valid_pool.
Proof.
  split.
  - intros x output Hx Hl. cbn [pack packed_size Packed_pool] in *.
    unfold valid_pool, get_size, pack_pool in *.
    destruct x.(route); destruct_and?; try done;
      (eapply eq_trans; [by apply (f_equal fst), check_output_short | done]).
  - intros x Hx. unfold valid_pool in Hx. destruct x.(route) eqn:Er; destruct_and?; try done;
      (assert (packed_size x = _) as Hsize by (cbn [packed_size Packed_pool]; unfold get_size; rewrite Er; reflexivity);
       eapply packs_fields;
       [intros n; rewrite Hsize; cbn [pack Packed_pool]; unfold pack_pool; rewrite Er;
        unfold pack_raydium, pack_orca; rewrite Er; intros Hn; by apply check_output_zeros
       | by rewrite Hsize | rewrite Hsize; total_length |]);
      intros input rest Hlen E; rewrite Hsize in Hlen; cbn [unpack Packed_pool]; unfold unpack_pool;
      rewrite Hlen by done; cbn [result_bind]; read_tag E; rewrite of_as_u8;
      unfold unpack_raydium, unpack_orca; rewrite Hlen by done; cbn [result_bind];
      get_back E; destruct x; cbn in *; by subst.
Qed.
End Pool.
