(* ===== verification/Farm.v ===== *)
(** * Farm metadata ([crates/solana_farm_sdk/src/farm.rs]) *)

From S2P Require Import Prelude MachineInt Pack.

Inductive FarmType := SingleReward | DualReward | ProtocolTokenStake.

#[global] Instance FarmType_primitive : Primitive FarmType.
Proof.
  refine {| variants := [SingleReward; DualReward; ProtocolTokenStake] |}.
  - solve_decision.
  - intros []; set_solver.
Defined.

Inductive FarmRoute :=
| Raydium (farm_id farm_authority farm_lp_token_account farm_first_reward_token_account : Z) (farm_second_reward_token_account : option Z)
| Orca (farm_id farm_authority farm_token_ref base_token_vault reward_token_vault : Z).

Inductive FarmRouteType := TRaydium | TOrca.

#[global] Instance FarmRouteType_primitive : Primitive FarmRouteType.
Proof.
  refine {| variants := [TRaydium; TOrca] |}.
  - solve_decision.
  - intros []; set_solver.
Defined.

Record Farm := {
  name : ArrayString64;
  version : Z;
  farm_type : FarmType;
  official : bool;
  refdb_index : option Z;
  refdb_counter : Z;
  lp_token_ref : option Z;
  first_reward_token_ref : option Z;
  second_reward_token_ref : option Z;
  router_program_id : Z;
  farm_program_id : Z;
  route : FarmRoute;
}.

Definition MAX_LEN : nat := 655.
Definition RAYDIUM_FARM_LEN : nat := 400.
Definition ORCA_FARM_LEN : nat := 399.

Section Farm.
Context `{Utf8}.

Definition pack_raydium (x : Farm) : Db nat :=
  check_output RAYDIUM_FARM_LEN
    match x.(route) with
    | Raydium farm_id farm_authority farm_lp_token_account farm_first_reward_token_account
        farm_second_reward_token_account =>
        write_fields RAYDIUM_FARM_LEN
          [put_u8 (as_u8 TRaydium); put_name x.(name); put_u16 x.(version);
           put_u8 (as_u8 x.(farm_type)); put_bool x.(official); put_option_u32 x.(refdb_index);
           put_u16 x.(refdb_counter); put_option_key x.(lp_token_ref);
           put_option_key x.(first_reward_token_ref); put_option_key x.(second_reward_token_ref);
           put_key x.(router_program_id); put_key x.(farm_program_id); put_key farm_id;
           put_key farm_authority; put_key farm_lp_token_account;
           put_key farm_first_reward_token_account; put_option_key farm_second_reward_token_account]
    | _ => st_bail InvalidAccountData
    end.

Definition pack_orca (x : Farm) : Db nat :=
  check_output ORCA_FARM_LEN
    match x.(route) with
    | Orca farm_id farm_authority farm_token_ref base_token_vault reward_token_vault =>
        write_fields ORCA_FARM_LEN
          [put_u8 (as_u8 TOrca); put_name x.(name); put_u16 x.(version);
           put_u8 (as_u8 x.(farm_type)); put_bool x.(official); put_option_u32 x.(refdb_index);
           put_u16 x.(refdb_counter); put_option_key x.(lp_token_ref);
           put_option_key x.(first_reward_token_ref); put_option_key x.(second_reward_token_ref);
           put_key x.(router_program_id); put_key x.(farm_program_id); put_key farm_id;
           put_key farm_authority; put_key farm_token_ref; put_key base_token_vault;
           put_key reward_token_vault]
    | _ => st_bail InvalidAccountData
    end.

Definition unpack_raydium (input : list Z) : result ProgramError Farm :=
  _ <-? check_data_len input RAYDIUM_FARM_LEN ;;
  run_get (name_ <-g get_name ;; version_ <-g get_u16 ;;
           farm_type_ <-g get_enum InvalidAccountData ;; official_ <-g get_bool ;;
           refdb_index_ <-g get_option_u32 ;; refdb_counter_ <-g get_u16 ;;
           lp_token_ref_ <-g get_option_key ;; first_reward_token_ref_ <-g get_option_key ;;
           second_reward_token_ref_ <-g get_option_key ;; router_program_id_ <-g get_key ;;
           farm_program_id_ <-g get_key ;; farm_id_ <-g get_key ;; farm_authority_ <-g get_key ;;
           farm_lp_token_account_ <-g get_key ;; farm_first_reward_token_account_ <-g get_key ;;
           farm_second_reward_token_account_ <-g get_option_key ;;
           get_ret {| name := name_; version := version_; farm_type := farm_type_;
                    official := official_; refdb_index := refdb_index_;
                    refdb_counter := refdb_counter_; lp_token_ref := lp_token_ref_;
                    first_reward_token_ref := first_reward_token_ref_;
                    second_reward_token_ref := second_reward_token_ref_;
                    router_program_id := router_program_id_; farm_program_id := farm_program_id_;
                    route := Raydium farm_id_ farm_authority_ farm_lp_token_account_ farm_first_reward_token_account_
                      farm_second_reward_token_account_ |}) (drop 1 input).

Definition unpack_orca (input : list Z) : result ProgramError Farm :=
  _ <-? check_data_len input ORCA_FARM_LEN ;;
  run_get (name_ <-g get_name ;; version_ <-g get_u16 ;;
           farm_type_ <-g get_enum InvalidAccountData ;; official_ <-g get_bool ;;
           refdb_index_ <-g get_option_u32 ;; refdb_counter_ <-g get_u16 ;;
           lp_token_ref_ <-g get_option_key ;; first_reward_token_ref_ <-g get_option_key ;;
           second_reward_token_ref_ <-g get_option_key ;; router_program_id_ <-g get_key ;;
           farm_program_id_ <-g get_key ;; farm_id_ <-g get_key ;; farm_authority_ <-g get_key ;;
           farm_token_ref_ <-g get_key ;; base_token_vault_ <-g get_key ;;
           reward_token_vault_ <-g get_key ;;
           get_ret {| name := name_; version := version_; farm_type := farm_type_;
                    official := official_; refdb_index := refdb_index_;
                    refdb_counter := refdb_counter_; lp_token_ref := lp_token_ref_;
                    first_reward_token_ref := first_reward_token_ref_;
                    second_reward_token_ref := second_reward_token_ref_;
                    router_program_id := router_program_id_; farm_program_id := farm_program_id_;
                    route := Orca farm_id_ farm_authority_ farm_token_ref_ base_token_vault_
                      reward_token_vault_ |}) (drop 1 input).

Definition get_size (x : Farm) : nat :=
  match x.(route) with
  | Raydium _ _ _ _ _ => RAYDIUM_FARM_LEN
  | Orca _ _ _ _ _ => ORCA_FARM_LEN
  end.

Definition pack_farm (x : Farm) : Db nat :=
  match x.(route) with
  | Raydium _ _ _ _ _ => pack_raydium x
  | Orca _ _ _ _ _ => pack_orca x
  end.

Definition to_vec (x : Farm) : option (result ProgramError (list Z)) :=
  to_vec_with MAX_LEN InvalidAccountData (pack_farm x).

Definition unpack_farm (input : list Z) : result ProgramError Farm :=
  _ <-? check_data_len input 1 ;;
  match (of_u8 (u8_at 0 input) : option FarmRouteType) with
  | None => Err InvalidAccountData
  | Some TRaydium => unpack_raydium input
  | Some TOrca => unpack_orca input
  end.

#[export] Instance Packed_farm : Packed Farm := {
  packed_size := get_size; pack := pack_farm; unpack := unpack_farm }.

Definition valid_farm (x : Farm) : Prop :=
  valid_name x.(name) /\
  is_u16 x.(version) /\
  option_all is_u32 x.(refdb_index) /\
  is_u16 x.(refdb_counter) /\
  option_all is_key x.(lp_token_ref) /\
  option_all is_key x.(first_reward_token_ref) /\
  option_all is_key x.(second_reward_token_ref) /\
  is_key x.(router_program_id) /\
  is_key x.(farm_program_id) /\
  match x.(route) with
  | Raydium farm_id farm_authority farm_lp_token_account farm_first_reward_token_account
      farm_second_reward_token_account =>
      is_key farm_id /\
      is_key farm_authority /\
      is_key farm_lp_token_account /\
      is_key farm_first_reward_token_account /\
      option_all is_key farm_second_reward_token_account
  | Orca farm_id farm_authority farm_token_ref base_token_vault reward_token_vault =>
      is_key farm_id /\
      is_key farm_authority /\
      is_key farm_token_ref /\
      is_key base_token_vault /\
      is_key reward_token_vault
  end.

#[export] Instance PackedLaw_farm : PackedLaw Farm valid_farm.
Proof.
  split.
  - intros x output Hx Hl. cbn [pack packed_size Packed_farm] in *.
    unfold valid_farm, get_size, pack_farm in *.
    destruct x.(route); destruct_and?; try done;
      (eapply eq_trans; [by apply (f_equal fst), check_output_short | done]).
  - intros x Hx. unfold valid_farm in Hx. destruct x.(route) eqn:Er; destruct_and?; try done;
      (assert (packed_size x = _) as Hsize by (cbn [packed_size Packed_farm]; unfold get_size; rewrite Er; reflexivity);
       eapply packs_fields;
       [intros n; rewrite Hsize; cbn [pack Packed_farm]; unfold pack_farm; rewrite Er;
        unfold pack_raydium, pack_orca; rewrite Er; intros Hn; by apply check_output_zeros
       | by rewrite Hsize | rewrite Hsize; total_length |]);
      intros input rest Hlen E; rewrite Hsize in Hlen; cbn [unpack Packed_farm]; unfold unpack_farm;
      rewrite Hlen by done; cbn [result_bind]; read_tag E; rewrite of_as_u8;
      unfold unpack_raydium, unpack_orca; rewrite Hlen by done; cbn [result_bind];
      get_back E; destruct x; cbn in *; by subst.
Qed.
End Farm.
