(* ===== verification/Vault.v ===== *)
(** * Vault metadata ([crates/solana_farm_sdk/src/vault.rs])

    The [DynamicHedge] strategy can be neither packed nor unpacked. *)

From S2P Require Import Prelude MachineInt Pack.

Inductive VaultType := AmmStake.

#[global] Instance VaultType_primitive : Primitive VaultType.
Proof.
  refine {| variants := [AmmStake] |}.
  - solve_decision.
  - intros []; set_solver.
Defined.

Inductive VaultStrategy :=
| StakeLpCompoundRewards (pool_router_id pool_id pool_ref farm_router_id farm_id farm_ref lp_token_custody token_a_custody : Z) (token_b_custody : option Z) (token_a_reward_custody : Z) (token_b_reward_custody : option Z) (vault_stake_info : Z) (vault_stake_custody reward_exchange_pool_id reward_exchange_pool_ref : option Z)
| DynamicHedge.

Inductive VaultStrategyType := TStakeLpCompoundRewards | TDynamicHedge.

#[global] Instance VaultStrategyType_primitive : Primitive VaultStrategyType.
Proof.
  refine {| variants := [TStakeLpCompoundRewards; TDynamicHedge] |}.
  - solve_decision.
  - intros []; set_solver.
Defined.

Record Vault := {
  name : ArrayString64;
  version : Z;
  vault_type : VaultType;
  official : bool;
  refdb_index : option Z;
  refdb_counter : Z;
  metadata_bump : Z;
  authority_bump : Z;
  vault_token_bump : Z;
  lock_required : bool;
  unlock_required : bool;
  vault_program_id : Z;
  vault_authority : Z;
  vault_token_ref : Z;
  info_account : Z;
  multisig_account : Z;
  fees_account_a : option Z;
  fees_account_b : option Z;
  strategy : VaultStrategy;
}.

Definition MAX_LEN : nat := 792.
Definition STAKE_LP_COMPOUND_REWARDS_LEN : nat := 792.
Definition DYNAMIC_HEDGE_LEN : nat := 1.

Section Vault.
Context `{Utf8}.

Definition pack_stake_lp_compound_rewards (x : Vault) : Db nat :=
  check_output STAKE_LP_COMPOUND_REWARDS_LEN
    match x.(strategy) with
    | StakeLpCompoundRewards pool_router_id pool_id pool_ref farm_router_id farm_id farm_ref
        lp_token_custody token_a_custody token_b_custody token_a_reward_custody
        token_b_reward_custody vault_stake_info vault_stake_custody reward_exchange_pool_id
        reward_exchange_pool_ref =>
        write_fields STAKE_LP_COMPOUND_REWARDS_LEN
          [put_u8 (as_u8 TStakeLpCompoundRewards); put_name x.(name); put_u16 x.(version);
           put_u8 (as_u8 x.(vault_type)); put_bool x.(official); put_option_u32 x.(refdb_index);
           put_u16 x.(refdb_counter); put_u8 x.(metadata_bump); put_u8 x.(authority_bump);
           put_u8 x.(vault_token_bump); put_bool x.(lock_required); put_bool x.(unlock_required);
           put_key x.(vault_program_id); put_key x.(vault_authority); put_key x.(vault_token_ref);
           put_key x.(info_account); put_key x.(multisig_account);
           put_option_key x.(fees_account_a); put_option_key x.(fees_account_b);
           put_key pool_router_id; put_key pool_id; put_key pool_ref; put_key farm_router_id;
           put_key farm_id; put_key farm_ref; put_key lp_token_custody; put_key token_a_custody;
           put_option_key token_b_custody; put_key token_a_reward_custody;
           put_option_key token_b_reward_custody; put_key vault_stake_info;
           put_option_key vault_stake_custody; put_option_key reward_exchange_pool_id;
           put_option_key reward_exchange_pool_ref]
    | _ => st_bail InvalidAccountData
    end.

Definition unpack_stake_lp_compound_rewards (input : list Z) : result ProgramError Vault :=
  _ <-? check_data_len input STAKE_LP_COMPOUND_REWARDS_LEN ;;
  run_get (name_ <-g get_name ;; version_ <-g get_u16 ;;
           vault_type_ <-g get_enum InvalidAccountData ;; official_ <-g get_bool ;;
           refdb_index_ <-g get_option_u32 ;; refdb_counter_ <-g get_u16 ;;
           metadata_bump_ <-g get_u8 ;; authority_bump_ <-g get_u8 ;;
           vault_token_bump_ <-g get_u8 ;; lock_required_ <-g get_bool ;;
           unlock_required_ <-g get_bool ;; vault_program_id_ <-g get_key ;;
           vault_authority_ <-g get_key ;; vault_token_ref_ <-g get_key ;;
           info_account_ <-g get_key ;; multisig_account_ <-g get_key ;;
           fees_account_a_ <-g get_option_key ;; fees_account_b_ <-g get_option_key ;;
           pool_router_id_ <-g get_key ;; pool_id_ <-g get_key ;; pool_ref_ <-g get_key ;;
           farm_router_id_ <-g get_key ;; farm_id_ <-g get_key ;; farm_ref_ <-g get_key ;;
           lp_token_custody_ <-g get_key ;; token_a_custody_ <-g get_key ;;
           token_b_custody_ <-g get_option_key ;; token_a_reward_custody_ <-g get_key ;;
           token_b_reward_custody_ <-g get_option_key ;; vault_stake_info_ <-g get_key ;;
           vault_stake_custody_ <-g get_option_key ;; reward_exchange_pool_id_ <-g get_option_key ;;
           reward_exchange_pool_ref_ <-g get_option_key ;;
           get_ret {| name := name_; version := version_; vault_type := vault_type_;
                    official := official_; refdb_index := refdb_index_;
                    refdb_counter := refdb_counter_; metadata_bump := metadata_bump_;
                    authority_bump := authority_bump_; vault_token_bump := vault_token_bump_;
                    lock_required := lock_required_; unlock_required := unlock_required_;
                    vault_program_id := vault_program_id_; vault_authority := vault_authority_;
                    vault_token_ref := vault_token_ref_; info_account := info_account_;
                    multisig_account := multisig_account_; fees_account_a := fees_account_a_;
                    fees_account_b := fees_account_b_;
                    strategy := StakeLpCompoundRewards pool_router_id_ pool_id_ pool_ref_ farm_router_id_
                      farm_id_ farm_ref_ lp_token_custody_ token_a_custody_ token_b_custody_
                      token_a_reward_custody_ token_b_reward_custody_ vault_stake_info_
                      vault_stake_custody_ reward_exchange_pool_id_ reward_exchange_pool_ref_ |}) (drop 1 input).

Definition get_size (x : Vault) : nat :=
  match x.(strategy) with
  | StakeLpCompoundRewards _ _ _ _ _ _ _ _ _ _ _ _ _ _ _ => STAKE_LP_COMPOUND_REWARDS_LEN
  | DynamicHedge => DYNAMIC_HEDGE_LEN
  end.

Definition pack_vault_metadata (x : Vault) : Db nat :=
  match x.(strategy) with
  | StakeLpCompoundRewards _ _ _ _ _ _ _ _ _ _ _ _ _ _ _ => pack_stake_lp_compound_rewards x
  | DynamicHedge => st_bail UnsupportedSysvar
  end.

Definition to_vec (x : Vault) : option (result ProgramError (list Z)) :=
  to_vec_with MAX_LEN InvalidAccountData (pack_vault_metadata x).

Definition unpack_vault_metadata (input : list Z) : result ProgramError Vault :=
  _ <-? check_data_len input 1 ;;
  match (of_u8 (u8_at 0 input) : option VaultStrategyType) with
  | None => Err InvalidAccountData
  | Some TStakeLpCompoundRewards => unpack_stake_lp_compound_rewards input
  | Some TDynamicHedge => Err UnsupportedSysvar
  end.

#[export] Instance Packed_vault_metadata : Packed Vault := {
  packed_size := get_size; pack := pack_vault_metadata; unpack := unpack_vault_metadata }.

Definition valid_vault_metadata (x : Vault) : Prop :=
  valid_name x.(name) /\
  is_u16 x.(version) /\
  option_all is_u32 x.(refdb_index) /\
  is_u16 x.(refdb_counter) /\
  is_u8 x.(metadata_bump) /\
  is_u8 x.(authority_bump) /\
  is_u8 x.(vault_token_bump) /\
  is_key x.(vault_program_id) /\
  is_key x.(vault_authority) /\
  is_key x.(vault_token_ref) /\
  is_key x.(info_account) /\
  is_key x.(multisig_account) /\
  option_all is_key x.(fees_account_a) /\
  option_all is_key x.(fees_account_b) /\
  match x.(strategy) with
  | StakeLpCompoundRewards pool_router_id pool_id pool_ref farm_router_id farm_id farm_ref
      lp_token_custody token_a_custody token_b_custody token_a_reward_custody token_b_reward_custody
      vault_stake_info vault_stake_custody reward_exchange_pool_id reward_exchange_pool_ref =>
      is_key pool_router_id /\
      is_key pool_id /\
      is_key pool_ref /\
      is_key farm_router_id /\
      is_key farm_id /\
      is_key farm_ref /\
      is_key lp_token_custody /\
      is_key token_a_custody /\
      option_all is_key token_b_custody /\
      is_key token_a_reward_custody /\
      option_all is_key token_b_reward_custody /\
      is_key vault_stake_info /\
      option_all is_key vault_stake_custody /\
      option_all is_key reward_exchange_pool_id /\
      option_all is_key reward_exchange_pool_ref
  | DynamicHedge => False
  end.

#[export] Instance PackedLaw_vault_metadata : PackedLaw Vault valid_vault_metadata.
Proof.
  split.
  - intros x output Hx Hl. cbn [pack packed_size Packed_vault_metadata] in *.
    unfold valid_vault_metadata, get_size, pack_vault_metadata in *.
    destruct x.(strategy); destruct_and?; try done;
      (eapply eq_trans; [by apply (f_equal fst), check_output_short | done]).
  - intros x Hx. unfold valid_vault_metadata in Hx. destruct x.(strategy) eqn:Er; destruct_and?; try done;
      (assert (packed_size x = _) as Hsize by (cbn [packed_size Packed_vault_metadata]; unfold get_size; rewrite Er; reflexivity);
       eapply packs_fields;
       [intros n; rewrite Hsize; cbn [pack Packed_vault_metadata]; unfold pack_vault_metadata; rewrite Er;
        unfold pack_stake_lp_compound_rewards; rewrite Er; intros Hn; by apply check_output_zeros
       | by rewrite Hsize | rewrite Hsize; total_length |]);
      intros input rest Hlen E; rewrite Hsize in Hlen; cbn [unpack Packed_vault_metadata]; unfold unpack_vault_metadata;
      rewrite Hlen by done; cbn [result_bind]; read_tag E; rewrite of_as_u8;
      unfold unpack_stake_lp_compound_rewards; rewrite Hlen by done; cbn [result_bind];
      get_back E; destruct x; cbn in *; by subst.
Qed.
End Vault.
