(* ===== verification/Fund.v ===== *)
(** * Fund metadata ([crates/solana_farm_sdk/src/fund.rs])

    One module for each packed struct, with the struct as [t].  Times are [i64];
    an amount in dollars is an [f64], here its bit pattern. *)

From S2P Require Import Prelude MachineInt Pack.

Inductive FundType := General.

#[global] Instance FundType_primitive : Primitive FundType.
Proof.
  refine {| variants := [General] |}.
  - solve_decision.
  - intros []; set_solver.
Defined.

Inductive FundAssetType := AssetVault | AssetCustody.

#[global] Instance FundAssetType_primitive : Primitive FundAssetType.
Proof.
  refine {| variants := [AssetVault; AssetCustody] |}.
  - solve_decision.
  - intros []; set_solver.
Defined.

Inductive FundCustodyType := DepositWithdraw | Trading.

#[global] Instance FundCustodyType_primitive : Primitive FundCustodyType.
Proof.
  refine {| variants := [DepositWithdraw; Trading] |}.
  - solve_decision.
  - intros []; set_solver.
Defined.

Inductive FundVaultType := TypePool | TypeFarm | TypeVault.

#[global] Instance FundVaultType_primitive : Primitive FundVaultType.
Proof.
  refine {| variants := [TypePool; TypeFarm; TypeVault] |}.
  - solve_decision.
  - intros []; set_solver.
Defined.

Record FundSchedule := {
  start_time : Z;
  end_time : Z;
  approval_required : bool;
  min_amount_usd : Z;
  max_amount_usd : Z;
  fee : Z;
}.

Record FundAssetsTrackingConfig := {
  assets_limit_usd : Z;
  max_update_age_sec : Z;
  max_price_error : Z;
  max_price_age_sec : Z;
  issue_virtual_tokens : bool;
}.

Module FundUserAction.
Record t := {
  time : Z;
  amount : Z;
}.

Section Packing.
Definition LEN : nat := 16.

Definition pack_user_action (x : t) : Db nat :=
  check_output LEN
    (write_fields LEN
      [put_i64 x.(time); put_u64 x.(amount)]).

Definition unpack_user_action (input : list Z) : result ProgramError t :=
  _ <-? check_data_len input LEN ;;
  run_get (time_ <-g get_i64 ;; amount_ <-g get_u64 ;;
           get_ret {| time := time_; amount := amount_ |}) input.

#[global] Instance Packed_user_action : Packed t := {
  packed_size := fun _ => LEN; pack := pack_user_action; unpack := unpack_user_action }.

Definition to_vec (x : t) : option (result ProgramError (list Z)) :=
  to_vec_with LEN InvalidAccountData (pack_user_action x).

Definition valid_user_action (x : t) : Prop :=
  is_i64 x.(time) /\
  is_u64 x.(amount).

#[global] Instance PackedLaw_user_action : PackedLaw t valid_user_action.
Proof.
  split.
  - intros x output _ Hl. eapply eq_trans; [by apply (f_equal fst), check_output_short | done].
  - intros x Hx. unfold valid_user_action in Hx. destruct_and?.
    eapply packs_fields; [intros n Hn; by apply check_output_zeros | reflexivity | total_length |].
    intros input rest Hlen E. cbn [unpack Packed_user_action]. unfold unpack_user_action.
    rewrite Hlen by done. cbn [result_bind]. get_back E. by destruct x.
Qed.
End Packing.
End FundUserAction.

(** The part of [FundUserRequests] an action is packed into is as long as it: the
    [?] behind its [pack] is never taken. *)
Definition put_action (a : FundUserAction.t) : Field :=
  (FundUserAction.LEN, fun old => snd (FundUserAction.pack_user_action a old)).

Definition get_action : Get FundUserAction.t := get_with FundUserAction.LEN FundUserAction.unpack_user_action.

Definition action_bytes (a : FundUserAction.t) : list Z :=
  to_le_bytes 8 a.(FundUserAction.time) ++ to_le_bytes 8 a.(FundUserAction.amount).

Abbreviation valid_action := FundUserAction.valid_user_action (only parsing).

Lemma put_action_zeros a : snd (put_action a) (replicate 16 0) = action_bytes a.
Proof. reflexivity. Qed.

Lemma action_length a : length (action_bytes a) = 16%nat.
Proof. reflexivity. Qed.

Lemma get_action_eq a rest : valid_action a -> get_action (action_bytes a ++ rest) = Ok (a, rest).
Proof.
  intros (Ht & Ha). apply get_with_eq; [apply action_length|].
  unfold FundUserAction.unpack_user_action, action_bytes, check_data_len.
  rewrite length_app, !to_le_bytes_length. cbn [Nat.ltb Nat.leb Nat.add FundUserAction.LEN result_bind].
  rewrite <- (app_nil_r (to_le_bytes 8 (FundUserAction.amount a))).
  unfold run_get. repeat get_step. unfold get_ret. by destruct a.
Qed.
#[export] Hint Resolve get_action_eq : get.

(** Layout with actions among the fields. *)
Ltac lay_out_actions :=
  lay_out; change (@snd nat _ (put_action ?a)) with (put_action a).2;
  change (fst (put_action ?a)) with 16%nat; rewrite ?put_action_zeros.

Ltac total_length_actions :=
  lay_out_actions; rewrite ?length_app, ?action_length, ?to_le_bytes_length;
  repeat match goal with Hn : valid_name ?n |- context [length (padded ?n)] =>
    rewrite (padded_length n (proj1 Hn)) end;
  reflexivity.

Ltac get_back_actions E :=
  rewrite E; lay_out_actions; rewrite <- ?app_assoc; unfold run_get; repeat get_step; unfold get_ret.

Module FundUserRequests.
Record t := {
  discriminator : Z;
  fund_ref : Z;
  token_ref : Z;
  deposit_request : FundUserAction.t;
  last_deposit : FundUserAction.t;
  withdrawal_request : FundUserAction.t;
  last_withdrawal : FundUserAction.t;
  deny_reason : ArrayString64;
  bump : Z;
}.

Section Packing.
Context `{Utf8}.

Definition LEN : nat := 201.

Definition pack_user_requests (x : t) : Db nat :=
  check_output LEN
    (write_fields LEN
      [put_u64 x.(discriminator); put_key x.(fund_ref); put_key x.(token_ref);
       put_action x.(deposit_request); put_action x.(last_deposit);
       put_action x.(withdrawal_request); put_action x.(last_withdrawal); put_name x.(deny_reason);
       put_u8 x.(bump)]).

Definition unpack_user_requests (input : list Z) : result ProgramError t :=
  _ <-? check_data_len input LEN ;;
  run_get (discriminator_ <-g get_u64 ;; fund_ref_ <-g get_key ;; token_ref_ <-g get_key ;;
           deposit_request_ <-g get_action ;; last_deposit_ <-g get_action ;;
           withdrawal_request_ <-g get_action ;; last_withdrawal_ <-g get_action ;;
           deny_reason_ <-g get_name ;; bump_ <-g get_u8 ;;
           get_ret {| discriminator := discriminator_; fund_ref := fund_ref_;
                    token_ref := token_ref_; deposit_request := deposit_request_;
                    last_deposit := last_deposit_; withdrawal_request := withdrawal_request_;
                    last_withdrawal := last_withdrawal_; deny_reason := deny_reason_; bump := bump_ |}) input.

#[global] Instance Packed_user_requests : Packed t := {
  packed_size := fun _ => LEN; pack := pack_user_requests; unpack := unpack_user_requests }.

Definition to_vec (x : t) : option (result ProgramError (list Z)) :=
  to_vec_with LEN InvalidAccountData (pack_user_requests x).

Definition valid_user_requests (x : t) : Prop :=
  is_u64 x.(discriminator) /\
  is_key x.(fund_ref) /\
  is_key x.(token_ref) /\
  valid_action x.(deposit_request) /\
  valid_action x.(last_deposit) /\
  valid_action x.(withdrawal_request) /\
  valid_action x.(last_withdrawal) /\
  valid_name x.(deny_reason) /\
  is_u8 x.(bump).

#[global] Instance PackedLaw_user_requests : PackedLaw t valid_user_requests.
Proof.
  split.
  - intros x output _ Hl. eapply eq_trans; [by apply (f_equal fst), check_output_short | done].
  - intros x Hx. unfold valid_user_requests in Hx. destruct_and?.
    eapply packs_fields; [intros n Hn; by apply check_output_zeros | reflexivity | total_length_actions |].
    intros input rest Hlen E. cbn [unpack Packed_user_requests]. unfold unpack_user_requests.
    rewrite Hlen by done. cbn [result_bind]. get_back_actions E. by destruct x.
Qed.
End Packing.
End FundUserRequests.

Module FundAssets.
Record t := {
  asset_type : FundAssetType;
  target_hash : Z;
  current_hash : Z;
  current_cycle : Z;
  current_assets_usd : Z;
  cycle_start_time : Z;
  cycle_end_time : Z;
  bump : Z;
}.

Section Packing.
Definition LEN : nat := 50.

Definition pack_assets (x : t) : Db nat :=
  check_output LEN
    (write_fields LEN
      [put_u8 (as_u8 x.(asset_type)); put_u64 x.(target_hash); put_u64 x.(current_hash);
       put_u64 x.(current_cycle); put_u64 x.(current_assets_usd); put_i64 x.(cycle_start_time);
       put_i64 x.(cycle_end_time); put_u8 x.(bump)]).

Definition unpack_assets (input : list Z) : result ProgramError t :=
  _ <-? check_data_len input LEN ;;
  run_get (asset_type_ <-g get_enum InvalidInstructionData ;; target_hash_ <-g get_u64 ;;
           current_hash_ <-g get_u64 ;; current_cycle_ <-g get_u64 ;;
           current_assets_usd_ <-g get_u64 ;; cycle_start_time_ <-g get_i64 ;;
           cycle_end_time_ <-g get_i64 ;; bump_ <-g get_u8 ;;
           get_ret {| asset_type := asset_type_; target_hash := target_hash_;
                    current_hash := current_hash_; current_cycle := current_cycle_;
                    current_assets_usd := current_assets_usd_;
                    cycle_start_time := cycle_start_time_; cycle_end_time := cycle_end_time_;
                    bump := bump_ |}) input.

#[global] Instance Packed_assets : Packed t := {
  packed_size := fun _ => LEN; pack := pack_assets; unpack := unpack_assets }.

Definition to_vec (x : t) : option (result ProgramError (list Z)) :=
  to_vec_with LEN InvalidAccountData (pack_assets x).

Definition valid_assets (x : t) : Prop :=
  is_u64 x.(target_hash) /\
  is_u64 x.(current_hash) /\
  is_u64 x.(current_cycle) /\
  is_u64 x.(current_assets_usd) /\
  is_i64 x.(cycle_start_time) /\
  is_i64 x.(cycle_end_time) /\
  is_u8 x.(bump).

#[global] Instance PackedLaw_assets : PackedLaw t valid_assets.
Proof.
  split.
  - intros x output _ Hl. eapply eq_trans; [by apply (f_equal fst), check_output_short | done].
  - intros x Hx. unfold valid_assets in Hx. destruct_and?.
    eapply packs_fields; [intros n Hn; by apply check_output_zeros | reflexivity | total_length |].
    intros input rest Hlen E. cbn [unpack Packed_assets]. unfold unpack_assets.
    rewrite Hlen by done. cbn [result_bind]. get_back E. by destruct x.
Qed.
End Packing.
End FundAssets.

Module FundCustody.
Record t := {
  discriminator : Z;
  fund_ref : Z;
  custody_id : Z;
  custody_type : FundCustodyType;
  is_vault_token : bool;
  token_ref : Z;
  address : Z;
  fees_address : Z;
  bump : Z;
}.

Section Packing.
Definition LEN : nat := 143.

Definition pack_custody (x : t) : Db nat :=
  check_output LEN
    (write_fields LEN
      [put_u64 x.(discriminator); put_key x.(fund_ref); put_u32 x.(custody_id);
       put_u8 (as_u8 x.(custody_type)); put_bool x.(is_vault_token); put_key x.(token_ref);
       put_key x.(address); put_key x.(fees_address); put_u8 x.(bump)]).

Definition unpack_custody (input : list Z) : result ProgramError t :=
  _ <-? check_data_len input LEN ;;
  run_get (discriminator_ <-g get_u64 ;; fund_ref_ <-g get_key ;; custody_id_ <-g get_u32 ;;
           custody_type_ <-g get_enum InvalidAccountData ;; is_vault_token_ <-g get_bool ;;
           token_ref_ <-g get_key ;; address_ <-g get_key ;; fees_address_ <-g get_key ;;
           bump_ <-g get_u8 ;;
           get_ret {| discriminator := discriminator_; fund_ref := fund_ref_;
                    custody_id := custody_id_; custody_type := custody_type_;
                    is_vault_token := is_vault_token_; token_ref := token_ref_; address := address_;
                    fees_address := fees_address_; bump := bump_ |}) input.

#[global] Instance Packed_custody : Packed t := {
  packed_size := fun _ => LEN; pack := pack_custody; unpack := unpack_custody }.

Definition to_vec (x : t) : option (result ProgramError (list Z)) :=
  to_vec_with LEN InvalidAccountData (pack_custody x).

Definition valid_custody (x : t) : Prop :=
  is_u64 x.(discriminator) /\
  is_key x.(fund_ref) /\
  is_u32 x.(custody_id) /\
  is_key x.(token_ref) /\
  is_key x.(address) /\
  is_key x.(fees_address) /\
  is_u8 x.(bump).

#[global] Instance PackedLaw_custody : PackedLaw t valid_custody.
Proof.
  split.
  - intros x output _ Hl. eapply eq_trans; [by apply (f_equal fst), check_output_short | done].
  - intros x Hx. unfold valid_custody in Hx. destruct_and?.
    eapply packs_fields; [intros n Hn; by apply check_output_zeros | reflexivity | total_length |].
    intros input rest Hlen E. cbn [unpack Packed_custody]. unfold unpack_custody.
    rewrite Hlen by done. cbn [result_bind]. get_back E. by destruct x.
Qed.
End Packing.
End FundCustody.

Module FundVault.
Record t := {
  discriminator : Z;
  fund_ref : Z;
  vault_id : Z;
  vault_type : FundVaultType;
  vault_ref : Z;
  router_program_id : Z;
  underlying_pool_id : Z;
  underlying_pool_ref : Z;
  underlying_lp_token_mint : Z;
  lp_balance : Z;
  balance_update_time : Z;
  bump : Z;
}.

Section Packing.
Definition LEN : nat := 222.

Definition pack_fund_vault (x : t) : Db nat :=
  check_output LEN
    (write_fields LEN
      [put_u64 x.(discriminator); put_key x.(fund_ref); put_u32 x.(vault_id);
       put_u8 (as_u8 x.(vault_type)); put_key x.(vault_ref); put_key x.(router_program_id);
       put_key x.(underlying_pool_id); put_key x.(underlying_pool_ref);
       put_key x.(underlying_lp_token_mint); put_u64 x.(lp_balance);
       put_i64 x.(balance_update_time); put_u8 x.(bump)]).

Definition unpack_fund_vault (input : list Z) : result ProgramError t :=
  _ <-? check_data_len input LEN ;;
  run_get (discriminator_ <-g get_u64 ;; fund_ref_ <-g get_key ;; vault_id_ <-g get_u32 ;;
           vault_type_ <-g get_enum InvalidAccountData ;; vault_ref_ <-g get_key ;;
           router_program_id_ <-g get_key ;; underlying_pool_id_ <-g get_key ;;
           underlying_pool_ref_ <-g get_key ;; underlying_lp_token_mint_ <-g get_key ;;
           lp_balance_ <-g get_u64 ;; balance_update_time_ <-g get_i64 ;; bump_ <-g get_u8 ;;
           get_ret {| discriminator := discriminator_; fund_ref := fund_ref_; vault_id := vault_id_;
                    vault_type := vault_type_; vault_ref := vault_ref_;
                    router_program_id := router_program_id_;
                    underlying_pool_id := underlying_pool_id_;
                    underlying_pool_ref := underlying_pool_ref_;
                    underlying_lp_token_mint := underlying_lp_token_mint_;
                    lp_balance := lp_balance_; balance_update_time := balance_update_time_;
                    bump := bump_ |}) input.

#[global] Instance Packed_fund_vault : Packed t := {
  packed_size := fun _ => LEN; pack := pack_fund_vault; unpack := unpack_fund_vault }.

Definition to_vec (x : t) : option (result ProgramError (list Z)) :=
  to_vec_with LEN InvalidAccountData (pack_fund_vault x).

Definition valid_fund_vault (x : t) : Prop :=
  is_u64 x.(discriminator) /\
  is_key x.(fund_ref) /\
  is_u32 x.(vault_id) /\
  is_key x.(vault_ref) /\
  is_key x.(router_program_id) /\
  is_key x.(underlying_pool_id) /\
  is_key x.(underlying_pool_ref) /\
  is_key x.(underlying_lp_token_mint) /\
  is_u64 x.(lp_balance) /\
  is_i64 x.(balance_update_time) /\
  is_u8 x.(bump).

#[global] Instance PackedLaw_fund_vault : PackedLaw t valid_fund_vault.
Proof.
  split.
  - intros x output _ Hl. eapply eq_trans; [by apply (f_equal fst), check_output_short | done].
  - intros x Hx. unfold valid_fund_vault in Hx. destruct_and?.
    eapply packs_fields; [intros n Hn; by apply check_output_zeros | reflexivity | total_length |].
    intros input rest Hlen E. cbn [unpack Packed_fund_vault]. unfold unpack_fund_vault.
    rewrite Hlen by done. cbn [result_bind]. get_back E. by destruct x.
Qed.
End Packing.
End FundVault.

Module Fund.
Record t := {
  name : ArrayString64;
  version : Z;
  fund_type : FundType;
  official : bool;
  refdb_index : option Z;
  refdb_counter : Z;
  metadata_bump : Z;
  authority_bump : Z;
  fund_token_bump : Z;
  multisig_bump : Z;
  fund_program_id : Z;
  fund_authority : Z;
  fund_manager : Z;
  fund_token_ref : Z;
  info_account : Z;
  multisig_account : Z;
  vaults_assets_info : Z;
  custodies_assets_info : Z;
  description_account : Z;
}.

Section Packing.
Context `{Utf8}.

Definition LEN : nat := 367.

Definition pack_fund (x : t) : Db nat :=
  check_output LEN
    (write_fields LEN
      [put_name x.(name); put_u16 x.(version); put_u8 (as_u8 x.(fund_type)); put_bool x.(official);
       put_option_u32 x.(refdb_index); put_u16 x.(refdb_counter); put_u8 x.(metadata_bump);
       put_u8 x.(authority_bump); put_u8 x.(fund_token_bump); put_u8 x.(multisig_bump);
       put_key x.(fund_program_id); put_key x.(fund_authority); put_key x.(fund_manager);
       put_key x.(fund_token_ref); put_key x.(info_account); put_key x.(multisig_account);
       put_key x.(vaults_assets_info); put_key x.(custodies_assets_info);
       put_key x.(description_account)]).

Definition unpack_fund (input : list Z) : result ProgramError t :=
  _ <-? check_data_len input LEN ;;
  run_get (name_ <-g get_name ;; version_ <-g get_u16 ;;
           fund_type_ <-g get_enum InvalidAccountData ;; official_ <-g get_bool ;;
           refdb_index_ <-g get_option_u32 ;; refdb_counter_ <-g get_u16 ;;
           metadata_bump_ <-g get_u8 ;; authority_bump_ <-g get_u8 ;; fund_token_bump_ <-g get_u8 ;;
           multisig_bump_ <-g get_u8 ;; fund_program_id_ <-g get_key ;;
           fund_authority_ <-g get_key ;; fund_manager_ <-g get_key ;;
           fund_token_ref_ <-g get_key ;; info_account_ <-g get_key ;;
           multisig_account_ <-g get_key ;; vaults_assets_info_ <-g get_key ;;
           custodies_assets_info_ <-g get_key ;; description_account_ <-g get_key ;;
           get_ret {| name := name_; version := version_; fund_type := fund_type_;
                    official := official_; refdb_index := refdb_index_;
                    refdb_counter := refdb_counter_; metadata_bump := metadata_bump_;
                    authority_bump := authority_bump_; fund_token_bump := fund_token_bump_;
                    multisig_bump := multisig_bump_; fund_program_id := fund_program_id_;
                    fund_authority := fund_authority_; fund_manager := fund_manager_;
                    fund_token_ref := fund_token_ref_; info_account := info_account_;
                    multisig_account := multisig_account_;
                    vaults_assets_info := vaults_assets_info_;
                    custodies_assets_info := custodies_assets_info_;
                    description_account := description_account_ |}) input.

#[global] Instance Packed_fund : Packed t := {
  packed_size := fun _ => LEN; pack := pack_fund; unpack := unpack_fund }.

Definition to_vec (x : t) : option (result ProgramError (list Z)) :=
  to_vec_with LEN InvalidAccountData (pack_fund x).

Definition valid_fund (x : t) : Prop :=
  valid_name x.(name) /\
  is_u16 x.(version) /\
  option_all is_u32 x.(refdb_index) /\
  is_u16 x.(refdb_counter) /\
  is_u8 x.(metadata_bump) /\
  is_u8 x.(authority_bump) /\
  is_u8 x.(fund_token_bump) /\
  is_u8 x.(multisig_bump) /\
  is_key x.(fund_program_id) /\
  is_key x.(fund_authority) /\
  is_key x.(fund_manager) /\
  is_key x.(fund_token_ref) /\
  is_key x.(info_account) /\
  is_key x.(multisig_account) /\
  is_key x.(vaults_assets_info) /\
  is_key x.(custodies_assets_info) /\
  is_key x.(description_account).

#[global] Instance PackedLaw_fund : PackedLaw t valid_fund.
Proof.
  split.
  - intros x output _ Hl. eapply eq_trans; [by apply (f_equal fst), check_output_short | done].
  - intros x Hx. unfold valid_fund in Hx. destruct_and?.
    eapply packs_fields; [intros n Hn; by apply check_output_zeros | reflexivity | total_length |].
    intros input rest Hlen E. cbn [unpack Packed_fund]. unfold unpack_fund.
    rewrite Hlen by done. cbn [result_bind]. get_back E. by destruct x.
Qed.
End Packing.
End Fund.
