(* ===== verification/FundInstruction.v ===== *)
(** * Fund instructions ([crates/solana_farm_sdk/src/instruction/fund.rs])

    A tag byte and the variant's fields, or the tag and a whole AMM or vault
    instruction behind it. *)

From S2P Require Import Prelude MachineInt Pack AmmInstruction VaultInstruction Fund.

Inductive FundInstruction :=
| UserInit
| RequestDeposit (amount : Z)
| CancelDeposit
| RequestWithdrawal (amount : Z)
| CancelWithdrawal
| Init (step : Z)
| SetDepositSchedule (schedule : FundSchedule)
| DisableDeposits
| ApproveDeposit (amount : Z)
| DenyDeposit (deny_reason : ArrayString64)
| SetWithdrawalSchedule (schedule : FundSchedule)
| DisableWithdrawals
| ApproveWithdrawal (amount : Z)
| DenyWithdrawal (deny_reason : ArrayString64)
| LockAssets (amount : Z)
| UnlockAssets (amount : Z)
| SetAdminSigners (min_signatures : Z)
| RemoveMultisig
| SetAssetsTrackingConfig (config : FundAssetsTrackingConfig)
| UpdateAssetsWithVault
| UpdateAssetsWithCustody
| AddVault (target_hash : Z) (vault_id : Z) (vault_type : FundVaultType)
| RemoveVault (target_hash : Z) (vault_type : FundVaultType)
| AddCustody (target_hash : Z) (custody_id : Z) (custody_type : FundCustodyType)
| RemoveCustody (target_hash : Z) (custody_type : FundCustodyType)
| StartLiquidation
| StopLiquidation
| WithdrawFees (amount : Z)
| AmmInstructionRaydium (instruction : AmmInstruction)
| VaultInstructionRaydium (instruction : VaultInstruction)
| AmmInstructionOrca (instruction : AmmInstruction)
| VaultInstructionOrca (instruction : VaultInstruction).

Inductive FundInstructionType :=
| TUserInit | TRequestDeposit | TCancelDeposit | TRequestWithdrawal | TCancelWithdrawal | TInit
  | TSetDepositSchedule | TDisableDeposits | TApproveDeposit | TDenyDeposit | TSetWithdrawalSchedule
  | TDisableWithdrawals | TApproveWithdrawal | TDenyWithdrawal | TLockAssets | TUnlockAssets
  | TSetAdminSigners | TRemoveMultisig | TSetAssetsTrackingConfig | TUpdateAssetsWithVault
  | TUpdateAssetsWithCustody | TAddVault | TRemoveVault | TAddCustody | TRemoveCustody
  | TStartLiquidation | TStopLiquidation | TWithdrawFees | TAmmInstructionRaydium
  | TVaultInstructionRaydium | TAmmInstructionOrca | TVaultInstructionOrca.

#[export] Instance FundInstructionType_primitive : Primitive FundInstructionType.
Proof.
  refine {| variants := [TUserInit; TRequestDeposit; TCancelDeposit; TRequestWithdrawal;
                         TCancelWithdrawal; TInit; TSetDepositSchedule; TDisableDeposits;
                         TApproveDeposit; TDenyDeposit; TSetWithdrawalSchedule; TDisableWithdrawals;
                         TApproveWithdrawal; TDenyWithdrawal; TLockAssets; TUnlockAssets;
                         TSetAdminSigners; TRemoveMultisig; TSetAssetsTrackingConfig;
                         TUpdateAssetsWithVault; TUpdateAssetsWithCustody; TAddVault; TRemoveVault;
                         TAddCustody; TRemoveCustody; TStartLiquidation; TStopLiquidation;
                         TWithdrawFees; TAmmInstructionRaydium; TVaultInstructionRaydium;
                         TAmmInstructionOrca; TVaultInstructionOrca] |}.
  - solve_decision.
  - intros []; set_solver.
Defined.

Definition MAX_LEN : nat := 65.
Definition USER_INIT_LEN : nat := 1.
Definition REQUEST_DEPOSIT_LEN : nat := 9.
Definition CANCEL_DEPOSIT_LEN : nat := 1.
Definition REQUEST_WITHDRAWAL_LEN : nat := 9.
Definition CANCEL_WITHDRAWAL_LEN : nat := 1.
Definition INIT_LEN : nat := 9.
Definition SET_DEPOSIT_SCHEDULE_LEN : nat := 42.
Definition DISABLE_DEPOSITS_LEN : nat := 1.
Definition APPROVE_DEPOSIT_LEN : nat := 9.
Definition DENY_DEPOSIT_LEN : nat := 65.
Definition SET_WITHDRAWAL_SCHEDULE_LEN : nat := 42.
Definition DISABLE_WITHDRAWALS_LEN : nat := 1.
Definition APPROVE_WITHDRAWAL_LEN : nat := 9.
Definition DENY_WITHDRAWAL_LEN : nat := 65.
Definition LOCK_ASSETS_LEN : nat := 9.
Definition UNLOCK_ASSETS_LEN : nat := 9.
Definition SET_ADMIN_SIGNERS_LEN : nat := 2.
Definition REMOVE_MULTISIG_LEN : nat := 1.
Definition SET_ASSETS_TRACKING_CONFIG_LEN : nat := 34.
Definition UPDATE_ASSETS_WITH_VAULT_LEN : nat := 1.
Definition UPDATE_ASSETS_WITH_CUSTODY_LEN : nat := 1.
Definition ADD_VAULT_LEN : nat := 14.
Definition REMOVE_VAULT_LEN : nat := 10.
Definition ADD_CUSTODY_LEN : nat := 14.
Definition REMOVE_CUSTODY_LEN : nat := 10.
Definition START_LIQUIDATION_LEN : nat := 1.
Definition STOP_LIQUIDATION_LEN : nat := 1.
Definition WITHDRAW_FEES_LEN : nat := 9.

Section FundInstruction.
Context `{Utf8}.

(** ** Packing *)

Definition pack_user_init (i : FundInstruction) : Db nat :=
  check_output USER_INIT_LEN
    match i with
    | UserInit => write_fields USER_INIT_LEN [put_u8 (as_u8 TUserInit)]
    | _ => st_bail InvalidInstructionData
    end.

Definition pack_request_deposit (i : FundInstruction) : Db nat :=
  check_output REQUEST_DEPOSIT_LEN
    match i with
    | RequestDeposit amount =>
        write_fields REQUEST_DEPOSIT_LEN
          [put_u8 (as_u8 TRequestDeposit); put_u64 amount]
    | _ => st_bail InvalidInstructionData
    end.

Definition pack_cancel_deposit (i : FundInstruction) : Db nat :=
  check_output CANCEL_DEPOSIT_LEN
    match i with
    | CancelDeposit => write_fields CANCEL_DEPOSIT_LEN [put_u8 (as_u8 TCancelDeposit)]
    | _ => st_bail InvalidInstructionData
    end.

Definition pack_request_withdrawal (i : FundInstruction) : Db nat :=
  check_output REQUEST_WITHDRAWAL_LEN
    match i with
    | RequestWithdrawal amount =>
        write_fields REQUEST_WITHDRAWAL_LEN
          [put_u8 (as_u8 TRequestWithdrawal); put_u64 amount]
    | _ => st_bail InvalidInstructionData
    end.

Definition pack_cancel_withdrawal (i : FundInstruction) : Db nat :=
  check_output CANCEL_WITHDRAWAL_LEN
    match i with
    | CancelWithdrawal => write_fields CANCEL_WITHDRAWAL_LEN [put_u8 (as_u8 TCancelWithdrawal)]
    | _ => st_bail InvalidInstructionData
    end.

Definition pack_init (i : FundInstruction) : Db nat :=
  check_output INIT_LEN
    match i with
    | Init step => write_fields INIT_LEN [put_u8 (as_u8 TInit); put_u64 step]
    | _ => st_bail InvalidInstructionData
    end.

Definition pack_set_deposit_schedule (i : FundInstruction) : Db nat :=
  check_output SET_DEPOSIT_SCHEDULE_LEN
    match i with
    | SetDepositSchedule schedule =>
        write_fields SET_DEPOSIT_SCHEDULE_LEN
          [put_u8 (as_u8 TSetDepositSchedule); put_i64 schedule.(start_time);
           put_i64 schedule.(end_time); put_bool schedule.(approval_required);
           put_u64 schedule.(min_amount_usd); put_u64 schedule.(max_amount_usd);
           put_u64 schedule.(fee)]
    | _ => st_bail InvalidInstructionData
    end.

Definition pack_disable_deposits (i : FundInstruction) : Db nat :=
  check_output DISABLE_DEPOSITS_LEN
    match i with
    | DisableDeposits => write_fields DISABLE_DEPOSITS_LEN [put_u8 (as_u8 TDisableDeposits)]
    | _ => st_bail InvalidInstructionData
    end.

Definition pack_approve_deposit (i : FundInstruction) : Db nat :=
  check_output APPROVE_DEPOSIT_LEN
    match i with
    | ApproveDeposit amount =>
        write_fields APPROVE_DEPOSIT_LEN
          [put_u8 (as_u8 TApproveDeposit); put_u64 amount]
    | _ => st_bail InvalidInstructionData
    end.

Definition pack_deny_deposit (i : FundInstruction) : Db nat :=
  check_output DENY_DEPOSIT_LEN
    match i with
    | DenyDeposit deny_reason =>
        write_fields DENY_DEPOSIT_LEN
          [put_u8 (as_u8 TDenyDeposit); put_name deny_reason]
    | _ => st_bail InvalidInstructionData
    end.

Definition pack_set_withdrawal_schedule (i : FundInstruction) : Db nat :=
  check_output SET_WITHDRAWAL_SCHEDULE_LEN
    match i with
    | SetWithdrawalSchedule schedule =>
        write_fields SET_WITHDRAWAL_SCHEDULE_LEN
          [put_u8 (as_u8 TSetWithdrawalSchedule); put_i64 schedule.(start_time);
           put_i64 schedule.(end_time); put_bool schedule.(approval_required);
           put_u64 schedule.(min_amount_usd); put_u64 schedule.(max_amount_usd);
           put_u64 schedule.(fee)]
    | _ => st_bail InvalidInstructionData
    end.

Definition pack_disable_withdrawals (i : FundInstruction) : Db nat :=
  check_output DISABLE_WITHDRAWALS_LEN
    match i with
    | DisableWithdrawals =>
        write_fields DISABLE_WITHDRAWALS_LEN
          [put_u8 (as_u8 TDisableWithdrawals)]
    | _ => st_bail InvalidInstructionData
    end.

Definition pack_approve_withdrawal (i : FundInstruction) : Db nat :=
  check_output APPROVE_WITHDRAWAL_LEN
    match i with
    | ApproveWithdrawal amount =>
        write_fields APPROVE_WITHDRAWAL_LEN
          [put_u8 (as_u8 TApproveWithdrawal); put_u64 amount]
    | _ => st_bail InvalidInstructionData
    end.

Definition pack_deny_withdrawal (i : FundInstruction) : Db nat :=
  check_output DENY_WITHDRAWAL_LEN
    match i with
    | DenyWithdrawal deny_reason =>
        write_fields DENY_WITHDRAWAL_LEN
          [put_u8 (as_u8 TDenyWithdrawal); put_name deny_reason]
    | _ => st_bail InvalidInstructionData
    end.

Definition pack_accept_funds (i : FundInstruction) : Db nat :=
  check_output LOCK_ASSETS_LEN
    match i with
    | LockAssets amount => write_fields LOCK_ASSETS_LEN [put_u8 (as_u8 TLockAssets); put_u64 amount]
    | _ => st_bail InvalidInstructionData
    end.

Definition pack_release_funds (i : FundInstruction) : Db nat :=
  check_output UNLOCK_ASSETS_LEN
    match i with
    | UnlockAssets amount =>
        write_fields UNLOCK_ASSETS_LEN
          [put_u8 (as_u8 TUnlockAssets); put_u64 amount]
    | _ => st_bail InvalidInstructionData
    end.

Definition pack_set_admin_signers (i : FundInstruction) : Db nat :=
  check_output SET_ADMIN_SIGNERS_LEN
    match i with
    | SetAdminSigners min_signatures =>
        write_fields SET_ADMIN_SIGNERS_LEN
          [put_u8 (as_u8 TSetAdminSigners); put_u8 min_signatures]
    | _ => st_bail InvalidInstructionData
    end.

Definition pack_remove_multisig (i : FundInstruction) : Db nat :=
  check_output REMOVE_MULTISIG_LEN
    match i with
    | RemoveMultisig => write_fields REMOVE_MULTISIG_LEN [put_u8 (as_u8 TRemoveMultisig)]
    | _ => st_bail InvalidInstructionData
    end.

Definition pack_set_assets_tracking_config (i : FundInstruction) : Db nat :=
  check_output SET_ASSETS_TRACKING_CONFIG_LEN
    match i with
    | SetAssetsTrackingConfig config =>
        write_fields SET_ASSETS_TRACKING_CONFIG_LEN
          [put_u8 (as_u8 TSetAssetsTrackingConfig); put_u64 config.(assets_limit_usd);
           put_u64 config.(max_update_age_sec); put_u64 config.(max_price_error);
           put_u64 config.(max_price_age_sec); put_bool config.(issue_virtual_tokens)]
    | _ => st_bail InvalidInstructionData
    end.

Definition pack_update_assets_with_vault (i : FundInstruction) : Db nat :=
  check_output UPDATE_ASSETS_WITH_VAULT_LEN
    match i with
    | UpdateAssetsWithVault =>
        write_fields UPDATE_ASSETS_WITH_VAULT_LEN
          [put_u8 (as_u8 TUpdateAssetsWithVault)]
    | _ => st_bail InvalidInstructionData
    end.

Definition pack_update_assets_with_custody (i : FundInstruction) : Db nat :=
  check_output UPDATE_ASSETS_WITH_CUSTODY_LEN
    match i with
    | UpdateAssetsWithCustody =>
        write_fields UPDATE_ASSETS_WITH_CUSTODY_LEN
          [put_u8 (as_u8 TUpdateAssetsWithCustody)]
    | _ => st_bail InvalidInstructionData
    end.

Definition pack_add_vault (i : FundInstruction) : Db nat :=
  check_output ADD_VAULT_LEN
    match i with
    | AddVault target_hash vault_id vault_type =>
        write_fields ADD_VAULT_LEN
          [put_u8 (as_u8 TAddVault); put_u64 target_hash; put_u32 vault_id;
           put_u8 (as_u8 vault_type)]
    | _ => st_bail InvalidInstructionData
    end.

Definition pack_remove_vault (i : FundInstruction) : Db nat :=
  check_output REMOVE_VAULT_LEN
    match i with
    | RemoveVault target_hash vault_type =>
        write_fields REMOVE_VAULT_LEN
          [put_u8 (as_u8 TRemoveVault); put_u64 target_hash; put_u8 (as_u8 vault_type)]
    | _ => st_bail InvalidInstructionData
    end.

Definition pack_add_custody (i : FundInstruction) : Db nat :=
  check_output ADD_CUSTODY_LEN
    match i with
    | AddCustody target_hash custody_id custody_type =>
        write_fields ADD_CUSTODY_LEN
          [put_u8 (as_u8 TAddCustody); put_u64 target_hash; put_u32 custody_id;
           put_u8 (as_u8 custody_type)]
    | _ => st_bail InvalidInstructionData
    end.

Definition pack_remove_custody (i : FundInstruction) : Db nat :=
  check_output REMOVE_CUSTODY_LEN
    match i with
    | RemoveCustody target_hash custody_type =>
        write_fields REMOVE_CUSTODY_LEN
          [put_u8 (as_u8 TRemoveCustody); put_u64 target_hash; put_u8 (as_u8 custody_type)]
    | _ => st_bail InvalidInstructionData
    end.

Definition pack_start_liquidation (i : FundInstruction) : Db nat :=
  check_output START_LIQUIDATION_LEN
    match i with
    | StartLiquidation => write_fields START_LIQUIDATION_LEN [put_u8 (as_u8 TStartLiquidation)]
    | _ => st_bail InvalidInstructionData
    end.

Definition pack_stop_liquidation (i : FundInstruction) : Db nat :=
  check_output STOP_LIQUIDATION_LEN
    match i with
    | StopLiquidation => write_fields STOP_LIQUIDATION_LEN [put_u8 (as_u8 TStopLiquidation)]
    | _ => st_bail InvalidInstructionData
    end.

Definition pack_withdraw_fees (i : FundInstruction) : Db nat :=
  check_output WITHDRAW_FEES_LEN
    match i with
    | WithdrawFees amount =>
        write_fields WITHDRAW_FEES_LEN
          [put_u8 (as_u8 TWithdrawFees); put_u64 amount]
    | _ => st_bail InvalidInstructionData
    end.

Definition pack_amm_instruction_raydium (i : FundInstruction) : Db nat :=
  match i with
  | AmmInstructionRaydium instruction => pack_tag_first (as_u8 TAmmInstructionRaydium) (pack instruction)
  | _ => st_bail InvalidInstructionData
  end.

Definition pack_vault_instruction_raydium (i : FundInstruction) : Db nat :=
  match i with
  | VaultInstructionRaydium instruction => pack_tag_first (as_u8 TVaultInstructionRaydium) (pack instruction)
  | _ => st_bail InvalidInstructionData
  end.

Definition pack_amm_instruction_orca (i : FundInstruction) : Db nat :=
  match i with
  | AmmInstructionOrca instruction => pack_tag_first (as_u8 TAmmInstructionOrca) (pack instruction)
  | _ => st_bail InvalidInstructionData
  end.

Definition pack_vault_instruction_orca (i : FundInstruction) : Db nat :=
  match i with
  | VaultInstructionOrca instruction => pack_tag_first (as_u8 TVaultInstructionOrca) (pack instruction)
  | _ => st_bail InvalidInstructionData
  end.

Definition pack_fund_instruction (i : FundInstruction) : Db nat :=
  match i with
  | UserInit => pack_user_init i
  | RequestDeposit _ => pack_request_deposit i
  | CancelDeposit => pack_cancel_deposit i
  | RequestWithdrawal _ => pack_request_withdrawal i
  | CancelWithdrawal => pack_cancel_withdrawal i
  | Init _ => pack_init i
  | SetDepositSchedule _ => pack_set_deposit_schedule i
  | DisableDeposits => pack_disable_deposits i
  | ApproveDeposit _ => pack_approve_deposit i
  | DenyDeposit _ => pack_deny_deposit i
  | SetWithdrawalSchedule _ => pack_set_withdrawal_schedule i
  | DisableWithdrawals => pack_disable_withdrawals i
  | ApproveWithdrawal _ => pack_approve_withdrawal i
  | DenyWithdrawal _ => pack_deny_withdrawal i
  | LockAssets _ => pack_accept_funds i
  | UnlockAssets _ => pack_release_funds i
  | SetAdminSigners _ => pack_set_admin_signers i
  | RemoveMultisig => pack_remove_multisig i
  | SetAssetsTrackingConfig _ => pack_set_assets_tracking_config i
  | UpdateAssetsWithVault => pack_update_assets_with_vault i
  | UpdateAssetsWithCustody => pack_update_assets_with_custody i
  | AddVault _ _ _ => pack_add_vault i
  | RemoveVault _ _ => pack_remove_vault i
  | AddCustody _ _ _ => pack_add_custody i
  | RemoveCustody _ _ => pack_remove_custody i
  | StartLiquidation => pack_start_liquidation i
  | StopLiquidation => pack_stop_liquidation i
  | WithdrawFees _ => pack_withdraw_fees i
  | AmmInstructionRaydium _ => pack_amm_instruction_raydium i
  | VaultInstructionRaydium _ => pack_vault_instruction_raydium i
  | AmmInstructionOrca _ => pack_amm_instruction_orca i
  | VaultInstructionOrca _ => pack_vault_instruction_orca i
  end.

Definition to_vec (i : FundInstruction) : option (result ProgramError (list Z)) :=
  to_vec_with MAX_LEN InvalidInstructionData (pack_fund_instruction i).

(** ** Unpacking *)

Definition unpack_user_init (input : list Z) : result ProgramError FundInstruction :=
  _ <-? check_data_len input USER_INIT_LEN ;; Ok UserInit.

Definition unpack_request_deposit (input : list Z) : result ProgramError FundInstruction :=
  _ <-? check_data_len input REQUEST_DEPOSIT_LEN ;; Ok (RequestDeposit (u64_at 1 input)).

Definition unpack_cancel_deposit (input : list Z) : result ProgramError FundInstruction :=
  _ <-? check_data_len input CANCEL_DEPOSIT_LEN ;; Ok CancelDeposit.

Definition unpack_request_withdrawal (input : list Z) : result ProgramError FundInstruction :=
  _ <-? check_data_len input REQUEST_WITHDRAWAL_LEN ;; Ok (RequestWithdrawal (u64_at 1 input)).

Definition unpack_cancel_withdrawal (input : list Z) : result ProgramError FundInstruction :=
  _ <-? check_data_len input CANCEL_WITHDRAWAL_LEN ;; Ok CancelWithdrawal.

Definition unpack_init (input : list Z) : result ProgramError FundInstruction :=
  _ <-? check_data_len input INIT_LEN ;; Ok (Init (u64_at 1 input)).

Definition unpack_set_deposit_schedule (input : list Z) : result ProgramError FundInstruction :=
  _ <-? check_data_len input SET_DEPOSIT_SCHEDULE_LEN ;;
  run_get (start_time_ <-g get_i64 ;; end_time_ <-g get_i64 ;; approval_required_ <-g get_bool ;;
           min_amount_usd_ <-g get_u64 ;; max_amount_usd_ <-g get_u64 ;; fee_ <-g get_u64 ;;
           get_ret (SetDepositSchedule {| start_time := start_time_; end_time := end_time_;
              approval_required := approval_required_; min_amount_usd := min_amount_usd_;
              max_amount_usd := max_amount_usd_; fee := fee_ |})) (drop 1 input).

Definition unpack_disable_deposits (input : list Z) : result ProgramError FundInstruction :=
  _ <-? check_data_len input DISABLE_DEPOSITS_LEN ;; Ok DisableDeposits.

Definition unpack_approve_deposit (input : list Z) : result ProgramError FundInstruction :=
  _ <-? check_data_len input APPROVE_DEPOSIT_LEN ;; Ok (ApproveDeposit (u64_at 1 input)).

Definition unpack_deny_deposit (input : list Z) : result ProgramError FundInstruction :=
  _ <-? check_data_len input DENY_DEPOSIT_LEN ;;
  deny_reason <-? unpack_array_string64 (slice 1 64 input) ;; Ok (DenyDeposit deny_reason).

Definition unpack_set_withdrawal_schedule (input : list Z) : result ProgramError FundInstruction :=
  _ <-? check_data_len input SET_WITHDRAWAL_SCHEDULE_LEN ;;
  run_get (start_time_ <-g get_i64 ;; end_time_ <-g get_i64 ;; approval_required_ <-g get_bool ;;
           min_amount_usd_ <-g get_u64 ;; max_amount_usd_ <-g get_u64 ;; fee_ <-g get_u64 ;;
           get_ret (SetWithdrawalSchedule {| start_time := start_time_; end_time := end_time_;
              approval_required := approval_required_; min_amount_usd := min_amount_usd_;
              max_amount_usd := max_amount_usd_; fee := fee_ |})) (drop 1 input).

Definition unpack_disable_withdrawals (input : list Z) : result ProgramError FundInstruction :=
  _ <-? check_data_len input DISABLE_WITHDRAWALS_LEN ;; Ok DisableWithdrawals.

Definition unpack_approve_withdrawal (input : list Z) : result ProgramError FundInstruction :=
  _ <-? check_data_len input APPROVE_WITHDRAWAL_LEN ;; Ok (ApproveWithdrawal (u64_at 1 input)).

Definition unpack_deny_withdrawal (input : list Z) : result ProgramError FundInstruction :=
  _ <-? check_data_len input DENY_WITHDRAWAL_LEN ;;
  deny_reason <-? unpack_array_string64 (slice 1 64 input) ;; Ok (DenyWithdrawal deny_reason).

Definition unpack_accept_funds (input : list Z) : result ProgramError FundInstruction :=
  _ <-? check_data_len input LOCK_ASSETS_LEN ;; Ok (LockAssets (u64_at 1 input)).

Definition unpack_release_funds (input : list Z) : result ProgramError FundInstruction :=
  _ <-? check_data_len input UNLOCK_ASSETS_LEN ;; Ok (UnlockAssets (u64_at 1 input)).

Definition unpack_set_admin_signers (input : list Z) : result ProgramError FundInstruction :=
  _ <-? check_data_len input SET_ADMIN_SIGNERS_LEN ;; Ok (SetAdminSigners (u8_at 1 input)).

Definition unpack_remove_multisig (input : list Z) : result ProgramError FundInstruction :=
  _ <-? check_data_len input REMOVE_MULTISIG_LEN ;; Ok RemoveMultisig.

Definition unpack_set_assets_tracking_config (input : list Z) : result ProgramError FundInstruction :=
  _ <-? check_data_len input SET_ASSETS_TRACKING_CONFIG_LEN ;;
  run_get (assets_limit_usd_ <-g get_u64 ;; max_update_age_sec_ <-g get_u64 ;;
           max_price_error_ <-g get_u64 ;; max_price_age_sec_ <-g get_u64 ;;
           issue_virtual_tokens_ <-g get_bool ;;
           get_ret (SetAssetsTrackingConfig {| assets_limit_usd := assets_limit_usd_;
              max_update_age_sec := max_update_age_sec_; max_price_error := max_price_error_;
              max_price_age_sec := max_price_age_sec_; issue_virtual_tokens := issue_virtual_tokens_ |})) (drop 1 input).

Definition unpack_update_assets_with_vault (input : list Z) : result ProgramError FundInstruction :=
  _ <-? check_data_len input UPDATE_ASSETS_WITH_VAULT_LEN ;; Ok UpdateAssetsWithVault.

Definition unpack_update_assets_with_custody (input : list Z) : result ProgramError FundInstruction :=
  _ <-? check_data_len input UPDATE_ASSETS_WITH_CUSTODY_LEN ;; Ok UpdateAssetsWithCustody.

Definition unpack_add_vault (input : list Z) : result ProgramError FundInstruction :=
  _ <-? check_data_len input ADD_VAULT_LEN ;;
  run_get (target_hash <-g get_u64 ;; vault_id <-g get_u32 ;;
           vault_type <-g get_enum InvalidInstructionData ;;
           get_ret (AddVault target_hash vault_id vault_type)) (drop 1 input).

Definition unpack_remove_vault (input : list Z) : result ProgramError FundInstruction :=
  _ <-? check_data_len input REMOVE_VAULT_LEN ;;
  run_get (target_hash <-g get_u64 ;; vault_type <-g get_enum InvalidInstructionData ;;
           get_ret (RemoveVault target_hash vault_type)) (drop 1 input).

Definition unpack_add_custody (input : list Z) : result ProgramError FundInstruction :=
  _ <-? check_data_len input ADD_CUSTODY_LEN ;;
  run_get (target_hash <-g get_u64 ;; custody_id <-g get_u32 ;;
           custody_type <-g get_enum InvalidInstructionData ;;
           get_ret (AddCustody target_hash custody_id custody_type)) (drop 1 input).

Definition unpack_remove_custody (input : list Z) : result ProgramError FundInstruction :=
  _ <-? check_data_len input REMOVE_CUSTODY_LEN ;;
  run_get (target_hash <-g get_u64 ;; custody_type <-g get_enum InvalidInstructionData ;;
           get_ret (RemoveCustody target_hash custody_type)) (drop 1 input).

Definition unpack_start_liquidation (input : list Z) : result ProgramError FundInstruction :=
  _ <-? check_data_len input START_LIQUIDATION_LEN ;; Ok StartLiquidation.

Definition unpack_stop_liquidation (input : list Z) : result ProgramError FundInstruction :=
  _ <-? check_data_len input STOP_LIQUIDATION_LEN ;; Ok StopLiquidation.

Definition unpack_withdraw_fees (input : list Z) : result ProgramError FundInstruction :=
  _ <-? check_data_len input WITHDRAW_FEES_LEN ;; Ok (WithdrawFees (u64_at 1 input)).

Definition unpack_amm_instruction_raydium (input : list Z) : result ProgramError FundInstruction :=
  instruction <-? unpack (drop 1 input) ;; Ok (AmmInstructionRaydium instruction).

Definition unpack_vault_instruction_raydium (input : list Z) : result ProgramError FundInstruction :=
  instruction <-? unpack (drop 1 input) ;; Ok (VaultInstructionRaydium instruction).

Definition unpack_amm_instruction_orca (input : list Z) : result ProgramError FundInstruction :=
  instruction <-? unpack (drop 1 input) ;; Ok (AmmInstructionOrca instruction).

Definition unpack_vault_instruction_orca (input : list Z) : result ProgramError FundInstruction :=
  instruction <-? unpack (drop 1 input) ;; Ok (VaultInstructionOrca instruction).

Definition unpack_fund_instruction (input : list Z) : result ProgramError FundInstruction :=
  _ <-? check_data_len input 1 ;;
  match (of_u8 (u8_at 0 input) : option FundInstructionType) with
  | None => Err InvalidInstructionData
  | Some TUserInit => unpack_user_init input
  | Some TRequestDeposit => unpack_request_deposit input
  | Some TCancelDeposit => unpack_cancel_deposit input
  | Some TRequestWithdrawal => unpack_request_withdrawal input
  | Some TCancelWithdrawal => unpack_cancel_withdrawal input
  | Some TInit => unpack_init input
  | Some TSetDepositSchedule => unpack_set_deposit_schedule input
  | Some TDisableDeposits => unpack_disable_deposits input
  | Some TApproveDeposit => unpack_approve_deposit input
  | Some TDenyDeposit => unpack_deny_deposit input
  | Some TSetWithdrawalSchedule => unpack_set_withdrawal_schedule input
  | Some TDisableWithdrawals => unpack_disable_withdrawals input
  | Some TApproveWithdrawal => unpack_approve_withdrawal input
  | Some TDenyWithdrawal => unpack_deny_withdrawal input
  | Some TLockAssets => unpack_accept_funds input
  | Some TUnlockAssets => unpack_release_funds input
  | Some TSetAdminSigners => unpack_set_admin_signers input
  | Some TRemoveMultisig => unpack_remove_multisig input
  | Some TSetAssetsTrackingConfig => unpack_set_assets_tracking_config input
  | Some TUpdateAssetsWithVault => unpack_update_assets_with_vault input
  | Some TUpdateAssetsWithCustody => unpack_update_assets_with_custody input
  | Some TAddVault => unpack_add_vault input
  | Some TRemoveVault => unpack_remove_vault input
  | Some TAddCustody => unpack_add_custody input
  | Some TRemoveCustody => unpack_remove_custody input
  | Some TStartLiquidation => unpack_start_liquidation input
  | Some TStopLiquidation => unpack_stop_liquidation input
  | Some TWithdrawFees => unpack_withdraw_fees input
  | Some TAmmInstructionRaydium => unpack_amm_instruction_raydium input
  | Some TVaultInstructionRaydium => unpack_vault_instruction_raydium input
  | Some TAmmInstructionOrca => unpack_amm_instruction_orca input
  | Some TVaultInstructionOrca => unpack_vault_instruction_orca input
  end.

(** The length each [pack_*] returns. *)
Definition fund_size (i : FundInstruction) : nat :=
  match i with
  | UserInit => USER_INIT_LEN
  | RequestDeposit _ => REQUEST_DEPOSIT_LEN
  | CancelDeposit => CANCEL_DEPOSIT_LEN
  | RequestWithdrawal _ => REQUEST_WITHDRAWAL_LEN
  | CancelWithdrawal => CANCEL_WITHDRAWAL_LEN
  | Init _ => INIT_LEN
  | SetDepositSchedule _ => SET_DEPOSIT_SCHEDULE_LEN
  | DisableDeposits => DISABLE_DEPOSITS_LEN
  | ApproveDeposit _ => APPROVE_DEPOSIT_LEN
  | DenyDeposit _ => DENY_DEPOSIT_LEN
  | SetWithdrawalSchedule _ => SET_WITHDRAWAL_SCHEDULE_LEN
  | DisableWithdrawals => DISABLE_WITHDRAWALS_LEN
  | ApproveWithdrawal _ => APPROVE_WITHDRAWAL_LEN
  | DenyWithdrawal _ => DENY_WITHDRAWAL_LEN
  | LockAssets _ => LOCK_ASSETS_LEN
  | UnlockAssets _ => UNLOCK_ASSETS_LEN
  | SetAdminSigners _ => SET_ADMIN_SIGNERS_LEN
  | RemoveMultisig => REMOVE_MULTISIG_LEN
  | SetAssetsTrackingConfig _ => SET_ASSETS_TRACKING_CONFIG_LEN
  | UpdateAssetsWithVault => UPDATE_ASSETS_WITH_VAULT_LEN
  | UpdateAssetsWithCustody => UPDATE_ASSETS_WITH_CUSTODY_LEN
  | AddVault _ _ _ => ADD_VAULT_LEN
  | RemoveVault _ _ => REMOVE_VAULT_LEN
  | AddCustody _ _ _ => ADD_CUSTODY_LEN
  | RemoveCustody _ _ => REMOVE_CUSTODY_LEN
  | StartLiquidation => START_LIQUIDATION_LEN
  | StopLiquidation => STOP_LIQUIDATION_LEN
  | WithdrawFees _ => WITHDRAW_FEES_LEN
  | AmmInstructionRaydium instruction => packed_size instruction + 1
  | VaultInstructionRaydium instruction => packed_size instruction + 1
  | AmmInstructionOrca instruction => packed_size instruction + 1
  | VaultInstructionOrca instruction => packed_size instruction + 1
  end.

#[export] Instance Packed_fund_instruction : Packed FundInstruction := {
  packed_size := fund_size; pack := pack_fund_instruction; unpack := unpack_fund_instruction }.

(** ** Facts *)

Definition valid_schedule (s : FundSchedule) : Prop :=
  is_i64 s.(start_time) /\ is_i64 s.(end_time) /\ is_u64 s.(min_amount_usd) /\
  is_u64 s.(max_amount_usd) /\ is_u64 s.(fee).

Definition valid_config (c : FundAssetsTrackingConfig) : Prop :=
  is_u64 c.(assets_limit_usd) /\ is_u64 c.(max_update_age_sec) /\ is_u64 c.(max_price_error) /\
  is_u64 c.(max_price_age_sec).

Definition valid_fund_instruction (i : FundInstruction) : Prop :=
  match i with
  | RequestDeposit z | RequestWithdrawal z | Init z | ApproveDeposit z | ApproveWithdrawal z
  | LockAssets z | UnlockAssets z | WithdrawFees z => is_u64 z
  | SetDepositSchedule s | SetWithdrawalSchedule s => valid_schedule s
  | DenyDeposit reason | DenyWithdrawal reason => valid_name reason
  | SetAdminSigners z => is_u8 z
  | SetAssetsTrackingConfig c => valid_config c
  | AddVault hash id _ | AddCustody hash id _ => is_u64 hash /\ is_u32 id
  | RemoveVault hash _ | RemoveCustody hash _ => is_u64 hash
  | AmmInstructionRaydium i' | AmmInstructionOrca i' => valid_amm i'
  | VaultInstructionRaydium i' | VaultInstructionOrca i' => valid_vault_instruction i'
  | _ => True
  end.

Create HintDb fund_instruction.
#[local] Hint Unfold unpack_user_init unpack_request_deposit unpack_cancel_deposit
  unpack_request_withdrawal unpack_cancel_withdrawal unpack_init unpack_set_deposit_schedule
  unpack_disable_deposits unpack_approve_deposit unpack_deny_deposit unpack_set_withdrawal_schedule
  unpack_disable_withdrawals unpack_approve_withdrawal unpack_deny_withdrawal unpack_accept_funds
  unpack_release_funds unpack_set_admin_signers unpack_remove_multisig
  unpack_set_assets_tracking_config unpack_update_assets_with_vault
  unpack_update_assets_with_custody unpack_add_vault unpack_remove_vault unpack_add_custody
  unpack_remove_custody unpack_start_liquidation unpack_stop_liquidation unpack_withdraw_fees
  unpack_amm_instruction_raydium unpack_vault_instruction_raydium unpack_amm_instruction_orca
  unpack_vault_instruction_orca : fund_instruction.

(** An instruction carried behind a tag. *)
Lemma nested_packs `{PackedLaw T valid} (i : FundInstruction) (tag : FundInstructionType) (inner : T) :
  valid inner ->
  fund_size i = (packed_size inner + 1)%nat ->
  (forall output, pack_fund_instruction i output = pack_tag_first (as_u8 tag) (pack inner) output) ->
  (forall input, (1 <= length input)%nat -> u8_at 0 input = as_u8 tag -> unpack (drop 1 input) = Ok inner ->
     unpack_fund_instruction input = Ok i) ->
  exists bytes, packs_to i bytes.
Proof.
  intros Hv Hsize Hpack Hun. destruct (pack_roundtrip inner Hv) as (bytes & Hl & Hp & Hu).
  exists (as_u8 tag :: bytes). split; [|split].
  - cbn [length packed_size Packed_fund_instruction]. rewrite Hsize, Hl. lia.
  - intros n Hn. cbn [pack packed_size Packed_fund_instruction] in *. rewrite Hpack, Hsize in *.
    by apply pack_tag_first_zeros.
  - intros rest. apply Hun; [cbn [app length]; lia | done | apply Hu].
Qed.

#[export] Instance PackedLaw_fund_instruction : PackedLaw FundInstruction valid_fund_instruction.
Proof.
  split.
  - intros i output Hi Hl. destruct i;
      first [ eapply eq_trans; [by apply (f_equal fst), check_output_short | done]
            | eapply pack_tag_first_short; [intros ? ?; by apply pack_short | exact Hl] ].
  - intros i Hi. destruct i; cbn [valid_fund_instruction] in Hi; unfold valid_schedule, valid_config in Hi; destruct_and?;
      first
      [ (first [ eapply (nested_packs (valid := valid_amm)); [exact Hi | reflexivity | reflexivity |]
               | eapply (nested_packs (valid := valid_vault_instruction));
                 [exact Hi | reflexivity | reflexivity |] ]);
        intros input Hlen Ht Hun; cbn [unpack Packed_fund_instruction]; unfold unpack_fund_instruction;
        rewrite check_len_ok by done; cbn [result_bind]; rewrite Ht, of_as_u8;
        autounfold with fund_instruction; by rewrite Hun
      | (eapply packs_fields; [intros n Hn; by apply check_output_zeros | reflexivity | total_length |]);
        intros input rest Hlen E; cbn [unpack Packed_fund_instruction]; unfold unpack_fund_instruction; rewrite Hlen by done;
        cbn [result_bind]; read_tag E; rewrite of_as_u8;
        autounfold with fund_instruction; rewrite Hlen by done; cbn [result_bind];
        first [ get_back E; (reflexivity || (match goal with |- _ = Ok (_ ?x) => by destruct x end)) | by read_back E ] ].
Qed.
End FundInstruction.
