(* ===== verification/RefDbInstruction.v ===== *)
(** * RefDB instructions ([crates/solana_farm_sdk/src/instruction/refdb.rs]) *)

From S2P Require Import Prelude MachineInt Pack RefDB RefDBFacts.

(** [size_of::<Reference>()]: the compiler's choice, with room for the largest
    payload and a discriminant. *)
Class ReferenceLayout := {
  size_of_reference : nat;
  size_of_reference_large : (32 < size_of_reference)%nat;
}.

Inductive RefDbInstruction :=
| Init (name : ArrayString64) (reference_type : ReferenceType) (max_records : Z) (init_account : bool)
| Drop (close_account : bool)
| Write (record : Record_)
| Delete (record : Record_).

Inductive RefDbInstructionType := TInit | TDrop | TWrite | TDelete.

#[export] Instance RefDbInstructionType_primitive : Primitive RefDbInstructionType.
Proof.
  refine {| variants := [TInit; TDrop; TWrite; TDelete] |}.
  - solve_decision.
  - intros []; set_solver.
Defined.

Definition INIT_LEN : nat := 71.
Definition DROP_LEN : nat := 3.

Section RefDbInstruction.
Context `{Utf8} `{ReferenceLayout}.

Definition RECORD_MAX_LEN : nat := NO_REF_LEN + size_of_reference.
Definition MAX_LEN : nat := RECORD_MAX_LEN + 7.

(** The arm of [Write] and the arm of [Delete]. *)
Definition pack_with_record (tag : RefDbInstructionType) (record : Record_) : Db nat :=
  check_output 7
    (st_modify (fill [put_u8 (as_u8 tag); put_u8 (type_to_u8 (get_type record.(r_reference)));
                      put_option_u32 record.(r_index)]) ;;;
     _ <-! modify_from 7 (pack_record record) ;;
     st_ok (7 + get_size record)%nat).

Definition pack_refdb (i : RefDbInstruction) : Db nat :=
  match i with
  | Init name reference_type max_records init_account =>
      check_output INIT_LEN
        (write_fields INIT_LEN
          [put_u8 (as_u8 TInit); put_u8 (type_to_u8 reference_type); put_name name; put_u32 max_records;
           put_bool init_account])
  | Drop close_account =>
      check_output DROP_LEN
        (write_fields DROP_LEN
          [put_u8 (as_u8 TDrop); put_u8 (type_to_u8 RtEmpty); put_bool close_account])
  | Write record => pack_with_record TWrite record
  | Delete record => pack_with_record TDelete record
  end.

Definition to_vec (i : RefDbInstruction) : option (result ProgramError (list Z)) :=
  to_vec_with MAX_LEN InvalidInstructionData (pack_refdb i).

Definition unpack_record_behind (input : list Z) (reference_type : ReferenceType)
    : result ProgramError Record_ :=
  _ <-? check_data_len input 7 ;;
  index <-? unpack_option_u32 (slice 2 5 input) ;;
  unpack_record (drop 7 input) reference_type index.

Definition unpack_refdb (input : list Z) : result ProgramError RefDbInstruction :=
  _ <-? check_data_len input 3 ;;
  match (of_u8 (u8_at 0 input) : option RefDbInstructionType), try_from_primitive (u8_at 1 input) with
  | None, _ | _, Err _ => Err InvalidInstructionData
  | Some TInit, Ok reference_type =>
      _ <-? check_data_len input INIT_LEN ;;
      run_get (name <-g Pack.get_name ;; max_records <-g get_u32 ;; init_account <-g get_bool ;;
               get_ret (Init name reference_type max_records init_account)) (drop 2 input)
  | Some TDrop, Ok _ => close_account <-? unpack_bool (u8_at 2 input) ;; Ok (Drop close_account)
  | Some TWrite, Ok reference_type =>
      record <-? unpack_record_behind input reference_type ;; Ok (Write record)
  | Some TDelete, Ok reference_type =>
      record <-? unpack_record_behind input reference_type ;; Ok (Delete record)
  end.

Definition refdb_size (i : RefDbInstruction) : nat :=
  match i with
  | Init _ _ _ _ => INIT_LEN
  | Drop _ => DROP_LEN
  | Write record | Delete record => 7 + get_size record
  end.

#[export] Instance Packed_refdb_instruction : Packed RefDbInstruction := {
  packed_size := refdb_size; pack := pack_refdb; unpack := unpack_refdb }.

(** ** Facts *)

Definition packable_record (r : Record_) : Prop :=
  is_u16 r.(r_counter) /\ is_u16 r.(r_tag) /\ valid_name r.(r_name) /\
  valid_reference (get_type r.(r_reference)) r.(r_reference) /\ option_all is_u32 r.(r_index).

Definition valid_refdb_instruction (i : RefDbInstruction) : Prop :=
  match i with
  | Init name _ max_records _ => valid_name name /\ is_u32 max_records
  | Drop _ => True
  | Write record | Delete record => packable_record record
  end.

Definition record_bytes (r : Record_) : list Z :=
  to_le_bytes 2 r.(r_counter) ++ to_le_bytes 2 r.(r_tag) ++ padded r.(r_name) ++ reference_bytes r.(r_reference).

Lemma record_bytes_length r : packable_record r -> length (record_bytes r) = get_size r.
Proof.
  intros (_ & _ & (Hn & _) & _). unfold record_bytes, get_size, NO_REF_LEN.
  rewrite !length_app, !to_le_bytes_length, padded_length, reference_bytes_length by done. lia.
Qed.

Lemma pack_record_zeros r n :
  packable_record r -> (get_size r <= n)%nat ->
  pack_record r (replicate n 0) = Ok (record_bytes r ++ replicate (n - get_size r) 0).
Proof.
  intros Hr Hn. pose proof (record_bytes_length r Hr) as Hl. destruct Hr as (_ & _ & (Hlen & _) & _).
  unfold pack_record. rewrite check_len_ok by (by rewrite length_replicate). cbn [result_bind]. f_equal.
  assert (slice 4 64 (replicate n 0) = replicate 64 0) as ->.
  { unfold slice. rewrite drop_replicate, take_replicate. f_equal. unfold get_size, NO_REF_LEN in Hn. lia. }
  rewrite pack_name_zeros by done. change (splice 0 (record_bytes r) (replicate n 0) = record_bytes r ++ replicate (n - get_size r) 0).
  unfold splice. rewrite drop_replicate. cbn [take app Nat.add]. by rewrite Hl.
Qed.

Lemma unpack_record_bytes r rest :
  packable_record r -> unpack_record (record_bytes r ++ rest) (get_type r.(r_reference)) r.(r_index) = Ok r.
Proof.
  intros Hr. pose proof (record_bytes_length r Hr) as Hl. destruct Hr as (Hc & Ht & Hn & Href & _).
  unfold unpack_record. rewrite check_len_ok by (rewrite length_app, Hl; unfold get_size; lia).
  unfold record_bytes. cbn [result_bind]. rewrite <- !app_assoc. repeat take_field.
  rewrite (slice_here (reference_bytes _)) by apply reference_bytes_length.
  rewrite unpack_padded by done. cbn [result_bind].
  rewrite !from_le_u16, reference_roundtrip by done. by destruct r.
Qed.

Lemma pack_record_short r output :
  (length output < get_size r)%nat -> pack_record r output = Err AccountDataTooSmall.
Proof.
  intros Hl. unfold pack_record, check_data_len. by destruct (_ <? _)%nat eqn:E; [|apply Nat.ltb_ge in E; lia].
Qed.

Lemma type_roundtrip t : try_from_primitive (type_to_u8 t) = Ok t.
Proof. by destruct t. Qed.

(** The bytes of [Write] and [Delete]. *)
Definition with_record_bytes (tag : RefDbInstructionType) (r : Record_) : list Z :=
  [as_u8 tag] ++ [type_to_u8 (get_type r.(r_reference))] ++ option_u32_bytes r.(r_index) ++ record_bytes r.

Lemma pack_with_record_zeros tag r n :
  packable_record r -> (7 + get_size r <= n)%nat ->
  pack_with_record tag r (replicate n 0)
  = (Some (Ok (7 + get_size r)%nat), with_record_bytes tag r ++ replicate (n - (7 + get_size r)) 0).
Proof.
  intros Hr Hn. unfold pack_with_record. rewrite check_output_zeros by lia.
  erewrite st_bind_Some by (unfold st_modify; by rewrite fill_zeros by (cbn; lia)).
  lay_out. change (width _) with 7%nat. rewrite app_nil_r.
  unfold modify_from, st_try, st_bind.
  set (hd := [as_u8 tag] ++ [type_to_u8 _] ++ option_u32_bytes _).
  assert (length hd = 7%nat) as Hhd by (unfold hd; rewrite !length_app, option_u32_length; done).
  rewrite length_app, Hhd. destruct (_ <? _)%nat eqn:El; [apply Nat.ltb_lt in El; lia|].
  rewrite drop_app_length', take_app_length', pack_record_zeros by (done || lia).
  unfold st_ok, st_ret, with_record_bytes, hd. rewrite <- !app_assoc.
  by replace (n - 7 - get_size r)%nat with (n - (7 + get_size r))%nat by lia.
Qed.

Lemma pack_with_record_short tag r output :
  (length output < 7 + get_size r)%nat ->
  fst (pack_with_record tag r output) = Some (Err AccountDataTooSmall).
Proof.
  intros Hl. unfold pack_with_record. destruct (decide (length output < 7)%nat) as [Hs|Hs].
  { eapply eq_trans; [by apply (f_equal fst), check_output_short | done]. }
  do 7 (destruct output as [|? output]; [cbn in Hs; lia|]). cbn [length] in Hl.
  unfold check_output. erewrite st_try_Ok by reflexivity.
  set (fields := [put_u8 _; put_u8 _; put_option_u32 _]).
  assert (exists hd, forall rest, fill fields (z :: z0 :: z1 :: z2 :: z3 :: z4 :: z5 :: rest) = hd ++ rest
            /\ length hd = 7%nat) as (hd & Hhd).
  { unfold fields. destruct (r_index r) as [v|].
    - by exists (as_u8 tag :: type_to_u8 (get_type (r_reference r)) :: 1 :: to_le_bytes 4 v).
    - by exists [as_u8 tag; type_to_u8 (get_type (r_reference r)); 0; z2; z3; z4; z5]. }
  destruct (Hhd output) as [Hf Hlen]. erewrite st_bind_Some by (unfold st_modify; by rewrite Hf).
  apply st_try_Err. unfold modify_from. rewrite length_app, Hlen.
  destruct (_ <? _)%nat eqn:El; [apply Nat.ltb_lt in El; lia|].
  by rewrite drop_app_length', pack_record_short by (done || lia).
Qed.

Lemma with_record_bytes_length tag r :
  packable_record r -> length (with_record_bytes tag r) = (7 + get_size r)%nat.
Proof.
  intros Hr. unfold with_record_bytes. by rewrite !length_app, option_u32_length, record_bytes_length.
Qed.

Lemma unpack_with_record tag r rest :
  packable_record r -> let input := with_record_bytes tag r ++ rest in
  check_data_len input 3 = Ok tt /\ u8_at 0 input = as_u8 tag /\
  u8_at 1 input = type_to_u8 (get_type r.(r_reference)) /\
  unpack_record_behind input (get_type r.(r_reference)) = Ok r.
Proof.
  intros Hr input. unfold input, with_record_bytes. rewrite <- !app_assoc.
  split; [by rewrite check_len_ok by (rewrite !length_app, option_u32_length; cbn; lia)|].
  split; [done|]. split; [done|]. unfold unpack_record_behind.
  rewrite check_len_ok by (rewrite !length_app, option_u32_length; cbn; lia). cbn [result_bind].
  repeat take_field. rewrite unpack_option_u32_bytes by apply Hr. cbn [result_bind].
  rewrite !(app_assoc [_]), (app_assoc (_ ++ _) (option_u32_bytes _)).
  rewrite drop_app_length' by (rewrite !length_app, option_u32_length; done).
  by apply unpack_record_bytes.
Qed.

#[export] Instance PackedLaw_refdb_instruction : PackedLaw RefDbInstruction valid_refdb_instruction.
Proof.
  split.
  - intros i output Hi Hl. destruct i; cbn [pack Packed_refdb_instruction pack_refdb];
      try (eapply eq_trans; [by apply (f_equal fst), check_output_short | done]).
    all: by apply pack_with_record_short.
  - intros i Hi. destruct i; cbn [valid_refdb_instruction] in Hi.
    1, 2: destruct_and?;
      (eapply packs_fields; [intros n Hn; by apply check_output_zeros | reflexivity | total_length |]);
      intros input rest Hlen E; cbn [unpack Packed_refdb_instruction]; unfold unpack_refdb; rewrite Hlen by done;
      cbn [result_bind]; read_tag E; rewrite of_as_u8.
    + assert (u8_at 1 input = type_to_u8 reference_type) as -> by (rewrite E; reflexivity).
      rewrite type_roundtrip, Hlen by done. cbn [result_bind]. rewrite E. lay_out.
      change (drop 2 ?l) with (drop 1 (drop 1 l)).
      repeat change (drop 1 (([?z] ++ ?l) ++ ?r)) with (l ++ r).
      rewrite <- ?app_assoc. unfold run_get. repeat get_step. done.
    + assert (u8_at 1 input = type_to_u8 RtEmpty) as -> by (rewrite E; reflexivity).
      rewrite type_roundtrip. rewrite E. by destruct close_account.
    + exists (with_record_bytes TWrite record). split; [|split].
      * by apply with_record_bytes_length.
      * intros n Hn. by apply pack_with_record_zeros.
      * intros rest. destruct (unpack_with_record TWrite record rest Hi) as (Hl & Ht & Hr & Hu).
        cbn [unpack Packed_refdb_instruction]. unfold unpack_refdb.
        by rewrite Hl, Ht, Hr, of_as_u8, type_roundtrip, Hu.
    + exists (with_record_bytes TDelete record). split; [|split].
      * by apply with_record_bytes_length.
      * intros n Hn. by apply pack_with_record_zeros.
      * intros rest. destruct (unpack_with_record TDelete record rest Hi) as (Hl & Ht & Hr & Hu).
        cbn [unpack Packed_refdb_instruction]. unfold unpack_refdb.
        by rewrite Hl, Ht, Hr, of_as_u8, type_roundtrip, Hu.
Qed.
End RefDbInstruction.
