(* ===== verification/MainInstruction.v ===== *)
(** * Main router instructions ([crates/solana_farm_sdk/src/instruction/main_router.rs])

    Metadata added under a tag or removed by name, a RefDB instruction under a
    tag, and the instructions that set signers and upgrade the program.  The
    packing of what is carried is used through the class [Packed]. *)

From S2P Require Import Prelude MachineInt Pack Token Pool Farm Vault Fund RefDB RefDBFacts RefDbInstruction.

Inductive MainInstruction :=
| AddFund (fund : Fund.Fund.t)
| RemoveFund (name : ArrayString64) (refdb_index : option Z)
| AddVault (vault : Vault)
| RemoveVault (name : ArrayString64) (refdb_index : option Z)
| AddPool (pool : Pool)
| RemovePool (name : ArrayString64) (refdb_index : option Z)
| AddFarm (farm : Farm)
| RemoveFarm (name : ArrayString64) (refdb_index : option Z)
| AddToken (token : Token)
| RemoveToken (name : ArrayString64) (refdb_index : option Z)
| RefDb (instruction : RefDbInstruction)
| SetAdminSigners (min_signatures : Z)
| SetProgramAdminSigners (min_signatures : Z)
| SetProgramSingleAuthority
| UpgradeProgram.

Inductive MainInstructionType :=
| TAddFund | TRemoveFund | TAddVault | TRemoveVault | TAddPool | TRemovePool | TAddFarm
  | TRemoveFarm | TAddToken | TRemoveToken | TRefDb | TSetAdminSigners | TSetProgramAdminSigners
  | TSetProgramSingleAuthority | TUpgradeProgram.

#[export] Instance MainInstructionType_primitive : Primitive MainInstructionType.
Proof.
  refine {| variants := [TAddFund; TRemoveFund; TAddVault; TRemoveVault; TAddPool; TRemovePool;
                         TAddFarm; TRemoveFarm; TAddToken; TRemoveToken; TRefDb; TSetAdminSigners;
                         TSetProgramAdminSigners; TSetProgramSingleAuthority; TUpgradeProgram] |}.
  - solve_decision.
  - intros []; set_solver.
Defined.

Definition MAX_LEN : nat := Nat.max (Vault.MAX_LEN + 1) (Pool.MAX_LEN + 1).
Definition REMOVE_FUND_LEN : nat := 70.
Definition REMOVE_VAULT_LEN : nat := 70.
Definition REMOVE_POOL_LEN : nat := 70.
Definition REMOVE_FARM_LEN : nat := 70.
Definition REMOVE_TOKEN_LEN : nat := 70.
Definition SET_ADMIN_SIGNERS_LEN : nat := 2.
Definition SET_PROGRAM_ADMIN_SIGNERS_LEN : nat := 2.
Definition SET_PROGRAM_SINGLE_AUTHORITY_LEN : nat := 1.
Definition UPGRADE_PROGRAM_LEN : nat := 1.

Section MainInstruction.
Context `{Utf8} `{ReferenceLayout}.

(** ** Packing *)

Definition pack_add_fund (fund : Fund.Fund.t) : Db nat := pack_tag_last (as_u8 TAddFund) (pack fund).

Definition pack_remove_fund (name : ArrayString64) (refdb_index : option Z) : Db nat :=
  check_output REMOVE_FUND_LEN
    (write_fields REMOVE_FUND_LEN
      [put_u8 (as_u8 TRemoveFund); put_name name; put_option_u32 refdb_index]).

Definition pack_add_vault (vault : Vault) : Db nat := pack_tag_last (as_u8 TAddVault) (pack vault).

Definition pack_remove_vault (name : ArrayString64) (refdb_index : option Z) : Db nat :=
  check_output REMOVE_VAULT_LEN
    (write_fields REMOVE_VAULT_LEN
      [put_u8 (as_u8 TRemoveVault); put_name name; put_option_u32 refdb_index]).

Definition pack_add_pool (pool : Pool) : Db nat := pack_tag_last (as_u8 TAddPool) (pack pool).

Definition pack_remove_pool (name : ArrayString64) (refdb_index : option Z) : Db nat :=
  check_output REMOVE_POOL_LEN
    (write_fields REMOVE_POOL_LEN
      [put_u8 (as_u8 TRemovePool); put_name name; put_option_u32 refdb_index]).

Definition pack_add_farm (farm : Farm) : Db nat := pack_tag_last (as_u8 TAddFarm) (pack farm).

Definition pack_remove_farm (name : ArrayString64) (refdb_index : option Z) : Db nat :=
  check_output REMOVE_FARM_LEN
    (write_fields REMOVE_FARM_LEN
      [put_u8 (as_u8 TRemoveFarm); put_name name; put_option_u32 refdb_index]).

Definition pack_add_token (token : Token) : Db nat := pack_tag_last (as_u8 TAddToken) (pack token).

Definition pack_remove_token (name : ArrayString64) (refdb_index : option Z) : Db nat :=
  check_output REMOVE_TOKEN_LEN
    (write_fields REMOVE_TOKEN_LEN
      [put_u8 (as_u8 TRemoveToken); put_name name; put_option_u32 refdb_index]).

Definition pack_refdb_instruction (instruction : RefDbInstruction) : Db nat :=
  pack_tag_last (as_u8 TRefDb) (pack instruction).

Definition pack_set_admin_signers (min_signatures : Z) : Db nat :=
  check_output SET_ADMIN_SIGNERS_LEN
    (write_fields SET_ADMIN_SIGNERS_LEN [put_u8 (as_u8 TSetAdminSigners); put_u8 min_signatures]).

Definition pack_set_program_admin_signers (min_signatures : Z) : Db nat :=
  check_output SET_PROGRAM_ADMIN_SIGNERS_LEN
    (write_fields SET_PROGRAM_ADMIN_SIGNERS_LEN
      [put_u8 (as_u8 TSetProgramAdminSigners); put_u8 min_signatures]).

Definition pack_set_program_single_authority : Db nat :=
  check_output SET_PROGRAM_SINGLE_AUTHORITY_LEN
    (write_fields SET_PROGRAM_SINGLE_AUTHORITY_LEN [put_u8 (as_u8 TSetProgramSingleAuthority)]).

Definition pack_upgrade_program : Db nat :=
  check_output UPGRADE_PROGRAM_LEN (write_fields UPGRADE_PROGRAM_LEN [put_u8 (as_u8 TUpgradeProgram)]).

Definition pack_main (i : MainInstruction) : Db nat :=
  check_output 1
    match i with
    | AddFund fund => pack_add_fund fund
    | RemoveFund name refdb_index => pack_remove_fund name refdb_index
    | AddVault vault => pack_add_vault vault
    | RemoveVault name refdb_index => pack_remove_vault name refdb_index
    | AddPool pool => pack_add_pool pool
    | RemovePool name refdb_index => pack_remove_pool name refdb_index
    | AddFarm farm => pack_add_farm farm
    | RemoveFarm name refdb_index => pack_remove_farm name refdb_index
    | AddToken token => pack_add_token token
    | RemoveToken name refdb_index => pack_remove_token name refdb_index
    | RefDb instruction => pack_refdb_instruction instruction
    | SetAdminSigners min_signatures => pack_set_admin_signers min_signatures
    | SetProgramAdminSigners min_signatures => pack_set_program_admin_signers min_signatures
    | SetProgramSingleAuthority => pack_set_program_single_authority
    | UpgradeProgram => pack_upgrade_program
    end.

Definition to_vec (i : MainInstruction) : option (result ProgramError (list Z)) :=
  to_vec_with MAX_LEN InvalidInstructionData (pack_main i).

(** ** Unpacking *)

Definition unpack_add_fund (input : list Z) : result ProgramError MainInstruction :=
  fund <-? unpack (drop 1 input) ;; Ok (AddFund fund).

Definition unpack_remove_fund (input : list Z) : result ProgramError MainInstruction :=
  _ <-? check_data_len input REMOVE_FUND_LEN ;;
  run_get (name <-g Pack.get_name ;; refdb_index <-g get_option_u32 ;;
           get_ret (RemoveFund name refdb_index)) (drop 1 input).

Definition unpack_add_vault (input : list Z) : result ProgramError MainInstruction :=
  vault <-? unpack (drop 1 input) ;; Ok (AddVault vault).

Definition unpack_remove_vault (input : list Z) : result ProgramError MainInstruction :=
  _ <-? check_data_len input REMOVE_VAULT_LEN ;;
  run_get (name <-g Pack.get_name ;; refdb_index <-g get_option_u32 ;;
           get_ret (RemoveVault name refdb_index)) (drop 1 input).

Definition unpack_add_pool (input : list Z) : result ProgramError MainInstruction :=
  pool <-? unpack (drop 1 input) ;; Ok (AddPool pool).

Definition unpack_remove_pool (input : list Z) : result ProgramError MainInstruction :=
  _ <-? check_data_len input REMOVE_POOL_LEN ;;
  run_get (name <-g Pack.get_name ;; refdb_index <-g get_option_u32 ;;
           get_ret (RemovePool name refdb_index)) (drop 1 input).

Definition unpack_add_farm (input : list Z) : result ProgramError MainInstruction :=
  farm <-? unpack (drop 1 input) ;; Ok (AddFarm farm).

Definition unpack_remove_farm (input : list Z) : result ProgramError MainInstruction :=
  _ <-? check_data_len input REMOVE_FARM_LEN ;;
  run_get (name <-g Pack.get_name ;; refdb_index <-g get_option_u32 ;;
           get_ret (RemoveFarm name refdb_index)) (drop 1 input).

Definition unpack_add_token (input : list Z) : result ProgramError MainInstruction :=
  token <-? unpack (drop 1 input) ;; Ok (AddToken token).

Definition unpack_remove_token (input : list Z) : result ProgramError MainInstruction :=
  _ <-? check_data_len input REMOVE_TOKEN_LEN ;;
  run_get (name <-g Pack.get_name ;; refdb_index <-g get_option_u32 ;;
           get_ret (RemoveToken name refdb_index)) (drop 1 input).

Definition unpack_refdb_instruction (input : list Z) : result ProgramError MainInstruction :=
  instruction <-? unpack (drop 1 input) ;; Ok (RefDb instruction).

Definition unpack_set_admin_signers (input : list Z) : result ProgramError MainInstruction :=
  _ <-? check_data_len input SET_ADMIN_SIGNERS_LEN ;; Ok (SetAdminSigners (u8_at 1 input)).

Definition unpack_set_program_admin_signers (input : list Z) : result ProgramError MainInstruction :=
  _ <-? check_data_len input SET_PROGRAM_ADMIN_SIGNERS_LEN ;;
  Ok (SetProgramAdminSigners (u8_at 1 input)).

Definition unpack_set_program_single_authority (input : list Z) : result ProgramError MainInstruction :=
  Ok SetProgramSingleAuthority.

Definition unpack_upgrade_program (input : list Z) : result ProgramError MainInstruction := Ok UpgradeProgram.

Definition unpack_main (input : list Z) : result ProgramError MainInstruction :=
  _ <-? check_data_len input 1 ;;
  match (of_u8 (u8_at 0 input) : option MainInstructionType) with
  | None => Err InvalidInstructionData
  | Some TAddFund => unpack_add_fund input
  | Some TRemoveFund => unpack_remove_fund input
  | Some TAddVault => unpack_add_vault input
  | Some TRemoveVault => unpack_remove_vault input
  | Some TAddPool => unpack_add_pool input
  | Some TRemovePool => unpack_remove_pool input
  | Some TAddFarm => unpack_add_farm input
  | Some TRemoveFarm => unpack_remove_farm input
  | Some TAddToken => unpack_add_token input
  | Some TRemoveToken => unpack_remove_token input
  | Some TRefDb => unpack_refdb_instruction input
  | Some TSetAdminSigners => unpack_set_admin_signers input
  | Some TSetProgramAdminSigners => unpack_set_program_admin_signers input
  | Some TSetProgramSingleAuthority => unpack_set_program_single_authority input
  | Some TUpgradeProgram => unpack_upgrade_program input
  end.

Definition main_size (i : MainInstruction) : nat :=
  match i with
  | AddFund fund => packed_size fund + 1
  | RemoveFund _ _ => REMOVE_FUND_LEN
  | AddVault vault => packed_size vault + 1
  | RemoveVault _ _ => REMOVE_VAULT_LEN
  | AddPool pool => packed_size pool + 1
  | RemovePool _ _ => REMOVE_POOL_LEN
  | AddFarm farm => packed_size farm + 1
  | RemoveFarm _ _ => REMOVE_FARM_LEN
  | AddToken token => packed_size token + 1
  | RemoveToken _ _ => REMOVE_TOKEN_LEN
  | RefDb instruction => packed_size instruction + 1
  | SetAdminSigners _ => SET_ADMIN_SIGNERS_LEN
  | SetProgramAdminSigners _ => SET_PROGRAM_ADMIN_SIGNERS_LEN
  | SetProgramSingleAuthority => SET_PROGRAM_SINGLE_AUTHORITY_LEN
  | UpgradeProgram => UPGRADE_PROGRAM_LEN
  end.

#[export] Instance Packed_main : Packed MainInstruction := {
  packed_size := main_size; pack := pack_main; unpack := unpack_main }.

(** ** Facts *)

Definition valid_main_instruction (i : MainInstruction) : Prop :=
  match i with
  | AddFund fund => Fund.Fund.valid_fund fund
  | AddVault vault => valid_vault_metadata vault
  | AddPool pool => valid_pool pool
  | AddFarm farm => valid_farm farm
  | AddToken token => valid_token token
  | RemoveFund name i | RemoveVault name i | RemovePool name i | RemoveFarm name i | RemoveToken name i =>
      valid_name name /\ option_all is_u32 i
  | RefDb instruction => valid_refdb_instruction instruction
  | SetAdminSigners z | SetProgramAdminSigners z => is_u8 z
  | SetProgramSingleAuthority | UpgradeProgram => True
  end.

Lemma check_twice n (body : Db nat) output :
  (1 <= n)%nat -> check_output 1 (check_output n body) output = check_output n body output.
Proof.
  intros Hn. unfold check_output, st_try, st_bind, reads, check_data_len.
  destruct (length output <? 1)%nat eqn:E1; [|done].
  destruct (length output <? n)%nat eqn:En; [done|]. apply Nat.ltb_lt in E1. apply Nat.ltb_ge in En. lia.
Qed.

(** What is carried behind a tag that is written last. *)
Lemma carried_packs `{PackedLaw T valid} (i : MainInstruction) (tag : MainInstructionType) (inner : T) :
  valid inner ->
  main_size i = (packed_size inner + 1)%nat ->
  (forall output, pack_main i output = check_output 1 (pack_tag_last (as_u8 tag) (pack inner)) output) ->
  (forall input, (1 <= length input)%nat -> u8_at 0 input = as_u8 tag -> unpack (drop 1 input) = Ok inner ->
     unpack_main input = Ok i) ->
  exists bytes, packs_to i bytes.
Proof.
  intros Hv Hsize Hpack Hun. destruct (pack_roundtrip inner Hv) as (bytes & Hl & Hp & Hu).
  exists (as_u8 tag :: bytes). split; [|split].
  - cbn [length packed_size Packed_main]. rewrite Hsize, Hl. lia.
  - intros n Hn. cbn [pack packed_size Packed_main] in *. rewrite Hpack, Hsize in *.
    by apply pack_tag_last_zeros.
  - intros rest. apply Hun; [cbn [app length]; lia | done | apply Hu].
Qed.

Create HintDb main_instruction.
#[local] Hint Unfold unpack_add_fund unpack_remove_fund unpack_add_vault unpack_remove_vault unpack_add_pool
  unpack_remove_pool unpack_add_farm unpack_remove_farm unpack_add_token unpack_remove_token
  unpack_refdb_instruction unpack_set_admin_signers unpack_set_program_admin_signers
  unpack_set_program_single_authority unpack_upgrade_program : main_instruction.

Ltac carried law :=
  eapply (carried_packs (valid := law)); [eassumption | reflexivity | reflexivity |];
  intros input Hlen Ht Hun; cbn [unpack Packed_main]; unfold unpack_main;
  rewrite check_len_ok by done; cbn [result_bind]; rewrite Ht, of_as_u8;
  autounfold with main_instruction; by rewrite Hun.

#[export] Instance PackedLaw_main : PackedLaw MainInstruction valid_main_instruction.
Proof.
  split.
  - intros i output Hi Hl. cbn [pack Packed_main]. unfold pack_main. destruct i;
      first [ eapply pack_tag_last_short; [intros ? ?; by apply pack_short | exact Hl]
            | unfold pack_set_program_single_authority, pack_upgrade_program;
              eapply eq_trans;
              [apply (f_equal fst); eapply eq_trans; [by apply check_twice; compute; lia | by apply check_output_short] | done] ].
  - intros i Hi. destruct i; cbn [valid_main_instruction] in Hi;
      first [ carried Fund.Fund.valid_fund | carried valid_vault_metadata | carried valid_pool
            | carried valid_farm | carried valid_token | carried valid_refdb_instruction | idtac ].
    all: destruct_and?;
      (eapply packs_fields;
       [intros n Hn; eapply eq_trans; [apply check_twice; compute; lia | by apply check_output_zeros]
       | reflexivity | total_length |]);
      intros input rest Hlen E; cbn [unpack Packed_main]; unfold unpack_main; rewrite Hlen by done;
      cbn [result_bind]; read_tag E; rewrite of_as_u8; autounfold with main_instruction;
      rewrite ?Hlen by done; cbn [result_bind]; first [ reflexivity | get_back E; reflexivity | by read_back E ].
Qed.
End MainInstruction.
