(* ===== verification/CodecSpec.v ===== *)
(** * Round trips of the instruction data and of the accounts

    What a client packs is what a program unpacks: for each instruction type with
    [to_vec], and for the records the accounts hold.  [Pack.to_vec_roundtrip] does
    the work, from the law each type has an instance of. *)

From S2P Require Import Prelude MachineInt Pack RefDB RefDBFacts AmmInstruction VaultInstruction Token Pool Farm Vault Fund FundInstruction RefDbInstruction MainInstruction.

(** ** Sizes *)

Lemma amm_size_max i : (AmmInstruction.get_size i <= AmmInstruction.MAX_LEN)%nat.
Proof. destruct i; cbv; lia. Qed.

Lemma vault_size_max i : (vault_size i <= VaultInstruction.MAX_LEN)%nat.
Proof. destruct i; cbv; lia. Qed.

Section Codec.
Context `{Utf8} `{ReferenceLayout}.

Lemma fund_size_max i : (fund_size i <= FundInstruction.MAX_LEN)%nat.
Proof.
  destruct i; cbn [fund_size packed_size Packed_amm Packed_vault_instruction]; try (cbv; lia).
  all: match goal with j : _ |- _ => first [pose proof (amm_size_max j) | pose proof (vault_size_max j)] end;
    unfold AmmInstruction.MAX_LEN, VaultInstruction.MAX_LEN, FundInstruction.MAX_LEN in *; lia.
Qed.

Lemma pool_size_max x : (Pool.get_size x <= Pool.MAX_LEN)%nat.
Proof. unfold Pool.get_size. destruct (Pool.route x); cbv; lia. Qed.

Lemma farm_size_max x : (Farm.get_size x <= Farm.MAX_LEN)%nat.
Proof. unfold Farm.get_size. destruct (Farm.route x); cbv; lia. Qed.

Lemma record_size_max r : (RefDB.get_size r <= NO_REF_LEN + 32)%nat.
Proof. unfold RefDB.get_size. destruct (r_reference r); cbn; lia. Qed.

Lemma refdb_size_small i : (refdb_size i <= 107)%nat.
Proof.
  destruct i as [| |r|r]; cbn [refdb_size]; try (cbv; lia);
    pose proof (record_size_max r); unfold NO_REF_LEN in *; lia.
Qed.

Lemma vault_metadata_size_max x : (Vault.get_size x <= Vault.MAX_LEN)%nat.
Proof. unfold Vault.get_size. destruct (Vault.strategy x); cbv; lia. Qed.

Lemma main_size_max i : (main_size i <= MainInstruction.MAX_LEN)%nat.
Proof.
  change MainInstruction.MAX_LEN with 793%nat.
  destruct i; cbn [main_size packed_size Packed_refdb_instruction Packed_vault_metadata Packed_pool Packed_farm Packed_token];
    try (cbv; lia);
    match goal with j : _ |- _ =>
      first [ pose proof (vault_metadata_size_max j) | pose proof (pool_size_max j)
            | pose proof (farm_size_max j) | pose proof (refdb_size_small j) ] end;
    unfold Vault.MAX_LEN, Pool.MAX_LEN, Farm.MAX_LEN in *; lia.
Qed.

(** ** What is packed is what is unpacked *)

(** A vault of the strategy [DynamicHedge] cannot be packed, alone or in the instruction
    that adds it. *)
Lemma dynamic_hedge_refused v :
  v.(Vault.strategy) = Vault.DynamicHedge ->
  MainInstruction.to_vec (AddVault v) = Some (Err InvalidInstructionData).
Proof.
  intros Hv. unfold MainInstruction.to_vec, to_vec_with, pack_main, pack_add_vault. cbn [pack Packed_vault_metadata].
  assert (forall output, Vault.pack_vault_metadata v output = (Some (Err UnsupportedSysvar), output)) as Hp
    by (intros output; unfold Vault.pack_vault_metadata; by rewrite Hv).
  unfold check_output, pack_tag_last, on_tail, st_try, st_bind, reads, check_data_len.
  rewrite length_replicate. destruct (_ <? _)%nat; [done|]. by rewrite Hp.
Qed.

(** C31. An instruction of the main router is packed by [to_vec] into as many bytes as its
    size says, and unpacked from those bytes to itself, the token, pool, farm, vault or
    fund or the RefDB instruction it carries included; a buffer that is too small for it is
    an error, not a panic.  This holds when its numbers are in the range of their types,
    its names are texts of at most 64 bytes without a zero byte (a name is cut at the first
    zero when it is unpacked), and the vault that it adds, if it adds one, is of the
    strategy [StakeLpCompoundRewards].  A vault of the other strategy, [DynamicHedge], has
    a size and is refused by [to_vec]. *)
Theorem main_instruction_roundtrip i :
  (valid_main_instruction i ->
   (exists bytes, MainInstruction.to_vec i = Some (Ok bytes) /\ length bytes = main_size i /\
      unpack_main bytes = Ok i) /\
   (forall output, (length output < main_size i)%nat ->
      fst (pack_main i output) = Some (Err AccountDataTooSmall))) /\
  (forall v, i = AddVault v -> v.(Vault.strategy) = Vault.DynamicHedge ->
     MainInstruction.to_vec i = Some (Err InvalidInstructionData)).
Proof.
  split; [|intros v ->; apply dynamic_hedge_refused]. intros Hi. split.
  - exact (to_vec_roundtrip (valid := valid_main_instruction) MainInstruction.MAX_LEN InvalidInstructionData i Hi (main_size_max i)).
  - intros output Hl. exact (pack_short (valid := valid_main_instruction) i output Hi Hl).
Qed.

(** The same for every instruction of a fund, the AMM and vault instructions
    it carries included. *)
Theorem fund_instruction_roundtrip i :
  valid_fund_instruction i ->
  (exists bytes, FundInstruction.to_vec i = Some (Ok bytes) /\ length bytes = fund_size i /\
     unpack_fund_instruction bytes = Ok i) /\
  (forall output, (length output < fund_size i)%nat ->
     fst (pack_fund_instruction i output) = Some (Err AccountDataTooSmall)).
Proof.
  intros Hi. split.
  - exact (to_vec_roundtrip (valid := valid_fund_instruction) FundInstruction.MAX_LEN InvalidInstructionData i Hi (fund_size_max i)).
  - intros output Hl. exact (pack_short (valid := valid_fund_instruction) i output Hi Hl).
Qed.

(** The same for every vault instruction. *)
Theorem vault_instruction_roundtrip i :
  valid_vault_instruction i ->
  (exists bytes, VaultInstruction.to_vec i = Some (Ok bytes) /\ length bytes = vault_size i /\
     unpack_vault bytes = Ok i) /\
  (forall output, (length output < vault_size i)%nat ->
     fst (pack_vault i output) = Some (Err AccountDataTooSmall)).
Proof.
  intros Hi. split.
  - exact (to_vec_roundtrip (valid := valid_vault_instruction) VaultInstruction.MAX_LEN InvalidInstructionData i Hi (vault_size_max i)).
  - intros output Hl. exact (pack_short (valid := valid_vault_instruction) i output Hi Hl).
Qed.

(** ** The accounts of a fund *)

(** A value whose [to_vec] gives bytes it is unpacked from, whatever follows. *)
Definition stored `{Packed T} (to_vec : T -> option (result ProgramError (list Z))) (x : T) : Prop :=
  exists bytes, to_vec x = Some (Ok bytes) /\ forall rest, unpack (bytes ++ rest) = Ok x.

Lemma stored_exactly `{PackedLaw T valid} error x :
  valid x -> stored (fun x => to_vec_with (packed_size x) error (pack x)) x.
Proof.
  intros Hx. destruct (pack_roundtrip x Hx) as (bytes & Hlen & Hpack & Hun). exists bytes.
  unfold to_vec_with. rewrite Hpack by done. by rewrite <- Hlen, take_app_length.
Qed.

(** The accounts of a fund — the fund, its assets, custodies and vaults, the
    requests of a user and the deposits and withdrawals in them — keep what was
    packed into them. *)
Theorem fund_accounts_stored fund assets custody vault requests :
  Fund.valid_fund fund -> FundAssets.valid_assets assets -> FundCustody.valid_custody custody ->
  FundVault.valid_fund_vault vault -> FundUserRequests.valid_user_requests requests ->
  stored Fund.to_vec fund /\ stored FundAssets.to_vec assets /\ stored FundCustody.to_vec custody /\
  stored FundVault.to_vec vault /\ stored FundUserRequests.to_vec requests.
Proof.
  intros Hf Ha Hc Hv Hr. repeat split.
  - exact (stored_exactly InvalidAccountData fund Hf).
  - exact (stored_exactly InvalidAccountData assets Ha).
  - exact (stored_exactly InvalidAccountData custody Hc).
  - exact (stored_exactly InvalidAccountData vault Hv).
  - exact (stored_exactly InvalidAccountData requests Hr).
Qed.
End Codec.

(** ** What is unpacked is what was packed

    The other direction, for the instructions whose fields are all numbers: the
    bytes a program accepts are those of one well-formed instruction. *)

Lemma as_of_u8 `{Primitive T} (b : Z) (t : T) : NoDup (variants (T := T)) -> of_u8 b = Some t -> as_u8 t = b.
Proof.
  unfold of_u8, as_u8. intros Hnd Hb. destruct (b <? 0) eqn:E; [done|]. apply Z.ltb_ge in E.
  destruct (list_find (eq t) variants) as [[i t']|] eqn:Ef.
  - apply list_find_Some in Ef as (Hi & <- & _). change (default 0%nat (fst <$> Some (i, t))) with i.
    rewrite (NoDup_lookup _ _ _ _ Hnd Hi Hb). lia.
  - apply list_find_None in Ef. rewrite Forall_forall in Ef.
    exfalso. by apply (Ef t (list_elem_of_lookup_2 _ _ _ Hb)).
Qed.

Lemma slice_append (a b input : list Z) off n k :
  a = slice off n input -> (n <= k)%nat -> b = slice (off + n) (k - n) input -> a ++ b = slice off k input.
Proof.
  intros -> Hk ->. unfold slice. rewrite <- drop_drop.
  rewrite <- (take_drop n (take k (drop off input))). f_equal.
  - rewrite take_take. f_equal. lia.
  - by rewrite skipn_firstn_comm.
Qed.

Lemma slice_nothing (input : list Z) off k : k = 0%nat -> [] = slice off k input.
Proof. by intros ->. Qed.

Lemma checked_Ok {A} input n (r : result ProgramError A) x :
  (_ <-? check_data_len input n ;; r) = Ok x -> (n <= length input)%nat /\ r = Ok x.
Proof.
  unfold check_data_len. destruct (_ <? _)%nat eqn:E; [done|]. apply Nat.ltb_ge in E. done.
Qed.

Section Bytes.
Context (input : list Z) (Hbytes : byte_list input).

Lemma slice_byte_list off n : byte_list (slice off n input).
Proof using Hbytes. unfold byte_list, slice in *. by apply Forall_take, Forall_drop. Qed.

Lemma slice_length off n : (off + n <= length input)%nat -> length (slice off n input) = n.
Proof. intros Hl. unfold slice. rewrite length_take, length_drop. lia. Qed.

Lemma number_slice off n :
  (off + n <= length input)%nat -> to_le_bytes n (from_le_bytes (slice off n input)) = slice off n input.
Proof using Hbytes.
  intros Hl. pose proof (to_from_le_bytes (slice off n input) (slice_byte_list off n)) as E.
  by rewrite slice_length in E.
Qed.

Lemma number_bounds off n :
  (off + n <= length input)%nat -> 0 <= from_le_bytes (slice off n input) < 256 ^ Z.of_nat n.
Proof using Hbytes.
  intros Hl. pose proof (from_le_bytes_bounds (slice off n input) (slice_byte_list off n)) as E.
  by rewrite slice_length in E.
Qed.

Lemma byte_slice off : (off + 1 <= length input)%nat -> [u8_at off input] = slice off 1 input.
Proof.
  intros Hl. unfold u8_at, slice. destruct (drop off input) as [|b rest] eqn:E.
  - apply (f_equal length) in E. rewrite length_drop in E. cbn in E. lia.
  - rewrite <- (firstn_skipn off input) at 1. rewrite E, app_nth2; rewrite length_take; [|lia].
    by replace (off - off `min` length input)%nat with 0%nat by lia.
Qed.

Lemma byte_bounds off : (off + 1 <= length input)%nat -> is_u8 (u8_at off input).
Proof using Hbytes.
  intros Hl. pose proof (slice_byte_list off 1) as Hb. rewrite <- byte_slice in Hb by done.
  apply Forall_inv in Hb. done.
Qed.

Lemma fields_to_vec max error L fields :
  width fields = L -> (L <= max)%nat -> (L <= length input)%nat -> zero_filled fields = slice 0 L input ->
  to_vec_with max error (check_output L (write_fields L fields)) = Some (Ok (take L input)).
Proof.
  intros Hw Hmax Hl Hz. unfold to_vec_with. rewrite check_output_zeros by done.
  rewrite write_fields_zeros, Hz by done. unfold slice. rewrite drop_0.
  by rewrite take_app_le, take_take, Nat.min_id by (rewrite length_take; lia).
Qed.
End Bytes.

(** The fields of a variant are the slices of the input. *)
Ltac same_bytes Hbytes Ht :=
  apply fields_to_vec; [reflexivity | by cbv; lia | done |];
  unfold zero_filled; cbn [map concat fst snd put_u8 put_u32 put_u64]; rewrite ?Ht;
  repeat (eapply slice_append;
    [first [by apply byte_slice; cbv in *; lia | by apply number_slice; cbv in *; [done | lia]] | cbv; lia | cbn [Nat.add Nat.sub]]).

(** The numbers read are in the range of their width. *)
Ltac numbers_fit Hbytes :=
  cbn [valid_amm valid_vault_instruction]; repeat split;
  first [ by apply (number_bounds _ Hbytes); cbv in *; lia | by apply (byte_bounds _ Hbytes); cbv in *; lia | idtac ].

(** Bytes the AMM router accepts begin with the bytes of the instruction they
    are unpacked to, and its amounts are [u64]. *)
Theorem amm_decoded_canonical input i :
  byte_list input -> unpack_amm input = Ok i ->
  valid_amm i /\ AmmInstruction.to_vec i = Some (Ok (take (AmmInstruction.get_size i) input)) /\
  (AmmInstruction.get_size i <= length input)%nat.
Proof.
  intros Hbytes Hun. unfold unpack_amm in Hun.
  apply checked_Ok in Hun as [_ Hun].
  destruct (of_u8 (u8_at 0 input)) as [t|] eqn:Et; [|done].
  apply as_of_u8 in Et; [|apply (bool_decide_unpack _); vm_compute; exact I].
  destruct t; autounfold with amm in Hun; apply checked_Ok in Hun as [Hl [= <-]];
    (split; [|split; [same_bytes Hbytes Et | exact Hl]]); numbers_fit Hbytes.
Qed.

(** The same for the instructions of a vault. *)
Theorem vault_decoded_canonical input i :
  byte_list input -> unpack_vault input = Ok i ->
  valid_vault_instruction i /\ VaultInstruction.to_vec i = Some (Ok (take (vault_size i) input)) /\
  (vault_size i <= length input)%nat.
Proof.
  intros Hbytes Hun. unfold unpack_vault in Hun.
  apply checked_Ok in Hun as [_ Hun].
  destruct (of_u8 (u8_at 0 input)) as [t|] eqn:Et; [|done].
  apply as_of_u8 in Et; [|apply (bool_decide_unpack _); vm_compute; exact I].
  assert (forall n, take n (drop 8 (drop 1 input)) = slice 9 n input) as E9
    by (intros n; unfold slice; by rewrite drop_drop).
  destruct t; autounfold with vault_instruction in Hun; apply checked_Ok in Hun as [Hl Hun];
    try (unfold run_get, get_bind, get_u64, get_number, get_ret in Hun; rewrite E9 in Hun;
      change (take 8 (drop 1 input)) with (slice 1 8 input) in Hun);
    injection Hun as <-;
    (split; [|split; [same_bytes Hbytes Et | exact Hl]]); numbers_fit Hbytes.
Qed.

(** ** Instances *)

#[local] Existing Instance ascii_utf8.
#[local] Instance sample_layout : ReferenceLayout := { size_of_reference := 40; size_of_reference_large := ltac:(lia) }.

(** A token, an instruction of each kind, and the accounts of a fund. *)
Definition sample_token : Token := {|
  Token.name := [83; 79; 76]; Token.description := [115; 111; 108]; Token.token_type := NativeSol;
  Token.refdb_index := Some 3; Token.refdb_counter := 1; Token.decimals := 9; Token.chain_id := 101;
  Token.mint := 5; Token.oracle_type := Pyth; Token.oracle_account := Some 77;
  Token.description_account := 6 |}.

Definition sample_fund : Fund.t := {|
  Fund.name := [70; 49]; Fund.version := 1; Fund.fund_type := General; Fund.official := true;
  Fund.refdb_index := None; Fund.refdb_counter := 0; Fund.metadata_bump := 255; Fund.authority_bump := 254;
  Fund.fund_token_bump := 253; Fund.multisig_bump := 252; Fund.fund_program_id := 1; Fund.fund_authority := 2;
  Fund.fund_manager := 3; Fund.fund_token_ref := 4; Fund.info_account := 5; Fund.multisig_account := 6;
  Fund.vaults_assets_info := 7; Fund.custodies_assets_info := 8; Fund.description_account := 2 ^ 255 |}.

Definition sample_assets : FundAssets.t := {|
  FundAssets.asset_type := AssetCustody; FundAssets.target_hash := 1; FundAssets.current_hash := 2;
  FundAssets.current_cycle := 3; FundAssets.current_assets_usd := 4; FundAssets.cycle_start_time := -5;
  FundAssets.cycle_end_time := 6; FundAssets.bump := 7 |}.

Definition sample_custody : FundCustody.t := {|
  FundCustody.discriminator := 1; FundCustody.fund_ref := 2; FundCustody.custody_id := 3;
  FundCustody.custody_type := Trading; FundCustody.is_vault_token := true; FundCustody.token_ref := 4;
  FundCustody.address := 5; FundCustody.fees_address := 6; FundCustody.bump := 7 |}.

Definition sample_fund_vault : FundVault.t := {|
  FundVault.discriminator := 1; FundVault.fund_ref := 2; FundVault.vault_id := 3; FundVault.vault_type := TypePool;
  FundVault.vault_ref := 4; FundVault.router_program_id := 5; FundVault.underlying_pool_id := 6;
  FundVault.underlying_pool_ref := 7; FundVault.underlying_lp_token_mint := 8; FundVault.lp_balance := 9;
  FundVault.balance_update_time := -1; FundVault.bump := 10 |}.

Definition sample_requests : FundUserRequests.t :=
  let action n := {| FundUserAction.time := - n; FundUserAction.amount := n |} in {|
  FundUserRequests.discriminator := 1; FundUserRequests.fund_ref := 2; FundUserRequests.token_ref := 3;
  FundUserRequests.deposit_request := action 1; FundUserRequests.last_deposit := action 2;
  FundUserRequests.withdrawal_request := action 3; FundUserRequests.last_withdrawal := action 4;
  FundUserRequests.deny_reason := []; FundUserRequests.bump := 5 |}.

(** Fields of a sample are in range. *)
Ltac in_range :=
  lazymatch goal with
  | |- valid_name _ => by apply ascii_name_valid
  | |- _ /\ _ => split; in_range
  | |- _ <= _ => by vm_compute
  | |- _ < _ => by vm_compute
  | |- True => exact I
  | _ => hnf; in_range
  end.

Lemma main_instruction_roundtrip_witness :
  valid_main_instruction (AddToken sample_token) /\
  exists bytes, MainInstruction.to_vec (AddToken sample_token) = Some (Ok bytes) /\ length bytes = 238%nat /\
    unpack_main bytes = Ok (AddToken sample_token).
Proof.
  assert (valid_main_instruction (AddToken sample_token)) as Hv by in_range.
  split; [exact Hv | exact (proj1 (proj1 (main_instruction_roundtrip _) Hv))].
Defined.

Lemma fund_instruction_roundtrip_witness :
  let i := AmmInstructionRaydium (AmmInstruction.Swap 1 2 (2 ^ 63)) in
  exists bytes, FundInstruction.to_vec i = Some (Ok bytes) /\ length bytes = 26%nat /\
    unpack_fund_instruction bytes = Ok i.
Proof.
  assert (valid_fund_instruction (AmmInstructionRaydium (AmmInstruction.Swap 1 2 (2 ^ 63)))) as Hv by in_range.
  exact (proj1 (fund_instruction_roundtrip _ Hv)).
Defined.

Lemma vault_instruction_roundtrip_witness :
  exists bytes, VaultInstruction.to_vec (Crank 7) = Some (Ok bytes) /\ length bytes = 9%nat /\
    unpack_vault bytes = Ok (Crank 7).
Proof.
  assert (valid_vault_instruction (Crank 7)) as Hv by in_range.
  exact (proj1 (vault_instruction_roundtrip _ Hv)).
Defined.

Lemma fund_accounts_stored_witness :
  stored Fund.to_vec sample_fund /\ stored FundAssets.to_vec sample_assets /\
  stored FundCustody.to_vec sample_custody /\ stored FundVault.to_vec sample_fund_vault /\
  stored FundUserRequests.to_vec sample_requests.
Proof. apply fund_accounts_stored; in_range. Defined.

Lemma amm_decoded_canonical_witness :
  AmmInstruction.to_vec (AmmInstruction.Stake 513) = Some (Ok [4; 1; 2; 0; 0; 0; 0; 0; 0]).
Proof.
  assert (byte_list [4; 1; 2; 0; 0; 0; 0; 0; 0; 255]) as Hb by (repeat constructor; lia).
  exact (proj1 (proj2 (amm_decoded_canonical _ (AmmInstruction.Stake 513) Hb eq_refl))).
Defined.

Lemma vault_decoded_canonical_witness :
  VaultInstruction.to_vec (SetFee 513) = Some (Ok [8; 1; 2; 0; 0]).
Proof.
  assert (byte_list [8; 1; 2; 0; 0; 255]) as Hb by (repeat constructor; lia).
  exact (proj1 (proj2 (vault_decoded_canonical _ (SetFee 513) Hb eq_refl))).
Defined.
