(* ===== verification/SdkAccount.v ===== *)
(** * On-chain accounts ([crates/solana_farm_sdk/src/program/account.rs])

    What the SDK reads from token and mint accounts, the balance checks around an
    invoked program, and moving lamports between accounts.  An account's data and
    lamports are behind a [RefCell] that every function borrows and gives back
    before it returns, so that a borrow never fails here.  [spl_token]'s lengths
    and id, and the ids that [build.rs] writes, are what the program was built
    with. *)

From S2P Require Import Prelude MachineInt Amounts Pack.

(** The ids of [spl_token] and of the file that [build.rs] generates. *)
Class ProgramIds := {
  spl_token_id : Z;
  zero_id : Z;
  main_router_admin : Z;
}.

Definition MINT_LEN : nat := 82.
Definition ACCOUNT_LEN : nat := 165.
Definition MAX_CLEARED : nat := 2000.

Record AccountInfo := {
  key : Z;
  owner : Z;
  lamports : Z;
  data : list Z;
  is_signer : bool;
}.

(** [MathOverflow] as a [ProgramError]. *)
Definition math {A} (r : result SdkMath.error A) : result ProgramError A :=
  match r with Ok a => Ok a | Err _ => Err MathOverflow end.

Section Account.
Context `{ProgramIds}.

(** ** Fields of token accounts and mints *)

Definition get_token_supply (token_mint : AccountInfo) : result ProgramError Z :=
  _ <-? check_data_len token_mint.(data) MINT_LEN ;; Ok (u64_at 36 token_mint.(data)).

Definition get_token_decimals (token_mint : AccountInfo) : result ProgramError Z :=
  _ <-? check_data_len token_mint.(data) MINT_LEN ;; Ok (u8_at 44 token_mint.(data)).

Definition get_token_balance (token_account : AccountInfo) : result ProgramError Z :=
  _ <-? check_data_len token_account.(data) ACCOUNT_LEN ;; Ok (u64_at 64 token_account.(data)).

Definition get_token_account_owner (token_account : AccountInfo) : result ProgramError Z :=
  _ <-? check_data_len token_account.(data) ACCOUNT_LEN ;; Ok (key_at 32 token_account.(data)).

Definition check_token_account_owner (token_account : AccountInfo) (expected_owner : Z)
    : result ProgramError bool :=
  if token_account.(owner) =? spl_token_id then
    o <-? get_token_account_owner token_account ;; Ok (o =? expected_owner)
  else Ok false.

Definition check_token_account_owner_or_zero (token_account : AccountInfo) (expected_owner : Z)
    : result ProgramError bool :=
  if token_account.(key) =? zero_id then Ok true
  else check_token_account_owner token_account expected_owner.

Definition get_token_account_mint (token_account : AccountInfo) : result ProgramError Z :=
  _ <-? check_data_len token_account.(data) ACCOUNT_LEN ;; Ok (key_at 0 token_account.(data)).

Definition get_mint_authority (token_mint : AccountInfo) : result ProgramError (option Z) :=
  _ <-? check_data_len token_mint.(data) MINT_LEN ;;
  if u32_at 0 token_mint.(data) =? 0 then Ok None
  else if u32_at 0 token_mint.(data) =? 1 then Ok (Some (key_at 4 token_mint.(data)))
  else Err InvalidAccountData.

Definition check_mint_authority (mint_account : AccountInfo) (expected_authority : option Z)
    : result ProgramError bool :=
  if mint_account.(owner) =? spl_token_id then
    a <-? get_mint_authority mint_account ;; Ok (bool_decide (a = expected_authority))
  else Ok false.

Definition is_empty (account : AccountInfo) : bool :=
  (length account.(data) =? 0)%nat || (account.(lamports) =? 0).

Definition exists_ (account : AccountInfo) : bool := 0 <? account.(lamports).

(** [account::unpack]: any failure to unpack is [InvalidAccountData]. *)
Definition unpack_account `{Packed T} (account : AccountInfo) : result ProgramError T :=
  match unpack account.(data) with Ok x => Ok x | Err _ => Err InvalidAccountData end.

(** ** Balance checks *)

Definition get_balance_increase (account : AccountInfo) (previous_balance : Z) : result ProgramError Z :=
  balance <-? get_token_balance account ;;
  if previous_balance <=? balance then Ok (balance - previous_balance) else Err UnexpectedBalanceDecrease.

Definition get_balance_decrease (account : AccountInfo) (previous_balance : Z) : result ProgramError Z :=
  balance <-? get_token_balance account ;;
  if balance <=? previous_balance then Ok (previous_balance - balance) else Err UnexpectedBalanceIncrease.

Definition check_tokens_spent (account : AccountInfo) (previous_balance max_amount_spent : Z)
    : result ProgramError Z :=
  tokens_spent <-? get_balance_decrease account previous_balance ;;
  if max_amount_spent <? tokens_spent then Err ProgramOverspent else Ok tokens_spent.

Definition check_tokens_received (account : AccountInfo) (previous_balance min_amount_received : Z)
    : result ProgramError Z :=
  tokens_received <-? get_balance_increase account previous_balance ;;
  if tokens_received <? min_amount_received then Err ProgramInsufficientTransfer else Ok tokens_received.

Definition to_amount_with_new_decimals `{CheckedPow} (amount original_decimals new_decimals : Z)
    : result ProgramError Z :=
  if original_decimals <? new_decimals then
    power <-? math (SdkMath.checked_pow 10 (new_decimals - original_decimals)) ;;
    math (SdkMath.checked_mul u64b amount power)
  else if new_decimals <? original_decimals then
    power <-? math (SdkMath.checked_pow 10 (original_decimals - new_decimals)) ;;
    math (SdkMath.checked_div u64b amount power)
  else Ok amount.

(** ** Moving lamports

    The accounts of a transaction by key: two parameters with one key are one
    account. *)

Definition Accounts := gmap Z AccountInfo.

Definition lamports_of (k : Z) (accounts : Accounts) : Z :=
  match accounts !! k with Some a => a.(lamports) | None => 0 end.

Definition set_lamports (k : Z) (n : Z) (accounts : Accounts) : Accounts :=
  alter (fun a => {| key := a.(key); owner := a.(owner); lamports := n; data := a.(data);
                     is_signer := a.(is_signer) |}) k accounts.

Definition set_data (k : Z) (bytes : list Z) (accounts : Accounts) : Accounts :=
  alter (fun a => {| key := a.(key); owner := a.(owner); lamports := a.(lamports); data := bytes;
                     is_signer := a.(is_signer) |}) k accounts.

(** The destination is credited before the source is looked at. *)
Definition transfer_sol_from_owned (source destination amount : Z) : ST Accounts (result ProgramError unit) :=
  destination_balance <- st_gets (lamports_of destination) ;;
  if negb (u64b (destination_balance + amount)) then st_bail InsufficientFunds else
  st_modify (set_lamports destination (destination_balance + amount)) ;;;
  source_balance <- st_gets (lamports_of source) ;;
  if source_balance <? amount then st_bail InsufficientFunds else
  st_modify (set_lamports source (source_balance - amount)) ;;;
  st_ok tt.

(** At most the first 2000 bytes of the data are cleared. *)
Definition close_system_account (receiving target : Z) (authority_account : Z)
    : ST Accounts (result ProgramError unit) :=
  account <- st_gets (fun accounts => accounts !! target) ;;
  match account with
  | None => st_panic
  | Some a =>
      if negb (a.(owner) =? authority_account) then st_bail IllegalOwner else
      _ <-! transfer_sol_from_owned target receiving a.(lamports) ;;
      st_modify (set_data target
        (if (MAX_CLEARED <? length a.(data))%nat
         then replicate MAX_CLEARED 0 ++ drop MAX_CLEARED a.(data)
         else replicate (length a.(data)) 0)) ;;;
      st_ok tt
  end.

(** ** Facts *)

Lemma lamports_set_same k n accounts :
  is_Some (accounts !! k) -> lamports_of k (set_lamports k n accounts) = n.
Proof. intros [a Ha]. unfold lamports_of, set_lamports, Accounts in *. by rewrite lookup_alter, decide_True, Ha by done. Qed.

Lemma lamports_set_other k k' n accounts :
  k <> k' -> lamports_of k' (set_lamports k n accounts) = lamports_of k' accounts.
Proof. intros Hne. unfold lamports_of, set_lamports, Accounts in *. by rewrite lookup_alter_ne. Qed.

Lemma set_lamports_is_Some k k' n (accounts : Accounts) :
  is_Some (accounts !! k') -> is_Some (set_lamports k n accounts !! k').
Proof. intros Hs. unfold set_lamports, Accounts in *. by rewrite lookup_alter_is_Some. Qed.

(** The lamports after a transfer that succeeds: the amount moves from one account
    to the other, and a transfer of an account to itself changes nothing. *)
Lemma transfer_moves source destination amount accounts accounts' :
  is_Some (accounts !! source) -> is_Some (accounts !! destination) ->
  transfer_sol_from_owned source destination amount accounts = (Some (Ok tt), accounts') ->
  forall k, lamports_of k accounts'
    = lamports_of k accounts + (if decide (k = destination) then amount else 0)
      - (if decide (k = source) then amount else 0).
Proof.
  intros Hs Hd Ht k. unfold transfer_sol_from_owned, st_gets, st_modify in Ht. unfold st_bind in Ht.
  destruct (negb _); [done|]. destruct (_ <? amount); [done|]. injection Ht as <-.
  destruct (decide (k = source)) as [->|Hks].
  - rewrite lamports_set_same by by apply set_lamports_is_Some.
    destruct (decide (source = destination)) as [->|Hne].
    + by rewrite lamports_set_same.
    + rewrite lamports_set_other by done. lia.
  - rewrite lamports_set_other by done. destruct (decide (k = destination)) as [->|Hkd].
    + rewrite lamports_set_same by done. lia.
    + rewrite lamports_set_other by done. lia.
Qed.

(** Moving lamports: the amount leaves one account and reaches the other and no
    other account changes; it fails when the receiver's balance would not fit or
    the sender has too little.  An account can send itself more than it has: it is
    credited before it is checked. *)
Theorem transfer_sol_spec source destination amount accounts :
  is_Some (accounts !! source) -> is_Some (accounts !! destination) -> 0 <= amount ->
  match transfer_sol_from_owned source destination amount accounts with
  | (Some (Ok _), accounts') =>
      (forall k, lamports_of k accounts' = lamports_of k accounts
         + (if decide (k = destination) then amount else 0) - (if decide (k = source) then amount else 0)) /\
      (source <> destination -> amount <= lamports_of source accounts)
  | (Some (Err e), _) => e = InsufficientFunds /\
      (u64b (lamports_of destination accounts + amount) = false \/ lamports_of source accounts < amount)
  | (None, _) => False
  end.
Proof.
  intros Hs Hd Ha. pose proof (transfer_moves source destination amount accounts) as Hm.
  unfold transfer_sol_from_owned, st_gets, st_modify in *. unfold st_bind in *.
  destruct (u64b _) eqn:Eu; cbn [negb] in *; [|by split; [|left]].
  destruct (_ <? amount) eqn:El.
  - split; [done|]. apply Z.ltb_lt in El. destruct (decide (source = destination)) as [->|Hne].
    + rewrite lamports_set_same in El by done. apply u64b_spec in Eu. right. unfold is_u64 in *. lia.
    + rewrite lamports_set_other in El by done. by right.
  - split; [by apply Hm|]. intros Hne. rewrite lamports_set_other in El by done. by apply Z.ltb_ge in El.
Qed.
End Account.

Definition sample_account (k n : Z) : AccountInfo := {|
  key := k; owner := 1; lamports := n; data := []; is_signer := false |}.

Lemma transfer_sol_spec_witness :
  let accounts : Accounts := <[1 := sample_account 1 50]> {[2 := sample_account 2 7]} in
  match transfer_sol_from_owned 1 2 20 accounts with
  | (Some (Ok _), accounts') => lamports_of 1 accounts' = 30 /\ lamports_of 2 accounts' = 27
  | _ => False
  end.
Proof.
  cbv zeta. set (accounts := <[1 := sample_account 1 50]> {[2 := sample_account 2 7]} : Accounts).
  pose proof (transfer_sol_spec 1 2 20 accounts ltac:(by eexists) ltac:(by eexists) ltac:(lia)) as Ht.
  destruct (transfer_sol_from_owned 1 2 20 accounts) as [o accounts'] eqn:E.
  assert (match o with Some (Ok _) => True | _ => False end) as Hok
    by (replace o with (fst (transfer_sol_from_owned 1 2 20 accounts)) by (by rewrite E);
        vm_compute; exact I).
  destruct o as [[u|e]|]; [|destruct Hok..]. destruct Ht as [Ht _].
  split; rewrite Ht; reflexivity.
Defined.
