(* ===== verification/Multisig.v ===== *)
(** * Multisignatures ([crates/solana_farm_sdk/src/program/multisig.rs])

    The admins of an account, at most six, as they are packed into its data; who
    is a signer, and taking a signature back.  Signing itself is commented out in
    the source, so that nothing ever sets a [signed] flag. *)

From S2P Require Import Prelude MachineInt Pack SdkAccount.

Definition MAX_SIGNERS : nat := 6.
Definition LEN : nat := 14 + MAX_SIGNERS * 33.

(** The two arrays have [MAX_SIGNERS] elements. *)
Record Multisig := {
  num_signers : Z;
  num_signed : Z;
  min_signatures : Z;
  instruction_accounts_len : Z;
  instruction_data_len : Z;
  instruction_hash : Z;
  signers : list Z;
  signed : list bool;
}.

Section Multisig.
Context `{ProgramIds}.

(** [Pubkey::default()]. *)
Definition default_key : Z := 0.

Definition default_multisig : Multisig := {|
  num_signers := 1; num_signed := 0; min_signatures := 1; instruction_accounts_len := 0;
  instruction_data_len := 0; instruction_hash := 0;
  signers := [main_router_admin; zero_id; zero_id; zero_id; zero_id; zero_id];
  signed := replicate 6 false |}.

(** ** Packing *)

(** The first [num_signers] elements of an array, and zeros. *)
Definition put_signers (m : Multisig) : Field :=
  (32 * MAX_SIGNERS, fun _ =>
     concat (map (to_le_bytes 32) (take (Z.to_nat m.(num_signers)) m.(signers)))
     ++ replicate (32 * (MAX_SIGNERS - Z.to_nat m.(num_signers))) 0%Z)%nat.

Definition put_signed (m : Multisig) : Field :=
  (MAX_SIGNERS, fun _ =>
     map bool_byte (take (Z.to_nat m.(num_signers)) m.(signed))
     ++ replicate (MAX_SIGNERS - Z.to_nat m.(num_signers)) 0%Z)%nat.

(** More signers than there is room for index past the end of the array. *)
Definition pack_multisig (m : Multisig) : Db nat :=
  check_output LEN
    (if Z.of_nat MAX_SIGNERS <? m.(num_signers) then st_panic else
     write_fields LEN
       [put_u8 m.(num_signers); put_u8 m.(num_signed); put_u8 m.(min_signatures);
        put_u8 m.(instruction_accounts_len); put_u16 m.(instruction_data_len);
        put_u64 m.(instruction_hash); put_signers m; put_signed m]).

Definition to_vec (m : Multisig) : option (result ProgramError (list Z)) :=
  to_vec_with LEN InvalidAccountData (pack_multisig m).

(** The loop over the signers, from the [i]th on: the key and the flag of each. *)
Fixpoint unpack_signers (n i : nat) (input : list Z) : result ProgramError (list (Z * bool)) :=
  match n with
  | O => Ok []
  | S n' =>
      flag <-? (if u8_at (206 + i) input =? 0 then Ok false
                else if u8_at (206 + i) input =? 1 then Ok true else Err InvalidAccountData) ;;
      rest <-? unpack_signers n' (S i) input ;;
      Ok ((key_at (14 + 32 * i) input, flag) :: rest)
  end.

Definition unpack_multisig (input : list Z) : result ProgramError Multisig :=
  _ <-? check_data_len input LEN ;;
  let num_signers := u8_at 0 input in
  let num_signed := u8_at 1 input in
  let min_signatures := u8_at 2 input in
  if (Z.of_nat MAX_SIGNERS <? num_signers) || (num_signers <? num_signed) ||
     (num_signers <? min_signatures) || ((0 <? num_signers) && (min_signatures =? 0))
  then Err InvalidAccountData else
  s <-? unpack_signers (Z.to_nat num_signers) 0 input ;;
  let unused := (MAX_SIGNERS - Z.to_nat num_signers)%nat in
  Ok {| num_signers := num_signers; num_signed := num_signed; min_signatures := min_signatures;
        instruction_accounts_len := u8_at 3 input; instruction_data_len := u16_at 4 input;
        instruction_hash := u64_at 6 input;
        signers := map fst s ++ replicate unused zero_id;
        signed := map snd s ++ replicate unused false |}.

#[export] Instance Packed_multisig : Packed Multisig := {
  packed_size := fun _ => LEN; pack := pack_multisig; unpack := unpack_multisig }.

(** ** Operations

    On the data of the multisig account; whether the account exists, which is
    whether it has lamports, is an argument. *)

(** The loop over the admins: the array so far, filled up to [idx]. *)
Fixpoint collect_signers (admins : list Z) (idx : nat) (array : list Z) : result ProgramError (list Z) :=
  match admins with
  | [] => Ok array
  | a :: admins' =>
      if bool_decide (a ∈ array) then Err IncorrectAccountAddress
      else collect_signers admins' (S idx) (<[idx := a]> array)
  end.

Definition set_signers (admin_signers : list Z) (min_signatures : Z) : Db nat :=
  if bool_decide (admin_signers = []) || (min_signatures =? 0) then st_bail MissingRequiredSignature else
  if Z.of_nat (length admin_signers) <? min_signatures then st_bail InvalidArgument else
  if (MAX_SIGNERS <? length admin_signers)%nat then st_bail InvalidArgument else
  signers <-! st_ret (collect_signers admin_signers 0 (replicate MAX_SIGNERS default_key)) ;;
  pack_multisig
    {| num_signers := Z.of_nat (length admin_signers); num_signed := 0; min_signatures := min_signatures;
       instruction_accounts_len := 0; instruction_data_len := 0; instruction_hash := 0;
       signers := signers; signed := replicate MAX_SIGNERS false |}.

Definition get_signer_index (multisig : Multisig) (signer : Z) : result ProgramError nat :=
  match list_find (eq signer) multisig.(signers) with
  | Some (i, _) => Ok i
  | None => Err AccountNotAuthorized
  end.

Definition multisig_of (data : list Z) : result ProgramError Multisig :=
  match unpack_multisig data with Ok m => Ok m | Err _ => Err InvalidAccountData end.

Definition is_signer (exists_ : bool) (fallback_admin key : Z) (data : list Z) : result ProgramError bool :=
  if negb exists_ then Ok (key =? fallback_admin) else
  multisig <-? multisig_of data ;;
  match get_signer_index multisig key with Ok _ => Ok true | Err _ => Ok false end.

Definition unsign_multisig (exists_ : bool) (signer : AccountInfo) : Db unit :=
  if negb signer.(SdkAccount.is_signer) then st_bail MissingRequiredSignature else
  if negb exists_ then st_ok tt else
  multisig <-! reads multisig_of ;;
  if (multisig.(num_signers) <=? 1) || (multisig.(num_signed) =? 0) then st_ok tt else
  match get_signer_index multisig signer.(key) with
  | Err _ => st_bail AccountNotAuthorized
  | Ok signer_idx =>
      if negb (default false (multisig.(signed) !! signer_idx)) then st_ok tt else
      _ <-! pack_multisig
        {| num_signers := multisig.(num_signers); num_signed := multisig.(num_signed) - 1;
           min_signatures := multisig.(min_signatures);
           instruction_accounts_len := multisig.(instruction_accounts_len);
           instruction_data_len := multisig.(instruction_data_len);
           instruction_hash := multisig.(instruction_hash); signers := multisig.(signers);
           signed := <[signer_idx := false]> multisig.(signed) |} ;;
      st_ok tt
  end.
End Multisig.

(** * What a multisignature keeps

    [set_signers] and then [is_signer]; taking a signature back. *)

(** ** Fields that ignore what was there *)

Definition constant (f : Field) : Prop := forall old, snd f old = snd f (replicate (fst f) 0).

Lemma fill_constant fields output :
  Forall constant fields -> fill fields output = zero_filled fields ++ drop (width fields) output.
Proof.
  unfold width, zero_filled. intros Hc. revert output. induction Hc as [|[w f] fields Hf _ IH]; intros output.
  - by rewrite drop_0.
  - cbn [fill map concat fst snd sum_list sum_list_with]. cbn. rewrite IH, Hf, drop_drop.
    by rewrite <- app_assoc.
Qed.

Section Facts.
Context `{ProgramIds}.

Definition fields (m : Multisig) : list Field :=
  [put_u8 m.(num_signers); put_u8 m.(num_signed); put_u8 m.(min_signatures);
   put_u8 m.(instruction_accounts_len); put_u16 m.(instruction_data_len);
   put_u64 m.(instruction_hash); put_signers m; put_signed m].

(** A multisignature of the admins [keys], with their flags. *)
Definition multisig_with (keys : list Z) (flags : list bool) (count min len dlen hash : Z) : Multisig := {|
  num_signers := Z.of_nat (length keys); num_signed := count; min_signatures := min;
  instruction_accounts_len := len; instruction_data_len := dlen; instruction_hash := hash;
  signers := keys ++ replicate (MAX_SIGNERS - length keys) zero_id;
  signed := flags ++ replicate (MAX_SIGNERS - length keys) false |}.

(** What [unpack] gives, and what the account of a multisignature holds. *)
Definition valid_multisig (m : Multisig) : Prop :=
  exists keys flags count min len dlen hash,
    m = multisig_with keys flags count min len dlen hash /\
    (length keys <= MAX_SIGNERS)%nat /\ length flags = length keys /\ Forall is_key keys /\
    0 <= count <= Z.of_nat (length keys) /\ 0 <= min <= Z.of_nat (length keys) /\
    (keys <> [] -> 0 < min) /\ is_u16 dlen /\ is_u64 hash.

(** ** The bytes of the arrays *)

Lemma keys_length keys : length (concat (map (to_le_bytes 32) keys)) = (32 * length keys)%nat.
Proof.
  induction keys as [|k keys IH]; [done|]. cbn [map concat length].
  rewrite length_app, to_le_bytes_length, IH. lia.
Qed.

Lemma key_slice keys j k tail :
  keys !! j = Some k -> slice (32 * j) 32 (concat (map (to_le_bytes 32) keys) ++ tail) = to_le_bytes 32 k.
Proof.
  revert j. induction keys as [|x keys IH]; intros [|j] Hj; try done; cbn [map concat]; rewrite <- app_assoc.
  - injection Hj as ->. by rewrite slice_here by apply to_le_bytes_length.
  - rewrite (slice_skip _ _ 32) by (rewrite ?to_le_bytes_length; lia).
    replace (32 * S j - 32)%nat with (32 * j)%nat by lia. by apply IH.
Qed.

Lemma flag_nth flags j f tail :
  flags !! j = Some f -> nth j (map bool_byte flags ++ tail) 0 = bool_byte f.
Proof.
  revert j. induction flags as [|x flags IH]; intros [|j] Hj; try done; [by injection Hj as -> | by apply IH].
Qed.

Lemma unpack_signers_eq input keys flags i :
  length flags = length keys ->
  (forall j k f, keys !! j = Some k -> flags !! j = Some f ->
     u8_at (206 + (i + j)) input = bool_byte f /\ key_at (14 + 32 * (i + j)) input = k) ->
  unpack_signers (length keys) i input = Ok (zip keys flags).
Proof.
  revert flags i. induction keys as [|k keys IH]; intros [|f flags] i Hl Hat; try done.
  destruct (Hat 0%nat k f eq_refl eq_refl) as [Hf Hk]. rewrite Nat.add_0_r in Hf, Hk.
  cbn [length unpack_signers zip zip_with]. rewrite Hf, Hk.
  rewrite (IH flags (S i)) by (try (by injection Hl); intros j k' f' Hj Hj';
    replace (S i + j)%nat with (i + S j)%nat by lia; by apply (Hat (S j))).
  by destruct f.
Qed.

Section Bytes.
Context (keys : list Z) (flags : list bool) (count min len dlen hash : Z).
Context (Hmax : (length keys <= MAX_SIGNERS)%nat) (Hflags : length flags = length keys).

Let m := multisig_with keys flags count min len dlen hash.

Definition key_bytes : list Z :=
  concat (map (to_le_bytes 32) keys) ++ replicate (32 * (MAX_SIGNERS - length keys)) 0.
Definition flag_bytes : list Z := map bool_byte flags ++ replicate (MAX_SIGNERS - length keys) 0.
Definition number_bytes : list Z :=
  [Z.of_nat (length keys)] ++ [count] ++ [min] ++ [len] ++ to_le_bytes 2 dlen ++ to_le_bytes 8 hash.

Lemma fields_bytes : zero_filled (fields m) = number_bytes ++ key_bytes ++ flag_bytes.
Proof using Hflags.
  unfold zero_filled, fields. cbn [map concat fst snd put_u8 put_u16 put_u64 put_signers put_signed].
  unfold m, multisig_with. cbn [num_signers num_signed min_signatures instruction_accounts_len
    instruction_data_len instruction_hash signers signed].
  rewrite Nat2Z.id, take_app_length, take_app_length' by done.
  unfold number_bytes, key_bytes, flag_bytes. by rewrite app_nil_r, <- !app_assoc.
Qed.

Lemma bytes_lengths :
  length number_bytes = 14%nat /\ length key_bytes = 192%nat /\ length flag_bytes = 6%nat.
Proof using Hmax Hflags.
  unfold number_bytes, key_bytes, flag_bytes, MAX_SIGNERS in *.
  rewrite !length_app, !to_le_bytes_length, keys_length, length_map, !length_replicate, Hflags.
  repeat split; cbn [length]; lia.
Qed.

Context (Hkeys : Forall is_key keys) (Hcount : 0 <= count <= Z.of_nat (length keys)).
Context (Hmin : 0 <= min <= Z.of_nat (length keys)) (Hsome : keys <> [] -> 0 < min).
Context (Hd : is_u16 dlen) (Hh : is_u64 hash).

Lemma unpack_bytes rest : unpack_multisig (zero_filled (fields m) ++ rest) = Ok m.
Proof using All.
  rewrite fields_bytes, <- !app_assoc. destruct bytes_lengths as (Hn & Hk & Hf).
  set (input := number_bytes ++ key_bytes ++ flag_bytes ++ rest). unfold unpack_multisig.
  rewrite check_len_ok by (unfold input; rewrite !length_app, Hn, Hk, Hf; cbv; lia). cbn [result_bind].
  assert (u8_at 0 input = Z.of_nat (length keys) /\ u8_at 1 input = count /\ u8_at 2 input = min /\
    u8_at 3 input = len) as (-> & -> & -> & ->) by done. cbv zeta.
  destruct (_ || _ || _ || _) eqn:E.
  { exfalso. rewrite !orb_true_iff, andb_true_iff, !Z.ltb_lt, Z.eqb_eq in E. unfold MAX_SIGNERS in *.
    assert (0 < Z.of_nat (length keys) -> 0 < min) as Hpos by (intros Hp; apply Hsome; by intros ->).
    clear Hsome. destruct E as [[[E|E]|E]|[E1 E2]]; lia. }
  assert (u16_at 4 input = dlen /\ u64_at 6 input = hash) as [-> ->].
  { unfold u16_at, u64_at, input, number_bytes. rewrite <- !app_assoc. split; repeat take_field.
    - by apply from_le_u16.
    - by apply from_le_u64. }
  rewrite Nat2Z.id, (unpack_signers_eq input keys flags 0); [|done|].
  2: { intros j k f Hj Hfj. pose proof (lookup_lt_Some _ _ _ Hj). unfold MAX_SIGNERS in *. split.
       - unfold u8_at, input. rewrite (nth_skip _ _ 14), (nth_skip _ _ 192) by (done || lia).
         unfold flag_bytes. rewrite <- app_assoc. replace (206 + (0 + j) - 14 - 192)%nat with j by lia.
         by apply flag_nth.
       - unfold key_at, input. rewrite (slice_skip _ _ 14) by (done || lia).
         unfold key_bytes. rewrite <- !app_assoc. replace (14 + 32 * (0 + j) - 14)%nat with (32 * j)%nat by lia.
         rewrite (key_slice _ _ k) by done. apply from_le_key. by eapply Forall_lookup_1. }
  cbn [result_bind]. by rewrite fst_zip, snd_zip by lia.
Qed.
End Bytes.

Lemma fields_constant m : Forall constant (fields m).
Proof. unfold fields. by repeat constructor. Qed.

Lemma fields_width m : width (fields m) = LEN.
Proof. reflexivity. Qed.

(** Packing over any buffer that is long enough. *)
Lemma pack_over_data m data :
  (LEN <= length data)%nat -> m.(num_signers) <= Z.of_nat MAX_SIGNERS ->
  pack_multisig m data = (Some (Ok LEN), zero_filled (fields m) ++ drop LEN data).
Proof.
  intros Hl Hn. unfold pack_multisig, check_output.
  erewrite st_try_Ok by (unfold reads; by rewrite check_len_ok).
  destruct (_ <? _) eqn:E; [lia|]. unfold write_fields, st_bind, st_modify, st_ok, st_ret.
  fold (fields m). by rewrite (fill_constant (fields m)), fields_width by apply fields_constant.
Qed.

#[export] Instance PackedLaw_multisig : PackedLaw Multisig valid_multisig.
Proof.
  split.
  - intros m output _ Hl. eapply eq_trans; [by apply (f_equal fst), check_output_short | done].
  - intros m (keys & flags & count & min & len & dlen & hash & -> & Hmax & Hfl & Hk & Hc & Hm & Hs & Hd & Hh).
    exists (zero_filled (fields (multisig_with keys flags count min len dlen hash))).
    pose proof (bytes_lengths keys flags count min len dlen hash Hmax Hfl) as (H1 & H2 & H3).
    split; [by rewrite fields_bytes, !length_app, H1, H2, H3 by done|]. split.
    + intros n Hn. cbn [pack Packed_multisig packed_size] in *.
      rewrite pack_over_data, drop_replicate 
        by (rewrite ?length_replicate; first [exact Hn | unfold multisig_with; cbn [num_signers]; lia]). done.
    + intros rest. by apply unpack_bytes.
Qed.

(** ** [set_signers] *)

Lemma collect_signers_Ok admins front n d :
  (length admins <= n)%nat -> NoDup (front ++ admins) -> d ∉ admins ->
  collect_signers admins (length front) (front ++ replicate n d)
  = Ok (front ++ admins ++ replicate (n - length admins) d).
Proof.
  revert front n. induction admins as [|a admins IH]; intros front n Hl Hnd Hd; cbn [collect_signers length] in *.
  - by rewrite Nat.sub_0_r.
  - destruct n as [|n]; [lia|]. apply not_elem_of_cons in Hd as [Had Hd].
    pose proof Hnd as Hnd'. apply NoDup_app in Hnd' as (_ & Hdis & _).
    rewrite bool_decide_false.
    2: { rewrite elem_of_app, elem_of_replicate. intros [Hin|[-> _]]; [|done].
         apply (Hdis a Hin). by left. }
    rewrite insert_app_r_alt, Nat.sub_diag by done. cbn [replicate insert list_insert].
    rewrite (cons_middle a front), app_assoc in Hnd. rewrite (cons_middle a front), app_assoc.
    replace (S (length front)) with (length (front ++ [a])) by (rewrite length_app; cbn; lia).
    rewrite IH by (done || lia). by rewrite <- !app_assoc.
Qed.

Lemma collect_signers_Err admins front n d :
  (length admins <= n)%nat -> NoDup front -> d ∉ front -> ~ (NoDup (front ++ admins) /\ d ∉ admins) ->
  collect_signers admins (length front) (front ++ replicate n d) = Err IncorrectAccountAddress.
Proof.
  revert front n. induction admins as [|a admins IH]; intros front n Hl Hnd Hdf Hbad; cbn [collect_signers length] in *.
  - exfalso. apply Hbad. rewrite app_nil_r. split; [done | apply not_elem_of_nil].
  - destruct n as [|n]; [lia|]. destruct (bool_decide (a ∈ front ++ replicate (S n) d)) eqn:E; [done|].
    apply bool_decide_eq_false in E. rewrite not_elem_of_app, elem_of_replicate in E.
    destruct E as [Haf Had]. rewrite insert_app_r_alt, Nat.sub_diag by done. cbn [replicate insert list_insert].
    rewrite (cons_middle a front).
    replace (S (length front)) with (length (front ++ [a])) by (rewrite length_app; cbn; lia).
    rewrite app_assoc. apply IH; [lia | | |].
    + apply NoDup_app. split; [done|]. split; [|apply NoDup_singleton].
      intros x Hx Hin. apply list_elem_of_singleton in Hin as ->. done.
    + rewrite not_elem_of_app, list_elem_of_singleton. split; [done|]. intros ->. by apply Had.
    + rewrite <- app_assoc. intros [Hnd' Hd']. apply Hbad. split; [done|].
      apply not_elem_of_cons. split; [|done]. intros ->. by apply Had.
Qed.

(** An account whose data begins with a packed multisignature. *)
Definition holds (m : Multisig) (data : list Z) : Prop :=
  valid_multisig m /\ exists rest, data = zero_filled (fields m) ++ rest.

Lemma holds_unpack m data : holds m data -> multisig_of data = Ok m.
Proof.
  intros [(keys & flags & count & min & len & dlen & hash & -> & Hmax & Hfl & Hk & Hc & Hm & Hs & Hd & Hh) [rest ->]].
  unfold multisig_of. by rewrite unpack_bytes.
Qed.

Lemma holds_pack m m' data :
  holds m data -> valid_multisig m' ->
  exists data', pack_multisig m' data = (Some (Ok LEN), data') /\ holds m' data' /\
    length data' = length data.
Proof.
  intros [Hv [rest ->]] Hv'.
  assert (forall m0, valid_multisig m0 -> length (zero_filled (fields m0)) = LEN /\ num_signers m0 <= Z.of_nat MAX_SIGNERS)
    as Hlen.
  { intros m0 (keys & flags & count & min & len & dlen & hash & -> & Hmax & Hfl & _).
    pose proof (bytes_lengths keys flags count min len dlen hash Hmax Hfl) as (H1 & H2 & H3).
    rewrite fields_bytes, !length_app, H1, H2, H3 by done. split; [done|].
    unfold multisig_with. cbn [num_signers]. lia. }
  destruct (Hlen m Hv) as [Hl _]. destruct (Hlen m' Hv') as [Hl' Hn'].
  eexists. rewrite pack_over_data by (rewrite ?length_app; lia). split; [reflexivity|].
  split; [split; [done | by eexists]|]. rewrite !length_app, length_drop, length_app. lia.
Qed.

Definition is_signer_of (m : Multisig) (k : Z) : bool := bool_decide (k ∈ m.(signers)).

Lemma get_signer_index_Ok m k i : get_signer_index m k = Ok i -> m.(signers) !! i = Some k.
Proof.
  unfold get_signer_index. destruct (list_find _ _) as [[j x]|] eqn:E; [|done]. intros [= ->].
  by apply list_find_Some in E as (Hj & -> & _).
Qed.

Lemma get_signer_index_Err m k e : get_signer_index m k = Err e -> k ∉ m.(signers).
Proof.
  unfold get_signer_index. destruct (list_find _ _) as [[j x]|] eqn:E; [done|]. intros _ Hin.
  apply list_find_None in E. rewrite Forall_forall in E. by apply (E k Hin).
Qed.

Lemma is_signer_eq m data fallback k :
  holds m data -> Multisig.is_signer true fallback k data = Ok (is_signer_of m k).
Proof.
  intros Hh. unfold Multisig.is_signer, is_signer_of. cbn [negb]. rewrite (holds_unpack m) by done.
  cbn [result_bind]. destruct (get_signer_index m k) as [i|e] eqn:E.
  - rewrite bool_decide_true; [done|]. eapply list_elem_of_lookup_2. by apply get_signer_index_Ok.
  - rewrite bool_decide_false; [done|]. by eapply get_signer_index_Err.
Qed.

(** C35. [set_signers] succeeds exactly for one to six different keys, none of them
    the default key, and a number of signatures from one to as many as there are
    keys; then the signers of the account are those keys and, while there are
    fewer than six, the key that stands for no key.  When it fails the account is
    as it was. *)
Theorem set_signers_spec admins min data :
  (LEN <= length data)%nat -> Forall is_key admins -> 0 <= min ->
  if decide (admins <> [] /\ 0 < min <= Z.of_nat (length admins) /\ (length admins <= MAX_SIGNERS)%nat /\
             NoDup admins /\ default_key ∉ admins)
  then exists data', set_signers admins min data = (Some (Ok LEN), data') /\ length data' = length data /\
    forall fallback k, Multisig.is_signer true fallback k data'
      = Ok (bool_decide (k ∈ admins) || ((length admins <? MAX_SIGNERS)%nat && (k =? zero_id)))
  else exists e, set_signers admins min data = (Some (Err e), data).
Proof.
  intros Hl Hkeys Hmin. unfold set_signers.
  destruct (bool_decide (admins = []) || (min =? 0)) eqn:E1.
  { rewrite decide_False; [by eexists|]. intros (Hne & Hm & _).
    rewrite orb_true_iff, bool_decide_eq_true, Z.eqb_eq in E1. destruct E1; [done | lia]. }
  destruct (_ <? min) eqn:E2.
  { rewrite decide_False; [by eexists|]. apply Z.ltb_lt in E2. lia. }
  destruct (MAX_SIGNERS <? _)%nat eqn:E3.
  { rewrite decide_False; [by eexists|]. apply Nat.ltb_lt in E3. lia. }
  rewrite orb_false_iff, bool_decide_eq_false, Z.eqb_neq in E1. destruct E1 as [Hne Hm0].
  apply Z.ltb_ge in E2. apply Nat.ltb_ge in E3.
  destruct (decide (NoDup admins /\ default_key ∉ admins)) as [[Hnd Hdef]|Hbad].
  2: { rewrite decide_False by tauto. eexists. unfold st_try, st_bind, st_ret.
       assert (collect_signers admins 0 (replicate MAX_SIGNERS default_key) = Err IncorrectAccountAddress) as ->
         by (apply (collect_signers_Err admins []); [done | by apply NoDup_nil_2 | apply not_elem_of_nil | done]).
       reflexivity. }
  rewrite decide_True by (repeat split; (done || lia)).
  unfold st_try, st_bind, st_ret.
  assert (collect_signers admins 0 (replicate MAX_SIGNERS default_key)
    = Ok (admins ++ replicate (MAX_SIGNERS - length admins) default_key)) as ->
    by (by apply (collect_signers_Ok admins [])). set (m := Build_Multisig _ _ _ _ _ _ _ _).
  set (m' := multisig_with admins (replicate (length admins) false) 0 min 0 0 0).
  assert (fields m = fields m') as Ef.
  { unfold fields, put_signers, put_signed, m, m', multisig_with. cbn [num_signers num_signed min_signatures
      instruction_accounts_len instruction_data_len instruction_hash signers signed].
    rewrite Nat2Z.id, !take_app_length, <- replicate_add.
    by replace (length admins + (MAX_SIGNERS - length admins))%nat with MAX_SIGNERS by lia. }
  rewrite pack_over_data, Ef by (unfold m; cbn [num_signers]; lia).
  assert (valid_multisig m') as Hv.
  { exists admins, (replicate (length admins) false), 0, min, 0, 0, 0. rewrite length_replicate.
    repeat split; (done || lia). }
  eexists. split; [reflexivity|]. assert (holds m' (zero_filled (fields m') ++ drop LEN data)) as Hh
    by (split; [done | by eexists]).
  split.
  - pose proof (bytes_lengths admins (replicate (length admins) false) 0 min 0 0 0 E3 (length_replicate _ _)) as (H1 & H2 & H3).
    unfold m'. rewrite fields_bytes, !length_app, length_drop, H1, H2, H3 by (by rewrite length_replicate).
    unfold LEN, MAX_SIGNERS in *. lia.
  - intros fallback k. rewrite (is_signer_eq m') by done. unfold is_signer_of, m', multisig_with. cbn [signers].
    f_equal. apply eq_iff_eq_true.
    rewrite orb_true_iff, andb_true_iff, !bool_decide_eq_true, elem_of_app, elem_of_replicate, Nat.ltb_lt, Z.eqb_eq.
    split; (intros [Hin|[Hx Hy]]; [by left | right; split; [lia || done | lia || done]]).
Qed.

(** ** [unsign_multisig] *)

Definition count_signed (flags : list bool) : Z := Z.of_nat (length (List.filter (fun f : bool => f) flags)).

Lemma count_cleared flags i :
  flags !! i = Some true -> count_signed (<[i := false]> flags) = count_signed flags - 1.
Proof.
  unfold count_signed. revert i. induction flags as [|f flags IH]; intros [|i] Hi; try done.
  - injection Hi as ->. cbn. lia.
  - specialize (IH i Hi). change (<[S i:=false]> (f :: flags)) with (f :: <[i:=false]> flags).
    destruct f; cbn [List.filter length]; lia.
Qed.

(** The number of signatures is the number of the flags. *)
Definition counted (m : Multisig) : Prop := m.(num_signed) = count_signed m.(signed).

Definition cleared (i : nat) (m : Multisig) : Multisig := {|
  num_signers := m.(num_signers); num_signed := m.(num_signed) - 1; min_signatures := m.(min_signatures);
  instruction_accounts_len := m.(instruction_accounts_len); instruction_data_len := m.(instruction_data_len);
  instruction_hash := m.(instruction_hash); signers := m.(signers); signed := <[i := false]> m.(signed) |}.

Lemma cleared_valid m i :
  valid_multisig m -> 0 < m.(num_signed) -> m.(signed) !! i = Some true -> valid_multisig (cleared i m).
Proof.
  intros (keys & flags & count & min & len & dlen & hash & -> & Hmax & Hfl & Hk & Hc & Hm & Hs & Hd & Hh) Hpos Hi.
  unfold multisig_with in *. cbn [num_signed signed] in *.
  assert (i < length flags)%nat as Hlt.
  { destruct (decide (i < length flags)%nat) as [|Hge]; [done|].
    rewrite lookup_app_r in Hi by lia. apply lookup_replicate in Hi as [Hx _]. done. }
  exists keys, (<[i := false]> flags), (count - 1), min, len, dlen, hash. split.
  - unfold cleared, multisig_with. cbn. by rewrite insert_app_l.
  - rewrite length_insert. do 3 (split; [done|]). split; [lia|]. done.
Qed.

(** Taking a signature back changes no signer and clears no flag but the
    signer's own, and the number of signatures stays the number of flags; it
    fails, and changes nothing, for an account that did not sign the transaction
    or is no signer of the multisignature. *)
Theorem unsign_clears_own_flag m data signer :
  holds m data -> counted m ->
  match unsign_multisig true signer data with
  | (Some (Ok _), data') => exists m', holds m' data' /\ counted m' /\ length data' = length data /\
      m'.(signers) = m.(signers) /\ m'.(min_signatures) = m.(min_signatures) /\
      (forall i, m'.(signed) !! i = Some true -> m.(signed) !! i = Some true) /\
      (forall i, m.(signed) !! i = Some true ->
         m'.(signed) !! i = Some true \/ m.(signers) !! i = Some signer.(key))
  | (Some (Err e), data') => data' = data /\
      (signer.(SdkAccount.is_signer) = false \/ is_signer_of m signer.(key) = false)
  | (None, _) => False
  end.
Proof.
  intros Hh Hc. unfold unsign_multisig.
  destruct (SdkAccount.is_signer signer) eqn:Es; cbn [negb]; [|by split; [|left]].
  assert (exists m', holds m' data /\ counted m' /\ length data = length data /\ m'.(signers) = m.(signers) /\
    m'.(min_signatures) = m.(min_signatures) /\ (forall i, m'.(signed) !! i = Some true -> m.(signed) !! i = Some true) /\
    (forall i, m.(signed) !! i = Some true -> m'.(signed) !! i = Some true \/ m.(signers) !! i = Some signer.(key)))
    as Hsame by (exists m; do 6 (split; [done|]); by left).
  assert (reads multisig_of data = (Some (Ok m), data)) as Hread
    by (unfold reads; by rewrite (holds_unpack m)).
  rewrite (st_try_Ok _ _ _ _ _ Hread).
  destruct (_ || _) eqn:E0; [exact Hsame|]. rewrite orb_false_iff, Z.eqb_neq in E0. destruct E0 as [_ Hn0].
  destruct (get_signer_index m (key signer)) as [i|e] eqn:Ei.
  2: { split; [done|]. right. unfold is_signer_of. apply bool_decide_eq_false. by eapply get_signer_index_Err. }
  destruct (signed m !! i) as [[]|] eqn:Ef; [|exact Hsame..].
  assert (0 < num_signed m) as Hpos by (rewrite Hc in *; unfold count_signed in *; lia).
  destruct (holds_pack m (cleared i m) data Hh (cleared_valid m i (proj1 Hh) Hpos Ef)) as (data' & Hp & Hh' & Hl).
  change (negb (default false (Some true))) with false. cbv iota.
  rewrite (st_try_Ok _ _ _ _ _ Hp). exists (cleared i m). split; [done|]. split.
  { unfold counted, cleared. cbn [num_signed signed]. by rewrite count_cleared, Hc. }
  split; [done|]. split; [done|]. split; [done|]. unfold cleared. cbn [signed signers]. split; intros j Hj.
  - destruct (decide (j = i)) as [->|Hne]; [done|]. by rewrite list_lookup_insert_ne in Hj.
  - destruct (decide (j = i)) as [->|Hne].
    + right. by apply get_signer_index_Ok.
    + left. by rewrite list_lookup_insert_ne.
Qed.
End Facts.

(** ** A multisignature of two *)

#[local] Instance sample_ids : ProgramIds := {| spl_token_id := 1; zero_id := 1837070; main_router_admin := 3 |}.

Lemma set_signers_spec_witness :
  exists data', set_signers [7; 8] 2 (replicate 300 0) = (Some (Ok LEN), data') /\ length data' = 300%nat /\
    forall fallback k, Multisig.is_signer true fallback k data'
      = Ok (bool_decide (k ∈ [7; 8]) || (true && (k =? 1837070))).
Proof.
  assert (LEN <= length (replicate 300 0))%nat as Hl by (rewrite length_replicate; cbv; lia).
  assert (Forall is_key [7; 8]) as Hk by (repeat constructor; lia).
  pose proof (set_signers_spec [7; 8] 2 (replicate 300 0) Hl Hk ltac:(lia)) as Hs.
  rewrite decide_True in Hs; [by rewrite length_replicate in Hs|].
  split; [done|]. split; [cbn; lia|]. split; [cbv; lia|]. split; [|set_solver].
  apply (bool_decide_unpack _). vm_compute. exact I.
Defined.

Definition sample_multisig : Multisig := multisig_with [7; 8] [true; true] 2 2 1 9 77.

Definition sample_signer : AccountInfo := {|
  key := 8; owner := 1; lamports := 5; data := []; SdkAccount.is_signer := true |}.

Lemma unsign_clears_own_flag_witness :
  match unsign_multisig true sample_signer (zero_filled (fields sample_multisig)) with
  | (Some (Ok _), data') => exists m', holds m' data' /\ counted m' /\ length data' = LEN /\
      m'.(signers) = sample_multisig.(signers) /\ m'.(min_signatures) = 2 /\
      (forall i, m'.(signed) !! i = Some true -> sample_multisig.(signed) !! i = Some true) /\
      (forall i, sample_multisig.(signed) !! i = Some true ->
         m'.(signed) !! i = Some true \/ sample_multisig.(signers) !! i = Some 8)
  | _ => False
  end.
Proof.
  assert (valid_multisig sample_multisig) as Hv.
  { exists [7; 8], [true; true], 2, 2, 1, 9, 77. repeat split; try done; try (cbn; lia); repeat constructor; lia. }
  assert (holds sample_multisig (zero_filled (fields sample_multisig))) as Hh
    by (split; [exact Hv | exists []; by rewrite app_nil_r]).
  pose proof (unsign_clears_own_flag sample_multisig _ sample_signer Hh eq_refl) as Hu.
  destruct (unsign_multisig true sample_signer _) as [o data'] eqn:E.
  assert (match o with Some (Ok _) => True | _ => False end) as Hok
    by (replace o with (fst (unsign_multisig true sample_signer (zero_filled (fields sample_multisig))))
          by (by rewrite E); vm_compute; exact I).
  destruct o as [[u|e]|]; [exact Hu | destruct Hok | destruct Hok].
Defined.
