(* ===== verification/Cpi.v ===== *)
(** * Invoking other programs, and the data of Raydium's and Orca's instructions

    The instructions the SDK passes to [invoke] and [invoke_signed], and the
    runtime behind them: what an invoked program does to the accounts, the
    addresses derived from seeds, the rent, and the instructions that
    [spl_token], [system_instruction] and [spl_token_swap] build are not code of
    the repository.  An account is passed as its key; what is known about it is
    in [SdkAccount.Accounts]. *)

From S2P Require Import Prelude MachineInt Pack SdkAccount.

Record AccountMeta := {
  pubkey : Z;
  is_signer : bool;
  is_writable : bool;
}.

Record Instruction := {
  program_id : Z;
  accounts : list AccountMeta;
  data : list Z;
}.

(** [AccountMeta::new] and [AccountMeta::new_readonly]. *)
Definition writable (k : Z) : AccountMeta := {| pubkey := k; is_signer := false; is_writable := true |}.
Definition readonly (k : Z) : AccountMeta := {| pubkey := k; is_signer := false; is_writable := false |}.
Definition signer (k : Z) : AccountMeta := {| pubkey := k; is_signer := true; is_writable := false |}.

(** [&[&[u8]]] and [&[&[&[u8]]]]. *)
Abbreviation Seed := (list (list Z)) (only parsing).
Abbreviation Seeds := (list (list (list Z))) (only parsing).

Abbreviation Cpi := (ST Accounts (result ProgramError unit)) (only parsing).

Class Runtime := {
  invoke_signed : Instruction -> list Z -> list (list (list Z)) -> ST Accounts (result ProgramError unit);
  find_program_address : list (list Z) -> Z -> Z * Z;
  create_with_seed : Z -> list Z -> Z -> result ProgramError Z;
  rent_get : result ProgramError (Z -> Z);
}.

(** [invoke] is [invoke_signed] without seeds. *)
Definition invoke `{Runtime} (instruction : Instruction) (accounts : list Z) : Cpi :=
  invoke_signed instruction accounts [].

(** The bytes of [to_vec()?]. *)
Definition packed_data {S} (o : option (result ProgramError (list Z))) : ST S (result ProgramError (list Z)) :=
  match o with Some r => st_ret r | None => st_panic end.

(** The signers an instruction asks for. *)
Definition signers_of (i : Instruction) : list Z :=
  map pubkey (List.filter is_signer i.(accounts)).

(** [spl_token::instruction] and [create_associated_token_account]: the program id,
    the accounts in the order of the parameters, and the amounts. *)
Class SplToken := {
  initialize_account : Z -> Z -> Z -> Z -> result ProgramError Instruction;
  initialize_mint : Z -> Z -> Z -> option Z -> Z -> result ProgramError Instruction;
  close_account : Z -> Z -> Z -> Z -> result ProgramError Instruction;
  transfer : Z -> Z -> Z -> Z -> Z -> result ProgramError Instruction;
  mint_to : Z -> Z -> Z -> Z -> Z -> result ProgramError Instruction;
  burn : Z -> Z -> Z -> Z -> Z -> result ProgramError Instruction;
  approve : Z -> Z -> Z -> Z -> Z -> result ProgramError Instruction;
  revoke : Z -> Z -> Z -> result ProgramError Instruction;
  create_associated_token_account : Z -> Z -> Z -> Instruction;
}.

(** [system_instruction]. *)
Class SystemInstruction := {
  create_account : Z -> Z -> Z -> Z -> Z -> Instruction;
  create_account_with_seed : Z -> Z -> Z -> list Z -> Z -> Z -> Z -> Instruction;
  system_transfer : Z -> Z -> Z -> Instruction;
  allocate : Z -> Z -> Instruction;
  assign : Z -> Z -> Instruction;
}.

(** What a program sees of an account: one that is not there has no lamports and
    no data and belongs to the system program, whose id is 0. *)
Definition account_at (k : Z) (accounts : Accounts) : AccountInfo :=
  default {| key := k; owner := 0; lamports := 0; SdkAccount.data := []; SdkAccount.is_signer := false |}
    (accounts !! k).

Definition reads_account (k : Z) : ST Accounts AccountInfo := st_gets (account_at k).

(** * Raydium instructions ([crates/solana_farm_sdk/src/instruction/raydium.rs])

    The data of the instructions of Raydium's own programs: a tag that the caller
    gives and the amounts. *)

Module RaydiumAddLiquidity.
Record t := {
  instruction : Z;
  max_coin_token_amount : Z;
  max_pc_token_amount : Z;
  base_side : Z;
}.

Definition LEN : nat := 25.

Definition pack (x : t) : Db nat :=
  check_output LEN
    (write_fields LEN
      [put_u8 x.(instruction); put_u64 x.(max_coin_token_amount); put_u64 x.(max_pc_token_amount);
       put_u64 x.(base_side)]).

Definition to_vec (x : t) : option (result ProgramError (list Z)) :=
  to_vec_with LEN InvalidInstructionData (pack x).

Lemma to_vec_bytes_RaydiumAddLiquidity x : to_vec x = Some (Ok ([x.(instruction)] ++ to_le_bytes 8 x.(max_coin_token_amount) ++ to_le_bytes 8 x.(max_pc_token_amount) ++ to_le_bytes 8 x.(base_side))).
Proof. reflexivity. Qed.
End RaydiumAddLiquidity.

Module RaydiumRemoveLiquidity.
Record t := {
  instruction : Z;
  amount : Z;
}.

Definition LEN : nat := 9.

Definition pack (x : t) : Db nat :=
  check_output LEN
    (write_fields LEN
      [put_u8 x.(instruction); put_u64 x.(amount)]).

Definition to_vec (x : t) : option (result ProgramError (list Z)) :=
  to_vec_with LEN InvalidInstructionData (pack x).

Lemma to_vec_bytes_RaydiumRemoveLiquidity x : to_vec x = Some (Ok ([x.(instruction)] ++ to_le_bytes 8 x.(amount))).
Proof. reflexivity. Qed.
End RaydiumRemoveLiquidity.

Module RaydiumSwap.
Record t := {
  instruction : Z;
  amount_in : Z;
  min_amount_out : Z;
}.

Definition LEN : nat := 17.

Definition pack (x : t) : Db nat :=
  check_output LEN
    (write_fields LEN
      [put_u8 x.(instruction); put_u64 x.(amount_in); put_u64 x.(min_amount_out)]).

Definition to_vec (x : t) : option (result ProgramError (list Z)) :=
  to_vec_with LEN InvalidInstructionData (pack x).

Lemma to_vec_bytes_RaydiumSwap x : to_vec x = Some (Ok ([x.(instruction)] ++ to_le_bytes 8 x.(amount_in) ++ to_le_bytes 8 x.(min_amount_out))).
Proof. reflexivity. Qed.
End RaydiumSwap.

Module RaydiumStake.
Record t := {
  instruction : Z;
  amount : Z;
}.

Definition LEN : nat := 9.

Definition pack (x : t) : Db nat :=
  check_output LEN
    (write_fields LEN
      [put_u8 x.(instruction); put_u64 x.(amount)]).

Definition to_vec (x : t) : option (result ProgramError (list Z)) :=
  to_vec_with LEN InvalidInstructionData (pack x).

Lemma to_vec_bytes_RaydiumStake x : to_vec x = Some (Ok ([x.(instruction)] ++ to_le_bytes 8 x.(amount))).
Proof. reflexivity. Qed.
End RaydiumStake.

Module RaydiumUnstake.
Record t := {
  instruction : Z;
  amount : Z;
}.

Definition LEN : nat := 9.

Definition pack (x : t) : Db nat :=
  check_output LEN
    (write_fields LEN
      [put_u8 x.(instruction); put_u64 x.(amount)]).

Definition to_vec (x : t) : option (result ProgramError (list Z)) :=
  to_vec_with LEN InvalidInstructionData (pack x).

Lemma to_vec_bytes_RaydiumUnstake x : to_vec x = Some (Ok ([x.(instruction)] ++ to_le_bytes 8 x.(amount))).
Proof. reflexivity. Qed.
End RaydiumUnstake.

Module RaydiumHarvest.
Record t := {
  instruction : Z;
}.

Definition LEN : nat := 1.

Definition pack (x : t) : Db nat :=
  check_output LEN
    (write_fields LEN
      [put_u8 x.(instruction)]).

Definition to_vec (x : t) : option (result ProgramError (list Z)) :=
  to_vec_with LEN InvalidInstructionData (pack x).

Lemma to_vec_bytes_RaydiumHarvest x : to_vec x = Some (Ok ([x.(instruction)])).
Proof. reflexivity. Qed.
End RaydiumHarvest.

(** * Orca instructions ([crates/solana_farm_sdk/src/instruction/orca.rs])

    The data of the instructions of Orca's farms: the tag and the amount. *)

Inductive OrcaInstructionType :=
| TInitGlobalFarm | TInitUserFarm | TConvertTokens | TRevertTokens | THarvest | TRemoveRewards
| TSetEmissionsPerSecond.

#[export] Instance OrcaInstructionType_primitive : Primitive OrcaInstructionType.
Proof.
  refine {| variants := [TInitGlobalFarm; TInitUserFarm; TConvertTokens; TRevertTokens; THarvest;
                         TRemoveRewards; TSetEmissionsPerSecond] |}.
  - solve_decision.
  - intros []; set_solver.
Defined.

Module OrcaUserInit.
Inductive t := Build_t.

Definition LEN : nat := 1.

Definition pack (_ : t) : Db nat :=
  check_output LEN
    (write_fields LEN
      [put_u8 (as_u8 TInitUserFarm)]).

Definition to_vec (x : t) : option (result ProgramError (list Z)) :=
  to_vec_with LEN InvalidInstructionData (pack x).

Lemma to_vec_bytes_OrcaUserInit  : to_vec Build_t = Some (Ok ([as_u8 TInitUserFarm])).
Proof. reflexivity. Qed.
End OrcaUserInit.

Module OrcaStake.
Record t := {
  amount : Z;
}.

Definition LEN : nat := 9.

Definition pack (x : t) : Db nat :=
  check_output LEN
    (write_fields LEN
      [put_u8 (as_u8 TConvertTokens); put_u64 x.(amount)]).

Definition to_vec (x : t) : option (result ProgramError (list Z)) :=
  to_vec_with LEN InvalidInstructionData (pack x).

Lemma to_vec_bytes_OrcaStake x : to_vec x = Some (Ok ([as_u8 TConvertTokens] ++ to_le_bytes 8 x.(amount))).
Proof. reflexivity. Qed.
End OrcaStake.

Module OrcaUnstake.
Record t := {
  amount : Z;
}.

Definition LEN : nat := 9.

Definition pack (x : t) : Db nat :=
  check_output LEN
    (write_fields LEN
      [put_u8 (as_u8 TRevertTokens); put_u64 x.(amount)]).

Definition to_vec (x : t) : option (result ProgramError (list Z)) :=
  to_vec_with LEN InvalidInstructionData (pack x).

Lemma to_vec_bytes_OrcaUnstake x : to_vec x = Some (Ok ([as_u8 TRevertTokens] ++ to_le_bytes 8 x.(amount))).
Proof. reflexivity. Qed.
End OrcaUnstake.

Module OrcaHarvest.
Inductive t := Build_t.

Definition LEN : nat := 1.

Definition pack (_ : t) : Db nat :=
  check_output LEN
    (write_fields LEN
      [put_u8 (as_u8 THarvest)]).

Definition to_vec (x : t) : option (result ProgramError (list Z)) :=
  to_vec_with LEN InvalidInstructionData (pack x).

Lemma to_vec_bytes_OrcaHarvest  : to_vec Build_t = Some (Ok ([as_u8 THarvest])).
Proof. reflexivity. Qed.
End OrcaHarvest.
