(* ===== verification/Raydium.v ===== *)
(** * Raydium on chain ([crates/solana_farm_sdk/src/program/protocol/raydium.rs])

    The accounts of Raydium's programs, the quotes for deposits, withdrawals and
    swaps computed from them, and the instructions that are invoked.  Program ids
    are the numbers their base58 strings spell. *)

From S2P Require Import Prelude MachineInt Amounts Pack SdkAccount Cpi.

Definition raydium_v2 : Z := 0xcf3ca72e8e0bbbc95604b9da290cd450b60da40289f81a4d7700bbdc4ff64506.
Definition raydium_v3 : Z := 0x47a032f58602cad08897f6cda4abd3ca704020fab53177d0096f04b15a0e9310.
Definition raydium_v4 : Z := 0xcd8ab6f87decff0ca9a221f15c97b9a14c52a316ed9077203fc30236c449d94b.
Definition raydium_stake : Z := 0xf7bed6d801fe4c6ee5ac2afb7221cc61bc8017c7209ed1266ba4104957e794cb.
Definition raydium_stake_v4 : Z := 0x24dab5d8d40ad8890c12b04a75f7a727db851a992345d9aef6ecd677b0b6dd02.
Definition raydium_stake_v5 : Z := 0xef4238112833f17be3a74b7180bf15455253ca7be5843316c1590a1afa17897b.

Definition RAYDIUM_FEE_NUMERATOR : Z := 25.
Definition RAYDIUM_FEE_DENOMINATOR : Z := 10000.

Module RaydiumUserStakeInfo.
Record t := {
  state : Z;
  farm_id : Z;
  stake_owner : Z;
  deposit_balance : Z;
  reward_debt : Z;
}.

Definition LEN : nat := 88.

Definition unpack (input : list Z) : result ProgramError t :=
  _ <-? check_data_len input LEN ;;
  run_get (state_ <-g get_u64 ;; farm_id_ <-g get_key ;; stake_owner_ <-g get_key ;;
           deposit_balance_ <-g get_u64 ;; reward_debt_ <-g get_u64 ;;
           get_ret {| state := state_; farm_id := farm_id_; stake_owner := stake_owner_;
                      deposit_balance := deposit_balance_; reward_debt := reward_debt_ |}) input.
End RaydiumUserStakeInfo.

Module RaydiumUserStakeInfoV4.
Record t := {
  state : Z;
  farm_id : Z;
  stake_owner : Z;
  deposit_balance : Z;
  reward_debt : Z;
  reward_debt_b : Z;
}.

Definition LEN : nat := 96.

Definition unpack (input : list Z) : result ProgramError t :=
  _ <-? check_data_len input LEN ;;
  run_get (state_ <-g get_u64 ;; farm_id_ <-g get_key ;; stake_owner_ <-g get_key ;;
           deposit_balance_ <-g get_u64 ;; reward_debt_ <-g get_u64 ;; reward_debt_b_ <-g get_u64 ;;
           get_ret {| state := state_; farm_id := farm_id_; stake_owner := stake_owner_;
                      deposit_balance := deposit_balance_; reward_debt := reward_debt_;
                      reward_debt_b := reward_debt_b_ |}) input.
End RaydiumUserStakeInfoV4.

Module AmmInfoV4.
Record t := {
  status : Z;
  nonce : Z;
  order_num : Z;
  depth : Z;
  coin_decimals : Z;
  pc_decimals : Z;
  state : Z;
  reset_flag : Z;
  min_size : Z;
  vol_max_cut_ratio : Z;
  amount_wave : Z;
  coin_lot_size : Z;
  pc_lot_size : Z;
  min_price_multiplier : Z;
  max_price_multiplier : Z;
  sys_decimal_value : Z;
  min_separate_numerator : Z;
  min_separate_denominator : Z;
  trade_fee_numerator : Z;
  trade_fee_denominator : Z;
  pnl_numerator : Z;
  pnl_denominator : Z;
  swap_fee_numerator : Z;
  swap_fee_denominator : Z;
  need_take_pnl_coin : Z;
  need_take_pnl_pc : Z;
  total_pnl_pc : Z;
  total_pnl_coin : Z;
  pool_total_deposit_pc : Z;
  pool_total_deposit_coin : Z;
  swap_coin_in_amount : Z;
  swap_pc_out_amount : Z;
  swap_coin_to_pc_fee : Z;
  swap_pc_in_amount : Z;
  swap_coin_out_amount : Z;
  swap_pc_to_coin_fee : Z;
  token_coin : Z;
  token_pc : Z;
  coin_mint : Z;
  pc_mint : Z;
  lp_mint : Z;
  open_orders : Z;
  market : Z;
  serum_dex : Z;
  target_orders : Z;
  withdraw_queue : Z;
  token_temp_lp : Z;
  amm_owner : Z;
  pnl_owner : Z;
}.

Definition LEN : nat := 752.

Definition unpack (input : list Z) : result ProgramError t :=
  _ <-? check_data_len input LEN ;;
  run_get (status_ <-g get_u64 ;; nonce_ <-g get_u64 ;; order_num_ <-g get_u64 ;;
           depth_ <-g get_u64 ;; coin_decimals_ <-g get_u64 ;; pc_decimals_ <-g get_u64 ;;
           state_ <-g get_u64 ;; reset_flag_ <-g get_u64 ;; min_size_ <-g get_u64 ;;
           vol_max_cut_ratio_ <-g get_u64 ;; amount_wave_ <-g get_u64 ;;
           coin_lot_size_ <-g get_u64 ;; pc_lot_size_ <-g get_u64 ;;
           min_price_multiplier_ <-g get_u64 ;; max_price_multiplier_ <-g get_u64 ;;
           sys_decimal_value_ <-g get_u64 ;; min_separate_numerator_ <-g get_u64 ;;
           min_separate_denominator_ <-g get_u64 ;; trade_fee_numerator_ <-g get_u64 ;;
           trade_fee_denominator_ <-g get_u64 ;; pnl_numerator_ <-g get_u64 ;;
           pnl_denominator_ <-g get_u64 ;; swap_fee_numerator_ <-g get_u64 ;;
           swap_fee_denominator_ <-g get_u64 ;; need_take_pnl_coin_ <-g get_u64 ;;
           need_take_pnl_pc_ <-g get_u64 ;; total_pnl_pc_ <-g get_u64 ;;
           total_pnl_coin_ <-g get_u64 ;; pool_total_deposit_pc_ <-g get_number 16 ;;
           pool_total_deposit_coin_ <-g get_number 16 ;; swap_coin_in_amount_ <-g get_number 16 ;;
           swap_pc_out_amount_ <-g get_number 16 ;; swap_coin_to_pc_fee_ <-g get_u64 ;;
           swap_pc_in_amount_ <-g get_number 16 ;; swap_coin_out_amount_ <-g get_number 16 ;;
           swap_pc_to_coin_fee_ <-g get_u64 ;; token_coin_ <-g get_key ;; token_pc_ <-g get_key ;;
           coin_mint_ <-g get_key ;; pc_mint_ <-g get_key ;; lp_mint_ <-g get_key ;;
           open_orders_ <-g get_key ;; market_ <-g get_key ;; serum_dex_ <-g get_key ;;
           target_orders_ <-g get_key ;; withdraw_queue_ <-g get_key ;;
           token_temp_lp_ <-g get_key ;; amm_owner_ <-g get_key ;; pnl_owner_ <-g get_key ;;
           get_ret {| status := status_; nonce := nonce_; order_num := order_num_; depth := depth_;
                      coin_decimals := coin_decimals_; pc_decimals := pc_decimals_; state := state_;
                      reset_flag := reset_flag_; min_size := min_size_;
                      vol_max_cut_ratio := vol_max_cut_ratio_; amount_wave := amount_wave_;
                      coin_lot_size := coin_lot_size_; pc_lot_size := pc_lot_size_;
                      min_price_multiplier := min_price_multiplier_;
                      max_price_multiplier := max_price_multiplier_;
                      sys_decimal_value := sys_decimal_value_;
                      min_separate_numerator := min_separate_numerator_;
                      min_separate_denominator := min_separate_denominator_;
                      trade_fee_numerator := trade_fee_numerator_;
                      trade_fee_denominator := trade_fee_denominator_;
                      pnl_numerator := pnl_numerator_; pnl_denominator := pnl_denominator_;
                      swap_fee_numerator := swap_fee_numerator_;
                      swap_fee_denominator := swap_fee_denominator_;
                      need_take_pnl_coin := need_take_pnl_coin_;
                      need_take_pnl_pc := need_take_pnl_pc_; total_pnl_pc := total_pnl_pc_;
                      total_pnl_coin := total_pnl_coin_;
                      pool_total_deposit_pc := pool_total_deposit_pc_;
                      pool_total_deposit_coin := pool_total_deposit_coin_;
                      swap_coin_in_amount := swap_coin_in_amount_;
                      swap_pc_out_amount := swap_pc_out_amount_;
                      swap_coin_to_pc_fee := swap_coin_to_pc_fee_;
                      swap_pc_in_amount := swap_pc_in_amount_;
                      swap_coin_out_amount := swap_coin_out_amount_;
                      swap_pc_to_coin_fee := swap_pc_to_coin_fee_; token_coin := token_coin_;
                      token_pc := token_pc_; coin_mint := coin_mint_; pc_mint := pc_mint_;
                      lp_mint := lp_mint_; open_orders := open_orders_; market := market_;
                      serum_dex := serum_dex_; target_orders := target_orders_;
                      withdraw_queue := withdraw_queue_; token_temp_lp := token_temp_lp_;
                      amm_owner := amm_owner_; pnl_owner := pnl_owner_ |}) input.
End AmmInfoV4.

Definition check_pool_program_id (program_id : Z) : bool :=
  (program_id =? raydium_v2) || (program_id =? raydium_v3) || (program_id =? raydium_v4).

Definition check_stake_program_id (program_id : Z) : bool :=
  (program_id =? raydium_stake) || (program_id =? raydium_stake_v4) || (program_id =? raydium_stake_v5).

Definition get_stake_account_balance (stake_account : AccountInfo) : result ProgramError Z :=
  let data := stake_account.(SdkAccount.data) in
  if (length data =? RaydiumUserStakeInfoV4.LEN)%nat then
    info <-? RaydiumUserStakeInfoV4.unpack data ;; Ok info.(RaydiumUserStakeInfoV4.deposit_balance)
  else if (length data =? RaydiumUserStakeInfo.LEN)%nat then
    info <-? RaydiumUserStakeInfo.unpack data ;; Ok info.(RaydiumUserStakeInfo.deposit_balance)
  else Err InvalidAccountData.

(** ** Quotes *)

Section Quotes.

(** The offsets of [need_take_pnl_coin] and [need_take_pnl_pc] by the length of
    the AMM account; 0 when its layout is not known. *)
Definition pnl_offsets (amm_id_len : nat) : nat * nat :=
  if (amm_id_len =? 624)%nat then (136, 144)%nat
  else if (amm_id_len =? 680)%nat then (144, 152)%nat
  else if (amm_id_len =? 752)%nat then (192, 200)%nat
  else (0, 0)%nat.

(** [checked_sub], or 0. *)
Definition sub_or_zero (a b : Z) : Z := if u64b (a - b) then a - b else 0.

Definition get_pool_token_balances (pool_coin_token_account pool_pc_token_account amm_open_orders amm_id : AccountInfo)
    : result ProgramError (Z * Z) :=
  token_a_balance <-? get_token_balance pool_coin_token_account ;;
  token_b_balance <-? get_token_balance pool_pc_token_account ;;
  adjusted <-?
    (let orders := amm_open_orders.(SdkAccount.data) in
     if (length orders =? 3228)%nat then
       a <-? math (SdkMath.checked_add u64b token_a_balance (u64_at 85 orders)) ;;
       b <-? math (SdkMath.checked_add u64b token_b_balance (u64_at 101 orders)) ;;
       Ok (a, b)
     else Ok (token_a_balance, token_b_balance)) ;;
  let '(token_a_balance, token_b_balance) := adjusted in
  let info := amm_id.(SdkAccount.data) in
  let '(pnl_coin_offset, pnl_pc_offset) := pnl_offsets (length info) in
  if (0 <? pnl_coin_offset)%nat then
    Ok (sub_or_zero token_a_balance (u64_at pnl_coin_offset info),
        sub_or_zero token_b_balance (u64_at pnl_pc_offset info))
  else Ok (token_a_balance, token_b_balance).

(** [checked_as_u64(checked_div(checked_mul(a as u128, b as u128)?, c as u128)?)?]. *)
Definition mul_div (a b c : Z) : result ProgramError Z :=
  product <-? math (SdkMath.checked_mul SdkMath.u128b a b) ;;
  quotient <-? math (SdkMath.checked_div SdkMath.u128b product c) ;;
  math (SdkMath.checked_as_u64 quotient).

Definition estimate_lp_tokens_amount (lp_token_mint : AccountInfo)
    (token_a_deposit token_b_deposit pool_coin_balance pool_pc_balance : Z) : result ProgramError Z :=
  if negb (pool_coin_balance =? 0) && negb (pool_pc_balance =? 0) then
    supply <-? get_token_supply lp_token_mint ;;
    a <-? mul_div token_a_deposit supply pool_coin_balance ;;
    supply <-? get_token_supply lp_token_mint ;;
    b <-? mul_div token_b_deposit supply pool_pc_balance ;;
    Ok (Z.min a b)
  else if negb (pool_coin_balance =? 0) then
    supply <-? get_token_supply lp_token_mint ;; mul_div token_a_deposit supply pool_coin_balance
  else if negb (pool_pc_balance =? 0) then
    supply <-? get_token_supply lp_token_mint ;; mul_div token_b_deposit supply pool_pc_balance
  else Ok 0.

(** The part of [get_pool_deposit_amounts] behind the balances. *)
Definition deposit_amounts (lp_token_mint : AccountInfo)
    (coin_balance pc_balance max_coin_token_amount max_pc_token_amount : Z) : result ProgramError (Z * Z * Z) :=
  if (coin_balance =? 0) || (pc_balance =? 0) then
    if (max_coin_token_amount =? 0) || (max_pc_token_amount =? 0) then Err InvalidArgument
    else Ok (1, max_coin_token_amount, max_pc_token_amount)
  else
  amounts <-?
    (if max_coin_token_amount =? 0 then
       estimated <-? mul_div coin_balance max_pc_token_amount pc_balance ;;
       Ok (if 1 <? estimated then estimated - 1 else 0, max_pc_token_amount)
     else if max_pc_token_amount =? 0 then
       estimated <-? mul_div pc_balance max_coin_token_amount coin_balance ;;
       pc_token_amount <-? math (SdkMath.checked_add u64b estimated 1) ;;
       Ok (max_coin_token_amount, pc_token_amount)
     else Ok (max_coin_token_amount, max_pc_token_amount)) ;;
  let '(coin_token_amount, pc_token_amount) := amounts in
  min_lp_tokens_out <-?
    estimate_lp_tokens_amount lp_token_mint coin_token_amount pc_token_amount coin_balance pc_balance ;;
  Ok (min_lp_tokens_out, coin_token_amount, pc_token_amount).

Definition get_pool_deposit_amounts
    (pool_coin_token_account pool_pc_token_account lp_token_mint amm_open_orders amm_id : AccountInfo)
    (max_coin_token_amount max_pc_token_amount : Z) : result ProgramError (Z * Z * Z) :=
  if (max_coin_token_amount =? 0) && (max_pc_token_amount =? 0) then Err InvalidArgument else
  balances <-? get_pool_token_balances pool_coin_token_account pool_pc_token_account amm_open_orders amm_id ;;
  let '(coin_balance, pc_balance) := balances in
  deposit_amounts lp_token_mint coin_balance pc_balance max_coin_token_amount max_pc_token_amount.

(** The part of [get_pool_withdrawal_amounts] behind the balances. *)
Definition withdrawal_amounts (lp_token_mint : AccountInfo) (coin_balance pc_balance lp_token_amount : Z)
    : result ProgramError (Z * Z) :=
  if (coin_balance =? 0) && (pc_balance =? 0) then Ok (0, 0) else
  lp_token_supply <-? get_token_supply lp_token_mint ;;
  if lp_token_supply =? 0 then Ok (0, 0) else
  coin <-? mul_div coin_balance lp_token_amount lp_token_supply ;;
  pc <-? mul_div pc_balance lp_token_amount lp_token_supply ;;
  Ok (coin, pc).

Definition get_pool_withdrawal_amounts
    (pool_coin_token_account pool_pc_token_account amm_open_orders amm_id lp_token_mint : AccountInfo)
    (lp_token_amount : Z) : result ProgramError (Z * Z) :=
  if lp_token_amount =? 0 then Err InvalidArgument else
  balances <-? get_pool_token_balances pool_coin_token_account pool_pc_token_account amm_open_orders amm_id ;;
  let '(coin_balance, pc_balance) := balances in
  withdrawal_amounts lp_token_mint coin_balance pc_balance lp_token_amount.

(** One direction of a swap: [amount_in] of the token the pool has [balance_in]
    of, for the token it has [balance_out] of. *)
Definition swap_quote (fee_numerator fee_denominator balance_in balance_out amount_in : Z)
    : result ProgramError (Z * Z) :=
  amount_in_no_fee <-? math (SdkMath.get_no_fee_amount amount_in fee_numerator fee_denominator) ;;
  product <-? math (SdkMath.checked_mul SdkMath.u128b balance_out amount_in_no_fee) ;;
  sum <-? math (SdkMath.checked_add SdkMath.u128b balance_in amount_in_no_fee) ;;
  quotient <-? math (SdkMath.checked_div SdkMath.u128b product sum) ;;
  estimated <-? math (SdkMath.checked_as_u64 quotient) ;;
  amount_out <-? math (SdkMath.get_no_fee_amount estimated 3 100) ;;
  Ok (amount_in, amount_out).

Definition get_pool_swap_amounts
    (pool_coin_token_account pool_pc_token_account amm_open_orders amm_id : AccountInfo)
    (coin_token_amount_in pc_token_amount_in : Z) : result ProgramError (Z * Z) :=
  if ((coin_token_amount_in =? 0) && (pc_token_amount_in =? 0)) ||
     ((0 <? coin_token_amount_in) && (0 <? pc_token_amount_in)) then Err InvalidArgument else
  balances <-? get_pool_token_balances pool_coin_token_account pool_pc_token_account amm_open_orders amm_id ;;
  let '(coin_balance, pc_balance) := balances in
  if (coin_balance =? 0) || (pc_balance =? 0) then Err EmptyPool else
  if coin_token_amount_in =? 0
  then swap_quote RAYDIUM_FEE_NUMERATOR RAYDIUM_FEE_DENOMINATOR pc_balance coin_balance pc_token_amount_in
  else swap_quote RAYDIUM_FEE_NUMERATOR RAYDIUM_FEE_DENOMINATOR coin_balance pc_balance coin_token_amount_in.
End Quotes.

(** ** Invoked instructions *)

Section Invoked.
Context `{ProgramIds} `{Runtime}.

Definition add_liquidity (accounts : list Z) (max_coin_token_amount max_pc_token_amount : Z)
    : Cpi :=
  match accounts with
  | [user_account; user_token_a_account; user_token_b_account; user_lp_token_account;
     pool_program_id; pool_coin_token_account; pool_pc_token_account; lp_token_mint;
     spl_token_account; amm_id; amm_authority; amm_open_orders; amm_target; serum_market] =>
      if negb (check_pool_program_id pool_program_id) then st_bail IncorrectProgramId else
      let raydium_accounts :=
        [readonly spl_token_account; writable amm_id; readonly amm_authority;
         readonly amm_open_orders; writable amm_target; writable lp_token_mint;
         writable pool_coin_token_account; writable pool_pc_token_account; readonly serum_market;
         writable user_token_a_account; writable user_token_b_account;
         writable user_lp_token_account; signer user_account] in
      data <-! packed_data (RaydiumAddLiquidity.to_vec
        {| RaydiumAddLiquidity.instruction := 3;
           RaydiumAddLiquidity.max_coin_token_amount := max_coin_token_amount;
           RaydiumAddLiquidity.max_pc_token_amount := max_pc_token_amount;
           RaydiumAddLiquidity.base_side := 0 |}) ;;
      invoke {| Cpi.program_id := pool_program_id; Cpi.accounts := raydium_accounts; Cpi.data := data |}
        accounts
  | _ => st_bail NotEnoughAccountKeys
  end.

Definition add_liquidity_with_seeds (accounts : list Z) (seeds : Seeds) (max_coin_token_amount max_pc_token_amount : Z)
    : Cpi :=
  match accounts with
  | [authority_account; token_a_custody_account; token_b_custody_account; lp_token_custody_account;
     pool_program_id; pool_coin_token_account; pool_pc_token_account; lp_token_mint;
     spl_token_account; amm_id; amm_authority; amm_open_orders; amm_target; serum_market] =>
      if negb (check_pool_program_id pool_program_id) then st_bail IncorrectProgramId else
      let raydium_accounts :=
        [readonly spl_token_account; writable amm_id; readonly amm_authority;
         readonly amm_open_orders; writable amm_target; writable lp_token_mint;
         writable pool_coin_token_account; writable pool_pc_token_account; readonly serum_market;
         writable token_a_custody_account; writable token_b_custody_account;
         writable lp_token_custody_account; signer authority_account] in
      data <-! packed_data (RaydiumAddLiquidity.to_vec
        {| RaydiumAddLiquidity.instruction := 3;
           RaydiumAddLiquidity.max_coin_token_amount := max_coin_token_amount;
           RaydiumAddLiquidity.max_pc_token_amount := max_pc_token_amount;
           RaydiumAddLiquidity.base_side := 0 |}) ;;
      invoke_signed {| Cpi.program_id := pool_program_id; Cpi.accounts := raydium_accounts; Cpi.data := data |}
        accounts seeds
  | _ => st_bail NotEnoughAccountKeys
  end.

Definition remove_liquidity_with_seeds (accounts : list Z) (seeds : Seeds) (amount : Z) : Cpi :=
  match accounts with
  | [authority_account; token_a_custody_account; token_b_custody_account; lp_token_custody_account;
     pool_program_id; pool_withdraw_queue; pool_temp_lp_token_account; pool_coin_token_account;
     pool_pc_token_account; lp_token_mint; spl_token_account; amm_id; amm_authority;
     amm_open_orders; amm_target; serum_market; serum_program_id; serum_bids; serum_asks;
     serum_event_queue; serum_coin_vault_account; serum_pc_vault_account; serum_vault_signer] =>
      if negb (check_pool_program_id pool_program_id) then st_bail IncorrectProgramId else
      let raydium_accounts :=
        [readonly spl_token_account; writable amm_id; readonly amm_authority;
         writable amm_open_orders; writable amm_target; writable lp_token_mint;
         writable pool_coin_token_account; writable pool_pc_token_account;
         writable pool_withdraw_queue; writable pool_temp_lp_token_account;
         readonly serum_program_id; writable serum_market; writable serum_coin_vault_account;
         writable serum_pc_vault_account; readonly serum_vault_signer;
         writable lp_token_custody_account; writable token_a_custody_account;
         writable token_b_custody_account; signer authority_account; writable serum_event_queue;
         writable serum_bids; writable serum_asks] in
      data <-! packed_data (RaydiumRemoveLiquidity.to_vec
        {| RaydiumRemoveLiquidity.instruction := 4; RaydiumRemoveLiquidity.amount := amount |}) ;;
      invoke_signed {| Cpi.program_id := pool_program_id; Cpi.accounts := raydium_accounts; Cpi.data := data |}
        accounts seeds
  | _ => st_bail NotEnoughAccountKeys
  end.

Definition stake_with_seeds (accounts : list Z) (seeds : Seeds) (amount : Z) : Cpi :=
  match accounts with
  | [authority_account; stake_info_account; lp_token_custody_account; token_a_custody_account;
     token_b_custody_account; pool_program_id; farm_lp_token_account;
     farm_first_reward_token_account; farm_second_reward_token_account; clock_id; spl_token_account;
     farm_id; farm_authority] =>
      if negb (check_stake_program_id pool_program_id) then st_bail IncorrectProgramId else
      let raydium_accounts :=
        [writable farm_id; readonly farm_authority; writable stake_info_account;
         signer authority_account; writable lp_token_custody_account;
         writable farm_lp_token_account; writable token_a_custody_account;
         writable farm_first_reward_token_account; readonly clock_id; readonly spl_token_account]
        ++ (if farm_second_reward_token_account =? zero_id then []
            else [writable token_b_custody_account; writable farm_second_reward_token_account]) in
      data <-! packed_data (RaydiumStake.to_vec
        {| RaydiumStake.instruction := 1; RaydiumStake.amount := amount |}) ;;
      invoke_signed {| Cpi.program_id := pool_program_id; Cpi.accounts := raydium_accounts; Cpi.data := data |}
        accounts seeds
  | _ => st_bail NotEnoughAccountKeys
  end.

Definition swap_with_seeds (accounts : list Z) (seeds : Seeds) (amount_in min_amount_out : Z)
    : Cpi :=
  match accounts with
  | [authority_account; token_a_custody_account; token_b_custody_account; pool_program_id;
     pool_coin_token_account; pool_pc_token_account; spl_token_account; amm_id; amm_authority;
     amm_open_orders; amm_target; serum_market; serum_program_id; serum_bids; serum_asks;
     serum_event_queue; serum_coin_vault_account; serum_pc_vault_account; serum_vault_signer] =>
      if negb (check_pool_program_id pool_program_id) then st_bail IncorrectProgramId else
      let raydium_accounts :=
        [readonly spl_token_account; writable amm_id; readonly amm_authority;
         writable amm_open_orders; writable amm_target; writable pool_coin_token_account;
         writable pool_pc_token_account; readonly serum_program_id; writable serum_market;
         writable serum_bids; writable serum_asks; writable serum_event_queue;
         writable serum_coin_vault_account; writable serum_pc_vault_account;
         readonly serum_vault_signer; writable token_a_custody_account;
         writable token_b_custody_account; signer authority_account] in
      data <-! packed_data (RaydiumSwap.to_vec
        {| RaydiumSwap.instruction := 9; RaydiumSwap.amount_in := amount_in;
           RaydiumSwap.min_amount_out := min_amount_out |}) ;;
      invoke_signed {| Cpi.program_id := pool_program_id; Cpi.accounts := raydium_accounts; Cpi.data := data |}
        accounts seeds
  | _ => st_bail NotEnoughAccountKeys
  end.

Definition unstake_with_seeds (accounts : list Z) (seeds : Seeds) (amount : Z) : Cpi :=
  match accounts with
  | [authority_account; stake_info_account; lp_token_custody_account; token_a_custody_account;
     token_b_custody_account; pool_program_id; farm_lp_token_account;
     farm_first_reward_token_account; farm_second_reward_token_account; clock_id; spl_token_account;
     farm_id; farm_authority] =>
      if negb (check_stake_program_id pool_program_id) then st_bail IncorrectProgramId else
      let raydium_accounts :=
        [writable farm_id; readonly farm_authority; writable stake_info_account;
         signer authority_account; writable lp_token_custody_account;
         writable farm_lp_token_account; writable token_a_custody_account;
         writable farm_first_reward_token_account; readonly clock_id; readonly spl_token_account]
        ++ (if farm_second_reward_token_account =? zero_id then []
            else [writable token_b_custody_account; writable farm_second_reward_token_account]) in
      data <-! packed_data (RaydiumUnstake.to_vec
        {| RaydiumUnstake.instruction := 2; RaydiumUnstake.amount := amount |}) ;;
      invoke_signed {| Cpi.program_id := pool_program_id; Cpi.accounts := raydium_accounts; Cpi.data := data |}
        accounts seeds
  | _ => st_bail NotEnoughAccountKeys
  end.

End Invoked.
