(* ===== verification/Orca.v ===== *)
(** * Orca on chain ([crates/solana_farm_sdk/src/program/protocol/orca.rs])

    The accounts of Orca's farms, the quotes for deposits, withdrawals and swaps,
    and the instructions that are invoked.  The instructions of the pools are
    built by [spl_token_swap], the class [SplTokenSwap] here. *)

From S2P Require Import Prelude MachineInt Amounts Pack SdkAccount Cpi Raydium.

Definition orca_swap : Z := 0xf098b282513fc87e9a167b5c36ca8a37f745ee4ad502e4a94cf1a6571a77547e.
Definition orca_stake : Z := 0x79babb4cee600616552d05115bbc3af9e656f9b9d91b2929cebfc25c95cb8368.

Definition ORCA_FEE_NUMERATOR : Z := 3.
Definition ORCA_FEE_DENOMINATOR : Z := 1000.

(** An array of bytes as it is. *)
Definition get_bytes (w : nat) : Get (list Z) := get_with w Ok.

(** [spl_token_swap::instruction]: the accounts in the order of its parameters and
    the amounts of its data; [swap] without a host fee account. *)
Class SplTokenSwap := {
  deposit_all_token_types : list Z -> Z * Z * Z -> result ProgramError Instruction;
  withdraw_all_token_types : list Z -> Z * Z * Z -> result ProgramError Instruction;
  swap : list Z -> Z * Z -> result ProgramError Instruction;
}.

Module OrcaUserStakeInfo.
Record t := {
  is_initialized : Z;
  account_type : Z;
  global_farm : Z;
  owner : Z;
  base_tokens_converted : Z;
  cumulative_emissions_checkpoint : list Z;
}.

Definition LEN : nat := 106.

Definition unpack (input : list Z) : result ProgramError t :=
  _ <-? check_data_len input LEN ;;
  run_get (is_initialized_ <-g get_u8 ;; account_type_ <-g get_u8 ;; global_farm_ <-g get_key ;;
           owner_ <-g get_key ;; base_tokens_converted_ <-g get_u64 ;;
           cumulative_emissions_checkpoint_ <-g get_bytes 32 ;;
           get_ret {| is_initialized := is_initialized_; account_type := account_type_;
                      global_farm := global_farm_; owner := owner_;
                      base_tokens_converted := base_tokens_converted_;
                      cumulative_emissions_checkpoint := cumulative_emissions_checkpoint_ |}) input.
End OrcaUserStakeInfo.

Module OrcaFarmState.
Record t := {
  is_initialized : Z;
  account_type : Z;
  nonce : Z;
  token_program : Z;
  emissions_authority : Z;
  remove_rewards_authority : Z;
  base_token_mint : Z;
  base_token_vault : Z;
  reward_token_vault : Z;
  farm_token_mint : Z;
  emissions_per_sec_numerator : Z;
  emissions_per_sec_denominator : Z;
  last_updated_timestamp : Z;
  cumulative_emissions_per_farm_token : list Z;
}.

Definition LEN : nat := 283.

Definition unpack (input : list Z) : result ProgramError t :=
  _ <-? check_data_len input LEN ;;
  run_get (is_initialized_ <-g get_u8 ;; account_type_ <-g get_u8 ;; nonce_ <-g get_u8 ;;
           token_program_ <-g get_key ;; emissions_authority_ <-g get_key ;;
           remove_rewards_authority_ <-g get_key ;; base_token_mint_ <-g get_key ;;
           base_token_vault_ <-g get_key ;; reward_token_vault_ <-g get_key ;;
           farm_token_mint_ <-g get_key ;; emissions_per_sec_numerator_ <-g get_u64 ;;
           emissions_per_sec_denominator_ <-g get_u64 ;; last_updated_timestamp_ <-g get_u64 ;;
           cumulative_emissions_per_farm_token_ <-g get_bytes 32 ;;
           get_ret {| is_initialized := is_initialized_; account_type := account_type_;
                      nonce := nonce_; token_program := token_program_;
                      emissions_authority := emissions_authority_;
                      remove_rewards_authority := remove_rewards_authority_;
                      base_token_mint := base_token_mint_; base_token_vault := base_token_vault_;
                      reward_token_vault := reward_token_vault_;
                      farm_token_mint := farm_token_mint_;
                      emissions_per_sec_numerator := emissions_per_sec_numerator_;
                      emissions_per_sec_denominator := emissions_per_sec_denominator_;
                      last_updated_timestamp := last_updated_timestamp_;
                      cumulative_emissions_per_farm_token := cumulative_emissions_per_farm_token_ |}) input.
End OrcaFarmState.

Definition check_pool_program_id (program_id : Z) : bool := program_id =? orca_swap.
Definition check_stake_program_id (program_id : Z) : bool := program_id =? orca_stake.

Definition get_stake_account_balance (stake_account : AccountInfo) : result ProgramError Z :=
  info <-? OrcaUserStakeInfo.unpack stake_account.(SdkAccount.data) ;;
  Ok info.(OrcaUserStakeInfo.base_tokens_converted).

(** ** Quotes *)

Definition get_pool_token_balances (pool_token_a_account pool_token_b_account : AccountInfo)
    : result ProgramError (Z * Z) :=
  a <-? get_token_balance pool_token_a_account ;;
  b <-? get_token_balance pool_token_b_account ;;
  Ok (a, b).

Definition estimate_lp_tokens_amount (lp_token_mint : AccountInfo)
    (token_a_deposit token_b_deposit pool_token_a_balance pool_token_b_balance : Z) : result ProgramError Z :=
  if negb (pool_token_a_balance =? 0) && negb (pool_token_b_balance =? 0) then
    supply <-? get_token_supply lp_token_mint ;;
    a <-? mul_div token_a_deposit supply pool_token_a_balance ;;
    supply <-? get_token_supply lp_token_mint ;;
    b <-? mul_div token_b_deposit supply pool_token_b_balance ;;
    Ok (Z.min a b)
  else if negb (pool_token_a_balance =? 0) then
    supply <-? get_token_supply lp_token_mint ;; mul_div token_a_deposit supply pool_token_a_balance
  else if negb (pool_token_b_balance =? 0) then
    supply <-? get_token_supply lp_token_mint ;; mul_div token_b_deposit supply pool_token_b_balance
  else Ok 0.

Definition get_pool_deposit_amounts (pool_token_a_account pool_token_b_account lp_token_mint : AccountInfo)
    (max_token_a_amount max_token_b_amount : Z) : result ProgramError (Z * Z * Z) :=
  if (max_token_a_amount =? 0) && (max_token_b_amount =? 0) then Err InvalidArgument else
  balances <-? get_pool_token_balances pool_token_a_account pool_token_b_account ;;
  let '(token_a_balance, token_b_balance) := balances in
  if (token_a_balance =? 0) || (token_b_balance =? 0) then
    if (max_token_a_amount =? 0) || (max_token_b_amount =? 0) then Err InvalidArgument
    else Ok (1, max_token_a_amount, max_token_b_amount)
  else
  amounts <-?
    (if max_token_a_amount =? 0 then
       estimated <-? mul_div token_a_balance max_token_b_amount token_b_balance ;;
       Ok (if 1 <? estimated then estimated - 1 else 0, max_token_b_amount)
     else if max_token_b_amount =? 0 then
       estimated <-? mul_div token_b_balance max_token_a_amount token_a_balance ;;
       token_b_amount <-? math (SdkMath.checked_add u64b estimated 1) ;;
       Ok (max_token_a_amount, token_b_amount)
     else Ok (max_token_a_amount, max_token_b_amount)) ;;
  let '(token_a_amount, token_b_amount) := amounts in
  min_lp_tokens_out <-?
    estimate_lp_tokens_amount lp_token_mint token_a_amount token_b_amount token_a_balance token_b_balance ;;
  Ok (min_lp_tokens_out, token_a_amount, token_b_amount).

Definition get_pool_withdrawal_amounts (pool_token_a_account pool_token_b_account lp_token_mint : AccountInfo)
    (lp_token_amount : Z) : result ProgramError (Z * Z) :=
  if lp_token_amount =? 0 then Err InvalidArgument else
  balances <-? get_pool_token_balances pool_token_a_account pool_token_b_account ;;
  let '(token_a_balance, token_b_balance) := balances in
  if (token_a_balance =? 0) && (token_b_balance =? 0) then Ok (0, 0) else
  lp_token_supply <-? get_token_supply lp_token_mint ;;
  if lp_token_supply =? 0 then Ok (0, 0) else
  a <-? mul_div token_a_balance lp_token_amount lp_token_supply ;;
  b <-? mul_div token_b_balance lp_token_amount lp_token_supply ;;
  Ok (a, b).

Definition get_pool_swap_amounts (pool_token_a_account pool_token_b_account : AccountInfo)
    (token_a_amount_in token_b_amount_in : Z) : result ProgramError (Z * Z) :=
  if ((token_a_amount_in =? 0) && (token_b_amount_in =? 0)) ||
     ((0 <? token_a_amount_in) && (0 <? token_b_amount_in)) then Err InvalidArgument else
  balances <-? get_pool_token_balances pool_token_a_account pool_token_b_account ;;
  let '(token_a_balance, token_b_balance) := balances in
  if (token_a_balance =? 0) || (token_b_balance =? 0) then Err EmptyPool else
  if token_a_amount_in =? 0
  then swap_quote ORCA_FEE_NUMERATOR ORCA_FEE_DENOMINATOR token_b_balance token_a_balance token_b_amount_in
  else swap_quote ORCA_FEE_NUMERATOR ORCA_FEE_DENOMINATOR token_a_balance token_b_balance token_a_amount_in.

(** ** Invoked instructions *)

Section Invoked.
Context `{ProgramIds} `{Runtime} `{SplTokenSwap}.

Definition add_liquidity (accounts : list Z) (max_token_a_amount max_token_b_amount min_lp_token_amount : Z)
    : Cpi :=
  match accounts with
  | [user_account; user_token_a_account; user_token_b_account; user_lp_token_account;
     pool_program_id; pool_token_a_account; pool_token_b_account; lp_token_mint; _spl_token_id;
     amm_id; amm_authority] =>
      if negb (check_pool_program_id pool_program_id) then st_bail IncorrectProgramId else
      instruction <-! st_ret (deposit_all_token_types
        [pool_program_id; spl_token_id; amm_id; amm_authority; user_account; user_token_a_account;
         user_token_b_account; pool_token_a_account; pool_token_b_account; lp_token_mint;
         user_lp_token_account]
        (min_lp_token_amount, max_token_a_amount, max_token_b_amount)) ;;
      invoke instruction accounts
  | _ => st_bail NotEnoughAccountKeys
  end.

Definition add_liquidity_with_seeds (accounts : list Z) (seeds : Seeds) (max_token_a_amount max_token_b_amount min_lp_token_amount : Z)
    : Cpi :=
  match accounts with
  | [authority_account; token_a_custody_account; token_b_custody_account; lp_token_custody_account;
     pool_program_id; pool_token_a_account; pool_token_b_account; lp_token_mint; _spl_token_id;
     amm_id; amm_authority] =>
      if negb (check_pool_program_id pool_program_id) then st_bail IncorrectProgramId else
      instruction <-! st_ret (deposit_all_token_types
        [pool_program_id; spl_token_id; amm_id; amm_authority; authority_account;
         token_a_custody_account; token_b_custody_account; pool_token_a_account;
         pool_token_b_account; lp_token_mint; lp_token_custody_account]
        (min_lp_token_amount, max_token_a_amount, max_token_b_amount)) ;;
      invoke_signed instruction accounts seeds
  | _ => st_bail NotEnoughAccountKeys
  end.

Definition remove_liquidity_with_seeds (accounts : list Z) (seeds : Seeds) (lp_amount min_token_a_amount min_token_b_amount : Z)
    : Cpi :=
  match accounts with
  | [authority_account; token_a_custody_account; token_b_custody_account; lp_token_custody_account;
     pool_program_id; pool_token_a_account; pool_token_b_account; lp_token_mint; _spl_token_id;
     amm_id; amm_authority; fees_account] =>
      if negb (check_pool_program_id pool_program_id) then st_bail IncorrectProgramId else
      instruction <-! st_ret (withdraw_all_token_types
        [pool_program_id; spl_token_id; amm_id; amm_authority; authority_account; lp_token_mint;
         fees_account; lp_token_custody_account; pool_token_a_account; pool_token_b_account;
         token_a_custody_account; token_b_custody_account]
        (lp_amount, min_token_a_amount, min_token_b_amount)) ;;
      invoke_signed instruction accounts seeds
  | _ => st_bail NotEnoughAccountKeys
  end.

Definition stake_with_seeds (accounts : list Z) (seeds : Seeds) (amount : Z) : Cpi :=
  match accounts with
  | [authority_account; stake_info_account; lp_token_custody_account; reward_token_custody_account;
     farm_lp_token_custody_account; farm_lp_token_mint; farm_program_id; base_token_vault;
     reward_token_vault; _spl_token_id; farm_id; farm_authority] =>
      if negb (check_stake_program_id farm_program_id) then st_bail IncorrectProgramId else
      let orca_accounts :=
        [signer authority_account; writable lp_token_custody_account; writable base_token_vault;
         signer authority_account; writable farm_lp_token_mint;
         writable farm_lp_token_custody_account; writable farm_id; writable stake_info_account;
         writable reward_token_vault; writable reward_token_custody_account;
         readonly farm_authority; readonly spl_token_id] in
      data <-! packed_data (OrcaStake.to_vec {| OrcaStake.amount := amount |}) ;;
      invoke_signed {| Cpi.program_id := farm_program_id; Cpi.accounts := orca_accounts; Cpi.data := data |}
        accounts seeds
  | _ => st_bail NotEnoughAccountKeys
  end.

Definition harvest_with_seeds (accounts : list Z) (seeds : Seeds) : Cpi :=
  match accounts with
  | [authority_account; stake_info_account; reward_token_custody_account; farm_program_id;
     base_token_vault; reward_token_vault; _spl_token_id; farm_id; farm_authority] =>
      if negb (check_stake_program_id farm_program_id) then st_bail IncorrectProgramId else
      let orca_accounts :=
        [signer authority_account; writable farm_id; writable stake_info_account;
         readonly base_token_vault; writable reward_token_vault;
         writable reward_token_custody_account; readonly farm_authority; readonly spl_token_id] in
      data <-! packed_data (OrcaHarvest.to_vec OrcaHarvest.Build_t) ;;
      invoke_signed {| Cpi.program_id := farm_program_id; Cpi.accounts := orca_accounts; Cpi.data := data |}
        accounts seeds
  | _ => st_bail NotEnoughAccountKeys
  end.

Definition swap_with_seeds (accounts : list Z) (seeds : Seeds) (amount_in min_amount_out : Z)
    : Cpi :=
  match accounts with
  | [authority_account; token_a_custody_account; token_b_custody_account; pool_program_id;
     pool_token_a_account; pool_token_b_account; lp_token_mint; _spl_token_id; amm_id;
     amm_authority; fees_account] =>
      if negb (check_pool_program_id pool_program_id) then st_bail IncorrectProgramId else
      instruction <-! st_ret (swap
        [pool_program_id; spl_token_id; amm_id; amm_authority; authority_account;
         token_a_custody_account; pool_token_a_account; pool_token_b_account;
         token_b_custody_account; lp_token_mint; fees_account]
        (amount_in, min_amount_out)) ;;
      invoke_signed instruction accounts seeds
  | _ => st_bail NotEnoughAccountKeys
  end.

Definition unstake_with_seeds (accounts : list Z) (seeds : Seeds) (amount : Z) : Cpi :=
  match accounts with
  | [authority_account; stake_info_account; lp_token_custody_account; reward_token_custody_account;
     farm_lp_token_custody_account; farm_lp_token_mint; farm_program_id; base_token_vault;
     reward_token_vault; _spl_token_id; farm_id; farm_authority] =>
      if negb (check_stake_program_id farm_program_id) then st_bail IncorrectProgramId else
      let orca_accounts :=
        [signer authority_account; writable lp_token_custody_account; writable base_token_vault;
         writable farm_lp_token_mint; writable farm_lp_token_custody_account;
         signer authority_account; writable farm_id; writable stake_info_account;
         writable reward_token_vault; writable reward_token_custody_account;
         readonly farm_authority; readonly spl_token_id] in
      data <-! packed_data (OrcaUnstake.to_vec {| OrcaUnstake.amount := amount |}) ;;
      invoke_signed {| Cpi.program_id := farm_program_id; Cpi.accounts := orca_accounts; Cpi.data := data |}
        accounts seeds
  | _ => st_bail NotEnoughAccountKeys
  end.

End Invoked.
