(* ===== verification/ProtocolFacts.v ===== *)
(** * Quotes and invoked programs of Raydium and Orca

    The quotes are rounded in favour of the pool: a swap does not shrink the
    product of the balances and a deposit that is withdrawn gains nothing.  A call
    of a program is described by a table: the program ids that are accepted, the
    place of every account of the instruction among the accounts passed in, and
    the data; the account that authorizes the call signs, and nobody else. *)

From S2P Require Import Prelude MachineInt Amounts Pack SdkAccount Cpi Raydium Orca.

(** ** Balances are [u64] *)

Definition bytes_of (a : AccountInfo) : Prop := byte_list a.(SdkAccount.data).

Lemma slice_u64 input off : byte_list input -> is_u64 (u64_at off input).
Proof.
  intros Hb. assert (byte_list (slice off 8 input)) as Hs
    by (unfold byte_list, slice in *; by apply Forall_take, Forall_drop).
  pose proof (from_le_bytes_bounds _ Hs) as Hf. unfold u64_at, is_u64.
  assert (length (slice off 8 input) <= 8)%nat as Hl by (unfold slice; rewrite length_take; lia).
  split; [lia|]. eapply Z.lt_le_trans; [apply Hf|]. change (2 ^ 64) with (256 ^ 8).
  apply Z.pow_le_mono_r; lia.
Qed.

Lemma get_token_balance_u64 a n : bytes_of a -> get_token_balance a = Ok n -> is_u64 n.
Proof.
  intros Hb. unfold get_token_balance. destruct (check_data_len _ _); [|done]. cbn [result_bind].
  intros [= <-]. by apply slice_u64.
Qed.

Lemma get_token_supply_u64 a n : bytes_of a -> get_token_supply a = Ok n -> is_u64 n.
Proof.
  intros Hb. unfold get_token_supply. destruct (check_data_len _ _); [|done]. cbn [result_bind].
  intros [= <-]. by apply slice_u64.
Qed.

Lemma sub_or_zero_u64 a b : is_u64 a -> is_u64 b -> is_u64 (sub_or_zero a b).
Proof. unfold sub_or_zero, is_u64. destruct (u64b _) eqn:E; [apply u64b_spec in E; unfold is_u64 in E|]; lia. Qed.

Lemma checked_add_u64 a b n : math (SdkMath.checked_add u64b a b) = Ok n -> is_u64 n.
Proof.
  unfold SdkMath.checked_add, SdkMath.checked. destruct (u64b (a + b)) eqn:E; [|done].
  intros [= <-]. by apply u64b_spec.
Qed.

Lemma balances_u64 coin_account pc_account orders amm coin pc :
  bytes_of coin_account -> bytes_of pc_account -> bytes_of amm ->
  Raydium.get_pool_token_balances coin_account pc_account orders amm = Ok (coin, pc) ->
  is_u64 coin /\ is_u64 pc.
Proof.
  intros Hc Hp Ha. unfold Raydium.get_pool_token_balances.
  destruct (get_token_balance coin_account) as [a|] eqn:Ea; [|done]. cbn [result_bind].
  destruct (get_token_balance pc_account) as [b|] eqn:Eb; [|done]. cbn [result_bind].
  apply get_token_balance_u64 in Ea, Eb; [|done..].
  set (adjusted := if (_ =? 3228)%nat then _ else _).
  assert (forall a' b', adjusted = Ok (a', b') -> is_u64 a' /\ is_u64 b') as Hadj.
  { intros a' b'. unfold adjusted. destruct (_ =? _)%nat; [|by intros [= <- <-]].
    destruct (math (SdkMath.checked_add u64b a _)) as [x|] eqn:Ex; [|done]. cbn [result_bind].
    destruct (math (SdkMath.checked_add u64b b _)) as [y|] eqn:Ey; [|done]. cbn [result_bind].
    intros [= <- <-]. apply checked_add_u64 in Ex, Ey. done. }
  destruct adjusted as [[a' b']|]; [|done]. cbn [result_bind]. destruct (Hadj a' b' eq_refl) as [Ha' Hb'].
  destruct (pnl_offsets _) as [o1 o2]. destruct (0 <? o1)%nat; intros [= <- <-]; [|done].
  split; apply sub_or_zero_u64; try done; by apply slice_u64.
Qed.

(** ** Checked arithmetic *)

Lemma mul_div_Ok a b c n :
  mul_div a b c = Ok n -> c <> 0 /\ n = a * b / c /\ is_u64 n.
Proof.
  unfold mul_div, SdkMath.checked_mul, SdkMath.checked_div, SdkMath.checked_as_u64, SdkMath.checked.
  destruct (SdkMath.u128b _); [|done]. cbn [math result_bind].
  destruct (c =? 0) eqn:Ec; [done|]. destruct (SdkMath.u128b _); [|done]. cbn [math result_bind].
  destruct (u64b _) eqn:E; [|done]. intros [= <-]. apply u64b_spec in E. split; [lia|]. done.
Qed.

Lemma u64_product a b : is_u64 a -> is_u64 b -> SdkMath.u128b (a * b) = true.
Proof. unfold is_u64, SdkMath.u128b. nia. Qed.

Lemma mul_div_is_Ok a b c :
  is_u64 a -> is_u64 b -> 0 < c -> a * b / c < 2 ^ 64 -> mul_div a b c = Ok (a * b / c).
Proof.
  unfold is_u64. intros Ha Hb Hc Hq.
  assert (0 <= a * b / c) by (apply Z.div_pos; nia).
  unfold mul_div, SdkMath.checked_mul, SdkMath.checked_div, SdkMath.checked_as_u64, SdkMath.checked.
  rewrite u64_product by done. cbn [math result_bind].
  replace (c =? 0) with false by lia.
  replace (SdkMath.u128b (a * b / c)) with true by (unfold SdkMath.u128b; lia). cbn [math result_bind].
  by replace (u64b (a * b / c)) with true by (unfold u64b; lia).
Qed.

(** ** Swaps *)

(** A swap quote in a pool that has both tokens: it is always given, it is less
    than the balance, and the product of the balances does not shrink. *)
Lemma swap_quote_Ok num den balance_in balance_out amount :
  is_u64 num -> 0 < den -> num <= den -> is_u64 balance_in -> is_u64 balance_out -> is_u64 amount ->
  0 < balance_in -> 0 < balance_out -> 0 < amount ->
  exists out, swap_quote num den balance_in balance_out amount = Ok (amount, out) /\
    0 <= out < balance_out /\ balance_in * balance_out <= (balance_in + amount) * (balance_out - out).
Proof.
  intros Hnum Hden Hle Hi Ho Ha Pi Po Pa. unfold swap_quote.
  destruct (no_fee_Ok amount num den) as (rest & -> & _ & Hrest); [done..|]. cbn [math result_bind].
  unfold is_u64 in *. set (q := balance_out * rest / (balance_in + rest)).
  assert (balance_out * rest = (balance_in + rest) * q + (balance_out * rest) mod (balance_in + rest)) as Hdiv
    by (apply Z.div_mod; lia).
  pose proof (Z.mod_pos_bound (balance_out * rest) (balance_in + rest) ltac:(lia)) as Hmod.
  assert (0 <= q) as Hq0 by (apply Z.div_pos; nia).
  assert (q < balance_out) as Hq1 by nia.
  unfold SdkMath.checked_mul, SdkMath.checked_add, SdkMath.checked_div, SdkMath.checked_as_u64, SdkMath.checked.
  rewrite u64_product by (unfold is_u64; lia). cbn [math result_bind].
  replace (SdkMath.u128b (balance_in + rest)) with true by (unfold SdkMath.u128b; lia). cbn [math result_bind].
  replace (balance_in + rest =? 0) with false by lia. fold q.
  replace (SdkMath.u128b q) with true by (unfold SdkMath.u128b; lia). cbn [math result_bind].
  replace (u64b q) with true by (unfold u64b; lia). cbn [math result_bind].
  assert (exists out, SdkMath.get_no_fee_amount q 3 100 = Ok out /\ 0 <= out <= q) as (out & -> & Hout).
  { destruct (Z.eq_dec q 0) as [->|Hne]; [by exists 0|].
    destruct (no_fee_Ok q 3 100) as (out & -> & _ & Hr); [unfold is_u64; lia..|]. exists out. split; [done | lia]. }
  cbn [math result_bind]. exists out. split; [done|]. split; [lia|]. nia.
Qed.

(** C32. A Raydium swap quote, on every branch: it asks for exactly one amount and a
    pool with both tokens, and then always succeeds, with less than the pool has,
    and such that the product of the pool's balances does not shrink. *)
Theorem raydium_swap_keeps_product coin_account pc_account orders amm coin pc coin_in pc_in :
  bytes_of coin_account -> bytes_of pc_account -> bytes_of amm -> is_u64 coin_in -> is_u64 pc_in ->
  Raydium.get_pool_token_balances coin_account pc_account orders amm = Ok (coin, pc) ->
  match Raydium.get_pool_swap_amounts coin_account pc_account orders amm coin_in pc_in with
  | Ok (amount_in, out) =>
      amount_in = coin_in + pc_in /\ 0 < coin /\ 0 < pc /\
      ((pc_in = 0 /\ 0 < coin_in /\ 0 <= out < pc /\ coin * pc <= (coin + coin_in) * (pc - out)) \/
       (coin_in = 0 /\ 0 < pc_in /\ 0 <= out < coin /\ coin * pc <= (coin - out) * (pc + pc_in)))
  | Err e =>
      (e = InvalidArgument /\ (coin_in = 0 <-> pc_in = 0)) \/
      (e = EmptyPool /\ ~ (coin_in = 0 <-> pc_in = 0) /\ (coin = 0 \/ pc = 0))
  end.
Proof.
  intros Hc Hp Ha Hci Hpi Hbal. destruct (balances_u64 _ _ _ _ _ _ Hc Hp Ha Hbal) as [Hcoin Hpc].
  unfold Raydium.get_pool_swap_amounts. rewrite Hbal. unfold is_u64 in Hci, Hpi.
  destruct (_ || _) eqn:E.
  { left. split; [done|]. lia. }
  cbn [result_bind]. destruct ((coin =? 0) || (pc =? 0)) eqn:Ez.
  { right. split; [done|]. lia. }
  unfold is_u64 in Hcoin, Hpc.
  destruct (coin_in =? 0) eqn:Ec.
  - destruct (swap_quote_Ok RAYDIUM_FEE_NUMERATOR RAYDIUM_FEE_DENOMINATOR pc coin pc_in)
      as (out & -> & Hout & Hprod); try (unfold is_u64, RAYDIUM_FEE_NUMERATOR, RAYDIUM_FEE_DENOMINATOR; lia).
  - destruct (swap_quote_Ok RAYDIUM_FEE_NUMERATOR RAYDIUM_FEE_DENOMINATOR coin pc coin_in)
      as (out & -> & Hout & Hprod); try (unfold is_u64, RAYDIUM_FEE_NUMERATOR, RAYDIUM_FEE_DENOMINATOR; lia).
Qed.

(** ** Deposits and withdrawals *)

Lemma estimate_lp_fair mint supply a b coin pc lp :
  get_token_supply mint = Ok supply -> 0 < coin -> 0 < pc ->
  Raydium.estimate_lp_tokens_amount mint a b coin pc = Ok lp ->
  lp * coin <= a * supply /\ lp * pc <= b * supply.
Proof.
  intros Hs Hc Hp. unfold Raydium.estimate_lp_tokens_amount. rewrite Hs.
  replace (coin =? 0) with false by lia. replace (pc =? 0) with false by lia. cbn [negb andb result_bind].
  destruct (mul_div a supply coin) as [x|] eqn:Ex; [|done]. cbn [result_bind].
  destruct (mul_div b supply pc) as [y|] eqn:Ey; [|done]. cbn [result_bind]. intros [= <-].
  apply mul_div_Ok in Ex as (_ & -> & _), Ey as (_ & -> & _).
  pose proof (Z.mul_div_le (a * supply) coin Hc). pose proof (Z.mul_div_le (b * supply) pc Hp). nia.
Qed.

(** The liquidity quoted for a deposit in a pool with both tokens is at most
    the share of either amount; withdrawing that liquidity from the pool after
    the deposit gives back no more than was deposited. *)
Theorem deposit_gains_nothing coin_account pc_account mint orders amm coin pc supply max_coin max_pc
    mint_after lp coin_in pc_in coin_out pc_out :
  bytes_of coin_account -> bytes_of pc_account -> bytes_of amm -> bytes_of mint ->
  is_u64 max_coin -> is_u64 max_pc ->
  Raydium.get_pool_token_balances coin_account pc_account orders amm = Ok (coin, pc) -> 0 < coin -> 0 < pc ->
  get_token_supply mint = Ok supply ->
  Raydium.get_pool_deposit_amounts coin_account pc_account mint orders amm max_coin max_pc
    = Ok (lp, coin_in, pc_in) ->
  get_token_supply mint_after = Ok (supply + lp) ->
  withdrawal_amounts mint_after (coin + coin_in) (pc + pc_in) lp = Ok (coin_out, pc_out) ->
  lp * coin <= coin_in * supply /\ lp * pc <= pc_in * supply /\ coin_out <= coin_in /\ pc_out <= pc_in.
Proof.
  intros Hc Hp Ha Hm Hmc Hmp Hbal Pc Pp Hs Hdep Hs' Hw.
  pose proof (get_token_supply_u64 _ _ Hm Hs) as Hsu. unfold is_u64 in Hsu, Hmc, Hmp.
  unfold Raydium.get_pool_deposit_amounts in Hdep. destruct (_ && _); [done|]. rewrite Hbal in Hdep.
  cbn [result_bind] in Hdep. unfold deposit_amounts in Hdep.
  replace (coin =? 0) with false in Hdep by lia. replace (pc =? 0) with false in Hdep by lia. cbn [orb] in Hdep.
  set (amounts := if max_coin =? 0 then _ else _) in Hdep.
  assert (forall x y, amounts = Ok (x, y) -> 0 <= x /\ 0 <= y) as Hpos.
  { intros x y. unfold amounts. destruct (max_coin =? 0).
    - destruct (mul_div coin max_pc pc) as [e|] eqn:Ee; [|done]. cbn [result_bind]. intros [= <- <-].
      destruct (1 <? e) eqn:E1; lia.
    - destruct (max_pc =? 0); [|intros [= <- <-]; lia].
      destruct (mul_div pc max_coin coin) as [e|] eqn:Ee; [|done]. cbn [result_bind].
      destruct (math _) as [z|] eqn:Ez; [|done]. cbn [result_bind]. intros [= <- <-].
      apply checked_add_u64 in Ez. unfold is_u64 in Ez. lia. }
  destruct amounts as [[x y]|]; [|done]. cbn [result_bind] in Hdep.
  destruct (Raydium.estimate_lp_tokens_amount _ _ _ _ _) as [l|] eqn:El; [|done]. cbn [result_bind] in Hdep.
  injection Hdep as -> -> ->. destruct (Hpos _ _ eq_refl) as [Hx Hy].
  destruct (estimate_lp_fair _ _ _ _ _ _ _ Hs Pc Pp El) as [Hl1 Hl2]. split; [done|]. split; [done|].
  unfold withdrawal_amounts in Hw. rewrite Hs' in Hw. destruct (_ && _).
  { injection Hw as <- <-. lia. }
  cbn [result_bind] in Hw. destruct (supply + lp =? 0) eqn:Esl.
  { injection Hw as <- <-. lia. }
  destruct (mul_div (coin + coin_in) lp (supply + lp)) as [u|] eqn:Eu; [|done]. cbn [result_bind] in Hw.
  destruct (mul_div (pc + pc_in) lp (supply + lp)) as [v|] eqn:Ev; [|done]. cbn [result_bind] in Hw.
  injection Hw as -> ->. apply mul_div_Ok in Eu as (Hnz & -> & Hu), Ev as (_ & -> & Hv).
  assert (0 <= lp) as Hlp.
  { unfold Raydium.estimate_lp_tokens_amount in El. rewrite Hs in El.
    replace (coin =? 0) with false in El by lia. replace (pc =? 0) with false in El by lia. cbn [negb andb result_bind] in El.
    destruct (mul_div coin_in supply coin) as [e1|] eqn:E1; [|done]. cbn [result_bind] in El.
    destruct (mul_div pc_in supply pc) as [e2|] eqn:E2; [|done]. cbn [result_bind] in El. injection El as <-.
    apply mul_div_Ok in E1 as (_ & _ & H1), E2 as (_ & _ & H2). unfold is_u64 in *. lia. }
  split; apply Z.div_le_upper_bound; nia.
Qed.

(** ** Orca *)

Definition unadjusted (orders amm : AccountInfo) : Prop :=
  length orders.(SdkAccount.data) <> 3228%nat /\ pnl_offsets (length amm.(SdkAccount.data)) = (0, 0)%nat.

Lemma unadjusted_balances a b orders amm :
  unadjusted orders amm ->
  Raydium.get_pool_token_balances a b orders amm = Orca.get_pool_token_balances a b.
Proof.
  intros [Ho Hp]. unfold Raydium.get_pool_token_balances, Orca.get_pool_token_balances.
  destruct (get_token_balance a) as [x|]; [|done]. cbn [result_bind].
  destruct (get_token_balance b) as [y|]; [|done]. cbn [result_bind].
  apply Nat.eqb_neq in Ho. by rewrite Ho, Hp.
Qed.

(** C37. Orca quotes deposits and withdrawals as Raydium does for a pool without
    open orders and without an AMM account of a known layout, on every input. *)
Theorem orca_quotes_as_raydium a b mint orders amm :
  unadjusted orders amm ->
  (forall x y, Orca.get_pool_deposit_amounts a b mint x y
     = Raydium.get_pool_deposit_amounts a b mint orders amm x y) /\
  (forall lp, Orca.get_pool_withdrawal_amounts a b mint lp
     = Raydium.get_pool_withdrawal_amounts a b orders amm mint lp).
Proof.
  intros Hu. split; [intros x y | intros lp].
  - unfold Orca.get_pool_deposit_amounts, Raydium.get_pool_deposit_amounts. rewrite unadjusted_balances by done.
    destruct (_ && _); [done|]. by destruct (Orca.get_pool_token_balances a b) as [[p q]|].
  - unfold Orca.get_pool_withdrawal_amounts, Raydium.get_pool_withdrawal_amounts. rewrite unadjusted_balances by done.
    destruct (lp =? 0); [done|]. by destruct (Orca.get_pool_token_balances a b) as [[p q]|].
Qed.

(** ** Invoked programs *)

(** A place of an instruction: an account by its position among the accounts
    passed in, or one known in advance, which is only read. *)
Inductive Place :=
| Reads (n : nat)
| Writes (n : nat)
| Signs (n : nat)
| ReadsKnown (k : Z).

Definition place_meta (accounts : list Z) (p : Place) : AccountMeta :=
  match p with
  | Reads n => {| pubkey := nth n accounts 0; is_signer := false; is_writable := false |}
  | Writes n => {| pubkey := nth n accounts 0; is_signer := false; is_writable := true |}
  | Signs n => {| pubkey := nth n accounts 0; is_signer := true; is_writable := false |}
  | ReadsKnown k => {| pubkey := k; is_signer := false; is_writable := false |}
  end.

(** How a program is called: with how many accounts, which of them is the
    program and must be one of [programs], the accounts of the instruction in the
    order the program expects them, and its data. *)
Record Order := {
  accounts_passed : nat;
  program_at : nat;
  programs : list Z;
  places : list Place;
  bytes : list Z;
}.

Definition ordered (o : Order) (accounts : list Z) (program : Z) : Instruction :=
  {| Cpi.program_id := program; Cpi.accounts := map (place_meta accounts) o.(places); Cpi.data := o.(bytes) |}.

Definition signed_only_by (w : Z) (i : Instruction) : Prop :=
  signers_of i <> [] /\ Forall (eq w) (signers_of i).

Section Invoked.
Context `{ProgramIds} `{Runtime} `{SplTokenSwap}.

(** [call] fails for a wrong number of accounts and for a foreign program, and
    otherwise is exactly the invocation of the ordered instruction, which the
    first account signs and no other. *)
Definition performs (call : Cpi) (accounts : list Z) (seeds : list (list (list Z))) (o : Order) : Prop :=
  match accounts !! o.(program_at) with
  | Some p =>
      if negb (length accounts =? o.(accounts_passed))%nat then call = st_bail NotEnoughAccountKeys
      else if negb (existsb (Z.eqb p) o.(programs)) then call = st_bail IncorrectProgramId
      else call = invoke_signed (ordered o accounts p) accounts seeds /\
        exists w, head accounts = Some w /\ signed_only_by w (ordered o accounts p)
  | None => call = st_bail NotEnoughAccountKeys
  end.

Definition raydium_pools : list Z := [Raydium.raydium_v2; Raydium.raydium_v3; Raydium.raydium_v4].
Definition raydium_farms : list Z := [Raydium.raydium_stake; Raydium.raydium_stake_v4; Raydium.raydium_stake_v5].

(** Passed in: 0 the authority, 1 to 3 its coin, pc and LP accounts, 4 the
    program, 5 and 6 the pool's coin and pc accounts, 7 the LP mint, 8 the token
    program, 9 to 12 the AMM, its authority, open orders and target, 13 the market. *)
Definition raydium_deposit (max_coin max_pc : Z) : Order := {|
  accounts_passed := 14; program_at := 4; programs := raydium_pools;
  places := [Reads 8; Writes 9; Reads 10; Reads 11; Writes 12; Writes 7; Writes 5; Writes 6; Reads 13;
             Writes 1; Writes 2; Writes 3; Signs 0];
  bytes := 3 :: to_le_bytes 8 max_coin ++ to_le_bytes 8 max_pc ++ to_le_bytes 8 0 |}.

(** As before, with 5 the withdrawal queue and 6 the temporary LP account in front
    of the pool's accounts (7, 8) and the mint (9), 10 the token program, 11 to 14
    the AMM, and 15 to 22 the market, its program, bids, asks, events, vaults and
    vault signer. *)
Definition raydium_withdrawal (amount : Z) : Order := {|
  accounts_passed := 23; program_at := 4; programs := raydium_pools;
  places := [Reads 10; Writes 11; Reads 12; Writes 13; Writes 14; Writes 9; Writes 7; Writes 8; Writes 5; Writes 6;
             Reads 16; Writes 15; Writes 20; Writes 21; Reads 22; Writes 3; Writes 1; Writes 2; Signs 0;
             Writes 19; Writes 17; Writes 18];
  bytes := 4 :: to_le_bytes 8 amount |}.

(** Passed in: 0 the authority, 1 and 2 the accounts it pays from and to, 3 the
    program, 4 and 5 the pool's accounts, 6 the token program, 7 to 10 the AMM, 11
    to 18 the market as above. *)
Definition raydium_trade (amount_in min_amount_out : Z) : Order := {|
  accounts_passed := 19; program_at := 3; programs := raydium_pools;
  places := [Reads 6; Writes 7; Reads 8; Writes 9; Writes 10; Writes 4; Writes 5; Reads 12; Writes 11;
             Writes 13; Writes 14; Writes 15; Writes 16; Writes 17; Reads 18; Writes 1; Writes 2; Signs 0];
  bytes := 9 :: to_le_bytes 8 amount_in ++ to_le_bytes 8 min_amount_out |}.

(** Passed in: 0 the authority, 1 the stake record, 2 its LP account, 3 and 4 its
    reward accounts, 5 the program, 6 the farm's LP account, 7 and 8 its reward
    accounts, the second of which may be absent, 9 the clock, 10 the token
    program, 11 and 12 the farm and its authority. *)
Definition raydium_farming (tag : Z) (accounts : list Z) (amount : Z) : Order := {|
  accounts_passed := 13; program_at := 5; programs := raydium_farms;
  places := [Writes 11; Reads 12; Writes 1; Signs 0; Writes 2; Writes 6; Writes 3; Writes 7; Reads 9; Reads 10]
            ++ (if nth 8 accounts 0 =? zero_id then [] else [Writes 4; Writes 8]);
  bytes := tag :: to_le_bytes 8 amount |}.

(** Passed in: 0 the authority, 1 the farmer's record, 2 and 3 its LP and reward
    accounts, 4 and 5 its account and the mint of the farm's token, 6 the program, 7
    and 8 the vaults, 9 the token program, 10 and 11 the farm and its authority.
    Converting and reverting name the second signer at different places. *)
Definition orca_stake_places : list Place :=
  [Signs 0; Writes 2; Writes 7; Signs 0; Writes 5; Writes 4; Writes 10; Writes 1; Writes 8; Writes 3; Reads 11;
   ReadsKnown spl_token_id].

Definition orca_unstake_places : list Place :=
  [Signs 0; Writes 2; Writes 7; Writes 5; Writes 4; Signs 0; Writes 10; Writes 1; Writes 8; Writes 3; Reads 11;
   ReadsKnown spl_token_id].

Definition orca_farming (tag : Z) (at_places : list Place) (amount : Z) : Order := {|
  accounts_passed := 12; program_at := 6; programs := [Orca.orca_stake]; places := at_places;
  bytes := tag :: to_le_bytes 8 amount |}.

Definition orca_harvest : Order := {|
  accounts_passed := 9; program_at := 3; programs := [Orca.orca_stake];
  places := [Signs 0; Writes 7; Writes 1; Reads 4; Writes 5; Writes 2; Reads 8; ReadsKnown spl_token_id];
  bytes := [4] |}.

(** The accounts of a call: too few, too many, or exactly as many as it needs. *)
Ltac passed_accounts l :=
  repeat (destruct l as [|? l]; [reflexivity|]); destruct l; [|reflexivity].

Ltac signs_first :=
  eexists; split; [reflexivity|]; unfold signed_only_by, signers_of;
  cbn [Cpi.accounts List.filter is_signer map pubkey]; split; [discriminate | by repeat constructor].

Lemma pool_program_listed p : Raydium.check_pool_program_id p = existsb (Z.eqb p) raydium_pools.
Proof. unfold Raydium.check_pool_program_id. cbn. by rewrite orb_false_r, orb_assoc. Qed.

Lemma stake_program_listed p : Raydium.check_stake_program_id p = existsb (Z.eqb p) raydium_farms.
Proof. unfold Raydium.check_stake_program_id. cbn. by rewrite orb_false_r, orb_assoc. Qed.

Lemma packed_call {S} v (k : list Z -> ST S (result ProgramError unit)) :
  (data <-! packed_data (Some (Ok v)) ;; k data) = k v.
Proof. reflexivity. Qed.

Lemma orca_farm_listed p : Orca.check_stake_program_id p = existsb (Z.eqb p) [Orca.orca_stake].
Proof. unfold Orca.check_stake_program_id. cbn. by rewrite orb_false_r. Qed.

Ltac invocation :=
  cbn [lookup list_lookup length Nat.eqb negb accounts_passed program_at programs];
  rewrite ?pool_program_listed, ?stake_program_listed, ?orca_farm_listed;
  match goal with |- context [if negb ?b then _ else _] => destruct b; cbn [negb]; [|reflexivity] end;
  unfold ordered; cbn [places bytes nth];
  try match goal with |- context [?k =? zero_id] => destruct (k =? zero_id) end;
  cbn [map place_meta nth app];
  (split; [rewrite ?RaydiumAddLiquidity.to_vec_bytes_RaydiumAddLiquidity,
      ?RaydiumRemoveLiquidity.to_vec_bytes_RaydiumRemoveLiquidity, ?RaydiumSwap.to_vec_bytes_RaydiumSwap,
      ?RaydiumStake.to_vec_bytes_RaydiumStake, ?RaydiumUnstake.to_vec_bytes_RaydiumUnstake,
      ?OrcaStake.to_vec_bytes_OrcaStake, ?OrcaUnstake.to_vec_bytes_OrcaUnstake,
      ?OrcaHarvest.to_vec_bytes_OrcaHarvest, packed_call; reflexivity
  | signs_first]).

(** C36. Every call of Raydium, whatever accounts it gets.  A wrong number of
    accounts and a program that is not one of Raydium's is an error and nothing is
    invoked.  Otherwise exactly one instruction is invoked, with the seeds given:
    of the program passed in, with the accounts passed in at the places the
    program expects them, with the tag and the amounts as its data, and signed by
    the account that authorizes the call and by no other. *)
Theorem raydium_calls_authorized accounts seeds a b :
  performs (Raydium.add_liquidity accounts a b) accounts [] (raydium_deposit a b) /\
  performs (Raydium.add_liquidity_with_seeds accounts seeds a b) accounts seeds (raydium_deposit a b) /\
  performs (Raydium.remove_liquidity_with_seeds accounts seeds a) accounts seeds (raydium_withdrawal a) /\
  performs (Raydium.swap_with_seeds accounts seeds a b) accounts seeds (raydium_trade a b) /\
  performs (Raydium.stake_with_seeds accounts seeds a) accounts seeds (raydium_farming 1 accounts a) /\
  performs (Raydium.unstake_with_seeds accounts seeds a) accounts seeds (raydium_farming 2 accounts a).
Proof.
  split_and!; unfold performs, raydium_deposit, raydium_withdrawal, raydium_trade, raydium_farming;
    [ unfold Raydium.add_liquidity | unfold Raydium.add_liquidity_with_seeds
    | unfold Raydium.remove_liquidity_with_seeds | unfold Raydium.swap_with_seeds
    | unfold Raydium.stake_with_seeds | unfold Raydium.unstake_with_seeds ].
  all: passed_accounts accounts.
  all: invocation.
Qed.

(** The same for the calls of Orca's farms, which read the token program by its
    known id. *)
Theorem orca_farm_calls_authorized accounts seeds amount :
  performs (Orca.stake_with_seeds accounts seeds amount) accounts seeds (orca_farming 2 orca_stake_places amount) /\
  performs (Orca.unstake_with_seeds accounts seeds amount) accounts seeds (orca_farming 3 orca_unstake_places amount) /\
  performs (Orca.harvest_with_seeds accounts seeds) accounts seeds orca_harvest.
Proof.
  split_and!; unfold performs, orca_farming, orca_harvest, orca_stake_places, orca_unstake_places;
    [ unfold Orca.stake_with_seeds | unfold Orca.unstake_with_seeds | unfold Orca.harvest_with_seeds ].
  all: passed_accounts accounts.
  all: invocation.
Qed.
End Invoked.

(** ** A pool *)

Definition token_account (n : Z) : AccountInfo := {|
  key := 1; owner := 2; lamports := 1; SdkAccount.data := replicate 64 0 ++ to_le_bytes 8 n ++ replicate 93 0;
  SdkAccount.is_signer := false |}.

Definition mint_account (supply : Z) : AccountInfo := {|
  key := 3; owner := 2; lamports := 1; SdkAccount.data := replicate 36 0 ++ to_le_bytes 8 supply ++ replicate 38 0;
  SdkAccount.is_signer := false |}.

(** Without data: no open orders and no known layout. *)
Definition no_account : AccountInfo := {|
  key := 4; owner := 2; lamports := 0; SdkAccount.data := []; SdkAccount.is_signer := false |}.

Lemma to_le_bytes_list n z : byte_list (to_le_bytes n z).
Proof.
  revert z. induction n as [|n IH]; intros z; constructor; [|apply IH].
  apply Z.mod_pos_bound. lia.
Qed.

Lemma zeros_byte_list n : byte_list (replicate n 0).
Proof. by apply Forall_replicate. Qed.

Lemma sample_bytes a b n : byte_list (replicate a 0 ++ to_le_bytes 8 n ++ replicate b 0).
Proof. apply Forall_app. split; [apply zeros_byte_list|]. apply Forall_app. split; [apply to_le_bytes_list | apply zeros_byte_list]. Qed.

Lemma raydium_swap_keeps_product_witness :
  exists out, Raydium.get_pool_swap_amounts (token_account 1000000) (token_account 5000) no_account no_account 1000 0
      = Ok (1000, out) /\
    0 <= out < 5000 /\ 1000000 * 5000 <= (1000000 + 1000) * (5000 - out).
Proof.
  assert (bytes_of no_account) as Hn by apply Forall_nil_2.
  assert (is_u64 1000 /\ is_u64 0) as [H1 H2] by (unfold is_u64; lia).
  pose proof (raydium_swap_keeps_product (token_account 1000000) (token_account 5000) no_account no_account
    1000000 5000 1000 0 (sample_bytes _ _ _) (sample_bytes _ _ _) Hn H1 H2 eq_refl) as Hs.
  destruct (Raydium.get_pool_swap_amounts _ _ _ _ 1000 0) as [[i out]|e] eqn:E; [|vm_compute in E; discriminate].
  destruct Hs as (-> & _ & _ & [(_ & _ & Hout & Hp)|(Hx & _)]); [|discriminate].
  exists out. split; [done|]. split; [exact Hout | exact Hp].
Defined.

Lemma deposit_gains_nothing_witness :
  Raydium.get_pool_deposit_amounts (token_account 1000) (token_account 500) (mint_account 700) no_account no_account 100 0
    = Ok (70, 100, 51) /\
  withdrawal_amounts (mint_account 770) 1100 551 70 = Ok (100, 50) /\ 100 <= 100 /\ 50 <= 51.
Proof.
  assert (bytes_of no_account) as Hn by apply Forall_nil_2.
  assert (is_u64 100 /\ is_u64 0) as [H1 H2] by (unfold is_u64; lia).
  assert (Raydium.get_pool_deposit_amounts (token_account 1000) (token_account 500) (mint_account 700) no_account no_account 100 0
    = Ok (70, 100, 51)) as E1 by (vm_compute; reflexivity).
  assert (withdrawal_amounts (mint_account 770) 1100 551 70 = Ok (100, 50)) as E2 by (vm_compute; reflexivity).
  split; [exact E1|]. split; [exact E2|].
  exact (proj2 (proj2 (deposit_gains_nothing (token_account 1000) (token_account 500) (mint_account 700) no_account
    no_account 1000 500 700 100 0 (mint_account 770) 70 100 51 100 50 (sample_bytes _ _ _) (sample_bytes _ _ _) Hn
    (sample_bytes _ _ _) H1 H2 eq_refl eq_refl eq_refl eq_refl E1 eq_refl E2))).
Defined.

Lemma orca_quotes_as_raydium_witness :
  Orca.get_pool_deposit_amounts (token_account 1000) (token_account 500) (mint_account 700) 100 0
  = Raydium.get_pool_deposit_amounts (token_account 1000) (token_account 500) (mint_account 700) no_account no_account 100 0.
Proof.
  assert (unadjusted no_account no_account) as Hu by (split; done).
  exact (proj1 (orca_quotes_as_raydium (token_account 1000) (token_account 500) (mint_account 700) _ _ Hu) 100 0).
Defined.

(** ** A swap that is invoked *)

#[local] Instance sample_ids : ProgramIds := {| spl_token_id := 1; zero_id := 2; main_router_admin := 3 |}.

(** An invoked program leaves its own id with the first account that signs. *)
#[local] Instance sample_runtime : Runtime := {|
  invoke_signed := fun i _ _ accounts =>
    match signers_of i with
    | w :: _ => (Some (Ok tt), <[w := {| key := w; owner := i.(Cpi.program_id); lamports := 0;
                                         SdkAccount.data := i.(Cpi.data); SdkAccount.is_signer := true |}]> accounts)
    | [] => (Some (Err MissingRequiredSignature), accounts)
    end;
  find_program_address := fun _ _ => (9, 255);
  create_with_seed := fun _ _ _ => Ok 9;
  rent_get := Ok (fun size => size) |}.

Definition swap_accounts (program : Z) : list Z :=
  [50; 51; 52; program; 54; 55; 56; 57; 58; 59; 60; 61; 62; 63; 64; 65; 66; 67; 68].

Lemma raydium_calls_authorized_witness :
  (exists i, Raydium.swap_with_seeds (swap_accounts Raydium.raydium_v4) [] 300 1
       = invoke_signed i (swap_accounts Raydium.raydium_v4) [] /\
     Cpi.program_id i = Raydium.raydium_v4 /\ signers_of i = [50] /\ length (Cpi.accounts i) = 18%nat /\
     Cpi.data i = [9; 44; 1; 0; 0; 0; 0; 0; 0; 1; 0; 0; 0; 0; 0; 0; 0] /\
     fst (invoke_signed i (swap_accounts Raydium.raydium_v4) [] ∅) = Some (Ok tt)) /\
  Raydium.swap_with_seeds (swap_accounts 7) [] 300 1 = st_bail IncorrectProgramId.
Proof.
  pose proof (proj1 (proj2 (proj2 (proj2 (raydium_calls_authorized (swap_accounts Raydium.raydium_v4) [] 300 1))))) as Hs.
  pose proof (proj1 (proj2 (proj2 (proj2 (raydium_calls_authorized (swap_accounts 7) [] 300 1))))) as Hw.
  unfold performs in Hs, Hw. destruct Hs as [Hs _]. split; [|exact Hw].
  eexists. split; [exact Hs|]. split_and!; vm_compute; reflexivity.
Defined.
