(* ===== verification/Oracle.v ===== *)
(** * Prices and ratios ([crates/solana_farm_sdk/src/program/account.rs], [math.rs])

    Amounts as floats, ratios of balances, and oracle prices.  What reads a Pyth
    account ([pyth_client]), the slot of the clock, [f64::powi], whose rounding
    the language leaves open as [f64::powf]'s, and [num_traits]'s casts of a float are parameters. *)

From S2P Require Import Prelude MachineInt Float64 Amounts Pack Token SdkAccount.

(** What is read of [pyth_client::Price]; [trading] and [is_price] say which
    variant [agg.status] and [ptype] are. *)
Record PythPrice := {
  trading : bool;
  is_price : bool;
  valid_slot : Z;
  agg_price : Z;
  agg_conf : Z;
  expo : Z;
}.

Class OracleEnv := {
  load_price : list Z -> result ProgramError PythPrice;
  get_slot : result ProgramError Z;
  powi : f64 -> Z -> f64;
  powf : f64 -> f64 -> f64;
  num_cast_u64 : f64 -> option Z;
  num_cast_u128 : f64 -> option Z;
}.

(** [solana_program::clock::DEFAULT_MS_PER_SLOT]. *)
Definition DEFAULT_MS_PER_SLOT : Z := 400.

Record OraclePrice := {
  price : Z;
  exponent : Z;
}.

Definition is_finite (x : f64) : bool :=
  match x with SpecFloat.S754_finite _ _ _ | SpecFloat.S754_zero _ => true | _ => false end.

(** Arithmetic on [i32]. *)
Definition arith_i32 `{Profile} (z : Z) : option Z :=
  if (- 2 ^ 31 <=? z) && (z <? 2 ^ 31) then Some z
  else if overflow_checks then None else Some (wrap_i32 z).

Section Oracle.
Context `{Profile} `{OracleEnv} `{ProgramIds}.

(** A result of a function that may also panic. *)
Abbreviation Fallible A := (option (result ProgramError A)) (only parsing).

Definition checked_powf (arg exp : f64) : result ProgramError f64 :=
  let res := powf arg exp in if is_finite res then Ok res else Err MathOverflow.

Definition checked_powi (arg : f64) (exp : Z) : Fallible f64 :=
  res ← (if 0 <? exp then Some (powi arg exp)
         else e ← arith_i32 (- exp); Some (f64_div (f64_of_Z 1) (powi arg e)));
  Some (if is_finite res then Ok res else Err MathOverflow).

Definition checked_float_as_u64 (x : f64) : result ProgramError Z :=
  match num_cast_u64 x with Some z => Ok z | None => Err MathOverflow end.

Definition checked_float_as_u128 (x : f64) : result ProgramError Z :=
  match num_cast_u128 x with Some z => Ok z | None => Err MathOverflow end.

(** ** Amounts *)

Fixpoint times {A} (n : nat) (f : A -> A) (a : A) : A :=
  match n with O => a | S n' => times n' f (f a) end.

Definition to_ui_amount (amount decimals : Z) : f64 :=
  times (Z.to_nat decimals) (fun x => f64_div x (f64_of_Z 10)) (f64_of_Z amount).

Definition to_token_amount (ui_amount : f64) (decimals : Z) : result ProgramError Z :=
  checked_float_as_u64 (times (Z.to_nat decimals) (fun x => f64_mul x (f64_of_Z 10)) ui_amount).

(** ** Ratios *)

Definition get_token_ratio_with_decimals (token_a_balance token_b_balance token_a_decimals token_b_decimals : Z)
    : Fallible f64 :=
  if (token_a_balance =? 0) || (token_b_balance =? 0) then Some (Ok f64_zero) else
  exp ← arith_i32 (token_a_decimals - token_b_decimals);
  power ← checked_powi (f64_of_Z 10) exp;
  Some (p <-? power ;;
        Ok (f64_mul (f64_div (f64_of_Z token_b_balance) (f64_of_Z token_a_balance)) p)).

Definition get_token_ratio (token_a_balance token_b_balance : Z) (token_a_mint token_b_mint : AccountInfo)
    : Fallible f64 :=
  match get_token_decimals token_a_mint with
  | Err e => Some (Err e)
  | Ok token_a_decimals =>
      match get_token_decimals token_b_mint with
      | Err e => Some (Err e)
      | Ok token_b_decimals =>
          get_token_ratio_with_decimals token_a_balance token_b_balance token_a_decimals token_b_decimals
      end
  end.

Definition get_token_pair_ratio (token_a_account token_b_account : AccountInfo) : result ProgramError f64 :=
  token_a_balance <-? get_token_balance token_a_account ;;
  token_b_balance <-? get_token_balance token_b_account ;;
  if (token_a_balance =? 0) || (token_b_balance =? 0) then Ok f64_zero
  else Ok (f64_div (f64_of_Z token_b_balance) (f64_of_Z token_a_balance)).

(** ** Oracle prices *)

Definition get_pyth_price (pyth_price_info : AccountInfo) (max_price_error : f64) (max_price_age_sec : Z)
    : result ProgramError OraclePrice :=
  if is_empty pyth_price_info then Err OracleInvalidAccount else
  pyth_price <-? load_price pyth_price_info.(data) ;;
  if negb pyth_price.(trading) || negb pyth_price.(is_price) then Err OracleInvalidState else
  slot <-? get_slot ;;
  slots <-? math (SdkMath.checked_sub u64b slot pyth_price.(valid_slot)) ;;
  last_update_age_ms <-? math (SdkMath.checked_mul u64b slots DEFAULT_MS_PER_SLOT) ;;
  if max_price_age_sec <? last_update_age_ms / 1000 then Err OracleStalePrice else
  if (pyth_price.(agg_price) <=? 0)
     || f64_gt (f64_div (f64_of_Z pyth_price.(agg_conf)) (f64_of_Z pyth_price.(agg_price))) max_price_error
  then Err OracleInvalidPrice
  else Ok {| price := as_u64 pyth_price.(agg_price); exponent := pyth_price.(expo) |}.

Definition get_oracle_price (oracle_type : OracleType) (oracle_account : AccountInfo) (max_price_error : f64)
    (max_price_age_sec : Z) : result ProgramError OraclePrice :=
  match oracle_type with
  | Pyth => get_pyth_price oracle_account max_price_error max_price_age_sec
  | _ => Err UnsupportedSysvar
  end.

Definition get_asset_value_usd (amount decimals : Z) (oracle_type : OracleType) (oracle_account : AccountInfo)
    (max_price_error : f64) (max_price_age_sec : Z) : Fallible f64 :=
  if amount =? 0 then Some (Ok f64_zero) else
  match get_oracle_price oracle_type oracle_account max_price_error max_price_age_sec with
  | Err e => Some (Err e)
  | Ok oracle_price =>
      exp ← arith_i32 (decimals - oracle_price.(exponent));
      power ← checked_powi (f64_of_Z 10) exp;
      Some (p <-? power ;;
            Ok (f64_div (f64_mul (f64_of_Z amount) (f64_of_Z oracle_price.(price))) p))
  end.

Definition get_asset_value_tokens (usd_amount : f64) (token_decimals : Z) (oracle_type : OracleType)
    (oracle_account : AccountInfo) (max_price_error : f64) (max_price_age_sec : Z) : Fallible Z :=
  if f64_eq usd_amount f64_zero then Some (Ok 0) else
  match get_oracle_price oracle_type oracle_account max_price_error max_price_age_sec with
  | Err e => Some (Err e)
  | Ok oracle_price =>
      exp ← arith_i32 (token_decimals - oracle_price.(exponent));
      power ← checked_powi (f64_of_Z 10) exp;
      Some (p <-? power ;;
            checked_float_as_u64 (f64_mul (f64_div usd_amount (f64_of_Z oracle_price.(price))) p))
  end.

(** ** Facts *)

(** A price is only taken from a Pyth account that is trading, has a positive
    price whose confidence interval is not too wide, and was updated at most
    the given number of seconds before the slot of the clock; then its value is
    the price of the account. *)
Theorem oracle_price_is_fresh oracle_type account max_error max_age p :
  get_oracle_price oracle_type account max_error max_age = Ok p ->
  exists pyth slot,
    oracle_type = Pyth /\ load_price account.(data) = Ok pyth /\ get_slot = Ok slot /\
    trading pyth = true /\ is_price pyth = true /\
    valid_slot pyth <= slot /\ (slot - valid_slot pyth) * 400 / 1000 <= max_age /\
    0 < agg_price pyth /\
    f64_gt (f64_div (f64_of_Z (agg_conf pyth)) (f64_of_Z (agg_price pyth))) max_error = false /\
    price p = agg_price pyth mod 2 ^ 64 /\ exponent p = expo pyth.
Proof.
  unfold get_oracle_price. destruct oracle_type; [|done..]. unfold get_pyth_price.
  destruct (is_empty account); [done|]. destruct (load_price _) as [pyth|]; [|done]. cbn [result_bind].
  destruct (trading pyth) eqn:Et; [|done]. destruct (is_price pyth) eqn:Ep; [|done]. cbn [negb orb].
  destruct get_slot as [slot|]; [|done]. cbn [result_bind].
  unfold SdkMath.checked_sub, SdkMath.checked_mul, SdkMath.checked.
  destruct (u64b (slot - _)) eqn:E1; [|done]. cbn [math result_bind].
  destruct (u64b (_ * _)) eqn:E2; [|done]. cbn [math result_bind].
  destruct (max_age <? _) eqn:E3; [done|]. destruct (_ || _) eqn:E4; [done|]. intros [= <-].
  apply orb_false_iff in E4 as [E4 E5]. apply u64b_spec in E1. unfold is_u64 in E1.
  exists pyth, slot. cbn [price exponent]. repeat split; try done; try lia.
  apply Z.ltb_ge in E3. exact E3.
Qed.

(** A balance without counterpart has no ratio. *)
Lemma empty_ratio_is_zero a b da db :
  a = 0 \/ b = 0 -> get_token_ratio_with_decimals a b da db = Some (Ok f64_zero).
Proof.
  intros Hz. unfold get_token_ratio_with_decimals.
  by destruct Hz as [-> | ->]; rewrite ?orb_true_r.
Qed.
End Oracle.

(** Two slots old at one per cent. *)
#[local] Instance sample_oracle : OracleEnv := {|
  load_price := fun _ => Ok {| trading := true; is_price := true; valid_slot := 98; agg_price := 5000;
                               agg_conf := 50; expo := -2 |};
  get_slot := Ok 100; powi := fun x _ => x; powf := fun x _ => x;
  num_cast_u64 := fun _ => None; num_cast_u128 := fun _ => None |}.

Lemma oracle_price_is_fresh_witness :
  get_oracle_price Pyth {| key := 1; owner := 2; lamports := 3; data := [0]; is_signer := false |}
    (f64_div (f64_of_Z 1) (f64_of_Z 20)) 1 = Ok {| price := 5000; exponent := -2 |} /\ 0 < 5000.
Proof.
  assert (get_oracle_price Pyth {| key := 1; owner := 2; lamports := 3; data := [0]; is_signer := false |}
    (f64_div (f64_of_Z 1) (f64_of_Z 20)) 1 = Ok {| price := 5000; exponent := -2 |}) as E
    by (vm_compute; reflexivity).
  split; [exact E|].
  destruct (oracle_price_is_fresh _ _ _ _ _ E) as (pyth & slot & _ & Hl & _ & _ & _ & _ & _ & Hp & _).
  injection Hl as <-. exact Hp.
Defined.
