(* ===== verification/Pda.v ===== *)
(** * Accounts at derived addresses ([crates/solana_farm_sdk/src/program/pda.rs], [account.rs])

    Creating, closing and checking accounts and moving tokens, by invoking the
    system and the token program.  [pda.rs] signs with the seeds of a derived
    address and [account.rs] does without them; accounts are passed by key and
    read before and after an invocation. *)

From S2P Require Import Prelude MachineInt Pack SdkAccount Cpi.

Section Pda.
Context `{ProgramIds} `{Runtime} `{SplToken} `{SystemInstruction}.

(** An instruction that may fail to be built, and its invocation. *)
Definition invoke_built (built : result ProgramError Instruction) (accounts : list Z) (seeds : Seeds) : Cpi :=
  match built with Ok i => invoke_signed i accounts seeds | Err e => st_bail e end.

(** [&[seeds, &[&[bump]]].concat()]. *)
Definition with_bump (seeds : Seed) (bump : Z) : Seeds := [seeds ++ [[bump]]].

(** A token account that is there already: it must be the owner's and the mint's. *)
Definition check_token_account (target : AccountInfo) (mint owner_key : Z) : result ProgramError unit :=
  o <-? check_token_account_owner target owner_key ;;
  if negb o then Err IllegalOwner else
  if negb (length target.(SdkAccount.data) =? ACCOUNT_LEN)%nat then Err InvalidAccountData else
  m <-? get_token_account_mint target ;;
  if negb (mint =? m) then Err InvalidAccountData else Ok tt.

(** [Rent::get().unwrap().minimum_balance(data_size)]. *)
Definition min_balance_of (data_size : Z) : ST Accounts Z :=
  match rent_get with Ok minimum_balance => st_ret (minimum_balance data_size) | Err _ => st_panic end.

(** ** [pda.rs] *)

Definition init_system_account (funding target owner_key base_address : Z) (seeds : Seed) (data_size : Z)
    : ST Accounts (result ProgramError Z) :=
  account <- reads_account target ;;
  if exists_ account then
    if negb (account.(owner) =? owner_key) then st_bail IllegalOwner else
    if negb (Z.of_nat (length account.(SdkAccount.data)) =? data_size) then st_bail InvalidAccountData else
    st_ok (snd (find_program_address seeds base_address))
  else
  let '(derived, bump) := find_program_address seeds base_address in
  if negb (target =? derived) then st_bail InvalidSeeds else
  min_balance <-! st_lift (min_balance_of data_size) ;;
  _ <-! invoke_signed (create_account funding target min_balance data_size owner_key)
          [funding; target] (with_bump seeds bump) ;;
  st_ok bump.

Definition init_token_account (funding target mint owner_key rent_program base_address : Z) (seeds : Seed) : Cpi :=
  account <- reads_account target ;;
  if exists_ account then
    st_ret (check_token_account account mint owner_key)
  else
  _ <-! init_system_account funding target spl_token_id base_address seeds (Z.of_nat ACCOUNT_LEN) ;;
  invoke_built (initialize_account spl_token_id target mint owner_key) [target; mint; owner_key; rent_program] [].

Definition init_associated_token_account (funding wallet target mint rent_program : Z) : Cpi :=
  account <- reads_account target ;;
  if exists_ account then
    st_ret (check_token_account account mint wallet)
  else
  invoke (create_associated_token_account funding wallet mint) [funding; target; wallet; mint; rent_program].

Definition close_token_account_with_seeds (receiving target authority : Z) (seeds : Seeds) : Cpi :=
  account <- reads_account target ;;
  if negb (exists_ account) then st_ok tt else
  invoke_built (close_account spl_token_id target receiving authority) [target; receiving; authority] seeds.

(** The functions that derive the bump seed and return it. *)
Definition with_derived_seeds (base_address : Z) (seeds : Seed) (call : Seeds -> Cpi)
    : ST Accounts (result ProgramError Z) :=
  let bump := snd (find_program_address seeds base_address) in
  _ <-! call (with_bump seeds bump) ;; st_ok bump.

Definition close_token_account (receiving target authority base_address : Z) (seeds : Seed) :=
  with_derived_seeds base_address seeds (close_token_account_with_seeds receiving target authority).

Definition transfer_tokens_with_seeds (source destination authority : Z) (seeds : Seeds) (amount : Z) : Cpi :=
  if source =? destination then st_bail InvalidArgument else
  invoke_built (transfer spl_token_id source destination authority amount)
    [source; destination; authority] seeds.

Definition transfer_tokens (source destination authority base_address : Z) (seeds : Seed) (amount : Z) :=
  with_derived_seeds base_address seeds
    (fun s => transfer_tokens_with_seeds source destination authority s amount).

Definition init_mint (funding mint authority rent_program base_address : Z) (seeds : Seed) (decimals : Z) : Cpi :=
  account <- reads_account mint ;;
  if exists_ account then
    match check_mint_authority account (Some authority) with
    | Err e => st_bail e
    | Ok false => st_bail IllegalOwner
    | Ok true =>
        if negb (length account.(SdkAccount.data) =? MINT_LEN)%nat then st_bail InvalidAccountData else st_ok tt
    end
  else
  _ <-! init_system_account funding mint spl_token_id base_address seeds (Z.of_nat MINT_LEN) ;;
  invoke_built (initialize_mint spl_token_id mint authority (Some authority) decimals)
    [mint; authority; rent_program] [].

Definition mint_to_with_seeds (target mint mint_authority : Z) (seeds : Seeds) (amount : Z) : Cpi :=
  invoke_built (mint_to spl_token_id mint target mint_authority amount) [target; mint; mint_authority] seeds.

Definition mint_to (target mint mint_authority base_address : Z) (seeds : Seed) (amount : Z) :=
  with_derived_seeds base_address seeds (fun s => mint_to_with_seeds target mint mint_authority s amount).

Definition burn_tokens_with_seeds (from mint authority : Z) (seeds : Seeds) (amount : Z) : Cpi :=
  invoke_built (burn spl_token_id from mint authority amount) [from; mint; authority] seeds.

Definition burn_tokens (from mint authority base_address : Z) (seeds : Seed) (amount : Z) :=
  with_derived_seeds base_address seeds (fun s => burn_tokens_with_seeds from mint authority s amount).

Definition approve_delegate_with_seeds (source delegate authority : Z) (seeds : Seeds) (amount : Z) : Cpi :=
  invoke_built (approve spl_token_id source delegate authority amount) [source; delegate; authority] seeds.

Definition approve_delegate (source delegate authority base_address : Z) (seeds : Seed) (amount : Z) :=
  with_derived_seeds base_address seeds (fun s => approve_delegate_with_seeds source delegate authority s amount).

Definition revoke_delegate_with_seeds (source authority : Z) (seeds : Seeds) : Cpi :=
  invoke_built (revoke spl_token_id source authority) [source; authority] seeds.

Definition revoke_delegate (source authority base_address : Z) (seeds : Seed) :=
  with_derived_seeds base_address seeds (revoke_delegate_with_seeds source authority).

Definition check_pda_data_size (target : Z) (seeds : Seed) (data_size : Z) (fix_ : bool) : Cpi :=
  account <- reads_account target ;;
  _ <-! (if fix_ && (length account.(SdkAccount.data) =? 0)%nat
         then invoke_signed (allocate target data_size) [target] [seeds] else st_ok tt) ;;
  account <- reads_account target ;;
  if Z.of_nat (length account.(SdkAccount.data)) <? data_size then st_bail AccountDataTooSmall else st_ok tt.

(** The subtractions are behind comparisons that make them succeed. *)
Definition check_pda_rent_exempt (signer_account target : Z) (seeds : Seed) (data_size : Z) (fix_ : bool) : Cpi :=
  minimum_balance <-! st_ret rent_get ;;
  account <- reads_account target ;;
  let cur_balance := account.(lamports) in
  let min_balance := minimum_balance data_size in
  if cur_balance <? min_balance then
    signer_info <- reads_account signer_account ;;
    let signer_balance := signer_info.(lamports) in
    let signer_min_balance := minimum_balance (Z.of_nat (length signer_info.(SdkAccount.data))) in
    if negb fix_ || (signer_balance <=? signer_min_balance)
       || (signer_balance - signer_min_balance <? min_balance - cur_balance)
    then st_bail InsufficientFunds else
    _ <-! invoke_signed (system_transfer signer_account target (min_balance - cur_balance))
            [signer_account; target] [seeds] ;;
    account <- reads_account target ;;
    if min_balance <=? account.(lamports) then st_ok tt else st_panic
  else st_ok tt.

Definition check_pda_owner (program_id target : Z) (seeds : Seed) (fix_ : bool) : Cpi :=
  account <- reads_account target ;;
  if account.(owner) =? program_id then st_ok tt else
  if fix_ then
    _ <-! invoke_signed (assign target program_id) [target] [seeds] ;;
    account <- reads_account target ;;
    if account.(owner) =? program_id then st_ok tt else st_panic
  else st_bail IllegalOwner.
End Pda.

(** ** The same without seeds ([account.rs]) *)

Module Plain.
Section Plain.
Context `{ProgramIds} `{Runtime} `{SplToken} `{SystemInstruction}.

Definition init_system_account (funding target owner_key : Z) (seed : list Z) (data_size : Z) : Cpi :=
  account <- reads_account target ;;
  if exists_ account then
    if negb (account.(owner) =? owner_key) then st_bail IllegalOwner else
    if negb (Z.of_nat (length account.(SdkAccount.data)) =? data_size) then st_bail InvalidAccountData else
    st_ok tt
  else
  derived_account <-! st_ret (create_with_seed funding seed owner_key) ;;
  if negb (target =? derived_account) then st_bail InvalidSeeds else
  min_balance <-! st_lift (min_balance_of data_size) ;;
  invoke (create_account_with_seed funding target funding seed min_balance data_size owner_key) [funding; target].

Definition init_token_account (funding target mint owner_key rent_program : Z) (seed : list Z) : Cpi :=
  account <- reads_account target ;;
  if exists_ account then
    st_ret (check_token_account account mint owner_key)
  else
  _ <-! init_system_account funding target spl_token_id seed (Z.of_nat ACCOUNT_LEN) ;;
  invoke_built (initialize_account spl_token_id target mint owner_key) [target; mint; owner_key; rent_program] [].

Definition close_token_account (receiving target authority : Z) : Cpi :=
  account <- reads_account target ;;
  if negb (exists_ account) then st_ok tt else
  invoke_built (close_account spl_token_id target receiving authority) [target; receiving; authority] [].

Definition transfer_sol (source destination amount : Z) : Cpi :=
  account <- reads_account source ;;
  if account.(lamports) <? amount then st_bail InsufficientFunds else
  invoke (system_transfer source destination amount) [source; destination].

Definition transfer_tokens (source destination authority amount : Z) : Cpi :=
  invoke_built (transfer spl_token_id source destination authority amount) [source; destination; authority] [].

Definition burn_tokens (from mint authority amount : Z) : Cpi :=
  invoke_built (burn spl_token_id from mint authority amount) [from; mint; authority] [].

Definition approve_delegate (source delegate authority amount : Z) : Cpi :=
  invoke_built (approve spl_token_id source delegate authority amount) [source; delegate; authority] [].

Definition revoke_delegate (source authority : Z) : Cpi :=
  invoke_built (revoke spl_token_id source authority) [source; authority] [].
End Plain.
End Plain.

(** * Accounts at derived addresses: what the checks and the creation guarantee *)

Section Facts.
Context `{ProgramIds} `{Runtime} `{SplToken} `{SystemInstruction}.

(** A check of a derived account that succeeds means what it says of the
    account as it then is, whatever the invoked programs did: it has the size, it
    is rent exempt, it has the owner.  Without permission to fix anything nothing
    is invoked, and lamports are only taken from a signer who can spare them. *)
Theorem pda_checks_hold target seeds accounts accounts' :
  (forall size fix_, check_pda_data_size target seeds size fix_ accounts = (Some (Ok tt), accounts') ->
     size <= Z.of_nat (length (account_at target accounts').(SdkAccount.data)) /\
     (fix_ = false -> accounts' = accounts)) /\
  (forall payer size fix_ minimum,
     check_pda_rent_exempt payer target seeds size fix_ accounts = (Some (Ok tt), accounts') ->
     rent_get = Ok minimum ->
     minimum size <= (account_at target accounts').(lamports) /\
     (accounts' = accounts \/
      (fix_ = true /\
       minimum size - (account_at target accounts).(lamports)
         <= (account_at payer accounts).(lamports)
            - minimum (Z.of_nat (length (account_at payer accounts).(SdkAccount.data)))))) /\
  (forall program_id fix_, check_pda_owner program_id target seeds fix_ accounts = (Some (Ok tt), accounts') ->
     (account_at target accounts').(owner) = program_id /\ (fix_ = false -> accounts' = accounts)).
Proof.
  split; [|split].
  - intros size fix_. unfold check_pda_data_size, reads_account, st_gets, st_try, st_bind, st_ok, st_ret, st_bail.
    destruct (fix_ && _) eqn:Ef.
    + destruct (invoke_signed _ _ _ accounts) as [[[[]|e]|] a]; [|done..].
      destruct (_ <? size) eqn:E; [done|]. intros [= <-]. apply Z.ltb_ge in E. split; [done|]. by intros ->.
    + destruct (_ <? size) eqn:E; [done|]. intros [= <-]. by apply Z.ltb_ge in E.
  - intros payer size fix_ minimum.
    unfold check_pda_rent_exempt, reads_account, st_gets, st_try, st_bind, st_ok, st_ret, st_bail, st_panic.
    intros Hc Hr. rewrite Hr in Hc. destruct (_ <? minimum size) eqn:El.
    + destruct (_ || _ || _) eqn:Eo; [done|].
      destruct (invoke_signed _ _ _ accounts) as [[[[]|e]|] a]; [|done..].
      destruct (minimum size <=? _) eqn:Em; [|done]. injection Hc as <-. apply Z.leb_le in Em.
      split; [done|]. right. rewrite !orb_false_iff in Eo. destruct Eo as [[Hf _] Hlt]. apply Z.ltb_ge in Hlt.
      by destruct fix_.
    + injection Hc as <-. apply Z.ltb_ge in El. split; [done | by left].
  - intros program_id fix_. unfold check_pda_owner, reads_account, st_gets, st_try, st_bind, st_ok, st_ret, st_bail, st_panic.
    destruct (_ =? program_id) eqn:E.
    + intros [= <-]. apply Z.eqb_eq in E. done.
    + destruct fix_; [|done]. destruct (invoke_signed _ _ _ accounts) as [[[[]|e]|] a]; [|done..].
      destruct (owner (account_at target a) =? program_id) eqn:E'; [|done]. intros [= <-]. apply Z.eqb_eq in E'. done.
Qed.

(** An account is only created at the address derived from the seeds, with the
    rent for its size and the seeds as signature; one that is there is accepted
    if its owner and its size are right, and nothing is invoked. *)
Theorem init_system_account_spec funding target owner_key base seeds size accounts minimum :
  rent_get = Ok minimum ->
  let account := account_at target accounts in
  let '(derived, bump) := find_program_address seeds base in
  init_system_account funding target owner_key base seeds size accounts =
  if exists_ account then
    (Some (if negb (owner account =? owner_key) then Err IllegalOwner
           else if negb (Z.of_nat (length account.(SdkAccount.data)) =? size) then Err InvalidAccountData
           else Ok bump), accounts)
  else if negb (target =? derived) then (Some (Err InvalidSeeds), accounts)
  else match invoke_signed (create_account funding target (minimum size) size owner_key) [funding; target]
               [seeds ++ [[bump]]] accounts with
       | (Some (Ok _), a) => (Some (Ok bump), a)
       | (Some (Err e), a) => (Some (Err e), a)
       | (None, a) => (None, a)
       end.
Proof.
  intros Hr account. destruct (find_program_address seeds base) as [derived bump] eqn:Ef.
  unfold init_system_account, reads_account, min_balance_of, st_gets. rewrite Ef, Hr.
  unfold st_bind at 1. fold account. destruct (exists_ account).
  - destruct (negb _); [done|]. by destruct (negb _).
  - destruct (negb (target =? derived)); [done|].
    unfold st_lift, st_try, st_bind, st_ret, with_bump.
    by destruct (invoke_signed _ _ _ accounts) as [[[[]|e]|] a].
Qed.
End Facts.

(** ** A runtime that does nothing but pay *)

#[local] Instance sample_ids : ProgramIds := {| spl_token_id := 1; zero_id := 2; main_router_admin := 3 |}.
#[local] Instance sample_runtime : Runtime := {|
  invoke_signed := fun i _ _ accounts =>
    match i.(Cpi.accounts) with
    | [a] => (Some (Ok tt), <[pubkey a := {| key := pubkey a; owner := 0; lamports := i.(program_id);
                                            SdkAccount.data := []; SdkAccount.is_signer := false |}]> accounts)
    | _ => (Some (Ok tt), accounts)
    end;
  find_program_address := fun _ _ => (9, 255);
  create_with_seed := fun _ _ _ => Ok 9;
  rent_get := Ok (fun size => 10 * size) |}.
#[local] Instance sample_token_program : SplToken :=
  let none := Err InvalidArgument in {|
  initialize_account := fun _ _ _ _ => none; initialize_mint := fun _ _ _ _ _ => none;
  close_account := fun _ _ _ _ => none; transfer := fun _ _ _ _ _ => none; Cpi.mint_to := fun _ _ _ _ _ => none;
  burn := fun _ _ _ _ _ => none; approve := fun _ _ _ _ _ => none; revoke := fun _ _ _ => none;
  create_associated_token_account := fun _ _ _ => {| program_id := 0; Cpi.accounts := []; Cpi.data := [] |} |}.
(** A transfer to an account is the account and, as its balance, the amount. *)
#[local] Instance sample_system : SystemInstruction :=
  let i k n := {| program_id := n; Cpi.accounts := [writable k]; Cpi.data := [] |} in {|
  create_account := fun _ t n _ _ => i t n; create_account_with_seed := fun _ t _ _ n _ _ => i t n;
  system_transfer := fun _ t n => i t n; allocate := fun t _ => i t 0; assign := fun t _ => i t 0 |}.

Lemma pda_checks_hold_witness :
  let payer := {| key := 5; owner := 0; lamports := 1000; SdkAccount.data := []; SdkAccount.is_signer := true |} in
  let accounts : Accounts := {[5 := payer]} in
  let accounts' := snd (check_pda_rent_exempt 5 9 [[1]] 20 true accounts) in
  200 <= (account_at 9 accounts').(lamports).
Proof.
  cbv zeta. set (accounts := {[5 := _]}).
  destruct (check_pda_rent_exempt 5 9 [[1]] 20 true accounts) as [o accounts'] eqn:E. cbn [snd].
  assert (o = Some (Ok tt)) as ->
    by (replace o with (fst (check_pda_rent_exempt 5 9 [[1]] 20 true accounts)) by (by rewrite E);
        vm_compute; reflexivity).
  exact (proj1 (proj1 (proj2 (pda_checks_hold 9 [[1]] accounts accounts')) 5 20 true _ E eq_refl)).
Defined.

Lemma init_system_account_spec_witness :
  fst (init_system_account 5 8 1 7 [[1]] 20 ∅) = Some (Err InvalidSeeds).
Proof.
  pose proof (init_system_account_spec 5 8 1 7 [[1]] 20 ∅ _ eq_refl) as Hi.
  cbv zeta in Hi. change (find_program_address [[1]] 7) with (9, 255) in Hi. cbv iota in Hi.
  rewrite Hi. reflexivity.
Defined.
