(* ===== verification/ClientNames.v ===== *)
(** * Names of the farm client ([crates/solana_farm_client/src/client.rs], [error.rs])

    Pools, farms and vaults are looked up by names such as [RDM.RAY-SRM-V4]; the
    functions here take names apart.  A [&str] is its UTF-8 bytes, so that a slice
    at an index inside a character panics, as in Rust. *)

From Stdlib Require Import String.
From S2P Require Import Prelude MachineInt Float64 Pack.

Abbreviation Name := (list Z) (only parsing).

(** The bytes of a literal. *)
Definition str (s : string) : Name :=
  map (fun a => Z.of_nat (Ascii.nat_of_ascii a)) (list_ascii_of_string s).

(** ** Errors *)

(** What the client reads of [solana_client::client_error::ClientError]; the rest
    is told apart by a number. *)
Inductive ClientError :=
| RpcResponseError (code : Z) (message : Name)
| ForUser (msg : Name)
| Reqwest (is_timeout : bool)
| OtherClientError (n : Z).

(** The arguments of [format!], in the order in which they are printed. *)
Inductive Piece :=
| Text (s : string)
| Str (n : Name)
| Float (x : f64)
| Key (k : Z)
| Number (n : Z).

(** A [PubkeyError] and a [PythError] are given by the [ProgramError] that they
    convert to. *)
Inductive FarmClientError :=
| RpcClientError (e : ClientError)
| ProgramErrorOf (e : ProgramError)
| ParseAccountError (n : Z)
| PubkeyError (e : ProgramError)
| PythError (e : ProgramError)
| RecordNotFound (msg : list Piece)
| ArrayStringError (msg : list Piece)
| IOError (msg : list Piece)
| ParseError (msg : list Piece)
| ValueError (msg : list Piece)
| InsufficientBalance (msg : list Piece).

Abbreviation Static S A := (ST S (result FarmClientError A)) (only parsing).

(** [?] on a [ProgramError]. *)
Definition program {S A} (r : result ProgramError A) : Static S A :=
  st_ret match r with Ok a => Ok a | Err e => Err (ProgramErrorOf e) end.

(** [.is_ok()], [.is_err()] and [if let Ok(x)]. *)
Definition is_ok {E A} (r : result E A) : bool := match r with Ok _ => true | Err _ => false end.
Definition is_err {E A} (r : result E A) : bool := negb (is_ok r).

(** ** String slices *)

(** Every byte but those that continue a character starts one. *)
Definition is_char_boundary (s : Name) (i : nat) : bool :=
  match s !! i with
  | Some b => negb ((128 <=? b) && (b <? 192))
  | None => (i =? List.length s)%nat
  end.

(** [&s[a..b]]. *)
Definition str_slice {S} (s : Name) (a b : nat) : ST S Name :=
  if (a <=? b)%nat && is_char_boundary s a && is_char_boundary s b
  then st_ret (slice a (b - a) s) else st_panic.

Fixpoint starts_with (s pattern : Name) : bool :=
  match pattern, s with
  | [], _ => true
  | p :: pattern', c :: s' => (c =? p) && starts_with s' pattern'
  | _ :: _, [] => false
  end.

Fixpoint contains (s pattern : Name) : bool :=
  starts_with s pattern || match s with [] => false | _ :: s' => contains s' pattern end.

(** [s.split(c)] for a one-byte character: never empty. *)
Fixpoint split (c : Z) (s : Name) : list Name :=
  match s with
  | [] => [[]]
  | b :: s' =>
      if b =? c then [] :: split c s'
      else match split c s' with [] => [[b]] | w :: ws => (b :: w) :: ws end
  end.

(** [s.find(c)]. *)
Fixpoint find_char (c : Z) (s : Name) : option nat :=
  match s with
  | [] => None
  | b :: s' => if b =? c then Some O else S <$> find_char c s'
  end.

Definition dot : Z := 46.
Definition dash : Z := 45.

(** ** Names *)

Inductive Protocol := Raydium | Saber | Orca.

#[export] Instance Protocol_eq_dec : EqDecision Protocol.
Proof. solve_decision. Defined.

Definition protocol_id (p : Protocol) : Name :=
  match p with Raydium => str "RDM" | Saber => str "SBR" | Orca => str "ORC" end.

(** [Display]. *)
Definition protocol_name (p : Protocol) : string :=
  match p with Raydium => "Raydium" | Saber => "Saber" | Orca => "Orca" end.

Definition to_lowercase (s : Name) : Name :=
  map (fun b => if (65 <=? b) && (b <=? 90) then b + 32 else b) s.

(** [Protocol::from_str]; only ASCII letters have lower cases among the letters of
    the names. *)
Definition parse_protocol (s : Name) : result ProgramError Protocol :=
  let s := to_lowercase s in
  if bool_decide (s = str "rdm") || bool_decide (s = str "raydium") then Ok Raydium
  else if bool_decide (s = str "sbr") || bool_decide (s = str "saber") then Ok Saber
  else if bool_decide (s = str "orc") || bool_decide (s = str "orca") then Ok Orca
  else Err InvalidArgument.

(** [parse::<u16>()] of one character. *)
Definition parse_digit (s : Name) : option Z :=
  match s with
  | [b] => if (48 <=? b) && (b <=? 57) then Some (b - 48) else None
  | _ => None
  end.

Section Names.
Context {S : Type}.

Definition extract_pool_version (name : Name) : Static S Z :=
  let len := List.length name in
  versioned <-
    (if (3 <? len)%nat then
       v <- str_slice name (len - 2) (len - 1) ;;
       if bool_decide (v = str "V") || bool_decide (v = str "v") then
         d <- str_slice name (len - 3) (len - 2) ;;
         st_ret (bool_decide (d = str "-"))
       else st_ret false
     else st_ret false) ;;
  if versioned : bool then
    digit <- str_slice name (len - 1) len ;;
    match parse_digit digit with
    | Some ver => st_ok ver
    | None => st_bail (ProgramErrorOf InvalidArgument)
    end
  else st_bail (ProgramErrorOf InvalidArgument).

Definition is_liquidity_token (name : Name) : ST S bool :=
  if (3 <? List.length name)%nat then
    prefix <- str_slice name 0 3 ;;
    st_ret (bool_decide (prefix ∈ [str "LP."; str "VT."; str "FD."]))
  else st_ret false.

(** The name is sliced before the version is extracted. *)
Definition extract_pool_name_and_version (name : Name) : Static S (Name * Z) :=
  let len := List.length name in
  liquidity <- is_liquidity_token name ;;
  if liquidity : bool then
    if (6 <? len)%nat then
      base <- str_slice name 3 (len - 3) ;;
      ver <-! extract_pool_version name ;;
      st_ok (base, ver)
    else st_bail (ProgramErrorOf InvalidArgument)
  else if (3 <? len)%nat then
    base <- str_slice name 0 (len - 3) ;;
    ver <-! extract_pool_version name ;;
    st_ok (base, ver)
  else st_bail (ProgramErrorOf InvalidArgument).

Definition cant_extract (name : Name) : FarmClientError :=
  ValueError [Text "Can't extract token names from "; Str name].

(** The version is looked at only when there is a second part. *)
Definition extract_token_names (name : Name) : Static S (Protocol * Name * Name) :=
  liquidity <- is_liquidity_token name ;;
  rest <- (if liquidity : bool then str_slice name 3 (List.length name) else st_ret name) ;;
  let dot_split := split dot rest in
  if (List.length dot_split <? 2)%nat || bool_decide (nth 0 dot_split [] = [])
  then st_bail (cant_extract name) else
  let dash_split := split dash (List.last dot_split []) in
  if bool_decide (nth 0 dash_split [] = []) ||
     ((1 <? List.length dash_split)%nat && bool_decide (nth 1 dash_split [] = []))
  then st_bail (cant_extract name) else
  protocol <-! program (parse_protocol (nth 0 dot_split [])) ;;
  token_b <-
    (if (1 <? List.length dash_split)%nat then
       version <- extract_pool_version name ;;
       st_ret (if is_err version || (2 <? List.length dash_split)%nat then nth 1 dash_split [] else [])
     else st_ret []) ;;
  st_ok (protocol, nth 0 dash_split [], token_b).

Definition get_protocol (vault_or_pool_name : Name) : Static S Protocol :=
  match find_char dot vault_or_pool_name with
  | None => st_bail (ValueError [Text "Invalid vault or pool name: "; Str vault_or_pool_name])
  | Some i =>
      protocol_str <- str_slice vault_or_pool_name 0 i ;;
      if bool_decide (protocol_str = str "RDM") then st_ok Raydium
      else if bool_decide (protocol_str = str "SBR") then st_ok Saber
      else if bool_decide (protocol_str = str "ORC") then st_ok Orca
      else st_bail (ValueError [Text "Unrecognized protocol: "; Str protocol_str])
  end.

Definition pool_has_reverse_tokens (pool_name token_a : Name) : Static S bool :=
  names <-! extract_token_names pool_name ;;
  let '(_, pool_token_a, _) := names in
  st_ok (negb (bool_decide (pool_token_a = token_a))).
End Names.

(** ** The latest version of each name *)

(** The order in which a [HashMap] is iterated. *)
Class HashOrder := {
  hash_iter : forall {A}, gmap (list Z) A -> list (list Z * A);
  hash_iter_perm : forall {A} (m : gmap (list Z) A), Permutation (hash_iter m) (map_to_list m);
}.

Definition hash_order_model : HashOrder.
Proof. refine {| hash_iter A m := map_to_list m |}. reflexivity. Defined.

Section Latest.
Context `{HashOrder} {S : Type}.

Fixpoint latest_versions (names : list Name) (latest : gmap (list Z) (Name * Z))
    : ST S (gmap (list Z) (Name * Z)) :=
  match names with
  | [] => st_ret latest
  | full_name :: names' =>
      r <- extract_pool_name_and_version full_name ;;
      latest_versions names'
        match r with
        | Ok (name_no_ver, ver) =>
            match latest !! name_no_ver with
            | Some (_, cur_ver) =>
                if cur_ver <? ver then <[name_no_ver := (full_name, ver)]> latest else latest
            | None => <[name_no_ver := (full_name, ver)]> latest
            end
        | Err _ => latest
        end
  end.

(** What [dest] holds afterwards: names that are gone from [source] stay. *)
Definition reinsert_latest_versions (source : gmap (list Z) Z) (dest : gmap (list Z) Name)
    : ST S (gmap (list Z) Name) :=
  latest <- latest_versions (hash_iter source).*1 ∅ ;;
  st_ret ((fst <$> latest) ∪ dest).
End Latest.

(** ** The names of the source's own tests *)

Example extract_token_names_pool :
  fst (extract_token_names (str "RDM.RAY-SRM-V4") tt) = Some (Ok (Raydium, str "RAY", str "SRM")).
Proof. reflexivity. Qed.

Example extract_token_names_versioned_single :
  fst (extract_token_names (str "LP.SBR.USDC-V4") tt) = Some (Ok (Saber, str "USDC", [])).
Proof. reflexivity. Qed.

Example extract_name_and_version :
  fst (extract_pool_name_and_version (str "RDM.RAY-SRM-V4") tt) = Some (Ok (str "RDM.RAY-SRM", 4)).
Proof. reflexivity. Qed.

(** Versions of two digits are none. *)
Example version_ten_is_none :
  fst (extract_pool_version (str "RDM.RAY-SRM-V10") tt) = Some (Err (ProgramErrorOf InvalidArgument)).
Proof. reflexivity. Qed.
