(* ===== verification/Client.v ===== *)
(** * The farm client's caches ([crates/solana_farm_client/src/client.rs], [cache.rs])

    [FarmClient] finds the metadata of tokens, pools, farms, vaults and funds by
    name: a reference database on chain gives the address of each record, and what
    was read is kept.  Each kind has a cache of records, a cache of addresses and,
    where names carry a version, the latest version of each name.

    The source writes the functions out for every kind; the texts differ only in
    what is the record [Kind] here.  [RpcClient] and the clock are asked questions,
    numbered by the state. *)

From Stdlib Require Import String.
From S2P Require Import Prelude MachineInt Float64 Amounts Pack RefDB Token Pool Farm Vault Fund SdkAccount Multisig Cpi Oracle ClientNames.

(** ** What the client asks *)

Record Account := {
  account_owner : Z;
  account_data : list Z;
}.

(** [UiTokenAmount]: the amount is what [parse::<u64>()] makes of the string. *)
Record UiTokenAmount := {
  ui_amount : option f64;
  amount : option Z;
}.

Inductive UiAccountState := Uninitialized | Initialized | Frozen.

#[export] Instance UiAccountState_eq_dec : EqDecision UiAccountState.
Proof. solve_decision. Defined.

Record UiTokenAccount := {
  ui_mint : Name;
  ui_owner : Name;
  ui_state : UiAccountState;
}.

(** [UiMint] is kept whole, as a number. *)
Inductive TokenAccountType :=
| TokenAccount (ui_account : UiTokenAccount)
| TokenMint (ui_mint : Z)
| TokenMultisig.

(** A transaction: its instructions, who pays, who signed it and the blockhash. *)
Record Transaction := {
  tx_instructions : list Instruction;
  tx_payer : Z;
  tx_signers : list Z;
  tx_blockhash : Z;
}.

(** [RpcClient]: the answer to the [n]th question. *)
Class Rpc := {
  system_time : nat -> Z;
  get_account : Z -> nat -> result ClientError Account;
  get_account_data : Z -> nat -> result ClientError (list Z);
  get_multiple_accounts : list Z -> nat -> result ClientError (list (option Account));
  rpc_token_account_balance : Z -> nat -> result ClientError UiTokenAmount;
  rpc_token_supply : Z -> nat -> result ClientError UiTokenAmount;
  rpc_token_accounts_by_owner : Z -> nat -> result ClientError (list Name);
  get_balance : Z -> nat -> result ClientError Z;
  get_minimum_balance_for_rent_exemption : Z -> nat -> result ClientError Z;
  get_fee_for_message : list Instruction -> nat -> result ClientError Z;
  get_program_accounts : Z -> nat -> list Z -> nat -> result ClientError (list (Z * Account));
  rpc_get_slot : nat -> result ClientError Z;
  get_latest_blockhash : nat -> result ClientError Z;
  is_blockhash_valid : Z -> nat -> result ClientError bool;
  send_and_confirm_transaction : Transaction -> nat -> result ClientError Z;
  confirm_transaction : Z -> Z -> Z -> nat -> result ClientError unit;
}.

(** [BpfUpgradeableLoaderAccountType]: the two accounts that the client reads. *)
Inductive BpfLoaderAccount :=
| BpfProgram (program_data : Name)
| BpfProgramData (authority : option Name)
| BpfOther.

(** What the client reads of [LiquidityStateV4]. *)
Record LiquidityState := {
  base_vault : Z;
  quote_vault : Z;
  base_decimal : Z;
  quote_decimal : Z;
  market_id : Z;
  open_orders : Z;
}.

(** The remaining code outside the repository: decoding accounts, base58,
    associated token addresses, SHA-256, the bytes of a transaction, the signature
    a transaction gets, and the ids of programs and sysvars. *)
Class ClientLibs := {
  parse_bpf_upgradeable_loader : list Z -> result Z BpfLoaderAccount;
  liquidity_state : list Z -> result Name LiquidityState;
  parse_token : list Z -> option Z -> result Z TokenAccountType;
  pubkey_from_string : Name -> option Z;
  associated_token_address : Z -> Z -> Z;
  sha256 : list Z -> list Z;
  bincode_serialize : list Instruction -> Z -> option (list Z);
  signature_of : Transaction -> Z;
  sync_native : Z -> Z -> result ProgramError Instruction;
  main_router : Z;
  main_router_multisig : Z;
  system_program : Z;
  associated_token_program : Z;
  rent_sysvar : Z;
  clock_sysvar : Z;
  instructions_sysvar : Z;
  bpf_loader_upgradeable : Z;
}.

(** All that the client uses and the repository does not hold. *)
Class FarmEnv := {
  env_profile :: Profile;
  env_utf8 :: Utf8;
  env_pow :: CheckedPow;
  env_oracle :: OracleEnv;
  env_ids :: ProgramIds;
  env_runtime :: Runtime;
  env_spl_token :: Cpi.SplToken;
  env_system :: SystemInstruction;
  env_hash :: HashOrder;
  env_rpc :: Rpc;
  env_libs :: ClientLibs;
}.

(** ** State *)

(** [last_load] in nanoseconds; [lent] says that an iteration over the data holds
    a shared borrow of the [RefCell]. *)
Record Cache (T : Type) := {
  data : gmap (list Z) T;
  last_load : Z;
  counter : Z;
  lent : bool;
}.
Arguments data {T} _.
Arguments last_load {T} _.
Arguments counter {T} _.
Arguments lent {T} _.

Definition RELOAD_INTERVAL : Z := 21600 * 10 ^ 9.

(** The caches of one kind: [tokens], [token_refs] and so on; [latest] is
    [latest_pools], [latest_farms] or [latest_vaults]. *)
Record Store (T : Type) := {
  records : Cache T;
  refs : Cache Z;
  latest : gmap (list Z) Name;
}.
Arguments records {T} _.
Arguments refs {T} _.
Arguments latest {T} _.

(** [FarmClient]; [stake_accounts] has a map per protocol from the wallet to the
    stake account of each farm, and [asked] counts the questions. *)
Record FarmClient := {
  tokens : Store Token;
  pools : Store Pool;
  farms : Store Farm;
  vaults : Store Vault;
  funds : Store Fund.t;
  official_ids : Cache Z;
  stake_accounts : list (gmap Z (gmap Z Z));
  asked : nat;
}.

Abbreviation Client A := (ST FarmClient (result FarmClientError A)) (only parsing).

Definition set_tokens s (c : FarmClient) : FarmClient := {| tokens := s; pools := pools c; farms := farms c; vaults := vaults c; funds := funds c; official_ids := official_ids c; stake_accounts := stake_accounts c; asked := asked c |}.
Definition set_pools s (c : FarmClient) : FarmClient := {| tokens := tokens c; pools := s; farms := farms c; vaults := vaults c; funds := funds c; official_ids := official_ids c; stake_accounts := stake_accounts c; asked := asked c |}.
Definition set_farms s (c : FarmClient) : FarmClient := {| tokens := tokens c; pools := pools c; farms := s; vaults := vaults c; funds := funds c; official_ids := official_ids c; stake_accounts := stake_accounts c; asked := asked c |}.
Definition set_vaults s (c : FarmClient) : FarmClient := {| tokens := tokens c; pools := pools c; farms := farms c; vaults := s; funds := funds c; official_ids := official_ids c; stake_accounts := stake_accounts c; asked := asked c |}.
Definition set_funds s (c : FarmClient) : FarmClient := {| tokens := tokens c; pools := pools c; farms := farms c; vaults := vaults c; funds := s; official_ids := official_ids c; stake_accounts := stake_accounts c; asked := asked c |}.
Definition set_official_ids i (c : FarmClient) : FarmClient := {| tokens := tokens c; pools := pools c; farms := farms c; vaults := vaults c; funds := funds c; official_ids := i; stake_accounts := stake_accounts c; asked := asked c |}.
Definition set_stake_accounts a (c : FarmClient) : FarmClient := {| tokens := tokens c; pools := pools c; farms := farms c; vaults := vaults c; funds := funds c; official_ids := official_ids c; stake_accounts := a; asked := asked c |}.
Definition set_asked n (c : FarmClient) : FarmClient := {| tokens := tokens c; pools := pools c; farms := farms c; vaults := vaults c; funds := funds c; official_ids := official_ids c; stake_accounts := stake_accounts c; asked := n |}.

Definition set_records {T} r (s : Store T) : Store T := {| records := r; refs := refs s; latest := latest s |}.
Definition set_refs {T} r (s : Store T) : Store T := {| records := records s; refs := r; latest := latest s |}.
Definition set_latest {T} l (s : Store T) : Store T := {| records := records s; refs := refs s; latest := l |}.
Definition set_data {T} d (c : Cache T) : Cache T := {| data := d; last_load := last_load c; counter := counter c; lent := lent c |}.
Definition set_lent {T} b (c : Cache T) : Cache T := {| data := data c; last_load := last_load c; counter := counter c; lent := b |}.

(** A question to the outside. *)
Definition ask {A} (question : nat -> A) : ST FarmClient A :=
  n <- st_gets asked ;;
  st_modify (set_asked (S n)) ;;;
  st_ret (question n).

(** [?] on an answer of the [RpcClient]. *)
Definition rpc {A} (question : nat -> result ClientError A) : Client A :=
  r <- ask question ;;
  st_ret match r with Ok a => Ok a | Err e => Err (RpcClientError e) end.

(** ** [cache.rs] *)

Section Cache.
Context `{FarmEnv} {T : Type}.

(** [Cache::default]. *)
Definition default_cache : ST FarmClient (Cache T) :=
  now <- ask system_time ;;
  st_ret {| data := ∅; last_load := now - RELOAD_INTERVAL; counter := 0; lent := false |}.

(** A time before [last_load] is not stale. *)
Definition is_stale (c : Cache T) : ST FarmClient bool :=
  if bool_decide (c.(data) = ∅) then st_ret true else
  now <- ask system_time ;;
  st_ret ((c.(last_load) <=? now) && (RELOAD_INTERVAL <=? now - c.(last_load))).

Definition is_empty (c : Cache T) : bool := bool_decide (c.(data) = ∅).

Definition is_updated (c : Cache T) (counter' : Z) : bool := negb (counter' =? c.(counter)).

(** [borrow_mut] and then [set], [reset] or [mark_not_stale]: a cache that is lent
    cannot be borrowed mutably. *)
Definition cache_set (d : gmap (list Z) T) (counter' : Z) (c : Cache T) : ST FarmClient (Cache T) :=
  if c.(lent) then st_panic else
  now <- ask system_time ;;
  st_ret {| data := d; last_load := now; counter := counter'; lent := false |}.

Definition cache_reset (c : Cache T) : ST FarmClient (Cache T) :=
  if c.(lent) then st_panic else
  now <- ask system_time ;;
  st_ret {| data := ∅; last_load := now - RELOAD_INTERVAL; counter := 0; lent := false |}.

Definition mark_not_stale (c : Cache T) : ST FarmClient (Cache T) :=
  if c.(lent) then st_panic else
  now <- ask system_time ;;
  st_ret {| data := c.(data); last_load := now; counter := c.(counter); lent := false |}.
End Cache.

(** ** Reference databases *)

Definition storage_name (t : StorageType) : Name :=
  match t with
  | StProgram => str "Program" | StFund => str "Fund" | StVault => str "Vault" | StPool => str "Pool"
  | StFarm => str "Farm" | StToken => str "Token" | StOther => str "Other"
  end.

Definition REFDB_ONCHAIN_INIT : bool := false.

(** A method of [RefDB] on the data of an account. *)
Definition on_db {S A} (d : list Z) (m : Db A) : ST S (result FarmClientError A) :=
  match fst (m d) with Some r => program r | None => st_panic end.

Section Refdb.
Context `{FarmEnv}.

Definition find_refdb_pda {S} (refdb_name : Name) : ST S (Z * Z) :=
  if REFDB_ONCHAIN_INIT then st_ret (find_program_address [refdb_name] main_router)
  else match create_with_seed main_router_admin refdb_name main_router with
       | Ok k => st_ret (k, 0)
       | Err _ => st_panic
       end.

Definition find_target_pda (storage_type : StorageType) (target_name : Name) : Z * Z :=
  find_program_address [storage_name storage_type; target_name] main_router.

(** The map of the records that hold a key, a later record over an earlier one. *)
Definition pubkey_map (rec_vec : list Record_) : gmap (list Z) Z :=
  fold_left (fun m rec =>
    match rec.(r_reference) with
    | RefPubkey k => <[rec.(r_name) := k]> m
    | _ => m
    end) rec_vec ∅.

Definition get_refdb_pubkey_map (refdb_name : Name) : Client (Header * gmap (list Z) Z) :=
  pda <- find_refdb_pda refdb_name ;;
  d <-! rpc (get_account_data pda.1) ;;
  if negb (RefDB.is_initialized d) then st_bail (ProgramErrorOf UninitializedAccount) else
  rec_vec <-! on_db d RefDB.read_all ;;
  header <-! on_db d RefDB.get_storage_header ;;
  st_ok (header, pubkey_map rec_vec).

Definition get_refdb_data (refdb_name : Name) : Client (list Z) :=
  pda <- find_refdb_pda refdb_name ;; rpc (get_account_data pda.1).

(** [str_to_as64]: a string that does not fit is an error. *)
Definition str_to_as64 {S} (s : Name) : Static S ArrayString64 :=
  if (List.length s <=? 64)%nat then st_ok s else st_bail (ProgramErrorOf InvalidArgument).

Definition get_refdb_index (refdb_name object_name : Name) : Client (option nat) :=
  d <-! get_refdb_data refdb_name ;;
  name <-! str_to_as64 object_name ;;
  on_db d (RefDB.find_index name).

Definition get_refdb_last_index (refdb_name : Name) : Client nat :=
  d <-! get_refdb_data refdb_name ;; on_db d RefDB.find_last_index.

Definition get_refdb_next_index (refdb_name : Name) : Client nat :=
  d <-! get_refdb_data refdb_name ;; on_db d RefDB.find_next_index.

Definition is_refdb_initialized (refdb_name : Name) : Client bool :=
  pda <- find_refdb_pda refdb_name ;;
  r <- ask (get_account_data pda.1) ;;
  match r with Ok d => st_ok (RefDB.is_initialized d) | Err _ => st_ok false end.
End Refdb.

(** ** Looking up the records of a kind *)

Record Kind (T : Type) := {
  storage : StorageType;
  word : string;
  store : FarmClient -> Store T;
  set_store : Store T -> FarmClient -> FarmClient;
  versioned : bool;
  unpack_record : list Z -> result ProgramError T;
  record_name : T -> Name;
}.
Arguments storage {T} _.
Arguments word {T} _.
Arguments store {T} _.
Arguments set_store {T} _.
Arguments versioned {T} _.
Arguments unpack_record {T} _.
Arguments record_name {T} _.

Section Lookup.
Context `{FarmEnv} {T : Type} (K : Kind T).

(** [update f]: replace the store of the kind. *)
Definition update (f : Store T -> Store T) : ST FarmClient unit :=
  st_modify (fun c => K.(set_store) (f (K.(store) c)) c).

Definition load_by_ref (key : Z) : Client T :=
  d <-! rpc (get_account_data key) ;; program (K.(unpack_record) d).

(** The addresses are read again when they are stale; when the database has
    changed, the records are forgotten. *)
Definition reload_refs_if_stale : Client bool :=
  s <- st_gets K.(store) ;;
  stale <- is_stale s.(refs) ;;
  if stale : bool then
    answer <-! get_refdb_pubkey_map (storage_name K.(storage)) ;;
    let '(header, new_refs) := answer in
    if is_updated s.(refs) header.(h_counter) then
      latest' <- (if K.(versioned) then reinsert_latest_versions new_refs s.(latest)
                  else st_ret s.(latest)) ;;
      update (set_latest latest') ;;;
      refs' <- cache_set new_refs header.(h_counter) s.(refs) ;;
      update (set_refs refs') ;;;
      records' <- cache_reset s.(records) ;;
      update (set_records records') ;;;
      st_ok true
    else
      refs' <- mark_not_stale s.(refs) ;;
      update (set_refs refs') ;;;
      st_ok false
  else st_ok false.

(** The name with the latest version, or the name itself. *)
Definition full_name (name : Name) : ST FarmClient Name :=
  s <- st_gets K.(store) ;;
  st_ret (if K.(versioned) then default name (s.(latest) !! name) else name).

Definition not_found (name : Name) : FarmClientError :=
  RecordNotFound [Text (K.(word) ++ " ")%string; Str name].

Definition get_ref (name : Name) : Client Z :=
  _ <-! reload_refs_if_stale ;;
  name' <- full_name name ;;
  s <- st_gets K.(store) ;;
  match s.(refs).(data) !! name' with
  | Some key => st_ok key
  | None => st_bail (not_found name)
  end.

(** From the cache, or from the chain and into the cache. *)
Definition get_record (name : Name) : Client T :=
  _ <-! reload_refs_if_stale ;;
  name' <- full_name name ;;
  s <- st_gets K.(store) ;;
  match s.(records).(data) !! name' with
  | Some r => st_ok r
  | None =>
      match s.(refs).(data) !! name' with
      | Some key =>
          r <-! load_by_ref key ;;
          update (fun s => set_records (set_data (<[name' := r]> s.(records).(data)) s.(records)) s) ;;;
          st_ok r
      | None => st_bail (not_found name)
      end
  end.

(** The first name, in the order of the iteration, with this address. *)
Definition get_record_name (key : Z) : Client Name :=
  _ <-! reload_refs_if_stale ;;
  s <- st_gets K.(store) ;;
  match List.find (fun p => p.2 =? key) (hash_iter s.(refs).(data)) with
  | Some (name, _) => st_ok name
  | None => st_bail (RecordNotFound [Text (K.(word) ++ " reference ")%string; Key key])
  end.

Definition get_by_ref (key : Z) : Client T :=
  name <-! get_record_name key ;; get_record name.

(** [get_fund_refs] and [get_token_refs] ask again, whatever is cached. *)
Definition get_refs : Client (gmap (list Z) Z) :=
  _ <-! reload_refs_if_stale ;;
  if K.(versioned) then s <- st_gets K.(store) ;; st_ok s.(refs).(data)
  else answer <-! get_refdb_pubkey_map (storage_name K.(storage)) ;; st_ok answer.2.

(** The answers for a slice of the addresses, with the addresses. *)
Fixpoint insert_accounts (accounts : list (option Account * Z)) (m : gmap (list Z) T)
    : result FarmClientError (gmap (list Z) T) :=
  match accounts with
  | [] => Ok m
  | (Some account, _) :: rest =>
      match K.(unpack_record) account.(account_data) with
      | Ok r => insert_accounts rest (<[K.(record_name) r := r]> m)
      | Err e => Err (ProgramErrorOf e)
      end
  | (None, account_ref) :: _ =>
      Err (RecordNotFound [Text (K.(word) ++ " with ref ")%string; Key account_ref])
  end.

(** At most a hundred accounts for each question; [zip] ends with the shorter. *)
Fixpoint load_slices (slices : list (list Z)) (m : gmap (list Z) T) : Client (gmap (list Z) T) :=
  match slices with
  | [] => st_ok m
  | refs_slice :: slices' =>
      accounts <-! rpc (get_multiple_accounts refs_slice) ;;
      m' <-! st_ret (insert_accounts (zip accounts refs_slice) m) ;;
      load_slices slices' m'
  end.

(** The counter 1 says that all records are there. *)
Definition reload_records_if_empty : Client bool :=
  s <- st_gets K.(store) ;;
  if is_empty s.(records) || is_updated s.(records) 1 then
    let keys := (hash_iter s.(refs).(data)).*2 in
    if bool_decide (keys = []) then st_ok false else
    m <-! load_slices (chunks 100 keys) ∅ ;;
    records' <- cache_set m 1 s.(records) ;;
    update (set_records records') ;;;
    st_ok true
  else st_ok false.

Definition get_all : Client (gmap (list Z) T) :=
  _ <-! reload_refs_if_stale ;;
  _ <-! reload_records_if_empty ;;
  s <- st_gets K.(store) ;; st_ok s.(records).(data).

(** [res.push(self.get_pool(name)?)] for the names of an iteration. *)
Fixpoint push_records (names : list Name) (res : list T) : Client (list T) :=
  match names with
  | [] => st_ok res
  | name :: names' => r <-! get_record name ;; push_records names' (res ++ [r])
  end.

(** The iteration of [find_pools] and [find_vaults]: it borrows the addresses
    while it looks the records up.  The borrow ends with the loop, after an error
    and a panic too. *)
Definition find_records (selects : Name -> bool) : Client (list T) := fun c =>
  let lend b := update (fun s => set_refs (set_lent b s.(refs)) s) in
  match (_ <-! reload_refs_if_stale ;;
         s <- st_gets K.(store) ;;
         lend true ;;;
         push_records (List.filter selects (hash_iter s.(refs).(data)).*1) []) c with
  | (r, c') => (r, snd (lend false c'))
  end.
End Lookup.

(** [sort_by(|a, b| b.version.cmp(&a.version))], which is stable. *)
Fixpoint insert_by {A} (le : A -> A -> bool) (a : A) (l : list A) : list A :=
  match l with
  | [] => [a]
  | b :: l' => if le a b then a :: l else b :: insert_by le a l'
  end.

Definition sort_by {A} (le : A -> A -> bool) (l : list A) : list A := foldr (insert_by le) [] l.

Definition newest_first {A} (version : A -> Z) : list A -> list A :=
  sort_by (fun a b => version b <=? version a).

(** ** The kinds *)

Section Kinds.
Context `{FarmEnv}.

Definition TokenKind : Kind Token := {|
  storage := StToken; word := "Token"; store := tokens; set_store := set_tokens; versioned := false;
  unpack_record := unpack_token; record_name := Token.name |}.

Definition PoolKind : Kind Pool := {|
  storage := StPool; word := "Pool"; store := pools; set_store := set_pools; versioned := true;
  unpack_record := unpack_pool; record_name := Pool.name |}.

Definition FarmKind : Kind Farm := {|
  storage := StFarm; word := "Farm"; store := farms; set_store := set_farms; versioned := true;
  unpack_record := unpack_farm; record_name := Farm.name |}.

Definition VaultKind : Kind Vault := {|
  storage := StVault; word := "Vault"; store := vaults; set_store := set_vaults; versioned := true;
  unpack_record := unpack_vault_metadata; record_name := Vault.name |}.

Definition FundKind : Kind Fund.t := {|
  storage := StFund; word := "Fund"; store := funds; set_store := set_funds; versioned := false;
  unpack_record := Fund.unpack_fund; record_name := Fund.name |}.

(** The functions that read the chain, for each kind. *)
Definition load_token_by_ref : Z -> Client Token := load_by_ref TokenKind.
Definition reload_token_refs_if_stale : Client bool := reload_refs_if_stale TokenKind.
Definition reload_tokens_if_empty : Client bool := reload_records_if_empty TokenKind.

Definition load_pool_by_ref : Z -> Client Pool := load_by_ref PoolKind.
Definition reload_pool_refs_if_stale : Client bool := reload_refs_if_stale PoolKind.
Definition reload_pools_if_empty : Client bool := reload_records_if_empty PoolKind.

Definition load_vault_by_ref : Z -> Client Vault := load_by_ref VaultKind.
Definition reload_vault_refs_if_stale : Client bool := reload_refs_if_stale VaultKind.
Definition reload_vaults_if_empty : Client bool := reload_records_if_empty VaultKind.

Definition load_farm_by_ref : Z -> Client Farm := load_by_ref FarmKind.
Definition reload_farm_refs_if_stale : Client bool := reload_refs_if_stale FarmKind.
Definition reload_farms_if_empty : Client bool := reload_records_if_empty FarmKind.

Definition load_fund_by_ref : Z -> Client Fund.t := load_by_ref FundKind.
Definition reload_fund_refs_if_stale : Client bool := reload_refs_if_stale FundKind.
Definition reload_funds_if_empty : Client bool := reload_records_if_empty FundKind.

Definition get_token : Name -> Client Token := get_record TokenKind.
Definition get_tokens : Client (gmap (list Z) Token) := get_all TokenKind.
Definition get_token_ref : Name -> Client Z := get_ref TokenKind.
Definition get_token_refs : Client (gmap (list Z) Z) := get_refs TokenKind.
Definition get_token_by_ref : Z -> Client Token := get_by_ref TokenKind.
Definition get_token_name : Z -> Client Name := get_record_name TokenKind.

Definition get_pool : Name -> Client Pool := get_record PoolKind.
Definition get_pools : Client (gmap (list Z) Pool) := get_all PoolKind.
Definition get_pool_ref : Name -> Client Z := get_ref PoolKind.
Definition get_pool_refs : Client (gmap (list Z) Z) := get_refs PoolKind.
Definition get_pool_by_ref : Z -> Client Pool := get_by_ref PoolKind.
Definition get_pool_name : Z -> Client Name := get_record_name PoolKind.

Definition get_farm : Name -> Client Farm := get_record FarmKind.
Definition get_farms : Client (gmap (list Z) Farm) := get_all FarmKind.
Definition get_farm_ref : Name -> Client Z := get_ref FarmKind.
Definition get_farm_refs : Client (gmap (list Z) Z) := get_refs FarmKind.
Definition get_farm_by_ref : Z -> Client Farm := get_by_ref FarmKind.
Definition get_farm_name : Z -> Client Name := get_record_name FarmKind.

Definition get_vault : Name -> Client Vault := get_record VaultKind.
Definition get_vaults : Client (gmap (list Z) Vault) := get_all VaultKind.
Definition get_vault_ref : Name -> Client Z := get_ref VaultKind.
Definition get_vault_refs : Client (gmap (list Z) Z) := get_refs VaultKind.
Definition get_vault_by_ref : Z -> Client Vault := get_by_ref VaultKind.
Definition get_vault_name : Z -> Client Name := get_record_name VaultKind.

Definition get_fund : Name -> Client Fund.t := get_record FundKind.
Definition get_funds : Client (gmap (list Z) Fund.t) := get_all FundKind.
Definition get_fund_ref : Name -> Client Z := get_ref FundKind.
Definition get_fund_refs : Client (gmap (list Z) Z) := get_refs FundKind.
Definition get_fund_by_ref : Z -> Client Fund.t := get_by_ref FundKind.
Definition get_fund_name : Z -> Client Name := get_record_name FundKind.

Definition get_token_by_ref_from_cache (token_ref : option Z) : Client (option Token) :=
  match token_ref with
  | Some pubkey =>
      name <-! get_token_name pubkey ;;
      t <-! get_token name ;;
      st_ok (Some t)
  | None => st_ok None
  end.

(** [FarmClient::default], which every constructor completes. *)
Definition default_store {T} : ST FarmClient (Store T) :=
  records <- default_cache ;;
  refs <- default_cache ;;
  st_ret {| records := records; refs := refs; latest := ∅ |}.

Definition default_client : ST FarmClient FarmClient :=
  tokens <- default_store ;;
  pools <- default_store ;;
  farms <- default_store ;;
  vaults <- default_store ;;
  funds <- default_store ;;
  official_ids <- default_cache ;;
  n <- st_gets asked ;;
  st_ret {| tokens := tokens; pools := pools; farms := farms; vaults := vaults; funds := funds;
            official_ids := official_ids; stake_accounts := [∅; ∅; ∅]; asked := n |}.

Definition reset_records {T} (K : Kind T) : ST FarmClient unit :=
  s <- st_gets K.(store) ;; r <- cache_reset s.(records) ;; update K (set_records r).

Definition reset_refs {T} (K : Kind T) : ST FarmClient unit :=
  s <- st_gets K.(store) ;; r <- cache_reset s.(refs) ;; update K (set_refs r).

(** The farms and their addresses are not reset. *)
Definition reset_cache : ST FarmClient unit :=
  reset_records TokenKind ;;;
  reset_records PoolKind ;;;
  reset_records VaultKind ;;;
  reset_records FundKind ;;;
  reset_refs TokenKind ;;;
  reset_refs PoolKind ;;;
  reset_refs VaultKind ;;;
  reset_refs FundKind ;;;
  ids <- st_gets official_ids ;;
  ids' <- cache_reset ids ;;
  st_modify (set_official_ids ids') ;;;
  update PoolKind (set_latest ∅) ;;;
  update FarmKind (set_latest ∅) ;;;
  update VaultKind (set_latest ∅).

(** ** Program ids *)

Definition reload_program_ids_if_stale : Client bool :=
  ids <- st_gets official_ids ;;
  stale <- is_stale ids ;;
  if stale : bool then
    answer <-! get_refdb_pubkey_map (storage_name StProgram) ;;
    let '(header, new_ids) := answer in
    if is_updated ids header.(h_counter) then
      ids' <- cache_set new_ids header.(h_counter) ids ;;
      st_modify (set_official_ids ids') ;;;
      st_ok true
    else
      ids' <- mark_not_stale ids ;;
      st_modify (set_official_ids ids') ;;;
      st_ok false
  else st_ok false.

Definition get_program_id (name : Name) : Client Z :=
  _ <-! reload_program_ids_if_stale ;;
  ids <- st_gets official_ids ;;
  match ids.(data) !! name with
  | Some pubkey => st_ok pubkey
  | None => st_bail (RecordNotFound [Text "Program "; Str name])
  end.

Definition get_program_ids : Client (gmap (list Z) Z) :=
  _ <-! reload_program_ids_if_stale ;;
  answer <-! get_refdb_pubkey_map (storage_name StProgram) ;;
  st_ok answer.2.

Definition get_program_name (prog_id : Z) : Client Name :=
  _ <-! reload_program_ids_if_stale ;;
  ids <- st_gets official_ids ;;
  match List.find (fun p => p.2 =? prog_id) (hash_iter ids.(data)) with
  | Some (name, _) => st_ok name
  | None => st_bail (RecordNotFound [Text "Program ID "; Key prog_id])
  end.

(** ** Searches *)

(** The found records, newest first, or that there are none. *)
Definition found {T} (version : T -> Z) (none : FarmClientError) (res : list T) : Client (list T) :=
  if bool_decide (List.length res = 0)%nat then st_bail none else st_ok (newest_first version res).

Definition pair_pattern (prefix token_a token_b : Name) : Name :=
  prefix ++ [dot] ++ token_a ++ [dash] ++ token_b ++ [dash].

Definition find_vaults (token_a token_b : Name) : Client (list Vault) :=
  let pattern1 := pair_pattern [] token_a token_b in
  let pattern2 := pair_pattern [] token_b token_a in
  res <-! find_records VaultKind (fun name => contains name pattern1 || contains name pattern2) ;;
  found Vault.version
    (RecordNotFound [Text "Vault with tokens "; Str token_a; Text " and "; Str token_b]) res.

Definition find_pools (protocol : Protocol) (token_a token_b : Name) : Client (list Pool) :=
  let pattern1 := pair_pattern (protocol_id protocol) token_a token_b in
  let pattern2 := pair_pattern (protocol_id protocol) token_b token_a in
  res <-! find_records PoolKind (fun name => starts_with name pattern1 || starts_with name pattern2) ;;
  found Pool.version
    (RecordNotFound [Text (protocol_name protocol); Text " Pool with tokens "; Str token_a; Text " and ";
                     Str token_b]) res.

(** The values of a map, in the order of the iteration, that select. *)
Definition values {T} (m : gmap (list Z) T) : list T := (hash_iter m).*2.

Definition find_pools_with_lp (lp_token_name : Name) : Client (list Pool) :=
  lp_token_ref <-! get_token_ref lp_token_name ;;
  pools <-! get_pools ;;
  found Pool.version (RecordNotFound [Text "Pool with LP token "; Str lp_token_name])
    (List.filter (fun p => bool_decide (p.(Pool.lp_token_ref) = Some lp_token_ref)) (values pools)).

Definition find_farms_with_lp (lp_token_name : Name) : Client (list Farm) :=
  lp_token_ref <-! get_token_ref lp_token_name ;;
  farms <-! get_farms ;;
  found Farm.version (RecordNotFound [Text "Farm with LP token "; Str lp_token_name])
    (List.filter (fun f => bool_decide (f.(Farm.lp_token_ref) = Some lp_token_ref)) (values farms)).

(** The vaults of the list whose vault token has the name. *)
Fixpoint with_vault_token (vt_token_name : Name) (vaults : list Vault) (res : list Vault)
    : Client (list Vault) :=
  match vaults with
  | [] => st_ok res
  | vault :: vaults' =>
      token <-! get_token_by_ref vault.(Vault.vault_token_ref) ;;
      with_vault_token vt_token_name vaults'
        (if bool_decide (token.(Token.name) = vt_token_name) then res ++ [vault] else res)
  end.

Definition find_vaults_with_vt (vt_token_name : Name) : Client (list Vault) :=
  names <-! extract_token_names vt_token_name ;;
  let '(protocol, token_a, token_b) := names in
  vaults <-! find_vaults token_a token_b ;;
  res <-! with_vault_token vt_token_name vaults [] ;;
  found Vault.version
    (RecordNotFound [Text (protocol_name protocol); Text " Vault with VT token "; Str vt_token_name]) res.

Definition get_token_with_mint (token_mint : Z) : Client Token :=
  tokens <-! get_tokens ;;
  match List.find (fun t => token_mint =? t.(Token.mint)) (values tokens) with
  | Some token => st_ok token
  | None => st_bail (RecordNotFound [Text "Token with mint "; Key token_mint])
  end.

Definition get_token_with_account (token_account : Z) : Client Token :=
  d <-! rpc (get_account_data token_account) ;;
  match parse_token d (Some 0) with
  | Err n => st_bail (ParseAccountError n)
  | Ok (TokenAccount ui_account) =>
      match pubkey_from_string ui_account.(ui_mint) with
      | Some mint => get_token_with_mint mint
      | None => st_bail (ValueError [Text "Failed to parse mint in token account "; Key token_account])
      end
  | Ok _ => st_bail (ValueError [Text "No account data found in token account "; Key token_account])
  end.

Definition get_token_supply (name : Name) : Client f64 :=
  token <-! get_token name ;;
  supply <-! rpc (rpc_token_supply token.(Token.mint)) ;;
  match supply.(ui_amount) with
  | Some x => st_ok x
  | None => st_bail (ValueError [Text "Invalid UI token amount"])
  end.

Definition is_fund_manager (wallet_address : Z) : Client bool :=
  funds <-! get_funds ;;
  st_ok (existsb (fun f => f.(Fund.fund_manager) =? wallet_address) (values funds)).
End Kinds.
