(* ===== verification/ClientReads.v ===== *)
(** * What the farm client derives and reads ([crates/solana_farm_client/src/client.rs])

    The addresses that the client derives from names, the balances, prices and stake
    accounts that it reads, the records of funds and vaults, and how instructions
    are signed and sent.  A method that takes [instruction_vec] by mutable reference
    returns the vector. *)

From Stdlib Require Import String Floats.SpecFloat.
From S2P Require Import Prelude MachineInt Float64 Amounts Pack RefDB AmmInstruction Token Pool Farm Vault Fund SdkAccount Multisig Cpi Raydium Orca Oracle ClientNames Client.

#[export] Instance Token_eq_dec : EqDecision Token.
Proof. solve_decision. Defined.

(** ** Results *)

Definition ok_or {S A} (o : option A) (e : FarmClientError) : Static S A :=
  match o with Some a => st_ok a | None => st_bail e end.

(** [.ok_or(ProgramError::UninitializedAccount)?]. *)
Definition initialized {S A} (o : option A) : Static S A := ok_or o (ProgramErrorOf UninitializedAccount).

(** [.to_vec()?] on an instruction. *)
Definition packed {S} (o : option (result ProgramError (list Z))) : Static S (list Z) :=
  match o with Some r => program r | None => st_panic end.

(** [?] on the checked operations of [math.rs]. *)
Definition math_result {S A} (r : result SdkMath.error A) : Static S A := program (math r).

(** [&v[k..]]. *)
Definition slice_from {S A} (k : nat) (l : list A) : ST S (list A) :=
  if (k <=? List.length l)%nat then st_ret (drop k l) else st_panic.

Definition st_assert {S} (b : bool) : ST S unit := if b then st_ret tt else st_panic.

(** A loop that updates [b] and stops at the first error. *)
Fixpoint st_fold {S E A B} (f : B -> A -> ST S (result E B)) (l : list A) (b : B) : ST S (result E B) :=
  match l with
  | [] => st_ok b
  | a :: l' => b' <-! f b a ;; st_fold f l' b'
  end.

(** [?] on [checked_powi]. *)
Definition packed_float {S A} (o : option (result ProgramError A)) : Static S A :=
  match o with Some r => program r | None => st_panic end.

Definition is_none {A} (o : option A) : bool := match o with Some _ => false | None => true end.
Definition is_some {A} (o : option A) : bool := negb (is_none o).

Definition f64_le : f64 -> f64 -> bool := SFleb.

(** The literals [1.03] and [0.01]. *)
Definition f64_1_03 : f64 := S754_finite false 4638707616191611 (-52).
Definition f64_0_01 : f64 := S754_finite false 5764607523034235 (-59).

(** [f32]: a fee is multiplied and written as its bits. *)
Abbreviation f32 := spec_float (only parsing).

Definition f32_mul : f32 -> f32 -> f32 := SFmul 24 128.
Definition f32_0_01 : f32 := S754_finite false 10737418 (-30).

Definition f32_bits (x : f32) : Z :=
  match x with
  | S754_zero s => Z.b2z s * 2 ^ 31
  | S754_infinity s => Z.b2z s * 2 ^ 31 + 255 * 2 ^ 23
  | S754_nan => 0x7fc00000
  | S754_finite s m e =>
      Z.b2z s * 2 ^ 31 + (if Zpos m <? 2 ^ 23 then Zpos m else (e + 150) * 2 ^ 23 + (Zpos m - 2 ^ 23))
  end.

(** ** Keys and instructions *)

(** [key.as_ref()] and [key.to_bytes()]. *)
Definition key_bytes (key : Z) : list Z := to_le_bytes 32 key.

(** [AccountMeta::new(key, true)]. *)
Definition writable_signer (k : Z) : AccountMeta :=
  {| Cpi.pubkey := k; Cpi.is_signer := true; Cpi.is_writable := true |}.

Definition push_account (a : AccountMeta) (i : Instruction) : Instruction :=
  {| Cpi.program_id := i.(Cpi.program_id); Cpi.accounts := i.(Cpi.accounts) ++ [a]; Cpi.data := i.(Cpi.data) |}.

Definition set_instruction_accounts (accounts : list AccountMeta) (i : Instruction) : Instruction :=
  {| Cpi.program_id := i.(Cpi.program_id); Cpi.accounts := accounts; Cpi.data := i.(Cpi.data) |}.

Definition set_instruction_data (d : list Z) (i : Instruction) : Instruction :=
  {| Cpi.program_id := i.(Cpi.program_id); Cpi.accounts := i.(Cpi.accounts); Cpi.data := d |}.

Inductive TokenSelector := TokenA | TokenB.

#[export] Instance TokenSelector_eq_dec : EqDecision TokenSelector.
Proof. solve_decision. Defined.

Definition DISCRIMINATOR_FUND_CUSTODY : Z := 15979585294446943865.
Definition DISCRIMINATOR_FUND_VAULT : Z := 10084386823844633785.
Definition DISCRIMINATOR_FUND_USER_REQUESTS : Z := 13706702285134686038.

(** ** Statistics *)

Record VaultUserInfo := {
  last_deposit_time : Z;
  last_withdrawal_time : Z;
  tokens_a_added : Z;
  tokens_b_added : Z;
  tokens_a_removed : Z;
  tokens_b_removed : Z;
  lp_tokens_debt : Z;
}.

(** The fields that [f64::from_bits] reads are kept as bits, here and in [FundInfo]. *)
Module VaultInfo.
Record t := {
  crank_time : Z;
  crank_step : Z;
  tokens_a_added : Z;
  tokens_b_added : Z;
  tokens_a_removed : Z;
  tokens_b_removed : Z;
  tokens_a_rewards : Z;
  tokens_b_rewards : Z;
  stake_balance : f64;
  deposit_allowed : bool;
  withdrawal_allowed : bool;
  min_crank_interval : Z;
  fee : Z;
  external_fee : Z;
}.
End VaultInfo.

Record FundUserInfo := { virtual_tokens_balance : Z }.

Record FundInfo := {
  deposit_schedule : FundSchedule;
  withdrawal_schedule : FundSchedule;
  assets_config : FundAssetsTrackingConfig;
  virtual_tokens_supply : Z;
  amount_invested_usd : Z;
  amount_removed_usd : Z;
  current_assets_usd : Z;
  assets_update_time : Z;
  admin_action_time : Z;
  last_trade_time : Z;
  liquidation_start_time : Z;
  liquidation_amount_usd : Z;
  liquidation_amount_tokens : Z;
}.

Module FundCustodyWithBalance.
Record t := {
  discriminator : Z;
  fund_ref : Z;
  fund_name : Name;
  custody_id : Z;
  custody_type : FundCustodyType;
  token_ref : Z;
  token_name : Name;
  address : Z;
  fees_address : Z;
  balance : f64;
  fees_balance : f64;
  bump : Z;
}.
End FundCustodyWithBalance.

Module ProtocolInfo.
Record t := {
  protocol : Protocol;
  description : string;
  link : string;
  pools : Z;
  farms : Z;
  vaults : Z;
}.
End ProtocolInfo.

Section Reads.
Context `{FarmEnv}.

Definition address_with_seed {S} (base : Z) (seed : Name) (owner : Z) : Static S Z :=
  match create_with_seed base seed owner with Ok k => st_ok k | Err e => st_bail (PubkeyError e) end.

Definition parse_token_account {S} (d : list Z) (decimals : option Z) : Static S TokenAccountType :=
  match parse_token d decimals with Ok t => st_ok t | Err n => st_bail (ParseAccountError n) end.

(** [math::hash_address]. *)
Definition hash_address (current_hash : Z) (address : Z) : Z :=
  let input := if negb (current_hash =? 0) then to_le_bytes 8 current_hash ++ key_bytes address
               else key_bytes address in
  from_le_bytes (slice 0 8 (sha256 input)).

(** The records of a database that holds statistics. *)
Definition read_stats (account : Z) : Client (list Record_) :=
  d <-! rpc (get_account_data account) ;;
  if negb (RefDB.is_initialized d) then st_bail (ProgramErrorOf UninitializedAccount) else
  on_db d RefDB.read_all.

(** The last [U64] record with the name; the [Default] of the fields is zero. *)
Definition stat (rec_vec : list Record_) (name : string) : Z :=
  fold_left (fun v rec =>
    match rec.(r_reference) with
    | RefU64 d => if bool_decide (rec.(r_name) = str name) then d else v
    | _ => v
    end) rec_vec 0.

Definition stat_time (rec_vec : list Record_) (name : string) : Z := wrap_i64 (stat rec_vec name).
Definition stat_flag (rec_vec : list Record_) (name : string) : bool := 0 <? stat rec_vec name.

Definition get_accounts_with_filter (program : Z) (offset : nat) (bytes : list Z)
    : Client (list (Z * Account)) :=
  rpc (get_program_accounts program offset bytes).

Definition get_fund_vaults (fund_name : Name) : Client (list FundVault.t) :=
  fund <-! get_fund fund_name ;;
  fund_ref <-! get_fund_ref fund_name ;;
  let bytes := List.concat [to_le_bytes 8 DISCRIMINATOR_FUND_VAULT; key_bytes fund_ref] in
  acc_vec <-! get_accounts_with_filter fund.(Fund.fund_program_id) 0 bytes ;;
  let res := [] in
  res <-! st_fold (fun res '(_, acc) =>
      unpacked <-! program (FundVault.unpack_fund_vault acc.(account_data)) ;;
      let res := res ++ [unpacked] in
      st_ok res) acc_vec res ;;
  st_ok (sort_by (fun a b => FundVault.vault_id a <=? FundVault.vault_id b) res).

Definition find_funds (vault_name_pattern : Name) : Client (list Fund.t) :=
  funds <-! get_funds ;;
  res <-! st_fold (fun res '(fund_name, fund) =>
      vaults <-! get_fund_vaults fund_name ;;
      st_fold (fun res fund_vault =>
          r <- get_vault_by_ref fund_vault.(FundVault.vault_ref) ;;
          match r with
          | Ok vault => st_ok (if contains vault.(Vault.name) vault_name_pattern then res ++ [fund] else res)
          | Err _ => st_ok res
          end) vaults res) (hash_iter funds) [] ;;
  found Fund.version (RecordNotFound [Text "Funds with Vault name pattern "; Str vault_name_pattern]) res.

Definition tokens_to_ui_amount_with_decimals (amount decimals : Z) : ST FarmClient f64 :=
  if amount =? 0 then
    st_ret f64_zero
  else
    res <- math_result (SdkMath.checked_pow 10 decimals) ;;
    divisor <- st_unwrap (result_to_option res) ;;
    st_ret (f64_div (f64_of_Z amount) (f64_of_Z divisor)).

Definition get_pool_price_orca
    (token_a_balance token_b_balance token_a_decimals token_b_decimals : Z) : Client f64 :=
  if (token_a_balance =? 0) || (token_b_balance =? 0) then
    st_ok f64_zero
  else
    converted <- tokens_to_ui_amount_with_decimals token_b_balance token_b_decimals ;;
    converted2 <- tokens_to_ui_amount_with_decimals token_a_balance token_a_decimals ;;
    st_ok (f64_div converted converted2).

(** Where the profit that is to be taken is in the data of a pool. *)
Definition pnl_offsets (amm_id_data : list Z) : nat * nat :=
  match List.length amm_id_data with
  | 624%nat => (136, 144)%nat
  | 680%nat => (144, 152)%nat
  | 752%nat => (192, 200)%nat
  | _ => (0, 0)%nat
  end.

Definition take_pnl (balance need : Z) : Z := balance - (if need <? balance then need else balance).

Definition get_pool_price_raydium (token_a_balance token_b_balance token_a_decimals token_b_decimals : Z)
    (amm_id amm_open_orders : Z) : Client f64 :=
  open_orders_data <-! rpc (get_account_data amm_open_orders) ;;
  let has_orders := (List.length open_orders_data =? 3228)%nat in
  token_a_balance <- (if has_orders then st_unwrap (add_u64 token_a_balance (u64_at 85 open_orders_data))
                      else st_ret token_a_balance) ;;
  token_b_balance <- (if has_orders then st_unwrap (add_u64 token_b_balance (u64_at 101 open_orders_data))
                      else st_ret token_b_balance) ;;
  amm_id_data <-! rpc (get_account_data amm_id) ;;
  let '(pnl_coin_offset, pnl_pc_offset) := pnl_offsets amm_id_data in
  let '(token_a_balance, token_b_balance) :=
    if (0 <? pnl_coin_offset)%nat
    then (take_pnl token_a_balance (u64_at pnl_coin_offset amm_id_data),
          take_pnl token_b_balance (u64_at pnl_pc_offset amm_id_data))
    else (token_a_balance, token_b_balance) in
  if (token_a_balance =? 0) || (token_b_balance =? 0) then st_ok f64_zero else
  converted_b <- tokens_to_ui_amount_with_decimals token_b_balance token_b_decimals ;;
  converted_a <- tokens_to_ui_amount_with_decimals token_a_balance token_a_decimals ;;
  st_ok (f64_div converted_b converted_a).

(** [get_token_account_balance(account)?.amount.parse::<u64>().unwrap()]. *)
Definition token_amount_of (account : Z) : Client Z :=
  balance <-! rpc (rpc_token_account_balance account) ;;
  st_lift (st_unwrap balance.(amount)).

Definition get_pool_price (pool_name : Name) : Client f64 :=
  pool <-! get_pool pool_name ;;
  match pool.(Pool.token_a_ref), pool.(Pool.token_b_ref) with
  | Some token_a_ref, Some token_b_ref =>
      token_a <-! get_token_by_ref token_a_ref ;;
      token_b <-! get_token_by_ref token_b_ref ;;
      token_a_account <-! initialized pool.(Pool.token_a_account) ;;
      token_a_balance <-! token_amount_of token_a_account ;;
      token_b_account <-! initialized pool.(Pool.token_b_account) ;;
      token_b_balance <-! token_amount_of token_b_account ;;
      match pool.(Pool.route) with
      | Pool.Raydium amm_id _ amm_open_orders _ _ _ _ _ _ _ _ _ _ _ =>
          get_pool_price_raydium token_a_balance token_b_balance token_a.(Token.decimals)
            token_b.(Token.decimals) amm_id amm_open_orders
      | Pool.Orca _ _ _ =>
          get_pool_price_orca token_a_balance token_b_balance token_a.(Token.decimals)
            token_b.(Token.decimals)
      end
  | _, _ => st_ok f64_zero
  end.

Definition is_official_id (prog_id : Z) : Client bool :=
  holds <- (if prog_id =? main_router then st_ret true else
    res <- get_program_name prog_id ;;
    st_ret (is_ok res)) ;;
  st_ok holds.

Definition pubkey_from_str (input : Name) : Client Z :=
  match pubkey_from_string input with
  | Some k => st_ok k
  | None => st_bail (ValueError [Text "Failed to convert the String to a Pubkey "; Str input])
  end.

Definition parse_loader (d : list Z) : Client BpfLoaderAccount :=
  match parse_bpf_upgradeable_loader d with Ok a => st_ok a | Err n => st_bail (ParseAccountError n) end.

Definition get_program_upgrade_authority (prog_id : Z) : Client Z :=
  program_account_data <-! rpc (get_account_data prog_id) ;;
  program_account <-! parse_loader program_account_data ;;
  match program_account with
  | BpfProgram program_data =>
      program_data_account_key <-! pubkey_from_str program_data ;;
      program_data_account_data <-! rpc (get_account_data program_data_account_key) ;;
      program_data_account <-! parse_loader program_data_account_data ;;
      match program_data_account with
      | BpfProgramData (Some authority) => pubkey_from_str authority
      | BpfProgramData None => st_ok zero_id
      | _ => st_bail (ValueError [Text "Invalid program data account "; Key program_data_account_key])
      end
  | _ => st_bail (ValueError [Text "Invalid program account "; Key prog_id])
  end.

Definition get_program_multisig_account (prog_id : Z) : Client Z :=
  st_ok (fst (find_program_address [str "multisig"; key_bytes prog_id] main_router)).

Definition get_program_buffer_account (prog_id : Z) : Client Z :=
  st_ok (fst (find_program_address [key_bytes prog_id] bpf_loader_upgradeable)).

Definition get_program_admins (prog_id : Z) : Client Multisig :=
  upgrade_authority <-! get_program_upgrade_authority prog_id ;;
  multisig <-! get_program_multisig_account prog_id ;;
  if upgrade_authority =? multisig then
    res <- ask (get_account_data multisig) ;;
    match res with
    | Ok data => program (unpack_multisig data)
    | Err _ => st_bail (ValueError [Text "Invalid multisig account "; Key multisig])
    end
  else
    st_ok {| num_signers := 1; num_signed := 0; min_signatures := 1; instruction_accounts_len := 0;
             instruction_data_len := 0; instruction_hash := 0;
             signers := [upgrade_authority; zero_id; zero_id; zero_id; zero_id; zero_id];
             signed := replicate 6 false |}.

(** What an error of [send_and_confirm_transaction_with_spinner] leads to: another
    attempt, the signature of the attempt before, or the error. *)
Inductive Verdict := TryAgain | WasProcessed | GiveUp.

Definition NODE_UNHEALTHY : Z := -32005.
Definition BLOCK_NOT_AVAILABLE : Z := -32004.
Definition PREFLIGHT_FAILURE : Z := -32002.

Definition ends_with (s pattern : Name) : bool := starts_with (rev s) (rev pattern).

Definition verdict (error : ClientError) : Verdict :=
  match error with
  | RpcResponseError code message =>
      if (code =? NODE_UNHEALTHY) || (code =? BLOCK_NOT_AVAILABLE)
         || ((code =? PREFLIGHT_FAILURE) && ends_with message (str "Blockhash not found"))
      then TryAgain
      else if (code =? PREFLIGHT_FAILURE)
              && ends_with message (str "transaction has already been processed")
      then WasProcessed else GiveUp
  | ForUser msg =>
      if starts_with msg (str "unable to confirm transaction") || ends_with msg (str "Please retry.")
      then TryAgain else GiveUp
  | Reqwest is_timeout => if is_timeout then TryAgain else GiveUp
  | OtherClientError _ => GiveUp
  end.

(** The keys that a transaction needs the signatures of. *)
Definition required_signers (instructions : list Instruction) (payer : Z) : list Z :=
  payer :: concat (map signers_of instructions).

(** [Transaction::sign] panics when a signature is missing or a signer is not one
    of the transaction's. *)
Definition signable (instructions : list Instruction) (payer : Z) (signers : list Z) : bool :=
  forallb (fun k => bool_decide (k ∈ signers)) (required_signers instructions payer)
  && forallb (fun k => bool_decide (k ∈ required_signers instructions payer)) signers.

(** The attempts that are left; [first] on the first of them. *)
Fixpoint send_attempts (left : nat) (first : bool) (signers : list Z) (payer : Z)
    (instructions : list Instruction) (recent_blockhash prev_signature : Z) : Client Z :=
  match left with
  | O => st_panic
  | S left' =>
      recent_blockhash <-! (if first then st_ok recent_blockhash else
        is_valid <-! rpc (is_blockhash_valid recent_blockhash) ;;
        if is_valid : bool then st_ok recent_blockhash else rpc get_latest_blockhash) ;;
      st_assert (signable instructions payer signers) ;;;
      let transaction := {| tx_instructions := instructions; tx_payer := payer; tx_signers := signers;
                            tx_blockhash := recent_blockhash |} in
      res <- ask (send_and_confirm_transaction transaction) ;;
      match res with
      | Ok signature => st_ok signature
      | Err error =>
          if (left' =? 0)%nat then st_bail (RpcClientError error) else
          match verdict error with
          | TryAgain =>
              send_attempts left' false signers payer instructions recent_blockhash (signature_of transaction)
          | WasProcessed => st_ok prev_signature
          | GiveUp => st_bail (RpcClientError error)
          end
      end
  end.

Definition default_signature : Z := 0.

Definition sign_and_send_instructions (signers : list Z) (instructions : list Instruction) : Client Z :=
  match signers with
  | [] => st_bail (ValueError [Text "No signers provided for instruction"])
  | payer :: _ =>
      recent_blockhash <-! rpc get_latest_blockhash ;;
      send_attempts 20 true signers payer instructions recent_blockhash default_signature
  end.

(** The length of [base64::encode]. *)
Definition base64_len (n : nat) : Z := 4 * ((Z.of_nat n + 2) / 3).

Definition get_transaction_size (instructions : list Instruction) (payer : Z) : Client Z :=
  match bincode_serialize instructions payer with
  | Some bytes => st_ok (base64_len (List.length bytes))
  | None => st_bail (ParseError [Text "Failed to serialize transaction"])
  end.

Definition TRANSACTION_SIZE_LIMIT : Z := 1644.

(** The loop over [i]: the longest prefix before the first one that is too large. *)
Fixpoint longest_prefix (rest i : nat) (instructions : list Instruction) (payer : Z)
    : Client (list Instruction * nat) :=
  match rest with
  | O => st_panic
  | S rest' =>
      size <-! get_transaction_size (take i instructions) payer ;;
      if TRANSACTION_SIZE_LIMIT <? size then st_ok (take (i - 1) instructions, (i - 1)%nat)
      else longest_prefix rest' (S i) instructions payer
  end.

Definition create_transaction (instructions : list Instruction) (payer : Z)
    : Client (list Instruction * nat) :=
  let n := List.length instructions in
  if (n <=? 1)%nat then st_ok (instructions, n) else
  size <-! get_transaction_size instructions payer ;;
  if size <=? TRANSACTION_SIZE_LIMIT then st_ok (instructions, n)
  else longest_prefix (n - 1) 2 instructions payer.

(** The [while] loop over the instructions that are not processed; a batch has at
    least one, so there are at most as many rounds as instructions. *)
Fixpoint send_batches (fuel : nat) (signers : list Z) (payer : Z) (instructions : list Instruction)
    (signatures : list Z) : Client (list Z) :=
  match instructions, fuel with
  | [], _ => st_ok signatures
  | _, O => st_panic
  | _, S fuel' =>
      batch <-! create_transaction instructions payer ;;
      let batch_size := batch.2 in
      res <- sign_and_send_instructions signers (take batch_size instructions) ;;
      match res with
      | Ok signature =>
          send_batches fuel' signers payer (drop batch_size instructions) (signatures ++ [signature])
      | Err e => st_bail e
      end
  end.

Definition sign_and_send_instructions_in_batches (signers : list Z) (instructions : list Instruction)
    : Client (list Z) :=
  match signers with
  | [] => st_bail (ValueError [Text "No signers provided for instruction"])
  | payer :: _ => send_batches (List.length instructions) signers payer instructions []
  end.

Definition confirm_async_transaction (signature commitment : Z) : Client unit :=
  recent_blockhash <-! rpc get_latest_blockhash ;;
  rpc (confirm_transaction signature recent_blockhash commitment).

Definition get_account_balance (wallet_address : Z) : Client f64 :=
  balance <-! rpc (get_balance wallet_address) ;;
  converted <- tokens_to_ui_amount_with_decimals balance 9 ;;
  st_ok converted.

Definition get_associated_token_address (wallet_address : Z) (token_name : Name) : Client Z :=
  token <-! get_token token_name ;;
  st_ok (associated_token_address wallet_address token.(Token.mint)).

Definition ui_amount_to_tokens_with_decimals (ui_amount : f64) (decimals : Z) : Client Z :=
  if f64_le ui_amount f64_zero then
    st_ok 0
  else
    multiplier <-! math_result (SdkMath.checked_pow 10 decimals) ;;
    program (checked_float_as_u64 (f64_round (f64_mul ui_amount (f64_of_Z multiplier)))).

Definition get_token_account_data (wallet_address : Z) (token_name : Name)
    : Client UiTokenAccount :=
  token_address <-! get_associated_token_address wallet_address token_name ;;
  data <-! rpc (get_account_data token_address) ;;
  token <-! get_token token_name ;;
  res <-! parse_token_account data (Some token.(Token.decimals)) ;;
  match res with
  | TokenAccount ui_account =>
      st_ok ui_account
  | _ =>
      st_bail (ValueError [Text "No account data found for token "; Str token_name])
  end.

Definition check_ata_owner (base_wallet : Z) (token_name : Name) : Client bool :=
  token_address <-! get_associated_token_address base_wallet token_name ;;
  token_account <-! rpc (get_account token_address) ;;
  if negb (token_account.(account_owner) =? spl_token_id) then
    st_ok false
  else
    token_data <-! get_token_account_data base_wallet token_name ;;
    base_account <-! rpc (get_account base_wallet) ;;
    parsed <-! pubkey_from_str token_data.(ui_owner) ;;
    st_ok (base_account.(account_owner) =? parsed).

Definition has_active_token_account (wallet_address : Z) (token_name : Name) : ST FarmClient bool :=
  res <- get_token_account_data wallet_address token_name ;;
  st_ret (match res with
  | Ok account =>
      bool_decide (account.(ui_state) = Initialized)
  | Err _ =>
      false
  end).

Definition ui_amount_to_tokens (ui_amount : f64) (token_name : Name) : Client Z :=
  if f64_eq ui_amount f64_zero then
    st_ok 0
  else
  if f64_lt ui_amount f64_zero then
    st_bail (ValueError [Text "Invalid ui_amount: "; Float ui_amount]) else
  token <-! get_token token_name ;;
  multiplier <-! math_result (SdkMath.checked_pow 10 token.(Token.decimals)) ;;
  program (checked_float_as_u64 (f64_round (f64_mul ui_amount (f64_of_Z multiplier)))).

Definition get_wallet_tokens (wallet_address : Z) : Client (list Name) :=
  accounts <-! rpc (rpc_token_accounts_by_owner wallet_address) ;;
  st_fold (fun res acc =>
      token_address <-! pubkey_from_str acc ;;
      data <-! rpc (get_account_data token_address) ;;
      token_info <-! parse_token_account data (Some 0) ;;
      match token_info with
      | TokenAccount ui_account =>
          token_mint <-! pubkey_from_str ui_account.(ui_mint) ;;
          r <- get_token_with_mint token_mint ;;
          match r with
          | Ok token => st_ok (res ++ [token.(Token.name)])
          | Err _ => st_ok (res ++ [str "B58." ++ acc])
          end
      | _ => st_ok res
      end) accounts [].

Definition get_token_mint_data (wallet_address : Z) (token_name : Name) : Client Z :=
  token_address <-! get_associated_token_address wallet_address token_name ;;
  data <-! rpc (get_account_data token_address) ;;
  res <-! parse_token_account data None ;;
  match res with
  | TokenMint ui_mint =>
      st_ok ui_mint
  | _ =>
      st_bail (ValueError [Text "No mint data found for token "; Str token_name])
  end.

Definition get_token_account_balance_with_address (token_account : Z) : Client f64 :=
  res <- ask (rpc_token_account_balance token_account) ;;
  match res with
  | Ok balance =>
      match balance.(ui_amount) with
      | Some ui_amount =>
          st_ok ui_amount
      | _ =>
          st_bail (ParseError [Text "Failed to parse balance for token address ";
              Key token_account])
      end
  | Err _ =>
      st_ok f64_zero
  end.

Definition get_token_account_balance (wallet_address : Z) (token_name : Name) : Client f64 :=
  let token_name := if bool_decide (token_name = str "WSOL") then
    str "SOL"
  else
    token_name in
  token_address <-! (if (4 <? (Z.of_nat (List.length token_name))) && (starts_with token_name (str
      "B58.")) then
    rest <- str_slice token_name 4 (List.length token_name) ;;
    pubkey_from_str rest
  else
    get_associated_token_address wallet_address token_name) ;;
  get_token_account_balance_with_address token_address.

Definition get_vault_user_info_account (wallet_address : Z) (vault_name : Name) : Client Z :=
  vault <-! get_vault vault_name ;;
  st_ok (fst (find_program_address [str "user_info_account"; key_bytes wallet_address;
      vault.(Vault.name)] vault.(Vault.vault_program_id))).

Definition get_vault_token_decimals (vault_name : Name) : Client Z :=
  vault <-! get_vault vault_name ;;
  found_token <-! get_token_by_ref_from_cache (Some vault.(Vault.vault_token_ref)) ;;
  match found_token with
  | Some vault_token =>
      st_ok vault_token.(Token.decimals)
  | _ =>
      st_bail (RecordNotFound [Text "Vault token for "; Str vault_name])
  end.

Definition get_pool_tokens_decimals (pool_name : Name) : Client (list Z) :=
  pool <-! get_pool pool_name ;;
  found_token <-! get_token_by_ref_from_cache pool.(Pool.lp_token_ref) ;;
  res <-! (match found_token with
  | Some token =>
      st_ok [token.(Token.decimals)]
  | _ =>
      st_ok []
  end) ;;
  found_token2 <-! get_token_by_ref_from_cache pool.(Pool.token_a_ref) ;;
  res <-! (match found_token2 with
  | Some token =>
      st_ok (res ++ [token.(Token.decimals)])
  | _ =>
      st_ok res
  end) ;;
  found_token3 <-! get_token_by_ref_from_cache pool.(Pool.token_b_ref) ;;
  match found_token3 with
  | Some token =>
      st_ok (res ++ [token.(Token.decimals)])
  | _ =>
      st_ok res
  end.

Definition get_vault_multisig_account (vault_name : Name) : Client Z :=
  vault <-! get_vault vault_name ;;
  st_ok (fst (find_program_address [str "multisig"; vault.(Vault.name)]
      vault.(Vault.vault_program_id))).

Definition get_vault_active_multisig_account (vault_name : Name) : Client Z :=
  vault_multisig_account <-! get_vault_multisig_account vault_name ;;
  res <- ask (get_account_data vault_multisig_account) ;;
  match res with
  | Ok data =>
      _ <-! program (unpack_multisig data) ;;
      st_ok vault_multisig_account
  | Err _ =>
      st_ok main_router_multisig
  end.

Definition get_vault_admins (vault_name : Name) : Client Multisig :=
  active <-! get_vault_active_multisig_account vault_name ;;
  res <- ask (get_account_data active) ;;
  match res with
  | Ok data =>
      program (unpack_multisig data)
  | Err _ =>
      st_ok default_multisig
  end.

Definition get_vault_user_info (wallet_address : Z) (vault_name : Name) : Client VaultUserInfo :=
  user_info_account <-! get_vault_user_info_account wallet_address vault_name ;;
  rec_vec <-! read_stats user_info_account ;;
  st_ok {| last_deposit_time := stat_time rec_vec "LastDeposit";
           last_withdrawal_time := stat_time rec_vec "LastWithdrawal";
           tokens_a_added := stat rec_vec "TokenAAdded";
           tokens_b_added := stat rec_vec "TokenBAdded";
           tokens_a_removed := stat rec_vec "TokenARemoved";
           tokens_b_removed := stat rec_vec "TokenBRemoved";
           lp_tokens_debt := stat rec_vec "LpTokensDebt" |}.

Definition raydium_deposit_balance (farm : Farm) (stake_data : list Z) : Client Z :=
  if 4 <=? farm.(Farm.version) then
    info <-! program (RaydiumUserStakeInfoV4.unpack stake_data) ;;
    st_ok info.(RaydiumUserStakeInfoV4.deposit_balance)
  else
    info <-! program (RaydiumUserStakeInfo.unpack stake_data) ;;
    st_ok info.(RaydiumUserStakeInfo.deposit_balance).

Definition get_vault_stake_balance (vault_name : Name) : Client f64 :=
  vault <-! get_vault vault_name ;;
  match vault.(Vault.strategy) with
  | Vault.StakeLpCompoundRewards _ _ _ _ _ farm_ref _ _ _ _ _ vault_stake_info _ _ _ =>
      farm <-! get_farm_by_ref farm_ref ;;
      lp_token_ref <- st_unwrap farm.(Farm.lp_token_ref) ;;
      farm_token <-! get_token_by_ref lp_token_ref ;;
      res <- ask (get_account_data vault_stake_info) ;;
      balance <-! (match res with
      | Ok stake_data =>
          if bool_decide (stake_data = []) then st_ok 0 else
          match farm.(Farm.route) with
          | Farm.Raydium _ _ _ _ _ => raydium_deposit_balance farm stake_data
          | Farm.Orca _ _ _ _ _ =>
              info <-! program (OrcaUserStakeInfo.unpack stake_data) ;;
              st_ok info.(OrcaUserStakeInfo.base_tokens_converted)
          end
      | Err _ => st_ok 0
      end) ;;
      st_lift (tokens_to_ui_amount_with_decimals balance farm_token.(Token.decimals))
  | _ => st_ok f64_zero
  end.

Definition get_vault_info (vault_name : Name) : Client VaultInfo.t :=
  vault <-! get_vault vault_name ;;
  rec_vec <-! read_stats vault.(Vault.info_account) ;;
  stake_balance <-! get_vault_stake_balance vault_name ;;
  st_ok {| VaultInfo.crank_time := stat_time rec_vec "CrankTime";
           VaultInfo.crank_step := stat rec_vec "CrankStep";
           VaultInfo.tokens_a_added := stat rec_vec "TokenAAdded";
           VaultInfo.tokens_b_added := stat rec_vec "TokenBAdded";
           VaultInfo.tokens_a_removed := stat rec_vec "TokenARemoved";
           VaultInfo.tokens_b_removed := stat rec_vec "TokenBRemoved";
           VaultInfo.tokens_a_rewards := stat rec_vec "TokenARewards";
           VaultInfo.tokens_b_rewards := stat rec_vec "TokenBRewards";
           VaultInfo.stake_balance := stake_balance;
           VaultInfo.deposit_allowed := stat_flag rec_vec "DepositAllowed";
           VaultInfo.withdrawal_allowed := stat_flag rec_vec "WithdrawalAllowed";
           VaultInfo.min_crank_interval := stat rec_vec "MinCrankInterval";
           VaultInfo.fee := stat rec_vec "Fee";
           VaultInfo.external_fee := stat rec_vec "ExternalFee" |}.

Definition get_all_vault_infos : Client (list VaultInfo.t) :=
  let vault_infos := [] in
  vaults <-! get_vaults ;;
  vault_infos <-! st_fold (fun vault_infos vault =>
      vault_info <-! get_vault_info vault ;;
      let vault_infos := vault_infos ++ [vault_info] in
      st_ok vault_infos) ((hash_iter vaults).*1) vault_infos ;;
  st_ok vault_infos.

(** The stake accounts of a wallet with a protocol; keys stand for their strings. *)
Definition stake_accounts_of (index : nat) (wallet_address : Z) : ST FarmClient (option (gmap Z Z)) :=
  accounts <- st_gets stake_accounts ;;
  by_wallet <- st_unwrap (accounts !! index) ;;
  st_ret (by_wallet !! wallet_address).

Definition cached_stake_account (index : nat) (wallet_address farm_id : Z) : ST FarmClient (option Z) :=
  addr_map <- stake_accounts_of index wallet_address ;;
  st_ret (match addr_map with Some m => m !! farm_id | None => None end).

(** The map of a wallet, which an update that does not find it creates. *)
Definition update_stake_accounts (index : nat) (wallet_address : Z) (f : gmap Z Z -> gmap Z Z)
    : ST FarmClient unit :=
  accounts <- st_gets stake_accounts ;;
  by_wallet <- st_unwrap (accounts !! index) ;;
  st_modify (set_stake_accounts
    (<[index := <[wallet_address := f (default ∅ (by_wallet !! wallet_address))]> by_wallet]> accounts)).

Definition update_stake_accounts_cache (wallet_address : Z) (farm_name : Name) (acc_key acc_address : Z)
    : Client unit :=
  farm <-! get_farm farm_name ;;
  let index := match farm.(Farm.route) with
               | Farm.Raydium _ _ _ _ _ => 0%nat
               | Farm.Orca _ _ _ _ _ => 2%nat
               end in
  st_lift (update_stake_accounts index wallet_address (insert acc_key acc_address)).

Definition get_orca_stake_account (wallet_address : Z) (farm_name : Name) : Client Z :=
  farm <-! get_farm farm_name ;;
  match farm.(Farm.route) with
  | Farm.Orca farm_id _ _ _ _ =>
      cached <- cached_stake_account 2 wallet_address farm_id ;;
      match cached with
      | Some stake_acc => st_ok stake_acc
      | None =>
          let farmer := fst (find_program_address
            [key_bytes farm_id; key_bytes wallet_address; key_bytes spl_token_id]
            farm.(Farm.farm_program_id)) in
          _ <-! update_stake_accounts_cache wallet_address farm_name farm_id farmer ;;
          st_ok farmer
      end
  | _ => st_panic
  end.

Definition stake_farm_id (farm : Farm) (d : list Z) : Client Z :=
  if 4 <=? farm.(Farm.version) then
    info <-! program (RaydiumUserStakeInfoV4.unpack d) ;;
    st_ok info.(RaydiumUserStakeInfoV4.farm_id)
  else
    info <-! program (RaydiumUserStakeInfo.unpack d) ;;
    st_ok info.(RaydiumUserStakeInfo.farm_id).

Definition get_raydium_stake_account (wallet_address : Z) (farm_name : Name) : Client Z :=
  farm <-! get_farm farm_name ;;
  match farm.(Farm.route) with
  | Farm.Raydium farm_id _ _ _ _ =>
      cached <- cached_stake_account 0 wallet_address farm_id ;;
      match cached with
      | Some stake_acc => st_ok stake_acc
      | None =>
          acc_vec <-! get_accounts_with_filter farm.(Farm.farm_program_id) 40 (key_bytes wallet_address) ;;
          update_stake_accounts 0 wallet_address id ;;;
          stake_acc <-! st_fold (fun stake_acc '(stake_acc_key, account) =>
              its_farm <-! stake_farm_id farm account.(account_data) ;;
              update_stake_accounts 0 wallet_address (insert its_farm stake_acc_key) ;;;
              st_ok (if its_farm =? farm_id then Some stake_acc_key else stake_acc)) acc_vec None ;;
          match stake_acc with
          | Some acc => st_ok acc
          | None =>
              let stake_acc := fst (find_program_address
                [str "Miner"; key_bytes farm_id; key_bytes wallet_address] farm.(Farm.router_program_id)) in
              _ <-! update_stake_accounts_cache wallet_address farm_name farm_id stake_acc ;;
              st_ok stake_acc
          end
      end
  | _ => st_panic
  end.

Definition get_stake_account (wallet_address : Z) (farm_name : Name) : Client Z :=
  farm <-! get_farm farm_name ;;
  match farm.(Farm.route) with
  | Farm.Raydium _ _ _ _ _ =>
      get_raydium_stake_account wallet_address farm_name
  | Farm.Orca _ _ _ _ _ =>
      get_orca_stake_account wallet_address farm_name
  end.

Definition get_user_stake_balance (wallet_address : Z) (farm_name : Name) : Client f64 :=
  farm <-! get_farm farm_name ;;
  match farm.(Farm.route) with
  | Farm.Raydium _ _ _ _ _ =>
      stake_account <-! get_stake_account wallet_address farm_name ;;
      res <- ask (get_account_data stake_account) ;;
      match res with
      | Ok stake_data =>
          if bool_decide (stake_data = []) then st_ok f64_zero else
          deposit_balance <-! raydium_deposit_balance farm stake_data ;;
          lp_token_ref <- st_unwrap farm.(Farm.lp_token_ref) ;;
          farm_token <-! get_token_by_ref lp_token_ref ;;
          st_lift (tokens_to_ui_amount_with_decimals deposit_balance farm_token.(Token.decimals))
      | Err _ => st_ok f64_zero
      end
  | Farm.Orca _ _ farm_token_ref _ _ =>
      res <- get_token_by_ref farm_token_ref ;;
      match res with
      | Ok farm_token => get_token_account_balance wallet_address farm_token.(Token.name)
      | Err _ => st_ok f64_zero
      end
  end.

Definition get_underlying_farm (vault_name : Name) : Client Farm :=
  vault <-! get_vault vault_name ;;
  match vault.(Vault.strategy) with
  | Vault.StakeLpCompoundRewards _ _ _ _ _ farm_ref _ _ _ _ _ _ _ _ _ =>
      get_farm_by_ref farm_ref
  | Vault.DynamicHedge =>
      get_farm_by_ref zero_id
  end.

Definition get_underlying_pool (vault_name : Name) : Client Pool :=
  vault <-! get_vault vault_name ;;
  match vault.(Vault.strategy) with
  | Vault.StakeLpCompoundRewards _ _ pool_ref _ _ _ _ _ _ _ _ _ _ _ _ =>
      get_pool_by_ref pool_ref
  | Vault.DynamicHedge =>
      get_pool_by_ref zero_id
  end.

Definition get_vault_price (vault_name : Name) : Client f64 :=
  underlying_pool <-! get_underlying_pool vault_name ;;
  let pool_name := underlying_pool.(Pool.name) in
  get_pool_price pool_name.

Definition get_token_account (wallet_address : Z) (token : (option Token)) : (option Z) :=
  option_map (fun token_info => associated_token_address wallet_address token_info.(Token.mint))
      token.

Definition to_token_amount (ui_amount : f64) (token : Token) : Client Z :=
  ui_amount_to_tokens_with_decimals ui_amount token.(Token.decimals).

Definition to_token_amount_option (ui_amount : f64) (token : (option Token)) : Client Z :=
  match token with
  | Some tkn =>
      to_token_amount ui_amount tkn
  | _ =>
      st_bail (ProgramErrorOf UninitializedAccount)
  end.

Definition pool_has_saber_wrapped_tokens (pool_name : Name) : Client (bool * bool) :=
  pool <-! get_pool pool_name ;;
  st_ok (false, false).

Definition pool_has_sol_tokens (pool_name : Name) : Client (bool * bool) :=
  pool <-! get_pool pool_name ;;
  let is_token_a_sol := false in
  let is_token_b_sol := false in
  is_token_a_sol <-! (match pool.(Pool.token_a_ref) with
  | Some token_a_ref =>
      token_a <-! get_token_by_ref token_a_ref ;;
      if bool_decide (token_a.(Token.token_type) = Token.WrappedSol) then
        st_ok true
      else
        st_ok is_token_a_sol
  | _ =>
      st_ok is_token_a_sol
  end) ;;
  is_token_b_sol <-! (match pool.(Pool.token_b_ref) with
  | Some token_b_ref =>
      token_b <-! get_token_by_ref token_b_ref ;;
      if bool_decide (token_b.(Token.token_type) = Token.WrappedSol) then
        st_ok true
      else
        st_ok is_token_b_sol
  | _ =>
      st_ok is_token_b_sol
  end) ;;
  st_ok (is_token_a_sol, is_token_b_sol).

Definition vault_has_sol_tokens (vault_name : Name) : Client (bool * bool) :=
  underlying_pool <-! get_underlying_pool vault_name ;;
  let pool_name := underlying_pool.(Pool.name) in
  pool_has_sol_tokens pool_name.

Definition get_vault_lp_token_decimals (vault_name : Name) : Client Z :=
  pool <-! get_underlying_pool vault_name ;;
  found_token <-! get_token_by_ref_from_cache pool.(Pool.lp_token_ref) ;;
  match found_token with
  | Some pool_token =>
      st_ok pool_token.(Token.decimals)
  | _ =>
      st_bail (RecordNotFound [Text "LP token for "; Str vault_name])
  end.

Definition get_admins : Client Multisig :=
  res <- ask (get_account_data main_router_multisig) ;;
  match res with
  | Ok data =>
      program (unpack_multisig data)
  | Err _ =>
      st_ok default_multisig
  end.

Definition get_fund_multisig_account (fund_name : Name) : Client Z :=
  fund <-! get_fund fund_name ;;
  st_ok (fst (find_program_address [str "multisig"; fund.(Fund.name)] fund.(Fund.fund_program_id))).

Definition get_fund_active_multisig_account (fund_name : Name) : Client Z :=
  fund_multisig_account <-! get_fund_multisig_account fund_name ;;
  res <- ask (get_account_data fund_multisig_account) ;;
  match res with
  | Ok data =>
      _ <-! program (unpack_multisig data) ;;
      st_ok fund_multisig_account
  | Err _ =>
      st_ok main_router_multisig
  end.

Definition get_fund_admins (fund_name : Name) : Client Multisig :=
  active <-! get_fund_active_multisig_account fund_name ;;
  res <- ask (get_account_data active) ;;
  match res with
  | Ok data =>
      program (unpack_multisig data)
  | Err _ =>
      st_ok default_multisig
  end.

Definition get_fund_user_info_account (wallet_address : Z) (fund_name : Name) : Client Z :=
  fund <-! get_fund fund_name ;;
  st_ok (fst (find_program_address [str "user_info_account"; key_bytes wallet_address;
      fund.(Fund.name)] fund.(Fund.fund_program_id))).

Definition get_fund_user_info (wallet_address : Z) (fund_name : Name) : Client FundUserInfo :=
  user_info_account <-! get_fund_user_info_account wallet_address fund_name ;;
  rec_vec <-! read_stats user_info_account ;;
  st_ok {| virtual_tokens_balance := stat rec_vec "VirtualTokensBalance" |}.

Definition get_all_fund_user_infos (wallet_address : Z) : Client (list FundUserInfo) :=
  let user_infos := [] in
  funds <-! get_funds ;;
  user_infos <-! st_fold (fun user_infos fund =>
      fund_user_info <-! get_fund_user_info wallet_address fund ;;
      let user_infos := user_infos ++ [fund_user_info] in
      st_ok user_infos) ((hash_iter funds).*1) user_infos ;;
  st_ok user_infos.

Definition get_fund_user_requests_account (wallet_address : Z) (fund_name token_name : Name)
    : Client Z :=
  fund <-! get_fund fund_name ;;
  token <-! get_token token_name ;;
  st_ok (fst (find_program_address [str "user_requests_account"; token.(Token.name); key_bytes
      wallet_address; fund.(Fund.name)] fund.(Fund.fund_program_id))).

Definition get_fund_user_requests (wallet_address : Z) (fund_name token_name : Name)
    : Client FundUserRequests.t :=
  user_requests_account <-! get_fund_user_requests_account wallet_address fund_name token_name ;;
  data <-! rpc (get_account_data user_requests_account) ;;
  program (FundUserRequests.unpack_user_requests data).

Definition get_all_fund_user_requests (fund_name : Name) : Client (list FundUserRequests.t) :=
  fund <-! get_fund fund_name ;;
  fund_ref <-! get_fund_ref fund_name ;;
  let bytes := List.concat [to_le_bytes 8 DISCRIMINATOR_FUND_USER_REQUESTS; key_bytes fund_ref] in
  acc_vec <-! get_accounts_with_filter fund.(Fund.fund_program_id) 0 bytes ;;
  let res := [] in
  res <-! st_fold (fun res '(_, acc) =>
      unpacked <-! program (FundUserRequests.unpack_user_requests acc.(account_data)) ;;
      let res := res ++ [unpacked] in
      st_ok res) acc_vec res ;;
  st_ok res.

Definition schedule_of (rec_vec : list Record_) (kind : string) : FundSchedule :=
  let field name := (kind ++ name)%string in {|
  start_time := stat_time rec_vec (field "StartTime"%string);
  end_time := stat_time rec_vec (field "EndTime"%string);
  approval_required := negb (stat rec_vec (field "ApprovalRequired"%string) =? 0);
  min_amount_usd := stat rec_vec (field "MinAmountUsd"%string);
  max_amount_usd := stat rec_vec (field "MaxAmountUsd"%string);
  fee := stat rec_vec (field "Fee"%string) |}.

Definition get_fund_info (fund_name : Name) : Client FundInfo :=
  fund <-! get_fund fund_name ;;
  rec_vec <-! read_stats fund.(Fund.info_account) ;;
  st_ok {| deposit_schedule := schedule_of rec_vec "Deposit";
           withdrawal_schedule := schedule_of rec_vec "Withdrawal";
           assets_config := {|
             assets_limit_usd := stat rec_vec "AssetsLimitUsd";
             max_update_age_sec := stat rec_vec "AssetsMaxUpdateAgeSec";
             max_price_error := stat rec_vec "AssetsMaxPriceError";
             max_price_age_sec := stat rec_vec "AssetsMaxPriceAgeSec";
             issue_virtual_tokens := stat_flag rec_vec "IssueVirtualTokens" |};
           virtual_tokens_supply := stat rec_vec "VirtualTokensSupply";
           amount_invested_usd := stat rec_vec "AmountInvestedUsd";
           amount_removed_usd := stat rec_vec "AmountRemovedUsd";
           current_assets_usd := stat rec_vec "CurrentAssetsUsd";
           assets_update_time := stat_time rec_vec "AssetsUpdateTime";
           admin_action_time := stat_time rec_vec "AdminActionTime";
           last_trade_time := stat_time rec_vec "LastTradeTime";
           liquidation_start_time := stat_time rec_vec "LiquidationStartTime";
           liquidation_amount_usd := stat rec_vec "LiquidationAmountUsd";
           liquidation_amount_tokens := stat rec_vec "LiquidationAmountTokens" |}.

Definition get_all_fund_infos : Client (list FundInfo) :=
  let fund_infos := [] in
  funds <-! get_funds ;;
  fund_infos <-! st_fold (fun fund_infos fund =>
      fund_info <-! get_fund_info fund ;;
      let fund_infos := fund_infos ++ [fund_info] in
      st_ok fund_infos) ((hash_iter funds).*1) fund_infos ;;
  st_ok fund_infos.

Definition get_fund_assets_account (fund_name : Name) (asset_type : FundAssetType) : Client Z :=
  fund <-! get_fund fund_name ;;
  match asset_type with
  | AssetVault =>
      st_ok (fst (find_program_address [str "vaults_assets_info"; fund.(Fund.name)]
          fund.(Fund.fund_program_id)))
  | AssetCustody =>
      st_ok (fst (find_program_address [str "custodies_assets_info"; fund.(Fund.name)]
          fund.(Fund.fund_program_id)))
  end.

Definition get_fund_assets (fund_name : Name) (asset_type : FundAssetType) : Client FundAssets.t :=
  assets_account <-! get_fund_assets_account fund_name asset_type ;;
  data <-! rpc (get_account_data assets_account) ;;
  program (FundAssets.unpack_assets data).

Definition get_fund_custody_token_account (fund_name token_name : Name)
    (custody_type : FundCustodyType) : Client Z :=
  fund <-! get_fund fund_name ;;
  token <-! get_token token_name ;;
  if match custody_type with Fund.DepositWithdraw => true | _ => false end then
    st_ok (fst (find_program_address [str "fund_wd_custody_account"; token.(Token.name);
        fund.(Fund.name)] fund.(Fund.fund_program_id)))
  else
    get_associated_token_address fund.(Fund.fund_authority) token_name.

Definition get_fund_custody_fees_token_account (fund_name token_name : Name)
    (custody_type : FundCustodyType) : Client Z :=
  fund <-! get_fund fund_name ;;
  token <-! get_token token_name ;;
  let custody_seed_str := match custody_type with
  | Fund.DepositWithdraw =>
      str "fund_wd_custody_fees_account"
  | Fund.Trading =>
      str "fund_td_custody_fees_account"
  end in
  st_ok (fst (find_program_address [custody_seed_str; token.(Token.name); fund.(Fund.name)]
      fund.(Fund.fund_program_id))).

Definition get_fund_custody_account (fund_name token_name : Name) (custody_type : FundCustodyType)
    : Client Z :=
  fund <-! get_fund fund_name ;;
  token <-! get_token token_name ;;
  let custody_seed_str := match custody_type with
  | Fund.DepositWithdraw =>
      str "fund_wd_custody_info"
  | Fund.Trading =>
      str "fund_td_custody_info"
  end in
  st_ok (fst (find_program_address [custody_seed_str; token.(Token.name); fund.(Fund.name)]
      fund.(Fund.fund_program_id))).

Definition get_fund_custody (fund_name token_name : Name) (custody_type : FundCustodyType)
    : Client FundCustody.t :=
  custody_info_account <-! get_fund_custody_account fund_name token_name custody_type ;;
  data <-! rpc (get_account_data custody_info_account) ;;
  program (FundCustody.unpack_custody data).

Definition get_fund_custodies (fund_name : Name) : Client (list FundCustody.t) :=
  fund <-! get_fund fund_name ;;
  fund_ref <-! get_fund_ref fund_name ;;
  let bytes := List.concat [to_le_bytes 8 DISCRIMINATOR_FUND_CUSTODY; key_bytes fund_ref] in
  acc_vec <-! get_accounts_with_filter fund.(Fund.fund_program_id) 0 bytes ;;
  let res := [] in
  res <-! st_fold (fun res '(_, acc) =>
      unpacked <-! program (FundCustody.unpack_custody acc.(account_data)) ;;
      let res := res ++ [unpacked] in
      st_ok res) acc_vec res ;;
  st_ok (sort_by (fun a b => FundCustody.custody_id a <=? FundCustody.custody_id b) res).

Definition custody_with_balance (fund : Fund.t) (token : Token) (custody : FundCustody.t)
    (balance fees_balance : f64) : FundCustodyWithBalance.t := {|
  FundCustodyWithBalance.fund_name := fund.(Fund.name);
  FundCustodyWithBalance.token_name := token.(Token.name);
  FundCustodyWithBalance.balance := balance;
  FundCustodyWithBalance.fees_balance := fees_balance;
  FundCustodyWithBalance.discriminator := custody.(FundCustody.discriminator);
  FundCustodyWithBalance.fund_ref := custody.(FundCustody.fund_ref);
  FundCustodyWithBalance.custody_id := custody.(FundCustody.custody_id);
  FundCustodyWithBalance.custody_type := custody.(FundCustody.custody_type);
  FundCustodyWithBalance.token_ref := custody.(FundCustody.token_ref);
  FundCustodyWithBalance.address := custody.(FundCustody.address);
  FundCustodyWithBalance.fees_address := custody.(FundCustody.fees_address);
  FundCustodyWithBalance.bump := custody.(FundCustody.bump) |}.

Definition get_fund_custody_with_balance (fund_name token_name : Name) (custody_type : FundCustodyType)
    : Client FundCustodyWithBalance.t :=
  custody <-! get_fund_custody fund_name token_name custody_type ;;
  token <-! get_token_by_ref custody.(FundCustody.token_ref) ;;
  fund <-! get_fund_by_ref custody.(FundCustody.fund_ref) ;;
  balance <-! get_token_account_balance_with_address custody.(FundCustody.address) ;;
  fees_balance <-! get_token_account_balance_with_address custody.(FundCustody.fees_address) ;;
  st_ok (custody_with_balance fund token custody balance fees_balance).

Definition get_fund_custodies_with_balance (fund_name : Name) : Client (list FundCustodyWithBalance.t) :=
  fund <-! get_fund fund_name ;;
  custodies <-! get_fund_custodies fund_name ;;
  st_fold (fun res custody =>
      token <-! get_token_by_ref custody.(FundCustody.token_ref) ;;
      balance <-! get_token_account_balance_with_address custody.(FundCustody.address) ;;
      fees_balance <-! get_token_account_balance_with_address custody.(FundCustody.fees_address) ;;
      st_ok (res ++ [custody_with_balance fund token custody balance fees_balance])) custodies [].

Definition get_fund_vault_account (fund_name vault_name : Name) (vault_type : FundVaultType)
    : Client Z :=
  fund <-! get_fund fund_name ;;
  let vault_seed_str := match vault_type with
  | TypeVault =>
      str "fund_vault_info"
  | TypePool =>
      str "fund_pool_info"
  | TypeFarm =>
      str "fund_farm_info"
  end in
  st_ok (fst (find_program_address [vault_seed_str; vault_name; fund_name]
      fund.(Fund.fund_program_id))).

Definition get_fund_vault (fund_name vault_name : Name) (vault_type : FundVaultType)
    : Client FundVault.t :=
  vault_info_account <-! get_fund_vault_account fund_name vault_name vault_type ;;
  data <-! rpc (get_account_data vault_info_account) ;;
  program (FundVault.unpack_fund_vault data).

Definition tokens_to_ui_amount (amount : Z) (token_name : Name) : Client f64 :=
  if amount =? 0 then
    st_ok f64_zero
  else
    token <-! get_token token_name ;;
    divisor <-! math_result (SdkMath.checked_pow 10 token.(Token.decimals)) ;;
    st_ok (f64_div (f64_of_Z amount) (f64_of_Z divisor)).

Definition get_oracle (symbol : Name) : Client (OracleType * (option Z)) :=
  token <-! get_token symbol ;;
  st_ok (token.(Token.oracle_type), token.(Token.oracle_account)).

Definition get_pool_token_names (pool_name : Name) : Client (Name * Name * Name) :=
  pool <-! get_pool pool_name ;;
  token_a <-! get_token_by_ref_from_cache pool.(Pool.token_a_ref) ;;
  token_b <-! get_token_by_ref_from_cache pool.(Pool.token_b_ref) ;;
  lp_token <-! get_token_by_ref_from_cache pool.(Pool.lp_token_ref) ;;
  st_ok (match token_a with
  | Some token =>
      token.(Token.name)
  | _ =>
      []
  end, match token_b with
  | Some token =>
      token.(Token.name)
  | _ =>
      []
  end, match lp_token with
  | Some token =>
      token.(Token.name)
  | _ =>
      []
  end).

Definition get_vault_token_names (vault_name : Name) : Client (Name * Name * Name) :=
  vault <-! get_vault vault_name ;;
  vt_token <-! get_token_by_ref_from_cache (Some vault.(Vault.vault_token_ref)) ;;
  match vault.(Vault.strategy) with
  | Vault.StakeLpCompoundRewards _ _ pool_ref _ _ _ _ _ _ _ _ _ _ _ _ =>
      pool <-! get_pool_by_ref pool_ref ;;
      token_a <-! get_token_by_ref_from_cache pool.(Pool.token_a_ref) ;;
      token_b <-! get_token_by_ref_from_cache pool.(Pool.token_b_ref) ;;
      st_ok (match token_a with
      | Some token =>
          token.(Token.name)
      | _ =>
          []
      end, match token_b with
      | Some token =>
          token.(Token.name)
      | _ =>
          []
      end, match vt_token with
      | Some token =>
          token.(Token.name)
      | _ =>
          []
      end)
  | _ =>
      st_panic
  end.

Definition is_wallet_single_fund_admin (wallet_address : Z) (fund_name : Name) : Client bool :=
  multisig <-! get_fund_admins fund_name ;;
  holds <- (if multisig.(Multisig.num_signers) =? 1 then
    item <- st_unwrap (multisig.(Multisig.signers) !! 0%nat) ;;
    st_ret (item =? wallet_address)
  else st_ret false) ;;
  st_ok holds.

(** The slots since the price was valid, in seconds. *)
Definition price_age_sec (current_slot valid_slot : Z) : ST FarmClient Z :=
  if valid_slot <? current_slot then
    ms <- st_unwrap (mul_u64 (current_slot - valid_slot) DEFAULT_MS_PER_SLOT) ;;
    st_ret (ms / 1000)
  else st_ret 0.

Definition get_oracle_price (symbol : Name) (max_price_age_sec : Z) (max_price_error : f64) : Client f64 :=
  '(oracle_type, oracle_account) <-! get_oracle symbol ;;
  match oracle_type with
  | Unsupported => st_bail (ValueError [Text "Oracle for "; Str symbol; Text " is not configured"])
  | Chainlink => st_bail (ValueError [Text "Unsupported oracle type"])
  | Pyth =>
      account <-! initialized oracle_account ;;
      pyth_price_data <-! rpc (get_account_data account) ;;
      match load_price pyth_price_data with
      | Err e => st_bail (PythError e)
      | Ok pyth_price =>
          if negb pyth_price.(trading) || negb pyth_price.(is_price) then
            st_bail (ValueError [Text "Error: Pyth oracle price has invalid state"]) else
          is_stale <-! (if 0 <? max_price_age_sec then
            current_slot <-! rpc rpc_get_slot ;;
            last_update_age_sec <- price_age_sec current_slot pyth_price.(valid_slot) ;;
            st_ok (max_price_age_sec <? last_update_age_sec)
          else st_ok false) ;;
          if is_stale : bool then st_bail (ValueError [Text "Error: Pyth oracle price is stale"]) else
          if (pyth_price.(agg_price) <=? 0)
             || (f64_gt max_price_error f64_zero
                 && f64_gt (f64_div (f64_of_Z pyth_price.(agg_conf)) (f64_of_Z pyth_price.(agg_price)))
                      max_price_error)
          then st_bail (ValueError [Text "Error: Pyth oracle price is out of bounds"]) else
          scale <-! packed_float (checked_powi (f64_of_Z 10) pyth_price.(expo)) ;;
          st_ok (f64_mul (f64_of_Z pyth_price.(agg_price)) scale)
      end
  end.

(** The names of a map that start with the prefix. *)
Definition count_names {T} (prefix : Name) (m : gmap (list Z) T) : Z :=
  Z.of_nat (List.length (List.filter (fun name => starts_with name prefix) (hash_iter m).*1)).

Definition get_protocol_stats (protocol : Protocol) : Client (Z * Z * Z) :=
  pools <-! get_pools ;;
  farms <-! get_farms ;;
  vaults <-! get_vaults ;;
  let prefix := protocol_id protocol ++ [dot] in
  st_ok (count_names prefix pools, count_names prefix farms, count_names prefix vaults).

Definition protocol_info (protocol : Protocol) (description link : string) (stats : Z * Z * Z)
    : ProtocolInfo.t := {|
  ProtocolInfo.protocol := protocol;
  ProtocolInfo.description := description;
  ProtocolInfo.link := link;
  ProtocolInfo.pools := stats.1.1;
  ProtocolInfo.farms := stats.1.2;
  ProtocolInfo.vaults := stats.2 |}.

Definition get_protocols : Client (list ProtocolInfo.t) :=
  raydium <-! get_protocol_stats ClientNames.Raydium ;;
  saber <-! get_protocol_stats ClientNames.Saber ;;
  orca <-! get_protocol_stats ClientNames.Orca ;;
  st_ok [protocol_info ClientNames.Raydium "Raydium protocol" "www.raydium.io" raydium;
         protocol_info ClientNames.Saber "Saber protocol" "www.saber.so" saber;
         protocol_info ClientNames.Orca "Orca protocol" "www.orca.so" orca].

Definition get_farm_token_names (farm_name : Name) : Client (Name * Name * Name) :=
  farm <-! get_farm farm_name ;;
  token_a <-! get_token_by_ref_from_cache farm.(Farm.first_reward_token_ref) ;;
  token_b <-! get_token_by_ref_from_cache farm.(Farm.second_reward_token_ref) ;;
  lp_token <-! get_token_by_ref_from_cache farm.(Farm.lp_token_ref) ;;
  st_ok (match token_a with
  | Some token =>
      token.(Token.name)
  | _ =>
      []
  end, match token_b with
  | Some token =>
      token.(Token.name)
  | _ =>
      []
  end, match lp_token with
  | Some token =>
      token.(Token.name)
  | _ =>
      []
  end).

Definition get_vault_stake_account (vault_name : Name) : Client Z :=
  vault <-! get_vault vault_name ;;
  match vault.(Vault.strategy) with
  | Vault.StakeLpCompoundRewards _ _ _ _ _ _ _ _ _ _ _ vault_stake_info _ _ _ =>
      st_ok vault_stake_info
  | _ =>
      st_panic
  end.

Definition get_pool_price_lp (pool_lp : Z) : Client f64 :=
  account <-! rpc (get_account pool_lp) ;;
  match liquidity_state account.(account_data) with
  | Err e => st_bail (ValueError [Text "Failed to unpack MarketStateLayoutV3: "; Str e])
  | Ok market =>
      token_a_balance <-! token_amount_of market.(base_vault) ;;
      token_b_balance <-! token_amount_of market.(quote_vault) ;;
      get_pool_price_raydium token_a_balance token_b_balance (market.(base_decimal) mod 256)
        (market.(quote_decimal) mod 256) market.(market_id) market.(open_orders)
  end.

End Reads.
