(* ===== verification/ClientPool.v ===== *)
(** * System and pool instructions of the farm client ([client/system_instructions.rs])

    Instructions for SOL, system accounts and token accounts. *)

From Stdlib Require Import String.
From S2P Require Import Prelude MachineInt Amounts Float64 Pack RefDB AmmInstruction VaultInstruction Token Pool Farm Vault Fund FundInstruction RefDbInstruction MainInstruction SdkAccount Multisig Cpi Oracle ClientNames Client ClientReads.

Section System.
Context `{FarmEnv}.

Definition new_instruction_create_system_account
    (wallet_address new_account_address lamports space owner : Z) : Client Instruction :=
  lamports <-! (if lamports =? 0 then
    rpc (get_minimum_balance_for_rent_exemption space)
  else
    st_ok lamports) ;;
  st_ok (create_account wallet_address new_account_address lamports space owner).

Definition new_instruction_transfer (wallet_address destination_wallet : Z) (sol_ui_amount : f64)
    : Client Instruction :=
  if wallet_address =? destination_wallet then
    st_bail (ValueError [Text "Source and destination addresses are the same"]) else
  res <- ask (get_account destination_wallet) ;;
  _ <-! (match res with
  | Ok account =>
      token_address <-! get_associated_token_address wallet_address (str "SOL") ;;
      if (negb (destination_wallet =? token_address)) && ((negb (account.(account_owner) =?
          system_program)) || (negb (bool_decide (account.(account_data) = [])))) then
        st_bail (ValueError [Text "Destination account is not a SOL wallet"]) else
      st_ok tt
  | Err _ =>
      st_ok tt
  end) ;;
  ui_amount_to_tokens_with_decimals_ <-! ui_amount_to_tokens_with_decimals sol_ui_amount 9 ;;
  st_ok (system_transfer wallet_address destination_wallet ui_amount_to_tokens_with_decimals_).

Definition new_instruction_close_system_account (wallet_address target_account_address : Z)
    : Client Instruction :=
  account_balance <-! get_account_balance wallet_address ;;
  new_instruction_transfer target_account_address wallet_address account_balance.

Definition new_instruction_create_system_account_with_seed (wallet_address base_address : Z)
    (seed : Name) (lamports space owner : Z) : Client Instruction :=
  lamports <-! (if lamports =? 0 then
    rpc (get_minimum_balance_for_rent_exemption space)
  else
    st_ok lamports) ;;
  to_pubkey <-! address_with_seed base_address seed owner ;;
  st_ok (create_account_with_seed wallet_address to_pubkey base_address seed lamports space owner).

Definition new_instruction_assign_system_account (wallet_address program_address : Z)
    : Client Instruction :=
  st_ok (assign wallet_address program_address).

Definition new_instruction_create_token_account (wallet_address : Z) (token_name : Name)
    : Client Instruction :=
  token <-! get_token token_name ;;
  st_ok (create_associated_token_account wallet_address wallet_address token.(Token.mint)).

Definition new_instruction_close_token_account (wallet_address : Z) (token_name : Name)
    : Client Instruction :=
  token_addr <-! get_associated_token_address wallet_address token_name ;;
  program (close_account spl_token_id token_addr wallet_address wallet_address).

Definition new_instruction_token_transfer (wallet_address : Z) (token_name : Name)
    (destination_wallet : Z) (ui_amount : f64) : Client Instruction :=
  res <- ask (get_account destination_wallet) ;;
  _ <-! (match res with
  | Ok account =>
      if (negb (account.(account_owner) =? system_program)) || (negb (bool_decide
          (account.(account_data) = []))) then
        st_bail (ValueError [Text "Destination account is not a SOL wallet"]) else
      st_ok tt
  | Err _ =>
      st_ok tt
  end) ;;
  token_addr <-! get_associated_token_address wallet_address token_name ;;
  destination_address <-! get_associated_token_address destination_wallet token_name ;;
  amount <-! ui_amount_to_tokens ui_amount token_name ;;
  program (transfer spl_token_id token_addr destination_address wallet_address amount).

Definition new_instruction_sync_token_balance (wallet_address : Z) (token_name : Name)
    : Client Instruction :=
  token_addr <-! get_associated_token_address wallet_address token_name ;;
  program (sync_native spl_token_id token_addr).

End System.

(** * Pool instructions of the farm client ([client/pool_instructions.rs], [pool_accounts_raydium.rs], [pool_accounts_orca.rs])

    The accounts and data of the instructions for a liquidity pool, in the order in
    which the router programs expect them. *)

Section Pools.
Context `{FarmEnv}.

Definition new_instruction_wrap_token (wallet_address : Z) (pool_name : Name)
    (token_to_wrap : TokenSelector) (ui_amount : f64) : Client Instruction :=
  pool <-! get_pool pool_name ;;
  token <-! (if bool_decide (token_to_wrap = TokenA) then
    get_token_by_ref_from_cache pool.(Pool.token_a_ref)
  else
    get_token_by_ref_from_cache pool.(Pool.token_b_ref)) ;;
  amount <-! to_token_amount_option ui_amount token ;;
  data <-! packed (AmmInstruction.to_vec (AmmInstruction.WrapToken amount)) ;;
  st_panic.

Definition new_instruction_unwrap_token (wallet_address : Z) (pool_name : Name)
    (token_to_unwrap : TokenSelector) (ui_amount : f64) : Client Instruction :=
  pool <-! get_pool pool_name ;;
  st_panic.

Definition get_add_liquidity_accounts_orca (wallet_address : Z) (pool_name : Name)
    : Client (list AccountMeta) :=
  pool <-! get_pool pool_name ;;
  token_a <-! get_token_by_ref_from_cache pool.(Pool.token_a_ref) ;;
  token_b <-! get_token_by_ref_from_cache pool.(Pool.token_b_ref) ;;
  lp_token <-! get_token_by_ref_from_cache pool.(Pool.lp_token_ref) ;;
  let user_token_a_account := get_token_account wallet_address token_a in
  let user_token_b_account := get_token_account wallet_address token_b in
  let user_lp_token_account := get_token_account wallet_address lp_token in
  match pool.(Pool.route) with
  | Pool.Orca amm_id amm_authority _ =>
      user_token_a_account2 <-! initialized user_token_a_account ;;
      user_token_b_account2 <-! initialized user_token_b_account ;;
      user_lp_token_account2 <-! initialized user_lp_token_account ;;
      token_a_account <-! initialized pool.(Pool.token_a_account) ;;
      token_b_account <-! initialized pool.(Pool.token_b_account) ;;
      lp_token2 <-! initialized lp_token ;;
      st_ok [signer wallet_address; writable user_token_a_account2; writable user_token_b_account2;
          writable user_lp_token_account2; readonly pool.(Pool.pool_program_id);
          writable token_a_account; writable token_b_account; writable lp_token2.(Token.mint);
          readonly spl_token_id; readonly amm_id; readonly amm_authority]
  | _ =>
      st_ok []
  end.

Definition get_add_liquidity_accounts_raydium (wallet_address : Z) (pool_name : Name)
    : Client (list AccountMeta) :=
  pool <-! get_pool pool_name ;;
  token_a <-! get_token_by_ref_from_cache pool.(Pool.token_a_ref) ;;
  token_b <-! get_token_by_ref_from_cache pool.(Pool.token_b_ref) ;;
  lp_token <-! get_token_by_ref_from_cache pool.(Pool.lp_token_ref) ;;
  let user_token_a_account := get_token_account wallet_address token_a in
  let user_token_b_account := get_token_account wallet_address token_b in
  let user_lp_token_account := get_token_account wallet_address lp_token in
  match pool.(Pool.route) with
  | Pool.Raydium amm_id amm_authority amm_open_orders amm_target _ _ _ serum_market _ _ _ _ _ _ =>
      user_token_a_account2 <-! initialized user_token_a_account ;;
      user_token_b_account2 <-! initialized user_token_b_account ;;
      user_lp_token_account2 <-! initialized user_lp_token_account ;;
      token_a_account <-! initialized pool.(Pool.token_a_account) ;;
      token_b_account <-! initialized pool.(Pool.token_b_account) ;;
      lp_token2 <-! initialized lp_token ;;
      st_ok [signer wallet_address; writable user_token_a_account2; writable user_token_b_account2;
          writable user_lp_token_account2; readonly pool.(Pool.pool_program_id);
          writable token_a_account; writable token_b_account; writable lp_token2.(Token.mint);
          readonly spl_token_id; writable amm_id; readonly amm_authority; readonly amm_open_orders;
          writable amm_target; readonly serum_market]
  | _ =>
      st_ok []
  end.

Definition new_instruction_add_liquidity_pool (wallet_address : Z) (pool_name : Name)
    (max_token_a_ui_amount max_token_b_ui_amount : f64) : Client Instruction :=
  pool <-! get_pool pool_name ;;
  token_a <-! get_token_by_ref_from_cache pool.(Pool.token_a_ref) ;;
  token_b <-! get_token_by_ref_from_cache pool.(Pool.token_b_ref) ;;
  max_token_a_amount <-! to_token_amount_option max_token_a_ui_amount token_a ;;
  max_token_b_amount <-! to_token_amount_option max_token_b_ui_amount token_b ;;
  data <-! packed (AmmInstruction.to_vec (AmmInstruction.AddLiquidity max_token_a_amount
      max_token_b_amount)) ;;
  accounts <-! (match pool.(Pool.route) with
  | Pool.Raydium _ _ _ _ _ _ _ _ _ _ _ _ _ _ =>
      get_add_liquidity_accounts_raydium wallet_address pool_name
  | Pool.Orca _ _ _ =>
      get_add_liquidity_accounts_orca wallet_address pool_name
  end) ;;
  st_ok {| Cpi.program_id := pool.(Pool.router_program_id); Cpi.accounts := accounts; Cpi.data :=
      data |}.

Definition get_remove_liquidity_accounts_orca (wallet_address : Z) (pool_name : Name)
    : Client (list AccountMeta) :=
  pool <-! get_pool pool_name ;;
  token_a <-! get_token_by_ref_from_cache pool.(Pool.token_a_ref) ;;
  token_b <-! get_token_by_ref_from_cache pool.(Pool.token_b_ref) ;;
  lp_token <-! get_token_by_ref_from_cache pool.(Pool.lp_token_ref) ;;
  let user_token_a_account := get_token_account wallet_address token_a in
  let user_token_b_account := get_token_account wallet_address token_b in
  let user_lp_token_account := get_token_account wallet_address lp_token in
  match pool.(Pool.route) with
  | Pool.Orca amm_id amm_authority fees_account =>
      user_token_a_account2 <-! initialized user_token_a_account ;;
      user_token_b_account2 <-! initialized user_token_b_account ;;
      user_lp_token_account2 <-! initialized user_lp_token_account ;;
      token_a_account <-! initialized pool.(Pool.token_a_account) ;;
      token_b_account <-! initialized pool.(Pool.token_b_account) ;;
      lp_token2 <-! initialized lp_token ;;
      st_ok [signer wallet_address; writable user_token_a_account2; writable user_token_b_account2;
          writable user_lp_token_account2; readonly pool.(Pool.pool_program_id);
          writable token_a_account; writable token_b_account; writable lp_token2.(Token.mint);
          readonly spl_token_id; readonly amm_id; readonly amm_authority; writable fees_account]
  | _ =>
      st_ok []
  end.

Definition get_remove_liquidity_accounts_raydium (wallet_address : Z) (pool_name : Name)
    : Client (list AccountMeta) :=
  pool <-! get_pool pool_name ;;
  token_a <-! get_token_by_ref_from_cache pool.(Pool.token_a_ref) ;;
  token_b <-! get_token_by_ref_from_cache pool.(Pool.token_b_ref) ;;
  lp_token <-! get_token_by_ref_from_cache pool.(Pool.lp_token_ref) ;;
  let user_token_a_account := get_token_account wallet_address token_a in
  let user_token_b_account := get_token_account wallet_address token_b in
  let user_lp_token_account := get_token_account wallet_address lp_token in
  match pool.(Pool.route) with
  | Pool.Raydium amm_id amm_authority amm_open_orders amm_target pool_withdraw_queue
      pool_temp_lp_token_account serum_program_id serum_market serum_coin_vault_account
      serum_pc_vault_account serum_vault_signer serum_bids serum_asks serum_event_queue =>
      user_token_a_account2 <-! initialized user_token_a_account ;;
      user_token_b_account2 <-! initialized user_token_b_account ;;
      user_lp_token_account2 <-! initialized user_lp_token_account ;;
      token_a_account <-! initialized pool.(Pool.token_a_account) ;;
      token_b_account <-! initialized pool.(Pool.token_b_account) ;;
      lp_token2 <-! initialized lp_token ;;
      serum_bids <-! initialized serum_bids ;;
      serum_asks <-! initialized serum_asks ;;
      serum_event_queue <-! initialized serum_event_queue ;;
      st_ok [signer wallet_address; writable user_token_a_account2; writable user_token_b_account2;
          writable user_lp_token_account2; readonly pool.(Pool.pool_program_id);
          writable pool_withdraw_queue; writable pool_temp_lp_token_account;
          writable token_a_account; writable token_b_account; writable lp_token2.(Token.mint);
          readonly spl_token_id; writable amm_id; readonly amm_authority; writable amm_open_orders;
          writable amm_target; writable serum_market; readonly serum_program_id;
          writable serum_bids; writable serum_asks; writable serum_event_queue;
          writable serum_coin_vault_account; writable serum_pc_vault_account;
          readonly serum_vault_signer]
  | _ =>
      st_ok []
  end.

Definition new_instruction_remove_liquidity_pool (wallet_address : Z) (pool_name : Name)
    (ui_amount : f64) : Client Instruction :=
  pool <-! get_pool pool_name ;;
  lp_token <-! get_token_by_ref_from_cache pool.(Pool.lp_token_ref) ;;
  amount <-! to_token_amount_option ui_amount lp_token ;;
  data <-! packed (AmmInstruction.to_vec (AmmInstruction.RemoveLiquidity amount)) ;;
  accounts <-! (match pool.(Pool.route) with
  | Pool.Raydium _ _ _ _ _ _ _ _ _ _ _ _ _ _ =>
      get_remove_liquidity_accounts_raydium wallet_address pool_name
  | Pool.Orca _ _ _ =>
      get_remove_liquidity_accounts_orca wallet_address pool_name
  end) ;;
  st_ok {| Cpi.program_id := pool.(Pool.router_program_id); Cpi.accounts := accounts; Cpi.data :=
      data |}.

Definition get_swap_accounts_orca (wallet_address : Z) (pool_name : Name)
    : Client (list AccountMeta) :=
  pool <-! get_pool pool_name ;;
  token_a <-! get_token_by_ref_from_cache pool.(Pool.token_a_ref) ;;
  token_b <-! get_token_by_ref_from_cache pool.(Pool.token_b_ref) ;;
  lp_token <-! get_token_by_ref_from_cache pool.(Pool.lp_token_ref) ;;
  let user_token_a_account := get_token_account wallet_address token_a in
  let user_token_b_account := get_token_account wallet_address token_b in
  match pool.(Pool.route) with
  | Pool.Orca amm_id amm_authority fees_account =>
      user_token_a_account2 <-! initialized user_token_a_account ;;
      user_token_b_account2 <-! initialized user_token_b_account ;;
      token_a_account <-! initialized pool.(Pool.token_a_account) ;;
      token_b_account <-! initialized pool.(Pool.token_b_account) ;;
      lp_token2 <-! initialized lp_token ;;
      st_ok [signer wallet_address; writable user_token_a_account2; writable user_token_b_account2;
          readonly pool.(Pool.pool_program_id); writable token_a_account; writable token_b_account;
          writable lp_token2.(Token.mint); readonly spl_token_id; readonly amm_id;
          readonly amm_authority; writable fees_account]
  | _ =>
      st_ok []
  end.

Definition get_swap_accounts_raydium (wallet_address : Z) (pool_name : Name)
    : Client (list AccountMeta) :=
  pool <-! get_pool pool_name ;;
  token_a <-! get_token_by_ref_from_cache pool.(Pool.token_a_ref) ;;
  token_b <-! get_token_by_ref_from_cache pool.(Pool.token_b_ref) ;;
  let user_token_a_account := get_token_account wallet_address token_a in
  let user_token_b_account := get_token_account wallet_address token_b in
  match pool.(Pool.route) with
  | Pool.Raydium amm_id amm_authority amm_open_orders amm_target _ _ serum_program_id serum_market
      serum_coin_vault_account serum_pc_vault_account serum_vault_signer serum_bids serum_asks
      serum_event_queue =>
      user_token_a_account2 <-! initialized user_token_a_account ;;
      user_token_b_account2 <-! initialized user_token_b_account ;;
      token_a_account <-! initialized pool.(Pool.token_a_account) ;;
      token_b_account <-! initialized pool.(Pool.token_b_account) ;;
      serum_bids <-! initialized serum_bids ;;
      serum_asks <-! initialized serum_asks ;;
      serum_event_queue <-! initialized serum_event_queue ;;
      st_ok [signer wallet_address; writable user_token_a_account2; writable user_token_b_account2;
          readonly pool.(Pool.pool_program_id); writable token_a_account; writable token_b_account;
          readonly spl_token_id; writable amm_id; readonly amm_authority; writable amm_open_orders;
          writable amm_target; writable serum_market; readonly serum_program_id;
          writable serum_bids; writable serum_asks; writable serum_event_queue;
          writable serum_coin_vault_account; writable serum_pc_vault_account;
          readonly serum_vault_signer]
  | _ =>
      st_ok []
  end.

Definition new_instruction_swap (wallet_address : Z) (protocol : Protocol)
    (from_token to_token : Name) (ui_amount_in min_ui_amount_out : f64) : Client Instruction :=
  find_pools_ <-! find_pools protocol from_token to_token ;;
  pool <- st_unwrap (find_pools_ !! 0%nat) ;;
  reverse <-! pool_has_reverse_tokens pool.(Pool.name) from_token ;;
  token_a <-! get_token_by_ref_from_cache pool.(Pool.token_a_ref) ;;
  token_b <-! get_token_by_ref_from_cache pool.(Pool.token_b_ref) ;;
  max_amount_in <-! (if reverse then
    to_token_amount_option ui_amount_in token_b
  else
    to_token_amount_option ui_amount_in token_a) ;;
  min_amount_out <-! (if reverse then
    to_token_amount_option min_ui_amount_out token_a
  else
    to_token_amount_option min_ui_amount_out token_b) ;;
  data <-! packed (AmmInstruction.to_vec (if reverse then
    AmmInstruction.Swap 0 max_amount_in min_amount_out
  else
    AmmInstruction.Swap max_amount_in 0 min_amount_out)) ;;
  accounts <-! (match pool.(Pool.route) with
  | Pool.Raydium _ _ _ _ _ _ _ _ _ _ _ _ _ _ =>
      get_swap_accounts_raydium wallet_address pool.(Pool.name)
  | Pool.Orca _ _ _ =>
      get_swap_accounts_orca wallet_address pool.(Pool.name)
  end) ;;
  st_ok {| Cpi.program_id := pool.(Pool.router_program_id); Cpi.accounts := accounts; Cpi.data :=
      data |}.

End Pools.
