(* ===== verification/ClientFarm.v ===== *)
(** * Farm instructions of the farm client ([client/farm_instructions.rs], [farm_accounts_raydium.rs], [farm_accounts_orca.rs])

    The accounts and data of the instructions for a yield farm. *)

From Stdlib Require Import String.
From S2P Require Import Prelude MachineInt Float64 Amounts Pack RefDB AmmInstruction VaultInstruction Token Pool Farm Vault Fund FundInstruction RefDbInstruction MainInstruction SdkAccount Multisig Cpi Oracle ClientNames Client ClientReads ClientPool.

Section Farms.
Context `{FarmEnv}.

Definition get_user_init_accounts_orca (wallet_address : Z) (farm_name : Name)
    : Client (list AccountMeta) :=
  farm <-! get_farm farm_name ;;
  farm_id <- (match farm.(Farm.route) with
  | Farm.Orca farm_id _ _ _ _ =>
      st_ret farm_id
  | _ =>
      st_panic
  end) ;;
  let farmer := fst (find_program_address [key_bytes farm_id; key_bytes wallet_address; key_bytes
      spl_token_id] farm.(Farm.farm_program_id)) in
  st_ok [writable_signer wallet_address; readonly wallet_address; writable farmer; readonly farm_id;
      readonly farm.(Farm.farm_program_id); readonly system_program].

Definition get_user_init_accounts_raydium (wallet_address : Z) (farm_name : Name)
    : Client (list AccountMeta) :=
  farm <-! get_farm farm_name ;;
  farm_metadata <-! get_farm_ref farm_name ;;
  farm_id <- (match farm.(Farm.route) with
  | Farm.Raydium farm_id _ _ _ _ =>
      st_ret farm_id
  | _ =>
      st_panic
  end) ;;
  let farmer := fst (find_program_address [str "Miner"; key_bytes farm_id; key_bytes wallet_address]
      farm.(Farm.router_program_id)) in
  st_ok [writable_signer wallet_address; readonly wallet_address; writable farmer;
      readonly farm_metadata; readonly system_program].

Definition new_instruction_user_init (wallet_address : Z) (farm_name : Name) : Client Instruction :=
  farm <-! get_farm farm_name ;;
  data <-! packed (AmmInstruction.to_vec AmmInstruction.UserInit) ;;
  accounts <-! (match farm.(Farm.route) with
  | Farm.Raydium _ _ _ _ _ =>
      get_user_init_accounts_raydium wallet_address farm_name
  | Farm.Orca _ _ _ _ _ =>
      get_user_init_accounts_orca wallet_address farm_name
  end) ;;
  st_ok {| Cpi.program_id := farm.(Farm.router_program_id); Cpi.accounts := accounts; Cpi.data :=
      data |}.

Definition get_stake_accounts_orca (wallet_address : Z) (farm_name : Name)
    : Client (list AccountMeta) :=
  farm <-! get_farm farm_name ;;
  token_a <-! get_token_by_ref_from_cache farm.(Farm.first_reward_token_ref) ;;
  lp_token <-! get_token_by_ref_from_cache farm.(Farm.lp_token_ref) ;;
  let user_reward_token_account := get_token_account wallet_address token_a in
  let user_lp_token_account := get_token_account wallet_address lp_token in
  match farm.(Farm.route) with
  | Farm.Orca farm_id farm_authority farm_token_ref base_token_vault reward_token_vault =>
      user_info_account <-! get_stake_account wallet_address farm_name ;;
      farm_lp_token <-! get_token_by_ref_from_cache (Some farm_token_ref) ;;
      let user_farm_lp_token_account := get_token_account wallet_address farm_lp_token in
      user_lp_token_account2 <-! initialized user_lp_token_account ;;
      user_reward_token_account2 <-! initialized user_reward_token_account ;;
      user_farm_lp_token_account2 <-! initialized user_farm_lp_token_account ;;
      farm_lp_token2 <-! initialized farm_lp_token ;;
      st_ok [signer wallet_address; writable user_info_account; writable user_lp_token_account2;
          writable user_reward_token_account2; writable user_farm_lp_token_account2;
          writable farm_lp_token2.(Token.mint); readonly farm.(Farm.farm_program_id);
          writable base_token_vault; writable reward_token_vault; readonly spl_token_id;
          writable farm_id; readonly farm_authority]
  | _ =>
      st_ok []
  end.

Definition get_stake_accounts_raydium (wallet_address : Z) (farm_name : Name)
    : Client (list AccountMeta) :=
  farm <-! get_farm farm_name ;;
  token_a <-! get_token_by_ref_from_cache farm.(Farm.first_reward_token_ref) ;;
  token_b <-! get_token_by_ref_from_cache farm.(Farm.second_reward_token_ref) ;;
  lp_token <-! get_token_by_ref_from_cache farm.(Farm.lp_token_ref) ;;
  let user_first_reward_token_account := get_token_account wallet_address token_a in
  let user_second_reward_token_account := get_token_account wallet_address token_b in
  let user_lp_token_account := get_token_account wallet_address lp_token in
  match farm.(Farm.route) with
  | Farm.Raydium farm_id farm_authority farm_lp_token_account farm_first_reward_token_account
      farm_second_reward_token_account =>
      user_info_account <-! get_stake_account wallet_address farm_name ;;
      user_lp_token_account2 <-! initialized user_lp_token_account ;;
      user_first_reward_token_account2 <-! initialized user_first_reward_token_account ;;
      st_ok [signer wallet_address; writable user_info_account; writable user_lp_token_account2;
          writable user_first_reward_token_account2;
          writable (default zero_id user_second_reward_token_account);
          readonly farm.(Farm.farm_program_id); writable farm_lp_token_account;
          writable farm_first_reward_token_account;
          writable (default zero_id farm_second_reward_token_account); readonly clock_sysvar;
          readonly spl_token_id; writable farm_id; readonly farm_authority]
  | _ =>
      st_ok []
  end.

Definition new_instruction_stake (wallet_address : Z) (farm_name : Name) (ui_amount : f64)
    : Client Instruction :=
  farm <-! get_farm farm_name ;;
  lp_token <-! get_token_by_ref_from_cache farm.(Farm.lp_token_ref) ;;
  amount <-! to_token_amount_option ui_amount lp_token ;;
  data <-! packed (AmmInstruction.to_vec (AmmInstruction.Stake amount)) ;;
  accounts <-! (match farm.(Farm.route) with
  | Farm.Raydium _ _ _ _ _ =>
      get_stake_accounts_raydium wallet_address farm_name
  | Farm.Orca _ _ _ _ _ =>
      get_stake_accounts_orca wallet_address farm_name
  end) ;;
  st_ok {| Cpi.program_id := farm.(Farm.router_program_id); Cpi.accounts := accounts; Cpi.data :=
      data |}.

Definition get_unstake_accounts_orca (wallet_address : Z) (farm_name : Name)
    : Client (list AccountMeta) :=
  farm <-! get_farm farm_name ;;
  token_a <-! get_token_by_ref_from_cache farm.(Farm.first_reward_token_ref) ;;
  lp_token <-! get_token_by_ref_from_cache farm.(Farm.lp_token_ref) ;;
  let user_reward_token_account := get_token_account wallet_address token_a in
  let user_lp_token_account := get_token_account wallet_address lp_token in
  match farm.(Farm.route) with
  | Farm.Orca farm_id farm_authority farm_token_ref base_token_vault reward_token_vault =>
      user_info_account <-! get_stake_account wallet_address farm_name ;;
      farm_lp_token <-! get_token_by_ref_from_cache (Some farm_token_ref) ;;
      let user_farm_lp_token_account := get_token_account wallet_address farm_lp_token in
      user_lp_token_account2 <-! initialized user_lp_token_account ;;
      user_reward_token_account2 <-! initialized user_reward_token_account ;;
      user_farm_lp_token_account2 <-! initialized user_farm_lp_token_account ;;
      farm_lp_token2 <-! initialized farm_lp_token ;;
      st_ok [signer wallet_address; writable user_info_account; writable user_lp_token_account2;
          writable user_reward_token_account2; writable user_farm_lp_token_account2;
          writable farm_lp_token2.(Token.mint); readonly farm.(Farm.farm_program_id);
          writable base_token_vault; writable reward_token_vault; readonly spl_token_id;
          writable farm_id; readonly farm_authority]
  | _ =>
      st_ok []
  end.

Definition get_unstake_accounts_raydium (wallet_address : Z) (farm_name : Name)
    : Client (list AccountMeta) :=
  farm <-! get_farm farm_name ;;
  token_a <-! get_token_by_ref_from_cache farm.(Farm.first_reward_token_ref) ;;
  token_b <-! get_token_by_ref_from_cache farm.(Farm.second_reward_token_ref) ;;
  lp_token <-! get_token_by_ref_from_cache farm.(Farm.lp_token_ref) ;;
  let user_first_reward_token_account := get_token_account wallet_address token_a in
  let user_second_reward_token_account := get_token_account wallet_address token_b in
  let user_lp_token_account := get_token_account wallet_address lp_token in
  match farm.(Farm.route) with
  | Farm.Raydium farm_id farm_authority farm_lp_token_account farm_first_reward_token_account
      farm_second_reward_token_account =>
      user_info_account <-! get_stake_account wallet_address farm_name ;;
      user_lp_token_account2 <-! initialized user_lp_token_account ;;
      user_first_reward_token_account2 <-! initialized user_first_reward_token_account ;;
      st_ok [signer wallet_address; writable user_info_account; writable user_lp_token_account2;
          writable user_first_reward_token_account2;
          writable (default zero_id user_second_reward_token_account);
          readonly farm.(Farm.farm_program_id); writable farm_lp_token_account;
          writable farm_first_reward_token_account;
          writable (default zero_id farm_second_reward_token_account); readonly clock_sysvar;
          readonly spl_token_id; writable farm_id; readonly farm_authority]
  | _ =>
      st_ok []
  end.

Definition new_instruction_unstake (wallet_address : Z) (farm_name : Name) (ui_amount : f64)
    : Client Instruction :=
  farm <-! get_farm farm_name ;;
  lp_token <-! get_token_by_ref_from_cache farm.(Farm.lp_token_ref) ;;
  amount <-! to_token_amount_option ui_amount lp_token ;;
  data <-! packed (AmmInstruction.to_vec (AmmInstruction.Unstake amount)) ;;
  accounts <-! (match farm.(Farm.route) with
  | Farm.Raydium _ _ _ _ _ =>
      get_unstake_accounts_raydium wallet_address farm_name
  | Farm.Orca _ _ _ _ _ =>
      get_unstake_accounts_orca wallet_address farm_name
  end) ;;
  st_ok {| Cpi.program_id := farm.(Farm.router_program_id); Cpi.accounts := accounts; Cpi.data :=
      data |}.

Definition get_harvest_accounts_orca (wallet_address : Z) (farm_name : Name)
    : Client (list AccountMeta) :=
  farm <-! get_farm farm_name ;;
  token_a <-! get_token_by_ref_from_cache farm.(Farm.first_reward_token_ref) ;;
  let user_reward_token_account := get_token_account wallet_address token_a in
  match farm.(Farm.route) with
  | Farm.Orca farm_id farm_authority _ base_token_vault reward_token_vault =>
      user_info_account <-! get_stake_account wallet_address farm_name ;;
      user_reward_token_account2 <-! initialized user_reward_token_account ;;
      st_ok [signer wallet_address; writable user_info_account; writable user_reward_token_account2;
          readonly farm.(Farm.farm_program_id); writable base_token_vault;
          writable reward_token_vault; readonly spl_token_id; writable farm_id;
          readonly farm_authority]
  | _ =>
      st_ok []
  end.

Definition get_harvest_accounts_raydium (wallet_address : Z) (farm_name : Name)
    : Client (list AccountMeta) :=
  get_stake_accounts_raydium wallet_address farm_name.

Definition new_instruction_harvest (wallet_address : Z) (farm_name : Name) : Client Instruction :=
  farm <-! get_farm farm_name ;;
  data <-! packed (AmmInstruction.to_vec AmmInstruction.Harvest) ;;
  accounts <-! (match farm.(Farm.route) with
  | Farm.Raydium _ _ _ _ _ =>
      get_harvest_accounts_raydium wallet_address farm_name
  | Farm.Orca _ _ _ _ _ =>
      get_harvest_accounts_orca wallet_address farm_name
  end) ;;
  st_ok {| Cpi.program_id := farm.(Farm.router_program_id); Cpi.accounts := accounts; Cpi.data :=
      data |}.

End Farms.
