(* ===== verification/ClientVault.v ===== *)
(** * Vault instructions of the farm client ([client/vault_instructions.rs], [vault_stc_accounts_raydium.rs], [vault_stc_accounts_orca.rs])

    The accounts and data of the instructions for a vault: of its users, of the
    cranks and of its administrators. *)

From Stdlib Require Import String.
From S2P Require Import Prelude MachineInt Float64 Amounts Pack RefDB AmmInstruction VaultInstruction Token Pool Farm Vault Fund FundInstruction RefDbInstruction MainInstruction SdkAccount Multisig Cpi Oracle ClientNames Client ClientReads ClientPool.

Section Vaults.
Context `{FarmEnv}.

Definition new_instruction_set_vault_admins (admin_address : Z) (vault_name : Name)
    (admin_signers : (list Z)) (min_signatures : Z) : Client Instruction :=
  if (bool_decide (admin_signers = [])) || (min_signatures =? 0) then
    st_bail (ValueError [Text "At least one signer is required"]) else
  if ((Z.of_nat (List.length admin_signers)) <? min_signatures) || ((Z.of_nat Multisig.MAX_SIGNERS)
      <? (Z.of_nat (List.length admin_signers))) then
    st_bail (ValueError [Text "Invalid number of signatures"]) else
  vault <-! get_vault vault_name ;;
  vault_ref <-! get_vault_ref vault_name ;;
  data <-! packed (VaultInstruction.to_vec (VaultInstruction.SetAdminSigners min_signatures)) ;;
  active <-! get_vault_active_multisig_account vault_name ;;
  vault_multisig_account <-! get_vault_multisig_account vault_name ;;
  let inst := {| Cpi.program_id := vault.(Vault.vault_program_id); Cpi.accounts :=
      [signer admin_address; readonly vault_ref; writable vault.(Vault.info_account);
      writable active; writable vault_multisig_account; readonly system_program]; Cpi.data := data
      |} in
  let inst := fold_left (fun inst key =>
      push_account (readonly key) inst) admin_signers inst in
  st_ok inst.

Definition new_instruction_remove_vault_multisig (admin_address : Z) (vault_name : Name)
    : Client Instruction :=
  vault <-! get_vault vault_name ;;
  vault_ref <-! get_vault_ref vault_name ;;
  data <-! packed (VaultInstruction.to_vec VaultInstruction.RemoveMultisig) ;;
  active <-! get_vault_active_multisig_account vault_name ;;
  vault_multisig_account <-! get_vault_multisig_account vault_name ;;
  st_ok {| Cpi.program_id := vault.(Vault.vault_program_id); Cpi.accounts := [signer admin_address;
      readonly vault_ref; writable vault.(Vault.info_account); writable active;
      writable vault_multisig_account]; Cpi.data := data |}.

Definition get_stc_user_init_accounts_orca (wallet_address : Z) (vault_name : Name)
    : Client ((list AccountMeta) * (list Z)) :=
  vault <-! get_vault vault_name ;;
  vault_ref <-! get_vault_ref vault_name ;;
  data <-! packed (VaultInstruction.to_vec VaultInstruction.UserInit) ;;
  vault_user_info_account <-! get_vault_user_info_account wallet_address vault_name ;;
  let accounts := [writable_signer wallet_address; readonly vault_ref;
      writable vault.(Vault.info_account); readonly wallet_address;
      writable vault_user_info_account; readonly system_program] in
  st_ok (accounts, data).

Definition get_stc_user_init_accounts_raydium (wallet_address : Z) (vault_name : Name)
    : Client ((list AccountMeta) * (list Z)) :=
  vault <-! get_vault vault_name ;;
  vault_ref <-! get_vault_ref vault_name ;;
  data <-! packed (VaultInstruction.to_vec VaultInstruction.UserInit) ;;
  vault_user_info_account <-! get_vault_user_info_account wallet_address vault_name ;;
  let accounts := [writable_signer wallet_address; readonly vault_ref;
      writable vault.(Vault.info_account); readonly wallet_address;
      writable vault_user_info_account; readonly system_program] in
  st_ok (accounts, data).

Definition new_instruction_user_init_vault (wallet_address : Z) (vault_name : Name)
    : Client Instruction :=
  vault <-! get_vault vault_name ;;
  '(accounts, data) <-! match vault.(Vault.strategy) with
  | Vault.StakeLpCompoundRewards _ _ pool_ref _ _ _ _ _ _ _ _ _ _ _ _ =>
      pool <-! get_pool_by_ref pool_ref ;;
      match pool.(Pool.route) with
      | Pool.Raydium _ _ _ _ _ _ _ _ _ _ _ _ _ _ =>
          get_stc_user_init_accounts_raydium wallet_address vault_name
      | Pool.Orca _ _ _ =>
          get_stc_user_init_accounts_orca wallet_address vault_name
      end
  | _ =>
      st_panic
  end ;;
  st_ok {| Cpi.program_id := vault.(Vault.vault_program_id); Cpi.accounts := accounts; Cpi.data :=
      data |}.

Definition get_stc_add_liquidity_accounts_orca (wallet_address : Z) (vault_name : Name)
    (max_token_a_ui_amount max_token_b_ui_amount : f64) : Client ((list AccountMeta) * (list Z)) :=
  vault <-! get_vault vault_name ;;
  vault_ref <-! get_vault_ref vault_name ;;
  let accounts := [signer wallet_address] in
  vault_user_info_account <-! get_vault_user_info_account wallet_address vault_name ;;
  let accounts := accounts ++ [readonly vault_ref; writable vault.(Vault.info_account);
      readonly spl_token_id; writable vault_user_info_account] in
  match vault.(Vault.strategy) with
  | Vault.StakeLpCompoundRewards _ _ pool_ref _ _ farm_ref lp_token_custody _ _ _ _ _ _ _ _ =>
      pool <-! get_pool_by_ref pool_ref ;;
      farm <-! get_farm_by_ref farm_ref ;;
      token_a <-! get_token_by_ref_from_cache pool.(Pool.token_a_ref) ;;
      token_b <-! get_token_by_ref_from_cache pool.(Pool.token_b_ref) ;;
      lp_token <-! get_token_by_ref_from_cache pool.(Pool.lp_token_ref) ;;
      farm_token <-! get_token_by_ref_from_cache farm.(Farm.lp_token_ref) ;;
      st_assert (bool_decide (farm_token = lp_token)) ;;;
      let user_token_a_account := get_token_account wallet_address token_a in
      let user_token_b_account := get_token_account wallet_address token_b in
      let user_lp_token_account := get_token_account wallet_address lp_token in
      accounts <-! (match pool.(Pool.route) with
      | Pool.Orca amm_id amm_authority _ =>
          user_token_a_account2 <-! initialized user_token_a_account ;;
          user_token_b_account2 <-! initialized user_token_b_account ;;
          user_lp_token_account2 <-! initialized user_lp_token_account ;;
          token_a_account <-! initialized pool.(Pool.token_a_account) ;;
          token_b_account <-! initialized pool.(Pool.token_b_account) ;;
          lp_token2 <-! initialized lp_token ;;
          st_ok (accounts ++ [writable user_token_a_account2; writable user_token_b_account2;
              writable user_lp_token_account2; writable lp_token_custody;
              readonly pool.(Pool.pool_program_id); writable token_a_account;
              writable token_b_account; writable lp_token2.(Token.mint); writable amm_id;
              readonly amm_authority])
      | _ =>
          st_panic
      end) ;;
      max_token_a_amount <-! to_token_amount_option max_token_a_ui_amount token_a ;;
      max_token_b_amount <-! to_token_amount_option max_token_b_ui_amount token_b ;;
      data <-! packed (VaultInstruction.to_vec (VaultInstruction.AddLiquidity max_token_a_amount
          max_token_b_amount)) ;;
      st_ok (accounts, data)
  | Vault.DynamicHedge =>
      st_panic
  end.

Definition get_stc_add_liquidity_accounts_raydium (wallet_address : Z) (vault_name : Name)
    (max_token_a_ui_amount max_token_b_ui_amount : f64) : Client ((list AccountMeta) * (list Z)) :=
  vault <-! get_vault vault_name ;;
  vault_ref <-! get_vault_ref vault_name ;;
  let accounts := [signer wallet_address] in
  vault_user_info_account <-! get_vault_user_info_account wallet_address vault_name ;;
  let accounts := accounts ++ [readonly vault_ref; writable vault.(Vault.info_account);
      readonly spl_token_id; writable vault_user_info_account] in
  match vault.(Vault.strategy) with
  | Vault.StakeLpCompoundRewards _ _ pool_ref _ _ farm_ref lp_token_custody _ _ _ _ _ _ _ _ =>
      pool <-! get_pool_by_ref pool_ref ;;
      farm <-! get_farm_by_ref farm_ref ;;
      token_a <-! get_token_by_ref_from_cache pool.(Pool.token_a_ref) ;;
      token_b <-! get_token_by_ref_from_cache pool.(Pool.token_b_ref) ;;
      lp_token <-! get_token_by_ref_from_cache pool.(Pool.lp_token_ref) ;;
      farm_token <-! get_token_by_ref_from_cache farm.(Farm.lp_token_ref) ;;
      st_assert (bool_decide (farm_token = lp_token)) ;;;
      let user_token_a_account := get_token_account wallet_address token_a in
      let user_token_b_account := get_token_account wallet_address token_b in
      let user_lp_token_account := get_token_account wallet_address lp_token in
      accounts <-! (match pool.(Pool.route) with
      | Pool.Raydium amm_id amm_authority amm_open_orders amm_target _ _ _ serum_market _ _ _ _ _ _
          =>
          user_token_a_account2 <-! initialized user_token_a_account ;;
          user_token_b_account2 <-! initialized user_token_b_account ;;
          user_lp_token_account2 <-! initialized user_lp_token_account ;;
          token_a_account <-! initialized pool.(Pool.token_a_account) ;;
          token_b_account <-! initialized pool.(Pool.token_b_account) ;;
          lp_token2 <-! initialized lp_token ;;
          st_ok (accounts ++ [writable user_token_a_account2; writable user_token_b_account2;
              writable user_lp_token_account2; writable lp_token_custody;
              readonly pool.(Pool.pool_program_id); writable token_a_account;
              writable token_b_account; writable lp_token2.(Token.mint); writable amm_id;
              readonly amm_authority; readonly amm_open_orders; writable amm_target;
              readonly serum_market])
      | _ =>
          st_panic
      end) ;;
      max_token_a_amount <-! to_token_amount_option max_token_a_ui_amount token_a ;;
      max_token_b_amount <-! to_token_amount_option max_token_b_ui_amount token_b ;;
      data <-! packed (VaultInstruction.to_vec (VaultInstruction.AddLiquidity max_token_a_amount
          max_token_b_amount)) ;;
      st_ok (accounts, data)
  | Vault.DynamicHedge =>
      st_panic
  end.

Definition new_instruction_add_liquidity_vault (wallet_address : Z) (vault_name : Name)
    (max_token_a_ui_amount max_token_b_ui_amount : f64) : Client Instruction :=
  vault <-! get_vault vault_name ;;
  '(accounts, data) <-! match vault.(Vault.strategy) with
  | Vault.StakeLpCompoundRewards _ _ pool_ref _ _ _ _ _ _ _ _ _ _ _ _ =>
      pool <-! get_pool_by_ref pool_ref ;;
      match pool.(Pool.route) with
      | Pool.Raydium _ _ _ _ _ _ _ _ _ _ _ _ _ _ =>
          get_stc_add_liquidity_accounts_raydium wallet_address vault_name max_token_a_ui_amount
              max_token_b_ui_amount
      | Pool.Orca _ _ _ =>
          get_stc_add_liquidity_accounts_orca wallet_address vault_name max_token_a_ui_amount
              max_token_b_ui_amount
      end
  | _ =>
      st_panic
  end ;;
  st_ok {| Cpi.program_id := vault.(Vault.vault_program_id); Cpi.accounts := accounts; Cpi.data :=
      data |}.

Definition get_stc_lock_liquidity_accounts_orca (wallet_address : Z) (vault_name : Name)
    (ui_amount : f64) : Client ((list AccountMeta) * (list Z)) :=
  vault <-! get_vault vault_name ;;
  vault_ref <-! get_vault_ref vault_name ;;
  vault_token <-! get_token_by_ref_from_cache (Some vault.(Vault.vault_token_ref)) ;;
  let accounts := [signer wallet_address] in
  vault_token_ <- st_unwrap vault_token ;;
  vault_user_info_account <-! get_vault_user_info_account wallet_address vault_name ;;
  let accounts := accounts ++ [readonly vault_ref; writable vault.(Vault.info_account);
      readonly vault.(Vault.vault_authority); readonly spl_token_id;
      writable vault_token_.(Token.mint); writable vault_user_info_account] in
  match vault.(Vault.strategy) with
  | Vault.StakeLpCompoundRewards _ _ pool_ref _ _ farm_ref lp_token_custody _ _
      token_a_reward_custody _ vault_stake_info vault_stake_custody _ _ =>
      pool <-! get_pool_by_ref pool_ref ;;
      farm <-! get_farm_by_ref farm_ref ;;
      lp_token <-! get_token_by_ref_from_cache pool.(Pool.lp_token_ref) ;;
      farm_token <-! get_token_by_ref_from_cache farm.(Farm.lp_token_ref) ;;
      st_assert (bool_decide (farm_token = lp_token)) ;;;
      let user_vt_token_account := get_token_account wallet_address vault_token in
      user_vt_token_account2 <-! initialized user_vt_token_account ;;
      let accounts := accounts ++ [writable user_vt_token_account2; writable token_a_reward_custody;
          writable lp_token_custody] in
      accounts <-! (match farm.(Farm.route) with
      | Farm.Orca farm_id farm_authority farm_token_ref base_token_vault reward_token_vault =>
          farm_lp_token <-! get_token_by_ref_from_cache (Some farm_token_ref) ;;
          vault_stake_custody <-! initialized vault_stake_custody ;;
          farm_lp_token2 <-! initialized farm_lp_token ;;
          st_ok (accounts ++ [readonly farm.(Farm.farm_program_id); writable vault_stake_info;
              writable vault_stake_custody; writable farm_id; readonly farm_authority;
              writable farm_lp_token2.(Token.mint); writable base_token_vault;
              writable reward_token_vault])
      | _ =>
          st_panic
      end) ;;
      amount <-! to_token_amount_option ui_amount lp_token ;;
      data <-! packed (VaultInstruction.to_vec (VaultInstruction.LockLiquidity amount)) ;;
      st_ok (accounts, data)
  | Vault.DynamicHedge =>
      st_panic
  end.

Definition get_stc_lock_liquidity_accounts_raydium (wallet_address : Z) (vault_name : Name)
    (ui_amount : f64) : Client ((list AccountMeta) * (list Z)) :=
  vault <-! get_vault vault_name ;;
  vault_ref <-! get_vault_ref vault_name ;;
  vault_token <-! get_token_by_ref_from_cache (Some vault.(Vault.vault_token_ref)) ;;
  let accounts := [signer wallet_address] in
  vault_token_ <- st_unwrap vault_token ;;
  vault_user_info_account <-! get_vault_user_info_account wallet_address vault_name ;;
  let accounts := accounts ++ [readonly vault_ref; writable vault.(Vault.info_account);
      readonly vault.(Vault.vault_authority); readonly spl_token_id;
      writable vault_token_.(Token.mint); writable vault_user_info_account] in
  match vault.(Vault.strategy) with
  | Vault.StakeLpCompoundRewards _ _ pool_ref _ _ farm_ref lp_token_custody _ _
      token_a_reward_custody token_b_reward_custody vault_stake_info _ _ _ =>
      pool <-! get_pool_by_ref pool_ref ;;
      farm <-! get_farm_by_ref farm_ref ;;
      lp_token <-! get_token_by_ref_from_cache pool.(Pool.lp_token_ref) ;;
      farm_token <-! get_token_by_ref_from_cache farm.(Farm.lp_token_ref) ;;
      st_assert (bool_decide (farm_token = lp_token)) ;;;
      let user_vt_token_account := get_token_account wallet_address vault_token in
      user_vt_token_account2 <-! initialized user_vt_token_account ;;
      let accounts := accounts ++ [writable user_vt_token_account2; writable token_a_reward_custody;
          writable (default zero_id token_b_reward_custody); writable lp_token_custody] in
      accounts <-! (match farm.(Farm.route) with
      | Farm.Raydium farm_id farm_authority farm_lp_token_account farm_first_reward_token_account
          farm_second_reward_token_account =>
          st_ok (accounts ++ [readonly farm.(Farm.farm_program_id); writable vault_stake_info;
              writable farm_id; readonly farm_authority; writable farm_lp_token_account;
              writable farm_first_reward_token_account;
              writable (default zero_id farm_second_reward_token_account); readonly clock_sysvar])
      | _ =>
          st_panic
      end) ;;
      amount <-! to_token_amount_option ui_amount lp_token ;;
      data <-! packed (VaultInstruction.to_vec (VaultInstruction.LockLiquidity amount)) ;;
      st_ok (accounts, data)
  | Vault.DynamicHedge =>
      st_panic
  end.

Definition new_instruction_lock_liquidity_vault (wallet_address : Z) (vault_name : Name)
    (ui_amount : f64) : Client Instruction :=
  vault <-! get_vault vault_name ;;
  '(accounts, data) <-! match vault.(Vault.strategy) with
  | Vault.StakeLpCompoundRewards _ _ pool_ref _ _ _ _ _ _ _ _ _ _ _ _ =>
      pool <-! get_pool_by_ref pool_ref ;;
      match pool.(Pool.route) with
      | Pool.Raydium _ _ _ _ _ _ _ _ _ _ _ _ _ _ =>
          get_stc_lock_liquidity_accounts_raydium wallet_address vault_name ui_amount
      | Pool.Orca _ _ _ =>
          get_stc_lock_liquidity_accounts_orca wallet_address vault_name ui_amount
      end
  | _ =>
      st_panic
  end ;;
  st_ok {| Cpi.program_id := vault.(Vault.vault_program_id); Cpi.accounts := accounts; Cpi.data :=
      data |}.

Definition get_stc_remove_liquidity_accounts_orca (wallet_address : Z) (vault_name : Name)
    (ui_amount : f64) : Client ((list AccountMeta) * (list Z)) :=
  vault <-! get_vault vault_name ;;
  vault_ref <-! get_vault_ref vault_name ;;
  let accounts := [signer wallet_address] in
  vault_user_info_account <-! get_vault_user_info_account wallet_address vault_name ;;
  let accounts := accounts ++ [readonly vault_ref; writable vault.(Vault.info_account);
      readonly vault.(Vault.vault_authority); readonly spl_token_id;
      writable vault_user_info_account] in
  match vault.(Vault.strategy) with
  | Vault.StakeLpCompoundRewards _ _ pool_ref _ _ farm_ref lp_token_custody _ _ _ _ _ _ _ _ =>
      pool <-! get_pool_by_ref pool_ref ;;
      farm <-! get_farm_by_ref farm_ref ;;
      token_a <-! get_token_by_ref_from_cache pool.(Pool.token_a_ref) ;;
      token_b <-! get_token_by_ref_from_cache pool.(Pool.token_b_ref) ;;
      lp_token <-! get_token_by_ref_from_cache pool.(Pool.lp_token_ref) ;;
      farm_token <-! get_token_by_ref_from_cache farm.(Farm.lp_token_ref) ;;
      st_assert (bool_decide (farm_token = lp_token)) ;;;
      let user_token_a_account := get_token_account wallet_address token_a in
      let user_token_b_account := get_token_account wallet_address token_b in
      accounts <-! (match pool.(Pool.route) with
      | Pool.Orca amm_id amm_authority fees_account =>
          user_token_a_account2 <-! initialized user_token_a_account ;;
          user_token_b_account2 <-! initialized user_token_b_account ;;
          token_a_account <-! initialized pool.(Pool.token_a_account) ;;
          token_b_account <-! initialized pool.(Pool.token_b_account) ;;
          lp_token2 <-! initialized lp_token ;;
          st_ok (accounts ++ [writable user_token_a_account2; writable user_token_b_account2;
              writable lp_token_custody; readonly pool.(Pool.pool_program_id);
              writable token_a_account; writable token_b_account; writable lp_token2.(Token.mint);
              writable amm_id; readonly amm_authority; writable fees_account])
      | _ =>
          st_panic
      end) ;;
      amount <-! to_token_amount_option ui_amount lp_token ;;
      data <-! packed (VaultInstruction.to_vec (VaultInstruction.RemoveLiquidity amount)) ;;
      st_ok (accounts, data)
  | Vault.DynamicHedge =>
      st_panic
  end.

Definition get_stc_remove_liquidity_accounts_raydium (wallet_address : Z) (vault_name : Name)
    (ui_amount : f64) : Client ((list AccountMeta) * (list Z)) :=
  vault <-! get_vault vault_name ;;
  vault_ref <-! get_vault_ref vault_name ;;
  let accounts := [signer wallet_address] in
  vault_user_info_account <-! get_vault_user_info_account wallet_address vault_name ;;
  let accounts := accounts ++ [readonly vault_ref; writable vault.(Vault.info_account);
      readonly vault.(Vault.vault_authority); readonly spl_token_id;
      writable vault_user_info_account] in
  match vault.(Vault.strategy) with
  | Vault.StakeLpCompoundRewards _ _ pool_ref _ _ farm_ref lp_token_custody _ _ _ _ _ _ _ _ =>
      pool <-! get_pool_by_ref pool_ref ;;
      farm <-! get_farm_by_ref farm_ref ;;
      token_a <-! get_token_by_ref_from_cache pool.(Pool.token_a_ref) ;;
      token_b <-! get_token_by_ref_from_cache pool.(Pool.token_b_ref) ;;
      lp_token <-! get_token_by_ref_from_cache pool.(Pool.lp_token_ref) ;;
      farm_token <-! get_token_by_ref_from_cache farm.(Farm.lp_token_ref) ;;
      st_assert (bool_decide (farm_token = lp_token)) ;;;
      let user_token_a_account := get_token_account wallet_address token_a in
      let user_token_b_account := get_token_account wallet_address token_b in
      accounts <-! (match pool.(Pool.route) with
      | Pool.Raydium amm_id amm_authority amm_open_orders amm_target pool_withdraw_queue
          pool_temp_lp_token_account serum_program_id serum_market serum_coin_vault_account
          serum_pc_vault_account serum_vault_signer serum_bids serum_asks serum_event_queue =>
          user_token_a_account2 <-! initialized user_token_a_account ;;
          user_token_b_account2 <-! initialized user_token_b_account ;;
          token_a_account <-! initialized pool.(Pool.token_a_account) ;;
          token_b_account <-! initialized pool.(Pool.token_b_account) ;;
          lp_token2 <-! initialized lp_token ;;
          serum_bids <-! initialized serum_bids ;;
          serum_asks <-! initialized serum_asks ;;
          serum_event_queue <-! initialized serum_event_queue ;;
          st_ok (accounts ++ [writable user_token_a_account2; writable user_token_b_account2;
              writable lp_token_custody; readonly pool.(Pool.pool_program_id);
              writable pool_withdraw_queue; writable pool_temp_lp_token_account;
              writable token_a_account; writable token_b_account; writable lp_token2.(Token.mint);
              writable amm_id; readonly amm_authority; writable amm_open_orders;
              writable amm_target; writable serum_market; readonly serum_program_id;
              writable serum_bids; writable serum_asks; writable serum_event_queue;
              writable serum_coin_vault_account; writable serum_pc_vault_account;
              readonly serum_vault_signer])
      | _ =>
          st_panic
      end) ;;
      amount <-! to_token_amount_option ui_amount lp_token ;;
      data <-! packed (VaultInstruction.to_vec (VaultInstruction.RemoveLiquidity amount)) ;;
      st_ok (accounts, data)
  | Vault.DynamicHedge =>
      st_panic
  end.

Definition new_instruction_remove_liquidity_vault (wallet_address : Z) (vault_name : Name)
    (ui_amount : f64) : Client Instruction :=
  vault <-! get_vault vault_name ;;
  '(accounts, data) <-! match vault.(Vault.strategy) with
  | Vault.StakeLpCompoundRewards _ _ pool_ref _ _ _ _ _ _ _ _ _ _ _ _ =>
      pool <-! get_pool_by_ref pool_ref ;;
      match pool.(Pool.route) with
      | Pool.Raydium _ _ _ _ _ _ _ _ _ _ _ _ _ _ =>
          get_stc_remove_liquidity_accounts_raydium wallet_address vault_name ui_amount
      | Pool.Orca _ _ _ =>
          get_stc_remove_liquidity_accounts_orca wallet_address vault_name ui_amount
      end
  | _ =>
      st_panic
  end ;;
  st_ok {| Cpi.program_id := vault.(Vault.vault_program_id); Cpi.accounts := accounts; Cpi.data :=
      data |}.

Definition get_stc_unlock_liquidity_accounts_orca (wallet_address : Z) (vault_name : Name)
    (ui_amount : f64) : Client ((list AccountMeta) * (list Z)) :=
  vault <-! get_vault vault_name ;;
  vault_ref <-! get_vault_ref vault_name ;;
  vault_token <-! get_token_by_ref_from_cache (Some vault.(Vault.vault_token_ref)) ;;
  amount <-! to_token_amount_option ui_amount vault_token ;;
  data <-! packed (VaultInstruction.to_vec (VaultInstruction.UnlockLiquidity amount)) ;;
  let accounts := [signer wallet_address] in
  vault_token_ <- st_unwrap vault_token ;;
  vault_user_info_account <-! get_vault_user_info_account wallet_address vault_name ;;
  let accounts := accounts ++ [readonly vault_ref; writable vault.(Vault.info_account);
      readonly vault.(Vault.vault_authority); readonly spl_token_id;
      writable vault_token_.(Token.mint); writable vault_user_info_account] in
  accounts <-! (match vault.(Vault.strategy) with
  | Vault.StakeLpCompoundRewards _ _ pool_ref _ _ farm_ref lp_token_custody _ _
      token_a_reward_custody _ vault_stake_info vault_stake_custody _ _ =>
      pool <-! get_pool_by_ref pool_ref ;;
      farm <-! get_farm_by_ref farm_ref ;;
      lp_token <-! get_token_by_ref_from_cache pool.(Pool.lp_token_ref) ;;
      farm_token <-! get_token_by_ref_from_cache farm.(Farm.lp_token_ref) ;;
      st_assert (bool_decide (farm_token = lp_token)) ;;;
      let user_vt_token_account := get_token_account wallet_address vault_token in
      user_vt_token_account2 <-! initialized user_vt_token_account ;;
      let accounts := accounts ++ [writable user_vt_token_account2; writable token_a_reward_custody;
          writable lp_token_custody] in
      match farm.(Farm.route) with
      | Farm.Orca farm_id farm_authority farm_token_ref base_token_vault reward_token_vault =>
          farm_lp_token <-! get_token_by_ref_from_cache (Some farm_token_ref) ;;
          vault_stake_custody <-! initialized vault_stake_custody ;;
          farm_lp_token2 <-! initialized farm_lp_token ;;
          st_ok (accounts ++ [readonly farm.(Farm.farm_program_id); writable vault_stake_info;
              writable vault_stake_custody; writable farm_id; readonly farm_authority;
              writable farm_lp_token2.(Token.mint); writable base_token_vault;
              writable reward_token_vault])
      | _ =>
          st_panic
      end
  | Vault.DynamicHedge =>
      st_panic
  end) ;;
  st_ok (accounts, data).

Definition get_stc_unlock_liquidity_accounts_raydium (wallet_address : Z) (vault_name : Name)
    (ui_amount : f64) : Client ((list AccountMeta) * (list Z)) :=
  vault <-! get_vault vault_name ;;
  vault_ref <-! get_vault_ref vault_name ;;
  vault_token <-! get_token_by_ref_from_cache (Some vault.(Vault.vault_token_ref)) ;;
  amount <-! to_token_amount_option ui_amount vault_token ;;
  data <-! packed (VaultInstruction.to_vec (VaultInstruction.UnlockLiquidity amount)) ;;
  let accounts := [signer wallet_address] in
  vault_token_ <- st_unwrap vault_token ;;
  vault_user_info_account <-! get_vault_user_info_account wallet_address vault_name ;;
  let accounts := accounts ++ [readonly vault_ref; writable vault.(Vault.info_account);
      readonly vault.(Vault.vault_authority); readonly spl_token_id;
      writable vault_token_.(Token.mint); writable vault_user_info_account] in
  accounts <-! (match vault.(Vault.strategy) with
  | Vault.StakeLpCompoundRewards _ _ pool_ref _ _ farm_ref lp_token_custody _ _
      token_a_reward_custody token_b_reward_custody vault_stake_info _ _ _ =>
      pool <-! get_pool_by_ref pool_ref ;;
      farm <-! get_farm_by_ref farm_ref ;;
      lp_token <-! get_token_by_ref_from_cache pool.(Pool.lp_token_ref) ;;
      farm_token <-! get_token_by_ref_from_cache farm.(Farm.lp_token_ref) ;;
      st_assert (bool_decide (farm_token = lp_token)) ;;;
      let user_vt_token_account := get_token_account wallet_address vault_token in
      user_vt_token_account2 <-! initialized user_vt_token_account ;;
      let accounts := accounts ++ [writable user_vt_token_account2; writable token_a_reward_custody;
          writable (default zero_id token_b_reward_custody); writable lp_token_custody] in
      match farm.(Farm.route) with
      | Farm.Raydium farm_id farm_authority farm_lp_token_account farm_first_reward_token_account
          farm_second_reward_token_account =>
          st_ok (accounts ++ [readonly farm.(Farm.farm_program_id); writable vault_stake_info;
              writable farm_id; readonly farm_authority; writable farm_lp_token_account;
              writable farm_first_reward_token_account;
              writable (default zero_id farm_second_reward_token_account); readonly clock_sysvar])
      | _ =>
          st_panic
      end
  | Vault.DynamicHedge =>
      st_panic
  end) ;;
  st_ok (accounts, data).

Definition new_instruction_unlock_liquidity_vault (wallet_address : Z) (vault_name : Name)
    (ui_amount : f64) : Client Instruction :=
  vault <-! get_vault vault_name ;;
  '(accounts, data) <-! match vault.(Vault.strategy) with
  | Vault.StakeLpCompoundRewards _ _ pool_ref _ _ _ _ _ _ _ _ _ _ _ _ =>
      pool <-! get_pool_by_ref pool_ref ;;
      match pool.(Pool.route) with
      | Pool.Raydium _ _ _ _ _ _ _ _ _ _ _ _ _ _ =>
          get_stc_unlock_liquidity_accounts_raydium wallet_address vault_name ui_amount
      | Pool.Orca _ _ _ =>
          get_stc_unlock_liquidity_accounts_orca wallet_address vault_name ui_amount
      end
  | _ =>
      st_panic
  end ;;
  st_ok {| Cpi.program_id := vault.(Vault.vault_program_id); Cpi.accounts := accounts; Cpi.data :=
      data |}.

Definition get_stc_init_accounts_orca (admin_address : Z) (vault_name : Name) (step : Z)
    : Client ((list AccountMeta) * (list Z)) :=
  vault <-! get_vault vault_name ;;
  vault_ref <-! get_vault_ref vault_name ;;
  found_token <-! get_token_by_ref_from_cache (Some vault.(Vault.vault_token_ref)) ;;
  vault_token <- st_unwrap found_token ;;
  data <-! packed (VaultInstruction.to_vec (VaultInstruction.Init step)) ;;
  let accounts := [signer admin_address] in
  active <-! get_vault_active_multisig_account vault_name ;;
  let accounts := accounts ++ [readonly vault_ref; writable vault.(Vault.info_account);
      writable active; writable vault.(Vault.vault_authority);
      readonly vault.(Vault.vault_program_id); readonly system_program; readonly spl_token_id;
      readonly rent_sysvar] in
  accounts <-! (match vault.(Vault.strategy) with
  | Vault.StakeLpCompoundRewards _ _ pool_ref _ farm_id farm_ref lp_token_custody token_a_custody
      token_b_custody token_a_reward_custody _ vault_stake_info vault_stake_custody _ _ =>
      pool <-! get_pool_by_ref pool_ref ;;
      farm <-! get_farm_by_ref farm_ref ;;
      found_token2 <-! get_token_by_ref_from_cache pool.(Pool.token_a_ref) ;;
      token_a <- st_unwrap found_token2 ;;
      found_token3 <-! get_token_by_ref_from_cache pool.(Pool.token_b_ref) ;;
      token_b <- st_unwrap found_token3 ;;
      found_token4 <-! get_token_by_ref_from_cache pool.(Pool.lp_token_ref) ;;
      lp_token <- st_unwrap found_token4 ;;
      farm_token_ref <- (match farm.(Farm.route) with
      | Farm.Orca _ _ farm_token_ref _ _ =>
          st_ret farm_token_ref
      | _ =>
          st_panic
      end) ;;
      farm_lp_token <-! get_token_by_ref_from_cache (Some farm_token_ref) ;;
      found_token5 <-! get_token_by_ref_from_cache farm.(Farm.first_reward_token_ref) ;;
      token_a_reward <- st_unwrap found_token5 ;;
      vault_stake_custody <-! initialized vault_stake_custody ;;
      farm_lp_token2 <-! initialized farm_lp_token ;;
      st_ok (accounts ++ [readonly farm.(Farm.farm_program_id); writable vault_token.(Token.mint);
          readonly vault.(Vault.vault_token_ref); writable vault_stake_info;
          writable vault_stake_custody; writable (default zero_id vault.(Vault.fees_account_a));
          writable token_a_custody; writable (default zero_id token_b_custody);
          writable lp_token_custody; writable token_a.(Token.mint); writable token_b.(Token.mint);
          writable lp_token.(Token.mint); writable farm_lp_token2.(Token.mint);
          writable token_a_reward_custody; writable token_a_reward.(Token.mint); readonly farm_id])
  | Vault.DynamicHedge =>
      st_panic
  end) ;;
  st_ok (accounts, data).

Definition get_stc_init_accounts_raydium (admin_address : Z) (vault_name : Name) (step : Z)
    : Client ((list AccountMeta) * (list Z)) :=
  vault <-! get_vault vault_name ;;
  vault_ref <-! get_vault_ref vault_name ;;
  found_token <-! get_token_by_ref_from_cache (Some vault.(Vault.vault_token_ref)) ;;
  vault_token <- st_unwrap found_token ;;
  data <-! packed (VaultInstruction.to_vec (VaultInstruction.Init step)) ;;
  let accounts := [signer admin_address] in
  active <-! get_vault_active_multisig_account vault_name ;;
  let accounts := accounts ++ [readonly vault_ref; writable vault.(Vault.info_account);
      writable active; writable vault.(Vault.vault_authority);
      readonly vault.(Vault.vault_program_id); readonly system_program; readonly spl_token_id;
      readonly rent_sysvar] in
  accounts <-! (match vault.(Vault.strategy) with
  | Vault.StakeLpCompoundRewards _ _ pool_ref _ _ farm_ref lp_token_custody token_a_custody
      token_b_custody token_a_reward_custody token_b_reward_custody vault_stake_info _ _ _ =>
      pool <-! get_pool_by_ref pool_ref ;;
      farm <-! get_farm_by_ref farm_ref ;;
      found_token2 <-! get_token_by_ref_from_cache pool.(Pool.token_a_ref) ;;
      token_a <- st_unwrap found_token2 ;;
      found_token3 <-! get_token_by_ref_from_cache pool.(Pool.token_b_ref) ;;
      token_b <- st_unwrap found_token3 ;;
      found_token4 <-! get_token_by_ref_from_cache pool.(Pool.lp_token_ref) ;;
      lp_token <- st_unwrap found_token4 ;;
      found_token5 <-! get_token_by_ref_from_cache farm.(Farm.first_reward_token_ref) ;;
      token_a_reward <- st_unwrap found_token5 ;;
      token_b_reward <-! get_token_by_ref_from_cache farm.(Farm.second_reward_token_ref) ;;
      let accounts := accounts ++ [readonly farm.(Farm.farm_program_id);
          writable vault_token.(Token.mint); readonly vault.(Vault.vault_token_ref)] in
      accounts <-! (if 4 <=? farm.(Farm.version) then
        st_ok (accounts ++ [writable zero_id; writable vault_stake_info])
      else
        st_ok (accounts ++ [writable vault_stake_info; writable zero_id])) ;;
      let accounts := accounts ++ [writable (default zero_id vault.(Vault.fees_account_a));
          writable (default zero_id vault.(Vault.fees_account_b)); writable token_a_custody;
          writable (default zero_id token_b_custody); writable lp_token_custody;
          writable token_a.(Token.mint); writable token_b.(Token.mint);
          writable lp_token.(Token.mint); writable token_a_reward_custody;
          writable (default zero_id token_b_reward_custody); writable token_a_reward.(Token.mint)]
          in
      match token_b_reward with
      | Some token =>
          st_ok (accounts ++ [writable token.(Token.mint)])
      | _ =>
          st_ok (accounts ++ [writable zero_id])
      end
  | Vault.DynamicHedge =>
      st_panic
  end) ;;
  st_ok (accounts, data).

Definition new_instruction_init_vault (admin_address : Z) (vault_name : Name) (step : Z)
    : Client Instruction :=
  vault <-! get_vault vault_name ;;
  '(accounts, data) <-! match vault.(Vault.strategy) with
  | Vault.StakeLpCompoundRewards _ _ pool_ref _ _ _ _ _ _ _ _ _ _ _ _ =>
      pool <-! get_pool_by_ref pool_ref ;;
      match pool.(Pool.route) with
      | Pool.Raydium _ _ _ _ _ _ _ _ _ _ _ _ _ _ =>
          get_stc_init_accounts_raydium admin_address vault_name step
      | Pool.Orca _ _ _ =>
          get_stc_init_accounts_orca admin_address vault_name step
      end
  | _ =>
      st_panic
  end ;;
  st_ok {| Cpi.program_id := vault.(Vault.vault_program_id); Cpi.accounts := accounts; Cpi.data :=
      data |}.

Definition get_stc_shutdown_accounts_orca (admin_address : Z) (vault_name : Name)
    : Client ((list AccountMeta) * (list Z)) :=
  vault <-! get_vault vault_name ;;
  vault_ref <-! get_vault_ref vault_name ;;
  data <-! packed (VaultInstruction.to_vec VaultInstruction.Shutdown) ;;
  active <-! get_vault_active_multisig_account vault_name ;;
  let accounts := [signer admin_address; readonly vault_ref; writable vault.(Vault.info_account);
      writable active] in
  st_ok (accounts, data).

Definition get_stc_shutdown_accounts_raydium (admin_address : Z) (vault_name : Name)
    : Client ((list AccountMeta) * (list Z)) :=
  vault <-! get_vault vault_name ;;
  vault_ref <-! get_vault_ref vault_name ;;
  data <-! packed (VaultInstruction.to_vec VaultInstruction.Shutdown) ;;
  active <-! get_vault_active_multisig_account vault_name ;;
  let accounts := [signer admin_address; readonly vault_ref; writable vault.(Vault.info_account);
      writable active] in
  st_ok (accounts, data).

Definition new_instruction_shutdown_vault (admin_address : Z) (vault_name : Name)
    : Client Instruction :=
  vault <-! get_vault vault_name ;;
  '(accounts, data) <-! match vault.(Vault.strategy) with
  | Vault.StakeLpCompoundRewards _ _ pool_ref _ _ _ _ _ _ _ _ _ _ _ _ =>
      pool <-! get_pool_by_ref pool_ref ;;
      match pool.(Pool.route) with
      | Pool.Raydium _ _ _ _ _ _ _ _ _ _ _ _ _ _ =>
          get_stc_shutdown_accounts_raydium admin_address vault_name
      | Pool.Orca _ _ _ =>
          get_stc_shutdown_accounts_orca admin_address vault_name
      end
  | _ =>
      st_panic
  end ;;
  st_ok {| Cpi.program_id := vault.(Vault.vault_program_id); Cpi.accounts := accounts; Cpi.data :=
      data |}.

Definition get_stc_crank_accounts_orca (wallet_address : Z) (vault_name : Name) (step : Z)
    : Client ((list AccountMeta) * (list Z)) :=
  vault <-! get_vault vault_name ;;
  vault_ref <-! get_vault_ref vault_name ;;
  data <-! packed (VaultInstruction.to_vec (VaultInstruction.Crank step)) ;;
  let accounts := [signer wallet_address] in
  let accounts := accounts ++ [readonly vault_ref; writable vault.(Vault.info_account);
      readonly vault.(Vault.vault_authority); readonly spl_token_id] in
  accounts <-! (match vault.(Vault.strategy) with
  | Vault.StakeLpCompoundRewards _ _ pool_ref _ _ farm_ref lp_token_custody token_a_custody
      token_b_custody token_a_reward_custody _ vault_stake_info vault_stake_custody _
      reward_exchange_pool_ref =>
      pool <-! get_pool_by_ref pool_ref ;;
      farm <-! get_farm_by_ref farm_ref ;;
      lp_token <-! get_token_by_ref_from_cache pool.(Pool.lp_token_ref) ;;
      farm_token <-! get_token_by_ref_from_cache farm.(Farm.lp_token_ref) ;;
      st_assert (bool_decide (farm_token = lp_token)) ;;;
      let accounts := accounts ++ [writable token_a_reward_custody] in
      accounts <-! (if step =? 3 then
        st_ok (accounts ++ [writable lp_token_custody])
      else
        st_ok accounts) ;;
      accounts <-! (if step =? 1 then
        fees_account_a <-! initialized vault.(Vault.fees_account_a) ;;
        st_ok (accounts ++ [writable fees_account_a])
      else
        st_ok accounts) ;;
      accounts <-! (if (step =? 2) || (step =? 3) then
        match pool.(Pool.route) with
        | Pool.Orca amm_id amm_authority fees_account =>
            token_a_account <-! initialized pool.(Pool.token_a_account) ;;
            token_b_account <-! initialized pool.(Pool.token_b_account) ;;
            lp_token2 <-! initialized lp_token ;;
            let accounts := accounts ++ [writable token_a_custody;
                writable (default zero_id token_b_custody); readonly pool.(Pool.pool_program_id);
                writable token_a_account; writable token_b_account; writable lp_token2.(Token.mint);
                writable amm_id; readonly amm_authority] in
            if step =? 2 then
              let accounts := accounts ++ [writable fees_account] in
              accounts <-! (match reward_exchange_pool_ref with
              | Some rdex_pool_ref =>
                  rdex_pool <-! get_pool_by_ref rdex_pool_ref ;;
                  rdex_lp_token <-! get_token_by_ref_from_cache rdex_pool.(Pool.lp_token_ref) ;;
                  match rdex_pool.(Pool.route) with
                  | Pool.Orca rdex_amm_id rdex_amm_authority rdex_fees_account =>
                      token_a_account2 <-! initialized rdex_pool.(Pool.token_a_account) ;;
                      token_b_account2 <-! initialized rdex_pool.(Pool.token_b_account) ;;
                      rdex_lp_token2 <-! initialized rdex_lp_token ;;
                      st_ok (accounts ++ [writable token_a_account2; writable token_b_account2;
                          writable rdex_lp_token2.(Token.mint); writable rdex_amm_id;
                          readonly rdex_amm_authority; writable rdex_fees_account])
                  | _ =>
                      st_panic
                  end
              | _ =>
                  st_ok (accounts ++ replicate 6 (readonly zero_id))
              end) ;;
              st_ok (accounts ++ [readonly instructions_sysvar])
            else
              st_ok accounts
        | _ =>
            st_panic
        end
      else
        st_ok accounts) ;;
      if (step =? 1) || (step =? 3) then
        match farm.(Farm.route) with
        | Farm.Orca farm_id farm_authority farm_token_ref base_token_vault reward_token_vault =>
            farm_lp_token <-! get_token_by_ref_from_cache (Some farm_token_ref) ;;
            let accounts := accounts ++ [readonly farm.(Farm.farm_program_id);
                writable vault_stake_info] in
            accounts <-! (if step =? 3 then
              vault_stake_custody <-! initialized vault_stake_custody ;;
              st_ok (accounts ++ [writable vault_stake_custody])
            else
              st_ok accounts) ;;
            let accounts := accounts ++ [writable farm_id; readonly farm_authority] in
            accounts <-! (if step =? 3 then
              farm_lp_token2 <-! initialized farm_lp_token ;;
              st_ok (accounts ++ [writable farm_lp_token2.(Token.mint)])
            else
              st_ok accounts) ;;
            st_ok (accounts ++ [writable base_token_vault; writable reward_token_vault])
        | _ =>
            st_panic
        end
      else
        st_ok accounts
  | Vault.DynamicHedge =>
      st_panic
  end) ;;
  st_ok (accounts, data).

Definition get_stc_crank_accounts_raydium (wallet_address : Z) (vault_name : Name) (step : Z)
    : Client ((list AccountMeta) * (list Z)) :=
  vault <-! get_vault vault_name ;;
  vault_ref <-! get_vault_ref vault_name ;;
  data <-! packed (VaultInstruction.to_vec (VaultInstruction.Crank step)) ;;
  let accounts := [signer wallet_address] in
  let accounts := accounts ++ [readonly vault_ref; writable vault.(Vault.info_account);
      readonly vault.(Vault.vault_authority); readonly spl_token_id] in
  accounts <-! (match vault.(Vault.strategy) with
  | Vault.StakeLpCompoundRewards _ _ pool_ref _ _ farm_ref lp_token_custody token_a_custody
      token_b_custody token_a_reward_custody token_b_reward_custody vault_stake_info _ _ _ =>
      pool <-! get_pool_by_ref pool_ref ;;
      farm <-! get_farm_by_ref farm_ref ;;
      lp_token <-! get_token_by_ref_from_cache pool.(Pool.lp_token_ref) ;;
      farm_token <-! get_token_by_ref_from_cache farm.(Farm.lp_token_ref) ;;
      st_assert (bool_decide (farm_token = lp_token)) ;;;
      let accounts := accounts ++ [writable token_a_reward_custody;
          writable (default zero_id token_b_reward_custody)] in
      accounts <-! (if negb (step =? 2) then
        st_ok (accounts ++ [writable lp_token_custody])
      else
        st_ok accounts) ;;
      accounts <-! (if step =? 1 then
        fees_account_a <-! initialized vault.(Vault.fees_account_a) ;;
        st_ok (accounts ++ [writable fees_account_a; writable (default zero_id
            vault.(Vault.fees_account_b))])
      else
        st_ok accounts) ;;
      accounts <-! (if (step =? 2) || (step =? 3) then
        match pool.(Pool.route) with
        | Pool.Raydium amm_id amm_authority amm_open_orders amm_target _ _ serum_program_id
            serum_market serum_coin_vault_account serum_pc_vault_account serum_vault_signer
            serum_bids serum_asks serum_event_queue =>
            token_a_account <-! initialized pool.(Pool.token_a_account) ;;
            token_b_account <-! initialized pool.(Pool.token_b_account) ;;
            let accounts := accounts ++ [writable token_a_custody;
                writable (default zero_id token_b_custody); readonly pool.(Pool.pool_program_id);
                writable token_a_account; writable token_b_account] in
            accounts <-! (if step =? 3 then
              lp_token2 <-! initialized lp_token ;;
              st_ok (accounts ++ [writable lp_token2.(Token.mint)])
            else
              st_ok accounts) ;;
            let accounts := accounts ++ [writable amm_id; readonly amm_authority;
                writable amm_open_orders; writable amm_target; writable serum_market] in
            if step =? 2 then
              serum_bids <-! initialized serum_bids ;;
              serum_asks <-! initialized serum_asks ;;
              serum_event_queue <-! initialized serum_event_queue ;;
              st_ok (accounts ++ [readonly serum_program_id; writable serum_coin_vault_account;
                  writable serum_pc_vault_account; writable serum_vault_signer; writable serum_bids;
                  writable serum_asks; writable serum_event_queue; readonly instructions_sysvar])
            else
              st_ok accounts
        | _ =>
            st_panic
        end
      else
        st_ok accounts) ;;
      if (step =? 1) || (step =? 3) then
        match farm.(Farm.route) with
        | Farm.Raydium farm_id farm_authority farm_lp_token_account farm_first_reward_token_account
            farm_second_reward_token_account =>
            st_ok (accounts ++ [readonly farm.(Farm.farm_program_id); writable vault_stake_info;
                writable farm_id; readonly farm_authority; writable farm_lp_token_account;
                writable farm_first_reward_token_account;
                writable (default zero_id farm_second_reward_token_account); readonly clock_sysvar])
        | _ =>
            st_panic
        end
      else
        st_ok accounts
  | Vault.DynamicHedge =>
      st_panic
  end) ;;
  st_ok (accounts, data).

Definition new_instruction_crank_vault (wallet_address : Z) (vault_name : Name) (step : Z)
    : Client Instruction :=
  vault <-! get_vault vault_name ;;
  '(accounts, data) <-! match vault.(Vault.strategy) with
  | Vault.StakeLpCompoundRewards _ _ pool_ref _ _ _ _ _ _ _ _ _ _ _ _ =>
      pool <-! get_pool_by_ref pool_ref ;;
      match pool.(Pool.route) with
      | Pool.Raydium _ _ _ _ _ _ _ _ _ _ _ _ _ _ =>
          get_stc_crank_accounts_raydium wallet_address vault_name step
      | Pool.Orca _ _ _ =>
          get_stc_crank_accounts_orca wallet_address vault_name step
      end
  | _ =>
      st_panic
  end ;;
  st_ok {| Cpi.program_id := vault.(Vault.vault_program_id); Cpi.accounts := accounts; Cpi.data :=
      data |}.

Definition new_instruction_withdraw_fees_vault (admin_address : Z) (vault_name : Name)
    (fee_token : TokenSelector) (ui_amount : f64) (receiver : Z) : Client Instruction :=
  vault <-! get_vault vault_name ;;
  vault_ref <-! get_vault_ref vault_name ;;
  active <-! get_vault_active_multisig_account vault_name ;;
  x <-! (if bool_decide (fee_token = TokenA) then
    fees_account_a <-! initialized vault.(Vault.fees_account_a) ;;
    st_ok (writable fees_account_a)
  else
    fees_account_b <-! initialized vault.(Vault.fees_account_b) ;;
    st_ok (writable fees_account_b)) ;;
  let inst := {| Cpi.program_id := vault.(Vault.vault_program_id); Cpi.accounts :=
      [signer admin_address; readonly vault_ref; writable vault.(Vault.info_account);
      writable active; writable vault.(Vault.vault_authority); readonly spl_token_id; x;
      writable receiver]; Cpi.data := [] |} in
  fee_decimals <-! (match vault.(Vault.strategy) with
  | Vault.StakeLpCompoundRewards _ _ _ _ _ farm_ref _ _ _ _ _ _ _ _ _ =>
      farm <-! get_farm_by_ref farm_ref ;;
      if bool_decide (fee_token = TokenA) then
        found_token <-! get_token_by_ref_from_cache farm.(Farm.first_reward_token_ref) ;;
        token_a_reward <- st_unwrap found_token ;;
        st_ok token_a_reward.(Token.decimals)
      else
        found_token2 <-! get_token_by_ref_from_cache farm.(Farm.second_reward_token_ref) ;;
        token_b_reward <- st_unwrap found_token2 ;;
        st_ok token_b_reward.(Token.decimals)
  | _ =>
      st_panic
  end) ;;
  amount <-! ui_amount_to_tokens_with_decimals ui_amount fee_decimals ;;
  data <-! packed (VaultInstruction.to_vec (VaultInstruction.WithdrawFees amount)) ;;
  st_ok (set_instruction_data data inst).

Definition new_instruction_set_min_crank_interval_vault (admin_address : Z) (vault_name : Name)
    (min_crank_interval : Z) : Client Instruction :=
  vault <-! get_vault vault_name ;;
  vault_ref <-! get_vault_ref vault_name ;;
  active <-! get_vault_active_multisig_account vault_name ;;
  let inst := {| Cpi.program_id := vault.(Vault.vault_program_id); Cpi.accounts :=
      [signer admin_address; readonly vault_ref; writable vault.(Vault.info_account);
      writable active]; Cpi.data := [] |} in
  data <-! packed (VaultInstruction.to_vec (VaultInstruction.SetMinCrankInterval
      min_crank_interval)) ;;
  st_ok (set_instruction_data data inst).

Definition new_instruction_set_fee_vault (admin_address : Z) (vault_name : Name) (fee_percent : f32)
    : Client Instruction :=
  vault <-! get_vault vault_name ;;
  vault_ref <-! get_vault_ref vault_name ;;
  active <-! get_vault_active_multisig_account vault_name ;;
  let inst := {| Cpi.program_id := vault.(Vault.vault_program_id); Cpi.accounts :=
      [signer admin_address; readonly vault_ref; writable vault.(Vault.info_account);
      writable active]; Cpi.data := [] |} in
  data <-! packed (VaultInstruction.to_vec (VaultInstruction.SetFee (f32_bits (f32_mul fee_percent
      f32_0_01)))) ;;
  st_ok (set_instruction_data data inst).

Definition new_instruction_set_external_fee_vault (admin_address : Z) (vault_name : Name)
    (external_fee_percent : f32) : Client Instruction :=
  vault <-! get_vault vault_name ;;
  vault_ref <-! get_vault_ref vault_name ;;
  active <-! get_vault_active_multisig_account vault_name ;;
  let inst := {| Cpi.program_id := vault.(Vault.vault_program_id); Cpi.accounts :=
      [signer admin_address; readonly vault_ref; writable vault.(Vault.info_account);
      writable active]; Cpi.data := [] |} in
  data <-! packed (VaultInstruction.to_vec (VaultInstruction.SetExternalFee (f32_bits (f32_mul
      external_fee_percent f32_0_01)))) ;;
  st_ok (set_instruction_data data inst).

Definition new_instruction_disable_deposits_vault (admin_address : Z) (vault_name : Name)
    : Client Instruction :=
  vault <-! get_vault vault_name ;;
  vault_ref <-! get_vault_ref vault_name ;;
  active <-! get_vault_active_multisig_account vault_name ;;
  let inst := {| Cpi.program_id := vault.(Vault.vault_program_id); Cpi.accounts :=
      [signer admin_address; readonly vault_ref; writable vault.(Vault.info_account);
      writable active]; Cpi.data := [] |} in
  data <-! packed (VaultInstruction.to_vec VaultInstruction.DisableDeposits) ;;
  st_ok (set_instruction_data data inst).

Definition new_instruction_enable_deposits_vault (admin_address : Z) (vault_name : Name)
    : Client Instruction :=
  vault <-! get_vault vault_name ;;
  vault_ref <-! get_vault_ref vault_name ;;
  active <-! get_vault_active_multisig_account vault_name ;;
  let inst := {| Cpi.program_id := vault.(Vault.vault_program_id); Cpi.accounts :=
      [signer admin_address; readonly vault_ref; writable vault.(Vault.info_account);
      writable active]; Cpi.data := [] |} in
  data <-! packed (VaultInstruction.to_vec VaultInstruction.EnableDeposits) ;;
  st_ok (set_instruction_data data inst).

Definition new_instruction_disable_withdrawals_vault (admin_address : Z) (vault_name : Name)
    : Client Instruction :=
  vault <-! get_vault vault_name ;;
  vault_ref <-! get_vault_ref vault_name ;;
  active <-! get_vault_active_multisig_account vault_name ;;
  let inst := {| Cpi.program_id := vault.(Vault.vault_program_id); Cpi.accounts :=
      [signer admin_address; readonly vault_ref; writable vault.(Vault.info_account);
      writable active]; Cpi.data := [] |} in
  data <-! packed (VaultInstruction.to_vec VaultInstruction.DisableWithdrawals) ;;
  st_ok (set_instruction_data data inst).

Definition new_instruction_enable_withdrawals_vault (admin_address : Z) (vault_name : Name)
    : Client Instruction :=
  vault <-! get_vault vault_name ;;
  vault_ref <-! get_vault_ref vault_name ;;
  active <-! get_vault_active_multisig_account vault_name ;;
  let inst := {| Cpi.program_id := vault.(Vault.vault_program_id); Cpi.accounts :=
      [signer admin_address; readonly vault_ref; writable vault.(Vault.info_account);
      writable active]; Cpi.data := [] |} in
  data <-! packed (VaultInstruction.to_vec VaultInstruction.EnableWithdrawals) ;;
  st_ok (set_instruction_data data inst).

End Vaults.
