(* ===== verification/ClientFund.v ===== *)
(** * Fund instructions of the farm client ([client/fund_instructions.rs], [fund_instructions_pools.rs])

    Instructions for a fund: of its users, of its manager and administrators, and the
    instructions for pools, farms and vaults that the fund runs in its own name. *)

From Stdlib Require Import String.
From S2P Require Import Prelude MachineInt Float64 Amounts Pack RefDB AmmInstruction VaultInstruction Token Pool Farm Vault Fund FundInstruction RefDbInstruction MainInstruction SdkAccount Multisig Cpi Oracle ClientNames Client ClientReads ClientPool ClientFarm ClientVault.

Section Funds.
Context `{FarmEnv}.

Definition new_instruction_set_fund_admins (admin_address : Z) (fund_name : Name)
    (admin_signers : (list Z)) (min_signatures : Z) : Client Instruction :=
  if (bool_decide (admin_signers = [])) || (min_signatures =? 0) then
    st_bail (ValueError [Text "At least one signer is required"]) else
  if ((Z.of_nat (List.length admin_signers)) <? min_signatures) || ((Z.of_nat Multisig.MAX_SIGNERS)
      <? (Z.of_nat (List.length admin_signers))) then
    st_bail (ValueError [Text "Invalid number of signatures"]) else
  fund <-! get_fund fund_name ;;
  fund_ref <-! get_fund_ref fund_name ;;
  data <-! packed (FundInstruction.to_vec (FundInstruction.SetAdminSigners min_signatures)) ;;
  active <-! get_fund_active_multisig_account fund_name ;;
  fund_multisig_account <-! get_fund_multisig_account fund_name ;;
  let inst := {| Cpi.program_id := fund.(Fund.fund_program_id); Cpi.accounts :=
      [signer admin_address; readonly fund_ref; writable fund.(Fund.info_account); writable active;
      writable fund_multisig_account; readonly system_program]; Cpi.data := data |} in
  let inst := fold_left (fun inst key =>
      push_account (readonly key) inst) admin_signers inst in
  st_ok inst.

Definition new_instruction_remove_fund_multisig (admin_address : Z) (fund_name : Name)
    : Client Instruction :=
  fund <-! get_fund fund_name ;;
  fund_ref <-! get_fund_ref fund_name ;;
  data <-! packed (FundInstruction.to_vec FundInstruction.RemoveMultisig) ;;
  active <-! get_fund_active_multisig_account fund_name ;;
  fund_multisig_account <-! get_fund_multisig_account fund_name ;;
  st_ok {| Cpi.program_id := fund.(Fund.fund_program_id); Cpi.accounts := [signer admin_address;
      readonly fund_ref; writable fund.(Fund.info_account); writable active;
      writable fund_multisig_account]; Cpi.data := data |}.

Definition new_instruction_add_fund_custody (admin_address : Z) (fund_name token_name : Name)
    (custody_type : FundCustodyType) : Client Instruction :=
  fund <-! get_fund fund_name ;;
  fund_ref <-! get_fund_ref fund_name ;;
  token <-! get_token token_name ;;
  token_ref <-! get_token_ref token_name ;;
  custodies <-! get_fund_custodies fund_name ;;
  custody_metadata <-! get_fund_custody_account fund_name token_name custody_type ;;
  fund_assets_account <-! get_fund_assets_account fund_name AssetCustody ;;
  custody_token_account <-! get_fund_custody_token_account fund_name token_name custody_type ;;
  custody_fees_token_account <-! get_fund_custody_fees_token_account fund_name token_name
      custody_type ;;
  custody_id <-! (if bool_decide (custodies = []) then
    st_ok 0
  else
    last_ <- st_unwrap (last custodies) ;;
    if last_.(FundCustody.custody_id) <? (2 ^ 32 - 1) then
      last_2 <- st_unwrap (last custodies) ;;
      sum <- st_unwrap (add_u64 last_2.(FundCustody.custody_id) 1) ;;
      st_ok sum
    else
      st_bail (ValueError [Text "Number of custodies are over the limit"])) ;;
  fund_assets <-! get_fund_assets fund_name AssetCustody ;;
  let current_hash := fund_assets.(FundAssets.target_hash) in
  is_liquidity_token__ <- is_liquidity_token token_name ;;
  let target_hash := if is_liquidity_token__ then
    current_hash
  else
    hash_address current_hash custody_token_account in
  data <-! packed (FundInstruction.to_vec (FundInstruction.AddCustody target_hash custody_id
      custody_type)) ;;
  active <-! get_fund_active_multisig_account fund_name ;;
  fund_multisig_account <-! get_fund_multisig_account fund_name ;;
  let accounts := [signer admin_address; readonly fund_ref; writable fund.(Fund.info_account);
      writable active; writable fund_multisig_account; readonly fund.(Fund.fund_authority);
      readonly system_program; readonly spl_token_id; readonly associated_token_program;
      readonly rent_sysvar; writable fund_assets_account; writable custody_token_account;
      writable custody_fees_token_account; writable custody_metadata; readonly token_ref;
      writable token.(Token.mint)] in
  st_ok {| Cpi.program_id := fund.(Fund.fund_program_id); Cpi.accounts := accounts; Cpi.data := data
      |}.

Definition new_instruction_remove_fund_custody (admin_address : Z) (fund_name token_name : Name)
    (custody_type : FundCustodyType) : Client Instruction :=
  fund <-! get_fund fund_name ;;
  fund_ref <-! get_fund_ref fund_name ;;
  token_ref <-! get_token_ref token_name ;;
  custodies <-! get_fund_custodies fund_name ;;
  if bool_decide (custodies = []) then
    st_bail (ValueError [Text "No active custodies found"]) else
  custody_metadata <-! get_fund_custody_account fund_name token_name custody_type ;;
  fund_assets_account <-! get_fund_assets_account fund_name AssetCustody ;;
  custody_token_account <-! get_fund_custody_token_account fund_name token_name custody_type ;;
  custody_fees_token_account <-! get_fund_custody_fees_token_account fund_name token_name
      custody_type ;;
  let target_hash := 0 in
  target_hash <-! st_fold (fun target_hash custody =>
      target_hash <-! (if (negb (custody.(FundCustody.address) =? custody_token_account)) && (negb
          custody.(FundCustody.is_vault_token)) then
        st_ok (hash_address target_hash custody.(FundCustody.address))
      else
        st_ok target_hash) ;;
      st_ok target_hash) custodies target_hash ;;
  data <-! packed (FundInstruction.to_vec (FundInstruction.RemoveCustody target_hash custody_type))
      ;;
  active <-! get_fund_active_multisig_account fund_name ;;
  fund_multisig_account <-! get_fund_multisig_account fund_name ;;
  let accounts := [signer admin_address; readonly fund_ref; writable fund.(Fund.info_account);
      writable active; writable fund_multisig_account; readonly fund.(Fund.fund_authority);
      readonly system_program; readonly spl_token_id; writable fund_assets_account;
      writable custody_token_account; writable custody_fees_token_account;
      writable custody_metadata; readonly token_ref] in
  st_ok {| Cpi.program_id := fund.(Fund.fund_program_id); Cpi.accounts := accounts; Cpi.data := data
      |}.

Definition new_instruction_add_fund_vault (admin_address : Z) (fund_name vault_name : Name)
    (vault_type : FundVaultType) : Client Instruction :=
  fund <-! get_fund fund_name ;;
  fund_ref <-! get_fund_ref fund_name ;;
  vaults <-! get_fund_vaults fund_name ;;
  fund_vault_metadata <-! get_fund_vault_account fund_name vault_name vault_type ;;
  fund_assets_account <-! get_fund_assets_account fund_name AssetVault ;;
  target_vault_metadata <-! (match vault_type with
  | TypeVault =>
      get_vault_ref vault_name
  | TypePool =>
      get_pool_ref vault_name
  | TypeFarm =>
      get_farm_ref vault_name
  end) ;;
  underlying_pool_ref <-! (match vault_type with
  | TypeVault =>
      vault <-! get_vault vault_name ;;
      x <- (match vault.(Vault.strategy) with
      | Vault.StakeLpCompoundRewards _ _ pool_ref _ _ _ _ _ _ _ _ _ _ _ _ =>
          st_ret pool_ref
      | _ =>
          st_panic
      end) ;;
      st_ok x
  | TypeFarm =>
      farm <-! get_farm vault_name ;;
      lp_token_ref <-! ok_or farm.(Farm.lp_token_ref) (ValueError
          [Text "Farms w/o LP tokens are not supported"]) ;;
      lp_token <-! get_token_by_ref lp_token_ref ;;
      pools <-! find_pools_with_lp lp_token.(Token.name) ;;
      if bool_decide (pools = []) then
        st_bail (RecordNotFound [Text "Pools with LP token "; Str lp_token.(Token.name)]) else
      item <- st_unwrap (pools !! 0%nat) ;;
      get_pool_ref item.(Pool.name)
  | TypePool =>
      st_ok target_vault_metadata
  end) ;;
  vault_id <-! (if bool_decide (vaults = []) then
    st_ok 0
  else
    last_ <- st_unwrap (last vaults) ;;
    if last_.(FundVault.vault_id) <? (2 ^ 32 - 1) then
      last_2 <- st_unwrap (last vaults) ;;
      sum <- st_unwrap (add_u64 last_2.(FundVault.vault_id) 1) ;;
      st_ok sum
    else
      st_bail (ValueError [Text "Number of vaults are over the limit"])) ;;
  fund_assets <-! get_fund_assets fund_name AssetVault ;;
  let current_hash := fund_assets.(FundAssets.target_hash) in
  let target_hash := if bool_decide (vault_type = TypeFarm) then
    current_hash
  else
    hash_address current_hash target_vault_metadata in
  data <-! packed (FundInstruction.to_vec (FundInstruction.AddVault target_hash vault_id
      vault_type)) ;;
  '(router_program_id, underlying_pool_id, underlying_lp_token_metadata) <-! (match vault_type with
  | TypePool =>
      pool <-! get_pool vault_name ;;
      let pool_ammid := match pool.(Pool.route) with
      | Pool.Raydium amm_id _ _ _ _ _ _ _ _ _ _ _ _ _ =>
          amm_id
      | Pool.Orca amm_id _ _ =>
          amm_id
      end in
      lp_token_ref2 <-! ok_or pool.(Pool.lp_token_ref) (ValueError
          [Text "Pools w/o LP tokens are not supported"]) ;;
      st_ok (pool.(Pool.router_program_id), pool_ammid, lp_token_ref2)
  | TypeFarm =>
      farm <-! get_farm vault_name ;;
      let farm_id := match farm.(Farm.route) with
      | Farm.Raydium farm_id _ _ _ _ =>
          farm_id
      | Farm.Orca farm_id _ _ _ _ =>
          farm_id
      end in
      lp_token_ref3 <-! ok_or farm.(Farm.lp_token_ref) (ValueError
          [Text "Farms w/o LP tokens are not supported"]) ;;
      st_ok (farm.(Farm.router_program_id), farm_id, lp_token_ref3)
  | TypeVault =>
      vault <-! get_vault vault_name ;;
      pool <-! get_pool_by_ref underlying_pool_ref ;;
      lp_token_ref4 <-! ok_or pool.(Pool.lp_token_ref) (ValueError
          [Text "Underlying Pools w/o LP tokens are not supported"]) ;;
      st_ok (vault.(Vault.vault_program_id), target_vault_metadata, lp_token_ref4)
  end) ;;
  active <-! get_fund_active_multisig_account fund_name ;;
  let accounts := [signer admin_address; readonly fund_ref; writable fund.(Fund.info_account);
      writable active; readonly fund.(Fund.fund_authority); readonly system_program;
      writable fund_assets_account; writable fund_vault_metadata; readonly target_vault_metadata;
      readonly router_program_id; readonly underlying_pool_id; readonly underlying_pool_ref;
      readonly underlying_lp_token_metadata] in
  st_ok {| Cpi.program_id := fund.(Fund.fund_program_id); Cpi.accounts := accounts; Cpi.data := data
      |}.

Definition new_instruction_remove_fund_vault (admin_address : Z) (fund_name vault_name : Name)
    (vault_type : FundVaultType) : Client Instruction :=
  fund <-! get_fund fund_name ;;
  fund_ref <-! get_fund_ref fund_name ;;
  vaults <-! get_fund_vaults fund_name ;;
  if bool_decide (vaults = []) then
    st_bail (ValueError [Text "No active vaults found"]) else
  vault_metadata <-! get_fund_vault_account fund_name vault_name vault_type ;;
  fund_assets_account <-! get_fund_assets_account fund_name AssetVault ;;
  vault_info <-! (match vault_type with
  | TypeVault =>
      get_vault_ref vault_name
  | TypePool =>
      get_pool_ref vault_name
  | TypeFarm =>
      get_farm_ref vault_name
  end) ;;
  let target_hash := 0 in
  target_hash <-! st_fold (fun target_hash vault =>
      target_hash <-! (if (negb (vault.(FundVault.vault_ref) =? vault_info)) && (negb (bool_decide
          (vault.(FundVault.vault_type) = TypeFarm))) then
        st_ok (hash_address target_hash vault.(FundVault.vault_ref))
      else
        st_ok target_hash) ;;
      st_ok target_hash) vaults target_hash ;;
  data <-! packed (FundInstruction.to_vec (FundInstruction.RemoveVault target_hash vault_type)) ;;
  active <-! get_fund_active_multisig_account fund_name ;;
  let accounts := [signer admin_address; readonly fund_ref; writable fund.(Fund.info_account);
      writable active; readonly fund.(Fund.fund_authority); readonly system_program;
      writable fund_assets_account; writable vault_metadata] in
  st_ok {| Cpi.program_id := fund.(Fund.fund_program_id); Cpi.accounts := accounts; Cpi.data := data
      |}.

Definition new_instruction_init_fund (admin_address : Z) (fund_name : Name) (step : Z)
    : Client Instruction :=
  fund <-! get_fund fund_name ;;
  fund_ref <-! get_fund_ref fund_name ;;
  fund_token <-! get_token_by_ref fund.(Fund.fund_token_ref) ;;
  data <-! packed (FundInstruction.to_vec (FundInstruction.Init step)) ;;
  active <-! get_fund_active_multisig_account fund_name ;;
  let accounts := [signer admin_address; readonly fund_ref; writable fund.(Fund.info_account);
      writable active; writable fund.(Fund.fund_authority); readonly fund.(Fund.fund_program_id);
      readonly system_program; readonly spl_token_id; readonly rent_sysvar;
      writable fund_token.(Token.mint); readonly fund.(Fund.fund_token_ref);
      writable fund.(Fund.vaults_assets_info); writable fund.(Fund.custodies_assets_info)] in
  st_ok {| Cpi.program_id := fund.(Fund.fund_program_id); Cpi.accounts := accounts; Cpi.data := data
      |}.

Definition new_instruction_user_init_fund (wallet_address : Z) (fund_name token_name : Name)
    : Client Instruction :=
  fund <-! get_fund fund_name ;;
  fund_ref <-! get_fund_ref fund_name ;;
  token_ref <-! get_token_ref token_name ;;
  user_info_account <-! get_fund_user_info_account wallet_address fund_name ;;
  user_requests_account <-! get_fund_user_requests_account wallet_address fund_name token_name ;;
  data <-! packed (FundInstruction.to_vec FundInstruction.UserInit) ;;
  let accounts := [writable_signer wallet_address; readonly fund_ref;
      writable fund.(Fund.info_account); readonly wallet_address; writable user_info_account;
      writable user_requests_account; readonly token_ref; readonly system_program] in
  st_ok {| Cpi.program_id := fund.(Fund.fund_program_id); Cpi.accounts := accounts; Cpi.data := data
      |}.

Definition new_instruction_set_fund_assets_tracking_config (admin_address : Z) (fund_name : Name)
    (config : FundAssetsTrackingConfig) : Client Instruction :=
  fund <-! get_fund fund_name ;;
  fund_ref <-! get_fund_ref fund_name ;;
  data <-! packed (FundInstruction.to_vec (FundInstruction.SetAssetsTrackingConfig config)) ;;
  active <-! get_fund_active_multisig_account fund_name ;;
  let accounts := [signer admin_address; readonly fund_ref; writable fund.(Fund.info_account);
      writable active] in
  st_ok {| Cpi.program_id := fund.(Fund.fund_program_id); Cpi.accounts := accounts; Cpi.data := data
      |}.

Definition new_instruction_set_fund_deposit_schedule (admin_address : Z) (fund_name : Name)
    (schedule : FundSchedule) : Client Instruction :=
  fund <-! get_fund fund_name ;;
  fund_ref <-! get_fund_ref fund_name ;;
  data <-! packed (FundInstruction.to_vec (FundInstruction.SetDepositSchedule schedule)) ;;
  active <-! get_fund_active_multisig_account fund_name ;;
  let accounts := [signer admin_address; readonly fund_ref; writable fund.(Fund.info_account);
      writable active] in
  st_ok {| Cpi.program_id := fund.(Fund.fund_program_id); Cpi.accounts := accounts; Cpi.data := data
      |}.

Definition new_instruction_disable_deposits_fund (admin_address : Z) (fund_name : Name)
    : Client Instruction :=
  fund <-! get_fund fund_name ;;
  fund_ref <-! get_fund_ref fund_name ;;
  data <-! packed (FundInstruction.to_vec FundInstruction.DisableDeposits) ;;
  active <-! get_fund_active_multisig_account fund_name ;;
  let accounts := [signer admin_address; readonly fund_ref; writable fund.(Fund.info_account);
      writable active] in
  st_ok {| Cpi.program_id := fund.(Fund.fund_program_id); Cpi.accounts := accounts; Cpi.data := data
      |}.

Definition new_instruction_request_deposit_fund (wallet_address : Z) (fund_name token_name : Name)
    (ui_amount : f64) : Client Instruction :=
  if f64_lt ui_amount f64_zero then
    st_bail (ValueError [Text "Invalid deposit amount "; Float ui_amount;
        Text " specified for Fund "; Str fund_name; Text ": Must be greater or equal to zero."])
        else
  fund <-! get_fund fund_name ;;
  fund_ref <-! get_fund_ref fund_name ;;
  fund_token <-! get_token_by_ref fund.(Fund.fund_token_ref) ;;
  token <-! get_token token_name ;;
  token_ref <-! get_token_ref token_name ;;
  user_info_account <-! get_fund_user_info_account wallet_address fund_name ;;
  user_requests_account <-! get_fund_user_requests_account wallet_address fund_name token_name ;;
  user_deposit_token_account <-! get_associated_token_address wallet_address token.(Token.name) ;;
  user_fund_token_account <-! get_associated_token_address wallet_address fund_token.(Token.name) ;;
  custody_metadata <-! get_fund_custody_account fund_name token_name Fund.DepositWithdraw ;;
  custody_token_account <-! get_fund_custody_token_account fund_name token_name Fund.DepositWithdraw
      ;;
  custody_fees_token_account <-! get_fund_custody_fees_token_account fund_name token_name
      Fund.DepositWithdraw ;;
  '(_, oracle_account) <-! get_oracle token_name ;;
  amount <-! to_token_amount ui_amount token ;;
  data <-! packed (FundInstruction.to_vec (FundInstruction.RequestDeposit amount)) ;;
  let accounts := [signer wallet_address; readonly fund_ref; writable fund.(Fund.info_account);
      readonly fund.(Fund.fund_authority); readonly spl_token_id; writable fund_token.(Token.mint);
      writable user_info_account; writable user_requests_account;
      writable user_deposit_token_account; writable user_fund_token_account;
      writable custody_token_account; writable custody_fees_token_account;
      readonly custody_metadata; readonly token_ref; readonly (default zero_id oracle_account)] in
  st_ok {| Cpi.program_id := fund.(Fund.fund_program_id); Cpi.accounts := accounts; Cpi.data := data
      |}.

Definition new_instruction_cancel_deposit_fund (wallet_address : Z) (fund_name token_name : Name)
    : Client Instruction :=
  fund <-! get_fund fund_name ;;
  fund_ref <-! get_fund_ref fund_name ;;
  token <-! get_token token_name ;;
  token_ref <-! get_token_ref token_name ;;
  user_requests_account <-! get_fund_user_requests_account wallet_address fund_name token_name ;;
  user_deposit_token_account <-! get_associated_token_address wallet_address token.(Token.name) ;;
  data <-! packed (FundInstruction.to_vec FundInstruction.CancelDeposit) ;;
  let accounts := [signer wallet_address; readonly fund_ref; writable fund.(Fund.info_account);
      readonly spl_token_id; writable user_requests_account; writable user_deposit_token_account;
      readonly token_ref] in
  st_ok {| Cpi.program_id := fund.(Fund.fund_program_id); Cpi.accounts := accounts; Cpi.data := data
      |}.

Definition new_instruction_approve_deposit_fund (admin_address user_address : Z)
    (fund_name token_name : Name) (ui_amount : f64) : Client Instruction :=
  if f64_lt ui_amount f64_zero then
    st_bail (ValueError [Text "Invalid approve amount "; Float ui_amount;
        Text " specified for Fund "; Str fund_name; Text ": Must be greater or equal to zero."])
        else
  fund <-! get_fund fund_name ;;
  fund_ref <-! get_fund_ref fund_name ;;
  fund_token <-! get_token_by_ref fund.(Fund.fund_token_ref) ;;
  token <-! get_token token_name ;;
  token_ref <-! get_token_ref token_name ;;
  user_info_account <-! get_fund_user_info_account user_address fund_name ;;
  user_requests_account <-! get_fund_user_requests_account user_address fund_name token_name ;;
  user_deposit_token_account <-! get_associated_token_address user_address token.(Token.name) ;;
  user_fund_token_account <-! get_associated_token_address user_address fund_token.(Token.name) ;;
  custody_metadata <-! get_fund_custody_account fund_name token_name Fund.DepositWithdraw ;;
  custody_token_account <-! get_fund_custody_token_account fund_name token_name Fund.DepositWithdraw
      ;;
  custody_fees_token_account <-! get_fund_custody_fees_token_account fund_name token_name
      Fund.DepositWithdraw ;;
  '(_, oracle_account) <-! get_oracle token_name ;;
  amount <-! to_token_amount ui_amount token ;;
  data <-! packed (FundInstruction.to_vec (FundInstruction.ApproveDeposit amount)) ;;
  active <-! get_fund_active_multisig_account fund_name ;;
  let accounts := [signer admin_address; readonly fund_ref; writable fund.(Fund.info_account);
      writable active; readonly fund.(Fund.fund_authority); readonly spl_token_id;
      writable fund_token.(Token.mint); readonly user_address; writable user_info_account;
      writable user_requests_account; writable user_deposit_token_account;
      writable user_fund_token_account; writable custody_token_account;
      writable custody_fees_token_account; readonly custody_metadata; readonly token_ref;
      readonly (default zero_id oracle_account)] in
  st_ok {| Cpi.program_id := fund.(Fund.fund_program_id); Cpi.accounts := accounts; Cpi.data := data
      |}.

Definition new_instruction_deny_deposit_fund (admin_address user_address : Z)
    (fund_name token_name deny_reason : Name) : Client Instruction :=
  fund <-! get_fund fund_name ;;
  fund_ref <-! get_fund_ref fund_name ;;
  token_ref <-! get_token_ref token_name ;;
  user_requests_account <-! get_fund_user_requests_account user_address fund_name token_name ;;
  deny_reason2 <-! str_to_as64 deny_reason ;;
  data <-! packed (FundInstruction.to_vec (FundInstruction.DenyDeposit deny_reason2)) ;;
  active <-! get_fund_active_multisig_account fund_name ;;
  let accounts := [signer admin_address; readonly fund_ref; writable fund.(Fund.info_account);
      writable active; readonly user_address; writable user_requests_account; readonly token_ref] in
  st_ok {| Cpi.program_id := fund.(Fund.fund_program_id); Cpi.accounts := accounts; Cpi.data := data
      |}.

Definition new_instruction_set_fund_withdrawal_schedule (admin_address : Z) (fund_name : Name)
    (schedule : FundSchedule) : Client Instruction :=
  fund <-! get_fund fund_name ;;
  fund_ref <-! get_fund_ref fund_name ;;
  data <-! packed (FundInstruction.to_vec (FundInstruction.SetWithdrawalSchedule schedule)) ;;
  active <-! get_fund_active_multisig_account fund_name ;;
  let accounts := [signer admin_address; readonly fund_ref; writable fund.(Fund.info_account);
      writable active] in
  st_ok {| Cpi.program_id := fund.(Fund.fund_program_id); Cpi.accounts := accounts; Cpi.data := data
      |}.

Definition new_instruction_disable_withdrawals_fund (admin_address : Z) (fund_name : Name)
    : Client Instruction :=
  fund <-! get_fund fund_name ;;
  fund_ref <-! get_fund_ref fund_name ;;
  data <-! packed (FundInstruction.to_vec FundInstruction.DisableWithdrawals) ;;
  active <-! get_fund_active_multisig_account fund_name ;;
  let accounts := [signer admin_address; readonly fund_ref; writable fund.(Fund.info_account);
      writable active] in
  st_ok {| Cpi.program_id := fund.(Fund.fund_program_id); Cpi.accounts := accounts; Cpi.data := data
      |}.

Definition new_instruction_request_withdrawal_fund (wallet_address : Z)
    (fund_name token_name : Name) (ui_amount : f64) : Client Instruction :=
  if f64_lt ui_amount f64_zero then
    st_bail (ValueError [Text "Invalid withdrawal amount "; Float ui_amount;
        Text " specified for Fund "; Str fund_name; Text ": Must be greater or equal to zero."])
        else
  fund <-! get_fund fund_name ;;
  fund_ref <-! get_fund_ref fund_name ;;
  fund_token <-! get_token_by_ref fund.(Fund.fund_token_ref) ;;
  token <-! get_token token_name ;;
  token_ref <-! get_token_ref token_name ;;
  user_info_account <-! get_fund_user_info_account wallet_address fund_name ;;
  user_requests_account <-! get_fund_user_requests_account wallet_address fund_name token_name ;;
  user_withdrawal_token_account <-! get_associated_token_address wallet_address token.(Token.name)
      ;;
  user_fund_token_account <-! get_associated_token_address wallet_address fund_token.(Token.name) ;;
  custody_metadata <-! get_fund_custody_account fund_name token_name Fund.DepositWithdraw ;;
  custody_token_account <-! get_fund_custody_token_account fund_name token_name Fund.DepositWithdraw
      ;;
  custody_fees_token_account <-! get_fund_custody_fees_token_account fund_name token_name
      Fund.DepositWithdraw ;;
  '(_, oracle_account) <-! get_oracle token_name ;;
  amount <-! to_token_amount ui_amount fund_token ;;
  data <-! packed (FundInstruction.to_vec (FundInstruction.RequestWithdrawal amount)) ;;
  let accounts := [signer wallet_address; readonly fund_ref; writable fund.(Fund.info_account);
      readonly fund.(Fund.fund_authority); readonly spl_token_id; writable fund_token.(Token.mint);
      writable user_info_account; writable user_requests_account;
      writable user_withdrawal_token_account; writable user_fund_token_account;
      writable custody_token_account; writable custody_fees_token_account;
      readonly custody_metadata; readonly token_ref; readonly (default zero_id oracle_account)] in
  st_ok {| Cpi.program_id := fund.(Fund.fund_program_id); Cpi.accounts := accounts; Cpi.data := data
      |}.

Definition new_instruction_cancel_withdrawal_fund (wallet_address : Z) (fund_name token_name : Name)
    : Client Instruction :=
  fund <-! get_fund fund_name ;;
  fund_ref <-! get_fund_ref fund_name ;;
  token <-! get_token token_name ;;
  token_ref <-! get_token_ref token_name ;;
  user_requests_account <-! get_fund_user_requests_account wallet_address fund_name token_name ;;
  user_withdrawal_token_account <-! get_associated_token_address wallet_address token.(Token.name)
      ;;
  data <-! packed (FundInstruction.to_vec FundInstruction.CancelWithdrawal) ;;
  let accounts := [signer wallet_address; readonly fund_ref; writable fund.(Fund.info_account);
      readonly spl_token_id; writable user_requests_account; writable user_withdrawal_token_account;
      readonly token_ref] in
  st_ok {| Cpi.program_id := fund.(Fund.fund_program_id); Cpi.accounts := accounts; Cpi.data := data
      |}.

Definition new_instruction_approve_withdrawal_fund (admin_address user_address : Z)
    (fund_name token_name : Name) (ui_amount : f64) : Client Instruction :=
  if f64_lt ui_amount f64_zero then
    st_bail (ValueError [Text "Invalid approve amount "; Float ui_amount;
        Text " specified for Fund "; Str fund_name; Text ": Must be greater or equal to zero."])
        else
  fund <-! get_fund fund_name ;;
  fund_ref <-! get_fund_ref fund_name ;;
  fund_token <-! get_token_by_ref fund.(Fund.fund_token_ref) ;;
  token <-! get_token token_name ;;
  token_ref <-! get_token_ref token_name ;;
  user_info_account <-! get_fund_user_info_account user_address fund_name ;;
  user_requests_account <-! get_fund_user_requests_account user_address fund_name token_name ;;
  user_withdrawal_token_account <-! get_associated_token_address user_address token.(Token.name) ;;
  user_fund_token_account <-! get_associated_token_address user_address fund_token.(Token.name) ;;
  custody_metadata <-! get_fund_custody_account fund_name token_name Fund.DepositWithdraw ;;
  custody_token_account <-! get_fund_custody_token_account fund_name token_name Fund.DepositWithdraw
      ;;
  custody_fees_token_account <-! get_fund_custody_fees_token_account fund_name token_name
      Fund.DepositWithdraw ;;
  '(_, oracle_account) <-! get_oracle token_name ;;
  amount <-! to_token_amount ui_amount fund_token ;;
  data <-! packed (FundInstruction.to_vec (FundInstruction.ApproveWithdrawal amount)) ;;
  active <-! get_fund_active_multisig_account fund_name ;;
  let accounts := [signer admin_address; readonly fund_ref; writable fund.(Fund.info_account);
      writable active; readonly fund.(Fund.fund_authority); readonly spl_token_id;
      writable fund_token.(Token.mint); readonly user_address; writable user_info_account;
      writable user_requests_account; writable user_withdrawal_token_account;
      writable user_fund_token_account; writable custody_token_account;
      writable custody_fees_token_account; readonly custody_metadata; readonly token_ref;
      readonly (default zero_id oracle_account)] in
  st_ok {| Cpi.program_id := fund.(Fund.fund_program_id); Cpi.accounts := accounts; Cpi.data := data
      |}.

Definition new_instruction_deny_withdrawal_fund (admin_address user_address : Z)
    (fund_name token_name deny_reason : Name) : Client Instruction :=
  fund <-! get_fund fund_name ;;
  fund_ref <-! get_fund_ref fund_name ;;
  token_ref <-! get_token_ref token_name ;;
  user_requests_account <-! get_fund_user_requests_account user_address fund_name token_name ;;
  deny_reason2 <-! str_to_as64 deny_reason ;;
  data <-! packed (FundInstruction.to_vec (FundInstruction.DenyWithdrawal deny_reason2)) ;;
  active <-! get_fund_active_multisig_account fund_name ;;
  let accounts := [signer admin_address; readonly fund_ref; writable fund.(Fund.info_account);
      writable active; readonly user_address; writable user_requests_account; readonly token_ref] in
  st_ok {| Cpi.program_id := fund.(Fund.fund_program_id); Cpi.accounts := accounts; Cpi.data := data
      |}.

Definition new_instruction_lock_assets_fund (admin_address : Z) (fund_name token_name : Name)
    (ui_amount : f64) : Client Instruction :=
  if f64_lt ui_amount f64_zero then
    st_bail (ValueError [Text "Invalid lock amount "; Float ui_amount; Text " specified for Fund ";
        Str fund_name; Text ": Must be greater or equal to zero."]) else
  fund <-! get_fund fund_name ;;
  fund_ref <-! get_fund_ref fund_name ;;
  token <-! get_token token_name ;;
  token_ref <-! get_token_ref token_name ;;
  wd_custody_metadata <-! get_fund_custody_account fund_name token_name Fund.DepositWithdraw ;;
  wd_custody_token_account <-! get_fund_custody_token_account fund_name token_name
      Fund.DepositWithdraw ;;
  trading_custody_metadata <-! get_fund_custody_account fund_name token_name Fund.Trading ;;
  trading_custody_token_account <-! get_fund_custody_token_account fund_name token_name Fund.Trading
      ;;
  amount <-! to_token_amount ui_amount token ;;
  data <-! packed (FundInstruction.to_vec (FundInstruction.LockAssets amount)) ;;
  active <-! get_fund_active_multisig_account fund_name ;;
  let accounts := [signer admin_address; readonly fund_ref; writable fund.(Fund.info_account);
      writable active; readonly fund.(Fund.fund_authority); readonly spl_token_id;
      writable wd_custody_token_account; writable wd_custody_metadata;
      writable trading_custody_token_account; writable trading_custody_metadata; readonly token_ref]
      in
  st_ok {| Cpi.program_id := fund.(Fund.fund_program_id); Cpi.accounts := accounts; Cpi.data := data
      |}.

Definition new_instruction_unlock_assets_fund (admin_address : Z) (fund_name token_name : Name)
    (ui_amount : f64) : Client Instruction :=
  if f64_lt ui_amount f64_zero then
    st_bail (ValueError [Text "Invalid unlock amount "; Float ui_amount;
        Text " specified for Fund "; Str fund_name; Text ": Must be greater or equal to zero."])
        else
  fund <-! get_fund fund_name ;;
  fund_ref <-! get_fund_ref fund_name ;;
  token <-! get_token token_name ;;
  token_ref <-! get_token_ref token_name ;;
  wd_custody_metadata <-! get_fund_custody_account fund_name token_name Fund.DepositWithdraw ;;
  wd_custody_token_account <-! get_fund_custody_token_account fund_name token_name
      Fund.DepositWithdraw ;;
  trading_custody_metadata <-! get_fund_custody_account fund_name token_name Fund.Trading ;;
  trading_custody_token_account <-! get_fund_custody_token_account fund_name token_name Fund.Trading
      ;;
  amount <-! to_token_amount ui_amount token ;;
  data <-! packed (FundInstruction.to_vec (FundInstruction.UnlockAssets amount)) ;;
  active <-! get_fund_active_multisig_account fund_name ;;
  let accounts := [signer admin_address; readonly fund_ref; writable fund.(Fund.info_account);
      writable active; readonly fund.(Fund.fund_authority); readonly spl_token_id;
      writable wd_custody_token_account; writable wd_custody_metadata;
      writable trading_custody_token_account; writable trading_custody_metadata; readonly token_ref]
      in
  st_ok {| Cpi.program_id := fund.(Fund.fund_program_id); Cpi.accounts := accounts; Cpi.data := data
      |}.

Definition new_instruction_update_fund_assets_with_custody (wallet_address : Z) (fund_name : Name)
    (custody_id : Z) : Client Instruction :=
  fund <-! get_fund fund_name ;;
  fund_ref <-! get_fund_ref fund_name ;;
  custodies <-! get_fund_custodies fund_name ;;
  custody <-! ok_or (List.find (fun c => c.(FundCustody.custody_id) =? custody_id) custodies)
      (RecordNotFound [Text "Custody with ID "; Number custody_id]) ;;
  token <-! get_token_by_ref custody.(FundCustody.token_ref) ;;
  custody_metadata <-! get_fund_custody_account fund_name token.(Token.name)
      custody.(FundCustody.custody_type) ;;
  custodies_assets_account <-! get_fund_assets_account fund_name AssetCustody ;;
  vaults_assets_account <-! get_fund_assets_account fund_name AssetVault ;;
  custody_token_account <-! get_fund_custody_token_account fund_name token.(Token.name)
      custody.(FundCustody.custody_type) ;;
  '(_, oracle_account) <-! get_oracle token.(Token.name) ;;
  let accounts := [signer wallet_address; readonly fund_ref; writable fund.(Fund.info_account);
      writable custodies_assets_account; readonly vaults_assets_account;
      writable custody_token_account; writable custody_metadata;
      readonly custody.(FundCustody.token_ref); readonly (default zero_id oracle_account)] in
  data <-! packed (FundInstruction.to_vec FundInstruction.UpdateAssetsWithCustody) ;;
  st_ok {| Cpi.program_id := fund.(Fund.fund_program_id); Cpi.accounts := accounts; Cpi.data := data
      |}.

Definition new_instruction_update_fund_assets_with_vault (wallet_address : Z) (fund_name : Name)
    (vault_id : Z) : Client Instruction :=
  fund <-! get_fund fund_name ;;
  fund_ref <-! get_fund_ref fund_name ;;
  vaults <-! get_fund_vaults fund_name ;;
  vault <-! ok_or (List.find (fun c => c.(FundVault.vault_id) =? vault_id) vaults) (RecordNotFound
      [Text "Fund Vault with ID "; Number vault_id]) ;;
  if bool_decide (vault.(FundVault.vault_type) = TypeFarm) then
    st_bail (ValueError [Text "Nothing to do: Farms are not processed to avoid double counting"])
        else
  vault_name <-! (match vault.(FundVault.vault_type) with
  | TypeVault =>
      vault_by_ref <-! get_vault_by_ref vault.(FundVault.vault_ref) ;;
      st_ok vault_by_ref.(Vault.name)
  | TypePool =>
      pool_by_ref <-! get_pool_by_ref vault.(FundVault.vault_ref) ;;
      st_ok pool_by_ref.(Pool.name)
  | TypeFarm =>
      st_panic
  end) ;;
  token_names <-! (match vault.(FundVault.vault_type) with
  | TypeVault =>
      get_vault_token_names vault_name
  | TypePool =>
      get_pool_token_names vault_name
  | TypeFarm =>
      st_panic
  end) ;;
  target_vault_metadata <-! (match vault.(FundVault.vault_type) with
  | TypeVault =>
      get_vault_ref vault_name
  | TypePool =>
      get_pool_ref vault_name
  | TypeFarm =>
      st_panic
  end) ;;
  underlying_pool_ref <-! (if bool_decide (vault.(FundVault.vault_type) = TypeVault) then
    vault2 <-! get_vault vault_name ;;
    x <- (match vault2.(Vault.strategy) with
    | Vault.StakeLpCompoundRewards _ _ pool_ref _ _ _ _ _ _ _ _ _ _ _ _ =>
        st_ret pool_ref
    | _ =>
        st_panic
    end) ;;
    st_ok x
  else
    st_ok target_vault_metadata) ;;
  underlying_pool <-! get_pool_by_ref underlying_pool_ref ;;
  lp_token_ref <-! initialized underlying_pool.(Pool.lp_token_ref) ;;
  underlying_lp_token <-! get_token_by_ref lp_token_ref ;;
  let '(amm_id, amm_open_orders) := match underlying_pool.(Pool.route) with
  | Pool.Raydium amm_id _ amm_open_orders _ _ _ _ _ _ _ _ _ _ _ =>
      (amm_id, amm_open_orders)
  | Pool.Orca amm_id _ _ =>
      (amm_id, zero_id)
  end in
  vault_metadata <-! get_fund_vault_account fund_name vault_name vault.(FundVault.vault_type) ;;
  custodies_assets_account <-! get_fund_assets_account fund_name AssetCustody ;;
  vaults_assets_account <-! get_fund_assets_account fund_name AssetVault ;;
  '(_, oracle_account_token_a) <-! (if bool_decide (fst (fst token_names) = []) then
    st_ok (Token.Unsupported, None)
  else
    get_oracle (fst (fst token_names))) ;;
  '(_, oracle_account_token_b) <-! (if bool_decide (snd (fst token_names) = []) then
    st_ok (Token.Unsupported, None)
  else
    get_oracle (snd (fst token_names))) ;;
  token_a_ref <-! initialized underlying_pool.(Pool.token_a_ref) ;;
  token_b_ref <-! initialized underlying_pool.(Pool.token_b_ref) ;;
  token_a_account <-! initialized underlying_pool.(Pool.token_a_account) ;;
  token_b_account <-! initialized underlying_pool.(Pool.token_b_account) ;;
  let accounts := [signer wallet_address; readonly fund_ref; writable fund.(Fund.info_account);
      readonly custodies_assets_account; writable vaults_assets_account; writable vault_metadata;
      readonly vault.(FundVault.vault_ref); readonly underlying_pool_ref; readonly token_a_ref;
      readonly token_b_ref; readonly underlying_lp_token.(Token.mint); readonly token_a_account;
      readonly token_b_account; readonly amm_id; readonly amm_open_orders;
      readonly (default zero_id oracle_account_token_a);
      readonly (default zero_id oracle_account_token_b); readonly instructions_sysvar] in
  data <-! packed (FundInstruction.to_vec FundInstruction.UpdateAssetsWithVault) ;;
  st_ok {| Cpi.program_id := fund.(Fund.fund_program_id); Cpi.accounts := accounts; Cpi.data := data
      |}.

Definition new_instruction_start_liquidation_fund (wallet_address : Z) (fund_name : Name)
    : Client Instruction :=
  fund <-! get_fund fund_name ;;
  fund_ref <-! get_fund_ref fund_name ;;
  fund_token <-! get_token_by_ref fund.(Fund.fund_token_ref) ;;
  user_info_account <-! get_fund_user_info_account wallet_address fund_name ;;
  user_fund_token_account <-! get_associated_token_address wallet_address fund_token.(Token.name) ;;
  data <-! packed (FundInstruction.to_vec FundInstruction.StartLiquidation) ;;
  let accounts := [signer wallet_address; readonly fund_ref; writable fund.(Fund.info_account);
      writable fund_token.(Token.mint); readonly user_info_account;
      readonly user_fund_token_account; readonly instructions_sysvar] in
  st_ok {| Cpi.program_id := fund.(Fund.fund_program_id); Cpi.accounts := accounts; Cpi.data := data
      |}.

Definition new_instruction_stop_liquidation_fund (admin_address : Z) (fund_name : Name)
    : Client Instruction :=
  fund <-! get_fund fund_name ;;
  fund_ref <-! get_fund_ref fund_name ;;
  data <-! packed (FundInstruction.to_vec FundInstruction.StopLiquidation) ;;
  active <-! get_fund_active_multisig_account fund_name ;;
  let accounts := [signer admin_address; readonly fund_ref; writable fund.(Fund.info_account);
      writable active] in
  st_ok {| Cpi.program_id := fund.(Fund.fund_program_id); Cpi.accounts := accounts; Cpi.data := data
      |}.

Definition new_instruction_withdraw_fees_fund (wallet_address : Z) (fund_name token_name : Name)
    (custody_type : FundCustodyType) (ui_amount : f64) (receiver : Z) : Client Instruction :=
  fund <-! get_fund fund_name ;;
  fund_ref <-! get_fund_ref fund_name ;;
  custody_fees_token_account <-! get_fund_custody_fees_token_account fund_name token_name
      custody_type ;;
  token <-! get_token token_name ;;
  amount <-! ui_amount_to_tokens_with_decimals ui_amount token.(Token.decimals) ;;
  data <-! packed (FundInstruction.to_vec (FundInstruction.WithdrawFees amount)) ;;
  active <-! get_fund_active_multisig_account fund_name ;;
  fund_multisig_account <-! get_fund_multisig_account fund_name ;;
  let accounts := [signer wallet_address; readonly fund_ref; writable fund.(Fund.info_account);
      writable active; writable fund_multisig_account; readonly spl_token_id;
      writable custody_fees_token_account; writable receiver] in
  st_ok {| Cpi.program_id := fund.(Fund.fund_program_id); Cpi.accounts := accounts; Cpi.data := data
      |}.

Definition build_fund_instruction (admin_address : Z) (fund_name : Name)
    (pool_instruction : Instruction) (pool_or_farm_name : Name) (vault_type : FundVaultType)
    : Client Instruction :=
  fund <-! get_fund fund_name ;;
  fund_ref <-! get_fund_ref fund_name ;;
  protocol <-! get_protocol pool_or_farm_name ;;
  unpacked_instruction <-! program (AmmInstruction.unpack_amm pool_instruction.(Cpi.data)) ;;
  data <-! (match protocol with
  | ClientNames.Raydium =>
      packed (FundInstruction.to_vec (FundInstruction.AmmInstructionRaydium unpacked_instruction))
  | ClientNames.Orca =>
      packed (FundInstruction.to_vec (FundInstruction.AmmInstructionOrca unpacked_instruction))
  | _ =>
      st_bail (ValueError [Text "Unsupported protocol "; Text (protocol_name protocol);
          Text " for Fund "; Str fund_name])
  end) ;;
  x <-! (if (match unpacked_instruction with AmmInstruction.AddLiquidity _ _ => true | _ => false
      end) || (match unpacked_instruction with AmmInstruction.RemoveLiquidity _ => true | _ => false
      end) then
    fund_vault_account <-! get_fund_vault_account fund_name pool_or_farm_name vault_type ;;
    st_ok (writable fund_vault_account)
  else
    fund_vault_account2 <-! get_fund_vault_account fund_name pool_or_farm_name vault_type ;;
    st_ok (readonly fund_vault_account2)) ;;
  let accounts := [signer admin_address; readonly fund_ref; writable fund.(Fund.info_account); if
      match unpacked_instruction with AmmInstruction.UserInit => true | _ => false end then
    writable fund.(Fund.fund_authority)
  else
    readonly fund.(Fund.fund_authority); readonly pool_instruction.(Cpi.program_id); x] in
  rest <- slice_from 1 pool_instruction.(Cpi.accounts) ;;
  let accounts := accounts ++ rest in
  accounts <-! (if match unpacked_instruction with AmmInstruction.Swap _ _ _ => true | _ => false
      end then
    st_ok (accounts ++ [readonly instructions_sysvar])
  else
    st_ok accounts) ;;
  st_ok {| Cpi.program_id := fund.(Fund.fund_program_id); Cpi.accounts := accounts; Cpi.data := data
      |}.

Definition new_instruction_fund_add_liquidity_pool (admin_address : Z) (fund_name pool_name : Name)
    (max_token_a_ui_amount max_token_b_ui_amount : f64) : Client Instruction :=
  fund <-! get_fund fund_name ;;
  pool_inst <-! new_instruction_add_liquidity_pool fund.(Fund.fund_authority) pool_name
      max_token_a_ui_amount max_token_b_ui_amount ;;
  build_fund_instruction admin_address fund_name pool_inst pool_name TypePool.

Definition new_instruction_fund_remove_liquidity_pool (admin_address : Z)
    (fund_name pool_name : Name) (ui_amount : f64) : Client Instruction :=
  fund <-! get_fund fund_name ;;
  pool_inst <-! new_instruction_remove_liquidity_pool fund.(Fund.fund_authority) pool_name ui_amount
      ;;
  build_fund_instruction admin_address fund_name pool_inst pool_name TypePool.

Definition new_instruction_fund_swap (admin_address : Z) (fund_name : Name) (protocol : Protocol)
    (from_token to_token : Name) (ui_amount_in min_ui_amount_out : f64) : Client Instruction :=
  fund <-! get_fund fund_name ;;
  find_pools_ <-! find_pools protocol from_token to_token ;;
  pool <- st_unwrap (find_pools_ !! 0%nat) ;;
  pool_inst <-! new_instruction_swap fund.(Fund.fund_authority) protocol from_token to_token
      ui_amount_in min_ui_amount_out ;;
  build_fund_instruction admin_address fund_name pool_inst pool.(Pool.name) TypePool.

Definition new_instruction_fund_user_init_farm (admin_address : Z) (fund_name farm_name : Name)
    : Client Instruction :=
  fund <-! get_fund fund_name ;;
  farm_inst <-! new_instruction_user_init fund.(Fund.fund_authority) farm_name ;;
  build_fund_instruction admin_address fund_name farm_inst farm_name TypeFarm.

Definition new_instruction_fund_stake (admin_address : Z) (fund_name farm_name : Name)
    (ui_amount : f64) : Client Instruction :=
  fund <-! get_fund fund_name ;;
  farm_inst <-! new_instruction_stake fund.(Fund.fund_authority) farm_name ui_amount ;;
  build_fund_instruction admin_address fund_name farm_inst farm_name TypeFarm.

Definition new_instruction_fund_unstake (admin_address : Z) (fund_name farm_name : Name)
    (ui_amount : f64) : Client Instruction :=
  fund <-! get_fund fund_name ;;
  farm_inst <-! new_instruction_unstake fund.(Fund.fund_authority) farm_name ui_amount ;;
  build_fund_instruction admin_address fund_name farm_inst farm_name TypeFarm.

Definition new_instruction_fund_harvest (admin_address : Z) (fund_name farm_name : Name)
    : Client Instruction :=
  fund <-! get_fund fund_name ;;
  farm_inst <-! new_instruction_harvest fund.(Fund.fund_authority) farm_name ;;
  build_fund_instruction admin_address fund_name farm_inst farm_name TypeFarm.

Definition build_fund_vault_instruction (admin_address : Z) (fund_name : Name)
    (vault_instruction : Instruction) (vault_name : Name) : Client Instruction :=
  fund <-! get_fund fund_name ;;
  fund_ref <-! get_fund_ref fund_name ;;
  protocol <-! get_protocol vault_name ;;
  unpacked_instruction <-! program (VaultInstruction.unpack_vault vault_instruction.(Cpi.data)) ;;
  data <-! (match protocol with
  | ClientNames.Raydium =>
      packed (FundInstruction.to_vec (FundInstruction.VaultInstructionRaydium unpacked_instruction))
  | ClientNames.Orca =>
      packed (FundInstruction.to_vec (FundInstruction.VaultInstructionOrca unpacked_instruction))
  | _ =>
      st_bail (ValueError [Text "Unsupported protocol "; Text (protocol_name protocol);
          Text " for Fund "; Str fund_name])
  end) ;;
  x <-! (if (match unpacked_instruction with VaultInstruction.AddLiquidity _ _ => true | _ => false
      end) || (match unpacked_instruction with VaultInstruction.RemoveLiquidity _ => true | _ =>
      false end) then
    fund_vault_account <-! get_fund_vault_account fund_name vault_name TypeVault ;;
    st_ok (writable fund_vault_account)
  else
    fund_vault_account2 <-! get_fund_vault_account fund_name vault_name TypeVault ;;
    st_ok (readonly fund_vault_account2)) ;;
  let accounts := [signer admin_address; readonly fund_ref; writable fund.(Fund.info_account); if
      match unpacked_instruction with VaultInstruction.UserInit => true | _ => false end then
    writable fund.(Fund.fund_authority)
  else
    readonly fund.(Fund.fund_authority); readonly vault_instruction.(Cpi.program_id); x] in
  rest <- slice_from 1 vault_instruction.(Cpi.accounts) ;;
  let accounts := accounts ++ rest in
  st_ok {| Cpi.program_id := fund.(Fund.fund_program_id); Cpi.accounts := accounts; Cpi.data := data
      |}.

Definition new_instruction_fund_user_init_vault (admin_address : Z) (fund_name vault_name : Name)
    : Client Instruction :=
  fund <-! get_fund fund_name ;;
  vault_inst <-! new_instruction_user_init_vault fund.(Fund.fund_authority) vault_name ;;
  build_fund_vault_instruction admin_address fund_name vault_inst vault_name.

Definition new_instruction_fund_add_liquidity_vault (admin_address : Z)
    (fund_name vault_name : Name) (max_token_a_ui_amount max_token_b_ui_amount : f64)
    : Client Instruction :=
  fund <-! get_fund fund_name ;;
  vault_inst <-! new_instruction_add_liquidity_vault fund.(Fund.fund_authority) vault_name
      max_token_a_ui_amount max_token_b_ui_amount ;;
  build_fund_vault_instruction admin_address fund_name vault_inst vault_name.

Definition new_instruction_fund_lock_liquidity_vault (admin_address : Z)
    (fund_name vault_name : Name) (ui_amount : f64) : Client Instruction :=
  fund <-! get_fund fund_name ;;
  vault_inst <-! new_instruction_lock_liquidity_vault fund.(Fund.fund_authority) vault_name
      ui_amount ;;
  build_fund_vault_instruction admin_address fund_name vault_inst vault_name.

Definition new_instruction_fund_remove_liquidity_vault (admin_address : Z)
    (fund_name vault_name : Name) (ui_amount : f64) : Client Instruction :=
  fund <-! get_fund fund_name ;;
  vault_inst <-! new_instruction_remove_liquidity_vault fund.(Fund.fund_authority) vault_name
      ui_amount ;;
  build_fund_vault_instruction admin_address fund_name vault_inst vault_name.

Definition new_instruction_fund_unlock_liquidity_vault (admin_address : Z)
    (fund_name vault_name : Name) (ui_amount : f64) : Client Instruction :=
  fund <-! get_fund fund_name ;;
  vault_inst <-! new_instruction_unlock_liquidity_vault fund.(Fund.fund_authority) vault_name
      ui_amount ;;
  build_fund_vault_instruction admin_address fund_name vault_inst vault_name.

End Funds.
