(* ===== verification/ClientRouter.v ===== *)
(** * Main router instructions of the farm client ([client/main_router_instructions.rs])

    Instructions for the reference databases and for the administration of programs. *)

From Stdlib Require Import String.
From S2P Require Import Prelude MachineInt Float64 Amounts Pack RefDB AmmInstruction VaultInstruction Token Pool Farm Vault Fund FundInstruction RefDbInstruction MainInstruction SdkAccount Multisig Cpi Oracle ClientNames Client ClientReads.

(** [ProgramIDType], with the discriminants of the source. *)
Inductive ProgramIDType :=
| PidSystem | PidProgramsRef | PidVaultsRef | PidVault | PidFarmsRef | PidFarm | PidPoolsRef | PidPool
| PidTokensRef | PidToken | PidMainRouter | PidSerum | PidRaydium | PidSaber | PidOrca | PidFundsRef | PidFund.

(** [program_id_type as u16]: the position of the variant. *)
Definition program_id_type_code (t : ProgramIDType) : Z :=
  match t with
  | PidSystem => 0 | PidProgramsRef => 1 | PidVaultsRef => 2 | PidVault => 3 | PidFarmsRef => 4
  | PidFarm => 5 | PidPoolsRef => 6 | PidPool => 7 | PidTokensRef => 8 | PidToken => 9
  | PidMainRouter => 10 | PidSerum => 11 | PidRaydium => 12 | PidSaber => 13 | PidOrca => 14
  | PidFundsRef => 15 | PidFund => 16
  end.

Section Router.
Context `{FarmEnv}.

Definition new_instruction_set_program_admins (admin_address prog_id : Z) (admin_signers : (list Z))
    (min_signatures : Z) : Client Instruction :=
  if (bool_decide (admin_signers = [])) || (min_signatures =? 0) then
    st_bail (ValueError [Text "At least one signer is required"]) else
  if ((Z.of_nat (List.length admin_signers)) <? min_signatures) || ((Z.of_nat Multisig.MAX_SIGNERS)
      <? (Z.of_nat (List.length admin_signers))) then
    st_bail (ValueError [Text "Invalid number of signatures"]) else
  program_multisig_account <-! get_program_multisig_account prog_id ;;
  program_buffer_account <-! get_program_buffer_account prog_id ;;
  let inst := {| Cpi.program_id := main_router; Cpi.accounts := [signer admin_address;
      writable program_multisig_account; readonly prog_id; writable program_buffer_account;
      readonly system_program; readonly bpf_loader_upgradeable]; Cpi.data := [] |} in
  let inst := fold_left (fun inst key =>
      push_account (readonly key) inst) admin_signers inst in
  data <-! packed (MainInstruction.to_vec (MainInstruction.SetProgramAdminSigners min_signatures))
      ;;
  st_ok (set_instruction_data data inst).

Definition new_instruction_set_program_single_authority
    (admin_address prog_id upgrade_authority : Z) : Client Instruction :=
  data <-! packed (MainInstruction.to_vec MainInstruction.SetProgramSingleAuthority) ;;
  program_multisig_account <-! get_program_multisig_account prog_id ;;
  program_buffer_account <-! get_program_buffer_account prog_id ;;
  st_ok {| Cpi.program_id := main_router; Cpi.accounts := [signer admin_address;
      writable program_multisig_account; readonly prog_id; writable program_buffer_account;
      readonly upgrade_authority; readonly bpf_loader_upgradeable]; Cpi.data := data |}.

Definition new_instruction_upgrade_program (admin_address prog_id source_buffer_address : Z)
    : Client Instruction :=
  data <-! packed (MainInstruction.to_vec MainInstruction.UpgradeProgram) ;;
  program_multisig_account <-! get_program_multisig_account prog_id ;;
  program_buffer_account <-! get_program_buffer_account prog_id ;;
  st_ok {| Cpi.program_id := main_router; Cpi.accounts := [signer admin_address;
      writable program_multisig_account; writable prog_id; writable program_buffer_account;
      writable source_buffer_address; readonly rent_sysvar; readonly clock_sysvar;
      readonly bpf_loader_upgradeable]; Cpi.data := data |}.

Definition new_instruction_refdb_init (admin_address : Z) (refdb_name : Name)
    (reference_type : ReferenceType) (max_records : Z) (init_account : bool) : Client Instruction :=
  pda <- find_refdb_pda refdb_name ;;
  let inst := {| Cpi.program_id := main_router; Cpi.accounts := [signer admin_address;
      writable main_router_multisig; writable (fst pda); readonly system_program]; Cpi.data := [] |}
      in
  name <-! str_to_as64 refdb_name ;;
  data <-! packed (MainInstruction.to_vec (MainInstruction.RefDb (RefDbInstruction.Init name
      reference_type max_records (init_account && REFDB_ONCHAIN_INIT)))) ;;
  st_ok (set_instruction_data data inst).

Definition new_instruction_set_admins (admin_address : Z) (admin_signers : (list Z))
    (min_signatures : Z) : Client Instruction :=
  if (bool_decide (admin_signers = [])) || (min_signatures =? 0) then
    st_bail (ValueError [Text "At least one signer is required"]) else
  if ((Z.of_nat (List.length admin_signers)) <? min_signatures) || ((Z.of_nat Multisig.MAX_SIGNERS)
      <? (Z.of_nat (List.length admin_signers))) then
    st_bail (ValueError [Text "Invalid number of signatures"]) else
  let inst := {| Cpi.program_id := main_router; Cpi.accounts := [signer admin_address;
      writable main_router_multisig; readonly system_program]; Cpi.data := [] |} in
  let inst := fold_left (fun inst key =>
      push_account (readonly key) inst) admin_signers inst in
  data <-! packed (MainInstruction.to_vec (MainInstruction.SetAdminSigners min_signatures)) ;;
  st_ok (set_instruction_data data inst).

Definition new_instruction_refdb_drop (admin_address : Z) (refdb_name : Name) (close_account : bool)
    : Client Instruction :=
  pda <- find_refdb_pda refdb_name ;;
  let inst := {| Cpi.program_id := main_router; Cpi.accounts := [signer admin_address;
      writable main_router_multisig; writable (fst pda); readonly system_program]; Cpi.data := [] |}
      in
  data <-! packed (MainInstruction.to_vec (MainInstruction.RefDb (RefDbInstruction.Drop
      close_account))) ;;
  st_ok (set_instruction_data data inst).

Definition new_instruction_refdb_delete (admin_address : Z) (refdb_name : Name) (record : Record_)
    : Client Instruction :=
  pda <- find_refdb_pda refdb_name ;;
  let inst := {| Cpi.program_id := main_router; Cpi.accounts := [signer admin_address;
      writable main_router_multisig; writable (fst pda); readonly system_program]; Cpi.data := [] |}
      in
  data <-! packed (MainInstruction.to_vec (MainInstruction.RefDb (RefDbInstruction.Delete record)))
      ;;
  st_ok (set_instruction_data data inst).

Definition new_instruction_remove_reference (admin_address : Z) (storage_type : StorageType)
    (object_name : Name) : Client Instruction :=
  res <- get_refdb_index (storage_name storage_type) object_name ;;
  refdb_index <- st_unwrap (result_to_option res) ;;
  name <-! str_to_as64 object_name ;;
  new_instruction_refdb_delete admin_address (storage_name storage_type) {| r_index := option_map
      (fun idx => wrap_u32 (Z.of_nat idx)) refdb_index; r_counter := 0; r_tag := 0; r_name := name;
      r_reference := RefEmpty |}.

Definition new_instruction_refdb_write (admin_address : Z) (refdb_name : Name) (record : Record_)
    : Client Instruction :=
  pda <- find_refdb_pda refdb_name ;;
  let inst := {| Cpi.program_id := main_router; Cpi.accounts := [signer admin_address;
      writable main_router_multisig; writable (fst pda); readonly system_program]; Cpi.data := [] |}
      in
  data <-! packed (MainInstruction.to_vec (MainInstruction.RefDb (RefDbInstruction.Write record)))
      ;;
  st_ok (set_instruction_data data inst).

Definition new_instruction_add_program_id (admin_address : Z) (name : Name) (program_id : Z)
    (program_id_type : ProgramIDType) (refdb_index : (option Z)) : Client Instruction :=
  name2 <-! str_to_as64 name ;;
  new_instruction_refdb_write admin_address (storage_name StProgram) {| r_index := option_map (fun
      idx => wrap_u32 idx) refdb_index; r_counter := 0; r_tag := program_id_type_code
      program_id_type; r_name := name2; r_reference := RefPubkey program_id |}.

Definition new_instruction_remove_program_id (admin_address : Z) (name : Name)
    : Client Instruction :=
  res <- get_program_id name ;;
  refdb_index <- (if is_ok res then
    res2 <- get_refdb_index (storage_name StProgram) name ;;
    st_unwrap (result_to_option res2)
  else
    st_ret None) ;;
  name2 <-! str_to_as64 name ;;
  new_instruction_refdb_delete admin_address (storage_name StProgram) {| r_index := option_map (fun
      idx => wrap_u32 (Z.of_nat idx)) refdb_index; r_counter := 0; r_tag := 0; r_name := name2;
      r_reference := RefEmpty |}.

Definition new_instruction_add_fund (admin_address : Z) (fund : Fund.t) : Client Instruction :=
  pda <- find_refdb_pda (storage_name StFund) ;;
  let inst := {| Cpi.program_id := main_router; Cpi.accounts := [signer admin_address;
      writable main_router_multisig; writable (fst pda); writable (fst (find_target_pda StFund
      fund.(Fund.name))); readonly system_program]; Cpi.data := [] |} in
  data <-! packed (MainInstruction.to_vec (MainInstruction.AddFund fund)) ;;
  st_ok (set_instruction_data data inst).

Definition new_instruction_remove_fund (admin_address : Z) (fund_name : Name)
    : Client Instruction :=
  name <-! str_to_as64 fund_name ;;
  res <- get_fund fund_name ;;
  let refdb_index := match res with
  | Ok fund =>
      fund.(Fund.refdb_index)
  | Err _ =>
      None
  end in
  pda <- find_refdb_pda (storage_name StFund) ;;
  let inst := {| Cpi.program_id := main_router; Cpi.accounts := [signer admin_address;
      writable main_router_multisig; writable (fst pda); writable (fst (find_target_pda StFund
      name)); readonly system_program]; Cpi.data := [] |} in
  data <-! packed (MainInstruction.to_vec (MainInstruction.RemoveFund name refdb_index)) ;;
  st_ok (set_instruction_data data inst).

Definition new_instruction_add_vault (admin_address : Z) (vault : Vault) : Client Instruction :=
  pda <- find_refdb_pda (storage_name StVault) ;;
  let inst := {| Cpi.program_id := main_router; Cpi.accounts := [signer admin_address;
      writable main_router_multisig; writable (fst pda); writable (fst (find_target_pda StVault
      vault.(Vault.name))); readonly system_program]; Cpi.data := [] |} in
  data <-! packed (MainInstruction.to_vec (MainInstruction.AddVault vault)) ;;
  st_ok (set_instruction_data data inst).

Definition new_instruction_remove_vault (admin_address : Z) (vault_name : Name)
    : Client Instruction :=
  name <-! str_to_as64 vault_name ;;
  res <- get_vault vault_name ;;
  let refdb_index := match res with
  | Ok vault =>
      vault.(Vault.refdb_index)
  | Err _ =>
      None
  end in
  pda <- find_refdb_pda (storage_name StVault) ;;
  let inst := {| Cpi.program_id := main_router; Cpi.accounts := [signer admin_address;
      writable main_router_multisig; writable (fst pda); writable (fst (find_target_pda StVault
      name)); readonly system_program]; Cpi.data := [] |} in
  data <-! packed (MainInstruction.to_vec (MainInstruction.RemoveVault name refdb_index)) ;;
  st_ok (set_instruction_data data inst).

Definition new_instruction_add_pool (admin_address : Z) (pool : Pool) : Client Instruction :=
  pda <- find_refdb_pda (storage_name StPool) ;;
  let inst := {| Cpi.program_id := main_router; Cpi.accounts := [signer admin_address;
      writable main_router_multisig; writable (fst pda); writable (fst (find_target_pda StPool
      pool.(Pool.name))); readonly system_program]; Cpi.data := [] |} in
  data <-! packed (MainInstruction.to_vec (MainInstruction.AddPool pool)) ;;
  st_ok (set_instruction_data data inst).

Definition new_instruction_remove_pool (admin_address : Z) (pool_name : Name)
    : Client Instruction :=
  name <-! str_to_as64 pool_name ;;
  res <- get_pool pool_name ;;
  let refdb_index := match res with
  | Ok pool =>
      pool.(Pool.refdb_index)
  | Err _ =>
      None
  end in
  pda <- find_refdb_pda (storage_name StPool) ;;
  let inst := {| Cpi.program_id := main_router; Cpi.accounts := [signer admin_address;
      writable main_router_multisig; writable (fst pda); writable (fst (find_target_pda StPool
      name)); readonly system_program]; Cpi.data := [] |} in
  data <-! packed (MainInstruction.to_vec (MainInstruction.RemovePool name refdb_index)) ;;
  st_ok (set_instruction_data data inst).

Definition new_instruction_add_farm (admin_address : Z) (farm : Farm) : Client Instruction :=
  pda <- find_refdb_pda (storage_name StFarm) ;;
  let inst := {| Cpi.program_id := main_router; Cpi.accounts := [signer admin_address;
      writable main_router_multisig; writable (fst pda); writable (fst (find_target_pda StFarm
      farm.(Farm.name))); readonly system_program]; Cpi.data := [] |} in
  data <-! packed (MainInstruction.to_vec (MainInstruction.AddFarm farm)) ;;
  st_ok (set_instruction_data data inst).

Definition new_instruction_remove_farm (admin_address : Z) (farm_name : Name)
    : Client Instruction :=
  name <-! str_to_as64 farm_name ;;
  res <- get_farm farm_name ;;
  let refdb_index := match res with
  | Ok farm =>
      farm.(Farm.refdb_index)
  | Err _ =>
      None
  end in
  pda <- find_refdb_pda (storage_name StFarm) ;;
  let inst := {| Cpi.program_id := main_router; Cpi.accounts := [signer admin_address;
      writable main_router_multisig; writable (fst pda); writable (fst (find_target_pda StFarm
      name)); readonly system_program]; Cpi.data := [] |} in
  data <-! packed (MainInstruction.to_vec (MainInstruction.RemoveFarm name refdb_index)) ;;
  st_ok (set_instruction_data data inst).

Definition new_instruction_add_token (admin_address : Z) (token : Token) : Client Instruction :=
  pda <- find_refdb_pda (storage_name StToken) ;;
  let inst := {| Cpi.program_id := main_router; Cpi.accounts := [signer admin_address;
      writable main_router_multisig; writable (fst pda); writable (fst (find_target_pda StToken
      token.(Token.name))); readonly system_program]; Cpi.data := [] |} in
  data <-! packed (MainInstruction.to_vec (MainInstruction.AddToken token)) ;;
  st_ok (set_instruction_data data inst).

Definition new_instruction_remove_token (admin_address : Z) (token_name : Name)
    : Client Instruction :=
  name <-! str_to_as64 token_name ;;
  res <- get_token token_name ;;
  let refdb_index := match res with
  | Ok token =>
      token.(Token.refdb_index)
  | Err _ =>
      None
  end in
  pda <- find_refdb_pda (storage_name StToken) ;;
  let inst := {| Cpi.program_id := main_router; Cpi.accounts := [signer admin_address;
      writable main_router_multisig; writable (fst pda); writable (fst (find_target_pda StToken
      name)); readonly system_program]; Cpi.data := [] |} in
  data <-! packed (MainInstruction.to_vec (MainInstruction.RemoveToken name refdb_index)) ;;
  st_ok (set_instruction_data data inst).

End Router.
