(* ===== verification/ClientChecks.v ===== *)
(** * Checks of the farm client ([crates/solana_farm_client/src/client.rs])

    Before an operation the accounts that it needs are looked up; the instructions
    that create what is missing are pushed to the vector. *)

From Stdlib Require Import String.
From S2P Require Import Prelude MachineInt Float64 Amounts Pack RefDB AmmInstruction VaultInstruction Token Pool Farm Vault Fund FundInstruction RefDbInstruction MainInstruction SdkAccount Multisig Cpi Oracle ClientNames Client ClientReads ClientPool ClientFarm ClientVault ClientFund.

Section Checks.
Context `{FarmEnv}.

Definition send_sol_to_wsol (wallet_address : Z) (ui_amount : f64)
    (instruction_vec : (list Instruction)) : Client (list Instruction) :=
  token_addr <-! get_associated_token_address wallet_address (str "SOL") ;;
  instruction_transfer <-! new_instruction_transfer wallet_address token_addr ui_amount ;;
  instruction_sync_token_balance <-! new_instruction_sync_token_balance wallet_address (str "SOL")
      ;;
  st_ok (instruction_vec ++ [instruction_transfer; instruction_sync_token_balance]).

Definition check_token_account (wallet_address : Z) (token : (option Token)) (ui_amount : f64)
    (instruction_vec : (list Instruction)) : Client (list Instruction) :=
  match token with
  | Some tkn =>
      is_active <- has_active_token_account wallet_address tkn.(Token.name) ;;
      if negb is_active then
        create <-! new_instruction_create_token_account wallet_address tkn.(Token.name) ;;
        let instruction_vec := instruction_vec ++ [create] in
        if f64_gt ui_amount f64_zero then
          if bool_decide (tkn.(Token.token_type) = Token.WrappedSol) then
            account_balance <-! get_account_balance wallet_address ;;
            if f64_lt account_balance ui_amount then
              st_bail (InsufficientBalance [Str tkn.(Token.name)]) else
            send_sol_to_wsol wallet_address ui_amount instruction_vec
          else
            st_bail (InsufficientBalance [Str tkn.(Token.name)])
        else
          st_ok instruction_vec
      else
        if f64_gt ui_amount f64_zero then
          balance <-! get_token_account_balance wallet_address tkn.(Token.name) ;;
          if f64_lt balance ui_amount then
            if bool_decide (tkn.(Token.token_type) = Token.WrappedSol) then
              account_balance2 <-! get_account_balance wallet_address ;;
              if f64_lt account_balance2 (f64_sub ui_amount balance) then
                st_bail (InsufficientBalance [Str tkn.(Token.name)]) else
              send_sol_to_wsol wallet_address (f64_sub ui_amount balance) instruction_vec
            else
              st_bail (InsufficientBalance [Str tkn.(Token.name)])
          else
            st_ok instruction_vec
        else
          st_ok instruction_vec
  | _ =>
      st_ok instruction_vec
  end.

Definition check_vault_accounts (wallet_address : Z) (vault_name : Name)
    (ui_amount_token_a ui_amount_token_b ui_amount_vt_token : f64)
    (check_vt_token check_lp_token : bool) (instruction_vec : (list Instruction))
    : Client (list Instruction) :=
  vault <-! get_vault vault_name ;;
  vault_token <-! get_token_by_ref_from_cache (Some vault.(Vault.vault_token_ref)) ;;
  pool <-! get_underlying_pool vault_name ;;
  farm <-! get_underlying_farm vault_name ;;
  token_a <-! get_token_by_ref_from_cache pool.(Pool.token_a_ref) ;;
  token_b <-! get_token_by_ref_from_cache pool.(Pool.token_b_ref) ;;
  lp_token <-! get_token_by_ref_from_cache pool.(Pool.lp_token_ref) ;;
  token_a_reward <-! get_token_by_ref_from_cache farm.(Farm.first_reward_token_ref) ;;
  token_b_reward <-! get_token_by_ref_from_cache farm.(Farm.second_reward_token_ref) ;;
  instruction_vec <-! (if check_vt_token then
    check_token_account wallet_address vault_token ui_amount_vt_token instruction_vec
  else
    st_ok instruction_vec) ;;
  instruction_vec <-! (if check_lp_token then
    check_token_account wallet_address lp_token f64_zero instruction_vec
  else
    st_ok instruction_vec) ;;
  instruction_vec <-! check_token_account wallet_address token_a ui_amount_token_a instruction_vec
      ;;
  instruction_vec <-! check_token_account wallet_address token_b ui_amount_token_b instruction_vec
      ;;
  holds2 <- (if is_some token_a_reward then
    holds <- (if is_none token_a then st_ret true else
      token_a_ <- st_unwrap token_a ;;
      token_a_reward_ <- st_unwrap token_a_reward ;;
      st_ret (negb (bool_decide (token_a_.(Token.name) = token_a_reward_.(Token.name))))) ;;
    st_ret holds
  else st_ret false) ;;
  holds4 <- (if holds2 then
    holds3 <- (if is_none token_b then st_ret true else
      token_b_ <- st_unwrap token_b ;;
      token_a_reward_2 <- st_unwrap token_a_reward ;;
      st_ret (negb (bool_decide (token_b_.(Token.name) = token_a_reward_2.(Token.name))))) ;;
    st_ret holds3
  else st_ret false) ;;
  instruction_vec <-! (if holds4 then
    check_token_account wallet_address token_a_reward f64_zero instruction_vec
  else
    st_ok instruction_vec) ;;
  holds6 <- (if is_some token_b_reward then
    holds5 <- (if is_none token_a then st_ret true else
      token_a_2 <- st_unwrap token_a ;;
      token_b_reward_ <- st_unwrap token_b_reward ;;
      st_ret (negb (bool_decide (token_a_2.(Token.name) = token_b_reward_.(Token.name))))) ;;
    st_ret holds5
  else st_ret false) ;;
  holds8 <- (if holds6 then
    holds7 <- (if is_none token_b then st_ret true else
      token_b_2 <- st_unwrap token_b ;;
      token_b_reward_2 <- st_unwrap token_b_reward ;;
      st_ret (negb (bool_decide (token_b_2.(Token.name) = token_b_reward_2.(Token.name))))) ;;
    st_ret holds7
  else st_ret false) ;;
  holds10 <- (if holds8 then
    holds9 <- (if is_none token_a_reward then st_ret true else
      token_a_reward_3 <- st_unwrap token_a_reward ;;
      token_b_reward_3 <- st_unwrap token_b_reward ;;
      st_ret (negb (bool_decide (token_a_reward_3.(Token.name) = token_b_reward_3.(Token.name)))))
          ;;
    st_ret holds9
  else st_ret false) ;;
  instruction_vec <-! (if holds10 then
    check_token_account wallet_address token_b_reward f64_zero instruction_vec
  else
    st_ok instruction_vec) ;;
  res <- get_vault_user_info wallet_address vault_name ;;
  if is_err res then
    instruction_user_init_vault <-! new_instruction_user_init_vault wallet_address vault_name ;;
    st_ok (instruction_vec ++ [instruction_user_init_vault])
  else
    st_ok instruction_vec.

Definition check_pool_accounts (wallet_address : Z) (pool_name : Name)
    (ui_amount_token_a ui_amount_token_b ui_amount_lp_token : f64) (check_lp_token : bool)
    (instruction_vec : (list Instruction)) : Client (list Instruction) :=
  pool <-! get_pool pool_name ;;
  token_a <-! get_token_by_ref_from_cache pool.(Pool.token_a_ref) ;;
  token_b <-! get_token_by_ref_from_cache pool.(Pool.token_b_ref) ;;
  lp_token <-! get_token_by_ref_from_cache pool.(Pool.lp_token_ref) ;;
  instruction_vec <-! (if check_lp_token then
    check_token_account wallet_address lp_token ui_amount_lp_token instruction_vec
  else
    st_ok instruction_vec) ;;
  instruction_vec <-! check_token_account wallet_address token_a ui_amount_token_a instruction_vec
      ;;
  check_token_account wallet_address token_b ui_amount_token_b instruction_vec.

Definition check_user_stake_account (wallet_address : Z) (farm_name : Name)
    (instruction_vec : (list Instruction)) : Client (list Instruction) :=
  farm <-! get_farm farm_name ;;
  acc_address <-! (match farm.(Farm.route) with
  | Farm.Raydium _ _ _ _ _ =>
      get_raydium_stake_account wallet_address farm_name
  | Farm.Orca _ _ _ _ _ =>
      get_orca_stake_account wallet_address farm_name
  end) ;;
  data <- ask (get_account_data acc_address) ;;
  holds <- (if is_err data then st_ret true else
    data2 <- st_unwrap (result_to_option data) ;;
    st_ret (bool_decide (data2 = []))) ;;
  if holds then
    instruction_user_init <-! new_instruction_user_init wallet_address farm_name ;;
    st_ok (instruction_vec ++ [instruction_user_init])
  else
    st_ok instruction_vec.

Definition check_farm_accounts (wallet_address : Z) (farm_name : Name) (ui_amount : f64)
    (instruction_vec : (list Instruction)) : Client (list Instruction) :=
  farm <-! get_farm farm_name ;;
  token_a <-! get_token_by_ref_from_cache farm.(Farm.first_reward_token_ref) ;;
  token_b <-! get_token_by_ref_from_cache farm.(Farm.second_reward_token_ref) ;;
  lp_token <-! get_token_by_ref_from_cache farm.(Farm.lp_token_ref) ;;
  instruction_vec <-! check_token_account wallet_address token_a f64_zero instruction_vec ;;
  instruction_vec <-! check_token_account wallet_address token_b f64_zero instruction_vec ;;
  instruction_vec <-! check_token_account wallet_address lp_token ui_amount instruction_vec ;;
  instruction_vec <-! check_user_stake_account wallet_address farm_name instruction_vec ;;
  match farm.(Farm.route) with
  | Farm.Orca _ _ farm_token_ref _ _ =>
      farm_lp_token <-! get_token_by_ref farm_token_ref ;;
      let user_farm_lp_token_account := associated_token_address wallet_address
          farm_lp_token.(Token.mint) in
      data <- ask (get_account_data user_farm_lp_token_account) ;;
      holds <- (if is_err data then st_ret true else
        data2 <- st_unwrap (result_to_option data) ;;
        st_ret (bool_decide (data2 = []))) ;;
      if holds then
        st_ok (create_associated_token_account wallet_address wallet_address
            farm_lp_token.(Token.mint) :: instruction_vec)
      else
        st_ok instruction_vec
  | _ =>
      st_ok instruction_vec
  end.

Definition check_fund_accounts (wallet_address : Z) (fund_name token_name : Name) (ui_amount : f64)
    (instruction_vec : list Instruction) : Client (list Instruction) :=
  fund <-! get_fund fund_name ;;
  fund_token <-! get_token_by_ref fund.(Fund.fund_token_ref) ;;
  asset_token <-! get_token token_name ;;
  instruction_vec <-! check_token_account wallet_address (Some fund_token) f64_zero instruction_vec ;;
  ui_amount <-! (if f64_eq ui_amount f64_zero && bool_decide (token_name = str "SOL") then
    balance <-! get_account_balance wallet_address ;;
    min_balance <-! rpc (get_minimum_balance_for_rent_exemption 0) ;;
    transfer <-! new_instruction_transfer wallet_address wallet_address (f64_of_Z 1) ;;
    fee <-! rpc (get_fee_for_message [transfer]) ;;
    fees <- st_unwrap (mul_u64 fee 10) ;;
    sum <- st_unwrap (add_u64 min_balance fees) ;;
    to_leave <-! tokens_to_ui_amount sum (str "SOL") ;;
    st_ok (if f64_gt balance to_leave then f64_sub balance to_leave else f64_zero)
  else st_ok ui_amount) ;;
  instruction_vec <-! check_token_account wallet_address (Some asset_token) ui_amount instruction_vec ;;
  res <- get_fund_user_requests wallet_address fund_name token_name ;;
  if is_err res then
    user_init <-! new_instruction_user_init_fund wallet_address fund_name token_name ;;
    st_ok (instruction_vec ++ [user_init])
  else st_ok instruction_vec.

Definition check_fund_custody (wallet_address : Z) (fund_name token_name : Name) (ui_amount : f64)
    (instruction_vec : (list Instruction)) : Client (list Instruction) :=
  res <- get_fund_custody fund_name token_name Fund.Trading ;;
  if is_err res then
    if f64_gt ui_amount f64_zero then
      st_bail (InsufficientBalance [Str token_name]) else
    is_wallet_single_fund_admin_ <-! is_wallet_single_fund_admin wallet_address fund_name ;;
    if is_wallet_single_fund_admin_ then
      instruction_add_fund_custody <-! new_instruction_add_fund_custody wallet_address fund_name
          token_name Fund.Trading ;;
      st_ok (instruction_vec ++ [instruction_add_fund_custody])
    else
      st_bail (RecordNotFound [Text "Custody for token "; Str token_name; Text " in the Fund ";
          Str fund_name; Text " not found"])
  else
    _ <-! (if f64_gt ui_amount f64_zero then
      token_account <-! get_fund_custody_token_account fund_name token_name Fund.Trading ;;
      token_account_balance_with_address <-! get_token_account_balance_with_address token_account ;;
      if f64_lt token_account_balance_with_address ui_amount then
        st_bail (InsufficientBalance [Str token_name]) else
      st_ok tt
    else
      st_ok tt) ;;
    st_ok instruction_vec.

Definition check_fund_pool_custodies (wallet_address : Z) (fund_name pool_name : Name)
    (ui_amount_token_a ui_amount_token_b ui_amount_lp_token : f64) (check_lp_token : bool)
    (instruction_vec : (list Instruction)) : Client (list Instruction) :=
  pool <-! get_pool pool_name ;;
  token_a <-! get_token_by_ref_from_cache pool.(Pool.token_a_ref) ;;
  token_b <-! get_token_by_ref_from_cache pool.(Pool.token_b_ref) ;;
  lp_token <-! get_token_by_ref_from_cache pool.(Pool.lp_token_ref) ;;
  instruction_vec <-! (if check_lp_token then
    lp_token_ <- st_unwrap lp_token ;;
    check_fund_custody wallet_address fund_name lp_token_.(Token.name) ui_amount_lp_token
        instruction_vec
  else
    st_ok instruction_vec) ;;
  instruction_vec <-! (if is_some token_a then
    token_a_ <- st_unwrap token_a ;;
    check_fund_custody wallet_address fund_name token_a_.(Token.name) ui_amount_token_a
        instruction_vec
  else
    st_ok instruction_vec) ;;
  if is_some token_b then
    token_b_ <- st_unwrap token_b ;;
    check_fund_custody wallet_address fund_name token_b_.(Token.name) ui_amount_token_b
        instruction_vec
  else
    st_ok instruction_vec.

Definition check_fund_farm_user_account (wallet_address : Z) (fund_name farm_name : Name)
    (instruction_vec : (list Instruction)) : Client (list Instruction) :=
  fund <-! get_fund fund_name ;;
  stake_account <-! get_stake_account fund.(Fund.fund_authority) farm_name ;;
  data <- ask (get_account_data stake_account) ;;
  holds <- (if is_err data then st_ret true else
    data2 <- st_unwrap (result_to_option data) ;;
    st_ret (bool_decide (data2 = []))) ;;
  if holds then
    holds2 <-! (if fund.(Fund.fund_manager) =? wallet_address then st_ok true else
      is_wallet_single_fund_admin wallet_address fund_name) ;;
    if holds2 then
      instruction_fund_user_init_farm <-! new_instruction_fund_user_init_farm wallet_address
          fund_name farm_name ;;
      st_ok (instruction_vec ++ [instruction_fund_user_init_farm])
    else
      st_bail (RecordNotFound [Text "User is not initialized for the Farm "; Str farm_name;
          Text " in the Fund "; Str fund_name])
  else
    st_ok instruction_vec.

Definition check_fund_farm_custodies (wallet_address : Z) (fund_name farm_name : Name)
    (ui_amount : f64) (instruction_vec : (list Instruction)) : Client (list Instruction) :=
  farm <-! get_farm farm_name ;;
  token_a <-! get_token_by_ref_from_cache farm.(Farm.first_reward_token_ref) ;;
  token_b <-! get_token_by_ref_from_cache farm.(Farm.second_reward_token_ref) ;;
  lp_token <-! get_token_by_ref_from_cache farm.(Farm.lp_token_ref) ;;
  instruction_vec <-! (if is_some lp_token then
    lp_token_ <- st_unwrap lp_token ;;
    check_fund_custody wallet_address fund_name lp_token_.(Token.name) ui_amount instruction_vec
  else
    st_ok instruction_vec) ;;
  instruction_vec <-! (if is_some token_a then
    token_a_ <- st_unwrap token_a ;;
    check_fund_custody wallet_address fund_name token_a_.(Token.name) f64_zero instruction_vec
  else
    st_ok instruction_vec) ;;
  instruction_vec <-! (if is_some token_b then
    token_b_ <- st_unwrap token_b ;;
    check_fund_custody wallet_address fund_name token_b_.(Token.name) f64_zero instruction_vec
  else
    st_ok instruction_vec) ;;
  check_fund_farm_user_account wallet_address fund_name farm_name instruction_vec.

Definition check_fund_vault_user_account (wallet_address : Z) (fund_name vault_name : Name)
    (instruction_vec : (list Instruction)) : Client (list Instruction) :=
  fund <-! get_fund fund_name ;;
  user_info_account <-! get_vault_user_info_account fund.(Fund.fund_authority) vault_name ;;
  data <- ask (get_account_data user_info_account) ;;
  holds <- (if is_err data then st_ret true else
    data2 <- st_unwrap (result_to_option data) ;;
    st_ret (negb (RefDB.is_initialized data2))) ;;
  if holds then
    holds2 <-! (if fund.(Fund.fund_manager) =? wallet_address then st_ok true else
      is_wallet_single_fund_admin wallet_address fund_name) ;;
    if holds2 then
      instruction_fund_user_init_vault <-! new_instruction_fund_user_init_vault wallet_address
          fund_name vault_name ;;
      st_ok (instruction_vec ++ [instruction_fund_user_init_vault])
    else
      st_bail (RecordNotFound [Text "User is not initialized for the Vault "; Str vault_name;
          Text " in the Fund "; Str fund_name])
  else
    st_ok instruction_vec.

Definition check_fund_vault_custodies (wallet_address : Z) (fund_name vault_name : Name)
    (ui_amount_token_a ui_amount_token_b ui_amount_vt_token : f64)
    (check_vt_token check_lp_token : bool) (instruction_vec : (list Instruction))
    : Client (list Instruction) :=
  vault <-! get_vault vault_name ;;
  vault_token <-! get_token_by_ref_from_cache (Some vault.(Vault.vault_token_ref)) ;;
  pool <-! get_underlying_pool vault_name ;;
  farm <-! get_underlying_farm vault_name ;;
  token_a <-! get_token_by_ref_from_cache pool.(Pool.token_a_ref) ;;
  token_b <-! get_token_by_ref_from_cache pool.(Pool.token_b_ref) ;;
  lp_token <-! get_token_by_ref_from_cache pool.(Pool.lp_token_ref) ;;
  token_a_reward <-! get_token_by_ref_from_cache farm.(Farm.first_reward_token_ref) ;;
  token_b_reward <-! get_token_by_ref_from_cache farm.(Farm.second_reward_token_ref) ;;
  instruction_vec <-! (if check_vt_token then
    vault_token_ <- st_unwrap vault_token ;;
    check_fund_custody wallet_address fund_name vault_token_.(Token.name) ui_amount_vt_token
        instruction_vec
  else
    st_ok instruction_vec) ;;
  instruction_vec <-! (if check_lp_token then
    lp_token_ <- st_unwrap lp_token ;;
    check_fund_custody wallet_address fund_name lp_token_.(Token.name) f64_zero instruction_vec
  else
    st_ok instruction_vec) ;;
  instruction_vec <-! (if is_some token_a_reward then
    token_a_reward_ <- st_unwrap token_a_reward ;;
    check_fund_custody wallet_address fund_name token_a_reward_.(Token.name) f64_zero
        instruction_vec
  else
    st_ok instruction_vec) ;;
  instruction_vec <-! (if is_some token_b_reward then
    token_b_reward_ <- st_unwrap token_b_reward ;;
    check_fund_custody wallet_address fund_name token_b_reward_.(Token.name) f64_zero
        instruction_vec
  else
    st_ok instruction_vec) ;;
  instruction_vec <-! (if is_some token_a then
    token_a_ <- st_unwrap token_a ;;
    check_fund_custody wallet_address fund_name token_a_.(Token.name) ui_amount_token_a
        instruction_vec
  else
    st_ok instruction_vec) ;;
  instruction_vec <-! (if is_some token_b then
    token_b_ <- st_unwrap token_b ;;
    check_fund_custody wallet_address fund_name token_b_.(Token.name) ui_amount_token_b
        instruction_vec
  else
    st_ok instruction_vec) ;;
  check_fund_vault_user_account wallet_address fund_name vault_name instruction_vec.

Definition check_token_account_with_mint (wallet_address mint : Z)
    (instruction_vec : (list Instruction)) : Client (list Instruction) :=
  let token_address := associated_token_address wallet_address mint in
  res <- ask (get_account_data token_address) ;;
  match res with
  | Ok data =>
      res2 <- parse_token_account data (Some 0) ;;
      match res2 with
      | Ok (TokenAccount ui_account) =>
          if bool_decide (ui_account.(ui_state) = Initialized) then
            st_ok instruction_vec
          else
            st_ok (instruction_vec ++ [create_associated_token_account wallet_address wallet_address
                mint])
      | _ =>
          st_ok (instruction_vec ++ [create_associated_token_account wallet_address wallet_address
              mint])
      end
  | Err _ =>
      st_ok (instruction_vec ++ [create_associated_token_account wallet_address wallet_address
          mint])
  end.

End Checks.
