(* ===== verification/ClientPlans.v ===== *)
(** * Complete sets of instructions of the farm client ([all_instructions_*])

    What each operation sends: the instructions that prepare the accounts, the
    operation and what cleans up after it. *)

From Stdlib Require Import String.
From S2P Require Import Prelude MachineInt Float64 Amounts Pack RefDB AmmInstruction VaultInstruction Token Pool Farm Vault Fund FundInstruction RefDbInstruction MainInstruction SdkAccount Multisig Cpi Oracle ClientNames Client ClientReads ClientPool ClientFarm ClientVault ClientFund ClientRouter ClientChecks.

Section Plans.
Context `{FarmEnv}.

Definition all_instructions_wrap_sol (wallet_address : Z) (ui_amount : f64)
    : Client (list Instruction) :=
  target_account <-! get_associated_token_address wallet_address (str "SOL") ;;
  is_active <- has_active_token_account wallet_address (str "SOL") ;;
  inst <-! (if negb is_active then
    create <-! new_instruction_create_token_account wallet_address (str "SOL") ;;
    st_ok [create]
  else
    _ <-! check_ata_owner wallet_address (str "SOL") ;;
    st_ok []) ;;
  instruction_transfer <-! new_instruction_transfer wallet_address target_account ui_amount ;;
  st_ok (inst ++ [instruction_transfer]).

Definition all_instructions_unwrap_sol (wallet_address : Z) : Client (list Instruction) :=
  close <-! new_instruction_close_token_account wallet_address (str "SOL") ;;
  st_ok [close].

Definition all_instructions_token_transfer (wallet_address : Z) (token_name : Name)
    (destination_wallet : Z) (ui_amount : f64) : Client (list Instruction) :=
  if wallet_address =? destination_wallet then
    st_bail (ValueError [Text "Source and destination addresses are the same"]) else
  is_active <- has_active_token_account wallet_address token_name ;;
  if negb is_active then
    st_bail (RecordNotFound [Text "Source account with token "; Str token_name]) else
  data <-! rpc (get_account_data destination_wallet) ;;
  res <- parse_token_account data (Some 0) ;;
  _ <-! (match res with
  | Ok (TokenAccount _) =>
      st_bail (ValueError
          [Text "Destination must be a base wallet address, token address will be derived"])
  | _ =>
      st_ok tt
  end) ;;
  is_active2 <- has_active_token_account destination_wallet token_name ;;
  inst <-! (if negb is_active2 then
    token <-! get_token token_name ;;
    st_ok [create_associated_token_account wallet_address destination_wallet token.(Token.mint)]
  else
    _ <-! check_ata_owner destination_wallet token_name ;;
    st_ok []) ;;
  instruction_token_transfer <-! new_instruction_token_transfer wallet_address token_name
      destination_wallet ui_amount ;;
  st_ok (inst ++ [instruction_token_transfer]).

Definition all_instructions_add_liquidity_vault (wallet_address : Z) (vault_name : Name)
    (max_token_a_ui_amount max_token_b_ui_amount : f64) : Client (list Instruction) :=
  if ((f64_lt max_token_a_ui_amount f64_zero) || (f64_lt max_token_b_ui_amount f64_zero)) ||
      ((f64_eq max_token_a_ui_amount f64_zero) && (f64_eq max_token_b_ui_amount f64_zero)) then
    st_bail (ValueError [Text "Invalid add liquidity amounts "; Float max_token_a_ui_amount;
        Text " and "; Float max_token_b_ui_amount; Text " specified for Vault "; Str vault_name;
        Text ": Must be greater or equal to zero and at least one non-zero."]) else
  let is_saber_vault := starts_with vault_name (str "SBR.") in
  '(is_token_a_sol, is_token_b_sol) <-! vault_has_sol_tokens vault_name ;;
  token_a_ui_amount <-! (if ((f64_eq max_token_a_ui_amount f64_zero) && is_token_a_sol) && (negb
      is_saber_vault) then
    pool_price <-! get_vault_price vault_name ;;
    st_ok (if f64_gt pool_price f64_zero then
      f64_div (f64_mul max_token_b_ui_amount f64_1_03) pool_price
    else
      f64_zero)
  else
    st_ok max_token_a_ui_amount) ;;
  token_b_ui_amount <-! (if ((f64_eq max_token_b_ui_amount f64_zero) && is_token_b_sol) && (negb
      is_saber_vault) then
    vault_price <-! get_vault_price vault_name ;;
    st_ok (f64_mul (f64_mul max_token_a_ui_amount vault_price) f64_1_03)
  else
    st_ok max_token_b_ui_amount) ;;
  inst <-! check_vault_accounts wallet_address vault_name token_a_ui_amount token_b_ui_amount
      f64_zero true true [] ;;
  inst <-! (if is_saber_vault then
    underlying_pool <-! get_underlying_pool vault_name ;;
    let pool_name := underlying_pool.(Pool.name) in
    '(is_token_a_wrapped, is_token_b_wrapped) <-! pool_has_saber_wrapped_tokens pool_name ;;
    inst <-! (if is_token_a_wrapped && (f64_gt max_token_a_ui_amount f64_zero) then
      instruction_wrap_token <-! new_instruction_wrap_token wallet_address pool_name TokenA
          max_token_a_ui_amount ;;
      st_ok (inst ++ [instruction_wrap_token])
    else
      st_ok inst) ;;
    if is_token_b_wrapped && (f64_gt max_token_b_ui_amount f64_zero) then
      instruction_wrap_token2 <-! new_instruction_wrap_token wallet_address pool_name TokenB
          max_token_b_ui_amount ;;
      st_ok (inst ++ [instruction_wrap_token2])
    else
      st_ok inst
  else
    st_ok inst) ;;
  instruction_add_liquidity_vault <-! new_instruction_add_liquidity_vault wallet_address vault_name
      max_token_a_ui_amount max_token_b_ui_amount ;;
  let inst := inst ++ [instruction_add_liquidity_vault] in
  inst <-! (if is_token_a_sol || is_token_b_sol then
    close <-! new_instruction_close_token_account wallet_address (str "SOL") ;;
    st_ok (inst ++ [close])
  else
    st_ok inst) ;;
  vault <-! get_vault vault_name ;;
  if vault.(Vault.lock_required) then
    lock_inst <-! new_instruction_lock_liquidity_vault wallet_address vault_name f64_zero ;;
    st_ok (inst ++ [lock_inst])
  else
    st_ok inst.

Definition all_instructions_add_locked_liquidity_vault (wallet_address : Z) (vault_name : Name)
    (ui_amount : f64) : Client (list Instruction) :=
  inst <-! check_vault_accounts wallet_address vault_name f64_zero f64_zero f64_zero true false []
      ;;
  _ <-! (if f64_gt ui_amount f64_zero then
    vault_user_info <-! get_vault_user_info wallet_address vault_name ;;
    let lp_debt := vault_user_info.(ClientReads.lp_tokens_debt) in
    pool_token_decimals <-! get_vault_lp_token_decimals vault_name ;;
    converted <- tokens_to_ui_amount_with_decimals lp_debt pool_token_decimals ;;
    if f64_lt converted ui_amount then
      st_bail (InsufficientBalance [Text "Not enough locked tokens to deposit"]) else
    st_ok tt
  else
    st_ok tt) ;;
  instruction_lock_liquidity_vault <-! new_instruction_lock_liquidity_vault wallet_address
      vault_name ui_amount ;;
  st_ok (inst ++ [instruction_lock_liquidity_vault]).

Definition all_instructions_remove_liquidity_vault (wallet_address : Z) (vault_name : Name)
    (ui_amount : f64) : Client (list Instruction) :=
  vault <-! get_vault vault_name ;;
  inst <-! check_vault_accounts wallet_address vault_name f64_zero f64_zero ui_amount true false []
      ;;
  inst <-! (if vault.(Vault.unlock_required) then
    instruction_unlock_liquidity_vault <-! new_instruction_unlock_liquidity_vault wallet_address
        vault_name ui_amount ;;
    instruction_remove_liquidity_vault <-! new_instruction_remove_liquidity_vault wallet_address
        vault_name f64_zero ;;
    st_ok (inst ++ [instruction_unlock_liquidity_vault; instruction_remove_liquidity_vault])
  else
    instruction_remove_liquidity_vault2 <-! new_instruction_remove_liquidity_vault wallet_address
        vault_name ui_amount ;;
    st_ok (inst ++ [instruction_remove_liquidity_vault2])) ;;
  '(is_token_a_sol, is_token_b_sol) <-! vault_has_sol_tokens vault_name ;;
  underlying_pool <-! get_underlying_pool vault_name ;;
  let pool_name := underlying_pool.(Pool.name) in
  '(is_token_a_wrapped, is_token_b_wrapped) <-! pool_has_saber_wrapped_tokens pool_name ;;
  inst <-! (if is_token_a_wrapped then
    instruction_unwrap_token <-! new_instruction_unwrap_token wallet_address pool_name TokenA
        f64_zero ;;
    st_ok (inst ++ [instruction_unwrap_token])
  else
    st_ok inst) ;;
  inst <-! (if is_token_b_wrapped then
    instruction_unwrap_token2 <-! new_instruction_unwrap_token wallet_address pool_name TokenB
        f64_zero ;;
    st_ok (inst ++ [instruction_unwrap_token2])
  else
    st_ok inst) ;;
  if is_token_a_sol || is_token_b_sol then
    close <-! new_instruction_close_token_account wallet_address (str "SOL") ;;
    st_ok (inst ++ [close])
  else
    st_ok inst.

Definition all_instructions_remove_unlocked_liquidity_vault (wallet_address : Z) (vault_name : Name)
    (ui_amount : f64) : Client (list Instruction) :=
  inst <-! check_vault_accounts wallet_address vault_name f64_zero f64_zero f64_zero false false []
      ;;
  _ <-! (if f64_gt ui_amount f64_zero then
    vault_user_info <-! get_vault_user_info wallet_address vault_name ;;
    let lp_debt := vault_user_info.(ClientReads.lp_tokens_debt) in
    pool_token_decimals <-! get_vault_lp_token_decimals vault_name ;;
    converted <- tokens_to_ui_amount_with_decimals lp_debt pool_token_decimals ;;
    if f64_lt converted ui_amount then
      st_bail (InsufficientBalance [Text "Not enough unlocked tokens to remove"]) else
    st_ok tt
  else
    st_ok tt) ;;
  instruction_remove_liquidity_vault <-! new_instruction_remove_liquidity_vault wallet_address
      vault_name ui_amount ;;
  let inst := inst ++ [instruction_remove_liquidity_vault] in
  '(is_token_a_sol, is_token_b_sol) <-! vault_has_sol_tokens vault_name ;;
  underlying_pool <-! get_underlying_pool vault_name ;;
  let pool_name := underlying_pool.(Pool.name) in
  '(is_token_a_wrapped, is_token_b_wrapped) <-! pool_has_saber_wrapped_tokens pool_name ;;
  inst <-! (if is_token_a_wrapped then
    instruction_unwrap_token <-! new_instruction_unwrap_token wallet_address pool_name TokenA
        f64_zero ;;
    st_ok (inst ++ [instruction_unwrap_token])
  else
    st_ok inst) ;;
  inst <-! (if is_token_b_wrapped then
    instruction_unwrap_token2 <-! new_instruction_unwrap_token wallet_address pool_name TokenB
        f64_zero ;;
    st_ok (inst ++ [instruction_unwrap_token2])
  else
    st_ok inst) ;;
  if is_token_a_sol || is_token_b_sol then
    close <-! new_instruction_close_token_account wallet_address (str "SOL") ;;
    st_ok (inst ++ [close])
  else
    st_ok inst.

Definition all_instructions_add_liquidity_pool (wallet_address : Z) (pool_name : Name)
    (max_token_a_ui_amount max_token_b_ui_amount : f64) : Client (list Instruction) :=
  if ((f64_lt max_token_a_ui_amount f64_zero) || (f64_lt max_token_b_ui_amount f64_zero)) ||
      ((f64_eq max_token_a_ui_amount f64_zero) && (f64_eq max_token_b_ui_amount f64_zero)) then
    st_bail (ValueError [Text "Invalid add liquidity amounts "; Float max_token_a_ui_amount;
        Text " and "; Float max_token_b_ui_amount; Text " specified for Pool "; Str pool_name;
        Text ": Must be greater or equal to zero and at least one non-zero."]) else
  let is_saber_pool := starts_with pool_name (str "SBR.") in
  '(is_token_a_sol, is_token_b_sol) <-! pool_has_sol_tokens pool_name ;;
  token_a_ui_amount <-! (if ((f64_eq max_token_a_ui_amount f64_zero) && is_token_a_sol) && (negb
      is_saber_pool) then
    pool_price <-! get_pool_price pool_name ;;
    st_ok (if f64_gt pool_price f64_zero then
      f64_div (f64_mul max_token_b_ui_amount f64_1_03) pool_price
    else
      f64_zero)
  else
    st_ok max_token_a_ui_amount) ;;
  token_b_ui_amount <-! (if ((f64_eq max_token_b_ui_amount f64_zero) && is_token_b_sol) && (negb
      is_saber_pool) then
    pool_price2 <-! get_pool_price pool_name ;;
    st_ok (f64_mul (f64_mul max_token_a_ui_amount pool_price2) f64_1_03)
  else
    st_ok max_token_b_ui_amount) ;;
  inst <-! check_pool_accounts wallet_address pool_name token_a_ui_amount token_b_ui_amount f64_zero
      true [] ;;
  instruction_add_liquidity_pool <-! new_instruction_add_liquidity_pool wallet_address pool_name
      max_token_a_ui_amount max_token_b_ui_amount ;;
  let inst := inst ++ [instruction_add_liquidity_pool] in
  if is_token_a_sol || is_token_b_sol then
    close <-! new_instruction_close_token_account wallet_address (str "SOL") ;;
    st_ok (inst ++ [close])
  else
    st_ok inst.

Definition all_instructions_remove_liquidity_pool (wallet_address : Z) (pool_name : Name)
    (ui_amount : f64) : Client (list Instruction) :=
  inst <-! check_pool_accounts wallet_address pool_name f64_zero f64_zero ui_amount true [] ;;
  instruction_remove_liquidity_pool <-! new_instruction_remove_liquidity_pool wallet_address
      pool_name ui_amount ;;
  let inst := inst ++ [instruction_remove_liquidity_pool] in
  '(is_token_a_sol, is_token_b_sol) <-! pool_has_sol_tokens pool_name ;;
  '(is_token_a_wrapped, is_token_b_wrapped) <-! pool_has_saber_wrapped_tokens pool_name ;;
  inst <-! (if is_token_a_wrapped then
    instruction_unwrap_token <-! new_instruction_unwrap_token wallet_address pool_name TokenA
        f64_zero ;;
    st_ok (inst ++ [instruction_unwrap_token])
  else
    st_ok inst) ;;
  inst <-! (if is_token_b_wrapped then
    instruction_unwrap_token2 <-! new_instruction_unwrap_token wallet_address pool_name TokenB
        f64_zero ;;
    st_ok (inst ++ [instruction_unwrap_token2])
  else
    st_ok inst) ;;
  if is_token_a_sol || is_token_b_sol then
    close <-! new_instruction_close_token_account wallet_address (str "SOL") ;;
    st_ok (inst ++ [close])
  else
    st_ok inst.

Definition all_instructions_swap (wallet_address : Z) (protocol : Protocol)
    (from_token to_token : Name) (ui_amount_in min_ui_amount_out : f64)
    : Client (list Instruction) :=
  find_pools_ <-! find_pools protocol from_token to_token ;;
  pool <- st_unwrap (find_pools_ !! 0%nat) ;;
  if f64_lt ui_amount_in f64_zero then
    st_bail (ValueError [Text "Invalid token amount "; Float ui_amount_in;
        Text " specified for pool "; Str pool.(Pool.name); Text ": Must be zero or greater."]) else
  ui_amount_in <-! (if f64_eq ui_amount_in f64_zero then
    if bool_decide (from_token = str "SOL") then
      st_bail (ValueError [Text "Invalid SOL amount "; Float ui_amount_in;
          Text " specified for pool "; Str pool.(Pool.name); Text ": Must be greater than zero."])
          else
    balance <-! get_token_account_balance wallet_address from_token ;;
    if f64_eq balance f64_zero then
      st_bail (InsufficientBalance [Str from_token]) else
    st_ok balance
  else
    st_ok ui_amount_in) ;;
  reverse <-! pool_has_reverse_tokens pool.(Pool.name) from_token ;;
  inst <-! (if reverse then
    check_pool_accounts wallet_address pool.(Pool.name) f64_zero ui_amount_in f64_zero false []
  else
    check_pool_accounts wallet_address pool.(Pool.name) ui_amount_in f64_zero f64_zero false []) ;;
  '(is_token_a_wrapped, is_token_b_wrapped) <-! pool_has_saber_wrapped_tokens pool.(Pool.name) ;;
  inst <-! (if is_token_a_wrapped && (negb reverse) then
    instruction_wrap_token <-! new_instruction_wrap_token wallet_address pool.(Pool.name) TokenA
        ui_amount_in ;;
    st_ok (inst ++ [instruction_wrap_token])
  else
    st_ok inst) ;;
  inst <-! (if is_token_b_wrapped && reverse then
    instruction_wrap_token2 <-! new_instruction_wrap_token wallet_address pool.(Pool.name) TokenB
        ui_amount_in ;;
    st_ok (inst ++ [instruction_wrap_token2])
  else
    st_ok inst) ;;
  instruction_swap <-! new_instruction_swap wallet_address protocol from_token to_token ui_amount_in
      min_ui_amount_out ;;
  let inst := inst ++ [instruction_swap] in
  inst <-! (if is_token_b_wrapped && (negb reverse) then
    instruction_unwrap_token <-! new_instruction_unwrap_token wallet_address pool.(Pool.name) TokenB
        f64_zero ;;
    st_ok (inst ++ [instruction_unwrap_token])
  else
    st_ok inst) ;;
  inst <-! (if is_token_a_wrapped && reverse then
    instruction_unwrap_token2 <-! new_instruction_unwrap_token wallet_address pool.(Pool.name)
        TokenA f64_zero ;;
    st_ok (inst ++ [instruction_unwrap_token2])
  else
    st_ok inst) ;;
  if bool_decide (to_token = str "SOL") then
    close <-! new_instruction_close_token_account wallet_address (str "SOL") ;;
    st_ok (inst ++ [close])
  else
    st_ok inst.

Definition all_instructions_stake (wallet_address : Z) (farm_name : Name) (ui_amount : f64)
    : Client (list Instruction) :=
  inst <-! check_farm_accounts wallet_address farm_name ui_amount [] ;;
  instruction_stake <-! new_instruction_stake wallet_address farm_name ui_amount ;;
  st_ok (inst ++ [instruction_stake]).

Definition all_instructions_unstake (wallet_address : Z) (farm_name : Name) (ui_amount : f64)
    : Client (list Instruction) :=
  inst <-! check_farm_accounts wallet_address farm_name f64_zero [] ;;
  instruction_unstake <-! new_instruction_unstake wallet_address farm_name ui_amount ;;
  st_ok (inst ++ [instruction_unstake]).

Definition all_instructions_harvest (wallet_address : Z) (farm_name : Name)
    : Client (list Instruction) :=
  inst <-! check_farm_accounts wallet_address farm_name f64_zero [] ;;
  instruction_harvest <-! new_instruction_harvest wallet_address farm_name ;;
  st_ok (inst ++ [instruction_harvest]).

Definition all_instructions_request_deposit_fund (wallet_address : Z) (fund_name token_name : Name)
    (ui_amount : f64) : Client (list Instruction) :=
  inst <-! check_fund_accounts wallet_address fund_name token_name ui_amount [] ;;
  instruction_request_deposit_fund <-! new_instruction_request_deposit_fund wallet_address fund_name
      token_name ui_amount ;;
  st_ok (inst ++ [instruction_request_deposit_fund]).

Definition all_instructions_request_withdrawal_fund (wallet_address : Z)
    (fund_name token_name : Name) (ui_amount : f64) : Client (list Instruction) :=
  fund <-! get_fund fund_name ;;
  token_by_ref <-! get_token_by_ref fund.(Fund.fund_token_ref) ;;
  let fund_token := Some token_by_ref in
  token <-! get_token token_name ;;
  let asset_token := Some token in
  inst <-! check_token_account wallet_address fund_token ui_amount [] ;;
  inst <-! check_token_account wallet_address asset_token f64_zero inst ;;
  res <- get_fund_user_requests wallet_address fund_name token_name ;;
  inst <-! (if is_err res then
    instruction_user_init_fund <-! new_instruction_user_init_fund wallet_address fund_name
        token_name ;;
    st_ok (inst ++ [instruction_user_init_fund])
  else
    st_ok inst) ;;
  instruction_request_withdrawal_fund <-! new_instruction_request_withdrawal_fund wallet_address
      fund_name token_name ui_amount ;;
  st_ok (inst ++ [instruction_request_withdrawal_fund]).

Definition all_instructions_fund_add_liquidity_pool (admin_address : Z) (fund_name pool_name : Name)
    (max_token_a_ui_amount max_token_b_ui_amount : f64) : Client (list Instruction) :=
  if ((f64_lt max_token_a_ui_amount f64_zero) || (f64_lt max_token_b_ui_amount f64_zero)) ||
      ((f64_eq max_token_a_ui_amount f64_zero) && (f64_eq max_token_b_ui_amount f64_zero)) then
    st_bail (ValueError [Text "Invalid add liquidity amounts "; Float max_token_a_ui_amount;
        Text " and "; Float max_token_b_ui_amount; Text " specified for Pool "; Str pool_name;
        Text ": Must be greater or equal to zero and at least one non-zero."]) else
  inst <-! check_fund_pool_custodies admin_address fund_name pool_name max_token_a_ui_amount
      max_token_b_ui_amount f64_zero true [] ;;
  instruction_fund_add_liquidity_pool <-! new_instruction_fund_add_liquidity_pool admin_address
      fund_name pool_name max_token_a_ui_amount max_token_b_ui_amount ;;
  st_ok (inst ++ [instruction_fund_add_liquidity_pool]).

Definition all_instructions_fund_remove_liquidity_pool (admin_address : Z)
    (fund_name pool_name : Name) (ui_amount : f64) : Client (list Instruction) :=
  inst <-! check_fund_pool_custodies admin_address fund_name pool_name f64_zero f64_zero ui_amount
      true [] ;;
  instruction_fund_remove_liquidity_pool <-! new_instruction_fund_remove_liquidity_pool
      admin_address fund_name pool_name ui_amount ;;
  st_ok (inst ++ [instruction_fund_remove_liquidity_pool]).

Definition all_instructions_fund_swap (admin_address : Z) (fund_name : Name) (protocol : Protocol)
    (from_token to_token : Name) (ui_amount_in min_ui_amount_out : f64)
    : Client (list Instruction) :=
  if f64_lt ui_amount_in f64_zero then
    st_bail (ValueError [Text "Invalid ui_amount_in "; Float ui_amount_in;
        Text " specified for swap: Must be zero or greater."]) else
  inst <-! check_fund_custody admin_address fund_name from_token ui_amount_in [] ;;
  inst <-! check_fund_custody admin_address fund_name to_token f64_zero inst ;;
  instruction_fund_swap <-! new_instruction_fund_swap admin_address fund_name protocol from_token
      to_token ui_amount_in min_ui_amount_out ;;
  st_ok (inst ++ [instruction_fund_swap]).

Definition all_instructions_fund_stake (admin_address : Z) (fund_name farm_name : Name)
    (ui_amount : f64) : Client (list Instruction) :=
  inst <-! check_fund_farm_custodies admin_address fund_name farm_name ui_amount [] ;;
  instruction_fund_stake <-! new_instruction_fund_stake admin_address fund_name farm_name ui_amount
      ;;
  st_ok (inst ++ [instruction_fund_stake]).

Definition all_instructions_fund_unstake (admin_address : Z) (fund_name farm_name : Name)
    (ui_amount : f64) : Client (list Instruction) :=
  inst <-! check_fund_farm_custodies admin_address fund_name farm_name f64_zero [] ;;
  instruction_fund_unstake <-! new_instruction_fund_unstake admin_address fund_name farm_name
      ui_amount ;;
  st_ok (inst ++ [instruction_fund_unstake]).

Definition all_instructions_fund_harvest (admin_address : Z) (fund_name farm_name : Name)
    : Client (list Instruction) :=
  inst <-! check_fund_farm_custodies admin_address fund_name farm_name f64_zero [] ;;
  instruction_fund_harvest <-! new_instruction_fund_harvest admin_address fund_name farm_name ;;
  st_ok (inst ++ [instruction_fund_harvest]).

Definition all_instructions_fund_add_liquidity_vault (admin_address : Z)
    (fund_name vault_name : Name) (max_token_a_ui_amount max_token_b_ui_amount : f64)
    : Client (list Instruction) :=
  if ((f64_lt max_token_a_ui_amount f64_zero) || (f64_lt max_token_b_ui_amount f64_zero)) ||
      ((f64_eq max_token_a_ui_amount f64_zero) && (f64_eq max_token_b_ui_amount f64_zero)) then
    st_bail (ValueError [Text "Invalid add liquidity amounts "; Float max_token_a_ui_amount;
        Text " and "; Float max_token_b_ui_amount; Text " specified for Vault "; Str vault_name;
        Text ": Must be greater or equal to zero and at least one non-zero."]) else
  inst <-! check_fund_vault_custodies admin_address fund_name vault_name max_token_a_ui_amount
      max_token_b_ui_amount f64_zero true true [] ;;
  instruction_fund_add_liquidity_vault <-! new_instruction_fund_add_liquidity_vault admin_address
      fund_name vault_name max_token_a_ui_amount max_token_b_ui_amount ;;
  vault <-! get_vault vault_name ;;
  let inst := inst ++ [instruction_fund_add_liquidity_vault] in
  if vault.(Vault.lock_required) then
    lock_inst <-! new_instruction_fund_lock_liquidity_vault admin_address fund_name vault_name
        f64_zero ;;
    st_ok (inst ++ [lock_inst])
  else
    st_ok inst.

Definition all_instructions_fund_add_locked_liquidity_vault (admin_address : Z)
    (fund_name vault_name : Name) (ui_amount : f64) : Client (list Instruction) :=
  inst <-! check_fund_vault_custodies admin_address fund_name vault_name f64_zero f64_zero f64_zero
      true false [] ;;
  _ <-! (if f64_gt ui_amount f64_zero then
    fund <-! get_fund fund_name ;;
    vault_user_info <-! get_vault_user_info fund.(Fund.fund_authority) vault_name ;;
    let lp_debt := vault_user_info.(ClientReads.lp_tokens_debt) in
    pool_token_decimals <-! get_vault_lp_token_decimals vault_name ;;
    converted <- tokens_to_ui_amount_with_decimals lp_debt pool_token_decimals ;;
    if f64_lt converted ui_amount then
      st_bail (InsufficientBalance [Text "Not enough locked tokens to deposit"]) else
    st_ok tt
  else
    st_ok tt) ;;
  instruction_fund_lock_liquidity_vault <-! new_instruction_fund_lock_liquidity_vault admin_address
      fund_name vault_name ui_amount ;;
  st_ok (inst ++ [instruction_fund_lock_liquidity_vault]).

Definition all_instructions_fund_remove_liquidity_vault (admin_address : Z)
    (fund_name vault_name : Name) (ui_amount : f64) : Client (list Instruction) :=
  vault <-! get_vault vault_name ;;
  inst <-! check_fund_vault_custodies admin_address fund_name vault_name f64_zero f64_zero f64_zero
      true false [] ;;
  if vault.(Vault.unlock_required) then
    instruction_fund_unlock_liquidity_vault <-! new_instruction_fund_unlock_liquidity_vault
        admin_address fund_name vault_name ui_amount ;;
    instruction_fund_remove_liquidity_vault <-! new_instruction_fund_remove_liquidity_vault
        admin_address fund_name vault_name f64_zero ;;
    st_ok (inst ++ [instruction_fund_unlock_liquidity_vault;
        instruction_fund_remove_liquidity_vault])
  else
    instruction_fund_remove_liquidity_vault2 <-! new_instruction_fund_remove_liquidity_vault
        admin_address fund_name vault_name ui_amount ;;
    st_ok (inst ++ [instruction_fund_remove_liquidity_vault2]).

Definition all_instructions_fund_remove_unlocked_liquidity_vault (admin_address : Z)
    (fund_name vault_name : Name) (ui_amount : f64) : Client (list Instruction) :=
  inst <-! check_fund_vault_custodies admin_address fund_name vault_name f64_zero f64_zero f64_zero
      false false [] ;;
  _ <-! (if f64_gt ui_amount f64_zero then
    fund <-! get_fund fund_name ;;
    vault_user_info <-! get_vault_user_info fund.(Fund.fund_authority) vault_name ;;
    let lp_debt := vault_user_info.(ClientReads.lp_tokens_debt) in
    pool_token_decimals <-! get_vault_lp_token_decimals vault_name ;;
    converted <- tokens_to_ui_amount_with_decimals lp_debt pool_token_decimals ;;
    if f64_lt converted ui_amount then
      st_bail (InsufficientBalance [Text "Not enough unlocked tokens to remove"]) else
    st_ok tt
  else
    st_ok tt) ;;
  instruction_fund_remove_liquidity_vault <-! new_instruction_fund_remove_liquidity_vault
      admin_address fund_name vault_name ui_amount ;;
  st_ok (inst ++ [instruction_fund_remove_liquidity_vault]).

End Plans.
