(* ===== verification/ClientSend.v ===== *)
(** * Operations of the farm client ([crates/solana_farm_client/src/client.rs])

    The methods that build instructions, sign them and send them, and what they
    change in the caches. *)

From Stdlib Require Import String.
From S2P Require Import Prelude MachineInt Float64 Amounts Pack RefDB AmmInstruction VaultInstruction Token Pool Farm Vault Fund FundInstruction RefDbInstruction MainInstruction SdkAccount Multisig Cpi Oracle ClientNames Client ClientReads ClientPool ClientFarm ClientVault ClientFund ClientRouter ClientChecks ClientPlans.

Section Operations.
Context `{FarmEnv}.

(** ** Changes of the caches *)

(** [borrow_mut().data] and an update of the map. *)
Definition modify_data {T} (f : gmap (list Z) T -> gmap (list Z) T) (c : Cache T)
    : ST FarmClient (Cache T) :=
  if c.(lent) then st_panic else st_ret (set_data (f c.(data)) c).

Definition set_program_admins (admin_signer prog_id : Z) (admin_signers : (list Z))
    (min_signatures : Z) : Client Z :=
  inst <-! new_instruction_set_program_admins admin_signer prog_id admin_signers min_signatures ;;
  sign_and_send_instructions [admin_signer] [inst].

Definition set_program_single_authority (admin_signer prog_id upgrade_authority : Z) : Client Z :=
  inst <-! new_instruction_set_program_single_authority admin_signer prog_id upgrade_authority ;;
  sign_and_send_instructions [admin_signer] [inst].

Definition upgrade_program (admin_signer prog_id source_buffer_address : Z) : Client Z :=
  inst <-! new_instruction_upgrade_program admin_signer prog_id source_buffer_address ;;
  sign_and_send_instructions [admin_signer] [inst].

Definition create_system_account (signer new_account_signer lamports space owner : Z) : Client Z :=
  inst <-! new_instruction_create_system_account signer new_account_signer lamports space owner ;;
  sign_and_send_instructions [signer; new_account_signer] [inst].

Definition close_system_account (signer target_account_signer : Z) : Client Z :=
  inst <-! new_instruction_close_system_account signer target_account_signer ;;
  sign_and_send_instructions [signer; target_account_signer] [inst].

Definition create_system_account_with_seed (signer base_address : Z) (seed : Name)
    (lamports space owner : Z) : Client Z :=
  inst <-! new_instruction_create_system_account_with_seed signer base_address seed lamports space
      owner ;;
  sign_and_send_instructions [signer] [inst].

Definition assign_system_account (signer program_address : Z) : Client Z :=
  inst <-! new_instruction_assign_system_account signer program_address ;;
  sign_and_send_instructions [signer] [inst].

Definition transfer (signer destination_wallet : Z) (sol_ui_amount : f64) : Client Z :=
  inst <-! new_instruction_transfer signer destination_wallet sol_ui_amount ;;
  sign_and_send_instructions [signer] [inst].

Definition wrap_sol (signer : Z) (ui_amount : f64) : Client Z :=
  inst <-! all_instructions_wrap_sol signer ui_amount ;;
  sign_and_send_instructions [signer] inst.

Definition unwrap_sol (signer : Z) : Client Z :=
  inst <-! all_instructions_unwrap_sol signer ;;
  sign_and_send_instructions [signer] inst.

Definition token_transfer (signer : Z) (token_name : Name) (destination_wallet : Z)
    (ui_amount : f64) : Client Z :=
  inst <-! all_instructions_token_transfer signer token_name destination_wallet ui_amount ;;
  sign_and_send_instructions [signer] inst.

Definition sync_token_balance (signer : Z) (token_name : Name) : Client Z :=
  inst <-! new_instruction_sync_token_balance signer token_name ;;
  sign_and_send_instructions [signer] [inst].

Definition get_or_create_token_account (signer : Z) (token_name : Name) : Client Z :=
  let wallet_address := signer in
  token_addr <-! get_associated_token_address wallet_address token_name ;;
  is_active <- has_active_token_account wallet_address token_name ;;
  _ <-! (if negb is_active then
    inst <-! new_instruction_create_token_account wallet_address token_name ;;
    _ <-! sign_and_send_instructions [signer] [inst] ;;
    st_ok tt
  else
    _ <-! check_ata_owner signer token_name ;;
    st_ok tt) ;;
  st_ok token_addr.

Definition close_token_account (signer : Z) (token_name : Name) : Client Z :=
  inst <-! new_instruction_close_token_account signer token_name ;;
  sign_and_send_instructions [signer] [inst].

Definition set_vault_admins (admin_signer : Z) (vault_name : Name) (admin_signers : (list Z))
    (min_signatures : Z) : Client Z :=
  inst <-! new_instruction_set_vault_admins admin_signer vault_name admin_signers min_signatures ;;
  sign_and_send_instructions [admin_signer] [inst].

Definition remove_vault_multisig (admin_signer : Z) (vault_name : Name) : Client Z :=
  inst <-! new_instruction_remove_vault_multisig admin_signer vault_name ;;
  sign_and_send_instructions [admin_signer] [inst].

Definition user_init_vault (signer : Z) (vault_name : Name) : Client Z :=
  inst <-! new_instruction_user_init_vault signer vault_name ;;
  sign_and_send_instructions [signer] [inst].

Definition add_liquidity_vault (signer : Z) (vault_name : Name)
    (max_token_a_ui_amount max_token_b_ui_amount : f64) : Client Z :=
  inst <-! all_instructions_add_liquidity_vault signer vault_name max_token_a_ui_amount
      max_token_b_ui_amount ;;
  sign_and_send_instructions_in_batches_ <-! sign_and_send_instructions_in_batches [signer] inst ;;
  last_ <- st_unwrap (last sign_and_send_instructions_in_batches_) ;;
  st_ok last_.

Definition add_locked_liquidity_vault (signer : Z) (vault_name : Name) (ui_amount : f64)
    : Client Z :=
  inst <-! all_instructions_add_locked_liquidity_vault signer vault_name ui_amount ;;
  sign_and_send_instructions [signer] inst.

Definition remove_liquidity_vault (signer : Z) (vault_name : Name) (ui_amount : f64) : Client Z :=
  inst <-! all_instructions_remove_liquidity_vault signer vault_name ui_amount ;;
  sign_and_send_instructions_in_batches_ <-! sign_and_send_instructions_in_batches [signer] inst ;;
  last_ <- st_unwrap (last sign_and_send_instructions_in_batches_) ;;
  st_ok last_.

Definition remove_unlocked_liquidity_vault (signer : Z) (vault_name : Name) (ui_amount : f64)
    : Client Z :=
  inst <-! all_instructions_remove_unlocked_liquidity_vault signer vault_name ui_amount ;;
  sign_and_send_instructions [signer] inst.

Definition add_liquidity_pool (signer : Z) (pool_name : Name)
    (max_token_a_ui_amount max_token_b_ui_amount : f64) : Client Z :=
  inst <-! all_instructions_add_liquidity_pool signer pool_name max_token_a_ui_amount
      max_token_b_ui_amount ;;
  sign_and_send_instructions [signer] inst.

Definition remove_liquidity_pool (signer : Z) (pool_name : Name) (ui_amount : f64) : Client Z :=
  inst <-! all_instructions_remove_liquidity_pool signer pool_name ui_amount ;;
  sign_and_send_instructions [signer] inst.

Definition swap (signer : Z) (protocol : Protocol) (from_token to_token : Name)
    (ui_amount_in min_ui_amount_out : f64) : Client Z :=
  inst <-! all_instructions_swap signer protocol from_token to_token ui_amount_in min_ui_amount_out
      ;;
  sign_and_send_instructions [signer] inst.

Definition user_init (signer : Z) (farm_name : Name) : Client Z :=
  inst <-! new_instruction_user_init signer farm_name ;;
  sign_and_send_instructions [signer] [inst].

Definition stake (signer : Z) (farm_name : Name) (ui_amount : f64) : Client Z :=
  inst <-! all_instructions_stake signer farm_name ui_amount ;;
  sign_and_send_instructions [signer] inst.

Definition unstake (signer : Z) (farm_name : Name) (ui_amount : f64) : Client Z :=
  inst <-! all_instructions_unstake signer farm_name ui_amount ;;
  sign_and_send_instructions [signer] inst.

Definition harvest (signer : Z) (farm_name : Name) : Client Z :=
  inst <-! all_instructions_harvest signer farm_name ;;
  sign_and_send_instructions [signer] inst.

Definition initialize_refdb (admin_signer : Z) (refdb_name : Name) (reference_type : ReferenceType)
    (max_records : Z) (init_account : bool) : Client Z :=
  _ <-! (if init_account && negb REFDB_ONCHAIN_INIT then
    pda <- find_refdb_pda refdb_name ;;
    let refdb_address := pda.1 in
    res <- ask (get_account refdb_address) ;;
    match res with
    | Ok refdb_account =>
        if negb (refdb_account.(account_owner) =? main_router) then
          st_bail (ValueError [Text "RefDB account owner mismatch "; Key refdb_address])
        else st_ok tt
    | Err _ =>
        if negb (admin_signer =? main_router_admin) then
          st_bail (ValueError
            [Text "RefDB init must be initially called with main_router_admin::id() if on-chain init is disabled"])
        else
          size <- st_unwrap (get_storage_size_for_records reference_type max_records) ;;
          _ <-! create_system_account_with_seed admin_signer admin_signer refdb_name 0 size main_router ;;
          st_ok tt
    end
  else st_ok tt) ;;
  inst <-! new_instruction_refdb_init admin_signer refdb_name reference_type (wrap_u32 max_records)
             init_account ;;
  sign_and_send_instructions [admin_signer] [inst].

Definition set_admins (admin_signer : Z) (admin_signers : (list Z)) (min_signatures : Z)
    : Client Z :=
  inst <-! new_instruction_set_admins admin_signer admin_signers min_signatures ;;
  sign_and_send_instructions [admin_signer] [inst].

Definition drop_refdb (admin_signer : Z) (refdb_name : Name) (close_account : bool) : Client Z :=
  inst <-! new_instruction_refdb_drop admin_signer refdb_name close_account ;;
  sign_and_send_instructions [admin_signer] [inst].

Definition remove_reference (admin_signer : Z) (storage_type : StorageType) (object_name : Name)
    : Client Z :=
  inst <-! new_instruction_remove_reference admin_signer storage_type object_name ;;
  sign_and_send_instructions [admin_signer] [inst].

(** What the operations that add and remove program ids and records do when the
    transaction was confirmed. *)
Definition after_send (inst : Instruction) (admin_signer : Z) (then_ : ST FarmClient unit) : Client Z :=
  res <- sign_and_send_instructions [admin_signer] [inst] ;;
  (if is_ok res then then_ else st_ret tt) ;;;
  st_ret res.

Definition modify_official_ids (f : gmap (list Z) Z -> gmap (list Z) Z) : ST FarmClient unit :=
  ids <- st_gets official_ids ;;
  ids' <- modify_data f ids ;;
  st_modify (set_official_ids ids').

Definition add_program_id (admin_signer : Z) (name : Name) (program_id : Z)
    (program_id_type : ProgramIDType) (refdb_index : option Z) : Client Z :=
  inst <-! new_instruction_add_program_id admin_signer name program_id program_id_type refdb_index ;;
  after_send inst admin_signer (modify_official_ids (<[name := program_id]>)).

Definition remove_program_id (admin_signer : Z) (name : Name) : Client Z :=
  inst <-! new_instruction_remove_program_id admin_signer name ;;
  after_send inst admin_signer (modify_official_ids (base.delete name)).

Definition modify_records {T} (K : Kind T) (f : gmap (list Z) T -> gmap (list Z) T) : ST FarmClient unit :=
  s <- st_gets K.(store) ;;
  records' <- modify_data f s.(records) ;;
  update K (set_records records').

Definition modify_refs {T} (K : Kind T) (f : gmap (list Z) Z -> gmap (list Z) Z) : ST FarmClient unit :=
  s <- st_gets K.(store) ;;
  refs' <- modify_data f s.(refs) ;;
  update K (set_refs refs').

Definition update_latest {T} (K : Kind T) : ST FarmClient unit :=
  if K.(versioned) then
    s <- st_gets K.(store) ;;
    latest' <- reinsert_latest_versions s.(refs).(data) s.(latest) ;;
    update K (set_latest latest')
  else st_ret tt.

(** The record and its address are put into the caches. *)
Definition cache_record {T} (K : Kind T) (r : T) : ST FarmClient unit :=
  let name := K.(record_name) r in
  modify_records K (<[name := r]>) ;;;
  modify_refs K (<[name := (find_target_pda K.(storage) name).1]>) ;;;
  update_latest K.

Definition forget_record {T} (K : Kind T) (name : Name) : ST FarmClient unit :=
  modify_records K (base.delete name) ;;;
  modify_refs K (base.delete name) ;;;
  update_latest K.

Definition add_fund (admin_signer : Z) (fund : Fund.t) : Client Z :=
  inst <-! new_instruction_add_fund admin_signer fund ;;
  after_send inst admin_signer (cache_record FundKind fund).

Definition remove_fund (admin_signer : Z) (fund_name : Name) : Client Z :=
  inst <-! new_instruction_remove_fund admin_signer fund_name ;;
  after_send inst admin_signer (forget_record FundKind fund_name).

Definition add_vault (admin_signer : Z) (vault : Vault) : Client Z :=
  inst <-! new_instruction_add_vault admin_signer vault ;;
  after_send inst admin_signer (cache_record VaultKind vault).

Definition remove_vault (admin_signer : Z) (vault_name : Name) : Client Z :=
  inst <-! new_instruction_remove_vault admin_signer vault_name ;;
  after_send inst admin_signer (forget_record VaultKind vault_name).

Definition add_pool (admin_signer : Z) (pool : Pool) : Client Z :=
  inst <-! new_instruction_add_pool admin_signer pool ;;
  after_send inst admin_signer (cache_record PoolKind pool).

Definition remove_pool (admin_signer : Z) (pool_name : Name) : Client Z :=
  inst <-! new_instruction_remove_pool admin_signer pool_name ;;
  after_send inst admin_signer (forget_record PoolKind pool_name).

Definition add_farm (admin_signer : Z) (farm : Farm) : Client Z :=
  inst <-! new_instruction_add_farm admin_signer farm ;;
  after_send inst admin_signer (cache_record FarmKind farm).

Definition remove_farm (admin_signer : Z) (farm_name : Name) : Client Z :=
  inst <-! new_instruction_remove_farm admin_signer farm_name ;;
  after_send inst admin_signer (forget_record FarmKind farm_name).

Definition add_token (admin_signer : Z) (token : Token) : Client Z :=
  inst <-! new_instruction_add_token admin_signer token ;;
  after_send inst admin_signer (cache_record TokenKind token).

Definition remove_token (admin_signer : Z) (token_name : Name) : Client Z :=
  inst <-! new_instruction_remove_token admin_signer token_name ;;
  after_send inst admin_signer (forget_record TokenKind token_name).

Definition init_vault (admin_signer : Z) (vault_name : Name) (step : Z) : Client Z :=
  inst <-! new_instruction_init_vault admin_signer vault_name step ;;
  sign_and_send_instructions [admin_signer] [inst].

Definition shutdown_vault (admin_signer : Z) (vault_name : Name) : Client Z :=
  inst <-! new_instruction_shutdown_vault admin_signer vault_name ;;
  sign_and_send_instructions [admin_signer] [inst].

Definition crank_vault (signer : Z) (vault_name : Name) (step : Z) : Client Z :=
  inst <-! new_instruction_crank_vault signer vault_name step ;;
  sign_and_send_instructions [signer] [inst].

Definition crank_vaults (signer step : Z) : Client Z :=
  vaults <-! get_vaults ;;
  let names := (hash_iter vaults).*1 in
  _ <-! st_fold (fun _ vault_name => _ <-! crank_vault signer vault_name step ;; st_ok tt) names tt ;;
  st_ok (Z.of_nat (List.length names)).

Definition withdraw_fees_vault (signer : Z) (vault_name : Name) (fee_token : TokenSelector)
    (ui_amount : f64) (receiver : Z) : Client Z :=
  inst <-! new_instruction_withdraw_fees_vault signer vault_name fee_token ui_amount receiver ;;
  sign_and_send_instructions [signer] [inst].

Definition set_min_crank_interval_vault (admin_signer : Z) (vault_name : Name)
    (min_crank_interval : Z) : Client Z :=
  inst <-! new_instruction_set_min_crank_interval_vault admin_signer vault_name min_crank_interval
      ;;
  sign_and_send_instructions [admin_signer] [inst].

Definition set_fee_vault (admin_signer : Z) (vault_name : Name) (fee_percent : f32) : Client Z :=
  inst <-! new_instruction_set_fee_vault admin_signer vault_name fee_percent ;;
  sign_and_send_instructions [admin_signer] [inst].

Definition set_external_fee_vault (admin_signer : Z) (vault_name : Name)
    (external_fee_percent : f32) : Client Z :=
  inst <-! new_instruction_set_external_fee_vault admin_signer vault_name external_fee_percent ;;
  sign_and_send_instructions [admin_signer] [inst].

Definition disable_deposits_vault (admin_signer : Z) (vault_name : Name) : Client Z :=
  inst <-! new_instruction_disable_deposits_vault admin_signer vault_name ;;
  sign_and_send_instructions [admin_signer] [inst].

Definition enable_deposits_vault (admin_signer : Z) (vault_name : Name) : Client Z :=
  inst <-! new_instruction_enable_deposits_vault admin_signer vault_name ;;
  sign_and_send_instructions [admin_signer] [inst].

Definition disable_withdrawals_vault (admin_signer : Z) (vault_name : Name) : Client Z :=
  inst <-! new_instruction_disable_withdrawals_vault admin_signer vault_name ;;
  sign_and_send_instructions [admin_signer] [inst].

Definition enable_withdrawals_vault (admin_signer : Z) (vault_name : Name) : Client Z :=
  inst <-! new_instruction_enable_withdrawals_vault admin_signer vault_name ;;
  sign_and_send_instructions [admin_signer] [inst].

Definition set_fund_admins (admin_signer : Z) (fund_name : Name) (admin_signers : (list Z))
    (min_signatures : Z) : Client Z :=
  inst <-! new_instruction_set_fund_admins admin_signer fund_name admin_signers min_signatures ;;
  sign_and_send_instructions [admin_signer] [inst].

Definition remove_fund_multisig (admin_signer : Z) (fund_name : Name) : Client Z :=
  inst <-! new_instruction_remove_fund_multisig admin_signer fund_name ;;
  sign_and_send_instructions [admin_signer] [inst].

Definition add_fund_custody (admin_signer : Z) (fund_name token_name : Name)
    (custody_type : FundCustodyType) : Client Z :=
  inst <-! new_instruction_add_fund_custody admin_signer fund_name token_name custody_type ;;
  sign_and_send_instructions [admin_signer] [inst].

Definition remove_fund_custody (admin_signer : Z) (fund_name token_name : Name)
    (custody_type : FundCustodyType) : Client Z :=
  inst <-! new_instruction_remove_fund_custody admin_signer fund_name token_name custody_type ;;
  sign_and_send_instructions [admin_signer] [inst].

Definition add_fund_vault (admin_signer : Z) (fund_name vault_name : Name)
    (vault_type : FundVaultType) : Client Z :=
  inst <-! new_instruction_add_fund_vault admin_signer fund_name vault_name vault_type ;;
  sign_and_send_instructions [admin_signer] [inst].

Definition remove_fund_vault (admin_signer : Z) (fund_name vault_name : Name)
    (vault_type : FundVaultType) : Client Z :=
  inst <-! new_instruction_remove_fund_vault admin_signer fund_name vault_name vault_type ;;
  sign_and_send_instructions [admin_signer] [inst].

Definition init_fund (admin_signer : Z) (fund_name : Name) (step : Z) : Client Z :=
  inst <-! new_instruction_init_fund admin_signer fund_name step ;;
  sign_and_send_instructions [admin_signer] [inst].

Definition user_init_fund (signer : Z) (fund_name token_name : Name) : Client Z :=
  inst <-! new_instruction_user_init_fund signer fund_name token_name ;;
  sign_and_send_instructions [signer] [inst].

Definition set_fund_assets_tracking_config (admin_signer : Z) (fund_name : Name)
    (config : FundAssetsTrackingConfig) : Client Z :=
  inst <-! new_instruction_set_fund_assets_tracking_config admin_signer fund_name config ;;
  sign_and_send_instructions [admin_signer] [inst].

Definition set_fund_deposit_schedule (admin_signer : Z) (fund_name : Name) (schedule : FundSchedule)
    : Client Z :=
  inst <-! new_instruction_set_fund_deposit_schedule admin_signer fund_name schedule ;;
  sign_and_send_instructions [admin_signer] [inst].

Definition disable_deposits_fund (signer : Z) (fund_name : Name) : Client Z :=
  inst <-! new_instruction_disable_deposits_fund signer fund_name ;;
  sign_and_send_instructions [signer] [inst].

Definition request_deposit_fund (signer : Z) (fund_name token_name : Name) (ui_amount : f64)
    : Client Z :=
  inst <-! all_instructions_request_deposit_fund signer fund_name token_name ui_amount ;;
  sign_and_send_instructions [signer] inst.

Definition cancel_deposit_fund (signer : Z) (fund_name token_name : Name) : Client Z :=
  inst <-! new_instruction_cancel_deposit_fund signer fund_name token_name ;;
  sign_and_send_instructions [signer] [inst].

Definition approve_deposit_fund (admin_signer : Z) (fund_name : Name) (user_address : Z)
    (token_name : Name) (ui_amount : f64) : Client Z :=
  inst <-! new_instruction_approve_deposit_fund admin_signer user_address fund_name token_name
      ui_amount ;;
  sign_and_send_instructions [admin_signer] [inst].

Definition deny_deposit_fund (admin_signer : Z) (fund_name : Name) (user_address : Z)
    (token_name deny_reason : Name) : Client Z :=
  inst <-! new_instruction_deny_deposit_fund admin_signer user_address fund_name token_name
      deny_reason ;;
  sign_and_send_instructions [admin_signer] [inst].

Definition set_fund_withdrawal_schedule (admin_signer : Z) (fund_name : Name)
    (schedule : FundSchedule) : Client Z :=
  inst <-! new_instruction_set_fund_withdrawal_schedule admin_signer fund_name schedule ;;
  sign_and_send_instructions [admin_signer] [inst].

Definition disable_withdrawals_fund (signer : Z) (fund_name : Name) : Client Z :=
  inst <-! new_instruction_disable_withdrawals_fund signer fund_name ;;
  sign_and_send_instructions [signer] [inst].

Definition request_withdrawal_fund (signer : Z) (fund_name token_name : Name) (ui_amount : f64)
    : Client Z :=
  inst <-! all_instructions_request_withdrawal_fund signer fund_name token_name ui_amount ;;
  sign_and_send_instructions [signer] inst.

Definition cancel_withdrawal_fund (signer : Z) (fund_name token_name : Name) : Client Z :=
  inst <-! new_instruction_cancel_withdrawal_fund signer fund_name token_name ;;
  sign_and_send_instructions [signer] [inst].

Definition approve_withdrawal_fund (admin_signer : Z) (fund_name : Name) (user_address : Z)
    (token_name : Name) (ui_amount : f64) : Client Z :=
  inst <-! new_instruction_approve_withdrawal_fund admin_signer user_address fund_name token_name
      ui_amount ;;
  sign_and_send_instructions [admin_signer] [inst].

Definition deny_withdrawal_fund (admin_signer : Z) (fund_name : Name) (user_address : Z)
    (token_name deny_reason : Name) : Client Z :=
  inst <-! new_instruction_deny_withdrawal_fund admin_signer user_address fund_name token_name
      deny_reason ;;
  sign_and_send_instructions [admin_signer] [inst].

Definition lock_assets_fund (admin_signer : Z) (fund_name token_name : Name) (ui_amount : f64)
    : Client Z :=
  inst <-! new_instruction_lock_assets_fund admin_signer fund_name token_name ui_amount ;;
  sign_and_send_instructions [admin_signer] [inst].

Definition unlock_assets_fund (admin_signer : Z) (fund_name token_name : Name) (ui_amount : f64)
    : Client Z :=
  inst <-! new_instruction_unlock_assets_fund admin_signer fund_name token_name ui_amount ;;
  sign_and_send_instructions [admin_signer] [inst].

Definition update_fund_assets_with_custody (signer : Z) (fund_name : Name) (custody_id : Z)
    : Client Z :=
  inst <-! new_instruction_update_fund_assets_with_custody signer fund_name custody_id ;;
  sign_and_send_instructions [signer] [inst].

Definition update_fund_assets_with_custodies (signer : Z) (fund_name : Name) : Client Z :=
  custodies <-! get_fund_custodies fund_name ;;
  _ <-! st_fold (fun _ custody =>
      if negb custody.(FundCustody.is_vault_token) then
        _ <-! update_fund_assets_with_custody signer fund_name custody.(FundCustody.custody_id) ;;
        st_ok tt
      else st_ok tt) custodies tt ;;
  st_ok (Z.of_nat (List.length custodies)).

Definition update_fund_assets_with_vault (signer : Z) (fund_name : Name) (vault_id : Z)
    : Client Z :=
  inst <-! new_instruction_update_fund_assets_with_vault signer fund_name vault_id ;;
  sign_and_send_instructions [signer] [inst].

Definition update_fund_assets_with_vaults (signer : Z) (fund_name : Name) : Client Z :=
  vaults <-! get_fund_vaults fund_name ;;
  _ <-! st_fold (fun _ vault =>
      match vault.(FundVault.vault_type) with
      | TypeFarm => st_ok tt
      | _ =>
          _ <-! update_fund_assets_with_vault signer fund_name vault.(FundVault.vault_id) ;;
          st_ok tt
      end) vaults tt ;;
  st_ok (Z.of_nat (List.length vaults)).

Definition start_liquidation_fund (signer : Z) (fund_name : Name) : Client Z :=
  inst <-! new_instruction_start_liquidation_fund signer fund_name ;;
  sign_and_send_instructions [signer] [inst].

Definition stop_liquidation_fund (admin_signer : Z) (fund_name : Name) : Client Z :=
  inst <-! new_instruction_stop_liquidation_fund admin_signer fund_name ;;
  sign_and_send_instructions [admin_signer] [inst].

Definition withdraw_fees_fund (signer : Z) (fund_name token_name : Name)
    (custody_type : FundCustodyType) (ui_amount : f64) (receiver : Z) : Client Z :=
  inst <-! new_instruction_withdraw_fees_fund signer fund_name token_name custody_type ui_amount
      receiver ;;
  sign_and_send_instructions [signer] [inst].

Definition fund_add_liquidity_pool (admin_signer : Z) (fund_name pool_name : Name)
    (max_token_a_ui_amount max_token_b_ui_amount : f64) : Client Z :=
  inst <-! all_instructions_fund_add_liquidity_pool admin_signer fund_name pool_name
      max_token_a_ui_amount max_token_b_ui_amount ;;
  sign_and_send_instructions_in_batches_ <-! sign_and_send_instructions_in_batches [admin_signer]
      inst ;;
  last_ <- st_unwrap (last sign_and_send_instructions_in_batches_) ;;
  st_ok last_.

Definition fund_remove_liquidity_pool (admin_signer : Z) (fund_name pool_name : Name)
    (ui_amount : f64) : Client Z :=
  inst <-! all_instructions_fund_remove_liquidity_pool admin_signer fund_name pool_name ui_amount ;;
  sign_and_send_instructions_in_batches_ <-! sign_and_send_instructions_in_batches [admin_signer]
      inst ;;
  last_ <- st_unwrap (last sign_and_send_instructions_in_batches_) ;;
  st_ok last_.

Definition fund_swap (admin_signer : Z) (fund_name : Name) (protocol : Protocol)
    (from_token to_token : Name) (ui_amount_in min_ui_amount_out : f64) : Client Z :=
  inst <-! all_instructions_fund_swap admin_signer fund_name protocol from_token to_token
      ui_amount_in min_ui_amount_out ;;
  sign_and_send_instructions_in_batches_ <-! sign_and_send_instructions_in_batches [admin_signer]
      inst ;;
  last_ <- st_unwrap (last sign_and_send_instructions_in_batches_) ;;
  st_ok last_.

Definition fund_user_init_farm (admin_signer : Z) (fund_name farm_name : Name) : Client Z :=
  inst <-! new_instruction_fund_user_init_farm admin_signer fund_name farm_name ;;
  sign_and_send_instructions [admin_signer] [inst].

Definition fund_stake (admin_signer : Z) (fund_name farm_name : Name) (ui_amount : f64)
    : Client Z :=
  inst <-! all_instructions_fund_stake admin_signer fund_name farm_name ui_amount ;;
  sign_and_send_instructions_in_batches_ <-! sign_and_send_instructions_in_batches [admin_signer]
      inst ;;
  last_ <- st_unwrap (last sign_and_send_instructions_in_batches_) ;;
  st_ok last_.

Definition fund_unstake (admin_signer : Z) (fund_name farm_name : Name) (ui_amount : f64)
    : Client Z :=
  inst <-! all_instructions_fund_unstake admin_signer fund_name farm_name ui_amount ;;
  sign_and_send_instructions_in_batches_ <-! sign_and_send_instructions_in_batches [admin_signer]
      inst ;;
  last_ <- st_unwrap (last sign_and_send_instructions_in_batches_) ;;
  st_ok last_.

Definition fund_harvest (admin_signer : Z) (fund_name farm_name : Name) : Client Z :=
  inst <-! all_instructions_fund_harvest admin_signer fund_name farm_name ;;
  sign_and_send_instructions_in_batches_ <-! sign_and_send_instructions_in_batches [admin_signer]
      inst ;;
  last_ <- st_unwrap (last sign_and_send_instructions_in_batches_) ;;
  st_ok last_.

Definition fund_user_init_vault (admin_signer : Z) (fund_name vault_name : Name) : Client Z :=
  inst <-! new_instruction_fund_user_init_vault admin_signer fund_name vault_name ;;
  sign_and_send_instructions [admin_signer] [inst].

Definition fund_add_liquidity_vault (admin_signer : Z) (fund_name vault_name : Name)
    (max_token_a_ui_amount max_token_b_ui_amount : f64) : Client Z :=
  inst <-! all_instructions_fund_add_liquidity_vault admin_signer fund_name vault_name
      max_token_a_ui_amount max_token_b_ui_amount ;;
  sign_and_send_instructions_in_batches_ <-! sign_and_send_instructions_in_batches [admin_signer]
      inst ;;
  last_ <- st_unwrap (last sign_and_send_instructions_in_batches_) ;;
  st_ok last_.

Definition fund_add_locked_liquidity_vault (admin_signer : Z) (fund_name vault_name : Name)
    (ui_amount : f64) : Client Z :=
  inst <-! all_instructions_fund_add_locked_liquidity_vault admin_signer fund_name vault_name
      ui_amount ;;
  sign_and_send_instructions_in_batches_ <-! sign_and_send_instructions_in_batches [admin_signer]
      inst ;;
  last_ <- st_unwrap (last sign_and_send_instructions_in_batches_) ;;
  st_ok last_.

Definition fund_remove_liquidity_vault (admin_signer : Z) (fund_name vault_name : Name)
    (ui_amount : f64) : Client Z :=
  inst <-! all_instructions_fund_remove_liquidity_vault admin_signer fund_name vault_name ui_amount
      ;;
  sign_and_send_instructions_in_batches_ <-! sign_and_send_instructions_in_batches [admin_signer]
      inst ;;
  last_ <- st_unwrap (last sign_and_send_instructions_in_batches_) ;;
  st_ok last_.

Definition fund_remove_unlocked_liquidity_vault (admin_signer : Z) (fund_name vault_name : Name)
    (ui_amount : f64) : Client Z :=
  inst <-! all_instructions_fund_remove_unlocked_liquidity_vault admin_signer fund_name vault_name
      ui_amount ;;
  sign_and_send_instructions_in_batches_ <-! sign_and_send_instructions_in_batches [admin_signer]
      inst ;;
  last_ <- st_unwrap (last sign_and_send_instructions_in_batches_) ;;
  st_ok last_.

Definition unwrap_pool_tokens (signer : Z) (pool_name : Name) : Client Z :=
  '(is_token_a_sol, is_token_b_sol) <-! pool_has_sol_tokens pool_name ;;
  '(is_token_a_wrapped, is_token_b_wrapped) <-! pool_has_saber_wrapped_tokens pool_name ;;
  inst <-! (if is_token_a_wrapped then
    instruction_unwrap_token <-! new_instruction_unwrap_token signer pool_name TokenA f64_zero ;;
    st_ok [instruction_unwrap_token]
  else
    st_ok []) ;;
  inst <-! (if is_token_b_wrapped then
    instruction_unwrap_token2 <-! new_instruction_unwrap_token signer pool_name TokenB f64_zero ;;
    st_ok (inst ++ [instruction_unwrap_token2])
  else
    st_ok inst) ;;
  inst <-! (if is_token_a_sol || is_token_b_sol then
    close <-! new_instruction_close_token_account signer (str "SOL") ;;
    st_ok (inst ++ [close])
  else
    st_ok inst) ;;
  sign_and_send_instructions [signer] inst.

End Operations.
