(* ===== verification/ClientSamples.v ===== *)
(** * A concrete farm client

    Instances of what the client uses from outside the repository and a client with
    filled caches, on which the theorems about the farm client are applied. *)

From Stdlib Require Import String.
From S2P Require Import Prelude MachineInt Float64 Amounts Pack RefDB Token Pool Farm Vault Fund SdkAccount Multisig Cpi Oracle ClientNames Client ClientReads.

(** ** The chain *)

(** An instruction that only shows who signs it. *)
Definition shown (k n : Z) : Instruction :=
  {| Cpi.program_id := 11; Cpi.accounts := [signer k]; Cpi.data := [n] |}.

Definition sample_token_program : SplToken := {|
  initialize_account := fun _ _ _ _ => Err InvalidArgument;
  initialize_mint := fun _ _ _ _ _ => Err InvalidArgument;
  close_account := fun _ _ _ owner => Ok (shown owner 9);
  transfer := fun _ _ _ authority n => Ok (shown authority n);
  Cpi.mint_to := fun _ _ _ _ _ => Err InvalidArgument;
  burn := fun _ _ _ authority n => Ok (shown authority n);
  approve := fun _ _ _ authority n => Ok (shown authority n);
  revoke := fun _ _ authority => Ok (shown authority 5);
  create_associated_token_account := fun payer _ _ => shown payer 0 |}.

Definition sample_system_program : SystemInstruction := {|
  create_account := fun from _ n _ _ => shown from n;
  create_account_with_seed := fun from _ _ _ n _ _ => shown from n;
  system_transfer := fun from _ n => shown from n;
  allocate := fun k n => shown k n;
  assign := fun k _ => shown k 0 |}.

Definition sample_addresses : Runtime := {|
  invoke_signed := fun _ _ _ accounts => (Some (Ok tt), accounts);
  find_program_address := fun seeds program =>
    (foldl (fun h b => (h * 257 + b) mod 2 ^ 256) program (concat seeds), 255);
  create_with_seed := fun base seed owner => Ok (foldl (fun h b => (h * 257 + b) mod 2 ^ 256) (base + owner) seed);
  rent_get := Ok (fun size => 10 * size) |}.

Definition sample_token_named (name : Name) (type : TokenType) (decimals mint : Z) : Token := {|
  Token.name := name; Token.description := []; Token.token_type := type; Token.refdb_index := Some 0;
  Token.refdb_counter := 0; Token.decimals := decimals; Token.chain_id := 101; Token.mint := mint;
  Token.oracle_type := Token.Unsupported; Token.oracle_account := None; Token.description_account := 0 |}.

Definition sol : Token := sample_token_named (str "SOL") Token.WrappedSol 9 101.
Definition ray : Token := sample_token_named (str "RAY") Token.SplToken 6 102.
Definition lp : Token := sample_token_named (str "LP.RDM.RAY-SOL-V1") Token.LpToken 6 103.

(** The address 201 is the record of a token; derived accounts hold the custody of a
    fund; any other account holds one byte, which a token account reads as its owner.  [send] answers for transactions. *)
Definition custody_bytes : list Z :=
  match FundCustody.to_vec {|
      FundCustody.discriminator := DISCRIMINATOR_FUND_CUSTODY; FundCustody.fund_ref := 207;
      FundCustody.custody_id := 1; FundCustody.custody_type := Trading; FundCustody.is_vault_token := false;
      FundCustody.token_ref := 202; FundCustody.address := 601; FundCustody.fees_address := 602;
      FundCustody.bump := 255 |} with
  | Some (Ok bytes) => bytes
  | _ => []
  end.

#[local] Existing Instance ascii_utf8.

Definition token_bytes : list Z := match Token.to_vec sol with Some (Ok bytes) => bytes | _ => [] end.

Definition sample_node (send : Transaction -> nat -> result ClientError Z) : Rpc := {|
  system_time := fun _ => 1000;
  get_account := fun _ _ => Err (OtherClientError 1);
  get_account_data := fun k _ => Ok (if k =? 201 then token_bytes else if k <? 2 ^ 32 then [k] else custody_bytes);
  get_multiple_accounts := fun keys _ => Ok (map (fun _ => None) keys);
  rpc_token_account_balance := fun _ _ => Ok {| ui_amount := Some (f64_of_Z 5); amount := Some 5000000 |};
  rpc_token_supply := fun _ _ => Ok {| ui_amount := Some (f64_of_Z 5); amount := Some 5000000 |};
  rpc_token_accounts_by_owner := fun _ _ => Ok [];
  get_balance := fun _ _ => Ok 3000000000;
  get_minimum_balance_for_rent_exemption := fun size _ => Ok (10 * size);
  get_fee_for_message := fun _ _ => Ok 5000;
  get_program_accounts := fun _ _ _ _ => Ok [];
  rpc_get_slot := fun _ => Ok 100;
  get_latest_blockhash := fun n => Ok (Z.of_nat n);
  is_blockhash_valid := fun _ _ => Ok true;
  send_and_confirm_transaction := send;
  confirm_transaction := fun _ _ _ _ => Ok tt |}.

Definition sample_libs : ClientLibs := {|
  parse_bpf_upgradeable_loader := fun _ => Ok BpfOther;
  liquidity_state := fun _ => Err [];
  parse_token := fun d _ => Ok (TokenAccount {| ui_mint := [101]; ui_owner := d; ui_state := Initialized |});
  pubkey_from_string := fun s => match s with [k] => Some k | _ => None end;
  associated_token_address := fun wallet mint => 1000000 + 1000 * wallet + mint;
  sha256 := fun l => replicate 32 (sum_list_Z l mod 256);
  bincode_serialize := fun instructions _ => Some (replicate (400 * List.length instructions) 0);
  signature_of := fun t => 7000 + t.(tx_blockhash);
  sync_native := fun _ _ => Ok {| Cpi.program_id := 1; Cpi.accounts := []; Cpi.data := [17] |};
  main_router := 20; main_router_multisig := 21; system_program := 0; associated_token_program := 22;
  rent_sysvar := 23; clock_sysvar := 24; instructions_sysvar := 25; bpf_loader_upgradeable := 26 |}.

Definition sample_env (send : Transaction -> nat -> result ClientError Z) : FarmEnv := {|
  env_profile := debug_build;
  env_utf8 := ascii_utf8;
  env_pow := checked_pow_model;
  env_oracle := {| load_price := fun _ => Err InvalidAccountData; get_slot := Ok 100;
                   powi := fun x _ => x; powf := fun x _ => x;
                   num_cast_u64 := fun x => Some (f64_as_u64 x);
                   num_cast_u128 := fun x => Some (f64_as_u64 x) |};
  env_ids := {| spl_token_id := 1; zero_id := 0; main_router_admin := 3 |};
  env_runtime := sample_addresses;
  env_spl_token := sample_token_program;
  env_system := sample_system_program;
  env_hash := hash_order_model;
  env_rpc := sample_node send;
  env_libs := sample_libs |}.

(** Every transaction is confirmed. *)
Definition confirming : Transaction -> nat -> result ClientError Z := fun t _ => Ok (7000 + t.(tx_blockhash)).

(** ** The client *)

Definition fund_token : Token := sample_token_named (str "FD.F1") Token.FundToken 6 104.

Definition ray_sol : Pool := {|
  Pool.name := str "RDM.RAY-SOL-V1"; Pool.version := 1; Pool.pool_type := Pool.Amm; Pool.official := true;
  Pool.refdb_index := Some 0; Pool.refdb_counter := 0; Pool.token_a_ref := Some 202;
  Pool.token_b_ref := Some 201; Pool.lp_token_ref := Some 203; Pool.token_a_account := Some 301;
  Pool.token_b_account := Some 302; Pool.router_program_id := 303; Pool.pool_program_id := 304;
  Pool.route := Pool.Raydium 310 311 312 313 314 315 316 317 318 319 320 (Some 321) (Some 322) (Some 323) |}.

Definition ray_farm : Farm := {|
  Farm.name := str "RDM.RAY-SOL-V1"; Farm.version := 1; Farm.farm_type := Farm.SingleReward; Farm.official := true;
  Farm.refdb_index := Some 0; Farm.refdb_counter := 0; Farm.lp_token_ref := Some 203;
  Farm.first_reward_token_ref := Some 202; Farm.second_reward_token_ref := None;
  Farm.router_program_id := 403; Farm.farm_program_id := 404; Farm.route := Farm.Raydium 410 411 412 413 None |}.

Definition fund_f1 : Fund.t := {|
  Fund.name := str "F1"; Fund.version := 1; Fund.fund_type := General; Fund.official := true;
  Fund.refdb_index := Some 0; Fund.refdb_counter := 0; Fund.metadata_bump := 255; Fund.authority_bump := 254;
  Fund.fund_token_bump := 253; Fund.multisig_bump := 252; Fund.fund_program_id := 501; Fund.fund_authority := 502;
  Fund.fund_manager := 503; Fund.fund_token_ref := 204; Fund.info_account := 505; Fund.multisig_account := 506;
  Fund.vaults_assets_info := 507; Fund.custodies_assets_info := 508; Fund.description_account := 509 |}.

Definition fresh_cache {T} (entries : list (Name * T)) : Cache T :=
  {| data := list_to_map entries; last_load := 1000; counter := 5; lent := false |}.

Definition sample_store {T} (entries : list (Name * T * Z)) (latest : list (Name * Name)) : Store T := {|
  records := fresh_cache (map fst entries);
  refs := fresh_cache (map (fun e => (e.1.1, e.2)) entries);
  latest := list_to_map latest |}.

Definition sample_client : FarmClient := {|
  tokens := sample_store [(str "SOL", sol, 201); (str "RAY", ray, 202); (str "LP.RDM.RAY-SOL-V1", lp, 203);
                          (str "FD.F1", fund_token, 204)] [];
  pools := sample_store [(str "RDM.RAY-SOL-V1", ray_sol, 205)] [(str "RDM.RAY-SOL", str "RDM.RAY-SOL-V1")];
  farms := sample_store [(str "RDM.RAY-SOL-V1", ray_farm, 206)] [(str "RDM.RAY-SOL", str "RDM.RAY-SOL-V1")];
  vaults := sample_store [] [];
  funds := sample_store [(str "F1", fund_f1, 207)] [];
  official_ids := fresh_cache [];
  stake_accounts := [∅; ∅; ∅];
  asked := 0 |}.
