(* ===== verification/ClientSigners.v ===== *)
(** * A program logic for the farm client, and who signs what it sends

    [returns P m]: whenever [m] returns [Ok], the value satisfies [P].  [returns_tac]
    applies the rules along the text of a method; calls are closed by the lemmas
    of the hint database [client], and a call without a lemma yields anything. *)

From Stdlib Require Import String.
From S2P Require Import Prelude MachineInt Amounts Float64 Pack RefDB AmmInstruction VaultInstruction Token Pool Farm Vault Fund FundInstruction RefDbInstruction MainInstruction SdkAccount Multisig Cpi Oracle ClientNames Client ClientReads ClientPool ClientFarm ClientVault ClientFund ClientRouter ClientChecks ClientPlans ClientSend ClientSamples.

Section Logic.
Context {S E : Type}.

Definition yields {A} (P : A -> Prop) (m : ST S A) : Prop :=
  forall s a s', m s = (Some a, s') -> P a.

Definition ok_or_error {A} (P : A -> Prop) (r : result E A) : Prop :=
  match r with Ok a => P a | Err _ => True end.

Definition returns {A} (P : A -> Prop) (m : ST S (result E A)) : Prop := yields (ok_or_error P) m.

Lemma yields_ret {A} (P : A -> Prop) a : P a -> yields P (st_ret (S := S) a).
Proof. by intros ???? [= <- _]. Qed.

Lemma yields_panic {A} (P : A -> Prop) : yields P (st_panic (S := S)).
Proof. by intros ???. Qed.

Lemma yields_any {A} (m : ST S A) : yields (fun _ => True) m.
Proof. done. Qed.

Lemma yields_bind {A B} (P : A -> Prop) (Q : B -> Prop) (m : ST S A) (k : A -> ST S B) :
  yields P m -> (forall a, P a -> yields Q (k a)) -> yields Q (st_bind m k).
Proof. intros Hm Hk s b s'' (a & s' & E1 & E2)%st_bind_inv. eapply Hk; eauto. Qed.

Lemma yields_bind_any {A B} (Q : B -> Prop) (m : ST S A) (k : A -> ST S B) :
  (forall a, yields Q (k a)) -> yields Q (st_bind m k).
Proof. intros Hk. apply (yields_bind (fun _ => True)); eauto using yields_any. Qed.

Lemma yields_weaken {A} (P P' : A -> Prop) (m : ST S A) :
  yields P m -> (forall a, P a -> P' a) -> yields P' m.
Proof. intros Hm HP s a s' E1. eauto. Qed.

Lemma returns_weaken {A} (P P' : A -> Prop) (m : ST S (result E A)) :
  returns P m -> (forall a, P a -> P' a) -> returns P' m.
Proof. intros Hm HP. eapply yields_weaken; [exact Hm|]. intros [a|e]; simpl; auto. Qed.

Lemma returns_ok {A} (P : A -> Prop) a : P a -> returns P (st_ok a).
Proof. intros. by apply yields_ret. Qed.

Lemma returns_bail {A} (P : A -> Prop) e : returns P (st_bail e).
Proof. by apply yields_ret. Qed.

Lemma returns_any {A} (m : ST S (result E A)) : returns (fun _ => True) m.
Proof. by intros s [a|e] s' _. Qed.

Lemma returns_try {A B} (P : A -> Prop) (Q : B -> Prop) (m : ST S (result E A)) (k : A -> ST S (result E B)) :
  returns P m -> (forall a, P a -> returns Q (k a)) -> returns Q (st_try m k).
Proof.
  intros Hm Hk. apply (yields_bind (ok_or_error P)); [done|].
  intros [a|e] Ha; [by apply Hk | by apply yields_ret].
Qed.

Lemma returns_try_any {A B} (Q : B -> Prop) (m : ST S (result E A)) (k : A -> ST S (result E B)) :
  (forall a, returns Q (k a)) -> returns Q (st_try m k).
Proof. intros Hk. apply (returns_try (fun _ => True)); eauto using returns_any. Qed.
End Logic.

Lemma returns_bind_any {S E A B} (Q : B -> Prop) (m : ST S A) (k : A -> ST S (result E B)) :
  (forall a, returns Q (k a)) -> returns Q (st_bind m k).
Proof. apply yields_bind_any. Qed.

Lemma returns_program {S A} (P : A -> Prop) (r : result ProgramError A) :
  (forall a, r = Ok a -> P a) -> returns P (program (S := S) r).
Proof. intros HP. destruct r as [a|e]; [by apply returns_ok, HP | by apply returns_bail]. Qed.

(** A loop whose body keeps the property. *)
Lemma returns_fold {S E A B} (P : B -> Prop) (f : B -> A -> ST S (result E B)) l b :
  P b -> (forall b a, P b -> returns P (f b a)) -> returns P (st_fold f l b).
Proof.
  intros Hb Hf. revert b Hb. induction l as [|a l IH]; intros b Hb; simpl; [by apply returns_ok|].
  eapply returns_try; eauto.
Qed.

Lemma st_try_assoc {S E A B C} (m : ST S (result E A)) (f : A -> ST S (result E B))
    (g : B -> ST S (result E C)) s :
  st_try (st_try m f) g s = st_try m (fun a => st_try (f a) g) s.
Proof. unfold st_try, st_bind, st_ret. by destruct (m s) as [[[]|] ?]. Qed.

Create HintDb client discriminated.
#[export] Hint Constants Opaque : client.

(** One step along the text.  [known m] finds what is known about the call [m]. *)
Ltac returns_step known :=
  lazymatch goal with
  | |- forall _, _ => intros; cbv beta in *
  | |- returns _ (st_try ?m _) =>
      first [known m | refine (returns_try_any _ _ _ _)]
  | |- returns _ (st_bind _ _) => refine (returns_bind_any _ _ _ _)
  | |- returns _ (st_ok _) => refine (returns_ok _ _ _)
  | |- returns _ (st_bail _) => refine (returns_bail _ _)
  | |- returns _ (program _) => refine (returns_program _ _ _); intros
  | |- returns _ st_panic => exact (yields_panic _)
  | |- returns _ (match ?x with _ => _ end) => destruct x
  | |- returns _ (let x := _ in _) => cbv zeta
  end.

(** * Who signs what the farm client sends

    Every complete set of instructions that the client builds for a wallet needs
    that wallet's signature and no other; what a fund does in its own name needs the
    signature of the administrator who asks for it, not the fund's. *)

(** [w] signs, and nobody else. *)
Definition sole_signer (w : Z) (i : Instruction) : Prop := signers_of i = [w].

(** Nobody but [w] signs. *)
Definition no_other_signer (w : Z) (i : Instruction) : Prop := Forall (eq w) (signers_of i).

(** Either [w] signs, alone; or, where [rerouted] allows it, the instruction lists no
    account at all.  The instructions of pools and farms read the record twice, once to
    choose the router and once to list the accounts for it, and the second reading lists
    none when the record has another route by then. *)
Definition operates (rerouted : bool) (w : Z) (i : Instruction) : Prop :=
  sole_signer w i \/ (rerouted = true /\ i.(Cpi.accounts) = []).

(** The synchronisation of the balance of wrapped SOL, which nobody has to sign. *)
Definition synchronises `{FarmEnv} (i : Instruction) : Prop :=
  signers_of i = [] /\ exists p account, sync_native p account = Ok i.

Definition signed_by `{FarmEnv} (rerouted : bool) (w : Z) (i : Instruction) : Prop :=
  operates rerouted w i \/ synchronises i.

(** A plan for [w]: every instruction is [signed_by] it, and one of them does more than
    to synchronise. *)
Definition planned_for `{FarmEnv} (rerouted : bool) (w : Z) (l : list Instruction) : Prop :=
  Forall (signed_by rerouted w) l /\ Exists (operates rerouted w) l.

(** What the documentation of [spl_token], [spl_associated_token_account] and
    [system_instruction] says of the accounts that sign. *)
Class DocumentedSigners `{FarmEnv} : Prop := {
  close_account_signers p account destination owner i :
    close_account p account destination owner = Ok i -> signers_of i = [owner];
  transfer_signers p source destination authority n i :
    Cpi.transfer p source destination authority n = Ok i -> signers_of i = [authority];
  sync_native_signers p account i : sync_native p account = Ok i -> signers_of i = [];
  create_ata_signers payer wallet mint :
    signers_of (create_associated_token_account payer wallet mint) = [payer];
  system_transfer_signers from to n : signers_of (system_transfer from to n) = [from];
}.

(** The first account of the list is [w], which signs, and no other account does. *)
Definition led_by (w : Z) (accounts : list AccountMeta) : Prop :=
  match accounts with
  | [] => False
  | a :: rest => a.(Cpi.is_signer) = true /\ a.(Cpi.pubkey) = w
                 /\ List.filter Cpi.is_signer rest = []
  end.

(** The accounts that a method lists for a route, and the instruction with them. *)
Definition listed_by (w : Z) (accounts : list AccountMeta) : Prop := accounts = [] \/ led_by w accounts.
Definition led (w : Z) (i : Instruction) : Prop := led_by w i.(Cpi.accounts).
Definition listed (w : Z) (i : Instruction) : Prop := listed_by w i.(Cpi.accounts).

Lemma led_by_app w l l' : led_by w l -> List.filter Cpi.is_signer l' = [] -> led_by w (l ++ l').
Proof.
  destruct l as [|a l]; [done|]. intros (Ha & Hw & Hl) Hl'. simpl. by rewrite List.filter_app, Hl, Hl'.
Qed.

Lemma led_listed w i : led w i -> listed w i.
Proof. by right. Qed.

Lemma led_sole w i : led w i -> sole_signer w i.
Proof.
  unfold led, sole_signer, signers_of. destruct (Cpi.accounts i) as [|a l]; simpl; [done|].
  intros (-> & Ha & ->). simpl. by rewrite Ha.
Qed.

Lemma sole_operates r w i : sole_signer w i -> operates r w i.
Proof. by left. Qed.

Lemma led_operates r w i : led w i -> operates r w i.
Proof. intros Hi. by apply sole_operates, led_sole. Qed.

Lemma listed_operates w i : listed w i -> operates true w i.
Proof. intros [Hi|Hi]; [by right | by apply led_operates]. Qed.

Lemma operates_signed `{FarmEnv} r w i : operates r w i -> signed_by r w i.
Proof. by left. Qed.

Lemma signed_rerouted `{FarmEnv} r w i : signed_by false w i -> signed_by r w i.
Proof. intros [[Hi|[? _]]|Hi]; [by left; left | done | by right]. Qed.

Lemma all_signed_rerouted `{FarmEnv} r w l : Forall (signed_by false w) l -> Forall (signed_by r w) l.
Proof. intros Hl. eapply Forall_impl; [exact Hl | apply signed_rerouted]. Qed.

Lemma signed_no_other `{FarmEnv} r w i : signed_by r w i -> no_other_signer w i.
Proof.
  unfold no_other_signer. intros [[->|[_ Hi]]|[-> _]]; [by repeat constructor | | constructor].
  unfold signers_of. by rewrite Hi.
Qed.

Lemma listed_by_tail w l : listed_by w l -> List.filter Cpi.is_signer (drop 1 l) = [].
Proof. destruct l; [done|]. by intros [?|(_ & _ & ?)]. Qed.

Lemma led_listed_posted {S E} w (m : ST S (result E Instruction)) :
  returns (led w) m -> returns (listed w) m.
Proof. intros Hm. eapply returns_weaken; [exact Hm | apply led_listed]. Qed.

#[export] Hint Resolve led_listed_posted : client.

(** A list without its first account is signed by nobody. *)
Lemma returns_tail {S E A} w (P : A -> Prop) i (k : list AccountMeta -> ST S (result E A)) :
  listed w i ->
  (forall rest, List.filter Cpi.is_signer rest = [] -> returns P (k rest)) ->
  returns P (st_bind (slice_from 1 i.(Cpi.accounts)) k).
Proof.
  intros Hi%listed_by_tail Hk. refine (yields_bind (fun l => List.filter Cpi.is_signer l = []) _ _ _ _ Hk).
  unfold slice_from. case_match; [by apply yields_ret | apply yields_panic].
Qed.

Ltac get_head m := lazymatch m with ?f _ => get_head f | _ => m end.

Ltac signers_filter :=
  repeat match goal with |- context [if ?b then writable _ else readonly _] => destruct b end;
  cbn; repeat case_match; congruence.

Ltac signers_close :=
  lazymatch goal with
  | |- planned_for _ _ _ => first [eassumption | split; [signers_close | signers_exists]]
  | |- Forall _ (_ ++ _) => apply Forall_app; split; signers_close
  | |- Forall _ (_ :: _) => constructor; [| signers_close]; signers_close
  | |- Forall _ [] => constructor
  | |- Forall _ ?l =>
      first [ eassumption | apply all_signed_rerouted; eassumption
            | match goal with H : planned_for _ _ l |- _ => exact (proj1 H) end
            | solve [eauto 3 with client nocore] ]
  | |- signed_by _ _ _ =>
      first [ eassumption | apply signed_rerouted; eassumption | apply operates_signed; signers_close
            | solve [eauto 3 with client nocore] ]
  | |- operates _ _ _ =>
      first [ apply sole_operates; solve [signers_close] | apply listed_operates; eassumption ]
  | |- sole_signer _ _ => first [eassumption | apply led_sole; eassumption | solve [eauto 3 with client nocore]]
  | |- led _ _ => unfold led; cbn [Cpi.accounts]; signers_close
  | |- listed _ _ => first [eassumption | unfold listed; cbn [Cpi.accounts]; signers_close]
  | |- listed_by _ [] => left; reflexivity
  | |- listed_by _ _ => first [eassumption | right; signers_close]
  | |- led_by _ (_ :: _) => split; [reflexivity | split; [reflexivity | first [reflexivity | solve [signers_filter]]]]
  | |- Cpi.is_signer _ = false => reflexivity
  | |- led_by _ (_ ++ _) => apply led_by_app; [signers_close | first [reflexivity | eassumption]]
  | |- led_by _ _ => eassumption
  | |- _ => first [ eassumption | solve [eauto 3 with client nocore] ]
  end
with signers_exists :=
  lazymatch goal with
  | |- Exists _ (_ ++ _) => apply Exists_app; first [right; solve [signers_exists] | left; signers_exists]
  | |- Exists _ (_ :: _) => first [ apply Exists_cons_hd; solve [signers_close]
                                  | apply Exists_cons_tl; signers_exists ]
  | |- Exists _ ?l => match goal with H : planned_for _ _ l |- _ => exact (proj2 H) end
  end.

(** What is known about a call, by the type of its result, when [w] signs; a helper
    that lists accounts is unfolded. *)
Ltac signers_known r w m :=
  lazymatch type of m with
  | ST _ (result _ Instruction) =>
      first [ refine (returns_try (led w) _ _ _ _ _); [solve [eauto 3 with client nocore] |]
            | refine (returns_try (sole_signer w) _ _ _ _ _); [solve [eauto 3 with client nocore] |]
            | refine (returns_try (signed_by false w) _ _ _ _ _); [solve [eauto 3 with client nocore] |]
            | refine (returns_try (listed w) _ _ _ _ _); [solve [eauto 3 with client nocore] |]
            | refine (returns_try (listed _) _ _ _ _ _); [solve [eauto 3 with client nocore] |] ]
  | ST _ (result _ (list Instruction)) =>
      first [ lazymatch m with
              | (if _ then _ else _) => refine (returns_try (planned_for r w) _ _ _ _ _); [solve [signers r w] |]
              end
            | refine (returns_try (Forall (signed_by r w)) _ _ _ _ _); [solve [signers r w] |] ]
  | ST _ (result _ AccountMeta) =>
      refine (returns_try (fun a => Cpi.is_signer a = false) _ _ _ _ _); [solve [signers r w] |]
  | ST _ (result _ (list AccountMeta)) =>
      first [ refine (returns_try (led_by w) _ _ _ _ _); [solve [signers r w] |]
            | refine (returns_try (listed_by w) _ _ _ _ _); [solve [signers r w] |] ]
  | ST _ (result _ (list AccountMeta * list Z)) =>
      first [ refine (returns_try (fun p => led_by w p.1) _ _ _ _ _); [solve [signers r w] |]
            | refine (returns_try (fun p => listed_by w p.1) _ _ _ _ _); [solve [signers r w] |] ]
  end
with signers r w :=
  repeat first
    [ solve [eauto 3 with client nocore]
    | refine (returns_tail _ _ _ _ _ _); [eassumption |]
    | returns_step ltac:(signers_known r w)
    | lazymatch goal with |- returns _ ?m => let h := get_head m in progress unfold h end ];
  cbn [fst snd]; try signers_close.

#[local] Set Default Proof Using "Type*".

Section Signers.
Context `{FE : FarmEnv, !DocumentedSigners}.

Lemma close_account_sole p account destination w i :
  close_account p account destination w = Ok i -> sole_signer w i.
Proof. apply close_account_signers. Qed.

Lemma transfer_sole p source destination w n i :
  Cpi.transfer p source destination w n = Ok i -> sole_signer w i.
Proof. apply transfer_signers. Qed.

Lemma sync_native_signed p account r w i : sync_native p account = Ok i -> signed_by r w i.
Proof. intros Hi. right. split; [exact (sync_native_signers _ _ _ Hi) | by exists p, account]. Qed.

Lemma create_ata_sole w wallet mint : sole_signer w (create_associated_token_account w wallet mint).
Proof. apply create_ata_signers. Qed.

Lemma create_ata_signed r w wallet mint : signed_by r w (create_associated_token_account w wallet mint).
Proof. apply operates_signed, sole_operates, create_ata_sole. Qed.

Lemma system_transfer_sole w to n : sole_signer w (system_transfer w to n).
Proof. apply system_transfer_signers. Qed.

#[local] Hint Resolve close_account_sole transfer_sole sync_native_signed create_ata_sole create_ata_signed
  system_transfer_sole : client.

(** ** Single instructions *)

Lemma create_token_account_sole w t : returns (sole_signer w) (new_instruction_create_token_account w t).
Proof. unfold new_instruction_create_token_account. signers false w. Qed.

Lemma close_token_account_sole w t : returns (sole_signer w) (new_instruction_close_token_account w t).
Proof. unfold new_instruction_close_token_account. signers false w. Qed.

Lemma sol_transfer_sole w to x : returns (sole_signer w) (new_instruction_transfer w to x).
Proof. unfold new_instruction_transfer. signers false w. Qed.

Lemma token_transfer_sole w t to x : returns (sole_signer w) (new_instruction_token_transfer w t to x).
Proof. unfold new_instruction_token_transfer. signers false w. Qed.

Lemma sync_token_balance_signed w t : returns (signed_by false w) (new_instruction_sync_token_balance w t).
Proof. unfold new_instruction_sync_token_balance. signers false w. Qed.

Lemma wrap_token_led w pool k x : returns (led w) (new_instruction_wrap_token w pool k x).
Proof. unfold new_instruction_wrap_token. signers false w. Qed.

Lemma unwrap_token_led w pool k x : returns (led w) (new_instruction_unwrap_token w pool k x).
Proof. unfold new_instruction_unwrap_token. signers false w. Qed.

(** ** Pools, farms and vaults *)

Lemma add_liquidity_pool_listed w pool a b : returns (listed w) (new_instruction_add_liquidity_pool w pool a b).
Proof. unfold new_instruction_add_liquidity_pool. signers false w. Qed.

Lemma remove_liquidity_pool_listed w pool x : returns (listed w) (new_instruction_remove_liquidity_pool w pool x).
Proof. unfold new_instruction_remove_liquidity_pool. signers false w. Qed.

Lemma swap_listed w protocol t u a b : returns (listed w) (new_instruction_swap w protocol t u a b).
Proof. unfold new_instruction_swap. signers false w. Qed.

Lemma user_init_listed w farm : returns (listed w) (new_instruction_user_init w farm).
Proof. unfold new_instruction_user_init. signers false w. Qed.

Lemma stake_listed w farm x : returns (listed w) (new_instruction_stake w farm x).
Proof. unfold new_instruction_stake. signers false w. Qed.

Lemma unstake_listed w farm x : returns (listed w) (new_instruction_unstake w farm x).
Proof. unfold new_instruction_unstake. signers false w. Qed.

Lemma harvest_listed w farm : returns (listed w) (new_instruction_harvest w farm).
Proof. unfold new_instruction_harvest. signers false w. Qed.

Lemma user_init_vault_led w vault : returns (led w) (new_instruction_user_init_vault w vault).
Proof. unfold new_instruction_user_init_vault. signers false w. Qed.

Lemma add_liquidity_vault_led w vault a b : returns (led w) (new_instruction_add_liquidity_vault w vault a b).
Proof. unfold new_instruction_add_liquidity_vault. signers false w. Qed.

Lemma lock_liquidity_vault_led w vault x : returns (led w) (new_instruction_lock_liquidity_vault w vault x).
Proof. unfold new_instruction_lock_liquidity_vault. signers false w. Qed.

Lemma remove_liquidity_vault_led w vault x : returns (led w) (new_instruction_remove_liquidity_vault w vault x).
Proof. unfold new_instruction_remove_liquidity_vault. signers false w. Qed.

Lemma unlock_liquidity_vault_led w vault x : returns (led w) (new_instruction_unlock_liquidity_vault w vault x).
Proof. unfold new_instruction_unlock_liquidity_vault. signers false w. Qed.

#[local] Hint Resolve create_token_account_sole close_token_account_sole sol_transfer_sole
  token_transfer_sole sync_token_balance_signed wrap_token_led unwrap_token_led
  add_liquidity_pool_listed remove_liquidity_pool_listed swap_listed user_init_listed stake_listed unstake_listed
  harvest_listed user_init_vault_led add_liquidity_vault_led lock_liquidity_vault_led
  remove_liquidity_vault_led unlock_liquidity_vault_led : client.

(** ** Funds *)

Lemma user_init_fund_led w fund t : returns (led w) (new_instruction_user_init_fund w fund t).
Proof. unfold new_instruction_user_init_fund. signers false w. Qed.

Lemma request_deposit_fund_led w fund t x : returns (led w) (new_instruction_request_deposit_fund w fund t x).
Proof. unfold new_instruction_request_deposit_fund. signers false w. Qed.

Lemma request_withdrawal_fund_led w fund t x :
  returns (led w) (new_instruction_request_withdrawal_fund w fund t x).
Proof. unfold new_instruction_request_withdrawal_fund. signers false w. Qed.

Lemma add_fund_custody_led w fund t k : returns (led w) (new_instruction_add_fund_custody w fund t k).
Proof. unfold new_instruction_add_fund_custody. signers false w. Qed.

(** The administrator takes the place of the fund's authority. *)
Lemma build_fund_led w f fund i name k :
  listed f i -> returns (led w) (build_fund_instruction w fund i name k).
Proof.
  intros Hi. unfold build_fund_instruction. signers false w.
Qed.

Lemma build_fund_vault_led w f fund i name :
  listed f i -> returns (led w) (build_fund_vault_instruction w fund i name).
Proof.
  intros Hi. unfold build_fund_vault_instruction. signers false w.
Qed.

#[local] Hint Resolve user_init_fund_led request_deposit_fund_led request_withdrawal_fund_led
  add_fund_custody_led build_fund_led build_fund_vault_led : client.

Lemma fund_user_init_farm_led w fund farm : returns (led w) (new_instruction_fund_user_init_farm w fund farm).
Proof. unfold new_instruction_fund_user_init_farm. signers false w. Qed.

#[local] Hint Resolve fund_user_init_farm_led : client.

Lemma fund_add_liquidity_pool_led w fund pool a b :
  returns (led w) (new_instruction_fund_add_liquidity_pool w fund pool a b).
Proof. unfold new_instruction_fund_add_liquidity_pool. signers false w. Qed.

Lemma fund_remove_liquidity_pool_led w fund pool x :
  returns (led w) (new_instruction_fund_remove_liquidity_pool w fund pool x).
Proof. unfold new_instruction_fund_remove_liquidity_pool. signers false w. Qed.

Lemma fund_swap_led w fund protocol t u a b :
  returns (led w) (new_instruction_fund_swap w fund protocol t u a b).
Proof. unfold new_instruction_fund_swap. signers false w. Qed.

Lemma fund_stake_led w fund farm x :
  returns (led w) (new_instruction_fund_stake w fund farm x).
Proof. unfold new_instruction_fund_stake. signers false w. Qed.

Lemma fund_unstake_led w fund farm x :
  returns (led w) (new_instruction_fund_unstake w fund farm x).
Proof. unfold new_instruction_fund_unstake. signers false w. Qed.

Lemma fund_harvest_led w fund farm :
  returns (led w) (new_instruction_fund_harvest w fund farm).
Proof. unfold new_instruction_fund_harvest. signers false w. Qed.

Lemma fund_add_liquidity_vault_led w fund vault a b :
  returns (led w) (new_instruction_fund_add_liquidity_vault w fund vault a b).
Proof. unfold new_instruction_fund_add_liquidity_vault. signers false w. Qed.

Lemma fund_lock_liquidity_vault_led w fund vault x :
  returns (led w) (new_instruction_fund_lock_liquidity_vault w fund vault x).
Proof. unfold new_instruction_fund_lock_liquidity_vault. signers false w. Qed.

Lemma fund_remove_liquidity_vault_led w fund vault x :
  returns (led w) (new_instruction_fund_remove_liquidity_vault w fund vault x).
Proof. unfold new_instruction_fund_remove_liquidity_vault. signers false w. Qed.

Lemma fund_unlock_liquidity_vault_led w fund vault x :
  returns (led w) (new_instruction_fund_unlock_liquidity_vault w fund vault x).
Proof. unfold new_instruction_fund_unlock_liquidity_vault. signers false w. Qed.

#[local] Hint Resolve fund_add_liquidity_pool_led fund_remove_liquidity_pool_led fund_swap_led fund_stake_led fund_unstake_led fund_harvest_led fund_add_liquidity_vault_led fund_lock_liquidity_vault_led fund_remove_liquidity_vault_led fund_unlock_liquidity_vault_led : client.

(** ** Checks push instructions that the wallet signs *)

Abbreviation pushes r w m := (forall v, Forall (signed_by r w) v -> returns (Forall (signed_by r w)) (m v)).

Lemma check_token_account_pushes r w t x : pushes r w (check_token_account w t x).
Proof. intros v Hv. unfold check_token_account, send_sol_to_wsol. signers r w. Qed.

#[local] Hint Resolve Forall_nil_2 check_token_account_pushes : client.

Lemma check_vault_accounts_pushes r w vault a b vt c d :
  pushes r w (check_vault_accounts w vault a b vt c d).
Proof. intros v Hv. unfold check_vault_accounts. signers r w. Qed.

Lemma check_pool_accounts_pushes r w pool a b lp c : pushes r w (check_pool_accounts w pool a b lp c).
Proof. intros v Hv. unfold check_pool_accounts. signers r w. Qed.

Lemma check_user_stake_account_pushes w farm : pushes true w (check_user_stake_account w farm).
Proof. intros v Hv. unfold check_user_stake_account. signers true w. Qed.

#[local] Hint Resolve check_user_stake_account_pushes : client.

Lemma check_farm_accounts_pushes w farm x : pushes true w (check_farm_accounts w farm x).
Proof. intros v Hv. unfold check_farm_accounts. signers true w. Qed.

Lemma check_fund_accounts_pushes r w fund t x : pushes r w (check_fund_accounts w fund t x).
Proof. intros v Hv. unfold check_fund_accounts. signers r w. Qed.

Lemma check_fund_custody_pushes r w fund t x : pushes r w (check_fund_custody w fund t x).
Proof. intros v Hv. unfold check_fund_custody. signers r w. Qed.

#[local] Hint Resolve check_fund_custody_pushes : client.

Lemma check_fund_pool_custodies_pushes r w fund pool a b lp c :
  pushes r w (check_fund_pool_custodies w fund pool a b lp c).
Proof. intros v Hv. unfold check_fund_pool_custodies. signers r w. Qed.

Lemma check_fund_farm_custodies_pushes r w fund farm x : pushes r w (check_fund_farm_custodies w fund farm x).
Proof. intros v Hv. unfold check_fund_farm_custodies, check_fund_farm_user_account. signers r w. Qed.

Lemma fund_user_init_vault_led w fund vault : returns (led w) (new_instruction_fund_user_init_vault w fund vault).
Proof. unfold new_instruction_fund_user_init_vault. signers false w. Qed.

#[local] Hint Resolve fund_user_init_vault_led : client.

Lemma check_fund_vault_custodies_pushes r w fund vault a b vt c d :
  pushes r w (check_fund_vault_custodies w fund vault a b vt c d).
Proof. intros v Hv. unfold check_fund_vault_custodies, check_fund_vault_user_account. signers r w. Qed.

#[local] Hint Resolve check_vault_accounts_pushes check_pool_accounts_pushes check_farm_accounts_pushes
  check_fund_accounts_pushes check_fund_pool_custodies_pushes check_fund_farm_custodies_pushes
  check_fund_vault_custodies_pushes : client.

(** ** Complete sets *)

Ltac plan :=
  lazymatch goal with
  | |- returns (planned_for ?r ?w) ?m => let h := get_head m in unfold h; signers r w
  end.

(** What [plan] returns is a plan for [w]; for [routed] plans, up to instructions that
    list no account. *)
Abbreviation alone w plan := (returns (planned_for false w) plan).
Abbreviation alone_if_routed w plan := (returns (planned_for true w) plan).

(** C6. Whatever a wallet asks for, the wallet signs the instructions that the client
    plans and nobody else does: each has exactly the wallet as its signer, apart from
    the synchronisation of wrapped SOL, which has none, and at least one instruction is
    not such a synchronisation.  This holds without exception for wrapping and sending
    tokens, for vaults and for requests to a fund.  Plans for pools and farms may also
    have an instruction that lists no account at all: the code returns an empty list when
    the record has changed its route between the two readings of it. *)
Theorem wallet_plans_signed w to name name' protocol x y :
  (alone w (all_instructions_wrap_sol w x)
   /\ alone w (all_instructions_unwrap_sol w)
   /\ alone w (all_instructions_token_transfer w name to x)
   /\ alone w (all_instructions_add_liquidity_vault w name x y)
   /\ alone w (all_instructions_add_locked_liquidity_vault w name x)
   /\ alone w (all_instructions_remove_liquidity_vault w name x)
   /\ alone w (all_instructions_remove_unlocked_liquidity_vault w name x)
   /\ alone w (all_instructions_request_deposit_fund w name name' x)
   /\ alone w (all_instructions_request_withdrawal_fund w name name' x))
  /\ (alone_if_routed w (all_instructions_swap w protocol name name' x y)
   /\ alone_if_routed w (all_instructions_add_liquidity_pool w name x y)
   /\ alone_if_routed w (all_instructions_remove_liquidity_pool w name x)
   /\ alone_if_routed w (all_instructions_stake w name x)
   /\ alone_if_routed w (all_instructions_unstake w name x)
   /\ alone_if_routed w (all_instructions_harvest w name)).
Proof.
  split; repeat apply conj; plan.
Qed.

(** C30. What a fund does in its own name is signed by the administrator who asks for
    it, and by nobody else: every instruction has exactly the administrator as its
    signer, apart from the synchronisation of wrapped SOL, which has none.  The fund's
    authority, which owns the accounts that are used, signs nothing that the client
    sends. *)
Theorem fund_plans_signed w fund name name' protocol x y :
  alone w (all_instructions_fund_add_liquidity_pool w fund name x y)
  /\ alone w (all_instructions_fund_remove_liquidity_pool w fund name x)
  /\ alone w (all_instructions_fund_swap w fund protocol name name' x y)
  /\ alone w (all_instructions_fund_stake w fund name x)
  /\ alone w (all_instructions_fund_unstake w fund name x)
  /\ alone w (all_instructions_fund_harvest w fund name)
  /\ alone w (all_instructions_fund_add_liquidity_vault w fund name x y)
  /\ alone w (all_instructions_fund_add_locked_liquidity_vault w fund name x)
  /\ alone w (all_instructions_fund_remove_liquidity_vault w fund name x)
  /\ alone w (all_instructions_fund_remove_unlocked_liquidity_vault w fund name x).
Proof.
  repeat apply conj; plan.
Qed.
End Signers.

#[local] Instance sample_farm_env : FarmEnv := sample_env confirming.
#[local] Instance sample_signers : DocumentedSigners.
Proof. split; by intros * [= <-] || done. Qed.

(** Unwrapping SOL, and a swap of one RAY that ends with the closing of the SOL account
    that it paid into: the wallet signs each instruction. *)
Lemma wallet_plans_signed_witness :
  (exists l s', all_instructions_unwrap_sol 7 sample_client = (Some (Ok l), s')
     /\ map signers_of l = [[7]] /\ planned_for false 7 l)
  /\ exists l s', all_instructions_swap 7 ClientNames.Raydium (str "RAY") (str "SOL") (f64_of_Z 1) f64_zero
                    sample_client = (Some (Ok l), s')
     /\ map signers_of l = [[7]; [7]] /\ planned_for true 7 l.
Proof.
  destruct (wallet_plans_signed 7 0 (str "RAY") (str "SOL") ClientNames.Raydium (f64_of_Z 1) f64_zero)
    as [(_ & Hunwrap & _) (Hswap & _)].
  split; eexists _, _; (split; [vm_compute; reflexivity|]); (split; [vm_compute; reflexivity|]).
  - eapply (Hunwrap sample_client (Ok _)). vm_compute. reflexivity.
  - eapply (Hswap sample_client (Ok _)). vm_compute. reflexivity.
Defined.

(** The same swap by a fund whose authority is 502, asked for by its manager. *)
Lemma fund_plans_signed_witness :
  exists l s', all_instructions_fund_swap 503 (str "F1") ClientNames.Raydium (str "RAY") (str "SOL")
                 (f64_of_Z 1) f64_zero sample_client = (Some (Ok l), s')
    /\ map signers_of l = [[503]] /\ planned_for false 503 l.
Proof.
  eexists _, _. split; [vm_compute; reflexivity|]. split; [vm_compute; reflexivity|].
  destruct (fund_plans_signed 503 (str "F1") (str "RAY") (str "SOL") ClientNames.Raydium (f64_of_Z 1) f64_zero)
    as (_ & _ & Hswap & _).
  eapply (Hswap sample_client (Ok _)). vm_compute. reflexivity.
Defined.
