(* ===== verification/ClientSendFacts.v ===== *)
(** * Signing, sending and splitting

    What [sign_and_send_instructions] returns and how often it asks the node, and that
    splitting instructions into transactions keeps their order and loses none. *)

From Stdlib Require Import String.
From S2P Require Import Prelude MachineInt Float64 Amounts Pack RefDB SdkAccount Cpi ClientNames Client ClientReads ClientSigners ClientSamples.

Section Sending.
Context `{FarmEnv}.

Lemma set_asked_twice n m c : set_asked n (set_asked m c) = set_asked n c.
Proof. by destruct c. Qed.

Lemma set_asked_same c : set_asked (asked c) c = c.
Proof. by destruct c. Qed.

Lemma ask_bind {A B} (q : nat -> A) (k : A -> ST FarmClient B) s :
  st_bind (ask q) k s = k (q (asked s)) (set_asked (S (asked s)) s).
Proof. done. Qed.

Lemma rpc_try {A B} (q : nat -> result ClientError A) (k : A -> ST FarmClient (result FarmClientError B)) s :
  st_try (rpc q) k s =
    match q (asked s) with
    | Ok a => k a (set_asked (S (asked s)) s)
    | Err e => (Some (Err (RpcClientError e)), set_asked (S (asked s)) s)
    end.
Proof. unfold rpc, st_try, st_bind, ask, st_bind, st_gets, st_modify, st_ret. by destruct (q (asked s)). Qed.

(** ** Sending *)

(** [t] is an attempt to send the instructions. *)
Definition attempt_of (signers : list Z) (payer : Z) (instructions : list Instruction) (t : Transaction) : Prop :=
  t.(tx_instructions) = instructions /\ t.(tx_payer) = payer /\ t.(tx_signers) = signers.

(** What an answer may be: of a transaction that the node confirmed; after an answer
    that it was processed already, of the attempt before or, at the first attempt, [prev];
    or an error of the node. *)
Definition answer_of (signers : list Z) (payer : Z) (instructions : list Instruction) (prev : Z)
    (r : result FarmClientError Z) : Prop :=
  let attempt := attempt_of signers payer instructions in
  match r with
  | Ok signature =>
      (exists t n, attempt t /\ send_and_confirm_transaction t n = Ok signature)
      \/ (exists t n e, attempt t /\ send_and_confirm_transaction t n = Err e /\ verdict e = WasProcessed
            /\ (signature = prev \/ exists t', attempt t' /\ signature = signature_of t'))
  | Err e => exists e', e = RpcClientError e'
  end.

Lemma answer_of_later signers payer instructions t r :
  attempt_of signers payer instructions t ->
  answer_of signers payer instructions (signature_of t) r ->
  forall prev, answer_of signers payer instructions prev r.
Proof.
  intros Ht. destruct r as [sig|e]; [|done]. intros [Hc | (t0 & n & e & ? & ? & ? & Hsig)] prev; [by left|].
  right. exists t0, n, e. split_and!; try done. right.
  destruct Hsig as [-> | Ht']; eauto.
Qed.

(** The result [r] of a run from [s] that asks at most [k] questions and changes
    nothing else. *)
Definition answers signers payer instructions prev (k : nat) (s : FarmClient)
    (r : option (result FarmClientError Z) * FarmClient) : Prop :=
  exists a n, r = (Some a, set_asked n s) /\ (n <= asked s + k)%nat
    /\ answer_of signers payer instructions prev a.

Section Attempts.
Context (signers : list Z) (payer : Z) (instructions : list Instruction).
Context (Hsignable : signable instructions payer signers = true).

Abbreviation answers' := (answers signers payer instructions).

Lemma answers_asked prev k s r :
  answers' prev k (set_asked (S (asked s)) s) r -> answers' prev (S k) s r.
Proof.
  intros (a & n & -> & Hn & Ha). exists a, n. rewrite set_asked_twice. cbn in Hn.
  split_and!; [done|lia|done].
Qed.

Lemma answers_weaken prev k k' s r : (k <= k')%nat -> answers' prev k s r -> answers' prev k' s r.
Proof. intros Hk (a & n & ? & ? & ?). exists a, n. split_and!; [done|lia|done]. Qed.

Lemma answers_ret prev k s a :
  answer_of signers payer instructions prev a -> answers' prev k s (st_ret a s).
Proof. intros Ha. exists a, (asked s). rewrite set_asked_same. split_and!; [done|lia|done]. Qed.

Lemma answers_rpc {A} prev k s (q : nat -> result ClientError A) K :
  (forall a, answers' prev k (set_asked (S (asked s)) s) (K a (set_asked (S (asked s)) s))) ->
  answers' prev (S k) s (st_try (rpc q) K s).
Proof.
  intros HK. rewrite rpc_try. apply answers_asked. destruct (q (asked s)) as [a|e]; [apply HK|].
  apply answers_ret. by exists e.
Qed.

(** The attempts answer, ask at most three questions each, and change nothing else. *)
Lemma send_attempts_answers left : forall first blockhash prev s, (0 < left)%nat ->
  answers' prev (3 * left) s
    (send_attempts left first signers payer instructions blockhash prev s).
Proof using Type*.
  induction left as [|left IH]; intros first bh prev s Hl; [lia|]. cbn [send_attempts].
  match goal with |- context [st_try _ ?k s] => set (K := k) end.
  assert (forall bh c, answers' prev (S (3 * left)) c (K bh c)) as HK.
  { clear bh first s. intros bh c. unfold K. rewrite Hsignable. cbn [st_assert].
    rewrite st_bind_ret_l, ask_bind. apply answers_asked.
    set (t := {| tx_instructions := instructions; tx_payer := payer; tx_signers := signers; tx_blockhash := bh |}).
    assert (attempt_of signers payer instructions t) as Ht by done.
    destruct (send_and_confirm_transaction t (asked c)) as [sig|e] eqn:Esend.
    { apply answers_ret. left. eauto. }
    destruct (Nat.eqb_spec left 0) as [->|Hleft]; [apply answers_ret; by exists e|].
    destruct (verdict e) eqn:Ev.
    - destruct (IH false bh (signature_of t) (set_asked (S (asked c)) c) ltac:(lia)) as (r & n & E1 & Hn & Hr).
      exists r, n. eauto using answer_of_later.
    - apply answers_ret. right. exists t, (asked c), e. auto.
    - apply answers_ret. by exists e. }
  clearbody K. destruct first.
  { eapply answers_weaken; [|apply HK]. lia. }
  replace (3 * S left)%nat with (S (S (S (3 * left)))) by lia.
  rewrite st_try_assoc. apply answers_rpc. intros [].
  - eapply answers_weaken; [|apply HK]. lia.
  - apply answers_rpc. intros bh'. apply HK.
Qed.
End Attempts.

Lemma signed_signable w instructions :
  Forall (no_other_signer w) instructions -> signable instructions w [w] = true.
Proof.
  intros Hi. unfold signable, required_signers. rewrite andb_true_iff. split.
  - rewrite forallb_forall. intros k Hk. apply bool_decide_eq_true, list_elem_of_singleton.
    destruct Hk as [->|Hk]; [done|]. apply in_concat in Hk as (ks & Hks & Hk).
    apply in_map_iff in Hks as (i & <- & Hin). rewrite Forall_forall in Hi.
    apply list_elem_of_In, Hi in Hin. unfold no_other_signer in Hin. rewrite Forall_forall in Hin.
    symmetry. by apply Hin, list_elem_of_In.
  - simpl. rewrite andb_true_r. apply bool_decide_eq_true. set_solver.
Qed.

Lemma sign_and_send_answers signers payer instructions s :
  signable instructions payer (payer :: signers) = true ->
  answers (payer :: signers) payer instructions default_signature 61 s
    (sign_and_send_instructions (payer :: signers) instructions s).
Proof.
  intros Hs. unfold sign_and_send_instructions. apply answers_rpc. intros bh.
  by apply (send_attempts_answers _ _ _ Hs 20); [lia].
Qed.

(** C28. Instructions that only the wallet signs are sent without a panic, with at most
    61 questions to the node (a blockhash and twenty attempts) and without a change of
    the caches.  The answer is an error of the node; the signature of a transaction of
    exactly these instructions, signed and paid by the wallet, that the node confirmed;
    or, when the node answers that it was processed already, the signature of an earlier
    attempt -- or the default signature, when there was no earlier attempt. *)
Theorem sign_and_send_outcome w instructions s :
  Forall (no_other_signer w) instructions ->
  exists a n, sign_and_send_instructions [w] instructions s = (Some a, set_asked n s)
    /\ (n <= asked s + 61)%nat
    /\ answer_of [w] w instructions default_signature a.
Proof. intros Hi. by apply sign_and_send_answers, signed_signable. Qed.

(** ** Splitting into transactions *)

#[local] Set Default Proof Using "Type*".

Section Splitting.
Context (payer : Z).

(** Whether the instructions fit into a transaction, in [base64]. *)
Definition fits (instructions : list Instruction) : bool :=
  match bincode_serialize instructions payer with
  | Some bytes => base64_len (List.length bytes) <=? TRANSACTION_SIZE_LIMIT
  | None => false
  end.

Context (serializable : forall instructions, bincode_serialize instructions payer <> None).

Lemma transaction_size instructions :
  exists size, fits instructions = (size <=? TRANSACTION_SIZE_LIMIT)
    /\ forall s, get_transaction_size instructions payer s = (Some (Ok size), s).
Proof.
  unfold fits, get_transaction_size.
  destruct (bincode_serialize instructions payer) as [bytes|] eqn:E1; [|by apply serializable in E1].
  by exists (base64_len (List.length bytes)).
Qed.

(** [k] instructions are as many as fit, but one at least. *)
Definition batch_size_of (instructions : list Instruction) (k : nat) : Prop :=
  (1 <= k <= List.length instructions)%nat
  /\ (k = 1%nat \/ fits (take k instructions) = true)
  /\ ((k < List.length instructions)%nat -> fits (take (S k) instructions) = false).

Lemma longest_prefix_spec instructions : 
  (2 <= List.length instructions)%nat -> fits instructions = false -> forall rest i,
  (2 <= i)%nat -> (rest + i = S (List.length instructions))%nat ->
  (i = 2%nat \/ fits (take (i - 1) instructions) = true) ->
  exists k, batch_size_of instructions k
    /\ forall s, longest_prefix rest i instructions payer s = (Some (Ok (take k instructions, k)), s).
Proof.
  intros Hlen Hall. induction rest as [|rest IH]; intros i Hi Hrest Hprev.
  { exfalso. destruct Hprev as [->|Hf]; [lia|]. rewrite take_ge in Hf by lia. congruence. }
  destruct (fits (take i instructions)) eqn:Hf.
  - assert (i < List.length instructions)%nat.
    { destruct (decide (i < List.length instructions)%nat); [done|]. rewrite take_ge in Hf by lia. congruence. }
    destruct (IH (S i)) as (k & Hk & E1); [lia | lia | right; by replace (S i - 1)%nat with i by lia |].
    exists k. split; [done|]. intros s. cbn [longest_prefix].
    destruct (transaction_size (take i instructions)) as (size & Hsize & Esize).
    erewrite st_try_Ok by apply Esize.
    rewrite Hf in Hsize. symmetry in Hsize. apply Z.leb_le in Hsize.
    destruct (Z.ltb_spec TRANSACTION_SIZE_LIMIT size); [lia|]. apply E1.
  - exists (i - 1)%nat. split.
    { split; [lia|]. split; [destruct Hprev as [->|]; [by left|by right]|].
      intros _. by replace (S (i - 1)) with i by lia. }
    intros s. cbn [longest_prefix].
    destruct (transaction_size (take i instructions)) as (size & Hsize & Esize).
    erewrite st_try_Ok by apply Esize.
    rewrite Hf in Hsize. symmetry in Hsize. apply Z.leb_gt in Hsize.
    destruct (Z.ltb_spec TRANSACTION_SIZE_LIMIT size); [done|lia].
Qed.

Lemma create_transaction_spec instructions : instructions <> [] ->
  exists k, batch_size_of instructions k
    /\ forall s, create_transaction instructions payer s = (Some (Ok (take k instructions, k)), s).
Proof.
  intros Hne. unfold create_transaction. set (n := List.length instructions).
  assert (0 < n)%nat by (subst n; destruct instructions; [done | simpl; lia]).
  destruct (Nat.leb_spec n 1).
  { exists n. split; [unfold batch_size_of; fold n; split; [lia|]; split; [left; lia | lia]|].
    intros s. by rewrite take_ge by (subst n; lia). }
  destruct (fits instructions) eqn:Hf.
  - exists n. split.
    { unfold batch_size_of. fold n. split; [lia|]. split; [right; by rewrite take_ge by (subst n; lia) | lia]. }
    intros s. rewrite take_ge by (subst n; lia).
    destruct (transaction_size instructions) as (size & Hsize & Esize).
    erewrite st_try_Ok by apply Esize. by rewrite <- Hsize, Hf.
  - destruct (longest_prefix_spec instructions ltac:(lia) Hf (n - 1) 2) as (k & Hk & E1); [lia | lia | by left |].
    exists k. split; [done|]. intros s. destruct (transaction_size instructions) as (size & Hsize & Esize).
    erewrite st_try_Ok by apply Esize.
    by rewrite <- Hsize, Hf.
Qed.

(** The instructions cut into batches: each is a transaction of as many instructions
    as fit, but of one at least. *)
Inductive cut : list Instruction -> list (list Instruction) -> Prop :=
| cut_nil : cut [] []
| cut_cons instructions k batches :
    batch_size_of instructions k ->
    cut (drop k instructions) batches ->
    cut instructions (take k instructions :: batches).

Lemma cut_concat instructions batches : cut instructions batches -> concat batches = instructions.
Proof using Type. induction 1; simpl; [done|]. by rewrite IHcut, take_drop. Qed.

Definition send_batch (signers : list Z) (signatures : list Z) (batch : list Instruction) : Client (list Z) :=
  signature <-! sign_and_send_instructions signers batch ;; st_ok (signatures ++ [signature]).

Lemma send_batches_cut signers fuel : forall instructions,
  (List.length instructions <= fuel)%nat ->
  exists batches, cut instructions batches
    /\ forall signatures s, send_batches fuel signers payer instructions signatures s
                            = st_fold (send_batch signers) batches signatures s.
Proof.
  induction fuel as [|fuel IH]; intros instructions Hlen.
  { destruct instructions; [|simpl in Hlen; lia]. exists []. split; [constructor | done]. }
  destruct (decide (instructions = [])) as [->|Hne].
  { exists []. split; [constructor | done]. }
  destruct (create_transaction_spec instructions Hne) as (k & Hk & E1).
  destruct (IH (drop k instructions)) as (batches & Hcut & E2).
  { rewrite length_drop. destruct Hk. lia. }
  exists (take k instructions :: batches). split; [by constructor|]. intros signatures s.
  destruct instructions as [|i instructions]; [done|]. cbn [send_batches st_fold].
  erewrite st_try_Ok by apply E1. cbn [snd]. unfold st_try, st_bind, send_batch.
  unfold st_try, st_bind, st_ok, st_bail, st_ret.
  destruct (sign_and_send_instructions signers _ s) as [[[sig|e]|] s']; [apply E2 | done | done].
Qed.
End Splitting.

(** C16. Sending instructions in batches is sending, one after the other, transactions
    that together are exactly the instructions in their order, each with as many of the
    next instructions as fit into a transaction but one at least; the first transaction
    that fails ends it.  The loop needs as many rounds as there are batches, so it ends. *)
Theorem batches_send_everything payer signers instructions :
  (forall l, bincode_serialize l payer <> None) ->
  exists batches,
    cut payer instructions batches /\ concat batches = instructions
    /\ forall s, sign_and_send_instructions_in_batches (payer :: signers) instructions s
                 = st_fold (send_batch (payer :: signers)) batches [] s.
Proof.
  intros Hser. destruct (send_batches_cut payer Hser (payer :: signers) _ instructions (le_n _))
    as (batches & Hcut & E1).
  exists batches. split_and!; [done | by eapply cut_concat | intros s; apply E1].
Qed.
End Sending.

(** ** Instances *)

(** A node that has processed every transaction before. *)
Definition processed : Transaction -> nat -> result ClientError Z :=
  fun _ _ => Err (RpcResponseError PREFLIGHT_FAILURE (str "This transaction has already been processed")).

(** The first attempt gets that answer, and the caller the default signature. *)
Lemma sign_and_send_outcome_witness :
  let env := sample_env processed in
  exists a n, sign_and_send_instructions [7] [shown 7 1] sample_client = (Some a, set_asked n sample_client)
    /\ (n <= 61)%nat /\ a = Ok default_signature
    /\ answer_of [7] 7 [shown 7 1] default_signature a.
Proof.
  intros env. assert (Forall (no_other_signer 7) [shown 7 1]) as Hs by (repeat constructor).
  destruct (sign_and_send_outcome 7 _ sample_client Hs) as (a & n & E1 & Hn & Ha).
  exists a, n. split; [exact E1|]. split; [exact Hn|]. split; [|exact Ha].
  assert (fst (sign_and_send_instructions [7] [shown 7 1] sample_client) = Some (Ok 0)) as E2
    by (vm_compute; reflexivity).
  rewrite E1 in E2. injection E2 as ->. reflexivity.
Defined.

(** Five instructions, of which three fit into a transaction. *)
Lemma batches_send_everything_witness :
  let env := sample_env confirming in
  exists batches,
    concat batches = replicate 5 (shown 7 1)
    /\ sign_and_send_instructions_in_batches [7] (replicate 5 (shown 7 1)) sample_client
       = st_fold (send_batch [7]) batches [] sample_client
    /\ fst (st_fold (send_batch [7]) batches [] sample_client) = Some (Ok [7000; 7002]).
Proof.
  intros env.
  destruct (batches_send_everything 7 [] (replicate 5 (shown 7 1))) as (batches & _ & Hc & E1); [done|].
  exists batches. split; [exact Hc|]. split; [apply E1|]. rewrite <- E1. vm_compute. reflexivity.
Defined.
