(* ===== verification/ClientCacheFacts.v ===== *)
(** * The caches of the farm client

    What is kept of the names and records, what a lookup returns, and what the
    operations that change the caches do to later lookups. *)

From Stdlib Require Import String.
From S2P Require Import Prelude MachineInt Pack RefDB Token Pool Farm Vault Fund Cpi ClientNames Client ClientReads ClientSend ClientSigners ClientSamples ClientSendFacts.

#[local] Set Default Proof Using "Type*".

(** ** Versions of names *)

(** A computation that neither reads nor changes the state. *)
Definition pure {S A} (m : ST S A) : Prop := exists o, forall s, m s = (o, s).

Lemma pure_ret {S A} (a : A) : pure (st_ret (S := S) a).
Proof. by exists (Some a). Qed.

Lemma client_panic_ret {S A} : pure (st_panic (S := S) (A := A)).
Proof. by exists None. Qed.

Lemma pure_bind {S A B} (m : ST S A) (k : A -> ST S B) : pure m -> (forall a, pure (k a)) -> pure (st_bind m k).
Proof.
  intros [[a|] Hm] Hk.
  - destruct (Hk a) as [o Ho]. exists o. intros s. unfold st_bind. by rewrite Hm.
  - exists None. intros s. unfold st_bind. by rewrite Hm.
Qed.

Ltac pure_tac :=
  repeat first
    [ apply pure_ret | apply client_panic_ret
    | apply pure_bind; [| intros ?]
    | progress unfold st_try, st_ok, st_bail, str_slice, is_liquidity_token
    | case_match ].

Lemma extract_pool_name_and_version_pure {S} name :
  pure (extract_pool_name_and_version (S := S) name).
Proof. unfold extract_pool_name_and_version, extract_pool_version. pure_tac. Qed.

Section Latest.
Context `{HashOrder} {S : Type}.

(** [full] is version [v] of [base]. *)
Definition versioned_as (full base : Name) (v : Z) : Prop :=
  exists s s' : S, extract_pool_name_and_version full s = (Some (Ok (base, v)), s').

Lemma versioned_as_fun full base v (s s' : S) r :
  versioned_as full base v -> extract_pool_name_and_version full s = (Some r, s') -> r = Ok (base, v).
Proof.
  intros (s0 & s0' & E0) E1. destruct (extract_pool_name_and_version_pure (S := S) full) as [o Ho].
  rewrite Ho in E0, E1. congruence.
Qed.

Lemma versioned_as_inj full base v base' v' :
  versioned_as full base v -> versioned_as full base' v' -> base = base' /\ v = v'.
Proof. intros Hv (s & s' & E1). pose proof (versioned_as_fun _ _ _ _ _ _ Hv E1). by simplify_eq. Qed.

(** [latest] holds the newest of the names, for each base. *)
Definition newest_of (names : list Name) (latest : gmap (list Z) (Name * Z)) : Prop :=
  forall base, match latest !! base with
  | Some (full, v) =>
      full ∈ names /\ versioned_as full base v
      /\ forall full' v', full' ∈ names -> versioned_as full' base v' -> v' <= v
  | None => forall full v, full ∈ names -> ~ versioned_as full base v
  end.

Lemma newest_of_skip names latest full :
  newest_of names latest ->
  (forall base v, versioned_as full base v ->
     exists full' v', latest !! base = Some (full', v') /\ v <= v') ->
  newest_of (names ++ [full]) latest.
Proof.
  intros Hn Hfull base. specialize (Hn base). destruct (latest !! base) as [[f v]|] eqn:E1.
  - destruct Hn as (Hin & Hv & Hmax). split_and!; [set_solver | done |].
    intros f' v' [Hf|Hf%list_elem_of_singleton]%elem_of_app Hv'; [by eapply Hmax|]. subst f'.
    destruct (Hfull base v' Hv') as (f2 & v2 & E2 & ?). rewrite E1 in E2. by simplify_eq.
  - intros f' v' [Hf|Hf%list_elem_of_singleton]%elem_of_app Hv'; [by eapply Hn|]. subst f'.
    destruct (Hfull base v' Hv') as (f2 & v2 & E2 & ?). congruence.
Qed.

Lemma newest_of_insert names latest full base v :
  newest_of names latest -> versioned_as full base v ->
  (forall full' v', latest !! base = Some (full', v') -> v' < v) ->
  newest_of (names ++ [full]) (<[base := (full, v)]> latest).
Proof.
  intros Hn Hv Hlt base'. destruct (decide (base' = base)) as [->|Hne].
  - rewrite lookup_insert_eq. split_and!; [set_solver | done |]. specialize (Hn base).
    intros f' v' [Hf|Hf%list_elem_of_singleton]%elem_of_app Hv'.
    + destruct (latest !! base) as [[f2 v2]|] eqn:E1; [|by eapply Hn in Hv'].
      specialize (Hlt _ _ eq_refl). destruct Hn as (_ & _ & Hmax). specialize (Hmax f' v' Hf Hv'). lia.
    + subst f'. destruct (versioned_as_inj _ _ _ _ _ Hv Hv') as [_ ->]. lia.
  - rewrite lookup_insert_ne by done. specialize (Hn base').
    assert (forall v', ~ versioned_as full base' v') as Hno.
    { intros v' Hv'. by destruct (versioned_as_inj _ _ _ _ _ Hv Hv') as [<- _]. }
    destruct (latest !! base') as [[f2 v2]|].
    + destruct Hn as (Hin & Hv2 & Hmax). split_and!; [set_solver | done |].
      intros f' v' [Hf|Hf%list_elem_of_singleton]%elem_of_app Hv'; [by eapply Hmax|]. subst f'. by eapply Hno in Hv'.
    + intros f' v' [Hf|Hf%list_elem_of_singleton]%elem_of_app Hv'; [by eapply Hn|]. subst f'. by eapply Hno in Hv'.
Qed.

Lemma latest_versions_newest names : forall seen latest (s : S) latest' s',
  newest_of seen latest -> latest_versions names latest s = (Some latest', s') ->
  newest_of (seen ++ names) latest'.
Proof.
  induction names as [|full names IH]; intros seen latest s latest' s' Hn E1.
  { injection E1 as <- _. by rewrite app_nil_r. }
  cbn [latest_versions] in E1. apply st_bind_inv in E1 as (r & s1 & Er & E1).
  replace (seen ++ full :: names) with ((seen ++ [full]) ++ names) by (by rewrite <- app_assoc).
  refine (IH _ _ _ _ _ _ E1). destruct r as [[base v]|e].
  - assert (versioned_as full base v) as Hv by (by exists s, s1).
    destruct (latest !! base) as [[f0 v0]|] eqn:El; [destruct (Z.ltb_spec v0 v)|].
    + apply newest_of_insert; [done | done |]. intros ?? [= -> ->]%(eq_trans (eq_sym El)). lia.
    + apply newest_of_skip; [done|]. intros base' v' Hv'.
      destruct (versioned_as_inj _ _ _ _ _ Hv Hv') as [<- <-]. exists f0, v0. auto with lia.
    + apply newest_of_insert; [done | done |]. intros ?? ?. congruence.
  - apply newest_of_skip; [done|]. intros base v Hv. by pose proof (versioned_as_fun _ _ _ _ _ _ Hv Er).
Qed.

Lemma hash_iter_names {A} (m : gmap (list Z) A) name : name ∈ (hash_iter m).*1 <-> is_Some (m !! name).
Proof.
  rewrite list_elem_of_fmap. split.
  - intros ([n a] & -> & Hin). rewrite (hash_iter_perm m), elem_of_map_to_list in Hin. by exists a.
  - intros [a Ha]. exists (name, a). split; [done|]. by rewrite (hash_iter_perm m), elem_of_map_to_list.
Qed.

(** C29. The names without version lead to the newest version among the addresses that
    were read: for each base name with a versioned name the entry is one of those and
    none has a higher version, in whatever order the map is iterated.  A base name of
    which no version is left keeps the entry it had. *)
Theorem latest_is_newest (source : gmap (list Z) Z) (dest latest : gmap (list Z) Name) (s s' : S) :
  reinsert_latest_versions source dest s = (Some latest, s') ->
  forall base,
    (exists full v, latest !! base = Some full /\ is_Some (source !! full) /\ versioned_as full base v
       /\ forall full' v', is_Some (source !! full') -> versioned_as full' base v' -> v' <= v)
    \/ ((forall full v, is_Some (source !! full) -> ~ versioned_as full base v) /\ latest !! base = dest !! base).
Proof.
  intros E1 base. apply st_bind_inv in E1 as (m & s1 & Em & [= <- _]).
  assert (newest_of (hash_iter source).*1 m) as Hn.
  { rewrite <- (app_nil_l (_.*1)). eapply latest_versions_newest, Em.
    intros b. rewrite lookup_empty. set_solver. }
  specialize (Hn base). rewrite lookup_union, lookup_fmap.
  destruct (m !! base) as [[full v]|]; simpl.
  - left. destruct Hn as (Hin%hash_iter_names & Hv & Hmax). exists full, v.
    split_and!; [by destruct (dest !! base) | done | done |]. intros f' v' Hf'%hash_iter_names. by apply Hmax.
  - right. split; [intros f v Hf%hash_iter_names; by apply Hn|]. by destruct (dest !! base).
Qed.
End Latest.

(** ** Kinds of records *)

(** The store of a kind is a field of the client, apart from the question counter. *)
Class KindLaws `{FarmEnv} {T} (K : Kind T) : Prop := {
  store_of_set x c : K.(store) (K.(set_store) x c) = x;
  set_of_store c : K.(set_store) (K.(store) c) c = c;
  set_twice x y c : K.(set_store) x (K.(set_store) y c) = K.(set_store) x c;
  store_asked n c : K.(store) (set_asked n c) = K.(store) c;
  asked_of_set x c : asked (K.(set_store) x c) = asked c;
  set_store_asked x n c : K.(set_store) x (set_asked n c) = set_asked n (K.(set_store) x c);
  default_records s c s' : default_client s = (Some c, s') -> (K.(store) c).(records).(data) = ∅;
}.

Lemma default_store_empty `{FarmEnv} {T} :
  yields (fun st : Store T => st.(records).(data) = ∅) default_store.
Proof.
  unfold default_store, default_cache. apply (yields_bind (fun c => c.(data) = ∅)).
  - apply yields_bind_any. intros. by apply yields_ret.
  - intros c Hc. apply yields_bind_any. intros. by apply yields_ret.
Qed.

Ltac kind_laws :=
  split;
  lazymatch goal with
  | |- forall s c s', default_client _ = _ -> _ =>
      intros s c s' E1; unfold default_client in E1;
      do 7 (apply st_bind_inv in E1 as (? & ? & ? & E1)); injection E1 as <- _; cbn;
      eapply default_store_empty; eassumption
  | |- _ => intros; repeat match goal with c : FarmClient |- _ => destruct c end; reflexivity
  end.

#[export] Instance TokenKind_laws `{FarmEnv} : KindLaws TokenKind.
Proof. kind_laws. Qed.
#[export] Instance PoolKind_laws `{FarmEnv} : KindLaws PoolKind.
Proof. kind_laws. Qed.
#[export] Instance FarmKind_laws `{FarmEnv} : KindLaws FarmKind.
Proof. kind_laws. Qed.
#[export] Instance VaultKind_laws `{FarmEnv} : KindLaws VaultKind.
Proof. kind_laws. Qed.
#[export] Instance FundKind_laws `{FarmEnv} : KindLaws FundKind.
Proof. kind_laws. Qed.

Section Lookups.
Context `{FarmEnv} {T : Type} (K : Kind T) `{!KindLaws K}.
Implicit Types (s : FarmClient) (name : Name) (r : T).

(** The addresses are not read again if the clock is now as the [n]th question says. *)
Definition fresh s : Prop :=
  let c := (K.(store) s).(refs) in
  c.(data) <> ∅ /\ ~ (c.(last_load) <= system_time (asked s)
                      /\ RELOAD_INTERVAL <= system_time (asked s) - c.(last_load)).

(** The name under which a name is looked up. *)
Definition resolve s name : Name :=
  if K.(versioned) then default name ((K.(store) s).(latest) !! name) else name.

Definition tick s : FarmClient := set_asked (S (asked s)) s.

Lemma reload_fresh s : fresh s -> reload_refs_if_stale K s = (Some (Ok false), tick s).
Proof.
  intros [Hne Hold]. unfold reload_refs_if_stale, is_stale, st_bind at 1, st_gets at 1.
  rewrite bool_decide_eq_false_2 by done.
  unfold st_bind at 1 2. unfold ask, st_bind, st_gets, st_modify, st_ret.
  replace (_ && _) with false; [done|]. symmetry. apply andb_false_iff.
  rewrite Z.leb_gt, Z.leb_gt. lia.
Qed.

Lemma get_record_unfold name s s' b :
  reload_refs_if_stale K s = (Some (Ok b), s') ->
  get_record K name s =
    match (K.(store) s').(records).(data) !! resolve s' name with
    | Some r => (Some (Ok r), s')
    | None =>
        match (K.(store) s').(refs).(data) !! resolve s' name with
        | Some key =>
            st_try (load_by_ref K key) (fun r =>
              update K (fun st : Store T => set_records (set_data (<[resolve s' name := r]> st.(records).(data)) st.(records)) st) ;;;
              st_ok r) s'
        | None => (Some (Err (not_found K name)), s')
        end
    end.
Proof.
  intros E1. unfold get_record. erewrite st_try_Ok by exact E1.
  unfold full_name, st_bind at 1. unfold st_bind at 1, st_gets at 1, st_ret at 1.
  unfold st_bind at 1, st_gets at 1. change (if K.(versioned) then _ else _) with (resolve s' name).
  destruct (_ !! resolve s' name); [done|]. by destruct (_ !! resolve s' name).
Qed.

Lemma get_ref_unfold name s s' b :
  reload_refs_if_stale K s = (Some (Ok b), s') ->
  get_ref K name s =
    match (K.(store) s').(refs).(data) !! resolve s' name with
    | Some key => (Some (Ok key), s')
    | None => (Some (Err (not_found K name)), s')
    end.
Proof.
  intros E1. unfold get_ref. erewrite st_try_Ok by exact E1.
  unfold full_name, st_bind at 1. unfold st_bind at 1, st_gets at 1, st_ret at 1.
  unfold st_bind at 1, st_gets at 1. change (if K.(versioned) then _ else _) with (resolve s' name).
  by destruct (_ !! resolve s' name).
Qed.

Lemma resolve_tick s name : resolve (tick s) name = resolve s name.
Proof. unfold resolve, tick. by rewrite store_asked. Qed.
Lemma fresh_record name s r :
  fresh s -> (K.(store) s).(records).(data) !! resolve s name = Some r ->
  get_record K name s = (Some (Ok r), tick s).
Proof.
  intros Hf Hr. rewrite (get_record_unfold _ _ _ _ (reload_fresh s Hf)), resolve_tick.
  unfold tick. by rewrite store_asked, Hr.
Qed.

Lemma fresh_ref name s key :
  fresh s -> (K.(store) s).(refs).(data) !! resolve s name = Some key ->
  get_ref K name s = (Some (Ok key), tick s).
Proof.
  intros Hf Hr. rewrite (get_ref_unfold _ _ _ _ (reload_fresh s Hf)), resolve_tick.
  unfold tick. by rewrite store_asked, Hr.
Qed.

Lemma fresh_not_found name s :
  fresh s -> (K.(store) s).(records).(data) !! resolve s name = None ->
  (K.(store) s).(refs).(data) !! resolve s name = None ->
  get_record K name s = (Some (Err (not_found K name)), tick s).
Proof.
  intros Hf Hr Hk. rewrite (get_record_unfold _ _ _ _ (reload_fresh s Hf)), resolve_tick.
  unfold tick. by rewrite store_asked, Hr, Hk.
Qed.

(** A lookup that returned has its record in the cache. *)
Lemma found_record_cached name s r s' :
  get_record K name s = (Some (Ok r), s') ->
  (K.(store) s').(records).(data) !! resolve s' name = Some r.
Proof.
  intros E1. pose proof E1 as (b & s1 & Erel & _)%st_try_inv.
  rewrite (get_record_unfold _ _ _ _ Erel) in E1.
  destruct (_ !! resolve s1 name) as [r1|] eqn:Er; [by injection E1 as <- <-|].
  destruct ((K.(store) s1).(refs).(data) !! resolve s1 name) as [key|]; [|done].
  apply st_try_inv in E1 as (r1 & s2 & Eload & E1).
  unfold update, st_bind, st_modify in E1. injection E1 as -> <-.
  assert (K.(store) s2 = K.(store) s1) as Es.
  { unfold load_by_ref, st_try in Eload. apply st_bind_inv in Eload as (d & s3 & Ed & Eload).
    injection Ed as _ <-. destruct d; injection Eload as _ <-; apply store_asked. }
  assert (resolve (K.(set_store) (set_records (set_data (<[resolve s1 name := r]>
            (K.(store) s2).(records).(data)) (K.(store) s2).(records)) (K.(store) s2)) s2) name
          = resolve s1 name) as ->
    by (unfold resolve; by rewrite store_of_set, Es).
  rewrite store_of_set. simpl. apply lookup_insert_eq.
Qed.
End Lookups.

(** ** Adding and removing records *)

Section Changes.
Context `{FarmEnv} {T : Type} (K : Kind T) `{!KindLaws K}.
Implicit Types (s : FarmClient) (name : Name) (r : T).

Lemma modify_records_inv f s s' :
  modify_records K f s = (Some tt, s') ->
  s' = K.(set_store) (set_records (set_data (f (K.(store) s).(records).(data)) (K.(store) s).(records)) (K.(store) s)) s.
Proof.
  unfold modify_records, modify_data, update, st_bind, st_gets, st_modify.
  by destruct (lent _); [|injection 1 as <-].
Qed.

Lemma modify_refs_inv f s s' :
  modify_refs K f s = (Some tt, s') ->
  s' = K.(set_store) (set_refs (set_data (f (K.(store) s).(refs).(data)) (K.(store) s).(refs)) (K.(store) s)) s.
Proof.
  unfold modify_refs, modify_data, update, st_bind, st_gets, st_modify.
  by destruct (lent _); [|injection 1 as <-].
Qed.

Lemma reinsert_state {S} source dest (s s' : S) o :
  reinsert_latest_versions source dest s = (o, s') -> s' = s.
Proof using Type.
  assert (forall names latest (s : S), snd (latest_versions names latest s) = s) as Hl.
  { induction names as [|full names IH]; intros latest s0; [done|]. cbn [latest_versions].
    destruct (extract_pool_name_and_version_pure (S := S) full) as [[x|] Hx];
      unfold st_bind; rewrite Hx; [apply IH | done]. }
  unfold reinsert_latest_versions, st_bind, st_ret. specialize (Hl (hash_iter source).*1 ∅ s).
  destruct (latest_versions _ _ s) as [[m|] s1]; simpl in Hl; by intros [= _ <-].
Qed.

Lemma update_latest_inv s s' :
  update_latest K s = (Some tt, s') ->
  (K.(store) s').(records) = (K.(store) s).(records) /\ (K.(store) s').(refs) = (K.(store) s).(refs).
Proof.
  unfold update_latest. destruct (versioned K); [|by intros [= <-]].
  intros E1. apply st_bind_inv in E1 as (st & s1 & [= <- <-] & E1).
  apply st_bind_inv in E1 as (l & s2 & El%reinsert_state & E1). subst s2.
  unfold update, st_modify in E1. injection E1 as <-. by rewrite store_of_set.
Qed.

(** The records and addresses after a change of both. *)
Lemma changed_store f g s s' :
  (modify_records K f ;;; modify_refs K g ;;; update_latest K) s = (Some tt, s') ->
  (K.(store) s').(records).(data) = f (K.(store) s).(records).(data)
  /\ (K.(store) s').(refs).(data) = g (K.(store) s).(refs).(data).
Proof.
  intros E1. apply st_bind_inv in E1 as ([] & s1 & ->%modify_records_inv & E1).
  apply st_bind_inv in E1 as ([] & s2 & ->%modify_refs_inv & E1).
  apply update_latest_inv in E1 as [-> ->]. by rewrite !store_of_set.
Qed.

Lemma after_send_inv inst w then_ s a s' :
  after_send inst w then_ s = (Some (Ok a), s') -> exists s1, then_ s1 = (Some tt, s').
Proof using Type.
  intros E1. apply st_bind_inv in E1 as (res & s1 & _ & E1).
  apply st_bind_inv in E1 as ([] & s2 & Ethen & [= -> ->]). simpl in Ethen. by exists s1.
Qed.
End Changes.

(** ** Resetting *)

Section Reset.
Context `{FarmEnv}.

Lemma reset_farms {T} (K : Kind T) s u s' :
  (forall x c, farms (K.(set_store) x c) = farms c) ->
  reset_records K s = (Some u, s') \/ reset_refs K s = (Some u, s') -> farms s' = farms s.
Proof.
  intros HK. unfold reset_records, reset_refs, cache_reset, update, st_bind, st_gets.
  intros [E1|E1]; destruct (lent _) in E1; try done; injection E1 as _ <-; cbn; by rewrite HK.
Qed.

(** What [reset_cache] leaves of the farms. *)
Lemma reset_cache_farms s s' :
  reset_cache s = (Some tt, s') -> farms s' = set_latest ∅ (farms s).
Proof.
  unfold reset_cache. intros E0.
  do 8 (apply st_bind_inv in E0 as ([] & s1 & E1 & E0); (assert (farms s1 = farms s) as <- by (eapply reset_farms; [|by eauto]; done)); clear E1 s; rename s1 into s).
  apply st_bind_inv in E0 as (ids & s1 & [= _ <-] & E0).
  apply st_bind_inv in E0 as (ids' & s1 & E1 & E0).
  unfold update, st_bind, st_modify in E0. injection E0 as <-. cbn.
  unfold cache_reset in E1. destruct (lent _); [done|]. by injection E1 as _ <-.
Qed.
End Reset.

(** ** Where records come from *)

(** [m] keeps the property [P] of the client, whether it returns, fails or panics. *)
Definition holds {S A} (P : S -> Prop) (m : ST S A) : Prop := forall s, P s -> P (snd (m s)).

Section Holds.
Context {S : Type} (P : S -> Prop).

Lemma holds_ret {A} (a : A) : holds P (st_ret a).
Proof using Type. by intros s. Qed.

Lemma holds_panic {A} : holds P (st_panic (A := A)).
Proof using Type. by intros s. Qed.

Lemma holds_gets {A} (f : S -> A) : holds P (st_gets f).
Proof using Type. by intros s. Qed.

Lemma holds_bind {A B} (m : ST S A) (k : A -> ST S B) :
  holds P m -> (forall a, holds P (k a)) -> holds P (st_bind m k).
Proof using Type.
  intros Hm Hk s Hs. specialize (Hm s Hs). unfold st_bind. destruct (m s) as [[a|] s']; [by apply Hk | done].
Qed.

Lemma holds_bind_yields {A B} (Q : A -> Prop) (m : ST S A) (k : A -> ST S B) :
  holds P m -> yields Q m -> (forall a, Q a -> holds P (k a)) -> holds P (st_bind m k).
Proof using Type.
  intros Hm HQ Hk s Hs. specialize (Hm s Hs). specialize (HQ s). unfold st_bind.
  destruct (m s) as [[a|] s']; [|done]. by apply (Hk a); [eapply HQ|].
Qed.

Lemma holds_bind_gets {A B} (f : S -> A) (k : A -> ST S B) :
  (forall s, P s -> P (snd (k (f s) s))) -> holds P (st_bind (st_gets f) k).
Proof using Type. intros Hk s Hs. by apply Hk. Qed.

Lemma holds_try {E A B} (m : ST S (result E A)) (k : A -> ST S (result E B)) :
  holds P m -> (forall a, holds P (k a)) -> holds P (st_try m k).
Proof using Type. intros Hm Hk. apply holds_bind; [done|]. intros [a|e]; [apply Hk | apply holds_ret]. Qed.
End Holds.

Section Chain.
Context `{FarmEnv} {T : Type} (K : Kind T) `{!KindLaws K}.

(** The node gave the record, alone or among others. *)
Definition on_chain (r : T) : Prop :=
  exists d, K.(unpack_record) d = Ok r
    /\ ((exists key n, get_account_data key n = Ok d)
        \/ (exists keys n accounts a, get_multiple_accounts keys n = Ok accounts
              /\ Some a ∈ accounts /\ a.(account_data) = d)).

(** The records that this client has added itself, which are cached as they were given. *)
Context (own : list T).

Definition known (r : T) : Prop := on_chain r \/ r ∈ own.

Definition sound_map (m : gmap (list Z) T) : Prop := map_Forall (fun _ => known) m.
Definition sound (c : FarmClient) : Prop := sound_map (K.(store) c).(records).(data).

Lemma sound_set x c : sound_map x.(records).(data) -> sound (K.(set_store) x c).
Proof. unfold sound. by rewrite store_of_set. Qed.

Lemma sound_asked n c : sound c -> sound (set_asked n c).
Proof. unfold sound. by rewrite store_asked. Qed.

Lemma holds_ask {A} (q : nat -> A) : holds sound (ask q).
Proof. intros c Hc. by apply sound_asked. Qed.

Lemma holds_rpc {A} (q : nat -> result ClientError A) : holds sound (rpc q).
Proof. unfold rpc. apply holds_bind; [apply holds_ask | intros; apply holds_ret]. Qed.

(** A change of the store that leaves the records, or sets sound ones. *)
Lemma holds_update f :
  (forall x, sound_map x.(records).(data) -> sound_map (f x).(records).(data)) -> holds sound (update K f).
Proof. intros Hf c Hc. apply sound_set, Hf, Hc. Qed.

Lemma load_by_ref_on_chain key c r c' : load_by_ref K key c = (Some (Ok r), c') -> on_chain r.
Proof.
  unfold load_by_ref. rewrite rpc_try. destruct (get_account_data key (asked c)) as [d|] eqn:Ed; [|done].
  unfold program, st_ret. destruct (unpack_record K d) as [r'|] eqn:Eu; [|done].
  intros [= <- _]. exists d. eauto 6.
Qed.

Lemma cache_set_sound {U} (d : gmap (list Z) U) n c : holds sound (cache_set d n c).
Proof. unfold cache_set. case_match; [apply holds_panic|]. apply holds_bind; [apply holds_ask | intros; apply holds_ret]. Qed.

Lemma cache_reset_sound {U} (c : Cache U) : holds sound (cache_reset c).
Proof. unfold cache_reset. case_match; [apply holds_panic|]. apply holds_bind; [apply holds_ask | intros; apply holds_ret]. Qed.

Lemma mark_not_stale_sound {U} (c : Cache U) : holds sound (mark_not_stale c).
Proof. unfold mark_not_stale. case_match; [apply holds_panic|]. apply holds_bind; [apply holds_ask | intros; apply holds_ret]. Qed.

Lemma cache_set_data {U} (d : gmap (list Z) U) n c : yields (fun c' => c'.(data) = d) (cache_set d n c).
Proof.
  unfold cache_set. case_match; [apply yields_panic|]. apply yields_bind_any. intros. by apply yields_ret.
Qed.

Lemma cache_reset_data {U} (c : Cache U) : yields (fun c' => c'.(data) = ∅) (cache_reset c).
Proof.
  unfold cache_reset. case_match; [apply yields_panic|]. apply yields_bind_any. intros. by apply yields_ret.
Qed.

Lemma pubkey_map_sound name : holds sound (get_refdb_pubkey_map name).
Proof.
  assert (forall U (m : Client U), pure m -> holds sound m) as Hpure.
  { intros U m [o Ho] c Hc. by rewrite Ho. }
  assert (forall U d (m : Db U), pure (S := FarmClient) (on_db d m)) as Hdb.
  { intros U d m. unfold on_db, program. repeat case_match; apply pure_ret || apply client_panic_ret. }
  unfold get_refdb_pubkey_map. apply holds_bind.
  { unfold find_refdb_pda. repeat case_match; apply holds_ret || apply holds_panic. }
  intros pda. apply holds_try; [apply holds_rpc|]. intros d. case_match; [apply holds_ret|].
  apply holds_try; [auto|]. intros. apply holds_try; [auto|]. intros. apply holds_ret.
Qed.

Lemma reload_refs_sound : holds sound (reload_refs_if_stale K).
Proof.
  unfold reload_refs_if_stale. apply holds_bind; [apply holds_gets|]. intros st.
  apply holds_bind.
  { unfold is_stale. case_match; [apply holds_ret|]. apply holds_bind; [apply holds_ask | intros; apply holds_ret]. }
  intros [|]; [|apply holds_ret]. apply holds_try; [apply pubkey_map_sound|]. intros [h new_refs].
  case_match.
  - apply holds_bind.
    { case_match; [|apply holds_ret]. intros c Hc. destruct (reinsert_latest_versions _ _ c) as [o c'] eqn:E1.
      apply reinsert_state in E1 as ->. done. }
    intros l. apply holds_bind; [by apply holds_update|]. intros _.
    apply holds_bind; [apply cache_set_sound|]. intros ?. apply holds_bind; [by apply holds_update|]. intros _.
    eapply holds_bind_yields; [apply cache_reset_sound | apply cache_reset_data|]. intros c' Hc'.
    apply holds_bind; [|intros; apply holds_ret]. apply holds_update. intros x _. simpl. rewrite Hc'. apply map_Forall_empty.
  - apply holds_bind; [apply mark_not_stale_sound|]. intros ?.
    apply holds_bind; [by apply holds_update | intros; apply holds_ret].
Qed.

Lemma get_record_sound name : holds sound (get_record K name).
Proof.
  unfold get_record. apply holds_try; [apply reload_refs_sound|]. intros _.
  apply holds_bind; [apply holds_bind; [apply holds_gets | intros; apply holds_ret]|]. intros name'.
  apply holds_bind; [apply holds_gets|]. intros st. case_match; [apply holds_ret|].
  case_match; [|apply holds_ret]. apply (holds_bind_yields _ (ok_or_error on_chain)).
  - unfold load_by_ref. apply holds_try; [apply holds_rpc | intros; apply holds_ret].
  - intros c r c' E1. destruct r; [by eapply load_by_ref_on_chain | done].
  - intros [r|e] Hr; [|apply holds_ret]. apply holds_bind; [|intros; apply holds_ret].
    apply holds_update. intros x Hx. simpl. apply map_Forall_insert_2; [by left | done].
Qed.

(** A record that is found is sound, if those in the cache are. *)
Lemma get_record_known name c r c' :
  sound c -> get_record K name c = (Some (Ok r), c') -> known r.
Proof.
  intros Hc E1. apply found_record_cached in E1 as Hr; [|done].
  pose proof (get_record_sound name c Hc) as Hs. rewrite E1 in Hs. by eapply Hs, Hr.
Qed.

Lemma insert_accounts_sound keys n accounts : get_multiple_accounts keys n = Ok accounts ->
  forall answers m, sound_map m -> (forall a k, (a, k) ∈ answers -> a ∈ accounts) ->
  ok_or_error sound_map (insert_accounts K answers m).
Proof.
  intros Hacc. induction answers as [|[[a|] k] answers IH]; intros m Hm Hin; [done| |done].
  cbn [insert_accounts]. destruct (unpack_record K (account_data a)) as [r|] eqn:Eu; [|done].
  apply IH; [|intros; eapply Hin; by right]. apply map_Forall_insert_2; [|done]. left. exists (account_data a). split; [done|].
  right. exists keys, n, accounts, a. split_and!; [done | eapply (Hin _ k); by left | done].
Qed.

Lemma load_slices_sound slices : forall m, sound_map m -> returns sound_map (load_slices K slices m).
Proof.
  induction slices as [|keys slices IH]; intros m Hm; [by apply returns_ok|]. cbn [load_slices].
  intros c r c' E1. rewrite rpc_try in E1. destruct (get_multiple_accounts keys (asked c)) as [accounts|] eqn:Ea.
  2: by injection E1 as <- _.
  assert (ok_or_error sound_map (insert_accounts K (zip accounts keys) m)) as Hi.
  { eapply insert_accounts_sound; [exact Ea | exact Hm |]. intros a k Hin. by eapply elem_of_zip_l. }
  unfold st_try at 1 in E1. rewrite st_bind_ret_l in E1. destruct (insert_accounts _ _ _) as [m'|e].
  - by eapply (IH m').
  - by injection E1 as <- _.
Qed.

Lemma load_slices_keeps slices : forall m, holds sound (load_slices K slices m).
Proof.
  induction slices as [|keys slices IH]; intros m; [apply holds_ret|]. cbn [load_slices].
  apply holds_try; [apply holds_rpc|]. intros accounts. apply holds_try; [apply holds_ret|]. intros m'. apply IH.
Qed.

Lemma reload_records_sound : holds sound (reload_records_if_empty K).
Proof.
  unfold reload_records_if_empty. apply holds_bind; [apply holds_gets|]. intros st.
  case_match; [|apply holds_ret]. case_match; [apply holds_ret|].
  eapply holds_bind_yields; [apply load_slices_keeps | apply load_slices_sound, map_Forall_empty|].
  intros [m|e] Hm; [|apply holds_ret]. eapply holds_bind_yields; [apply cache_set_sound | apply cache_set_data|].
  intros c' Hc'. apply holds_bind; [|intros; apply holds_ret]. apply holds_update. intros x _. simpl. by rewrite Hc'.
Qed.

Lemma get_all_sound c r c' : sound c -> get_all K c = (r, c') ->
  sound c' /\ forall m, r = Some (Ok m) -> sound_map m.
Proof.
  intros Hc E1. assert (holds sound (get_all K)) as Hh.
  { unfold get_all. apply holds_try; [apply reload_refs_sound|]. intros _.
    apply holds_try; [apply reload_records_sound|]. intros _. apply holds_bind; [apply holds_gets | intros; apply holds_ret]. }
  specialize (Hh c Hc). rewrite E1 in Hh. split; [done|]. intros m ->.
  apply st_try_inv in E1 as (? & c1 & _ & (? & c2 & _ & E1)%st_try_inv).
  injection E1 as <- <-. exact Hh.
Qed.

Lemma push_records_sound names : forall res c r c',
  sound c -> Forall known res -> push_records K names res c = (r, c') ->
  sound c' /\ forall l, r = Some (Ok l) -> Forall known l.
Proof.
  induction names as [|name names IH]; intros res c r c' Hc Hres E1.
  { injection E1 as <- <-. split; [done|]. by intros l [= <-]. }
  cbn [push_records] in E1. unfold st_try, st_bind in E1. pose proof (get_record_sound name c Hc) as Hs.
  destruct (get_record K name c) as [[[a|e]|] c1] eqn:Ea; simpl in Hs.
  - eapply IH; [exact Hs | | exact E1]. apply Forall_app. split; [done|]. apply Forall_singleton.
    by eapply get_record_known in Ea.
  - injection E1 as <- <-. by split.
  - injection E1 as <- <-. by split.
Qed.

Lemma lend_sound b : holds sound (update K (fun x => set_refs (set_lent b x.(refs)) x)).
Proof. by apply holds_update. Qed.

Lemma find_records_sound selects c r c' :
  sound c -> find_records K selects c = (r, c') ->
  sound c' /\ forall l, r = Some (Ok l) -> Forall known l.
Proof.
  intros Hc E1. unfold find_records in E1.
  match type of E1 with (let (_, _) := ?m in _) = _ => destruct m as [r1 c1] eqn:Eloop end.
  injection E1 as <- <-.
  assert (sound c1 /\ forall l, r1 = Some (Ok l) -> Forall known l) as [Hc1 Hr].
  { unfold st_try at 1, st_bind at 1 in Eloop. pose proof (reload_refs_sound c Hc) as Hs.
    destruct (reload_refs_if_stale K c) as [[[b|e]|] c2]; simpl in Hs; [|by injection Eloop as <- <-..].
    unfold st_bind at 1, st_gets in Eloop. unfold st_bind in Eloop. pose proof (lend_sound true c2 Hs) as Hs'.
    destruct (update K _ c2) as [[[]|] c3]; [by eapply push_records_sound in Eloop | by injection Eloop as <- <-]. }
  split; [by apply lend_sound | done].
Qed.
End Chain.

(** ** The history of a client *)

Section History.
Context `{FarmEnv} {T : Type} (K : Kind T) `{!KindLaws K}.

(** What the client does to the caches of a kind, apart from adding a record. *)
Inductive operation : forall {A}, ST FarmClient A -> Prop :=
| op_record name : operation (get_record K name)
| op_ref name : operation (get_ref K name)
| op_record_name key : operation (get_record_name K key)
| op_by_ref key : operation (get_by_ref K key)
| op_refs : operation (get_refs K)
| op_all : operation (get_all K)
| op_find selects : operation (find_records K selects)
| op_forget name : operation (forget_record K name)
| op_reset_records : operation (reset_records K)
| op_reset_refs : operation (reset_refs K)
| op_reset_latest : operation (update K (set_latest ∅)).

(** The client was made, has run such operations, whether they returned or not, has put
    the records [own] that it added into the cache, and has done anything that leaves
    this kind's caches alone. *)
Inductive history : list T -> FarmClient -> Prop :=
| history_start s c s' : default_client s = (Some c, s') -> history [] c
| history_operation own s A (m : ST FarmClient A) :
    history own s -> operation m -> history own (snd (m s))
| history_add own s r : history own s -> history (r :: own) (snd (cache_record K r s))
| history_elsewhere own s s' : history own s -> K.(store) s' = K.(store) s -> history own s'.

Lemma sound_more own own' s : own ⊆ own' -> sound K own s -> sound K own' s.
Proof.
  intros Hsub Hs. eapply map_Forall_impl; [exact Hs|]. intros name r [Hr|Hr]; [by left | right; by apply Hsub].
Qed.

Lemma modify_records_sound own own' f s :
  own ⊆ own' -> (forall m, sound_map K own' m -> sound_map K own' (f m)) -> sound K own s ->
  sound K own' (snd (modify_records K f s)).
Proof.
  intros Hsub Hf Hs. apply (sound_more _ _ _ Hsub) in Hs.
  unfold modify_records, modify_data, st_bind, st_gets, update, st_modify.
  destruct (lent _); [exact Hs|]. apply sound_set; [exact _ | apply Hf, Hs].
Qed.

Lemma modify_refs_sound own f : holds (sound K own) (modify_refs K f).
Proof.
  unfold modify_refs. apply holds_bind; [apply holds_gets|]. intros st. apply holds_bind.
  - unfold modify_data. case_match; [apply holds_panic | apply holds_ret].
  - intros c. by apply holds_update.
Qed.

Lemma update_latest_sound own : holds (sound K own) (update_latest K).
Proof.
  unfold update_latest. case_match; [|apply holds_ret]. apply holds_bind; [apply holds_gets|]. intros st.
  apply holds_bind; [|intros l; by apply holds_update].
  intros c Hc. destruct (reinsert_latest_versions _ _ c) as [o c'] eqn:E1. by apply reinsert_state in E1 as ->.
Qed.

(** A change of records that keeps them known, followed by the other changes. *)
Lemma change_sound own own' f g s :
  own ⊆ own' -> (forall m, sound_map K own' m -> sound_map K own' (f m)) -> sound K own s ->
  sound K own' (snd ((modify_records K f ;;; modify_refs K g ;;; update_latest K) s)).
Proof.
  intros Hsub Hf Hs. apply (modify_records_sound own own' f) in Hs; [|done..]. unfold st_bind at 1.
  destruct (modify_records K f s) as [[[]|] s1]; [|exact Hs].
  revert Hs. apply holds_bind; [by apply modify_refs_sound | intros; by apply update_latest_sound].
Qed.

Lemma add_sound own r s : sound K own s -> sound K (r :: own) (snd (cache_record K r s)).
Proof.
  apply change_sound; [set_solver|]. intros m Hm. apply map_Forall_insert_2; [right; left | done].
Qed.

Lemma reload_bind_sound own {A} (k : bool -> Client A) :
  (forall b, holds (sound K own) (k b)) -> holds (sound K own) (st_try (reload_refs_if_stale K) k).
Proof. intros Hk. apply holds_try; [by apply reload_refs_sound | exact Hk]. Qed.

Lemma full_name_bind_sound own {A} name (k : Name -> ST FarmClient A) :
  (forall n, holds (sound K own) (k n)) -> holds (sound K own) (st_bind (full_name K name) k).
Proof.
  intros Hk. apply holds_bind; [|exact Hk]. apply holds_bind; [apply holds_gets | intros; apply holds_ret].
Qed.

Ltac kept :=
  repeat first
    [ (by apply get_record_sound) | (by apply pubkey_map_sound)
    | apply reload_bind_sound; intros ? | apply full_name_bind_sound; intros ?
    | apply holds_ret | apply holds_panic | apply holds_gets
    | (by apply cache_reset_sound) | (by apply holds_update)
    | apply holds_try; [|intros ?] | apply holds_bind; [|intros ?] | case_match ].

Lemma reset_records_sound own : holds (sound K own) (reset_records K).
Proof.
  unfold reset_records. apply holds_bind; [apply holds_gets|]. intros st.
  eapply holds_bind_yields; [by apply cache_reset_sound | exact (cache_reset_data K own _)|]. intros c Hc.
  apply holds_update; [exact _|]. intros x _. simpl. rewrite Hc. apply map_Forall_empty.
Qed.

Lemma operation_sound own {A} (m : ST FarmClient A) : operation m -> holds (sound K own) m.
Proof.
  intros [name|name|key|key| | |selects|name| | |].
  - by apply get_record_sound.
  - unfold get_ref. kept.
  - unfold get_record_name. kept.
  - unfold get_by_ref, get_record_name. kept.
  - unfold get_refs. kept.
  - intros s Hs. destruct (get_all K s) as [r s'] eqn:E1. exact (proj1 (get_all_sound K own s r s' Hs E1)).
  - intros s Hs. destruct (find_records K selects s) as [r s'] eqn:E1.
    exact (proj1 (find_records_sound K own selects s r s' Hs E1)).
  - intros s. apply change_sound; [done|]. intros d Hd. by apply map_Forall_delete.
  - apply reset_records_sound.
  - unfold reset_refs. kept.
  - by apply holds_update.
Qed.

Lemma history_sound own s : history own s -> sound K own s.
Proof.
  induction 1 as [s c s' E1|own s A m _ IH Hm|own s r _ IH|own s s' _ IH E1].
  - unfold sound. rewrite (default_records _ _ _ E1). apply map_Forall_empty.
  - by apply operation_sound.
  - by apply add_sound.
  - unfold sound. by rewrite E1.
Qed.
End History.

(** C17. At any time in the life of a client, every record in the caches of a kind was
    either unpacked from data that the node gave or is one that this client added itself
    ([add_*] caches it as it was given); and so is every record that a lookup returns, by
    name, of all names or of the names that select.  The life of a client starts with
    empty caches and consists of the lookups, whether they return, fail or panic, of the
    records put in after a confirmed [add_*] and taken out after a [remove_*], of resets,
    and of anything that leaves the caches of this kind alone. *)
Theorem records_come_from_chain `{FarmEnv} {T} (K : Kind T) `{!KindLaws K} own s :
  history K own s ->
  (forall name r, (K.(store) s).(records).(data) !! name = Some r -> known K own r)
  /\ (forall name r s', get_record K name s = (Some (Ok r), s') -> known K own r)
  /\ (forall m s' name r, get_all K s = (Some (Ok m), s') -> m !! name = Some r -> known K own r)
  /\ (forall selects l s', find_records K selects s = (Some (Ok l), s') -> Forall (known K own) l).
Proof.
  intros Hh. pose proof (history_sound K own s Hh) as Hs. split_and!.
  - intros name r. apply Hs.
  - intros name r s' E1. exact (get_record_known K own name s r s' Hs E1).
  - intros m s' name r E1 Hr. exact (proj2 (get_all_sound K own s _ s' Hs E1) m eq_refl name r Hr).
  - intros selects l s' E1. exact (proj2 (find_records_sound K own selects s _ s' Hs E1) l eq_refl).
Qed.

(** A name that was found is found again with the same record, without another
    question than the time, until the addresses are due to be read again. *)
Theorem second_lookup_is_cached `{FarmEnv} {T} (K : Kind T) `{!KindLaws K} name s r s' :
  get_record K name s = (Some (Ok r), s') -> fresh K s' ->
  get_record K name s' = (Some (Ok r), tick s').
Proof. intros E1 Hf. apply fresh_record; [done | done | by eapply found_record_cached]. Qed.

(** C38. While the addresses are not due to be read again: after an operation that added
    a record and was confirmed, the record is found under its name, and under every name
    that leads to it, without asking the node for it, with the address derived for it;
    after one that removed a full name and was confirmed, that name, and every name that
    leads to it, is not found.  (A name leads to itself, or to the latest version that the
    cache has for it.  What is taken out is the name as it was given: a name without
    version that leads to another is not resolved first, and its record stays.) *)
Theorem added_is_found_removed_is_gone `{FarmEnv} {T} (K : Kind T) `{!KindLaws K} inst w s signature s' :
  fresh K s' ->
  (forall r, after_send inst w (cache_record K r) s = (Some (Ok signature), s') ->
     forall name, resolve K s' name = K.(record_name) r ->
       get_record K name s' = (Some (Ok r), tick s')
       /\ get_ref K name s' = (Some (Ok (find_target_pda K.(storage) (K.(record_name) r)).1), tick s'))
  /\ (forall removed, after_send inst w (forget_record K removed) s = (Some (Ok signature), s') ->
     forall name, resolve K s' name = removed ->
       get_record K name s' = (Some (Err (not_found K name)), tick s')).
Proof.
  intros Hf. split.
  - intros r (s1 & [Er Ek]%(changed_store K))%after_send_inv name Hname. split.
    + apply fresh_record; [done..|]. rewrite Hname, Er. apply lookup_insert_eq.
    + apply fresh_ref; [done..|]. rewrite Hname, Ek. apply lookup_insert_eq.
  - intros removed (s1 & [Er Ek]%(changed_store K))%after_send_inv name <-.
    apply fresh_not_found; [done..| |]; rewrite ?Er, ?Ek; apply lookup_delete_eq.
Qed.

(** [reset_cache] does not reset the farms: their records and addresses stay, but
    the names without version are forgotten, and nothing reads them again before the
    addresses are due.  Until then a farm is not found under such a name. *)
Theorem reset_cache_loses_farm_names `{FarmEnv} s s' name :
  reset_cache s = (Some tt, s') -> fresh FarmKind s' ->
  (farms s').(records) = (farms s).(records) /\ (farms s').(refs) = (farms s).(refs)
  /\ ((farms s).(refs).(data) !! name = None -> (farms s).(records).(data) !! name = None ->
      get_farm name s' = (Some (Err (not_found FarmKind name)), tick s')).
Proof.
  intros E1%reset_cache_farms Hf. rewrite E1. split_and!; [done..|]. intros Hk Hr.
  assert (resolve FarmKind s' name = name) as Hname by (unfold resolve; simpl; by rewrite E1).
  apply fresh_not_found; rewrite ?Hname; [exact _ | done | |]; simpl; by rewrite E1.
Qed.

(** ** Instances *)

Section ChainInstance.

#[local] Instance db_profile : Profile := (sample_env confirming).(env_profile).
#[local] Instance db_utf8 : Utf8 := (sample_env confirming).(env_utf8).

(** The database of tokens of a node that holds one token at the address 201. *)
Definition token_db : list Z :=
  let r := {| r_index := None; r_counter := 0; r_tag := 0; r_name := str "SOL"; r_reference := RefPubkey 201 |} in
  snd ((_ <-! RefDB.init (str "Token") RtPubkey ;; RefDB.write r) (replicate 373 0)).

Definition token_node : Rpc :=
  let node := sample_node confirming in {|
  system_time := node.(system_time); get_account := node.(get_account);
  get_account_data := fun k _ => Ok (if k =? 201 then token_bytes else token_db);
  get_multiple_accounts := node.(get_multiple_accounts);
  rpc_token_account_balance := node.(rpc_token_account_balance);
  rpc_token_supply := node.(rpc_token_supply);
  rpc_token_accounts_by_owner := node.(rpc_token_accounts_by_owner);
  get_balance := node.(get_balance);
  get_minimum_balance_for_rent_exemption := node.(get_minimum_balance_for_rent_exemption);
  get_fee_for_message := node.(get_fee_for_message); get_program_accounts := node.(get_program_accounts);
  rpc_get_slot := node.(rpc_get_slot); get_latest_blockhash := node.(get_latest_blockhash);
  is_blockhash_valid := node.(is_blockhash_valid);
  send_and_confirm_transaction := node.(send_and_confirm_transaction);
  confirm_transaction := node.(confirm_transaction) |}.

#[local] Instance token_env : FarmEnv :=
  let env := sample_env confirming in {|
  env_profile := env.(env_profile); env_utf8 := env.(env_utf8); env_pow := env.(env_pow);
  env_oracle := env.(env_oracle); env_ids := env.(env_ids); env_runtime := env.(env_runtime);
  env_spl_token := env.(env_spl_token); env_system := env.(env_system); env_hash := env.(env_hash);
  env_rpc := token_node; env_libs := env.(env_libs) |}.

(** A client is made, reads the token from the node and then adds one of its own. *)
Definition made_client : FarmClient :=
  match fst (default_client sample_client) with Some c => c | None => sample_client end.

Definition two_tokens : FarmClient :=
  snd (cache_record TokenKind fund_token (snd (get_token (str "SOL") made_client))).

Lemma records_come_from_chain_witness :
  fst (get_token (str "SOL") made_client) = Some (Ok sol)
  /\ fst (get_token (str "SOL") two_tokens) = Some (Ok sol) /\ known TokenKind [fund_token] sol
  /\ fst (get_token fund_token.(Token.name) two_tokens) = Some (Ok fund_token)
  /\ known TokenKind [fund_token] fund_token.
Proof.
  assert (history TokenKind [fund_token] two_tokens) as Hs.
  { apply history_add, history_operation; [|apply op_record].
    apply (history_start _ sample_client _ (snd (default_client sample_client))).
    unfold made_client. rewrite (surjective_pairing (default_client _)) at 1. f_equal. }
  destruct (records_come_from_chain TokenKind [fund_token] two_tokens Hs) as (_ & Hget & _).
  assert (forall name r, fst (get_token name two_tokens) = Some (Ok r) -> known TokenKind [fund_token] r) as Hknown.
  { intros name r E1. apply (Hget name r (snd (get_token name two_tokens))).
    change (get_token name two_tokens = (Some (Ok r), snd (get_token name two_tokens))).
    rewrite <- E1. apply surjective_pairing. }
  assert (fst (get_token (str "SOL") two_tokens) = Some (Ok sol)) as E1 by (vm_compute; reflexivity).
  assert (fst (get_token fund_token.(Token.name) two_tokens) = Some (Ok fund_token)) as E2
    by (vm_compute; reflexivity).
  split_and!; [vm_compute; reflexivity | exact E1 | exact (Hknown _ _ E1) | exact E2 | exact (Hknown _ _ E2)].
Defined.
End ChainInstance.

#[local] Instance sample_cache_env : FarmEnv := sample_env confirming.

(** Of two versions the third is newer than the first. *)
Definition two_versions : gmap (list Z) Z := {[str "RDM.A-B-V1" := 1; str "RDM.A-B-V3" := 2]}.

Lemma latest_is_newest_witness :
  reinsert_latest_versions two_versions ∅ tt = (Some {[str "RDM.A-B" := str "RDM.A-B-V3"]}, tt)
  /\ forall full' v', is_Some (two_versions !! full') ->
       versioned_as (S := unit) full' (str "RDM.A-B") v' -> v' <= 3.
Proof.
  assert (reinsert_latest_versions two_versions ∅ tt = (Some {[str "RDM.A-B" := str "RDM.A-B-V3"]}, tt)) as E1
    by (vm_compute; reflexivity).
  split; [exact E1|]. intros full' v' Hin Hv.
  destruct (latest_is_newest _ _ _ _ _ E1 (str "RDM.A-B")) as [(full & v & E2 & _ & Hfull & Hmax)|[Hno _]].
  - rewrite lookup_singleton_eq in E2. injection E2 as <-. etrans; [by eapply Hmax|].
    assert (versioned_as (S := unit) (str "RDM.A-B-V3") (str "RDM.A-B") 3) as H3
      by (exists tt, tt; vm_compute; reflexivity).
    destruct (versioned_as_inj _ _ _ _ _ Hfull H3) as [_ ->]. done.
  - exfalso. exact (Hno full' v' Hin Hv).
Defined.

(** A pool that is found by the name without version, and the client afterwards. *)
Definition client_with_ray_sol : FarmClient := snd (get_pool (str "RDM.RAY-SOL") sample_client).

Lemma second_lookup_is_cached_witness :
  get_pool (str "RDM.RAY-SOL") client_with_ray_sol = (Some (Ok ray_sol), tick client_with_ray_sol).
Proof.
  apply (second_lookup_is_cached PoolKind (str "RDM.RAY-SOL") sample_client).
  - vm_compute. reflexivity.
  - split; [by apply (bool_decide_unpack _); vm_compute | vm_compute; intros [_ []]; reflexivity].
Defined.

(** A new version of the pool is added. *)
Definition ray_sol_v2 : Pool := {|
  Pool.name := str "RDM.RAY-SOL-V2"; Pool.version := 2; Pool.pool_type := Pool.Amm; Pool.official := true;
  Pool.refdb_index := None; Pool.refdb_counter := 0; Pool.token_a_ref := Some 202;
  Pool.token_b_ref := Some 201; Pool.lp_token_ref := Some 203; Pool.token_a_account := Some 301;
  Pool.token_b_account := Some 302; Pool.router_program_id := 303; Pool.pool_program_id := 304;
  Pool.route := Pool.Orca 310 311 312 |}.

Lemma added_is_found_removed_is_gone_witness :
  let s' := snd (add_pool 3 ray_sol_v2 sample_client) in
  let s'' := snd (remove_pool 3 (str "RDM.RAY-SOL-V2") s') in
  (fst (add_pool 3 ray_sol_v2 sample_client) = Some (Ok 7000)
   /\ get_pool (str "RDM.RAY-SOL") s' = (Some (Ok ray_sol_v2), tick s'))
  /\ (exists signature, fst (remove_pool 3 (str "RDM.RAY-SOL-V2") s') = Some (Ok signature))
  /\ get_pool (str "RDM.RAY-SOL-V2") s'' = (Some (Err (not_found PoolKind (str "RDM.RAY-SOL-V2"))), tick s'').
Proof.
  intros s' s''. split_and!; [vm_compute; reflexivity | | eexists; vm_compute; reflexivity |].
  - assert (fresh PoolKind s') as Hf.
    { split; [by apply (bool_decide_unpack _); vm_compute | vm_compute; intros [_ []]; reflexivity]. }
    assert (add_pool 3 ray_sol_v2 sample_client = (Some (Ok 7000), s')) as E1
      by (rewrite (surjective_pairing (add_pool _ _ _)); f_equal; vm_compute; reflexivity).
    apply st_try_inv in E1 as (inst & s1 & _ & E1).
    apply (proj1 (added_is_found_removed_is_gone PoolKind inst 3 s1 7000 s' Hf) ray_sol_v2 E1).
    vm_compute. reflexivity.
  - assert (fresh PoolKind s'') as Hf.
    { split; [by apply (bool_decide_unpack _); vm_compute | vm_compute; intros [_ []]; reflexivity]. }
    assert (exists signature, remove_pool 3 (str "RDM.RAY-SOL-V2") s' = (Some (Ok signature), s''))
      as [signature E1]
      by (eexists; rewrite (surjective_pairing (remove_pool _ _ _)); f_equal; vm_compute; reflexivity).
    apply st_try_inv in E1 as (inst & s1 & _ & E1).
    apply (proj2 (added_is_found_removed_is_gone PoolKind inst 3 s1 signature s'' Hf) _ E1).
    vm_compute. reflexivity.
Defined.

(** A farm is found under its name without version, and after a reset it is not. *)
Lemma reset_cache_loses_farm_names_witness :
  let s' := snd (reset_cache sample_client) in
  fst (get_farm (str "RDM.RAY-SOL") sample_client) = Some (Ok ray_farm)
  /\ fst (get_farm (str "RDM.RAY-SOL") s') = Some (Err (not_found FarmKind (str "RDM.RAY-SOL"))).
Proof.
  intros s'. split; [vm_compute; reflexivity|].
  assert (reset_cache sample_client = (Some tt, s')) as E1 by (vm_compute; reflexivity).
  assert (fresh FarmKind s') as Hf.
  { split; [by apply (bool_decide_unpack _); vm_compute | vm_compute; intros [_ []]; reflexivity]. }
  rewrite (proj2 (proj2 (reset_cache_loses_farm_names _ _ (str "RDM.RAY-SOL") E1 Hf)));
    [reflexivity | vm_compute; reflexivity..].
Defined.
