(* ===== verification/ClientDataFacts.v ===== *)
(** * What the instructions of the farm client carry

    The data of the pool, farm and vault instructions unpacks, with the unpacking of the
    on-chain programs, to the operation that was asked for, with amounts in the units of
    the tokens that the client's look-ups give; what a fund does in its own name is that
    instruction for the fund's authority, behind the fund's tag and accounts. *)

From Stdlib Require Import String.
From S2P Require Import Prelude MachineInt Float64 Amounts Pack RefDB AmmInstruction VaultInstruction Token Pool Farm Vault Fund FundInstruction RefDbInstruction MainInstruction CodecSpec SdkAccount Multisig Cpi Oracle ClientNames Client ClientReads ClientPool ClientFarm ClientVault ClientFund ClientRouter ClientChecks ClientPlans ClientSigners ClientSamples.

#[local] Set Default Proof Using "Type*".

(** [num_traits] casts a float to a [u64]. *)
Class CastToU64 `{FarmEnv} : Prop := num_cast_range : forall x z, num_cast_u64 x = Some z -> is_u64 z.

Section Data.
Context `{FE : FarmEnv, !CastToU64}.

Lemma conversion_range x decimals : returns is_u64 (ui_amount_to_tokens_with_decimals x decimals).
Proof.
  unfold ui_amount_to_tokens_with_decimals. case_match; [by apply returns_ok|].
  apply returns_try_any. intros m. apply returns_program. intros a. unfold checked_float_as_u64.
  case_match eqn:E1; [|done]. intros [= <-]. by eapply num_cast_range.
Qed.

(** ** The data of an instruction *)

Lemma packed_amm (amm : AmmInstruction) :
  valid_amm amm -> returns (fun d => unpack_amm d = Ok amm) (packed (S := FarmClient) (AmmInstruction.to_vec amm)).
Proof using Type.
  intros Hv. assert (exists bytes, AmmInstruction.to_vec amm = Some (Ok bytes) /\ length bytes = AmmInstruction.get_size amm
    /\ unpack_amm bytes = Ok amm) as (bytes & -> & _ & E1)
    by exact (to_vec_roundtrip (valid := valid_amm) AmmInstruction.MAX_LEN InvalidInstructionData amm Hv (amm_size_max amm)).
  apply returns_program. by intros d [= <-].
Qed.

Lemma packed_vault (v : VaultInstruction) :
  valid_vault_instruction v -> returns (fun d => unpack_vault d = Ok v) (packed (S := FarmClient) (VaultInstruction.to_vec v)).
Proof using Type.
  intros Hv. assert (exists bytes, VaultInstruction.to_vec v = Some (Ok bytes) /\ length bytes = vault_size v
    /\ unpack_vault bytes = Ok v) as (bytes & -> & _ & E1)
    by exact (to_vec_roundtrip (valid := valid_vault_instruction) VaultInstruction.MAX_LEN InvalidInstructionData v Hv (vault_size_max v)).
  apply returns_program. by intros d [= <-].
Qed.

Lemma packed_fund (f : FundInstruction) :
  valid_fund_instruction f -> returns (fun d => unpack_fund_instruction d = Ok f) (packed (S := FarmClient) (FundInstruction.to_vec f)).
Proof using Type.
  intros Hv. assert (exists bytes, FundInstruction.to_vec f = Some (Ok bytes) /\ length bytes = fund_size f
    /\ unpack_fund_instruction bytes = Ok f) as (bytes & -> & _ & E1)
    by exact (to_vec_roundtrip (valid := valid_fund_instruction) FundInstruction.MAX_LEN InvalidInstructionData f Hv (fund_size_max f)).
  apply returns_program. by intros d [= <-].
Qed.

Lemma packed_same (o : option (result ProgramError (list Z))) c d c' :
  packed (S := FarmClient) o c = (Some (Ok d), c') -> c' = c /\ o = Some (Ok d).
Proof using Type. destruct o as [[b|e]|]; by intros [= <- <-]. Qed.
End Data.

(** ** What is read on the way *)

Section Reads.
Context `{FE : FarmEnv}.

(** The look-ups of the client. *)
Inductive lookup : forall {A}, Client A -> Prop :=
| look_record T (K : Kind T) name : lookup (get_record K name)
| look_ref T (K : Kind T) name : lookup (get_ref K name)
| look_by_ref T (K : Kind T) key : lookup (get_by_ref K key)
| look_token ref : lookup (get_token_by_ref_from_cache ref)
| look_pools p t u : lookup (find_pools p t u)
| look_reverse name t : lookup (pool_has_reverse_tokens name t)
| look_user_info w name : lookup (get_vault_user_info_account w name).

(** Look-ups alone lead from [s] to [c]. *)
Inductive looks_up (s : FarmClient) : FarmClient -> Prop :=
| looks_none : looks_up s s
| looks_more A (m : Client A) a c c' :
    looks_up s c -> lookup m -> m c = (Some (Ok a), c') -> looks_up s c'.

(** [m] returns [a] after look-ups from [s]. *)
Definition reads (s : FarmClient) {A} (m : Client A) (a : A) : Prop :=
  exists c c', looks_up s c /\ m c = (Some (Ok a), c').
End Reads.

(** The next call of a run, which is a look-up if it can be one. *)
Ltac run_step :=
  match goal with
  | H : st_unwrap ?o _ = (Some _, _) |- _ =>
      let Eo := fresh "Eo" in destruct o eqn:Eo; [injection H as <- <- | discriminate H]
  | H : st_ok _ _ = (Some (Ok _), _) |- _ => injection H as <- <-
  | H : st_assert ?b _ = (Some _, _) |- _ => destruct b; [injection H as _ <- | discriminate H]
  | H : packed _ _ = (Some (Ok _), _) |- _ => apply packed_same in H as [-> H]
  | H : st_bind _ _ _ = (Some (Ok _), _) |- _ =>
      let a := fresh "a" in let c := fresh "c" in let E := fresh "E" in
      apply st_bind_inv in H as (a & c & E & H); cbv beta in H
  | H : st_try _ _ _ = (Some (Ok _), _) |- _ =>
      let a := fresh "a" in let c := fresh "c" in let E := fresh "E" in
      apply st_try_inv in H as (a & c & E & H); cbv beta in H;
      try lazymatch type of E with
      | _ ?c0 = _ =>
          match goal with
          | Hl : looks_up ?s c0 |- _ =>
              let Hl' := fresh "Hl" in
              assert (looks_up s c) as Hl' by (refine (looks_more s _ _ _ _ _ Hl _ E); constructor)
          end
      end
  end.

(** Every look-up was read. *)
Ltac was_read := eexists _, _; split; [| eassumption]; eassumption.

(** ** Pool, farm and vault instructions *)

Section Operations.
Context `{FE : FarmEnv, !CastToU64}.

(** [a] is the amount [x] in the units of the token. *)
Definition converted (x : f64) (token : option Token) (a : Z) : Prop :=
  is_u64 a /\ exists c c', to_token_amount_option x token c = (Some (Ok a), c').

Lemma run_converted x token c a c' :
  to_token_amount_option x token c = (Some (Ok a), c') -> converted x token a.
Proof.
  intros E1. split; [|eauto]. destruct token as [t|]; [|done].
  exact (conversion_range _ _ _ _ _ E1).
Qed.

(** The operations for a pool, a farm and a vault, from a state of the client: with the
    tokens that its records give. *)
Definition adds name x y (s : FarmClient) (i : AmmInstruction) : Prop :=
  exists p ta tb a b, reads s (get_pool name) p
    /\ reads s (get_token_by_ref_from_cache p.(Pool.token_a_ref)) ta
    /\ reads s (get_token_by_ref_from_cache p.(Pool.token_b_ref)) tb
    /\ converted x ta a /\ converted y tb b /\ i = AmmInstruction.AddLiquidity a b.

Definition removes name x (s : FarmClient) (i : AmmInstruction) : Prop :=
  exists p t a, reads s (get_pool name) p
    /\ reads s (get_token_by_ref_from_cache p.(Pool.lp_token_ref)) t
    /\ converted x t a /\ i = AmmInstruction.RemoveLiquidity a.

(** From the first token of the newest pool to the second, or the other way. *)
Definition swaps protocol t u x y (s : FarmClient) (i : AmmInstruction) : Prop :=
  exists pools p reverse ta tb a b, reads s (find_pools protocol t u) pools /\ pools !! 0%nat = Some p
    /\ reads s (pool_has_reverse_tokens p.(Pool.name) t) reverse
    /\ reads s (get_token_by_ref_from_cache p.(Pool.token_a_ref)) ta
    /\ reads s (get_token_by_ref_from_cache p.(Pool.token_b_ref)) tb
    /\ converted x (if reverse then tb else ta) a /\ converted y (if reverse then ta else tb) b
    /\ i = if reverse then AmmInstruction.Swap 0 a b else AmmInstruction.Swap a 0 b.

Definition farms_lp name x (op : Z -> AmmInstruction) (s : FarmClient) (i : AmmInstruction) : Prop :=
  exists f t a, reads s (get_farm name) f
    /\ reads s (get_token_by_ref_from_cache f.(Farm.lp_token_ref)) t /\ converted x t a /\ i = op a.

(** The pool that the strategy of a vault uses. *)
Definition strategy_pool (strategy : Vault.VaultStrategy) : option Z :=
  match strategy with
  | Vault.StakeLpCompoundRewards _ _ pool_ref _ _ _ _ _ _ _ _ _ _ _ _ => Some pool_ref
  | _ => None
  end.

Definition vault_pool name (s : FarmClient) (p : Pool) : Prop :=
  exists v pool_ref, reads s (get_vault name) v /\ strategy_pool v.(Vault.strategy) = Some pool_ref
    /\ reads s (get_pool_by_ref pool_ref) p.

Definition vault_adds name x y (s : FarmClient) (i : VaultInstruction) : Prop :=
  exists p ta tb a b, vault_pool name s p
    /\ reads s (get_token_by_ref_from_cache p.(Pool.token_a_ref)) ta
    /\ reads s (get_token_by_ref_from_cache p.(Pool.token_b_ref)) tb
    /\ converted x ta a /\ converted y tb b /\ i = VaultInstruction.AddLiquidity a b.

Definition vaults_lp name x (op : Z -> VaultInstruction) (s : FarmClient) (i : VaultInstruction) : Prop :=
  exists p t a, vault_pool name s p
    /\ reads s (get_token_by_ref_from_cache p.(Pool.lp_token_ref)) t /\ converted x t a /\ i = op a.

Definition vault_unlocks name x (s : FarmClient) (i : VaultInstruction) : Prop :=
  exists v t a, reads s (get_vault name) v
    /\ reads s (get_token_by_ref_from_cache (Some v.(Vault.vault_token_ref))) t
    /\ converted x t a /\ i = VaultInstruction.UnlockLiquidity a.

(** Run from [s], [m] returns an instruction whose data unpacks to an operation that [Op]
    allows from [s]. *)
Definition amm_run (Op : FarmClient -> AmmInstruction -> Prop) (m : Client Instruction) : Prop :=
  forall s i s', m s = (Some (Ok i), s') ->
    exists amm, Op s amm /\ valid_amm amm /\ unpack_amm i.(Cpi.data) = Ok amm.

Definition vault_run (Op : FarmClient -> VaultInstruction -> Prop) (m : Client Instruction) : Prop :=
  forall s i s', m s = (Some (Ok i), s') ->
    exists v, Op s v /\ valid_vault_instruction v /\ unpack_vault i.(Cpi.data) = Ok v.

Lemma unpacks_amm amm d : valid_amm amm -> AmmInstruction.to_vec amm = Some (Ok d) -> unpack_amm d = Ok amm.
Proof using Type.
  intros Hv E1. pose proof (packed_amm amm Hv sample_client (Ok d) sample_client) as Hp.
  unfold packed in Hp. rewrite E1 in Hp. by apply Hp.
Qed.

Lemma unpacks_vault v d :
  valid_vault_instruction v -> VaultInstruction.to_vec v = Some (Ok d) -> unpack_vault d = Ok v.
Proof using Type.
  intros Hv E1. pose proof (packed_vault v Hv sample_client (Ok d) sample_client) as Hp.
  unfold packed in Hp. rewrite E1 in Hp. by apply Hp.
Qed.

Ltac in_u64 :=
  cbn [valid_amm valid_vault_instruction]; repeat match goal with |- _ /\ _ => split end;
  first [done | match goal with H : to_token_amount_option _ _ _ = _ |- _ => exact (proj1 (run_converted _ _ _ _ _ H)) end].

(** Closes an operation from the calls of a run. *)
Ltac operation :=
  first [ was_read | eassumption | eapply run_converted; eassumption | reflexivity ].

Ltac run_from_start :=
  let s := fresh "s" in let i := fresh "i" in let s' := fresh "s'" in let E := fresh "E" in
  intros s i s' E; pose proof (looks_none s);
  lazymatch type of E with ?m _ = _ => let h := get_head m in unfold h in E end;
  repeat run_step.

Ltac amm_operation :=
  run_from_start; eexists; split; [|split; [|apply unpacks_amm; [|eassumption]]; in_u64].

Lemma add_liquidity_pool_run w name x y :
  amm_run (adds name x y) (new_instruction_add_liquidity_pool w name x y).
Proof.
  amm_operation.
  eexists _, _, _, _, _. split_and!; operation.
Qed.

Lemma remove_liquidity_pool_run w name x :
  amm_run (removes name x) (new_instruction_remove_liquidity_pool w name x).
Proof.
  amm_operation.
  eexists _, _, _. split_and!; operation.
Qed.

Lemma stake_run w name x : amm_run (farms_lp name x AmmInstruction.Stake) (new_instruction_stake w name x).
Proof.
  amm_operation.
  eexists _, _, _. split_and!; operation.
Qed.

Lemma unstake_run w name x : amm_run (farms_lp name x AmmInstruction.Unstake) (new_instruction_unstake w name x).
Proof. amm_operation. eexists _, _, _. split_and!; operation. Qed.

Lemma harvest_run w name : amm_run (fun _ => eq AmmInstruction.Harvest) (new_instruction_harvest w name).
Proof. amm_operation. reflexivity. Qed.

Lemma user_init_run w name : amm_run (fun _ => eq AmmInstruction.UserInit) (new_instruction_user_init w name).
Proof. amm_operation. reflexivity. Qed.

Lemma swap_run w protocol t u x y :
  amm_run (swaps protocol t u x y) (new_instruction_swap w protocol t u x y).
Proof.
  run_from_start.
  match goal with Hr : pool_has_reverse_tokens _ _ _ = (Some (Ok ?r), _) |- _ => rename r into reverse end.
  assert (forall x token token' c a c',
    (if reverse then to_token_amount_option x token else to_token_amount_option x token') c = (Some (Ok a), c') ->
    converted x (if reverse then token else token') a) as Hconv
    by (clear - H; destruct reverse; intros ? ? ? ? ? ? E1; exact (run_converted _ _ _ _ _ E1)).
  apply Hconv in E4, E5. eexists (if reverse then _ else _). split.
  - eexists _, _, reverse, _, _, _, _. split_and!; first [operation | exact E4 | exact E5].
  - assert (valid_amm (if reverse then AmmInstruction.Swap 0 a3 a4 else AmmInstruction.Swap a3 0 a4)) as Hv
      by (destruct reverse; cbn; split_and!; first [done | apply E4 | apply E5]).
    split; [exact Hv | by apply unpacks_amm].
Qed.

(** A vault instruction is listed for the strategy of the vault and the route of its
    pool. *)
Ltac vault_step :=
  first
    [ run_step
    | match goal with
      | H : (match ?x with _ => _ end) _ = (Some _, _) |- _ =>
          let Em := fresh "Em" in destruct x eqn:Em; try discriminate H
      | H : ?m _ = (Some (Ok (_, _)), _) |- _ => let h := get_head m in progress unfold h in H
      end ].

Ltac vault_operation :=
  run_from_start; repeat vault_step;
  (eexists; split; [|split; [|apply unpacks_vault; [|eassumption]]; in_u64]).

Ltac vault_pool_read :=
  eexists _, _; split; [| split; [| was_read]];
  [| match goal with Em : Vault.strategy _ = _ |- _ => exact (f_equal strategy_pool Em) end];
  was_read.

Lemma unlock_liquidity_vault_run w name x :
  vault_run (vault_unlocks name x) (new_instruction_unlock_liquidity_vault w name x).
Proof.
  vault_operation. all: eexists _, _, _; split_and!; operation.
Qed.

Lemma lock_liquidity_vault_run w name x :
  vault_run (vaults_lp name x VaultInstruction.LockLiquidity) (new_instruction_lock_liquidity_vault w name x).
Proof.
  vault_operation. all: eexists _, _, _; (split_and!; [| operation..]); vault_pool_read.
Qed.

Lemma remove_liquidity_vault_run w name x :
  vault_run (vaults_lp name x VaultInstruction.RemoveLiquidity) (new_instruction_remove_liquidity_vault w name x).
Proof.
  vault_operation. all: eexists _, _, _; (split_and!; [| operation..]); vault_pool_read.
Qed.

Lemma add_liquidity_vault_run w name x y :
  vault_run (vault_adds name x y) (new_instruction_add_liquidity_vault w name x y).
Proof.
  vault_operation. all: eexists _, _, _, _, _; (split_and!; [| operation..]); vault_pool_read.
Qed.

Lemma user_init_vault_run w name :
  vault_run (fun _ => eq VaultInstruction.UserInit) (new_instruction_user_init_vault w name).
Proof.
  vault_operation. all: reflexivity.
Qed.
End Operations.

(** ** Behind the tag of a fund *)

Section Delegation.
Context `{FE : FarmEnv, !CastToU64}.

(** The fund's instruction for a protocol. *)
Definition amm_behind (p : Protocol) (i : AmmInstruction) : option FundInstruction :=
  match p with
  | ClientNames.Raydium => Some (AmmInstructionRaydium i)
  | ClientNames.Orca => Some (AmmInstructionOrca i)
  | Saber => None
  end.

Definition vault_behind (p : Protocol) (i : VaultInstruction) : option FundInstruction :=
  match p with
  | ClientNames.Raydium => Some (VaultInstructionRaydium i)
  | ClientNames.Orca => Some (VaultInstructionOrca i)
  | Saber => None
  end.

(** What an operation needs of the accounts of the fund. *)
Record Needs := { authority_writable : bool; custody_writable : bool; needs_sysvar : bool }.

Definition amm_needs (i : AmmInstruction) : Needs :=
  match i with
  | AmmInstruction.UserInit => Build_Needs true false false
  | AmmInstruction.AddLiquidity _ _ | AmmInstruction.RemoveLiquidity _ => Build_Needs false true false
  | AmmInstruction.Swap _ _ _ => Build_Needs false false true
  | _ => Build_Needs false false false
  end.

Definition vault_needs (i : VaultInstruction) : Needs :=
  match i with
  | VaultInstruction.UserInit => Build_Needs true false false
  | VaultInstruction.AddLiquidity _ _ | VaultInstruction.RemoveLiquidity _ => Build_Needs false true false
  | _ => Build_Needs false false false
  end.

Definition meta (b : bool) (k : Z) : AccountMeta := if b then writable k else readonly k.

(** From [s], [i] is the instruction of the fund for [inner]: it is of the fund's program,
    carries [tag] of the protocol of the name, and its accounts are the administrator,
    who signs, the fund, its authority, the program of [inner] and the fund's account for
    the name, and then the accounts of [inner] in their order without the first. *)
Definition wraps (w : Z) (fund name : Name) (kind : FundVaultType) (inner : Instruction)
    (tag : Protocol -> option FundInstruction) (n : Needs) (s : FarmClient) (i : Instruction) : Prop :=
  exists f c1 ref c2 p c3 custody c4 t,
    get_fund fund s = (Some (Ok f), c1) /\ get_fund_ref fund c1 = (Some (Ok ref), c2)
    /\ get_protocol name c2 = (Some (Ok p), c3)
    /\ get_fund_vault_account fund name kind c3 = (Some (Ok custody), c4)
    /\ tag p = Some t /\ unpack_fund_instruction i.(Cpi.data) = Ok t
    /\ i.(Cpi.program_id) = f.(Fund.fund_program_id)
    /\ i.(Cpi.accounts) =
         [signer w; readonly ref; writable f.(Fund.info_account);
          meta n.(authority_writable) f.(Fund.fund_authority); readonly inner.(Cpi.program_id);
          meta n.(custody_writable) custody]
         ++ drop 1 inner.(Cpi.accounts)
         ++ (if n.(needs_sysvar) then [readonly instructions_sysvar] else []).

(** From [s], [i] is the instruction of the fund for what [build] returns for its
    authority, which carries an operation that [Op] allows. *)
Definition delegates {I} (w : Z) (fund : Name) (named : Client Name) (kind : FundVaultType)
    (build : Z -> Client Instruction) (unpack : list Z -> result ProgramError I)
    (behind : Protocol -> I -> option FundInstruction) (needs : I -> Needs)
    (Op : FarmClient -> I -> Prop) (s : FarmClient) (i : Instruction) : Prop :=
  exists f s1 name s2 inner s3 op,
    get_fund fund s = (Some (Ok f), s1) /\ named s1 = (Some (Ok name), s2)
    /\ build f.(Fund.fund_authority) s2 = (Some (Ok inner), s3)
    /\ Op s2 op /\ unpack inner.(Cpi.data) = Ok op
    /\ wraps w fund name kind inner (fun p => behind p op) (needs op) s3 i.

Lemma packed_fund_run (f : FundInstruction) d :
  valid_fund_instruction f -> FundInstruction.to_vec f = Some (Ok d) -> unpack_fund_instruction d = Ok f.
Proof using Type.
  intros Hv E1. pose proof (packed_fund f Hv sample_client (Ok d) sample_client) as Hp.
  unfold packed in Hp. rewrite E1 in Hp. by apply Hp.
Qed.

Lemma slice_from_inv {A} k (l : list A) (c : FarmClient) l' c' :
  slice_from k l c = (Some l', c') -> l' = drop k l /\ c' = c.
Proof using Type. unfold slice_from. by case_match; intros [= <- <-]. Qed.

Lemma program_inv {A} (r : result ProgramError A) (c : FarmClient) a c' :
  program r c = (Some (Ok a), c') -> r = Ok a /\ c' = c.
Proof using Type. destruct r; by intros [= <- <-]. Qed.

Lemma build_fund_wraps w fund inner name kind amm s i s' :
  valid_amm amm -> unpack_amm inner.(Cpi.data) = Ok amm ->
  build_fund_instruction w fund inner name kind s = (Some (Ok i), s') ->
  wraps w fund name kind inner (fun p => amm_behind p amm) (amm_needs amm) s i.
Proof using Type.
  intros Hv Hun E. unfold build_fund_instruction in E. rewrite Hun in E. repeat run_step.
  apply program_inv in E3 as [[= <-] ->].
  apply slice_from_inv in E6 as [-> ->].
  assert (exists t, amm_behind a1 amm = Some t /\ unpack_fund_instruction a3 = Ok t /\ c3 = c1)
    as (t & Ht & Hd & ->).
  { destruct a1; [| discriminate E4 |]; apply packed_same in E4 as [-> Ed];
      (eexists; split_and!; [reflexivity | by apply packed_fund_run | reflexivity]). }
  assert (exists custody, get_fund_vault_account fund name kind c1 = (Some (Ok custody), c4)
    /\ a4 = meta (custody_writable (amm_needs amm)) custody) as (custody & Hc & ->)
    by (destruct amm; cbn in E5; repeat run_step; by eexists).
  eexists _, _, _, _, _, _, _, _, _. split_and!; try eassumption; [reflexivity|].
  destruct amm; injection E7 as <- _; cbn; by rewrite ?app_nil_r.
Qed.

Lemma build_fund_vault_wraps w fund inner name v s i s' :
  valid_vault_instruction v -> unpack_vault inner.(Cpi.data) = Ok v ->
  build_fund_vault_instruction w fund inner name s = (Some (Ok i), s') ->
  wraps w fund name TypeVault inner (fun p => vault_behind p v) (vault_needs v) s i.
Proof using Type.
  intros Hv Hun E. unfold build_fund_vault_instruction in E. rewrite Hun in E. repeat run_step.
  apply program_inv in E3 as [[= <-] ->]. apply slice_from_inv in E6 as [-> ->].
  assert (exists t, vault_behind a1 v = Some t /\ unpack_fund_instruction a3 = Ok t /\ c3 = c1)
    as (t & Ht & Hd & ->).
  { destruct a1; [| discriminate E4 |]; apply packed_same in E4 as [-> Ed];
      (eexists; split_and!; [reflexivity | by apply packed_fund_run | reflexivity]). }
  assert (exists custody, get_fund_vault_account fund name TypeVault c1 = (Some (Ok custody), c4)
    /\ a4 = meta (custody_writable (vault_needs v)) custody) as (custody & Hc & ->)
    by (destruct v; cbn in E5; repeat run_step; by eexists).
  eexists _, _, _, _, _, _, _, _, _. split_and!; try eassumption; [reflexivity|].
  destruct v; cbn; by rewrite ?app_nil_r.
Qed.

(** The methods that delegate: the instruction for the fund's authority, wrapped. *)
Lemma amm_delegates w fund named kind build Op s i s' :
  (forall authority, amm_run Op (build authority)) ->
  (f <-! get_fund fund ;; name <-! named ;; inner <-! build f.(Fund.fund_authority) ;;
   build_fund_instruction w fund inner name kind) s = (Some (Ok i), s') ->
  delegates w fund named kind build unpack_amm amm_behind amm_needs Op s i.
Proof using Type.
  intros Hbuild E. repeat run_step. destruct (Hbuild _ _ _ _ E2) as (amm & Hop & Hv & Hun).
  eexists _, _, _, _, _, _, _. split_and!; [eassumption.. |]. by eapply build_fund_wraps.
Qed.

Lemma vault_delegates w fund name build Op s i s' :
  (forall authority, vault_run Op (build authority)) ->
  (f <-! get_fund fund ;; inner <-! build f.(Fund.fund_authority) ;;
   build_fund_vault_instruction w fund inner name) s = (Some (Ok i), s') ->
  delegates w fund (st_ok name) TypeVault build unpack_vault vault_behind vault_needs Op s i.
Proof using Type.
  intros Hbuild E. repeat run_step. destruct (Hbuild _ _ _ _ E1) as (v & Hop & Hv & Hun).
  eexists _, _, _, _, _, _, _. split_and!; [eassumption | reflexivity | eassumption.. |].
  by eapply build_fund_vault_wraps.
Qed.

(** Whatever [m] returns, run from any state, delegates. *)
Definition delegates_amm w fund named kind build Op (m : Client Instruction) : Prop :=
  forall s i s', m s = (Some (Ok i), s') ->
    delegates w fund named kind build unpack_amm amm_behind amm_needs Op s i.

Definition delegates_vault w fund name build Op (m : Client Instruction) : Prop :=
  forall s i s', m s = (Some (Ok i), s') ->
    delegates w fund (st_ok name) TypeVault build unpack_vault vault_behind vault_needs Op s i.

(** The name of the pool that a swap uses. *)
Definition swap_pool_name protocol t u : Client Name :=
  pools <-! find_pools protocol t u ;;
  pool <- st_unwrap (pools !! 0%nat) ;;
  st_ok pool.(Pool.name).

Lemma fund_swap_delegates w fund protocol t u x y :
  delegates_amm w fund (swap_pool_name protocol t u) TypePool
    (fun a => new_instruction_swap a protocol t u x y) (swaps protocol t u x y)
    (new_instruction_fund_swap w fund protocol t u x y).
Proof.
  intros s i s' E. refine (amm_delegates w fund _ _ _ _ _ _ _ (fun a => swap_run a _ _ _ _ _) _).
  unfold new_instruction_fund_swap in E. run_step. run_step. run_step. run_step.
  rewrite (st_try_Ok _ _ _ _ _ E0). unfold swap_pool_name. rewrite st_try_assoc, (st_try_Ok _ _ _ _ _ E1), Eo.
  exact E.
Qed.

(** C15. What a fund sends for a pool, a farm or a vault is what the client builds for a
    wallet, in the same run and for the fund's authority, behind the fund's tag.  The
    wallet's instruction carries the operation that was asked for, with the amounts in the
    units of the tokens that the records name.  The fund's instruction is of the fund's
    program and unpacks, as that program unpacks it, to the same operation under the tag of
    the protocol of the name; its accounts are the administrator, who signs, the fund, its
    information and authority, the router's program and the fund's account for the name,
    and then exactly the accounts of the wallet's instruction in their order, without the
    authority that would sign (and the instructions' sysvar for a swap). *)
Theorem fund_delegates_operation w fund name protocol t u x y :
  delegates_amm w fund (st_ok name) TypePool (fun a => new_instruction_add_liquidity_pool a name x y)
    (adds name x y) (new_instruction_fund_add_liquidity_pool w fund name x y)
  /\ delegates_amm w fund (st_ok name) TypePool (fun a => new_instruction_remove_liquidity_pool a name x)
       (removes name x) (new_instruction_fund_remove_liquidity_pool w fund name x)
  /\ delegates_amm w fund (swap_pool_name protocol t u) TypePool
       (fun a => new_instruction_swap a protocol t u x y)
       (swaps protocol t u x y) (new_instruction_fund_swap w fund protocol t u x y)
  /\ delegates_amm w fund (st_ok name) TypeFarm (fun a => new_instruction_stake a name x)
       (farms_lp name x AmmInstruction.Stake) (new_instruction_fund_stake w fund name x)
  /\ delegates_amm w fund (st_ok name) TypeFarm (fun a => new_instruction_unstake a name x)
       (farms_lp name x AmmInstruction.Unstake) (new_instruction_fund_unstake w fund name x)
  /\ delegates_amm w fund (st_ok name) TypeFarm (fun a => new_instruction_harvest a name)
       (fun _ => eq AmmInstruction.Harvest) (new_instruction_fund_harvest w fund name)
  /\ delegates_amm w fund (st_ok name) TypeFarm (fun a => new_instruction_user_init a name)
       (fun _ => eq AmmInstruction.UserInit) (new_instruction_fund_user_init_farm w fund name)
  /\ delegates_vault w fund name (fun a => new_instruction_add_liquidity_vault a name x y)
       (vault_adds name x y) (new_instruction_fund_add_liquidity_vault w fund name x y)
  /\ delegates_vault w fund name (fun a => new_instruction_lock_liquidity_vault a name x)
       (vaults_lp name x VaultInstruction.LockLiquidity) (new_instruction_fund_lock_liquidity_vault w fund name x)
  /\ delegates_vault w fund name (fun a => new_instruction_unlock_liquidity_vault a name x)
       (vault_unlocks name x) (new_instruction_fund_unlock_liquidity_vault w fund name x)
  /\ delegates_vault w fund name (fun a => new_instruction_remove_liquidity_vault a name x)
       (vaults_lp name x VaultInstruction.RemoveLiquidity) (new_instruction_fund_remove_liquidity_vault w fund name x)
  /\ delegates_vault w fund name (fun a => new_instruction_user_init_vault a name)
       (fun _ => eq VaultInstruction.UserInit) (new_instruction_fund_user_init_vault w fund name).
Proof.
  split_and!; try apply fund_swap_delegates; intros s i s' E.
  - exact (amm_delegates _ _ (st_ok name) _ _ _ _ _ _ (fun a => add_liquidity_pool_run a _ _ _) E).
  - exact (amm_delegates _ _ (st_ok name) _ _ _ _ _ _ (fun a => remove_liquidity_pool_run a _ _) E).
  - exact (amm_delegates _ _ (st_ok name) _ _ _ _ _ _ (fun a => stake_run a _ _) E).
  - exact (amm_delegates _ _ (st_ok name) _ _ _ _ _ _ (fun a => unstake_run a _ _) E).
  - exact (amm_delegates _ _ (st_ok name) _ _ _ _ _ _ (fun a => harvest_run a _) E).
  - exact (amm_delegates _ _ (st_ok name) _ _ _ _ _ _ (fun a => user_init_run a _) E).
  - exact (vault_delegates _ _ _ _ _ _ _ _ (fun a => add_liquidity_vault_run a _ _ _) E).
  - exact (vault_delegates _ _ _ _ _ _ _ _ (fun a => lock_liquidity_vault_run a _ _) E).
  - exact (vault_delegates _ _ _ _ _ _ _ _ (fun a => unlock_liquidity_vault_run a _ _) E).
  - exact (vault_delegates _ _ _ _ _ _ _ _ (fun a => remove_liquidity_vault_run a _ _) E).
  - exact (vault_delegates _ _ _ _ _ _ _ _ (fun a => user_init_vault_run a _) E).
Qed.
End Delegation.

(** ** Funds and SOL *)

(** A deposit request of the amount zero, which stands for all the SOL of the
    wallet, never succeeds: to find the fee it makes up a transfer from the wallet to
    itself, which is refused. *)
Theorem deposit_of_all_sol_fails `{FarmEnv} w fund x s l s' :
  f64_eq x f64_zero = true ->
  all_instructions_request_deposit_fund w fund (str "SOL") x s <> (Some (Ok l), s').
Proof.
  intros Hx E1. assert (returns (fun _ => False) (all_instructions_request_deposit_fund w fund (str "SOL") x)) as Hno.
  { unfold all_instructions_request_deposit_fund. apply (returns_try (fun _ => False)); [|done].
    unfold check_fund_accounts. rewrite Hx, bool_decide_eq_true_2 by done. cbn [andb].
    do 4 (refine (returns_try_any _ _ _ _); intros ?). apply (returns_try (fun _ => False)); [|done].
    do 2 (refine (returns_try_any _ _ _ _); intros ?). apply (returns_try (fun _ => False)); [|done].
    unfold new_instruction_transfer. rewrite Z.eqb_refl. apply returns_bail. }
  exact (Hno _ _ _ E1).
Qed.

(** ** Instances *)

#[local] Instance sample_data_env : FarmEnv := sample_env confirming.
#[local] Instance sample_cast : CastToU64.
Proof. intros x z [= <-]. apply f64_as_u64_range. Qed.

(** A fund stakes two LP tokens of six decimals. *)
Lemma fund_delegates_operation_witness :
  exists i s', new_instruction_fund_stake 503 (str "F1") (str "RDM.RAY-SOL-V1") (f64_of_Z 2) sample_client
                 = (Some (Ok i), s')
    /\ unpack_fund_instruction i.(Cpi.data) = Ok (AmmInstructionRaydium (AmmInstruction.Stake 2000000))
    /\ delegates 503 (str "F1") (st_ok (str "RDM.RAY-SOL-V1")) TypeFarm
         (fun a => new_instruction_stake a (str "RDM.RAY-SOL-V1") (f64_of_Z 2)) unpack_amm amm_behind amm_needs
         (farms_lp (str "RDM.RAY-SOL-V1") (f64_of_Z 2) AmmInstruction.Stake) sample_client i.
Proof.
  eexists _, _. split; [vm_compute; reflexivity|]. split; [vm_compute; reflexivity|].
  destruct (fund_delegates_operation 503 (str "F1") (str "RDM.RAY-SOL-V1") ClientNames.Raydium [] [] (f64_of_Z 2)
    f64_zero) as (_ & _ & _ & Hstake & _).
  eapply (Hstake sample_client). vm_compute. reflexivity.
Defined.

Lemma deposit_of_all_sol_fails_witness :
  fst (all_instructions_request_deposit_fund 7 (str "F1") (str "SOL") f64_zero sample_client)
  = Some (Err (ValueError [Text "Source and destination addresses are the same"]))
  /\ forall l s', all_instructions_request_deposit_fund 7 (str "F1") (str "SOL") f64_zero sample_client
                  <> (Some (Ok l), s').
Proof.
  split; [vm_compute; reflexivity|]. intros l s'. apply deposit_of_all_sol_fails. reflexivity.
Defined.
