(* ===== verification/SdkText.v ===== *)
(** * Texts of the SDK

    How the SDK writes its enumerations and reads them back ([Display] and [FromStr]
    in [lib.rs], [fund.rs], [token.rs], [refdb.rs] and so on), the fields of the
    metadata as JSON ([pack.rs]), the texts that [string.rs] writes by hand, the
    addresses derived from those texts ([refdb.rs], [raydium_sdk.rs]), and where in
    its transaction an instruction is ([program/mod.rs]).

    serde's data model is the type [Json]; base58 and the runtime's sysvar are
    interfaces with the laws of their documentation. *)

From Stdlib Require Import String.
From stdpp Require Import pretty.
From S2P Require Import Prelude MachineInt Pack RefDB AmmInstruction VaultInstruction Token Pool Farm Vault Fund FundInstruction RefDbInstruction MainInstruction SdkAccount Cpi ClientNames Client ClientReads ClientRouter.

#[local] Set Default Proof Using "Type*".

(** ** Names of variants *)

(** [str::to_lowercase]: beside the letters of ASCII, the Kelvin sign alone has a
    lower case in ASCII, the letter k.  Other characters stay outside of ASCII, and
    are kept: no text that has one is any of the words below. *)
Fixpoint lowercase_text (s : Name) : Name :=
  match s with
  | 226 :: 132 :: 170 :: s' => 107 :: lowercase_text s'
  | b :: s' => (if (65 <=? b) && (b <=? 90) then b + 32 else b) :: lowercase_text s'
  | [] => []
  end.

(** The arms of a [match] on the lower case of a text. *)
Definition parse_words {T} (words : list (string * T)) (s : Name) : result ProgramError T :=
  match List.find (fun p => bool_decide (lowercase_text s = str p.1)) words with
  | Some (_, x) => Ok x
  | None => Err InvalidArgument
  end.

(** [Display] for an enumeration; no two variants are written alike, even when
    the case is ignored. *)
Class Display (T : Type) := {
  display : T -> string;
  display_inj : forall x y, lowercase_text (str (display x)) = lowercase_text (str (display y)) -> x = y;
}.

(** [FromStr] of the same type: the words are the variants' names in lower case. *)
Class FromStr (T : Type) `{Display T} := {
  words : list (string * T);
  words_of_display : Forall (fun p => str p.1 = lowercase_text (str (display p.2))) words;
  words_complete : forall x, x ∈ words.*2;
}.

Definition from_str {T} `{FromStr T} (s : Name) : result ProgramError T := parse_words words s.

(** Each case of a comparison of two names by computation. *)
Ltac distinct_names := intros [] []; vm_compute; first [reflexivity | discriminate].
Ltac all_words :=
  lazymatch goal with
  | |- Forall _ _ => repeat constructor
  | |- _ => intros []; simpl; set_solver
  end.

Definition fund_asset_type_name (t : FundAssetType) : string :=
  match t with AssetVault => "Vault" | AssetCustody => "Custody" end.
Definition fund_asset_type_words : list (string * FundAssetType) :=
  [("vault", AssetVault); ("custody", AssetCustody)]%string.

Definition fund_custody_type_name (t : FundCustodyType) : string :=
  match t with DepositWithdraw => "DepositWithdraw" | Trading => "Trading" end.
Definition fund_custody_type_words : list (string * FundCustodyType) :=
  [("depositwithdraw", DepositWithdraw); ("trading", Trading)]%string.

Definition fund_vault_type_name (t : FundVaultType) : string :=
  match t with TypePool => "Pool" | TypeFarm => "Farm" | TypeVault => "Vault" end.
Definition fund_vault_type_words : list (string * FundVaultType) :=
  [("pool", TypePool); ("farm", TypeFarm); ("vault", TypeVault)]%string.

Definition token_selector_name (t : TokenSelector) : string :=
  match t with TokenA => "TokenA" | TokenB => "TokenB" end.
Definition token_selector_words : list (string * TokenSelector) :=
  [("tokena", TokenA); ("tokenb", TokenB)]%string.

Definition oracle_type_name (t : OracleType) : string :=
  match t with Pyth => "Pyth" | Chainlink => "Chainlink" | Unsupported => "Unsupported" end.
Definition oracle_type_words : list (string * OracleType) :=
  [("pyth", Pyth); ("chainlink", Chainlink); ("unsupported", Unsupported)]%string.

Definition storage_type_name (t : StorageType) : string :=
  match t with
  | StProgram => "Program" | StFund => "Fund" | StVault => "Vault" | StPool => "Pool"
  | StFarm => "Farm" | StToken => "Token" | StOther => "Other"
  end.
Definition storage_type_words : list (string * StorageType) :=
  [("program", StProgram); ("fund", StFund); ("vault", StVault); ("pool", StPool); ("farm", StFarm);
   ("token", StToken); ("other", StOther)]%string.

Definition program_id_type_name (t : ProgramIDType) : string :=
  match t with
  | PidSystem => "System" | PidProgramsRef => "ProgramsRef" | PidVaultsRef => "VaultsRef"
  | PidVault => "Vault" | PidFarmsRef => "FarmsRef" | PidFarm => "Farm" | PidPoolsRef => "PoolsRef"
  | PidPool => "Pool" | PidTokensRef => "TokensRef" | PidToken => "Token"
  | PidMainRouter => "MainRouter" | PidSerum => "Serum" | PidRaydium => "Raydium"
  | PidSaber => "Saber" | PidOrca => "Orca" | PidFundsRef => "FundsRef" | PidFund => "Fund"
  end.
Definition program_id_type_words : list (string * ProgramIDType) :=
  [("system", PidSystem); ("programsref", PidProgramsRef); ("vaultsref", PidVaultsRef);
   ("vault", PidVault); ("farmsref", PidFarmsRef); ("farm", PidFarm); ("poolsref", PidPoolsRef);
   ("pool", PidPool); ("tokensref", PidTokensRef); ("token", PidToken);
   ("mainrouter", PidMainRouter); ("serum", PidSerum); ("raydium", PidRaydium);
   ("saber", PidSaber); ("orca", PidOrca); ("fundsref", PidFundsRef); ("fund", PidFund)]%string.

#[export] Instance Display_FundAssetType : Display FundAssetType.
Proof. refine {| display := fund_asset_type_name |}; distinct_names. Defined.
#[export] Instance FromStr_FundAssetType : FromStr FundAssetType.
Proof. refine {| words := fund_asset_type_words |}; all_words. Defined.

#[export] Instance Display_FundCustodyType : Display FundCustodyType.
Proof. refine {| display := fund_custody_type_name |}; distinct_names. Defined.
#[export] Instance FromStr_FundCustodyType : FromStr FundCustodyType.
Proof. refine {| words := fund_custody_type_words |}; all_words. Defined.

#[export] Instance Display_FundVaultType : Display FundVaultType.
Proof. refine {| display := fund_vault_type_name |}; distinct_names. Defined.
#[export] Instance FromStr_FundVaultType : FromStr FundVaultType.
Proof. refine {| words := fund_vault_type_words |}; all_words. Defined.

#[export] Instance Display_TokenSelector : Display TokenSelector.
Proof. refine {| display := token_selector_name |}; distinct_names. Defined.
#[export] Instance FromStr_TokenSelector : FromStr TokenSelector.
Proof. refine {| words := token_selector_words |}; all_words. Defined.

#[export] Instance Display_OracleType : Display OracleType.
Proof. refine {| display := oracle_type_name |}; distinct_names. Defined.
#[export] Instance FromStr_OracleType : FromStr OracleType.
Proof. refine {| words := oracle_type_words |}; all_words. Defined.

#[export] Instance Display_StorageType : Display StorageType.
Proof. refine {| display := storage_type_name |}; distinct_names. Defined.
#[export] Instance FromStr_StorageType : FromStr StorageType.
Proof. refine {| words := storage_type_words |}; all_words. Defined.

#[export] Instance Display_ProgramIDType : Display ProgramIDType.
Proof. refine {| display := program_id_type_name |}; distinct_names. Defined.
#[export] Instance FromStr_ProgramIDType : FromStr ProgramIDType.
Proof. refine {| words := program_id_type_words |}; all_words. Defined.

Lemma from_str_words {T} `{FromStr T} s x : from_str s = Ok x ->
  lowercase_text s = lowercase_text (str (display x)).
Proof.
  unfold from_str, parse_words. destruct (List.find _ _) as [[w y]|] eqn:E; [|done].
  intros [= <-]. apply find_some in E as [Hin Hs%bool_decide_eq_true].
  pose proof words_of_display as Hw. rewrite Forall_forall in Hw.
  rewrite Hs. by apply (Hw (w, y)), list_elem_of_In.
Qed.

(** Every enumeration that is read from text is read from the name it is written
    with, whatever its case, and from nothing else. *)
Theorem enum_text_reads_back {T} `{FromStr T} (s : Name) (x : T) :
  from_str s = Ok x <-> lowercase_text s = lowercase_text (str (display x)).
Proof.
  split; [apply from_str_words|]. intros Hs.
  unfold from_str, parse_words. destruct (List.find _ _) as [[w y]|] eqn:E.
  - f_equal. apply display_inj. rewrite <- Hs. symmetry. apply from_str_words.
    unfold from_str, parse_words. by rewrite E.
  - pose proof (words_complete x) as Hx. apply list_elem_of_fmap in Hx as ([w y] & -> & Hin).
    pose proof words_of_display as Hw. rewrite Forall_forall in Hw. specialize (Hw _ Hin).
    eapply find_none in E; [|by apply list_elem_of_In].
    simpl in *. rewrite bool_decide_eq_false in E. congruence.
Qed.

(** The Kelvin sign stands for a k. *)
Example kelvin_token : from_str (str "to" ++ [226; 132; 170] ++ str "EN") = Ok StToken.
Proof. reflexivity. Qed.

(** *** Names that are only written *)

Definition token_type_name (t : TokenType) : string :=
  match t with
  | NativeSol => "NativeSol" | WrappedSol => "WrappedSol" | WrappedSollet => "WrappedSollet"
  | WrappedWarmhole => "WrappedWarmhole" | Token.SplToken => "SplToken" | LpToken => "LpToken"
  | VtToken => "VtToken" | FundToken => "FundToken"
  end.

Definition reference_type_name (t : ReferenceType) : string :=
  match t with
  | RtPubkey => "Pubkey" | RtU8 => "U8" | RtU16 => "U16" | RtU32 => "U32" | RtU64 => "U64"
  | RtF64 => "F64" | RtEmpty => "Empty"
  end.

Definition pool_type_name (t : PoolType) : string :=
  match t with Amm => "Amm" | AmmStable => "AmmStable" end.

Definition farm_type_name (t : FarmType) : string :=
  match t with
  | SingleReward => "SingleReward" | DualReward => "DualReward"
  | ProtocolTokenStake => "ProtocolTokenStake"
  end.

Definition vault_type_name (t : VaultType) : string := match t with AmmStake => "AmmStake" end.

Definition vault_strategy_type_name (t : VaultStrategyType) : string :=
  match t with
  | TStakeLpCompoundRewards => "StakeLpCompoundRewards" | TDynamicHedge => "DynamicHedge"
  end.

Definition fund_type_name (t : FundType) : string := match t with General => "General" end.

Definition amm_instruction_name (t : AmmInstructionType) : string :=
  match t with
  | AmmInstruction.TUserInit => "UserInit" | AmmInstruction.TAddLiquidity => "AddLiquidity"
  | AmmInstruction.TRemoveLiquidity => "RemoveLiquidity" | AmmInstruction.TSwap => "Swap" | AmmInstruction.TStake => "Stake"
  | AmmInstruction.TUnstake => "Unstake" | AmmInstruction.THarvest => "Harvest"
  | TWrapToken => "WrapToken"
  | TUnwrapToken => "UnwrapToken"
  end.

Definition refdb_instruction_name (t : RefDbInstructionType) : string :=
  match t with
  | RefDbInstruction.TInit => "Init" | TDrop => "Drop" | TWrite => "Write" | TDelete => "Delete"
  end.

Definition vault_instruction_name (t : VaultInstructionType) : string :=
  match t with
  | VaultInstruction.TUserInit => "UserInit" | VaultInstruction.TAddLiquidity => "AddLiquidity"
  | TLockLiquidity => "LockLiquidity" | TUnlockLiquidity => "UnlockLiquidity"
  | VaultInstruction.TRemoveLiquidity => "RemoveLiquidity"
  | VaultInstruction.TSetAdminSigners => "SetAdminSigners"
  | VaultInstruction.TRemoveMultisig => "RemoveMultisig"
  | TSetMinCrankInterval => "SetMinCrankInterval" | TSetFee => "SetFee"
  | TSetExternalFee => "SetExternalFee" | VaultInstruction.TDisableDeposits => "DisableDeposits"
  | TEnableDeposits => "EnableDeposits" | VaultInstruction.TDisableWithdrawals => "DisableWithdrawals"
  | TEnableWithdrawals => "EnableWithdrawals" | TCrank => "Crank" | VaultInstruction.TInit => "Init"
  | TShutdown => "Shutdown" | VaultInstruction.TWithdrawFees => "WithdrawFees"
  end.

Definition main_instruction_name (t : MainInstructionType) : string :=
  match t with
  | TAddFund => "AddFund" | TRemoveFund => "RemoveFund" | MainInstruction.TAddVault => "AddVault"
  | MainInstruction.TRemoveVault => "RemoveVault" | TAddPool => "AddPool" | TRemovePool => "RemovePool"
  | TAddFarm => "AddFarm" | TRemoveFarm => "RemoveFarm" | TAddToken => "AddToken"
  | TRemoveToken => "RemoveToken" | TRefDb => "RefDbInstruction"
  | MainInstruction.TSetAdminSigners => "SetAdminSigners"
  | TSetProgramAdminSigners => "SetProgramAdminSigners"
  | TSetProgramSingleAuthority => "SetProgramSingleAuthority" | TUpgradeProgram => "UpgradeProgram"
  end.

Definition fund_instruction_name (t : FundInstructionType) : string :=
  match t with
  | FundInstruction.TUserInit => "UserInit" | TRequestDeposit => "RequestDeposit"
  | TCancelDeposit => "CancelDeposit" | TRequestWithdrawal => "RequestWithdrawal"
  | TCancelWithdrawal => "CancelWithdrawal" | FundInstruction.TInit => "Init"
  | TSetDepositSchedule => "SetDepositSchedule" | FundInstruction.TDisableDeposits => "DisableDeposits"
  | TApproveDeposit => "ApproveDeposit" | TDenyDeposit => "DenyDeposit"
  | TSetWithdrawalSchedule => "SetWithdrawalSchedule"
  | FundInstruction.TDisableWithdrawals => "DisableWithdrawals"
  | TApproveWithdrawal => "ApproveWithdrawal" | TDenyWithdrawal => "DenyWithdrawal"
  | TLockAssets => "LockAssets" | TUnlockAssets => "UnlockAssets"
  | FundInstruction.TSetAdminSigners => "SetAdminSigners"
  | FundInstruction.TRemoveMultisig => "RemoveMultisig"
  | TSetAssetsTrackingConfig => "SetAssetsTrackingConfig"
  | TUpdateAssetsWithVault => "UpdateAssetsWithVault"
  | TUpdateAssetsWithCustody => "UpdateAssetsWithCustody" | FundInstruction.TAddVault => "AddVault"
  | FundInstruction.TRemoveVault => "RemoveVault" | TAddCustody => "AddCustody"
  | TRemoveCustody => "RemoveCustody" | TStartLiquidation => "StartLiquidation"
  | TStopLiquidation => "StopLiquidation" | FundInstruction.TWithdrawFees => "WithdrawFees"
  | TAmmInstructionRaydium => "AmmInstructionRaydium"
  | TVaultInstructionRaydium => "VaultInstructionRaydium"
  | TAmmInstructionOrca => "AmmInstructionOrca" | TVaultInstructionOrca => "VaultInstructionOrca"
  end.

#[export] Instance Display_TokenType : Display TokenType.
Proof. refine {| display := token_type_name |}; distinct_names. Defined.
#[export] Instance Display_ReferenceType : Display ReferenceType.
Proof. refine {| display := reference_type_name |}; distinct_names. Defined.
#[export] Instance Display_PoolType : Display PoolType.
Proof. refine {| display := pool_type_name |}; distinct_names. Defined.
#[export] Instance Display_FarmType : Display FarmType.
Proof. refine {| display := farm_type_name |}; distinct_names. Defined.
#[export] Instance Display_VaultType : Display VaultType.
Proof. refine {| display := vault_type_name |}; distinct_names. Defined.
#[export] Instance Display_VaultStrategyType : Display VaultStrategyType.
Proof. refine {| display := vault_strategy_type_name |}; distinct_names. Defined.
#[export] Instance Display_FundType : Display FundType.
Proof. refine {| display := fund_type_name |}; distinct_names. Defined.
#[export] Instance Display_AmmInstructionType : Display AmmInstructionType.
Proof. refine {| display := amm_instruction_name |}; distinct_names. Defined.
#[export] Instance Display_RefDbInstructionType : Display RefDbInstructionType.
Proof. refine {| display := refdb_instruction_name |}; distinct_names. Defined.
#[export] Instance Display_VaultInstructionType : Display VaultInstructionType.
Proof. refine {| display := vault_instruction_name |}; distinct_names. Defined.
#[export] Instance Display_MainInstructionType : Display MainInstructionType.
Proof. refine {| display := main_instruction_name |}; distinct_names. Defined.
#[export] Instance Display_FundInstructionType : Display FundInstructionType.
Proof. refine {| display := fund_instruction_name |}; distinct_names. Defined.

(** ** Fields as JSON *)

(** serde's data model, as far as the SDK's fields need it. *)
#[warnings="-register-all"]
Inductive Json :=
| JNull
| JBool (b : bool)
| JInt (z : Z)
| JText (s : Name)
| JList (l : list Json)
| JObject (fields : list (Name * Json)).

(** Base58, for keys. *)
Class KeyText := {
  key_text : Z -> Name;
  key_of_text : Name -> option Z;
}.

(** A key that is written is read back; its text is not empty, and has neither
    quotes nor anything else that JSON escapes. *)
Class KeyTextLaws `{KeyText} := {
  key_text_reads k : key_of_text (key_text k) = Some k;
  key_text_some k : key_text k <> [];
  key_text_plain k : Forall (fun b => 48 <= b <= 122 /\ b <> 92) (key_text k);
}.

(** What reading a field comes to: an error of the deserializer, or a panic where
    the source unwraps one. *)
Inductive Reading (A : Type) := Read (a : A) | Refused | Panicked.
Arguments Read {A} _.
Arguments Refused {A}.
Arguments Panicked {A}.

Section Fields.
Context `{KeyText}.

Definition parse_key (s : Name) : Reading Z :=
  match key_of_text s with Some k => Read k | None => Refused end.

(** [Deserialize::deserialize(deserializer).unwrap()] for a [String]. *)
Definition text_or_panic {A} (v : Json) (k : Name -> Reading A) : Reading A :=
  match v with JText s => k s | _ => Panicked end.

Definition pubkey_serialize (x : Z) : Json := JText (key_text x).

Definition pubkey_deserialize (v : Json) : Reading Z := text_or_panic v parse_key.

Definition optional_pubkey_serialize (x : option Z) : Json :=
  match x with Some key => JText (key_text key) | None => JText [] end.

Definition optional_pubkey_deserialize (v : Json) : Reading (option Z) :=
  text_or_panic v (fun s =>
    match s with
    | [] => Read None
    | _ => match parse_key s with Read k => Read (Some k) | Refused => Refused | Panicked => Panicked end
    end).

Definition pubkey_slice_serialize (x : list Z) : Json := JList (map pubkey_serialize x).

(** [visit_seq]: the elements in their order, up to the first that is no key. *)
Fixpoint visit_seq (l : list Json) (obj : list Z) : Reading (list Z) :=
  match l with
  | [] => Read obj
  | JText key :: l' =>
      match parse_key key with
      | Read k => visit_seq l' (obj ++ [k])
      | Refused => Refused
      | Panicked => Panicked
      end
  | _ :: _ => Refused
  end.

Definition pubkey_slice_deserialize (v : Json) : Reading (list Z) :=
  match v with JList l => visit_seq l [] | _ => Refused end.

Definition as64_serialize (x : ArrayString64) : Json := JText x.

(** Only [visit_str] is given; [try_from_str] refuses what is longer than 64 bytes. *)
Definition as64_deserialize (v : Json) : Reading ArrayString64 :=
  match v with
  | JText s => if (List.length s <=? 64)%nat then Read s else Refused
  | _ => Refused
  end.

Context `{!KeyTextLaws}.

Lemma parse_key_text k : parse_key (key_text k) = Read k.
Proof. unfold parse_key. by rewrite key_text_reads. Qed.

Lemma visit_seq_keys x obj : visit_seq (map pubkey_serialize x) obj = Read (obj ++ x).
Proof.
  revert obj. induction x as [|k x IH]; intros obj; simpl; [by rewrite app_nil_r|].
  by rewrite parse_key_text, IH, <- app_assoc.
Qed.

Lemma optional_key_reads o : optional_pubkey_deserialize (optional_pubkey_serialize o) = Read o.
Proof.
  destruct o as [k|]; [|done]. unfold optional_pubkey_deserialize. simpl.
  pose proof (key_text_some k). destruct (key_text k) eqn:E; [done|].
  by rewrite <- E, parse_key_text.
Qed.

(** A key, an optional key, a list of keys and a name of at most 64 bytes are
    read back from what is written for them, and a longer name is refused. *)
Theorem fields_read_back (k : Z) (o : option Z) (l : list Z) (n : Name) :
  pubkey_deserialize (pubkey_serialize k) = Read k /\
  optional_pubkey_deserialize (optional_pubkey_serialize o) = Read o /\
  pubkey_slice_deserialize (pubkey_slice_serialize l) = Read l /\
  as64_deserialize (as64_serialize n) = if (List.length n <=? 64)%nat then Read n else Refused.
Proof.
  split_and!; [apply parse_key_text | apply optional_key_reads | apply visit_seq_keys | done].
Qed.

(** What is no string is refused in a list, and panics in a field of its own; [null]
    does in an optional field too. *)
Lemma null_key_panics :
  pubkey_deserialize JNull = Panicked /\ optional_pubkey_deserialize JNull = Panicked /\
  pubkey_slice_deserialize (JList [JNull]) = Refused.
Proof. done. Qed.
End Fields.

(** ** JSON by hand *)

(** [serde_json]: what is escaped in a string. *)
Definition quote : Name := [34].

Definition hex_lower (z : Z) : Z := if z <? 10 then 48 + z else 87 + z.

Definition json_escape (b : Z) : Name :=
  if b =? 34 then [92; 34]
  else if b =? 92 then [92; 92]
  else if b =? 8 then str "\b"
  else if b =? 9 then str "\t"
  else if b =? 10 then str "\n"
  else if b =? 12 then str "\f"
  else if b =? 13 then str "\r"
  else if b <? 32 then str "\u00" ++ [hex_lower (b / 16); hex_lower (b mod 16)]
  else [b].

Definition json_string (s : Name) : Name := quote ++ concat (map json_escape s) ++ quote.

Definition decimal_text (z : Z) : Name := str (pretty z).
Definition bool_text (b : bool) : Name := if b then str "true" else str "false".

Fixpoint join (sep : Name) (l : list Name) : Name :=
  match l with
  | [] => []
  | [x] => x
  | x :: l' => x ++ sep ++ join sep l'
  end.

(** [serde_json::to_string]. *)
Fixpoint json_text (v : Json) : Name :=
  match v with
  | JNull => str "null"
  | JBool b => bool_text b
  | JInt z => decimal_text z
  | JText s => json_string s
  | JList l => str "[" ++ join (str ",") (map json_text l) ++ str "]"
  | JObject fields =>
      str "{" ++ join (str ",") (map (fun p => json_string p.1 ++ str ":" ++ json_text p.2) fields) ++ str "}"
  end.

Section ByHand.
Context `{KeyText}.

Definition quoted (s : Name) : Name := quote ++ s ++ quote.

Definition account_text (a : AccountMeta) : Name :=
  str "{" ++ quoted (str "pubkey") ++ str ":" ++ quoted (key_text a.(Cpi.pubkey)) ++ str "," ++
  quoted (str "is_signer") ++ str ":" ++ bool_text a.(Cpi.is_signer) ++ str "," ++
  quoted (str "is_writable") ++ str ":" ++ bool_text a.(Cpi.is_writable) ++ str "}".

(** The loop over the accounts, with [first_object]. *)
Fixpoint push_accounts (accounts : list AccountMeta) (first_object : bool) (s : Name) : Name :=
  match accounts with
  | [] => s
  | val :: accounts' =>
      push_accounts accounts' false (s ++ (if first_object then [] else str ",") ++ account_text val)
  end.

(** [{:?}] of the bytes. *)
Definition debug_bytes (d : list Z) : Name := str "[" ++ join (str ", ") (map decimal_text d) ++ str "]".

Definition instruction_to_string (inst : Instruction) : Name :=
  let s := str "{" ++ quoted (str "program_id") ++ str ":" ++ quoted (key_text inst.(Cpi.program_id)) ++
           str "," ++ quoted (str "accounts") ++ str ":[" in
  push_accounts inst.(Cpi.accounts) true s ++
  str "]," ++ quoted (str "data") ++ str ":" ++ debug_bytes inst.(Cpi.data) ++ str "}".

(** The loop of [pubkey_map_to_string], over the map in its order; the first entry
    is known by the length of the text. *)
Fixpoint push_entries (entries : list (Name * Z)) (s : Name) : Name :=
  match entries with
  | [] => s
  | (key, val) :: entries' =>
      push_entries entries'
        (s ++ (if (List.length s =? 1)%nat then [] else str ",") ++ quoted key ++ str ":" ++ quoted (key_text val))
  end.

Definition pubkey_map_to_string `{HashOrder} (m : gmap (list Z) Z) : Name :=
  if bool_decide (m = ∅) then str "{}" else push_entries (hash_iter m) (str "{") ++ str "}".

(** What the two stand for. *)
Definition account_json (a : AccountMeta) : Json :=
  JObject [(str "pubkey", JText (key_text a.(Cpi.pubkey)));
           (str "is_signer", JBool a.(Cpi.is_signer)); (str "is_writable", JBool a.(Cpi.is_writable))].

Definition instruction_json (inst : Instruction) : Json :=
  JObject [(str "program_id", JText (key_text inst.(Cpi.program_id)));
           (str "accounts", JList (map account_json inst.(Cpi.accounts)));
           (str "data", JList (map JInt inst.(Cpi.data)))].

Definition map_json (entries : list (Name * Z)) : Json :=
  JObject (map (fun p => (p.1, JText (key_text p.2))) entries).

(** A text that JSON writes as it is. *)
Definition plain (s : Name) : Prop := concat (map json_escape s) = s.

Lemma plain_string s : plain s -> json_string s = quoted s.
Proof. unfold plain, json_string. by intros ->. Qed.

Lemma join_cons x l : l <> [] -> join (str ",") (x :: l) = x ++ str "," ++ join (str ",") l.
Proof. by destruct l. Qed.

Lemma push_accounts_spec l b s :
  push_accounts l b s =
  s ++ (if b || bool_decide (l = []) then [] else str ",") ++ join (str ",") (map account_text l).
Proof.
  revert b s. induction l as [|a l IH]; intros b s; cbn [push_accounts map].
  - cbn [join]. rewrite bool_decide_eq_true_2, orb_true_r by done. by rewrite !app_nil_r.
  - rewrite IH, (bool_decide_eq_false_2 (a :: l = [])), orb_false_r by done. cbn [orb].
    destruct l as [|a' l]; cbn [map join]; rewrite <- !app_assoc; [by rewrite app_nil_r|done].
Qed.

Lemma push_entries_spec l s : s <> [] ->
  push_entries l s =
  s ++ (if (List.length s =? 1)%nat || bool_decide (l = []) then [] else str ",") ++
  join (str ",") (map (fun p => quoted p.1 ++ str ":" ++ quoted (key_text p.2)) l).
Proof.
  revert s. induction l as [|[k v] l IH]; intros s Hs; cbn [push_entries map].
  - cbn [join]. rewrite bool_decide_eq_true_2, orb_true_r by done. by rewrite !app_nil_r.
  - rewrite IH by (destruct s; done). rewrite (bool_decide_eq_false_2 ((k, v) :: l = [])), orb_false_r by done.
    replace (List.length (s ++ _) =? 1)%nat with false.
    2: { symmetry. apply Nat.eqb_neq. unfold quoted, quote. rewrite !length_app. simpl. destruct s; simpl; lia. }
    cbn [orb fst snd].
    destruct l as [|[k' v'] l]; cbn [map join]; rewrite <- !app_assoc; [by rewrite app_nil_r|done].
Qed.

Context `{!KeyTextLaws}.

Lemma key_plain k : plain (key_text k).
Proof.
  unfold plain. induction (key_text_plain k) as [|b l [Hb Hs] _ IH]; [done|].
  simpl. rewrite IH. unfold json_escape.
  repeat match goal with |- context [if ?c then _ else _] => destruct c eqn:?; [lia|] end. done.
Qed.

(** The text for a map of keys is the JSON of the map, for names without
    characters that JSON escapes. *)
Theorem map_text_is_json `{HashOrder} (m : gmap (list Z) Z) :
  map_Forall (fun name _ => plain name) m ->
  pubkey_map_to_string m = json_text (map_json (hash_iter m)).
Proof.
  intros Hm. unfold pubkey_map_to_string, map_json.
  assert (Hp : Forall (fun p => plain p.1) (hash_iter m)).
  { apply Forall_forall. intros [k v] Hin. apply (Hm k v).
    apply elem_of_map_to_list. by rewrite <- (hash_iter_perm m). }
  assert (Hj : map (fun p : Name * Json => json_string p.1 ++ str ":" ++ json_text p.2)
                 (map (fun p => (p.1, JText (key_text p.2))) (hash_iter m)) =
               map (fun p => quoted p.1 ++ str ":" ++ quoted (key_text p.2)) (hash_iter m)).
  { rewrite map_map. apply map_ext_in. intros [k v] Hin. cbn [fst snd json_text].
    rewrite Forall_forall in Hp. rewrite !plain_string; [done | apply key_plain |].
    by apply (Hp (k, v)), list_elem_of_In. }
  case_bool_decide as He.
  - assert (hash_iter m = []) as ->; [|done].
    apply Permutation_nil_r. rewrite (hash_iter_perm m). subst. by rewrite map_to_list_empty.
  - cbn [json_text]. rewrite Hj, push_entries_spec by done. cbn [orb]. by rewrite <- !app_assoc.
Qed.

Lemma account_text_json a : account_text a = json_text (account_json a).
Proof.
  unfold account_text, account_json. cbn [json_text map join fst snd].
  rewrite !plain_string by (reflexivity || apply key_plain). by rewrite <- !app_assoc.
Qed.

Lemma accounts_text_json l : map account_text l = map json_text (map account_json l).
Proof. rewrite map_map. apply map_ext. intros a. apply account_text_json. Qed.

(** The text for an instruction is its JSON but for the blanks between the bytes
    of the data. *)
Lemma instruction_text_is_json i : exists before,
  instruction_to_string i = before ++ debug_bytes i.(Cpi.data) ++ str "}" /\
  json_text (instruction_json i) = before ++ json_text (JList (map JInt i.(Cpi.data))) ++ str "}".
Proof.
  eexists (str "{" ++ quoted (str "program_id") ++ str ":" ++ quoted (key_text i.(Cpi.program_id)) ++
           str "," ++ quoted (str "accounts") ++ str ":[" ++
           join (str ",") (map account_text i.(Cpi.accounts)) ++ str "]," ++ quoted (str "data") ++ str ":").
  unfold instruction_to_string. rewrite push_accounts_spec. cbn [orb]. split.
  - by rewrite <- !app_assoc.
  - unfold instruction_json. cbn [json_text map join fst snd].
    rewrite !plain_string by (reflexivity || apply key_plain).
    rewrite accounts_text_json, <- !app_assoc. done.
Qed.

(** A name with a quote makes a text that is no JSON: the quote is not escaped. *)
Lemma quote_in_name_not_escaped `{HashOrder} k :
  pubkey_map_to_string {[str "a" ++ quote := k]} =
  str "{" ++ quote ++ str "a" ++ quote ++ quote ++ str ":" ++ quoted (key_text k) ++ str "}".
Proof.
  unfold pubkey_map_to_string. rewrite bool_decide_eq_false_2 by apply map_non_empty_singleton.
  assert (hash_iter {[str "a" ++ quote := k]} = [(str "a" ++ quote, k)]) as ->.
  { apply Permutation_singleton_r. rewrite (hash_iter_perm _). by rewrite map_to_list_singleton. }
  unfold push_entries. by rewrite <- !app_assoc.
Qed.
End ByHand.

(** A sample for base58: the bits of a number, and a mark at the end. *)
Fixpoint pos_text (p : positive) : Name :=
  match p with xH => [50] | xO p' => 48 :: pos_text p' | xI p' => 49 :: pos_text p' end.

Fixpoint text_pos (s : Name) : option positive :=
  match s with
  | [50] => Some xH
  | 48 :: s' => xO <$> text_pos s'
  | 49 :: s' => xI <$> text_pos s'
  | _ => None
  end.

Definition sample_key_text : KeyText :=
  {| key_text k := pos_text (encode k); key_of_text s := text_pos s ≫= decode |}.

Lemma text_pos_text p : text_pos (pos_text p) = Some p.
Proof. induction p as [p IH|p IH|]; simpl; rewrite ?IH; done. Qed.

Definition sample_key_text_laws : @KeyTextLaws sample_key_text.
Proof.
  split; intros k; simpl.
  - rewrite text_pos_text. simpl. apply decode_encode.
  - by destruct (encode k).
  - induction (encode k); simpl; constructor; (lia || done).
Defined.

Lemma map_text_is_json_witness :
  let m : gmap (list Z) Z := {[str "RDM.RAY" := 5]} in
  map_Forall (fun name _ => plain name) m /\
  @pubkey_map_to_string sample_key_text hash_order_model m =
  json_text (@map_json sample_key_text (@hash_iter hash_order_model _ m)).
Proof.
  assert (Hp : map_Forall (fun name (_ : Z) => plain name) ({[str "RDM.RAY" := 5]} : gmap (list Z) Z)).
  { intros n k Hl. apply lookup_singleton_Some in Hl as [<- _]. reflexivity. }
  split; [exact Hp|].
  exact (@map_text_is_json sample_key_text sample_key_text_laws hash_order_model _ Hp).
Defined.

Lemma fields_read_back_witness :
  @pubkey_deserialize sample_key_text (@pubkey_serialize sample_key_text 7) = Read 7.
Proof.
  exact (proj1 (@fields_read_back sample_key_text sample_key_text_laws 7 None [] [])).
Defined.

(** ** Derived addresses *)

(** [Pubkey::create_program_address]: [None] where the seeds give a point of the
    curve. *)
Class CreateAddress := { create_program_address : list Name -> Z -> option Z }.

(** [find_program_address] is documented as the address of the seeds with the bump
    that it returns. *)
Class CreateAddressLaws `{CreateAddress} `{Runtime} := {
  found_address seeds program : create_program_address (seeds ++ [[snd (find_program_address seeds program)]]) program
                                = Some (fst (find_program_address seeds program));
}.

Section Addresses.
Context `{FarmEnv} `{CreateAddress}.

Definition find_target_pda_with_bump (storage_type : StorageType) (target_name : Name) (bump : Z)
    : result ProgramError Z :=
  match create_program_address [storage_name storage_type; target_name; [bump]] main_router with
  | Some k => Ok k
  | None => Err InvalidSeeds
  end.

Definition find_description_pda (storage_type : StorageType) (target_name : Name) : Z * Z :=
  find_program_address [storage_name storage_type; target_name; str "description"] main_router.

(** The names in the seeds are those that are displayed. *)
Lemma storage_name_display t : storage_name t = str (display t).
Proof. by destruct t. Qed.

(** The bump that was found gives the address again. *)
Lemma target_pda_with_its_bump `{!CreateAddressLaws} t name :
  find_target_pda_with_bump t name (snd (find_target_pda t name)) = Ok (fst (find_target_pda t name)).
Proof.
  unfold find_target_pda_with_bump, find_target_pda.
  pose proof (found_address [storage_name t; name] main_router) as E. simpl in E. by rewrite E.
Qed.

(** [get_associated_authority]: the seeds for a nonce. *)
Definition authority_seeds (market_id nonce : Z) : list Name :=
  [to_le_bytes 32 market_id; [nonce]; replicate 7 0].

Fixpoint try_nonces (fuel : nat) (nonce : Z) (program_id market_id : Z) : result string Z :=
  match fuel with
  | O => Err "Unable to find a valid program address"%string
  | S fuel' =>
      match create_program_address (authority_seeds market_id nonce) program_id with
      | Some public_key => Ok public_key
      | None => try_nonces fuel' (nonce + 1) program_id market_id
      end
  end.

Definition get_associated_authority (program_id market_id : Z) : result string Z :=
  try_nonces 100 0 program_id market_id.

Lemma try_nonces_spec fuel nonce program_id market_id r :
  try_nonces fuel nonce program_id market_id = r <->
  (exists i : nat, exists k, (i < fuel)%nat /\ r = Ok k /\
     create_program_address (authority_seeds market_id (nonce + Z.of_nat i)) program_id = Some k /\
     forall j : nat, (j < i)%nat ->
       create_program_address (authority_seeds market_id (nonce + Z.of_nat j)) program_id = None) \/
  (r = Err "Unable to find a valid program address"%string /\
   forall j : nat, (j < fuel)%nat ->
     create_program_address (authority_seeds market_id (nonce + Z.of_nat j)) program_id = None).
Proof.
  revert nonce r. induction fuel as [|fuel IH]; intros nonce r; simpl.
  - split; [intros <-; right; split; [done | lia] |].
    intros [(i & k & Hi & _)|[-> _]]; [lia | done].
  - assert (Hshift : forall j, nonce + 1 + Z.of_nat j = nonce + Z.of_nat (S j)) by lia.
    assert (Hzero : nonce = nonce + Z.of_nat 0) by lia.
    destruct (create_program_address (authority_seeds market_id nonce) program_id) as [k|] eqn:E.
    + split.
      * intros <-. left. exists 0%nat, k. rewrite <- Hzero. split_and!; [lia | done | done | lia].
      * intros [(i & k' & Hi & -> & Ek & Hn)|[-> Hn]].
        -- destruct i as [|i]; [rewrite <- Hzero in Ek; congruence|].
           specialize (Hn 0%nat ltac:(lia)). rewrite <- Hzero in Hn. congruence.
        -- specialize (Hn 0%nat ltac:(lia)). rewrite <- Hzero in Hn. congruence.
    + rewrite IH. split.
      * intros [(i & k & Hi & -> & Ek & Hn)|[-> Hn]].
        -- left. exists (S i), k. rewrite <- Hshift. split_and!; [lia | done | done |].
           intros [|j] Hj; [by rewrite <- Hzero|]. rewrite <- Hshift. apply Hn. lia.
        -- right. split; [done|]. intros [|j] Hj; [by rewrite <- Hzero|]. rewrite <- Hshift. apply Hn. lia.
      * intros [(i & k & Hi & -> & Ek & Hn)|[-> Hn]].
        -- destruct i as [|i]; [rewrite <- Hzero in Ek; congruence|].
           left. exists i, k. rewrite Hshift. split_and!; [lia | done | done |].
           intros j Hj. rewrite Hshift. apply Hn. lia.
        -- right. split; [done|]. intros j Hj. rewrite Hshift. apply Hn. lia.
Qed.

(** The authority of a market is the address of its first nonce below 100 that
    gives one, and the error when none does. *)
Theorem market_authority_is_first (program_id market_id : Z) (r : result string Z) :
  get_associated_authority program_id market_id = r <->
  (exists nonce : nat, exists k, (nonce < 100)%nat /\ r = Ok k /\
     create_program_address (authority_seeds market_id (Z.of_nat nonce)) program_id = Some k /\
     forall j : nat, (j < nonce)%nat ->
       create_program_address (authority_seeds market_id (Z.of_nat j)) program_id = None) \/
  (r = Err "Unable to find a valid program address"%string /\
   forall j : nat, (j < 100)%nat ->
     create_program_address (authority_seeds market_id (Z.of_nat j)) program_id = None).
Proof. apply (try_nonces_spec 100 0). Qed.
End Addresses.

(** ** The place of an instruction in its transaction *)

(** What the sysvar of the instructions holds, and reading it. *)
Class InstructionsSysvar := {
  sysvar_id : Z;
  load_current_index : AccountInfo -> result ProgramError Z;
  load_instruction_at : Z -> AccountInfo -> result ProgramError Instruction;
}.

Section Place.
Context `{InstructionsSysvar}.

Definition is_single_instruction (sysvar_account : AccountInfo) : result ProgramError bool :=
  if negb (sysvar_id =? sysvar_account.(SdkAccount.key)) then Err UnsupportedSysvar else
  i <-? load_current_index sysvar_account ;;
  Ok ((i =? 0) && is_err (load_instruction_at 1 sysvar_account)).

(** The next instruction is not asked for at the first. *)
Definition is_first_or_last_instruction (sysvar_account : AccountInfo) : result ProgramError bool :=
  if negb (sysvar_id =? sysvar_account.(SdkAccount.key)) then Err UnsupportedSysvar else
  instruction_index <-? load_current_index sysvar_account ;;
  Ok ((instruction_index =? 0) || is_err (load_instruction_at (instruction_index + 1) sysvar_account)).

Definition is_last_instruction (sysvar_account : AccountInfo) : result ProgramError bool :=
  if negb (sysvar_id =? sysvar_account.(SdkAccount.key)) then Err UnsupportedSysvar else
  instruction_index <-? load_current_index sysvar_account ;;
  Ok (is_err (load_instruction_at (instruction_index + 1) sysvar_account)).

(** The account is the sysvar's, of a transaction with these instructions whose
    [i]th is executed. *)
Definition sysvar_of (account : AccountInfo) (instructions : list Instruction) (i : nat) : Prop :=
  account.(SdkAccount.key) = sysvar_id /\ (i < List.length instructions)%nat /\
  load_current_index account = Ok (Z.of_nat i) /\
  forall n : nat, is_err (load_instruction_at (Z.of_nat n) account) = (List.length instructions <=? n)%nat.

(** The three checks say where the executed instruction is in its transaction. *)
Theorem place_in_transaction (account : AccountInfo) (instructions : list Instruction) (i : nat)
    (Hsysvar : sysvar_of account instructions i) :
  is_single_instruction account = Ok (bool_decide (List.length instructions = 1%nat)) /\
  is_first_or_last_instruction account =
    Ok (bool_decide (i = 0%nat) || bool_decide (S i = List.length instructions)) /\
  is_last_instruction account = Ok (bool_decide (S i = List.length instructions)).
Proof.
  destruct Hsysvar as (Hid & Hi & Hcurrent & Hload).
  unfold is_single_instruction, is_first_or_last_instruction, is_last_instruction.
  rewrite Hid, Z.eqb_refl, Hcurrent. simpl.
  replace (Z.of_nat i + 1) with (Z.of_nat (S i)) by lia.
  pose proof (Hload 1%nat) as H1. change (Z.of_nat 1) with 1 in H1. rewrite H1, (Hload (S i)).
  split_and!; f_equal; apply Bool.eq_iff_eq_true;
    rewrite ?andb_true_iff, ?orb_true_iff, ?bool_decide_eq_true, ?Z.eqb_eq, ?Nat.leb_le; lia.
Qed.
End Place.

Definition sample_sysvar : InstructionsSysvar :=
  {| sysvar_id := 9; load_current_index _ := Ok 0;
     load_instruction_at n _ :=
       if n <? 2 then Ok {| Cpi.program_id := 1; Cpi.accounts := []; Cpi.data := [] |}
       else Err InvalidArgument |}.

Definition sample_sysvar_account : AccountInfo :=
  {| SdkAccount.key := 9; SdkAccount.owner := 0; SdkAccount.lamports := 0; SdkAccount.data := [];
     SdkAccount.is_signer := false |}.

Lemma place_in_transaction_witness :
  let two := replicate 2 {| Cpi.program_id := 1; Cpi.accounts := []; Cpi.data := [] |} in
  @sysvar_of sample_sysvar sample_sysvar_account two 0 /\
  @is_single_instruction sample_sysvar sample_sysvar_account = Ok false.
Proof.
  set (two := replicate 2 _).
  assert (Hs : @sysvar_of sample_sysvar sample_sysvar_account two 0).
  { split_and!; [done | simpl; lia | done |]. intros [|[|n]]; [done | done |].
    unfold load_instruction_at, sample_sysvar. rewrite (proj2 (Z.ltb_ge _ _)) by lia. done. }
  split; [exact Hs|].
  exact (proj1 (@place_in_transaction sample_sysvar _ _ _ Hs)).
Defined.
